(* ===== verification/_CoqProject ===== *)
-Q . S2P
Prelude.v
Bitmap.v
Split.v
Reassembly.v
ReassemblyInv.v
ReassemblyProps.v
ReassemblyRound.v
Table.v
Rounds.v
Freshness.v
Sched.v
Link.v
Bytes.v
Hop.v
Revocation.v
RootSet.v
RootRules.v
RevocationRule.v
Confirm.v
Manifest.v
Chain.v
RootRecords.v
RevocationAdmit.v
Succession.v
RevocationStore.v
RevocationOrder.v
Memo.v
Seal.v
SessionFrame.v
Relay.v
ChainStore.v
Admit.v
Service.v
Authz.v
Blob.v
BlobTree.v
BlobSpan.v
BlobProof.v
Storage.v
BlobLevels.v
Spool.v
SpoolHolds.v
SpoolPlan.v
SpoolMessage.v
SpoolMessageRound.v
Scrub.v
ScrubFinds.v
Transfer.v
TransferFetch.v
Gf256.v
Erasure.v
Ratchet.v
Session.v
Box.v
Records.v
Tree.v
Journal.v
Ledger.v
Sync.v
RecordStore.v
HeldStore.v
Exchange.v
ExchangeSafe.v
ExchangePull.v
ExchangeConverge.v
State.v
Scope.v
Setting.v
Schema.v
Trust.v
Prekey.v
Roster.v
RosterReads.v
RosterConverge.v
