(* ===== verification/Prelude.v ===== *)
(** * fuzznet: a verification library

    fuzznet is a freestanding C library for networks without a server: signed
    capabilities, sealed frames over datagrams, and journals of signed records
    that hosts exchange. This library translates its core into Rocq and proves
    what it promises. Source paths are relative to [src/].

    ** The parts, and how they meet

    A datagram enters at [fzn_admit] (admit/admit.c, [Admit]) and passes eight
    steps, each the operation of another component:
    the frame's shape, key, commitment and tag (wire/seal.c,
    session/commitment.c and the frame layout of wire/generated: [Seal]; the
    hop budget a relay spends, wire/relay.c: [Relay]); expiry and replay
    (frame/freshness.c: [Freshness]); a capability chain that reaches the
    sender (chain/chain.c: [Hop], [Chain]), looked up in the chain store
    (chain/chain_store.c: [ChainStore]) or remembered (chain/memo.c: [Memo]);
    reassembly (chunk/reassembly.c: [Reassembly*]) of what chunk/split.c cut
    ([Split]), or of erasure-coded pieces (chunk/erasure.c: [Gf256],
    [Erasure]). A verdict on a chain asks the revocation store
    (chain/revocation.c: [Revocation*], [Confirm]) and the manifest state
    (chain/manifest.c: [Manifest]). Which link a frame leaves by is link/link.c
    and sched/sched.c ([Link], [Sched]); message keys come off a ratchet
    (ratchet/ratchet.c: [Ratchet]).

    Above frames, statements are records (record/record.c: [Records]) in
    streams; a journal (record/journal.c: [Journal]) says what a host has of
    each, a record store (record/store.c: [RecordStore]) keeps them over a
    backend, sync (record/sync.c: [Sync]) compares two journals, and the
    exchange (record/exchange.c: [Exchange]) moves records between two hosts
    on what sync plans.

    Two more tables stand on records: the delivery ledger (record/ledger.c:
    [Ledger]) says what each peer has confirmed holding, and the delta
    (record/store_held.c: [HeldStore]) keeps records in memory while the
    store beneath it refuses them. tree/tree.c ([Tree]) reads an ordered tree
    out of records that claim a parent. [Table] is the generic table that the
    keyed ones ([Journal], [Ledger], [HeldStore]) are read through: rows
    without two of one key, as a finite map.

    Who the roots are is itself signed: the set of additions and removals and
    the rules of quorum and retention over it (chain/root_log.c: [RootSet],
    [RootRules], [RootRecords]) and the successions by which one key follows
    another (chain/succession.c: [Succession]). [Rounds] is the mathematics of
    judging by rounds that [Confirm] and [RootSet] share.

    Content larger than a record is a blob (blob/blob.c: [Blob] its leaves,
    [BlobTree] the streaming tree, [BlobSpan] the spans and their proofs,
    [BlobProof] what proofs prove; blob/levels.c: [BlobLevels] the tree kept
    outside memory), named by the root of a tree of hashes over sealed leaves.

    A blob arrives leaf by leaf from many peers into a spool (spool/spool.c:
    [Spool], over the bit map of [Bitmap] and a [Storage]); what to ask for and
    what to answer is planned (spool/plan.c: [SpoolPlan]), assigned to peers
    under a window (spool/transfer.c: [Transfer], [TransferFetch] the two with
    a peer), carried by four messages (spool/message.c: [SpoolMessage*]), and
    what is held is read again and compared (spool/scrub.c: [Scrub],
    [ScrubFinds]).

    Two hosts that talk share a session (session/session.c: [Session], what is
    derived; session/box.c: [Box], a box sealed to a key without one;
    wire/session_frame.c: [SessionFrame], its frames and counters). A service
    is a stream of a host for one product (chain/service.c: [Service]), and an
    operation on it is granted by what a host's policy states (chain/authz.c:
    [Authz]).

    Hosts replicate shared state over records (state/state.c: [State] the
    table of cells; state/scope.c: [Scope]; state/setting.c: [Setting] the
    settings a cell holds; state/schema.c: [Schema] what a product says its
    settings are). Whom a host trusts is an anchor (trust/trust.c: [Trust]),
    the key that sessions with it begin from is a record of its own
    (prekey/prekey.c: [Prekey], pinned under the anchor), and which of its
    incarnations lives is read from the additions and removals of a roster
    (roster/roster.c: [Roster], [RosterReads], [RosterConverge]), each counted
    only while the chain it was written under is not revoked.

    ** How the code is translated

    A struct is a Record with its fields in order; an enum is an Inductive; a
    function is a Definition or a Fixpoint that returns its result, its
    out-parameters and the objects it changed. An unsigned integer of width
    [w] is a [Z] and an operation that may wrap is written with its wrap
    ([u8] to [u64]); [size_t] is 64 bits. A caller-owned array is a list, its
    length the capacity; bytes are lists of [Z]; a pointer that the source
    tests for NULL is an [option] where the model has the test, and otherwise
    the file's header says that it is given. Reads past a buffer answer 0 in
    the model ([peek], [slice]) and writes past one are dropped ([blit]);
    the invariants and the guards are what keeps the code from either.
    Cryptography is never defined: signatures, hashes, ciphers and nonce
    sources are arguments, with what a theorem needs of them as named
    hypotheses ([hash_fits], [LawfulBackend], [aead_ok], ...), each met by a
    toy instance in a witness. Diagnostics, error-name tables and the wiping
    of locals are left out throughout.

    ** What the theorems show

    - Admission: an admitted frame is authentic and authorised, by a check of
      its sender's chain made for it or remembered from a datagram before it
      (what a remembered check leaves unasked is said there and in [Memo]), a
      stranger changes nothing, no frame is taken twice ([Admit]).
    - Chains and revocation: verification decides validity, delegation never
      outlives what it extends, a hop is revoked only by a root, a quorum of
      live issuers or an open epoch of them; the store keeps its invariant
      under every operation, only the entitled change a row, a revocation
      stands until its issuer withdraws it, order of arrival does not matter
      where it is promised not to, and three theorems say where it does
      ([Chain], [Revocation*], [Confirm], [Manifest], [Memo]).
    - Datagrams: a cut message arrives whole whatever the order and the
      traffic, and the table stays in its bounds ([Reassembly*], [Split]); a
      built frame opens to what was sent ([Seal]); relays spend a budget and
      touch nothing else ([Relay]); the replay window refines a bounded list
      of live nonces ([Freshness]); any [k] of [k + m] pieces rebuild a buffer
      ([Erasure]); both ends of a ratchet derive the same keys ([Ratchet]).
    - Records: a record's encoding round-trips and is the only one
      ([Records]); the journal refines a finite map and only advances
      ([Journal]); a plan is exactly the difference of two journals and no
      peer can aim it ([Sync]); no store can make an act stand
      ([RecordStore]). Whatever peers send, a host holds of every stream it
      follows one signed, hash-linked line ([ExchangeSafe]); a pull ends
      whatever the peer answers ([ExchangePull]); and from an honest peer it
      brings every shared stream to where the peer stands ([ExchangeConverge]).
    - Over records: the ledger says of a peer no more than the highest it
      confirmed ([Ledger]); a store that refuses records loses none of the
      journal's ([HeldStore]); what the root of a tree reaches is marked
      exactly, cycles and all, and children come in an order every host
      computes alike ([Tree]).
    - Roots: judging who is a root ends, in the one self-consistent judgement
      where there is one, and does not depend on the order changes arrived in
      ([RootSet]); quorum and retention rules are the ones that stand
      ([RootRules]); what is issued is read back ([RootRecords]); a succession
      resolves to the same key everywhere or to none ([Succession]).
    - Blobs: a leaf opens to what was sealed and nowhere else ([Blob]); the
      streaming root is RFC 6962's, and the tree is full one leaf before the
      documented bound ([BlobTree]); canonical spans are the nodes of the
      bisection ([BlobSpan]); proofs of them are complete, and sound up to an
      exhibited collision ([BlobProof]); levels on a storage answer what the
      array of all leaves answers ([BlobLevels]).
    - Spools: whatever peers send and whatever the storage refuses, what is
      held is the blob's own ([SpoolHolds]); plans name exactly what is missing
      or held ([SpoolPlan]); assignments never overlap ([Transfer]) and a fetch
      from an honest peer completes ([TransferFetch]); a message says one thing
      in one string ([SpoolMessageRound]); a pass over the cells drops exactly
      those that changed ([ScrubFinds]).
    - Sessions: both ends derive one session with the directions crossed, and
      it binds the two identities ([Session]); a counter is spent once and
      what one end seals the other opens ([SessionFrame]); a box opens for
      whom it was sealed to ([Box]); what is granted was stated ([Authz]).
    - Shared state: the table refines a map of cells and replicas that were
      told the same operations read alike ([State]); of two settings the same
      one stands everywhere, and a setting is one string ([Setting]); a schema
      accepts exactly what its readers read ([Schema]).
    - Hosts: an anchor is taken once ([Trust]); a peer holds the newest prekey
      its host signed ([Prekey]); a removed incarnation stays removed, and
      rosters told the same records in any order read alike where nobody
      contradicts ([RosterConverge]).

    ** Interfaces

    [RecordStore.LawfulBackend] is what the exchange asks of a storage
    backend; the exchange is proved against it and a backend in memory is an
    instance. [ExchangeSafe.host_ok] is the state invariant that the three
    exchange files share. [Seal]'s cipher laws, [Ratchet]'s and [Exchange]'s
    hash laws are the interface of the crypto the consumer binds.
    [HeldStore.RefusingBackend] is the weaker interface of a backend that may
    refuse a record, with a scripted one in its witness. [Storage.Storage] is what the
    levels ask of a storage and [SpoolHolds.SpoolStorage] what a spool asks,
    [TransferFetch.Roomy] adds that it does not refuse; one in memory is an
    instance of each.
    [Session.Agreement] is what a session asks of the key agreement: that the
    two ends compute one secret.

    ** Bounds and fuel

    Every loop of the source is a structural Fixpoint over the list it walks,
    or takes a [nat] of turns that a lemma or the caller shows is enough:
    [Reassembly.emit_run] as many as the run is long; [Freshness.compact] as
    many as are in use; [Revocation.confirm_rounds] the admins and one (a
    round that changes nothing is the last, [Confirm]); [Manifest.satisfy_loop]
    the deficit's rows; [Bytes.ct_loop] the length compared; [Admit.choose] the
    candidate keys; [Erasure.gauss] the [k] columns; [Ratchet.jump_loop] the
    jump, itself bounded by the source; [RecordStore.stands_loop] the
    sequences between the cut and the act; [Exchange.records_loop] the 16-bit
    count asked for, [take_loop] and [push_loop] the 16-bit count of a
    message, [next_want] and [next_offer] the requests and positions left,
    [offer_records] 65535. [Exchange.pull_loop] and [push_driver] wait on a
    peer and run out of turns with [None]; [ExchangePull] shows that
    [pull_bound] turns never do.
    [Tree.reach_loop] takes a pass a node and one; [HeldStore.make_room] and
    [make_row] the rows and one, [flush_loop] and [free_loop] the rows: each
    turn sheds or writes back a row. [RootSet.grow_loop] takes a pass a change
    and one, [settle_loop] a round a change and one, which [Rounds] shows enough;
    [RootRules.hand_loop] the rows and one; [Succession.resolve_loop] the 17
    turns of the source. [BlobTree.split_loop] shifts 64 times, [fold_loop] the
    depth; the descents of [BlobSpan] take 41 turns and [BlobLevels.carry_loop]
    40, their guards on the depth ending them sooner; [levels_subtree] halves a
    64-bit count 64 times. [SpoolPlan.emit] takes a turn a leaf of the run,
    [Scrub.cells_loop] a turn a leaf, [seal_loop] and [step_loop] the limit.
    [Schema.digits_loop] takes 20 turns, the digits of a 64-bit integer. The
    loops of [Roster] walk its lists.

    ** Not modelled

    Crypto bindings (chain/sign_monocypher.c, session's monocypher files,
    session/random.c): calls into a vendored library. Pure I/O and process
    glue: node/, cli/, gui/, net/, local/, tool/, sim/, record/store_file.c,
    spool/spool_file.c, persist/persist_file.c, claim/claim_file.c,
    wire/generated beyond the frame layout (generated for schemas the library
    does not read). Applications over the library: notes/, messages/,
    catalog/, log/, sticker/, qr/, facet/, location/, and persist/, which
    keeps their files: each is a program over the parts above, larger than
    they are, whose substance is files, sockets and formats of others. The
    statements of one kind each that hosts make of themselves are not begun:
    claim/, contact/, device/, disclose/, provision/.
*)

From Stdlib Require Export ZArith Lia ZifyBool.
From stdpp Require Export base list numbers decidable.

#[global] Open Scope Z_scope.

(** ** Machine-width unsigned integers

    A C unsigned integer of width [w] is a [Z] in [0, 2^w). Arithmetic that
    the source performs in a fixed width is written with its wrap-around. *)

Definition UINT8_MAX : Z := 2 ^ 8 - 1.
Definition UINT16_MAX : Z := 2 ^ 16 - 1.
Definition UINT32_MAX : Z := 2 ^ 32 - 1.
Definition UINT64_MAX : Z := 2 ^ 64 - 1.
(** [size_t] on the LP64 targets the library is built for. *)
Definition SIZE_MAX : Z := UINT64_MAX.

Definition u8 (z : Z) : Z := z mod 2 ^ 8.
Definition u16 (z : Z) : Z := z mod 2 ^ 16.
Definition u32 (z : Z) : Z := z mod 2 ^ 32.
Definition u64 (z : Z) : Z := z mod 2 ^ 64.

Definition in_u8 (z : Z) : Prop := 0 <= z <= UINT8_MAX.
Definition in_u16 (z : Z) : Prop := 0 <= z <= UINT16_MAX.
Definition in_u32 (z : Z) : Prop := 0 <= z <= UINT32_MAX.
Definition in_u64 (z : Z) : Prop := 0 <= z <= UINT64_MAX.

(** A byte string. *)
Abbreviation bytes := (list Z).

Create HintDb fzn discriminated.

(** Unfold the width bounds everywhere, so that [lia] sees numerals. *)
Ltac width :=
  unfold in_u8, in_u16, in_u32, in_u64, SIZE_MAX, UINT8_MAX, UINT16_MAX,
    UINT32_MAX, UINT64_MAX in *;
  change (2 ^ 8) with 256 in *; change (2 ^ 16) with 65536 in *;
  change (2 ^ 32) with 4294967296 in *;
  change (2 ^ 64) with 18446744073709551616 in *.

(** [lia] after unfolding the widths. *)
Ltac ulia := width; lia.

(** The same, with quotients and remainders by a constant spelled out. *)
Ltac dlia := width; Z.to_euclidean_division_equations; lia.

Lemma u8_small z : in_u8 z -> u8 z = z.
Proof. unfold u8. intros. apply Z.mod_small. ulia. Qed.
Lemma u16_small z : in_u16 z -> u16 z = z.
Proof. unfold u16. intros. apply Z.mod_small. ulia. Qed.
Lemma u32_small z : in_u32 z -> u32 z = z.
Proof. unfold u32. intros. apply Z.mod_small. ulia. Qed.
Lemma u64_small z : in_u64 z -> u64 z = z.
Proof. unfold u64. intros. apply Z.mod_small. ulia. Qed.

Lemma u8_range z : in_u8 (u8 z).
Proof. unfold u8. pose proof (Z.mod_pos_bound z (2 ^ 8) ltac:(lia)). ulia. Qed.
Lemma u64_range z : in_u64 (u64 z).
Proof. unfold u64. pose proof (Z.mod_pos_bound z (2 ^ 64) ltac:(lia)). ulia. Qed.

(** The saturating sum of two 64-bit clocks: the shape of every deadline and
    horizon in the library, [ahead > UINT64_MAX - now ? UINT64_MAX : now + ahead]. *)
Definition sat_add64 (now ahead : Z) : Z :=
  if ahead >? UINT64_MAX - now then UINT64_MAX else now + ahead.

Lemma sat_add64_spec now ahead :
  sat_add64 now ahead = Z.min UINT64_MAX (now + ahead).
Proof. unfold sat_add64. destruct (Z.gtb_spec ahead (UINT64_MAX - now)); lia. Qed.

Lemma sat_add64_range now ahead :
  in_u64 now -> in_u64 ahead -> in_u64 (sat_add64 now ahead).
Proof. rewrite sat_add64_spec. ulia. Qed.

Lemma sat_add64_ge now ahead :
  in_u64 now -> 0 <= ahead -> now <= sat_add64 now ahead.
Proof. rewrite sat_add64_spec. ulia. Qed.

(** A pointer a caller may leave out. *)
Definition is_null {A} (t : option A) : bool := match t with None => true | Some _ => false end.

(** ** Lists indexed by [Z]: buffers, slices and in-place stores *)

Section Buffers.
Context {A : Type}.
Implicit Types (l : list A) (off len : Z).

Definition zlen l : Z := Z.of_nat (length l).

(** The [len] elements of [l] from offset [off] on. *)
Definition slice off len l : list A :=
  take (Z.to_nat len) (drop (Z.to_nat off) l).

(** [memcpy(l + off, src, |src|)]. Inside the buffer the length of [l] is
    kept; a store past its end shows as a buffer of another length. *)
Definition blit off (src l : list A) : list A :=
  take (Z.to_nat off) l ++ src ++ drop (Z.to_nat off + length src) l.

Lemma zlen_nonneg l : 0 <= zlen l.
Proof. unfold zlen. lia. Qed.

Lemma zlen_app l1 l2 : zlen (l1 ++ l2) = zlen l1 + zlen l2.
Proof. unfold zlen. rewrite length_app. lia. Qed.

Lemma zlen_snoc l x : zlen (l ++ [x]) = zlen l + 1.
Proof. rewrite zlen_app. done. Qed.

Lemma zlen_blit off src l :
  0 <= off -> off + zlen src <= zlen l -> zlen (blit off src l) = zlen l.
Proof.
  unfold zlen, blit. intros. rewrite !length_app, length_take, length_drop. lia.
Qed.

Lemma zlen_slice off len l :
  0 <= off -> 0 <= len -> off + len <= zlen l -> zlen (slice off len l) = len.
Proof. unfold zlen, slice. intros. rewrite length_take, length_drop. lia. Qed.

Lemma lookup_slice off len l (i : nat) :
  0 <= off -> 0 <= len ->
  slice off len l !! i =
    if bool_decide (Z.of_nat i < len) then l !! (Z.to_nat off + i)%nat else None.
Proof.
  intros. unfold slice. case_bool_decide.
  - rewrite lookup_take_lt by lia. by rewrite lookup_drop.
  - rewrite lookup_take_ge by lia. done.
Qed.

Lemma lookup_blit off src l (i : nat) :
  0 <= off -> off + zlen src <= zlen l ->
  blit off src l !! i =
    if bool_decide (off <= Z.of_nat i < off + zlen src)
    then src !! (i - Z.to_nat off)%nat else l !! i.
Proof.
  unfold zlen, blit. intros. case_bool_decide.
  - rewrite lookup_app_r by (rewrite length_take; lia).
    rewrite length_take, lookup_app_l by lia. f_equal. lia.
  - destruct (decide (Z.of_nat i < off)).
    + rewrite lookup_app_l by (rewrite length_take; lia).
      by rewrite lookup_take_lt by lia.
    + rewrite !lookup_app_r by (rewrite ?length_take; lia).
      rewrite length_take, lookup_drop. f_equal. lia.
Qed.

(** What was stored is read back. *)
Lemma slice_blit_same off src l :
  0 <= off -> off + zlen src <= zlen l -> slice off (zlen src) (blit off src l) = src.
Proof.
  intros. apply list_eq. intros i.
  rewrite lookup_slice, lookup_blit by (auto; unfold zlen; lia).
  case_bool_decide.
  - rewrite bool_decide_eq_true_2 by (unfold zlen in *; lia). f_equal. lia.
  - symmetry. apply lookup_ge_None. unfold zlen in *; lia.
Qed.

(** A store leaves every disjoint range alone. *)
Lemma slice_blit_disjoint off src off' len l :
  0 <= off -> off + zlen src <= zlen l -> 0 <= off' -> 0 <= len ->
  off' + len <= off \/ off + zlen src <= off' ->
  slice off' len (blit off src l) = slice off' len l.
Proof.
  intros ???? Hd. apply list_eq. intros i.
  rewrite !lookup_slice, lookup_blit by auto.
  repeat case_bool_decide; auto; exfalso; lia.
Qed.

Lemma slice_slice off len off' len' l :
  0 <= off -> 0 <= off' -> 0 <= len' -> off' + len' <= len ->
  slice off' len' (slice off len l) = slice (off + off') len' l.
Proof.
  intros. apply list_eq. intros i. rewrite !lookup_slice by lia.
  case_bool_decide; [|done]. rewrite bool_decide_eq_true_2 by lia. f_equal. lia.
Qed.

Lemma slice_app off len1 len2 l :
  0 <= off -> 0 <= len1 -> 0 <= len2 ->
  slice off len1 l ++ slice (off + len1) len2 l = slice off (len1 + len2) l.
Proof.
  intros. unfold slice.
  replace (Z.to_nat (off + len1)) with (Z.to_nat off + Z.to_nat len1)%nat by lia.
  rewrite <- drop_drop, take_take_drop. f_equal. lia.
Qed.

Lemma slice_all len l : zlen l <= len -> slice 0 len l = l.
Proof. unfold slice, zlen. intros. cbn. apply take_ge. lia. Qed.
End Buffers.

#[export] Hint Resolve zlen_nonneg : fzn.
Arguments slice : simpl never.
Arguments blit : simpl never.
Arguments zlen : simpl never.

(** [memcmp(a, b, n) == 0] on two arrays of the same [n] bytes. *)
Definition memeq (a b : bytes) : bool := bool_decide (a = b).

Lemma memeq_true a b : memeq a b = true <-> a = b.
Proof. apply bool_decide_eq_true. Qed.
Lemma memeq_refl a : memeq a a = true.
Proof. by apply memeq_true. Qed.

(** ** Loops over an array of records *)

Section Loops.
Context {A : Type}.
Implicit Types (f : A -> bool) (l : list A).

(** [for (i = 0; i < n; i++) if (f(a[i])) count++;] *)
Fixpoint count f l : Z :=
  match l with
  | [] => 0
  | x :: l => (if f x then 1 else 0) + count f l
  end.

(** [for (i = 0; i < n; i++) if (f(a[i])) return i;] *)
Definition find_index f l : option nat := fst <$> list_find (fun x => f x = true) l.

Lemma find_index_Some f l i :
  find_index f l = Some i <->
  exists x, l !! i = Some x /\ f x = true /\
    (forall j y, l !! j = Some y -> (j < i)%nat -> f y = false).
Proof.
  unfold find_index. rewrite fmap_Some. split.
  - intros ([j x] & H & ->). apply list_find_Some in H as (? & ? & Hlt).
    exists x. split_and!; auto. intros k y Hk Hki.
    destruct (f y) eqn:E; [|done]. by destruct (Hlt k y Hk Hki).
  - intros (x & Hx & Hf & Hlt). exists (i, x). split; [|done].
    apply list_find_Some. split_and!; auto. intros j y Hj Hji Hy.
    rewrite (Hlt j y Hj Hji) in Hy. done.
Qed.

Lemma find_index_None f l :
  find_index f l = None <-> forall i x, l !! i = Some x -> f x = false.
Proof.
  unfold find_index. rewrite fmap_None, list_find_None, Forall_lookup.
  split; intros H i x Hx; specialize (H i x Hx); by destruct (f x).
Qed.

(** Replacing an element by one that tests alike leaves the search alone. *)
Lemma find_index_insert f l i x y :
  l !! i = Some x -> f y = f x -> find_index f (<[i := y]> l) = find_index f l.
Proof.
  intros Hi Hf. assert (forall j, f <$> (<[i := y]> l) !! j = f <$> l !! j) as Hsame.
  { intros j. destruct (decide (j = i)) as [->|].
    - rewrite list_lookup_insert_eq by (by eapply lookup_lt_Some). rewrite Hi. cbn. by rewrite Hf.
    - by rewrite list_lookup_insert_ne. }
  destruct (find_index f l) as [k|] eqn:E.
  - apply find_index_Some in E as (z & Hk & Hz & Hlt). apply find_index_Some.
    pose proof (Hsame k) as Hk'. rewrite Hk in Hk'. apply fmap_Some in Hk' as (z' & Hz' & E).
    exists z'. split_and!; [done|congruence|]. intros j w Hj Hjk. pose proof (Hsame j) as Hj'.
    rewrite Hj in Hj'. symmetry in Hj'. apply fmap_Some in Hj' as (w' & Hw' & ->). by apply (Hlt j).
  - apply find_index_None. intros j w Hj. rewrite find_index_None in E. pose proof (Hsame j) as Hj'.
    rewrite Hj in Hj'. symmetry in Hj'. apply fmap_Some in Hj' as (w' & Hw' & ->). by apply (E j).
Qed.

Lemma count_nonneg f l : 0 <= count f l.
Proof. induction l as [|x l IH]; cbn; [lia|]. destruct (f x); lia. Qed.

Lemma count_le_zlen f l : count f l <= zlen l.
Proof.
  unfold zlen. induction l as [|x l IH]; [done|]. cbn [count length].
  destruct (f x); lia.
Qed.

Lemma count_app f l1 l2 : count f (l1 ++ l2) = count f l1 + count f l2.
Proof. induction l1 as [|x l1 IH]; cbn; [done|]. rewrite IH. lia. Qed.

(** Replacing one element moves the count by what that element counted. *)
Lemma count_insert f l i x y :
  l !! i = Some x ->
  count f (<[i := y]> l) = count f l - (if f x then 1 else 0) + (if f y then 1 else 0).
Proof.
  revert i. induction l as [|z l IH]; intros [|i] Hi; simplify_eq/=; [lia|].
  rewrite (IH i Hi). lia.
Qed.

Lemma count_ext f g l :
  (forall i x, l !! i = Some x -> f x = g x) -> count f l = count g l.
Proof.
  induction l as [|x l IH]; intros H; cbn; [done|].
  rewrite (H 0%nat x eq_refl), IH; [done|]. intros i y Hy. by apply (H (S i)).
Qed.

Lemma count_mono f g l :
  (forall i x, l !! i = Some x -> f x = true -> g x = true) -> count f l <= count g l.
Proof.
  induction l as [|x l IH]; intros H; cbn; [done|].
  pose proof (IH (fun i y Hy => H (S i) y Hy)).
  pose proof (H 0%nat x eq_refl). destruct (f x), (g x); try lia; naive_solver.
Qed.

Lemma count_strict f g l x :
  (forall y, f y = true -> g y = true) -> x ∈ l -> f x = false -> g x = true -> count f l < count g l.
Proof.
  intros H Hx Hf Hg. induction l as [|y l IH]; [by apply not_elem_of_nil in Hx|]. cbn.
  pose proof (count_mono f g l (fun _ y _ => H y)). apply elem_of_cons in Hx as [<-|Hx].
  - rewrite Hf, Hg. lia.
  - specialize (IH Hx). specialize (H y). destruct (f y), (g y); try lia; by specialize (H eq_refl).
Qed.

Lemma count_all f l : count f l = zlen l <-> forall i x, l !! i = Some x -> f x = true.
Proof.
  unfold zlen. induction l as [|x l IH]; cbn [count length]; [naive_solver|].
  pose proof (count_le_zlen f l) as Hle. unfold zlen in Hle. split.
  - intros H. destruct (f x) eqn:E; [|lia].
    intros [|i] y Hy; simplify_eq/=; [done|]. eapply IH; [lia|done].
  - intros H. rewrite (H 0%nat x eq_refl). destruct IH as [_ IH].
    rewrite IH; [lia|]. intros i y Hy. by apply (H (S i)).
Qed.

Lemma count_none f l : (forall i x, l !! i = Some x -> f x = false) -> count f l = 0.
Proof.
  induction l as [|x l IH]; intros H; cbn; [done|].
  rewrite (H 0%nat x eq_refl), IH; [done|]. intros i y Hy. by apply (H (S i)).
Qed.

(** [for (i = 0; i < n; i++) if (f(a[i])) return 1;] *)
Lemma existsb_lookup f l : existsb f l = true <-> exists i x, l !! i = Some x /\ f x = true.
Proof.
  rewrite existsb_exists. setoid_rewrite <- list_elem_of_In.
  setoid_rewrite list_elem_of_lookup. firstorder eauto.
Qed.
End Loops.

Lemma forallb_true_Forall {A} (f : A -> bool) l : forallb f l = true <-> Forall (fun x => f x = true) l.
Proof.
  induction l as [|x l IH]; cbn; [split; auto|]. rewrite andb_true_iff, IH, Forall_cons_iff. done.
Qed.

Lemma count_fmap {A B} (g : A -> B) f l : count f (g <$> l) = count (f ∘ g) l.
Proof. induction l as [|x l IH]; cbn; [done|]. by rewrite IH. Qed.

(** An interval cut at one of its elements. *)
Lemma seqZ_split m n k :
  m <= k < m + n -> seqZ m n = seqZ m (k - m) ++ k :: seqZ (k + 1) (m + n - k - 1).
Proof.
  intros. replace n with ((k - m) + (1 + (m + n - k - 1))) at 1 by lia.
  rewrite seqZ_app by lia. f_equal. replace (m + (k - m)) with k by lia.
  rewrite seqZ_cons by lia. f_equal. f_equal; lia.
Qed.

(** The sum of [w] over the elements of [l] that satisfy [f]. *)
Fixpoint wsum (w : Z -> Z) (f : Z -> bool) (l : list Z) : Z :=
  match l with
  | [] => 0
  | x :: l => (if f x then w x else 0) + wsum w f l
  end.

Lemma wsum_app w f l1 l2 : wsum w f (l1 ++ l2) = wsum w f l1 + wsum w f l2.
Proof. induction l1 as [|x l1 IH]; cbn; [done|]. rewrite IH. lia. Qed.

Lemma wsum_ext w f g l :
  (forall x, x ∈ l -> f x = g x) -> wsum w f l = wsum w g l.
Proof.
  induction l as [|x l IH]; intros H; cbn; [done|].
  rewrite (H x) by constructor. rewrite IH; [done|]. intros y Hy. apply H. by constructor.
Qed.

Lemma wsum_set w f g m n k :
  m <= k < m + n -> f k = false -> g k = true ->
  (forall j, m <= j < m + n -> j <> k -> g j = f j) ->
  wsum w g (seqZ m n) = wsum w f (seqZ m n) + w k.
Proof.
  intros Hk Hf Hg He. rewrite (seqZ_split m n k) by done. rewrite !wsum_app. cbn.
  rewrite Hf, Hg, (wsum_ext w g f (seqZ m _)), (wsum_ext w g f (seqZ (k + 1) _)); [lia|..];
    intros x Hx; apply elem_of_seqZ in Hx; apply He; lia.
Qed.

(** Counting is summing ones. *)
Lemma count_wsum f l : count f l = wsum (fun _ => 1) f l.
Proof. induction l as [|x l IH]; cbn; [done|]. by rewrite IH. Qed.

(** ** Tactics *)

(** Split every boolean guard of the goal or of a hypothesis, once each. *)
Ltac guards :=
  repeat match goal with
    | |- context [if ?b then _ else _] =>
        lazymatch b with context [if _ then _ else _] => fail | _ => destruct b eqn:? end
    | H : context [if ?b then _ else _] |- _ =>
        lazymatch b with context [if _ then _ else _] => fail | _ => destruct b eqn:? end
    end.

(** Turn boolean tests into propositions. *)
Ltac bool_props :=
  repeat match goal with
    | H : context [memeq _ _ = true] |- _ => rewrite memeq_true in H
    | H : (_ && _)%bool = true |- _ => apply andb_true_iff in H; destruct H
    | H : (_ || _)%bool = false |- _ => apply orb_false_iff in H; destruct H
    | H : bool_decide _ = true |- _ => apply bool_decide_eq_true in H
    | H : bool_decide _ = false |- _ => apply bool_decide_eq_false in H
    | H : negb _ = true |- _ => apply negb_true_iff in H
    | H : negb _ = false |- _ => apply negb_false_iff in H
    end.
