(* ===== verification/Bitmap.v ===== *)
(** * Bitmaps

    One bit per index in an array of bytes, as [spool/spool.c] and its
    neighbours keep them, and what setting and clearing a bit does. *)

From S2P Require Import Prelude.

(** [map[index >> 3]] *)
Definition byte_of (map : bytes) (index : Z) : Z := default 0 (map !! Z.to_nat (Z.shiftr index 3)).

Definition bit_get (map : bytes) (index : Z) : bool :=
  negb (Z.land (Z.shiftr (byte_of map index) (Z.land index 7)) 1 =? 0).

Definition bit_clear (map : bytes) (index : Z) : bytes :=
  <[ Z.to_nat (index / 8) :=
       Z.land (default 0 (map !! Z.to_nat (index / 8))) (u8 (Z.lnot (Z.shiftl 1 (index mod 8)))) ]> map.

Definition bit_set (map : bytes) (index : Z) : bytes :=
  <[ Z.to_nat (Z.shiftr index 3) := u8 (Z.lor (byte_of map index) (Z.shiftl 1 (Z.land index 7))) ]> map.

Lemma land_7 i : 0 <= i -> Z.land i 7 = i mod 8.
Proof. intros. change 7 with (Z.ones 3). by rewrite Z.land_ones by lia. Qed.

Lemma shiftr_3 i : Z.shiftr i 3 = i / 8.
Proof. by rewrite Z.shiftr_div_pow2 by lia. Qed.

Lemma bit_get_testbit map i : 0 <= i -> bit_get map i = Z.testbit (byte_of map i) (i mod 8).
Proof.
  intros. unfold bit_get. rewrite land_7 by done.
  change 1 with (Z.ones 1). rewrite Z.land_ones by lia.
  rewrite <- Z.bit0_mod, Z.shiftr_spec by lia.
  change (0 + i mod 8) with (i mod 8). by destruct (Z.testbit _ _).
Qed.

Lemma testbit_one_shift k j : 0 <= k < 8 -> 0 <= j -> Z.testbit (u8 (Z.shiftl 1 k)) j = (k =? j).
Proof.
  intros. rewrite Z.shiftl_1_l, u8_small.
  - apply Z.pow2_bits_eqb; lia.
  - assert (2 ^ k <= 2 ^ 7) by (apply Z.pow_le_mono_r; lia).
    pose proof (Z.pow_pos_nonneg 2 k). width. lia.
Qed.

Lemma testbit_u8 z j : 0 <= j < 8 -> Z.testbit (u8 z) j = Z.testbit z j.
Proof. intros. unfold u8. by rewrite Z.mod_pow2_bits_low by lia. Qed.

(** The bits after one byte has been replaced. *)
Lemma bit_get_insert map i b j : 0 <= i -> 0 <= j -> i < 8 * zlen map ->
  bit_get (<[Z.to_nat (Z.shiftr i 3) := b]> map) j
  = if decide (i / 8 = j / 8) then Z.testbit b (j mod 8) else bit_get map j.
Proof.
  unfold zlen. intros Hi Hj Hlen. rewrite !bit_get_testbit by done. unfold byte_of. rewrite !shiftr_3.
  assert (0 <= i / 8 < Z.of_nat (length map) /\ 0 <= j / 8) as [Hi8 Hj8] by dlia. destruct (decide _) as [E|E].
  - rewrite E, list_lookup_insert_eq by lia. done.
  - rewrite list_lookup_insert_ne by lia. done.
Qed.

Lemma same_bit i j : 0 <= i -> 0 <= j -> (i =? j) = bool_decide (i / 8 = j / 8) && (i mod 8 =? j mod 8).
Proof.
  intros. pose proof (Z.div_mod i 8 ltac:(lia)). pose proof (Z.div_mod j 8 ltac:(lia)). destruct (Z.eqb_spec i j) as [->|Hne].
  - by rewrite bool_decide_true, Z.eqb_refl.
  - case_bool_decide; cbn; lia.
Qed.

(** Setting a bit, however it is spelled, sets that bit and no other. *)
Lemma bit_get_or map i j b : 0 <= i < 8 * zlen map -> 0 <= j ->
  (forall k, 0 <= k < 8 -> Z.testbit b k = Z.testbit (byte_of map i) k || (i mod 8 =? k)) ->
  bit_get (<[Z.to_nat (Z.shiftr i 3) := b]> map) j = (i =? j) || bit_get map j.
Proof.
  intros Hi Hj Hb. rewrite bit_get_insert, same_bit by lia. destruct (decide _) as [E|E].
  - rewrite bool_decide_true, Hb by (done || (apply Z.mod_pos_bound; lia)). rewrite bit_get_testbit by done.
    unfold byte_of. rewrite !shiftr_3, E. cbn. by rewrite orb_comm.
  - by rewrite bool_decide_false.
Qed.

Lemma bit_get_set map i j : 0 <= i < 8 * zlen map -> 0 <= j -> bit_get (bit_set map i) j = (i =? j) || bit_get map j.
Proof.
  intros Hi Hj. apply bit_get_or; [done..|]. intros k Hk. rewrite testbit_u8, Z.lor_spec by done. f_equal.
  rewrite <- testbit_u8, land_7, testbit_one_shift by (try apply Z.mod_pos_bound; lia). done.
Qed.

Lemma bit_get_clear map i j : 0 <= i < 8 * zlen map -> 0 <= j -> bit_get (bit_clear map i) j = negb (i =? j) && bit_get map j.
Proof.
  intros Hi Hj. unfold bit_clear. rewrite <- shiftr_3. fold (byte_of map i). rewrite bit_get_insert, same_bit by lia. destruct (decide _) as [E|E].
  - pose proof (Z.mod_pos_bound j 8 ltac:(lia)). pose proof (Z.mod_pos_bound i 8 ltac:(lia)).
    rewrite bool_decide_true, Z.land_spec, testbit_u8, Z.lnot_spec by (done || lia).
    rewrite <- (testbit_u8 (Z.shiftl _ _)), testbit_one_shift by lia. rewrite bit_get_testbit by done.
    unfold byte_of. rewrite !shiftr_3, E. cbn. by rewrite andb_comm.
  - by rewrite bool_decide_false.
Qed.

Lemma zlen_bit_set map i : zlen (bit_set map i) = zlen map.
Proof. unfold zlen, bit_set. by rewrite length_insert. Qed.
Lemma zlen_bit_clear map i : zlen (bit_clear map i) = zlen map.
Proof. unfold zlen, bit_clear. by rewrite length_insert. Qed.

(** ** Counting the bits set *)

Definition bits (map : bytes) (n : Z) : Z := count (bit_get map) (seqZ 0 n).

Lemma count_seqZ_set (f g : Z -> bool) m n k :
  m <= k < m + n -> f k = false -> g k = true ->
  (forall j, m <= j < m + n -> j <> k -> g j = f j) ->
  count g (seqZ m n) = count f (seqZ m n) + 1.
Proof.
  intros. rewrite !count_wsum. by apply (wsum_set (fun _ => 1) f g m n k).
Qed.

Lemma count_seqZ_le f n : 0 <= n -> 0 <= count f (seqZ 0 n) <= n.
Proof.
  intros. pose proof (count_nonneg f (seqZ 0 n)). pose proof (count_le_zlen f (seqZ 0 n)).
  unfold zlen in *. rewrite length_seqZ in *. lia.
Qed.

Lemma count_seqZ_full f n : 0 <= n -> count f (seqZ 0 n) = n <-> forall i, 0 <= i < n -> f i = true.
Proof.
  intros Hn. pose proof (count_all f (seqZ 0 n)) as Hall.
  unfold zlen in Hall. rewrite length_seqZ, Z2Nat.id in Hall by lia. rewrite Hall. split.
  - intros H i Hi. apply (H (Z.to_nat i)). apply lookup_seqZ. lia.
  - intros H i x Hx. apply lookup_seqZ in Hx. apply H. lia.
Qed.

Lemma bits_range map n : 0 <= n -> 0 <= bits map n <= n.
Proof. apply count_seqZ_le. Qed.

Lemma bits_full map n : 0 <= n -> bits map n = n <-> forall i, 0 <= i < n -> bit_get map i = true.
Proof. apply count_seqZ_full. Qed.

Lemma bits_set map n i : 0 <= i < n -> n <= 8 * zlen map -> bit_get map i = false -> bits (bit_set map i) n = bits map n + 1.
Proof.
  intros Hi Hn Hb. unfold bits. apply (count_seqZ_set _ _ _ _ i); auto; try lia.
  - rewrite bit_get_set by lia. by rewrite Z.eqb_refl.
  - intros j Hj Hne. rewrite bit_get_set by lia. by destruct (Z.eqb_spec i j); [lia|].
Qed.

Lemma bits_clear map n i : 0 <= i < n -> n <= 8 * zlen map -> bit_get map i = true -> bits (bit_clear map i) n = bits map n - 1.
Proof.
  intros Hi Hn Hb. unfold bits. rewrite (count_seqZ_set (bit_get (bit_clear map i)) (bit_get map) 0 n i); [lia|lia|..|done|].
  - rewrite bit_get_clear by lia. by rewrite Z.eqb_refl.
  - intros j Hj Hne. rewrite bit_get_clear by lia. by destruct (Z.eqb_spec i j); [lia|].
Qed.

(** More bits, and one of them new. *)
Lemma count_seqZ_strict (f g : Z -> bool) n k : 0 <= k < n -> f k = false -> g k = true ->
  (forall j, 0 <= j < n -> f j = true -> g j = true) -> count f (seqZ 0 n) < count g (seqZ 0 n).
Proof.
  intros Hk Hf Hg Hmono. rewrite (seqZ_split 0 n k) by lia. rewrite !count_app. cbn [count]. rewrite Hf, Hg.
  pose proof (count_mono f g (seqZ 0 (k - 0))) as H1. pose proof (count_mono f g (seqZ (k + 1) (0 + n - k - 1))) as H2.
  enough (count f (seqZ 0 (k - 0)) <= count g (seqZ 0 (k - 0)) /\
    count f (seqZ (k + 1) (0 + n - k - 1)) <= count g (seqZ (k + 1) (0 + n - k - 1))) by lia.
  split; [apply H1|apply H2]; intros i x Hx; apply lookup_seqZ in Hx; apply Hmono; lia.
Qed.
