(* ===== verification/Split.v ===== *)
(** * chunk/split.c: cutting a message into datagram-sized pieces

    The sending half of the chunk layer: [fzn_split_plan] decides the stride
    and the number of pieces of a message, [fzn_split_at] says which bytes
    piece [i] is. A pointer argument the source tests for NULL is an [option];
    an out-parameter is returned with its new contents. *)

From S2P Require Import Prelude.

(** chunk/reassembly.h: the most chunks one message may claim. *)
Definition FZN_REASM_MAX_CHUNKS : Z := 256.
Definition FZN_SPLIT_MAX_PAYLOAD : Z := 1024.

Inductive fzn_split_err :=
  | FZN_SPLIT_OK
  | FZN_SPLIT_ERR_MALFORMED
  | FZN_SPLIT_ERR_TOO_LARGE
  | FZN_SPLIT_ERR_PAYLOAD_TOO_LARGE.

#[export] Instance fzn_split_err_eq_dec : EqDecision fzn_split_err.
Proof. solve_decision. Defined.

Record fzn_split := mk_split {
  total : Z;
  chunk_size : Z;
  chunks : Z;
  buffer_needed : Z
}.

Definition fzn_split_plan (total max_payload : Z) (out : option fzn_split)
    : fzn_split_err * option fzn_split :=
  match out with
  | None => (FZN_SPLIT_ERR_MALFORMED, out)
  | Some _ =>
    if max_payload =? 0 then (FZN_SPLIT_ERR_MALFORMED, out)
    else if max_payload >? FZN_SPLIT_MAX_PAYLOAD
    then (FZN_SPLIT_ERR_PAYLOAD_TOO_LARGE, out)
    else if total =? 0 then (FZN_SPLIT_ERR_MALFORMED, out)
    else
      let count := total / max_payload in
      let count := if negb (total mod max_payload =? 0) then u64 (count + 1) else count in
      if count >? FZN_REASM_MAX_CHUNKS then (FZN_SPLIT_ERR_TOO_LARGE, out)
      else
        let chunk_size := if count =? 1 then total else max_payload in
        (FZN_SPLIT_OK,
         Some {| total := total;
                 chunks := u16 count;
                 chunk_size := chunk_size;
                 buffer_needed := u64 (chunk_size * count) |})
  end.

(** [*offset] and [*len] are written only on success. *)
Definition fzn_split_at (plan : option fzn_split) (index : Z) (offset len : option Z)
    : fzn_split_err * option Z * option Z :=
  match plan, offset, len with
  | Some p, Some _, Some _ =>
    if (chunks p =? 0) || (chunk_size p =? 0) then (FZN_SPLIT_ERR_MALFORMED, offset, len)
    else if index >=? chunks p then (FZN_SPLIT_ERR_MALFORMED, offset, len)
    else if chunk_size p >? total p then (FZN_SPLIT_ERR_MALFORMED, offset, len)
    else if index >? u64 (total p - 1) / chunk_size p
    then (FZN_SPLIT_ERR_MALFORMED, offset, len)
    else if negb (chunks p =? u64 (u64 (total p - 1) / chunk_size p + 1))
    then (FZN_SPLIT_ERR_MALFORMED, offset, len)
    else
      let start := u64 (index * chunk_size p) in
      (FZN_SPLIT_OK, Some start,
       Some (if index + 1 =? chunks p then u64 (total p - start) else chunk_size p))
  | _, _, _ => (FZN_SPLIT_ERR_MALFORMED, offset, len)
  end.

(** ** The mathematics of a plan *)

(** The plan of a message of [t] bytes in pieces of at most [m], without the
    machine arithmetic: the ceiling of [t / m] pieces. *)
Definition piece_count (t m : Z) : Z := (t + m - 1) / m.

(** A plan as [fzn_split_plan] makes them. *)
Record plan_ok (p : fzn_split) : Prop := {
  plan_total : 0 < total p <= chunk_size p * chunks p;
  plan_stride : 0 < chunk_size p <= FZN_SPLIT_MAX_PAYLOAD;
  plan_chunks : 0 < chunks p <= FZN_REASM_MAX_CHUNKS;
  plan_tail : chunk_size p * (chunks p - 1) < total p;
  plan_le : chunk_size p <= total p;
  plan_buffer : buffer_needed p = chunk_size p * chunks p
}.

(** Length of piece [i]: the stride, or what is left for the last. *)
Definition piece_len (p : fzn_split) (i : Z) : Z :=
  if i + 1 =? chunks p then total p - i * chunk_size p else chunk_size p.

(** Piece [i] of a message [m] under plan [p]: the bytes a sender copies. *)
Definition piece (p : fzn_split) (m : bytes) (i : Z) : bytes :=
  slice (i * chunk_size p) (piece_len p i) m.

(** The indices of a plan's pieces, in order. *)
Definition indices (n : Z) : list Z := seqZ 0 n.

(** ** Lemmas *)

Lemma ceil_step t m :
  0 < m -> 0 <= t ->
  (if negb (t mod m =? 0) then t / m + 1 else t / m) = piece_count t m.
Proof.
  intros. unfold piece_count. pose proof (Z.div_mod t m ltac:(lia)).
  pose proof (Z.mod_pos_bound t m ltac:(lia)).
  destruct (Z.eqb_spec (t mod m) 0); cbn [negb].
  - apply (Z.div_unique _ _ _ (m - 1)); lia.
  - apply (Z.div_unique _ _ _ (t mod m - 1)); lia.
Qed.

Lemma piece_count_bounds t m :
  0 < m -> m * (piece_count t m - 1) < t <= m * piece_count t m.
Proof.
  intros. unfold piece_count.
  pose proof (Z.div_mod (t + m - 1) m ltac:(lia)).
  pose proof (Z.mod_pos_bound (t + m - 1) m ltac:(lia)). lia.
Qed.

Lemma piece_count_pos t m : 0 < m -> 0 < t -> 0 < piece_count t m.
Proof. intros. pose proof (piece_count_bounds t m). nia. Qed.

(** Every branch of [fzn_split_plan], with the machine arithmetic discharged. *)
Lemma split_plan_cases t m s :
  in_u64 t -> in_u64 m ->
  fzn_split_plan t m (Some s) =
    if m =? 0 then (FZN_SPLIT_ERR_MALFORMED, Some s)
    else if m >? FZN_SPLIT_MAX_PAYLOAD then (FZN_SPLIT_ERR_PAYLOAD_TOO_LARGE, Some s)
    else if t =? 0 then (FZN_SPLIT_ERR_MALFORMED, Some s)
    else if piece_count t m >? FZN_REASM_MAX_CHUNKS then (FZN_SPLIT_ERR_TOO_LARGE, Some s)
    else let c := if piece_count t m =? 1 then t else m in
         (FZN_SPLIT_OK, Some (mk_split t c (piece_count t m) (c * piece_count t m))).
Proof.
  intros. unfold fzn_split_plan.
  destruct (Z.eqb_spec m 0); [done|].
  destruct (Z.gtb_spec m FZN_SPLIT_MAX_PAYLOAD); [done|].
  destruct (Z.eqb_spec t 0); [done|].
  unfold FZN_SPLIT_MAX_PAYLOAD in *.
  assert (t / m <= t) by (apply Z.div_le_upper_bound; width; nia).
  assert (0 <= t / m) by (apply Z.div_pos; ulia).
  assert (Hc : (if negb (t mod m =? 0) then u64 (t / m + 1) else t / m) = piece_count t m).
  { rewrite <- ceil_step by ulia. destruct (Z.eqb_spec (t mod m) 0); [done|].
    cbn [negb]. apply u64_small. destruct (Z.eq_dec m 1) as [->|].
    - rewrite Z.mod_1_r in *. lia.
    - assert (t / m <= t / 2) by (apply Z.div_le_compat_l; ulia).
      assert (2 * (t / 2) <= t) by (apply Z.mul_div_le; lia). ulia. }
  rewrite Hc. destruct (Z.gtb_spec (piece_count t m) FZN_REASM_MAX_CHUNKS); [done|].
  pose proof (piece_count_pos t m ltac:(ulia) ltac:(ulia)).
  pose proof (piece_count_bounds t m ltac:(ulia)).
  unfold FZN_REASM_MAX_CHUNKS in *. cbn zeta.
  rewrite u16_small by ulia. destruct (Z.eqb_spec (piece_count t m) 1) as [->|].
  - by rewrite u64_small by ulia.
  - rewrite u64_small by (width; nia). done.
Qed.

Lemma split_plan_ok t m s p :
  in_u64 t -> in_u64 m ->
  fzn_split_plan t m (Some s) = (FZN_SPLIT_OK, Some p) ->
  plan_ok p /\ total p = t /\ chunk_size p <= m.
Proof.
  intros Ht Hm. rewrite split_plan_cases by done.
  unfold FZN_SPLIT_MAX_PAYLOAD, FZN_REASM_MAX_CHUNKS. cbn zeta. intros.
  destruct (Z.eqb_spec m 0), (Z.gtb_spec m 1024), (Z.eqb_spec t 0),
    (Z.gtb_spec (piece_count t m) 256); simplify_eq.
  pose proof (piece_count_pos t m ltac:(ulia) ltac:(ulia)).
  pose proof (piece_count_bounds t m ltac:(ulia)).
  destruct (Z.eqb_spec (piece_count t m) 1) as [E|E];
    (split; [constructor|]); cbn; unfold FZN_SPLIT_MAX_PAYLOAD, FZN_REASM_MAX_CHUNKS; width; nia.
Qed.

Section Plan.
Context (p : fzn_split) (Hp : plan_ok p).

Lemma piece_len_bounds i :
  0 <= i < chunks p -> 0 < piece_len p i <= chunk_size p.
Proof using Hp. destruct Hp. unfold piece_len. intros. destruct (Z.eqb_spec (i + 1) (chunks p)); nia. Qed.

Lemma piece_end i :
  0 <= i < chunks p -> i * chunk_size p + piece_len p i <= total p.
Proof using Hp. destruct Hp. unfold piece_len. intros. destruct (Z.eqb_spec (i + 1) (chunks p)); nia. Qed.

(** The count a plan carries is the one its stride produces. *)
Lemma plan_count : (total p - 1) / chunk_size p + 1 = chunks p.
Proof using Hp.
  destruct Hp.
  rewrite <- (Z.div_unique (total p - 1) (chunk_size p) (chunks p - 1)
                (total p - 1 - chunk_size p * (chunks p - 1))); lia.
Qed.

Lemma split_at_ok i o l :
  0 <= i < chunks p ->
  fzn_split_at (Some p) i (Some o) (Some l) =
    (FZN_SPLIT_OK, Some (i * chunk_size p), Some (piece_len p i)).
Proof using Hp.
  intros. pose proof plan_count. pose proof (piece_end i ltac:(done)).
  pose proof (piece_len_bounds i ltac:(done)). destruct Hp.
  unfold FZN_SPLIT_MAX_PAYLOAD, FZN_REASM_MAX_CHUNKS in *. unfold fzn_split_at.
  rewrite (u64_small (total p - 1)), (u64_small (i * chunk_size p)),
    (u64_small ((total p - 1) / chunk_size p + 1)) by (width; nia).
  destruct (Z.eqb_spec (chunks p) 0); [lia|]. destruct (Z.eqb_spec (chunk_size p) 0); [lia|].
  cbn [orb]. destruct (Z.geb_spec i (chunks p)); [lia|].
  destruct (Z.gtb_spec (chunk_size p) (total p)); [lia|].
  destruct (Z.gtb_spec i ((total p - 1) / chunk_size p)); [lia|].
  destruct (Z.eqb_spec (chunks p) ((total p - 1) / chunk_size p + 1)); [|lia].
  cbn [negb]. unfold piece_len in *.
  destruct (Z.eqb_spec (i + 1) (chunks p)); [|done]. by rewrite u64_small by ulia.
Qed.

Lemma zlen_piece m i :
  zlen m = total p -> 0 <= i < chunks p -> zlen (piece p m i) = piece_len p i.
Proof using Hp.
  intros. unfold piece. pose proof (piece_len_bounds i ltac:(done)).
  pose proof (piece_end i ltac:(done)). destruct Hp. apply zlen_slice; nia.
Qed.

(** The first [n] pieces are the first bytes of the message. *)
Lemma concat_pieces_prefix m (n : nat) :
  zlen m = total p -> Z.of_nat n < chunks p ->
  concat (piece p m <$> indices (Z.of_nat n)) = slice 0 (Z.of_nat n * chunk_size p) m.
Proof using Hp.
  intros Hm. unfold indices. induction n as [|n IH]; intros Hn.
  - done.
  - rewrite seqZ_S, fmap_app, concat_app, IH by lia. cbn [fmap list_fmap concat].
    rewrite app_nil_r, Z.add_0_l.
    unfold piece, piece_len. destruct (Z.eqb_spec (Z.of_nat n + 1) (chunks p)); [lia|].
    destruct Hp. rewrite slice_app by nia. f_equal. lia.
Qed.

Lemma concat_pieces_all m :
  zlen m = total p -> concat (piece p m <$> indices (chunks p)) = m.
Proof using Hp.
  intros Hm. pose proof (plan_chunks _ Hp).
  pose proof (concat_pieces_prefix m (Z.to_nat (chunks p - 1)) Hm ltac:(lia)) as IH.
  unfold indices in *.
  replace (chunks p) with (Z.of_nat (S (Z.to_nat (chunks p - 1)))) at 1 by lia.
  rewrite seqZ_S, fmap_app, concat_app, IH. cbn [fmap list_fmap concat].
  rewrite app_nil_r, Z.add_0_l, Z2Nat.id by lia. unfold piece, piece_len.
  destruct (Z.eqb_spec (chunks p - 1 + 1) (chunks p)); [|lia].
  destruct Hp. rewrite slice_app by nia. apply slice_all. nia.
Qed.
End Plan.

(** ** The promises of the module *)

(** [fzn_split_plan] on every branch. It refuses a zero payload or an empty
    message, a payload no frame carries, and a message of more than 256 pieces,
    leaving the plan alone; otherwise it plans [piece_count] pieces, one stride
    apart, and the pieces of any message of that length, laid end to end, are
    the message. *)
Theorem split_plan_correct t m s :
  in_u64 t -> in_u64 m ->
  match fzn_split_plan t m (Some s) with
  | (FZN_SPLIT_OK, Some p) =>
      0 < t <= m * 256 /\ 0 < m <= FZN_SPLIT_MAX_PAYLOAD /\ total p = t /\
      chunks p = piece_count t m /\ chunk_size p = (if piece_count t m =? 1 then t else m) /\
      buffer_needed p = chunk_size p * chunks p /\
      (forall msg, zlen msg = t -> concat (piece p msg <$> indices (chunks p)) = msg)
  | (FZN_SPLIT_ERR_MALFORMED, out) => (m = 0 \/ t = 0) /\ out = Some s
  | (FZN_SPLIT_ERR_PAYLOAD_TOO_LARGE, out) => FZN_SPLIT_MAX_PAYLOAD < m /\ out = Some s
  | (FZN_SPLIT_ERR_TOO_LARGE, out) => m * 256 < t /\ out = Some s
  | _ => False
  end.
Proof.
  intros Ht Hm. pose proof (split_plan_ok t m s) as Hok.
  rewrite split_plan_cases in * by done. unfold FZN_SPLIT_MAX_PAYLOAD, FZN_REASM_MAX_CHUNKS in *.
  destruct (Z.eqb_spec m 0), (Z.gtb_spec m 1024), (Z.eqb_spec t 0); auto.
  pose proof (piece_count_bounds t m ltac:(ulia)).
  destruct (Z.gtb_spec (piece_count t m) 256).
  - split; [|done]. nia.
  - edestruct Hok as (Hp & ? & ?); [done..|]. cbn in *. repeat split; try (ulia || nia).
    intros msg E. apply (concat_pieces_all _ Hp). done.
Qed.

Lemma split_plan_correct_witness :
  in_u64 2500 /\ in_u64 1000 /\
  0 < 2500 <= 1000 * 256 /\ piece_count 2500 1000 = 3.
Proof.
  pose proof (split_plan_correct 2500 1000 (mk_split 0 0 0 0)) as H.
  assert (H1 : in_u64 2500) by ulia. assert (H2 : in_u64 1000) by ulia.
  specialize (H H1 H2). vm_compute fzn_split_plan in H.
  destruct H as (? & ? & ? & ? & _). split_and!; auto; ulia.
Defined.

(** [fzn_split_at] treats a plan as untrusted: whatever a caller puts in
    its fields, a piece it hands out lies inside the message, is not empty, is
    at most one stride long, and reaches the message's end exactly when it is
    the last. *)
Theorem split_at_never_overreads p i o l start len :
  in_u64 (total p) -> in_u64 (chunk_size p) -> in_u16 (chunks p) -> in_u16 i ->
  fzn_split_at (Some p) i (Some o) (Some l) = (FZN_SPLIT_OK, Some start, Some len) ->
  start = i * chunk_size p /\ 0 < len <= chunk_size p /\ start + len <= total p /\
  (start + len = total p <-> i + 1 = chunks p).
Proof.
  intros Ht Hc Hn Hi. unfold fzn_split_at.
  destruct (Z.eqb_spec (chunks p) 0); [done|]. destruct (Z.eqb_spec (chunk_size p) 0); [done|].
  cbn [orb]. destruct (Z.geb_spec i (chunks p)); [done|].
  destruct (Z.gtb_spec (chunk_size p) (total p)); [done|].
  rewrite (u64_small (total p - 1)) by ulia.
  pose proof (Z.div_mod (total p - 1) (chunk_size p) ltac:(ulia)).
  pose proof (Z.mod_pos_bound (total p - 1) (chunk_size p) ltac:(ulia)).
  set (q := (total p - 1) / chunk_size p) in *.
  destruct (Z.gtb_spec i q); [done|].
  assert (0 <= q < 2 ^ 64) by (width; nia).
  destruct (Z.eqb_spec (chunks p) (u64 (q + 1))) as [E|]; [cbn [negb]|done].
  assert (chunks p = q + 1).
  { destruct (Z.eq_dec q UINT64_MAX) as [Hq|].
    - rewrite Hq in E. change (u64 (UINT64_MAX + 1)) with 0 in E. lia.
    - by rewrite u64_small in E by ulia. }
  rewrite u64_small by (width; nia).
  destruct (Z.eqb_spec (i + 1) (chunks p)); intros; simplify_eq.
  - rewrite u64_small by (width; nia). split; [done|]. assert (i = q) as -> by lia. lia.
  - split; [done|]. assert (i + 1 <= q) by lia. nia.
Qed.

Lemma split_at_never_overreads_witness :
  fzn_split_at (Some (mk_split 10 4 3 12)) 2 (Some 0) (Some 0)
    = (FZN_SPLIT_OK, Some 8, Some 2) /\ 8 + 2 <= 10.
Proof.
  split; [reflexivity|].
  apply (split_at_never_overreads (mk_split 10 4 3 12) 2 0 0); cbn; ulia || reflexivity.
Defined.
