(* ===== verification/Reassembly.v ===== *)
(** * chunk/reassembly.c: datagram reassembly under a memory bound

    A table of slots, each one half-finished message in a caller-owned buffer.
    The array [partials] and its [capacity] are one list (its length is the
    capacity); a slot's [buf] is the list of its bytes, the empty list standing
    for NULL. A pointer to a slot ([*out]) is that slot's index. The diagnostics
    written to a [flog_t] have no effect on the table and are left out. *)

From S2P Require Import Prelude Bitmap Split.

Definition FZN_SENDER_LEN : Z := 32.

Inductive fzn_reasm_err :=
  | FZN_REASM_OK
  | FZN_REASM_ERR_MALFORMED
  | FZN_REASM_ERR_FULL
  | FZN_REASM_ERR_QUOTA
  | FZN_REASM_ERR_MISMATCH
  | FZN_REASM_ERR_CONFLICT
  | FZN_REASM_ERR_TOO_LARGE
  | FZN_REASM_ERR_EXPIRED
  | FZN_REASM_ERR_ABSENT.

#[export] Instance fzn_reasm_err_eq_dec : EqDecision fzn_reasm_err.
Proof. solve_decision. Defined.

(** One half-finished message. *)
Record fzn_partial := mk_partial {
  sender : bytes;
  msg : Z;
  chunks : Z;
  arrived : Z;
  expires_at : Z;
  buf : bytes;
  buf_capacity : Z;
  chunk_size : Z;
  held_bytes : Z;      (* the source's [bytes] *)
  parked : Z;
  seen : bytes;
  live : bool;
  handed : bool
}.

Record fzn_reasm := mk_reasm {
  partials : list fzn_partial;
  per_sender_max : Z;
  max_hold : Z
}.

Record fzn_reasm_range := mk_range { first : Z; range_count : Z }.

(** ** The arrived-set: one bit per chunk *)

Definition seen_byte (seen : bytes) (index : Z) : Z :=
  default 0 (seen !! Z.to_nat (Z.shiftr index 3)).

Definition seen_bit (seen : bytes) (index : Z) : bool :=
  negb (Z.land (Z.shiftr (seen_byte seen index) (Z.land index 7)) 1 =? 0).

Definition seen_get (slot : fzn_partial) (index : Z) : bool := seen_bit (seen slot) index.

Definition seen_set (seen : bytes) (index : Z) : bytes :=
  <[ Z.to_nat (Z.shiftr index 3) :=
       Z.lor (seen_byte seen index) (u8 (Z.shiftl 1 (Z.land index 7))) ]> seen.

Definition offset_of (slot : fzn_partial) (index : Z) : Z :=
  u64 (index * chunk_size slot).

(** ** Searching the table *)

Definition holds_key (sender_ : bytes) (msg_ : Z) (slot : fzn_partial) : bool :=
  live slot && (msg slot =? msg_) && memeq (sender slot) sender_.

Definition find (table : fzn_reasm) (sender_ : bytes) (msg_ : Z) : option nat :=
  find_index (holds_key sender_ msg_) (partials table).

Definition held_by (table : fzn_reasm) (sender_ : bytes) : Z :=
  count (fun slot => live slot && memeq (sender slot) sender_) (partials table).

Definition fzn_reasm_held_by (table : option fzn_reasm) (sender_ : option bytes) : Z :=
  match table, sender_ with
  | Some t, Some s => held_by t s
  | _, _ => 0
  end.

(** ** Setting up *)

Definition zero_seen : bytes := replicate (Z.to_nat (FZN_REASM_MAX_CHUNKS / 8)) 0.

(** [memset(slot, 0, sizeof *slot)] with the buffer then put (back) in. *)
Definition cleared (buf_ : bytes) (capacity : Z) : fzn_partial :=
  {| sender := replicate (Z.to_nat FZN_SENDER_LEN) 0; msg := 0; chunks := 0; arrived := 0;
     expires_at := 0; buf := buf_; buf_capacity := capacity; chunk_size := 0;
     held_bytes := 0; parked := 0; seen := zero_seen; live := false; handed := false |}.

Definition fzn_reasm_slot_init (slot : option fzn_partial) (buf_ : bytes) (capacity : Z)
    : fzn_reasm_err * option fzn_partial :=
  match slot with
  | None => (FZN_REASM_ERR_MALFORMED, slot)
  | Some _ =>
    if (zlen buf_ =? 0) || (capacity =? 0) then (FZN_REASM_ERR_MALFORMED, slot)
    else (FZN_REASM_OK, Some (cleared buf_ capacity))
  end.

Definition fzn_reasm_init (table : option fzn_reasm) (partials_ : option (list fzn_partial))
    (per_sender_max_ max_hold_ : Z) : fzn_reasm_err * option fzn_reasm :=
  match table, partials_ with
  | Some _, Some ps =>
    if (zlen ps =? 0) || (per_sender_max_ =? 0) || (max_hold_ =? 0)
    then (FZN_REASM_ERR_MALFORMED, table)
    else if existsb (fun s => (zlen (buf s) =? 0) || (buf_capacity s =? 0)) ps
    then (FZN_REASM_ERR_MALFORMED, table)
    else (FZN_REASM_OK, Some (mk_reasm ps per_sender_max_ max_hold_))
  | _, _ => (FZN_REASM_ERR_MALFORMED, table)
  end.

(** ** Giving slots back *)

Definition fzn_reasm_release (slot : fzn_partial) : fzn_partial :=
  cleared (buf slot) (buf_capacity slot).

Definition expirable (now : Z) (slot : fzn_partial) : bool :=
  live slot && negb (handed slot) && (expires_at slot <=? now).

Definition with_partials (table : fzn_reasm) (ps : list fzn_partial) : fzn_reasm :=
  mk_reasm ps (per_sender_max table) (max_hold table).

Definition fzn_reasm_expire (table : fzn_reasm) (now : Z) : Z * fzn_reasm :=
  (count (expirable now) (partials table),
   with_partials table
     ((fun s => if expirable now s then fzn_reasm_release s else s) <$> partials table)).

Definition forgettable (sender_ : bytes) (msg_ : Z) (slot : fzn_partial) : bool :=
  live slot && negb (handed slot) && (msg slot =? msg_) && memeq (sender slot) sender_.

Definition fzn_reasm_forget (table : fzn_reasm) (sender_ : bytes) (msg_ : Z) : Z * fzn_reasm :=
  (count (forgettable sender_ msg_) (partials table),
   with_partials table
     ((fun s => if forgettable sender_ msg_ s then fzn_reasm_release s else s)
        <$> partials table)).

(** ** Offering a chunk *)

Definition hold_until (now max_hold : Z) : Z :=
  if max_hold >? UINT64_MAX - now then UINT64_MAX else now + max_hold.

(** Take a free slot, sized from this chunk. The stride is written into the
    slot before the size check can refuse it. *)
Definition admit_first (table : fzn_reasm) (sender_ : bytes)
    (msg_ index chunks_ payload_len expires_at_ : Z)
    : fzn_reasm_err * fzn_reasm * option nat :=
  if (chunks_ =? 0) || (chunks_ >? FZN_REASM_MAX_CHUNKS)
  then (FZN_REASM_ERR_TOO_LARGE, table, None)
  else if index >=? chunks_ then (FZN_REASM_ERR_MISMATCH, table, None)
  else if held_by table sender_ >=? per_sender_max table
  then (FZN_REASM_ERR_QUOTA, table, None)
  else
    match find_index (fun s => negb (live s)) (partials table) with
    | None => (FZN_REASM_ERR_FULL, table, None)
    | Some i =>
      match partials table !! i with
      | None => (FZN_REASM_ERR_FULL, table, None)
      | Some s =>
        let stride :=
          if (chunks_ >? 1) && (index + 1 =? chunks_) then 0 else payload_len in
        if (payload_len =? 0) || (payload_len >? buf_capacity s / chunks_)
        then
          (FZN_REASM_ERR_TOO_LARGE,
           with_partials table
             (<[ i := mk_partial (sender s) (msg s) (chunks s) (arrived s) (expires_at s)
                        (buf s) (buf_capacity s) stride (held_bytes s) (parked s) (seen s)
                        (live s) (handed s) ]> (partials table)), None)
        else
          (FZN_REASM_OK,
           with_partials table
             (<[ i := mk_partial sender_ msg_ chunks_ 0 expires_at_ (buf s) (buf_capacity s)
                        stride 0 0 zero_seen true (handed s) ]> (partials table)), Some i)
      end
    end.

(** [memcpy(buf + off, payload)], the bit set and the counters moved. *)
Definition place (slot : fzn_partial) (off index : Z) (payload : bytes) : fzn_partial :=
  mk_partial (sender slot) (msg slot) (chunks slot) (u16 (arrived slot + 1))
    (expires_at slot) (blit off payload (buf slot)) (buf_capacity slot) (chunk_size slot)
    (u64 (held_bytes slot + zlen payload)) (parked slot) (seen_set (seen slot) index)
    (live slot) (handed slot).

Definition with_parked (slot : fzn_partial) (n : Z) : fzn_partial :=
  mk_partial (sender slot) (msg slot) (chunks slot) (arrived slot) (expires_at slot)
    (buf slot) (buf_capacity slot) (chunk_size slot) (held_bytes slot) n (seen slot)
    (live slot) (handed slot).

(** The stride becomes known: set it, and [memmove] the parked last piece from
    the end of the buffer to its place. *)
Definition set_stride (slot : fzn_partial) (stride : Z) : fzn_partial :=
  let at_ := u64 (buf_capacity slot - parked slot) in
  mk_partial (sender slot) (msg slot) (chunks slot) (arrived slot) (expires_at slot)
    (blit (u64 (u16 (chunks slot - 1) * stride)) (slice at_ (parked slot) (buf slot)) (buf slot))
    (buf_capacity slot) stride (held_bytes slot) (parked slot) (seen slot)
    (live slot) (handed slot).

Definition hand (slot : fzn_partial) : fzn_partial :=
  mk_partial (sender slot) (msg slot) (chunks slot) (arrived slot) (expires_at slot)
    (buf slot) (buf_capacity slot) (chunk_size slot) (held_bytes slot) (parked slot)
    (seen slot) (live slot) true.

(** The checks a chunk of a message already held must pass. *)
Definition later_chunk_ok (slot : fzn_partial) (index chunks_ payload_len : Z) : bool :=
  if negb (chunks slot =? chunks_) then false
  else if index >=? chunks slot then false
  else if index + 1 =? chunks slot
  then negb ((payload_len =? 0)
             || (negb (chunk_size slot =? 0) && (payload_len >? chunk_size slot)))
  else negb (negb (chunk_size slot =? 0) && negb (payload_len =? chunk_size slot)).

(** From the write on: the stride is known. Answers the error, the slot, and
    whether the message is handed to the caller now. *)
Definition place_known (slot : fzn_partial) (index : Z) (payload : bytes)
    : fzn_reasm_err * fzn_partial * bool :=
  let offset := offset_of slot index in
  if (offset >? buf_capacity slot) || (zlen payload >? u64 (buf_capacity slot - offset))
  then (FZN_REASM_ERR_TOO_LARGE, slot, false)
  else if seen_get slot index && negb (memeq (slice offset (zlen payload) (buf slot)) payload)
  then (FZN_REASM_ERR_CONFLICT, slot, false)
  else
    let slot := if seen_get slot index then slot else place slot offset index payload in
    if (arrived slot =? chunks slot) && negb (handed slot)
    then (FZN_REASM_OK, hand slot, true)
    else (FZN_REASM_OK, slot, false).

(** A chunk for a slot, the stride perhaps not yet known. *)
Definition place_chunk (slot : fzn_partial) (index : Z) (payload : bytes)
    : fzn_reasm_err * fzn_partial * bool :=
  if chunk_size slot =? 0 then
    let at_ := u64 (buf_capacity slot - parked slot) in
    if index + 1 =? chunks slot then
      if parked slot =? 0
      then (FZN_REASM_OK,
            with_parked
              (place slot (u64 (buf_capacity slot - zlen payload)) index payload)
              (zlen payload), false)
      else if negb (zlen payload =? parked slot)
              || negb (memeq (slice at_ (zlen payload) (buf slot)) payload)
      then (FZN_REASM_ERR_CONFLICT, slot, false)
      else (FZN_REASM_OK, slot, false)
    else if (zlen payload =? 0) || (zlen payload <? parked slot)
    then (FZN_REASM_ERR_MISMATCH, slot, false)
    else if zlen payload >? buf_capacity slot / chunks slot
    then (FZN_REASM_ERR_TOO_LARGE, slot, false)
    else place_known (set_stride slot (zlen payload)) index payload
  else place_known slot index payload.

(** Put the chunk in slot [i] of the table. *)
Definition place_at (table : fzn_reasm) (i : nat) (index : Z) (payload : bytes)
    : fzn_reasm_err * fzn_reasm * option nat :=
  match partials table !! i with
  | None => (FZN_REASM_ERR_ABSENT, table, None)
  | Some s =>
    let '(err, s', out) := place_chunk s index payload in
    (err, with_partials table (<[ i := s' ]> (partials table)),
     if out then Some i else None)
  end.

Definition chunk_deadline (expires_at now max_hold : Z) : Z :=
  if expires_at =? 0 then hold_until now max_hold
  else if expires_at <? hold_until now max_hold then expires_at else hold_until now max_hold.

(** [fzn_reasm_accept] past its NULL checks. *)
Definition accept (table : fzn_reasm) (sender_ : bytes) (msg_ index chunks_ : Z)
    (payload : bytes) (expires_at_ now : Z) : fzn_reasm_err * fzn_reasm * option nat :=
  let table := snd (fzn_reasm_expire table now) in
  if negb (expires_at_ =? 0) && (expires_at_ <=? now)
  then (FZN_REASM_ERR_EXPIRED, table, None)
  else
    let deadline := chunk_deadline expires_at_ now (max_hold table) in
    match find table sender_ msg_ with
    | None =>
      match admit_first table sender_ msg_ index chunks_ (zlen payload) deadline with
      | (FZN_REASM_OK, table, Some i) => place_at table i index payload
      | (err, table, _) => (err, table, None)
      end
    | Some i =>
      match partials table !! i with
      | Some slot =>
        if later_chunk_ok slot index chunks_ (zlen payload)
        then place_at table i index payload
        else (FZN_REASM_ERR_MISMATCH, table, None)
      | None => (FZN_REASM_ERR_MISMATCH, table, None)
      end
    end.

Definition fzn_reasm_accept (table : option fzn_reasm) (sender_ : option bytes)
    (msg_ index chunks_ : Z) (payload : option bytes) (expires_at_ now : Z)
    (out : option (option nat)) : fzn_reasm_err * option fzn_reasm * option (option nat) :=
  match table, sender_, payload, out with
  | Some t, Some s, Some p, Some _ =>
    let '(err, t', o) := accept t s msg_ index chunks_ p expires_at_ now in
    (err, Some t', Some o)
  | _, _, _, _ => (FZN_REASM_ERR_MALFORMED, table, out)
  end.

(** ** What is still missing *)

(** [emit_run]: append the run [first, first + run) in ranges of at most
    [limit], stopping at [cap] ranges. Answers the ranges, the rest of the run
    and whether it stopped short. Each turn consumes at least one chunk of the
    run, so [run] turns are enough fuel. *)
Fixpoint emit_run (fuel : nat) (out : list fzn_reasm_range) (cap first_ run limit : Z)
    : bool * list fzn_reasm_range * Z * Z :=
  match fuel with
  | O => (true, out, first_, run)
  | S fuel =>
    if run >? 0 then
      let take_ := if run <? limit then run else limit in
      if zlen out >=? cap then (false, out, first_, run)
      else emit_run fuel (out ++ [mk_range (u16 first_) (u16 take_)]) cap
             (first_ + take_) (run - take_) limit
    else (true, out, first_, run)
  end.

Definition emit (out : list fzn_reasm_range) (cap first_ run limit : Z)
    : bool * list fzn_reasm_range * Z * Z :=
  emit_run (Z.to_nat run) out cap first_ run limit.

(** The loop over the chunks [idxs]: count the run of missing ones, emit it at a
    chunk that has arrived, stop when the array is full. *)
Fixpoint want_loop (slot : fzn_partial) (idxs : list Z) (out : list fzn_reasm_range)
    (cap run_first run limit : Z) : list fzn_reasm_range * Z * Z :=
  match idxs with
  | [] => (out, run_first, run)
  | i :: idxs =>
    if negb (seen_get slot i)
    then want_loop slot idxs out cap (if run =? 0 then i else run_first) (run + 1) limit
    else
      let '(more, out, run_first, run) := emit out cap run_first run limit in
      if more then want_loop slot idxs out cap run_first run limit
      else (out, run_first, run)
  end.

Definition fzn_reasm_plan_want (table : fzn_reasm) (sender_ : bytes)
    (msg_ max_per_range cap : Z) : fzn_reasm_err * list fzn_reasm_range :=
  if max_per_range =? 0 then (FZN_REASM_ERR_MALFORMED, [])
  else
    match find table sender_ msg_ with
    | None => (FZN_REASM_ERR_ABSENT, [])
    | Some i =>
      match partials table !! i with
      | None => (FZN_REASM_ERR_ABSENT, [])
      | Some slot =>
        let '(out, run_first, run) :=
          want_loop slot (seqZ 0 (chunks slot)) [] cap 0 0 max_per_range in
        let '(_, out, _, _) := emit out cap run_first run max_per_range in
        (FZN_REASM_OK, out)
      end
    end.

(** * Lemmas *)

(** ** The arrived-set *)

Lemma seen_bit_testbit s i :
  0 <= i -> seen_bit s i = Z.testbit (seen_byte s i) (i mod 8).
Proof. apply bit_get_testbit. Qed.

Lemma seen_bit_zero i : 0 <= i -> seen_bit zero_seen i = false.
Proof.
  intros. rewrite seen_bit_testbit by done. unfold seen_byte, zero_seen.
  destruct (replicate _ 0 !! _) eqn:E; cbn; [|apply Z.testbit_0_l].
  apply lookup_replicate in E as [-> _]. apply Z.testbit_0_l.
Qed.

Definition seen_ok (s : bytes) : Prop := length s = 32%nat.

Lemma seen_ok_zero : seen_ok zero_seen.
Proof. reflexivity. Qed.
Lemma seen_ok_set s i : seen_ok s -> seen_ok (seen_set s i).
Proof. unfold seen_ok, seen_set. by rewrite length_insert. Qed.

(** Setting a bit sets that bit and no other. *)
Lemma seen_bit_set s i j :
  seen_ok s -> 0 <= i < 256 -> 0 <= j < 256 ->
  seen_bit (seen_set s i) j = (i =? j) || seen_bit s j.
Proof.
  unfold seen_ok. intros Hs Hi Hj. apply bit_get_or; [unfold zlen; lia..|]. intros k Hk.
  rewrite Z.lor_spec, land_7, testbit_one_shift by (try apply Z.mod_pos_bound; lia). done.
Qed.

(** How many of the first [n] chunks have arrived. *)
Definition seen_count (s : bytes) (n : Z) : Z := count (seen_bit s) (seqZ 0 n).

Lemma seen_count_zero n : seen_count zero_seen n = 0.
Proof.
  apply count_none. intros i x Hx. apply lookup_seqZ in Hx. apply seen_bit_zero. lia.
Qed.

Lemma seen_count_le s n : 0 <= n -> 0 <= seen_count s n <= n.
Proof. apply count_seqZ_le. Qed.

Lemma seen_count_full s n :
  0 <= n -> seen_count s n = n <-> forall i, 0 <= i < n -> seen_bit s i = true.
Proof. apply count_seqZ_full. Qed.

Lemma seen_count_set s n i :
  seen_ok s -> 0 <= i < n -> n <= 256 -> seen_bit s i = false ->
  seen_count (seen_set s i) n = seen_count s n + 1.
Proof.
  intros Hs Hi Hn Hb. unfold seen_count. apply (count_seqZ_set _ _ _ _ i); auto; try lia.
  - rewrite seen_bit_set by (auto; lia). by rewrite Z.eqb_refl.
  - intros j Hj Hne. rewrite seen_bit_set by (auto; lia).
    destruct (Z.eqb_spec i j); [lia|done].
Qed.
