(* ===== verification/ReassemblyInv.v ===== *)
(** * The reassembly table's invariant

    What a slot and a table satisfy whatever is thrown at them, and that every
    operation of chunk/reassembly.c keeps it: buffers keep their length (so no
    store leaves them), the counters agree with the arrived-set, no sender
    holds more than its quota and no two slots hold one message. *)

From S2P Require Import Prelude Split Reassembly.

(** ** A slot holding a message *)

Record live_wf (s : fzn_partial) : Prop := {
  wf_chunks : 0 < chunks s <= FZN_REASM_MAX_CHUNKS;
  wf_arrived : arrived s = seen_count (seen s) (chunks s);
  wf_stride : 0 <= chunk_size s <= buf_capacity s / chunks s;
  wf_parked : chunk_size s = 0 ->
    1 < chunks s /\ 0 <= parked s <= buf_capacity s / chunks s /\
    forall i, 0 <= i < chunks s -> seen_bit (seen s) i = (i + 1 =? chunks s) && (0 <? parked s);
  wf_bytes : 0 <= held_bytes s <= arrived s * (buf_capacity s / chunks s);
  wf_handed : handed s = true <-> arrived s = chunks s
}.

Record slot_wf (s : fzn_partial) : Prop := {
  wf_buf : zlen (buf s) = buf_capacity s;
  wf_cap : 0 < buf_capacity s <= SIZE_MAX;
  wf_seen : seen_ok (seen s);
  wf_free : live s = false -> handed s = false;
  wf_live : live s = true -> live_wf s;
  (* an accepted chunk leaves a slot with a stride or with a parked piece *)
  wf_settled : live s = true -> chunk_size s = 0 -> 0 < parked s
}.

(** A slot just taken by [admit_first], before its first chunk is placed. *)
Definition slot_fresh (s : fzn_partial) : Prop :=
  zlen (buf s) = buf_capacity s /\ 0 < buf_capacity s <= SIZE_MAX /\ seen s = zero_seen /\
  live s = true /\ handed s = false /\ arrived s = 0 /\ held_bytes s = 0 /\ parked s = 0.

(** What the checks of [fzn_reasm_accept] establish of a chunk before it is
    placed in [s]. *)
Record chunk_fits (s : fzn_partial) (index len : Z) : Prop := {
  fit_index : 0 <= index < chunks s;
  fit_len : index + 1 = chunks s -> 0 < len;
  fit_known : chunk_size s <> 0 ->
    0 < len <= chunk_size s /\ (index + 1 <> chunks s -> len = chunk_size s);
  fit_first : chunk_size s = 0 -> parked s = 0 -> 0 < len <= buf_capacity s / chunks s
}.

(** Everything but the status of the slot's last write. *)
Record slot_pre (s : fzn_partial) : Prop := {
  pre_buf : zlen (buf s) = buf_capacity s;
  pre_cap : 0 < buf_capacity s <= SIZE_MAX;
  pre_seen : seen_ok (seen s);
  pre_live : live s = true;
  pre_wf : live_wf s
}.

Lemma slot_wf_pre s : slot_wf s -> live s = true -> slot_pre s.
Proof. intros [] ?. constructor; auto. Qed.

Lemma fresh_pre s :
  slot_fresh s -> 0 < chunks s <= FZN_REASM_MAX_CHUNKS ->
  0 <= chunk_size s <= buf_capacity s / chunks s ->
  (chunk_size s = 0 -> 1 < chunks s) -> slot_pre s.
Proof.
  intros (Hb & Hc & Hs & Hl & Hh & Ha & Hy & Hp) Hn Hcs Hz.
  assert (0 <= buf_capacity s / chunks s) by (apply Z.div_pos; lia).
  constructor; auto; [by rewrite Hs|]. constructor; auto.
  - by rewrite Ha, Hs, seen_count_zero.
  - intros Hz'. rewrite Hs, Hp. split_and!; auto; try lia.
    intros i Hi. rewrite seen_bit_zero by lia. by destruct (i + 1 =? chunks s).
  - lia.
  - rewrite Hh, Ha. split; [done|lia].
Qed.

Section Place.
Context (s : fzn_partial) (Hs : slot_pre s).

Lemma stride_fits n : chunk_size s = n -> n * chunks s <= buf_capacity s.
Proof using Hs.
  intros <-. destruct Hs as [? ? ? ? []].
  pose proof (Z.mul_div_le (buf_capacity s) (chunks s) ltac:(lia)). nia.
Qed.

Lemma arrived_bounds : 0 <= arrived s <= chunks s.
Proof using Hs. destruct Hs as [? ? ? ? []]. rewrite wf_arrived0. apply seen_count_le. lia. Qed.

(** An index the set lacks is not the message's last missing one twice over. *)
Lemma arrived_room i : 0 <= i < chunks s -> seen_get s i = false -> arrived s < chunks s.
Proof using Hs.
  intros Hi Hb. destruct Hs as [? ? ? ? []]. unfold seen_get in Hb.
  pose proof (seen_count_le (seen s) (chunks s) ltac:(lia)).
  destruct (Z.eq_dec (arrived s) (chunks s)) as [E|]; [|lia].
  rewrite wf_arrived0 in E.
  pose proof (proj1 (seen_count_full (seen s) (chunks s) ltac:(lia)) E i Hi). congruence.
Qed.

Lemma offset_of_small i :
  0 <= i < chunks s -> offset_of s i = i * chunk_size s /\
  i * chunk_size s + chunk_size s <= buf_capacity s.
Proof using Hs.
  intros. pose proof (stride_fits _ eq_refl). destruct Hs as [? ? ? ? []].
  unfold offset_of. rewrite u64_small by (width; nia). nia.
Qed.

(** [place] without its machine arithmetic. *)
Lemma place_eq off i p :
  0 <= i < chunks s -> seen_get s i = false -> zlen p <= buf_capacity s / chunks s ->
  arrived (place s off i p) = arrived s + 1 /\
  held_bytes (place s off i p) = held_bytes s + zlen p.
Proof using Hs.
  intros Hi Hb Hp. pose proof (arrived_room i Hi Hb). pose proof arrived_bounds.
  destruct Hs as [? ? ? ? []]. unfold FZN_REASM_MAX_CHUNKS in *. cbn.
  pose proof (Z.mul_div_le (buf_capacity s) (chunks s) ltac:(lia)).
  pose proof (zlen_nonneg p).
  rewrite u16_small, u64_small by (width; nia). done.
Qed.

(** Placing an unseen chunk inside the buffer keeps everything but the
    handed flag's meaning, which the caller restores. *)
Lemma place_keeps off i p :
  0 <= i < chunks s -> seen_get s i = false -> 0 <= off -> off + zlen p <= buf_capacity s ->
  zlen p <= buf_capacity s / chunks s ->
  let s' := place s off i p in
  zlen (buf s') = buf_capacity s /\ seen_ok (seen s') /\
  arrived s' = seen_count (seen s') (chunks s) /\
  0 <= held_bytes s' <= arrived s' * (buf_capacity s / chunks s).
Proof using Hs.
  intros Hi Hb Ho He Hp s'. destruct (place_eq off i p Hi Hb Hp) as [Ea Eb].
  destruct Hs as [? ? ? ? []]. pose proof (zlen_nonneg p).
  split_and!; subst s'; rewrite ?Ea, ?Eb; cbn.
  - rewrite zlen_blit; lia.
  - by apply seen_ok_set.
  - unfold FZN_REASM_MAX_CHUNKS in *. rewrite seen_count_set by (auto; lia). lia.
  - lia.
  - nia.
Qed.
End Place.

(** ** Placing with a known stride: what happens, exactly *)

Lemma place_known_spec s i p :
  slot_pre s -> 0 < chunk_size s -> chunk_fits s i (zlen p) ->
  place_known s i p =
    if seen_get s i then
      if memeq (slice (i * chunk_size s) (zlen p) (buf s)) p
      then (FZN_REASM_OK, s, false) else (FZN_REASM_ERR_CONFLICT, s, false)
    else
      let s' := place s (i * chunk_size s) i p in
      if arrived s + 1 =? chunks s
      then (FZN_REASM_OK, hand s', true) else (FZN_REASM_OK, s', false).
Proof.
  intros Hs Hcs [Hi Hl Hk _]. destruct (Hk ltac:(lia)) as [Hlen _].
  destruct (offset_of_small s Hs i Hi) as [Eo Ho].
  assert (Hdiv : zlen p <= buf_capacity s / chunks s) by (destruct Hs as [? ? ? ? []]; lia).
  unfold place_known. rewrite Eo.
  rewrite (u64_small (buf_capacity s - i * chunk_size s)) by (destruct Hs as [? ? ? ? []]; width; nia).
  destruct (Z.gtb_spec (i * chunk_size s) (buf_capacity s)); [lia|].
  destruct (Z.gtb_spec (zlen p) (buf_capacity s - i * chunk_size s)); [lia|]. cbn [orb].
  destruct (seen_get s i) eqn:Eb; cbn [andb].
  - destruct (memeq _ _); cbn [negb]; [|done].
    destruct Hs as [? ? ? ? [? ? ? ? ? Hh]].
    destruct (handed s); [by rewrite andb_false_r|].
    destruct (Z.eqb_spec (arrived s) (chunks s)); [|done]. by apply Hh in e.
  - destruct (place_eq s Hs (i * chunk_size s) i p Hi Eb Hdiv) as [-> _].
    cbn zeta. change (chunks (place _ _ _ _)) with (chunks s).
    change (handed (place _ _ _ _)) with (handed s).
    pose proof (arrived_room s Hs i Hi Eb).
    destruct Hs as [? ? ? ? [? ? ? ? ? Hh]].
    destruct (handed s); [assert (arrived s = chunks s) by (by apply Hh); lia|].
    by destruct (_ =? _).
Qed.

(** The stride becoming known moves the parked piece to its place and leaves
    a slot that is as well formed as before. *)
Lemma set_stride_spec s n :
  slot_pre s -> chunk_size s = 0 -> 0 < n -> parked s <= n <= buf_capacity s / chunks s ->
  let s' := set_stride s n in
  slot_pre s' /\ chunk_size s' = n /\
  slice ((chunks s - 1) * n) (parked s) (buf s') =
    slice (buf_capacity s - parked s) (parked s) (buf s).
Proof.
  intros Hs Hz Hn Hp s'. destruct Hs as [Hb Hc Hse Hl [H1 H2 H3 H4 H5 H6]].
  destruct (H4 Hz) as (Hch & Hpk & Hbits).
  pose proof (Z.mul_div_le (buf_capacity s) (chunks s) ltac:(lia)).
  assert (n * chunks s <= buf_capacity s) by nia. assert (n <= buf_capacity s) by nia.
  unfold FZN_REASM_MAX_CHUNKS in *.
  set (sl := slice (buf_capacity s - parked s) (parked s) (buf s)).
  assert (Hsl : zlen sl = parked s) by (apply zlen_slice; lia).
  assert (Eb : buf s' = blit ((chunks s - 1) * n) sl (buf s)).
  { subst s'. cbn. rewrite (u16_small (chunks s - 1)) by ulia.
    rewrite !u64_small by (width; nia). done. }
  split_and!; [|done|].
  - constructor; auto; [by rewrite Eb, zlen_blit by nia|].
    constructor; auto; subst s'; cbn; unfold FZN_REASM_MAX_CHUNKS; try lia.
  - rewrite Eb, <- Hsl. apply slice_blit_same; nia.
Qed.

(** ** Placing keeps a slot well formed *)

Definition same_identity (s s' : fzn_partial) : Prop :=
  sender s' = sender s /\ msg s' = msg s /\ chunks s' = chunks s /\
  expires_at s' = expires_at s /\ live s' = live s /\ buf_capacity s' = buf_capacity s.

Lemma same_identity_refl s : same_identity s s.
Proof. repeat split. Qed.
#[export] Hint Resolve same_identity_refl : fzn.

Lemma hand_wf s :
  zlen (buf s) = buf_capacity s -> 0 < buf_capacity s <= SIZE_MAX -> seen_ok (seen s) ->
  live s = true -> 0 < chunks s <= FZN_REASM_MAX_CHUNKS ->
  arrived s = seen_count (seen s) (chunks s) ->
  0 < chunk_size s <= buf_capacity s / chunks s ->
  0 <= held_bytes s <= arrived s * (buf_capacity s / chunks s) ->
  handed s = false ->
  slot_wf (if arrived s =? chunks s then hand s else s).
Proof.
  intros ???? Hch Ha Hst Hby Hh. destruct (Z.eqb_spec (arrived s) (chunks s)).
  all: constructor; cbn; auto; try congruence; [intros _|lia].
  all: constructor; cbn; auto; lia || (rewrite Hh; split; [done|lia]).
Qed.

Lemma place_known_wf s i p err s' out :
  slot_pre s -> 0 < chunk_size s -> chunk_fits s i (zlen p) ->
  place_known s i p = (err, s', out) -> slot_wf s' /\ same_identity s s'.
Proof.
  intros Hs Hcs Hf. rewrite place_known_spec by done.
  assert (slot_wf s) by (destruct Hs; constructor; auto; [congruence|lia]).
  destruct Hf as [Hi Hl Hk _]. destruct (Hk ltac:(lia)) as [Hlen _].
  destruct (offset_of_small s Hs i Hi) as [_ Ho].
  assert (Hdiv : zlen p <= buf_capacity s / chunks s) by (destruct Hs as [? ? ? ? []]; lia).
  destruct (seen_get s i) eqn:Eb.
  - destruct (memeq _ _); intros [= <- <- <-]; split_and!; auto with fzn.
  - pose proof (arrived_room s Hs i Hi Eb).
    destruct (place_keeps s Hs (i * chunk_size s) i p) as (K1 & K2 & K3 & K4); auto; try nia.
    destruct (place_eq s Hs (i * chunk_size s) i p Hi Eb Hdiv) as [Ea _].
    destruct Hs as [? ? ? ? [? ? ? ? ? Hh]].
    assert (Hhf : handed s = false).
    { destruct (handed s) eqn:E; [|done]. assert (arrived s = chunks s) by (by apply Hh). lia. }
    intros E. assert (E' : s' = if arrived (place s (i * chunk_size s) i p) =? chunks s
                               then hand (place s (i * chunk_size s) i p)
                               else place s (i * chunk_size s) i p).
    { rewrite Ea. cbn zeta in E. destruct (_ =? _); congruence. }
    split.
    + rewrite E'. apply (hand_wf (place s (i * chunk_size s) i p)); auto. cbn. lia.
    + rewrite E'. clear. destruct (_ =? _); repeat split.
Qed.

Lemma place_chunk_wf s i p err s' out :
  slot_pre s -> chunk_fits s i (zlen p) ->
  place_chunk s i p = (err, s', out) ->
  (slot_wf s' \/ s' = s) /\ (err = FZN_REASM_OK -> slot_wf s') /\ same_identity s s'.
Proof.
  intros Hs Hf. unfold place_chunk. destruct (Z.eqb_spec (chunk_size s) 0) as [Hz|Hz].
  2:{ intros E. apply place_known_wf in E as [? ?]; auto.
      destruct Hs as [? ? ? ? []]. lia. }
  pose proof Hs as [Hb Hc Hse Hl Hw]. pose proof Hw as [H1 H2 H3 H4 H5 H6].
  destruct (H4 Hz) as (Hch & Hpk & Hbits). unfold FZN_REASM_MAX_CHUNKS in *.
  destruct (Z.eqb_spec (i + 1) (chunks s)) as [Elast|Elast].
  - destruct (Z.eqb_spec (parked s) 0) as [Ep|Ep].
    + (* parking the last piece *)
      intros [= <- <- <-].
      destruct (fit_first _ _ _ Hf Hz Ep) as [Hl1 Hl2].
      assert (Hbi : seen_get s i = false).
      { unfold seen_get. rewrite Hbits by lia. rewrite Ep. by rewrite andb_false_r. }
      pose proof (Z.mul_div_le (buf_capacity s) (chunks s) ltac:(lia)).
      assert (zlen p <= buf_capacity s) by nia.
      rewrite (u64_small (buf_capacity s - zlen p)) by ulia.
      destruct (place_keeps s Hs (buf_capacity s - zlen p) i p) as (K1 & K2 & K3 & K4);
        try (auto; lia).
      destruct (place_eq s Hs (buf_capacity s - zlen p) i p) as [Ea _]; try (auto; lia).
      pose proof (seen_count_zero (chunks s)) as Hzero.
      assert (Ha0 : arrived s = 0).
      { rewrite H2. apply count_none. intros k x Hx. apply lookup_seqZ in Hx as [-> ?].
        rewrite Hbits by lia. rewrite Ep. by rewrite andb_false_r. }
      assert (slot_wf (with_parked (place s (buf_capacity s - zlen p) i p) (zlen p))).
      { constructor; [exact K1|cbn; lia|exact K2|cbn; congruence|intros _|cbn; lia].
        constructor; cbn -[arrived]; auto; try lia.
        - intros _. split_and!; auto; try lia. intros j Hj.
          rewrite seen_bit_set by (auto; lia). rewrite Hbits, Ep by lia.
          rewrite andb_false_r, orb_false_r.
          destruct (Z.ltb_spec 0 (zlen p)); [|lia]. rewrite andb_true_r. lia.
        - change (arrived (with_parked ?x _)) with (arrived x). rewrite Ea, Ha0.
          destruct (handed s) eqn:E; [|split; [done|lia]].
          assert (arrived s = chunks s) by (by apply H6). lia. }
      split_and!; auto. repeat split.
    + (* a repeat of the parked piece *)
      assert (slot_wf s) by (constructor; auto; [congruence|lia]).
      destruct (negb _ || negb _); intros [= <- <- <-]; split_and!; auto with fzn; done.
  - destruct (Z.eqb_spec (zlen p) 0); cbn [orb]; [intros [= <- <- <-]; split_and!; auto with fzn; done|].
    destruct (Z.ltb_spec (zlen p) (parked s)); [intros [= <- <- <-]; split_and!; auto with fzn; done|].
    destruct (Z.gtb_spec (zlen p) (buf_capacity s / chunks s));
      [intros [= <- <- <-]; split_and!; auto with fzn; done|].
    intros E. pose proof (zlen_nonneg p).
    destruct (set_stride_spec s (zlen p) Hs Hz) as (Hs' & Ecs & _); try lia.
    apply place_known_wf in E as [Hwf Hid]; auto; [lia|].
    destruct Hf. constructor; cbn; auto; lia.
Qed.

(** ** The table *)

Definition same_key (s s' : fzn_partial) : Prop := sender s = sender s' /\ msg s = msg s'.

Record table_wf (t : fzn_reasm) : Prop := {
  t_slots : Forall slot_wf (partials t);
  t_quota : forall who, held_by t who <= per_sender_max t;
  t_unique : forall i j s s', partials t !! i = Some s -> partials t !! j = Some s' ->
    live s = true -> live s' = true -> same_key s s' -> i = j;
  t_hold : 0 < max_hold t <= UINT64_MAX
}.

Lemma t_slot t i s : table_wf t -> partials t !! i = Some s -> slot_wf s.
Proof. intros [H _ _ _] Hi. rewrite Forall_lookup in H. eauto. Qed.

(** *** Giving slots back *)

(** [ps'] is [ps] with some slots released. *)
Definition released (ps ps' : list fzn_partial) : Prop :=
  Forall2 (fun s s' => s' = s \/ s' = fzn_reasm_release s) ps ps'.

Lemma released_if (f : fzn_partial -> bool) (ps : list fzn_partial) :
  released ps ((fun s => if f s then fzn_reasm_release s else s) <$> ps).
Proof.
  unfold released. rewrite Forall2_fmap_r. apply Forall_Forall2_diag.
  apply Forall_true. intros s. cbn. destruct (f s); auto.
Qed.

Lemma released_at (ps : list fzn_partial) (i : nat) (s : fzn_partial) :
  ps !! i = Some s -> released ps (<[i := fzn_reasm_release s]> ps).
Proof.
  intros Hi. apply Forall2_same_length_lookup. split; [by rewrite length_insert|].
  intros j x y Hx Hy. apply list_lookup_insert_Some in Hy as [(<- & <- & _)|[_ Hy]].
  - simplify_eq. auto.
  - simplify_eq. auto.
Qed.

Lemma release_slot_wf s : slot_wf s -> slot_wf (fzn_reasm_release s).
Proof. intros []. constructor; cbn; auto using seen_ok_zero; done. Qed.

Lemma released_held t ps who :
  released (partials t) ps -> held_by (with_partials t ps) who <= held_by t who.
Proof.
  unfold held_by. cbn. intros Hr. induction Hr as [|s s' l l' Hss Hr IH]; cbn; [done|].
  destruct Hss as [->| ->]; [lia|]. cbn. destruct (live s && _); lia.
Qed.

Lemma released_wf t ps :
  table_wf t -> released (partials t) ps -> table_wf (with_partials t ps).
Proof.
  intros [Hs Hq Hu Hh] Hr. constructor; cbn; auto.
  - rewrite Forall_lookup in *. intros i s' Hi.
    destruct (Forall2_lookup_r _ _ _ _ _ Hr Hi) as (s & ? & [-> | ->]);
      eauto using release_slot_wf.
  - intros who. etransitivity; [|apply (Hq who)]. by apply released_held.
  - intros i j s s' Hi Hj Hl Hl' Hk.
    destruct (Forall2_lookup_r _ _ _ _ _ Hr Hi) as (a & Ha & [-> | ->]); [|done].
    destruct (Forall2_lookup_r _ _ _ _ _ Hr Hj) as (b & Hb & [-> | ->]); [|done].
    eapply Hu; eauto.
Qed.

Lemma expire_wf t now : table_wf t -> table_wf (snd (fzn_reasm_expire t now)).
Proof. intros. apply released_wf; [done|]. apply released_if. Qed.

Lemma forget_wf t who m : table_wf t -> table_wf (snd (fzn_reasm_forget t who m)).
Proof. intros. apply released_wf; [done|]. apply released_if. Qed.

Definition release_at (t : fzn_reasm) (i : nat) : fzn_reasm :=
  match partials t !! i with
  | None => t
  | Some s => with_partials t (<[i := fzn_reasm_release s]> (partials t))
  end.

Lemma release_at_wf t i : table_wf t -> table_wf (release_at t i).
Proof.
  intros. unfold release_at. destruct (partials t !! i) eqn:E; [|done].
  apply released_wf; [done|]. by apply released_at.
Qed.

(** *** Changing one slot *)

Lemma held_insert t i s s' who :
  partials t !! i = Some s ->
  held_by (with_partials t (<[i := s']> (partials t))) who =
    held_by t who - (if live s && memeq (sender s) who then 1 else 0)
                  + (if live s' && memeq (sender s') who then 1 else 0).
Proof. intros. unfold held_by. cbn. by rewrite (count_insert _ _ _ s). Qed.

(** A slot's contents change, not whose it is. *)
Lemma update_slot_wf t i s s' :
  table_wf t -> partials t !! i = Some s -> slot_wf s' -> live s' = live s ->
  sender s' = sender s -> msg s' = msg s ->
  table_wf (with_partials t (<[i := s']> (partials t))).
Proof.
  intros [Hs Hq Hu Hh] Hi Hw El Es Em. constructor; cbn [partials with_partials per_sender_max max_hold]; auto.
  - by apply Forall_insert.
  - intros who. rewrite (held_insert t i s s') by done. rewrite El, Es.
    specialize (Hq who). destruct (live s && _); lia.
  - intros j k a b Ha Hb La Lb [K1 K2].
    apply list_lookup_insert_Some in Ha as [(<- & <- & _)|[? Ha]];
      apply list_lookup_insert_Some in Hb as [(<- & <- & _)|[? Hb]]; auto.
    + apply (Hu i k s b); auto; [congruence|]. split; congruence.
    + apply (Hu j i a s); auto; [congruence|]. split; congruence.
    + apply (Hu j k a b); auto. by split.
Qed.

(** A free slot is taken for a message the table does not hold. *)
Lemma take_slot_wf t i s s' :
  table_wf t -> partials t !! i = Some s -> live s = false -> slot_wf s' -> live s' = true ->
  find t (sender s') (msg s') = None -> held_by t (sender s') < per_sender_max t ->
  table_wf (with_partials t (<[i := s']> (partials t))).
Proof.
  intros [Hs Hq Hu Hh] Hi Hl Hw Hl' Hf Hroom. constructor; cbn [partials with_partials per_sender_max max_hold]; auto.
  - by apply Forall_insert.
  - intros who. rewrite (held_insert t i s s') by done. rewrite Hl, Hl'. cbn [andb].
    specialize (Hq who). destruct (memeq (sender s') who) eqn:E; [|lia].
    apply memeq_true in E as <-. lia.
  - unfold find in Hf. rewrite find_index_None in Hf.
    assert (Hno : forall j b, partials t !! j = Some b -> live b = true ->
                    sender b = sender s' -> msg b = msg s' -> False).
    { intros j b Hb Lb E1 E2. specialize (Hf j b Hb). unfold holds_key in Hf.
      rewrite Lb, E1, E2, Z.eqb_refl, memeq_refl in Hf. done. }
    intros j k a b Ha Hb La Lb [K1 K2].
    apply list_lookup_insert_Some in Ha as [(<- & <- & _)|[? Ha]];
      apply list_lookup_insert_Some in Hb as [(<- & <- & _)|[? Hb]]; auto.
    + exfalso. by apply (Hno k b).
    + exfalso. by apply (Hno j a).
    + apply (Hu j k a b); auto. by split.
Qed.

(** *** [admit_first] *)

Definition stride_of (index chunks_ len : Z) : Z :=
  if (chunks_ >? 1) && (index + 1 =? chunks_) then 0 else len.

Definition fresh_slot (s : fzn_partial) (who : bytes) (m n stride deadline : Z) : fzn_partial :=
  mk_partial who m n 0 deadline (buf s) (buf_capacity s) stride 0 0 zero_seen true (handed s).

(** The outcomes of [admit_first] on a well-formed table. *)
Inductive admitted (t : fzn_reasm) (who : bytes) (m index n len deadline : Z)
    : fzn_reasm_err -> fzn_reasm -> option nat -> Prop :=
  | admitted_refused err t' : err <> FZN_REASM_OK -> table_wf t' ->
      (exists ps, t' = with_partials t ps /\
        Forall2 (fun s s' => s' = s \/ live s = false /\ live s' = false /\ buf s' = buf s /\ buf_capacity s' = buf_capacity s) (partials t) ps) ->
      admitted t who m index n len deadline err t' None
  | admitted_taken i s :
      partials t !! i = Some s -> live s = false -> slot_wf s ->
      0 < n <= FZN_REASM_MAX_CHUNKS -> index < n -> 0 < len <= buf_capacity s / n ->
      held_by t who < per_sender_max t ->
      (forall j s', (j < i)%nat -> partials t !! j = Some s' -> live s' = true) ->
      admitted t who m index n len deadline FZN_REASM_OK
        (with_partials t
           (<[i := fresh_slot s who m n (stride_of index n len) deadline]> (partials t)))
        (Some i).

Lemma with_partials_id t : with_partials t (partials t) = t.
Proof. by destruct t. Qed.

Lemma Forall2_refl_or {A} (P : A -> A -> Prop) (l : list A) :
  Forall2 (fun x y => y = x \/ P x y) l l.
Proof. induction l; constructor; auto. Qed.

Lemma Forall2_insert_or {A} (P : A -> A -> Prop) (l : list A) i x y :
  l !! i = Some x -> P x y -> Forall2 (fun x y => y = x \/ P x y) l (<[i := y]> l).
Proof.
  intros Hi HP. apply Forall2_same_length_lookup. split; [by rewrite length_insert|].
  intros j a b Ha Hb. apply list_lookup_insert_Some in Hb as [(<- & <- & _)|[_ Hb]]; simplify_eq; auto.
Qed.

Lemma admit_first_spec t who m index n len deadline err t' o :
  table_wf t -> 0 <= n -> 0 <= len ->
  admit_first t who m index n len deadline = (err, t', o) ->
  admitted t who m index n len deadline err t' o.
Proof.
  intros Ht Hn Hlen. unfold admit_first.
  assert (Hsame : forall e, e <> FZN_REASM_OK -> admitted t who m index n len deadline e t None).
  { intros e He. apply admitted_refused; auto. exists (partials t).
    rewrite with_partials_id. split; [done|]. apply Forall2_refl_or. }
  destruct (Z.eqb_spec n 0), (Z.gtb_spec n FZN_REASM_MAX_CHUNKS); cbn [orb];
    try (intros [= <- <- <-]; by apply Hsame).
  destruct (Z.geb_spec index n); [intros [= <- <- <-]; by apply Hsame|].
  destruct (Z.geb_spec (held_by t who) (per_sender_max t)); [intros [= <- <- <-]; by apply Hsame|].
  destruct (find_index _ _) as [i|] eqn:Ef; [|intros [= <- <- <-]; by apply Hsame].
  apply find_index_Some in Ef as (s & Hi & Hl & Hbefore). rewrite Hi. apply negb_true_iff in Hl.
  pose proof (t_slot _ _ _ Ht Hi) as Hw.
  destruct (Z.eqb_spec len 0); cbn [orb]; [|destruct (Z.gtb_spec len (buf_capacity s / n))].
  1,2: intros [= <- <- <-]; apply admitted_refused;
       [done| |eexists; split; [done|]; apply (Forall2_insert_or _ _ _ s); [done|]; cbn; rewrite Hl; auto];
       apply (update_slot_wf _ _ s); auto; destruct Hw; constructor; cbn; auto; congruence.
  intros [= <- <- <-]. apply admitted_taken; auto; try lia.
  intros j s' Hj Hs'. apply negb_false_iff. eauto.
Qed.

(** *** [fzn_reasm_accept] *)

Lemma later_chunk_fits s index n len :
  slot_wf s -> live s = true -> 0 <= index -> 0 <= len ->
  later_chunk_ok s index n len = true -> chunks s = n /\ chunk_fits s index len.
Proof.
  intros [] Hl ?? Hok. destruct (wf_live0 Hl). specialize (wf_settled0 Hl).
  unfold later_chunk_ok in Hok.
  destruct (Z.eqb_spec (chunks s) n); [cbn [negb] in Hok|done]. split; [done|].
  destruct (Z.geb_spec index (chunks s)); [done|].
  destruct (Z.eqb_spec (index + 1) (chunks s)), (Z.eqb_spec len 0), (Z.eqb_spec (chunk_size s) 0);
    cbn in Hok; try done; constructor; lia.
Qed.

Lemma fresh_slot_ok s who m n index len deadline :
  slot_wf s -> live s = false -> 0 < n <= FZN_REASM_MAX_CHUNKS -> 0 <= index < n ->
  0 < len <= buf_capacity s / n ->
  let f := fresh_slot s who m n (stride_of index n len) deadline in
  slot_fresh f /\ slot_pre f /\ chunk_fits f index len.
Proof.
  intros [] Hl Hn Hi Hlen f. unfold stride_of in *. subst f.
  assert (Hf : slot_fresh (fresh_slot s who m n (stride_of index n len) deadline)).
  { repeat split; cbn; auto; lia. }
  destruct (Z.gtb_spec n 1), (Z.eqb_spec (index + 1) n); cbn [andb] in *;
    (split; [exact Hf|split; [apply fresh_pre; [exact Hf|..]; cbn; lia|constructor; cbn; lia]]).
Qed.

(** The first chunk of a message, once admitted, is always placed. *)
Lemma fresh_place_ok s i p :
  slot_fresh s -> slot_pre s -> chunk_fits s i (zlen p) ->
  exists s' out, place_chunk s i p = (FZN_REASM_OK, s', out) /\ slot_wf s' /\ same_identity s s'.
Proof.
  intros (_ & _ & Hse & Hl & Hh & Ha & Hy & Hp) Hs Hf.
  destruct (place_chunk s i p) as [[err s'] out] eqn:E. exists s', out.
  pose proof (place_chunk_wf _ _ _ _ _ _ Hs Hf E) as (_ & Hok & Hid).
  assert (err = FZN_REASM_OK) as ->; [|auto].
  assert (Hb : forall j, 0 <= j -> seen_get s j = false).
  { intros. unfold seen_get. rewrite Hse. by apply seen_bit_zero. }
  unfold place_chunk in E. destruct (Z.eqb_spec (chunk_size s) 0) as [Hz|Hz].
  - destruct Hs as [? ? ? ? []]. pose proof (fit_first _ _ _ Hf Hz Hp).
    destruct (Z.eqb_spec (i + 1) (chunks s)); [rewrite Hp in E; by simplify_eq/=|].
    rewrite Hp in E. destruct (Z.eqb_spec (zlen p) 0), (Z.ltb_spec (zlen p) 0); try lia.
    cbn [orb] in E. destruct (Z.gtb_spec (zlen p) (buf_capacity s / chunks s)); [lia|].
    assert (Hs2 : slot_pre s) by (constructor; auto; by constructor).
    destruct (set_stride_spec s (zlen p) Hs2 Hz ltac:(lia) ltac:(lia)) as (Hs' & Ecs & _).
    rewrite place_known_spec in E; [|done|lia|].
    2:{ destruct Hf. constructor; cbn; lia. }
    change (seen_get (set_stride s (zlen p)) i) with (seen_get s i) in E.
    rewrite Hb in E by (destruct Hf; lia). cbn zeta in E. by destruct (_ =? _); simplify_eq.
  - destruct Hs as [? ? ? ? Hw] eqn:EHs. rewrite place_known_spec in E; auto.
    2:{ destruct Hw. lia. }
    rewrite Hb in E by (destruct Hf; lia). cbn zeta in E. by destruct (_ =? _); simplify_eq.
Qed.

(** Slots apart from the one a chunk goes to: unchanged, or free before and
    after (a refused first chunk writes its stride into a free slot). *)
Definition idle (s s' : fzn_partial) : Prop :=
  live s = false /\ live s' = false /\ buf s' = buf s /\ buf_capacity s' = buf_capacity s.

(** The outcomes of [accept], after its sweep. *)
Inductive accepted (t : fzn_reasm) (who : bytes) (m index n : Z) (p : bytes) (deadline : Z)
    : fzn_reasm_err -> fzn_reasm -> option nat -> Prop :=
  | accepted_refused err ps : err <> FZN_REASM_OK ->
      Forall2 (fun s s' => s' = s \/ idle s s') (partials t) ps ->
      table_wf (with_partials t ps) ->
      accepted t who m index n p deadline err (with_partials t ps) None
  | accepted_later i s err s' out :
      partials t !! i = Some s -> holds_key who m s = true -> chunks s = n ->
      chunk_fits s index (zlen p) -> place_chunk s index p = (err, s', out) ->
      slot_wf s' -> same_identity s s' ->
      accepted t who m index n p deadline err
        (with_partials t (<[i := s']> (partials t))) (if out then Some i else None)
  | accepted_first i s s' out :
      partials t !! i = Some s -> live s = false ->
      (forall j a, (j < i)%nat -> partials t !! j = Some a -> live a = true) ->
      find t who m = None -> held_by t who < per_sender_max t ->
      0 < n <= FZN_REASM_MAX_CHUNKS -> 0 < zlen p <= buf_capacity s / n ->
      let f := fresh_slot s who m n (stride_of index n (zlen p)) deadline in
      slot_fresh f -> slot_pre f -> chunk_fits f index (zlen p) ->
      place_chunk f index p = (FZN_REASM_OK, s', out) -> slot_wf s' -> same_identity f s' ->
      accepted t who m index n p deadline FZN_REASM_OK
        (with_partials t (<[i := s']> (partials t))) (if out then Some i else None).

Lemma holds_key_true who m s :
  holds_key who m s = true <-> live s = true /\ msg s = m /\ sender s = who.
Proof.
  unfold holds_key. rewrite !andb_true_iff, Z.eqb_eq, memeq_true. tauto.
Qed.

Lemma place_at_insert t i s0 s index p :
  partials t !! i = Some s0 ->
  place_at (with_partials t (<[i := s]> (partials t))) i index p =
    let '(err, s', out) := place_chunk s index p in
    (err, with_partials t (<[i := s']> (partials t)), if out then Some i else None).
Proof.
  intros Hi. unfold place_at. cbn [partials with_partials].
  rewrite list_lookup_insert_eq by (by eapply lookup_lt_Some).
  destruct (place_chunk s index p) as [[err s'] out].
  unfold with_partials. cbn. by rewrite list_insert_insert_eq.
Qed.

Lemma accept_spec t who m index n p exp now err t' o :
  table_wf t -> 0 <= index -> 0 <= n ->
  accept t who m index n p exp now = (err, t', o) ->
  accepted (snd (fzn_reasm_expire t now)) who m index n p
    (chunk_deadline exp now (max_hold t)) err t' o.
Proof.
  intros Ht Hidx Hn. unfold accept.
  pose proof (expire_wf t now Ht) as Ht1.
  change (max_hold t) with (max_hold (snd (fzn_reasm_expire t now))).
  set (t1 := snd (fzn_reasm_expire t now)) in *. clearbody t1. pose proof (zlen_nonneg p).
  assert (Hsame : forall e, e <> FZN_REASM_OK ->
    accepted t1 who m index n p (chunk_deadline exp now (max_hold t1)) e t1 None).
  { intros e He.
    pose proof (accepted_refused t1 who m index n p (chunk_deadline exp now (max_hold t1)) e
                  (partials t1) He (Forall2_refl_or _ _)) as Hr.
    rewrite with_partials_id in Hr. auto. }
  destruct (negb (exp =? 0) && (exp <=? now)); [intros [= <- <- <-]; by apply Hsame|].
  destruct (find t1 who m) as [i|] eqn:Ef.
  - pose proof Ef as Ef'. unfold find in Ef'.
    apply find_index_Some in Ef' as (s & Hi & Hk & _). rewrite Hi.
    pose proof (t_slot _ _ _ Ht1 Hi) as Hw.
    pose proof (proj1 (holds_key_true _ _ _) Hk) as (Hl & _).
    destruct (later_chunk_ok s index n (zlen p)) eqn:El; [|intros [= <- <- <-]; by apply Hsame].
    destruct (later_chunk_fits s index n (zlen p)) as [En Hfit]; auto.
    unfold place_at. rewrite Hi. destruct (place_chunk s index p) as [[e s'] out] eqn:Ep.
    destruct (place_chunk_wf s index p e s' out) as ([?| ->] & _ & ?); auto using slot_wf_pre;
      intros [= <- <- <-]; eapply accepted_later; eauto.
  - destruct (admit_first _ _ _ _ _ _ _) as [[e t2] o'] eqn:Ea.
    apply admit_first_spec in Ea; auto.
    inversion Ea as [e' t2' He Hwf (ps & -> & HF)|i s Hi Hl Hw Hn' Hin Hlen Hroom Hbefore]; subst.
    + intros E. assert (E' : (e, with_partials t1 ps, @None nat) = (err, t', o)).
      { by destruct e. } simplify_eq. apply accepted_refused; auto.
    + destruct (fresh_slot_ok s who m n index (zlen p) (chunk_deadline exp now (max_hold t1)))
        as (Hf & Hpre & Hfit); auto.
      destruct (fresh_place_ok _ index p Hf Hpre Hfit) as (s' & out & Ep & Hw' & Hid).
      rewrite (place_at_insert t1 i s) by done. rewrite Ep. intros [= <- <- <-].
      eapply accepted_first; eauto.
Qed.

Lemma accepted_wf t who m index n p deadline err t' o :
  table_wf t -> accepted t who m index n p deadline err t' o -> table_wf t'.
Proof.
  intros Ht [err' ps _ _ Hw|i s err' s' out Hi Hk _ _ _ Hw (Hs & Hm & _ & _ & Hl & _)
            |i s s' out Hi Hl _ Hf Hroom _ _ f _ _ _ _ Hw (Hs & Hm & _ & _ & Hl' & _)]; auto.
  - by apply (update_slot_wf t i s).
  - apply (take_slot_wf t i s); auto; rewrite ?Hs, ?Hm; done.
Qed.

(** ** The table as a state machine *)

(** Everything a caller can do to a table, in any order. *)
Inductive op :=
  | Accept (who : bytes) (m index n : Z) (p : bytes) (exp now : Z)
  | Expire (now : Z)
  | Forget (who : bytes) (m : Z)
  | Release (i : nat).

(** The wire's field widths. *)
Definition op_ok (o : op) : Prop :=
  match o with
  | Accept _ _ index n _ exp now => in_u16 index /\ in_u16 n /\ in_u64 exp /\ in_u64 now
  | Expire now => in_u64 now
  | _ => True
  end.

Definition run_op (t : fzn_reasm) (o : op) : fzn_reasm_err * fzn_reasm * option nat :=
  match o with
  | Accept who m index n p exp now => accept t who m index n p exp now
  | Expire now => (FZN_REASM_OK, snd (fzn_reasm_expire t now), None)
  | Forget who m => (FZN_REASM_OK, snd (fzn_reasm_forget t who m), None)
  | Release i => (FZN_REASM_OK, release_at t i, None)
  end.

Definition run (t : fzn_reasm) (ops : list op) : fzn_reasm :=
  foldl (fun t o => snd (fst (run_op t o))) t ops.

Lemma run_op_wf t o : table_wf t -> op_ok o -> table_wf (snd (fst (run_op t o))).
Proof.
  intros Ht Ho. destruct o as [who m index n p exp now|now|who m|i]; cbn.
  - destruct (accept _ _ _ _ _ _ _ _) as [[err t'] o] eqn:E. destruct Ho as (Hi & Hn & _).
    apply accept_spec in E; [|done|ulia|ulia].
    eapply accepted_wf; [|done]. by apply expire_wf.
  - by apply expire_wf.
  - by apply forget_wf.
  - by apply release_at_wf.
Qed.

Lemma run_wf t ops : table_wf t -> Forall op_ok ops -> table_wf (run t ops).
Proof.
  intros Ht Hops. revert t Ht. induction Hops as [|o ops Ho Hops IH]; intros t Ht; [done|].
  apply IH. by apply run_op_wf.
Qed.

(** Buffers: the capacities of the slots, which never change. *)
Definition capacities (t : fzn_reasm) : list Z := buf_capacity <$> partials t.

Lemma capacities_insert t i s s' :
  partials t !! i = Some s -> buf_capacity s' = buf_capacity s ->
  capacities (with_partials t (<[i := s']> (partials t))) = capacities t.
Proof.
  intros Hi E. unfold capacities. cbn. rewrite list_fmap_insert, E.
  apply list_insert_id. rewrite list_lookup_fmap. by rewrite Hi.
Qed.

Lemma capacities_released t ps :
  released (partials t) ps -> capacities (with_partials t ps) = capacities t.
Proof.
  intros Hr. unfold capacities. cbn. induction Hr as [|s s' l l' Hss Hr IH]; [done|].
  rewrite !fmap_cons, IH. by destruct Hss as [-> | ->].
Qed.

Lemma accepted_capacities t who m index n p deadline err t' o :
  accepted t who m index n p deadline err t' o -> capacities t' = capacities t.
Proof.
  intros [err' ps _ HF _|i s err' s' out Hi _ _ _ _ _ Hid|i s s' out Hi _ _ _ _ _ _ f _ _ _ _ _ Hid].
  - unfold capacities. cbn. induction HF as [|s s' l l' Hss HF IH]; [done|].
    rewrite !fmap_cons, IH. by destruct Hss as [-> | (_ & _ & _ & ->)].
  - apply (capacities_insert t i s); [done|]. apply Hid.
  - apply (capacities_insert t i s); [done|]. apply Hid.
Qed.

Lemma run_op_capacities t o :
  table_wf t -> op_ok o -> capacities (snd (fst (run_op t o))) = capacities t.
Proof.
  intros Ht Ho. destruct o as [who m index n p exp now|now|who m|i]; cbn.
  - destruct (accept _ _ _ _ _ _ _ _) as [[err t'] o] eqn:E. destruct Ho as (Hi & Hn & _).
    apply accept_spec in E; [|done|ulia|ulia]. cbn.
    rewrite (accepted_capacities _ _ _ _ _ _ _ _ _ _ E).
    apply capacities_released, released_if.
  - apply capacities_released, released_if.
  - apply capacities_released, released_if.
  - unfold release_at. destruct (partials t !! i) eqn:E; [|done].
    by apply capacities_released, released_at.
Qed.

Lemma run_capacities t ops :
  table_wf t -> Forall op_ok ops -> capacities (run t ops) = capacities t.
Proof.
  intros Ht Hops. revert t Ht. induction Hops as [|o ops Ho Hops IH]; intros t Ht; [done|].
  cbn. change (foldl _ ?x ops) with (run x ops).
  rewrite IH by (by apply run_op_wf). by apply run_op_capacities.
Qed.

(** A slot as [fzn_reasm_slot_init] leaves it, its buffer as long as declared. *)
Definition slot_ready (s : fzn_partial) : Prop :=
  exists s0 b, zlen b <= SIZE_MAX /\
    fzn_reasm_slot_init (Some s0) b (zlen b) = (FZN_REASM_OK, Some s).

Lemma init_wf t0 ps quota hold t :
  Forall slot_ready ps -> 0 <= quota -> in_u64 hold ->
  fzn_reasm_init (Some t0) (Some ps) quota hold = (FZN_REASM_OK, Some t) -> table_wf t.
Proof.
  intros Hps Hq Hh. unfold fzn_reasm_init.
  destruct (_ || _ || _) eqn:Eg; [done|]. destruct (existsb _ _); [done|]. intros [= <-].
  assert (Hslot : forall i s, ps !! i = Some s -> slot_wf s /\ live s = false).
  { intros i s Hi. rewrite Forall_lookup in Hps. destruct (Hps i s Hi) as (s0 & b & Hb & E).
    unfold fzn_reasm_slot_init in E. pose proof (zlen_nonneg b).
    destruct (Z.eqb_spec (zlen b) 0); cbn in E; [done|]. simplify_eq. split; [|done].
    constructor; cbn; auto using seen_ok_zero; try done. lia. }
  constructor; cbn [partials per_sender_max max_hold].
  - apply Forall_lookup. intros i s Hi. by eapply Hslot.
  - intros who. unfold held_by. cbn. rewrite count_none; [done|].
    intros i s Hi. destruct (Hslot i s Hi) as [_ ->]. done.
  - intros i j s s' Hi Hj Hl. destruct (Hslot i s Hi) as [_ Hf]. congruence.
  - apply orb_false_iff in Eg as [_ Eg]. ulia.
Qed.
