(* ===== verification/ReassemblyProps.v ===== *)
(** * What the reassembly table promises

    The promises of chunk/reassembly.h, for tables reached by any sequence of
    operations: bounds and quotas, ownership of a handed message, the bound on
    how long half a message is held, and exactly which chunks are missing. *)

From S2P Require Import Prelude Split Reassembly ReassemblyInv.

(** ** Slots an operation cannot touch *)

Lemma accepted_other t who m index n p deadline err t' o i s :
  accepted t who m index n p deadline err t' o ->
  partials t !! i = Some s -> live s = true -> ~ (sender s = who /\ msg s = m) ->
  partials t' !! i = Some s /\ o <> Some i.
Proof.
  intros Ha Hi Hl Hk. destruct Ha as [err' ps _ HF _|j b err' b' out Hj Hkey _ _ _ _ _
    |j b b' out Hj Hfree _ _ _ _ _ f _ _ _ _ _ _]; cbn [partials with_partials].
  - destruct (Forall2_lookup_l _ _ _ _ _ HF Hi) as (s' & Hs' & [-> | (? & _)]); [done|congruence].
  - apply holds_key_true in Hkey as (_ & Em & Es).
    assert (j <> i) by (intros ->; simplify_eq; tauto).
    rewrite list_lookup_insert_ne by done. split; [done|]. destruct out; congruence.
  - assert (j <> i) by (intros ->; simplify_eq; congruence).
    rewrite list_lookup_insert_ne by done. split; [done|]. destruct out; congruence.
Qed.

Lemma expire_spares t now i s :
  partials t !! i = Some s -> handed s = true \/ now < expires_at s ->
  partials (snd (fzn_reasm_expire t now)) !! i = Some s.
Proof.
  intros Hi Hs. cbn. rewrite list_lookup_fmap, Hi. cbn. unfold expirable.
  destruct Hs as [-> | Hs]; [by rewrite andb_false_r|].
  destruct (Z.leb_spec (expires_at s) now); [lia|]. by rewrite andb_false_r.
Qed.

Lemma forget_spares t who m i s :
  partials t !! i = Some s -> handed s = true \/ ~ (sender s = who /\ msg s = m) ->
  partials (snd (fzn_reasm_forget t who m)) !! i = Some s.
Proof.
  intros Hi Hs. cbn. rewrite list_lookup_fmap, Hi. cbn. unfold forgettable.
  destruct Hs as [-> | Hs]; [by rewrite andb_false_r|].
  destruct (Z.eqb_spec (msg s) m); [|by rewrite andb_false_r].
  destruct (memeq (sender s) who) eqn:E; [|by rewrite !andb_false_r].
  apply memeq_true in E. tauto.
Qed.

Lemma release_spares t j i s :
  partials t !! i = Some s -> j <> i -> partials (release_at t j) !! i = Some s.
Proof.
  intros Hi Hj. unfold release_at. destruct (partials t !! j); [|done].
  cbn. by rewrite list_lookup_insert_ne.
Qed.

(** A handed message has every chunk, so its stride is known. *)
Lemma handed_stride s : slot_wf s -> live s = true -> handed s = true -> 0 < chunk_size s.
Proof.
  intros [_ _ _ _ Hlive _] Hl Hh. destruct (Hlive Hl) as [Hn Har Hst Hpk _ Hhd].
  destruct (Z.eq_dec (chunk_size s) 0) as [Hz|]; [|lia].
  destruct (Hpk Hz) as (Hch & _ & Hb). apply Hhd in Hh. rewrite Har in Hh.
  pose proof (proj1 (seen_count_full (seen s) (chunks s) ltac:(lia)) Hh 0 ltac:(lia)) as H0.
  rewrite Hb in H0 by lia. destruct (Z.eqb_spec (0 + 1) (chunks s)); cbn in H0; [lia|done].
Qed.

Lemma handed_place s i p err s' out :
  slot_wf s -> live s = true -> handed s = true -> chunk_fits s i (zlen p) ->
  place_chunk s i p = (err, s', out) -> s' = s /\ out = false.
Proof.
  intros Hw Hl Hh Hf. pose proof (handed_stride s Hw Hl Hh).
  unfold place_chunk. destruct (Z.eqb_spec (chunk_size s) 0); [lia|].
  rewrite place_known_spec by (auto using slot_wf_pre).
  assert (seen_get s i = true) as ->.
  { destruct Hw as [_ _ _ _ Hlive _], (Hlive Hl) as [Hn Har _ _ _ Hhd].
    apply Hhd in Hh. rewrite Har in Hh.
    apply (proj1 (seen_count_full (seen s) (chunks s) ltac:(lia)) Hh). by destruct Hf. }
  by destruct (memeq _ _); intros [= <- <- <-].
Qed.

Lemma accepted_handed t who m index n p deadline err t' o i s :
  table_wf t -> accepted t who m index n p deadline err t' o ->
  partials t !! i = Some s -> live s = true -> handed s = true ->
  partials t' !! i = Some s /\ o <> Some i.
Proof.
  intros Ht Ha Hi Hl Hh. destruct (decide (sender s = who /\ msg s = m)) as [[E1 E2]|Hk];
    [|by eapply accepted_other].
  destruct Ha as [err' ps _ HF _|j b err' b' out Hj Hkey _ Hf Hp _ _
    |j b b' out Hj Hfree _ Hnone _ _ _ f _ _ _ _ _ _]; cbn [partials with_partials].
  - destruct (Forall2_lookup_l _ _ _ _ _ HF Hi) as (s' & Hs' & [-> | (? & _)]); [done|congruence].
  - apply holds_key_true in Hkey as (Hlb & Em & Es).
    assert (j = i) as -> by (eapply (t_unique _ Ht); eauto; split; congruence). simplify_eq.
    apply handed_place in Hp as [-> ->]; auto; [|by eapply t_slot].
    rewrite list_lookup_insert_eq by (by eapply lookup_lt_Some). done.
  - assert (j <> i) by (intros ->; simplify_eq; congruence).
    rewrite list_lookup_insert_ne by done. split; [done|]. destruct out; congruence.
Qed.

(** ** What is handed out is complete *)

Lemma place_known_out s i p err s' :
  slot_pre s -> 0 < chunk_size s -> chunk_fits s i (zlen p) ->
  place_known s i p = (err, s', true) ->
  err = FZN_REASM_OK /\ handed s' = true /\ handed s = false.
Proof.
  intros Hs Hcs Hf. rewrite place_known_spec by done.
  destruct (seen_get s i) eqn:Eb; [by destruct (memeq _ _)|]. cbn zeta.
  pose proof (arrived_room s Hs i (fit_index _ _ _ Hf) Eb).
  destruct Hs as [? ? ? ? [? ? ? ? ? Hh]]. destruct (_ =? _); [|done]. intros [= <- <-].
  split_and!; auto. destruct (handed s); [|done].
  assert (arrived s = chunks s) by (by apply Hh). lia.
Qed.

Lemma place_chunk_out s i p err s' :
  slot_pre s -> chunk_fits s i (zlen p) -> place_chunk s i p = (err, s', true) ->
  err = FZN_REASM_OK /\ handed s' = true /\ handed s = false.
Proof.
  intros Hs Hf. unfold place_chunk. destruct (Z.eqb_spec (chunk_size s) 0) as [Hz|Hz].
  2:{ intros E. apply place_known_out in E; auto. destruct Hs as [? ? ? ? []]. lia. }
  destruct (Z.eqb_spec (i + 1) (chunks s)).
  { destruct (parked s =? 0); [done|]. by destruct (negb _ || negb _). }
  destruct (_ || _) eqn:Eg; [done|]. destruct (Z.gtb_spec (zlen p) (buf_capacity s / chunks s)); [done|].
  intros E. pose proof (zlen_nonneg p).
  destruct (set_stride_spec s (zlen p) Hs Hz) as (Hs' & Ecs & _); try lia.
  apply place_known_out in E; auto; [lia|]. destruct Hf. constructor; cbn; auto; lia.
Qed.

(** ** Deadlines *)

Lemma hold_until_spec now h : hold_until now h = sat_add64 now h.
Proof. reflexivity. Qed.

Lemma hold_until_mono now now' h :
  now <= now' -> hold_until now h <= hold_until now' h.
Proof. rewrite !hold_until_spec, !sat_add64_spec. lia. Qed.

Lemma chunk_deadline_le exp now h : chunk_deadline exp now h <= hold_until now h.
Proof.
  unfold chunk_deadline. destruct (exp =? 0); [lia|].
  destruct (Z.ltb_spec exp (hold_until now h)); lia.
Qed.

(** No live slot's deadline is past [bound]. *)
Definition deadlines_by (t : fzn_reasm) (bound : Z) : Prop :=
  forall i s, partials t !! i = Some s -> live s = true -> expires_at s <= bound.

Lemma released_deadlines t ps bound :
  released (partials t) ps -> deadlines_by t bound -> deadlines_by (with_partials t ps) bound.
Proof.
  intros Hr Hd i s Hi Hl. cbn in Hi.
  destruct (Forall2_lookup_r _ _ _ _ _ Hr Hi) as (a & Ha & [-> | ->]); [|done]. by eapply Hd.
Qed.

Lemma accepted_deadlines t who m index n p deadline err t' o bound :
  deadlines_by t bound -> deadline <= bound ->
  accepted t who m index n p deadline err t' o -> deadlines_by t' bound.
Proof.
  intros Hd Hle Ha i s Hi Hl. destruct Ha as [err' ps _ HF _|j b err' b' out Hj Hkey _ _ _ _ Hid
    |j b b' out Hj Hfree _ _ _ _ _ f _ _ _ _ _ Hid]; cbn in Hi.
  - destruct (Forall2_lookup_r _ _ _ _ _ HF Hi) as (a & Ha & [-> | (_ & ? & _)]); [|congruence].
    by eapply Hd.
  - apply list_lookup_insert_Some in Hi as [(<- & <- & _)|[_ Hi]]; [|by eapply Hd].
    destruct Hid as (_ & _ & _ & -> & El & _). eapply Hd; [done|congruence].
  - apply list_lookup_insert_Some in Hi as [(<- & <- & _)|[_ Hi]]; [|by eapply Hd].
    destruct Hid as (_ & _ & _ & -> & _). done.
Qed.

(** The clock an operation reads is at most [T]. *)
Definition clock_by (T : Z) (o : op) : Prop :=
  match o with Accept _ _ _ _ _ _ now => now <= T | _ => True end.

Lemma with_partials_hold t ps : max_hold (with_partials t ps) = max_hold t.
Proof. reflexivity. Qed.

Lemma run_op_hold t o : max_hold (snd (fst (run_op t o))) = max_hold t.
Proof.
  destruct o as [who m index n p exp now|now|who m|i]; try reflexivity.
  - cbn [run_op]. unfold accept, place_at, admit_first.
    repeat (first [progress guards | case_match]; simplify_eq/=; try reflexivity).
  - cbn. unfold release_at. by destruct (partials t !! i).
Qed.

Lemma run_op_deadlines t o T :
  table_wf t -> op_ok o -> clock_by T o -> deadlines_by t (hold_until T (max_hold t)) ->
  deadlines_by (snd (fst (run_op t o))) (hold_until T (max_hold t)).
Proof.
  intros Ht Ho Hc Hd. destruct o as [who m index n p exp now|now|who m|i]; cbn [run_op fst snd].
  - destruct (accept _ _ _ _ _ _ _ _) as [[err t'] o] eqn:E. destruct Ho as (Hi & Hn & _).
    apply accept_spec in E; [|done|ulia|ulia]. cbn [fst snd].
    eapply accepted_deadlines; [| |exact E].
    + apply released_deadlines; [apply released_if|done].
    + pose proof (chunk_deadline_le exp now (max_hold t)).
      pose proof (hold_until_mono now T (max_hold t) Hc). lia.
  - apply released_deadlines; [apply released_if|done].
  - apply released_deadlines; [apply released_if|done].
  - unfold release_at. destruct (partials t !! i) eqn:E; [|done].
    apply released_deadlines; [by apply released_at|done].
Qed.

Lemma run_deadlines t ops T :
  table_wf t -> Forall op_ok ops -> Forall (clock_by T) ops ->
  deadlines_by t (hold_until T (max_hold t)) ->
  deadlines_by (run t ops) (hold_until T (max_hold t)).
Proof.
  intros Ht Hops Hc. revert t Ht. induction ops as [|o ops IH]; intros t Ht Hd; [done|].
  apply Forall_cons_iff in Hops as [Ho Hops]. apply Forall_cons_iff in Hc as [Hco Hc].
  cbn. change (foldl _ ?x ops) with (run x ops).
  rewrite <- (run_op_hold t o). apply IH; auto; [by apply run_op_wf|].
  rewrite run_op_hold. by apply run_op_deadlines.
Qed.

(** ** Which chunks are missing *)

(** The chunk indices a list of ranges names. *)
Definition range_indices (r : fzn_reasm_range) : list Z := seqZ (first r) (range_count r).
Definition named (out : list fzn_reasm_range) : list Z := concat (range_indices <$> out).

(** The indices of [l] a slot has not seen. *)
Fixpoint missing_of (s : fzn_partial) (l : list Z) : list Z :=
  match l with
  | [] => []
  | i :: l => if seen_get s i then missing_of s l else i :: missing_of s l
  end.

Definition range_ok (limit : Z) (r : fzn_reasm_range) : Prop := 0 < range_count r <= limit.

Lemma missing_of_app s l1 l2 : missing_of s (l1 ++ l2) = missing_of s l1 ++ missing_of s l2.
Proof. induction l1 as [|i l1 IH]; cbn; [done|]. destruct (seen_get s i); cbn; by rewrite IH. Qed.

Lemma named_app a b : named (a ++ b) = named a ++ named b.
Proof. unfold named. by rewrite fmap_app, concat_app. Qed.

(** [emit_run] moves the run into the output, in order, as far as [cap]. *)
Lemma emit_run_spec fuel out cap f run limit more out' f' run' :
  run <= Z.of_nat fuel -> 0 <= run -> 0 < limit <= UINT16_MAX -> 0 <= f ->
  f + run <= FZN_REASM_MAX_CHUNKS ->
  Forall (range_ok limit) out -> zlen out <= cap ->
  emit_run fuel out cap f run limit = (more, out', f', run') ->
  named out' ++ seqZ f' run' = named out ++ seqZ f run /\ f' + run' = f + run /\
  0 <= f' /\ 0 <= run' /\
  Forall (range_ok limit) out' /\ zlen out <= zlen out' <= cap /\
  (more = true -> run' = 0) /\ (more = false -> zlen out' = cap /\ 0 < run').
Proof.
  revert out f run. induction fuel as [|fuel IH]; intros out f run Hfuel Hrun Hlim Hf Hmax Hok Hcap.
  { intros [= <- <- <- <-]. split_and!; auto; try lia; done. }
  cbn [emit_run]. destruct (Z.gtb_spec run 0); [|intros [= <- <- <- <-]; split_and!; auto; try lia; done].
  destruct (Z.geb_spec (zlen out) cap); [intros [= <- <- <- <-]; split_and!; auto; try lia; done|].
  set (k := if run <? limit then run else limit).
  assert (Hk : 0 < k <= limit /\ k <= run) by (subst k; destruct (Z.ltb_spec run limit); lia).
  unfold FZN_REASM_MAX_CHUNKS in *.
  rewrite !u16_small by ulia. intros E. apply IH in E; try lia.
  - destruct E as (E1 & E2 & E3 & E4 & E5 & E6 & E7 & E8). rewrite zlen_snoc in E6. split_and!; auto; try lia.
    rewrite E1, named_app, <- app_assoc. f_equal. unfold named. cbn. rewrite app_nil_r.
    unfold range_indices. cbn. rewrite <- seqZ_app by lia. f_equal. lia.
  - apply Forall_app. split; [done|]. constructor; [|constructor]. unfold range_ok. cbn. lia.
  - rewrite zlen_snoc. lia.
Qed.

Lemma emit_spec out cap f run limit more out' f' run' :
  0 <= run -> 0 < limit <= UINT16_MAX -> 0 <= f -> f + run <= FZN_REASM_MAX_CHUNKS ->
  Forall (range_ok limit) out -> zlen out <= cap ->
  emit out cap f run limit = (more, out', f', run') ->
  named out' ++ seqZ f' run' = named out ++ seqZ f run /\ f' + run' = f + run /\
  0 <= f' /\ 0 <= run' /\
  Forall (range_ok limit) out' /\ zlen out <= zlen out' <= cap /\
  (more = true -> run' = 0) /\ (more = false -> zlen out' = cap /\ 0 < run').
Proof. intros. eapply emit_run_spec; [| | | | | | |eassumption]; auto; lia. Qed.

(** The loop, from index [i] with [n] to go: what is emitted, then the open run,
    then whatever a full array cut off is the missing chunks in order. *)
Lemma want_loop_spec s (n : nat) i out cap rf run limit out' rf' run' :
  0 < limit <= UINT16_MAX -> 0 <= i -> i + Z.of_nat n <= FZN_REASM_MAX_CHUNKS ->
  0 <= rf -> 0 <= run -> (0 < run -> rf + run = i) -> rf + run <= FZN_REASM_MAX_CHUNKS ->
  Forall (range_ok limit) out -> zlen out <= cap ->
  want_loop s (seqZ i (Z.of_nat n)) out cap rf run limit = (out', rf', run') ->
  exists rest,
    named out ++ seqZ rf run ++ missing_of s (seqZ i (Z.of_nat n)) =
      named out' ++ seqZ rf' run' ++ rest /\
    Forall (range_ok limit) out' /\ zlen out' <= cap /\ 0 <= rf' /\ 0 <= run' /\
    rf' + run' <= FZN_REASM_MAX_CHUNKS /\ (rest = [] \/ zlen out' = cap /\ 0 < run').
Proof.
  intros Hlim. revert i out rf run. induction n as [|n IH]; intros i out rf run Hi Hn Hrf Hrun Hopen Hmax Hok Hcap.
  { cbn. intros [= <- <- <-]. exists []. split_and!; auto. }
  rewrite seqZ_cons by lia. replace (Z.pred (Z.of_nat (S n))) with (Z.of_nat n) by lia.
  cbn [want_loop missing_of]. destruct (seen_get s i) eqn:Eb; cbn [negb].
  - destruct (emit out cap rf run limit) as [[[more o1] f1] r1] eqn:Ee.
    apply emit_spec in Ee as (E1 & E2 & E3 & E4 & E5 & E6 & E7 & E8); auto.
    rewrite (app_assoc (named out)), <- E1, <- app_assoc.
    destruct more.
    + intros E. apply IH in E; auto; try lia.
    + intros [= <- <- <-]. destruct (E8 eq_refl). eexists. split_and!; eauto; lia.
  - intros E. destruct (Z.eqb_spec run 0) as [->|Hne].
    + apply IH in E; auto; lia.
    + apply IH in E; auto; try lia.
      replace (seqZ rf (run + 1)) with (seqZ rf run ++ [i]) in E.
      * rewrite <- app_assoc in E. exact E.
      * replace (run + 1) with (Z.of_nat (S (Z.to_nat run))) by lia. rewrite seqZ_S. f_equal.
        -- f_equal. lia.
        -- f_equal. lia.
Qed.

(** * The properties *)

(** C15: whatever sequence of operations a caller and the network make of a
    table set up by the init functions, it stays well formed: no buffer changes
    its length (no store left it), the arrived counters agree with the
    arrived-sets, no sender holds more slots than its quota, no message is held
    twice, and every slot still has the buffer it was given. *)
Theorem reasm_table_invariant t0 ps quota hold t ops :
  Forall slot_ready ps -> 0 <= quota -> in_u64 hold ->
  fzn_reasm_init (Some t0) (Some ps) quota hold = (FZN_REASM_OK, Some t) ->
  Forall op_ok ops ->
  table_wf (run t ops) /\ capacities (run t ops) = buf_capacity <$> ps.
Proof.
  intros Hps Hq Hh E Hops. pose proof (init_wf t0 ps quota hold t Hps Hq Hh E) as Ht.
  split; [by apply run_wf|]. rewrite run_capacities by done.
  unfold fzn_reasm_init in E. destruct (_ || _ || _); [done|]. by destruct (existsb _ _); simplify_eq.
Qed.

Definition demo_slot (n : nat) : fzn_partial := cleared (replicate n 0) (Z.of_nat n).

Lemma demo_slot_ready n : (0 < n <= 64)%nat -> slot_ready (demo_slot n).
Proof.
  intros. exists (demo_slot n), (replicate n 0). unfold fzn_reasm_slot_init, demo_slot, zlen.
  rewrite length_replicate. destruct (Z.eqb_spec (Z.of_nat n) 0); [lia|]. split; [ulia|done].
Qed.

Definition demo_table : fzn_reasm := mk_reasm [demo_slot 8; demo_slot 8] 1 100.
Definition alice : bytes := replicate 32 1.
Definition bob : bytes := replicate 32 2.

Lemma reasm_table_invariant_witness :
  table_wf (run demo_table
    [Accept alice 7 1 2 [3; 4] 0 10; Accept bob 7 0 1 [9] 0 11; Accept alice 7 0 2 [1; 2; 3] 0 12])
  /\ partials (run demo_table
    [Accept alice 7 1 2 [3; 4] 0 10; Accept bob 7 0 1 [9] 0 11; Accept alice 7 0 2 [1; 2; 3] 0 12])
     !! 0%nat = Some (mk_partial alice 7 2 2 110 [1; 2; 3; 3; 4; 0; 3; 4] 8 3 5 2
                        (3 :: replicate 31 0) true true).
Proof.
  split; [|vm_compute; reflexivity].
  eapply (reasm_table_invariant demo_table [demo_slot 8; demo_slot 8] 1 100).
  - repeat constructor; apply demo_slot_ready; lia.
  - lia.
  - ulia.
  - reflexivity.
  - repeat constructor; cbn; ulia.
Defined.

(** A completed message is the caller's from the call that hands it over
    until the caller releases it. No chunk, sweep or forget, from anybody,
    changes a byte or a field of its slot, and it is never handed over again. *)
Theorem handed_slot_is_the_callers t o i s err t' out :
  table_wf t -> op_ok o -> partials t !! i = Some s -> live s = true -> handed s = true ->
  o <> Release i -> run_op t o = (err, t', out) ->
  partials t' !! i = Some s /\ out <> Some i.
Proof.
  intros Ht Ho Hi Hl Hh Hr E. destruct o as [who m index n p exp now|now|who m|j]; cbn in E.
  - destruct Ho as (? & ? & _). apply accept_spec in E; [|done|ulia|ulia].
    eapply accepted_handed in E; eauto using expire_wf, expire_spares.
  - simplify_eq. split; [|done]. apply expire_spares; auto.
  - simplify_eq. split; [|done]. apply forget_spares; auto.
  - simplify_eq. split; [|done]. apply release_spares; congruence.
Qed.

Lemma handed_slot_is_the_callers_witness :
  let t := run demo_table [Accept alice 7 0 1 [170; 170] 50 10] in
  exists s, partials t !! 0%nat = Some s /\ handed s = true /\
    partials (snd (fst (run_op t (Expire 1000)))) !! 0%nat = Some s.
Proof.
  intros t. eexists. split_and!; [vm_compute; reflexivity|reflexivity|].
  eapply (handed_slot_is_the_callers t (Expire 1000)); try reflexivity.
  - apply run_wf; [|repeat constructor; cbn; ulia].
    apply (init_wf demo_table [demo_slot 8; demo_slot 8] 1 100); try (reflexivity || ulia).
    repeat constructor; apply demo_slot_ready; lia.
  - cbn. ulia.
  - done.
Defined.

(** Half a message is never held past [max_hold]. After any operations
    whose clocks read at most [T], a sweep at or after [T] plus [max_hold]
    (saturating) leaves no live slot but those already handed to the caller,
    whatever expiry the chunks claimed, none included. *)
Theorem partial_never_outlives_max_hold t ops T now i s :
  table_wf t -> (forall j a, partials t !! j = Some a -> live a = false) ->
  Forall op_ok ops -> Forall (clock_by T) ops ->
  hold_until T (max_hold t) <= now ->
  partials (snd (fzn_reasm_expire (run t ops) now)) !! i = Some s -> live s = true ->
  handed s = true.
Proof.
  intros Ht Hfree Hops Hc Hnow Hi Hl.
  assert (Hd : deadlines_by (run t ops) (hold_until T (max_hold t))).
  { apply run_deadlines; auto. intros j a Ha La. rewrite (Hfree j a Ha) in La. done. }
  cbn in Hi. rewrite list_lookup_fmap in Hi. apply fmap_Some in Hi as (a & Ha & ->).
  destruct (expirable now a) eqn:Ee; [done|].
  specialize (Hd i a Ha Hl). unfold expirable in Ee. rewrite Hl in Ee. cbn in Ee.
  destruct (Z.leb_spec (expires_at a) now); [|lia].
  rewrite andb_true_r in Ee. by apply negb_false_iff in Ee.
Qed.

Lemma partial_never_outlives_max_hold_witness :
  exists s, partials (snd (fzn_reasm_expire
    (run demo_table [Accept alice 7 1 2 [3; 4] 0 10; Accept bob 7 0 1 [9] 0 11]) 111))
    !! 1%nat = Some s /\ handed s = true.
Proof.
  eexists. split; [vm_compute; reflexivity|].
  eapply (partial_never_outlives_max_hold demo_table
    [Accept alice 7 1 2 [3; 4] 0 10; Accept bob 7 0 1 [9] 0 11] 11 111 1).
  - apply (init_wf demo_table [demo_slot 8; demo_slot 8] 1 100); try (reflexivity || ulia).
    repeat constructor; apply demo_slot_ready; lia.
  - intros [|[|j]] a Ha; by simplify_eq/=.
  - repeat constructor; cbn; ulia.
  - repeat constructor; cbn; lia.
  - vm_compute. done.
  - vm_compute. reflexivity.
  - reflexivity.
Defined.

(** [fzn_reasm_plan_want] names exactly the missing chunks, in order and
    each once, in non-empty ranges no longer than the caller's limit; only an
    array of [cap] ranges that is full cuts the list short. *)
Theorem plan_want_names_the_missing t who m limit cap i s err out :
  table_wf t -> find t who m = Some i -> partials t !! i = Some s ->
  0 < limit <= UINT16_MAX -> 0 <= cap ->
  fzn_reasm_plan_want t who m limit cap = (err, out) ->
  err = FZN_REASM_OK /\ Forall (range_ok limit) out /\ zlen out <= cap /\
  exists rest, missing_of s (seqZ 0 (chunks s)) = named out ++ rest /\
    (rest = [] \/ zlen out = cap).
Proof.
  intros Ht Hf Hi Hlim Hcap. unfold fzn_reasm_plan_want. rewrite Hf, Hi.
  destruct (Z.eqb_spec limit 0); [lia|].
  unfold find in Hf. apply find_index_Some in Hf as (a & Ha & Hk & _).
  assert (a = s) as -> by congruence. apply holds_key_true in Hk as (Hl & _).
  pose proof (wf_chunks _ (wf_live _ (t_slot _ _ _ Ht Hi) Hl)) as Hch.
  replace (chunks s) with (Z.of_nat (Z.to_nat (chunks s))) by lia.
  destruct (want_loop _ _ _ _ _ _ _) as [[o1 f1] r1] eqn:Ew.
  apply want_loop_spec in Ew as (rest & E1 & E2 & E3 & E4 & E5 & E6 & E7);
    auto; try (unfold FZN_REASM_MAX_CHUNKS in *; unfold zlen; cbn; lia).
  destruct (emit o1 cap f1 r1 limit) as [[[more o2] f2] r2] eqn:Ee.
  apply emit_spec in Ee as (F1 & F2 & F3 & F4 & F5 & F6 & F7 & F8); auto.
  intros [= <- <-]. split_and!; auto; [lia|]. exists (seqZ f2 r2 ++ rest). split.
  - rewrite app_assoc, F1, <- app_assoc. exact E1.
  - destruct more.
    + rewrite (F7 eq_refl). destruct E7 as [-> | [? ?]]; [by left|right; lia].
    + right. by apply F8.
Qed.

Lemma plan_want_names_the_missing_witness :
  let t := run demo_table [Accept alice 7 1 4 [5; 6] 0 10] in
  exists out, fzn_reasm_plan_want t alice 7 2 8 = (FZN_REASM_OK, out) /\
    Forall (range_ok 2) out /\ out = [mk_range 0 1; mk_range 2 2].
Proof.
  intros t. eexists. split_and!; [vm_compute; reflexivity| |reflexivity].
  eapply (plan_want_names_the_missing t alice 7 2 8 0); try (vm_compute; reflexivity);
    try ulia.
  apply run_wf; [|repeat constructor; cbn; ulia].
  apply (init_wf demo_table [demo_slot 8; demo_slot 8] 1 100); try (reflexivity || ulia).
  repeat constructor; apply demo_slot_ready; lia.
Defined.

(** The repeat of a placed last chunk is compared over the repeat's own length
    only: a proper prefix of the chunk already held is taken for a
    retransmission. (While the piece is still parked, the lengths are compared
    too and such a repeat is refused.) *)
Lemma shorter_last_repeat_accepted :
  let t := run demo_table [Accept alice 7 0 2 [1; 2; 3] 0 10; Accept alice 7 1 2 [4; 5] 0 10] in
  accept t alice 7 1 2 [4] 0 10 = (FZN_REASM_OK, t, None).
Proof. vm_compute. reflexivity. Qed.

Lemma shorter_parked_repeat_refused :
  let t := run demo_table [Accept alice 7 1 2 [4; 5] 0 10] in
  accept t alice 7 1 2 [4] 0 10 = (FZN_REASM_ERR_CONFLICT, t, None).
Proof. vm_compute. reflexivity. Qed.
