(* ===== verification/ReassemblyRound.v ===== *)
(** * Split and reassembly: a message arrives whole

    chunk/split.c cuts, chunk/reassembly.c puts together. Pieces may arrive in
    any order, any number of times, between anybody else's traffic; when the
    last one lands the slot holds the message and is handed over, once. *)

From S2P Require Import Prelude Split Reassembly ReassemblyInv ReassemblyProps.

Section Round.
Context (p : fzn_split) (Hp : plan_ok p) (m : bytes) (Hm : zlen m = total p).
Context (who : bytes) (id : Z).

Abbreviation stride := (Split.chunk_size p).
Abbreviation count_of := (Split.chunks p).
Abbreviation last_index := (Split.chunks p - 1).

(** How many bytes the pieces marked in an arrived-set hold. *)
Definition received (bits : bytes) : Z := wsum (piece_len p) (seen_bit bits) (seqZ 0 count_of).

(** Slot [s] holds pieces of [m] and nothing else. *)
Record tracks (s : fzn_partial) : Prop := {
  tr_live : live s = true;
  tr_sender : sender s = who;
  tr_msg : msg s = id;
  tr_chunks : chunks s = count_of;
  tr_room : stride * count_of <= buf_capacity s;
  tr_stride : chunk_size s = stride \/ chunk_size s = 0;
  tr_data : chunk_size s <> 0 -> forall i, 0 <= i < count_of -> seen_get s i = true ->
    slice (i * stride) (piece_len p i) (buf s) = piece p m i;
  tr_parked : chunk_size s = 0 -> 0 < parked s ->
    parked s = piece_len p last_index /\
    slice (buf_capacity s - parked s) (parked s) (buf s) = piece p m last_index;
  tr_bytes : held_bytes s = received (seen s)
}.

Lemma stride_div c : stride * count_of <= c -> stride <= c / count_of.
Proof using Hp. intros. destruct Hp. apply Z.div_le_lower_bound; lia. Qed.

(** A piece passes the checks made of a chunk. *)
Lemma piece_fits s j :
  tracks s -> (chunk_size s = 0 -> 1 < count_of) -> 0 <= j < count_of ->
  chunk_fits s j (zlen (piece p m j)).
Proof using Hp Hm.
  intros [] Hmany Hj. rewrite zlen_piece by done.
  pose proof (piece_len_bounds p Hp j Hj). pose proof (stride_div _ tr_room0).
  constructor; rewrite ?tr_chunks0; auto; try lia.
  intros Hne. destruct tr_stride0 as [-> |]; [|done]. split; [lia|].
  intros. unfold piece_len. destruct (Z.eqb_spec (j + 1) count_of); lia.
Qed.

Lemma received_set bits j :
  seen_ok bits -> 0 <= j < count_of -> seen_bit bits j = false ->
  received (seen_set bits j) = received bits + piece_len p j.
Proof using Hp.
  intros Hs Hj Hb. unfold received. destruct Hp. unfold FZN_REASM_MAX_CHUNKS in *.
  apply (wsum_set _ _ _ _ _ j); auto.
  - rewrite seen_bit_set by (auto; lia). by rewrite Z.eqb_refl.
  - intros k Hk Hne. rewrite seen_bit_set by (auto; lia). destruct (Z.eqb_spec j k); [lia|done].
Qed.

(** Pieces do not overlap. *)
Lemma pieces_disjoint i j :
  0 <= i < count_of -> 0 <= j < count_of -> i <> j ->
  i * stride + piece_len p i <= j * stride \/ j * stride + piece_len p j <= i * stride.
Proof using Hp.
  intros Hi Hj Hne. pose proof (piece_len_bounds p Hp i Hi).
  pose proof (piece_len_bounds p Hp j Hj). destruct (Z.lt_ge_cases i j); [left|right]; nia.
Qed.

(** Placing an unseen piece of a slot whose stride is known. *)
Lemma place_tracks s j :
  slot_pre s -> tracks s -> chunk_size s = stride -> 0 <= j < count_of ->
  seen_get s j = false -> tracks (place s (j * stride) j (piece p m j)).
Proof using Hp Hm.
  intros Hs [] Hcs Hj Hb. pose proof (piece_len_bounds p Hp j Hj).
  pose proof (zlen_piece p Hp m j Hm Hj) as Hz. pose proof (stride_div _ tr_room0) as Hdiv.
  destruct (place_eq s Hs (j * stride) j (piece p m j)) as [_ Eb]; auto; try lia.
  { rewrite Hz, tr_chunks0. lia. }
  destruct Hs as [Hbuf Hcap Hse _ _]. pose proof (plan_chunks p Hp). pose proof (plan_stride p Hp).
  constructor; auto; try (cbn; congruence).
  - intros _ i Hi Hseen. cbn [buf place].
    destruct (Z.eq_dec i j) as [->|Hne].
    + rewrite <- Hz. apply slice_blit_same; nia.
    + rewrite slice_blit_disjoint; try nia.
      * apply tr_data0; auto; [congruence || lia|]. unfold seen_get in *. cbn in Hseen.
        unfold FZN_REASM_MAX_CHUNKS in *.
        rewrite seen_bit_set in Hseen by (auto; lia). destruct (Z.eqb_spec j i); [lia|done].
      * pose proof (piece_len_bounds p Hp i Hi). lia.
      * rewrite Hz. apply pieces_disjoint; auto.
  - cbn. intros. destruct Hp. lia.
  - rewrite Eb, Hz, tr_bytes0. cbn [seen place]. symmetry. by apply received_set.
Qed.

Lemma hand_tracks s : tracks s -> tracks (hand s).
Proof. intros []. by constructor. Qed.

(** The arrived-set after piece [j], and when the message is handed. *)
Definition adds (s s' : fzn_partial) (j : Z) (out : bool) : Prop :=
  (forall i, 0 <= i < count_of -> seen_get s' i = (j =? i) || seen_get s i) /\
  out = handed s' && negb (handed s) /\ (handed s = true -> handed s' = true).

Lemma place_known_tracks s j :
  slot_pre s -> tracks s -> chunk_size s = stride -> 0 <= j < count_of ->
  exists s' out, place_known s j (piece p m j) = (FZN_REASM_OK, s', out) /\
    tracks s' /\ adds s s' j out.
Proof using Hp Hm.
  intros Hs Ht Hcs Hj. pose proof (plan_stride p Hp). pose proof (plan_chunks p Hp).
  rewrite place_known_spec; [|done|lia|by apply piece_fits; [|lia|]].
  rewrite Hcs, (zlen_piece p Hp m j Hm Hj). destruct (seen_get s j) eqn:Eb.
  - pose proof (tr_data _ Ht ltac:(lia) j Hj Eb) as ->. rewrite memeq_refl.
    exists s, false. split_and!; auto. split_and!; auto.
    + intros i Hi. destruct (Z.eqb_spec j i); [by subst|done].
    + by destruct (handed s).
  - pose proof (place_tracks s j Hs Ht Hcs Hj Eb) as Ht'. cbn zeta.
    pose proof (arrived_room s Hs j ltac:(by rewrite (tr_chunks _ Ht)) Eb).
    assert (Hbits : forall i, 0 <= i < count_of ->
      seen_get (place s (j * stride) j (piece p m j)) i = (j =? i) || seen_get s i).
    { intros i Hi. unfold seen_get. cbn. unfold FZN_REASM_MAX_CHUNKS in *.
      destruct Hs. apply seen_bit_set; auto; lia. }
    assert (Hhf : handed s = false).
    { destruct Hs as [_ _ _ _ [_ _ _ _ _ Hh]]. destruct (handed s); [|done].
      assert (arrived s = chunks s) by (by apply Hh). lia. }
    destruct (arrived s + 1 =? chunks s); do 2 eexists;
      (split; [reflexivity|split; [auto using hand_tracks|]]); unfold adds; cbn;
      rewrite Hhf; auto.
Qed.

(** Setting the stride from a piece that is not the last. *)
Lemma set_stride_tracks s :
  slot_pre s -> tracks s -> chunk_size s = 0 -> 0 < parked s ->
  tracks (set_stride s stride) /\ slot_pre (set_stride s stride).
Proof using Hp Hm.
  intros Hs Ht Hz Hpk. destruct Ht. pose proof (plan_stride p Hp).
  destruct (tr_parked0 Hz Hpk) as [Ep Ed]. pose proof (plan_chunks p Hp).
  pose proof (piece_len_bounds p Hp last_index ltac:(lia)).
  pose proof (stride_div _ tr_room0). rewrite <- tr_chunks0 in *.
  destruct (set_stride_spec s stride Hs Hz) as (Hs' & Ecs & Hmove); try lia.
  split; [|done]. constructor; auto; try (cbn; lia).
  intros _ i Hi Hseen.
  destruct Hs as [_ _ _ _ [_ _ _ Hpb _ _]]. destruct (Hpb Hz) as (_ & _ & Hbits).
  change (seen_get (set_stride s stride) i) with (seen_bit (seen s) i) in Hseen.
  rewrite Hbits in Hseen by lia. assert (i = chunks s - 1) as -> by lia.
  rewrite <- Ep, Hmove, Ep, <- Ed. by rewrite Ep.
Qed.

(** Every piece of the message is taken, whatever came before it. *)
Lemma place_piece s j :
  slot_pre s -> tracks s -> (chunk_size s = 0 -> 1 < count_of) -> 0 <= j < count_of ->
  (parked s = 0 -> chunk_size s = 0 -> j = last_index) ->
  exists s' out, place_chunk s j (piece p m j) = (FZN_REASM_OK, s', out) /\
    tracks s' /\ adds s s' j out.
Proof using Hp Hm.
  intros Hs Ht Hmany Hj Hfirst. unfold place_chunk.
  pose proof (piece_fits s j Ht Hmany Hj) as Hfit.
  pose proof (zlen_piece p Hp m j Hm Hj) as Hz. pose proof (plan_stride p Hp).
  pose proof (piece_len_bounds p Hp j Hj). pose proof (plan_chunks p Hp).
  destruct (Z.eqb_spec (chunk_size s) 0) as [Hcz|Hcz].
  2:{ apply place_known_tracks; auto. destruct (tr_stride _ Ht); [done|lia]. }
  rewrite (tr_chunks _ Ht). pose proof Hs as [Hbuf Hcap Hse Hl Hw].
  pose proof (wf_parked _ Hw Hcz) as (_ & Hpr & Hbits). rewrite (tr_chunks _ Ht) in *.
  pose proof (stride_div _ (tr_room _ Ht)).
  destruct (Z.eqb_spec (j + 1) count_of) as [Hlast|Hlast].
  - assert (j = last_index) as Ej by lia.
    destruct (Z.eqb_spec (parked s) 0) as [Hp0|Hp0].
    + (* the last piece first: parked *)
      assert (Eb : seen_get s j = false)
        by (unfold seen_get; rewrite Hbits by lia; rewrite Hp0; by rewrite andb_false_r).
      assert (zlen (piece p m j) <= buf_capacity s) by (pose proof (tr_room _ Ht); nia).
      rewrite (u64_small (buf_capacity s - zlen (piece p m j))) by ulia.
      destruct (place_eq s Hs (buf_capacity s - zlen (piece p m j)) j (piece p m j))
        as [_ Ebytes]; auto; try (rewrite (tr_chunks _ Ht); lia).
      do 2 eexists. split; [reflexivity|split].
      * destruct Ht. constructor; auto; try (cbn; lia).
        -- cbn. intros _ _. rewrite Hz, Ej in *. split; [done|].
           rewrite <- Hz at 2 3. rewrite <- Hz at 1. apply slice_blit_same; lia.
        -- change (held_bytes (with_parked ?x _)) with (held_bytes x).
           rewrite Ebytes, Hz, tr_bytes0. cbn [seen place with_parked]. symmetry.
           by apply received_set.
      * unfold adds. cbn. split_and!.
        -- intros i Hi. unfold seen_get. cbn. unfold FZN_REASM_MAX_CHUNKS in *.
           apply seen_bit_set; auto; lia.
        -- by destruct (handed s).
        -- done.
    + (* the parked piece again *)
      destruct (tr_parked _ Ht Hcz ltac:(lia)) as [Ep Ed].
      pose proof (piece_len_bounds p Hp last_index ltac:(lia)).
      assert (parked s <= buf_capacity s) by (pose proof (tr_room _ Ht); nia).
      rewrite u64_small by ulia.
      rewrite Hz, Ej, <- Ep, Z.eqb_refl, Ed, memeq_refl. cbn.
      exists s, false. split_and!; auto. unfold adds. split_and!; auto; [|by destruct (handed s)].
      intros i Hi. unfold seen_get. rewrite Hbits by lia.
      destruct (Z.ltb_spec 0 (parked s)); [|lia].
      destruct (Z.eqb_spec last_index i), (Z.eqb_spec (i + 1) count_of); cbn; lia || done.
  - assert (Hpk : 0 < parked s) by (destruct (Z.eq_dec (parked s) 0); [|lia]; exfalso; auto with lia).
    assert (Elen : zlen (piece p m j) = stride).
    { rewrite Hz. unfold piece_len. by destruct (Z.eqb_spec (j + 1) count_of). }
    destruct (tr_parked _ Ht Hcz Hpk) as [Ep _].
    pose proof (piece_len_bounds p Hp last_index ltac:(lia)).
    rewrite Elen. destruct (Z.eqb_spec stride 0); [lia|].
    destruct (Z.ltb_spec stride (parked s)); [lia|]. cbn [orb].
    destruct (Z.gtb_spec stride (buf_capacity s / count_of)); [lia|].
    destruct (set_stride_tracks s Hs Ht Hcz Hpk) as [Ht' Hs'].
    destruct (place_known_tracks (set_stride s stride) j) as (s' & out & E & Ht2 & Ha); auto.
    exists s', out. split_and!; auto.
Qed.
(** ** At completion *)

Lemma wsum_pieces (l : list Z) :
  (forall i, i ∈ l -> 0 <= i < count_of) ->
  wsum (piece_len p) (fun _ => true) l = zlen (concat (piece p m <$> l)).
Proof using Hp Hm.
  induction l as [|i l IH]; intros Hl; [done|]. cbn. rewrite zlen_app, IH.
  - by rewrite zlen_piece by (auto; apply Hl; constructor).
  - intros k Hk. apply Hl. by constructor.
Qed.

Lemma tracks_complete s :
  slot_wf s -> tracks s -> handed s = true ->
  held_bytes s = zlen m /\ slice 0 (zlen m) (buf s) = m.
Proof using Hp Hm.
  intros Hw Ht Hh. pose proof (handed_stride s Hw (tr_live _ Ht) Hh) as Hst.
  pose proof (plan_chunks p Hp) as Hch.
  assert (Hall : forall i, 0 <= i < count_of -> seen_bit (seen s) i = true).
  { destruct (wf_live _ Hw (tr_live _ Ht)) as [_ Har _ _ _ Hhd]. apply Hhd in Hh.
    rewrite Har, (tr_chunks _ Ht) in Hh. by apply seen_count_full; [lia|]. }
  assert (Hidx : forall i, i ∈ indices count_of -> 0 <= i < count_of).
  { intros i Hi. apply elem_of_seqZ in Hi. lia. }
  split.
  - rewrite (tr_bytes _ Ht). unfold received.
    rewrite (wsum_ext _ _ (fun _ => true)), wsum_pieces by auto.
    f_equal. by apply concat_pieces_all.
  - destruct Hw as [Hbuf _ _ _ _ _].
    pose proof (tr_room _ Ht). pose proof (plan_total p Hp).
    rewrite <- (concat_pieces_all p Hp (slice 0 (zlen m) (buf s))) by (rewrite zlen_slice; lia).
    rewrite <- (concat_pieces_all p Hp m Hm) at 2. f_equal.
    apply list_fmap_ext. intros k i Hk.
    assert (Hi : 0 <= i < count_of) by (apply Hidx; by eapply list_elem_of_lookup_2).
    rewrite <- (tr_data _ Ht ltac:(lia) i Hi (Hall i Hi)). unfold piece.
    pose proof (piece_len_bounds p Hp i Hi). pose proof (piece_end p Hp i Hi).
    pose proof (plan_stride p Hp). rewrite slice_slice; [done|nia..].
Qed.

(** ** In the table *)

Lemma find_unique t i s :
  table_wf t -> partials t !! i = Some s -> holds_key who id s = true -> find t who id = Some i.
Proof.
  intros Ht Hi Hk. unfold find. apply find_index_Some. exists s. split_and!; auto.
  intros j a Ha Hj. destruct (holds_key who id a) eqn:E; [|done].
  apply holds_key_true in Hk as (? & ? & ?), E as (? & ? & ?).
  assert (j = i) by (eapply (t_unique _ Ht); eauto; split; congruence). lia.
Qed.

Lemma fits_later_ok s j len :
  chunk_fits s j len -> later_chunk_ok s j (chunks s) len = true.
Proof.
  intros []. unfold later_chunk_ok. rewrite Z.eqb_refl. cbn [negb].
  destruct (Z.geb_spec j (chunks s)); [lia|].
  destruct (Z.eqb_spec (j + 1) (chunks s)), (Z.eqb_spec len 0), (Z.eqb_spec (chunk_size s) 0);
    cbn; lia.
Qed.

(** Our piece, in a table that holds our message in slot [i]. *)
Lemma accept_piece t i s j e now :
  table_wf t -> partials t !! i = Some s -> tracks s -> now < expires_at s ->
  e = 0 \/ now < e -> 0 <= j < count_of ->
  exists s' (out : bool),
    accept t who id j count_of (piece p m j) e now =
      (FZN_REASM_OK,
       with_partials t (<[i := s']> (partials (snd (fzn_reasm_expire t now)))),
       if out then Some i else None) /\
    tracks s' /\ adds s s' j out /\ expires_at s' = expires_at s.
Proof using Hp Hm.
  intros Ht Hi Htr Hlate He Hj. unfold accept.
  pose proof (expire_wf t now Ht) as Ht1.
  pose proof (expire_spares t now i s Hi (or_intror Hlate)) as Hi1.
  destruct (negb (e =? 0) && (e <=? now)) eqn:Ee; [lia|].
  rewrite (find_unique _ i s Ht1 Hi1) by (apply holds_key_true; by destruct Htr).
  rewrite Hi1. pose proof (t_slot _ _ _ Ht1 Hi1) as Hw.
  pose proof (slot_wf_pre _ Hw (tr_live _ Htr)) as Hpre.
  assert (Hmany : chunk_size s = 0 -> 1 < count_of).
  { intros Hz. rewrite <- (tr_chunks _ Htr). by apply (wf_parked _ (wf_live _ Hw (tr_live _ Htr))). }
  pose proof (piece_fits s j Htr Hmany Hj) as Hfit.
  assert (later_chunk_ok s j count_of (zlen (piece p m j)) = true) as ->
    by (rewrite <- (tr_chunks _ Htr); by apply fits_later_ok).
  destruct (place_piece s j Hpre Htr Hmany Hj) as (s' & out & E & Htr' & Ha).
  { intros Hp0 Hz. pose proof (wf_settled _ Hw (tr_live _ Htr) Hz). lia. }
  exists s', out. unfold place_at. rewrite Hi1, E. split_and!; auto.
  by destruct (place_chunk_wf _ _ _ _ _ _ Hpre Hfit E) as (_ & _ & (_ & _ & _ & ? & _)).
Qed.

(** Our first piece, in a table with room for the message. *)
Lemma accept_first_piece t j e now :
  table_wf t -> find t who id = None -> held_by t who < per_sender_max t ->
  (exists i s, partials t !! i = Some s /\ live s = false) ->
  Forall (fun s => buffer_needed p <= buf_capacity s) (partials t) ->
  e = 0 \/ now < e -> 0 <= j < count_of ->
  exists (i : nat) s' (out : bool),
    accept t who id j count_of (piece p m j) e now =
      (FZN_REASM_OK,
       with_partials t (<[i := s']> (partials (snd (fzn_reasm_expire t now)))),
       if out then Some i else None) /\
    (i < length (partials t))%nat /\
    tracks s' /\ (forall k, 0 <= k < count_of -> seen_get s' k = (j =? k)) /\
    out = handed s' /\ expires_at s' = chunk_deadline e now (max_hold t).
Proof using Hp Hm.
  intros Ht Hf Hroom (i0 & s0 & Hi0 & Hl0) Hcap He Hj. unfold accept.
  pose proof (expire_wf t now Ht) as Ht1.
  assert (Hrel : released (partials t) (partials (snd (fzn_reasm_expire t now))))
    by apply released_if.
  pose proof (released_held t _ who Hrel) as Hheld.
  destruct (negb (e =? 0) && (e <=? now)) eqn:Ee; [lia|].
  set (t1 := snd (fzn_reasm_expire t now)) in *.
  assert (Hf1 : find t1 who id = None).
  { unfold find in *. rewrite find_index_None in *. intros i s Hi.
    destruct (Forall2_lookup_r _ _ _ _ _ Hrel Hi) as (a & Ha & [-> | ->]); [by eapply Hf|done]. }
  rewrite Hf1. unfold admit_first. pose proof (plan_chunks p Hp). pose proof (plan_buffer p Hp).
  destruct (Z.eqb_spec count_of 0), (Z.gtb_spec count_of FZN_REASM_MAX_CHUNKS); try lia. cbn [orb].
  destruct (Z.geb_spec j count_of); [lia|].
  change (with_partials t (partials t1)) with t1 in Hheld.
  destruct (Z.geb_spec (held_by t1 who) (per_sender_max t1)); [cbn in *; lia|].
  destruct (find_index _ _) as [i|] eqn:Efree.
  2:{ exfalso. rewrite find_index_None in Efree.
      destruct (Forall2_lookup_l _ _ _ _ _ Hrel Hi0) as (a & Ha & [-> | ->]);
        specialize (Efree i0 _ Ha); cbn in Efree; by rewrite ?Hl0 in Efree. }
  apply find_index_Some in Efree as (s & Hi & Hl & _). rewrite Hi. apply negb_true_iff in Hl.
  pose proof (t_slot _ _ _ Ht1 Hi) as Hw.
  destruct (Forall2_lookup_r _ _ _ _ _ Hrel Hi) as (a & Ha & Hsa).
  assert (Hc : stride * count_of <= buf_capacity s).
  { rewrite Forall_lookup in Hcap. specialize (Hcap i a Ha). cbn beta in Hcap.
    destruct Hsa as [-> | ->]; cbn; lia. }
  pose proof (zlen_piece p Hp m j Hm Hj) as Hz. pose proof (piece_len_bounds p Hp j Hj).
  pose proof (stride_div _ Hc).
  destruct (Z.eqb_spec (zlen (piece p m j)) 0); [lia|]. cbn [orb].
  destruct (Z.gtb_spec (zlen (piece p m j)) (buf_capacity s / count_of)); [lia|].
  set (d := chunk_deadline e now (max_hold t1)).
  fold (stride_of j count_of (zlen (piece p m j))).
  fold (fresh_slot s who id count_of (stride_of j count_of (zlen (piece p m j))) d).
  destruct (fresh_slot_ok s who id count_of j (zlen (piece p m j)) d) as (Hfr & Hpre & Hfit);
    auto; try lia.
  set (f := fresh_slot s who id count_of (stride_of j count_of (zlen (piece p m j))) d) in *.
  assert (Hst : (chunk_size f = stride \/ chunk_size f = 0) /\
                (chunk_size f = 0 -> 1 < count_of) /\ (chunk_size f = 0 -> j = last_index)).
  { subst f. cbn. unfold stride_of. rewrite Hz. unfold piece_len.
    pose proof (plan_total p Hp). pose proof (plan_le p Hp). pose proof (plan_stride p Hp).
    destruct (Z.gtb_spec count_of 1), (Z.eqb_spec (j + 1) count_of); cbn [andb]; nia. }
  destruct Hst as (Hst & Hmany & Hlast).
  assert (Htr : tracks f).
  { constructor; auto; cbn.
    - intros _ i' Hi' Hseen. unfold seen_get in Hseen. cbn in Hseen.
      rewrite seen_bit_zero in Hseen by lia. done.
    - lia.
    - unfold received. rewrite (wsum_ext _ _ (fun _ => false)).
      + induction (seqZ 0 count_of) as [|x l IH]; [done|]. cbn. lia.
      + intros x Hx. apply elem_of_seqZ in Hx. apply seen_bit_zero. lia. }
  destruct (place_piece f j Hpre Htr Hmany Hj ltac:(auto)) as (s' & out & E & Htr' & (Hb & Ho & _)).
  rewrite (place_at_insert t1 i s) by done. rewrite E. exists i, s', out. split_and!; auto.
  - by eapply lookup_lt_Some.
  - intros k Hk. rewrite Hb by done. unfold seen_get, f. cbn.
    rewrite seen_bit_zero by lia. by rewrite orb_false_r.
  - rewrite Ho. destruct Hfr as (_ & _ & _ & _ & -> & _). by rewrite andb_true_r.
  - by destruct (place_chunk_wf _ _ _ _ _ _ Hpre Hfit E) as (_ & _ & (_ & _ & _ & -> & _)).
Qed.
(** ** Traffic *)

(** An operation that may happen while our message is being assembled in
    slot [i], due by [D]: our own pieces, anybody else's chunks, sweeps before
    the deadline, other messages forgotten, other slots released. *)
Definition benign (i : nat) (D : Z) (o : op) : Prop :=
  match o with
  | Accept w k idx n pl e now =>
      now < D /\
      (w = who /\ k = id ->
         0 <= idx < count_of /\ n = count_of /\ pl = piece p m idx /\ (e = 0 \/ now < e))
  | Expire now => now < D
  | Forget w k => ~ (w = who /\ k = id)
  | Release j => j <> i
  end.

(** Does the operation deliver our piece [k]? *)
Definition delivers (k : Z) (o : op) : bool :=
  match o with
  | Accept w k' idx _ _ _ _ => bool_decide (w = who /\ k' = id) && (idx =? k)
  | _ => false
  end.

(** How many times a sequence of operations hands slot [i] to the caller. *)
Fixpoint handouts (t : fzn_reasm) (ops : list op) (i : nat) : Z :=
  match ops with
  | [] => 0
  | o :: ops =>
      (if bool_decide (snd (run_op t o) = Some i) then 1 else 0)
      + handouts (snd (fst (run_op t o))) ops i
  end.

Lemma benign_step t o i s :
  table_wf t -> op_ok o -> benign i (expires_at s) o ->
  partials t !! i = Some s -> tracks s ->
  exists s', partials (snd (fst (run_op t o))) !! i = Some s' /\ tracks s' /\
    expires_at s' = expires_at s /\
    (forall k, 0 <= k < count_of -> seen_get s' k = delivers k o || seen_get s k) /\
    (if bool_decide (snd (run_op t o) = Some i) then 1 else 0) =
      Z.b2z (handed s') - Z.b2z (handed s).
Proof using Hp Hm.
  intros Ht Ho Hb Hi Htr. destruct o as [w k idx n pl e now|now|w k|j]; cbn in Hb.
  - destruct Hb as [Hnow Hmine]. cbn [run_op delivers].
    destruct (decide (w = who /\ k = id)) as [[-> ->]|Hk].
    + destruct (Hmine (conj eq_refl eq_refl)) as (Hidx & -> & -> & He).
      destruct (accept_piece t i s idx e now) as (s' & out & E & Htr' & (Hbits & Hout & Hkeep) & Hexp);
        auto. rewrite E. cbn [fst snd partials with_partials]. exists s'.
      rewrite bool_decide_eq_true_2 by done. split_and!; auto.
      * apply list_lookup_insert_eq. cbn. rewrite length_fmap. by eapply lookup_lt_Some.
      * rewrite Hout. destruct (handed s) eqn:E1, (handed s') eqn:E2; cbn;
          try (rewrite bool_decide_eq_true_2 by done); try (rewrite bool_decide_eq_false_2 by done);
          try done. by specialize (Hkeep eq_refl).
    + rewrite bool_decide_eq_false_2 by done.
      destruct (accept t w k idx n pl e now) as [[err t'] out] eqn:E.
      destruct Ho as (? & ? & _). apply accept_spec in E; [|done|ulia|ulia].
      destruct (accepted_other _ _ _ _ _ _ _ _ _ _ i s E) as [Hi' Hne].
      * apply expire_spares; auto.
      * apply Htr.
      * by rewrite (tr_sender _ Htr), (tr_msg _ Htr); intros [<- <-]; apply Hk.
      * exists s. cbn. rewrite bool_decide_eq_false_2 by done. split_and!; auto. lia.
  - exists s. cbn [run_op fst snd delivers]. rewrite bool_decide_eq_false_2 by done.
    split_and!; auto using expire_spares. lia.
  - exists s. cbn [run_op fst snd delivers]. rewrite bool_decide_eq_false_2 by done.
    split_and!; auto; [|lia]. apply forget_spares; auto. right.
    by rewrite (tr_sender _ Htr), (tr_msg _ Htr); intros [<- <-]; apply Hb.
  - exists s. cbn [run_op fst snd delivers]. rewrite bool_decide_eq_false_2 by done.
    split_and!; auto using release_spares. lia.
Qed.

Lemma benign_run t ops i s :
  table_wf t -> Forall op_ok ops -> Forall (benign i (expires_at s)) ops ->
  partials t !! i = Some s -> tracks s ->
  exists s', partials (run t ops) !! i = Some s' /\ tracks s' /\
    (forall k, 0 <= k < count_of -> seen_get s' k = existsb (delivers k) ops || seen_get s k) /\
    handouts t ops i = Z.b2z (handed s') - Z.b2z (handed s).
Proof using Hp Hm.
  intros Ht Hops Hb. revert t s Ht Hb. induction ops as [|o ops IH]; intros t s Ht Hb Hi Htr.
  { exists s. cbn. split_and!; auto. lia. }
  apply Forall_cons_iff in Hops as [Ho Hops]. apply Forall_cons_iff in Hb as [Hbo Hb].
  destruct (benign_step t o i s) as (s1 & Hi1 & Htr1 & Hexp & Hbits & Hout); auto.
  destruct (IH Hops (snd (fst (run_op t o))) s1) as (s' & Hi' & Htr' & Hbits' & Hout'); auto.
  { by apply run_op_wf. } { by rewrite Hexp. }
  exists s'. split_and!; auto.
  - intros k Hk. rewrite Hbits', Hbits by done. cbn.
    destruct (delivers k o), (existsb (delivers k) ops); cbn; auto.
  - cbn. rewrite Hout, Hout'. lia.
Qed.
End Round.

(** C2: a message cut by [fzn_split_plan] and sent piece by piece arrives
    whole. In a well-formed table with room for it, the first piece to land (any
    one of them) takes a slot; then, through any traffic, our pieces in any
    order and number, other senders' chunks, sweeps before the deadline, other
    messages forgotten and other slots released, the slot has seen exactly the
    pieces delivered, is handed to the caller once and only once, when the last
    missing piece lands, and then holds the message, byte for byte. *)
Theorem message_arrives_whole max_payload sp0 p m who id t j0 e0 now0 :
  in_u64 (zlen m) -> in_u64 max_payload ->
  fzn_split_plan (zlen m) max_payload (Some sp0) = (FZN_SPLIT_OK, Some p) ->
  table_wf t -> find t who id = None -> held_by t who < per_sender_max t ->
  (exists i s, partials t !! i = Some s /\ live s = false) ->
  Forall (fun s => buffer_needed p <= buf_capacity s) (partials t) ->
  in_u64 now0 -> in_u64 e0 -> e0 = 0 \/ now0 < e0 -> 0 <= j0 < Split.chunks p ->
  exists i t1 out0,
    accept t who id j0 (Split.chunks p) (piece p m j0) e0 now0 = (FZN_REASM_OK, t1, out0) /\
    forall ops, Forall op_ok ops ->
      Forall (benign p m who id i (chunk_deadline e0 now0 (max_hold t))) ops ->
      exists s, partials (run t1 ops) !! i = Some s /\ sender s = who /\ msg s = id /\
        (forall k, 0 <= k < Split.chunks p ->
           seen_get s k = (j0 =? k) || existsb (delivers who id k) ops) /\
        (handed s = true <->
           forall k, 0 <= k < Split.chunks p -> (j0 =? k) || existsb (delivers who id k) ops = true) /\
        (if bool_decide (out0 = Some i) then 1 else 0) + handouts t1 ops i = Z.b2z (handed s) /\
        (handed s = true -> held_bytes s = zlen m /\ slice 0 (zlen m) (buf s) = m).
Proof.
  intros Hm64 Hmax64 Hplan Ht Hf Hroom Hfree Hcap Hn64 He64 He Hj.
  destruct (split_plan_ok _ _ _ _ Hm64 Hmax64 Hplan) as (Hp & Etot & _).
  assert (Hm : zlen m = total p) by done.
  destruct (accept_first_piece p Hp m Hm who id t j0 e0 now0)
    as (i & s1 & out & E & Hlen & Htr & Hbits & Hout & Hexp); auto.
  do 3 eexists. split; [exact E|]. intros ops Hops Hben.
  set (t1 := with_partials t _) in *. pose proof (plan_chunks p Hp).
  assert (Hc16 : in_u16 (Split.chunks p)) by (unfold FZN_REASM_MAX_CHUNKS in *; ulia).
  assert (Ht1 : table_wf t1).
  { pose proof (run_op_wf t (Accept who id j0 (Split.chunks p) (piece p m j0) e0 now0) Ht) as Hw.
    cbn [run_op] in Hw. rewrite E in Hw. apply Hw. cbn. ulia. }
  assert (Hi1 : partials t1 !! i = Some s1).
  { subst t1. cbn [partials with_partials]. apply list_lookup_insert_eq. cbn. by rewrite length_fmap. }
  destruct (benign_run p Hp m Hm who id t1 ops i s1) as (s & Hi & Htr' & Hbits' & Hcnt); auto.
  { by rewrite Hexp. }
  pose proof (t_slot _ _ _ (run_wf _ _ Ht1 Hops) Hi) as Hw.
  assert (Hb : forall k, 0 <= k < Split.chunks p ->
            seen_get s k = (j0 =? k) || existsb (delivers who id k) ops).
  { intros k Hk. rewrite Hbits', Hbits by done. by rewrite orb_comm. }
  exists s. split_and!; auto; try apply Htr'.
  - destruct (wf_live _ Hw (tr_live _ _ _ _ _ Htr')) as [_ Har _ _ _ Hhd].
    rewrite Hhd, Har, (tr_chunks _ _ _ _ _ Htr'), seen_count_full by lia.
    split; intros Hall k Hk; specialize (Hall k Hk); [rewrite <- Hb|unfold seen_get in Hb; rewrite Hb]; auto.
  - rewrite Hcnt, Hout. destruct (handed s1); cbn;
      [rewrite bool_decide_eq_true_2 by done|rewrite bool_decide_eq_false_2 by done]; lia.
  - by apply (tracks_complete p Hp m Hm who id s).
Qed.

Definition demo_plan : fzn_split := mk_split 5 2 3 6.
Definition demo_msg : bytes := [10; 20; 30; 40; 50].
Definition demo_ops : list op :=
  [Accept bob 7 0 2 [9] 0 11; Accept alice 7 0 3 [10; 20] 0 12;
   Accept alice 7 2 3 [50] 0 13; Expire 14; Accept alice 7 1 3 [30; 40] 60 15].

Lemma message_arrives_whole_witness :
  exists i t1 out0, accept demo_table alice 7 2 3 [50] 0 10 = (FZN_REASM_OK, t1, out0) /\
    exists s, partials (run t1 demo_ops) !! i = Some s /\ handed s = true /\
      slice 0 5 (buf s) = demo_msg.
Proof.
  destruct (message_arrives_whole 2 demo_plan demo_plan demo_msg alice 7 demo_table 2 0 10)
    as (i & t1 & out0 & E & H); try (reflexivity || ulia || (split; vm_compute; discriminate)).
  - apply (init_wf demo_table [demo_slot 8; demo_slot 8] 1 100); try (reflexivity || ulia).
    repeat constructor; apply demo_slot_ready; lia.
  - exists 0%nat. eexists. split; reflexivity.
  - repeat constructor; cbn; lia.
  - vm_compute. split; [discriminate|reflexivity].
  - exists i, t1, out0. split; [exact E|].
    destruct (H demo_ops) as (s & Hs & _ & _ & _ & Hh & _ & Hd).
    + repeat constructor; cbn; ulia.
    + change (chunk_deadline 0 10 (max_hold demo_table)) with 110.
      repeat (apply List.Forall_cons;
        [cbn; first [lia | split; [lia|]; intros [Hw _];
           first [discriminate Hw | repeat split; auto; lia]]|]).
      apply List.Forall_nil.
    + assert (Hhs : handed s = true).
      { apply Hh. intros k Hk. cbn in Hk. assert (k = 0 \/ k = 1 \/ k = 2) as [-> |[-> | ->]] by lia;
          reflexivity. }
      exists s. split_and!; auto. by apply Hd.
Defined.
