(* ===== verification/Table.v ===== *)
(** * Tables of rows with a key

    What the tables of the library share: rows in an array, no two with one
    key, read as a finite map from the keys. A scan finds the row the map has,
    writing over a row is an insertion, appending one under a new key too, and
    taking one out is a deletion. *)

From stdpp Require Import gmap fin_maps.
From S2P Require Import Prelude.

(** A scan that keeps the last row that passes, from row [i] on. *)
Fixpoint last_index {A} (test : A -> bool) (rows : list A) (i : nat) (hit : option nat) : option nat :=
  match rows with
  | [] => hit
  | e :: rows => last_index test rows (S i) (if test e then Some i else hit)
  end.

Lemma last_index_none {A} (test : A -> bool) rows : forall i hit,
  (forall e, e ∈ rows -> test e = false) -> last_index test rows i hit = hit.
Proof.
  induction rows as [|e rows IH]; intros i hit H; cbn [last_index]; [done|]. rewrite (H e) by set_solver. apply IH. set_solver.
Qed.

Section Table.
Context {K A : Type} `{Countable K} (key : A -> K).

Definition tmap (rows : list A) : gmap K A := list_to_map ((fun e => (key e, e)) <$> rows).

Lemma tmap_cons e rows : tmap (e :: rows) = <[key e := e]> (tmap rows).
Proof. done. Qed.

Lemma tmap_pairs rows : ((fun e => (key e, e)) <$> rows).*1 = key <$> rows.
Proof. by rewrite <- list_fmap_compose. Qed.

Lemma tmap_lookup rows k e :
  NoDup (key <$> rows) -> tmap rows !! k = Some e <-> key e = k /\ e ∈ rows.
Proof.
  intros Hnd. unfold tmap. rewrite <- elem_of_list_to_map by (by rewrite tmap_pairs). rewrite list_elem_of_fmap.
  split; [intros (y & [= -> ->] & ?); done|intros [<- ?]; by exists e].
Qed.

Lemma tmap_at rows i e : NoDup (key <$> rows) -> rows !! i = Some e -> tmap rows !! key e = Some e.
Proof. intros Hnd Hi. apply tmap_lookup; [done|]. split; [done|]. by eapply list_elem_of_lookup_2. Qed.

Lemma tmap_none rows k : tmap rows !! k = None <-> k ∉ key <$> rows.
Proof. unfold tmap. by rewrite <- not_elem_of_list_to_map, tmap_pairs. Qed.

Lemma tmap_size rows : NoDup (key <$> rows) -> Z.of_nat (size (tmap rows)) = zlen rows.
Proof.
  unfold zlen. induction rows as [|e rows IH]; [done|]. rewrite fmap_cons, list.NoDup_cons. intros [He Hnd].
  rewrite tmap_cons, map_size_insert_None by (by apply tmap_none).
  cbn [length]. specialize (IH Hnd). lia.
Qed.

Lemma tmap_set rows i e e' :
  NoDup (key <$> rows) -> rows !! i = Some e -> key e' = key e ->
  NoDup (key <$> <[i := e']> rows) /\ tmap (<[i := e']> rows) = <[key e := e']> (tmap rows).
Proof.
  intros Hnd Hi Hk.
  assert (key <$> <[i := e']> rows = key <$> rows) as Ek.
  { rewrite list_fmap_insert. apply list_insert_id. rewrite list_lookup_fmap, Hi. cbn. by rewrite Hk. }
  split; [by rewrite Ek|]. clear Ek. revert i Hi Hnd.
  induction rows as [|x rows IH]; intros [|i] Hi Hnd; [done..| |]; cbn [lookup list_lookup] in Hi;
    rewrite fmap_cons, list.NoDup_cons in Hnd; destruct Hnd as [Hx Hnd].
  - simplify_eq. change (<[0%nat := e']> (e :: rows)) with (e' :: rows). rewrite !tmap_cons, Hk, insert_insert_eq. done.
  - change (<[S i := e']> (x :: rows)) with (x :: <[i := e']> rows). rewrite !tmap_cons, (IH i Hi Hnd), insert_insert_ne; [done|]. intros E. apply Hx.
    rewrite E. by apply list_elem_of_fmap_2, list_elem_of_lookup_2 with i.
Qed.

Lemma tmap_snoc rows e :
  NoDup (key <$> rows) -> tmap rows !! key e = None ->
  NoDup (key <$> rows ++ [e]) /\ tmap (rows ++ [e]) = <[key e := e]> (tmap rows).
Proof.
  intros Hnd He. pose proof He as He'. apply tmap_none in He'. split.
  - rewrite fmap_app. apply list.NoDup_app. split_and!; [done| |apply NoDup_singleton].
    intros k Hk Hk'. apply list_elem_of_singleton in Hk'. by subst k.
  - unfold tmap in *. rewrite fmap_app, list_to_map_app. symmetry.
    by apply insert_union_singleton_r.
Qed.

Lemma tmap_drop (rows : list A) i e :
  NoDup (key <$> rows) -> rows !! i = Some e ->
  NoDup (key <$> delete i rows) /\ tmap (delete i rows) = delete (key e) (tmap rows).
Proof.
  revert i. induction rows as [|x rows IH]; intros [|i] Hnd Hi; [done..| |]; cbn [lookup list_lookup] in Hi;
    rewrite fmap_cons, list.NoDup_cons in Hnd; destruct Hnd as [Hx Hnd].
  - simplify_eq. change (delete 0%nat (e :: rows)) with rows. split; [done|]. rewrite tmap_cons. symmetry. apply delete_insert_id. by apply tmap_none.
  - change (delete (S i) (x :: rows)) with (x :: delete i rows). destruct (IH i Hnd Hi) as [Hnd' Hm]. split.
    + rewrite fmap_cons, list.NoDup_cons. split; [|done]. contradict Hx. apply list_elem_of_fmap in Hx as (y & -> & Hy).
      apply list_elem_of_fmap_2. apply list_elem_of_lookup in Hy as [j Hj]. rewrite list_lookup_delete in Hj.
      case_match; by eapply list_elem_of_lookup_2.
    + rewrite !tmap_cons, Hm, delete_insert_ne; [done|]. intros E. apply Hx. rewrite <- E.
      by apply list_elem_of_fmap_2, list_elem_of_lookup_2 with i.
Qed.

(** Writing a row of a new key over another's. *)
Lemma tmap_replace rows i e e' :
  NoDup (key <$> rows) -> rows !! i = Some e -> tmap rows !! key e' = None ->
  NoDup (key <$> <[i := e']> rows) /\ tmap (<[i := e']> rows) = <[key e' := e']> (delete (key e) (tmap rows)).
Proof.
  revert i. induction rows as [|x rows IH]; intros [|i] Hnd Hi He; [done..| |]; cbn [lookup list_lookup] in Hi;
    rewrite fmap_cons, list.NoDup_cons in Hnd; destruct Hnd as [Hx Hnd]; rewrite tmap_cons, lookup_insert_None in He; destruct He as [He Hne].
  - simplify_eq. change (<[0%nat := e']> (e :: rows)) with (e' :: rows). rewrite !tmap_cons, delete_insert_id by (by apply tmap_none). split; [|done].
    rewrite fmap_cons, list.NoDup_cons. split; [by apply tmap_none|done].
  - change (<[S i := e']> (x :: rows)) with (x :: <[i := e']> rows). destruct (IH i Hnd Hi He) as [Hnd' Hm]. rewrite !tmap_cons, Hm.
    assert (key x <> key e) as Hxe by (intros E; apply Hx; rewrite E; by apply list_elem_of_fmap_2, list_elem_of_lookup_2 with i).
    split; [|by rewrite delete_insert_ne, insert_insert_ne by congruence].
    rewrite fmap_cons, list.NoDup_cons. split; [|done]. apply tmap_none. rewrite Hm, lookup_insert_ne, lookup_delete_ne by congruence. by apply tmap_none.
Qed.

(** A scan for the row of a key. *)
Lemma scan_is_lookup (test : A -> bool) rows k :
  NoDup (key <$> rows) -> (forall e, test e = true <-> key e = k) ->
  match find_index test rows with
  | Some i => exists e, rows !! i = Some e /\ key e = k /\ tmap rows !! k = Some e
  | None => tmap rows !! k = None
  end.
Proof.
  intros Hnd Ht. destruct (find_index test rows) as [i|] eqn:E.
  - apply find_index_Some in E as (e & Hi & Hte & _). apply Ht in Hte as <-. exists e. split_and!; auto.
    by eapply tmap_at.
  - apply tmap_none. intros (e & -> & He)%list_elem_of_fmap. apply list_elem_of_lookup in He as [i Hi].
    rewrite find_index_None in E. specialize (E i e Hi). assert (test e = true) by (by apply Ht). congruence.
Qed.

(** With one row a key, the last is the only one. *)
Lemma last_is_lookup (test : A -> bool) rows k :
  NoDup (key <$> rows) -> (forall e, test e = true <-> key e = k) ->
  match last_index test rows 0 None with
  | Some i => exists e, rows !! i = Some e /\ key e = k /\ tmap rows !! k = Some e
  | None => tmap rows !! k = None
  end.
Proof.
  intros Hnd Ht. assert (forall rows i hit n e, NoDup (key <$> rows) -> rows !! n = Some e -> key e = k ->
    last_index test rows i hit = Some (i + n)%nat) as Hat.
  { clear rows Hnd. induction rows as [|x rows IH]; intros i hit n e Hnd Hn He; [done|]. cbn [last_index].
    rewrite fmap_cons, list.NoDup_cons in Hnd. destruct Hnd as [Hx Hnd]. destruct n as [|n]; cbn in Hn.
    - simplify_eq. assert (test e = true) as -> by (by apply Ht). rewrite last_index_none; [f_equal; lia|]. intros y Hy.
      destruct (test y) eqn:E; [|done]. apply Ht in E. exfalso. apply Hx. rewrite <- E. by apply list_elem_of_fmap_2.
    - erewrite IH by eauto. f_equal. lia. }
  destruct (tmap rows !! k) as [e|] eqn:E.
  - apply tmap_lookup in E as [Hk [n Hn]%list_elem_of_lookup]; [|done]. erewrite Hat by eauto. exists e. split_and!; done.
  - rewrite last_index_none; [done|]. intros e He. destruct (test e) eqn:Et; [|done]. apply Ht in Et.
    assert (tmap rows !! k = Some e) by (by apply tmap_lookup). congruence.
Qed.
End Table.
