(* ===== verification/Rounds.v ===== *)
(** * Flags, and rounds of an antitone rule

    An array of 0/1 flags, one per row of a table, is a list of booleans. Two
    operations of the source settle such flags in rounds: admin confirmations
    (a monotone rule, [Confirm]) and the root set (an antitone one, [RootSet]).
    An antitone rule squeezes: each round lies between the two before it, so
    either the rounds meet or they swing for ever, and a bound on the rows
    tells which. *)

From S2P Require Import Prelude.

(** [flags[a]] *)
Definition ok_at (ok : list bool) (a : nat) : bool := default false (ok !! a).

Definition below (P Q : list bool) : Prop := forall a, ok_at P a = true -> ok_at Q a = true.

#[export] Instance below_refl : Reflexive below.
Proof. by intros P a. Qed.

#[export] Instance below_trans : Transitive below.
Proof. intros P Q R H1 H2 a Ha. by apply H2, H1. Qed.

Lemma below_insert P a : below P (<[ a := true ]> P).
Proof.
  intros b Hb. unfold ok_at in *. destruct (decide (a = b)) as [->|].
  - destruct (P !! b) eqn:E; [|done]. rewrite list_lookup_insert_eq; [done|].
    by eapply lookup_lt_Some.
  - by rewrite list_lookup_insert_ne.
Qed.

Lemma below_count P : forall Q,
  length P = length Q -> below P Q -> count (fun b => b) P <= count (fun b => b) Q.
Proof.
  induction P as [|x P IH]; intros [|y Q] Hl Hb; simplify_eq/=; [done|].
  assert (below P Q) as HPQ by (intros a; apply (Hb (S a))).
  specialize (IH Q Hl HPQ). pose proof (Hb 0%nat) as H0. unfold ok_at in H0. cbn in H0.
  destruct x, y; lia.
Qed.

Lemma ok_at_lookup P a : (a < length P)%nat -> P !! a = Some (ok_at P a).
Proof. intros Ha. unfold ok_at. by apply lookup_lt_is_Some_2 in Ha as [x ->]. Qed.

Lemma ok_at_none n a : ok_at (replicate n false) a = false.
Proof. unfold ok_at. destruct (replicate n false !! a) eqn:E; [|done]. by apply lookup_replicate in E as [-> _]. Qed.

Lemma below_none n P : below (replicate n false) P.
Proof. intros a. by rewrite ok_at_none. Qed.

Lemma flags_eq P Q : length P = length Q -> (forall a, (a < length P)%nat -> ok_at P a = ok_at Q a) -> P = Q.
Proof.
  intros Hl H. apply list_eq_same_length with (length P); [done..|]. intros i x y Hi Hx Hy.
  specialize (H i Hi). unfold ok_at in H. by rewrite Hx, Hy in H.
Qed.

Lemma below_antisym P Q : length P = length Q -> below P Q -> below Q P -> P = Q.
Proof.
  intros Hl H1 H2. apply flags_eq; [done|]. intros a _. specialize (H1 a). specialize (H2 a).
  destruct (ok_at P a), (ok_at Q a); naive_solver.
Qed.

Section Antitone.
Context (F : list bool -> list bool) (n : nat).
Context (F_length : forall R, length R = n -> length (F R) = n).
Context (F_anti : forall R R', length R = n -> length R' = n -> below R R' -> below (F R') (F R)).

(** The rounds, from nothing. *)
Fixpoint round (k : nat) : list bool :=
  match k with O => replicate n false | S k => F (round k) end.

Lemma round_length k : length (round k) = n.
Proof using F_length. induction k as [|k IH]; cbn; [by rewrite length_replicate|by apply F_length]. Qed.

Hint Resolve round_length : core.

(** Each round lies between the two before it. *)
Lemma round_squeezes k :
  below (round k) (round (S (S k))) /\ below (round (S (S k))) (round (S k)) \/
  below (round (S k)) (round (S (S k))) /\ below (round (S (S k))) (round k).
Proof using F_length F_anti.
  induction k as [|k [[H1 H2]|[H1 H2]]].
  - left. split; [apply below_none|]. apply (F_anti (round 0) (round 1)); auto. apply below_none.
  - right. split; [apply (F_anti (round (S (S k))) (round (S k))); auto|apply (F_anti (round k) (round (S (S k)))); auto].
  - left. split; [apply (F_anti (round (S (S k))) (round k)); auto|apply (F_anti (round (S k)) (round (S (S k)))); auto].
Qed.

(** No round after the first has more than the first. *)
Lemma round_below_first k : below (round (S k)) (round 1).
Proof using F_length F_anti. apply (F_anti (round 0) (round k)); auto. apply below_none. Qed.

(** How far two masks are apart. *)
Definition apart (P Q : list bool) : Z := count (fun a => xorb (ok_at P a) (ok_at Q a)) (seq 0 n).

Lemma apart_zero P Q : length P = n -> length Q = n -> apart P Q <= 0 -> P = Q.
Proof.
  intros HP HQ H. apply flags_eq; [congruence|]. intros a Ha. apply xorb_eq. destruct (xorb _ _) eqn:E; [|done].
  assert (apart P Q = 0) as H0 by (pose proof (count_nonneg (fun a => xorb (ok_at P a) (ok_at Q a)) (seq 0 n)); unfold apart in *; lia).
  assert (0 < apart P Q); [|lia]. rewrite <- (count_none (fun _ : nat => false) (seq 0 n)) by done.
  apply (count_strict _ _ _ a); [done|apply elem_of_seq; lia|done..].
Qed.

Lemma apart_step k : apart (round (S k)) (round (S (S k))) <= apart (round k) (round (S k)) /\
  (round (S (S k)) <> round k -> apart (round (S k)) (round (S (S k))) < apart (round k) (round (S k))).
Proof using F_length F_anti.
  assert (forall a, xorb (ok_at (round (S k)) a) (ok_at (round (S (S k))) a) = true ->
    xorb (ok_at (round k) a) (ok_at (round (S k)) a) = true) as Hsub.
  { intros a. destruct (round_squeezes k) as [[H1 H2]|[H1 H2]]; specialize (H1 a); specialize (H2 a);
      destruct (ok_at (round k) a), (ok_at (round (S k)) a), (ok_at (round (S (S k))) a); naive_solver. }
  split; [apply count_mono; auto|]. intros Hne.
  assert (exists a, (a < n)%nat /\ ok_at (round k) a <> ok_at (round (S (S k))) a) as (a & Ha & Hd).
  { destruct (decide (Forall (fun a => ok_at (round k) a = ok_at (round (S (S k))) a) (seq 0 n))) as [H|H].
    - exfalso. apply Hne. symmetry. apply flags_eq; [by rewrite !round_length|]. intros a Ha. rewrite round_length in Ha.
      rewrite list.Forall_forall in H. apply H. apply elem_of_seq. lia.
    - apply not_Forall_Exists in H; [|apply _]. apply list.Exists_exists in H as (a & Ha & Hd). apply elem_of_seq in Ha.
      exists a. split; [lia|done]. }
  apply (count_strict _ _ _ a); [auto|apply elem_of_seq; lia|..];
    destruct (round_squeezes k) as [[H1 H2]|[H1 H2]]; specialize (H1 a); specialize (H2 a);
    destruct (ok_at (round k) a), (ok_at (round (S k)) a), (ok_at (round (S (S k))) a); naive_solver.
Qed.

(** Rounds that have met stay. *)
Lemma round_meets k j : round (S k) = round k -> (k <= j)%nat -> round j = round k.
Proof. intros Hk. induction 1 as [|j _ IH]; [done|]. cbn. rewrite IH. exact Hk. Qed.

(** Rounds that swing, swing for ever. *)
Lemma round_swings k : round (S (S k)) = round k -> round (S k) <> round k -> forall j, round (S j) <> round j.
Proof.
  intros Hk Hne j Hj.
  assert (forall m, round (2 * m + k) = round k) as Hper.
  { induction m as [|m IH]; [done|]. replace (2 * S m + k)%nat with (S (S (2 * m + k))) by lia. cbn in *. by rewrite IH. }
  apply Hne. rewrite <- (Hper j). change (round (S k)) with (F (round k)). rewrite <- (Hper j).
  change (F (round (2 * j + k))) with (round (S (2 * j + k))).
  rewrite (round_meets j (S (2 * j + k))), (round_meets j (2 * j + k)) by (done || lia). done.
Qed.

(** As many rounds as there are rows tell whether they ever meet. *)
Lemma rounds_tell : (exists k, (k <= n)%nat /\ round (S k) = round k) \/ (forall k, round (S k) <> round k).
Proof using F_length F_anti.
  assert (forall k, (exists j, (j <= k)%nat /\ round (S j) = round j) \/
    (exists j, round (S (S j)) = round j /\ round (S j) <> round j) \/ apart (round k) (round (S k)) <= Z.of_nat n - Z.of_nat k) as H.
  { induction k as [|k IH].
    - right. right. pose proof (count_le_zlen (fun a => xorb (ok_at (round 0) a) (ok_at (round 1) a)) (seq 0 n)) as H.
      unfold zlen in H. rewrite length_seq in H. unfold apart. lia.
    - destruct (decide (round (S k) = round k)) as [He|Hne]; [left; exists k; split; [lia|done]|].
      destruct IH as [(j & ? & ?)|[IH|IH]]; [left; exists j; split; [lia|done]|by right; left|].
      destruct (decide (round (S (S k)) = round k)) as [|Hs]; [right; left; by exists k|].
      right. right. pose proof (proj2 (apart_step k) Hs). lia. }
  destruct (H n) as [?|[(j & Hj & Hne)|Ha]]; [by left|right; by eapply round_swings|].
  left. exists n. split; [done|]. symmetry. apply apart_zero; auto. lia.
Qed.
End Antitone.
