(* ===== verification/Freshness.v ===== *)
(** * frame/freshness.c: command expiry and the replay window

    A window is an array of remembered nonces, of which the first [used] cells
    are in use; the array's length is its [capacity]. The sweep compacts the
    array in place, cell by cell, as the source does. The abstract
    specification at the end is a bounded list of live nonces, and the window
    refines it. *)

From S2P Require Import Prelude.

Definition FZN_NONCE_LEN : Z := 24.

Inductive fzn_fresh_err :=
  | FZN_FRESH_OK
  | FZN_FRESH_ERR_MALFORMED
  | FZN_FRESH_ERR_EXPIRED
  | FZN_FRESH_ERR_NO_EXPIRY
  | FZN_FRESH_ERR_REPLAY
  | FZN_FRESH_ERR_WINDOW_FULL
  | FZN_FRESH_ERR_HORIZON.

#[export] Instance fzn_fresh_err_eq_dec : EqDecision fzn_fresh_err.
Proof. solve_decision. Defined.

Inductive fzn_expiry_rule := FZN_EXPIRY_REQUIRED | FZN_EXPIRY_OPTIONAL.

Record fzn_replay_entry := mk_entry { nonce : bytes; expires_at : Z }.

Record fzn_replay_window := mk_window {
  entries : list fzn_replay_entry;
  used : Z;
  max_ahead : Z
}.

Definition capacity (w : fzn_replay_window) : Z := zlen (entries w).

Definition nonce_eq (a b : bytes) : bool := memeq a b.

Definition horizon_of (now max_ahead : Z) : Z :=
  if max_ahead >? UINT64_MAX - now then UINT64_MAX else now + max_ahead.

Definition fzn_freshness_check (expires_at : Z) (kind : fzn_expiry_rule) (now max_ahead : Z)
    : fzn_fresh_err :=
  if max_ahead =? 0 then FZN_FRESH_ERR_MALFORMED
  else if expires_at =? 0 then
    match kind with
    | FZN_EXPIRY_OPTIONAL => FZN_FRESH_OK
    | FZN_EXPIRY_REQUIRED => FZN_FRESH_ERR_NO_EXPIRY
    end
  else if expires_at <=? now then FZN_FRESH_ERR_EXPIRED
  else if expires_at >? horizon_of now max_ahead then FZN_FRESH_ERR_HORIZON
  else FZN_FRESH_OK.

Definition fzn_replay_init (window : option fzn_replay_window)
    (entries_ : option (list fzn_replay_entry)) (max_ahead_ : Z)
    : fzn_fresh_err * option fzn_replay_window :=
  match window, entries_ with
  | Some _, Some es =>
    if (zlen es =? 0) || (max_ahead_ =? 0) then (FZN_FRESH_ERR_MALFORMED, window)
    else (FZN_FRESH_OK, Some (mk_window es 0 max_ahead_))
  | _, _ => (FZN_FRESH_ERR_MALFORMED, window)
  end.

Definition in_use (w : fzn_replay_window) : list fzn_replay_entry :=
  take (Z.to_nat (used w)) (entries w).

Definition fzn_replay_expirable (w : fzn_replay_window) (now : Z) : Z :=
  if used w >? capacity w then 0
  else count (fun e => expires_at e <=? now) (in_use w).

(** The compaction loop from cell [i] on, [fuel] cells to go: a live entry is
    copied down to cell [kept] when the two differ. *)
Fixpoint compact (now : Z) (fuel : nat) (es : list fzn_replay_entry) (i kept : nat)
    : list fzn_replay_entry * nat :=
  match fuel with
  | O => (es, kept)
  | S fuel =>
    match es !! i with
    | None => (es, kept)
    | Some e =>
      if expires_at e >? now
      then compact now fuel (if negb (Nat.eqb kept i) then <[kept := e]> es else es) (S i) (S kept)
      else compact now fuel es (S i) kept
    end
  end.

Definition fzn_replay_expire (w : fzn_replay_window) (now : Z) : Z * fzn_replay_window :=
  if used w >? capacity w then (0, w)
  else
    let '(es, kept) := compact now (Z.to_nat (used w)) (entries w) 0 0 in
    (used w - Z.of_nat kept, mk_window es (Z.of_nat kept) (max_ahead w)).

(** [fzn_replay_admit] past its NULL checks. *)
Definition replay_admit (w : fzn_replay_window) (nonce_ : bytes) (expires_at_ : Z)
    (kind : fzn_expiry_rule) (now : Z) : fzn_fresh_err * fzn_replay_window :=
  if used w >? capacity w then (FZN_FRESH_ERR_MALFORMED, w)
  else
    let w := snd (fzn_replay_expire w now) in
    match fzn_freshness_check expires_at_ kind now (max_ahead w) with
    | FZN_FRESH_OK =>
      if expires_at_ =? 0 then (FZN_FRESH_OK, w)
      else if existsb (fun e => nonce_eq (nonce e) nonce_) (in_use w)
      then (FZN_FRESH_ERR_REPLAY, w)
      else if used w >=? capacity w then (FZN_FRESH_ERR_WINDOW_FULL, w)
      else
        (FZN_FRESH_OK,
         mk_window (<[ Z.to_nat (used w) := mk_entry nonce_ expires_at_ ]> (entries w))
           (used w + 1) (max_ahead w))
    | err => (err, w)
    end.

Definition fzn_replay_admit (window : option fzn_replay_window) (nonce_ : option bytes)
    (expires_at_ : Z) (kind : fzn_expiry_rule) (now : Z)
    : fzn_fresh_err * option fzn_replay_window :=
  match window, nonce_ with
  | Some w, Some n =>
    let '(err, w') := replay_admit w n expires_at_ kind now in (err, Some w')
  | _, _ => (FZN_FRESH_ERR_MALFORMED, window)
  end.

(** ** The specification: a bounded list of live nonces *)

Module Spec.

Record window := mk { live : list fzn_replay_entry; room : Z; ahead : Z }.

Definition alive (now : Z) (e : fzn_replay_entry) : bool := expires_at e >? now.

Definition sweep (w : window) (now : Z) : window :=
  mk (List.filter (alive now) (live w)) (room w) (ahead w).

Definition offer (w : window) (n : bytes) (exp : Z) (kind : fzn_expiry_rule) (now : Z)
    : fzn_fresh_err * window :=
  let w := sweep w now in
  match fzn_freshness_check exp kind now (ahead w) with
  | FZN_FRESH_OK =>
    if exp =? 0 then (FZN_FRESH_OK, w)
    else if existsb (fun e => nonce_eq (nonce e) n) (live w) then (FZN_FRESH_ERR_REPLAY, w)
    else if zlen (live w) >=? room w then (FZN_FRESH_ERR_WINDOW_FULL, w)
    else (FZN_FRESH_OK, mk (live w ++ [mk_entry n exp]) (room w) (ahead w))
  | err => (err, w)
  end.

End Spec.

(** What a window stands for. *)
Definition abstract (w : fzn_replay_window) : Spec.window :=
  Spec.mk (in_use w) (capacity w) (max_ahead w).

Definition window_ok (w : fzn_replay_window) : Prop := 0 <= used w <= capacity w.

(** ** The sweep *)

Lemma take_S_lookup {A} (l : list A) i x : l !! i = Some x -> take (S i) l = take i l ++ [x].
Proof. intros. by erewrite take_S_r. Qed.

Lemma take_insert_snoc {A} (l : list A) k x :
  (k < length l)%nat -> take (S k) (<[k := x]> l) = take k l ++ [x].
Proof.
  intros. erewrite take_S_lookup by (by apply list_lookup_insert_eq).
  by rewrite take_insert_ge by lia.
Qed.

(** The loop keeps, in order, the entries that outlive [now]: cells below
    [kept] are the survivors so far, cells from [i] on are still the input. *)
Lemma compact_spec now fuel : forall es i kept es' kept',
  (kept <= i)%nat -> (i + fuel <= length es)%nat ->
  compact now fuel es i kept = (es', kept') ->
  length es' = length es /\ (kept' <= i + fuel)%nat /\
  take kept' es' = take kept es ++ List.filter (Spec.alive now) (take fuel (drop i es)).
Proof.
  induction fuel as [|fuel IH]; intros es i kept es' kept' Hk Hlen; cbn [compact].
  { intros [= <- <-]. rewrite take_0. cbn. rewrite app_nil_r. split_and!; auto; lia. }
  destruct (es !! i) as [e|] eqn:Ei; [|apply lookup_ge_None in Ei; lia].
  rewrite (drop_S es e i Ei). cbn [firstn List.filter].
  change (Spec.alive now e) with (expires_at e >? now).
  destruct (expires_at e >? now).
  - set (es1 := if negb (Nat.eqb kept i) then <[kept := e]> es else es).
    assert (Hl1 : length es1 = length es) by (subst es1; destruct (negb _); by rewrite ?length_insert).
    assert (Ht1 : take (S kept) es1 = take kept es ++ [e]).
    { subst es1. destruct (Nat.eqb_spec kept i) as [->|]; cbn [negb].
      - by apply take_S_lookup. - apply take_insert_snoc. lia. }
    assert (Hd1 : drop (S i) es1 = drop (S i) es).
    { subst es1. destruct (negb _); [|done]. apply drop_insert_lt. lia. }
    intros E. apply IH in E as (E1 & E2 & E3); [|lia|lia].
    rewrite Hd1, Ht1, <- app_assoc in E3. split_and!; auto; lia.
  - intros E. apply IH in E as (E1 & E2 & E3); [|lia|lia]. split_and!; auto; lia.
Qed.

Lemma filter_length_le {A} (f : A -> bool) l : (length (List.filter f l) <= length l)%nat.
Proof. induction l as [|x l IH]; cbn; [lia|]. destruct (f x); cbn; lia. Qed.

Lemma expire_abstract w now :
  window_ok w ->
  let w' := snd (fzn_replay_expire w now) in
  abstract w' = Spec.sweep (abstract w) now /\ window_ok w' /\
  fst (fzn_replay_expire w now) = zlen (in_use w) - zlen (in_use w').
Proof.
  unfold window_ok, fzn_replay_expire, abstract, Spec.sweep, capacity, zlen. intros Hok.
  destruct (Z.gtb_spec (used w) (Z.of_nat (length (entries w)))); [lia|].
  destruct (compact now (Z.to_nat (used w)) (entries w) 0 0) as [es kept] eqn:E.
  apply compact_spec in E as (E1 & E2 & E3); [|lia|lia]. rewrite drop_0 in E3.
  unfold in_use in *. cbn in *. rewrite Nat2Z.id. cbn in E3. rewrite E1, E3.
  split_and!; auto; try lia.
  rewrite <- E3, !length_take. lia.
Qed.

(** ** What the specification promises *)

Lemma fresh_ok_bounds exp kind now ahead :
  exp <> 0 -> fzn_freshness_check exp kind now ahead = FZN_FRESH_OK ->
  now < exp <= horizon_of now ahead.
Proof.
  intros Hne. unfold fzn_freshness_check.
  destruct (ahead =? 0); [done|]. destruct (Z.eqb_spec exp 0); [done|].
  destruct (Z.leb_spec exp now); [done|]. destruct (Z.gtb_spec exp (horizon_of now ahead)); [done|].
  lia.
Qed.

Lemma admit_refines w n exp kind now :
  window_ok w ->
  let '(err, w') := replay_admit w n exp kind now in
  Spec.offer (abstract w) n exp kind now = (err, abstract w') /\
  window_ok w' /\ capacity w' = capacity w.
Proof.
  intros Hok. unfold replay_admit, Spec.offer.
  destruct (Z.gtb_spec (used w) (capacity w)); [unfold window_ok in Hok; lia|].
  destruct (expire_abstract w now Hok) as (<- & Hok1 & _).
  assert (Hcap : capacity (snd (fzn_replay_expire w now)) = capacity w).
  { unfold fzn_replay_expire. destruct (_ >? _); [done|].
    destruct (compact _ _ _ _ _) as [es kept] eqn:E. unfold window_ok, capacity, zlen in *.
    cbn. apply compact_spec in E as (-> & _); [done|lia|lia]. }
  set (w1 := snd (fzn_replay_expire w now)) in *.
  change (Spec.ahead (abstract w1)) with (max_ahead w1).
  change (Spec.live (abstract w1)) with (in_use w1).
  change (Spec.room (abstract w1)) with (capacity w1).
  destruct (fzn_freshness_check exp kind now (max_ahead w1)); try done.
  destruct (exp =? 0); [done|]. destruct (existsb _ _); [done|].
  assert (Hlen : zlen (in_use w1) = used w1).
  { unfold in_use, zlen, window_ok, capacity, zlen in *. rewrite length_take. lia. }
  rewrite Hlen. destruct (Z.geb_spec (used w1) (capacity w1)); [done|].
  unfold window_ok, capacity, abstract, in_use, zlen in *. cbn. rewrite length_insert.
  split_and!; auto; try lia. do 2 f_equal.
  - replace (Z.to_nat (used w1 + 1)) with (S (Z.to_nat (used w1))) by lia.
    symmetry. apply take_insert_snoc. lia.
  - unfold capacity, zlen. cbn. by rewrite length_insert.
Qed.

(** C23: a replay window is a bounded set of live nonces. Every admission, on
    every branch, answers and leaves what the list specification does: expired
    nonces are dropped first whatever the outcome, a frame that is refused
    costs no cell, a nonce still remembered is a replay, and a full window
    refuses rather than forgets. The in-place compaction never leaves the
    array. *)
Theorem replay_window_refines_spec w n exp kind now :
  window_ok w ->
  let '(err, w') := replay_admit w n exp kind now in
  Spec.offer (abstract w) n exp kind now = (err, abstract w') /\
  window_ok w' /\ capacity w' = capacity w.
Proof. apply admit_refines. Qed.

Definition demo_window : fzn_replay_window :=
  mk_window [mk_entry [1] 5; mk_entry [2] 50; mk_entry [9] 9] 2 60.

Lemma replay_window_refines_spec_witness :
  window_ok demo_window /\
  replay_admit demo_window [3] 30 FZN_EXPIRY_REQUIRED 10 =
    (FZN_FRESH_OK, mk_window [mk_entry [2] 50; mk_entry [3] 30; mk_entry [9] 9] 2 60) /\
  Spec.offer (abstract demo_window) [3] 30 FZN_EXPIRY_REQUIRED 10 =
    (FZN_FRESH_OK, Spec.mk [mk_entry [2] 50; mk_entry [3] 30] 3 60).
Proof.
  assert (Hok : window_ok demo_window) by (split; vm_compute; discriminate).
  split_and!; [exact Hok|vm_compute; reflexivity|].
  pose proof (replay_window_refines_spec demo_window [3] 30 FZN_EXPIRY_REQUIRED 10 Hok) as H.
  vm_compute replay_admit in H. apply H.
Defined.

(** ** Sequences of operations *)

Inductive rop :=
  | RAdmit (n : bytes) (exp : Z) (kind : fzn_expiry_rule) (now : Z)
  | RExpire (now : Z).

Definition clock (o : rop) : Z := match o with RAdmit _ _ _ now => now | RExpire now => now end.

Definition rstep (w : fzn_replay_window) (o : rop) : fzn_replay_window :=
  match o with
  | RAdmit n exp kind now => snd (replay_admit w n exp kind now)
  | RExpire now => snd (fzn_replay_expire w now)
  end.

Definition rrun (w : fzn_replay_window) (ops : list rop) : fzn_replay_window := foldl rstep w ops.

(** A frame taken: its nonce, its expiry, and when it was taken. *)
Definition taken (w : fzn_replay_window) (o : rop) : list (bytes * Z * Z) :=
  match o with
  | RAdmit n exp kind now =>
      if bool_decide (fst (replay_admit w n exp kind now) = FZN_FRESH_OK) && negb (exp =? 0)
      then [(n, exp, now)] else []
  | RExpire _ => []
  end.

Fixpoint admitted (w : fzn_replay_window) (ops : list rop) : list (bytes * Z * Z) :=
  match ops with
  | [] => []
  | o :: ops => taken w o ++ admitted (rstep w o) ops
  end.

(** The receiver's clock does not run backwards, starting from [T]. *)
Fixpoint clocks_from (T : Z) (ops : list rop) : Prop :=
  match ops with
  | [] => True
  | o :: ops => T <= clock o /\ clocks_from (clock o) ops
  end.

Lemma rstep_ok w o : window_ok w -> window_ok (rstep w o) /\ max_ahead (rstep w o) = max_ahead w
  /\ capacity (rstep w o) = capacity w.
Proof.
  intros Hok. destruct o as [n exp kind now|now]; cbn.
  - pose proof (admit_refines w n exp kind now Hok) as H.
    destruct (replay_admit w n exp kind now) as [err w']. destruct H as (Hs & Hok' & Hc).
    split_and!; auto. cbn. apply (f_equal (fun x => Spec.ahead (snd x))) in Hs. cbn in Hs.
    rewrite <- Hs. unfold Spec.offer. cbn.
    destruct (fzn_freshness_check _ _ _ _); try done. repeat case_match; done.
  - destruct (expire_abstract w now Hok) as (Ha & Hok' & _). split_and!; auto.
    + by apply (f_equal Spec.ahead) in Ha.
    + by apply (f_equal Spec.room) in Ha.
Qed.

(** The entries in use after a step: survivors of the sweep, and the nonce just
    taken if there is one. *)
Lemma rstep_in_use w o :
  window_ok w ->
  in_use (rstep w o) =
    List.filter (Spec.alive (clock o)) (in_use w)
      ++ ((fun x => mk_entry (fst (fst x)) (snd (fst x))) <$> taken w o).
Proof.
  intros Hok. destruct o as [n exp kind now|now]; cbn [rstep clock taken].
  - pose proof (admit_refines w n exp kind now Hok) as H.
    destruct (replay_admit w n exp kind now) as [err w']. destruct H as (Hs & _ & _).
    apply (f_equal (fun x => (fst x, Spec.live (snd x)))) in Hs. cbn [fst snd Spec.live abstract] in *.
    unfold Spec.offer in Hs. cbn [Spec.sweep Spec.live Spec.ahead Spec.room abstract] in Hs.
    destruct (fzn_freshness_check _ _ _ _); simplify_eq/=; try by rewrite app_nil_r.
    destruct (exp =? 0); simplify_eq/=; [by rewrite app_nil_r|].
    destruct (existsb _ _); simplify_eq/=; [by rewrite app_nil_r|].
    destruct (_ >=? _); simplify_eq/=; by rewrite ?app_nil_r.
  - destruct (expire_abstract w now Hok) as (Ha & _). apply (f_equal Spec.live) in Ha.
    cbn in *. by rewrite app_nil_r.
Qed.

(** A frame taken was not remembered, and is within the horizon. *)
Lemma taken_fresh w o x :
  window_ok w -> In x (taken w o) ->
  snd x = clock o /\ clock o < snd (fst x) <= horizon_of (clock o) (max_ahead w) /\
  forall e, In e (in_use w) -> nonce e = fst (fst x) -> expires_at e <= clock o.
Proof.
  intros Hok. destruct o as [n exp kind now|now]; cbn [taken clock]; [|done].
  pose proof (admit_refines w n exp kind now Hok) as H.
  destruct (replay_admit w n exp kind now) as [err w']. destruct H as (Hs & _ & _). cbn [fst].
  destruct (Z.eqb_spec exp 0) as [|Hne]; [by rewrite andb_false_r|].
  case_bool_decide as He; [|done]. intros [<-|[]]. cbn [fst snd]. subst err.
  apply (f_equal fst) in Hs. unfold Spec.offer in Hs.
  cbn [Spec.sweep Spec.live Spec.ahead Spec.room abstract fst] in Hs.
  destruct (fzn_freshness_check exp kind now (max_ahead w)) eqn:Ef; try done.
  split_and!; auto; try (by eapply fresh_ok_bounds).
  destruct (Z.eqb_spec exp 0); [done|]. destruct (existsb _ _) eqn:Ex; [done|].
  intros e Hin Hn. destruct (Z.le_gt_cases (expires_at e) now) as [|Hgt]; [done|]. exfalso.
  apply (not_true_iff_false (existsb _ _)) in Ex. apply Ex, existsb_exists. exists e. split.
  - apply filter_In. split; [done|]. unfold Spec.alive. lia.
  - unfold nonce_eq. by apply memeq_true.
Qed.

(** A frame taken at or before [T] and unexpired at [T] is still remembered. *)
Definition remembers (T : Z) (w : fzn_replay_window) (x : bytes * Z * Z) : Prop :=
  T < snd (fst x) -> In (mk_entry (fst (fst x)) (snd (fst x))) (in_use w).

Lemma remembers_step T w o x :
  window_ok w -> T <= clock o -> remembers T w x -> remembers (clock o) (rstep w o) x.
Proof.
  intros Hok HT Hr Hlt. rewrite rstep_in_use by done. apply in_or_app. left.
  apply filter_In. split; [apply Hr; lia|]. unfold Spec.alive. cbn. lia.
Qed.

Lemma taken_remembered w o x :
  window_ok w -> In x (taken w o) -> remembers (clock o) (rstep w o) x.
Proof.
  intros Hok Hin _. rewrite rstep_in_use by done. apply in_or_app. right.
  by apply (in_map (fun x => mk_entry (fst (fst x)) (snd (fst x)))).
Qed.

(** Frame [b] may follow frame [a]: another nonce, or [a] had expired. *)
Definition no_replay (a b : bytes * Z * Z) : Prop :=
  fst (fst a) = fst (fst b) -> snd (fst a) <= snd b < snd (fst b).

Lemma remembered_not_replayed ops : forall T w x y,
  window_ok w -> clocks_from T ops -> remembers T w x -> In y (admitted w ops) -> no_replay x y.
Proof.
  induction ops as [|o ops IH]; intros T w x y Hok Hc Hr Hy; [done|].
  destruct Hc as [HT Hc]. cbn in Hy. apply in_app_or in Hy as [Hy|Hy].
  - destruct (taken_fresh w o y Hok Hy) as (Ey & Hf & Hno). intros En. rewrite Ey.
    split; [|lia]. destruct (Z.le_gt_cases (snd (fst x)) (clock o)) as [|Hgt]; [done|].
    specialize (Hno _ (Hr ltac:(lia))). cbn in Hno. specialize (Hno En). lia.
  - eapply (IH (clock o) (rstep w o)); eauto.
    + by apply rstep_ok.
    + by eapply remembers_step.
Qed.

Lemma admitted_ordered ops : forall T w,
  window_ok w -> clocks_from T ops -> ForallOrdPairs no_replay (admitted w ops).
Proof.
  induction ops as [|o ops IH]; intros T w Hok Hc; [constructor|]. destruct Hc as [HT Hc]. cbn.
  pose proof (IH (clock o) (rstep w o) (proj1 (rstep_ok w o Hok)) Hc) as Hrest.
  assert (Hlen : taken w o = [] \/ exists x, taken w o = [x]).
  { destruct o; cbn; [|by left]. destruct (_ && _); eauto. }
  destruct Hlen as [E | (x & E)]; rewrite E; cbn; [done|]. constructor; [|done].
  apply List.Forall_forall. intros y Hy.
  eapply remembered_not_replayed; [|exact Hc| |exact Hy]; [by apply rstep_ok|].
  apply taken_remembered; [done|]. rewrite E. by left.
Qed.

Lemma ordered_nodup (l : list (bytes * Z * Z)) :
  ForallOrdPairs no_replay l -> List.NoDup (map fst l).
Proof.
  induction 1 as [|x l Hx Hl IH]; cbn; constructor; auto.
  rewrite in_map_iff. intros (y & E & Hy). rewrite List.Forall_forall in Hx.
  specialize (Hx y Hy). unfold no_replay in Hx. rewrite E in Hx. specialize (Hx eq_refl). lia.
Qed.

(** No replay. Over any sequence of admissions and sweeps under a clock
    that does not run backwards, a nonce is taken again only after the frame
    that used it has expired, so no frame (nonce and expiry) is ever taken
    twice, whatever else was offered in between. *)
Theorem no_frame_taken_twice w T ops :
  window_ok w -> clocks_from T ops ->
  ForallOrdPairs no_replay (admitted w ops) /\ List.NoDup (map fst (admitted w ops)).
Proof. intros Hok Hc. pose proof (admitted_ordered ops T w Hok Hc). auto using ordered_nodup. Qed.

Definition demo_trace : list rop :=
  [RAdmit [3] 30 FZN_EXPIRY_REQUIRED 10; RAdmit [3] 30 FZN_EXPIRY_REQUIRED 11;
   RExpire 40; RAdmit [3] 30 FZN_EXPIRY_REQUIRED 41; RAdmit [3] 60 FZN_EXPIRY_REQUIRED 42].

Lemma no_frame_taken_twice_witness :
  admitted demo_window demo_trace = [([3], 30, 10); ([3], 60, 42)] /\
  List.NoDup (map fst (admitted demo_window demo_trace)).
Proof.
  split; [vm_compute; reflexivity|].
  apply (no_frame_taken_twice demo_window 10 demo_trace).
  - split; vm_compute; discriminate.
  - cbn. lia.
Defined.

(** ** The window drains *)

Lemma horizon_mono now now' a : now <= now' -> horizon_of now a <= horizon_of now' a.
Proof. change horizon_of with sat_add64. rewrite !sat_add64_spec. lia. Qed.

Definition within (bound : Z) (w : fzn_replay_window) : Prop :=
  forall e, In e (in_use w) -> expires_at e <= bound.

Lemma rstep_within T w o :
  window_ok w -> clock o <= T -> within (horizon_of T (max_ahead w)) w ->
  within (horizon_of T (max_ahead w)) (rstep w o).
Proof.
  intros Hok HT Hw e He. rewrite rstep_in_use in He by done. apply in_app_or in He as [He|He].
  - apply filter_In in He as [He _]. auto.
  - apply in_map_iff in He as (x & <- & Hx). destruct (taken_fresh w o x Hok Hx) as (_ & Hf & _).
    cbn. pose proof (horizon_mono (clock o) T (max_ahead w) HT). lia.
Qed.

Lemma rrun_within T ops : forall w,
  window_ok w -> Forall (fun o => clock o <= T) ops -> within (horizon_of T (max_ahead w)) w ->
  window_ok (rrun w ops) /\ max_ahead (rrun w ops) = max_ahead w /\
  capacity (rrun w ops) = capacity w /\ within (horizon_of T (max_ahead w)) (rrun w ops).
Proof.
  induction ops as [|o ops IH]; intros w Hok HT Hw; [auto|].
  apply Forall_cons_iff in HT as [HTo HT].
  destruct (rstep_ok w o Hok) as (Hok' & Hm & Hc). cbn. change (foldl rstep ?x ops) with (rrun x ops).
  destruct (IH (rstep w o)) as (? & Hm' & Hc' & ?); auto.
  { rewrite Hm. by apply rstep_within. }
  rewrite Hm in *. rewrite Hc in *. auto.
Qed.

Lemma within_sweep bound w now :
  window_ok w -> within bound w -> bound <= now ->
  in_use (snd (fzn_replay_expire w now)) = [] /\ used (snd (fzn_replay_expire w now)) = 0.
Proof.
  intros Hok Hw Hb. destruct (expire_abstract w now Hok) as (Ha & Hok' & _).
  assert (E : in_use (snd (fzn_replay_expire w now)) = []).
  { apply (f_equal Spec.live) in Ha. cbn [Spec.live abstract Spec.sweep] in Ha. rewrite Ha.
    assert (Hall : forall e, In e (in_use w) -> Spec.alive now e = false).
    { intros e He. specialize (Hw e He). unfold Spec.alive. lia. }
    clear -Hall. induction (in_use w) as [|e l IH]; [done|]. cbn. rewrite (Hall e) by (by left).
    apply IH. intros e' He'. apply Hall. by right. }
  split; [done|]. apply (f_equal length) in E. unfold in_use in E. rewrite length_take in E.
  unfold window_ok, capacity, zlen in Hok'. cbn [length] in E. lia.
Qed.

(** A window cannot be wedged. Whatever frames, with whatever expiries, were
    offered to a new window up to time [T], once the horizon has passed every
    cell is free again and a fresh frame is taken. *)
Theorem window_drains es ahead w ops T now n exp kind :
  fzn_replay_init (Some w) (Some es) ahead = (FZN_FRESH_OK, Some w) ->
  0 < ahead -> in_u64 now -> Forall (fun o => clock o <= T) ops ->
  horizon_of T ahead <= now -> now < exp <= horizon_of now ahead ->
  used (snd (fzn_replay_expire (rrun w ops) now)) = 0 /\
  fst (replay_admit (rrun w ops) n exp kind now) = FZN_FRESH_OK.
Proof.
  unfold fzn_replay_init. intros Hinit Ha Hu HT Hnow Hexp.
  destruct (Z.eqb_spec (zlen es) 0) as [|Hes]; [done|]. cbn [orb] in Hinit.
  destruct (ahead =? 0); [done|].
  assert (Ew : w = mk_window es 0 ahead) by congruence. clear Hinit. subst w.
  assert (Hok : window_ok (mk_window es 0 ahead)).
  { unfold window_ok, capacity. cbn. pose proof (zlen_nonneg es). lia. }
  destruct (rrun_within T ops (mk_window es 0 ahead)) as (Hok' & Hm & Hc & Hw); auto.
  { intros e He. done. }
  cbn [max_ahead] in Hm, Hw.
  destruct (within_sweep _ _ now Hok' Hw Hnow) as [Ein Eused]. split; [done|].
  unfold replay_admit. set (w := rrun (mk_window es 0 ahead) ops) in *.
  destruct (Z.gtb_spec (used w) (capacity w)); [unfold window_ok in Hok'; lia|].
  assert (Em : max_ahead (snd (fzn_replay_expire w now)) = ahead).
  { change (max_ahead (rstep w (RExpire now)) = ahead).
    destruct (rstep_ok w (RExpire now) Hok') as (_ & -> & _). done. }
  assert (Ec : capacity (snd (fzn_replay_expire w now)) = zlen es).
  { change (capacity (rstep w (RExpire now)) = zlen es).
    destruct (rstep_ok w (RExpire now) Hok') as (_ & _ & ->). done. }
  rewrite Em, Ein, Eused, Ec. unfold fzn_freshness_check.
  pose proof (zlen_nonneg es).
  destruct (Z.eqb_spec ahead 0); [lia|]. destruct (Z.eqb_spec exp 0); [ulia|].
  destruct (Z.leb_spec exp now); [lia|]. destruct (Z.gtb_spec exp (horizon_of now ahead)); [lia|].
  cbn [existsb]. by destruct (Z.geb_spec 0 (zlen es)); [lia|].
Qed.

Lemma window_drains_witness :
  let w := mk_window [mk_entry [] 0] 0 20 in
  fst (replay_admit (rrun w [RAdmit [1] 25 FZN_EXPIRY_OPTIONAL 5]) [2] 24 FZN_EXPIRY_REQUIRED 6)
    = FZN_FRESH_ERR_WINDOW_FULL /\
  fst (replay_admit (rrun w [RAdmit [1] 25 FZN_EXPIRY_OPTIONAL 5]) [2] 30 FZN_EXPIRY_REQUIRED 26)
    = FZN_FRESH_OK.
Proof.
  intros w. split; [vm_compute; reflexivity|].
  apply (window_drains [mk_entry [] 0] 20 w [RAdmit [1] 25 FZN_EXPIRY_OPTIONAL 5] 5 26 [2] 30
           FZN_EXPIRY_REQUIRED); try reflexivity; try ulia.
  - repeat constructor; cbn; lia.
  - vm_compute. discriminate.
  - split; [lia|vm_compute; discriminate].
Defined.
