(* ===== verification/Sched.v ===== *)
(** * sched/sched.c: which link a class of traffic goes over

    Hard constraints filter the candidates, then the cheapest of those left is
    chosen. A pointer argument that may be NULL is an [option]. *)

From S2P Require Import Prelude.

Inductive fzn_sched_err := FZN_SCHED_OK | FZN_SCHED_ERR_MALFORMED | FZN_SCHED_ERR_NONE.

Inductive fzn_sched_exclusion :=
  | FZN_SCHED_ADMITTED
  | FZN_SCHED_EXCLUDED_UNUSABLE
  | FZN_SCHED_EXCLUDED_LATENCY
  | FZN_SCHED_EXCLUDED_LOSS
  | FZN_SCHED_EXCLUDED_MTU
  | FZN_SCHED_EXCLUDED_MALFORMED.

#[export] Instance fzn_sched_exclusion_eq_dec : EqDecision fzn_sched_exclusion.
Proof. solve_decision. Defined.

Record fzn_sched_candidate := mk_candidate {
  c_id : Z;
  c_metric : Z;
  c_latency_ms : Z;
  c_loss_permille : Z;
  c_mtu : Z;
  c_usable : Z
}.

Record fzn_class := mk_class {
  max_latency_ms : Z;
  max_loss_permille : Z;
  min_mtu : Z;
  weight_metric : Z;
  weight_latency : Z;
  weight_loss : Z
}.

(** [fzn_sched_excluded_by] past its NULL checks. *)
Definition excluded_by (link : fzn_sched_candidate) (wanted : fzn_class) : fzn_sched_exclusion :=
  if c_usable link =? 0 then FZN_SCHED_EXCLUDED_UNUSABLE
  else if negb (max_latency_ms wanted =? 0) && (c_latency_ms link >? max_latency_ms wanted)
  then FZN_SCHED_EXCLUDED_LATENCY
  else if negb (max_loss_permille wanted =? 0) && (c_loss_permille link >? max_loss_permille wanted)
  then FZN_SCHED_EXCLUDED_LOSS
  else if negb (min_mtu wanted =? 0) && (c_mtu link <? min_mtu wanted)
  then FZN_SCHED_EXCLUDED_MTU
  else FZN_SCHED_ADMITTED.

Definition fzn_sched_excluded_by (link : option fzn_sched_candidate) (wanted : option fzn_class)
    : fzn_sched_exclusion :=
  match link, wanted with
  | Some l, Some w => excluded_by l w
  | _, _ => FZN_SCHED_EXCLUDED_MALFORMED
  end.

Definition fzn_sched_admits (link : option fzn_sched_candidate) (wanted : option fzn_class) : bool :=
  bool_decide (fzn_sched_excluded_by link wanted = FZN_SCHED_ADMITTED).

Definition add_saturating (a b : Z) : Z :=
  if a >? UINT64_MAX - b then UINT64_MAX else a + b.

(** The products are of two widened 32-bit values, taken in 64 bits. *)
Definition fzn_sched_cost (link : option fzn_sched_candidate) (wanted : option fzn_class) : Z :=
  match link, wanted with
  | Some l, Some w =>
    let cost := 0 in
    let cost := add_saturating cost (u64 (weight_metric w * c_metric l)) in
    let cost := add_saturating cost (u64 (weight_latency w * c_latency_ms l)) in
    let cost := add_saturating cost (u64 (weight_loss w * c_loss_permille l)) in
    cost
  | _, _ => UINT64_MAX
  end.

(** The body of [fzn_sched_select]'s loop: [best] is [None] until [found] is
    set, then the index and the cost of the best so far. *)
Definition consider (wanted : fzn_class) (i : nat) (l : fzn_sched_candidate)
    (best : option (nat * Z)) : option (nat * Z) :=
  if negb (fzn_sched_admits (Some l) (Some wanted)) then best
  else
    let cost := fzn_sched_cost (Some l) (Some wanted) in
    match best with
    | None => Some (i, cost)
    | Some (_, best_cost) => if cost <? best_cost then Some (i, cost) else best
    end.

(** The loop, from index [i] on. *)
Fixpoint select_loop (links : list fzn_sched_candidate) (wanted : fzn_class) (i : nat)
    (best : option (nat * Z)) : option (nat * Z) :=
  match links with
  | [] => best
  | l :: links => select_loop links wanted (S i) (consider wanted i l best)
  end.

(** The [*chosen] of the result is the cell's value after the call. *)
Definition fzn_sched_select (links : option (list fzn_sched_candidate)) (wanted : option fzn_class)
    (chosen : option nat) : fzn_sched_err * option nat :=
  match links, wanted, chosen with
  | Some ls, Some w, Some _ =>
    if zlen ls =? 0 then (FZN_SCHED_ERR_MALFORMED, chosen)
    else match select_loop ls w 0 None with
      | None => (FZN_SCHED_ERR_NONE, chosen)
      | Some (best, _) => (FZN_SCHED_OK, Some best)
      end
  | _, _, _ => (FZN_SCHED_ERR_MALFORMED, chosen)
  end.

Arguments fzn_sched_cost : simpl never.
Arguments fzn_sched_admits : simpl never.

(** ** Widths *)

Definition candidate_ok (l : fzn_sched_candidate) : Prop :=
  in_u32 (c_metric l) /\ in_u32 (c_latency_ms l) /\ in_u16 (c_loss_permille l) /\ in_u32 (c_mtu l).

Definition class_ok (w : fzn_class) : Prop :=
  in_u32 (weight_metric w) /\ in_u32 (weight_latency w) /\ in_u32 (weight_loss w).

(** The exact weighted sum, in unbounded integers. *)
Definition exact_cost (l : fzn_sched_candidate) (w : fzn_class) : Z :=
  weight_metric w * c_metric l + weight_latency w * c_latency_ms l
  + weight_loss w * c_loss_permille l.

(** Zero leaves a constraint out. *)
Definition satisfies (l : fzn_sched_candidate) (w : fzn_class) : Prop :=
  c_usable l <> 0 /\
  (max_latency_ms w = 0 \/ c_latency_ms l <= max_latency_ms w) /\
  (max_loss_permille w = 0 \/ c_loss_permille l <= max_loss_permille w) /\
  (min_mtu w = 0 \/ min_mtu w <= c_mtu l).

Lemma admits_spec l w : fzn_sched_admits (Some l) (Some w) = true <-> satisfies l w.
Proof.
  unfold fzn_sched_admits, satisfies. rewrite bool_decide_eq_true. cbn. unfold excluded_by.
  guards; split; intros H; try done; lia.
Qed.

Lemma add_saturating_spec a b : add_saturating a b = Z.min UINT64_MAX (a + b).
Proof. unfold add_saturating. guards; lia. Qed.

Lemma u64_product a b : in_u32 a -> in_u32 b -> u64 (a * b) = a * b /\ 0 <= a * b.
Proof.
  intros. rewrite u64_small; [split; [done|]|]; width; nia.
Qed.

Lemma u16_u32 a : in_u16 a -> in_u32 a.
Proof. ulia. Qed.

Lemma cost_saturates l w :
  candidate_ok l -> class_ok w ->
  fzn_sched_cost (Some l) (Some w) = Z.min UINT64_MAX (exact_cost l w).
Proof.
  intros (Hm & Hl & Hp & _) (Wm & Wl & Wp). unfold fzn_sched_cost, exact_cost.
  destruct (u64_product _ _ Wm Hm) as [-> ?], (u64_product _ _ Wl Hl) as [-> ?],
    (u64_product _ _ Wp (u16_u32 _ Hp)) as [-> ?].
  rewrite !add_saturating_spec. ulia.
Qed.

(** ** The loop *)

(** [i] is the first of the cheapest admitted links of [ls]. *)
Definition first_cheapest (ls : list fzn_sched_candidate) (w : fzn_class) (i : nat) : Prop :=
  exists l, ls !! i = Some l /\ satisfies l w /\
    (forall j l', ls !! j = Some l' -> satisfies l' w ->
       let c := fzn_sched_cost (Some l) (Some w) in
       let c' := fzn_sched_cost (Some l') (Some w) in
       c <= c' /\ ((j < i)%nat -> c < c')).

Definition best_of (pre : list fzn_sched_candidate) (w : fzn_class) (best : option (nat * Z)) : Prop :=
  match best with
  | None => Forall (fun l => ~ satisfies l w) pre
  | Some (i, c) =>
    first_cheapest pre w i /\
    exists l, pre !! i = Some l /\ c = fzn_sched_cost (Some l) (Some w)
  end.

Lemma cheapest_snoc_skip pre w i l :
  first_cheapest pre w i ->
  (satisfies l w -> forall li, pre !! i = Some li ->
     fzn_sched_cost (Some li) (Some w) <= fzn_sched_cost (Some l) (Some w)) ->
  first_cheapest (pre ++ [l]) w i.
Proof.
  intros (li & Hi & Hs & Hmin) Hl. exists li. pose proof (lookup_lt_Some _ _ _ Hi) as Hlt.
  split_and!; [by apply lookup_app_l_Some|done|].
  intros j l' Hj Hs'. apply lookup_snoc_Some in Hj as [[? Hj]|[-> ->]]; [by apply (Hmin j)|].
  cbn. split; [by apply Hl|lia].
Qed.

Lemma cheapest_snoc_take pre w l :
  satisfies l w ->
  (forall j l', pre !! j = Some l' -> satisfies l' w ->
     fzn_sched_cost (Some l) (Some w) < fzn_sched_cost (Some l') (Some w)) ->
  first_cheapest (pre ++ [l]) w (length pre).
Proof.
  intros Hs Hlt. exists l. split_and!; [by rewrite list_lookup_middle|done|].
  intros j l' Hj Hs'. apply lookup_snoc_Some in Hj as [[? Hj]|[-> ->]]; cbv zeta.
  - specialize (Hlt j l' Hj Hs'). lia.
  - lia.
Qed.

Lemma consider_best pre w best l :
  best_of pre w best -> best_of (pre ++ [l]) w (consider w (length pre) l best).
Proof.
  intros Hb. unfold consider. destruct (fzn_sched_admits _ _) eqn:Ha; cbn [negb].
  - apply admits_spec in Ha. destruct best as [[i c]|]; cbn in *.
    + destruct Hb as [Hf (li & Hi & ->)]. case_match eqn:Hc.
      * split; [|exists l; by rewrite list_lookup_middle]. apply cheapest_snoc_take; [done|].
        intros j l' Hj Hs'. destruct Hf as (li' & Hi' & _ & Hmin). simplify_eq.
        destruct (Hmin j l' Hj Hs'). lia.
      * split; [|exists li; split; [by apply lookup_app_l_Some|done]].
        apply cheapest_snoc_skip; [done|]. intros _ ??. simplify_eq. lia.
    + split; [|exists l; by rewrite list_lookup_middle]. apply cheapest_snoc_take; [done|].
      intros j l' Hj Hs'. rewrite Forall_lookup in Hb. by destruct (Hb j l' Hj).
  - assert (~ satisfies l w) as Hn by (rewrite <- admits_spec; congruence).
    destruct best as [[i c]|]; cbn in *.
    + destruct Hb as [Hf (li & Hi & ->)].
      split; [|exists li; split; [by apply lookup_app_l_Some|done]].
      apply cheapest_snoc_skip; naive_solver.
    + apply Forall_app_2; [done|]. by repeat constructor.
Qed.

Lemma select_loop_best ls : forall pre w best,
  best_of pre w best -> best_of (pre ++ ls) w (select_loop ls w (length pre) best).
Proof.
  induction ls as [|l ls IH]; intros pre w best Hb; cbn [select_loop]; [by rewrite app_nil_r|].
  replace (pre ++ l :: ls) with ((pre ++ [l]) ++ ls) by by rewrite <- app_assoc.
  replace (S (length pre)) with (length (pre ++ [l])) by (rewrite length_app; cbn; lia).
  apply IH, consider_best, Hb.
Qed.

(** What a call answers, as a relation: nothing admitted, or the first of the
    cheapest. *)
Definition selection (ls : list fzn_sched_candidate) (w : fzn_class) (old : nat)
    (r : fzn_sched_err * option nat) : Prop :=
  (r = (FZN_SCHED_ERR_NONE, Some old) /\ Forall (fun l => ~ satisfies l w) ls) \/
  (exists i, r = (FZN_SCHED_OK, Some i) /\ first_cheapest ls w i).

Lemma select_selects ls w old :
  ls <> [] -> selection ls w old (fzn_sched_select (Some ls) (Some w) (Some old)).
Proof.
  intros Hne. unfold fzn_sched_select. destruct ls as [|l0 ls0] eqn:E; [done|]. rewrite <- E in *.
  assert ((zlen ls =? 0) = false) as -> by (subst; unfold zlen; cbn [length]; lia).
  pose proof (select_loop_best ls [] w None) as Hb. cbn [length app] in Hb.
  specialize (Hb ltac:(constructor)).
  destruct (select_loop ls w 0 None) as [[i c]|]; [right|left]; [|done].
  exists i. by destruct Hb.
Qed.

(** The choice is sound, complete and deterministic. With at least one
    candidate, either no candidate meets the class's hard constraints, the
    answer is NONE and [chosen] is untouched; or the index returned is that of
    an admitted candidate, no admitted candidate costs less, and every earlier
    admitted one costs strictly more. The cost is the exact weighted sum,
    clamped at the top of 64 bits and never wrapped. *)
Theorem select_is_first_cheapest ls w old :
  ls <> [] -> Forall candidate_ok ls -> class_ok w ->
  selection ls w old (fzn_sched_select (Some ls) (Some w) (Some old)) /\
  (forall i l, ls !! i = Some l ->
     fzn_sched_cost (Some l) (Some w) = Z.min UINT64_MAX (exact_cost l w)).
Proof.
  intros Hne Hls Hw. split; [by apply select_selects|].
  intros i l Hi. apply cost_saturates; [|done]. rewrite Forall_lookup in Hls. eauto.
Qed.

(** A link whose cost would wrap to zero, one that is down, and a plain one. *)
Definition demo_links : list fzn_sched_candidate :=
  [mk_candidate 7 UINT32_MAX UINT32_MAX 0 1500 1; mk_candidate 8 0 0 0 1500 0;
   mk_candidate 9 0 1 0 1500 1; mk_candidate 10 0 1 0 1500 1].
Definition demo_class : fzn_class := mk_class 0 0 0 UINT32_MAX 1 1.

Lemma select_is_first_cheapest_witness :
  fzn_sched_select (Some demo_links) (Some demo_class) (Some 0%nat) = (FZN_SCHED_OK, Some 2%nat) /\
  selection demo_links demo_class 0
    (fzn_sched_select (Some demo_links) (Some demo_class) (Some 0%nat)).
Proof.
  split; [vm_compute; reflexivity|].
  apply (select_is_first_cheapest demo_links demo_class 0).
  - discriminate.
  - repeat constructor; vm_compute; discriminate.
  - repeat constructor; vm_compute; discriminate.
Defined.
