(* ===== verification/Link.v ===== *)
(** * link/link.c: what is known of each link

    The table is an array of entries of which the first [used] are in use.
    Registration appends, every observation moves an estimate in place, and the
    snapshot is what [sched/] chooses from. A table is taken as given: its
    array's length is its capacity, and the calls with a NULL table, which
    answer MALFORMED and touch nothing, are left out. *)

From S2P Require Import Prelude Sched.

Definition FZN_LINK_SMOOTH_SHIFT : Z := 3.

Inductive fzn_link_err :=
  | FZN_LINK_OK
  | FZN_LINK_ERR_MALFORMED
  | FZN_LINK_ERR_FULL
  | FZN_LINK_ERR_DUPLICATE
  | FZN_LINK_ERR_ABSENT.

Record fzn_link_entry := mk_entry {
  id : Z;
  metric : Z;
  latency_ms : Z;
  loss_permille : Z;
  mtu : Z;
  observations : Z;
  last_seen : Z;
  usable : Z
}.

Record fzn_link_table := mk_table { entries : list fzn_link_entry; used : Z }.

Definition capacity (t : fzn_link_table) : Z := zlen (entries t).

Definition usable_table (t : fzn_link_table) : bool := used t <=? capacity t.

Definition in_use (t : fzn_link_table) : list fzn_link_entry :=
  take (Z.to_nat (used t)) (entries t).

(** The loop keeps the last match. *)
Fixpoint find_loop (es : list fzn_link_entry) (i : nat) (want : Z) (hit : option nat) : option nat :=
  match es with
  | [] => hit
  | e :: es => find_loop es (S i) want (if id e =? want then Some i else hit)
  end.

Definition find (t : fzn_link_table) (want : Z) : option nat := find_loop (in_use t) 0 want None.

Definition zero_entry : fzn_link_entry := mk_entry 0 0 0 0 0 0 0 0.

Definition fzn_link_table_init (table : option fzn_link_table)
    (entries_ : option (list fzn_link_entry)) : fzn_link_err * option fzn_link_table :=
  match table, entries_ with
  | Some _, Some es =>
    if zlen es =? 0 then (FZN_LINK_ERR_MALFORMED, table)
    else (FZN_LINK_OK, Some (mk_table (replicate (length es) zero_entry) 0))
  | _, _ => (FZN_LINK_ERR_MALFORMED, table)
  end.

Definition fzn_link_register (t : fzn_link_table) (id_ metric_ latency_ms_ loss_permille_ mtu_ : Z)
    : fzn_link_err * fzn_link_table :=
  if negb (usable_table t) then (FZN_LINK_ERR_MALFORMED, t)
  else if loss_permille_ >? 1000 then (FZN_LINK_ERR_MALFORMED, t)
  else match find t id_ with
  | Some _ => (FZN_LINK_ERR_DUPLICATE, t)
  | None =>
    if used t >=? capacity t then (FZN_LINK_ERR_FULL, t)
    else
      (FZN_LINK_OK,
       mk_table
         (<[ Z.to_nat (used t) := mk_entry id_ metric_ latency_ms_ loss_permille_ mtu_ 0 0 1 ]>
            (entries t))
         (used t + 1))
  end.

Definition smooth (old sample : Z) : Z :=
  let weighted := u64 (old * (Z.shiftl 1 FZN_LINK_SMOOTH_SHIFT - 1)) in
  let total := u64 (weighted + sample) in
  let result := u32 (Z.shiftr total FZN_LINK_SMOOTH_SHIFT) in
  if (sample >? old) && negb (Z.land total (Z.shiftl 1 FZN_LINK_SMOOTH_SHIFT - 1) =? 0)
  then u32 (result + 1) else result.

Definition set_entry (t : fzn_link_table) (i : nat) (e : fzn_link_entry) : fzn_link_table :=
  mk_table (<[ i := e ]> (entries t)) (used t).

(** The entry an operation is about, or the error it returns. *)
Definition on_entry (t : fzn_link_table) (id_ : Z) (f : fzn_link_entry -> fzn_link_entry)
    : fzn_link_err * fzn_link_table :=
  if negb (usable_table t) then (FZN_LINK_ERR_MALFORMED, t)
  else match find t id_ with
  | None => (FZN_LINK_ERR_ABSENT, t)
  | Some i =>
    match entries t !! i with
    | None => (FZN_LINK_ERR_ABSENT, t)
    | Some e => (FZN_LINK_OK, set_entry t i (f e))
    end
  end.

Definition fzn_link_observe_ack (t : fzn_link_table) (id_ rtt_ms now : Z)
    : fzn_link_err * fzn_link_table :=
  on_entry t id_ (fun e =>
    mk_entry (id e) (metric e) (smooth (latency_ms e) rtt_ms) (u16 (smooth (loss_permille e) 0))
      (mtu e) (u64 (observations e + 1)) now (usable e)).

Definition fzn_link_observe_loss (t : fzn_link_table) (id_ now : Z)
    : fzn_link_err * fzn_link_table :=
  on_entry t id_ (fun e =>
    mk_entry (id e) (metric e) (latency_ms e) (u16 (smooth (loss_permille e) 1000))
      (mtu e) (u64 (observations e + 1)) now (usable e)).

Definition fzn_link_set_usable (t : fzn_link_table) (id_ usable_ : Z)
    : fzn_link_err * fzn_link_table :=
  on_entry t id_ (fun e =>
    mk_entry (id e) (metric e) (latency_ms e) (loss_permille e) (mtu e) (observations e)
      (last_seen e) (if usable_ =? 0 then 0 else 1)).

Definition fzn_link_get (t : fzn_link_table) (id_ : Z) : option fzn_link_entry :=
  if negb (usable_table t) then None
  else match find t id_ with None => None | Some i => entries t !! i end.

Definition candidate_of (e : fzn_link_entry) : fzn_sched_candidate :=
  mk_candidate (id e) (metric e) (latency_ms e) (loss_permille e) (mtu e) (usable e).

(** The snapshot's loop: [n] written, [dropped] counted past the bound. *)
Fixpoint snapshot_loop (es : list fzn_link_entry) (out : list fzn_sched_candidate)
    (out_cap : Z) (n dropped : Z) : Z * list fzn_sched_candidate * Z :=
  match es with
  | [] => (n, out, dropped)
  | e :: es =>
    if n >=? out_cap then snapshot_loop es out out_cap n (dropped + 1)
    else snapshot_loop es (<[ Z.to_nat n := candidate_of e ]> out) out_cap (n + 1) dropped
  end.

(** [fzn_link_snapshot] with the [dropped] cell given and [out] of [out_cap]
    elements. *)
Definition fzn_link_snapshot (t : fzn_link_table) (out : list fzn_sched_candidate)
    : Z * list fzn_sched_candidate * Z :=
  if negb (usable_table t) then (0, out, 0)
  else snapshot_loop (in_use t) out (zlen out) 0 0.

(** ** The estimator *)

Lemma smooth_div old sample :
  in_u32 old -> in_u32 sample ->
  smooth old sample =
    if sample >? old then (7 * old + sample + 7) / 8 else (7 * old + sample) / 8.
Proof.
  intros Ho Hs. unfold smooth, FZN_LINK_SMOOTH_SHIFT.
  change (Z.shiftl 1 3 - 1) with 7.
  rewrite (u64_small (old * 7)), (u64_small (old * 7 + sample)) by ulia.
  rewrite Z.shiftr_div_pow2 by lia. change (2 ^ 3) with 8.
  change 7 with (Z.ones 3) at 2. rewrite Z.land_ones by lia. change (2 ^ 3) with 8.
  remember (old * 7 + sample) as total eqn:E.
  replace (7 * old + sample) with total by lia.
  rewrite (u32_small (total / 8)) by dlia.
  destruct (Z.gtb_spec sample old) as [Hgt|Hle]; cbn [andb]; [|dlia].
  destruct (Z.eqb_spec (total mod 8) 0); cbn [negb]; [dlia|].
  rewrite u32_small; dlia.
Qed.

(** One sample leaves at most seven eighths of the distance to it. *)
Lemma smooth_contracts old sample :
  in_u32 old -> in_u32 sample ->
  Z.min old sample <= smooth old sample <= Z.max old sample /\
  8 * Z.abs (smooth old sample - sample) <= 7 * Z.abs (old - sample).
Proof.
  intros Ho Hs. rewrite smooth_div by done.
  destruct (Z.gtb_spec sample old); split; dlia.
Qed.

(** Repeated samples of one value. *)
Fixpoint smooth_n (n : nat) (old sample : Z) : Z :=
  match n with O => old | S n => smooth_n n (smooth old sample) sample end.

Lemma smooth_n_converges n : forall old sample,
  in_u32 old -> in_u32 sample -> Z.abs (old - sample) <= Z.of_nat n ->
  smooth_n n old sample = sample.
Proof.
  induction n as [|n IH]; intros old sample Ho Hs Hd; cbn [smooth_n]; [lia|].
  destruct (smooth_contracts old sample Ho Hs). apply IH; [ulia|done|lia].
Qed.

(** ** Searching *)

Lemma find_loop_spec es want : forall i hit,
  match find_loop es i want hit with
  | None => hit = None /\ Forall (fun e => id e <> want) es
  | Some j =>
    (hit = Some j /\ Forall (fun e => id e <> want) es) \/
    (exists k e, j = (i + k)%nat /\ es !! k = Some e /\ id e = want)
  end.
Proof.
  induction es as [|e es IH]; intros i hit; cbn [find_loop]; [destruct hit; auto|].
  specialize (IH (S i) (if id e =? want then Some i else hit)).
  destruct (Z.eqb_spec (id e) want) as [He|He].
  - destruct (find_loop es (S i) want (Some i)) as [j|]; [right|by destruct IH].
    destruct IH as [[? _]|(k & e' & -> & Hk & Hi)]; simplify_eq.
    + exists 0%nat, e. repeat split. lia.
    + exists (S k), e'. split_and!; [lia|done|done].
  - destruct (find_loop es (S i) want hit) as [j|].
    + destruct IH as [[-> ?]|(k & e' & -> & Hk & Hi)]; [left; split; [done|by constructor]|].
      right. exists (S k), e'. split_and!; [lia|done|done].
    + destruct IH. split; [done|by constructor].
Qed.

Lemma find_Some_inv t want i :
  find t want = Some i -> exists e, in_use t !! i = Some e /\ id e = want.
Proof.
  unfold find. intros H. pose proof (find_loop_spec (in_use t) want 0 None) as Hs.
  rewrite H in Hs. destruct Hs as [[? _]|(k & e & -> & ? & ?)]; [done|]. eauto.
Qed.

Lemma find_None_inv t want : find t want = None -> Forall (fun e => id e <> want) (in_use t).
Proof.
  unfold find. intros H. pose proof (find_loop_spec (in_use t) want 0 None) as Hs.
  rewrite H in Hs. by destruct Hs.
Qed.

(** ** The table's invariant *)

Definition entry_ok (e : fzn_link_entry) : Prop :=
  in_u32 (id e) /\ in_u32 (metric e) /\ in_u32 (latency_ms e) /\
  0 <= loss_permille e <= 1000 /\ in_u32 (mtu e) /\ in_u64 (observations e).

Record table_ok (t : fzn_link_table) : Prop := {
  tok_used : 0 <= used t <= capacity t;
  tok_ids : NoDup (id <$> in_use t);
  tok_entries : Forall entry_ok (in_use t)
}.

Lemma in_use_lookup t i e : in_use t !! i = Some e <-> entries t !! i = Some e /\ Z.of_nat i < used t.
Proof.
  unfold in_use. rewrite lookup_take_Some. split; intros [? ?]; split; auto; lia.
Qed.

Lemma link_find_unique t i e :
  table_ok t -> in_use t !! i = Some e -> find t (id e) = Some i.
Proof.
  intros Hok Hi. destruct (find t (id e)) as [j|] eqn:Hf.
  - apply find_Some_inv in Hf as (e' & Hj & Hid). f_equal.
    eapply (NoDup_lookup (id <$> in_use t)); [apply Hok| |].
    + rewrite list_lookup_fmap, Hj. cbn. by rewrite Hid.
    + by rewrite list_lookup_fmap, Hi.
  - apply find_None_inv in Hf. rewrite Forall_lookup in Hf. by destruct (Hf i e Hi).
Qed.

Lemma in_use_set_entry t i e : in_use (set_entry t i e) = <[ i := e ]> (in_use t).
Proof.
  unfold in_use, set_entry. cbn. destruct (decide (i < Z.to_nat (used t))%nat).
  - by rewrite take_insert_lt.
  - rewrite take_insert_ge by lia. rewrite list_insert_id'; [done|].
    intros Hl. rewrite length_take in Hl. lia.
Qed.

(** An update in place that keeps the id and the ranges. *)
Lemma on_entry_cases t id_ f :
  table_ok t ->
  (on_entry t id_ f = (FZN_LINK_ERR_ABSENT, t) /\ Forall (fun e => id e <> id_) (in_use t)) \/
  (exists i e, in_use t !! i = Some e /\ id e = id_ /\
     on_entry t id_ f = (FZN_LINK_OK, set_entry t i (f e))).
Proof.
  intros Hok. unfold on_entry, usable_table. destruct (tok_used t Hok).
  assert ((used t <=? capacity t) = true) as -> by lia. cbn [negb].
  destruct (find t id_) as [i|] eqn:Hf; [right|left; auto using find_None_inv].
  apply find_Some_inv in Hf as (e & Hi & Hid). exists i, e.
  apply in_use_lookup in Hi as Hi'. destruct Hi' as [-> _]. done.
Qed.

Lemma set_entry_ok t i e e' :
  table_ok t -> in_use t !! i = Some e -> id e' = id e -> entry_ok e' ->
  table_ok (set_entry t i e') /\ id <$> in_use (set_entry t i e') = id <$> in_use t.
Proof.
  intros Hok Hi Hid He'.
  assert (id <$> in_use (set_entry t i e') = id <$> in_use t) as Hids.
  { rewrite in_use_set_entry, list_fmap_insert, Hid. apply list_insert_id.
    by rewrite list_lookup_fmap, Hi. }
  split; [|done]. split.
  - unfold capacity, set_entry, zlen. cbn. rewrite length_insert. apply Hok.
  - rewrite Hids. apply Hok.
  - rewrite in_use_set_entry. apply Forall_insert; [apply Hok|done].
Qed.

Lemma register_snoc t i m l p u :
  table_ok t -> find t i = None -> used t < capacity t ->
  in_use (mk_table (<[ Z.to_nat (used t) := mk_entry i m l p u 0 0 1 ]> (entries t)) (used t + 1))
  = in_use t ++ [mk_entry i m l p u 0 0 1].
Proof.
  intros Hok Hf Hlt. destruct (tok_used t Hok). unfold in_use, capacity, zlen in *. cbn.
  replace (Z.to_nat (used t + 1)) with (S (Z.to_nat (used t))) by lia.
  erewrite take_S_r by (apply list_lookup_insert_eq; lia).
  by rewrite take_insert_ge.
Qed.

(** ** Sequences of operations *)

Inductive op :=
  | LRegister (id_ metric_ latency_ms_ loss_permille_ mtu_ : Z)
  | LAck (id_ rtt_ms now : Z)
  | LLoss (id_ now : Z)
  | LUsable (id_ usable_ : Z).

Definition run_op (t : fzn_link_table) (o : op) : fzn_link_table :=
  match o with
  | LRegister i m l p u => snd (fzn_link_register t i m l p u)
  | LAck i r now => snd (fzn_link_observe_ack t i r now)
  | LLoss i now => snd (fzn_link_observe_loss t i now)
  | LUsable i u => snd (fzn_link_set_usable t i u)
  end.

Fixpoint run (t : fzn_link_table) (ops : list op) : fzn_link_table :=
  match ops with [] => t | o :: ops => run (run_op t o) ops end.

(** The arguments are of the widths the C prototypes give them. *)
Definition op_ok (o : op) : Prop :=
  match o with
  | LRegister i m l p u => in_u32 i /\ in_u32 m /\ in_u32 l /\ in_u16 p /\ in_u32 u
  | LAck i r now => in_u32 r
  | _ => True
  end.

Lemma smooth_u32 old sample : in_u32 old -> in_u32 sample -> in_u32 (smooth old sample).
Proof. intros Ho Hs. destruct (smooth_contracts old sample Ho Hs). ulia. Qed.

Lemma smooth_loss_range p s :
  0 <= p <= 1000 -> 0 <= s <= 1000 ->
  u16 (smooth p s) = smooth p s /\ 0 <= smooth p s <= 1000.
Proof.
  intros Hp Hs. destruct (smooth_contracts p s); [ulia|ulia|].
  split; [apply u16_small; ulia|lia].
Qed.

(** What an operation does to the table: the ids in use are kept, in order,
    with at most one new one at the end; and the entry of each id is replaced
    by what the operation makes of it. *)
Definition touched (o : op) (e : fzn_link_entry) : fzn_link_entry :=
  match o with
  | LAck i r now =>
    if id e =? i then
      mk_entry (id e) (metric e) (smooth (latency_ms e) r) (smooth (loss_permille e) 0)
        (mtu e) (u64 (observations e + 1)) now (usable e)
    else e
  | LLoss i now =>
    if id e =? i then
      mk_entry (id e) (metric e) (latency_ms e) (smooth (loss_permille e) 1000)
        (mtu e) (u64 (observations e + 1)) now (usable e)
    else e
  | LUsable i u =>
    if id e =? i then
      mk_entry (id e) (metric e) (latency_ms e) (loss_permille e) (mtu e) (observations e)
        (last_seen e) (if u =? 0 then 0 else 1)
    else e
  | LRegister _ _ _ _ _ => e
  end.

Definition registered (t : fzn_link_table) (o : op) : list fzn_link_entry :=
  match o with
  | LRegister i m l p u =>
    if (p >? 1000) || (used t >=? capacity t) || existsb (fun e => id e =? i) (in_use t)
    then [] else [mk_entry i m l p u 0 0 1]
  | _ => []
  end.

Lemma touched_ok o e : op_ok o -> entry_ok e -> entry_ok (touched o e) /\ id (touched o e) = id e.
Proof.
  intros Ho He. pose proof He as (Hi & Hm & Hl & Hp & Hu & Hob).
  pose proof (u64_range (observations e + 1)) as Hr.
  destruct o as [| i r now | i now | i u]; cbn [touched op_ok] in *; [done|..];
    destruct (id e =? i); try done; (split; [|done]); unfold entry_ok; cbn.
  - destruct (smooth_loss_range (loss_permille e) 0); [lia..|].
    pose proof (smooth_u32 (latency_ms e) r Hl Ho). done.
  - destruct (smooth_loss_range (loss_permille e) 1000); [lia..|]. done.
Qed.

(** The three operations on one entry are [touched], entry by entry. *)
Lemma on_entry_touched t o i f :
  table_ok t -> op_ok o -> (forall e, entry_ok e -> id e = i -> f e = touched o e) ->
  (forall e, id e <> i -> touched o e = e) ->
  table_ok (snd (on_entry t i f)) /\ in_use (snd (on_entry t i f)) = touched o <$> in_use t /\
  capacity (snd (on_entry t i f)) = capacity t.
Proof.
  intros Hok Ho Hf Hother.
  destruct (on_entry_cases t i f Hok) as [[-> Hno]|(k & e & Hk & Hid & ->)]; cbn [snd].
  - split; [done|]. split; [|done]. apply list_eq. intros j. rewrite list_lookup_fmap.
    destruct (in_use t !! j) as [e'|] eqn:Hj; [|done]. cbn. rewrite Hother; [done|].
    rewrite Forall_lookup in Hno. eauto.
  - assert (entry_ok e) as He by (eapply Forall_lookup_1; [apply Hok|done]).
    destruct (touched_ok o e Ho He) as [Hok' Hid']. rewrite (Hf e He Hid).
    destruct (set_entry_ok t k e (touched o e) Hok Hk Hid' Hok') as [? _]. split; [done|].
    split; [|unfold capacity, zlen; cbn; by rewrite length_insert].
    rewrite in_use_set_entry. apply list_eq. intros j. rewrite list_lookup_fmap.
    destruct (decide (j = k)) as [->|Hne].
    + rewrite list_lookup_insert_eq by (by eapply lookup_lt_Some). by rewrite Hk.
    + rewrite list_lookup_insert_ne by done. destruct (in_use t !! j) as [e'|] eqn:Hj; [|done].
      cbn. rewrite Hother; [done|]. intros Hid2. apply Hne.
      pose proof (link_find_unique t j e' Hok Hj) as F1. pose proof (link_find_unique t k e Hok Hk) as F2.
      rewrite Hid2, <- Hid in F1. congruence.
Qed.

Lemma existsb_find t i :
  existsb (fun e => id e =? i) (in_use t) = bool_decide (is_Some (find t i)).
Proof.
  apply eq_true_iff_eq. rewrite bool_decide_eq_true, existsb_lookup. split.
  - intros (j & e & Hj & He). destruct (find t i) eqn:Hf; [eauto|].
    apply find_None_inv in Hf. rewrite Forall_lookup in Hf. specialize (Hf j e Hj). lia.
  - intros [j Hj]. apply find_Some_inv in Hj as (e & He & Hid). exists j, e. split; [done|lia].
Qed.

(** What each operation does to the entries in use. *)
Lemma run_op_effect t o :
  table_ok t -> op_ok o ->
  table_ok (run_op t o) /\ in_use (run_op t o) = (touched o <$> in_use t) ++ registered t o /\
  capacity (run_op t o) = capacity t.
Proof.
  intros Hok Ho. destruct o as [i m l p u | i r now | i now | i u]; cbn [run_op registered];
    try rewrite app_nil_r.
  - replace (touched (LRegister i m l p u) <$> in_use t) with (in_use t)
      by (symmetry; apply list_fmap_id).
    rewrite existsb_find. unfold fzn_link_register, usable_table. pose proof (tok_used t Hok).
    assert ((used t <=? capacity t) = true) as -> by lia. cbn [negb].
    destruct (p >? 1000) eqn:Hp; cbn [orb snd]; [by rewrite app_nil_r|].
    destruct (find t i) as [j|] eqn:Hf; cbn [snd].
    { rewrite bool_decide_eq_true_2 by eauto. rewrite orb_true_r. by rewrite app_nil_r. }
    rewrite bool_decide_eq_false_2 by (by intros []). rewrite orb_false_r.
    destruct (used t >=? capacity t) eqn:Hc; cbn [snd]; [by rewrite app_nil_r|].
    pose proof (register_snoc t i m l p u Hok Hf ltac:(lia)) as Hsn.
    split_and!; [|done|unfold capacity, zlen; cbn; by rewrite length_insert].
    split; rewrite ?Hsn.
    + unfold capacity, zlen in *. cbn. rewrite length_insert. lia.
    + rewrite fmap_app. apply list.NoDup_app. split_and!; [apply Hok| |apply NoDup_singleton].
      intros x Hx Hx'. apply list_elem_of_singleton in Hx' as ->.
      apply list_elem_of_fmap in Hx as (e & ? & [j He]%list_elem_of_lookup).
      apply find_None_inv in Hf. rewrite Forall_lookup in Hf. by apply (Hf j e He).
    + apply Forall_app_2; [apply Hok|]. repeat constructor; cbn in *; ulia.
  - apply on_entry_touched; auto; intros e; cbn.
    + intros (? & ? & ? & Hp & _) ->. rewrite Z.eqb_refl.
      by destruct (smooth_loss_range (loss_permille e) 0 Hp ltac:(lia)) as [-> _].
    + intros ?. by destruct (Z.eqb_spec (id e) i).
  - apply on_entry_touched; auto; intros e; cbn.
    + intros (? & ? & ? & Hp & _) ->. rewrite Z.eqb_refl.
      by destruct (smooth_loss_range (loss_permille e) 1000 Hp ltac:(lia)) as [-> _].
    + intros ?. by destruct (Z.eqb_spec (id e) i).
  - apply on_entry_touched; auto; intros e; cbn.
    + intros _ ->. by rewrite Z.eqb_refl.
    + intros ?. by destruct (Z.eqb_spec (id e) i).
Qed.

Lemma run_op_ids t o :
  table_ok t -> op_ok o -> (id <$> in_use t) `prefix_of` (id <$> in_use (run_op t o)).
Proof.
  intros Hok Ho. destruct (run_op_effect t o Hok Ho) as (_ & -> & _).
  exists (id <$> registered t o). rewrite fmap_app. f_equal. rewrite <- list_fmap_compose.
  apply list_eq. intros j. rewrite !list_lookup_fmap.
  destruct (in_use t !! j) as [e|] eqn:Hj; [|done]. cbn. f_equal.
  apply touched_ok; [done|]. eapply Forall_lookup_1; [apply Hok|done].
Qed.

Lemma run_ok ops : forall t,
  table_ok t -> Forall op_ok ops ->
  table_ok (run t ops) /\ (id <$> in_use t) `prefix_of` (id <$> in_use (run t ops)) /\
  capacity (run t ops) = capacity t.
Proof.
  induction ops as [|o ops IH]; intros t Hok Hops; cbn [run]; [done|].
  apply Forall_cons_iff in Hops as [Ho Hops].
  destruct (run_op_effect t o Hok Ho) as (Hok' & _ & Hc).
  destruct (IH _ Hok' Hops) as (? & ? & ?). split_and!; [done| |congruence].
  etrans; [by apply run_op_ids|done].
Qed.

Lemma init_ok n : table_ok (mk_table (replicate n zero_entry) 0).
Proof. split; unfold capacity, in_use, zlen; cbn; [lia|constructor|constructor]. Qed.

Lemma get_lookup t i e :
  table_ok t -> in_use t !! i = Some e -> fzn_link_get t (id e) = Some e.
Proof.
  intros Hok Hi. unfold fzn_link_get, usable_table. pose proof (tok_used t Hok).
  assert ((used t <=? capacity t) = true) as -> by lia. cbn [negb].
  rewrite (link_find_unique t i e Hok Hi). by apply in_use_lookup in Hi as [? _].
Qed.

(** The link table under any history. From [fzn_link_table_init] through
    any sequence of registrations, observations and up/down marks, the table
    never outgrows its array, no id is registered twice, every loss estimate
    stays a permille and every latency a 32-bit value, no operation ever
    removes or reorders a registered link, and each registered link is the one
    [fzn_link_get] answers with. *)
Theorem link_table_invariant es t0 t ops ops' :
  fzn_link_table_init (Some t0) (Some es) = (FZN_LINK_OK, Some t) ->
  Forall op_ok ops -> Forall op_ok ops' ->
  let t1 := run t ops in
  let t2 := run t1 ops' in
  table_ok t1 /\ capacity t1 = zlen es /\
  (id <$> in_use t1) `prefix_of` (id <$> in_use t2) /\
  (forall i e, in_use t1 !! i = Some e -> fzn_link_get t1 (id e) = Some e).
Proof.
  intros Hi Hops Hops'. cbv zeta. unfold fzn_link_table_init in Hi.
  destruct (zlen es =? 0); simplify_eq. pose proof (init_ok (length es)) as Hok.
  destruct (run_ok ops _ Hok Hops) as (Hok1 & _ & Hc). destruct (run_ok ops' _ Hok1 Hops') as (_ & ? & _).
  split_and!; [done| |done|eauto using get_lookup].
  rewrite Hc. unfold capacity, zlen. cbn. by rewrite length_replicate.
Qed.

(** ** The snapshot and the scheduler *)

Lemma snapshot_loop_spec es : forall out pre cap n d,
  cap = zlen out -> 0 <= n <= cap -> take (Z.to_nat n) out = candidate_of <$> pre ->
  zlen pre = n ->
  exists out', snapshot_loop es out cap n d =
      (Z.min cap (n + zlen es), out', d + Z.max 0 (n + zlen es - cap)) /\
    take (Z.to_nat (Z.min cap (n + zlen es))) out'
      = take (Z.to_nat cap) (candidate_of <$> (pre ++ es)) /\ zlen out' = cap.
Proof.
  induction es as [|e es IH]; intros out pre cap n d Hcap Hn Hpre Hlen; cbn [snapshot_loop].
  - exists out. rewrite app_nil_r. unfold zlen in *. cbn [length].
    replace (Z.min cap (n + Z.of_nat 0)) with n by lia.
    split_and!; [f_equal; lia| |done]. rewrite Hpre, take_ge; [done|]. rewrite length_fmap. lia.
  - assert (zlen (e :: es) = 1 + zlen es) as El by (unfold zlen; cbn [length]; lia).
    pose proof (zlen_nonneg es). destruct (n >=? cap) eqn:Hge.
    + destruct (IH out pre cap n (d + 1) Hcap Hn Hpre Hlen) as (out' & -> & Ht & Hz).
      exists out'. rewrite El. split_and!; [f_equal; [f_equal; lia|lia]| |done].
      replace (Z.min cap (n + (1 + zlen es))) with (Z.min cap (n + zlen es)) by lia.
      rewrite Ht, !fmap_app, !take_app_le by (rewrite length_fmap; unfold zlen in *; lia). done.
    + destruct (IH (<[Z.to_nat n := candidate_of e]> out) (pre ++ [e]) cap (n + 1) d)
        as (out' & -> & Ht & Hz).
      * unfold zlen in *. by rewrite length_insert.
      * lia.
      * replace (Z.to_nat (n + 1)) with (S (Z.to_nat n)) by lia.
        erewrite take_S_r by (apply list_lookup_insert_eq; unfold zlen in *; lia).
        rewrite take_insert_ge by lia. rewrite Hpre, fmap_app. done.
      * rewrite zlen_snoc. lia.
      * exists out'. rewrite El. replace (n + (1 + zlen es)) with (n + 1 + zlen es) by lia.
        split_and!; [done| |done]. rewrite Ht, <- app_assoc. done.
Qed.

Lemma snapshot_spec t out :
  table_ok t ->
  exists out', fzn_link_snapshot t out =
      (Z.min (zlen out) (used t), out', Z.max 0 (used t - zlen out)) /\
    take (Z.to_nat (Z.min (zlen out) (used t))) out'
      = take (length out) (candidate_of <$> in_use t).
Proof.
  intros Hok. unfold fzn_link_snapshot, usable_table. pose proof (tok_used t Hok).
  assert ((used t <=? capacity t) = true) as -> by lia. cbn [negb].
  assert (zlen (in_use t) = used t) as El.
  { unfold in_use, capacity, zlen in *. rewrite length_take. lia. }
  destruct (snapshot_loop_spec (in_use t) out [] (zlen out) 0 0) as (out' & -> & Ht & _); auto.
  { pose proof (zlen_nonneg out). lia. }
  exists out'. rewrite El in *. rewrite !Z.add_0_l in *. split; [done|].
  rewrite Ht. unfold zlen. rewrite Nat2Z.id. done.
Qed.

Lemma entry_candidate_ok e : entry_ok e -> candidate_ok (candidate_of e).
Proof. intros (? & ? & ? & ? & ? & _). unfold candidate_ok. cbn. split_and!; auto. ulia. Qed.

(** From table to choice. A snapshot into a buffer of [cap] candidates
    writes the first [min cap used] links in registration order and counts the
    rest in [dropped]; when it dropped none, [fzn_sched_select] over it picks
    the first cheapest admitted link of the whole table, or finds that no
    registered link is admitted. *)
Theorem snapshot_then_select t out w old :
  table_ok t ->
  let '(n, out', dropped) := fzn_link_snapshot t out in
  let seen := take (Z.to_nat n) out' in
  seen = take (length out) (candidate_of <$> in_use t) /\ n + dropped = used t /\
  (dropped = 0 -> 0 < used t ->
     seen = candidate_of <$> in_use t /\
     selection (candidate_of <$> in_use t) w old
       (fzn_sched_select (Some seen) (Some w) (Some old))).
Proof.
  intros Hok. destruct (snapshot_spec t out Hok) as (out' & -> & Ht). cbv zeta.
  pose proof (tok_used t Hok). split_and!; [done|lia|]. intros Hd Hu. rewrite Ht.
  assert (length (candidate_of <$> in_use t) = Z.to_nat (used t)) as El.
  { rewrite length_fmap. unfold in_use, capacity, zlen in *. rewrite length_take. lia. }
  rewrite take_ge by (unfold zlen in *; lia). split; [done|]. apply select_selects.
  intros E. rewrite E in El. cbn in El. lia.
Qed.

Definition demo_table : fzn_link_table :=
  run (mk_table (replicate 3 zero_entry) 0)
    [LRegister 5 10 20 0 1400; LRegister 6 10 10 0 1400; LRegister 5 1 1 0 1400;
     LLoss 6 100; LAck 5 28 101].

Lemma link_table_invariant_witness :
  fzn_link_table_init (Some (mk_table [] 0)) (Some (replicate 3 zero_entry))
    = (FZN_LINK_OK, Some (mk_table (replicate 3 zero_entry) 0)) /\
  table_ok demo_table /\ fzn_link_get demo_table 5 = Some (mk_entry 5 10 21 0 1400 1 101 1).
Proof.
  split; [reflexivity|]. split; [|vm_compute; reflexivity].
  apply (link_table_invariant (replicate 3 zero_entry) (mk_table [] 0)
           (mk_table (replicate 3 zero_entry) 0)
           [LRegister 5 10 20 0 1400; LRegister 6 10 10 0 1400; LRegister 5 1 1 0 1400;
            LLoss 6 100; LAck 5 28 101] []).
  - reflexivity.
  - repeat constructor; vm_compute; discriminate.
  - constructor.
Defined.

Lemma demo_table_ok : table_ok demo_table.
Proof.
  apply run_ok; [apply init_ok|].
  repeat constructor; vm_compute; discriminate.
Qed.

Definition demo_out : list fzn_sched_candidate := replicate 2 (mk_candidate 0 0 0 0 0 0).

Lemma snapshot_then_select_witness :
  fst (fst (fzn_link_snapshot demo_table demo_out)) = 2 /\
  selection (candidate_of <$> in_use demo_table) (mk_class 0 100 0 0 1 0) 0
    (fzn_sched_select (Some (candidate_of <$> in_use demo_table))
       (Some (mk_class 0 100 0 0 1 0)) (Some 0%nat)).
Proof.
  split; [vm_compute; reflexivity|].
  pose proof (snapshot_then_select demo_table demo_out (mk_class 0 100 0 0 1 0) 0 demo_table_ok)
    as H. destruct H as (_ & _ & H). apply H; vm_compute; reflexivity.
Defined.

(** ** A dead link *)

Definition is_loss (i : Z) (o : op) : bool :=
  match o with LLoss j _ => j =? i | _ => false end.
Definition is_ack (i : Z) (o : op) : bool :=
  match o with LAck j _ _ => j =? i | _ => false end.

Lemma touched_loss o e :
  is_ack (id e) o = false ->
  loss_permille (touched o e) =
    if is_loss (id e) o then smooth (loss_permille e) 1000 else loss_permille e.
Proof.
  intros Ha. destruct o as [|i r now|i now|i u]; cbn in *; [done|..]; rewrite 1?(Z.eqb_sym (id e) i).
  - by rewrite Ha.
  - by destruct (i =? id e).
  - by destruct (i =? id e).
Qed.

Lemma run_losses ops : forall t k e,
  table_ok t -> Forall op_ok ops -> in_use t !! k = Some e ->
  Forall (fun o => is_ack (id e) o = false) ops ->
  exists e', in_use (run t ops) !! k = Some e' /\ id e' = id e /\
    loss_permille e' = smooth_n (Z.to_nat (count (is_loss (id e)) ops)) (loss_permille e) 1000.
Proof.
  induction ops as [|o ops IH]; intros t k e Hok Hops Hk Hna; cbn [run count]; [by exists e|].
  apply Forall_cons_iff in Hops as [Ho Hops]. apply Forall_cons_iff in Hna as [Ha Hna].
  destruct (run_op_effect t o Hok Ho) as (Hok' & Hin & _).
  assert (entry_ok e) as He by (eapply Forall_lookup_1; [apply Hok|done]).
  destruct (touched_ok o e Ho He) as [_ Hid].
  destruct (IH (run_op t o) k (touched o e)) as (e' & Hk' & Hid' & Hl); auto.
  { rewrite Hin. apply lookup_app_l_Some. by rewrite list_lookup_fmap, Hk. }
  { by rewrite Hid. }
  exists e'. split_and!; [done|congruence|]. rewrite Hl, Hid, touched_loss by done.
  pose proof (count_nonneg (is_loss (id e)) ops). destruct (is_loss (id e) o); [|done].
  by replace (Z.to_nat (1 + count (is_loss (id e)) ops))
    with (S (Z.to_nat (count (is_loss (id e)) ops))) by lia.
Qed.

Lemma selection_admitted ls w old i :
  fzn_sched_select (Some ls) (Some w) (Some old) = (FZN_SCHED_OK, Some i) ->
  exists l, ls !! i = Some l /\ satisfies l w.
Proof.
  intros H. destruct ls as [|l ls]; [done|].
  destruct (select_selects (l :: ls) w old ltac:(done)) as [[E _]|(j & E & Hf)]; rewrite H in E; [done|].
  simplify_eq. destruct Hf as (c & ? & ? & _). eauto.
Qed.

(** A link that loses everything is eventually seen to. Take any registered
    link and any history in which it is never acknowledged and is observed to
    lose at least a thousand messages, whatever happens to other links in
    between. Its estimate is then exactly 1000 permille (rounding never stalls
    the average short of it), and no class that constrains loss at all below
    that is ever given the link by [fzn_sched_select] on a snapshot of the
    table, of any size. *)
Theorem dead_link_is_never_chosen t k e ops w out old :
  table_ok t -> Forall op_ok ops -> in_use t !! k = Some e ->
  Forall (fun o => is_ack (id e) o = false) ops -> 1000 <= count (is_loss (id e)) ops ->
  0 < max_loss_permille w < 1000 ->
  (exists e', fzn_link_get (run t ops) (id e) = Some e' /\ loss_permille e' = 1000) /\
  (let '(n, out', _) := fzn_link_snapshot (run t ops) out in
   forall i c, fzn_sched_select (Some (take (Z.to_nat n) out')) (Some w) (Some old)
               = (FZN_SCHED_OK, Some i) ->
     take (Z.to_nat n) out' !! i = Some c -> c_id c <> id e).
Proof.
  intros Hok Hops Hk Hna Hn Hw. destruct (run_ok ops t Hok Hops) as (Hok' & _ & _).
  destruct (run_losses ops t k e Hok Hops Hk Hna) as (e' & Hk' & Hid & Hl).
  assert (entry_ok e) as He by (eapply Forall_lookup_1; [apply Hok|done]).
  destruct He as (_ & _ & _ & Hp & _). rewrite smooth_n_converges in Hl by ulia.
  split; [exists e'; split; [|done]; rewrite <- Hid; by eapply get_lookup|].
  destruct (snapshot_spec (run t ops) out Hok') as (out' & -> & Ht). rewrite Ht.
  intros i c Hs Hc Heq. apply selection_admitted in Hs as (c' & Hc' & Hsat).
  rewrite Hc in Hc'. simplify_eq. apply lookup_take_Some in Hc as [Hc _].
  rewrite list_lookup_fmap in Hc. destruct (in_use (run t ops) !! i) as [e2|] eqn:Hi; [|done].
  cbn in Hc. simplify_eq. cbn in Heq.
  pose proof (link_find_unique _ _ _ Hok' Hi) as F1. pose proof (link_find_unique _ _ _ Hok' Hk') as F2.
  rewrite Heq, <- Hid, F2 in F1.
  assert (i = k) as -> by congruence. rewrite Hk' in Hi. simplify_eq.
  destruct Hsat as (_ & _ & Hsat & _). cbn in Hsat. lia.
Qed.

Definition demo_dead : fzn_link_entry := mk_entry 5 10 21 0 1400 1 101 1.

Definition demo_losses : list op := replicate (Z.to_nat 1000) (LLoss 5 200).

Lemma dead_link_is_never_chosen_witness :
  (exists e', fzn_link_get (run demo_table demo_losses) (id demo_dead) = Some e'
     /\ loss_permille e' = 1000) /\
  loss_permille <$> fzn_link_get (run demo_table (replicate 5 (LLoss 5 200))) 5 = Some 489.
Proof.
  split; [|vm_compute; reflexivity].
  assert (Forall op_ok demo_losses) as H1 by (apply Forall_replicate; exact I).
  assert (in_use demo_table !! 0%nat = Some demo_dead) as H2 by (vm_compute; reflexivity).
  assert (Forall (fun o => is_ack (id demo_dead) o = false) demo_losses) as H3
    by (apply Forall_replicate; reflexivity).
  assert (1000 <= count (is_loss (id demo_dead)) demo_losses) as H4
    by (vm_compute; discriminate).
  assert (0 < max_loss_permille (mk_class 0 100 0 0 1 0) < 1000) as H5 by (cbn; lia).
  destruct (dead_link_is_never_chosen demo_table 0 demo_dead demo_losses _ demo_out 0
              demo_table_ok H1 H2 H3 H4 H5) as [H _].
  exact H.
Defined.
