(* ===== verification/Bytes.v ===== *)
(** * wire/bytes.h and constant_time/constant_time.c

    Big-endian reads and writes over caller-owned bytes, the version and the
    tags inside every signed range, and the constant-time comparison ([fzn_wipe] is left out). A
    pointer into a buffer is the buffer and an offset. *)

From S2P Require Import Prelude.

(** A string of [n] bytes. *)
Definition is_bytes (n : Z) (l : bytes) : Prop := zlen l = n /\ Forall in_u8 l.

(** [p[off]] *)
Definition peek (l : bytes) (off : Z) : Z := nth (Z.to_nat off) l 0.

(** [p[off] = v] *)
Definition poke (l : bytes) (off v : Z) : bytes := blit off [u8 v] l.

(** [memset(p + off, 0, n)] *)
Definition zeros (n : Z) : bytes := replicate (Z.to_nat n) 0.

(** [memcmp] of two strings of one length: the sign of the first difference. *)
Fixpoint memcmp (a b : bytes) : Z :=
  match a, b with
  | x :: a, y :: b => if x =? y then memcmp a b else if x <? y then -1 else 1
  | _, _ => 0
  end.

Definition fzn_get_be16 (p : bytes) (o : Z) : Z :=
  u16 (Z.lor (Z.shiftl (peek p o) 8) (peek p (o + 1))).

Definition fzn_get_be32 (p : bytes) (o : Z) : Z :=
  Z.lor (Z.lor (Z.lor (u32 (Z.shiftl (peek p o) 24)) (u32 (Z.shiftl (peek p (o + 1)) 16)))
    (u32 (Z.shiftl (peek p (o + 2)) 8))) (peek p (o + 3)).

Definition fzn_get_be64 (p : bytes) (o : Z) : Z :=
  Z.lor (Z.lor (Z.lor (Z.lor (Z.lor (Z.lor (Z.lor
    (u64 (Z.shiftl (peek p o) 56)) (u64 (Z.shiftl (peek p (o + 1)) 48)))
    (u64 (Z.shiftl (peek p (o + 2)) 40))) (u64 (Z.shiftl (peek p (o + 3)) 32)))
    (u64 (Z.shiftl (peek p (o + 4)) 24))) (u64 (Z.shiftl (peek p (o + 5)) 16)))
    (u64 (Z.shiftl (peek p (o + 6)) 8))) (peek p (o + 7)).

(** The bytes a [fzn_put_be..] stores, most significant first. *)
Definition be16 (v : Z) : bytes := [u8 (Z.shiftr v 8); u8 v].
Definition be32 (v : Z) : bytes :=
  [u8 (Z.shiftr v 24); u8 (Z.shiftr v 16); u8 (Z.shiftr v 8); u8 v].
Definition be64 (v : Z) : bytes :=
  [u8 (Z.shiftr v 56); u8 (Z.shiftr v 48); u8 (Z.shiftr v 40); u8 (Z.shiftr v 32);
   u8 (Z.shiftr v 24); u8 (Z.shiftr v 16); u8 (Z.shiftr v 8); u8 v].

Definition fzn_put_be16 (p : bytes) (o v : Z) : bytes := blit o (be16 v) p.
Definition fzn_put_be32 (p : bytes) (o v : Z) : bytes := blit o (be32 v) p.
Definition fzn_put_be64 (p : bytes) (o v : Z) : bytes := blit o (be64 v) p.

Definition FZN_SIGNED_VERSION : Z := 1.
Definition FZN_OBJECT_HOP : Z := 128.
Definition FZN_OBJECT_REVOCATION : Z := 129.
Definition FZN_OBJECT_RECORD : Z := 130.
Definition FZN_OBJECT_MANIFEST : Z := 131.
Definition FZN_OBJECT_WITHDRAWAL : Z := 133.
Definition FZN_OBJECT_ADMIN_CONFIRM : Z := 143.

(** ** constant_time.c *)

(** The loop of [fzn_ct_memeq] from byte [i] on, [fuel] bytes to go. *)
Fixpoint ct_loop (a b : bytes) (i : Z) (fuel : nat) (diff : Z) : Z :=
  match fuel with
  | O => diff
  | S fuel =>
    ct_loop a b (i + 1) fuel (u8 (Z.lor diff (u8 (Z.lxor (peek a i) (peek b i)))))
  end.

(** NULL is [None]. *)
Definition fzn_ct_memeq (a b : option bytes) (len : Z) : bool :=
  match a, b with
  | Some pa, Some pb => ct_loop pa pb 0 (Z.to_nat len) 0 =? 0
  | _, _ => len =? 0
  end.

(** ** Reading and writing *)

Lemma nth_lookup (l : bytes) (i : nat) : nth i l 0 = default 0 (l !! i).
Proof. revert i. induction l as [|x l IH]; intros [|i]; cbn; auto. Qed.

Lemma peek_slice l off len i :
  0 <= off -> 0 <= i < len -> peek (slice off len l) i = peek l (off + i).
Proof.
  intros. unfold peek. rewrite !nth_lookup, lookup_slice by lia.
  rewrite bool_decide_eq_true_2 by lia. do 2 f_equal. lia.
Qed.

Lemma peek_blit l src off i :
  0 <= off -> off + zlen src <= zlen l -> 0 <= i ->
  peek (blit off src l) i =
    if (off <=? i) && (i <? off + zlen src) then peek src (i - off) else peek l i.
Proof.
  intros. unfold peek. rewrite !nth_lookup, lookup_blit by lia.
  destruct ((off <=? i) && (i <? off + zlen src)) eqn:E.
  - rewrite bool_decide_eq_true_2 by lia. do 2 f_equal. lia.
  - rewrite bool_decide_eq_false_2 by lia. done.
Qed.

Lemma peek_range l i : Forall in_u8 l -> in_u8 (peek l i).
Proof.
  intros H. unfold peek. rewrite nth_lookup. destruct (l !! Z.to_nat i) as [x|] eqn:E.
  - eapply Forall_lookup_1 in H; [exact H|done].
  - cbn. ulia.
Qed.

(** The value of a big-endian string, and the string of a value. *)
Fixpoint be_val (acc : Z) (l : bytes) : Z :=
  match l with [] => acc | x :: l => be_val (acc * 256 + x) l end.

Fixpoint be_digits (n : nat) (v : Z) : bytes :=
  match n with O => [] | S n => be_digits n (v / 256) ++ [v mod 256] end.

Lemma be_val_app acc l1 l2 : be_val acc (l1 ++ l2) = be_val (be_val acc l1) l2.
Proof. revert acc. induction l1 as [|x l1 IH]; intros acc; cbn; auto. Qed.

Lemma be_val_digits n v : be_val 0 (be_digits n v) = v mod 256 ^ Z.of_nat n.
Proof.
  revert v. induction n as [|n IH]; intros v; cbn [be_digits].
  - cbn. symmetry. apply Z.mod_1_r.
  - rewrite be_val_app, IH. cbn [be_val]. rewrite Nat2Z.inj_succ, Z.pow_succ_r by lia.
    pose proof (Z.pow_pos_nonneg 256 (Z.of_nat n) ltac:(lia) ltac:(lia)).
    rewrite (Z.rem_mul_r v 256) by lia. lia.
Qed.

Lemma be_digits_val l : forall v, Forall in_u8 l ->
  v = be_val 0 l -> be_digits (length l) v = l.
Proof.
  induction l as [|x l IH] using rev_ind; intros v Hl ->; [done|].
  apply Forall_app in Hl as [Hl Hx]. apply Forall_cons_iff in Hx as [Hx _].
  rewrite length_app. cbn [length]. rewrite Nat.add_1_r. cbn [be_digits].
  rewrite be_val_app. cbn [be_val].
  replace ((be_val 0 l * 256 + x) / 256) with (be_val 0 l) by dlia.
  replace ((be_val 0 l * 256 + x) mod 256) with x by dlia.
  by rewrite IH.
Qed.

Lemma be_val_bound l : forall acc, 0 <= acc -> Forall in_u8 l ->
  0 <= be_val acc l < (acc + 1) * 256 ^ Z.of_nat (length l).
Proof.
  induction l as [|x l IH]; intros acc Ha Hl; cbn [be_val length]; [lia|].
  apply Forall_cons_iff in Hl as [Hx Hl]. destruct (IH (acc * 256 + x)) as [? Hub]; [ulia|done|].
  rewrite Nat2Z.inj_succ, Z.pow_succ_r by lia. split; [done|].
  pose proof (Z.pow_pos_nonneg 256 (Z.of_nat (length l)) ltac:(lia) ltac:(lia)). width. nia.
Qed.

Lemma lor_add a b k : 0 <= k -> 0 <= b < 2 ^ k -> Z.lor (a * 2 ^ k) b = a * 2 ^ k + b.
Proof.
  intros Hk Hb. assert (Z.land (a * 2 ^ k) b = 0) as Hd.
  { apply Z.bits_inj'. intros i Hi. rewrite Z.land_spec, Z.bits_0.
    destruct (decide (i < k)).
    - rewrite Z.mul_pow2_bits_low by lia. done.
    - destruct (decide (b = 0)) as [->|]; [by rewrite Z.bits_0, andb_false_r|].
      rewrite (Z.bits_above_log2 b i); [by rewrite andb_false_r|lia|].
      apply Z.log2_lt_pow2; [lia|]. apply Z.lt_le_trans with (2 ^ k); [lia|].
      apply Z.pow_le_mono_r; lia. }
  rewrite <- Z.lxor_lor by done. symmetry. by apply Z.add_nocarry_lxor.
Qed.

(** One more digit below the ones read so far. *)
Lemma lor_digit a x k :
  0 <= k -> in_u8 x -> Z.lor (a * 2 ^ (k + 8)) (x * 2 ^ k) = (a * 256 + x) * 2 ^ k.
Proof.
  intros Hk Hx. rewrite lor_add; [|lia|].
  - rewrite Z.pow_add_r by lia. change (2 ^ 8) with 256. lia.
  - rewrite Z.pow_add_r by lia. change (2 ^ 8) with 256. width.
    pose proof (Z.pow_pos_nonneg 2 k ltac:(lia) Hk). nia.
Qed.

Lemma shiftl_u64 x k : in_u8 x -> 0 <= k <= 56 -> u64 (Z.shiftl x k) = x * 2 ^ k.
Proof.
  intros Hx Hk. rewrite Z.shiftl_mul_pow2 by lia. apply u64_small. width.
  pose proof (Z.pow_le_mono_r 2 k 56 ltac:(lia) ltac:(lia)) as Hp.
  pose proof (Z.pow_pos_nonneg 2 k ltac:(lia) ltac:(lia)).
  change (2 ^ 56) with 72057594037927936 in Hp. nia.
Qed.

Lemma shiftl_u32 x k : in_u8 x -> 0 <= k <= 24 -> u32 (Z.shiftl x k) = x * 2 ^ k.
Proof.
  intros Hx Hk. rewrite Z.shiftl_mul_pow2 by lia. apply u32_small. width.
  pose proof (Z.pow_le_mono_r 2 k 24 ltac:(lia) ltac:(lia)) as Hp.
  pose proof (Z.pow_pos_nonneg 2 k ltac:(lia) ltac:(lia)).
  change (2 ^ 24) with 16777216 in Hp. nia.
Qed.

Lemma get_be64_val p o :
  Forall in_u8 p ->
  fzn_get_be64 p o = be_val 0 [peek p o; peek p (o + 1); peek p (o + 2); peek p (o + 3);
    peek p (o + 4); peek p (o + 5); peek p (o + 6); peek p (o + 7)].
Proof.
  intros Hp. unfold fzn_get_be64. pose proof (fun i => peek_range p i Hp) as R.
  rewrite !shiftl_u64 by (auto; lia).
  rewrite (lor_digit (peek p o) _ 48), (lor_digit _ _ 40), (lor_digit _ _ 32), (lor_digit _ _ 24),
    (lor_digit _ _ 16), (lor_digit _ _ 8) by (auto; lia).
  replace (peek p (o + 7)) with (peek p (o + 7) * 2 ^ 0) at 1 by (change (2 ^ 0) with 1; lia).
  rewrite (lor_digit _ _ 0) by (auto; lia). cbn [be_val]. change (2 ^ 0) with 1. lia.
Qed.

Lemma get_be64_range p o : Forall in_u8 p -> in_u64 (fzn_get_be64 p o).
Proof.
  intros Hp. rewrite get_be64_val by done.
  match goal with |- in_u64 (be_val 0 ?l) => pose proof (be_val_bound l 0 ltac:(lia)) as H end.
  cbn [length] in H. change ((0 + 1) * 256 ^ Z.of_nat 8) with 18446744073709551616 in H.
  pose proof (fun i => peek_range p i Hp) as R. width.
  assert (0 <= 255) by lia. destruct H as [? ?]; [|lia].
  repeat (apply Forall_cons_iff; split; [apply R|]). constructor.
Qed.

Lemma be64_digits v : be64 v = be_digits 8 v.
Proof.
  unfold be64, u8. change (2 ^ 8) with 256. cbn [be_digits app].
  rewrite !Z.shiftr_div_pow2 by lia. rewrite !Z.div_div by lia. reflexivity.
Qed.

Lemma zlen_be64 v : zlen (be64 v) = 8.
Proof. reflexivity. Qed.

Lemma be64_range v : Forall in_u8 (be64 v).
Proof. unfold be64. repeat (apply Forall_cons_iff; split; [apply u8_range|]). constructor. Qed.

Lemma slice_peek (p : bytes) o n :
  0 <= o -> 0 <= n -> o + n <= zlen p -> slice o n p = peek p <$> seqZ o n.
Proof.
  intros Ho Hn Hl. apply list_eq. intros i. rewrite list_lookup_fmap, lookup_slice by lia.
  case_bool_decide as E.
  - rewrite lookup_seqZ_lt by lia. cbn. unfold peek. rewrite nth_lookup.
    replace (Z.to_nat (o + Z.of_nat i)) with (Z.to_nat o + i)%nat by lia.
    destruct (lookup_lt_is_Some_2 p (Z.to_nat o + i)) as [y Hy]; [unfold zlen in Hl; lia|].
    by rewrite Hy.
  - rewrite lookup_seqZ_ge by lia. done.
Qed.

Lemma slice_8 (p : bytes) o :
  0 <= o -> o + 8 <= zlen p ->
  slice o 8 p = [peek p o; peek p (o + 1); peek p (o + 2); peek p (o + 3);
    peek p (o + 4); peek p (o + 5); peek p (o + 6); peek p (o + 7)].
Proof.
  intros Ho Hl. rewrite slice_peek by lia. unfold seqZ. change (Z.to_nat 8) with 8%nat.
  cbn [seq fmap list_fmap].
  repeat (apply (f_equal2 cons); [f_equal; lia|]). reflexivity.
Qed.

(** Eight bytes read back are the value whose digits they are. *)
Lemma get_be64_slice p o :
  Forall in_u8 p -> 0 <= o -> o + 8 <= zlen p -> fzn_get_be64 p o = be_val 0 (slice o 8 p).
Proof. intros. rewrite get_be64_val, slice_8 by done. reflexivity. Qed.

Lemma be_val_be64 v : in_u64 v -> be_val 0 (be64 v) = v.
Proof.
  intros Hv. rewrite be64_digits, be_val_digits. apply Z.mod_small.
  change (256 ^ Z.of_nat 8) with 18446744073709551616. ulia.
Qed.

Lemma be64_be_val l : is_bytes 8 l -> be64 (be_val 0 l) = l.
Proof.
  intros [Hl Hr]. rewrite be64_digits. replace 8%nat with (length l) by (unfold zlen in Hl; lia).
  by apply be_digits_val.
Qed.

(** A field read back: what was stored where it is read. *)
Lemma get_be64_of p o v : 0 <= o -> in_u64 v -> slice o 8 p = be64 v -> fzn_get_be64 p o = v.
Proof.
  intros Ho Hv Hs. transitivity (fzn_get_be64 (slice o 8 p) 0).
  { unfold fzn_get_be64. rewrite !peek_slice by lia. rewrite !Z.add_0_r, ?Z.add_0_l. reflexivity. }
  rewrite Hs, get_be64_slice by (auto using be64_range; rewrite ?zlen_be64; lia).
  rewrite slice_all by (rewrite zlen_be64; lia). by apply be_val_be64.
Qed.

Lemma get_be16_of p o v : 0 <= o -> in_u16 v -> slice o 2 p = be16 v -> fzn_get_be16 p o = v.
Proof.
  intros Ho Hv Hs. transitivity (fzn_get_be16 (slice o 2 p) 0).
  { unfold fzn_get_be16. rewrite !peek_slice by lia. rewrite !Z.add_0_r, ?Z.add_0_l. reflexivity. }
  rewrite Hs. unfold fzn_get_be16, be16. change (peek [?a; ?b] 0) with a. change (peek [?a; ?b] (0 + 1)) with b.
  rewrite Z.shiftl_mul_pow2, Z.shiftr_div_pow2 by lia.
  pose proof (u8_range v). rewrite lor_add; [|lia|ulia].
  unfold u8, u16. change (2 ^ 8) with 256. change (2 ^ 16) with 65536. dlia.
Qed.

Lemma get_be32_of p o v : 0 <= o -> in_u32 v -> slice o 4 p = be32 v -> fzn_get_be32 p o = v.
Proof.
  intros Ho Hv Hs. transitivity (fzn_get_be32 (slice o 4 p) 0).
  { unfold fzn_get_be32. rewrite !peek_slice by lia. rewrite !Z.add_0_r, ?Z.add_0_l. reflexivity. }
  rewrite Hs. unfold fzn_get_be32, be32. change (peek [?a; ?b; ?c; ?d] 0) with a.
  change (peek [?a; ?b; ?c; ?d] (0 + 1)) with b. change (peek [?a; ?b; ?c; ?d] (0 + 2)) with c.
  change (peek [?a; ?b; ?c; ?d] (0 + 3)) with d.
  rewrite !shiftl_u32 by (auto using u8_range; lia). rewrite !Z.shiftr_div_pow2 by lia.
  rewrite (lor_digit _ _ 16), (lor_digit _ _ 8) by (auto using u8_range; lia).
  replace (u8 v) with (u8 v * 2 ^ 0) at 1 by (change (2 ^ 0) with 1; lia).
  rewrite (lor_digit _ _ 0) by (auto using u8_range; lia).
  unfold u8. change (2 ^ 24) with 16777216. change (2 ^ 16) with 65536. change (2 ^ 8) with 256.
  change (2 ^ 0) with 1. dlia.
Qed.

(** ** The constant-time comparison *)

Lemma u8_lor_zero d x : in_u8 d -> in_u8 x -> u8 (Z.lor d x) = 0 <-> d = 0 /\ x = 0.
Proof.
  intros Hd Hx. rewrite u8_small.
  - apply Z.lor_eq_0_iff.
  - width. split; [apply Z.lor_nonneg; lia|].
    destruct (decide (Z.lor d x = 0)) as [->|]; [lia|].
    assert (Z.log2 (Z.lor d x) < 8); [|apply Z.lt_succ_r, (Z.log2_lt_pow2 _ 8); [|done];
      assert (0 <= Z.lor d x) by (apply Z.lor_nonneg; lia); lia].
    rewrite Z.log2_lor by lia.
    assert (forall y, 0 <= y <= 255 -> Z.log2 y < 8) as Hlog.
    { intros y Hy. destruct (decide (y = 0)) as [->|]; [cbn; lia|].
      apply (Z.log2_lt_pow2 y 8); lia. }
    apply Z.max_lub_lt; apply Hlog; lia.
Qed.

Lemma u8_lxor_zero x y : in_u8 x -> in_u8 y -> u8 (Z.lxor x y) = 0 <-> x = y.
Proof.
  intros Hx Hy. split; [|intros ->; by rewrite Z.lxor_nilpotent].
  unfold u8. rewrite <- Z.land_ones by lia. intros H. apply Z.bits_inj'. intros i Hi.
  assert (forall z j, in_u8 z -> 8 <= j -> Z.testbit z j = false) as Hhigh.
  { intros z j Hz Hj. width. destruct (decide (z = 0)) as [->|]; [apply Z.bits_0|].
    apply Z.bits_above_log2; [lia|]. apply Z.log2_lt_pow2; [lia|].
    apply Z.lt_le_trans with (2 ^ 8); [change (2 ^ 8) with 256; lia|].
    apply Z.pow_le_mono_r; lia. }
  destruct (decide (i < 8)).
  - assert (Z.testbit (Z.land (Z.lxor x y) (Z.ones 8)) i = false) as E by (rewrite H; apply Z.bits_0).
    rewrite Z.land_spec, Z.lxor_spec, Z.ones_spec_low, andb_true_r in E by lia.
    by destruct (Z.testbit x i), (Z.testbit y i).
  - rewrite !Hhigh by (auto; lia). done.
Qed.

Lemma ct_loop_spec a b fuel : forall i d,
  Forall in_u8 a -> Forall in_u8 b -> in_u8 d ->
  ct_loop a b i fuel d = 0 <->
    d = 0 /\ forall j, i <= j < i + Z.of_nat fuel -> peek a j = peek b j.
Proof.
  induction fuel as [|fuel IH]; intros i d Ha Hb Hd; cbn [ct_loop].
  - split; [intros ->; split; [done|lia]|tauto].
  - rewrite IH by (auto using u8_range). rewrite u8_lor_zero by auto using u8_range.
    rewrite u8_lxor_zero by auto using peek_range. split.
    + intros [[-> E] H]. split; [done|]. intros j Hj.
      destruct (decide (j = i)) as [->|]; [done|]. apply H. lia.
    + intros [-> H]. split; [split; [done|apply H; lia]|]. intros j Hj. apply H. lia.
Qed.

(** The constant-time comparison is equality. Over [len] bytes that are
    there on both sides, [fzn_ct_memeq] answers true exactly when the two
    prefixes are the same bytes; with a missing side it answers no to every
    comparison of at least one byte. *)
Theorem ct_memeq_correct a b len :
  Forall in_u8 a -> Forall in_u8 b -> 0 <= len <= zlen a -> len <= zlen b ->
  fzn_ct_memeq (Some a) (Some b) len = memeq (slice 0 len a) (slice 0 len b) /\
  (0 < len -> fzn_ct_memeq None (Some b) len = false /\ fzn_ct_memeq (Some a) None len = false).
Proof.
  intros Ha Hb Hl Hl'. cbn [fzn_ct_memeq]. split; [|lia]. apply eq_true_iff_eq.
  rewrite Z.eqb_eq, memeq_true, ct_loop_spec by (auto; ulia).
  rewrite !slice_peek by lia. split.
  - intros [_ H]. apply list_fmap_ext. intros i x Hx. apply lookup_seqZ in Hx. apply H. lia.
  - intros H. split; [done|]. intros j Hj. apply (f_equal (lookup (Z.to_nat j))) in H.
    rewrite !list_lookup_fmap, lookup_seqZ_lt in H by lia. cbn in H.
    replace (Z.of_nat (Z.to_nat j)) with j in H by lia. by simplify_eq.
Qed.

Lemma ct_memeq_correct_witness :
  fzn_ct_memeq (Some [1; 2; 255]) (Some [1; 2; 127]) 3 = false /\
  fzn_ct_memeq (Some [1; 2; 255]) (Some [1; 2; 127]) 2 = memeq [1; 2] [1; 2].
Proof.
  split; [vm_compute; reflexivity|].
  apply (ct_memeq_correct [1; 2; 255] [1; 2; 127] 2); try (vm_compute; intuition congruence);
    repeat constructor; vm_compute; discriminate.
Defined.

(** ** Writing a layout field after field *)

(** What [a[n++] = x] leaves in use. *)
Lemma take_write {A} (l : list A) n x : (n < length l)%nat -> take (S n) (<[n := x]> l) = take n l ++ [x].
Proof. intros Hn. rewrite (take_S_r _ _ x) by (by apply list_lookup_insert_eq). by rewrite take_insert_ge. Qed.

Lemma blit_nil {A} off (l : list A) : blit off [] l = l.
Proof. unfold blit. cbn. rewrite Nat.add_0_r. apply take_drop. Qed.

Lemma blit_next {A} (pre rest src : list A) off :
  zlen pre = off -> blit off src (pre ++ rest) = (pre ++ src) ++ drop (length src) rest.
Proof.
  intros <-. unfold blit, zlen. rewrite Nat2Z.id, take_app_length, <- app_assoc.
  do 2 f_equal. by rewrite drop_app_add.
Qed.

Lemma slice_mid {A} (pre mid post : list A) off n :
  zlen pre = off -> zlen mid = n -> slice off n (pre ++ mid ++ post) = mid.
Proof.
  intros <- <-. unfold slice, zlen. rewrite !Nat2Z.id, drop_app_length. apply take_app_length.
Qed.

Lemma slice_front {A} (mid post : list A) n : zlen mid = n -> slice 0 n (mid ++ post) = mid.
Proof. intros. by apply (slice_mid [] mid post). Qed.

Lemma peek_mid pre x post off : zlen pre = off -> peek (pre ++ x :: post) off = x.
Proof.
  intros <-. unfold peek, zlen. rewrite Nat2Z.id, nth_lookup, list_lookup_middle by done. done.
Qed.

Lemma zlen_zeros n : 0 <= n -> zlen (zeros n) = n.
Proof. intros. unfold zlen, zeros. rewrite length_replicate. lia. Qed.

Lemma zeros_range n : Forall in_u8 (zeros n).
Proof. apply Forall_replicate. ulia. Qed.

(** A buffer written to its end is what was written. *)
Lemma blit_last {A} (pre rest src : list A) off :
  zlen pre = off -> (length rest <= length src)%nat -> blit off src (pre ++ rest) = pre ++ src.
Proof. intros ? ?. rewrite blit_next by done. by rewrite drop_ge, app_nil_r. Qed.

Lemma is_bytes_app n m l1 l2 : is_bytes n l1 -> is_bytes m l2 -> is_bytes (n + m) (l1 ++ l2).
Proof. intros [<- ?] [<- ?]. split; [apply zlen_app|by apply Forall_app]. Qed.

Lemma is_bytes_slice off n m l :
  0 <= off -> 0 <= n -> off + n <= m -> is_bytes m l -> is_bytes n (slice off n l).
Proof.
  intros ? ? ? [Hl Hr]. split; [apply zlen_slice; lia|]. unfold slice.
  apply Forall_take, Forall_drop, Hr.
Qed.

(** ** Reading a field back as the bytes it is *)

Lemma slice_field {A} (fs : list (list A)) (i : nat) (f : list A) off n :
  fs !! i = Some f -> zlen (concat (take i fs)) = off -> zlen f = n -> slice off n (concat fs) = f.
Proof.
  intros Hi Ho Hn. rewrite <- (take_drop_middle fs i f Hi) at 1. rewrite concat_app. cbn [concat].
  by apply slice_mid.
Qed.

(** Fields written one after another. *)
Fixpoint blits {A} (off : Z) (fs : list (list A)) (out : list A) : list A :=
  match fs with [] => out | f :: fs => blits (off + zlen f) fs (blit off f out) end.

Lemma blits_next {A} (fs : list (list A)) : forall off pre rest,
  zlen pre = off -> blits off fs (pre ++ rest) = pre ++ concat fs ++ drop (length (concat fs)) rest.
Proof.
  induction fs as [|f fs IH]; intros off pre rest Hp; cbn [blits concat]; [done|].
  rewrite blit_next by done. rewrite IH by (rewrite zlen_app; lia). by rewrite drop_drop, length_app, <- !app_assoc.
Qed.

(** A buffer written from its start. *)
Lemma blits_start {A} (fs : list (list A)) out : blits 0 fs out = concat fs ++ drop (length (concat fs)) out.
Proof. by apply (blits_next fs 0 [] out). Qed.

Lemma be64_get p o : Forall in_u8 p -> 0 <= o -> o + 8 <= zlen p -> be64 (fzn_get_be64 p o) = slice o 8 p.
Proof.
  intros Hp Ho Hl. rewrite get_be64_slice by done. apply be64_be_val.
  split; [apply zlen_slice; lia|]. unfold slice. by apply Forall_take, Forall_drop.
Qed.

Lemma slice_1 (p : bytes) o : 0 <= o -> o + 1 <= zlen p -> slice o 1 p = [peek p o].
Proof. intros. rewrite slice_peek by lia. done. Qed.

Lemma slice_cut (l : bytes) off n m k :
  0 <= off -> 0 <= n -> 0 <= m -> k = n + m -> slice off k l = slice off n l ++ slice (off + n) m l.
Proof. intros ? ? ? ->. symmetry. by apply slice_app. Qed.

(** A byte that a range of one is. *)
Lemma peek_of (p : bytes) o x : 0 <= o -> slice o 1 p = [x] -> peek p o = x.
Proof.
  intros Ho H. transitivity (peek (slice o 1 p) 0); [|by rewrite H].
  rewrite peek_slice by lia. f_equal. lia.
Qed.

(** A range in pieces of the given lengths, one after another. *)
Fixpoint cuts (off : Z) (ns : list Z) (b : bytes) : bytes :=
  match ns with [] => [] | n :: ns => slice off n b ++ cuts (off + n) ns b end.

Lemma cuts_range ns : forall off b, 0 <= off -> Forall (Z.le 0) ns -> cuts off ns b = slice off (foldr Z.add 0 ns) b.
Proof.
  induction ns as [|n ns IH]; intros off b Ho Hns; cbn [cuts foldr]; [done|]. apply Forall_cons_iff in Hns as [Hn Hns].
  assert (0 <= foldr Z.add 0 ns) by (clear -Hns; induction Hns; cbn; lia). rewrite IH by (done || lia). by apply slice_app.
Qed.

(** A whole string in pieces. *)
Lemma cuts_all ns b : Forall (Z.le 0) ns -> foldr Z.add 0 ns = zlen b -> b = cuts 0 ns b.
Proof. intros Hns Hl. rewrite cuts_range by done. symmetry. apply slice_all. lia. Qed.

Lemma slice_2 (p : bytes) o : 0 <= o -> o + 2 <= zlen p -> slice o 2 p = [peek p o; peek p (o + 1)].
Proof.
  intros Ho Hl. rewrite slice_peek by lia. unfold seqZ. change (Z.to_nat 2) with 2%nat.
  cbn [seq fmap list_fmap]. repeat (apply (f_equal2 cons); [f_equal; lia|]). reflexivity.
Qed.

Lemma slice_4 (p : bytes) o : 0 <= o -> o + 4 <= zlen p ->
  slice o 4 p = [peek p o; peek p (o + 1); peek p (o + 2); peek p (o + 3)].
Proof.
  intros Ho Hl. rewrite slice_peek by lia. unfold seqZ. change (Z.to_nat 4) with 4%nat.
  cbn [seq fmap list_fmap]. repeat (apply (f_equal2 cons); [f_equal; lia|]). reflexivity.
Qed.

Lemma get_be16_val p o : Forall in_u8 p -> fzn_get_be16 p o = peek p o * 256 + peek p (o + 1).
Proof.
  intros Hp. unfold fzn_get_be16. pose proof (peek_range p o Hp). pose proof (peek_range p (o + 1) Hp).
  rewrite Z.shiftl_mul_pow2, lor_add by ulia. rewrite u16_small; [reflexivity|].
  change (2 ^ 8) with 256. ulia.
Qed.

Lemma get_be32_val p o : Forall in_u8 p ->
  fzn_get_be32 p o = ((peek p o * 256 + peek p (o + 1)) * 256 + peek p (o + 2)) * 256 + peek p (o + 3).
Proof.
  intros Hp. unfold fzn_get_be32. pose proof (fun i => peek_range p i Hp) as R.
  rewrite !shiftl_u32 by (auto; lia). rewrite (lor_digit _ _ 16), (lor_digit _ _ 8) by (auto; lia).
  replace (peek p (o + 3)) with (peek p (o + 3) * 2 ^ 0) at 1 by (change (2 ^ 0) with 1; lia).
  rewrite (lor_digit _ _ 0) by (auto; lia). change (2 ^ 24) with 16777216. change (2 ^ 16) with 65536.
  change (2 ^ 8) with 256. change (2 ^ 0) with 1. lia.
Qed.

Lemma get_be16_range p o : Forall in_u8 p -> in_u16 (fzn_get_be16 p o).
Proof.
  intros Hp. rewrite get_be16_val by done. pose proof (peek_range p o Hp).
  pose proof (peek_range p (o + 1) Hp). ulia.
Qed.

Lemma get_be32_range p o : Forall in_u8 p -> in_u32 (fzn_get_be32 p o).
Proof.
  intros Hp. rewrite get_be32_val by done. pose proof (peek_range p o Hp).
  pose proof (peek_range p (o + 1) Hp). pose proof (peek_range p (o + 2) Hp).
  pose proof (peek_range p (o + 3) Hp). ulia.
Qed.

Lemma be16_get p o : Forall in_u8 p -> 0 <= o -> o + 2 <= zlen p -> be16 (fzn_get_be16 p o) = slice o 2 p.
Proof.
  intros Hp Ho Hl. rewrite slice_2, get_be16_val by done. pose proof (peek_range p o Hp).
  pose proof (peek_range p (o + 1) Hp). unfold be16. rewrite Z.shiftr_div_pow2 by lia.
  unfold u8. change (2 ^ 8) with 256. f_equal; [|f_equal]; dlia.
Qed.

Lemma be32_get p o : Forall in_u8 p -> 0 <= o -> o + 4 <= zlen p -> be32 (fzn_get_be32 p o) = slice o 4 p.
Proof.
  intros Hp Ho Hl. rewrite slice_4, get_be32_val by done. pose proof (peek_range p o Hp).
  pose proof (peek_range p (o + 1) Hp). pose proof (peek_range p (o + 2) Hp). pose proof (peek_range p (o + 3) Hp).
  unfold be32. rewrite !Z.shiftr_div_pow2 by lia. unfold u8. change (2 ^ 24) with 16777216.
  change (2 ^ 16) with 65536. change (2 ^ 8) with 256. repeat (apply (f_equal2 cons); [dlia|]). done.
Qed.

Lemma be16_range v : Forall in_u8 (be16 v).
Proof. unfold be16. repeat (apply Forall_cons_iff; split; [apply u8_range|]). constructor. Qed.

Lemma be32_range v : Forall in_u8 (be32 v).
Proof. unfold be32. repeat (apply Forall_cons_iff; split; [apply u8_range|]). constructor. Qed.

Lemma zlen_be16 v : zlen (be16 v) = 2.
Proof. reflexivity. Qed.

Lemma zlen_be32 v : zlen (be32 v) = 4.
Proof. reflexivity. Qed.

Lemma zlen_nil {A} : zlen (@nil A) = 0.
Proof. reflexivity. Qed.

Lemma zlen_cons {A} (x : A) l : zlen (x :: l) = 1 + zlen l.
Proof. unfold zlen. cbn [length]. lia. Qed.

Lemma zlen_1 {A} (x : A) : zlen [x] = 1.
Proof. done. Qed.

Lemma blits_app {A} (fs gs : list (list A)) : forall off out,
  blits off (fs ++ gs) out = blits (off + zlen (concat fs)) gs (blits off fs out).
Proof.
  induction fs as [|f fs IH]; intros off out; cbn [app blits concat]; [by rewrite zlen_nil, Z.add_0_r|].
  rewrite IH, zlen_app. by rewrite Z.add_assoc.
Qed.

(** ** Strings told apart *)

Lemma be64_inj a b : in_u64 a -> in_u64 b -> be64 a = be64 b -> a = b.
Proof.
  intros Ha Hb E. rewrite !be64_digits in E. apply (f_equal (be_val 0)) in E. rewrite !be_val_digits in E.
  change (256 ^ Z.of_nat 8) with (2 ^ 64) in E. rewrite !Z.mod_small in E by (width; lia). done.
Qed.

Lemma be32_inj a b : in_u32 a -> in_u32 b -> be32 a = be32 b -> a = b.
Proof.
  intros Ha Hb H. rewrite <- (get_be32_of (be32 a) 0 a), <- (get_be32_of (be32 a) 0 b); try done; by rewrite slice_all by done.
Qed.

(** Two strings one hash does not tell apart. *)
Definition collide (hash : Z -> bytes -> option bytes) (n : Z) (x y : bytes) : Prop :=
  x <> y /\ exists d, hash n x = Some d /\ hash n y = Some d.

Lemma same_hash (hash : Z -> bytes -> option bytes) n x y d :
  hash n x = Some d -> hash n y = Some d -> x = y \/ collide hash n x y.
Proof. intros Hx Hy. destruct (decide (x = y)); [by left|]. right. split; [done|]. by exists d. Qed.

(** ** The order [memcmp] gives to strings of one length *)

Lemma memcmp_opp a : forall b, memcmp b a = - memcmp a b.
Proof.
  induction a as [|x a IH]; intros [|y b]; cbn; try done.
  destruct (Z.eqb_spec x y), (Z.eqb_spec y x), (Z.ltb_spec x y), (Z.ltb_spec y x); try done; lia.
Qed.

Lemma memcmp_zero a : forall b, length a = length b -> (memcmp a b = 0 <-> a = b).
Proof.
  induction a as [|x a IH]; intros [|y b] Hl; cbn in *; try done. destruct (Z.eqb_spec x y) as [->|].
  - rewrite IH by lia. split; congruence.
  - destruct (x <? y); split; (done || congruence).
Qed.

Lemma memcmp_trans a : forall b c, length a = length b -> length b = length c ->
  memcmp a b <= 0 -> memcmp b c <= 0 -> memcmp a c <= 0.
Proof.
  induction a as [|x a IH]; intros [|y b] [|z c] Hl1 Hl2 H1 H2; cbn in *; try done.
  destruct (Z.eqb_spec x y), (Z.eqb_spec y z), (Z.eqb_spec x z), (Z.ltb_spec x y), (Z.ltb_spec y z), (Z.ltb_spec x z); try lia.
  all: eapply IH; [| |exact H1|exact H2]; lia.
Qed.

Lemma memcmp_gt_trans a b c : length a = length b -> length b = length c -> 0 < memcmp a b -> 0 < memcmp b c -> 0 < memcmp a c.
Proof.
  intros H1 H2 Hab Hbc. pose proof (memcmp_opp a b). pose proof (memcmp_opp b c). pose proof (memcmp_opp a c).
  assert (memcmp c a <= 0) by (apply (memcmp_trans c b a); lia || congruence).
  destruct (decide (memcmp a c = 0)) as [E|]; [|lia]. apply memcmp_zero in E as ->; [lia|congruence].
Qed.
