(* ===== verification/Hop.v ===== *)
(** * chain/chain.c and chain/chain.h: hops and the chain container

    A hop is 179 signed bytes read through accessors; an opened view is those
    bytes. A chain container is a two-byte header and up to eight hops. *)

From S2P Require Import Prelude Bytes.

Definition FZN_PUBKEY_LEN : Z := 32.
Definition FZN_REVOCATION_ID_LEN : Z := 32.
Definition FZN_CAP_ID_LEN : Z := 32.
Definition FZN_SIG_LEN : Z := 64.
Definition FZN_CHAIN_MAX_HOPS : Z := 8.
Definition FZN_NO_EXPIRY : Z := 0.

Inductive fzn_chain_err :=
  | FZN_CHAIN_OK
  | FZN_CHAIN_ERR_MALFORMED
  | FZN_CHAIN_ERR_CHAIN_INVALID
  | FZN_CHAIN_ERR_WRONG_ROOT
  | FZN_CHAIN_ERR_EXPIRED
  | FZN_CHAIN_ERR_REVOKED
  | FZN_CHAIN_ERR_NOT_DELEGABLE
  | FZN_CHAIN_ERR_STORE_FULL
  | FZN_CHAIN_ERR_SHAPE
  | FZN_CHAIN_ERR_UNKNOWN_TARGET
  | FZN_CHAIN_ERR_INCOMPLETE.

#[export] Instance fzn_chain_err_eq_dec : EqDecision fzn_chain_err.
Proof. solve_decision. Defined.

Definition FZN_HOP_BODY_LEN : Z := 115.
Definition FZN_HOP_LEN : Z := FZN_HOP_BODY_LEN + FZN_SIG_LEN.
Definition FZN_HOP_OFF_VERSION : Z := 0.
Definition FZN_HOP_OFF_OBJECT : Z := 1.
Definition FZN_HOP_OFF_GRANTOR : Z := 2.
Definition FZN_HOP_OFF_GRANTEE : Z := 34.
Definition FZN_HOP_OFF_CAPABILITY : Z := 66.
Definition FZN_HOP_OFF_ISSUED_AT : Z := 98.
Definition FZN_HOP_OFF_EXPIRES_AT : Z := 106.
Definition FZN_HOP_OFF_DELEGABLE : Z := 114.
Definition FZN_HOP_OFF_SIGNATURE : Z := FZN_HOP_BODY_LEN.
Definition FZN_CHAIN_HEADER_LEN : Z := 2.

(** An opened view: the bytes at [base]. A view never opened ([base] NULL) is
    [None] where a caller may pass one. *)
Abbreviation fzn_chain_hop := bytes (only parsing).

Definition fzn_hop_grantor (hop : fzn_chain_hop) : bytes :=
  slice FZN_HOP_OFF_GRANTOR FZN_PUBKEY_LEN hop.
Definition fzn_hop_grantee (hop : fzn_chain_hop) : bytes :=
  slice FZN_HOP_OFF_GRANTEE FZN_PUBKEY_LEN hop.
Definition fzn_hop_capability (hop : fzn_chain_hop) : bytes :=
  slice FZN_HOP_OFF_CAPABILITY FZN_CAP_ID_LEN hop.
Definition fzn_hop_issued_at (hop : fzn_chain_hop) : Z := fzn_get_be64 hop FZN_HOP_OFF_ISSUED_AT.
Definition fzn_hop_expires_at (hop : fzn_chain_hop) : Z := fzn_get_be64 hop FZN_HOP_OFF_EXPIRES_AT.
Definition fzn_hop_delegable (hop : fzn_chain_hop) : bool :=
  negb (peek hop FZN_HOP_OFF_DELEGABLE =? 0).
Definition fzn_hop_signature (hop : fzn_chain_hop) : bytes :=
  slice FZN_HOP_OFF_SIGNATURE FZN_SIG_LEN hop.
Definition fzn_hop_signed_bytes (hop : fzn_chain_hop) : bytes := slice 0 FZN_HOP_BODY_LEN hop.

(** The [len] of the call is the length of the bytes. *)
Definition fzn_hop_open (b : option bytes) : fzn_chain_err * option fzn_chain_hop :=
  match b with
  | None => (FZN_CHAIN_ERR_MALFORMED, None)
  | Some b =>
    if negb (zlen b =? FZN_HOP_LEN) then (FZN_CHAIN_ERR_SHAPE, None)
    else if negb (peek b FZN_HOP_OFF_VERSION =? FZN_SIGNED_VERSION) then (FZN_CHAIN_ERR_SHAPE, None)
    else if negb (peek b FZN_HOP_OFF_OBJECT =? FZN_OBJECT_HOP) then (FZN_CHAIN_ERR_SHAPE, None)
    else if peek b FZN_HOP_OFF_DELEGABLE >? 1 then (FZN_CHAIN_ERR_SHAPE, None)
    else (FZN_CHAIN_OK, Some b)
  end.

(** [fzn_hop_encode] past its NULL checks: the writes, in order, into [out]. *)
Definition hop_encode (out grantor grantee capability : bytes) (issued_at expires_at delegable : Z)
    : bytes :=
  let out := poke out FZN_HOP_OFF_VERSION FZN_SIGNED_VERSION in
  let out := poke out FZN_HOP_OFF_OBJECT FZN_OBJECT_HOP in
  let out := blit FZN_HOP_OFF_GRANTOR grantor out in
  let out := blit FZN_HOP_OFF_GRANTEE grantee out in
  let out := blit FZN_HOP_OFF_CAPABILITY capability out in
  let out := fzn_put_be64 out FZN_HOP_OFF_ISSUED_AT issued_at in
  let out := fzn_put_be64 out FZN_HOP_OFF_EXPIRES_AT expires_at in
  let out := poke out FZN_HOP_OFF_DELEGABLE (if delegable =? 0 then 0 else 1) in
  blit FZN_HOP_OFF_SIGNATURE (zeros FZN_SIG_LEN) out.

Definition fzn_hop_encode (out grantor grantee capability : option bytes)
    (issued_at expires_at delegable : Z) : fzn_chain_err * option bytes :=
  match out, grantor, grantee, capability with
  | Some o, Some gr, Some ge, Some c =>
    (FZN_CHAIN_OK, Some (hop_encode o gr ge c issued_at expires_at delegable))
  | _, _, _, _ => (FZN_CHAIN_ERR_MALFORMED, out)
  end.

(** The hops of a container from hop [i] on, [n] to go: the first that does
    not open refuses the whole. *)
Fixpoint open_hops (b : bytes) (i : Z) (n : nat) : fzn_chain_err * list fzn_chain_hop :=
  match n with
  | O => (FZN_CHAIN_OK, [])
  | S n =>
    match fzn_hop_open (Some (slice (FZN_CHAIN_HEADER_LEN + i * FZN_HOP_LEN) FZN_HOP_LEN b)) with
    | (FZN_CHAIN_OK, Some hop) =>
      match open_hops b (i + 1) n with
      | (FZN_CHAIN_OK, hops) => (FZN_CHAIN_OK, hop :: hops)
      | (err, _) => (err, [])
      end
    | (err, _) => (err, [])
    end
  end.

(** The views and their count, which the call sets only when it answers OK. *)
Definition fzn_chain_open (b : option bytes) : fzn_chain_err * list fzn_chain_hop :=
  match b with
  | None => (FZN_CHAIN_ERR_MALFORMED, [])
  | Some b =>
    if zlen b <? FZN_CHAIN_HEADER_LEN then (FZN_CHAIN_ERR_SHAPE, [])
    else if negb (peek b 0 =? FZN_SIGNED_VERSION) then (FZN_CHAIN_ERR_SHAPE, [])
    else
      let n := peek b 1 in
      if (n =? 0) || (n >? FZN_CHAIN_MAX_HOPS) then (FZN_CHAIN_ERR_SHAPE, [])
      else if negb (zlen b =? FZN_CHAIN_HEADER_LEN + n * FZN_HOP_LEN) then (FZN_CHAIN_ERR_SHAPE, [])
      else open_hops b 0 (Z.to_nat n)
  end.

(** The copying loop of [fzn_chain_pack] from hop [i] on. *)
Fixpoint pack_hops (hops : list fzn_chain_hop) (i : Z) (out : bytes) : bytes :=
  match hops with
  | [] => out
  | hop :: hops =>
    pack_hops hops (i + 1)
      (blit (FZN_CHAIN_HEADER_LEN + i * FZN_HOP_LEN) (slice 0 FZN_HOP_LEN hop) out)
  end.

(** Every view opened, or [None]. *)
Definition opened (hops : list (option fzn_chain_hop)) : option (list fzn_chain_hop) :=
  mapM (fun h => h) hops.

(** [out] holds [cap] bytes; the result is the buffer and [*len]. *)
Definition fzn_chain_pack (hops : list (option fzn_chain_hop)) (out : bytes)
    : fzn_chain_err * bytes * Z :=
  let hop_count := zlen hops in
  if (hop_count =? 0) || (hop_count >? FZN_CHAIN_MAX_HOPS) then (FZN_CHAIN_ERR_MALFORMED, out, 0)
  else
    let need := FZN_CHAIN_HEADER_LEN + hop_count * FZN_HOP_LEN in
    if zlen out <? need then (FZN_CHAIN_ERR_MALFORMED, out, 0)
    else match opened hops with
    | None => (FZN_CHAIN_ERR_MALFORMED, out, 0)
    | Some hs =>
      let out := poke out 0 FZN_SIGNED_VERSION in
      let out := poke out 1 hop_count in
      (FZN_CHAIN_OK, pack_hops hs 0 out, need)
    end.

(** ** The layout *)

Lemma hop_encode_layout out gr ge c iat exp dl :
  zlen out = FZN_HOP_LEN -> is_bytes 32 gr -> is_bytes 32 ge -> is_bytes 32 c ->
  hop_encode out gr ge c iat exp dl =
    [1; 128] ++ gr ++ ge ++ c ++ be64 iat ++ be64 exp ++ [if dl =? 0 then 0 else 1] ++ zeros 64.
Proof.
  intros Hout [Hgr _] [Hge _] [Hc _]. unfold hop_encode, poke, fzn_put_be64.
  change out with ([] ++ out).
  rewrite (blit_next [] out [u8 FZN_SIGNED_VERSION]) by done.
  erewrite blit_next by done. erewrite blit_next by done.
  erewrite blit_next by (rewrite !zlen_app, Hgr; done).
  erewrite blit_next by (rewrite !zlen_app, Hgr, Hge; done).
  erewrite blit_next by (rewrite !zlen_app, Hgr, Hge, Hc; done).
  erewrite blit_next by (rewrite !zlen_app, Hgr, Hge, Hc; done).
  erewrite blit_next by (rewrite !zlen_app, Hgr, Hge, Hc; done).
  erewrite blit_last.
  - rewrite <- !app_assoc. cbn [app]. destruct (dl =? 0); reflexivity.
  - rewrite !zlen_app, Hgr, Hge, Hc. done.
  - rewrite !length_drop. change FZN_HOP_LEN with 179 in Hout. unfold zlen in *.
    unfold zeros. rewrite length_replicate. change (Z.to_nat FZN_SIG_LEN) with 64%nat.
    cbn [length be64]. lia.
Qed.

(** The one encoding of a hop's fields. *)
Definition hop_bytes (gr ge c : bytes) (iat exp dl : Z) (sig : bytes) : bytes :=
  [1; 128] ++ gr ++ ge ++ c ++ be64 iat ++ be64 exp ++ [dl] ++ sig.

(** The length of a prefix of the layout, against an offset. *)
Ltac layout :=
  rewrite ?zlen_app, ?zlen_be64; change (zlen [1; 128]) with 2;
  repeat match goal with |- context [zlen [?x]] => change (zlen [x]) with 1 end;
  unfold FZN_HOP_OFF_GRANTOR, FZN_HOP_OFF_GRANTEE, FZN_HOP_OFF_CAPABILITY, FZN_HOP_OFF_ISSUED_AT,
    FZN_HOP_OFF_EXPIRES_AT, FZN_HOP_OFF_DELEGABLE, FZN_HOP_OFF_SIGNATURE, FZN_HOP_BODY_LEN; lia.

Section Fields.
Context (gr ge c sig : bytes) (iat exp dl : Z).
Context (Hgr : is_bytes 32 gr) (Hge : is_bytes 32 ge) (Hc : is_bytes 32 c).
Context (Hiat : in_u64 iat) (Hexp : in_u64 exp) (Hdl : in_u8 dl) (Hsig : is_bytes 64 sig).

Let h := hop_bytes gr ge c iat exp dl sig.

Lemma hop_bytes_is : is_bytes FZN_HOP_LEN h.
Proof using Hgr Hge Hc Hdl Hsig.
  unfold h, hop_bytes. change FZN_HOP_LEN with (2 + (32 + (32 + (32 + (8 + (8 + (1 + 64))))))).
  repeat apply is_bytes_app; auto; split; try reflexivity; auto using be64_range;
    repeat constructor; try ulia; apply Hdl.
Qed.

Lemma hop_bytes_grantor : fzn_hop_grantor h = gr.
Proof using Hgr. destruct Hgr. by apply slice_mid. Qed.

Lemma hop_bytes_grantee : fzn_hop_grantee h = ge.
Proof using Hgr Hge.
  destruct Hgr, Hge. unfold h, hop_bytes. rewrite (app_assoc [1; 128]).
  apply slice_mid; [layout|done].
Qed.

Lemma hop_bytes_capability : fzn_hop_capability h = c.
Proof using Hgr Hge Hc.
  destruct Hgr, Hge, Hc. unfold h, hop_bytes. rewrite (app_assoc gr), (app_assoc [1; 128]).
  apply slice_mid; [layout|done].
Qed.

Lemma hop_bytes_at_times post1 post2 :
  h = ([1; 128] ++ gr ++ ge ++ c) ++ be64 iat ++ post1 ->
  h = ([1; 128] ++ gr ++ ge ++ c ++ be64 iat) ++ be64 exp ++ post2 ->
  fzn_hop_issued_at h = iat /\ fzn_hop_expires_at h = exp.
Proof using Hgr Hge Hc Hiat Hexp Hdl Hsig.
  intros E1 E2. pose proof hop_bytes_is as [Hl Hr]. destruct Hgr, Hge, Hc.
  unfold fzn_hop_issued_at, fzn_hop_expires_at.
  rewrite !get_be64_slice by (rewrite ?Hl; auto; done).
  split; [rewrite E1|rewrite E2]; rewrite slice_mid;
    first [apply be_val_be64; assumption | reflexivity | layout].
Qed.

Lemma hop_bytes_times : fzn_hop_issued_at h = iat /\ fzn_hop_expires_at h = exp.
Proof using Hgr Hge Hc Hiat Hexp Hdl Hsig.
  eapply hop_bytes_at_times; unfold h, hop_bytes; rewrite <- !app_assoc; reflexivity.
Qed.

Lemma hop_bytes_tail :
  h = ([1; 128] ++ gr ++ ge ++ c ++ be64 iat ++ be64 exp) ++ dl :: sig.
Proof using Type. unfold h, hop_bytes. rewrite <- !app_assoc. reflexivity. Qed.

Lemma hop_bytes_delegable : peek h FZN_HOP_OFF_DELEGABLE = dl.
Proof using Hgr Hge Hc.
  destruct Hgr, Hge, Hc. rewrite hop_bytes_tail. apply peek_mid. layout.
Qed.

Lemma hop_bytes_signed :
  fzn_hop_signed_bytes h = [1; 128] ++ gr ++ ge ++ c ++ be64 iat ++ be64 exp ++ [dl] /\
  fzn_hop_signature h = sig.
Proof using Hgr Hge Hc Hsig.
  destruct Hgr, Hge, Hc, Hsig. unfold fzn_hop_signed_bytes, fzn_hop_signature.
  assert (h = [] ++ ([1; 128] ++ gr ++ ge ++ c ++ be64 iat ++ be64 exp ++ [dl]) ++ sig) as E1
    by (unfold h, hop_bytes; rewrite <- !app_assoc; reflexivity).
  assert (h = ([1; 128] ++ gr ++ ge ++ c ++ be64 iat ++ be64 exp ++ [dl]) ++ sig ++ []) as E2
    by (rewrite E1, !app_nil_r; reflexivity).
  split; [rewrite E1|rewrite E2]; apply slice_mid; auto; layout.
Qed.

Lemma hop_bytes_opens : dl <= 1 -> fzn_hop_open (Some h) = (FZN_CHAIN_OK, Some h).
Proof using Hgr Hge Hc Hdl Hsig.
  intros Hd. pose proof hop_bytes_is as [Hl _]. unfold fzn_hop_open.
  rewrite Hl, hop_bytes_delegable. change (peek h FZN_HOP_OFF_VERSION) with 1.
  change (peek h FZN_HOP_OFF_OBJECT) with 128. cbn.
  destruct (Z.gtb_spec dl 1); [lia|done].
Qed.
End Fields.

(** What [fzn_hop_open] accepts. *)
Lemma hop_open_inv b hop :
  fzn_hop_open (Some b) = (FZN_CHAIN_OK, Some hop) ->
  hop = b /\ zlen b = FZN_HOP_LEN /\ peek b 0 = 1 /\ peek b 1 = 128 /\ peek b 114 <= 1.
Proof.
  unfold fzn_hop_open. intros H. guards; simplify_eq. bool_props.
  unfold FZN_SIGNED_VERSION, FZN_OBJECT_HOP, FZN_HOP_OFF_VERSION, FZN_HOP_OFF_OBJECT,
    FZN_HOP_OFF_DELEGABLE in *. split_and!; lia || done.
Qed.

(** An opened hop is the encoding of what its accessors read. *)
Lemma hop_open_canonical b hop :
  Forall in_u8 b -> fzn_hop_open (Some b) = (FZN_CHAIN_OK, Some hop) ->
  hop = b /\
  b = hop_bytes (fzn_hop_grantor b) (fzn_hop_grantee b) (fzn_hop_capability b)
        (fzn_hop_issued_at b) (fzn_hop_expires_at b) (if fzn_hop_delegable b then 1 else 0)
        (fzn_hop_signature b).
Proof.
  intros Hr Ho. apply hop_open_inv in Ho as (-> & Hl & H0 & H1 & Hd). split; [done|].
  unfold hop_bytes, fzn_hop_issued_at, fzn_hop_expires_at.
  change FZN_HOP_LEN with 179 in Hl.
  assert (forall o, 0 <= o -> o + 8 <= 179 -> be64 (fzn_get_be64 b o) = slice o 8 b) as Hg.
  { intros o ? ?. rewrite get_be64_slice by (rewrite ?Hl; done).
    apply be64_be_val, (is_bytes_slice _ _ 179); by try lia. }
  rewrite !Hg by done.
  assert ([if fzn_hop_delegable b then 1 else 0] = slice 114 1 b) as ->.
  { rewrite slice_1 by lia. unfold fzn_hop_delegable, FZN_HOP_OFF_DELEGABLE.
    pose proof (peek_range b 114 Hr). f_equal. destruct (peek b 114 =? 0) eqn:E; cbn; width; lia. }
  assert ([1; 128] = slice 0 2 b) as ->.
  { rewrite (slice_cut b 0 1 1), !slice_1 by lia. change (0 + 1) with 1. by rewrite H0, H1. }
  rewrite <- (slice_all 179 b) at 1 by lia.
  rewrite (slice_cut b 0 2 177), (slice_cut b (0 + 2) 32 145), (slice_cut b (0 + 2 + 32) 32 113),
    (slice_cut b (0 + 2 + 32 + 32) 32 81), (slice_cut b (0 + 2 + 32 + 32 + 32) 8 73),
    (slice_cut b (0 + 2 + 32 + 32 + 32 + 8) 8 65), (slice_cut b (0 + 2 + 32 + 32 + 32 + 8 + 8) 1 64)
    by lia.
  reflexivity.
Qed.

(** One encoding per hop. Encoding into any 179-byte buffer, whatever it
    held, gives bytes that open; every accessor reads back the field that was
    encoded and the signed range is the body; and whatever bytes off the wire
    open are exactly the encoding of the fields their accessors read, so two
    different encodings of one grant cannot both be accepted. *)
Theorem hop_roundtrip out gr ge c iat exp dl b :
  zlen out = FZN_HOP_LEN -> is_bytes 32 gr -> is_bytes 32 ge -> is_bytes 32 c ->
  in_u64 iat -> in_u64 exp -> Forall in_u8 b ->
  (exists h, fzn_hop_encode (Some out) (Some gr) (Some ge) (Some c) iat exp dl
               = (FZN_CHAIN_OK, Some h) /\
     fzn_hop_open (Some h) = (FZN_CHAIN_OK, Some h) /\
     fzn_hop_grantor h = gr /\ fzn_hop_grantee h = ge /\ fzn_hop_capability h = c /\
     fzn_hop_issued_at h = iat /\ fzn_hop_expires_at h = exp /\
     fzn_hop_delegable h = negb (dl =? 0) /\ fzn_hop_signature h = zeros 64) /\
  (forall hop, fzn_hop_open (Some b) = (FZN_CHAIN_OK, Some hop) ->
     b = hop_bytes (fzn_hop_grantor hop) (fzn_hop_grantee hop) (fzn_hop_capability hop)
           (fzn_hop_issued_at hop) (fzn_hop_expires_at hop)
           (if fzn_hop_delegable hop then 1 else 0) (fzn_hop_signature hop)).
Proof.
  intros Hout Hgr Hge Hc Hiat Hexp Hb. split.
  - set (d := if dl =? 0 then 0 else 1).
    assert (Hd : in_u8 d) by (unfold d; destruct (dl =? 0); ulia).
    assert (Hz : is_bytes 64 (zeros 64)) by (split; [by apply zlen_zeros|apply zeros_range]).
    exists (hop_bytes gr ge c iat exp d (zeros 64)).
    split; [cbn; by rewrite hop_encode_layout by done|].
    destruct (hop_bytes_times gr ge c (zeros 64) iat exp d) as [-> ->]; auto.
    destruct (hop_bytes_signed gr ge c (zeros 64) iat exp d) as [_ ->]; auto.
    rewrite hop_bytes_grantor, hop_bytes_grantee, hop_bytes_capability by auto.
    unfold fzn_hop_delegable. rewrite hop_bytes_delegable by auto.
    split_and!; auto; [apply hop_bytes_opens; auto|]; unfold d; by destruct (dl =? 0).
  - intros hop Ho. destruct (hop_open_canonical b hop Hb Ho) as [-> E]. exact E.
Qed.

Definition demo_key (x : Z) : bytes := replicate 32 x.

Lemma demo_key_is x : in_u8 x -> is_bytes 32 (demo_key x).
Proof. intros. split; [reflexivity|]. by apply Forall_replicate. Qed.

Lemma hop_roundtrip_witness :
  exists h, fzn_hop_encode (Some (replicate 179 7)) (Some (demo_key 1)) (Some (demo_key 2))
              (Some (demo_key 3)) 100 258 5 = (FZN_CHAIN_OK, Some h) /\
    fzn_hop_open (Some h) = (FZN_CHAIN_OK, Some h) /\ fzn_hop_expires_at h = 258.
Proof.
  destruct (hop_roundtrip (replicate 179 7) (demo_key 1) (demo_key 2) (demo_key 3) 100 258 5 [])
    as [(h & He & Ho & _ & _ & _ & _ & Hx & _) _].
  - reflexivity.
  - apply demo_key_is. ulia.
  - apply demo_key_is. ulia.
  - apply demo_key_is. ulia.
  - ulia.
  - ulia.
  - constructor.
  - exists h. auto.
Defined.

(** ** The container *)

(** A hop as [fzn_hop_open] leaves it. *)
Definition hop_ok (h : fzn_chain_hop) : Prop := fzn_hop_open (Some h) = (FZN_CHAIN_OK, Some h).

Lemma hop_ok_len h : hop_ok h -> zlen h = 179.
Proof. intros H. by apply hop_open_inv in H as (_ & ? & _). Qed.

Lemma zlen_concat_hops hs : Forall hop_ok hs -> zlen (concat hs) = zlen hs * 179.
Proof.
  induction 1 as [|h hs Hh _ IH]; [done|]. cbn [concat]. rewrite zlen_app, IH, (hop_ok_len h Hh).
  unfold zlen. cbn [length]. lia.
Qed.

Lemma pack_hops_layout hs : forall i pre rest,
  Forall hop_ok hs -> 0 <= i -> zlen pre = 2 + i * 179 ->
  pack_hops hs i (pre ++ rest) = pre ++ concat hs ++ drop (length (concat hs)) rest.
Proof.
  induction hs as [|h hs IH]; intros i pre rest Hhs Hi Hpre; cbn [pack_hops concat app length]; [done|].
  apply Forall_cons_iff in Hhs as [Hh Hhs]. pose proof (hop_ok_len h Hh) as Hl.
  rewrite slice_all by (change FZN_HOP_LEN with 179; lia).
  rewrite blit_next by (change FZN_HOP_LEN with 179; unfold FZN_CHAIN_HEADER_LEN; lia).
  rewrite IH by (auto; rewrite ?zlen_app; lia).
  rewrite <- !app_assoc, drop_drop, length_app. done.
Qed.

Lemma open_hops_concat hs : forall i pre,
  Forall hop_ok hs -> 0 <= i -> zlen pre = 2 + i * 179 ->
  open_hops (pre ++ concat hs) i (length hs) = (FZN_CHAIN_OK, hs).
Proof.
  induction hs as [|h hs IH]; intros i pre Hhs Hi Hpre; cbn [open_hops concat length]; [done|].
  apply Forall_cons_iff in Hhs as [Hh Hhs]. pose proof (hop_ok_len h Hh) as Hl.
  rewrite slice_mid by (change FZN_HOP_LEN with 179; unfold FZN_CHAIN_HEADER_LEN; lia).
  rewrite Hh, app_assoc, IH by (auto; rewrite ?zlen_app; lia). done.
Qed.

Lemma open_hops_inv b n : forall i hs,
  0 <= i -> 2 + (i + Z.of_nat n) * 179 <= zlen b ->
  open_hops b i n = (FZN_CHAIN_OK, hs) ->
  Forall hop_ok hs /\ length hs = n /\ concat hs = slice (2 + i * 179) (Z.of_nat n * 179) b.
Proof.
  induction n as [|n IH]; intros i hs Hi Hl H; cbn [open_hops] in H.
  - simplify_eq. split_and!; [constructor|done|]. unfold slice. by rewrite take_0.
  - change FZN_CHAIN_HEADER_LEN with 2 in H. change FZN_HOP_LEN with 179 in H.
    destruct (fzn_hop_open _) as [err [hop|]] eqn:Ho; destruct err; simplify_eq;
      [|unfold fzn_hop_open in Ho; by guards].
    pose proof (hop_open_inv _ _ Ho) as (-> & _).
    destruct (open_hops b (i + 1) n) as [err hs'] eqn:Hn. destruct err; simplify_eq.
    destruct (IH (i + 1) hs') as (Hok & Hlen & Hc); [lia|lia|done|].
    split_and!; [by constructor|cbn; lia|]. cbn [concat]. rewrite Hc.
    rewrite (slice_cut b (2 + i * 179) 179 (Z.of_nat n * 179) (Z.of_nat (S n) * 179)) by lia.
    by replace (2 + (i + 1) * 179) with (2 + i * 179 + 179) by lia.
Qed.

Lemma opened_some hs : opened (Some <$> hs) = Some hs.
Proof.
  unfold opened. induction hs as [|h hs IH]; [done|]. cbn in *. by rewrite IH.
Qed.

(** The header of a container in a buffer at least that long. *)
Lemma pack_layout hs out :
  Forall hop_ok hs -> 0 < zlen hs <= 8 -> 2 + zlen hs * 179 <= zlen out ->
  exists rest, fzn_chain_pack (Some <$> hs) out =
    (FZN_CHAIN_OK, ([1; zlen hs] ++ concat hs) ++ rest, 2 + zlen hs * 179) /\
    zlen rest = zlen out - (2 + zlen hs * 179).
Proof.
  intros Hhs Hn Hcap. pose proof (zlen_concat_hops hs Hhs) as Hc.
  unfold fzn_chain_pack. replace (zlen (Some <$> hs)) with (zlen hs)
    by (unfold zlen; by rewrite length_fmap).
  change FZN_CHAIN_MAX_HOPS with 8. change FZN_CHAIN_HEADER_LEN with 2. change FZN_HOP_LEN with 179.
  destruct (Z.eqb_spec (zlen hs) 0); [lia|]. destruct (Z.gtb_spec (zlen hs) 8); [lia|]. cbn [orb].
  destruct (Z.ltb_spec (zlen out) (2 + zlen hs * 179)); [lia|]. rewrite opened_some.
  unfold poke. rewrite (blit_next [] out) by done. rewrite blit_next by done.
  rewrite drop_drop, (u8_small (zlen hs)) by ulia.
  rewrite pack_hops_layout by (done || lia).
  eexists. split; [rewrite <- app_assoc; reflexivity|].
  unfold zlen in *. rewrite !length_drop. cbn [length]. lia.
Qed.

(** What was packed opens. *)
Lemma packed_opens hs out :
  Forall hop_ok hs -> 0 < zlen hs <= 8 -> 2 + zlen hs * 179 <= zlen out ->
  exists out' len, fzn_chain_pack (Some <$> hs) out = (FZN_CHAIN_OK, out', len) /\ zlen out' = zlen out /\
    len = 2 + zlen hs * 179 /\ fzn_chain_open (Some (slice 0 len out')) = (FZN_CHAIN_OK, hs).
Proof.
  intros Hhs Hn Hcap. pose proof (zlen_concat_hops hs Hhs) as Hc.
  destruct (pack_layout hs out Hhs Hn Hcap) as (rest & -> & Hr). do 2 eexists. split; [done|].
  assert (zlen ([1; zlen hs] ++ concat hs) = 2 + zlen hs * 179) as Hlen
    by (rewrite zlen_app, Hc; done).
  split; [rewrite zlen_app; lia|]. split; [done|].
  rewrite <- (app_nil_l (([1; zlen hs] ++ _) ++ _)), slice_mid by done.
  unfold fzn_chain_open. rewrite Hlen. change (peek ([1; zlen hs] ++ concat hs) 0) with 1.
  change (peek ([1; zlen hs] ++ concat hs) 1) with (zlen hs).
  change FZN_CHAIN_MAX_HOPS with 8. change FZN_CHAIN_HEADER_LEN with 2. change FZN_HOP_LEN with 179.
  destruct (Z.ltb_spec (2 + zlen hs * 179) 2); [lia|]. cbn [Z.eqb negb Pos.eqb FZN_SIGNED_VERSION].
  destruct (Z.eqb_spec (zlen hs) 0); [lia|]. destruct (Z.gtb_spec (zlen hs) 8); [lia|].
  rewrite Z.eqb_refl. cbn [orb negb].
  replace (Z.to_nat (zlen hs)) with (length hs) by (unfold zlen; lia).
  by apply open_hops_concat.
Qed.

(** One container per chain. Packing one to eight opened hops into a large
    enough buffer and opening the bytes written gives back the same hops in
    order; and whatever container opens, packing its hops reproduces it byte
    for byte, so nothing can ride along in a chain that opens. *)
Theorem container_roundtrip hs out b :
  Forall hop_ok hs -> 0 < zlen hs <= 8 -> 2 + zlen hs * 179 <= zlen out -> Forall in_u8 b ->
  (exists out' len, fzn_chain_pack (Some <$> hs) out = (FZN_CHAIN_OK, out', len) /\
     zlen out' = zlen out /\ fzn_chain_open (Some (slice 0 len out')) = (FZN_CHAIN_OK, hs)) /\
  (forall hs', fzn_chain_open (Some b) = (FZN_CHAIN_OK, hs') ->
     Forall hop_ok hs' /\ 0 < zlen hs' <= 8 /\
     fzn_chain_pack (Some <$> hs') (zeros (zlen b)) = (FZN_CHAIN_OK, b, zlen b)).
Proof.
  intros Hhs Hn Hcap Hb. split.
  - destruct (packed_opens hs out Hhs Hn Hcap) as (out' & len & H1 & H2 & _ & H3). eauto.
  - intros hs' Ho. unfold fzn_chain_open in Ho.
    change FZN_CHAIN_MAX_HOPS with 8 in Ho. change FZN_CHAIN_HEADER_LEN with 2 in Ho.
    change FZN_HOP_LEN with 179 in Ho. pose proof (peek_range b 1 Hb).
    guards; simplify_eq. bool_props. width.
    apply open_hops_inv in Ho as (Hok & Hlen & Hcat); [|lia|lia].
    assert (zlen hs' = peek b 1) as Hz by (unfold zlen; lia).
    split; [done|]. split; [lia|].
    destruct (pack_layout hs' (zeros (zlen b))) as (rest & -> & Hr); auto; [lia| |].
    { rewrite zlen_zeros by (pose proof (zlen_nonneg b); lia). lia. }
    rewrite zlen_zeros in Hr by (pose proof (zlen_nonneg b); lia).
    assert (rest = []) as -> by (destruct rest; [done|]; unfold zlen in *; cbn [length] in *; lia).
    rewrite app_nil_r. f_equal; [|lia]. f_equal. rewrite Hcat, Hz.
    replace [1; peek b 1] with (slice 0 2 b).
    + rewrite <- (slice_cut b 0 2 _ (zlen b)) by lia. by apply slice_all.
    + rewrite (slice_cut b 0 1 1), !slice_1 by lia. change (0 + 1) with 1. cbn [app].
      do 2 f_equal. unfold FZN_SIGNED_VERSION in *. lia.
Qed.

Definition demo_hop : bytes := hop_bytes (demo_key 1) (demo_key 2) (demo_key 3) 100 258 1 (zeros 64).

Lemma container_roundtrip_witness :
  exists out' len, fzn_chain_pack [Some demo_hop; Some demo_hop] (zeros 400)
                     = (FZN_CHAIN_OK, out', len) /\
    fzn_chain_open (Some (slice 0 len out')) = (FZN_CHAIN_OK, [demo_hop; demo_hop]).
Proof.
  destruct (container_roundtrip [demo_hop; demo_hop] (zeros 400) []) as [(out' & len & H1 & _ & H2) _].
  - repeat constructor; vm_compute; reflexivity.
  - vm_compute. split; [reflexivity|discriminate].
  - vm_compute. discriminate.
  - constructor.
  - exists out', len. auto.
Defined.
