(* ===== verification/Revocation.v ===== *)
(** * chain/revocation.c: the revocation record and what a store answers

    The record and its minting, the store, and the read side: which hops of a
    chain are revoked, by the k-of-n rule with epochs, admins, confirmations
    and a root set. Admission is in [RevocationAdmit]. Byte comparisons are
    [memeq], which [Bytes.ct_memeq_correct] shows the constant-time comparison
    to be. *)

From S2P Require Import Prelude Rounds Bytes Hop.

(** ** Seams: code a consumer supplies

    [verify], [sign] and a hash may be missing ([None]). A root set or an act
    log that a store holds has its functions: the setters, which take tables
    of functions any of which may be NULL, refuse one without. An operation
    that answers 0 gives [None] or [false]. *)

Record fzn_sign_ops := mk_sign {
  verify : option (bytes -> bytes -> bytes -> bool);   (** key, message, signature *)
  sign : option (bytes -> option bytes)
}.

(** [hash(ctx, out, out_len, in, in_len)] *)
Definition fzn_hash_ops : Type := Z -> bytes -> option bytes.

(** A hash answers as many bytes as it was asked for. Every hash of the source
    is asked for 32. *)
Definition hash_fits (hash : fzn_hash_ops) : Prop := forall b d, hash 32 b = Some d -> is_bytes 32 d.

Record fzn_root_ops := mk_root_ops {
  member : bytes -> bool;
  root_counts : bytes -> bytes -> bool
}.

(** [stands(ctx, key, cut, act)] *)
Definition fzn_act_log_ops : Type := bytes -> bytes -> bytes -> bool.

(** ** The record *)

Definition FZN_REVOCATION_BODY_LEN : Z := 178.
Definition FZN_REVOCATION_LEN : Z := FZN_REVOCATION_BODY_LEN + FZN_SIG_LEN.
Definition FZN_REV_OFF_VERSION : Z := 0.
Definition FZN_REV_OFF_OBJECT : Z := 1.
Definition FZN_REV_OFF_CAPABILITY : Z := 2.
Definition FZN_REV_OFF_GRANTEE : Z := 34.
Definition FZN_REV_OFF_ISSUER : Z := 66.
Definition FZN_REV_OFF_ISSUED_AT : Z := 98.
Definition FZN_REV_OFF_SUPERSEDES : Z := 106.
Definition FZN_REV_OFF_EPOCH : Z := 138.
Definition FZN_REV_OFF_CUT : Z := 146.
Definition FZN_REV_OFF_SIGNATURE : Z := FZN_REVOCATION_BODY_LEN.

Definition fzn_revocation_capability (rec : bytes) : bytes :=
  slice FZN_REV_OFF_CAPABILITY FZN_CAP_ID_LEN rec.
Definition fzn_revocation_grantee (rec : bytes) : bytes :=
  slice FZN_REV_OFF_GRANTEE FZN_PUBKEY_LEN rec.
Definition fzn_revocation_issuer (rec : bytes) : bytes :=
  slice FZN_REV_OFF_ISSUER FZN_PUBKEY_LEN rec.
Definition fzn_revocation_issued_at (rec : bytes) : Z := fzn_get_be64 rec FZN_REV_OFF_ISSUED_AT.
Definition fzn_revocation_supersedes (rec : bytes) : bytes :=
  slice FZN_REV_OFF_SUPERSEDES FZN_REVOCATION_ID_LEN rec.
Definition fzn_revocation_epoch (rec : bytes) : Z := fzn_get_be64 rec FZN_REV_OFF_EPOCH.
Definition fzn_revocation_cut (rec : bytes) : bytes :=
  slice FZN_REV_OFF_CUT FZN_REVOCATION_ID_LEN rec.
Definition fzn_revocation_signature (rec : bytes) : bytes :=
  slice FZN_REV_OFF_SIGNATURE FZN_SIG_LEN rec.
Definition fzn_revocation_signed_bytes (rec : bytes) : bytes :=
  slice 0 FZN_REVOCATION_BODY_LEN rec.
Definition fzn_revocation_is_withdrawal (rec : bytes) : bool :=
  peek rec FZN_REV_OFF_OBJECT =? FZN_OBJECT_WITHDRAWAL.

(** [seen |= p[i]] over the bytes, tested against zero at the end. *)
Definition all_zero (p : bytes) : bool := fold_left (fun seen x => u8 (Z.lor seen x)) p 0 =? 0.

Definition fzn_revocation_open (b : option bytes) : fzn_chain_err * option bytes :=
  match b with
  | None => (FZN_CHAIN_ERR_MALFORMED, None)
  | Some b =>
    let object := peek b FZN_REV_OFF_OBJECT in
    if negb (zlen b =? FZN_REVOCATION_LEN) then (FZN_CHAIN_ERR_SHAPE, None)
    else if negb (peek b FZN_REV_OFF_VERSION =? FZN_SIGNED_VERSION) then (FZN_CHAIN_ERR_SHAPE, None)
    else if negb (object =? FZN_OBJECT_REVOCATION) && negb (object =? FZN_OBJECT_WITHDRAWAL)
    then (FZN_CHAIN_ERR_SHAPE, None)
    else if (object =? FZN_OBJECT_WITHDRAWAL)
            && all_zero (slice FZN_REV_OFF_SUPERSEDES FZN_REVOCATION_ID_LEN b)
    then (FZN_CHAIN_ERR_SHAPE, None)
    else if (object =? FZN_OBJECT_WITHDRAWAL)
            && negb (all_zero (slice FZN_REV_OFF_CUT FZN_REVOCATION_ID_LEN b))
    then (FZN_CHAIN_ERR_SHAPE, None)
    else (FZN_CHAIN_OK, Some b)
  end.

(** The writes of [fzn_revocation_encode], past its refusals. *)
Definition rev_write (out : bytes) (object : Z) (issuer capability grantee : bytes)
    (issued_at epoch : Z) (supersedes cut : option bytes) : bytes :=
  let out := poke out FZN_REV_OFF_VERSION FZN_SIGNED_VERSION in
  let out := poke out FZN_REV_OFF_OBJECT object in
  let out := blit FZN_REV_OFF_CAPABILITY capability out in
  let out := blit FZN_REV_OFF_GRANTEE grantee out in
  let out := blit FZN_REV_OFF_ISSUER issuer out in
  let out := fzn_put_be64 out FZN_REV_OFF_ISSUED_AT issued_at in
  let out := blit FZN_REV_OFF_SUPERSEDES (default (zeros FZN_REVOCATION_ID_LEN) supersedes) out in
  let out := fzn_put_be64 out FZN_REV_OFF_EPOCH epoch in
  let out := blit FZN_REV_OFF_CUT (default (zeros FZN_REVOCATION_ID_LEN) cut) out in
  blit FZN_REV_OFF_SIGNATURE (zeros FZN_SIG_LEN) out.

(** The required pointers are given; [supersedes] and [cut] may be NULL. *)
Definition fzn_revocation_encode (out : bytes) (object : Z) (issuer capability grantee : bytes)
    (issued_at epoch : Z) (supersedes cut : option bytes) : fzn_chain_err * bytes :=
  if negb (object =? FZN_OBJECT_REVOCATION) && negb (object =? FZN_OBJECT_WITHDRAWAL)
  then (FZN_CHAIN_ERR_MALFORMED, out)
  else if (object =? FZN_OBJECT_WITHDRAWAL)
          && match supersedes with None => true | Some s => all_zero s end
  then (FZN_CHAIN_ERR_MALFORMED, out)
  else if (object =? FZN_OBJECT_WITHDRAWAL)
          && match cut with None => false | Some c => negb (all_zero c) end
  then (FZN_CHAIN_ERR_MALFORMED, out)
  else (FZN_CHAIN_OK, rev_write out object issuer capability grantee issued_at epoch supersedes cut).

Definition mint (object : Z) (issuer capability grantee : bytes) (issued_at epoch : Z)
    (supersedes cut : option bytes) (ops : fzn_sign_ops) (out : bytes) : fzn_chain_err * bytes :=
  match sign ops with
  | None => (FZN_CHAIN_ERR_MALFORMED, out)
  | Some sign =>
    match fzn_revocation_encode out object issuer capability grantee issued_at epoch supersedes cut with
    | (FZN_CHAIN_OK, out) =>
      match fzn_revocation_open (Some (slice 0 FZN_REVOCATION_LEN out)) with
      | (FZN_CHAIN_OK, Some rec) =>
        match sign (fzn_revocation_signed_bytes rec) with
        | None => (FZN_CHAIN_ERR_CHAIN_INVALID, blit 0 (zeros FZN_REVOCATION_LEN) out)
        | Some sig => (FZN_CHAIN_OK, blit FZN_REV_OFF_SIGNATURE sig out)
        end
      | (err, _) => (err, out)
      end
    | (err, out) => (err, out)
    end
  end.

Definition fzn_revocation_issue (issuer capability grantee : bytes) (issued_at epoch : Z)
    (cut : option bytes) (ops : fzn_sign_ops) (out : bytes) : fzn_chain_err * bytes :=
  mint FZN_OBJECT_REVOCATION issuer capability grantee issued_at epoch None cut ops out.

Definition fzn_revocation_reissue (issuer capability grantee : bytes) (issued_at epoch : Z)
    (supersedes cut : option bytes) (ops : fzn_sign_ops) (out : bytes) : fzn_chain_err * bytes :=
  if match supersedes with None => true | Some s => all_zero s end
  then (FZN_CHAIN_ERR_MALFORMED, out)
  else mint FZN_OBJECT_REVOCATION issuer capability grantee issued_at epoch supersedes cut ops out.

Definition fzn_revocation_issue_withdrawal (issuer capability grantee : bytes) (issued_at epoch : Z)
    (target : option bytes) (ops : fzn_sign_ops) (out : bytes) : fzn_chain_err * bytes :=
  mint FZN_OBJECT_WITHDRAWAL issuer capability grantee issued_at epoch target None ops out.

(** ** The store *)

Record fzn_revocation := mk_rev {
  r_capability : bytes;
  r_grantee : bytes;
  r_issuer : bytes;
  r_id : bytes;
  r_withdrawn : bool;
  r_epoch : Z;
  r_held : bytes;
  r_cut : bytes
}.

(** [a_grantor], [a_grantee] and [a_hop_id] are the used rows of the arrays;
    the rows past [hop_count] are zero. *)
Record fzn_revocation_admin := mk_admin {
  a_key : bytes;
  a_grantor : list bytes;
  a_grantee : list bytes;
  a_hop_id : list bytes;
  a_first_act : bytes
}.

Record fzn_revocation_confirm := mk_confirm {
  k_confirmer : bytes;
  k_grant : bytes;
  k_act : bytes
}.

#[export] Instance fzn_revocation_eq_dec : EqDecision fzn_revocation.
Proof. solve_decision. Defined.
#[export] Instance fzn_revocation_admin_eq_dec : EqDecision fzn_revocation_admin.
Proof. solve_decision. Defined.

(** Each table is its array, whose length is its capacity, or NULL; the log
    pointer is left out. *)
Record fzn_revocation_store := mk_store {
  entries : option (list fzn_revocation);
  used : Z;
  generation : Z;
  quorum : Z;
  has_admin : bool;
  admin_capability : bytes;
  admins : option (list fzn_revocation_admin);
  admins_used : Z;
  roots : option fzn_root_ops;
  root_hash : option fzn_hash_ops;
  confirms : option (list fzn_revocation_confirm);
  confirms_used : Z;
  confirm_hash : option fzn_hash_ops;
  acts : option fzn_act_log_ops
}.

Definition table_capacity {A} (t : option (list A)) : Z :=
  match t with None => 0 | Some l => zlen l end.
Definition in_table {A} (t : option (list A)) (n : Z) : list A :=
  match t with None => [] | Some l => take (Z.to_nat n) l end.

Definition capacity (s : fzn_revocation_store) : Z := table_capacity (entries s).
Definition admin_capacity (s : fzn_revocation_store) : Z := table_capacity (admins s).
Definition confirm_capacity (s : fzn_revocation_store) : Z := table_capacity (confirms s).

(** The rows the loops [for (e = 0; e < used; e++)] visit. *)
Definition rows (s : fzn_revocation_store) : list fzn_revocation := in_table (entries s) (used s).
Definition admin_rows (s : fzn_revocation_store) : list fzn_revocation_admin :=
  in_table (admins s) (admins_used s).
Definition confirm_rows (s : fzn_revocation_store) : list fzn_revocation_confirm :=
  in_table (confirms s) (confirms_used s).

Definition fzn_revocation_store_sound (store : option fzn_revocation_store) : bool :=
  match store with
  | None => true
  | Some s =>
    if used s >? capacity s then false
    else if (used s >? 0) && is_null (entries s) then false
    else if (admins_used s >? admin_capacity s) || ((admins_used s >? 0) && is_null (admins s))
    then false
    else if (confirms_used s >? confirm_capacity s) || ((confirms_used s >? 0) && is_null (confirms s))
    then false
    else true
  end.

Definition corrupt (s : fzn_revocation_store) : bool := negb (fzn_revocation_store_sound (Some s)).

Definition same (entry : fzn_revocation) (issuer capability grantee : bytes) : bool :=
  memeq (r_issuer entry) issuer && memeq (r_capability entry) capability
  && memeq (r_grantee entry) grantee.

Definition with_generation (s : fzn_revocation_store) (g : Z) : fzn_revocation_store :=
  mk_store (entries s) (used s) g (quorum s) (has_admin s) (admin_capability s) (admins s)
    (admins_used s) (roots s) (root_hash s) (confirms s) (confirms_used s) (confirm_hash s) (acts s).

Definition bump (s : fzn_revocation_store) : fzn_revocation_store :=
  with_generation s (u64 (generation s + 1)).

Definition fzn_revocation_store_init (store : option fzn_revocation_store)
    (entries_ : option (list fzn_revocation)) : fzn_chain_err * option fzn_revocation_store :=
  match store, entries_ with
  | Some _, Some es =>
    if zlen es =? 0 then (FZN_CHAIN_ERR_MALFORMED, store)
    else
      (FZN_CHAIN_OK,
       Some (mk_store (Some es) 0 1 1 false (zeros FZN_CAP_ID_LEN) None 0 None None None 0 None None))
  | _, _ => (FZN_CHAIN_ERR_MALFORMED, store)
  end.

(** [memmove] of the rows in use to the front of the caller's larger array. *)
Definition moved {A} (used_rows bigger : list A) : list A := blit 0 used_rows bigger.

Definition fzn_revocation_store_use (s : fzn_revocation_store) (entries_ : list fzn_revocation)
    : fzn_chain_err * fzn_revocation_store :=
  if (zlen entries_ =? 0) || corrupt s || (zlen entries_ <? used s) then (FZN_CHAIN_ERR_MALFORMED, s)
  else
    (FZN_CHAIN_OK,
     bump (mk_store (Some (moved (rows s) entries_)) (used s) (generation s) (quorum s) (has_admin s)
       (admin_capability s) (admins s) (admins_used s) (roots s) (root_hash s) (confirms s)
       (confirms_used s) (confirm_hash s) (acts s))).

Definition fzn_revocation_store_use_confirmations (s : fzn_revocation_store)
    (table : list fzn_revocation_confirm) : fzn_chain_err * fzn_revocation_store :=
  if (zlen table =? 0) || is_null (confirms s) || corrupt s || (zlen table <? confirms_used s)
  then (FZN_CHAIN_ERR_MALFORMED, s)
  else
    (FZN_CHAIN_OK,
     bump (mk_store (entries s) (used s) (generation s) (quorum s) (has_admin s)
       (admin_capability s) (admins s) (admins_used s) (roots s) (root_hash s)
       (Some (moved (confirm_rows s) table)) (confirms_used s) (confirm_hash s) (acts s))).

Definition fzn_revocation_store_set_confirmations (s : fzn_revocation_store)
    (table : list fzn_revocation_confirm) (hash : option fzn_hash_ops)
    : fzn_chain_err * fzn_revocation_store :=
  if (zlen table =? 0) || is_null hash || negb (admins_used s =? 0) then (FZN_CHAIN_ERR_MALFORMED, s)
  else
    (FZN_CHAIN_OK,
     bump (mk_store (entries s) (used s) (generation s) (quorum s) (has_admin s)
       (admin_capability s) (admins s) (admins_used s) (roots s) (root_hash s)
       (Some table) 0 hash (acts s))).

Definition with_roots (s : fzn_revocation_store) (roots_ : option fzn_root_ops) (hash : option fzn_hash_ops)
    : fzn_revocation_store :=
  bump (mk_store (entries s) (used s) (generation s) (quorum s) (has_admin s)
    (admin_capability s) (admins s) (admins_used s) roots_ hash
    (confirms s) (confirms_used s) (confirm_hash s) (acts s)).

(** [roots_] is the table of functions [member] and [counts], NULL or with
    either NULL. *)
Definition fzn_revocation_store_set_roots (s : fzn_revocation_store)
    (roots_ : option (option (bytes -> bool) * option (bytes -> bytes -> bool))) (hash : option fzn_hash_ops)
    : fzn_chain_err * fzn_revocation_store :=
  match roots_ with
  | None => (FZN_CHAIN_OK, with_roots s None None)
  | Some (Some member_, Some counts_) =>
    if is_null hash then (FZN_CHAIN_ERR_MALFORMED, s)
    else (FZN_CHAIN_OK, with_roots s (Some (mk_root_ops member_ counts_)) hash)
  | Some _ => (FZN_CHAIN_ERR_MALFORMED, s)
  end.

Definition REVOCATION_ADMINS_MAX : Z := 32.

Definition fzn_revocation_store_set_k (s : fzn_revocation_store) (quorum_ : Z)
    : fzn_chain_err * fzn_revocation_store :=
  if quorum_ =? 0 then (FZN_CHAIN_ERR_MALFORMED, s)
  else if negb (quorum s =? quorum_) then
    (FZN_CHAIN_OK,
     bump (mk_store (entries s) (used s) (generation s) quorum_ (has_admin s)
       (admin_capability s) (admins s) (admins_used s) (roots s) (root_hash s)
       (confirms s) (confirms_used s) (confirm_hash s) (acts s)))
  else (FZN_CHAIN_OK, s).

Definition fzn_revocation_store_set_quorum (s : fzn_revocation_store) (quorum_ : Z)
    (admin_capability_ : option bytes) (admins_ : option (list fzn_revocation_admin))
    : fzn_chain_err * fzn_revocation_store :=
  let admin_capacity_ := table_capacity admins_ in
  if quorum_ =? 0 then (FZN_CHAIN_ERR_MALFORMED, s)
  else if negb (is_null admin_capability_)
          && (is_null admins_ || (admin_capacity_ =? 0) || (admin_capacity_ >? REVOCATION_ADMINS_MAX))
  then (FZN_CHAIN_ERR_MALFORMED, s)
  else
    (FZN_CHAIN_OK,
     bump (mk_store (entries s) (used s) (generation s) quorum_ (negb (is_null admin_capability_))
       (default (admin_capability s) admin_capability_)
       (if is_null admin_capability_ then None else admins_) 0 (roots s) (root_hash s)
       (confirms s) (confirms_used s) (confirm_hash s) (acts s))).

(** [acts_] is the table of functions, NULL or with its function NULL. *)
Definition fzn_revocation_store_set_acts (s : fzn_revocation_store) (acts_ : option (option fzn_act_log_ops))
    : fzn_chain_err * fzn_revocation_store :=
  match acts_ with
  | Some None => (FZN_CHAIN_ERR_MALFORMED, s)
  | _ =>
    (FZN_CHAIN_OK,
     bump (mk_store (entries s) (used s) (generation s) (quorum s) (has_admin s)
       (admin_capability s) (admins s) (admins_used s) (roots s) (root_hash s)
       (confirms s) (confirms_used s) (confirm_hash s) (mjoin acts_)))
  end.

Definition fzn_revocation_generation (store : option fzn_revocation_store) : Z :=
  match store with None => 0 | Some s => generation s end.

(** ** One triple *)

(** Where this triple's entry is; [None] is the source's [used]. *)
Definition find_entry (s : fzn_revocation_store) (issuer capability grantee : bytes) : option nat :=
  find_index (fun e => same e issuer capability grantee) (rows s).

Definition found (s : fzn_revocation_store) (issuer capability grantee : bytes)
    : option fzn_revocation :=
  match find_entry s issuer capability grantee with None => None | Some at_ => rows s !! at_ end.

Definition fzn_revocation_covers (store : option fzn_revocation_store)
    (issuer capability grantee : option bytes) : bool :=
  match store with
  | None => false
  | Some s =>
    if corrupt s then true
    else match entries s, issuer, capability, grantee with
    | Some _, Some i, Some c, Some g =>
      match found s i c g with None => false | Some e => negb (r_withdrawn e) end
    | _, _, _, _ => false
    end
  end.

(** The id and the action of the entry held, if any. *)
Definition fzn_revocation_lookup (store : option fzn_revocation_store)
    (issuer capability grantee : option bytes) : option (bytes * bool) :=
  match store with
  | None => None
  | Some s =>
    if corrupt s then None
    else match entries s, issuer, capability, grantee with
    | Some _, Some i, Some c, Some g =>
      match found s i c g with None => None | Some e => Some (r_id e, r_withdrawn e) end
    | _, _, _, _ => None
    end
  end.

Definition fzn_revocation_known (store : option fzn_revocation_store)
    (issuer capability grantee : option bytes) : bool :=
  match store with
  | None => false
  | Some s =>
    if corrupt s then true
    else match entries s, issuer, capability, grantee with
    | Some _, Some i, Some c, Some g => negb (is_null (find_entry s i c g))
    | _, _, _, _ => false
    end
  end.

(** ** Which entries a hop counts *)

Definition find_admin (s : fzn_revocation_store) (key : bytes) : option nat :=
  find_index (fun a => memeq (a_key a) key) (admin_rows s).

(** [has_floor] and [floor] are one [option]. *)
Record hop_question := mk_question {
  grantors : list bytes;
  grantees : list bytes;
  q_i : nat;
  q_capability : bytes;
  admin_ok : option (list bool);
  any_issuer : bool;
  floor : option Z
}.

Definition with_floor (h : hop_question) (f : option Z) : hop_question :=
  mk_question (grantors h) (grantees h) (q_i h) (q_capability h) (admin_ok h) (any_issuer h) f.

Definition root_member (s : fzn_revocation_store) (key : bytes) : bool :=
  match roots s with None => false | Some r => member r key end.

Definition root_entry (s : fzn_revocation_store) (entry : fzn_revocation) (root_key : option bytes)
    : bool :=
  match roots s with
  | Some r => member r (r_issuer entry) && root_counts r (r_issuer entry) (r_held entry)
  | None => match root_key with None => false | Some k => memeq (r_issuer entry) k end
  end.

Definition counts (s : fzn_revocation_store) (entry : fzn_revocation) (h : hop_question) : bool :=
  if negb (memeq (r_capability entry) (q_capability h))
     || negb (memeq (r_grantee entry) (nth (q_i h) (grantees h) []))
  then false
  else if match floor h with None => false | Some f => r_epoch entry <=? f end then false
  else if any_issuer h then
    match admin_ok h with
    | Some ok =>
      if has_admin s && negb (root_member s (r_issuer entry)) then
        match find_admin s (r_issuer entry) with
        | Some a => ok_at ok a
        | None => true
        end
      else true
    | None => true
    end
  else if root_member s (r_issuer entry) then root_entry s entry None
  else if existsb (fun g => memeq g (r_issuer entry)) (take (S (q_i h)) (grantors h)) then true
  else if has_admin s then
    match find_admin s (r_issuer entry) with
    | Some a => match admin_ok h with None => true | Some ok => ok_at ok a end
    | None => false
    end
  else false.

(** ** Epochs *)

(** Withdrawn in this epoch, or cast in a later one. *)
Definition left_epoch (epoch : Z) (entry : fzn_revocation) : bool :=
  (r_epoch entry >? epoch) || ((r_epoch entry =? epoch) && r_withdrawn entry).

Definition epoch_closed (s : fzn_revocation_store) (h : hop_question) (epoch q : Z) : bool :=
  count (fun e => counts s e h && left_epoch epoch e) (rows s) >=? q.

(** One candidate epoch: [(best, have)] before and after. *)
Definition try_epoch (s : fzn_revocation_store) (h : hop_question) (q first c : Z)
    (st : Z * bool) : Z * bool :=
  let '(best, have) := st in
  if c <? first then st
  else if (negb have || (c <? best)) && negb (epoch_closed s h c q) then (c, true)
  else st.

Fixpoint epoch_loop (s : fzn_revocation_store) (h : hop_question) (q first : Z)
    (es : list fzn_revocation) (st : Z * bool) : Z * bool :=
  match es with
  | [] => st
  | e :: es =>
    if negb (counts s e h) then epoch_loop s h q first es st
    else
      let st := try_epoch s h q first (r_epoch e) st in
      let st := if r_epoch e =? UINT64_MAX then st else try_epoch s h q first (r_epoch e + 1) st in
      epoch_loop s h q first es st
  end.

Definition open_epoch (s : fzn_revocation_store) (h : hop_question) (q : Z) : Z :=
  match floor h with
  | Some f =>
    if f =? UINT64_MAX then UINT64_MAX
    else
      let first := f + 1 in
      let '(best, have) :=
        epoch_loop s h q first (rows s) (first, negb (epoch_closed s h first q)) in
      if have then best else UINT64_MAX
  | None =>
    let '(best, have) := epoch_loop s h q 0 (rows s) (0, negb (epoch_closed s h 0 q)) in
    if have then best else UINT64_MAX
  end.

(** ** The rule, one hop at a time *)

(** The loop of [root_pass]: the floor moves as it runs, and [counts] reads it. *)
Fixpoint root_loop (s : fzn_revocation_store) (h : hop_question) (root_key : option bytes)
    (es : list fzn_revocation) : bool * hop_question :=
  match es with
  | [] => (false, h)
  | e :: es =>
    if negb (counts s e h) || negb (root_entry s e root_key) then root_loop s h root_key es
    else if negb (r_withdrawn e) then (true, h)
    else
      let f := match floor h with
               | Some f => if r_epoch e >? f then r_epoch e else f
               | None => r_epoch e
               end in
      root_loop s (with_floor h (Some f)) root_key es
  end.

Definition root_pass (s : fzn_revocation_store) (h : hop_question) (root_key : option bytes)
    : bool * hop_question :=
  let h := with_floor h None in
  if is_null root_key && is_null (roots s) then (false, h)
  else root_loop s h root_key (rows s).

(** [HOP_LATCHED] carries the epoch that holds the hop. *)
Inductive hop_verdict := HOP_FREE | HOP_ROOT | HOP_LIVE | HOP_LATCHED (current : Z).

#[export] Instance hop_verdict_eq_dec : EqDecision hop_verdict.
Proof. solve_decision. Defined.

Definition judge_hop (s : fzn_revocation_store) (h : hop_question) (root_key : option bytes) (q : Z)
    : hop_verdict * hop_question :=
  let '(settled, h) := root_pass s h root_key in
  if settled then (HOP_ROOT, h)
  else
    let total := count (fun e => counts s e h) (rows s) in
    let live := count (fun e => counts s e h && negb (r_withdrawn e)) (rows s) in
    if live >=? q then (HOP_LIVE, h)
    else if total <? q then (HOP_FREE, h)
    else
      let epoch := open_epoch s h q in
      let cast := count (fun e => counts s e h && (r_epoch e =? epoch)) (rows s) in
      let left := count (fun e => counts s e h && (r_epoch e =? epoch) && r_withdrawn e) (rows s) in
      if (cast >=? q) && (left <? q) then (HOP_LATCHED epoch, h) else (HOP_FREE, h).

Definition quorum_of (s : fzn_revocation_store) : Z := if quorum s =? 0 then 1 else quorum s.

Definition hop_question_of (grantors_ grantees_ : list bytes) (capability_ : bytes)
    (ok : option (list bool)) (i : nat) : hop_question :=
  mk_question grantors_ grantees_ i capability_ ok false None.

(** [revoked[i]] for each hop. *)
Definition judge_links (s : fzn_revocation_store) (grantors_ grantees_ : list bytes)
    (capability_ : bytes) (ok : option (list bool)) : list bool :=
  (fun i => negb (bool_decide
     (fst (judge_hop s (hop_question_of grantors_ grantees_ capability_ ok i)
             (head grantors_) (quorum_of s)) = HOP_FREE)))
  <$> seq 0 (length grantors_).

(** ** Admins: whose votes count *)

Definition root_confirms (s : fzn_revocation_store) (key first act : bytes) : bool :=
  match roots s with
  | Some r => member r key && root_counts r key act
  | None => memeq key first
  end.

Definition admin_rooted (s : fzn_revocation_store) (ad : fzn_revocation_admin) : bool :=
  match roots s, a_grantor ad with
  | Some r, g0 :: _ => root_counts r g0 (a_first_act ad)
  | _, _ => true
  end.

(** The scan of the confirmations of one hop: whether a root confirmed it, and
    the distinct confirmers seen, until one does or [need] are seen. *)
Fixpoint confirm_scan (s : fzn_revocation_store) (eligible : option (list bool))
    (confirmed : list bool) (need : Z) (first grantor hop_id : bytes)
    (cfs : list fzn_revocation_confirm) (seen : list bytes) : bool * list bytes :=
  match cfs with
  | [] => (false, seen)
  | cf :: cfs =>
    if zlen seen >=? need then (false, seen)
    else if negb (memeq (k_grant cf) hop_id) || memeq (k_confirmer cf) grantor
    then confirm_scan s eligible confirmed need first grantor hop_id cfs seen
    else if root_confirms s (k_confirmer cf) first (k_act cf) then (true, seen)
    else
      let seen :=
        match find_admin s (k_confirmer cf) with
        | None => seen
        | Some b =>
          if negb (ok_at confirmed b)
             || match eligible with None => false | Some ok => negb (ok_at ok b) end
          then seen
          else if existsb (fun k => memeq k (k_confirmer cf)) seen then seen
          else seen ++ [k_confirmer cf]
        end in
      confirm_scan s eligible confirmed need first grantor hop_id cfs seen
  end.

(** Hop [h] of the chain an admin stands on needs nothing, or has it. *)
Definition hop_confirmed (s : fzn_revocation_store) (eligible : option (list bool))
    (confirmed : list bool) (need : Z) (ad : fzn_revocation_admin) (h : nat) : bool :=
  let grantor := nth h (a_grantor ad) [] in
  let first := nth 0 (a_grantor ad) [] in
  if memeq grantor first || root_member s grantor then true
  else
    let '(by_root, seen) :=
      confirm_scan s eligible confirmed need first grantor (nth h (a_hop_id ad) [])
        (confirm_rows s) [] in
    by_root || negb (zlen seen <? need).

(** One round over the admins from [a] on, in place; whether anything changed. *)
Fixpoint confirm_round (s : fzn_revocation_store) (eligible : option (list bool)) (need : Z)
    (ads : list fzn_revocation_admin) (a : nat) (confirmed : list bool) (changed : bool)
    : list bool * bool :=
  match ads with
  | [] => (confirmed, changed)
  | ad :: ads =>
    if ok_at confirmed a || negb (admin_rooted s ad)
    then confirm_round s eligible need ads (S a) confirmed changed
    else if forallb (hop_confirmed s eligible confirmed need ad) (seq 1 (length (a_grantor ad) - 1))
    then confirm_round s eligible need ads (S a) (<[ a := true ]> confirmed) true
    else confirm_round s eligible need ads (S a) confirmed changed
  end.

(** [for (round = 0, changed = 1; changed && round <= admins_used; round++)] *)
Fixpoint confirm_rounds (s : fzn_revocation_store) (eligible : option (list bool)) (need : Z)
    (fuel : nat) (confirmed : list bool) : list bool :=
  match fuel with
  | O => confirmed
  | S fuel =>
    let '(confirmed, changed) := confirm_round s eligible need (admin_rows s) 0 confirmed false in
    if changed then confirm_rounds s eligible need fuel confirmed else confirmed
  end.

Definition confirm_admins (s : fzn_revocation_store) (eligible : option (list bool)) : list bool :=
  let need := quorum_of s - 1 in
  if is_null (confirm_hash s) || (need =? 0)
  then admin_rooted s <$> admin_rows s
  else confirm_rounds s eligible need (S (length (admin_rows s)))
         (replicate (length (admin_rows s)) false).

(** No hop of this admin's own chain is revoked, counting the confirmed. *)
Definition admin_unrevoked (s : fzn_revocation_store) (confirmed : list bool)
    (ad : fzn_revocation_admin) : bool :=
  forallb negb (judge_links s (a_grantor ad) (a_grantee ad) (admin_capability s) (Some confirmed)).

Definition standing_admins (s : fzn_revocation_store) : list bool :=
  let confirmed := confirm_admins s None in
  let ok := zip_with (fun c ad => c && admin_unrevoked s confirmed ad) confirmed (admin_rows s) in
  let confirmed := confirm_admins s (Some ok) in
  zip_with andb ok confirmed.

(** ** What a store answers *)

Definition fzn_revocation_admin_stands (store : option fzn_revocation_store) (key : option bytes)
    : bool :=
  match store, key with
  | Some s, Some k =>
    if corrupt s || negb (has_admin s) then false
    else match find_admin s k with
    | None => false
    | Some a => ok_at (standing_admins s) a
    end
  | _, _ => false
  end.

(** [revoked] cleared, filled for the hops asked about: eight answers. *)
Definition padded (l : list bool) : list bool :=
  l ++ replicate (Z.to_nat FZN_CHAIN_MAX_HOPS - length l) false.

(** [links] is each hop's grantor and grantee, or NULL. *)
Definition fzn_revocation_covers_links (store : option fzn_revocation_store)
    (links : option (list bytes * list bytes)) (capability_ : option bytes) : list bool :=
  match store with
  | None => padded []
  | Some s =>
    if corrupt s then replicate (Z.to_nat FZN_CHAIN_MAX_HOPS) true
    else match entries s, links, capability_ with
    | Some _, Some (grs, ges), Some c =>
      if (zlen grs =? 0) || (zlen grs >? FZN_CHAIN_MAX_HOPS) then padded []
      else padded (judge_links s grs ges c (Some (standing_admins s)))
    | _, _, _ => padded []
    end
  end.

Definition fzn_revocation_covers_chain (store : option fzn_revocation_store)
    (hops : list fzn_chain_hop) (capability_ : bytes) : list bool :=
  match store with
  | None => fzn_revocation_covers_links store None (Some capability_)
  | Some s =>
    if corrupt s || is_null (entries s) || (zlen hops =? 0) || (zlen hops >? FZN_CHAIN_MAX_HOPS)
    then fzn_revocation_covers_links store None (Some capability_)
    else
      fzn_revocation_covers_links store
        (Some (fzn_hop_grantor <$> hops, fzn_hop_grantee <$> hops)) (Some capability_)
  end.

Definition fzn_revocation_current_epoch (store : option fzn_revocation_store)
    (root : option bytes) (capability_ grantee : option bytes) : Z :=
  match store, capability_, grantee with
  | Some s, Some c, Some g =>
    if corrupt s || is_null (entries s) then 0
    else
      let ok := if has_admin s && negb (admins_used s =? 0) then Some (standing_admins s) else None in
      let h := mk_question [] [g] 0 c ok true None in
      let '(_, h) := root_pass s h root in
      open_epoch s h (quorum_of s)
  | _, _, _ => 0
  end.

(** The confirmers of an act seen so far, until [need] are; [None] once a root
    has confirmed it. *)
Fixpoint confirmed_scan (s : fzn_revocation_store) (ok : list bool) (need : Z)
    (issuer act root : bytes) (cfs : list fzn_revocation_confirm) (seen : list bytes)
    : option (list bytes) :=
  match cfs with
  | [] => Some seen
  | cf :: cfs =>
    if zlen seen >=? need then Some seen
    else if negb (memeq (k_grant cf) act) || memeq (k_confirmer cf) issuer
    then confirmed_scan s ok need issuer act root cfs seen
    else if root_confirms s (k_confirmer cf) root (k_act cf) then None
    else
      let seen :=
        match find_admin s (k_confirmer cf) with
        | None => seen
        | Some b =>
          if negb (ok_at ok b) then seen
          else if existsb (fun k => memeq k (k_confirmer cf)) seen then seen
          else seen ++ [k_confirmer cf]
        end in
      confirmed_scan s ok need issuer act root cfs seen
  end.

Definition fzn_revocation_confirmed (store : option fzn_revocation_store)
    (issuer act root : option bytes) : bool :=
  match store, issuer, act, root with
  | Some s, Some i, Some a, Some r =>
    if corrupt s then false
    else if root_confirms s i r a then true
    else if negb (fzn_revocation_admin_stands (Some s) (Some i)) then false
    else
      let need := quorum_of s - 1 in
      if is_null (confirm_hash s) || (need =? 0) then true
      else match confirmed_scan s (standing_admins s) need i a r (confirm_rows s) [] with
      | None => true
      | Some seen => zlen seen >=? need
      end
  | _, _, _, _ => false
  end.

(** The root's undo in full: the highest epoch a root that counts withdrew in. *)
Fixpoint undo_loop (s : fzn_revocation_store) (h : hop_question) (root_key : option bytes)
    (es : list fzn_revocation) : hop_question :=
  match es with
  | [] => h
  | e :: es =>
    if r_withdrawn e && counts s e h && root_entry s e root_key
       && match floor h with None => true | Some f => r_epoch e >? f end
    then undo_loop s (with_floor h (Some (r_epoch e))) root_key es
    else undo_loop s h root_key es
  end.

(** The votes that draw the line, and whether the act is inside each: the
    number binding, or [None] for the early return. *)
Fixpoint binding_loop (s : fzn_revocation_store) (h : hop_question) (verdict : hop_verdict)
    (log : fzn_act_log_ops) (grantee act : bytes) (es : list fzn_revocation) (binding : Z)
    : option Z :=
  match es with
  | [] => Some binding
  | e :: es =>
    if negb (counts s e h) then binding_loop s h verdict log grantee act es binding
    else if r_withdrawn e
            && negb match verdict with HOP_LATCHED current => r_epoch e =? current | _ => false end
    then binding_loop s h verdict log grantee act es binding
    else if all_zero (r_cut e) || negb (log grantee (r_cut e) act) then None
    else binding_loop s h verdict log grantee act es (binding + 1)
  end.

Definition fzn_revocation_act_stands (store : option fzn_revocation_store)
    (links : option (list bytes * list bytes)) (capability_ : option bytes) (i : Z)
    (act : option bytes) : bool :=
  match store, act with
  | Some s, Some a =>
    if corrupt s then false
    else match entries s, links, capability_ with
    | Some _, Some (grs, ges), Some c =>
      if (zlen grs =? 0) || (zlen grs >? FZN_CHAIN_MAX_HOPS) || (i >=? zlen grs) then false
      else
        let h := hop_question_of grs ges c (Some (standing_admins s)) (Z.to_nat i) in
        let '(verdict, h) := judge_hop s h (head grs) (quorum_of s) in
        match verdict with
        | HOP_FREE => true
        | _ =>
          let h := undo_loop s (with_floor h None) (head grs) (rows s) in
          match acts s with
          | None => false
          | Some log =>
            match binding_loop s h verdict log (nth (Z.to_nat i) ges []) a (rows s) 0 with
            | None => false
            | Some binding => binding >? 0
            end
          end
        end
    | _, _, _ => false
    end
  | _, _ => false
  end.
