(* ===== verification/RootSet.v ===== *)
(** * chain/root_log.c: the set of an estate's roots

    An estate starts from one root and changes its roots by signed adds and
    removals, judged from the records held and never from their order. Who is
    a member and which removals count refer to each other and are settled in
    rounds. The pointers of a call are given; a mask of flags is a list of
    booleans, one a change of the set. A view's storage ([own] or the
    caller's) is only ever a bound on the changes; a view of a set that has
    changed since is not modelled, as the header forbids it. *)

From stdpp Require Import gmap.
From S2P Require Import Prelude Rounds Bytes Hop Revocation.

Definition FZN_ROOT_ACT_ID_LEN : Z := 32.
Definition FZN_ROOT_ADD_BODY_LEN : Z := 66.
Definition FZN_ROOT_ADD_LEN : Z := FZN_ROOT_ADD_BODY_LEN + FZN_SIG_LEN.
Definition FZN_ROOT_REMOVE_BODY_LEN : Z := 98.
Definition FZN_ROOT_REMOVE_LEN : Z := FZN_ROOT_REMOVE_BODY_LEN + FZN_SIG_LEN.
Definition FZN_ROOT_SET_OFF_SIGNER : Z := 2.
Definition FZN_ROOT_SET_OFF_SUBJECT : Z := 34.
Definition FZN_ROOT_SET_OFF_CUT : Z := 66.
Definition FZN_ROOT_SET_MAX : Z := 64.
Definition FZN_OBJECT_ROOT_ADD : Z := 140.
Definition FZN_OBJECT_ROOT_REMOVE : Z := 141.

Inductive fzn_root_log_err :=
| FZN_ROOT_LOG_OK | FZN_ROOT_LOG_ERR_MALFORMED | FZN_ROOT_LOG_ERR_SHAPE | FZN_ROOT_LOG_ERR_SIGNATURE
| FZN_ROOT_LOG_ERR_FULL | FZN_ROOT_LOG_ERR_CRYPTO.

Record fzn_root_change := mk_change {
  c_object : Z; c_signer : bytes; c_subject : bytes; c_cut : bytes; c_id : bytes
}.

(** [rs_changes] is the caller's array, [None] for NULL. *)
Record fzn_root_set := mk_rset {
  rs_genesis : bytes; rs_changes : option (list fzn_root_change); rs_capacity : Z; rs_used : Z
}.

(** ** Records *)

(** [cut] NULL is [None]; the result is the buffer [out]. *)
Definition sign_change (object : Z) (signer subject : bytes) (cut : option bytes) (body : Z)
    (ops : fzn_sign_ops) (out : bytes) : fzn_root_log_err * bytes :=
  match sign ops with
  | None => (FZN_ROOT_LOG_ERR_MALFORMED, out)
  | Some sign =>
    let out := poke out 0 FZN_SIGNED_VERSION in
    let out := poke out 1 object in
    let out := blit FZN_ROOT_SET_OFF_SIGNER signer out in
    let out := blit FZN_ROOT_SET_OFF_SUBJECT subject out in
    let out := if object =? FZN_OBJECT_ROOT_REMOVE
               then blit FZN_ROOT_SET_OFF_CUT (default (zeros FZN_ROOT_ACT_ID_LEN) cut) out else out in
    match sign (slice 0 body out) with
    | None => (FZN_ROOT_LOG_ERR_CRYPTO, blit 0 (zeros (body + FZN_SIG_LEN)) out)
    | Some sig => (FZN_ROOT_LOG_OK, blit body sig out)
    end
  end.

Definition fzn_root_add_issue (adder added : bytes) (ops : fzn_sign_ops) (out : bytes) : fzn_root_log_err * bytes :=
  sign_change FZN_OBJECT_ROOT_ADD adder added None FZN_ROOT_ADD_BODY_LEN ops out.

Definition fzn_root_remove_issue (remover removed : bytes) (cut : option bytes) (ops : fzn_sign_ops) (out : bytes)
    : fzn_root_log_err * bytes :=
  sign_change FZN_OBJECT_ROOT_REMOVE remover removed cut FZN_ROOT_REMOVE_BODY_LEN ops out.

(** ** The set *)

Definition set_sound (s : fzn_root_set) : bool :=
  match rs_changes s with None => false | Some _ => rs_used s <=? rs_capacity s end.

(** The changes a loop over [used] visits. *)
Definition change_rows (s : fzn_root_set) : list fzn_root_change :=
  take (Z.to_nat (rs_used s)) (default [] (rs_changes s)).

Definition fzn_root_set_init (s : fzn_root_set) (genesis : bytes) (changes : option (list fzn_root_change)) (capacity : Z)
    : fzn_root_log_err * fzn_root_set :=
  match changes with
  | None => (FZN_ROOT_LOG_ERR_MALFORMED, s)
  | Some cs =>
    if capacity =? 0 then (FZN_ROOT_LOG_ERR_MALFORMED, s) else (FZN_ROOT_LOG_OK, mk_rset genesis (Some cs) capacity 0)
  end.

Definition is_add (c : fzn_root_change) : bool := c_object c =? FZN_OBJECT_ROOT_ADD.

(** The change a record states, its [id] aside. *)
Definition change_of (b : bytes) (id : bytes) : fzn_root_change :=
  mk_change (peek b 1) (slice FZN_ROOT_SET_OFF_SIGNER FZN_PUBKEY_LEN b) (slice FZN_ROOT_SET_OFF_SUBJECT FZN_PUBKEY_LEN b)
    (if peek b 1 =? FZN_OBJECT_ROOT_REMOVE then slice FZN_ROOT_SET_OFF_CUT FZN_ROOT_ACT_ID_LEN b
     else zeros FZN_ROOT_ACT_ID_LEN) id.

Definition with_change (s : fzn_root_set) (c : fzn_root_change) : fzn_root_set :=
  mk_rset (rs_genesis s) ((fun cs => <[Z.to_nat (rs_used s) := c]> cs) <$> rs_changes s) (rs_capacity s) (rs_used s + 1).

(** [len] is the length of [b]. *)
Definition fzn_root_set_admit (s : fzn_root_set) (b : bytes) (ops : fzn_sign_ops) (hash : option fzn_hash_ops)
    : fzn_root_log_err * fzn_root_set :=
  match verify ops, hash with
  | Some verify, Some hash =>
    if negb (set_sound s) then (FZN_ROOT_LOG_ERR_MALFORMED, s)
    else if (zlen b <? 2) || negb (peek b 0 =? FZN_SIGNED_VERSION) then (FZN_ROOT_LOG_ERR_SHAPE, s)
    else
      match (if peek b 1 =? FZN_OBJECT_ROOT_ADD then Some FZN_ROOT_ADD_BODY_LEN
             else if peek b 1 =? FZN_OBJECT_ROOT_REMOVE then Some FZN_ROOT_REMOVE_BODY_LEN else None) with
      | None => (FZN_ROOT_LOG_ERR_SHAPE, s)
      | Some body =>
        if negb (zlen b =? body + FZN_SIG_LEN) then (FZN_ROOT_LOG_ERR_SHAPE, s)
        else if negb (verify (slice FZN_ROOT_SET_OFF_SIGNER FZN_PUBKEY_LEN b) (slice 0 body b) (slice body FZN_SIG_LEN b))
        then (FZN_ROOT_LOG_ERR_SIGNATURE, s)
        else match hash FZN_ROOT_ACT_ID_LEN b with
        | None => (FZN_ROOT_LOG_ERR_CRYPTO, s)
        | Some id =>
          if existsb (fun c => memeq (c_id c) id) (change_rows s) then (FZN_ROOT_LOG_OK, s)
          else if rs_used s >=? rs_capacity s then (FZN_ROOT_LOG_ERR_FULL, s)
          else (FZN_ROOT_LOG_OK, with_change s (change_of b id))
        end
      end
  | _, _ => (FZN_ROOT_LOG_ERR_MALFORMED, s)
  end.

(** ** Judging the set *)

Definition member_in (s : fzn_root_set) (add : list bool) (key : bytes) : bool :=
  memeq (rs_genesis s) key
  || existsb (fun '(c, ok) => is_add c && ok && memeq (c_subject c) key) (zip (change_rows s) add).

Definition removed_in (s : fzn_root_set) (rem : list bool) (key : bytes) : bool :=
  existsb (fun '(c, ok) => negb (is_add c) && ok && memeq (c_subject c) key) (zip (change_rows s) rem).

(** The act stands under the cut of a removal of its root. *)
Definition cut_stands (acts : option fzn_act_log_ops) (c : fzn_root_change) (act : bytes) : bool :=
  match acts with
  | None => false
  | Some stands => negb (all_zero (c_cut c)) && stands (c_subject c) (c_cut c) act
  end.

Definition counts_in (s : fzn_root_set) (acts : option fzn_act_log_ops) (add rem : list bool) (root act : bytes) : bool :=
  member_in s add root
  && forallb (fun '(c, ok) => is_add c || negb ok || negb (memeq (c_subject c) root) || cut_stands acts c act)
       (zip (change_rows s) rem).

(** One pass over the changes [todo], the first at [i]. *)
Fixpoint grow_pass (s : fzn_root_set) (acts : option fzn_act_log_ops) (rem : list bool) (todo : list fzn_root_change)
    (i : nat) (add : list bool) (changed : bool) : list bool * bool :=
  match todo with
  | [] => (add, changed)
  | c :: todo =>
    if negb (is_add c) || ok_at add i then grow_pass s acts rem todo (S i) add changed
    else if counts_in s acts add rem (c_signer c) (c_id c) then grow_pass s acts rem todo (S i) (<[i := true]> add) true
    else grow_pass s acts rem todo (S i) add changed
  end.

(** [while (changed)], [fuel] passes at most. *)
Fixpoint grow_loop (fuel : nat) (s : fzn_root_set) (acts : option fzn_act_log_ops) (rem add : list bool) : option (list bool) :=
  match fuel with
  | O => None
  | S fuel =>
    let '(add, changed) := grow_pass s acts rem (change_rows s) 0 add false in
    if changed then grow_loop fuel s acts rem add else Some add
  end.

Definition no_flags (s : fzn_root_set) : list bool := replicate (length (change_rows s)) false.

(** A pass that adds none is the last. *)
Definition grow_members (s : fzn_root_set) (acts : option fzn_act_log_ops) (rem : list bool) : option (list bool) :=
  grow_loop (S (length (change_rows s))) s acts rem (no_flags s).

(** The removals whose remover is a member. *)
Definition next_removals (s : fzn_root_set) (add : list bool) : list bool :=
  (fun c => negb (is_add c) && member_in s add (c_signer c)) <$> change_rows s.

(** The rounds, [n] left; the flags of the adds and of the removals. *)
Fixpoint settle_loop (n : nat) (s : fzn_root_set) (acts : option fzn_act_log_ops) (rem seen : list bool)
    : option (list bool * list bool) :=
  match n with
  | O => match grow_members s acts seen with None => None | Some add => Some (add, seen) end
  | S n =>
    match grow_members s acts rem with
    | None => None
    | Some add =>
      let next := next_removals s add in
      let seen := zip_with orb seen next in
      if bool_decide (next = rem) then Some (add, rem) else settle_loop n s acts next seen
    end
  end.

Definition settle (s : fzn_root_set) (acts : option fzn_act_log_ops) : option (list bool * list bool) :=
  settle_loop (S (length (change_rows s))) s acts (no_flags s) (no_flags s).

(** ** Reading it *)

Definition fzn_root_set_counts (s : fzn_root_set) (acts : option fzn_act_log_ops) (root act : bytes) : option bool :=
  if negb (set_sound s) || (rs_used s >? FZN_ROOT_SET_MAX) then Some false
  else '(add, rem) ← settle s acts; Some (counts_in s acts add rem root act).

Definition fzn_root_set_stands (s : fzn_root_set) (acts : option fzn_act_log_ops) (key : bytes) : option bool :=
  if negb (set_sound s) || (rs_used s >? FZN_ROOT_SET_MAX) then Some false
  else '(add, rem) ← settle s acts; Some (member_in s add key && negb (removed_in s rem key)).

Definition fzn_root_set_member (s : fzn_root_set) (acts : option fzn_act_log_ops) (key : bytes) : option bool :=
  if negb (set_sound s) || (rs_used s >? FZN_ROOT_SET_MAX) then Some false
  else '(add, rem) ← settle s acts; Some (member_in s add key).

Record fzn_root_view := mk_view {
  v_set : fzn_root_set; v_acts : option fzn_act_log_ops; v_add : list bool; v_rem : list bool
}.

(** [flags] is the capacity of the caller's storage, [None] for NULL. *)
Definition fzn_root_view_init_with (s : fzn_root_set) (acts : option fzn_act_log_ops) (flags : option Z)
    : option (fzn_root_log_err * option fzn_root_view) :=
  if negb (set_sound s) || match flags with Some capacity => capacity =? 0 | None => false end
  then Some (FZN_ROOT_LOG_ERR_MALFORMED, None)
  else if rs_used s >? default FZN_ROOT_SET_MAX flags then Some (FZN_ROOT_LOG_ERR_FULL, None)
  else '(add, rem) ← settle s acts; Some (FZN_ROOT_LOG_OK, Some (mk_view s acts add rem)).

Definition fzn_root_view_init (s : fzn_root_set) (acts : option fzn_act_log_ops)
    : option (fzn_root_log_err * option fzn_root_view) := fzn_root_view_init_with s acts None.

Definition fzn_root_view_counts (v : fzn_root_view) (root act : bytes) : bool :=
  set_sound (v_set v) && counts_in (v_set v) (v_acts v) (v_add v) (v_rem v) root act.

Definition fzn_root_view_stands (v : fzn_root_view) (key : bytes) : bool :=
  set_sound (v_set v) && (member_in (v_set v) (v_add v) key && negb (removed_in (v_set v) (v_rem v) key)).

Definition fzn_root_view_member (v : fzn_root_view) (key : bytes) : bool :=
  set_sound (v_set v) && member_in (v_set v) (v_add v) key.

(** What a revocation store asks. *)
Definition fzn_root_view_ops (v : fzn_root_view) : fzn_root_ops :=
  mk_root_ops (fzn_root_view_member v) (fzn_root_view_counts v).

(** ** What is judged

    Over the changes [held], with the log of acts [acts], the removals of [R]
    counting. *)

Section Rule.
Context (genesis : bytes) (held : fzn_root_change -> Prop) (acts : option fzn_act_log_ops).

(** An act of [root] clears the cut of every counting removal of it. *)
Definition clear (R : fzn_root_change -> Prop) (root act : bytes) : Prop :=
  forall c, held c -> is_add c = false -> R c -> c_subject c = root -> cut_stands acts c act = true.

Inductive joined (R : fzn_root_change -> Prop) : bytes -> Prop :=
| joined_genesis : joined R genesis
| joined_added c : held c -> is_add c = true -> joined R (c_signer c) -> clear R (c_signer c) (c_id c) ->
                   joined R (c_subject c).

(** The removals that count when those of [R] do. *)
Definition removals (R : fzn_root_change -> Prop) (c : fzn_root_change) : Prop :=
  held c /\ is_add c = false /\ joined R (c_signer c).

Fixpoint turn (k : nat) : fzn_root_change -> Prop :=
  match k with O => fun _ => False | S k => removals (turn k) end.

Definition meets (k : nat) : Prop := forall c, held c -> turn k c <-> turn (S k) c.

(** What the set comes to: where the turns meet, and where they never do,
    every removal any of them saw. *)
Definition judged (c : fzn_root_change) : Prop :=
  (exists k, meets k /\ turn k c) \/ ((forall k, ~ meets k) /\ turn 1 c).

Lemma joined_mono R R' key : (forall c, held c -> R c -> R' c) -> joined R' key -> joined R key.
Proof.
  intros Hs. induction 1 as [|c Hc Ha _ IH Hcl]; [constructor|]. apply joined_added; auto.
  intros x Hx Hax HR. apply Hcl; auto.
Qed.
End Rule.

Section Fixed.
Context (genesis : bytes) (held : fzn_root_change -> Prop) (acts : option fzn_act_log_ops).
Abbreviation removals := (removals genesis held acts).
Abbreviation turn := (turn genesis held acts).

Lemma removals_anti R R' c : (forall x, held x -> R x -> R' x) -> removals R' c -> removals R c.
Proof. intros H (? & ? & ?). split_and!; auto. by eapply joined_mono. Qed.

(** A judgement that agrees with itself lies between all turns, so it is what
    they meet in where they meet. *)
Lemma agreed_between R : (forall c, held c -> R c <-> removals R c) -> forall k,
  (forall c, held c -> turn k c -> R c) /\ (forall c, held c -> R c -> turn (S k) c) \/
  (forall c, held c -> turn (S k) c -> R c) /\ (forall c, held c -> R c -> turn k c).
Proof.
  intros HR. induction k as [|k [[H1 H2]|[H1 H2]]]; [left|right|left]; (split; intros c Hc Hx; [try done|]).
  - apply HR in Hx; [|done]. eapply removals_anti; [|exact Hx]. done.
  - apply HR; [done|]. eapply removals_anti; [|exact Hx]. exact H2.
  - auto.
  - auto.
  - apply HR in Hx; [|done]. eapply removals_anti; [|exact Hx]. exact H1.
Qed.

Lemma agreed_is_met R k : (forall c, held c -> R c <-> removals R c) -> meets genesis held acts k -> forall c, held c -> R c <-> turn k c.
Proof.
  intros HR Hk c Hc. specialize (Hk c Hc). destruct (agreed_between R HR k) as [[H1 H2]|[H1 H2]];
    specialize (H1 c Hc); specialize (H2 c Hc); tauto.
Qed.

Lemma agreed_below_first R c : (forall c, held c -> R c <-> removals R c) -> held c -> R c -> turn 1 c.
Proof. intros HR Hc Hx. destruct (agreed_between R HR 0) as [[_ H]|[_ H]]; [auto|by destruct (H c Hc Hx)]. Qed.
End Fixed.

(** The rule asks nothing but which changes are held. *)
Lemma joined_ext g held held' acts R R' key :
  (forall c, held c <-> held' c) -> (forall c, held c -> R c <-> R' c) -> joined g held acts R key -> joined g held' acts R' key.
Proof.
  intros Hh HR. induction 1 as [|c Hc Ha _ IH Hcl]; [constructor|]. apply joined_added; [by apply Hh|done|done|].
  intros x Hx Hax HRx. apply Hcl; [by apply Hh|done|apply HR; [by apply Hh|done]].
Qed.

Lemma turn_ext g held held' acts : (forall c, held c <-> held' c) -> forall k c, turn g held acts k c <-> turn g held' acts k c.
Proof.
  intros Hh. induction k as [|k IH]; intros c; [done|]. cbn. unfold removals. rewrite (Hh c).
  split; intros (? & ? & Hj); (split; [done|split; [done|]]); (eapply joined_ext; [| |exact Hj]).
  - exact Hh.
  - intros c' _. apply IH.
  - intros c'. symmetry. apply Hh.
  - intros c' _. symmetry. apply IH.
Qed.

Lemma judged_ext g held held' acts : (forall c, held c <-> held' c) -> forall c, judged g held acts c <-> judged g held' acts c.
Proof.
  intros Hh. assert (forall k, meets g held acts k <-> meets g held' acts k) as Hm.
  { intros k. unfold meets. setoid_rewrite Hh. by setoid_rewrite (turn_ext g held held' acts Hh). }
  intros c. unfold judged. setoid_rewrite Hm. by setoid_rewrite (turn_ext g held held' acts Hh).
Qed.

(** ** The flags are that judgement *)

Section Flags.
Context (s : fzn_root_set) (acts : option fzn_act_log_ops).
Abbreviation cs := (change_rows s).
Abbreviation held := (fun c => c ∈ cs).
Abbreviation n := (length cs).

(** The changes a mask flags. *)
Definition flagged (m : list bool) (c : fzn_root_change) : Prop := exists i, cs !! i = Some c /\ ok_at m i = true.

Lemma zip_flagged m i c ok : length m = n -> zip cs m !! i = Some (c, ok) <-> cs !! i = Some c /\ ok_at m i = ok /\ (i < n)%nat.
Proof.
  intros Hl. rewrite lookup_zip_with_Some. split.
  - intros (c' & ok' & [= -> ->] & Hc & Hok). split; [done|]. split; [unfold ok_at; by rewrite Hok|by eapply lookup_lt_Some].
  - intros (Hc & Hok & Hi). exists c, ok. split; [done|]. split; [done|]. rewrite <- Hok. apply ok_at_lookup. lia.
Qed.

Lemma member_in_true add key : length add = n ->
  member_in s add key = true <-> rs_genesis s = key \/ exists i c, cs !! i = Some c /\ ok_at add i = true /\ is_add c = true /\ c_subject c = key.
Proof.
  intros Hl. unfold member_in. rewrite orb_true_iff, memeq_true, existsb_lookup. apply or_iff_compat_l. split.
  - intros (i & [c ok] & Hz & Ht). apply zip_flagged in Hz as (Hc & Hok & _); [|done]. bool_props. exists i, c. split_and!; congruence.
  - intros (i & c & Hc & Hok & Ha & <-). exists i, (c, true). split; [apply zip_flagged; [done|]|by rewrite Ha, memeq_refl].
    split_and!; [done|done|by eapply lookup_lt_Some].
Qed.

Lemma removed_in_true rem key : length rem = n ->
  removed_in s rem key = true <-> exists c, flagged rem c /\ is_add c = false /\ c_subject c = key.
Proof.
  intros Hl. unfold removed_in. rewrite existsb_lookup. split.
  - intros (i & [c ok] & Hz & Ht). apply zip_flagged in Hz as (Hc & Hok & _); [|done]. bool_props. exists c.
    split; [exists i; split; congruence|done].
  - intros (c & (i & Hc & Hok) & Ha & <-). exists i, (c, true). split; [apply zip_flagged; [done|]|by rewrite Ha, memeq_refl].
    split_and!; [done|done|by eapply lookup_lt_Some].
Qed.

Lemma counts_in_true add rem root act : length rem = n ->
  counts_in s acts add rem root act = true <-> member_in s add root = true /\ clear held acts (flagged rem) root act.
Proof.
  intros Hl. unfold counts_in. rewrite andb_true_iff, forallb_forall. apply and_iff_compat_l. split.
  - intros H c Hc Ha (i & Hi & Hok) <-. specialize (H (c, true)). cbn in H. rewrite Ha, memeq_refl in H. cbn in H. apply H.
    apply list_elem_of_In, list_elem_of_lookup. exists i. apply zip_flagged; [done|]. split_and!; [done|done|by eapply lookup_lt_Some].
  - intros H [c ok] Hin. apply list_elem_of_In, list_elem_of_lookup in Hin as [i Hi]. apply zip_flagged in Hi as (Hc & Hok & _); [|done].
    destruct (is_add c) eqn:Ha; [done|]. destruct ok; [|done]. destruct (memeq (c_subject c) root) eqn:Em; [|done]. cbn.
    apply memeq_true in Em. apply H; [by eapply list_elem_of_lookup_2|done|by exists i|done].
Qed.

(** Counting grows with the adds. *)
Lemma member_in_mono add add' key : length add = n -> length add' = n -> below add add' ->
  member_in s add key = true -> member_in s add' key = true.
Proof.
  intros Hl Hl' Hb. rewrite !member_in_true by done. intros [?|(i & c & ? & ? & ? & ?)]; [by left|right]. exists i, c. auto.
Qed.

Lemma counts_in_mono add add' rem root act : length rem = n -> length add = n -> length add' = n -> below add add' ->
  counts_in s acts add rem root act = true -> counts_in s acts add' rem root act = true.
Proof. intros Hr Hl Hl' Hb. rewrite !counts_in_true by done. intros [? ?]. split; [|done]. by apply (member_in_mono add). Qed.

(** *** Membership grows to the least *)

Section Grow.
Context (rem : list bool) (Hrem : length rem = n).
Abbreviation R := (flagged rem).

(** Every add that is flagged counts. *)
Definition adds_sound (add : list bool) : Prop :=
  forall i c, cs !! i = Some c -> ok_at add i = true ->
    is_add c = true /\ joined (rs_genesis s) held acts R (c_signer c) /\ clear held acts R (c_signer c) (c_id c).

(** Every add that counts is flagged. *)
Definition adds_closed (add : list bool) : Prop :=
  forall i c, cs !! i = Some c -> is_add c = true -> counts_in s acts add rem (c_signer c) (c_id c) = true -> ok_at add i = true.

Lemma sound_joined add key : length add = n -> adds_sound add ->
  member_in s add key = true -> joined (rs_genesis s) held acts R key.
Proof.
  intros Hl Hs. rewrite member_in_true by done. intros [<-|(i & c & Hc & Hok & Ha & <-)]; [constructor|].
  destruct (Hs i c Hc Hok) as (_ & Hj & Hcl). by apply joined_added; [eapply list_elem_of_lookup_2|..].
Qed.

Lemma joined_closed add key : length add = n -> adds_closed add ->
  joined (rs_genesis s) held acts R key -> member_in s add key = true.
Proof.
  intros Hl Hc. induction 1 as [|c Hin Ha _ IH Hcl]; apply member_in_true; auto.
  right. apply list_elem_of_lookup in Hin as [i Hi]. exists i, c. split_and!; auto.
  apply (Hc i c); [done..|]. by apply counts_in_true.
Qed.

Lemma grow_pass_spec todo : forall i add ch add' ch',
  (forall k c, todo !! k = Some c -> cs !! (i + k)%nat = Some c) -> length add = n -> adds_sound add ->
  grow_pass s acts rem todo i add ch = (add', ch') ->
  length add' = n /\ adds_sound add' /\ below add add' /\
  (ch' = false -> add' = add /\ ch = false /\
     forall k c, todo !! k = Some c -> is_add c = true -> counts_in s acts add rem (c_signer c) (c_id c) = true -> ok_at add (i + k) = true) /\
  (ch' = true -> ch = false -> count (fun b => b) add < count (fun b => b) add').
Proof using Hrem.
  induction todo as [|c todo IH]; intros i add ch add' ch' Htodo Hl Hs Hg; cbn [grow_pass] in Hg.
  { simplify_eq. split_and!; auto; [done|by intros ->; split_and!|congruence]. }
  assert (cs !! i = Some c) as Hc by (rewrite <- (Nat.add_0_r i); by apply (Htodo 0%nat)).
  assert (forall k c', todo !! k = Some c' -> cs !! (S i + k)%nat = Some c') as Htodo'
    by (intros k c' Hk; replace (S i + k)%nat with (i + S k)%nat by lia; by apply Htodo).
  destruct (negb (is_add c) || ok_at add i) eqn:E1; [|destruct (counts_in s acts add rem (c_signer c) (c_id c)) eqn:E2].
  - destruct (IH _ _ _ _ _ Htodo' Hl Hs Hg) as (? & ? & ? & Hf & ?). split_and!; auto. intros ->.
    destruct (Hf eq_refl) as (-> & -> & Hall). split_and!; auto. intros [|k] c' Hk Ha Hcn; simplify_eq/=.
    + rewrite Ha in E1. by rewrite Nat.add_0_r.
    + rewrite Nat.add_succ_r. by apply (Hall k c').
  - apply orb_false_iff in E1 as [Ha%negb_false_iff Hi].
    assert (adds_sound (<[i := true]> add)) as Hs'.
    { intros j x Hj Hok. destruct (decide (j = i)) as [->|Hne].
      - assert (x = c) as -> by congruence. apply counts_in_true in E2 as [Hm Hcl]; [|done].
        split; [done|]. split; [by eapply sound_joined|done].
      - apply (Hs j x Hj). unfold ok_at in *. by rewrite list_lookup_insert_ne in Hok. }
    destruct (IH _ _ _ _ _ Htodo' ltac:(by rewrite length_insert) Hs' Hg) as (Hl' & ? & Hb & Hf & ?). split_and!; auto.
    + etrans; [apply below_insert|done].
    + intros ->. by destruct (Hf eq_refl) as (_ & ? & _).
    + intros _ _. pose proof (below_count (<[i := true]> add) add' ltac:(rewrite length_insert; congruence) Hb) as Hle.
      assert (add !! i = Some false) as Hadd by (rewrite <- Hi; apply ok_at_lookup; rewrite Hl; by eapply lookup_lt_Some).
      rewrite (count_insert _ _ _ false) in Hle by done. lia.
  - destruct (IH _ _ _ _ _ Htodo' Hl Hs Hg) as (? & ? & ? & Hf & ?). split_and!; auto. intros ->.
    destruct (Hf eq_refl) as (-> & -> & Hall). split_and!; auto. intros [|k] c' Hk Ha Hcn; simplify_eq/=; [congruence|].
    rewrite Nat.add_succ_r. by apply (Hall k c').
Qed.

Lemma grow_loop_spec fuel : forall add, length add = n -> adds_sound add ->
  (n < fuel + Z.to_nat (count (fun b => b) add))%nat ->
  exists add', grow_loop fuel s acts rem add = Some add' /\ length add' = n /\ adds_sound add' /\ adds_closed add'.
Proof using Hrem.
  induction fuel as [|fuel IH]; intros add Hl Hs Hf; cbn [grow_loop].
  { pose proof (count_le_zlen (fun b => b) add) as H. unfold zlen in H. rewrite Hl in H. lia. }
  destruct (grow_pass s acts rem cs 0 add false) as [add1 ch] eqn:Hg.
  destruct (grow_pass_spec cs 0 add false add1 ch) as (Hl1 & Hs1 & _ & Hun & Hch); auto.
  destruct ch.
  - specialize (Hch eq_refl eq_refl). pose proof (count_nonneg (fun b => b) add). apply IH; auto. lia.
  - destruct (Hun eq_refl) as (-> & _ & Hall). by exists add.
Qed.

(** The passes end, and flag the least set of adds. *)
Lemma grow_members_exact : exists add, grow_members s acts rem = Some add /\ length add = n /\
  forall key, member_in s add key = true <-> joined (rs_genesis s) held acts R key.
Proof using Hrem.
  destruct (grow_loop_spec (S n) (no_flags s)) as (add & Hg & Hl & Hs & Hc).
  - apply length_replicate.
  - intros i c _. unfold no_flags. by rewrite ok_at_none.
  - lia.
  - exists add. split; [done|]. split; [done|]. intros key. split; [by apply sound_joined|by apply joined_closed].
Qed.
End Grow.

(** *** The rounds are the turns *)

Abbreviation turn := (turn (rs_genesis s) held acts).
Abbreviation judged := (judged (rs_genesis s) held acts).

(** A round on the masks. *)
Definition next_mask (rem : list bool) : list bool :=
  match grow_members s acts rem with Some add => next_removals s add | None => no_flags s end.

Abbreviation round := (round next_mask n).

Lemma next_mask_grown rem add : grow_members s acts rem = Some add -> next_mask rem = next_removals s add.
Proof. unfold next_mask. by intros ->. Qed.

Lemma next_mask_length rem : length (next_mask rem) = n.
Proof. unfold next_mask. destruct (grow_members s acts rem); unfold next_removals; [apply length_fmap|apply length_replicate]. Qed.

Lemma next_mask_at rem i c : length rem = n -> cs !! i = Some c ->
  ok_at (next_mask rem) i = true <-> removals (rs_genesis s) held acts (flagged rem) c.
Proof.
  intros Hl Hi. unfold next_mask. destruct (grow_members_exact rem Hl) as (add & -> & _ & Hm).
  unfold next_removals, ok_at. rewrite list_lookup_fmap, Hi. cbn. rewrite andb_true_iff, negb_true_iff, Hm.
  unfold removals. pose proof (list_elem_of_lookup_2 _ _ _ Hi). tauto.
Qed.

Lemma next_mask_anti R R' : length R = n -> length R' = n -> below R R' -> below (next_mask R') (next_mask R).
Proof.
  intros Hl Hl' Hb i Hi. assert (i < n)%nat as [c Hc]%lookup_lt_is_Some_2.
  { rewrite <- (next_mask_length R'). unfold ok_at in Hi. destruct (next_mask R' !! i) eqn:E; [|done]. by eapply lookup_lt_Some. }
  apply (next_mask_at R i c); [done..|]. apply (next_mask_at R' i c) in Hi; [|done..]. revert Hi. apply removals_anti.
  intros x _ (j & Hj & Hx). exists j. auto.
Qed.

Lemma round_len k : length (round k) = n.
Proof. apply round_length. intros. apply next_mask_length. Qed.

Lemma round_turn k : forall i c, cs !! i = Some c -> ok_at (round k) i = true <-> turn k c.
Proof.
  induction k as [|k IH]; intros i c Hi; [by cbn; rewrite ok_at_none|].
  change (round (S k)) with (next_mask (round k)). rewrite (next_mask_at _ i c) by (done || apply round_len).
  cbn. unfold removals. assert (forall x, x ∈ cs -> flagged (round k) x <-> turn k x) as Hf.
  { intros x [j Hj]%list_elem_of_lookup. split; [intros (j' & Hj' & ?); by apply (IH j')|]. intros Hx. exists j. split; [done|by apply (IH j x)]. }
  split; intros (? & ? & Hj); (split; [done|split; [done|]]); (eapply joined_ext; [| |exact Hj]); try done.
  intros x Hx. symmetry. by apply Hf.
Qed.

Lemma meets_round k : meets (rs_genesis s) held acts k <-> round (S k) = round k.
Proof.
  unfold meets. split.
  - intros H. apply flags_eq; [by rewrite !round_len|]. intros i Hi. rewrite round_len in Hi.
    destruct (lookup_lt_is_Some_2 cs i Hi) as [c Hc]. apply eq_true_iff_eq. rewrite !(round_turn _ i c) by done.
    symmetry. apply H. by eapply list_elem_of_lookup_2.
  - intros H c [i Hi]%list_elem_of_lookup. rewrite <- !(round_turn _ i c) by done. by rewrite H.
Qed.

(** What the rounds have seen, before round [k]. *)
Definition seen_by (k : nat) : list bool := match k with O => no_flags s | _ => round 1 end.

Lemma seen_next k : zip_with orb (seen_by k) (round (S k)) = seen_by (S k).
Proof.
  assert (length (seen_by k) = n) as Hl by (destruct k; [apply length_replicate|apply round_len]).
  apply flags_eq; [rewrite length_zip_with, Hl, !round_len; cbn; rewrite next_mask_length; lia|].
  intros i Hi. rewrite length_zip_with, Hl, round_len in Hi.
  unfold ok_at at 1. rewrite (lookup_zip_with orb). rewrite (ok_at_lookup (seen_by k)), (ok_at_lookup (round (S k))) by (rewrite ?Hl, ?round_len; lia).
  cbn [default mbind option_bind fmap option_fmap option_map from_option].
  change (seen_by (S k)) with (round 1). destruct k as [|k].
  - cbn [seen_by]. unfold no_flags. rewrite ok_at_none. done.
  - change (seen_by (S k)) with (round 1).
    pose proof (round_below_first next_mask n (fun R _ => next_mask_length R) next_mask_anti (S k) i) as Hb.
    destruct (ok_at (round 1) i), (ok_at (round (S (S k))) i); naive_solver.
Qed.

Lemma settle_loop_spec m : forall k, exists add rem,
  settle_loop m s acts (round k) (seen_by k) = Some (add, rem) /\ grow_members s acts rem = Some add /\
  ((exists j, round (S j) = round j /\ rem = round j) \/
   (forall j, (k <= j < k + m)%nat -> round (S j) <> round j) /\ rem = seen_by (k + m)).
Proof.
  induction m as [|m IH]; intros k; cbn [settle_loop].
  - assert (length (seen_by k) = n) as Hl by (destruct k; [apply length_replicate|apply round_len]).
    destruct (grow_members_exact (seen_by k) Hl) as (add & Hg & _). rewrite Hg. exists add, (seen_by k). split; [done|]. split; [done|].
    right. split; [intros; lia|by rewrite Nat.add_0_r].
  - destruct (grow_members_exact (round k) (round_len k)) as (add & Hg & _). rewrite Hg.
    assert (next_removals s add = round (S k)) as -> by (symmetry; by apply (next_mask_grown (round k))).
    rewrite seen_next. case_bool_decide as E; [exists add, (round k); eauto 6|].
    destruct (IH (S k)) as (add' & rem & Hs & Hg' & H). exists add', rem. split; [exact Hs|]. split; [done|].
    destruct H as [?|[H ->]]; [by left|right]. replace (k + S m)%nat with (S k + m)%nat by lia. split; [|done].
    intros j Hj. destruct (decide (j = k)) as [->|]; [done|]. apply H. lia.
Qed.

(** Settling ends, with the flags of what is judged. *)
Lemma settle_exact : exists add rem, settle s acts = Some (add, rem) /\ length add = n /\ length rem = n /\
  (forall i c, cs !! i = Some c -> ok_at rem i = true <-> judged c) /\
  (forall key, member_in s add key = true <-> joined (rs_genesis s) held acts judged key).
Proof.
  destruct (settle_loop_spec (S n) 0) as (add & rem & Hs & Hg & Hrem). exists add, rem. split; [exact Hs|].
  pose proof (rounds_tell next_mask n (fun R _ => next_mask_length R) next_mask_anti) as Htell.
  assert (length rem = n /\ forall i c, cs !! i = Some c -> ok_at rem i = true <-> judged c) as [Hl Hj].
  { assert (forall j, round (S j) = round j -> rem = round j -> length rem = n /\ forall i c, cs !! i = Some c -> ok_at rem i = true <-> judged c) as Hmet.
    { intros j Hj ->. split; [apply round_len|]. intros i c Hc. rewrite (round_turn j i c) by done. unfold judged. split.
      - intros Ht. left. exists j. split; [by apply meets_round|done].
      - intros [(k & Hk%meets_round & Ht)|[Hno _]]; [|by destruct (Hno j); apply meets_round].
        apply (round_turn j i c Hc). apply (round_turn k i c Hc) in Ht. replace (round j) with (round k); [done|].
        destruct (Nat.le_ge_cases j k); [by apply round_meets|by symmetry; apply round_meets]. }
    destruct Hrem as [(j & Hj & Hr)|[Hno ->]]; [by apply (Hmet j)|].
    destruct Htell as [(k & Hk & Hr)|Hnever]; [by destruct (Hno k ltac:(lia))|].
    split; [apply round_len|]. intros i c Hc.
    change (seen_by (0 + S n)) with (round 1). rewrite (round_turn 1 i c) by done. unfold judged. split.
    - intros Ht. right. split; [|done]. intros k Hk. by apply (Hnever k), meets_round.
    - intros [(k & Hk%meets_round & _)|[_ Ht]]; [by destruct (Hnever k)|done]. }
  destruct (grow_members_exact rem Hl) as (add' & Hg' & Hla & Hm). assert (add' = add) as -> by congruence.
  split; [done|]. split; [done|]. split; [done|]. intros key. rewrite Hm.
  assert (forall c, c ∈ cs -> flagged rem c <-> judged c) as Hf.
  { intros x [j Hx]%list_elem_of_lookup. split; [intros (j' & Hj' & ?); by apply (Hj j')|]. intros ?. exists j. split; [done|by apply (Hj j x)]. }
  split; apply joined_ext; try done. intros x Hx. symmetry. by apply Hf.
Qed.
End Flags.

Section Answers.
Context (s : fzn_root_set) (acts : option fzn_act_log_ops).
Abbreviation held := (fun c => c ∈ change_rows s).
Abbreviation J := (judged (rs_genesis s) held acts).

Lemma flagged_judged rem : (forall i c, change_rows s !! i = Some c -> ok_at rem i = true <-> J c) ->
  forall c, c ∈ change_rows s -> flagged s rem c <-> J c.
Proof.
  intros H c [i Hi]%list_elem_of_lookup. split; [intros (j & Hj & Hok); by apply (H j)|].
  intros Hc. exists i. split; [done|by apply (H i c)].
Qed.

(** A view that was settled answers what is judged. *)
Lemma view_answers flags : set_sound s = true -> flags <> Some 0 -> rs_used s <= default FZN_ROOT_SET_MAX flags ->
  exists add rem, settle s acts = Some (add, rem) /\
    fzn_root_view_init_with s acts flags = Some (FZN_ROOT_LOG_OK, Some (mk_view s acts add rem)) /\
    forall key act,
      (member_in s add key = true <-> joined (rs_genesis s) held acts J key) /\
      (counts_in s acts add rem key act = true <-> joined (rs_genesis s) held acts J key /\ clear held acts J key act) /\
      (removed_in s rem key = true <-> exists c, c ∈ change_rows s /\ is_add c = false /\ J c /\ c_subject c = key).
Proof.
  intros Hs Hf Hu. destruct (settle_exact s acts) as (add & rem & Hset & Hla & Hlr & Hr & Hm). exists add, rem.
  pose proof (flagged_judged rem Hr) as Hfj. split; [done|]. split.
  - unfold fzn_root_view_init_with. rewrite Hs, Hset. cbn [negb orb].
    assert (match flags with Some capacity => capacity =? 0 | None => false end = false) as ->.
    { destruct flags as [k|]; [|done]. apply Z.eqb_neq. congruence. }
    destruct (Z.gtb_spec (rs_used s) (default FZN_ROOT_SET_MAX flags)); [lia|done].
  - intros key act. split; [apply Hm|]. split.
    + rewrite counts_in_true, Hm by done. apply and_iff_compat_l. unfold clear.
      split; intros H c Hc Ha Hj; apply H; auto; by apply Hfj.
    + rewrite removed_in_true by done. split.
      * intros (c & Hc & Ha & Hk). exists c. pose proof Hc as (i & Hi & _). apply list_elem_of_lookup_2 in Hi.
        split_and!; auto. by apply Hfj.
      * intros (c & Hc & Ha & Hj & Hk). exists c. split; [by apply Hfj|done].
Qed.

(** Either the turns meet in the one judgement that agrees with itself, or
    they never do. *)
Lemma judged_settles :
  ((forall c, held c -> J c <-> removals (rs_genesis s) held acts J c) /\
   (forall R, (forall c, held c -> R c <-> removals (rs_genesis s) held acts R c) -> forall c, held c -> R c <-> J c)) \/
  ((forall k, ~ meets (rs_genesis s) held acts k) /\
   (forall c, held c -> J c <-> removals (rs_genesis s) held acts (fun _ => False) c) /\
   (forall R, (forall c, held c -> R c <-> removals (rs_genesis s) held acts R c) -> forall c, held c -> R c -> J c)).
Proof.
  destruct (rounds_tell (next_mask s acts) (length (change_rows s)) (fun R _ => next_mask_length s acts R) (next_mask_anti s acts))
    as [(k & _ & Hk)|Hno].
  - left. apply meets_round in Hk.
    assert (forall c, held c -> J c <-> turn (rs_genesis s) held acts k c) as HJ.
    { intros c Hc. unfold judged. split; [|intros ?; left; by exists k].
      intros [(j & Hj & Ht)|[Hno _]]; [|by destruct (Hno k)]. apply meets_round in Hj, Hk. apply list_elem_of_lookup in Hc as [i Hi].
      apply (round_turn s acts k i c Hi). apply (round_turn s acts j i c Hi) in Ht.
      destruct (Nat.le_ge_cases j k); [rewrite (round_meets _ _ j k)|rewrite <- (round_meets _ _ k j)]; done. }
    assert (forall R, (forall c, held c -> R c <-> removals (rs_genesis s) held acts R c) -> forall c, held c -> R c <-> J c) as Hu.
    { intros R HR c Hc. rewrite HJ by done. by apply (agreed_is_met (rs_genesis s) held acts). }
    split; [|exact Hu]. intros c Hc. rewrite HJ by done. rewrite (Hk c Hc). cbn.
    split; apply removals_anti; intros x Hx; apply HJ; done.
  - right. split; [intros k Hk%meets_round; by apply (Hno k)|].
    assert (forall c, J c <-> turn (rs_genesis s) held acts 1 c) as HJ.
    { intros c. unfold judged. split; [intros [(k & Hk%meets_round & _)|[_ ?]]; [by destruct (Hno k)|done]|].
      intros Ht. right. split; [|done]. intros k Hk%meets_round. by apply (Hno k). }
    split; [intros c _; apply HJ|]. intros R HR c Hc Hx. apply HJ. by apply (agreed_below_first (rs_genesis s) held acts R).
Qed.
End Answers.

(** The roots of an estate are what its records say. On storage for its
    changes a reading of the set settles within the turns counted, and then:
    a key is a member when it is the genesis root or is added by an act that
    counts, and no more; an act counts when its root is a member and it stands
    under the cut of every removal of that root that counts; a root stands
    when it is a member that no counting removal names. Where any judgement of
    the removals agrees with itself and the rounds find it, a removal counts
    exactly when its remover is a member, the removals held counting, and no
    other judgement agrees so; where they never settle (however long they ran)
    every removal by a root that would be a member were nothing removed
    counts, which is as many as any judgement has. *)
Theorem roots_are_judged s acts flags :
  set_sound s = true -> flags <> Some 0 -> rs_used s <= default FZN_ROOT_SET_MAX flags ->
  let held c := c ∈ change_rows s in
  let J := judged (rs_genesis s) held acts in
  let agrees R := forall c, held c -> R c <-> removals (rs_genesis s) held acts R c in
  (exists v, fzn_root_view_init_with s acts flags = Some (FZN_ROOT_LOG_OK, Some v) /\
    forall key act,
      (member (fzn_root_view_ops v) key = true <-> joined (rs_genesis s) held acts J key) /\
      (root_counts (fzn_root_view_ops v) key act = true <-> joined (rs_genesis s) held acts J key /\ clear held acts J key act) /\
      (fzn_root_view_stands v key = true <->
         joined (rs_genesis s) held acts J key /\ ~ exists c, held c /\ is_add c = false /\ J c /\ c_subject c = key) /\
      (rs_used s <= FZN_ROOT_SET_MAX ->
         fzn_root_set_member s acts key = Some (fzn_root_view_member v key) /\
         fzn_root_set_counts s acts key act = Some (fzn_root_view_counts v key act) /\
         fzn_root_set_stands s acts key = Some (fzn_root_view_stands v key))) /\
  (agrees J /\ (forall R, agrees R -> forall c, held c -> R c <-> J c) \/
   (forall k, ~ meets (rs_genesis s) held acts k) /\
   (forall c, held c -> J c <-> removals (rs_genesis s) held acts (fun _ => False) c) /\
   forall R, agrees R -> forall c, held c -> R c -> J c).
Proof.
  intros Hs Hf Hu held J agrees. subst held J agrees. split; [|apply judged_settles].
  destruct (view_answers s acts flags Hs Hf Hu) as (add & rem & Hset & Hv & Ha). eexists. split; [exact Hv|]. intros key act.
  destruct (Ha key act) as (Hm & Hc & Hr). cbn [member root_counts fzn_root_view_ops].
  unfold fzn_root_view_member, fzn_root_view_counts, fzn_root_view_stands. cbn [v_set v_acts v_add v_rem]. rewrite Hs. cbn [andb].
  split; [done|]. split; [done|]. split; [by rewrite andb_true_iff, negb_true_iff, Hm, <- Hr, not_true_iff_false|].
  intros Hmax. unfold fzn_root_set_member, fzn_root_set_counts, fzn_root_set_stands. rewrite Hs. cbn [negb orb].
  destruct (Z.gtb_spec (rs_used s) FZN_ROOT_SET_MAX); [lia|]. by rewrite Hset.
Qed.

(** Two hosts that hold the same changes judge alike. Whatever order the
    records arrived in, on whatever storage, two sets from one genesis root
    that hold the same changes answer every question alike, asked through a
    view or not. *)
Theorem roots_do_not_depend_on_order s s' acts flags flags' :
  set_sound s = true -> set_sound s' = true -> flags <> Some 0 -> flags' <> Some 0 ->
  rs_used s <= default FZN_ROOT_SET_MAX flags -> rs_used s' <= default FZN_ROOT_SET_MAX flags' ->
  rs_genesis s = rs_genesis s' -> (forall c, c ∈ change_rows s <-> c ∈ change_rows s') ->
  exists v v', fzn_root_view_init_with s acts flags = Some (FZN_ROOT_LOG_OK, Some v) /\
    fzn_root_view_init_with s' acts flags' = Some (FZN_ROOT_LOG_OK, Some v') /\
    forall key act,
      fzn_root_view_member v key = fzn_root_view_member v' key /\
      fzn_root_view_counts v key act = fzn_root_view_counts v' key act /\
      fzn_root_view_stands v key = fzn_root_view_stands v' key.
Proof.
  intros Hs Hs' Hf Hf' Hu Hu' Hg Hc.
  destruct (view_answers s acts flags Hs Hf Hu) as (add & rem & _ & Hv & Ha).
  destruct (view_answers s' acts flags' Hs' Hf' Hu') as (add' & rem' & _ & Hv' & Ha').
  exists (mk_view s acts add rem), (mk_view s' acts add' rem'). split; [done|]. split; [done|]. intros key act.
  unfold fzn_root_view_member, fzn_root_view_counts, fzn_root_view_stands. cbn [v_set v_acts v_add v_rem]. rewrite Hs, Hs'. cbn [andb].
  destruct (Ha key act) as (Hm & Hn & Hr), (Ha' key act) as (Hm' & Hn' & Hr'). rewrite <- Hg in *.
  pose proof (judged_ext (rs_genesis s) _ _ acts Hc) as HJ.
  assert (forall k, joined (rs_genesis s) (fun c => c ∈ change_rows s) acts (judged (rs_genesis s) (fun c => c ∈ change_rows s) acts) k <->
    joined (rs_genesis s) (fun c => c ∈ change_rows s') acts (judged (rs_genesis s) (fun c => c ∈ change_rows s') acts) k) as Hjo.
  { intros k. split; apply joined_ext; try done; intros; by symmetry. }
  assert (member_in s add key = member_in s' add' key) as -> by (apply eq_true_iff_eq; rewrite Hm, Hm'; apply Hjo).
  assert (removed_in s rem key = removed_in s' rem' key) as ->.
  { apply eq_true_iff_eq. rewrite Hr, Hr'.
    split; intros (c & H1 & H2 & H3 & H4); exists c; (split; [by apply Hc|split; [done|split; [by apply HJ|done]]]). }
  split; [done|]. split; [|done]. apply eq_true_iff_eq. rewrite Hn, Hn', Hjo. apply and_iff_compat_l.
  split; intros H c H1 H2 H3 H4; (apply H; [by apply Hc|done|by apply HJ|done]).
Qed.

(** Root 1 adds 2 and 3, and 2 adds 4; then 2 and 3 remove each other, 3
    trusting what 2 did up to adding 4. *)
Definition demo_rkey (x : Z) : bytes := replicate 32 x.

Definition demo_changes : list fzn_root_change :=
  [mk_change 140 (demo_rkey 1) (demo_rkey 2) (zeros 32) (demo_rkey 11);
   mk_change 140 (demo_rkey 1) (demo_rkey 3) (zeros 32) (demo_rkey 12);
   mk_change 140 (demo_rkey 2) (demo_rkey 4) (zeros 32) (demo_rkey 13);
   mk_change 141 (demo_rkey 3) (demo_rkey 2) (demo_rkey 13) (demo_rkey 14);
   mk_change 141 (demo_rkey 2) (demo_rkey 3) (zeros 32) (demo_rkey 15)].

Definition demo_root_set : fzn_root_set := mk_rset (demo_rkey 1) (Some demo_changes) 5 5.
Definition demo_root_set' : fzn_root_set := mk_rset (demo_rkey 1) (Some (reverse demo_changes)) 5 5.

(** The acts on the chain that ends at a cut: the cut alone. *)
Definition demo_acts : option fzn_act_log_ops := Some (fun _ cut act => memeq cut act).

Lemma roots_are_judged_witness :
  let held c := c ∈ change_rows demo_root_set in
  let J := judged (demo_rkey 1) held demo_acts in
  joined (demo_rkey 1) held demo_acts J (demo_rkey 4) /\
  clear held demo_acts J (demo_rkey 2) (demo_rkey 13) /\
  (exists c, held c /\ is_add c = false /\ c_subject c = demo_rkey 2) /\
  fzn_root_set_stands demo_root_set demo_acts (demo_rkey 2) = Some false /\
  fzn_root_set_stands demo_root_set demo_acts (demo_rkey 3) = Some false /\
  fzn_root_set_stands demo_root_set demo_acts (demo_rkey 4) = Some true.
Proof.
  intros held J.
  destruct (roots_are_judged demo_root_set demo_acts (Some 5)) as [(v & Hv & Ha) _];
    [vm_compute; reflexivity|discriminate|vm_compute; discriminate|].
  assert (fzn_root_set_member demo_root_set demo_acts (demo_rkey 4) = Some true) as H4 by (vm_compute; reflexivity).
  assert (fzn_root_set_counts demo_root_set demo_acts (demo_rkey 2) (demo_rkey 13) = Some true) as H2 by (vm_compute; reflexivity).
  destruct (Ha (demo_rkey 4) []) as (Hm & _ & _ & [Hm' _]); [vm_compute; discriminate|].
  destruct (Ha (demo_rkey 2) (demo_rkey 13)) as (_ & Hc & _ & (_ & Hc' & _)); [vm_compute; discriminate|].
  split; [apply Hm; cbn [member fzn_root_view_ops]; congruence|].
  split; [apply Hc; cbn [root_counts fzn_root_view_ops]; congruence|].
  split; [|split_and!; vm_compute; reflexivity].
  exists (mk_change 141 (demo_rkey 3) (demo_rkey 2) (demo_rkey 13) (demo_rkey 14)).
  split; [|split; reflexivity]. apply list_elem_of_lookup. exists 3%nat. vm_compute. reflexivity.
Defined.

Lemma roots_do_not_depend_on_order_witness :
  exists v v', fzn_root_view_init_with demo_root_set demo_acts None = Some (FZN_ROOT_LOG_OK, Some v) /\
    fzn_root_view_init_with demo_root_set' demo_acts (Some 9) = Some (FZN_ROOT_LOG_OK, Some v') /\
    fzn_root_view_stands v (demo_rkey 4) = fzn_root_view_stands v' (demo_rkey 4).
Proof.
  destruct (roots_do_not_depend_on_order demo_root_set demo_root_set' demo_acts None (Some 9)) as (v & v' & Hv & Hv' & Ha);
    [vm_compute; reflexivity|vm_compute; reflexivity|discriminate|discriminate|vm_compute; discriminate|vm_compute; discriminate|reflexivity| |].
  - intros c. change (change_rows demo_root_set') with (reverse demo_changes).
    change (change_rows demo_root_set) with demo_changes. by rewrite elem_of_reverse.
  - exists v, v'. split; [exact Hv|]. split; [exact Hv'|]. apply (Ha (demo_rkey 4) []).
Defined.
