(* ===== verification/RootRules.v ===== *)
(** * chain/root_log.c: the estate's quorum and its retention rules

    A root sets the estate's [k], or a line of its retention rules, by a
    signed record that may name one it replaces. What holds is read from the
    records alone: those that count under the root set and that no counting
    record replaces. Records are laid end to end in a buffer; the pointers of
    a call are given, but where NULL is an answer. *)

From stdpp Require Import sorting.
From S2P Require Import Prelude Rounds Bytes Hop Revocation RootSet.

Definition FZN_OBJECT_QUORUM_SET : Z := 144.
Definition FZN_OBJECT_RETENTION_SET : Z := 145.
Definition FZN_QUORUM_SET_OFF_SETTER : Z := 2.
Definition FZN_QUORUM_SET_OFF_REPLACES : Z := 34.
Definition FZN_QUORUM_SET_OFF_K : Z := 66.
Definition FZN_QUORUM_SET_BODY_LEN : Z := 67.
Definition FZN_QUORUM_SET_LEN : Z := FZN_QUORUM_SET_BODY_LEN + FZN_SIG_LEN.
Definition QUORUM_SETTINGS_MAX : Z := 64.

(** [replaces] NULL is [None]. *)
Definition fzn_quorum_set_issue (setter : bytes) (k : Z) (replaces : option bytes) (ops : fzn_sign_ops) (out : bytes)
    : fzn_root_log_err * bytes :=
  match sign ops with
  | None => (FZN_ROOT_LOG_ERR_MALFORMED, out)
  | Some sign =>
    if k =? 0 then (FZN_ROOT_LOG_ERR_MALFORMED, out)
    else
      let out := poke out 0 FZN_SIGNED_VERSION in
      let out := poke out 1 FZN_OBJECT_QUORUM_SET in
      let out := blit FZN_QUORUM_SET_OFF_SETTER setter out in
      let out := blit FZN_QUORUM_SET_OFF_REPLACES (default (zeros FZN_ROOT_ACT_ID_LEN) replaces) out in
      let out := poke out FZN_QUORUM_SET_OFF_K k in
      match sign (slice 0 FZN_QUORUM_SET_BODY_LEN out) with
      | None => (FZN_ROOT_LOG_ERR_SIGNATURE, out)
      | Some sig => (FZN_ROOT_LOG_OK, blit FZN_QUORUM_SET_BODY_LEN sig out)
      end
  end.

Definition fzn_quorum_set_check (b : bytes) (ops : fzn_sign_ops) : fzn_root_log_err :=
  match verify ops with
  | None => FZN_ROOT_LOG_ERR_MALFORMED
  | Some verify =>
    if negb (zlen b =? FZN_QUORUM_SET_LEN) || negb (peek b 0 =? FZN_SIGNED_VERSION)
       || negb (peek b 1 =? FZN_OBJECT_QUORUM_SET) || (peek b FZN_QUORUM_SET_OFF_K =? 0)
    then FZN_ROOT_LOG_ERR_SHAPE
    else if negb (verify (slice FZN_QUORUM_SET_OFF_SETTER FZN_PUBKEY_LEN b) (slice 0 FZN_QUORUM_SET_BODY_LEN b)
                    (slice FZN_QUORUM_SET_BODY_LEN FZN_SIG_LEN b))
    then FZN_ROOT_LOG_ERR_SIGNATURE
    else FZN_ROOT_LOG_OK
  end.

(** ** Which records count and which are replaced

    Both resolutions begin alike: [recs] are the records, each with its setter
    at 2 and what it replaces at 34; a row is a record with its hash and
    whether it counts. *)

Record row := mk_row { w_record : bytes; w_id : bytes; w_counts : bool }.

Definition w_replaces (r : row) : bytes := slice FZN_QUORUM_SET_OFF_REPLACES FZN_ROOT_ACT_ID_LEN (w_record r).

(** The records of [len] bytes laid end to end, [n] of them from [i] on. *)
Definition laid (len : Z) (records : bytes) (n : nat) : list bytes :=
  (fun i => slice (Z.of_nat i * len) len records) <$> seq 0 n.

Fixpoint count_loop (recs : list bytes) (roots : option fzn_root_ops) (hash : fzn_hash_ops) : option (list row) :=
  match recs with
  | [] => Some []
  | r :: recs =>
    match hash FZN_ROOT_ACT_ID_LEN r with
    | None => None
    | Some id =>
      let c := match roots with
               | None => true
               | Some o => root_counts o (slice FZN_QUORUM_SET_OFF_SETTER FZN_PUBKEY_LEN r) id
               end in
      rows ← count_loop recs roots hash; Some (mk_row r id c :: rows)
    end
  end.

(** Another counting row replaces row [i]. *)
Definition replaced_at (rows : list row) (i : nat) (r : row) : bool :=
  existsb (fun '(j, x) => negb (j =? i)%nat && w_counts x && memeq (w_replaces x) (w_id r)) (zip (seq 0 (length rows)) rows).

(** ** The quorum *)

Definition w_k (r : row) : Z := peek (w_record r) FZN_QUORUM_SET_OFF_K.

(** Row [i] and those after it; [best] is the best yet. *)
Fixpoint best_loop (rows todo : list row) (i : nat) (best : option row) : option row :=
  match todo with
  | [] => best
  | r :: todo =>
    if negb (w_counts r) || replaced_at rows i r then best_loop rows todo (S i) best
    else
      best_loop rows todo (S i)
        (match best with
         | None => Some r
         | Some b => if (w_k r >? w_k b) || ((w_k r =? w_k b) && (memcmp (w_id r) (w_id b) <? 0)) then Some r else best
         end)
  end.

(** [capacity] is the scratch's; [None] is a zero result. *)
Definition fzn_quorum_winner_with (records : bytes) (count : Z) (roots : option fzn_root_ops) (hash : fzn_hash_ops)
    (capacity : Z) : option (Z * bytes) :=
  if (count =? 0) || (count >? capacity) then None
  else
    rows ← count_loop (laid FZN_QUORUM_SET_LEN records (Z.to_nat count)) roots hash;
    best ← best_loop rows rows 0 None;
    Some (w_k best, w_id best).

Definition fzn_quorum_winner (records : bytes) (count : Z) (roots : option fzn_root_ops) (hash : fzn_hash_ops)
    : option (Z * bytes) := fzn_quorum_winner_with records count roots hash QUORUM_SETTINGS_MAX.

Definition fzn_quorum_resolve (records : bytes) (count : Z) (roots : option fzn_root_ops) (hash : fzn_hash_ops)
    (fallback : Z) : Z :=
  match fzn_quorum_winner records count roots hash with Some (k, _) => k | None => fallback end.

(** ** Retention *)

Definition FZN_RETENTION_SET_OFF_SETTER : Z := 2.
Definition FZN_RETENTION_SET_OFF_REPLACES : Z := 34.
Definition FZN_RETENTION_SET_OFF_TEXT : Z := 66.
Definition FZN_RETENTION_SET_TEXT_MAX : Z := 128.
Definition FZN_RETENTION_SET_BODY_LEN : Z := FZN_RETENTION_SET_OFF_TEXT + FZN_RETENTION_SET_TEXT_MAX.
Definition FZN_RETENTION_SET_LEN : Z := FZN_RETENTION_SET_BODY_LEN + FZN_SIG_LEN.
Definition RETENTION_RECORDS_MAX : Z := 64.

Definition printable (x : Z) : bool := (32 <=? x) && (x <=? 126).

(** [text] NULL is [None]. *)
Definition fzn_retention_set_issue (setter : bytes) (text : option bytes) (len : Z) (replaces : option bytes)
    (ops : fzn_sign_ops) (out : bytes) : fzn_root_log_err * bytes :=
  let given := slice 0 len (default [] text) in
  match sign ops with
  | None => (FZN_ROOT_LOG_ERR_MALFORMED, out)
  | Some sign =>
    if (is_null text && negb (len =? 0)) || (len >=? FZN_RETENTION_SET_TEXT_MAX) || ((len =? 0) && is_null replaces)
    then (FZN_ROOT_LOG_ERR_MALFORMED, out)
    else if negb (forallb printable given) then (FZN_ROOT_LOG_ERR_MALFORMED, out)
    else
      let out := poke out 0 FZN_SIGNED_VERSION in
      let out := poke out 1 FZN_OBJECT_RETENTION_SET in
      let out := blit FZN_RETENTION_SET_OFF_SETTER setter out in
      let out := blit FZN_RETENTION_SET_OFF_REPLACES (default (zeros FZN_ROOT_ACT_ID_LEN) replaces) out in
      let out := blit FZN_RETENTION_SET_OFF_TEXT (zeros FZN_RETENTION_SET_TEXT_MAX) out in
      let out := blit FZN_RETENTION_SET_OFF_TEXT given out in
      match sign (slice 0 FZN_RETENTION_SET_BODY_LEN out) with
      | None => (FZN_ROOT_LOG_ERR_SIGNATURE, out)
      | Some sig => (FZN_ROOT_LOG_OK, blit FZN_RETENTION_SET_BODY_LEN sig out)
      end
  end.

(** The printable bytes a field begins with. *)
Fixpoint text_run (field : bytes) : Z :=
  match field with
  | x :: field => if printable x then 1 + text_run field else 0
  | [] => 0
  end.

Definition retention_text_len (field : bytes) : Z :=
  let n := text_run field in
  if negb (forallb (fun x => x =? 0) (drop (Z.to_nat n) field)) then -1
  else if n =? FZN_RETENTION_SET_TEXT_MAX then -1 else n.

Definition text_field (b : bytes) : bytes := slice FZN_RETENTION_SET_OFF_TEXT FZN_RETENTION_SET_TEXT_MAX b.

Definition fzn_retention_set_check (b : bytes) (ops : fzn_sign_ops) : fzn_root_log_err :=
  match verify ops with
  | None => FZN_ROOT_LOG_ERR_MALFORMED
  | Some verify =>
    if negb (zlen b =? FZN_RETENTION_SET_LEN) || negb (peek b 0 =? FZN_SIGNED_VERSION)
       || negb (peek b 1 =? FZN_OBJECT_RETENTION_SET)
    then FZN_ROOT_LOG_ERR_SHAPE
    else
      let n := retention_text_len (text_field b) in
      if (n <? 0) || ((n =? 0) && memeq (slice FZN_RETENTION_SET_OFF_REPLACES FZN_ROOT_ACT_ID_LEN b) (zeros FZN_ROOT_ACT_ID_LEN))
      then FZN_ROOT_LOG_ERR_SHAPE
      else if negb (verify (slice FZN_RETENTION_SET_OFF_SETTER FZN_PUBKEY_LEN b) (slice 0 FZN_RETENTION_SET_BODY_LEN b)
                      (slice FZN_RETENTION_SET_BODY_LEN FZN_SIG_LEN b))
      then FZN_ROOT_LOG_ERR_SIGNATURE
      else FZN_ROOT_LOG_OK
  end.

(** [current[i]]: counting, with text, and replaced by no counting record. *)
Definition current_at (rows : list row) (i : nat) (r : row) : bool :=
  w_counts r && (retention_text_len (text_field (w_record r)) >? 0) && negb (replaced_at rows i r).

Definition current_flags (rows : list row) : list bool :=
  (fun '(i, r) => current_at rows i r) <$> zip (seq 0 (length rows)) rows.

(** The least of the rows flagged, from row [i] on. *)
Fixpoint least_loop (todo : list row) (flags : list bool) (i : nat) (least : option (nat * row)) : option (nat * row) :=
  match todo, flags with
  | r :: todo, f :: flags =>
    least_loop todo flags (S i)
      (if f then match least with
                 | None => Some (i, r)
                 | Some (_, l) => if memcmp (w_id r) (w_id l) <? 0 then Some (i, r) else least
                 end
       else least)
  | _, _ => least
  end.

(** What [each] is called with: the text and the hash. *)
Definition handed_of (r : row) : bytes * bytes :=
  let t := text_field (w_record r) in (slice 0 (retention_text_len t) t, w_id r).

(** [for (;;)], [fuel] passes at most; each but the last hands one over. *)
Fixpoint hand_loop (fuel : nat) (rows : list row) (flags : list bool) : option (list (bytes * bytes)) :=
  match fuel with
  | O => None
  | S fuel =>
    match least_loop rows flags 0 None with
    | None => Some []
    | Some (i, r) => rest ← hand_loop fuel rows (<[i := false]> flags); Some (handed_of r :: rest)
    end
  end.

(** What is handed over, in order, its length the result; [None] is -1. The
    outer [None] is out of passes. *)
Definition fzn_retention_current_with (records : bytes) (count : Z) (roots : option fzn_root_ops) (hash : fzn_hash_ops)
    (capacity : Z) : option (option (list (bytes * bytes))) :=
  if count >? capacity then Some None
  else match count_loop (laid FZN_RETENTION_SET_LEN records (Z.to_nat count)) roots hash with
  | None => Some None
  | Some rows => Some <$> hand_loop (S (length rows)) rows (current_flags rows)
  end.

Definition fzn_retention_current (records : bytes) (count : Z) (roots : option fzn_root_ops) (hash : fzn_hash_ops)
    : option (option (list (bytes * bytes))) :=
  fzn_retention_current_with records count roots hash RETENTION_RECORDS_MAX.

(** ** Which rows stand *)

(** A row that counts and that no other counting row replaces. *)
Definition standing (rows : list row) (r : row) : Prop :=
  exists others, rows ≡ₚ r :: others /\ w_counts r = true /\
    forall x, x ∈ others -> w_counts x = true -> w_replaces x <> w_id r.

#[export] Instance standing_proper : Proper ((≡ₚ) ==> eq ==> iff) standing.
Proof. intros l l' Hl r ? <-. unfold standing. by setoid_rewrite Hl. Qed.

Lemma replaced_at_true rows i r :
  replaced_at rows i r = true <-> exists j x, rows !! j = Some x /\ j <> i /\ w_counts x = true /\ w_replaces x = w_id r.
Proof.
  unfold replaced_at. rewrite existsb_lookup. split.
  - intros (k & [j x] & Hz & Ht). apply lookup_zip_with_Some in Hz as (? & ? & [= <- <-] & Hj & Hx).
    apply lookup_seq in Hj as [-> _]. bool_props. exists k, x. split_and!; auto. by apply Nat.eqb_neq.
  - intros (j & x & Hx & Hne & Hc & Hr). exists j, (j, x). split.
    + apply lookup_zip_with_Some. exists j, x. split_and!; auto. apply lookup_seq. split; [done|by eapply lookup_lt_Some].
    + rewrite Hc, Hr, memeq_refl. by destruct (Nat.eqb_spec j i).
Qed.

Lemma elem_of_delete_at {A} (l : list A) i x : x ∈ delete i l <-> exists j, l !! j = Some x /\ j <> i.
Proof.
  rewrite list_elem_of_lookup. split.
  - intros [j Hj]. destruct (decide (j < i)%nat).
    + rewrite list_lookup_delete_lt in Hj by done. exists j. split; [done|lia].
    + rewrite list_lookup_delete_ge in Hj by lia. exists (S j). split; [done|lia].
  - intros (j & Hj & Hne). destruct (decide (j < i)%nat).
    + exists j. by rewrite list_lookup_delete_lt.
    + exists (j - 1)%nat. rewrite list_lookup_delete_ge by lia. by replace (S (j - 1)) with j by lia.
Qed.

Lemma standing_at rows i r : rows !! i = Some r ->
  (forall x, x ∈ delete i rows -> w_counts x = true -> w_replaces x <> w_id r) <-> replaced_at rows i r = false.
Proof.
  intros Hi. rewrite <- not_true_iff_false, replaced_at_true. setoid_rewrite elem_of_delete_at. naive_solver.
Qed.

(** The scans find the rows that stand. *)
Lemma standing_iff rows r :
  standing rows r <-> exists i, rows !! i = Some r /\ w_counts r = true /\ replaced_at rows i r = false.
Proof.
  split.
  - intros (others & Hp & Hc & Hno). assert (r ∈ rows) as [i Hi]%list_elem_of_lookup by (rewrite Hp; by apply elem_of_cons; left).
    exists i. split_and!; auto. apply standing_at; [done|]. intros x Hx. apply Hno.
    rewrite (delete_Permutation _ _ _ Hi) in Hp. apply Permutation_cons_inv in Hp. by rewrite <- Hp.
  - intros (i & Hi & Hc & Hno). exists (delete i rows). split_and!; [by apply delete_Permutation|done|by apply standing_at].
Qed.

Lemma count_loop_mapM recs roots hash :
  count_loop recs roots hash =
  mapM (fun r => id ← hash FZN_ROOT_ACT_ID_LEN r;
    Some (mk_row r id (match roots with None => true
                       | Some o => root_counts o (slice FZN_QUORUM_SET_OFF_SETTER FZN_PUBKEY_LEN r) id end))) recs.
Proof.
  induction recs as [|r recs IH]; [done|]. cbn [count_loop mapM]. destruct (hash _ r) as [id|]; [|done]. cbn. by rewrite IH.
Qed.

(** Records in another order give the rows in another order. *)
Lemma count_loop_perm recs recs' roots hash rows : recs ≡ₚ recs' -> count_loop recs roots hash = Some rows ->
  exists rows', count_loop recs' roots hash = Some rows' /\ rows ≡ₚ rows'.
Proof.
  rewrite !count_loop_mapM. intros Hp Hm. apply mapM_Some in Hm.
  destruct (Permutation_Forall2 Hp Hm) as (rows' & Hp' & Hf). exists rows'. split; [|done]. by apply mapM_Some.
Qed.

(** The hash answers as many bytes as it is asked for. *)
Definition ids_fit (rows : list row) : Prop := forall r, r ∈ rows -> length (w_id r) = Z.to_nat FZN_ROOT_ACT_ID_LEN.

Lemma count_loop_ids recs roots hash rows : hash_fits hash ->
  count_loop recs roots hash = Some rows -> ids_fit rows.
Proof.
  intros Hh. rewrite count_loop_mapM. intros Hm%mapM_Some r Hr. apply list_elem_of_lookup in Hr as [i Hi].
  destruct (Forall2_lookup_r _ _ _ _ _ Hm Hi) as (x & _ & Hx). destruct (hash _ x) as [id|] eqn:E; [|done].
  cbn in Hx. simplify_eq. cbn. apply Hh in E as [E _]. unfold zlen in E. change (Z.to_nat FZN_ROOT_ACT_ID_LEN) with 32%nat. lia.
Qed.

(** ** The quorum is the highest that stands *)

(** [b] wins over [x], or is like it. *)
Definition wins (b x : row) : Prop := w_k x < w_k b \/ w_k x = w_k b /\ memcmp (w_id b) (w_id x) <= 0.

Lemma wins_refl r : wins r r.
Proof. right. split; [done|]. by rewrite (proj2 (memcmp_zero _ _ eq_refl)). Qed.

Lemma wins_trans a b c : length (w_id a) = length (w_id b) -> length (w_id b) = length (w_id c) ->
  wins a b -> wins b c -> wins a c.
Proof.
  unfold wins. intros H1 H2 [?|[-> ?]] [?|[-> ?]]; [left; lia|left; lia|left; lia|right]. split; [done|]. by eapply memcmp_trans.
Qed.

(** The test of the loop. *)
Lemma wins_test r b :
  if (w_k r >? w_k b) || ((w_k r =? w_k b) && (memcmp (w_id r) (w_id b) <? 0)) then wins r b else wins b r.
Proof.
  unfold wins. rewrite (memcmp_opp (w_id r) (w_id b)).
  destruct (Z.gtb_spec (w_k r) (w_k b)); cbn [orb]; [left; lia|].
  destruct (Z.eqb_spec (w_k r) (w_k b)); cbn [andb]; [|left; lia].
  destruct (Z.ltb_spec (memcmp (w_id r) (w_id b)) 0); right; lia.
Qed.

Lemma best_loop_spec rows : ids_fit rows -> forall todo i best,
  (forall k r, todo !! k = Some r -> rows !! (i + k)%nat = Some r) -> (forall b, best = Some b -> b ∈ rows) ->
  let up x := best = Some x \/ exists k, todo !! k = Some x /\ w_counts x = true /\ replaced_at rows (i + k) x = false in
  match best_loop rows todo i best with
  | Some b => up b /\ forall x, up x -> wins b x
  | None => forall x, ~ up x
  end.
Proof.
  intros Hf. induction todo as [|r todo IH]; intros i best Htodo Hbest; cbn [best_loop]; cbv beta zeta.
  { destruct best as [b|]; [|by intros x [?|(k & Hk & _)]]. split; [by left|].
    intros x [[= ->]|(k & Hk & _)]; [apply wins_refl|done]. }
  assert (rows !! i = Some r) as Hr by (rewrite <- (Nat.add_0_r i); by apply (Htodo 0%nat)).
  assert (forall k x, todo !! k = Some x -> rows !! (S i + k)%nat = Some x) as Htodo'
    by (intros k x Hk; replace (S i + k)%nat with (i + S k)%nat by lia; by apply Htodo).
  (* up, for the rest *)
  assert (forall best', (forall b, best' = Some b -> b ∈ rows) ->
    (forall x, best' = Some x -> best = Some x \/ x = r /\ w_counts r = true /\ replaced_at rows i r = false) ->
    (forall x, best = Some x \/ x = r /\ w_counts r = true /\ replaced_at rows i r = false -> exists b, best' = Some b /\ wins b x) ->
    let up x := best = Some x \/ exists k, (r :: todo) !! k = Some x /\ w_counts x = true /\ replaced_at rows (i + k) x = false in
    match best_loop rows todo (S i) best' with
    | Some b => up b /\ forall x, up x -> wins b x
    | None => forall x, ~ up x
    end) as Hstep.
  { intros best' Hb' Hin Hout up. specialize (IH (S i) best' Htodo' Hb'). cbv beta zeta in IH.
    assert (forall x, up x <-> best = Some x \/ (x = r /\ w_counts r = true /\ replaced_at rows i r = false) \/
      exists k, todo !! k = Some x /\ w_counts x = true /\ replaced_at rows (S i + k) x = false) as Hup.
    { intros x. unfold up. split.
      - intros [?|([|k] & Hk & ? & ?)]; [by left|right; left|right; right].
        + cbn in Hk. simplify_eq. by rewrite Nat.add_0_r in *.
        + exists k. by replace (S i + k)%nat with (i + S k)%nat by lia.
      - intros [?|[(-> & ? & ?)|(k & ? & ? & ?)]]; [by left|right; exists 0%nat; by rewrite Nat.add_0_r|right; exists (S k)].
        split; [done|]. by replace (i + S k)%nat with (S i + k)%nat by lia. }
    destruct (best_loop rows todo (S i) best') as [b|].
    - destruct IH as [Hb Hw]. assert (b ∈ rows) as Hbin.
      { destruct Hb as [?|(k & Hk & _)]; [by apply Hb'|by eapply list_elem_of_lookup_2, Htodo']. }
      split; [apply Hup; destruct Hb as [[?|?]%Hin|?]; auto|].
      intros x [Hx|[Hx|Hx]]%Hup; [| |by apply Hw; right].
      all: destruct (Hout x ltac:(auto)) as (c & Hc & Hcx); apply (wins_trans b c x); [| |by apply Hw; left|done].
      all: rewrite !Hf; try done; try (by apply Hb').
      + by apply Hbest.
      + destruct Hx as [-> _]. by eapply list_elem_of_lookup_2.
    - intros x [Hx|[Hx|Hx]]%Hup; [| |by apply (IH x); right];
        destruct (Hout x ltac:(auto)) as (c & Hc & _); apply (IH c); by left. }
  destruct (negb (w_counts r) || replaced_at rows i r) eqn:E.
  - apply Hstep; auto. intros x [Hx|(-> & Hc & Hr')]; [exists x; split; [done|apply wins_refl]|]. by rewrite Hc, Hr' in E.
  - apply orb_false_iff in E as [Hc%negb_false_iff Hr']. pose proof (list_elem_of_lookup_2 _ _ _ Hr) as Hrin.
    destruct best as [b|].
    + pose proof (wins_test r b) as Ht. destruct ((w_k r >? w_k b) || _); apply Hstep.
      * by intros x [= <-].
      * intros x [= <-]. by right.
      * intros x [[= <-]|(-> & _)]; exists r; split; auto using wins_refl.
      * auto.
      * auto.
      * intros x [[= <-]|(-> & _)]; exists b; split; auto using wins_refl.
    + apply Hstep.
      * by intros x [= <-].
      * intros x [= <-]. by right.
      * intros x [?|(-> & _)]; [done|]. exists r. split; [done|apply wins_refl].
Qed.

Lemma best_is_highest rows : ids_fit rows ->
  match best_loop rows rows 0 None with
  | Some b => standing rows b /\ forall x, standing rows x -> wins b x
  | None => forall x, ~ standing rows x
  end.
Proof.
  intros Hf. pose proof (best_loop_spec rows Hf rows 0 None (fun k r H => H) ltac:(done)) as H. cbv beta zeta in H.
  assert (forall x, standing rows x <-> None = Some x \/ exists k, rows !! k = Some x /\ w_counts x = true /\ replaced_at rows (0 + k) x = false) as Hs.
  { intros x. rewrite standing_iff. naive_solver. }
  destruct (best_loop rows rows 0 None) as [b|]; [|intros x Hx; by apply (H x), Hs].
  destruct H as [Hb Hw]. split; [by apply Hs|]. intros x Hx. by apply Hw, Hs.
Qed.

(** The estate's quorum is the highest that stands. Read from settings
    that hash, the answer is the [k] and the hash of a setting that counts and
    that no counting setting replaces, the highest there is, and the lower
    hash between two as high; none is answered exactly when none stands; and
    the settings in any other order give the same answer. *)
Theorem quorum_is_highest records count roots hash capacity rows :
  hash_fits hash -> 0 < count <= capacity ->
  count_loop (laid FZN_QUORUM_SET_LEN records (Z.to_nat count)) roots hash = Some rows ->
  match fzn_quorum_winner_with records count roots hash capacity with
  | Some (k, id) => exists r, standing rows r /\ w_k r = k /\ w_id r = id /\
      forall x, standing rows x -> w_k x < k \/ w_k x = k /\ memcmp id (w_id x) <= 0
  | None => forall x, ~ standing rows x
  end /\
  forall records', laid FZN_QUORUM_SET_LEN records (Z.to_nat count) ≡ₚ laid FZN_QUORUM_SET_LEN records' (Z.to_nat count) ->
    fzn_quorum_winner_with records' count roots hash capacity = fzn_quorum_winner_with records count roots hash capacity.
Proof.
  intros Hh Hc Hrows. unfold fzn_quorum_winner_with.
  destruct (Z.eqb_spec count 0); [lia|]. destruct (Z.gtb_spec count capacity); [lia|]. cbn [orb]. rewrite Hrows. cbn [mbind option_bind].
  pose proof (count_loop_ids _ _ _ _ Hh Hrows) as Hf. pose proof (best_is_highest rows Hf) as Hb. split.
  - destruct (best_loop rows rows 0 None) as [b|]; [|done]. cbn. destruct Hb as [Hs Hw]. by exists b.
  - intros records' Hp. destruct (count_loop_perm _ _ _ _ _ Hp Hrows) as (rows' & Hrows' & Hpr). rewrite Hrows'. cbn [mbind option_bind].
    pose proof (count_loop_ids _ _ _ _ Hh Hrows') as Hf'. pose proof (best_is_highest rows' Hf') as Hb'.
    destruct (best_loop rows rows 0 None) as [b|], (best_loop rows' rows' 0 None) as [b'|]; cbn; auto.
    + destruct Hb as [Hs Hw], Hb' as [Hs' Hw']. specialize (Hw b' ltac:(by rewrite Hpr)). specialize (Hw' b ltac:(by rewrite <- Hpr)).
      apply standing_iff in Hs as (? & Hs%list_elem_of_lookup_2 & _), Hs' as (? & Hs'%list_elem_of_lookup_2 & _).
      unfold wins in Hw, Hw'. rewrite (memcmp_opp (w_id b) (w_id b')) in Hw'.
      f_equal. f_equal; [lia|]. symmetry. apply memcmp_zero; [by rewrite (Hf b), (Hf' b')|]. lia.
    + destruct Hb as [Hs _]. exfalso. apply (Hb' b). by rewrite <- Hpr.
    + destruct Hb' as [Hs' _]. exfalso. apply (Hb b'). by rewrite Hpr.
Qed.

(** ** The rules are those that stand *)

(** The rows flagged, in order. *)
Fixpoint picked (rows : list row) (flags : list bool) : list row :=
  match rows, flags with
  | r :: rows, f :: flags => if f then r :: picked rows flags else picked rows flags
  | _, _ => []
  end.

Definition id_le (a b : row) : Prop := memcmp (w_id a) (w_id b) <= 0.

Lemma id_le_refl r : id_le r r.
Proof. unfold id_le. by rewrite (proj2 (memcmp_zero _ _ eq_refl)). Qed.

Lemma id_le_trans a b c : length (w_id a) = length (w_id b) -> length (w_id b) = length (w_id c) ->
  id_le a b -> id_le b c -> id_le a c.
Proof. intros. by eapply memcmp_trans. Qed.

Lemma picked_elem rows : forall flags r, r ∈ picked rows flags <-> exists i, rows !! i = Some r /\ ok_at flags i = true.
Proof.
  induction rows as [|x rows IH]; intros [|f flags] r; cbn [picked].
  - split; [by intros ?%not_elem_of_nil|by intros (i & ? & ?)].
  - split; [by intros ?%not_elem_of_nil|by intros (i & ? & ?)].
  - split; [by intros ?%not_elem_of_nil|by intros (i & _ & ?)].
  - assert (r ∈ picked rows flags <-> exists i, (x :: rows) !! S i = Some r /\ ok_at (f :: flags) (S i) = true) as E by apply IH.
    destruct f; [rewrite elem_of_cons|]; rewrite E; split.
    + intros [->|(i & ? & ?)]; [by exists 0%nat|by exists (S i)].
    + intros ([|i] & ? & ?); [left; by simplify_eq/=|right; by exists i].
    + intros (i & ? & ?). by exists (S i).
    + intros ([|i] & ? & ?); [done|by exists i].
Qed.

Lemma picked_sublist rows : forall flags, sublist (picked rows flags) rows.
Proof.
  induction rows as [|x rows IH]; intros [|f flags]; cbn [picked]; try apply sublist_nil_l.
  destruct f; [by apply sublist_skip|by apply sublist_cons].
Qed.

(** A row taken out. *)
Lemma picked_clear rows : forall flags i r, rows !! i = Some r -> ok_at flags i = true ->
  picked rows flags ≡ₚ r :: picked rows (<[i := false]> flags).
Proof.
  induction rows as [|x rows IH]; intros [|f flags] [|i] r Hi Hok; try done.
  - cbn in *. by simplify_eq.
  - cbn [insert list_insert picked]. specialize (IH flags i r Hi Hok). destruct f; [|done]. rewrite IH. apply Permutation_swap.
Qed.

Lemma least_loop_spec : forall todo flags i least,
  (forall x, x ∈ todo -> length (w_id x) = Z.to_nat FZN_ROOT_ACT_ID_LEN) ->
  (forall j l, least = Some (j, l) -> length (w_id l) = Z.to_nat FZN_ROOT_ACT_ID_LEN) ->
  match least_loop todo flags i least with
  | Some (j, l) =>
    (least = Some (j, l) \/ exists k, j = (i + k)%nat /\ todo !! k = Some l /\ ok_at flags k = true) /\
    (forall j' l', least = Some (j', l') -> id_le l l') /\ (forall x, x ∈ picked todo flags -> id_le l x)
  | None => least = None /\ picked todo flags = []
  end.
Proof.
  induction todo as [|r todo IH]; intros flags i least Ht Hl; cbn [least_loop].
  { destruct least as [[j l]|]; [|done]. split; [by left|]. split; [intros ? ? [= <- <-]; apply id_le_refl|]. by intros x ?%not_elem_of_nil. }
  destruct flags as [|f flags].
  { destruct least as [[j l]|]; [|done]. split; [by left|]. split; [intros ? ? [= <- <-]; apply id_le_refl|]. by intros x ?%not_elem_of_nil. }
  assert (length (w_id r) = Z.to_nat FZN_ROOT_ACT_ID_LEN) as Hr by (apply Ht; by apply elem_of_cons; left).
  set (least' := if f then _ else least).
  assert (forall j l, least' = Some (j, l) -> least = Some (j, l) \/ j = i /\ l = r /\ f = true) as Hfrom.
  { unfold least'. intros j l. destruct f; [|by left]. destruct least as [[j0 l0]|]; [|intros [= <- <-]; by right].
    destruct (_ <? 0); [intros [= <- <-]; by right|by left]. }
  assert (forall j l, least = Some (j, l) \/ j = i /\ l = r /\ f = true -> exists j' l', least' = Some (j', l') /\ id_le l' l) as Hto.
  { unfold least'. intros j l H. destruct f; [|destruct H as [->|(_ & _ & ?)]; [|done]; exists j, l; split; [done|apply id_le_refl]].
    destruct least as [[j0 l0]|]; [|destruct H as [?|(-> & -> & _)]; [done|]; exists i, r; split; [done|apply id_le_refl]].
    destruct (Z.ltb_spec (memcmp (w_id r) (w_id l0)) 0) as [Hlt|Hge].
    - exists i, r. split; [done|]. destruct H as [[= <- <-]|(-> & -> & _)]; [unfold id_le; lia|apply id_le_refl].
    - exists j0, l0. split; [done|]. destruct H as [[= <- <-]|(-> & -> & _)]; [apply id_le_refl|].
      unfold id_le. rewrite memcmp_opp. lia. }
  assert (forall j l, least' = Some (j, l) -> length (w_id l) = Z.to_nat FZN_ROOT_ACT_ID_LEN) as Hl'.
  { intros j l [?|(_ & -> & _)]%Hfrom; [by eapply Hl|done]. }
  specialize (IH flags (S i) least' ltac:(intros; apply Ht; by apply elem_of_cons; right) Hl').
  destruct (least_loop todo flags (S i) least') as [[j l]|].
  - destruct IH as (Hw & Hle & Hp).
    assert (length (w_id l) = Z.to_nat FZN_ROOT_ACT_ID_LEN) as Hll.
    { destruct Hw as [?|(k & _ & Hk & _)]; [by eapply Hl'|]. apply Ht, elem_of_cons. right. by eapply list_elem_of_lookup_2. }
    assert (forall j' l', least = Some (j', l') \/ j' = i /\ l' = r /\ f = true -> id_le l l') as Hall.
    { intros j' l' H. destruct (Hto j' l' H) as (j2 & l2 & H2 & Hle2). apply (id_le_trans l l2 l'); [| |by eapply Hle|done].
      - rewrite Hll. symmetry. by eapply Hl'.
      - rewrite (Hl' _ _ H2). symmetry. destruct H as [?|(_ & -> & _)]; [by eapply Hl|done]. }
    split; [|split; [intros j' l' H; apply (Hall j' l'); by left|]].
    + destruct Hw as [[?|(-> & -> & ->)]%Hfrom|(k & -> & Hk & Hok)]; [by left|right; exists 0%nat; by rewrite Nat.add_0_r|].
      right. exists (S k). split; [lia|done].
    + cbn [picked]. destruct f; [|done]. intros x [->|Hx]%elem_of_cons; [|by apply Hp]. apply (Hall i r). auto.
  - destruct IH as [Hn Hp]. assert (forall j l, least = Some (j, l) \/ j = i /\ l = r /\ f = true -> False) as Hno.
    { intros j l H. destruct (Hto j l H) as (? & ? & ? & _). congruence. }
    split; [destruct least as [[j l]|]; [exfalso; apply (Hno j l); by left|done]|].
    cbn [picked]. destruct f; [exfalso; apply (Hno i r); by right|done].
Qed.

(** The passes hand over the flagged rows, sorted. *)
Lemma hand_loop_spec rows : ids_fit rows -> forall fuel flags, (length (picked rows flags) < fuel)%nat ->
  exists sorted, hand_loop fuel rows flags = Some (handed_of <$> sorted) /\ sorted ≡ₚ picked rows flags /\ StronglySorted id_le sorted.
Proof.
  intros Hf. induction fuel as [|fuel IH]; intros flags Hn; [lia|]. cbn [hand_loop].
  pose proof (least_loop_spec rows flags 0 None (fun x Hx => Hf x Hx) ltac:(done)) as Hl.
  destruct (least_loop rows flags 0 None) as [[j l]|].
  - destruct Hl as ([?|(k & -> & Hk & Hok)] & _ & Hle); [done|]. cbn [Nat.add] in *.
    pose proof (picked_clear rows flags k l Hk Hok) as Hp.
    destruct (IH (<[k := false]> flags)) as (sorted & -> & Hs & Hss); [rewrite Hp in Hn; cbn in Hn; lia|].
    exists (l :: sorted). split; [done|]. split; [by rewrite Hp, Hs|]. constructor; [done|]. apply list.Forall_forall.
    intros x Hx. apply Hle. rewrite Hp, <- Hs. apply elem_of_cons. by right.
  - destruct Hl as [_ ->]. exists []. split; [done|]. split; [done|constructor].
Qed.

Lemma current_flags_at rows i r : rows !! i = Some r -> ok_at (current_flags rows) i = current_at rows i r.
Proof.
  intros Hi. unfold ok_at, current_flags. rewrite list_lookup_fmap.
  rewrite (proj2 (lookup_zip_with_Some pair (seq 0 (length rows)) rows i (i, r))); [done|].
  exists i, r. split_and!; auto. apply lookup_seq. split; [done|by eapply lookup_lt_Some].
Qed.

(** A row with text that stands. *)
Definition is_rule (rows : list row) (r : row) : Prop := standing rows r /\ 0 < retention_text_len (text_field (w_record r)).

Lemma picked_current rows r : r ∈ picked rows (current_flags rows) <-> is_rule rows r.
Proof.
  rewrite picked_elem. unfold is_rule. rewrite standing_iff. split.
  - intros (i & Hi & Hc). rewrite (current_flags_at _ _ _ Hi) in Hc. unfold current_at in Hc.
    apply andb_true_iff in Hc as [[Hc Ht]%andb_true_iff Hr%negb_true_iff]. apply Z.gtb_lt in Ht.
    split; [by exists i|done].
  - intros [(i & Hi & Hc & Hr) Ht]. exists i. split; [done|]. rewrite (current_flags_at _ _ _ Hi). unfold current_at.
    rewrite Hc, Hr. apply Z.gtb_lt in Ht. by rewrite Ht.
Qed.

(** The estate's rules are the lines that stand, each once. Read from
    records that hash, the passes end, and what is handed over is the text and
    the hash of every record that counts, carries text and is replaced by no
    counting record, in the order of their hashes; where no two records hash
    alike each is handed over once, and the records in any other order give
    the same rules in the same order. *)
Theorem retention_rules_are_current records count roots hash capacity rows :
  hash_fits hash -> 0 <= count <= capacity ->
  count_loop (laid FZN_RETENTION_SET_LEN records (Z.to_nat count)) roots hash = Some rows ->
  exists sorted, fzn_retention_current_with records count roots hash capacity = Some (Some (handed_of <$> sorted)) /\
    (forall r, r ∈ sorted <-> is_rule rows r) /\ StronglySorted id_le sorted /\
    (NoDup (w_id <$> rows) ->
       NoDup (w_id <$> sorted) /\
       forall records', laid FZN_RETENTION_SET_LEN records (Z.to_nat count) ≡ₚ laid FZN_RETENTION_SET_LEN records' (Z.to_nat count) ->
         fzn_retention_current_with records' count roots hash capacity = Some (Some (handed_of <$> sorted))).
Proof.
  intros Hh Hc Hrows. unfold fzn_retention_current_with. destruct (Z.gtb_spec count capacity); [lia|]. rewrite Hrows.
  assert (forall rows, ids_fit rows -> exists sorted, hand_loop (S (length rows)) rows (current_flags rows) = Some (handed_of <$> sorted) /\
    sorted ≡ₚ picked rows (current_flags rows) /\ StronglySorted id_le sorted) as Hhand.
  { intros rs Hf. apply hand_loop_spec; [done|]. pose proof (sublist_length _ _ (picked_sublist rs (current_flags rs))). lia. }
  pose proof (count_loop_ids _ _ _ _ Hh Hrows) as Hf. destruct (Hhand rows Hf) as (sorted & -> & Hp & Hs). exists sorted.
  assert (forall r, r ∈ sorted <-> is_rule rows r) as Hin by (intros r; by rewrite Hp, picked_current).
  split; [done|]. split; [done|]. split; [done|]. intros Hnd.
  assert (NoDup (w_id <$> sorted)) as Hnds.
  { rewrite Hp. eapply sublist_NoDup; [exact Hnd|apply fmap_sublist, picked_sublist]. }
  split; [done|]. intros records' Hperm. destruct (count_loop_perm _ _ _ _ _ Hperm Hrows) as (rows' & Hrows' & Hpr). rewrite Hrows'.
  pose proof (count_loop_ids _ _ _ _ Hh Hrows') as Hf'. destruct (Hhand rows' Hf') as (sorted' & -> & Hp' & Hs').
  assert (sorted' = sorted) as ->; [|done].
  assert (forall x, x ∈ sorted' <-> x ∈ sorted) as Hsame.
  { intros x. rewrite Hin, Hp', picked_current. unfold is_rule. by rewrite Hpr. }
  assert (forall a b, a ∈ rows -> b ∈ rows -> w_id a = w_id b -> a = b) as Hinj.
  { intros a b Ha Hb E. apply list_elem_of_lookup in Ha as [i Hi], Hb as [j Hj].
    assert (i = j) as ->; [|congruence]. eapply (NoDup_lookup (w_id <$> rows)); [done|rewrite list_lookup_fmap, Hi; done|].
    rewrite list_lookup_fmap, Hj. cbn. by rewrite E. }
  assert (forall x, x ∈ sorted -> x ∈ rows) as Hrin.
  { intros x [Hx _]%Hin. apply standing_iff in Hx as (i & Hi & _). by eapply list_elem_of_lookup_2. }
  apply (StronglySorted_unique_strong id_le); [| done | done|].
  - intros a b Ha%Hsame%Hrin Hb%Hrin H1 H2. apply Hinj; [done..|]. unfold id_le in *. rewrite memcmp_opp in H2.
    apply memcmp_zero; [by rewrite (Hf a), (Hf b)|]. lia.
  - apply list.NoDup_Permutation; [| |done].
    + rewrite Hp'. apply (NoDup_fmap_1 w_id). eapply sublist_NoDup; [|apply fmap_sublist, picked_sublist]. by rewrite <- Hpr.
    + by apply (NoDup_fmap_1 w_id).
Qed.

(** A toy hash: the byte at 66, over and over. *)
Definition toy_hash : fzn_hash_ops := fun n b => Some (replicate (Z.to_nat n) (u8 (peek b 66))).

Lemma toy_hash_fits : hash_fits toy_hash.
Proof. intros b d [= <-]. split; [done|].
  change (Forall in_u8 (replicate 32 (u8 (peek b 66)))). apply Forall_replicate, u8_range. Qed.

(** Key 1 sets 3, key 2 sets 7 in its place, and key 1 sets 5 unseen. *)
Definition demo_setting (signer k replaced : Z) : bytes :=
  [1; 144] ++ replicate 32 signer ++ replicate 32 replaced ++ [k] ++ zeros 64.
Definition demo_settings : bytes := demo_setting 1 3 0 ++ demo_setting 2 7 3 ++ demo_setting 1 5 0.
Definition demo_settings' : bytes := demo_setting 2 7 3 ++ demo_setting 1 5 0 ++ demo_setting 1 3 0.

(** Nothing of key 2 counts. *)
Definition demo_judge : option fzn_root_ops := Some (mk_root_ops (fun _ => true) (fun key _ => negb (peek key 0 =? 2))).

Lemma quorum_is_highest_witness :
  fzn_quorum_winner_with demo_settings 3 None toy_hash 64 = Some (7, replicate 32 7) /\
  fzn_quorum_winner_with demo_settings' 3 None toy_hash 64 = Some (7, replicate 32 7) /\
  fzn_quorum_winner_with demo_settings 3 demo_judge toy_hash 64 = Some (5, replicate 32 5).
Proof.
  destruct (count_loop (laid FZN_QUORUM_SET_LEN demo_settings 3) None toy_hash) as [rows|] eqn:E; [|discriminate E].
  destruct (quorum_is_highest demo_settings 3 None toy_hash 64 rows toy_hash_fits ltac:(lia) E) as [_ Hp].
  assert (fzn_quorum_winner_with demo_settings 3 None toy_hash 64 = Some (7, replicate 32 7)) as E1 by (vm_compute; reflexivity).
  split; [exact E1|]. split; [|vm_compute; reflexivity]. rewrite (Hp demo_settings'); [exact E1|].
  change (laid FZN_QUORUM_SET_LEN demo_settings (Z.to_nat 3)) with (demo_setting 1 3 0 :: [demo_setting 2 7 3; demo_setting 1 5 0]).
  change (laid FZN_QUORUM_SET_LEN demo_settings' (Z.to_nat 3)) with ([demo_setting 2 7 3; demo_setting 1 5 0] ++ [demo_setting 1 3 0]).
  apply Permutation_cons_append.
Defined.

(** Two lines, the first replaced by a third. *)
Definition demo_line (text replaced : Z) : bytes :=
  [1; 145] ++ replicate 32 1 ++ replicate 32 replaced ++ [text; text] ++ zeros 126 ++ zeros 64.
Definition demo_lines : bytes := demo_line 70 0 ++ demo_line 66 0 ++ demo_line 65 70.
Definition demo_lines' : bytes := demo_line 66 0 ++ demo_line 65 70 ++ demo_line 70 0.

Lemma retention_rules_are_current_witness :
  fzn_retention_current_with demo_lines' 3 None toy_hash 64
  = Some (Some [([65; 65], replicate 32 65); ([66; 66], replicate 32 66)]).
Proof.
  destruct (count_loop (laid FZN_RETENTION_SET_LEN demo_lines 3) None toy_hash) as [rows|] eqn:E; [|discriminate E].
  destruct (retention_rules_are_current demo_lines 3 None toy_hash 64 rows toy_hash_fits ltac:(lia) E) as (sorted & Hs & _ & _ & Hd).
  assert (fzn_retention_current_with demo_lines 3 None toy_hash 64
    = Some (Some [([65; 65], replicate 32 65); ([66; 66], replicate 32 66)])) as E1 by (vm_compute; reflexivity).
  assert (w_id <$> rows = [replicate 32 70; replicate 32 66; replicate 32 65]) as Hids
    by (apply (inj Some); change (Some (w_id <$> rows)) with ((fun l : list row => w_id <$> l) <$> Some rows); rewrite <- E; vm_compute; reflexivity).
  destruct Hd as [_ Hd].
  - rewrite Hids. apply (bool_decide_eq_true_1 _). vm_compute. reflexivity.
  - rewrite (Hd demo_lines'); [congruence|].
    change (laid FZN_RETENTION_SET_LEN demo_lines (Z.to_nat 3)) with (demo_line 70 0 :: [demo_line 66 0; demo_line 65 70]).
    change (laid FZN_RETENTION_SET_LEN demo_lines' (Z.to_nat 3)) with ([demo_line 66 0; demo_line 65 70] ++ [demo_line 70 0]).
    apply Permutation_cons_append.
Defined.
