(* ===== verification/RevocationRule.v ===== *)
(** * The revocation rule: what the store's answers mean

    The searches of [Revocation] against what they are meant to find: the
    lowest open epoch, the k-of-n rule, the per-ancestor reference query of a
    store with one voter, and the settling of admin confirmations. *)

From S2P Require Import Prelude Bytes Hop Revocation.

(** ** Epochs *)

Section Epochs.
Context (s : fzn_revocation_store) (h : hop_question) (q : Z).

Definition open_at (E : Z) : Prop := epoch_closed s h E q = false.

Lemma left_epoch_mono E1 E2 e : E1 <= E2 -> left_epoch E2 e = true -> left_epoch E1 e = true.
Proof. unfold left_epoch. intros. destruct (r_withdrawn e); lia. Qed.

(** Closing is monotone downwards. *)
Lemma open_at_mono E1 E2 : E1 <= E2 -> open_at E1 -> open_at E2.
Proof.
  unfold open_at, epoch_closed. intros HE H1.
  assert (count (fun e => counts s e h && left_epoch E2 e) (rows s)
          <= count (fun e => counts s e h && left_epoch E1 e) (rows s)); [|lia].
  apply count_mono. intros i e _. rewrite !andb_true_iff. intros [? ?].
  eauto using left_epoch_mono.
Qed.

Lemma count_lt_witness {A} (f g : A -> bool) l :
  count g l < count f l -> exists i x, l !! i = Some x /\ f x = true /\ g x = false.
Proof.
  induction l as [|x l IH]; cbn; [lia|]. intros H.
  destruct (f x) eqn:Hf, (g x) eqn:Hg.
  - destruct IH as (i & y & ?); [lia|]. by exists (S i), y.
  - by exists 0%nat, x.
  - destruct IH as (i & y & ?); [lia|]. by exists (S i), y.
  - destruct IH as (i & y & ?); [lia|]. by exists (S i), y.
Qed.

(** The candidates the search asks about. *)
Definition candidate (es : list fzn_revocation) (c : Z) : Prop :=
  exists i e, es !! i = Some e /\ counts s e h = true /\
    (c = r_epoch e \/ (c = r_epoch e + 1 /\ r_epoch e <> UINT64_MAX)).

(** An epoch that opens where the one below is closed is a candidate. *)
Lemma opens_at_candidate E :
  in_u64 E -> epoch_closed s h (E - 1) q = true -> open_at E -> candidate (rows s) E.
Proof.
  unfold open_at, epoch_closed. intros HE Hc Ho.
  destruct (count_lt_witness (fun e => counts s e h && left_epoch (E - 1) e)
              (fun e => counts s e h && left_epoch E e) (rows s)) as (i & e & Hi & Hf & Hg); [lia|].
  apply andb_true_iff in Hf as [Hcnt Hl]. rewrite Hcnt in Hg. cbn in Hg.
  exists i, e. split_and!; auto. unfold left_epoch in *.
  destruct (r_withdrawn e) eqn:Hw; [|width; lia].
  destruct (Z.eqb_spec (r_epoch e) E); [by left|]. right. width. lia.
Qed.

(** What the search state knows after trying the candidates [es]. *)
Definition search_ok (first : Z) (tried : Z -> Prop) (st : Z * bool) : Prop :=
  first <= fst st /\ tried (fst st) /\ (snd st = true -> open_at (fst st)) /\
  (snd st = false -> epoch_closed s h first q = true) /\
  (forall c, tried c -> first <= c -> open_at c -> snd st = true /\ fst st <= c).

Lemma try_epoch_ok first c (tried : Z -> Prop) st :
  search_ok first tried st ->
  search_ok first (fun c' => tried c' \/ c' = c) (try_epoch s h q first c st).
Proof.
  destruct st as [best have]. unfold try_epoch, search_ok, open_at. cbn.
  intros (Hb & Htb & Ho & Hn & Ht).
  destruct (Z.ltb_spec c first); cbn.
  { split_and!; auto. intros c' [?| ->] ? ?; [eauto|lia]. }
  destruct ((negb have || (c <? best)) && negb (epoch_closed s h c q)) eqn:E; cbn.
  - apply andb_true_iff in E as [E1 E2]. apply negb_true_iff in E2. split_and!; auto; [done|].
    intros c' [Htr| ->] Hf Hop; [|split; [done|lia]]. split; [done|].
    destruct (Ht c' Htr Hf Hop) as [-> Hle]. cbn in E1. lia.
  - split_and!; auto. intros c' [?| ->] Hf Hop; [eauto|]. rewrite Hop in E. cbn in E.
    destruct have; cbn in E; [split; [done|lia]|done].
Qed.

Lemma search_ok_impl first (P Q : Z -> Prop) st :
  (forall c, Q c -> P c) -> (forall c, P c -> Q c) -> search_ok first P st -> search_ok first Q st.
Proof. unfold search_ok. intros HPQ HQ (? & ? & ? & ? & ?). split_and!; eauto. Qed.

Lemma candidate_cons e es c :
  counts s e h = true ->
  candidate (e :: es) c <->
    (c = r_epoch e \/ (c = r_epoch e + 1 /\ r_epoch e <> UINT64_MAX)) \/ candidate es c.
Proof.
  intros He. split.
  - intros (i & e' & Hi & Hc & Hcand). destruct i as [|i]; simplify_eq/=; [by left|].
    right. by exists i, e'.
  - intros [?|(i & e' & ?)]; [by exists 0%nat, e|by exists (S i), e'].
Qed.

Lemma candidate_skip e es c : counts s e h = false -> candidate (e :: es) c <-> candidate es c.
Proof.
  intros He. split.
  - intros (i & e' & Hi & Hc & Hcand). destruct i as [|i]; simplify_eq/=; [congruence|].
    by exists i, e'.
  - intros (i & e' & ?). by exists (S i), e'.
Qed.

Lemma epoch_loop_ok first es : forall (tried : Z -> Prop) st,
  search_ok first tried st ->
  search_ok first (fun c => tried c \/ candidate es c) (epoch_loop s h q first es st).
Proof.
  induction es as [|e es IH]; intros tried st Hst; cbn [epoch_loop].
  { eapply search_ok_impl; [| |exact Hst]; [|auto]. intros c [?|(i & e & Hi & _)]; [done|].
    by rewrite lookup_nil in Hi. }
  destruct (counts s e h) eqn:Hc; cbn [negb].
  - destruct (r_epoch e =? UINT64_MAX) eqn:Hm.
    + eapply search_ok_impl; [| |apply IH, try_epoch_ok; exact Hst]; intros c;
        rewrite (candidate_cons e es c Hc); intuition lia.
    + eapply search_ok_impl; [| |apply IH, try_epoch_ok, try_epoch_ok; exact Hst]; intros c;
        rewrite (candidate_cons e es c Hc); intuition lia.
  - eapply search_ok_impl; [| |apply IH; exact Hst]; intros c;
      rewrite (candidate_skip e es c Hc); auto.
Qed.

Lemma search_start first : search_ok first (fun c => c = first)
  (first, negb (epoch_closed s h first q)).
Proof.
  unfold search_ok, open_at. cbn. split_and!; [lia|done| | |].
  - by intros ?%negb_true_iff.
  - by intros ?%negb_false_iff.
  - intros c -> _ ->. split; [done|lia].
Qed.

(** Below the answer everything is closed. *)
Lemma search_below first best have :
  in_u64 first -> search_ok first (fun c => c = first \/ candidate (rows s) c) (best, have) ->
  forall E, first <= E <= UINT64_MAX -> (have = true -> E < best) -> epoch_closed s h E q = true.
Proof.
  intros Hf (_ & _ & _ & _ & Ht). cbn in Ht.
  assert (forall n : nat, first + Z.of_nat n <= UINT64_MAX ->
    (have = true -> first + Z.of_nat n < best) ->
    epoch_closed s h (first + Z.of_nat n) q = true) as Hn.
  { induction n as [|n IH]; intros HE HB; apply not_false_iff_true; intros Hc.
    - destruct (Ht (first + Z.of_nat 0)) as [E ?]; [left; lia|lia|done|]. specialize (HB E). lia.
    - destruct (Ht (first + Z.of_nat (S n))) as [E ?]; [|lia|done|specialize (HB E); lia].
      right. apply opens_at_candidate; [width; lia| |done].
      replace (first + Z.of_nat (S n) - 1) with (first + Z.of_nat n) by lia.
      apply IH; [lia|]. intros E. specialize (HB E). lia. }
  intros E HE HB. replace E with (first + Z.of_nat (Z.to_nat (E - first))) by lia.
  apply Hn; [lia|]. intros Hh. specialize (HB Hh). lia.
Qed.

(** The first epoch a question asks about. *)
Definition first_epoch : Z := match floor h with None => 0 | Some f => f + 1 end.

Definition least_open (E : Z) : Prop :=
  first_epoch <= E <= UINT64_MAX /\
  (forall E', first_epoch <= E' < E -> epoch_closed s h E' q = true) /\
  (open_at E \/ (E = UINT64_MAX /\ epoch_closed s h UINT64_MAX q = true)).

Lemma candidate_u64 c :
  Forall (fun e => in_u64 (r_epoch e)) (rows s) -> candidate (rows s) c -> in_u64 c.
Proof.
  intros Hr (i & e & Hi & _ & Hc). eapply Forall_lookup_1 in Hr; [|exact Hi]. cbn in Hr. ulia.
Qed.

Lemma open_epoch_least :
  Forall (fun e => in_u64 (r_epoch e)) (rows s) ->
  match floor h with None => True | Some f => 0 <= f < UINT64_MAX end ->
  least_open (open_epoch s h q).
Proof.
  intros Hr Hfl.
  assert (open_epoch s h q = (let '(best, have) := epoch_loop s h q first_epoch (rows s)
            (first_epoch, negb (epoch_closed s h first_epoch q)) in
            if have then best else UINT64_MAX)) as ->.
  { unfold open_epoch, first_epoch. destruct (floor h) as [f|]; [|done].
    destruct (Z.eqb_spec f UINT64_MAX); [lia|done]. }
  assert (in_u64 first_epoch) as Hf by (unfold first_epoch; destruct (floor h); ulia).
  pose proof (epoch_loop_ok first_epoch (rows s) _ _ (search_start first_epoch)) as Hs.
  destruct (epoch_loop s h q first_epoch (rows s) _) as [best have] eqn:El.
  pose proof (search_below _ _ _ Hf Hs) as Hbelow. destruct Hs as (Hb & Htb & Ho & _ & Ht). cbn in *.
  unfold least_open. destruct have; cbn.
  - assert (best <= UINT64_MAX) as Hbm.
    { destruct Htb as [->|Hc]; [ulia|]. apply (candidate_u64 best Hr) in Hc. ulia. }
    split_and!; [lia|lia| |left; auto]. intros E' HE'. apply Hbelow; lia.
  - split_and!; [width; lia|done| |right; split; [done|apply Hbelow; [width; lia|done]]].
    intros E' HE'. apply Hbelow; [lia|done].
Qed.
End Epochs.

(** ** The k-of-n rule *)

Lemma count_filter {A} (f g : A -> bool) l : count f (List.filter g l) = count (fun x => g x && f x) l.
Proof.
  induction l as [|x l IH]; cbn; [done|]. destruct (g x) eqn:Hg; cbn; rewrite IH; [done|lia].
Qed.

Lemma zlen_filter {A} (g : A -> bool) l : zlen (List.filter g l) = count g l.
Proof.
  unfold zlen. induction l as [|x l IH]; cbn; [done|]. destruct (g x); cbn [length]; lia.
Qed.

Definition triple (e : fzn_revocation) : bytes * bytes * bytes :=
  (r_issuer e, r_capability e, r_grantee e).

(** The entries that count in the question [h]. *)
Definition votes (s : fzn_revocation_store) (h : hop_question) : list fzn_revocation :=
  List.filter (fun e => counts s e h) (rows s).

Lemma counts_subject s e h :
  counts s e h = true ->
  r_capability e = q_capability h /\ r_grantee e = nth (q_i h) (grantees h) [] /\
  match floor h with None => True | Some f => f < r_epoch e end.
Proof.
  unfold counts. intros H.
  destruct (negb _ || negb _) eqn:E; [done|]. apply orb_false_iff in E as [E1 E2].
  apply negb_false_iff, memeq_true in E1, E2. split_and!; auto.
  destruct (floor h) as [f|]; [|done]. destruct (Z.leb_spec (r_epoch e) f); [done|lia].
Qed.

(** Counted entries are about one capability and one grantee, so with one
    entry per triple each is another issuer's. *)
Lemma votes_distinct s h : NoDup (triple <$> rows s) -> NoDup (r_issuer <$> votes s h).
Proof.
  unfold votes. induction (rows s) as [|e l IH]; cbn; [intros; constructor|].
  rewrite list.NoDup_cons. intros [Hn Hd]. destruct (counts s e h) eqn:He; cbn; [|auto].
  constructor; [|auto]. intros Hin. apply Hn. apply list_elem_of_fmap in Hin as (e' & Hi & Hin).
  apply list_elem_of_In, filter_In in Hin as [Hin Hc'].
  apply list_elem_of_fmap. exists e'. split; [|by apply list_elem_of_In].
  apply counts_subject in He as (Hc1 & Hg1 & _), Hc' as (Hc2 & Hg2 & _).
  unfold triple. congruence.
Qed.

Lemma root_loop_spec s root_key es : forall h,
  let '(settled, h') := root_loop s h root_key es in
  (exists f, h' = with_floor h f) /\
  (settled = true -> exists i e, es !! i = Some e /\ root_entry s e root_key = true /\
     r_withdrawn e = false /\ r_capability e = q_capability h /\
     r_grantee e = nth (q_i h) (grantees h) []).
Proof.
  induction es as [|e es IH]; intros h; cbn [root_loop].
  - split; [|done]. exists (floor h). by destruct h.
  - destruct (negb (counts s e h) || negb (root_entry s e root_key)) eqn:E.
    + specialize (IH h). destruct (root_loop s h root_key es) as [b h'].
      destruct IH as [? IH]. split; [done|]. intros Hs. destruct (IH Hs) as (i & e' & ?).
      by exists (S i), e'.
    + apply orb_false_iff in E as [E1 E2]. apply negb_false_iff in E1, E2.
      destruct (r_withdrawn e) eqn:Hw; cbn [negb].
      * match goal with |- context [root_loop s (with_floor h ?f) root_key es] =>
          specialize (IH (with_floor h f)) end.
        destruct (root_loop s (with_floor h _) root_key es) as [b h'].
        destruct IH as [[f ->] IH]. split; [exists f; by destruct h|].
        intros Hs. destruct (IH Hs) as (i & e' & ?). by exists (S i), e'.
      * split; [exists (floor h); by destruct h|]. intros _. exists 0%nat, e.
        apply counts_subject in E1 as (? & ? & _). done.
Qed.

Lemma root_pass_spec s h root_key :
  let '(settled, h') := root_pass s h root_key in
  (exists f, h' = with_floor h f) /\
  (settled = true -> exists i e, rows s !! i = Some e /\ root_entry s e root_key = true /\
     r_withdrawn e = false /\ r_capability e = q_capability h /\
     r_grantee e = nth (q_i h) (grantees h) []).
Proof.
  unfold root_pass. destruct (is_null root_key && is_null (roots s)).
  - split; [by exists None|done].
  - pose proof (root_loop_spec s root_key (rows s) (with_floor h None)) as H.
    destruct (root_loop s (with_floor h None) root_key (rows s)) as [b h'].
    destruct H as [[f ->] H]. split; [exists f; by destruct h|exact H].
Qed.

(** The root's undo is an epoch some entry names. *)
Lemma root_loop_floor s root_key es : forall h,
  Forall (fun e => in_u64 (r_epoch e)) es ->
  match floor h with None => True | Some f => 0 <= f end ->
  match floor (snd (root_loop s h root_key es)) with None => True | Some f => 0 <= f end.
Proof.
  induction es as [|e es IH]; intros h Hes Hf; cbn [root_loop]; [done|].
  apply Forall_cons_iff in Hes as [He Hes].
  destruct (negb _ || negb _); [by apply IH|]. destruct (negb (r_withdrawn e)); [done|].
  apply IH; [done|]. cbn. destruct (floor h) as [f|]; [|width; lia]. guards; width; lia.
Qed.

Lemma root_pass_floor s h root_key :
  Forall (fun e => in_u64 (r_epoch e)) (rows s) ->
  match floor (snd (root_pass s h root_key)) with None => True | Some f => 0 <= f end.
Proof.
  intros Hr. unfold root_pass. destruct (_ && _); [done|]. by apply root_loop_floor.
Qed.

Lemma closed_at_max s h q :
  Forall (fun e => in_u64 (r_epoch e)) (rows s) -> epoch_closed s h UINT64_MAX q = true ->
  q <= count (fun e => counts s e h && (r_epoch e =? UINT64_MAX) && r_withdrawn e) (rows s).
Proof.
  unfold epoch_closed. intros Hr Hc.
  rewrite (count_ext _ (fun e => counts s e h && left_epoch UINT64_MAX e)); [lia|].
  intros i e Hi. eapply Forall_lookup_1 in Hr; [|exact Hi]. cbn in Hr. unfold left_epoch.
  rewrite <- andb_assoc. f_equal.
  assert ((r_epoch e >? UINT64_MAX) = false) as -> by ulia. done.
Qed.

(** What a verdict means, in the question [h] that excludes what the root has
    undone. *)
Definition verdict_ok (s : fzn_revocation_store) (h : hop_question) (root_key : option bytes) (q : Z)
    (v : hop_verdict) : Prop :=
  match v with
  | HOP_ROOT => exists i e, rows s !! i = Some e /\ root_entry s e root_key = true /\
      r_withdrawn e = false /\ r_capability e = q_capability h /\
      r_grantee e = nth (q_i h) (grantees h) []
  | HOP_LIVE => q <= count (fun e => negb (r_withdrawn e)) (votes s h)
  | HOP_LATCHED E => least_open s h q E /\ open_at s h q E /\
      q <= count (fun e => r_epoch e =? E) (votes s h)
  | HOP_FREE => count (fun e => negb (r_withdrawn e)) (votes s h) < q /\
      forall E, least_open s h q E -> open_at s h q E ->
        count (fun e => r_epoch e =? E) (votes s h) < q
  end.

Lemma least_open_unique s h q E1 E2 :
  least_open s h q E1 -> open_at s h q E1 -> least_open s h q E2 -> open_at s h q E2 -> E1 = E2.
Proof.
  unfold open_at. intros (? & B1 & _) O1 (? & B2 & _) O2.
  destruct (Z.lt_trichotomy E1 E2) as [Hl|[->|Hl]]; [|done|].
  - rewrite B2 in O1 by lia. done.
  - rewrite B1 in O2 by lia. done.
Qed.

Lemma left_below_closed s h E q :
  open_at s h q E ->
  count (fun e => counts s e h && (r_epoch e =? E) && r_withdrawn e) (rows s) < q.
Proof.
  unfold open_at, epoch_closed. intros H.
  assert (count (fun e => counts s e h && (r_epoch e =? E) && r_withdrawn e) (rows s)
    <= count (fun e => counts s e h && left_epoch E e) (rows s)); [|lia].
  apply count_mono. intros i e _. unfold left_epoch.
  destruct (counts s e h), (r_withdrawn e); cbn; lia || done.
Qed.

Lemma judge_hop_verdict s h0 root_key q :
  0 < q -> Forall (fun e => in_u64 (r_epoch e)) (rows s) ->
  let '(v, h) := judge_hop s h0 root_key q in verdict_ok s h root_key q v.
Proof.
  intros Hq Hr. unfold judge_hop. pose proof (root_pass_spec s h0 root_key) as Hp.
  pose proof (root_pass_floor s h0 root_key Hr) as Hfloor.
  destruct (root_pass s h0 root_key) as [[] h]; destruct Hp as [[f ->] Hp];
    cbn [snd] in Hfloor.
  { cbn. destruct (Hp eq_refl) as (i & e & ?). by exists i, e. }
  set (h := with_floor h0 f) in *. unfold verdict_ok, votes.
  destruct (count _ (rows s) >=? q) eqn:Hl; [rewrite count_filter; lia|].
  destruct (count (fun e => counts s e h) (rows s) <? q) eqn:Ht.
  { rewrite count_filter. split; [lia|]. intros E _ _. rewrite count_filter.
    assert (count (fun e => counts s e h && (r_epoch e =? E)) (rows s)
      <= count (fun e => counts s e h) (rows s)); [|lia].
    apply count_mono. intros ? ? _. by destruct (counts s x h). }
  assert (least_open s h q (open_epoch s h q)) as Hlo.
  { apply open_epoch_least; [done|]. change (floor h) with f in *.
    cbn in Hfloor. destruct f as [fl|]; [|done].
    destruct (count_lt_witness (fun e => counts s e h) (fun _ => false) (rows s)) as (i & e & Hi & Hc & _).
    { rewrite (count_none (fun _ => false)); [lia|done]. }
    pose proof (counts_subject _ _ _ Hc) as (_ & _ & Hfe). cbn in Hfe.
    eapply Forall_lookup_1 in Hr; [|exact Hi]. cbn in Hr.
    width. lia. }
  destruct (_ && _) eqn:Hcl; rewrite ?count_filter.
  - apply andb_true_iff in Hcl as [Hc1 Hc2]. split_and!; [done| |lia].
    destruct Hlo as (_ & _ & [?|[E Hc]]); [done|]. exfalso. rewrite E in *.
    pose proof (closed_at_max s h q Hr Hc). lia.
  - split; [lia|]. intros E HE HoE. rewrite count_filter.
    assert (open_at s h q (open_epoch s h q)) as Ho.
    { destruct Hlo as (Hb & Hlt & [?|[E1 Hc]]); [done|]. rewrite E1.
      apply (open_at_mono s h q E); [|done]. destruct HE as [? _]. lia. }
    rewrite (least_open_unique s h q E _ HE HoE Hlo Ho).
    pose proof (left_below_closed s h _ q Ho). lia.
Qed.

(** C13: revoking takes a quorum. In a store that holds one entry per triple,
    every vote counted on a hop is a different issuer's; the hop is revoked
    exactly when a root that counts has a live revocation of it, or [q] live
    votes remain past what the root has undone, or, in the lowest epoch fewer
    than [q] issuers have left, [q] issuers cast a vote (the latch). *)
Theorem revoking_takes_a_quorum s grs ges c ok i root_key q :
  0 < q -> Forall (fun e => in_u64 (r_epoch e)) (rows s) -> NoDup (triple <$> rows s) ->
  let '(v, h) := judge_hop s (hop_question_of grs ges c ok i) root_key q in
  NoDup (r_issuer <$> votes s h) /\ verdict_ok s h root_key q v.
Proof.
  intros Hq Hr Hd. pose proof (judge_hop_verdict s (hop_question_of grs ges c ok i) root_key q Hq Hr).
  destruct (judge_hop _ _ _ _). auto using votes_distinct.
Qed.

(** The open epoch is the lowest one not closed. The search asks only about
    epochs entries name and the ones just past them, and still finds the least
    64-bit epoch, past the root's undo, that fewer than [q] counted issuers
    have left; the top of the range stands for none. *)
Theorem open_epoch_is_least s h q :
  Forall (fun e => in_u64 (r_epoch e)) (rows s) ->
  match floor h with None => True | Some f => 0 <= f < UINT64_MAX end ->
  least_open s h q (open_epoch s h q).
Proof. apply open_epoch_least. Qed.

(** ** One root, no admins, a quorum of one *)

Section SingleRoot.
Context (s : fzn_revocation_store) (grs ges : list bytes) (c : bytes) (ok : option (list bool)).
Context (i : nat) (g0 : bytes).
Context (Hroots : roots s = None) (Hadm : has_admin s = false) (Hhead : head grs = Some g0).
Context (Hr : Forall (fun e => in_u64 (r_epoch e)) (rows s)) (Hd : NoDup (triple <$> rows s)).

Definition about_hop (e : fzn_revocation) : Prop :=
  r_capability e = c /\ r_grantee e = nth i ges [].

(** The root or an ancestor of the hop. *)
Definition entitled (e : fzn_revocation) : Prop := r_issuer e ∈ take (S i) grs.

Let hq (f : option Z) : hop_question := with_floor (hop_question_of grs ges c ok i) f.

Lemma counts_single e f :
  counts s e (hq f) = true <->
    about_hop e /\ entitled e /\ match f with None => True | Some f => f < r_epoch e end.
Proof.
  unfold counts, about_hop, entitled, root_member. rewrite Hroots, Hadm.
  cbn [hq with_floor hop_question_of q_capability q_i grantees grantors floor any_issuer].
  assert (existsb (fun g => memeq g (r_issuer e)) (take (S i) grs) = true
          <-> r_issuer e ∈ take (S i) grs) as He.
  { rewrite existsb_lookup, list_elem_of_lookup. setoid_rewrite memeq_true. split.
    - intros (k & x & Hk & ->). by exists k.
    - intros [k Hk]. by exists k, (r_issuer e). }
  destruct (memeq (r_capability e) c) eqn:E1; cbn [negb orb].
  2:{ split; [done|]. intros [[E _] _]. apply memeq_true in E. congruence. }
  destruct (memeq (r_grantee e) (nth i ges [])) eqn:E2; cbn [negb].
  2:{ split; [done|]. intros [[_ E] _]. apply memeq_true in E. congruence. }
  apply memeq_true in E1, E2. rewrite <- He.
  destruct f as [f|]; [destruct (Z.leb_spec (r_epoch e) f)|]; destruct (existsb _ _);
    intuition (auto; lia || discriminate).
Qed.

Lemma root_entry_single e : root_entry s e (Some g0) = true <-> r_issuer e = g0.
Proof. unfold root_entry. rewrite Hroots. apply memeq_true. Qed.

Lemma root_is_entitled e : r_issuer e = g0 -> entitled e.
Proof. unfold entitled. destruct grs; simplify_eq/=. intros ->. constructor. Qed.

(** The root's own entry about this hop. *)
Definition roots_entry (e : fzn_revocation) : Prop := about_hop e /\ r_issuer e = g0.

Lemma roots_entry_unique j k e e' :
  rows s !! j = Some e -> rows s !! k = Some e' -> roots_entry e -> roots_entry e' -> j = k.
Proof.
  intros Hj Hk [[? ?] ?] [[? ?] ?]. eapply (NoDup_lookup (triple <$> rows s)); [done| |].
  - rewrite list_lookup_fmap, Hj. reflexivity.
  - rewrite list_lookup_fmap, Hk. cbn. unfold triple. congruence.
Qed.

Lemma root_loop_skip es f :
  Forall (fun e => ~ roots_entry e) es -> root_loop s (hq f) (Some g0) es = (false, hq f).
Proof.
  induction 1 as [|e es He _ IH]; cbn [root_loop]; [done|].
  destruct (counts s e (hq f)) eqn:E1, (root_entry s e (Some g0)) eqn:E2; cbn; try done.
  apply counts_single in E1 as (? & _ & _). apply root_entry_single in E2. by destruct He.
Qed.

Lemma root_loop_app es1 es2 f :
  Forall (fun e => ~ roots_entry e) es1 ->
  root_loop s (hq f) (Some g0) (es1 ++ es2) = root_loop s (hq f) (Some g0) es2.
Proof.
  induction 1 as [|e es He _ IH]; cbn [root_loop app]; [done|].
  destruct (counts s e (hq f)) eqn:E1, (root_entry s e (Some g0)) eqn:E2; cbn; try done.
  apply counts_single in E1 as (? & _ & _). apply root_entry_single in E2. by destruct He.
Qed.

Lemma root_pass_single :
  root_pass s (hop_question_of grs ges c ok i) (Some g0) =
    match find_index (fun e => memeq (r_capability e) c && memeq (r_grantee e) (nth i ges [])
                               && memeq (r_issuer e) g0) (rows s) ≫= (rows s !!.) with
    | None => (false, hq None)
    | Some e => if r_withdrawn e then (false, hq (Some (r_epoch e))) else (true, hq None)
    end.
Proof.
  unfold root_pass. cbn [is_null andb]. fold (hq None).
  assert (forall e, (memeq (r_capability e) c && memeq (r_grantee e) (nth i ges [])
            && memeq (r_issuer e) g0)%bool = true <-> roots_entry e) as Hp.
  { intros e. rewrite !andb_true_iff, !memeq_true. unfold roots_entry, about_hop. tauto. }
  destruct (find_index _ (rows s)) as [k|] eqn:Hf; cbn.
  - apply find_index_Some in Hf as (e & Hk & He & _). apply Hp in He. rewrite Hk.
    rewrite <- (take_drop_middle _ _ _ Hk).
    assert (forall j e', (take k (rows s) ++ drop (S k) (rows s)) !! j = Some e' -> ~ roots_entry e') as Hno.
    { intros j e' Hj He'. apply lookup_app_Some in Hj as [Hj|[_ Hj]].
      - apply lookup_take_Some in Hj as [Hj Hlt].
        pose proof (roots_entry_unique _ _ _ _ Hj Hk He' He). lia.
      - rewrite lookup_drop in Hj. pose proof (roots_entry_unique _ _ _ _ Hj Hk He' He). lia. }
    rewrite root_loop_app.
    2:{ apply Forall_lookup. intros j e' Hj. apply (Hno j). by apply lookup_app_l_Some. }
    cbn [root_loop].
    assert (counts s e (hq None) = true) as ->.
    { apply counts_single. destruct He. split_and!; auto using root_is_entitled. }
    assert (root_entry s e (Some g0) = true) as -> by (apply root_entry_single; apply He).
    cbn [negb orb]. destruct (r_withdrawn e); cbn [negb floor hq with_floor]; [|done].
    apply (root_loop_skip _ (Some (r_epoch e))). apply Forall_lookup. intros j e' Hj.
    apply (Hno (length (take k (rows s)) + j)%nat). rewrite lookup_app_r by lia.
    by replace (length (take k (rows s)) + j - length (take k (rows s)))%nat with j by lia.
  - apply root_loop_skip, Forall_lookup. intros j e Hj He. apply Hp in He.
    rewrite find_index_None in Hf. by rewrite (Hf j e Hj) in He.
Qed.

(** Past the root's undo, if it has one about this hop. *)
Definition past_undo (e : fzn_revocation) : Prop :=
  forall k r, rows s !! k = Some r -> roots_entry r -> r_withdrawn r = true -> r_epoch r < r_epoch e.

(** At a quorum of one a latch is a live vote. *)
Lemma verdict_one h root_key v :
  verdict_ok s h root_key 1 v -> v <> HOP_ROOT ->
  v <> HOP_FREE <-> exists k e, rows s !! k = Some e /\ counts s e h = true /\ r_withdrawn e = false.
Proof.
  intros Hv Hn. unfold votes in *.
  assert (1 <= count (fun e => negb (r_withdrawn e)) (votes s h) <->
    exists k e, rows s !! k = Some e /\ counts s e h = true /\ r_withdrawn e = false) as Hlive.
  { unfold votes. rewrite count_filter. split.
    - intros Hc. destruct (count_lt_witness (fun e => counts s e h && negb (r_withdrawn e))
        (fun _ => false) (rows s)) as (k & e & Hk & He & _).
      { rewrite (count_none (fun _ => false)); [lia|done]. }
      apply andb_true_iff in He as [? ?%negb_true_iff]. eauto.
    - intros (k & e & Hk & Hc & Hw). pose proof (count_nonneg
        (fun e => counts s e h && negb (r_withdrawn e)) (rows s)).
      destruct (decide (count (fun e => counts s e h && negb (r_withdrawn e)) (rows s) = 0)) as [E|];
        [|lia].
      rewrite <- (take_drop_middle _ _ _ Hk), count_app in E. cbn in E. rewrite Hc, Hw in E. cbn in E.
      pose proof (count_nonneg (fun e => counts s e h && negb (r_withdrawn e)) (take k (rows s))).
      pose proof (count_nonneg (fun e => counts s e h && negb (r_withdrawn e)) (drop (S k) (rows s))).
      lia. }
  destruct v as [| | |E]; cbn in Hv; [| |by rewrite <- Hlive|].
  - split; [done|]. rewrite <- Hlive. lia.
  - done.
  - split; [|done]. intros _. destruct Hv as (_ & Ho & Hc).
    destruct (count_lt_witness (fun e => counts s e h && (r_epoch e =? E)) (fun _ => false) (rows s))
      as (k & e & Hk & He & _).
    { rewrite (count_none (fun _ => false)) by done. unfold votes in Hc.
      rewrite count_filter in Hc. lia. }
    apply andb_true_iff in He as [He Hep]. exists k, e. split_and!; auto.
    apply not_true_iff_false. intros Hw. pose proof (left_below_closed s h _ 1 Ho) as Hl.
    rewrite <- (take_drop_middle _ _ _ Hk), count_app in Hl. cbn in Hl.
    rewrite He, Hw, Hep in Hl. cbn in Hl.
    pose proof (count_nonneg (fun e0 => counts s e0 h && (r_epoch e0 =? E) && r_withdrawn e0)
      (take k (rows s))).
    pose proof (count_nonneg (fun e0 => counts s e0 h && (r_epoch e0 =? E) && r_withdrawn e0)
      (drop (S k) (rows s))). lia.
Qed.

Lemma judge_unsettled h0 root_key q h1 v h :
  root_pass s h0 root_key = (false, h1) -> judge_hop s h0 root_key q = (v, h) ->
  h = h1 /\ v <> HOP_ROOT.
Proof.
  unfold judge_hop. intros ->. intros Hj.
  destruct (_ >=? q); [by simplify_eq|]. destruct (_ <? q); [by simplify_eq|].
  destruct (_ && _); by simplify_eq.
Qed.

Lemma single_root_verdict :
  fst (judge_hop s (hop_question_of grs ges c ok i) (Some g0) 1) <> HOP_FREE <->
  exists k e, rows s !! k = Some e /\ r_withdrawn e = false /\ about_hop e /\ entitled e /\ past_undo e.
Proof.
  pose proof (judge_hop_verdict s (hop_question_of grs ges c ok i) (Some g0) 1 ltac:(lia) Hr) as Hv.
  destruct (judge_hop s _ (Some g0) 1) as [v h] eqn:Hj. cbn [fst].
  pose proof root_pass_single as Hrp.
  assert (forall e, (memeq (r_capability e) c && memeq (r_grantee e) (nth i ges [])
            && memeq (r_issuer e) g0)%bool = true <-> roots_entry e) as Hp.
  { intros e. rewrite !andb_true_iff, !memeq_true. unfold roots_entry, about_hop. tauto. }
  destruct (find_index _ (rows s)) as [k0|] eqn:Hf; cbn [mbind option_bind] in Hrp.
  - apply find_index_Some in Hf as (r & Hk0 & He0 & _). apply Hp in He0. rewrite Hk0 in Hrp.
    assert (forall k e, rows s !! k = Some e -> roots_entry e -> e = r) as Huniq.
    { intros k e Hk He. rewrite (roots_entry_unique _ _ _ _ Hk Hk0 He He0) in Hk. congruence. }
    destruct (r_withdrawn r) eqn:Hw.
    + destruct (judge_unsettled _ _ _ _ _ _ Hrp Hj) as [-> Hnr]. rewrite (verdict_one _ _ _ Hv Hnr). split.
      * intros (k & e & Hk & Hc & Hwe). apply counts_single in Hc as (? & ? & Hep).
        exists k, e. split_and!; auto. intros k' r' Hk' Hr' _. by rewrite (Huniq k' r' Hk' Hr').
      * intros (k & e & Hk & Hwe & Ha & He & Hpu). exists k, e. split_and!; auto.
        apply counts_single. split_and!; auto. by apply (Hpu k0 r).
    + unfold judge_hop in Hj. rewrite Hrp in Hj. simplify_eq. split; [|done]. intros _. exists k0, r. destruct He0 as [Ha Hi].
      split_and!; auto using root_is_entitled. intros k' r' Hk' Hr' Hw'.
      rewrite (Huniq k' r' Hk' Hr') in Hw'. congruence.
  - destruct (judge_unsettled _ _ _ _ _ _ Hrp Hj) as [-> Hnr].
    rewrite (verdict_one _ _ _ Hv Hnr). rewrite find_index_None in Hf. split.
    + intros (k & e & Hk & Hc & Hwe). apply counts_single in Hc as (? & ? & _).
      exists k, e. split_and!; auto. intros k' r' Hk' Hr' _. apply Hp in Hr'.
      by rewrite (Hf k' r' Hk') in Hr'.
    + intros (k & e & Hk & Hwe & Ha & He & _). exists k, e. split_and!; auto.
      by apply counts_single.
Qed.
End SingleRoot.

(** The rule of a store with one root, no admins and a quorum of one, in
    full. Hop [i] is revoked exactly when some entry about it is live, was
    issued by the root or by an ancestor of the hop, and was cast in an epoch
    past any the root has undone. *)
Theorem single_root_rule s grs ges c ok i g0 :
  roots s = None -> has_admin s = false -> head grs = Some g0 ->
  Forall (fun e => in_u64 (r_epoch e)) (rows s) -> NoDup (triple <$> rows s) ->
  fst (judge_hop s (hop_question_of grs ges c ok i) (Some g0) 1) <> HOP_FREE <->
  exists k e, rows s !! k = Some e /\ r_withdrawn e = false /\ about_hop ges c i e /\
    entitled grs i e /\ past_undo s ges c i g0 e.
Proof. apply single_root_verdict. Qed.

Definition demo_store (es : list fzn_revocation) (r : option fzn_root_ops) (k : Z)
    : fzn_revocation_store :=
  mk_store (Some es) (zlen es) 1 k false (demo_key 0) None 0 r None None 0 None None.

(** A vote on capability 3 against grantee 9. *)
Definition demo_vote (issuer epoch : Z) (withdrawn : bool) : fzn_revocation :=
  mk_rev (demo_key 3) (demo_key 9) (demo_key issuer) (demo_key 0) withdrawn epoch
    (demo_key issuer) (demo_key 0).

(** The root withdrew in epoch 1; ancestor 2 votes in epoch 0, then 4 in epoch 2. *)
Definition demo_rows : list fzn_revocation := [demo_vote 1 1 true; demo_vote 2 0 false; demo_vote 4 2 false].

Lemma single_root_rule_witness :
  fst (judge_hop (demo_store demo_rows None 1)
         (hop_question_of [demo_key 1; demo_key 2; demo_key 4] [demo_key 2; demo_key 4; demo_key 9]
            (demo_key 3) None 2) (Some (demo_key 1)) 1) <> HOP_FREE.
Proof.
  apply (single_root_rule (demo_store demo_rows None 1) [demo_key 1; demo_key 2; demo_key 4]
           [demo_key 2; demo_key 4; demo_key 9] (demo_key 3) None 2 (demo_key 1)).
  - reflexivity.
  - reflexivity.
  - reflexivity.
  - repeat constructor; vm_compute; discriminate.
  - apply (bool_decide_unpack _). vm_compute. exact I.
  - exists 2%nat, (demo_vote 4 2 false). split; [reflexivity|]. split; [reflexivity|].
    split; [split; reflexivity|]. split; [unfold entitled; apply (bool_decide_unpack _); vm_compute; exact I|].
    intros [|[|[|k]]] r Hk [_ Hi] Hw; cbn in Hk; simplify_eq/=; lia || discriminate.
Defined.

Lemma revoking_takes_a_quorum_witness :
  fst (judge_hop (demo_store demo_rows None 2)
         (hop_question_of [demo_key 1; demo_key 2; demo_key 4] [demo_key 2; demo_key 4; demo_key 9]
            (demo_key 3) None 2) (Some (demo_key 1)) 2) = HOP_FREE /\
  NoDup (r_issuer <$> votes (demo_store demo_rows None 2)
    (snd (judge_hop (demo_store demo_rows None 2)
         (hop_question_of [demo_key 1; demo_key 2; demo_key 4] [demo_key 2; demo_key 4; demo_key 9]
            (demo_key 3) None 2) (Some (demo_key 1)) 2))).
Proof.
  split; [vm_compute; reflexivity|].
  pose proof (revoking_takes_a_quorum (demo_store demo_rows None 2)
    [demo_key 1; demo_key 2; demo_key 4] [demo_key 2; demo_key 4; demo_key 9] (demo_key 3) None 2
    (Some (demo_key 1)) 2) as H.
  destruct (judge_hop _ _ _ _) as [v h]. apply H.
  - lia.
  - repeat constructor; vm_compute; discriminate.
  - apply (bool_decide_unpack _). vm_compute. exact I.
Defined.

(** Two issuers in epoch 0, one of whom has withdrawn: still the open epoch at
    a quorum of two. *)
Lemma open_epoch_is_least_witness :
  open_epoch (demo_store [demo_vote 1 0 true; demo_vote 2 0 false; demo_vote 4 7 true] None 1)
    (hop_question_of [demo_key 1; demo_key 2; demo_key 4] [demo_key 2; demo_key 4; demo_key 9]
       (demo_key 3) None 2) 1 = 8 /\
  least_open (demo_store [demo_vote 1 0 true; demo_vote 2 0 false; demo_vote 4 7 true] None 1)
    (hop_question_of [demo_key 1; demo_key 2; demo_key 4] [demo_key 2; demo_key 4; demo_key 9]
       (demo_key 3) None 2) 1
    (open_epoch (demo_store [demo_vote 1 0 true; demo_vote 2 0 false; demo_vote 4 7 true] None 1)
    (hop_question_of [demo_key 1; demo_key 2; demo_key 4] [demo_key 2; demo_key 4; demo_key 9]
       (demo_key 3) None 2) 1).
Proof.
  split; [vm_compute; reflexivity|]. apply open_epoch_is_least; [|exact I].
  repeat constructor; vm_compute; discriminate.
Defined.

(** ** Two roots that disagree *)

(** Every key is a root and every record of theirs counts. *)
Definition all_roots : fzn_root_ops := mk_root_ops (fun k => memeq k (demo_key 1) || memeq k (demo_key 2))
  (fun _ _ => true).

(** With a root set, the order two records arrived in decides the answer.
    Root 1 withdrew in epoch 5 and root 2 holds a live revocation of epoch 3;
    the same two rows, held in the two orders, give a hop that is free in one
    store and revoked in the other, because the first pass stops at the first
    live root vote but skips one at or below the undo it has met. *)
Theorem root_pass_depends_on_order :
  let early := [demo_vote 1 5 true; demo_vote 2 3 false] in
  let late := [demo_vote 2 3 false; demo_vote 1 5 true] in
  let links := Some ([demo_key 1], [demo_key 9]) in
  early ≡ₚ late /\
  head (fzn_revocation_covers_links (Some (demo_store early (Some all_roots) 1)) links
          (Some (demo_key 3))) = Some false /\
  head (fzn_revocation_covers_links (Some (demo_store late (Some all_roots) 1)) links
          (Some (demo_key 3))) = Some true.
Proof. split_and!; [constructor|vm_compute; reflexivity|vm_compute; reflexivity]. Qed.
