(* ===== verification/Confirm.v ===== *)
(** * Settling admin confirmations

    [confirm_admins] of chain/revocation.c computes, in rounds from nothing,
    the least set of admins closed under the confirmation rule; the bound on
    its rounds is enough for it to settle. *)

From stdpp Require Import sets.
From S2P Require Import Prelude Rounds Bytes Hop Revocation RevocationRule.

Section Confirm.
Context (s : fzn_revocation_store) (eligible : option (list bool)) (need : Z).

(** The rule: what an admin needs, the admins [P] being confirmed. *)
Definition deserves (P : list bool) (ad : fzn_revocation_admin) : bool :=
  admin_rooted s ad
  && forallb (hop_confirmed s eligible P need ad) (seq 1 (length (a_grantor ad) - 1)).

Definition closed (P : list bool) : Prop :=
  forall a ad, admin_rows s !! a = Some ad -> deserves P ad = true -> ok_at P a = true.

(** ** The scan is monotone in the set confirmed *)

(** A confirmer that adds to the count. *)
Definition adds (P : list bool) (k : bytes) : bool :=
  match find_admin s k with
  | None => false
  | Some b => ok_at P b && match eligible with None => true | Some ok => ok_at ok b end
  end.

Definition seen_next (P : list bool) (k : bytes) (seen : list bytes) : list bytes :=
  if adds P k && negb (existsb (fun k' => memeq k' k) seen) then seen ++ [k] else seen.

Lemma existsb_memeq k seen : existsb (fun k' => memeq k' k) seen = true <-> k ∈ seen.
Proof.
  rewrite existsb_lookup, list_elem_of_lookup. setoid_rewrite memeq_true. split.
  - intros (i & x & Hi & ->). by exists i.
  - intros [i Hi]. by exists i, k.
Qed.

Lemma scan_step P need_ first grantor hop_id cf cfs seen :
  confirm_scan s eligible P need_ first grantor hop_id (cf :: cfs) seen =
    if zlen seen >=? need_ then (false, seen)
    else if negb (memeq (k_grant cf) hop_id) || memeq (k_confirmer cf) grantor
    then confirm_scan s eligible P need_ first grantor hop_id cfs seen
    else if root_confirms s (k_confirmer cf) first (k_act cf) then (true, seen)
    else confirm_scan s eligible P need_ first grantor hop_id cfs
           (seen_next P (k_confirmer cf) seen).
Proof.
  cbn [confirm_scan]. unfold seen_next, adds.
  destruct (zlen seen >=? need_); [done|]. destruct (negb _ || memeq _ _); [done|].
  destruct (root_confirms _ _ _ _); [done|]. destruct (find_admin s (k_confirmer cf)) as [b|]; [|done].
  destruct (ok_at P b); cbn [negb orb andb]; [|done].
  destruct eligible as [ok|]; [destruct (ok_at ok b)|]; cbn; try done;
    by destruct (existsb _ seen).
Qed.

Definition seen_le (seen seen' : list bytes) : Prop := NoDup seen /\ NoDup seen' /\ seen ⊆ seen'.

Lemma seen_le_len seen seen' : seen_le seen seen' -> zlen seen <= zlen seen'.
Proof.
  intros (Hd & Hd' & Hs). unfold zlen. apply Nat2Z.inj_le, submseteq_length.
  apply NoDup_submseteq; [done|]. intros x Hx. by apply Hs.
Qed.

Lemma seen_le_next P Q k seen seen' :
  below P Q -> seen_le seen seen' -> seen_le (seen_next P k seen) (seen_next Q k seen').
Proof.
  intros Hb (Hd & Hd' & Hs). unfold seen_next.
  assert (forall l, NoDup l -> existsb (fun k' => memeq k' k) l = false -> NoDup (l ++ [k])) as Hsn.
  { intros l Hl He. apply list.NoDup_app. split_and!; [done| |apply NoDup_singleton].
    intros x Hx Hx'. apply list_elem_of_singleton in Hx' as ->. apply existsb_memeq in Hx. congruence. }
  assert (adds P k = true -> adds Q k = true) as Ha.
  { unfold adds. destruct (find_admin s k) as [b|]; [|done]. rewrite !andb_true_iff.
    intros [? ?]. auto. }
  destruct (adds P k) eqn:HP; [rewrite Ha by done|destruct (adds Q k)];
    destruct (existsb _ seen) eqn:E1, (existsb _ seen') eqn:E2; cbn;
    try apply existsb_memeq in E1; try apply existsb_memeq in E2; split_and!; auto; set_solver.
Qed.

Definition scan_ok (r : bool * list bytes) : bool := fst r || negb (zlen (snd r) <? need).

Lemma scan_enough P first grantor hop_id cfs seen :
  need <= zlen seen -> scan_ok (confirm_scan s eligible P need first grantor hop_id cfs seen) = true.
Proof.
  intros Hn. destruct cfs as [|cf cfs]; [unfold scan_ok; cbn; lia|]. rewrite scan_step.
  destruct (Z.geb_spec (zlen seen) need); [unfold scan_ok; cbn; lia|lia].
Qed.

Lemma scan_mono P Q first grantor hop_id cfs : forall seen seen',
  below P Q -> seen_le seen seen' ->
  scan_ok (confirm_scan s eligible P need first grantor hop_id cfs seen) = true ->
  scan_ok (confirm_scan s eligible Q need first grantor hop_id cfs seen') = true.
Proof.
  induction cfs as [|cf cfs IH]; intros seen seen' Hb Hle Hok.
  - pose proof (seen_le_len _ _ Hle). unfold scan_ok in *. cbn in *. lia.
  - destruct (decide (need <= zlen seen')); [by apply scan_enough|].
    pose proof (seen_le_len _ _ Hle). rewrite scan_step in *.
    destruct (Z.geb_spec (zlen seen) need); [lia|]. destruct (Z.geb_spec (zlen seen') need); [lia|].
    destruct (negb _ || memeq _ _); [eauto|]. destruct (root_confirms _ _ _ _); [done|].
    eapply IH; [done| |exact Hok]. by apply seen_le_next.
Qed.

Lemma deserves_mono P Q ad : below P Q -> deserves P ad = true -> deserves Q ad = true.
Proof.
  intros Hb. unfold deserves. rewrite !andb_true_iff, !forallb_forall. intros [? Hall].
  split; [done|]. intros h Hh. specialize (Hall h Hh). unfold hop_confirmed in *.
  destruct (memeq _ _ || root_member _ _); [done|].
  pose proof (scan_mono P Q (nth 0 (a_grantor ad) []) (nth h (a_grantor ad) [])
    (nth h (a_hop_id ad) []) (confirm_rows s) [] []) as Hs. unfold scan_ok in Hs.
  destruct (confirm_scan s eligible P _ _ _ _ _ _), (confirm_scan s eligible Q _ _ _ _ _ _).
  apply Hs; [done|split_and!; [constructor|constructor|done]|done].
Qed.

(** ** Rounds *)

Lemma round_step ad ads a P ch :
  confirm_round s eligible need (ad :: ads) a P ch =
    if negb (ok_at P a) && deserves P ad
    then confirm_round s eligible need ads (S a) (<[ a := true ]> P) true
    else confirm_round s eligible need ads (S a) P ch.
Proof.
  cbn [confirm_round]. unfold deserves. destruct (ok_at P a), (admin_rooted s ad); cbn; done.
Qed.

(** A round only adds, adds only what every closed set above has, and answers
    [false] only when nothing was left to add. *)
Lemma round_spec ads : forall a P ch P' ch',
  confirm_round s eligible need ads a P ch = (P', ch') ->
  length P' = length P /\ below P P' /\
  (ch' = false -> P' = P /\ ch = false /\
     forall k ad, ads !! k = Some ad -> deserves P ad = true -> ok_at P (a + k) = true) /\
  (ch' = true -> ch = false -> (a + length ads <= length P)%nat ->
     count (fun b => b) P < count (fun b => b) P').
Proof.
  induction ads as [|ad ads IH]; intros a P ch P' ch' Hr.
  { cbn in Hr. simplify_eq. split_and!; [done|by intros ?| |congruence].
    intros ->. split_and!; auto. intros k ? Hk. by rewrite lookup_nil in Hk. }
  rewrite round_step in Hr. destruct (negb (ok_at P a) && deserves P ad) eqn:E.
  - apply andb_true_iff in E as [Ea%negb_true_iff _].
    destruct (IH _ _ _ _ _ Hr) as (Hl & Hb & Hf & Ht). rewrite length_insert in Hl.
    split_and!; [done| |intros ->; by destruct (Hf eq_refl) as (_ & ? & _)|].
    + intros b Hbb. apply Hb, below_insert, Hbb.
    + intros _ _ Hle. cbn [length] in Hle.
      assert (exists x, P !! a = Some x) as [x Hx] by (apply lookup_lt_is_Some_2; lia).
      assert (count (fun b => b) P < count (fun b => b) (<[ a := true ]> P)).
      { rewrite (count_insert _ _ _ x) by done. unfold ok_at in Ea. rewrite Hx in Ea. cbn in Ea.
        subst x. lia. }
      assert (count (fun b => b) (<[ a := true ]> P) <= count (fun b => b) P'); [|lia].
      apply below_count; [by rewrite length_insert|done].
  - destruct (IH _ _ _ _ _ Hr) as (Hl & Hb & Hf & Ht). split_and!; [done|done| |].
    + intros ->. destruct (Hf eq_refl) as (-> & -> & Hall). split_and!; auto.
      intros [|k] ad' Hk Hd; simplify_eq/=.
      * rewrite Nat.add_0_r. rewrite Hd, andb_true_r in E. by apply negb_false_iff in E.
      * rewrite Nat.add_succ_r. by apply (Hall k ad').
    + intros -> -> Hle. apply Ht; auto. cbn in Hle. lia.
Qed.

Lemma round_least ads : forall a P ch Q,
  (forall k ad, ads !! k = Some ad -> admin_rows s !! (a + k)%nat = Some ad) ->
  closed Q -> below P Q -> below (fst (confirm_round s eligible need ads a P ch)) Q.
Proof.
  induction ads as [|ad ads IH]; intros a P ch Q Hads HQ Hb; [done|].
  assert (forall k ad', ads !! k = Some ad' -> admin_rows s !! (S a + k)%nat = Some ad') as Hads'
    by (intros k ad' Hk; replace (S a + k)%nat with (a + S k)%nat by lia; by apply Hads).
  rewrite round_step. destruct (_ && _) eqn:E; [|by apply IH].
  apply andb_true_iff in E as [_ Hd]. apply IH; auto. intros b Hbb.
  destruct (decide (a = b)) as [<-|Hne].
  - apply (HQ a ad); [|by eapply deserves_mono]. specialize (Hads 0%nat ad eq_refl).
    by rewrite Nat.add_0_r in Hads.
  - apply Hb. unfold ok_at in *. by rewrite list_lookup_insert_ne in Hbb.
Qed.

(** As many rounds as there are admins still to add, and one more, settle it. *)
Lemma rounds_spec fuel : forall P,
  length P = length (admin_rows s) ->
  (length (admin_rows s) < fuel + Z.to_nat (count (fun b => b) P))%nat ->
  let P' := confirm_rounds s eligible need fuel P in
  length P' = length P /\ closed P' /\ (forall Q, closed Q -> below P Q -> below P' Q).
Proof.
  induction fuel as [|fuel IH]; intros P Hl Hf; cbn [confirm_rounds].
  { pose proof (count_le_zlen (fun b => b) P). unfold zlen in *. lia. }
  pose proof (round_least (admin_rows s) 0 P false) as Hleast.
  destruct (confirm_round s eligible need (admin_rows s) 0 P false) as [P1 ch] eqn:Hr.
  destruct (round_spec _ _ _ _ _ _ Hr) as (Hl1 & Hb1 & Hun & Hch). cbn [fst] in Hleast.
  destruct ch.
  - specialize (Hch eq_refl eq_refl). destruct (IH P1) as (Hl2 & Hc2 & Hm2); [lia| |].
    { pose proof (count_nonneg (fun b => b) P). lia. }
    split_and!; [lia|done|]. intros Q HQ HPQ. apply Hm2; [done|]. by apply Hleast.
  - destruct (Hun eq_refl) as (-> & _ & Hall). by split_and!.
Qed.
End Confirm.

(** C22: confirmations settle, and to the least set. When the store keeps them
    and the quorum is above one, the bounded rounds of [confirm_admins] end in
    a set of admins closed under the rule (a rooted admin whose every
    non-root hop a root confirmed, or enough distinct confirmed admins did, is
    in it), and in the least such set, so two admins cannot confirm each other
    in and the order confirmations arrived in decides nothing. *)
Theorem confirmations_settle_least s eligible :
  confirm_hash s <> None -> quorum_of s <> 1 ->
  let P := confirm_admins s eligible in
  length P = length (admin_rows s) /\
  closed s eligible (quorum_of s - 1) P /\
  (forall Q, closed s eligible (quorum_of s - 1) Q -> below P Q).
Proof.
  intros Hh Hq. unfold confirm_admins. destruct (confirm_hash s); [|done]. cbn [is_null orb].
  destruct (Z.eqb_spec (quorum_of s - 1) 0); [lia|]. cbv zeta.
  destruct (rounds_spec s eligible (quorum_of s - 1) (S (length (admin_rows s)))
              (replicate (length (admin_rows s)) false)) as (Hl & Hc & Hm).
  - by rewrite length_replicate.
  - lia.
  - rewrite length_replicate in Hl. split_and!; auto. intros Q HQ. apply Hm; [done|].
    intros a. unfold ok_at. destruct (_ !! a) as [x|] eqn:E; [|done].
    apply lookup_replicate in E as [-> _]. done.
Qed.

(** Root 1 made admins 2 and 3; 4 was admitted by 2 and confirmed by 3. *)
Definition demo_confirm_store : fzn_revocation_store :=
  mk_store (Some []) 0 1 2 true (demo_key 0)
    (Some [mk_admin (demo_key 4) [demo_key 1; demo_key 2] [demo_key 2; demo_key 4]
             [demo_key 50; demo_key 51] (demo_key 50);
           mk_admin (demo_key 2) [demo_key 1] [demo_key 2] [demo_key 50] (demo_key 50);
           mk_admin (demo_key 3) [demo_key 1] [demo_key 3] [demo_key 52] (demo_key 52);
           mk_admin (demo_key 5) [demo_key 1; demo_key 2] [demo_key 2; demo_key 5]
             [demo_key 50; demo_key 53] (demo_key 50)]) 4 None None
    (Some [mk_confirm (demo_key 3) (demo_key 51) (demo_key 60);
           mk_confirm (demo_key 2) (demo_key 53) (demo_key 61)]) 2
    (Some (fun _ b => Some b)) None.

Lemma confirmations_settle_least_witness :
  confirm_admins demo_confirm_store None = [true; true; true; false] /\
  closed demo_confirm_store None 1 (confirm_admins demo_confirm_store None).
Proof.
  split; [vm_compute; reflexivity|].
  apply (confirmations_settle_least demo_confirm_store None); discriminate.
Defined.
