(* ===== verification/Manifest.v ===== *)
(** * chain/manifest.c: what an issuer says it revoked, and what is missing

    The manifest record as a view, and the state a host keeps about the
    issuers it follows: a table of followed issuers and a table of the pairs
    it knows it lacks. Issuing a manifest is left out. *)

From S2P Require Import Prelude Bytes Hop Revocation.

Definition FZN_MANIFEST_KEY_LEN : Z := FZN_CAP_ID_LEN + FZN_PUBKEY_LEN.
Definition FZN_MANIFEST_PAIR_LEN : Z := FZN_MANIFEST_KEY_LEN + FZN_REVOCATION_ID_LEN + 1.
Definition FZN_MANIFEST_OFF_ENTRY_ID : Z := FZN_MANIFEST_KEY_LEN.
Definition FZN_MANIFEST_OFF_ENTRY_STATE : Z := FZN_MANIFEST_KEY_LEN + FZN_REVOCATION_ID_LEN.
Definition FZN_MANIFEST_REVOKED : Z := 0.
Definition FZN_MANIFEST_WITHDRAWN : Z := 1.
Definition FZN_MANIFEST_HEADER_LEN : Z := 36.
Definition FZN_MANIFEST_OFF_VERSION : Z := 0.
Definition FZN_MANIFEST_OFF_OBJECT : Z := 1.
Definition FZN_MANIFEST_OFF_ISSUER : Z := 2.
Definition FZN_MANIFEST_OFF_COUNT : Z := 34.
Definition FZN_MANIFEST_OFF_PAIRS : Z := FZN_MANIFEST_HEADER_LEN.
Definition FZN_MANIFEST_BODY_LEN (pairs : Z) : Z := FZN_MANIFEST_HEADER_LEN + FZN_MANIFEST_PAIR_LEN * pairs.
Definition FZN_MANIFEST_LEN (pairs : Z) : Z := FZN_MANIFEST_BODY_LEN pairs + FZN_SIG_LEN.
Definition FZN_MANIFEST_MIN_LEN : Z := FZN_MANIFEST_LEN 0.
Definition FZN_MANIFEST_MAX_PAIRS : Z := 2701.

Inductive fzn_manifest_err :=
  | FZN_MANIFEST_OK
  | FZN_MANIFEST_ERR_MALFORMED
  | FZN_MANIFEST_ERR_SHAPE
  | FZN_MANIFEST_ERR_SIGNATURE
  | FZN_MANIFEST_ERR_UNKNOWN_ISSUER
  | FZN_MANIFEST_ERR_FULL
  | FZN_MANIFEST_ERR_DEFICIT_FULL.

(** ** The record *)

Definition fzn_manifest_issuer (rec : bytes) : bytes := slice FZN_MANIFEST_OFF_ISSUER FZN_PUBKEY_LEN rec.
Definition fzn_manifest_count (rec : bytes) : Z := fzn_get_be16 rec FZN_MANIFEST_OFF_COUNT.
Definition pair_off (i : Z) : Z := FZN_MANIFEST_OFF_PAIRS + FZN_MANIFEST_PAIR_LEN * i.
Definition fzn_manifest_capability (rec : bytes) (i : Z) : bytes :=
  slice (pair_off i) FZN_CAP_ID_LEN rec.
Definition fzn_manifest_grantee (rec : bytes) (i : Z) : bytes :=
  slice (pair_off i + FZN_CAP_ID_LEN) FZN_PUBKEY_LEN rec.
Definition fzn_manifest_id (rec : bytes) (i : Z) : bytes :=
  slice (pair_off i + FZN_MANIFEST_OFF_ENTRY_ID) FZN_REVOCATION_ID_LEN rec.
Definition fzn_manifest_is_withdrawn (rec : bytes) (i : Z) : bool :=
  peek rec (pair_off i + FZN_MANIFEST_OFF_ENTRY_STATE) =? FZN_MANIFEST_WITHDRAWN.
Definition fzn_manifest_signature (rec : bytes) : bytes :=
  slice (FZN_MANIFEST_BODY_LEN (fzn_manifest_count rec)) FZN_SIG_LEN rec.
Definition fzn_manifest_signed_bytes (rec : bytes) : bytes :=
  slice 0 (FZN_MANIFEST_BODY_LEN (fzn_manifest_count rec)) rec.

Definition pair_cmp (rec : bytes) (i j : Z) : Z :=
  memcmp (slice (pair_off i) FZN_MANIFEST_KEY_LEN rec) (slice (pair_off j) FZN_MANIFEST_KEY_LEN rec).

Definition fzn_manifest_open (b : option bytes) : fzn_manifest_err * option bytes :=
  match b with
  | None => (FZN_MANIFEST_ERR_MALFORMED, None)
  | Some b =>
    if zlen b <? FZN_MANIFEST_MIN_LEN then (FZN_MANIFEST_ERR_SHAPE, None)
    else if negb (peek b FZN_MANIFEST_OFF_VERSION =? FZN_SIGNED_VERSION)
    then (FZN_MANIFEST_ERR_SHAPE, None)
    else if negb (peek b FZN_MANIFEST_OFF_OBJECT =? FZN_OBJECT_MANIFEST)
    then (FZN_MANIFEST_ERR_SHAPE, None)
    else
      let count := fzn_get_be16 b FZN_MANIFEST_OFF_COUNT in
      if count >? FZN_MANIFEST_MAX_PAIRS then (FZN_MANIFEST_ERR_SHAPE, None)
      else if negb (zlen b =? FZN_MANIFEST_LEN count) then (FZN_MANIFEST_ERR_SHAPE, None)
      else if existsb (fun i => pair_cmp b (i - 1) i >=? 0) (seqZ 1 (count - 1))
      then (FZN_MANIFEST_ERR_SHAPE, None)
      else if existsb (fun i =>
                let state := peek b (pair_off i + FZN_MANIFEST_OFF_ENTRY_STATE) in
                negb (state =? FZN_MANIFEST_REVOKED) && negb (state =? FZN_MANIFEST_WITHDRAWN))
              (seqZ 0 count)
      then (FZN_MANIFEST_ERR_SHAPE, None)
      else (FZN_MANIFEST_OK, Some b)
  end.

(** ** The state *)

Record manifest_issuer := mk_issuer { m_issuer : bytes; pairs_seen : Z; overflowed : bool }.

Record fzn_manifest_deficit := mk_deficit { d_issuer : bytes; d_capability : bytes; d_grantee : bytes }.

#[export] Instance fzn_manifest_deficit_eq_dec : EqDecision fzn_manifest_deficit.
Proof. solve_decision. Defined.

(** Both tables are arrays whose length is their capacity, or NULL. *)
Record fzn_manifest_state := mk_state {
  issuers : option (list manifest_issuer);
  issuer_used : Z;
  deficit : option (list fzn_manifest_deficit);
  deficit_used : Z
}.

Definition state_sound (st : fzn_manifest_state) : bool :=
  if issuer_used st >? table_capacity (issuers st) then false
  else if deficit_used st >? table_capacity (deficit st) then false
  else if (issuer_used st >? 0) && is_null (issuers st) then false
  else if (deficit_used st >? 0) && is_null (deficit st) then false
  else true.

Definition issuer_rows (st : fzn_manifest_state) : list manifest_issuer :=
  in_table (issuers st) (issuer_used st).
Definition deficit_rows (st : fzn_manifest_state) : list fzn_manifest_deficit :=
  in_table (deficit st) (deficit_used st).

(** [None] is the source's [issuer_used]. *)
Definition find_issuer (st : fzn_manifest_state) (issuer : bytes) : option nat :=
  find_index (fun i => memeq (m_issuer i) issuer) (issuer_rows st).

Definition names_pair (issuer capability grantee : bytes) (d : fzn_manifest_deficit) : bool :=
  memeq (d_issuer d) issuer && memeq (d_capability d) capability && memeq (d_grantee d) grantee.

Definition deficit_holds (st : fzn_manifest_state) (issuer capability grantee : bytes) : bool :=
  existsb (names_pair issuer capability grantee) (deficit_rows st).

Definition fzn_manifest_init (issuers_ : list manifest_issuer) (deficit_ : list fzn_manifest_deficit)
    (st : fzn_manifest_state) : fzn_manifest_err * fzn_manifest_state :=
  if (zlen issuers_ =? 0) || (zlen deficit_ =? 0) then (FZN_MANIFEST_ERR_MALFORMED, st)
  else (FZN_MANIFEST_OK, mk_state (Some issuers_) 0 (Some deficit_) 0).

Definition fzn_manifest_follow (st : fzn_manifest_state) (issuer : bytes)
    : fzn_manifest_err * fzn_manifest_state :=
  match issuers st with
  | None => (FZN_MANIFEST_ERR_MALFORMED, st)
  | Some tab =>
    if negb (state_sound st) then (FZN_MANIFEST_ERR_MALFORMED, st)
    else if negb (is_null (find_issuer st issuer)) then (FZN_MANIFEST_OK, st)
    else if issuer_used st >=? zlen tab then (FZN_MANIFEST_ERR_FULL, st)
    else
      (FZN_MANIFEST_OK,
       mk_state (Some (<[ Z.to_nat (issuer_used st) := mk_issuer issuer 0 false ]> tab))
         (issuer_used st + 1) (deficit st) (deficit_used st))
  end.

(** Whether this host is level with or ahead of what entry [i] says. *)
Definition ahead (store : option fzn_revocation_store) (rec : bytes) (i : Z) : bool :=
  match fzn_revocation_lookup store (Some (fzn_manifest_issuer rec))
          (Some (fzn_manifest_capability rec i)) (Some (fzn_manifest_grantee rec i)) with
  | None => false
  | Some (mine, mine_withdrawn) =>
    if negb (memeq mine (fzn_manifest_id rec i)) then false
    else negb (fzn_manifest_is_withdrawn rec i && negb mine_withdrawn)
  end.

Definition set_deficit (st : fzn_manifest_state) (tab : list fzn_manifest_deficit) (n : Z)
    : fzn_manifest_state := mk_state (issuers st) (issuer_used st) (Some tab) n.

(** The loop over the record's pairs from [i] on; [dropped] counts the pairs
    the table had no room for. *)
Fixpoint admit_loop (store : option fzn_revocation_store) (rec : bytes) (is_ : list Z)
    (st : fzn_manifest_state) (dropped : Z) : fzn_manifest_state * Z :=
  match is_ with
  | [] => (st, dropped)
  | i :: is_ =>
    let issuer := fzn_manifest_issuer rec in
    let capability := fzn_manifest_capability rec i in
    let grantee := fzn_manifest_grantee rec i in
    if ahead store rec i then admit_loop store rec is_ st dropped
    else if deficit_holds st issuer capability grantee then admit_loop store rec is_ st dropped
    else match deficit st with
    | None => admit_loop store rec is_ st dropped
    | Some tab =>
      if deficit_used st >=? zlen tab then admit_loop store rec is_ st (dropped + 1)
      else
        admit_loop store rec is_
          (set_deficit st
             (<[ Z.to_nat (deficit_used st) := mk_deficit issuer capability grantee ]> tab)
             (deficit_used st + 1)) dropped
    end
  end.

(** The high-water mark and the sticky flag of the issuer's entry at the end. *)
Definition settle_issuer (e : manifest_issuer) (count dropped : Z) : manifest_issuer :=
  let e := if dropped >? 0 then mk_issuer (m_issuer e) (pairs_seen e) true else e in
  if count >=? pairs_seen e
  then mk_issuer (m_issuer e) count (if dropped =? 0 then false else overflowed e)
  else e.

Definition fzn_manifest_admit (st : fzn_manifest_state) (store : option fzn_revocation_store)
    (record : option bytes) (ops : fzn_sign_ops) : fzn_manifest_err * fzn_manifest_state :=
  match issuers st, deficit st, verify ops, record with
  | Some itab, Some _, Some verify, Some rec =>
    if negb (state_sound st) then (FZN_MANIFEST_ERR_MALFORMED, st)
    else
      let issuer := fzn_manifest_issuer rec in
      match find_issuer st issuer with
      | None => (FZN_MANIFEST_ERR_UNKNOWN_ISSUER, st)
      | Some which =>
        if negb (fzn_revocation_store_sound store) then (FZN_MANIFEST_ERR_MALFORMED, st)
        else if negb (verify issuer (fzn_manifest_signed_bytes rec) (fzn_manifest_signature rec))
        then (FZN_MANIFEST_ERR_SIGNATURE, st)
        else
          let count := fzn_manifest_count rec in
          let '(st', dropped) := admit_loop store rec (seqZ 0 count) st 0 in
          let st' :=
            match itab !! which with
            | None => st'
            | Some e =>
              mk_state (Some (<[ which := settle_issuer e count dropped ]> itab)) (issuer_used st')
                (deficit st') (deficit_used st')
            end in
          (if dropped >? 0 then FZN_MANIFEST_ERR_DEFICIT_FULL else FZN_MANIFEST_OK, st')
      end
  | _, _, _, _ => (FZN_MANIFEST_ERR_MALFORMED, st)
  end.

(** The compaction loop of [fzn_manifest_satisfy] at index [i], [fuel] rows to
    look at: a match is overwritten by the tail moved down. *)
Fixpoint satisfy_loop (issuer capability grantee : bytes) (fuel : nat)
    (tab : list fzn_manifest_deficit) (n i removed : Z) : list fzn_manifest_deficit * Z * Z :=
  match fuel with
  | O => (tab, n, removed)
  | S fuel =>
    if i >=? n then (tab, n, removed)
    else match tab !! Z.to_nat i with
    | None => (tab, n, removed)
    | Some d =>
      if names_pair issuer capability grantee d
      then satisfy_loop issuer capability grantee fuel
             (blit i (slice (i + 1) (n - i - 1) tab) tab) (n - 1) i (removed + 1)
      else satisfy_loop issuer capability grantee fuel tab n (i + 1) removed
    end
  end.

(** NULL is no state. *)
Definition fzn_manifest_satisfy (state : option fzn_manifest_state) (issuer capability grantee : bytes)
    : Z * option fzn_manifest_state :=
  match state with
  | None => (0, None)
  | Some st =>
    match deficit st with
    | None => (0, Some st)
    | Some tab =>
      if negb (state_sound st) then (0, Some st)
      else
        let '(tab, n, removed) :=
          satisfy_loop issuer capability grantee (Z.to_nat (deficit_used st)) tab (deficit_used st) 0 0 in
        (removed, Some (set_deficit st tab n))
    end
  end.

Definition fzn_manifest_pending (st : fzn_manifest_state) (issuer : bytes) : Z :=
  if negb (state_sound st) || is_null (deficit st) then 0
  else count (fun d => memeq (d_issuer d) issuer) (deficit_rows st).

Definition fzn_manifest_follows (st : fzn_manifest_state) (issuer : bytes) : bool :=
  if negb (state_sound st) || is_null (issuers st) then false
  else negb (is_null (find_issuer st issuer)).

Definition fzn_manifest_overflowed (st : fzn_manifest_state) (issuer : bytes) : bool :=
  if negb (state_sound st) || is_null (issuers st) then true
  else match find_issuer st issuer with
  | None => true
  | Some which => match issuer_rows st !! which with None => true | Some e => overflowed e end
  end.

(** The rotated window: [out] after the writes, how many, at [pos] of the run. *)
Fixpoint window_loop (ds : list fzn_manifest_deficit) (issuer : bytes) (total from : Z)
    (out : list (bytes * bytes)) (pos written : Z) : list (bytes * bytes) * Z :=
  match ds with
  | [] => (out, written)
  | d :: ds =>
    if negb (memeq (d_issuer d) issuer) then window_loop ds issuer total from out pos written
    else
      let rel := (pos + total - from) mod total in
      if rel >=? zlen out then window_loop ds issuer total from out (pos + 1) written
      else
        window_loop ds issuer total from (<[ Z.to_nat rel := (d_capability d, d_grantee d) ]> out)
          (pos + 1) (written + 1)
  end.

(** [out] holds [out_cap] pairs; the result is what was written, [out],
    [*dropped] and [*next]. *)
Definition fzn_manifest_deficit_from (st : fzn_manifest_state) (issuer : bytes) (from : Z)
    (out : list (bytes * bytes)) : Z * list (bytes * bytes) * Z * Z :=
  if negb (state_sound st) || is_null (deficit st) then (0, out, 0, 0)
  else
    let total := count (fun d => memeq (d_issuer d) issuer) (deficit_rows st) in
    if total =? 0 then (0, out, 0, 0)
    else
      let from := from mod total in
      let '(out, written) := window_loop (deficit_rows st) issuer total from out 0 0 in
      (written, out, total - written, (from + written) mod total).

(** ** Satisfying a pair *)

Lemma slice_head {A} (l : list A) i n x :
  0 <= i -> 0 < n -> l !! Z.to_nat i = Some x -> slice i n l = x :: slice (i + 1) (n - 1) l.
Proof.
  intros Hi Hn Hx. unfold slice. rewrite (drop_S l x (Z.to_nat i)) by done.
  replace (Z.to_nat n) with (S (Z.to_nat (n - 1))) by lia. cbn [take].
  by replace (S (Z.to_nat i)) with (Z.to_nat (i + 1)) by lia.
Qed.

Lemma take_slice {A} (l : list A) n : take (Z.to_nat n) l = slice 0 n l.
Proof. done. Qed.

(** Moving the tail down over row [i] removes it from the rows in use. *)
Lemma blit_down {A} (tab : list A) i n d :
  0 <= i < n -> n <= zlen tab -> tab !! Z.to_nat i = Some d ->
  zlen (blit i (slice (i + 1) (n - i - 1) tab) tab) = zlen tab /\
  slice 0 i (blit i (slice (i + 1) (n - i - 1) tab) tab) = slice 0 i tab /\
  slice i (n - 1 - i) (blit i (slice (i + 1) (n - i - 1) tab) tab) = slice (i + 1) (n - i - 1) tab.
Proof.
  intros Hi Hn Hd. assert (zlen (slice (i + 1) (n - i - 1) tab) = n - i - 1) as Hl
    by (apply zlen_slice; lia).
  split_and!.
  - apply zlen_blit; lia.
  - apply slice_blit_disjoint; lia.
  - replace (n - 1 - i) with (zlen (slice (i + 1) (n - i - 1) tab)) at 1 by lia.
    apply slice_blit_same; lia.
Qed.

Lemma satisfy_loop_spec issuer capability grantee fuel : forall tab n i removed,
  0 <= i <= n -> n <= zlen tab -> n - i <= Z.of_nat fuel ->
  let keep := List.filter (fun d => negb (names_pair issuer capability grantee d)) (slice i (n - i) tab) in
  let gone := count (names_pair issuer capability grantee) (slice i (n - i) tab) in
  exists tab', satisfy_loop issuer capability grantee fuel tab n i removed
      = (tab', n - gone, removed + gone) /\
    zlen tab' = zlen tab /\ slice 0 (n - gone) tab' = slice 0 i tab ++ keep.
Proof.
  induction fuel as [|fuel IH]; intros tab n i removed Hi Hn Hf; cbv zeta.
  { assert (n = i) as -> by lia. exists tab. cbn [satisfy_loop].
    replace (i - i) with 0 by lia. change (slice i 0 tab) with (@nil fzn_manifest_deficit).
    cbn. rewrite app_nil_r. split_and!; [f_equal; [f_equal|]; lia|done|f_equal; lia]. }
  cbn [satisfy_loop]. destruct (Z.geb_spec i n) as [Hge|Hlt].
  { assert (n = i) as -> by lia. exists tab. replace (i - i) with 0 by lia.
    change (slice i 0 tab) with (@nil fzn_manifest_deficit).
    cbn. rewrite app_nil_r. split_and!; [f_equal; [f_equal|]; lia|done|f_equal; lia]. }
  destruct (lookup_lt_is_Some_2 tab (Z.to_nat i)) as [d Hd]; [unfold zlen in *; lia|]. rewrite Hd.
  rewrite (slice_head tab i (n - i) d) by (done || lia). cbn [List.filter count].
  destruct (names_pair issuer capability grantee d) eqn:Hm; cbn [negb].
  - destruct (blit_down tab i n d) as (Hl & Hpre & Hsuf); [lia|done|done|].
    destruct (IH (blit i (slice (i + 1) (n - i - 1) tab) tab) (n - 1) i (removed + 1))
      as (tab' & E & Hl' & Hs'); [lia|lia|lia|].
    replace (n - i - 1) with (n - i - 1) in * by lia. rewrite Hsuf in *. exists tab'.
    rewrite E. split_and!; [f_equal; [f_equal; lia|lia]|lia|].
    rewrite <- Hpre, <- Hs'. f_equal. lia.
  - destruct (IH tab n (i + 1) removed) as (tab' & E & Hl' & Hs'); [lia|done|lia|].
    replace (n - (i + 1)) with (n - i - 1) in * by lia. exists tab'. rewrite E, Z.add_0_l.
    split_and!; [done|done|]. rewrite Hs', <- (slice_app 0 i 1), Z.add_0_l by lia.
    rewrite (slice_head tab i 1 d) by (done || lia).
    change (slice (i + 1) (1 - 1) tab) with (@nil fzn_manifest_deficit). rewrite <- app_assoc. done.
Qed.

(** A state whose tables are there and large enough. *)
Definition state_ok (st : fzn_manifest_state) : Prop :=
  exists itab dtab, issuers st = Some itab /\ deficit st = Some dtab /\
    0 <= issuer_used st <= zlen itab /\ 0 <= deficit_used st <= zlen dtab.

Lemma state_ok_sound st : state_ok st -> state_sound st = true.
Proof.
  intros (it & dt & Hi & Hd & ? & ?). unfold state_sound. rewrite Hi, Hd. cbn.
  destruct (Z.gtb_spec (issuer_used st) (zlen it)); [lia|].
  destruct (Z.gtb_spec (deficit_used st) (zlen dt)); [lia|]. by rewrite !andb_false_r.
Qed.

Lemma satisfy_spec st issuer capability grantee :
  state_ok st ->
  exists st', fzn_manifest_satisfy (Some st) issuer capability grantee
      = (count (names_pair issuer capability grantee) (deficit_rows st), Some st') /\
    state_ok st' /\ issuers st' = issuers st /\ issuer_used st' = issuer_used st /\
    deficit_rows st' =
      List.filter (fun d => negb (names_pair issuer capability grantee d)) (deficit_rows st).
Proof.
  intros Hok. pose proof (state_ok_sound st Hok) as Hs. destruct Hok as (it & dt & Hi & Hd & Hiu & Hdu).
  unfold fzn_manifest_satisfy. rewrite Hd, Hs. cbn [negb].
  destruct (satisfy_loop_spec issuer capability grantee (Z.to_nat (deficit_used st)) dt
              (deficit_used st) 0 0) as (tab' & E & Hl & Hrows); [lia|lia|lia|].
  rewrite E. rewrite Z.sub_0_r in *.
  assert (deficit_rows st = slice 0 (deficit_used st) dt) as Er
    by (unfold deficit_rows; rewrite Hd; done).
  rewrite <- Er in *.
  pose proof (count_nonneg (names_pair issuer capability grantee) (deficit_rows st)).
  pose proof (count_le_zlen (names_pair issuer capability grantee) (deficit_rows st)) as Hle.
  assert (zlen (deficit_rows st) = deficit_used st) as Hlen by (rewrite Er; apply zlen_slice; lia).
  eexists. split; [reflexivity|]. split_and!; [|done|done|].
  - exists it, tab'. cbn. split_and!; auto; lia.
  - exact Hrows.
Qed.

(** ** Admitting a manifest *)

(** What the table ends with: the missing pairs appended, or counted. *)
Lemma admit_loop_spec store rec is_ : forall st dropped,
  state_ok st -> 0 <= dropped ->
  let '(st', dropped') := admit_loop store rec is_ st dropped in
  state_ok st' /\ issuers st' = issuers st /\ issuer_used st' = issuer_used st /\
  deficit_rows st `prefix_of` deficit_rows st' /\ dropped <= dropped' /\
  (dropped' = dropped -> Forall (fun i => ahead store rec i = true \/
     mk_deficit (fzn_manifest_issuer rec) (fzn_manifest_capability rec i) (fzn_manifest_grantee rec i)
       ∈ deficit_rows st') is_) /\
  (forall d, d ∈ deficit_rows st' -> d ∈ deficit_rows st \/
     exists i, i ∈ is_ /\ ahead store rec i = false /\
       d = mk_deficit (fzn_manifest_issuer rec) (fzn_manifest_capability rec i)
             (fzn_manifest_grantee rec i)).
Proof.
  induction is_ as [|i is_ IH]; intros st dropped Hok Hd; cbn [admit_loop].
  { split_and!; auto; lia. }
  destruct (ahead store rec i) eqn:Ha.
  { specialize (IH st dropped Hok Hd). destruct (admit_loop _ _ _ _ _) as [st' dropped'].
    destruct IH as (? & ? & ? & ? & ? & Hall & Hnew). split_and!; [done|done|done|done|lia| |].
    - intros E. apply Forall_cons_iff. split; [by left|by apply Hall].
    - intros d Hin. destruct (Hnew d Hin) as [?|(j & ? & ? & ?)]; [auto|].
      right. exists j. split_and!; auto. by constructor. }
  destruct (deficit_holds st _ _ _) eqn:Hh.
  { specialize (IH st dropped Hok Hd). destruct (admit_loop _ _ _ _ _) as [st' dropped'].
    destruct IH as (? & ? & ? & Hpre & ? & Hall & Hnew). split_and!; [done|done|done|done|lia| |].
    - intros E. constructor; [|auto]. right. apply existsb_lookup in Hh as (k & d & Hk & Hm).
      unfold names_pair in Hm. rewrite !andb_true_iff, !memeq_true in Hm.
      destruct Hm as [[<- <-] <-]. destruct Hpre as [post Hpre]. rewrite Hpre.
      apply elem_of_app. left. apply list_elem_of_lookup. exists k. by destruct d.
    - intros d Hin. destruct (Hnew d Hin) as [?|(j & ? & ? & ?)]; [auto|].
      right. exists j. split_and!; auto. by constructor. }
  destruct Hok as (it & dt & Hi & Hdt & Hiu & Hdu) eqn:Hokeq. rewrite Hdt.
  destruct (Z.geb_spec (deficit_used st) (zlen dt)).
  { assert (state_ok st) as Hok' by (by exists it, dt).
    specialize (IH st (dropped + 1) Hok' ltac:(lia)).
    destruct (admit_loop _ _ _ _ _) as [st' dropped'].
    destruct IH as (? & ? & ? & ? & ? & _ & Hnew). split_and!; [done|done|done|done|lia|lia|].
    intros d Hin. destruct (Hnew d Hin) as [?|(j & ? & ? & ?)]; [auto|].
    right. exists j. split_and!; auto. by constructor. }
  set (d0 := mk_deficit _ _ _).
  set (st1 := set_deficit st (<[ Z.to_nat (deficit_used st) := d0 ]> dt) (deficit_used st + 1)).
  assert (state_ok st1) as Hok1.
  { exists it, (<[ Z.to_nat (deficit_used st) := d0 ]> dt). cbn. split_and!; auto; try lia.
    unfold zlen in *. rewrite length_insert. lia. }
  assert (deficit_rows st1 = deficit_rows st ++ [d0]) as Hr1.
  { unfold deficit_rows, st1, set_deficit. rewrite Hdt. cbn [deficit deficit_used in_table].
    replace (Z.to_nat (deficit_used st + 1)) with (S (Z.to_nat (deficit_used st))) by lia.
    erewrite take_S_r by (apply list_lookup_insert_eq; unfold zlen in *; lia).
    by rewrite take_insert_ge. }
  specialize (IH st1 dropped Hok1 Hd). destruct (admit_loop _ _ _ _ _) as [st' dropped'].
  rewrite Hr1 in IH. destruct IH as (? & ? & ? & [post Hpre] & ? & Hall & Hnew). split_and!; [done|done|done| |lia| |].
  - exists ([d0] ++ post). by rewrite Hpre, <- app_assoc.
  - intros E. constructor; [|auto]. right. rewrite Hpre, !elem_of_app. left. right. constructor.
  - intros d Hin. destruct (Hnew d Hin) as [Hin'|(j & ? & ? & ?)].
    + apply elem_of_app in Hin' as [?|Hin']; [auto|]. apply list_elem_of_singleton in Hin' as ->.
      right. exists i. split_and!; auto. constructor.
    + right. exists j. split_and!; auto. by constructor.
Qed.

Lemma find_issuer_Some st issuer k :
  find_issuer st issuer = Some k ->
  exists e, issuer_rows st !! k = Some e /\ m_issuer e = issuer.
Proof.
  intros H. apply find_index_Some in H as (e & Hk & He & _). exists e. by rewrite memeq_true in He.
Qed.

(** The issuer's row settled in place. *)
Lemma settle_row st it which e e' dt dn :
  issuers st = Some it -> issuer_rows st !! which = Some e -> m_issuer e' = m_issuer e ->
  let st' := mk_state (Some (<[ which := e' ]> it)) (issuer_used st) dt dn in
  (forall issuer, find_issuer st' issuer = find_issuer st issuer) /\
  issuer_rows st' !! which = Some e'.
Proof.
  intros Hi Hw Hm. cbv zeta. unfold find_issuer, issuer_rows in *. rewrite Hi in *. cbn in *.
  apply lookup_take_Some in Hw as Hw'. destruct Hw' as [Hit Hlt].
  rewrite take_insert_lt by done. split.
  - intros issuer. apply (find_index_insert _ _ _ e); [done|]. by rewrite Hm.
  - apply list_lookup_insert_eq. by eapply lookup_lt_Some.
Qed.

(** What [fzn_manifest_admit] leaves behind when it answers [err]. *)
Definition admitted (st : fzn_manifest_state) (store : option fzn_revocation_store) (rec : bytes)
    (err : fzn_manifest_err) (st' : fzn_manifest_state) : Prop :=
  match err with
  | FZN_MANIFEST_OK =>
    Forall (fun i => ahead store rec i = true \/
      mk_deficit (fzn_manifest_issuer rec) (fzn_manifest_capability rec i) (fzn_manifest_grantee rec i)
        ∈ deficit_rows st') (seqZ 0 (fzn_manifest_count rec))
  | FZN_MANIFEST_ERR_DEFICIT_FULL => fzn_manifest_overflowed st' (fzn_manifest_issuer rec) = true
  | _ => st' = st
  end.

Lemma settled_ok it which e st1 :
  state_ok st1 -> issuers st1 = Some it ->
  state_ok (mk_state (Some (<[ which := e ]> it)) (issuer_used st1) (deficit st1) (deficit_used st1)).
Proof.
  intros (it1 & dt1 & Hi & Hd & ? & ?) Hi'. rewrite Hi in Hi'. simplify_eq.
  exists (<[ which := e ]> it), dt1. cbn. split_and!; auto; try lia.
  unfold zlen in *. rewrite length_insert. lia.
Qed.

(** Either a refusal that touched nothing, or a verified manifest walked. *)
Lemma admit_cases st store rec ops err st' :
  state_ok st -> fzn_manifest_admit st store (Some rec) ops = (err, st') ->
  (st' = st /\ err <> FZN_MANIFEST_OK /\ err <> FZN_MANIFEST_ERR_DEFICIT_FULL) \/
  exists vf which e it st1 dropped,
    verify ops = Some vf /\
    vf (fzn_manifest_issuer rec) (fzn_manifest_signed_bytes rec) (fzn_manifest_signature rec) = true /\
    find_issuer st (fzn_manifest_issuer rec) = Some which /\ issuer_rows st !! which = Some e /\
    issuers st = Some it /\
    admit_loop store rec (seqZ 0 (fzn_manifest_count rec)) st 0 = (st1, dropped) /\
    err = (if dropped >? 0 then FZN_MANIFEST_ERR_DEFICIT_FULL else FZN_MANIFEST_OK) /\
    st' = mk_state (Some (<[ which := settle_issuer e (fzn_manifest_count rec) dropped ]> it))
            (issuer_used st1) (deficit st1) (deficit_used st1).
Proof.
  intros Hok Ha. pose proof (state_ok_sound st Hok) as Hs. destruct Hok as (it & dt & Hi & Hd & _).
  unfold fzn_manifest_admit in Ha. rewrite Hi, Hd, Hs in Ha. cbn [negb] in Ha.
  destruct (verify ops) as [vf|] eqn:Hvf; [|simplify_eq; by left].
  destruct (find_issuer st (fzn_manifest_issuer rec)) as [which|] eqn:Hw; [|simplify_eq; by left].
  destruct (negb (fzn_revocation_store_sound store)); [simplify_eq; by left|].
  destruct (vf _ _ _) eqn:Hv; cbn [negb] in Ha; [|simplify_eq; by left]. right.
  destruct (admit_loop _ _ _ _ _) as [st1 dropped] eqn:Hl.
  apply find_issuer_Some in Hw as Hw'. destruct Hw' as (e & He & _).
  assert (it !! which = Some e) as Hite.
  { unfold issuer_rows in He. rewrite Hi in He. by apply lookup_take_Some in He as [? _]. }
  rewrite Hite in Ha. simplify_eq. by exists vf, which, e, it, st1, dropped.
Qed.

(** A manifest never makes a host look more complete than it is. When a
    manifest from a followed issuer verifies, every pair it names on which this
    host is not level is in the deficit, or the issuer is marked overflowed;
    rows are only ever added, each for a pair the manifest names and the store
    is behind on; any other answer leaves the state as it was; and a manifest
    smaller than one already seen cannot clear the overflow mark. *)
Theorem manifest_never_flatters st store rec ops err st' :
  state_ok st -> fzn_manifest_admit st store (Some rec) ops = (err, st') ->
  state_ok st' /\ admitted st store rec err st' /\
  deficit_rows st `prefix_of` deficit_rows st' /\
  (forall d, d ∈ deficit_rows st' -> d ∈ deficit_rows st \/
     exists i, 0 <= i < fzn_manifest_count rec /\ ahead store rec i = false /\
       d = mk_deficit (fzn_manifest_issuer rec) (fzn_manifest_capability rec i)
             (fzn_manifest_grantee rec i)) /\
  (forall k e, find_issuer st (fzn_manifest_issuer rec) = Some k -> issuer_rows st !! k = Some e ->
     overflowed e = true -> fzn_manifest_count rec < pairs_seen e ->
     fzn_manifest_overflowed st' (fzn_manifest_issuer rec) = true).
Proof.
  intros Hok Ha. destruct (admit_cases st store rec ops err st' Hok Ha)
    as [(-> & Herr)|(vf & which & e & it & st1 & dropped & Hvf & Hv & Hw & He & Hit & Hl & -> & ->)].
  - split_and!; [done|destruct Herr; by destruct err|done|auto|]. intros k e Hk He Ho _.
    unfold fzn_manifest_overflowed. rewrite (state_ok_sound st Hok), Hk, He. cbn.
    by destruct Hok as (it & dt & -> & _).
  - pose proof (admit_loop_spec store rec (seqZ 0 (fzn_manifest_count rec)) st 0 Hok ltac:(lia)) as Hs.
    rewrite Hl in Hs. destruct Hs as (Hok1 & Hi1 & Hu1 & Hpre & Hd0 & Hall & Hnew).
    set (e' := settle_issuer e (fzn_manifest_count rec) dropped).
    destruct (settle_row st it which e e' (deficit st1) (deficit_used st1) Hit He) as [Hfi Hrow].
    { unfold e', settle_issuer. guards; done. }
    rewrite <- Hu1 in Hfi, Hrow.
    assert (forall b, overflowed e' = b -> fzn_manifest_overflowed
      (mk_state (Some (<[which:=e']> it)) (issuer_used st1) (deficit st1) (deficit_used st1))
      (fzn_manifest_issuer rec) = b) as Hov.
    { intros b Hb. unfold fzn_manifest_overflowed. rewrite Hfi, Hw, Hrow, state_ok_sound; [done|].
      apply settled_ok; congruence. }
    split_and!; [apply settled_ok; congruence| |done| |].
    + destruct (Z.gtb_spec dropped 0); cbn [admitted].
      * apply Hov. unfold e', settle_issuer. destruct (Z.gtb_spec dropped 0); [|lia].
        destruct (Z.eqb_spec dropped 0); [lia|]. cbn. by destruct (_ >=? _).
      * apply Hall. lia.
    + intros d Hd. destruct (Hnew d Hd) as [?|(i & Hi & ? & ?)]; [auto|].
      right. exists i. apply elem_of_seqZ in Hi. split_and!; auto; lia.
    + intros k e2 Hk He2 Ho Hlt. rewrite Hw in Hk. simplify_eq. apply Hov.
      unfold e', settle_issuer. destruct (dropped >? 0); cbn;
        (destruct (Z.geb_spec (fzn_manifest_count rec) (pairs_seen e)); [lia|done]).
Qed.

Definition demo_rec : bytes :=
  [1; 131] ++ demo_key 7 ++ be16 1 ++ demo_key 3 ++ demo_key 9 ++ demo_key 5 ++ [0] ++ zeros 64.
Definition demo_ops : fzn_sign_ops := mk_sign (Some (fun _ _ _ => true)) None.
Definition demo_state : fzn_manifest_state :=
  mk_state (Some [mk_issuer (demo_key 7) 0 false]) 1
    (Some [mk_deficit [] [] []; mk_deficit [] [] []]) 0.

Lemma demo_state_ok : state_ok demo_state.
Proof. do 2 eexists. cbn. split_and!; [reflexivity|reflexivity|..]; vm_compute; discriminate. Qed.

Lemma manifest_never_flatters_witness :
  fzn_manifest_open (Some demo_rec) = (FZN_MANIFEST_OK, Some demo_rec) /\
  fst (fzn_manifest_admit demo_state None (Some demo_rec) demo_ops) = FZN_MANIFEST_OK /\
  fzn_manifest_pending (snd (fzn_manifest_admit demo_state None (Some demo_rec) demo_ops)) (demo_key 7) = 1 /\
  state_ok (snd (fzn_manifest_admit demo_state None (Some demo_rec) demo_ops)).
Proof.
  split; [vm_compute; reflexivity|]. split; [vm_compute; reflexivity|].
  split; [vm_compute; reflexivity|].
  destruct (fzn_manifest_admit demo_state None (Some demo_rec) demo_ops) as [err st'] eqn:E.
  apply (manifest_never_flatters demo_state None demo_rec demo_ops err st' demo_state_ok E).
Defined.

(** Satisfying a pair drains exactly it. The compaction in place removes
    every row that names the triple and keeps the others in order; it answers
    how many it removed, and what an issuer still has pending is what is left. *)
Theorem satisfy_drains_the_pair st issuer capability grantee :
  state_ok st ->
  exists st', fzn_manifest_satisfy (Some st) issuer capability grantee
      = (count (names_pair issuer capability grantee) (deficit_rows st), Some st') /\
    state_ok st' /\
    deficit_rows st' =
      List.filter (fun d => negb (names_pair issuer capability grantee d)) (deficit_rows st) /\
    deficit_holds st' issuer capability grantee = false /\
    (forall i, fzn_manifest_pending st' i =
       count (fun d => memeq (d_issuer d) i && negb (names_pair issuer capability grantee d))
         (deficit_rows st)).
Proof.
  intros Hok. destruct (satisfy_spec st issuer capability grantee Hok) as (st' & -> & Hok' & _ & _ & Hr).
  exists st'. split_and!; [done|done|done| |].
  - unfold deficit_holds. rewrite Hr. apply not_true_iff_false. intros Hx.
    apply existsb_exists in Hx as (d & Hin & Hd). apply filter_In in Hin as [_ Hn].
    rewrite Hd in Hn. done.
  - intros i. unfold fzn_manifest_pending. rewrite state_ok_sound by done.
    destruct Hok' as (it & dt & _ & -> & _). cbn [negb is_null orb]. rewrite Hr.
    clear. induction (deficit_rows st) as [|d l IH]; cbn; [done|].
    destruct (names_pair issuer capability grantee d); cbn.
    + by rewrite andb_false_r.
    + by rewrite andb_true_r, IH.
Qed.

Lemma satisfy_drains_the_pair_witness :
  exists st', fzn_manifest_satisfy
      (Some (snd (fzn_manifest_admit demo_state None (Some demo_rec) demo_ops)))
      (demo_key 7) (demo_key 3) (demo_key 9) = (1, Some st') /\
    deficit_holds st' (demo_key 7) (demo_key 3) (demo_key 9) = false.
Proof.
  set (st := snd (fzn_manifest_admit demo_state None (Some demo_rec) demo_ops)).
  assert (state_ok st) as Hok.
  { do 2 eexists. split_and!; [vm_compute; reflexivity|vm_compute; reflexivity|..];
      vm_compute; discriminate. }
  destruct (satisfy_drains_the_pair st (demo_key 7) (demo_key 3) (demo_key 9) Hok)
    as (st' & E & _ & _ & Hh & _).
  exists st'. split; [|exact Hh]. rewrite E. f_equal.
Defined.
