(* ===== verification/Chain.v ===== *)
(** * chain/chain.c: verifying, minting and delegating a capability chain

    [fzn_chain_verify] in its two passes, over the store of [Revocation] and
    the state of [Manifest], and the two ways a hop is made. [root],
    [capability] and the key arguments are given; a hop view may be NULL. *)

From S2P Require Import Prelude Bytes Hop Revocation Manifest.

Record fzn_chain := mk_chain {
  ch_root : bytes;
  ch_grantee : bytes;
  ch_capability : bytes;
  ch_hop_count : Z;
  ch_expires_at : Z
}.

(** The root pinned by the caller, or any root the store's set says this first
    hop still counts under. A set comes with its hash; one without hashes
    nothing. *)
Definition root_ok (revocations : option fzn_revocation_store) (root : bytes) (first : fzn_chain_hop)
    : bool :=
  match revocations ≫= roots with
  | Some set =>
    member set (fzn_hop_grantor first)
    && match revocations ≫= root_hash with
       | None => false
       | Some hash =>
         match hash FZN_REVOCATION_ID_LEN (slice 0 FZN_HOP_LEN first) with
         | None => false
         | Some act => root_counts set (fzn_hop_grantor first) act
         end
       end
  | None => memeq (fzn_hop_grantor first) root
  end.

(** One hop of pass one: [prev] is the hop before, [revoked] its answer. *)
Definition check_hop (prev : option fzn_chain_hop) (hop : fzn_chain_hop) (revoked : bool)
    (capability : bytes) (now soonest : Z) : fzn_chain_err * Z :=
  let expires_at := fzn_hop_expires_at hop in
  if negb (memeq (fzn_hop_capability hop) capability) then (FZN_CHAIN_ERR_CHAIN_INVALID, soonest)
  else if match prev with
          | None => false
          | Some p => negb (memeq (fzn_hop_grantor hop) (fzn_hop_grantee p))
          end
  then (FZN_CHAIN_ERR_CHAIN_INVALID, soonest)
  else if match prev with None => false | Some p => negb (fzn_hop_delegable p) end
  then (FZN_CHAIN_ERR_CHAIN_INVALID, soonest)
  else if negb (expires_at =? FZN_NO_EXPIRY) && (expires_at <=? fzn_hop_issued_at hop)
  then (FZN_CHAIN_ERR_CHAIN_INVALID, soonest)
  else if negb (expires_at =? FZN_NO_EXPIRY) && (expires_at <=? now)
  then (FZN_CHAIN_ERR_EXPIRED, soonest)
  else
    let soonest :=
      if negb (expires_at =? FZN_NO_EXPIRY)
         && ((soonest =? FZN_NO_EXPIRY) || (expires_at <? soonest))
      then expires_at else soonest in
    if revoked then (FZN_CHAIN_ERR_REVOKED, soonest) else (FZN_CHAIN_OK, soonest).

Fixpoint pass_one (prev : option fzn_chain_hop) (hops : list fzn_chain_hop) (revoked : list bool)
    (capability : bytes) (now soonest : Z) : fzn_chain_err * Z :=
  match hops with
  | [] => (FZN_CHAIN_OK, soonest)
  | hop :: hops =>
    match check_hop prev hop (default false (head revoked)) capability now soonest with
    | (FZN_CHAIN_OK, soonest) => pass_one (Some hop) hops (tail revoked) capability now soonest
    | r => r
    end
  end.

(** Pass two: every signature, by the grantor the hop names. *)
Definition signed_ok (vf : bytes -> bytes -> bytes -> bool) (hop : fzn_chain_hop) : bool :=
  vf (fzn_hop_grantor hop) (fzn_hop_signed_bytes hop) (fzn_hop_signature hop).

Definition behind (manifest : option fzn_manifest_state) (hop : fzn_chain_hop) : bool :=
  match manifest with
  | None => false
  | Some st => fzn_manifest_pending st (fzn_hop_grantor hop) >? 0
  end.

(** The verdict once both passes are through. *)
Definition verdict_of (root capability : bytes) (hops : list fzn_chain_hop) (soonest : Z) : fzn_chain :=
  mk_chain root (default [] (fzn_hop_grantee <$> list.last hops)) capability (zlen hops) soonest.

Definition fzn_chain_verify (hops : list (option fzn_chain_hop)) (root capability : bytes) (now : Z)
    (ops : fzn_sign_ops) (revocations : option fzn_revocation_store)
    (manifest : option fzn_manifest_state) : fzn_chain_err * option fzn_chain :=
  match verify ops with
  | None => (FZN_CHAIN_ERR_MALFORMED, None)
  | Some vf =>
    if (zlen hops =? 0) || (zlen hops >? FZN_CHAIN_MAX_HOPS) then (FZN_CHAIN_ERR_MALFORMED, None)
    else match opened hops with
    | None => (FZN_CHAIN_ERR_MALFORMED, None)
    | Some hs =>
      if negb (root_ok revocations root (default [] (head hs))) then (FZN_CHAIN_ERR_WRONG_ROOT, None)
      else
        let revoked := fzn_revocation_covers_chain revocations hs capability in
        match pass_one None hs revoked capability now FZN_NO_EXPIRY with
        | (FZN_CHAIN_OK, soonest) =>
          if existsb (behind manifest) hs then (FZN_CHAIN_ERR_INCOMPLETE, None)
          else if negb (forallb (signed_ok vf) hs) then (FZN_CHAIN_ERR_CHAIN_INVALID, None)
          else (FZN_CHAIN_OK, Some (verdict_of root capability hs soonest))
        | (err, _) => (err, None)
        end
    end
  end.

(** [out] is the caller's buffer of a hop's length. *)
Definition hop_sign (grantor grantee capability : bytes) (issued_at expires_at delegable : Z)
    (ops : fzn_sign_ops) (out : bytes) : fzn_chain_err * bytes :=
  match sign ops with
  | None => (FZN_CHAIN_ERR_MALFORMED, out)
  | Some sign =>
    if negb (expires_at =? FZN_NO_EXPIRY) && (expires_at <=? issued_at)
    then (FZN_CHAIN_ERR_CHAIN_INVALID, out)
    else
      let out := hop_encode out grantor grantee capability issued_at expires_at delegable in
      match fzn_hop_open (Some out) with
      | (FZN_CHAIN_OK, Some hop) =>
        match sign (fzn_hop_signed_bytes hop) with
        | None => (FZN_CHAIN_ERR_CHAIN_INVALID, blit 0 (zeros FZN_HOP_LEN) out)
        | Some sig => (FZN_CHAIN_OK, blit FZN_HOP_OFF_SIGNATURE sig out)
        end
      | (err, _) => (err, out)
      end
  end.

Definition fzn_chain_mint (root grantee capability : bytes) (issued_at expires_at delegable : Z)
    (ops : fzn_sign_ops) (out : bytes) : fzn_chain_err * bytes :=
  hop_sign root grantee capability issued_at expires_at delegable ops out.

Definition fzn_chain_delegate (hops : list (option fzn_chain_hop)) (root capability : bytes) (now : Z)
    (grantee : bytes) (expires_at delegable : Z) (ops : fzn_sign_ops)
    (revocations : option fzn_revocation_store) (out : bytes) : fzn_chain_err * bytes :=
  if is_null (verify ops) then (FZN_CHAIN_ERR_MALFORMED, out)
  else if zlen hops >=? FZN_CHAIN_MAX_HOPS then (FZN_CHAIN_ERR_MALFORMED, out)
  else match fzn_chain_verify hops root capability now ops revocations None with
  | (FZN_CHAIN_OK, Some existing) =>
    if negb (fzn_hop_delegable (default [] (list.last hops ≫= (fun h => h))))
    then (FZN_CHAIN_ERR_NOT_DELEGABLE, out)
    else
      let expires_at :=
        if negb (ch_expires_at existing =? FZN_NO_EXPIRY)
           && ((expires_at =? FZN_NO_EXPIRY) || (expires_at >? ch_expires_at existing))
        then ch_expires_at existing else expires_at in
      hop_sign (ch_grantee existing) grantee capability now expires_at delegable ops out
  | (err, _) => (err, out)
  end.

(** A NULL chain has not expired. *)
Definition fzn_chain_expired_at (chain : option fzn_chain) (now : Z) : bool :=
  match chain with
  | None => false
  | Some c => negb (ch_expires_at c =? FZN_NO_EXPIRY) && (ch_expires_at c <=? now)
  end.

(** ** What a valid chain is *)

Definition live_at (now : Z) (hop : fzn_chain_hop) : Prop :=
  fzn_hop_expires_at hop = FZN_NO_EXPIRY \/
  (fzn_hop_issued_at hop < fzn_hop_expires_at hop /\ now < fzn_hop_expires_at hop).

(** Granted by the one before received, which said it could be passed on. *)
Definition linked (p h : fzn_chain_hop) : Prop :=
  fzn_hop_grantor h = fzn_hop_grantee p /\ fzn_hop_delegable p = true.

Record chain_valid (hs : list fzn_chain_hop) (root capability : bytes) (now : Z)
    (vf : bytes -> bytes -> bytes -> bool) (revocations : option fzn_revocation_store)
    (manifest : option fzn_manifest_state) : Prop := {
  cv_count : 0 < zlen hs <= FZN_CHAIN_MAX_HOPS;
  cv_root : exists h0, hs !! 0%nat = Some h0 /\ root_ok revocations root h0 = true;
  cv_capability : Forall (fun h => fzn_hop_capability h = capability) hs;
  cv_linked : forall i p h, hs !! i = Some p -> hs !! S i = Some h -> linked p h;
  cv_live : Forall (live_at now) hs;
  cv_unrevoked : forall i, (i < length hs)%nat ->
    default false (fzn_revocation_covers_chain revocations hs capability !! i) = false;
  cv_complete : Forall (fun h => behind manifest h = false) hs;
  cv_signed : Forall (fun h => signed_ok vf h = true) hs
}.

(** The soonest real expiry of [hs] and of what came before. *)
Fixpoint soonest_expiry (acc : Z) (hs : list fzn_chain_hop) : Z :=
  match hs with
  | [] => acc
  | h :: hs =>
    let e := fzn_hop_expires_at h in
    soonest_expiry (if e =? 0 then acc else if acc =? 0 then e else Z.min acc e) hs
  end.

Lemma check_hop_ok prev hop revoked capability now soonest s' :
  check_hop prev hop revoked capability now soonest = (FZN_CHAIN_OK, s') <->
  fzn_hop_capability hop = capability /\
  match prev with None => True | Some p => linked p hop end /\
  live_at now hop /\ revoked = false /\
  s' = (let e := fzn_hop_expires_at hop in
        if e =? 0 then soonest else if soonest =? 0 then e else Z.min soonest e).
Proof.
  unfold check_hop, live_at, linked, FZN_NO_EXPIRY. cbv zeta.
  destruct (memeq (fzn_hop_capability hop) capability) eqn:Ec; cbn [negb].
  2:{ split; [done|]. intros [E _]. apply memeq_true in E. congruence. }
  apply memeq_true in Ec.
  assert (match prev with None => false | Some p => negb (memeq (fzn_hop_grantor hop) (fzn_hop_grantee p)) end
          = false /\ match prev with None => false | Some p => negb (fzn_hop_delegable p) end = false
          <-> match prev with None => True | Some p => fzn_hop_grantor hop = fzn_hop_grantee p
               /\ fzn_hop_delegable p = true end) as Hlink.
  { destruct prev as [p|]; [|tauto]. by rewrite !negb_false_iff, memeq_true. }
  rewrite <- Hlink. clear Hlink.
  destruct (match prev with None => false | Some p => negb (memeq _ _) end);
    [split; [done|intros (_ & [? _] & _); done]|].
  destruct (match prev with None => false | Some p => negb (fzn_hop_delegable p) end);
    [split; [done|intros (_ & [_ ?] & _); done]|].
  destruct (Z.eqb_spec (fzn_hop_expires_at hop) 0) as [E0|E0]; cbn [negb andb].
  - destruct revoked; [split; [done|intros (_ & _ & _ & ? & _); done]|].
    split; [intros [= <-]; split_and!; auto; lia|intros (_ & _ & _ & _ & ->); done].
  - destruct (Z.leb_spec (fzn_hop_expires_at hop) (fzn_hop_issued_at hop));
      [split; [done|intros (_ & _ & [?|?] & _); [done|lia]]|].
    destruct (Z.leb_spec (fzn_hop_expires_at hop) now);
      [split; [done|intros (_ & _ & [?|?] & _); [done|lia]]|].
    destruct revoked; [split; [done|intros (_ & _ & _ & ? & _); done]|].
    destruct (Z.eqb_spec soonest 0); cbn [orb].
    + split; [intros [= <-]; split_and!; auto; lia|intros (_ & _ & _ & _ & ->); done].
    + destruct (Z.ltb_spec (fzn_hop_expires_at hop) soonest).
      * split; [intros [= <-]; split_and!; auto; lia|intros (_ & _ & _ & _ & ->)].
        f_equal. lia.
      * split; [intros [= <-]; split_and!; auto; lia|intros (_ & _ & _ & _ & ->)].
        f_equal. lia.
Qed.

Lemma pass_one_ok capability now hs : forall prev revoked soonest s',
  pass_one prev hs revoked capability now soonest = (FZN_CHAIN_OK, s') <->
  Forall (fun h => fzn_hop_capability h = capability) hs /\
  match prev, hs with Some p, h :: _ => linked p h | _, _ => True end /\
  (forall i p h, hs !! i = Some p -> hs !! S i = Some h -> linked p h) /\
  Forall (live_at now) hs /\
  (forall i, (i < length hs)%nat -> default false (revoked !! i) = false) /\
  s' = soonest_expiry soonest hs.
Proof.
  induction hs as [|h hs IH]; intros prev revoked soonest s'; cbn [pass_one soonest_expiry].
  { split; [intros [= <-]|intros (_ & _ & _ & _ & _ & ->); done].
    split_and!; [constructor|by destruct prev|done|constructor|cbn; lia|done]. }
  assert (default false (head revoked) = default false (revoked !! 0%nat)) as Hhd by by destruct revoked.
  assert (forall i, default false (tail revoked !! i) = default false (revoked !! S i)) as Htl
    by (intros i; by destruct revoked).
  destruct (check_hop prev h (default false (head revoked)) capability now soonest) as [err s1] eqn:Hc.
  destruct (decide (err = FZN_CHAIN_OK)) as [->|Hne].
  - apply check_hop_ok in Hc as (Hcap & Hlink & Hlive & Hrev & ->). rewrite IH, !Forall_cons_iff. split.
    + intros (? & Hl1 & Hl2 & ? & Hrevs & ->). split_and!; auto.
      * intros [|i] p h' Hp Hh; simplify_eq/=; [by destruct hs; simplify_eq/=|eauto].
      * intros [|i] Hi; [by rewrite <- Hhd|]. cbn in Hi. rewrite <- Htl. apply Hrevs. lia.
    + intros ([_ ?] & _ & Hl & [_ ?] & Hrevs & ->). split_and!; auto.
      * destruct hs as [|h' hs]; [done|]. by apply (Hl 0%nat).
      * intros i p h' Hp Hh. by apply (Hl (S i)).
      * intros i Hi. rewrite Htl. apply Hrevs. cbn. lia.
  - split.
    + intros H. destruct err; simplify_eq; done.
    + intros (Hcap & Hlink & Hl & Hlive & Hrevs & ->). exfalso. apply Hne.
      apply Forall_cons_iff in Hcap as [Hcap _]. apply Forall_cons_iff in Hlive as [Hlive _].
      assert (check_hop prev h (default false (head revoked)) capability now soonest
        = (FZN_CHAIN_OK, let e := fzn_hop_expires_at h in
             if e =? 0 then soonest else if soonest =? 0 then e else Z.min soonest e)) as Hok.
      { apply check_hop_ok. split_and!; auto. rewrite Hhd. apply Hrevs. cbn. lia. }
      rewrite Hc in Hok. by simplify_eq.
Qed.

Lemma opened_inv hops hs : opened hops = Some hs -> hops = Some <$> hs.
Proof.
  unfold opened. rewrite mapM_Some. induction 1 as [|x y hops hs E _ IH]; [done|].
  cbn. congruence.
Qed.

Lemma existsb_false_Forall {A} (f : A -> bool) l : existsb f l = false <-> Forall (fun x => f x = false) l.
Proof.
  induction l as [|x l IH]; cbn; [split; auto|]. rewrite orb_false_iff, IH, Forall_cons_iff. done.
Qed.

Lemma verify_ok_iff hops root capability now ops revs man c :
  fzn_chain_verify hops root capability now ops revs man = (FZN_CHAIN_OK, Some c) <->
  exists hs vf, hops = Some <$> hs /\ verify ops = Some vf /\
    chain_valid hs root capability now vf revs man /\
    c = verdict_of root capability hs (soonest_expiry 0 hs).
Proof.
  unfold fzn_chain_verify. split.
  - intros H. destruct (verify ops) as [vf|] eqn:Hvf; [|done].
    destruct ((zlen hops =? 0) || (zlen hops >? FZN_CHAIN_MAX_HOPS)) eqn:Hn; [done|].
    destruct (opened hops) as [hs|] eqn:Ho; [|done]. apply opened_inv in Ho as ->.
    assert (zlen (Some <$> hs) = zlen hs) as Hz by (unfold zlen; by rewrite length_fmap).
    rewrite Hz in Hn. apply orb_false_iff in Hn as [Hn1 Hn2].
    destruct (root_ok revs root (default [] (head hs))) eqn:Hr; cbn [negb] in H; [|done].
    destruct (pass_one None hs _ capability now FZN_NO_EXPIRY) as [err s'] eqn:Hp.
    destruct err; try done. apply pass_one_ok in Hp as (Hcap & _ & Hl & Hlive & Hrev & ->).
    destruct (existsb (behind man) hs) eqn:Hb; [done|].
    destruct (forallb (signed_ok vf) hs) eqn:Hs; cbn [negb] in H; [|done].
    simplify_eq. exists hs, vf. split_and!; auto. split; auto.
    + pose proof (zlen_nonneg hs). lia.
    + destruct hs as [|h0 hs]; [done|]. by exists h0.
    + by apply existsb_false_Forall.
    + by apply forallb_true_Forall.
  - intros (hs & vf & -> & -> & Hv & ->). destruct Hv as [Hn (h0 & Hh0 & Hr) Hcap Hl Hlive Hrev Hb Hs].
    assert (zlen (Some <$> hs) = zlen hs) as -> by (unfold zlen; by rewrite length_fmap).
    destruct (Z.eqb_spec (zlen hs) 0); [lia|]. destruct (Z.gtb_spec (zlen hs) FZN_CHAIN_MAX_HOPS); [lia|].
    cbn [orb]. rewrite opened_some. destruct hs as [|h hs0] eqn:Ehs; [done|]. rewrite <- Ehs in *.
    assert (head hs = Some h0) as Hhead by (subst; done). rewrite Hhead. cbn [default from_option id].
    rewrite Hr. cbn [negb].
    assert (pass_one None hs (fzn_revocation_covers_chain revs hs capability) capability now
      FZN_NO_EXPIRY = (FZN_CHAIN_OK, soonest_expiry 0 hs)) as ->
      by (apply pass_one_ok; split_and!; auto; by destruct hs).
    apply existsb_false_Forall in Hb. apply forallb_true_Forall in Hs. by rewrite Hb, Hs.
Qed.

(** The order in which a refusal is decided. *)
Lemma verify_some_ok hops root capability now ops revs man err c :
  fzn_chain_verify hops root capability now ops revs man = (err, Some c) -> err = FZN_CHAIN_OK.
Proof.
  unfold fzn_chain_verify. intros H. destruct (verify ops); [|done].
  destruct (_ || _); [done|]. destruct (opened hops); [|done]. destruct (negb _); [done|].
  destruct (pass_one _ _ _ _ _ _) as [[] ?]; try done.
  destruct (existsb _ _); [done|]. destruct (negb _); [done|]. by simplify_eq.
Qed.

(** A chain has expired when one of its hops has. *)
Lemma soonest_expired t hs : forall acc,
  soonest_expiry acc hs <> 0 /\ soonest_expiry acc hs <= t <->
  (acc <> 0 /\ acc <= t) \/
  exists i h, hs !! i = Some h /\ fzn_hop_expires_at h <> 0 /\ fzn_hop_expires_at h <= t.
Proof.
  induction hs as [|h hs IH]; intros acc; cbn [soonest_expiry].
  { split; [tauto|]. intros [?|(i & h & Hi & _)]; [done|]. by rewrite lookup_nil in Hi. }
  rewrite IH. clear IH. cbv zeta.
  assert ((exists i h0, (h :: hs) !! i = Some h0 /\ fzn_hop_expires_at h0 <> 0 /\ fzn_hop_expires_at h0 <= t)
    <-> (fzn_hop_expires_at h <> 0 /\ fzn_hop_expires_at h <= t) \/
        exists i h0, hs !! i = Some h0 /\ fzn_hop_expires_at h0 <> 0 /\ fzn_hop_expires_at h0 <= t) as ->.
  { split.
    - intros ([|i] & h0 & Hi & ?); simplify_eq/=; [by left|]. right. by exists i, h0.
    - intros [?|(i & h0 & ?)]; [by exists 0%nat, h|by exists (S i), h0]. }
  destruct (Z.eqb_spec (fzn_hop_expires_at h) 0); [tauto|].
  destruct (Z.eqb_spec acc 0); [|rewrite Z.min_le_iff]; intuition lia.
Qed.

(** C12: verification decides validity. [fzn_chain_verify] answers OK exactly
    when every view is opened and the chain has one to eight hops, starts at
    the pinned root (or a root the store's set says counts), grants one
    capability throughout, links each hop to a delegable predecessor, has no
    expired, never-valid or revoked hop, names no grantor this host is behind
    on, and carries every grantor's signature; only then is there a verdict,
    and it names the last grantee and the soonest expiry, so that it has
    expired at [t] exactly when some hop has. *)
Theorem verify_decides_validity hops root capability now ops revs man c t :
  (fzn_chain_verify hops root capability now ops revs man = (FZN_CHAIN_OK, Some c) <->
   exists hs vf, hops = Some <$> hs /\ verify ops = Some vf /\
     chain_valid hs root capability now vf revs man /\
     c = verdict_of root capability hs (soonest_expiry 0 hs)) /\
  (forall err, fzn_chain_verify hops root capability now ops revs man = (err, Some c) ->
     err = FZN_CHAIN_OK) /\
  (forall hs, fzn_chain_expired_at (Some (verdict_of root capability hs (soonest_expiry 0 hs))) t = true <->
     exists i h, hs !! i = Some h /\ fzn_hop_expires_at h <> FZN_NO_EXPIRY /\ fzn_hop_expires_at h <= t).
Proof.
  split; [apply verify_ok_iff|]. split; [intros err; apply verify_some_ok|].
  intros hs. unfold fzn_chain_expired_at, verdict_of, FZN_NO_EXPIRY. cbn [ch_expires_at].
  rewrite andb_true_iff, negb_true_iff, Z.eqb_neq, Z.leb_le, soonest_expired. intuition lia.
Qed.

(** ** Making a hop *)

(** A signer for [key] under the verifier: what it produces verifies. *)
Definition signs_for (ops : fzn_sign_ops) (vf : bytes -> bytes -> bytes -> bool) (key : bytes) : Prop :=
  forall sign_ msg sig, sign ops = Some sign_ -> sign_ msg = Some sig ->
    is_bytes FZN_SIG_LEN sig /\ vf key msg sig = true.

Lemma hop_sign_ok gr ge c iat exp dl ops vf out out' :
  zlen out = FZN_HOP_LEN -> is_bytes 32 gr -> is_bytes 32 ge -> is_bytes 32 c ->
  in_u64 iat -> in_u64 exp -> signs_for ops vf gr ->
  hop_sign gr ge c iat exp dl ops out = (FZN_CHAIN_OK, out') ->
  exists sig, out' = hop_bytes gr ge c iat exp (if dl =? 0 then 0 else 1) sig /\
    is_bytes FZN_SIG_LEN sig /\ (exp = 0 \/ iat < exp) /\ signed_ok vf out' = true /\ hop_ok out'.
Proof.
  intros Hout Hgr Hge Hc Hiat Hexp Hs H. unfold hop_sign in H.
  destruct (sign ops) as [sg|] eqn:Hsg; [|done].
  destruct (negb (exp =? FZN_NO_EXPIRY) && (exp <=? iat)) eqn:He; [done|].
  rewrite hop_encode_layout in H by done. set (d := if dl =? 0 then 0 else 1) in *.
  assert (Hd : in_u8 d) by (unfold d; destruct (dl =? 0); ulia).
  assert (Hd1 : d <= 1) by (unfold d; destruct (dl =? 0); lia).
  assert (Hz : is_bytes 64 (zeros 64)) by (split; [by apply zlen_zeros|apply zeros_range]).
  fold (hop_bytes gr ge c iat exp d (zeros 64)) in H.
  rewrite hop_bytes_opens in H by auto.
  destruct (hop_bytes_signed gr ge c (zeros 64) iat exp d) as [Eb _]; auto. rewrite Eb in H.
  destruct (sg _) as [sig|] eqn:Hsig; [|done].
  destruct (Hs sg _ sig Hsg Hsig) as [Hsb Hv]. 
  assert (out' = hop_bytes gr ge c iat exp d sig) as ->.
  { simplify_eq. unfold hop_bytes. destruct Hgr, Hge, Hc, Hsb as [Hsl _].
    replace ([1; 128] ++ gr ++ ge ++ c ++ be64 iat ++ be64 exp ++ [d] ++ zeros 64)
      with (([1; 128] ++ gr ++ ge ++ c ++ be64 iat ++ be64 exp ++ [d]) ++ zeros 64)
      by (rewrite <- !app_assoc; reflexivity).
    rewrite blit_last; [rewrite <- !app_assoc; reflexivity|layout|].
    unfold zeros. rewrite length_replicate. unfold zlen in Hsl. change FZN_SIG_LEN with 64 in Hsl. lia. }
  exists sig. split_and!; auto.
  - unfold FZN_NO_EXPIRY in He. destruct (Z.eqb_spec exp 0); [by left|]. cbn in He. lia.
  - unfold signed_ok. destruct (hop_bytes_signed gr ge c sig iat exp d) as [-> ->]; auto.
    by rewrite hop_bytes_grantor.
  - by apply hop_bytes_opens.
Qed.

Lemma verify_none hops root capability now ops revs man :
  fzn_chain_verify hops root capability now ops revs man <> (FZN_CHAIN_OK, None).
Proof.
  unfold fzn_chain_verify. destruct (verify ops); [|done].
  destruct (_ || _); [done|]. destruct (opened hops); [|done]. destruct (negb _); [done|].
  destruct (pass_one _ _ _ _ _ _) as [[] ?]; try done.
  destruct (existsb _ _); [done|]. by destruct (negb _).
Qed.

Lemma last_lookup_S {A} (l : list A) x : list.last l = Some x -> l !! (length l - 1)%nat = Some x.
Proof. intros H. by rewrite last_lookup, <- Nat.sub_1_r in H. Qed.

Lemma soonest_u64 hs : forall acc,
  Forall (is_bytes FZN_HOP_LEN) hs -> in_u64 acc -> in_u64 (soonest_expiry acc hs).
Proof.
  induction hs as [|h hs IH]; intros acc Hhs Ha; cbn [soonest_expiry]; [done|].
  apply Forall_cons_iff in Hhs as [[_ Hh] Hhs].
  pose proof (get_be64_range h FZN_HOP_OFF_EXPIRES_AT Hh) as He.
  fold (fzn_hop_expires_at h) in He. cbv zeta. apply IH; [done|].
  destruct (fzn_hop_expires_at h =? 0); [done|]. destruct (acc =? 0); [done|]. ulia.
Qed.

(** The time a delegated hop gets out of what its chain has left. *)
Lemma clipped_expiry old exp t :
  old <> 0 /\ old <= t ->
  let e := if negb (old =? 0) && ((exp =? 0) || (exp >? old)) then old else exp in e <> 0 /\ e <= t.
Proof.
  intros [Ho Ht]. cbv zeta. destruct (Z.eqb_spec old 0); [done|].
  destruct (Z.eqb_spec exp 0); cbn; [done|]. destruct (Z.gtb_spec exp old); cbn; lia.
Qed.

(** One valid hop at the end of a valid chain that may be extended. *)
Lemma chain_valid_snoc hs h p root capability now vf revs :
  chain_valid hs root capability now vf revs None -> zlen hs < FZN_CHAIN_MAX_HOPS ->
  list.last hs = Some p -> linked p h -> fzn_hop_capability h = capability -> live_at now h ->
  signed_ok vf h = true ->
  (forall i, (i <= length hs)%nat ->
     default false (fzn_revocation_covers_chain revs (hs ++ [h]) capability !! i) = false) ->
  chain_valid (hs ++ [h]) root capability now vf revs None.
Proof.
  intros [Hn (h0 & Hh0 & Hr) Hcap Hl Hlive Hrev Hb Hs] Hlt Hp Hlink Hc Hlv Hsg Hun.
  apply last_lookup_S in Hp. split; try (apply Forall_app_2; [done|by apply Forall_singleton]).
  - rewrite zlen_snoc. lia.
  - exists h0. split; [|done]. by apply lookup_app_l_Some.
  - intros i p' h' Hi Hi'. apply lookup_snoc_Some in Hi' as [[? Hi']|[Ei ->]].
    + eapply Hl; [|exact Hi']. rewrite lookup_app_l in Hi by lia. done.
    + rewrite lookup_app_l in Hi by lia. replace i with (length hs - 1)%nat in Hi by lia. congruence.
  - intros i Hi. rewrite length_app in Hi. cbn in Hi. apply Hun. lia.
Qed.

(** C17: delegation is sound and never widens. When [fzn_chain_delegate] answers
    OK, the chain it extended verified, its last hop was delegable, and the new
    hop grants the same capability from the chain's grantee; the extended chain
    verifies too (for a signer that signs for that grantee, unless the store
    revokes it), names the new grantee, and has expired whenever the chain it
    was made from has: a grantor cannot hand out more time than it has left. *)
Theorem delegation_is_sound hs root capability now grantee exp dl ops vf revs out out' :
  Forall (is_bytes FZN_HOP_LEN) hs -> is_bytes 32 grantee -> is_bytes 32 capability ->
  in_u64 now -> in_u64 exp -> zlen out = FZN_HOP_LEN -> verify ops = Some vf ->
  (forall p, list.last hs = Some p -> signs_for ops vf (fzn_hop_grantee p)) ->
  fzn_chain_delegate (Some <$> hs) root capability now grantee exp dl ops revs out
    = (FZN_CHAIN_OK, out') ->
  (forall i, (i <= length hs)%nat ->
     default false (fzn_revocation_covers_chain revs (hs ++ [out']) capability !! i) = false) ->
  exists old new,
    fzn_chain_verify (Some <$> hs) root capability now ops revs None = (FZN_CHAIN_OK, Some old) /\
    fzn_chain_verify (Some <$> (hs ++ [out'])) root capability now ops revs None
      = (FZN_CHAIN_OK, Some new) /\
    fzn_hop_grantor out' = ch_grantee old /\ ch_grantee new = grantee /\
    fzn_hop_delegable out' = negb (dl =? 0) /\
    (forall t, fzn_chain_expired_at (Some old) t = true -> fzn_chain_expired_at (Some new) t = true).
Proof.
  intros Hhs Hge Hc Hnow Hexp Hout Hvf Hsig Hd Hun. unfold fzn_chain_delegate in Hd.
  rewrite Hvf in Hd. cbn [is_null] in Hd.
  assert (zlen (Some <$> hs) = zlen hs) as Hz by (unfold zlen; by rewrite length_fmap).
  rewrite Hz in Hd. destruct (Z.geb_spec (zlen hs) FZN_CHAIN_MAX_HOPS); [done|].
  destruct (fzn_chain_verify (Some <$> hs) root capability now ops revs None) as [err [old|]] eqn:Hv;
    [|destruct err; simplify_eq; by apply verify_none in Hv].
  pose proof (verify_some_ok _ _ _ _ _ _ _ _ _ Hv) as ->.
  apply verify_ok_iff in Hv as Hv'. destruct Hv' as (hs' & vf' & Ehs & Evf & Hval & Hold).
  apply (inj (fmap Some)) in Ehs as <-. rewrite Hvf in Evf. injection Evf as <-.
  destruct (list.last hs) as [p|] eqn:Hp.
  2:{ apply last_None in Hp as ->. destruct Hval as [[Hpos _] _ _ _ _ _ _ _]. done. }
  rewrite fmap_last, Hp in Hd. cbn [fmap option_fmap option_map mbind option_bind default from_option id] in Hd.
  destruct (fzn_hop_delegable p) eqn:Hdel; cbn [negb] in Hd; [|done].
  set (e := if _ : bool then _ else _) in Hd.
  assert (ch_expires_at old = soonest_expiry 0 hs /\ ch_grantee old = fzn_hop_grantee p) as [Ex Eg]
    by (rewrite Hold; unfold verdict_of; cbn; by rewrite Hp).
  assert (in_u64 e) as He.
  { unfold e. destruct (_ && _); [|done]. rewrite Ex. apply soonest_u64; [done|ulia]. }
  assert (is_bytes FZN_HOP_LEN p) as Hpb
    by (eapply Forall_lookup_1; [exact Hhs|by apply last_lookup_S]).
  rewrite Eg in Hd. apply hop_sign_ok with (vf := vf) in Hd; auto;
    [|apply (is_bytes_slice _ _ 179); done].
  destruct Hd as (sig & -> & Hsb & Hlive & Hsgn & Hok).
  assert (in_u8 (if dl =? 0 then 0 else 1)) as Hdu by (destruct (dl =? 0); ulia).
  assert (is_bytes 32 (fzn_hop_grantee p)) as Hgr by (apply (is_bytes_slice _ _ 179); done).
  destruct (hop_bytes_times (fzn_hop_grantee p) grantee capability sig now e (if dl =? 0 then 0 else 1))
    as [Hiat Hexp']; auto.
  set (h := hop_bytes _ _ _ _ _ _ _) in *.
  assert (chain_valid (hs ++ [h]) root capability now vf revs None) as Hval'.
  { eapply chain_valid_snoc; eauto.
    - split; [by apply hop_bytes_grantor|done].
    - by apply hop_bytes_capability.
    - unfold live_at, FZN_NO_EXPIRY. rewrite Hiat, Hexp'. destruct Hlive; [by left|by right]. }
  exists old, (verdict_of root capability (hs ++ [h]) (soonest_expiry 0 (hs ++ [h]))).
  split_and!; [done|by apply verify_ok_iff; exists (hs ++ [h]), vf| | | |].
  - rewrite Eg. by apply hop_bytes_grantor.
  - unfold verdict_of. cbn. rewrite last_snoc. cbn. by apply hop_bytes_grantee.
  - unfold fzn_hop_delegable, h. rewrite hop_bytes_delegable by auto. by destruct (dl =? 0).
  - intros t. unfold fzn_chain_expired_at, FZN_NO_EXPIRY. cbn [verdict_of ch_expires_at].
    rewrite !andb_true_iff, !negb_true_iff, !Z.eqb_neq, !Z.leb_le, Ex.
    intros Hexpired. apply soonest_expired. right. exists (length hs), h.
    rewrite list_lookup_middle by done. split; [done|]. rewrite Hexp'. rewrite <- Ex in Hexpired.
    by apply clipped_expiry.
Qed.

(** A toy scheme: the signature of a message is 64 zeros. *)
Definition toy_ops : fzn_sign_ops :=
  mk_sign (Some (fun _ _ sig => memeq sig (zeros 64))) (Some (fun _ => Some (zeros 64))).

Lemma toy_signs vf key : verify toy_ops = Some vf -> signs_for toy_ops vf key.
Proof.
  intros [= <-] sg msg sig [= <-] [= <-]. split; [|reflexivity].
  split; [reflexivity|apply zeros_range].
Qed.

Lemma demo_hop_is : is_bytes FZN_HOP_LEN demo_hop.
Proof.
  assert (forall x, 0 <= x <= 255 -> is_bytes 32 (demo_key x)) as K
    by (intros x Hx; apply demo_key_is; ulia).
  assert (is_bytes 64 (zeros 64)) as Z64 by (split; [reflexivity|apply zeros_range]).
  exact (hop_bytes_is (demo_key 1) (demo_key 2) (demo_key 3) (zeros 64) 100 258 1
           (K 1 ltac:(lia)) (K 2 ltac:(lia)) (K 3 ltac:(lia)) ltac:(ulia) Z64).
Qed.

Definition demo_delegated : fzn_chain_err * bytes :=
  fzn_chain_delegate [Some demo_hop] (demo_key 1) (demo_key 3) 150 (demo_key 4) 0 1 toy_ops None
    (zeros 179).

Lemma delegation_is_sound_witness :
  fst demo_delegated = FZN_CHAIN_OK /\ fzn_hop_expires_at (snd demo_delegated) = 258 /\
  exists new, fzn_chain_verify [Some demo_hop; Some (snd demo_delegated)] (demo_key 1) (demo_key 3) 150
                toy_ops None None = (FZN_CHAIN_OK, Some new) /\ ch_grantee new = demo_key 4.
Proof.
  assert (demo_delegated = (FZN_CHAIN_OK, snd demo_delegated)) as E by (vm_compute; reflexivity).
  split; [vm_compute; reflexivity|]. split; [vm_compute; reflexivity|].
  destruct (delegation_is_sound [demo_hop] (demo_key 1) (demo_key 3) 150 (demo_key 4) 0 1 toy_ops
              (fun _ _ sig => memeq sig (zeros 64)) None (zeros 179) (snd demo_delegated))
    as (old & new & _ & Hnew & _ & Hg & _).
  - constructor; [apply demo_hop_is|constructor].
  - apply demo_key_is. ulia.
  - apply demo_key_is. ulia.
  - ulia.
  - ulia.
  - reflexivity.
  - reflexivity.
  - intros p _. by apply toy_signs.
  - exact E.
  - intros [|[|i]] Hi; [reflexivity|reflexivity|cbn in Hi; lia].
  - exists new. split; [exact Hnew|exact Hg].
Defined.
