(* ===== verification/RootRecords.v ===== *)
(** * chain/root_log.c: what is issued is what is read

    The four records of an estate's roots, issued by one operation and taken
    by another. *)

From S2P Require Import Prelude Rounds Bytes Hop Revocation RootSet RootRules Chain.

(** The bytes before a signature: version, object, signer and two more
    fields. *)
Definition body_fields (object : Z) (signer a b : bytes) : list bytes := [[1]; [object]; signer; a; b].

Section Written.
Context (object : Z) (signer a b sig : bytes).
Context (Hsigner : is_bytes 32 signer) (Ha : zlen a = 32) (Hsig : zlen sig = 64).
Abbreviation fs := (body_fields object signer a b).

Lemma zlen_body : zlen (concat fs) = 66 + zlen b.
Proof using Hsigner Ha. destruct Hsigner as [Hs _]. unfold body_fields. cbn [concat]. rewrite app_nil_r, !zlen_app, Hs, Ha. change (zlen [_]) with 1. lia. Qed.

(** Writing them, and then the signature, into a buffer of that length. *)
Lemma body_written out : zlen out = 66 + zlen b + 64 -> in_u8 object ->
  let out1 := blit 66 b (blit 34 a (blit 2 signer (poke (poke out 0 1) 1 object))) in
  slice 0 (66 + zlen b) out1 = concat fs /\ blit (66 + zlen b) sig out1 = concat fs ++ sig.
Proof using Hsigner Ha Hsig.
  intros Ho Hobj out1. pose proof zlen_body as Hl. destruct Hsigner as [Hs _].
  assert (out1 = concat fs ++ drop (length (concat fs)) out) as ->.
  { rewrite <- blits_start. unfold body_fields. cbn [blits]. change (zlen [_]) with 1. rewrite Hs, Ha. unfold out1, poke.
    by rewrite (u8_small object) by done. }
  split; [by apply (slice_mid [] (concat fs))|]. apply blit_last; [done|]. rewrite length_drop. unfold zlen in *. lia.
Qed.

(** Reading them back. *)
Lemma body_read : let r := concat fs ++ sig in
  zlen r = 66 + zlen b + 64 /\ peek r 0 = 1 /\ peek r 1 = object /\ slice 2 32 r = signer /\ slice 34 32 r = a /\
  slice 66 (zlen b) r = b /\ slice 0 (66 + zlen b) r = concat fs /\ slice (66 + zlen b) 64 r = sig.
Proof using Hsigner Ha Hsig.
  pose proof zlen_body as Hl. destruct Hsigner as [Hs _]. cbv zeta.
  assert (concat fs ++ sig = concat (fs ++ [sig])) as E by (by rewrite concat_app; cbn [concat]; rewrite app_nil_r).
  split; [rewrite zlen_app, Hl; lia|]. split; [done|]. split; [done|].
  split; [rewrite E; by apply (slice_field _ 2)|].
  split; [rewrite E; apply (slice_field _ 3); [done| |done]; cbn; rewrite app_nil_r; unfold zlen in *; cbn; lia|].
  split; [rewrite E; apply (slice_field _ 4); [done| |done]; cbn; rewrite app_nil_r; unfold zlen in *; cbn; rewrite length_app; lia|].
  split; [by apply (slice_mid [] (concat fs))|].
  rewrite <- (app_nil_r (concat fs ++ sig)), <- app_assoc. by apply slice_mid.
Qed.
End Written.

(** A change issued is the body and a signature of it. *)
Lemma sign_change_written object signer subject cut body ops vf out out' :
  is_bytes 32 signer -> zlen subject = 32 -> signs_for ops vf signer -> zlen out = body + 64 ->
  (object = FZN_OBJECT_ROOT_ADD /\ body = 66 \/ object = FZN_OBJECT_ROOT_REMOVE /\ body = 98 /\ zlen (default (zeros 32) cut) = 32) ->
  sign_change object signer subject cut body ops out = (FZN_ROOT_LOG_OK, out') ->
  let b := if object =? FZN_OBJECT_ROOT_REMOVE then default (zeros 32) cut else [] in
  exists sig, out' = concat (body_fields object signer subject b) ++ sig /\ is_bytes 64 sig /\ zlen b = body - 66 /\
    vf signer (concat (body_fields object signer subject b)) sig = true.
Proof.
  intros Hs Hsub Hsign Ho Hcase Hiss b. unfold sign_change in Hiss. destruct (sign ops) as [sg|] eqn:Esg; [|done]. cbv zeta in Hiss.
  assert (zlen b = body - 66 /\ in_u8 object) as [Hb Hobj].
  { unfold b. destruct Hcase as [[-> ->]|(-> & -> & Hc)]; cbn [Z.eqb]; (split; [|done]); [done|]. cbn. lia. }
  match type of Hiss with context [sg (slice 0 body ?o)] => set (o1 := o) in * end.
  assert (o1 = blit 66 b (blit 34 subject (blit 2 signer (poke (poke out 0 1) 1 object)))) as E1.
  { unfold o1, b. destruct Hcase as [[-> _]|(-> & _ & _)]; [symmetry; apply blit_nil|reflexivity]. }
  destruct (sg _) as [sig|] eqn:E; [|done]. destruct (Hsign sg _ sig Esg E) as [Hsig Hv]. injection Hiss as <-.
  destruct (body_written object signer subject b sig Hs Hsub (proj1 Hsig) out) as [H1 H2]; [lia|done|].
  replace (66 + zlen b) with body in H1, H2 by lia. rewrite <- E1 in H1, H2.
  exists sig. split; [done|]. split; [exact Hsig|]. split; [done|]. by rewrite <- H1.
Qed.

Lemma blit_over {A} off (g z l : list A) : 0 <= off <= zlen l -> (length g <= length z)%nat ->
  blit off g (blit off z l) = blit off (g ++ drop (length g) z) l.
Proof.
  intros Ho Hg. rewrite <- (take_drop (Z.to_nat off) l). set (pre := take _ l). set (rest := drop _ l).
  assert (zlen pre = off) as Hp by (unfold pre, zlen in *; rewrite length_take; lia).
  rewrite (blit_next pre rest z off), (blit_next pre rest (g ++ _) off) by done. rewrite <- app_assoc.
  rewrite (blit_next pre (z ++ _) g off) by done. rewrite drop_app_le by done. rewrite length_app, length_drop.
  replace (length g + (length z - length g))%nat with (length z) by lia. by rewrite <- !app_assoc.
Qed.

(** A text and its padding. *)
Lemma text_len_padded text : forallb printable text = true -> zlen text < 128 ->
  retention_text_len (text ++ zeros (128 - zlen text)) = zlen text.
Proof.
  intros Hp Hl. assert (text_run (text ++ zeros (128 - zlen text)) = zlen text) as Hr.
  { unfold zeros. replace (Z.to_nat (128 - zlen text)) with (S (Z.to_nat (127 - zlen text))) by lia.
    clear Hl. generalize (Z.to_nat (127 - zlen text)) as n. intros n. induction text as [|x text IH]; [done|].
    cbn in Hp. apply andb_true_iff in Hp as [Hx Hp]. cbn [app text_run]. rewrite Hx, (IH Hp). unfold zlen. cbn [length]. lia. }
  unfold retention_text_len. rewrite Hr. unfold zlen at 1. rewrite Nat2Z.id, drop_app_length.
  assert (forallb (fun x => x =? 0) (zeros (128 - zlen text)) = true) as ->.
  { apply forallb_forall. intros x Hx%list_elem_of_In. unfold zeros in Hx. apply elem_of_replicate in Hx as [-> _]. done. }
  cbn [negb]. change FZN_RETENTION_SET_TEXT_MAX with 128. destruct (Z.eqb_spec (zlen text) 128); [lia|done].
Qed.

(** The length of a buffer that was written in, [tac] showing each write to
    fit. *)
Ltac blit_lens tac :=
  lazymatch goal with
  | |- context [zlen (blit ?o ?s ?l)] => rewrite (zlen_blit o s l); blit_lens tac
  | |- _ => tac
  end.

Section Round.
Context (ops : fzn_sign_ops) (vf : bytes -> bytes -> bytes -> bool) (key subject : bytes).
Context (Hvf : verify ops = Some vf) (Hsigns : signs_for ops vf key).
Context (Hkey : is_bytes 32 key) (Hsub : is_bytes 32 subject).

(** Admission of the bytes of a change. *)
Lemma admit_change (removal : bool) b sig s hash id :
  let object := if removal then FZN_OBJECT_ROOT_REMOVE else FZN_OBJECT_ROOT_ADD in
  let r := concat (body_fields object key subject b) ++ sig in
  is_bytes 64 sig -> zlen b = (if removal then 32 else 0) -> vf key (concat (body_fields object key subject b)) sig = true ->
  set_sound s = true -> hash FZN_ROOT_ACT_ID_LEN r = Some id ->
  fzn_root_set_admit s r ops (Some hash) =
    if existsb (fun c => memeq (c_id c) id) (change_rows s) then (FZN_ROOT_LOG_OK, s)
    else if rs_used s >=? rs_capacity s then (FZN_ROOT_LOG_ERR_FULL, s)
    else (FZN_ROOT_LOG_OK, with_change s (mk_change object key subject (if removal then b else zeros 32) id)).
Proof using Hvf Hkey Hsub.
  intros object r Hsig Hb Hv Hs Hh. unfold fzn_root_set_admit. rewrite Hvf, Hs. cbn [negb].
  destruct (body_read object key subject b sig Hkey (proj1 Hsub) (proj1 Hsig)) as (Hl & H0 & H1 & Hk & Ha & Hbb & Hbody & Hsg).
  fold r in Hl, H0, H1, Hk, Ha, Hbb, Hbody, Hsg. rewrite H0, H1.
  destruct (Z.ltb_spec (zlen r) 2) as [|_]; [rewrite Hl, Hb in *; destruct removal; lia|]. cbn [Z.eqb negb orb].
  assert ((if object =? FZN_OBJECT_ROOT_ADD then Some FZN_ROOT_ADD_BODY_LEN
           else if object =? FZN_OBJECT_ROOT_REMOVE then Some FZN_ROOT_REMOVE_BODY_LEN else None) = Some (66 + zlen b)) as ->
    by (rewrite Hb; unfold object; destruct removal; reflexivity).
  rewrite Hl. change FZN_SIG_LEN with 64. rewrite Z.eqb_refl. cbn [negb].
  change (slice FZN_ROOT_SET_OFF_SIGNER FZN_PUBKEY_LEN r) with (slice 2 32 r). rewrite Hk, Hbody, Hsg, Hv, Hh. cbn [negb].
  destruct (existsb _ _); [done|]. destruct (_ >=? _); [done|]. do 2 f_equal. unfold change_of. rewrite H1.
  change (slice FZN_ROOT_SET_OFF_SIGNER FZN_PUBKEY_LEN r) with (slice 2 32 r).
  change (slice FZN_ROOT_SET_OFF_SUBJECT FZN_PUBKEY_LEN r) with (slice 34 32 r). rewrite Hk, Ha. f_equal.
  unfold object. destruct removal; [|done]. cbn [Z.eqb]. change (slice FZN_ROOT_SET_OFF_CUT FZN_ROOT_ACT_ID_LEN r) with (slice 66 32 r).
  by rewrite <- Hb.
Qed.

Lemma with_change_rows s c : rs_changes s <> None -> 0 <= rs_used s < zlen (default [] (rs_changes s)) ->
  change_rows (with_change s c) = change_rows s ++ [c].
Proof.
  intros Hs Hu. unfold change_rows, with_change. cbn. destruct (rs_changes s) as [cs|]; [|done]. cbn in *. unfold zlen in Hu.
  replace (Z.to_nat (rs_used s + 1)) with (S (Z.to_nat (rs_used s))) by lia.
  rewrite (take_S_r _ _ c) by (apply list_lookup_insert_eq; lia). by rewrite take_insert_ge by lia.
Qed.

Lemma change_roundtrip cut out out' s hash id (removal : bool) :
  zlen out = (if removal then FZN_ROOT_REMOVE_LEN else FZN_ROOT_ADD_LEN) -> zlen (default (zeros 32) cut) = 32 ->
  (if removal then fzn_root_remove_issue key subject cut ops out else fzn_root_add_issue key subject ops out)
    = (FZN_ROOT_LOG_OK, out') ->
  set_sound s = true -> 0 <= rs_used s < rs_capacity s -> zlen (default [] (rs_changes s)) = rs_capacity s ->
  hash FZN_ROOT_ACT_ID_LEN out' = Some id -> (forall c, c ∈ change_rows s -> c_id c <> id) ->
  let c := mk_change (if removal then FZN_OBJECT_ROOT_REMOVE else FZN_OBJECT_ROOT_ADD) key subject
             (if removal then default (zeros 32) cut else zeros 32) id in
  fzn_root_set_admit s out' ops (Some hash) = (FZN_ROOT_LOG_OK, with_change s c) /\
  change_rows (with_change s c) = change_rows s ++ [c] /\
  fzn_root_set_admit (with_change s c) out' ops (Some hash) = (FZN_ROOT_LOG_OK, with_change s c).
Proof using Hvf Hsigns Hkey Hsub.
  intros Ho Hcut Hiss Hs Hu Hcap Hh Hnew c.
  assert (exists b sig, out' = concat (body_fields (if removal then FZN_OBJECT_ROOT_REMOVE else FZN_OBJECT_ROOT_ADD) key subject b) ++ sig /\
    is_bytes 64 sig /\ zlen b = (if removal then 32 else 0) /\ (removal = true -> b = default (zeros 32) cut) /\
    vf key (concat (body_fields (if removal then FZN_OBJECT_ROOT_REMOVE else FZN_OBJECT_ROOT_ADD) key subject b)) sig = true)
    as (b & sig & -> & Hsig & Hb & Hbc & Hv).
  { destruct removal.
    - destruct (sign_change_written FZN_OBJECT_ROOT_REMOVE key subject cut 98 ops vf out out' Hkey (proj1 Hsub) Hsigns Ho ltac:(auto) Hiss)
        as (sig & -> & ? & ? & ?). eexists _, sig. split; [reflexivity|]. auto.
    - destruct (sign_change_written FZN_OBJECT_ROOT_ADD key subject None 66 ops vf out out' Hkey (proj1 Hsub) Hsigns Ho ltac:(auto) Hiss)
        as (sig & -> & ? & ? & ?). eexists _, sig. split; [reflexivity|]. split; [done|]. split; [done|]. split; [done|done]. }
  assert (change_rows (with_change s c) = change_rows s ++ [c]) as Hrows.
  { apply with_change_rows; [|lia]. unfold set_sound in Hs. by destruct (rs_changes s). }
  assert (mk_change (if removal then FZN_OBJECT_ROOT_REMOVE else FZN_OBJECT_ROOT_ADD) key subject (if removal then b else zeros 32) id = c) as Ec
    by (unfold c; destruct removal; [by rewrite Hbc|done]).
  split; [|split; [done|]].
  - rewrite (admit_change removal b sig s hash id) by done. destruct (existsb _ _) eqn:E.
    + apply existsb_lookup in E as (i & x & Hx & Hid). apply memeq_true in Hid. exfalso. apply (Hnew x); [by eapply list_elem_of_lookup_2|done].
    + destruct (Z.geb_spec (rs_used s) (rs_capacity s)); [lia|]. by rewrite Ec.
  - assert (set_sound (with_change s c) = true) as Hs'.
    { unfold set_sound, with_change in *. cbn in *. destruct (rs_changes s); [|done]. cbn. apply Z.leb_le in Hs. apply Z.leb_le. lia. }
    rewrite (admit_change removal b sig (with_change s c) hash id) by done. destruct (existsb _ _) eqn:E; [done|]. exfalso.
    apply not_true_iff_false in E. apply E, existsb_lookup. rewrite Hrows. exists (length (change_rows s)), c.
    split; [by apply list_lookup_middle|]. apply memeq_refl.
Qed.

Lemma quorum_roundtrip k out out' : in_u8 k -> zlen out = FZN_QUORUM_SET_LEN ->
  fzn_quorum_set_issue key k (Some subject) ops out = (FZN_ROOT_LOG_OK, out') ->
  fzn_quorum_set_check out' ops = FZN_ROOT_LOG_OK /\ slice FZN_QUORUM_SET_OFF_SETTER FZN_PUBKEY_LEN out' = key /\
  forall id c, w_k (mk_row out' id c) = k /\ w_replaces (mk_row out' id c) = subject.
Proof using Hvf Hsigns Hkey Hsub.
  intros Hk Ho Hiss. unfold fzn_quorum_set_issue in Hiss. destruct (sign ops) as [sg|] eqn:Esg; [|done].
  destruct (Z.eqb_spec k 0) as [|Hk0]; [done|]. cbv zeta in Hiss. cbn [default] in Hiss.
  match type of Hiss with context [sg (slice 0 _ ?o)] => set (o1 := o) in * end.
  assert (o1 = blit 66 [k] (blit 34 subject (blit 2 key (poke (poke out 0 1) 1 FZN_OBJECT_QUORUM_SET)))) as E1
    by (unfold o1, poke at 1; by rewrite u8_small).
  destruct (sg _) as [sig|] eqn:E; [|done]. destruct (Hsigns sg _ sig Esg E) as [Hsig Hv]. injection Hiss as <-.
  destruct (body_written FZN_OBJECT_QUORUM_SET key subject [k] sig Hkey (proj1 Hsub) (proj1 Hsig) out Ho ltac:(done)) as [H1 H2].
  rewrite <- E1 in H1, H2. change FZN_QUORUM_SET_BODY_LEN with (66 + zlen [k]) in *. rewrite H1 in Hv. rewrite H2.
  destruct (body_read FZN_OBJECT_QUORUM_SET key subject [k] sig Hkey (proj1 Hsub) (proj1 Hsig)) as (Hl & H0 & Hob & Hr & Ha & Hb & Hbody & Hsg).
  set (r := concat _ ++ sig) in *.
  assert (peek r 66 = k) as Hpk.
  { unfold r, body_fields. cbn [concat]. destruct Hkey as [Hkl _], Hsub as [Hsl _].
    replace (([1] ++ [FZN_OBJECT_QUORUM_SET] ++ key ++ subject ++ [k] ++ []) ++ sig)
      with (([1] ++ [FZN_OBJECT_QUORUM_SET] ++ key ++ subject) ++ k :: sig) by (by rewrite <- !app_assoc).
    apply peek_mid. rewrite !zlen_app, Hkl, Hsl. done. }
  split; [|split; [exact Hr|intros id c; split; [exact Hpk|exact Ha]]].
  unfold fzn_quorum_set_check. rewrite Hvf, H0, Hob, Hl. change (peek r FZN_QUORUM_SET_OFF_K) with (peek r 66). rewrite Hpk.
  change (66 + zlen [k] + 64 =? FZN_QUORUM_SET_LEN) with true. cbn [Z.eqb negb orb]. destruct (Z.eqb_spec k 0); [done|].
  change FZN_QUORUM_SET_BODY_LEN with (66 + zlen [k]). change (slice FZN_QUORUM_SET_OFF_SETTER FZN_PUBKEY_LEN r) with (slice 2 32 r).
  change FZN_SIG_LEN with 64. by rewrite Hr, Hbody, Hsg, Hv.
Qed.

Lemma retention_roundtrip text out out' : zlen out = FZN_RETENTION_SET_LEN -> (text = [] -> subject <> zeros 32) ->
  fzn_retention_set_issue key (Some text) (zlen text) (Some subject) ops out = (FZN_ROOT_LOG_OK, out') ->
  fzn_retention_set_check out' ops = FZN_ROOT_LOG_OK /\ slice FZN_RETENTION_SET_OFF_SETTER FZN_PUBKEY_LEN out' = key /\
  forall id c, handed_of (mk_row out' id c) = (text, id) /\ w_replaces (mk_row out' id c) = subject.
Proof using Hvf Hsigns Hkey Hsub.
  intros Ho Hne Hiss. unfold fzn_retention_set_issue in Hiss. destruct (sign ops) as [sg|] eqn:Esg; [|done].
  cbn [is_null default negb andb] in Hiss. rewrite andb_false_r, orb_false_r in Hiss. cbn [orb] in Hiss.
  destruct (Z.geb_spec (zlen text) FZN_RETENTION_SET_TEXT_MAX) as [|Hlen]; [done|]. change FZN_RETENTION_SET_TEXT_MAX with 128 in *.
  change (slice 0 (zlen text) _) with (slice 0 (zlen text) text) in Hiss. rewrite (slice_all (zlen text) text) in Hiss by lia. destruct (forallb printable text) eqn:Hp; cbn [negb] in Hiss; [|done]. cbv zeta in Hiss.
  match type of Hiss with context [sg (slice 0 _ ?o)] => set (o1 := o) in * end.
  set (field := text ++ zeros (128 - zlen text)). pose proof (zlen_nonneg text) as Hnn.
  assert (zlen field = 128) as Hfl by (unfold field; rewrite zlen_app, zlen_zeros by lia; lia).
  assert (o1 = blit 66 field (blit 34 subject (blit 2 key (poke (poke out 0 1) 1 FZN_OBJECT_RETENTION_SET)))) as E1.
  { unfold o1. change FZN_RETENTION_SET_OFF_TEXT with 66. rewrite blit_over.
    - do 2 f_equal. unfold zeros, zlen. rewrite drop_replicate. f_equal. lia.
    - unfold id. change FZN_RETENTION_SET_LEN with 258 in Ho. destruct Hkey as [Hkl _], Hsub as [Hsl _]. unfold poke.
      change FZN_RETENTION_SET_OFF_REPLACES with 34. change FZN_RETENTION_SET_OFF_SETTER with 2.
      assert (forall x : Z, zlen [x] = 1) as H1 by done. blit_lens ltac:(rewrite ?H1, ?Hkl, ?Hsl, ?Ho; lia).
    - unfold zlen, zeros in *. rewrite length_replicate. lia. }
  destruct (sg _) as [sig|] eqn:E; [|done]. destruct (Hsigns sg _ sig Esg E) as [Hsig Hv]. injection Hiss as <-.
  destruct (body_written FZN_OBJECT_RETENTION_SET key subject field sig Hkey (proj1 Hsub) (proj1 Hsig) out) as [H1 H2]; [rewrite Hfl; exact Ho|done|].
  rewrite <- E1 in H1, H2. rewrite Hfl in H1, H2. change FZN_RETENTION_SET_BODY_LEN with (66 + 128) in *. rewrite H1 in Hv. rewrite H2.
  destruct (body_read FZN_OBJECT_RETENTION_SET key subject field sig Hkey (proj1 Hsub) (proj1 Hsig)) as (Hl & H0 & Hob & Hr & Ha & Hb & Hbody & Hsg).
  rewrite Hfl in Hl, Hb, Hbody, Hsg. set (r := concat _ ++ sig) in *.
  assert (retention_text_len field = zlen text) as Htl by (by apply text_len_padded).
  split; [|split; [exact Hr|intros id c; split; [|exact Ha]]].
  - unfold fzn_retention_set_check. rewrite Hvf, H0, Hob, Hl. change (66 + 128 + 64 =? FZN_RETENTION_SET_LEN) with true. cbn [Z.eqb negb orb].
    change (text_field r) with (slice 66 128 r). rewrite Hb, Htl. destruct (Z.ltb_spec (zlen text) 0); [lia|]. cbn [orb].
    change (slice FZN_RETENTION_SET_OFF_REPLACES FZN_ROOT_ACT_ID_LEN r) with (slice 34 32 r). rewrite Ha.
    assert ((zlen text =? 0) && memeq subject (zeros FZN_ROOT_ACT_ID_LEN) = false) as ->.
    { apply not_true_iff_false. intros [Hz%Z.eqb_eq Hm%memeq_true]%andb_true_iff. apply Hne; [|done]. unfold zlen in Hz. by destruct text. }
    change FZN_RETENTION_SET_BODY_LEN with (66 + 128). change (slice FZN_RETENTION_SET_OFF_SETTER FZN_PUBKEY_LEN r) with (slice 2 32 r).
    change FZN_SIG_LEN with 64. by rewrite Hr, Hbody, Hsg, Hv.
  - unfold handed_of. cbn [w_record w_id]. change (text_field r) with (slice 66 128 r). rewrite Hb, Htl. f_equal.
    unfold field. by apply (slice_mid [] text).
Qed.
End Round.

(** What a root issues is what a host reads. A change of the set that was
    issued is taken by a set with room that does not hold it yet, as the very
    change it states, its cut included, under the hash of its bytes, and taken
    again it changes nothing; an issued setting of the quorum, or line of the
    retention rules, passes its check and reads back its setter, what it
    replaces and its [k] or its text. *)
Theorem root_records_roundtrip ops vf key subject :
  verify ops = Some vf -> signs_for ops vf key -> is_bytes 32 key -> is_bytes 32 subject ->
  (forall cut out out' s hash id (removal : bool),
     zlen out = (if removal then FZN_ROOT_REMOVE_LEN else FZN_ROOT_ADD_LEN) -> zlen (default (zeros 32) cut) = 32 ->
     (if removal then fzn_root_remove_issue key subject cut ops out else fzn_root_add_issue key subject ops out)
       = (FZN_ROOT_LOG_OK, out') ->
     set_sound s = true -> 0 <= rs_used s < rs_capacity s -> zlen (default [] (rs_changes s)) = rs_capacity s ->
     hash FZN_ROOT_ACT_ID_LEN out' = Some id -> (forall c, c ∈ change_rows s -> c_id c <> id) ->
     let c := mk_change (if removal then FZN_OBJECT_ROOT_REMOVE else FZN_OBJECT_ROOT_ADD) key subject
                (if removal then default (zeros 32) cut else zeros 32) id in
     fzn_root_set_admit s out' ops (Some hash) = (FZN_ROOT_LOG_OK, with_change s c) /\
     change_rows (with_change s c) = change_rows s ++ [c] /\
     fzn_root_set_admit (with_change s c) out' ops (Some hash) = (FZN_ROOT_LOG_OK, with_change s c)) /\
  (forall k out out', in_u8 k -> zlen out = FZN_QUORUM_SET_LEN ->
     fzn_quorum_set_issue key k (Some subject) ops out = (FZN_ROOT_LOG_OK, out') ->
     fzn_quorum_set_check out' ops = FZN_ROOT_LOG_OK /\ slice FZN_QUORUM_SET_OFF_SETTER FZN_PUBKEY_LEN out' = key /\
     forall id c, w_k (mk_row out' id c) = k /\ w_replaces (mk_row out' id c) = subject) /\
  (forall text out out', zlen out = FZN_RETENTION_SET_LEN -> (text = [] -> subject <> zeros 32) ->
     fzn_retention_set_issue key (Some text) (zlen text) (Some subject) ops out = (FZN_ROOT_LOG_OK, out') ->
     fzn_retention_set_check out' ops = FZN_ROOT_LOG_OK /\ slice FZN_RETENTION_SET_OFF_SETTER FZN_PUBKEY_LEN out' = key /\
     forall id c, handed_of (mk_row out' id c) = (text, id) /\ w_replaces (mk_row out' id c) = subject).
Proof.
  intros Hvf Hs Hk Hsub. split; [|split]; intros.
  - by eapply change_roundtrip.
  - by apply (quorum_roundtrip ops vf key subject Hvf Hs Hk Hsub k out).
  - by apply (retention_roundtrip ops vf key subject Hvf Hs Hk Hsub text out).
Qed.

Lemma root_records_roundtrip_witness :
  let s := mk_rset (zeros 32) (Some (replicate 2 (mk_change 0 [] [] [] []))) 2 0 in
  let r := snd (fzn_root_remove_issue (replicate 32 1) (replicate 32 2) (Some (replicate 32 3)) toy_ops (zeros 162)) in
  let c := mk_change FZN_OBJECT_ROOT_REMOVE (replicate 32 1) (replicate 32 2) (replicate 32 3) (replicate 32 3) in
  fzn_root_set_admit s r toy_ops (Some toy_hash) = (FZN_ROOT_LOG_OK, with_change s c) /\
  fzn_quorum_set_check (snd (fzn_quorum_set_issue (replicate 32 1) 3 (Some (replicate 32 2)) toy_ops (zeros 131))) toy_ops
  = FZN_ROOT_LOG_OK /\
  fzn_retention_set_check
    (snd (fzn_retention_set_issue (replicate 32 1) (Some [65; 66]) 2 (Some (replicate 32 2)) toy_ops (zeros 258))) toy_ops
  = FZN_ROOT_LOG_OK.
Proof.
  intros s r c.
  assert (is_bytes 32 (replicate 32 1) /\ is_bytes 32 (replicate 32 2)) as [H1 H2]
    by (split; (split; [reflexivity|apply Forall_replicate; split; [discriminate|vm_compute; discriminate]])).
  destruct (root_records_roundtrip toy_ops (fun _ _ sig => memeq sig (zeros 64)) (replicate 32 1) (replicate 32 2) eq_refl
    (toy_signs _ _ eq_refl) H1 H2) as (Hc & Hq & Hr).
  split; [|split].
  - destruct (Hc (Some (replicate 32 3)) (zeros 162) r s toy_hash (replicate 32 3) true) as [Ha _]; [| | | | | | | |exact Ha];
      try (vm_compute; reflexivity).
    + split; [discriminate|vm_compute; reflexivity].
    + intros x Hx. apply elem_of_nil in Hx. destruct Hx.
  - destruct (Hq 3 (zeros 131) _ ltac:(split; [discriminate|vm_compute; discriminate]) ltac:(vm_compute; reflexivity)
      ltac:(vm_compute; reflexivity)) as [Ha _]. exact Ha.
  - destruct (Hr [65; 66] (zeros 258) _ ltac:(vm_compute; reflexivity) ltac:(discriminate) ltac:(vm_compute; reflexivity)) as [Ha _].
    exact Ha.
Defined.
