(* ===== verification/RevocationAdmit.v ===== *)
(** * chain/revocation.c: admitting revocations, withdrawals and confirmations

    The write side of the store. [root] and the operations are given; a record
    or a hop view may be NULL. An offer is a record and a chain, empty for a
    root's own. *)

From S2P Require Import Prelude Bytes Hop Revocation RevocationRule Manifest Chain.

Definition FZN_ADMIN_CONFIRM_OFF_CONFIRMER : Z := 2.
Definition FZN_ADMIN_CONFIRM_OFF_GRANT : Z := 34.
Definition FZN_ADMIN_CONFIRM_BODY_LEN : Z := 66.
Definition FZN_ADMIN_CONFIRM_LEN : Z := FZN_ADMIN_CONFIRM_BODY_LEN + FZN_SIG_LEN.

Record fzn_revocation_offer := mk_offer {
  o_record : option bytes;
  o_hops : list (option fzn_chain_hop)
}.

(** ** Standing *)

(** The root a chain is verified under: its own first grantor when the store's
    set names it. *)
Definition chain_root (s : fzn_revocation_store) (hops : list (option fzn_chain_hop)) (root : bytes)
    : bytes :=
  match head hops with
  | Some (Some h0) => if root_member s (fzn_hop_grantor h0) then fzn_hop_grantor h0 else root
  | _ => root
  end.

Definition last_delegable (hops : list (option fzn_chain_hop)) : bool :=
  match list.last hops with Some (Some h) => fzn_hop_delegable h | _ => false end.

Definition entitled_by_chain (s : fzn_revocation_store) (record : bytes)
    (hops : list (option fzn_chain_hop)) (root : bytes) (ops : fzn_sign_ops) : fzn_chain_err :=
  if zlen hops >=? FZN_CHAIN_MAX_HOPS then FZN_CHAIN_ERR_MALFORMED
  else
    match fzn_chain_verify hops (chain_root s hops root) (fzn_revocation_capability record) 0 ops
            None None with
    | (FZN_CHAIN_OK, Some issuers) =>
      if negb (memeq (ch_grantee issuers) (fzn_revocation_issuer record))
      then FZN_CHAIN_ERR_CHAIN_INVALID
      else if negb (last_delegable hops) then FZN_CHAIN_ERR_NOT_DELEGABLE
      else FZN_CHAIN_OK
    | (err, _) => err
    end.

(** The row an admin is kept as, or [None] when a hash is refused. *)
Definition admin_row (s : fzn_revocation_store) (key : bytes) (hs : list fzn_chain_hop)
    (hash : option fzn_hash_ops) : option fzn_revocation_admin :=
  let first := slice 0 FZN_HOP_LEN (default [] (head hs)) in
  match match hash with
        | None => Some (zeros FZN_REVOCATION_ID_LEN)
        | Some hash => hash FZN_REVOCATION_ID_LEN first
        end with
  | None => None
  | Some first_act =>
    match match confirm_hash s with
          | None => Some ((fun _ => zeros FZN_REVOCATION_ID_LEN) <$> hs)
          | Some hash => mapM (fun h => hash FZN_REVOCATION_ID_LEN (slice 0 FZN_HOP_LEN h)) hs
          end with
    | None => None
    | Some ids =>
      Some (mk_admin key (fzn_hop_grantor <$> hs) (fzn_hop_grantee <$> hs) ids first_act)
    end
  end.

Definition with_admins (s : fzn_revocation_store) (tab : list fzn_revocation_admin) (n : Z)
    : fzn_revocation_store :=
  mk_store (entries s) (used s) (generation s) (quorum s) (has_admin s) (admin_capability s)
    (Some tab) n (roots s) (root_hash s) (confirms s) (confirms_used s) (confirm_hash s) (acts s).

Definition entitled_as_admin (s : fzn_revocation_store) (issuer : bytes)
    (hops : list (option fzn_chain_hop)) (root : bytes) (ops : fzn_sign_ops)
    (hash : option fzn_hash_ops) : fzn_chain_err * fzn_revocation_store :=
  if (zlen hops >=? FZN_CHAIN_MAX_HOPS) || match head hops with Some None => true | _ => false end
  then (FZN_CHAIN_ERR_MALFORMED, s)
  else
    match fzn_chain_verify hops (chain_root s hops root) (admin_capability s) 0 ops None None, opened hops with
    | (FZN_CHAIN_OK, Some verdict), Some hs =>
      if negb (memeq (ch_grantee verdict) issuer) then (FZN_CHAIN_ERR_CHAIN_INVALID, s)
      else match admin_row s (ch_grantee verdict) hs hash with
      | None => (FZN_CHAIN_ERR_MALFORMED, s)
      | Some ad =>
        match find_admin s (a_key ad) with
        | Some a =>
          if bool_decide (admin_rows s !! a = Some ad) then (FZN_CHAIN_OK, s)
          else (FZN_CHAIN_ERR_CHAIN_INVALID, s)
        | None =>
          match admins s with
          | None => (FZN_CHAIN_ERR_STORE_FULL, s)
          | Some tab =>
            if admins_used s >=? zlen tab then (FZN_CHAIN_ERR_STORE_FULL, s)
            else
              (FZN_CHAIN_OK,
               bump (with_admins s (<[ Z.to_nat (admins_used s) := ad ]> tab) (admins_used s + 1)))
          end
        end
      end
    | (err, _), _ => (err, s)
    end.

(** ** Storing *)

Definition with_entries (s : fzn_revocation_store) (tab : list fzn_revocation) (n : Z)
    : fzn_revocation_store :=
  mk_store (Some tab) n (generation s) (quorum s) (has_admin s) (admin_capability s) (admins s)
    (admins_used s) (roots s) (root_hash s) (confirms s) (confirms_used s) (confirm_hash s) (acts s).

(** [entries[at] = e] *)
Definition put_entry (s : fzn_revocation_store) (at_ : nat) (e : fzn_revocation)
    : fzn_revocation_store :=
  with_entries s (<[ at_ := e ]> (default [] (entries s))) (used s).

(** An entry written at [entries[used]] and counted. *)
Definition append_entry (s : fzn_revocation_store) (e : fzn_revocation) : fzn_revocation_store :=
  bump (with_entries s (<[ Z.to_nat (used s) := e ]> (default [] (entries s))) (used s + 1)).

(** The row a record makes: its own id and line for a revocation; for a
    tombstone, the id it names and no line. *)
Definition entry_of (rec id : bytes) : fzn_revocation :=
  mk_rev (fzn_revocation_capability rec) (fzn_revocation_grantee rec) (fzn_revocation_issuer rec)
    id false (fzn_revocation_epoch rec) id (fzn_revocation_cut rec).

Definition tombstone_of (rec id : bytes) : fzn_revocation :=
  mk_rev (fzn_revocation_capability rec) (fzn_revocation_grantee rec) (fzn_revocation_issuer rec)
    (fzn_revocation_supersedes rec) true (fzn_revocation_epoch rec) id (zeros FZN_REVOCATION_ID_LEN).

(** A withdrawal, over the entry [e] at [at_] or over nothing. *)
Definition admit_withdrawal (s : fzn_revocation_store) (rec id : bytes)
    (at_ : option (nat * fzn_revocation)) : fzn_chain_err * fzn_revocation_store :=
  match at_ with
  | None =>
    if used s >=? capacity s then (FZN_CHAIN_ERR_STORE_FULL, s)
    else (FZN_CHAIN_OK, append_entry s (tombstone_of rec id))
  | Some (at_, e) =>
    if negb (memeq (r_id e) (fzn_revocation_supersedes rec)) then (FZN_CHAIN_ERR_UNKNOWN_TARGET, s)
    else if negb (r_epoch e =? fzn_revocation_epoch rec) then (FZN_CHAIN_ERR_UNKNOWN_TARGET, s)
    else
      let s' := put_entry s at_
        (mk_rev (r_capability e) (r_grantee e) (r_issuer e) (r_id e) true (r_epoch e) id (r_cut e)) in
      (FZN_CHAIN_OK, if r_withdrawn e then s' else bump s')
  end.

(** A revocation over an entry that holds a withdrawal. *)
Definition admit_over_withdrawn (s : fzn_revocation_store) (rec id : bytes) (at_ : nat)
    (e : fzn_revocation) : fzn_chain_err * fzn_revocation_store :=
  if memeq id (r_id e) then (FZN_CHAIN_OK, s)
  else if memeq (fzn_revocation_supersedes rec) (zeros FZN_REVOCATION_ID_LEN)
  then (FZN_CHAIN_ERR_UNKNOWN_TARGET, s)
  else
    (FZN_CHAIN_OK,
     bump (put_entry s at_
       (mk_rev (r_capability e) (r_grantee e) (r_issuer e) id false (fzn_revocation_epoch rec) id
          (fzn_revocation_cut rec)))).

(** A revocation over a live one: a chained reissue advances the id, and may
    move the line. *)
Definition admit_over_live (s : fzn_revocation_store) (rec id : bytes) (at_ : nat)
    (e : fzn_revocation) : fzn_chain_err * fzn_revocation_store :=
  if negb (memeq id (r_id e)) && memeq (fzn_revocation_supersedes rec) (r_id e) then
    let e' := mk_rev (r_capability e) (r_grantee e) (r_issuer e) id (r_withdrawn e)
                (fzn_revocation_epoch rec) id (r_cut e) in
    if negb (memeq (r_cut e) (fzn_revocation_cut rec)) then
      (FZN_CHAIN_OK,
       bump (put_entry s at_
         (mk_rev (r_capability e) (r_grantee e) (r_issuer e) id (r_withdrawn e)
            (fzn_revocation_epoch rec) id (fzn_revocation_cut rec))))
    else (FZN_CHAIN_OK, put_entry s at_ e')
  else (FZN_CHAIN_OK, s).

Definition admit_new (s : fzn_revocation_store) (rec id : bytes)
    : fzn_chain_err * fzn_revocation_store :=
  if used s >=? capacity s then (FZN_CHAIN_ERR_STORE_FULL, s)
  else (FZN_CHAIN_OK, append_entry s (entry_of rec id)).

Definition satisfied (manifest : option fzn_manifest_state) (rec : bytes) : option fzn_manifest_state :=
  snd (fzn_manifest_satisfy manifest (fzn_revocation_issuer rec) (fzn_revocation_capability rec)
         (fzn_revocation_grantee rec)).

(** The tail of [fzn_revocation_admit]: a record whose signature and standing
    are settled, with its hash. *)
Definition store_record (s : fzn_revocation_store) (rec id : bytes)
    (manifest : option fzn_manifest_state)
    : fzn_chain_err * fzn_revocation_store * option fzn_manifest_state :=
  let at_ := find_entry s (fzn_revocation_issuer rec) (fzn_revocation_capability rec)
               (fzn_revocation_grantee rec) ≫= (fun k => (fun e => (k, e)) <$> rows s !! k) in
  if fzn_revocation_is_withdrawal rec then (admit_withdrawal s rec id at_, manifest)
  else match at_ with
  | Some (k, e) =>
    if r_withdrawn e then (admit_over_withdrawn s rec id k e, satisfied manifest rec)
    else (admit_over_live s rec id k e, satisfied manifest rec)
  | None =>
    let '(err, s') := admit_new s rec id in
    (err, s', if bool_decide (err = FZN_CHAIN_OK) then satisfied manifest rec else manifest)
  end.

(** Whether an issuer may put this record in the store; an admin is kept. A
    first view never opened, which the source reads through, takes the branch
    that refuses it. *)
Definition standing (s : fzn_revocation_store) (rec : bytes) (hops : list (option fzn_chain_hop))
    (root : bytes) (ops : fzn_sign_ops) (hash : fzn_hash_ops) : fzn_chain_err * fzn_revocation_store :=
  if zlen hops =? 0 then (FZN_CHAIN_OK, s)
  else if has_admin s
          && match head hops with
             | Some (Some h0) => memeq (fzn_hop_capability h0) (admin_capability s)
             | _ => false
             end
  then entitled_as_admin s (fzn_revocation_issuer rec) hops root ops (Some hash)
  else (entitled_by_chain s rec hops root ops, s).

Definition fzn_revocation_admit (s : fzn_revocation_store) (offer : fzn_revocation_offer) (root : bytes)
    (ops : fzn_sign_ops) (hash : option fzn_hash_ops) (manifest : option fzn_manifest_state)
    : fzn_chain_err * fzn_revocation_store * option fzn_manifest_state :=
  match entries s, verify ops, hash, o_record offer with
  | Some _, Some vf, Some hash, Some rec =>
    if (zlen (o_hops offer) =? 0) && negb (memeq (fzn_revocation_issuer rec) root)
       && negb (root_member s (fzn_revocation_issuer rec))
    then (FZN_CHAIN_ERR_WRONG_ROOT, s, manifest)
    else if negb (vf (fzn_revocation_issuer rec) (fzn_revocation_signed_bytes rec)
                    (fzn_revocation_signature rec))
    then (FZN_CHAIN_ERR_CHAIN_INVALID, s, manifest)
    else
      match standing s rec (o_hops offer) root ops hash with
      | (FZN_CHAIN_OK, s) =>
        if used s >? capacity s then (FZN_CHAIN_ERR_MALFORMED, s, manifest)
        else match hash FZN_REVOCATION_ID_LEN (slice 0 FZN_REVOCATION_LEN rec) with
        | None => (FZN_CHAIN_ERR_MALFORMED, s, manifest)
        | Some id => store_record s rec id manifest
        end
      | (err, s) => (err, s, manifest)
      end
  | _, _, _, _ => (FZN_CHAIN_ERR_MALFORMED, s, manifest)
  end.

(** The batch: how many were admitted, the first error, the store. *)
Fixpoint merge_loop (s : fzn_revocation_store) (offers : list fzn_revocation_offer) (root : bytes)
    (ops : fzn_sign_ops) (hash : option fzn_hash_ops) (manifest : option fzn_manifest_state)
    (admitted : Z) (first : fzn_chain_err)
    : Z * fzn_chain_err * fzn_revocation_store * option fzn_manifest_state :=
  match offers with
  | [] => (admitted, first, s, manifest)
  | offer :: offers =>
    let '(one, s, manifest) := fzn_revocation_admit s offer root ops hash manifest in
    if bool_decide (one = FZN_CHAIN_OK)
    then merge_loop s offers root ops hash manifest (admitted + 1) first
    else merge_loop s offers root ops hash manifest admitted
           (if bool_decide (first = FZN_CHAIN_OK) then one else first)
  end.

Definition fzn_revocation_merge (s : fzn_revocation_store) (offers : list fzn_revocation_offer)
    (root : bytes) (ops : fzn_sign_ops) (hash : option fzn_hash_ops)
    (manifest : option fzn_manifest_state)
    : Z * fzn_chain_err * fzn_revocation_store * option fzn_manifest_state :=
  merge_loop s offers root ops hash manifest 0 FZN_CHAIN_OK.

(** ** Admins and confirmations *)

Definition fzn_revocation_admin_admit (s : fzn_revocation_store) (key : bytes)
    (hops : list (option fzn_chain_hop)) (root : bytes) (ops : fzn_sign_ops)
    : fzn_chain_err * fzn_revocation_store :=
  if (zlen hops =? 0) || corrupt s then (FZN_CHAIN_ERR_MALFORMED, s)
  else if negb (has_admin s) then (FZN_CHAIN_ERR_CHAIN_INVALID, s)
  else entitled_as_admin s key hops root ops (confirm_hash s).

Definition fzn_admin_confirm_issue (confirmer grant : bytes) (ops : fzn_sign_ops) (out : bytes)
    : fzn_chain_err * bytes :=
  match sign ops with
  | None => (FZN_CHAIN_ERR_MALFORMED, out)
  | Some sign =>
    let out := poke out 0 FZN_SIGNED_VERSION in
    let out := poke out 1 FZN_OBJECT_ADMIN_CONFIRM in
    let out := blit FZN_ADMIN_CONFIRM_OFF_CONFIRMER confirmer out in
    let out := blit FZN_ADMIN_CONFIRM_OFF_GRANT grant out in
    match sign (slice 0 FZN_ADMIN_CONFIRM_BODY_LEN out) with
    | None => (FZN_CHAIN_ERR_CHAIN_INVALID, out)
    | Some sig => (FZN_CHAIN_OK, blit FZN_ADMIN_CONFIRM_BODY_LEN sig out)
    end
  end.

Definition with_confirms (s : fzn_revocation_store) (tab : list fzn_revocation_confirm) (n : Z)
    : fzn_revocation_store :=
  mk_store (entries s) (used s) (generation s) (quorum s) (has_admin s) (admin_capability s)
    (admins s) (admins_used s) (roots s) (root_hash s) (Some tab) n (confirm_hash s) (acts s).

(** A confirmation whose signature and standing are settled. *)
Definition store_confirm (s : fzn_revocation_store) (tab : list fzn_revocation_confirm)
    (hash : fzn_hash_ops) (b confirmer grant : bytes) : fzn_chain_err * fzn_revocation_store :=
  if existsb (fun k => memeq (k_confirmer k) confirmer && memeq (k_grant k) grant) (confirm_rows s)
  then (FZN_CHAIN_OK, s)
  else if confirms_used s >=? zlen tab then (FZN_CHAIN_ERR_STORE_FULL, s)
  else match hash FZN_REVOCATION_ID_LEN b with
  | None => (FZN_CHAIN_ERR_MALFORMED, s)
  | Some act =>
    (FZN_CHAIN_OK,
     bump (with_confirms s (<[ Z.to_nat (confirms_used s) := mk_confirm confirmer grant act ]> tab)
             (confirms_used s + 1)))
  end.

Definition fzn_revocation_confirm_admit (s : fzn_revocation_store) (b : bytes)
    (hops : list (option fzn_chain_hop)) (root : bytes) (ops : fzn_sign_ops)
    : fzn_chain_err * fzn_revocation_store :=
  match confirms s, confirm_hash s, verify ops with
  | Some tab, Some hash, Some vf =>
    if corrupt s then (FZN_CHAIN_ERR_MALFORMED, s)
    else if negb (zlen b =? FZN_ADMIN_CONFIRM_LEN) || negb (peek b 0 =? FZN_SIGNED_VERSION)
            || negb (peek b 1 =? FZN_OBJECT_ADMIN_CONFIRM)
    then (FZN_CHAIN_ERR_SHAPE, s)
    else
      let confirmer := slice FZN_ADMIN_CONFIRM_OFF_CONFIRMER FZN_PUBKEY_LEN b in
      let grant := slice FZN_ADMIN_CONFIRM_OFF_GRANT FZN_REVOCATION_ID_LEN b in
      if (zlen hops =? 0) && negb (memeq confirmer root) && negb (root_member s confirmer)
      then (FZN_CHAIN_ERR_WRONG_ROOT, s)
      else if negb (vf confirmer (slice 0 FZN_ADMIN_CONFIRM_BODY_LEN b)
                      (slice FZN_ADMIN_CONFIRM_BODY_LEN FZN_SIG_LEN b))
      then (FZN_CHAIN_ERR_CHAIN_INVALID, s)
      else if zlen hops >? 0 then
        if negb (has_admin s) then (FZN_CHAIN_ERR_CHAIN_INVALID, s)
        else match entitled_as_admin s confirmer hops root ops (confirm_hash s) with
        | (FZN_CHAIN_OK, s) => store_confirm s tab hash b confirmer grant
        | (err, s) => (err, s)
        end
      else store_confirm s tab hash b confirmer grant
  | _, _, _ => (FZN_CHAIN_ERR_MALFORMED, s)
  end.
