(* ===== verification/Succession.v ===== *)
(** * chain/succession.c: one key succeeded by another

    A host holds signed statements that one key follows another; which count
    is asked of the revocation store when they are read. A view of an opened
    record is its bytes; the pointers of a call are given, but for the hash
    and the verifier. *)

From S2P Require Import Prelude Rounds Bytes Hop Revocation RootSet Chain RevocationAdmit RootRecords.

Definition FZN_SUCCESSION_BODY_LEN : Z := 130.
Definition FZN_SUCCESSION_LEN : Z := FZN_SUCCESSION_BODY_LEN + FZN_SIG_LEN.
Definition FZN_SUCCESSION_ID_LEN : Z := 32.
Definition FZN_SUCCESSION_OFF_VERSION : Z := 0.
Definition FZN_SUCCESSION_OFF_OBJECT : Z := 1.
Definition FZN_SUCCESSION_OFF_ISSUER : Z := 2.
Definition FZN_SUCCESSION_OFF_OLD : Z := 34.
Definition FZN_SUCCESSION_OFF_NEW : Z := 66.
Definition FZN_SUCCESSION_OFF_CUT : Z := 98.
Definition FZN_SUCCESSION_OFF_SIGNATURE : Z := FZN_SUCCESSION_BODY_LEN.
Definition FZN_SUCCESSION_DEPTH_MAX : Z := 16.
Definition FZN_OBJECT_SUCCESSION : Z := 146.

Definition fzn_succession_issuer (r : bytes) : bytes := slice FZN_SUCCESSION_OFF_ISSUER FZN_PUBKEY_LEN r.
Definition fzn_succession_old (r : bytes) : bytes := slice FZN_SUCCESSION_OFF_OLD FZN_PUBKEY_LEN r.
Definition fzn_succession_new (r : bytes) : bytes := slice FZN_SUCCESSION_OFF_NEW FZN_PUBKEY_LEN r.
Definition fzn_succession_cut (r : bytes) : bytes := slice FZN_SUCCESSION_OFF_CUT FZN_SUCCESSION_ID_LEN r.

Definition fzn_succession_open (b : bytes) : fzn_chain_err * option bytes :=
  if negb (zlen b =? FZN_SUCCESSION_LEN) || negb (peek b FZN_SUCCESSION_OFF_VERSION =? FZN_SIGNED_VERSION)
     || negb (peek b FZN_SUCCESSION_OFF_OBJECT =? FZN_OBJECT_SUCCESSION)
  then (FZN_CHAIN_ERR_SHAPE, None)
  else if memeq (fzn_succession_old b) (fzn_succession_new b) then (FZN_CHAIN_ERR_SHAPE, None)
  else (FZN_CHAIN_OK, Some b).

(** [cut] NULL is [None]. *)
Definition fzn_succession_issue (issuer old new_key : bytes) (cut : option bytes) (ops : fzn_sign_ops) (out : bytes)
    : fzn_chain_err * bytes :=
  match sign ops with
  | None => (FZN_CHAIN_ERR_MALFORMED, out)
  | Some sign =>
    if memeq old new_key then (FZN_CHAIN_ERR_MALFORMED, out)
    else
      let out := poke out FZN_SUCCESSION_OFF_VERSION FZN_SIGNED_VERSION in
      let out := poke out FZN_SUCCESSION_OFF_OBJECT FZN_OBJECT_SUCCESSION in
      let out := blit FZN_SUCCESSION_OFF_ISSUER issuer out in
      let out := blit FZN_SUCCESSION_OFF_OLD old out in
      let out := blit FZN_SUCCESSION_OFF_NEW new_key out in
      let out := blit FZN_SUCCESSION_OFF_CUT (default (zeros FZN_SUCCESSION_ID_LEN) cut) out in
      match sign (slice 0 FZN_SUCCESSION_BODY_LEN out) with
      | None => (FZN_CHAIN_ERR_CHAIN_INVALID, blit 0 (zeros FZN_SUCCESSION_LEN) out)
      | Some sig => (FZN_CHAIN_OK, blit FZN_SUCCESSION_OFF_SIGNATURE sig out)
      end
  end.

Record fzn_succession := mk_succ { u_issuer : bytes; u_old : bytes; u_new : bytes; u_cut : bytes; u_id : bytes }.

(** [ss_entries] is the caller's array, [None] for NULL. *)
Record fzn_succession_set := mk_sset {
  ss_entries : option (list fzn_succession); ss_capacity : Z; ss_used : Z; ss_hash : option fzn_hash_ops
}.

Definition fzn_succession_set_init (s : fzn_succession_set) (entries : option (list fzn_succession)) (capacity : Z)
    (hash : option fzn_hash_ops) : fzn_chain_err * fzn_succession_set :=
  if is_null entries || (capacity =? 0) || is_null hash then (FZN_CHAIN_ERR_MALFORMED, s)
  else (FZN_CHAIN_OK, mk_sset entries capacity 0 hash).

Definition sound_set (s : fzn_succession_set) : bool :=
  negb (is_null (ss_entries s)) && negb (is_null (ss_hash s)) && (ss_used s <=? ss_capacity s).

Definition succ_rows (s : fzn_succession_set) : list fzn_succession :=
  take (Z.to_nat (ss_used s)) (default [] (ss_entries s)).

(** The array given is another than the set's: the rows used are moved. *)
Definition fzn_succession_set_use (s : fzn_succession_set) (entries : option (list fzn_succession)) (capacity : Z)
    : fzn_chain_err * fzn_succession_set :=
  match entries with
  | None => (FZN_CHAIN_ERR_MALFORMED, s)
  | Some es =>
    if negb (sound_set s) || (capacity =? 0) || (capacity <? ss_used s) then (FZN_CHAIN_ERR_MALFORMED, s)
    else (FZN_CHAIN_OK, mk_sset (Some (blit 0 (succ_rows s) es)) capacity (ss_used s) (ss_hash s))
  end.

Definition succession_of (r id : bytes) : fzn_succession :=
  mk_succ (fzn_succession_issuer r) (fzn_succession_old r) (fzn_succession_new r) (fzn_succession_cut r) id.

Definition with_succession (s : fzn_succession_set) (e : fzn_succession) : fzn_succession_set :=
  mk_sset ((fun es => <[Z.to_nat (ss_used s) := e]> es) <$> ss_entries s) (ss_capacity s) (ss_used s + 1) (ss_hash s).

(** The record is verified and its issuer entitled: it is kept. *)
Definition keep_succession (s : fzn_succession_set) (r b : bytes) : fzn_chain_err * fzn_succession_set :=
  match ss_hash s with
  | None => (FZN_CHAIN_ERR_MALFORMED, s)
  | Some hash =>
    match hash FZN_SUCCESSION_ID_LEN b with
    | None => (FZN_CHAIN_ERR_MALFORMED, s)
    | Some id =>
      if existsb (fun e => memeq (u_id e) id) (succ_rows s) then (FZN_CHAIN_OK, s)
      else if ss_used s >=? ss_capacity s then (FZN_CHAIN_ERR_STORE_FULL, s)
      else (FZN_CHAIN_OK, with_succession s (succession_of r id))
    end
  end.

Definition fzn_succession_admit (s : fzn_succession_set) (revs : fzn_revocation_store) (b : bytes)
    (hops : list (option fzn_chain_hop)) (root : bytes) (ops : fzn_sign_ops)
    : fzn_chain_err * fzn_succession_set * fzn_revocation_store :=
  match verify ops with
  | None => (FZN_CHAIN_ERR_MALFORMED, s, revs)
  | Some verify =>
    if negb (sound_set s) then (FZN_CHAIN_ERR_MALFORMED, s, revs)
    else match fzn_succession_open b with
    | (FZN_CHAIN_OK, Some r) =>
      let issuer := fzn_succession_issuer r in
      if (zlen hops =? 0) && negb (memeq issuer root) && negb (root_member revs issuer)
      then (FZN_CHAIN_ERR_WRONG_ROOT, s, revs)
      else if negb (verify issuer (slice 0 FZN_SUCCESSION_BODY_LEN b) (slice FZN_SUCCESSION_OFF_SIGNATURE FZN_SIG_LEN b))
      then (FZN_CHAIN_ERR_CHAIN_INVALID, s, revs)
      else
        match (if zlen hops >? 0 then fzn_revocation_admin_admit revs issuer hops root ops else (FZN_CHAIN_OK, revs)) with
        | (FZN_CHAIN_OK, revs) => let '(err, s) := keep_succession s r b in (err, s, revs)
        | (err, revs) => (err, s, revs)
        end
    | (err, _) => (err, s, revs)
    end
  end.

Definition succ_counts (revs : fzn_revocation_store) (root : bytes) (e : fzn_succession) : bool :=
  fzn_revocation_confirmed (Some revs) (Some (u_issuer e)) (Some (u_id e)) (Some root).

Definition fzn_succession_counts (s : fzn_succession_set) (i : nat) (revs : fzn_revocation_store) (root : bytes) : bool :=
  sound_set s && match succ_rows s !! i with None => false | Some e => succ_counts revs root e end.

(** One turn: the successor of [at], [Some None] when there is none, [None]
    for a fork; [next] is what the rows before named. *)
Fixpoint next_loop (rows : list fzn_succession) (revs : fzn_revocation_store) (root at_ : bytes) (next : option bytes)
    : option (option bytes) :=
  match rows with
  | [] => Some next
  | e :: rows =>
    if negb (memeq (u_old e) at_) || negb (succ_counts revs root e) then next_loop rows revs root at_ next
    else if match next with Some k => negb (memeq k (u_new e)) | None => false end then None
    else next_loop rows revs root at_ (Some (u_new e))
  end.

(** [n] turns are left. *)
Fixpoint resolve_loop (n : nat) (rows : list fzn_succession) (revs : fzn_revocation_store) (root at_ : bytes) : option bytes :=
  match n with
  | O => None
  | S n =>
    match next_loop rows revs root at_ None with
    | None => None
    | Some None => Some at_
    | Some (Some next) => resolve_loop n rows revs root next
    end
  end.

(** [None] is a zero result. *)
Definition fzn_succession_resolve (s : fzn_succession_set) (revs : fzn_revocation_store) (root key : bytes) : option bytes :=
  if negb (sound_set s) then None
  else resolve_loop (S (Z.to_nat FZN_SUCCESSION_DEPTH_MAX)) (succ_rows s) revs root key.

(** ** Who a key is now *)

Section Resolve.
Context (rows : list fzn_succession) (revs : fzn_revocation_store) (root : bytes).

Definition counted (e : fzn_succession) : Prop := e ∈ rows /\ succ_counts revs root e = true.

(** Some succession of [k] counts, and all that count name [k']. *)
Definition follows (k k' : bytes) : Prop :=
  (exists e, counted e /\ u_old e = k /\ u_new e = k') /\ forall e, counted e -> u_old e = k -> u_new e = k'.

Definition newest (k : bytes) : Prop := forall e, counted e -> u_old e <> k.

Lemma follows_det k k1 k2 : follows k k1 -> follows k k2 -> k1 = k2.
Proof. intros [(e & He & Hk & <-) _] [_ H]. by apply H. Qed.

Lemma follows_not_newest k k' : follows k k' -> newest k -> False.
Proof. intros [(e & He & Hk & _) _] H. by apply (H e). Qed.

(** The turn, from the rows [todo] on. *)
Lemma next_loop_spec todo : forall at_ next,
  let up k := next = Some k \/ exists e, e ∈ todo /\ succ_counts revs root e = true /\ u_old e = at_ /\ u_new e = k in
  match next_loop todo revs root at_ next with
  | Some (Some k) => up k /\ forall k', up k' -> k' = k
  | Some None => forall k, ~ up k
  | None => exists k k', up k /\ up k' /\ k <> k'
  end.
Proof.
  induction todo as [|e todo IH]; intros at_ next; cbn [next_loop]; cbv beta zeta.
  { destruct next as [k|]; [split; [by left|]; intros k' [?|(e & He & _)]; [congruence|by apply not_elem_of_nil in He]|].
    intros k [?|(e & He & _)]; [done|by apply not_elem_of_nil in He]. }
  destruct (negb (memeq (u_old e) at_) || negb (succ_counts revs root e)) eqn:E.
  - specialize (IH at_ next). cbv beta zeta in IH.
    assert (forall k, (next = Some k \/ exists x, x ∈ e :: todo /\ succ_counts revs root x = true /\ u_old x = at_ /\ u_new x = k) <->
      (next = Some k \/ exists x, x ∈ todo /\ succ_counts revs root x = true /\ u_old x = at_ /\ u_new x = k)) as Hup.
    { intros k. split; (intros [?|(x & Hx & Hc & Ho & Hn)]; [by left|right; exists x]); [|split; [by apply elem_of_cons; right|done]].
      apply elem_of_cons in Hx as [->|Hx]; [|done]. exfalso. rewrite Hc, Ho, memeq_refl in E. done. }
    destruct (next_loop todo revs root at_ next) as [[k|]|].
    + destruct IH as [H1 H2]. split; [by apply Hup|]. intros k' Hk'. by apply H2, Hup.
    + intros k Hk. by apply (IH k), Hup.
    + destruct IH as (k & k' & H1 & H2 & ?). exists k, k'. by rewrite !Hup.
  - apply orb_false_iff in E as [Eo%negb_false_iff Ec%negb_false_iff]. apply memeq_true in Eo.
    assert (forall k, u_new e = k -> exists x, x ∈ e :: todo /\ succ_counts revs root x = true /\ u_old x = at_ /\ u_new x = k) as He.
    { intros k Hk. exists e. split; [by apply elem_of_cons; left|done]. }
    destruct (match next with Some k => negb (memeq k (u_new e)) | None => false end) eqn:Ef.
    + destruct next as [k|]; [|done]. apply negb_true_iff in Ef. exists k, (u_new e). split; [by left|]. split; [right; by apply He|].
      intros ->. by rewrite memeq_refl in Ef.
    + assert (forall k, next = Some k -> k = u_new e) as Hn.
      { intros k ->. apply negb_false_iff in Ef. by apply memeq_true. }
      specialize (IH at_ (Some (u_new e))). cbv beta zeta in IH.
      assert (forall k, (next = Some k \/ exists x, x ∈ e :: todo /\ succ_counts revs root x = true /\ u_old x = at_ /\ u_new x = k) <->
        (Some (u_new e) = Some k \/ exists x, x ∈ todo /\ succ_counts revs root x = true /\ u_old x = at_ /\ u_new x = k)) as Hup.
      { intros k. split.
        - intros [Hk|(x & Hx & Hc & Ho & Hk)]; [left; f_equal; symmetry; by apply Hn|].
          apply elem_of_cons in Hx as [->|Hx]; [left; congruence|right; by exists x].
        - intros [[= <-]|(x & Hx & Hc & Ho & Hk)]; [right; by apply He|right; exists x; split; [by apply elem_of_cons; right|done]]. }
      destruct (next_loop todo revs root at_ (Some (u_new e))) as [[k|]|].
      * destruct IH as [H1 H2]. split; [by apply Hup|]. intros k' Hk'. by apply H2, Hup.
      * intros k Hk. by apply (IH k), Hup.
      * destruct IH as (k & k' & H1 & H2 & ?). exists k, k'. by rewrite !Hup.
Qed.

Lemma next_is at_ :
  match next_loop rows revs root at_ None with
  | Some (Some k) => follows at_ k
  | Some None => newest at_
  | None => exists e e', counted e /\ counted e' /\ u_old e = at_ /\ u_old e' = at_ /\ u_new e <> u_new e'
  end.
Proof.
  pose proof (next_loop_spec rows at_ None) as H. cbv beta zeta in H. unfold follows, newest, counted.
  destruct (next_loop rows revs root at_ None) as [[k|]|].
  - destruct H as [[?|(e & ? & ? & ? & ?)] H]; [done|]. split; [by exists e|]. intros x [? ?] ?. apply H. right. by exists x.
  - intros e [? ?] ?. apply (H (u_new e)). right. by exists e.
  - destruct H as (k & k' & [?|(e & ? & ? & ? & <-)] & [?|(e' & ? & ? & ? & <-)] & Hne); try done. by exists e, e'.
Qed.

Lemma resolve_loop_spec n : forall at_ k,
  resolve_loop n rows revs root at_ = Some k <-> exists m, (m < n)%nat /\ relations.nsteps follows m at_ k /\ newest k.
Proof.
  induction n as [|n IH]; intros at_ k; cbn [resolve_loop]; [split; [done|by intros (m & ? & _); lia]|].
  pose proof (next_is at_) as H. destruct (next_loop rows revs root at_ None) as [[k'|]|].
  - rewrite IH. split.
    + intros (m & Hm & Hs & Hn). exists (S m). split; [lia|]. split; [by econstructor|done].
    + intros ([|m] & Hm & Hs & Hn); inversion Hs; subst; [by destruct (follows_not_newest _ _ H Hn)|].
      exists m. split; [lia|]. split; [|done]. match goal with Hf : follows at_ ?y |- _ => by rewrite (follows_det _ _ _ H Hf) end.
  - split.
    + intros [= <-]. exists 0%nat. split; [lia|]. split; [constructor|done].
    + intros ([|m] & Hm & Hs & Hn); inversion Hs; subst; [done|]. exfalso. eauto using follows_not_newest.
  - split; [done|]. destruct H as (e & e' & He & He' & Ho & Ho' & Hne).
    intros ([|m] & Hm & Hs & Hn); inversion Hs; subst; [by destruct (Hn e)|].
    match goal with Hf : follows _ ?y |- _ => destruct Hf as [_ Hf]; destruct Hne; by rewrite (Hf e), (Hf e') end.
Qed.

(** A path is the only one of its length. *)
Lemma nsteps_det n : forall k k1 k2, relations.nsteps follows n k k1 -> relations.nsteps follows n k k2 -> k1 = k2.
Proof.
  induction n as [|n IH]; intros k k1 k2 H1 H2; inversion H1; inversion H2; subst; [done|].
  match goal with Ha : follows k ?a, Hb : follows k ?b |- _ => assert (a = b) as -> by (by eapply follows_det) end. eauto.
Qed.

Lemma nsteps_newest n m k k1 k2 : relations.nsteps follows n k k1 -> relations.nsteps follows m k k2 -> newest k2 -> (n <= m)%nat.
Proof.
  revert m k. induction n as [|n IH]; intros [|m] k H1 H2 Hn; try lia; inversion H1; inversion H2; subst.
  - exfalso. eauto using follows_not_newest.
  - match goal with Ha : follows k ?a, Hb : follows k ?b |- _ => assert (a = b) as -> by (by eapply follows_det) end.
    apply le_n_S. eauto.
Qed.
End Resolve.

Lemma counted_ext rows rows' revs root : (forall e, e ∈ rows <-> e ∈ rows') -> forall e, counted rows revs root e <-> counted rows' revs root e.
Proof. intros H e. unfold counted. by rewrite H. Qed.

Lemma nsteps_ext {A} (R R' : A -> A -> Prop) n : (forall x y, R x y -> R' x y) -> forall x y, relations.nsteps R n x y -> relations.nsteps R' n x y.
Proof. intros H x y. induction 1; econstructor; eauto. Qed.

(** Who a key is now. The answer is the key at the end of the successions
    that count: at most sixteen of them, each the only key that the counting
    successions of the one before name, ending at a key that none succeeds. No
    other answer is ever given: where two that count name different keys, or
    where the successions run in a circle, nobody is named. Two hosts that
    hold the same successions, in whatever order, answer alike. *)
Theorem succession_resolves s revs root key :
  sound_set s = true ->
  let follows := follows (succ_rows s) revs root in
  let newest := newest (succ_rows s) revs root in
  (forall k, fzn_succession_resolve s revs root key = Some k <->
     exists n, Z.of_nat n <= FZN_SUCCESSION_DEPTH_MAX /\ relations.nsteps follows n key k /\ newest k) /\
  (forall n k i j, relations.nsteps follows n key k -> u_new i <> u_new j ->
     counted (succ_rows s) revs root i -> counted (succ_rows s) revs root j -> u_old i = k -> u_old j = k ->
     fzn_succession_resolve s revs root key = None) /\
  (forall n m k, relations.nsteps follows n key k -> relations.nsteps follows (S m) k k ->
     fzn_succession_resolve s revs root key = None) /\
  (forall s', sound_set s' = true -> (forall e, e ∈ succ_rows s <-> e ∈ succ_rows s') ->
     fzn_succession_resolve s' revs root key = fzn_succession_resolve s revs root key).
Proof.
  intros Hs fo ne.
  assert (forall s k, sound_set s = true -> fzn_succession_resolve s revs root key = Some k <->
    exists n, (n < 17)%nat /\ relations.nsteps (follows (succ_rows s) revs root) n key k /\ newest (succ_rows s) revs root k) as Hres.
  { intros s0 k Hs0. unfold fzn_succession_resolve. rewrite Hs0. cbn [negb]. apply resolve_loop_spec. }
  split; [|split; [|split]].
  - intros k. rewrite Hres by done. change FZN_SUCCESSION_DEPTH_MAX with 16. split; intros (n & Hn & ?); exists n; (split; [lia|done]).
  - intros n k i j Hk Hne Hi Hj Hoi Hoj. destruct (fzn_succession_resolve s revs root key) as [k'|] eqn:E; [|done]. exfalso.
    apply Hres in E as (m & _ & Hm & Hnew); [|done]. pose proof (nsteps_newest _ _ _ _ _ _ _ _ Hk Hm Hnew) as Hle.
    replace m with (n + (m - n))%nat in Hm by lia. apply relations.nsteps_add_inv in Hm as (k1 & H1 & H2).
    rewrite (nsteps_det _ _ _ _ _ _ _ H1 Hk) in H2. inversion H2 as [|? ? ? ? [_ Hf]]; subst; [by destruct (Hnew i)|].
    apply Hne. by rewrite (Hf i), (Hf j).
  - intros n m k Hk Hc. destruct (fzn_succession_resolve s revs root key) as [k'|] eqn:E; [|done]. exfalso.
    apply Hres in E as (l & _ & Hl & Hnew); [|done].
    assert (forall q, exists p, (q <= p)%nat /\ relations.nsteps fo p key k) as Hlong.
    { induction q as [|q (p & Hp & Hsp)]; [exists n; split; [lia|done]|]. exists (p + S m)%nat. split; [lia|].
      by eapply relations.nsteps_trans. }
    destruct (Hlong (S l)) as (p & Hp & Hsp). pose proof (nsteps_newest _ _ _ _ _ _ _ _ Hsp Hl Hnew). lia.
  - intros s' Hs' Hsame. apply option_eq. intros k. rewrite !Hres by done.
    assert (forall e, counted (succ_rows s) revs root e <-> counted (succ_rows s') revs root e) as Hc by (by apply counted_ext).
    assert (forall x y, follows (succ_rows s) revs root x y <-> follows (succ_rows s') revs root x y) as Hf
      by (intros x y; unfold follows; by setoid_rewrite Hc).
    assert (forall x, newest (succ_rows s) revs root x <-> newest (succ_rows s') revs root x) as Hn
      by (intros x; unfold newest; by setoid_rewrite Hc).
    split; intros (n & ? & Hst & ?); exists n; (split; [done|split; [|by apply Hn]]); (eapply nsteps_ext; [|exact Hst]); intros; by apply Hf.
Qed.

(** ** What a set holds *)

Section Held.
Context (ops : fzn_sign_ops) (vf : bytes -> bytes -> bytes -> bool) (hash : fzn_hash_ops).
Context (Hvf : verify ops = Some vf).

(** The row states a record its issuer signed. *)
Definition states_signed (e : fzn_succession) : Prop :=
  exists b, fzn_succession_open b = (FZN_CHAIN_OK, Some b) /\ hash FZN_SUCCESSION_ID_LEN b = Some (u_id e) /\
    e = succession_of b (u_id e) /\ u_old e <> u_new e /\
    vf (u_issuer e) (slice 0 FZN_SUCCESSION_BODY_LEN b) (slice FZN_SUCCESSION_OFF_SIGNATURE FZN_SIG_LEN b) = true.

Record sset_ok (s : fzn_succession_set) : Prop := {
  so_entries : exists es, ss_entries s = Some es /\ zlen es = ss_capacity s;
  so_used : 0 <= ss_used s <= ss_capacity s;
  so_hash : ss_hash s = Some hash;
  so_ids : NoDup (u_id <$> succ_rows s);
  so_signed : Forall states_signed (succ_rows s)
}.

Lemma sset_ok_sound s : sset_ok s -> sound_set s = true.
Proof.
  intros [(es & E & _) Hu Hh _ _]. unfold sound_set. rewrite E, Hh. cbn. apply Z.leb_le. lia.
Qed.

(** A call on a set, beside the store of revocations. *)
Inductive succ_op :=
| SuccAdmit (b : bytes) (hops : list (option fzn_chain_hop)) (root : bytes)
| SuccUse (es : list fzn_succession).

Definition succ_step (w : fzn_succession_set * fzn_revocation_store) (op : succ_op) : fzn_succession_set * fzn_revocation_store :=
  match op with
  | SuccAdmit b hops root => let '(_, s, revs) := fzn_succession_admit (fst w) (snd w) b hops root ops in (s, revs)
  | SuccUse es => (snd (fzn_succession_set_use (fst w) (Some es) (zlen es)), snd w)
  end.

Lemma with_succession_rows s e : sset_ok s -> ss_used s < ss_capacity s ->
  succ_rows (with_succession s e) = succ_rows s ++ [e].
Proof.
  intros [(es & E & Hl) Hu _ _ _] Hc. unfold succ_rows, with_succession. cbn. rewrite E. cbn.
  replace (Z.to_nat (ss_used s + 1)) with (S (Z.to_nat (ss_used s))) by lia. apply take_write. unfold zlen in Hl. lia.
Qed.

Lemma keep_ok s b : sset_ok s -> fzn_succession_open b = (FZN_CHAIN_OK, Some b) ->
  vf (fzn_succession_issuer b) (slice 0 FZN_SUCCESSION_BODY_LEN b) (slice FZN_SUCCESSION_OFF_SIGNATURE FZN_SIG_LEN b) = true ->
  let s' := snd (keep_succession s b b) in sset_ok s' /\ exists more, succ_rows s' = succ_rows s ++ more.
Proof.
  intros Hs Ho Hv. unfold keep_succession. rewrite (so_hash _ Hs).
  assert (sset_ok s /\ exists more, succ_rows s = succ_rows s ++ more) as Hsame by (split; [done|exists []; by rewrite app_nil_r]).
  destruct (hash FZN_SUCCESSION_ID_LEN b) as [id|] eqn:Eh; [|done].
  destruct (existsb _ _) eqn:Ee; [done|]. destruct (Z.geb_spec (ss_used s) (ss_capacity s)); [done|]. cbn [snd]. cbv zeta.
  pose proof (with_succession_rows s (succession_of b id) Hs ltac:(lia)) as Hrows.
  split; [|rewrite Hrows; by eexists]. destruct Hs as [(es & E & Hl) Hu Hh Hid Hsg]. split.
  - unfold with_succession. cbn. rewrite E. cbn. eexists. split; [done|]. unfold zlen in *. by rewrite length_insert.
  - cbn. lia.
  - done.
  - rewrite Hrows, fmap_app. apply list.NoDup_app. split; [done|]. split; [|apply NoDup_singleton].
    intros x Hx Hx'. apply list_elem_of_singleton in Hx' as ->. apply list_elem_of_fmap in Hx as (e & He & Hin).
    apply list_elem_of_lookup in Hin as [i Hi]. apply not_true_iff_false in Ee. apply Ee, existsb_lookup. exists i, e.
    split; [done|]. apply memeq_true. by rewrite <- He.
  - rewrite Hrows. apply Forall_app. split; [done|]. apply Forall_singleton. exists b. split; [done|]. split; [done|]. split; [done|].
    split; [|done]. cbn. unfold fzn_succession_open in Ho. destruct (_ || _); [done|].
    destruct (memeq (fzn_succession_old b) _) eqn:Em; [done|]. intros E'. rewrite E', memeq_refl in Em. done.
Qed.

Lemma open_self b err r : fzn_succession_open b = (err, Some r) -> err = FZN_CHAIN_OK /\ r = b.
Proof. unfold fzn_succession_open. destruct (_ || _); [done|]. destruct (memeq _ _); [done|]. by intros [= <- <-]. Qed.

Lemma succ_step_ok w op : sset_ok (fst w) ->
  let w' := succ_step w op in sset_ok (fst w') /\ exists more, succ_rows (fst w') = succ_rows (fst w) ++ more.
Proof using Hvf.
  destruct w as [s revs]. cbn [fst]. intros Hs.
  assert (sset_ok s /\ exists more, succ_rows s = succ_rows s ++ more) as Hsame by (split; [done|exists []; by rewrite app_nil_r]).
  destruct op as [b hops root|es]; cbn [succ_step fst snd].
  - unfold fzn_succession_admit. rewrite Hvf, (sset_ok_sound s Hs). cbn [negb].
    destruct (fzn_succession_open b) as [err r] eqn:Ho. destruct err; try done. destruct r as [r|]; [|done].
    pose proof (open_self _ _ _ Ho) as [_ ->]. destruct (_ && _); [done|].
    destruct (vf _ _ _) eqn:Hv; cbn [negb]; [|done].
    destruct (if zlen hops >? 0 then _ else _) as [[] revs']; try done.
    pose proof (keep_ok s b Hs Ho Hv) as Hk. by destruct (keep_succession s b b) as [err s'].
  - unfold fzn_succession_set_use. rewrite (sset_ok_sound s Hs). cbn [negb orb].
    destruct (Z.eqb_spec (zlen es) 0); [done|]. destruct (Z.ltb_spec (zlen es) (ss_used s)); [done|]. cbn [orb snd]. cbv zeta.
    assert (Z.to_nat (ss_used s) = length (succ_rows s)) as Hn.
    { destruct Hs as [(es0 & E & Hl) Hu _ _ _]. unfold succ_rows. rewrite E. cbn. rewrite length_take. unfold zlen in Hl. lia. }
    set (s' := mk_sset _ _ _ _). assert (succ_rows s' = succ_rows s) as Hrows.
    { change (take (Z.to_nat (ss_used s)) (succ_rows s ++ drop (length (succ_rows s)) es) = succ_rows s).
      rewrite Hn. apply take_app_length. }
    split; [|exists []; by rewrite Hrows, app_nil_r]. destruct Hs as [_ Hu Hh Hid Hsg]. split; cbn; [|lia|done|by rewrite Hrows|by rewrite Hrows].
    eexists. split; [done|]. apply zlen_blit; [done|]. unfold zlen in *. lia.
Qed.
End Held.

(** A host holds what was signed, and keeps it. From an empty set, after
    any run of admissions and moves to larger tables, every succession held
    states a record that opens, that its issuer's key signed, that names two
    keys and whose hash is its id; no two have one id; and what was held
    stays held, in its place. *)
Theorem held_successions_are_signed ops vf hash s0 es revs before after :
  verify ops = Some vf -> es <> [] ->
  let start := (snd (fzn_succession_set_init s0 (Some es) (zlen es) (Some hash)), revs) in
  let w1 := fold_left (succ_step ops) before start in
  let w2 := fold_left (succ_step ops) after w1 in
  Forall (states_signed vf hash) (succ_rows (fst w2)) /\ NoDup (u_id <$> succ_rows (fst w2)) /\
  zlen (succ_rows (fst w2)) <= ss_capacity (fst w2) /\
  exists more, succ_rows (fst w2) = succ_rows (fst w1) ++ more.
Proof.
  intros Hvf Hes start w1 w2.
  assert (forall ops_ w, sset_ok vf hash (fst w) -> sset_ok vf hash (fst (fold_left (succ_step ops) ops_ w)) /\
    exists more, succ_rows (fst (fold_left (succ_step ops) ops_ w)) = succ_rows (fst w) ++ more) as Hrun.
  { induction ops_ as [|op ops_ IH]; intros w Hw; cbn [fold_left]; [split; [done|exists []; by rewrite app_nil_r]|].
    destruct (succ_step_ok ops vf hash Hvf w op Hw) as [Hw' [m1 E1]]. destruct (IH _ Hw') as [Hw2 [m2 E2]].
    split; [done|]. exists (m1 ++ m2). by rewrite E2, E1, app_assoc. }
  assert (sset_ok vf hash (fst start)) as Hstart.
  { unfold start, fzn_succession_set_init. cbn [is_null orb]. destruct (Z.eqb_spec (zlen es) 0) as [E|_]; [unfold zlen in E; by destruct es|].
    cbn. pose proof (zlen_nonneg es). split; cbn; [by exists es|lia|done|apply NoDup_nil_2|done]. }
  destruct (Hrun before start Hstart) as [H1 _]. destruct (Hrun after w1 H1) as [H2 Hm]. fold w2 in H2, Hm.
  destruct H2 as [(es2 & E & Hl) Hu _ Hid Hsg]. split; [done|]. split; [done|]. split; [|done].
  unfold succ_rows. rewrite E. unfold zlen in *. cbn. rewrite length_take. lia.
Qed.

Definition demo_skey (x : Z) : bytes := replicate 32 x.
Definition demo_succ (issuer old new id : Z) : fzn_succession :=
  mk_succ (demo_skey issuer) (demo_skey old) (demo_skey new) (zeros 32) (demo_skey id).

(** Key 9 is the root, and key 8 is nobody. *)
Definition demo_sset : fzn_succession_set :=
  mk_sset (Some [demo_succ 9 1 2 11; demo_succ 9 2 3 12; demo_succ 8 3 4 13; demo_succ 9 5 6 14; demo_succ 9 6 5 15]) 5 5
    (Some (fun n _ => Some (zeros n))).
Definition demo_revs : fzn_revocation_store :=
  mk_store (Some []) 0 1 1 false [] None 0 None None None 0 None None.

Lemma succession_resolves_witness :
  fzn_succession_resolve demo_sset demo_revs (demo_skey 9) (demo_skey 1) = Some (demo_skey 3) /\
  newest (succ_rows demo_sset) demo_revs (demo_skey 9) (demo_skey 3) /\
  fzn_succession_resolve demo_sset demo_revs (demo_skey 9) (demo_skey 5) = None.
Proof.
  assert (fzn_succession_resolve demo_sset demo_revs (demo_skey 9) (demo_skey 1) = Some (demo_skey 3)) as E by (vm_compute; reflexivity).
  split; [exact E|]. split; [|vm_compute; reflexivity].
  destruct (succession_resolves demo_sset demo_revs (demo_skey 9) (demo_skey 1) ltac:(vm_compute; reflexivity)) as [H _].
  apply H in E as (n & _ & _ & Hn). exact Hn.
Defined.

Lemma held_successions_are_signed_witness :
  let hash := fun n b => Some (slice 66 n b) in
  let start := (snd (fzn_succession_set_init (mk_sset None 0 0 None) (Some (replicate 2 (demo_succ 0 0 0 0))) 2 (Some hash)), demo_revs) in
  let b := snd (fzn_succession_issue (demo_skey 9) (demo_skey 1) (demo_skey 2) None toy_ops (zeros 194)) in
  let w := succ_step toy_ops start (SuccAdmit b [] (demo_skey 9)) in
  length (succ_rows (fst w)) = 1%nat /\
  Forall (states_signed (fun _ _ sig => memeq sig (zeros 64)) hash) (succ_rows (fst w)).
Proof.
  intros hash start b w. split; [vm_compute; reflexivity|].
  destruct (held_successions_are_signed toy_ops (fun _ _ sig => memeq sig (zeros 64)) hash (mk_sset None 0 0 None)
    (replicate 2 (demo_succ 0 0 0 0)) demo_revs [] [SuccAdmit b [] (demo_skey 9)] eq_refl ltac:(discriminate)) as [H _].
  exact H.
Defined.
