(* ===== verification/RevocationStore.v ===== *)
(** * The revocation store over its life

    The effect of every admission on the rows, the invariant every operation
    keeps, and what follows: who may change a row, that a revocation stands
    until its own issuer withdraws it, that a revocation and its withdrawal
    may arrive in either order, and that forged records are inert. *)

From S2P Require Import Prelude Bytes Hop Revocation RevocationRule Manifest Chain RevocationAdmit.

(** ** The effect of a store on the rows in use *)

Lemma rows_put s k e :
  (k < length (rows s))%nat -> rows (put_entry s k e) = <[ k := e ]> (rows s).
Proof.
  unfold rows, put_entry, in_table. cbn. destruct (entries s) as [tab|]; cbn; [|lia].
  rewrite length_take. intros. by rewrite take_insert_lt by lia.
Qed.

Lemma take_insert_end {A} (l : list A) n x :
  0 <= n < zlen l -> take (Z.to_nat (n + 1)) (<[ Z.to_nat n := x ]> l) = take (Z.to_nat n) l ++ [x].
Proof.
  unfold zlen. intros. replace (Z.to_nat (n + 1)) with (S (Z.to_nat n)) by lia.
  rewrite (take_S_r _ _ x) by (apply list_lookup_insert_eq; lia).
  by rewrite take_insert_ge by lia.
Qed.

Lemma rows_append s e :
  0 <= used s < capacity s -> rows (append_entry s e) = rows s ++ [e].
Proof.
  unfold rows, append_entry, capacity, table_capacity, in_table. cbn.
  destruct (entries s) as [tab|]; cbn; [|lia]. apply take_insert_end.
Qed.

Lemma zlen_insert {A} (l : list A) i x : zlen (<[ i := x ]> l) = zlen l.
Proof. unfold zlen. by rewrite length_insert. Qed.

Lemma find_entry_row s i c g k :
  find_entry s i c g = Some k ->
  exists e, rows s !! k = Some e /\ triple e = (i, c, g).
Proof.
  unfold find_entry. intros (e & He & Hs & _)%find_index_Some. exists e. split; [done|].
  unfold same in Hs. bool_props. unfold triple. congruence.
Qed.

Lemma same_triple e i c g : same e i c g = true <-> triple e = (i, c, g).
Proof.
  unfold same, triple. rewrite !andb_true_iff, !memeq_true. split; [intros [[]]|intros [=]]; naive_solver congruence.
Qed.

Lemma find_entry_None s i c g :
  find_entry s i c g = None <-> (i, c, g) ∉ triple <$> rows s.
Proof.
  unfold find_entry. rewrite find_index_None, list_elem_of_fmap. split.
  - intros H (e & Ht & [k Hk]%list_elem_of_lookup). specialize (H k e Hk).
    symmetry in Ht. apply same_triple in Ht. congruence.
  - intros H k e Hk. destruct (same e i c g) eqn:Hs; [|done]. apply same_triple in Hs.
    destruct H. exists e. split; [done|]. by eapply list_elem_of_lookup_2.
Qed.

(** ** What an admission does to the rows *)

Definition rec_triple (rec : bytes) : bytes * bytes * bytes :=
  (fzn_revocation_issuer rec, fzn_revocation_capability rec, fzn_revocation_grantee rec).

(** The rows a record with identity [id] may make of [l]: none changed, its
    own triple's row rewritten, or a row of its triple added. *)
Inductive row_step (rec id : bytes) (l : list fzn_revocation) : list fzn_revocation -> Prop :=
| row_same : row_step rec id l l
| row_write k e e' :
    l !! k = Some e -> triple e = rec_triple rec -> triple e' = rec_triple rec -> r_held e' = id ->
    (r_withdrawn e' = false \/ r_withdrawn e' = r_withdrawn e \/ fzn_revocation_is_withdrawal rec = true) ->
    row_step rec id l (<[ k := e' ]> l)
| row_add e' :
    rec_triple rec ∉ triple <$> l -> triple e' = rec_triple rec -> r_held e' = id ->
    row_step rec id l (l ++ [e']).

(** What of a store an admission of a record leaves alone. *)
Definition same_shape (s s' : fzn_revocation_store) : Prop :=
  capacity s' = capacity s /\ (is_null (entries s') = is_null (entries s)) /\
  used s <= used s' /\ (used s' <> used s -> used s < capacity s /\ used s' = used s + 1) /\
  quorum s' = quorum s /\ has_admin s' = has_admin s /\ admin_capability s' = admin_capability s /\
  roots s' = roots s /\ confirms s' = confirms s /\ confirms_used s' = confirms_used s /\
  confirm_hash s' = confirm_hash s /\ acts s' = acts s.

Ltac shape := unfold same_shape, capacity, table_capacity; cbn; rewrite ?zlen_insert; split_and!;
  try done; try lia.

Lemma put_shape s k e : entries s <> None -> same_shape s (put_entry s k e).
Proof. intros. unfold put_entry. destruct (entries s) eqn:E; [|done]. shape; by rewrite E. Qed.

Lemma bump_shape s s' : same_shape s s' -> same_shape s (bump s').
Proof. done. Qed.

Lemma append_shape s e : entries s <> None -> used s < capacity s -> same_shape s (append_entry s e).
Proof.
  unfold capacity, table_capacity, append_entry. intros. destruct (entries s) eqn:E; [|done].
  shape; by rewrite ?E.
Qed.

Lemma shape_refl s : same_shape s s.
Proof. shape. Qed.

#[export] Hint Resolve shape_refl put_shape append_shape : fzn.

Lemma is_null_None {A} (t : option A) : is_null t = false -> t <> None.
Proof. by destruct t. Qed.

(** What [fzn_revocation_covers] and the line read of a row. *)
Definition quiet (e : fzn_revocation) : (bytes * bytes * bytes) * bool * bytes :=
  (triple e, r_withdrawn e, r_cut e).

(** One admission, past the standing of its issuer. *)
Record step_ok (s : fzn_revocation_store) (rec id : bytes) (err : fzn_chain_err)
    (s' : fzn_revocation_store) : Prop := {
  st_rows : row_step rec id (rows s) (rows s');
  st_shape : same_shape s s';
  st_admins : admins s' = admins s /\ admins_used s' = admins_used s;
  st_generation : in_u64 (generation s) -> in_u64 (generation s');
  st_quiet : generation s' = u64 (generation s + 1) \/
    (generation s' = generation s /\ quiet <$> rows s' = quiet <$> rows s);
  st_error : err <> FZN_CHAIN_OK -> s' = s
}.

Lemma step_none s rec id err : step_ok s rec id err s.
Proof. split; auto with fzn. constructor. Qed.

(** A row rewritten, with the generation moved or, where nothing [quiet] shows
    has changed, left. *)
Lemma step_put s rec id k e e' :
  entries s <> None -> rows s !! k = Some e -> triple e = rec_triple rec ->
  triple e' = triple e -> r_held e' = id ->
  (r_withdrawn e' = false \/ r_withdrawn e' = r_withdrawn e \/ fzn_revocation_is_withdrawal rec = true) ->
  step_ok s rec id FZN_CHAIN_OK (bump (put_entry s k e')) /\
  (quiet e' = quiet e -> step_ok s rec id FZN_CHAIN_OK (put_entry s k e')).
Proof.
  intros Hne Hk Ht Ht' Hh Hw.
  assert (rows (put_entry s k e') = <[k := e']> (rows s)) as Hr
    by (apply rows_put; by eapply lookup_lt_Some).
  assert (row_step rec id (rows s) (rows (put_entry s k e')))
    by (rewrite Hr; econstructor; eauto; congruence).
  split; [|intros Hq]; (split; auto with fzn; try done; try (intros; apply u64_range)).
  - by apply bump_shape, put_shape.
  - right. split; [done|]. rewrite Hr, list_fmap_insert, list_insert_id; [done|].
    rewrite list_lookup_fmap, Hk. cbn. by rewrite Hq.
Qed.

Lemma step_append s rec id e' :
  entries s <> None -> 0 <= used s < capacity s -> rec_triple rec ∉ triple <$> rows s ->
  triple e' = rec_triple rec -> r_held e' = id -> step_ok s rec id FZN_CHAIN_OK (append_entry s e').
Proof.
  intros. split; auto; [| |by intros; apply u64_range|done].
  - rewrite rows_append by done. by constructor.
  - apply append_shape; [done|lia].
Qed.

Lemma withdrawal_step s rec id at_ err s' :
  entries s <> None -> 0 <= used s -> fzn_revocation_is_withdrawal rec = true ->
  match at_ with
  | None => rec_triple rec ∉ triple <$> rows s
  | Some (k, e) => rows s !! k = Some e /\ triple e = rec_triple rec
  end ->
  admit_withdrawal s rec id at_ = (err, s') -> step_ok s rec id err s'.
Proof.
  intros Hne Hu Hw Hat. unfold admit_withdrawal. destruct at_ as [[k e]|].
  - destruct Hat. guards; intros [= <- <-]; try apply step_none; eapply step_put; eauto.
    unfold quiet, triple. cbn. congruence.
  - guards; intros [= <- <-]; [apply step_none|apply step_append; auto; lia].
Qed.

Lemma over_withdrawn_step s rec id k e err s' :
  entries s <> None -> rows s !! k = Some e -> triple e = rec_triple rec ->
  admit_over_withdrawn s rec id k e = (err, s') -> step_ok s rec id err s'.
Proof.
  intros Hne Hk Ht. unfold admit_over_withdrawn. guards; intros [= <- <-]; try apply step_none.
  eapply step_put; eauto.
Qed.

Lemma over_live_step s rec id k e err s' :
  entries s <> None -> rows s !! k = Some e -> triple e = rec_triple rec ->
  admit_over_live s rec id k e = (err, s') -> step_ok s rec id err s'.
Proof.
  intros Hne Hk Ht. unfold admit_over_live. guards; intros [= <- <-]; try apply step_none;
    eapply step_put; eauto.
Qed.

(** The tail of the admission is a step on the rows. *)
Lemma store_record_step s rec id man err s' man' :
  entries s <> None -> 0 <= used s ->
  store_record s rec id man = (err, s', man') -> step_ok s rec id err s'.
Proof.
  intros Hne Hu. unfold store_record.
  destruct (find_entry s _ _ _) as [k|] eqn:Hf; cbn [mbind option_bind].
  - apply find_entry_row in Hf as (e & Hk & Ht). rewrite Hk. cbn [fmap option_fmap option_map].
    guards; intros [H _]%pair_equal_spec.
    + by eapply (withdrawal_step s rec id (Some (k, e))).
    + by eapply over_withdrawn_step.
    + by eapply over_live_step.
  - apply find_entry_None in Hf. guards;
      [intros [H _]%pair_equal_spec; by eapply (withdrawal_step s rec id None)|].
    unfold admit_new. destruct (used s >=? capacity s) eqn:Hc; intros [= <- <- _];
      [apply step_none|apply step_append; auto; lia].
Qed.

(** ** Standing *)

(** An admin kept, or the store as it was. *)
Definition admin_step (s s' : fzn_revocation_store) : Prop :=
  s' = s \/
  exists tab ad, admins s = Some tab /\ admins_used s < zlen tab /\ find_admin s (a_key ad) = None /\
    s' = bump (with_admins s (<[ Z.to_nat (admins_used s) := ad ]> tab) (admins_used s + 1)).

(** The chain verifies, from a root, to [issuer], for [capability]. *)
Definition chain_reaches (s : fzn_revocation_store) (hops : list (option fzn_chain_hop)) (root : bytes)
    (ops : fzn_sign_ops) (capability issuer : bytes) : Prop :=
  exists c, fzn_chain_verify hops (chain_root s hops root) capability 0 ops None None
            = (FZN_CHAIN_OK, Some c) /\ ch_grantee c = issuer.

Lemma entitled_as_admin_step s issuer hops root ops hash err s' :
  entitled_as_admin s issuer hops root ops hash = (err, s') ->
  admin_step s s' /\ (err <> FZN_CHAIN_OK -> s' = s) /\
  (err = FZN_CHAIN_OK -> chain_reaches s hops root ops (admin_capability s) issuer).
Proof.
  unfold entitled_as_admin, chain_reaches.
  destruct (_ || _); [intros [= <- <-]; split_and!; by try left|].
  destruct (fzn_chain_verify _ _ _ _ _ _ _) as [e v] eqn:Hv.
  destruct e, v as [v|]; try (intros [= <- <-]; split_and!; by try left);
    try (by apply verify_none in Hv).
  assert (Hv' := Hv). apply verify_ok_iff in Hv' as (hs & vf & -> & _). rewrite opened_some.
  destruct (memeq (ch_grantee v) issuer) eqn:Hm; cbn [negb];
    [|intros [= <- <-]; split_and!; by try left].
  apply memeq_true in Hm. destruct (admin_row _ _ _ _) as [ad|];
    [|intros [= <- <-]; split_and!; by try left].
  destruct (find_admin s (a_key ad)) as [a|] eqn:Hf.
  - case_bool_decide; intros [= <- <-]; split_and!; try (by left); try done. by exists v.
  - destruct (admins s) as [tab|] eqn:Ha; [|intros [= <- <-]; split_and!; by try left].
    destruct (admins_used s >=? zlen tab) eqn:Hu; intros [= <- <-]; split_and!; try (by left); try done.
    + right. exists tab, ad. split_and!; auto. lia.
    + by exists v.
Qed.

(** The issuer of [rec] may speak about its pair: it is the root or a member of
    the root set; or a chain the offer carries gives it the capability, to pass
    on; or one makes it an admin. *)
Definition has_standing (s : fzn_revocation_store) (rec : bytes) (hops : list (option fzn_chain_hop))
    (root : bytes) (ops : fzn_sign_ops) : Prop :=
  let issuer := fzn_revocation_issuer rec in
  (hops = [] /\ (issuer = root \/ root_member s issuer = true)) \/
  (hops <> [] /\ last_delegable hops = true /\
   chain_reaches s hops root ops (fzn_revocation_capability rec) issuer) \/
  (hops <> [] /\ has_admin s = true /\ chain_reaches s hops root ops (admin_capability s) issuer).

Lemma zlen_0 {A} (l : list A) : (zlen l =? 0) = true <-> l = [].
Proof. unfold zlen. destruct l; cbn [length]; [done|]. split; [lia|done]. Qed.

Lemma standing_step s rec hops root ops hash err s' :
  standing s rec hops root ops hash = (err, s') ->
  admin_step s s' /\ (err <> FZN_CHAIN_OK -> s' = s) /\
  (err = FZN_CHAIN_OK -> hops <> [] -> has_standing s rec hops root ops).
Proof.
  unfold standing. destruct (zlen hops =? 0) eqn:Hz.
  { apply zlen_0 in Hz as ->. intros [= <- <-]. split_and!; by try left. }
  destruct (has_admin s && _) eqn:Ha.
  - intros (Hs & Hne & Hok)%entitled_as_admin_step. split_and!; auto. intros Herr Hh.
    apply andb_true_iff in Ha as [Ha _]. right. right. auto.
  - intros [= <- <-]. split_and!; [by left|done|]. intros Herr Hh. right. left.
    unfold entitled_by_chain in Herr. destruct (zlen hops >=? _); [done|].
    destruct (fzn_chain_verify _ _ _ _ _ _ _) as [e v] eqn:Hv.
    destruct e, v as [v|]; try done; [|by apply verify_none in Hv].
    destruct (memeq _ _) eqn:Hm; [|done]. destruct (last_delegable hops) eqn:Hl; [|done].
    split_and!; auto. apply memeq_true in Hm. by exists v.
Qed.

(** ** An admission whole *)

(** An admission that changes anything but the admins took a record its issuer
    signed and was entitled to issue. *)
Lemma admission_cases s offer root ops hash man err s' man' :
  entries s <> None -> 0 <= used s ->
  fzn_revocation_admit s offer root ops hash man = (err, s', man') ->
  (s' = s /\ err <> FZN_CHAIN_OK) \/
  exists s1 rec vf id,
    o_record offer = Some rec /\ verify ops = Some vf /\
    vf (fzn_revocation_issuer rec) (fzn_revocation_signed_bytes rec) (fzn_revocation_signature rec)
      = true /\
    has_standing s rec (o_hops offer) root ops /\
    admin_step s s1 /\ step_ok s1 rec id err s'.
Proof.
  intros Hne Hu. unfold fzn_revocation_admit.
  destruct (entries s) as [tab|] eqn:He; [|done]. clear Hne.
  destruct (verify ops) as [vf|]; [|intros [= <- <- <-]; by left].
  destruct hash as [hash|]; [|intros [= <- <- <-]; by left].
  destruct (o_record offer) as [rec|]; [|intros [= <- <- <-]; by left].
  destruct (_ && _ && _) eqn:Hroot; [intros [= <- <- <-]; by left|].
  destruct (vf _ _ _) eqn:Hvf; cbn [negb]; [|intros [= <- <- <-]; by left].
  destruct (standing s rec _ root ops hash) as [e1 s1] eqn:Hst.
  apply standing_step in Hst as (Hstep & Hbad & Hgood).
  destruct (decide (e1 = FZN_CHAIN_OK)) as [->|Hn].
  2: { rewrite (Hbad Hn). destruct e1; try done; intros [= <- <- <-]; by left. }
  assert (has_standing s rec (o_hops offer) root ops) as Hhas.
  { destruct (decide (o_hops offer = [])) as [E|]; [|auto]. left. split; [done|].
    rewrite E in Hroot. cbn in Hroot. destruct (memeq _ root) eqn:Hm; [left; by apply memeq_true|].
    right. by destruct (root_member s _). }
  assert (entries s1 <> None /\ 0 <= used s1) as [Hne1 Hu1].
  { destruct Hstep as [->|(? & ? & _ & _ & _ & ->)]; cbn; by rewrite He. }
  intros H. right. destruct (used s1 >? capacity s1); [|destruct (hash _ _) as [id|]].
  - injection H as <- <- <-. exists s1, rec, vf, []. split_and!; auto. apply step_none.
  - exists s1, rec, vf, id. split_and!; auto. by eapply store_record_step.
  - injection H as <- <- <-. exists s1, rec, vf, []. split_and!; auto. apply step_none.
Qed.

(** ** The invariant *)

Definition pair_of (k : fzn_revocation_confirm) : bytes * bytes := (k_confirmer k, k_grant k).

Record store_ok (s : fzn_revocation_store) : Prop := {
  so_table : entries s <> None;
  so_used : 0 <= used s <= capacity s;
  so_triples : NoDup (triple <$> rows s);
  so_generation : in_u64 (generation s);
  so_admins : 0 <= admins_used s <= admin_capacity s;
  so_admins_max : admin_capacity s <= REVOCATION_ADMINS_MAX;
  so_keys : NoDup (a_key <$> admin_rows s);
  so_confirms : 0 <= confirms_used s <= confirm_capacity s;
  so_pairs : NoDup (pair_of <$> confirm_rows s)
}.

Lemma store_ok_sound s : store_ok s -> corrupt s = false.
Proof.
  intros [? ? _ _ ? _ _ ? _]. unfold corrupt, fzn_revocation_store_sound.
  destruct (entries s) eqn:He; [|done].
  unfold admin_capacity, confirm_capacity, table_capacity in *.
  destruct (used s >? capacity s) eqn:?; [lia|]. cbn [is_null]. rewrite andb_false_r.
  destruct (admins s), (confirms s); cbn [is_null]; rewrite ?andb_false_r, ?andb_true_r, ?orb_false_r;
    guards; try done; lia.
Qed.

Lemma NoDup_snoc {A} (l : list A) x : NoDup l -> x ∉ l -> NoDup (l ++ [x]).
Proof.
  intros Hl Hx. apply list.NoDup_app. split_and!; [done| |apply NoDup_singleton].
  intros y Hy ->%list_elem_of_singleton. done.
Qed.

Lemma row_step_nodup rec id l l' :
  row_step rec id l l' -> NoDup (triple <$> l) -> NoDup (triple <$> l').
Proof.
  intros [|k e e' Hk Ht Ht' _ _|e' Hn Ht' _] Hd; [done| |].
  - rewrite list_fmap_insert, list_insert_id; [done|]. rewrite list_lookup_fmap, Hk. cbn. congruence.
  - rewrite fmap_app. cbn. apply NoDup_snoc; [done|congruence].
Qed.

Lemma step_store_ok s rec id err s' : step_ok s rec id err s' -> store_ok s -> store_ok s'.
Proof.
  intros [Hr Hsh [Ha Hau] Hg _ _] Hok. unfold same_shape in Hsh.
  destruct Hsh as (Hc & He & Hu1 & Hu2 & _ & _ & _ & _ & Hk & Hku & _), Hok.
  assert (entries s' <> None) as Hne by (by destruct (entries s), (entries s')).
  unfold admin_capacity, admin_rows, confirm_capacity, confirm_rows in *.
  split; unfold admin_capacity, admin_rows, confirm_capacity, confirm_rows; rewrite ?Ha, ?Hau, ?Hk, ?Hku;
    auto; [|by eapply row_step_nodup].
  rewrite Hc. destruct (decide (used s' = used s)) as [E|[]%Hu2]; lia.
Qed.

Lemma admin_step_ok s s' : admin_step s s' -> store_ok s -> store_ok s'.
Proof.
  intros [->|(tab & ad & Ha & Hu & Hf & ->)] Hok; [done|]. destruct Hok.
  unfold admin_capacity, admin_rows, find_admin, in_table, table_capacity in *. rewrite Ha in *.
  split; unfold admin_capacity, admin_rows, in_table, table_capacity; cbn; auto using u64_range;
    rewrite ?zlen_insert; try lia.
  rewrite take_insert_end, fmap_app by lia. cbn. apply NoDup_snoc; [done|].
  intros (a & E & [k Hk]%list_elem_of_lookup)%list_elem_of_fmap.
  rewrite find_index_None in Hf. specialize (Hf k a).
  assert (memeq (a_key a) (a_key ad) = false) as Hm.
  { apply Hf. unfold admin_rows, in_table. by rewrite Ha. }
  rewrite <- E, memeq_refl in Hm. done.
Qed.

Lemma admit_store_ok s offer root ops hash man err s' man' :
  fzn_revocation_admit s offer root ops hash man = (err, s', man') -> store_ok s -> store_ok s'.
Proof.
  intros H Hok. destruct (Hok) as [Ht Hu _ _ _ _ _ _ _].
  apply admission_cases in H as [[-> _]|(s1 & rec & vf & id & _ & _ & _ & _ & Ha & Hs)]; [done| |done|lia].
  eauto using step_store_ok, admin_step_ok.
Qed.

Lemma merge_loop_ok offers root ops hash : forall s man n first n' first' s' man',
  merge_loop s offers root ops hash man n first = (n', first', s', man') -> store_ok s -> store_ok s'.
Proof.
  induction offers as [|o offers IH]; intros s man n first n' first' s' man' H Hok; cbn in H.
  { by simplify_eq. }
  destruct (fzn_revocation_admit s o root ops hash man) as [[e s1] man1] eqn:E.
  apply admit_store_ok in E; [|done]. guards; eauto.
Qed.

Lemma store_confirm_ok s tab hash b confirmer grant err s' :
  confirms s = Some tab -> store_confirm s tab hash b confirmer grant = (err, s') ->
  store_ok s -> store_ok s'.
Proof.
  intros Htab H [? ? ? ? ? ? ? Hcu Hp]. unfold store_confirm in H.
  assert (store_ok s) by done.
  destruct (existsb _ _) eqn:Hx; [by simplify_eq|].
  destruct (confirms_used s >=? zlen tab) eqn:Hc; [by simplify_eq|].
  destruct (hash _ _) as [act|]; simplify_eq; [|done].
  unfold confirm_capacity, confirm_rows, in_table, table_capacity in *. rewrite Htab in *.
  split; unfold confirm_capacity, confirm_rows, in_table, table_capacity; cbn;
    auto using u64_range; rewrite ?zlen_insert; try lia.
  rewrite take_insert_end, fmap_app by lia. apply NoDup_snoc; [done|].
  intros (k & E & [i Hk]%list_elem_of_lookup)%list_elem_of_fmap.
  rewrite <- not_true_iff_false, existsb_lookup in Hx. apply Hx. exists i, k. split; [done|].
  unfold pair_of in E. cbn in E. injection E as -> ->. by rewrite !memeq_refl.
Qed.

(** ** Histories *)

(** Every operation that writes a store. *)
Inductive store_op :=
| op_admit (offer : fzn_revocation_offer) (hash : option fzn_hash_ops) (man : option fzn_manifest_state)
| op_merge (offers : list fzn_revocation_offer) (hash : option fzn_hash_ops)
    (man : option fzn_manifest_state)
| op_admin_admit (key : bytes) (hops : list (option fzn_chain_hop))
| op_confirm_admit (b : bytes) (hops : list (option fzn_chain_hop))
| op_use (es : list fzn_revocation)
| op_use_confirmations (table : list fzn_revocation_confirm)
| op_set_confirmations (table : list fzn_revocation_confirm) (hash : option fzn_hash_ops)
| op_set_roots (r : option (option (bytes -> bool) * option (bytes -> bytes -> bool))) (hash : option fzn_hash_ops)
| op_set_k (k : Z)
| op_set_quorum (k : Z) (cap : option bytes) (table : option (list fzn_revocation_admin))
| op_set_acts (log : option (option fzn_act_log_ops)).

Section Histories.
Context (root : bytes) (ops : fzn_sign_ops).

Definition run_op (op : store_op) (s : fzn_revocation_store) : fzn_revocation_store :=
  match op with
  | op_admit offer hash man => snd (fst (fzn_revocation_admit s offer root ops hash man))
  | op_merge offers hash man => snd (fst (fzn_revocation_merge s offers root ops hash man))
  | op_admin_admit key hops => snd (fzn_revocation_admin_admit s key hops root ops)
  | op_confirm_admit b hops => snd (fzn_revocation_confirm_admit s b hops root ops)
  | op_use es => snd (fzn_revocation_store_use s es)
  | op_use_confirmations t => snd (fzn_revocation_store_use_confirmations s t)
  | op_set_confirmations t hash => snd (fzn_revocation_store_set_confirmations s t hash)
  | op_set_roots r hash => snd (fzn_revocation_store_set_roots s r hash)
  | op_set_k k => snd (fzn_revocation_store_set_k s k)
  | op_set_quorum k cap t => snd (fzn_revocation_store_set_quorum s k cap t)
  | op_set_acts log => snd (fzn_revocation_store_set_acts s log)
  end.

Definition run_ops (h : list store_op) (s : fzn_revocation_store) : fzn_revocation_store :=
  fold_left (fun s op => run_op op s) h s.

(** The records a history offers. *)
Definition offers_of (op : store_op) : list fzn_revocation_offer :=
  match op with op_admit o _ _ => [o] | op_merge os _ _ => os | _ => [] end.

Lemma moved_take {A} (l bigger : list A) n :
  0 <= n -> zlen l = n -> n <= zlen bigger -> take (Z.to_nat n) (moved l bigger) = l.
Proof.
  intros ? Hl ?. unfold moved. change (take (Z.to_nat n) ?x) with (slice 0 n x). rewrite <- Hl.
  apply slice_blit_same; lia.
Qed.

Lemma zlen_moved {A} (l bigger : list A) : zlen l <= zlen bigger -> zlen (moved l bigger) = zlen bigger.
Proof. intros. unfold moved. apply zlen_blit; lia. Qed.

Lemma zlen_in_table {A} (t : option (list A)) n : 0 <= n <= table_capacity t -> zlen (in_table t n) = n.
Proof. unfold table_capacity, in_table, zlen. destruct t; [rewrite length_take|cbn]; lia. Qed.

(** A store whose three tables are as they were. *)
Lemma store_ok_alike s s' :
  store_ok s -> entries s' = entries s -> used s' = used s -> in_u64 (generation s') ->
  admins s' = admins s -> admins_used s' = admins_used s ->
  confirms s' = confirms s -> confirms_used s' = confirms_used s -> store_ok s'.
Proof.
  intros [] He Hu Hg Ha Hau Hk Hku.
  split; unfold capacity, rows, admin_capacity, admin_rows, confirm_capacity, confirm_rows;
    rewrite ?He, ?Hu, ?Ha, ?Hau, ?Hk, ?Hku; done.
Qed.

Lemma use_ok s es : store_ok s -> store_ok (snd (fzn_revocation_store_use s es)).
Proof.
  intros Hok. unfold fzn_revocation_store_use. destruct (_ || _) eqn:H; [done|]. destruct Hok.
  unfold capacity, rows in *.
  assert (zlen (in_table (entries s) (used s)) = used s) by (by apply zlen_in_table).
  split; unfold capacity, rows; cbn [snd bump with_generation entries used generation admins admins_used
    confirms confirms_used table_capacity in_table]; auto using u64_range; try done;
    rewrite ?zlen_moved, ?moved_take by lia; done || lia.
Qed.

Lemma use_confirmations_ok s t : store_ok s -> store_ok (snd (fzn_revocation_store_use_confirmations s t)).
Proof.
  intros Hok. unfold fzn_revocation_store_use_confirmations. destruct (_ || _) eqn:H; [done|]. destruct Hok.
  unfold confirm_capacity, confirm_rows in *.
  assert (zlen (in_table (confirms s) (confirms_used s)) = confirms_used s) by (by apply zlen_in_table).
  split; unfold confirm_capacity, confirm_rows; cbn [snd bump with_generation entries used generation
    admins admins_used confirms confirms_used table_capacity in_table]; auto using u64_range;
    rewrite ?zlen_moved, ?moved_take by lia; done || lia.
Qed.

Lemma confirm_admit_ok s b hops : store_ok s -> store_ok (snd (fzn_revocation_confirm_admit s b hops root ops)).
Proof.
  intros Hok. unfold fzn_revocation_confirm_admit.
  destruct (confirms s) as [tab|] eqn:Ht, (confirm_hash s) as [hash|], (verify ops) as [vf|]; try done.
  assert (forall s1, store_ok s1 -> confirms s1 = Some tab -> forall c g,
    store_ok (snd (store_confirm s1 tab hash b c g))) as Hk.
  { intros s1 Hs1 Hc c g. destruct (store_confirm _ _ _ _ _ _) as [e s2] eqn:E.
    by eapply store_confirm_ok in E. }
  destruct (corrupt s); [done|]. destruct (_ || _); [done|]. destruct (_ && _); [done|].
  destruct (negb _); [done|]. destruct (zlen hops >? 0); [|auto]. destruct (negb _); [done|].
  destruct (entitled_as_admin _ _ _ _ _ _) as [e s1] eqn:E. apply entitled_as_admin_step in E as (Ha & _).
  assert (store_ok s1) by (by eapply admin_step_ok).
  destruct e; try done. apply Hk; [done|].
  destruct Ha as [->|(? & ? & _ & _ & _ & ->)]; done.
Qed.

Lemma run_op_ok op s : store_ok s -> store_ok (run_op op s).
Proof.
  intros Hok. destruct op; cbn [run_op]; auto using use_ok, use_confirmations_ok, confirm_admit_ok.
  - destruct (fzn_revocation_admit _ _ _ _ _ _) as [[e s'] m'] eqn:E. by eapply admit_store_ok.
  - destruct (fzn_revocation_merge _ _ _ _ _ _) as [[[n f] s'] m'] eqn:E. by eapply merge_loop_ok.
  - unfold fzn_revocation_admin_admit. destruct (_ || _); [done|]. destruct (negb _); [done|].
    destruct (entitled_as_admin _ _ _ _ _ _) as [e s1] eqn:E.
    apply entitled_as_admin_step in E as (Ha & _). by eapply admin_step_ok.
  - unfold fzn_revocation_store_set_confirmations. destruct (_ || _) eqn:H; [done|]. destruct Hok.
    pose proof (zlen_nonneg table). split; try done; try apply u64_range. cbn. constructor.
  - unfold fzn_revocation_store_set_roots. destruct r as [[[m|] [c|]]|]; try done; [destruct (is_null hash); [done|]|];
      eapply store_ok_alike; eauto; apply u64_range.
  - unfold fzn_revocation_store_set_k. guards; [done| |done].
    eapply store_ok_alike; eauto. apply u64_range.
  - unfold fzn_revocation_store_set_quorum. destruct (k =? 0); [done|]. destruct (_ && _) eqn:H; [done|].
    destruct Hok. split; try done; try apply u64_range; cbn.
    + unfold admin_capacity, table_capacity. cbn. destruct (is_null cap), table as [t|]; try done; cbn.
      pose proof (zlen_nonneg t). lia.
    + unfold admin_capacity, table_capacity, REVOCATION_ADMINS_MAX. cbn.
      destruct cap, table as [t|]; cbn in *; try lia. unfold REVOCATION_ADMINS_MAX in H. lia.
    + unfold admin_rows, in_table. cbn. destruct (is_null cap), table; cbn; constructor.
  - unfold fzn_revocation_store_set_acts. destruct log as [[log|]|]; [|done|];
      eapply store_ok_alike; eauto; apply u64_range.
Qed.

Lemma run_ops_ok h : forall s, store_ok s -> store_ok (run_ops h s).
Proof. induction h as [|op h IH]; intros s Hok; [done|]. apply IH, run_op_ok, Hok. Qed.
End Histories.

Lemma init_store_ok store es s :
  fzn_revocation_store_init store es = (FZN_CHAIN_OK, Some s) -> store_ok s.
Proof.
  unfold fzn_revocation_store_init. destruct store, es as [es|]; try done.
  destruct (zlen es =? 0); [done|]. intros [= <-]. pose proof (zlen_nonneg es).
  split; try done; cbn; constructor || ulia.
Qed.

(** C18: whatever is offered to a store and however it is configured, from
    [fzn_revocation_store_init] on: no table runs past its array, no triple of
    issuer, capability and grantee is held twice, no admin and no confirmation
    is counted twice, and the store is never corrupt, so the answers that a
    corrupt store gives (everything revoked) are never given by use of the
    library. *)
Theorem revocation_store_invariant store es s root ops h :
  fzn_revocation_store_init store es = (FZN_CHAIN_OK, Some s) ->
  store_ok (run_ops root ops h s) /\ corrupt (run_ops root ops h s) = false.
Proof.
  intros Hs%init_store_ok. assert (store_ok (run_ops root ops h s)) by (by apply run_ops_ok).
  auto using store_ok_sound.
Qed.

(** ** Who may change a row *)

Lemma find_index_snoc {A} (f : A -> bool) l x :
  find_index f (l ++ [x]) =
  match find_index f l with Some k => Some k | None => if f x then Some (length l) else None end.
Proof.
  destruct (find_index f l) as [k|] eqn:E.
  - apply find_index_Some in E as (y & Hk & Hy & Hlt). apply find_index_Some. exists y.
    split_and!; [by apply lookup_app_l_Some|done|]. intros j z Hj Hjk. apply (Hlt j); [|done].
    apply lookup_app_Some in Hj as [?|[? _]]; [done|]. apply lookup_lt_Some in Hk. lia.
  - rewrite find_index_None in E. destruct (f x) eqn:Hx.
    + apply find_index_Some. exists x. split_and!; [by apply list_lookup_middle|done|].
      intros j z Hj Hlt. apply (E j). apply lookup_app_Some in Hj as [?|[? _]]; [done|lia].
    + apply find_index_None. intros j z Hj. apply lookup_snoc_Some in Hj as [[_ Hj]|[_ <-]]; eauto.
Qed.

Lemma row_step_others rec id s s' i c g :
  row_step rec id (rows s) (rows s') -> (i, c, g) <> rec_triple rec -> found s' i c g = found s i c g.
Proof.
  unfold found, find_entry. intros H Hne.
  assert (forall e, triple e = rec_triple rec -> same e i c g = false) as Hother.
  { intros e He. destruct (same e i c g) eqn:Hs; [|done]. apply same_triple in Hs. congruence. }
  remember (rows s') as l' eqn:El. destruct H as [|k e e' Hk Ht Ht' _ _|e' _ Ht' _]; [done| |].
  - rewrite (find_index_insert _ _ _ e) by (rewrite ?Hother; done).
    destruct (find_index _ _) as [j|] eqn:Hj; [|done].
    apply find_index_Some in Hj as (x & Hx & Hs & _).
    rewrite list_lookup_insert_ne; [done|]. intros ->. rewrite Hother in Hs by congruence. done.
  - rewrite find_index_snoc, Hother by done.
    destruct (find_index _ _) as [j|] eqn:Hj; [|done].
    apply find_index_Some in Hj as (x & Hx & _). by rewrite lookup_app_l by (by eapply lookup_lt_Some).
Qed.

Lemma admin_step_rows s s' : admin_step s s' -> rows s' = rows s.
Proof. intros [->|(? & ? & _ & _ & _ & ->)]; done. Qed.

(** C16: a row of the store is only ever written by a record that its issuer's
    key signed, whose issuer is the root, a member of the root set, or reached
    by a verified chain the offer carries (a delegable grant of the capability
    revoked, or the admin capability), and the write is to that record's own
    triple: every other triple reads back as it did, and a refusal writes
    nothing. *)
Theorem only_the_entitled_change_a_row s offer root ops hash man err s' man' :
  store_ok s -> fzn_revocation_admit s offer root ops hash man = (err, s', man') ->
  rows s' = rows s \/
  exists rec vf,
    err = FZN_CHAIN_OK /\ o_record offer = Some rec /\ verify ops = Some vf /\
    vf (fzn_revocation_issuer rec) (fzn_revocation_signed_bytes rec) (fzn_revocation_signature rec)
      = true /\
    has_standing s rec (o_hops offer) root ops /\
    forall i c g, (i, c, g) <> rec_triple rec -> found s' i c g = found s i c g.
Proof.
  intros [Ht Hu _ _ _ _ _ _ _] H.
  apply admission_cases in H as [[-> _]|(s1 & rec & vf & id & Ho & Hv & Hvf & Hst & Ha & Hs)];
    [by left| |done|lia].
  pose proof (admin_step_rows _ _ Ha) as Hr. destruct (decide (err = FZN_CHAIN_OK)) as [->|Hn].
  - right. exists rec, vf. split_and!; auto. intros i c g Hne. destruct Hs as [Hrow _ _ _ _ _].
    rewrite Hr in Hrow. by eapply row_step_others.
  - left. rewrite (st_error _ _ _ _ _ Hs Hn). done.
Qed.

(** ** A revocation stands until its issuer withdraws it *)

Definition live_row (s : fzn_revocation_store) (t : bytes * bytes * bytes) : Prop :=
  exists k e, rows s !! k = Some e /\ triple e = t /\ r_withdrawn e = false.

Lemma find_entry_unique s k e i c g :
  NoDup (triple <$> rows s) -> rows s !! k = Some e -> triple e = (i, c, g) ->
  find_entry s i c g = Some k.
Proof.
  intros Hd Hk Ht. apply find_index_Some. exists e. split_and!; [done|by apply same_triple|].
  intros j y Hj Hlt. destruct (same y i c g) eqn:Hs; [|done]. apply same_triple in Hs.
  assert (j = k); [|lia]. apply (NoDup_lookup (triple <$> rows s) j k (i, c, g)); [done| |];
    rewrite list_lookup_fmap, ?Hj, ?Hk; cbn; congruence.
Qed.

Lemma covers_live s i c g :
  store_ok s -> fzn_revocation_covers (Some s) (Some i) (Some c) (Some g) = true <-> live_row s (i, c, g).
Proof.
  intros Hok. unfold fzn_revocation_covers. rewrite store_ok_sound by done.
  destruct Hok as [Ht _ Hd _ _ _ _ _ _]. destruct (entries s) as [tab|] eqn:He; [|done].
  unfold found, live_row. destruct (find_entry s i c g) as [k|] eqn:Hf.
  - destruct (find_entry_row s i c g k Hf) as (e & Hk & Htr). rewrite Hk. split.
    + intros Hw%negb_true_iff. eauto.
    + intros (k' & e' & Hk' & Htr' & Hw).
      assert (k' = k) as -> by (eapply (find_entry_unique s k') in Htr'; eauto; congruence).
      simplify_eq. by rewrite Hw.
  - split; [done|]. intros (k & e & Hk & Htr & _). eapply find_entry_unique in Hk; eauto. congruence.
Qed.

(** The withdrawal of the triple [t], signed by its issuer. *)
Definition signed_withdrawal (ops : fzn_sign_ops) (t : bytes * bytes * bytes)
    (offer : fzn_revocation_offer) : Prop :=
  exists rec vf, o_record offer = Some rec /\ verify ops = Some vf /\ rec_triple rec = t /\
    fzn_revocation_is_withdrawal rec = true /\
    vf (fzn_revocation_issuer rec) (fzn_revocation_signed_bytes rec) (fzn_revocation_signature rec) = true.

Lemma row_step_live rec id l l' k e :
  row_step rec id l l' -> l !! k = Some e -> r_withdrawn e = false ->
  (exists e', l' !! k = Some e' /\ triple e' = triple e /\ r_withdrawn e' = false) \/
  (fzn_revocation_is_withdrawal rec = true /\ triple e = rec_triple rec).
Proof.
  intros [|k' e1 e2 Hk' Ht1 Ht2 _ Hw|e' _ _ _] Hk Hl; [by left; exists e| |].
  - destruct (decide (k' = k)) as [->|].
    + simplify_eq. destruct Hw as [Hw|[Hw|Hw]]; [| |by right]; left; exists e2;
        rewrite list_lookup_insert_eq by (by eapply lookup_lt_Some); split_and!; congruence.
    + left. exists e. by rewrite list_lookup_insert_ne.
  - left. exists e. split; [|done]. by apply lookup_app_l_Some.
Qed.

Lemma admit_live s offer root ops hash man t :
  store_ok s -> live_row s t ->
  live_row (snd (fst (fzn_revocation_admit s offer root ops hash man))) t \/ signed_withdrawal ops t offer.
Proof.
  intros [Ht Hu _ _ _ _ _ _ _] (k & e & Hk & Htr & Hw).
  destruct (fzn_revocation_admit _ _ _ _ _ _) as [[err s'] man'] eqn:H. cbn [fst snd].
  apply admission_cases in H as [[-> _]|(s1 & rec & vf & id & Ho & Hv & Hvf & Hst & Ha & Hs)];
    [by left; exists k, e| |done|lia].
  destruct Hs as [Hrow _ _ _ _ _]. rewrite (admin_step_rows _ _ Ha) in Hrow.
  destruct (row_step_live _ _ _ _ _ _ Hrow Hk Hw) as [(e' & Hk' & Ht' & Hw')|[Hwd Hte]].
  - left. exists k, e'. split_and!; congruence.
  - right. exists rec, vf. split_and!; congruence.
Qed.

Lemma merge_live t offers root ops hash : forall s man n first,
  store_ok s -> live_row s t ->
  live_row (snd (fst (merge_loop s offers root ops hash man n first))) t \/
  Exists (signed_withdrawal ops t) offers.
Proof.
  induction offers as [|o offers IH]; intros s man n first Hok Hl; cbn [merge_loop]; [by left|].
  destruct (fzn_revocation_admit s o root ops hash man) as [[err s1] man1] eqn:E.
  destruct (admit_live s o root ops hash man t Hok Hl) as [H1|H1]; [|right; by apply Exists_cons_hd].
  rewrite E in H1. cbn in H1. assert (store_ok s1) by (by eapply admit_store_ok).
  destruct (bool_decide _);
    [destruct (IH s1 man1 (n + 1) first)
    |destruct (IH s1 man1 n (if bool_decide (first = FZN_CHAIN_OK) then err else first))]; auto.
Qed.

(** Operations that offer no record leave the rows alone. *)
Lemma run_op_rows root ops op s :
  store_ok s -> offers_of op = [] -> rows (run_op root ops op s) = rows s \/ exists offers hash man,
    op = op_merge offers hash man.
Proof.
  intros Hok Hno. destruct op; cbn [run_op]; try done; try (right; by eauto); left.
  - unfold fzn_revocation_admin_admit. destruct (_ || _); [done|]. destruct (negb _); [done|].
    destruct (entitled_as_admin _ _ _ _ _ _) as [e s1] eqn:E.
    apply entitled_as_admin_step in E as (Ha & _). by apply admin_step_rows.
  - unfold fzn_revocation_confirm_admit, store_confirm.
    destruct (confirms s) as [tab|], (confirm_hash s) as [hash|], (verify ops) as [vf|]; try done.
    destruct (corrupt s); [done|]. destruct (_ || _); [done|]. destruct (_ && _); [done|].
    destruct (negb _); [done|]. destruct (zlen hops >? 0);
      [destruct (negb _); [done|]; destruct (entitled_as_admin _ _ _ _ _ _) as [e s1] eqn:E;
       apply entitled_as_admin_step in E as (Ha%admin_step_rows & _); rewrite <- Ha; destruct e; try done|];
      destruct (existsb _ _); try done; destruct (_ >=? _); try done; by destruct (hash _ _).
  - unfold fzn_revocation_store_use. destruct (_ || _) eqn:H; [done|]. destruct Hok.
    unfold capacity in *. unfold rows. cbn [snd bump with_generation entries used in_table].
    assert (zlen (in_table (entries s) (used s)) = used s) by (by apply zlen_in_table).
    apply moved_take; lia || done.
  - unfold fzn_revocation_store_use_confirmations. by destruct (_ || _).
  - unfold fzn_revocation_store_set_confirmations. by destruct (_ || _).
  - unfold fzn_revocation_store_set_roots. destruct r as [[[m|] [c|]]|]; try done. by destruct (is_null hash).
  - unfold fzn_revocation_store_set_k. by guards.
  - unfold fzn_revocation_store_set_quorum. destruct (k =? 0); [done|]. by destruct (_ && _).
  - unfold fzn_revocation_store_set_acts. by destruct log as [[log|]|].
Qed.

Lemma run_op_live root ops op s t :
  store_ok s -> live_row s t ->
  live_row (run_op root ops op s) t \/ Exists (signed_withdrawal ops t) (offers_of op).
Proof.
  intros Hok Hl. destruct (decide (offers_of op = [])) as [E|].
  - destruct (run_op_rows root ops op s Hok E) as [Hr|(os & hash & man & ->)].
    + left. unfold live_row. by rewrite Hr.
    + cbn in E. subst os. by left.
  - destruct op; try done; cbn [run_op offers_of].
    + destruct (admit_live s offer root ops hash man t Hok Hl); [by left|right; by constructor].
    + by apply merge_live.
Qed.

Lemma run_ops_live root ops t h : forall s,
  store_ok s -> live_row s t ->
  live_row (run_ops root ops h s) t \/ Exists (signed_withdrawal ops t) (h ≫= offers_of).
Proof.
  induction h as [|op h IH]; intros s Hok Hl; [by left|]. cbn [run_ops fold_left].
  change ((op :: h) ≫= offers_of) with (offers_of op ++ (h ≫= offers_of)). rewrite Exists_app.
  destruct (run_op_live root ops op s t Hok Hl) as [H1|H1]; [|tauto].
  destruct (IH (run_op root ops op s) (run_op_ok root ops op s Hok) H1); tauto.
Qed.

(** C10: the store does not fail open. A pair that a triple's entry covers stays
    covered through any history of admissions (good, forged or malformed),
    batches, confirmations, reconfigurations and growth of the tables, unless
    the history offers a withdrawal of that very triple signed by the key that
    issued the revocation. *)
Theorem revoked_until_withdrawn s root ops h i c g :
  store_ok s -> fzn_revocation_covers (Some s) (Some i) (Some c) (Some g) = true ->
  fzn_revocation_covers (Some (run_ops root ops h s)) (Some i) (Some c) (Some g) = false ->
  Exists (signed_withdrawal ops (i, c, g)) (h ≫= offers_of).
Proof.
  intros Hok Hc Hn. apply covers_live in Hc; [|done].
  destruct (run_ops_live root ops _ h s Hok Hc) as [Hl|]; [|done].
  apply covers_live in Hl; [congruence|by apply run_ops_ok].
Qed.

(** ** Forged records *)

(** The record is there and the key it names as issuer signed it. *)
Definition genuine (ops : fzn_sign_ops) (offer : fzn_revocation_offer) : bool :=
  match verify ops, o_record offer with
  | Some vf, Some rec =>
    vf (fzn_revocation_issuer rec) (fzn_revocation_signed_bytes rec) (fzn_revocation_signature rec)
  | _, _ => false
  end.

Lemma forged_admit s offer root ops hash man :
  genuine ops offer = false ->
  exists err, err <> FZN_CHAIN_OK /\ fzn_revocation_admit s offer root ops hash man = (err, s, man).
Proof.
  unfold genuine, fzn_revocation_admit. intros H.
  destruct (entries s), (verify ops) as [vf|], hash as [hash|], (o_record offer) as [rec|]; 
    try (refine (ex_intro _ _ (conj _ eq_refl)); done).
  rewrite H. cbn [negb]. destruct (_ && _); refine (ex_intro _ _ (conj _ eq_refl)); done.
Qed.

(** Forged records are inert. A batch admits as many records, and leaves
    the store and the manifest state as they would be left, as the same batch
    with every record whose issuer did not sign it taken out beforehand. *)
Theorem forged_records_are_inert offers root ops hash s man :
  let '(n, _, s', man') := fzn_revocation_merge s offers root ops hash man in
  let '(m, _, t', tman') :=
    fzn_revocation_merge s (List.filter (genuine ops) offers) root ops hash man in
  n = m /\ s' = t' /\ man' = tman'.
Proof.
  unfold fzn_revocation_merge. generalize 0 as n. generalize FZN_CHAIN_OK at 1 as f1.
  generalize FZN_CHAIN_OK as f2. revert s man.
  induction offers as [|o offers IH]; intros s man f2 f1 n; cbn [List.filter merge_loop]; [done|].
  destruct (genuine ops o) eqn:Hg; cbn [merge_loop].
  - destruct (fzn_revocation_admit s o root ops hash man) as [[err s1] man1].
    destruct (bool_decide (err = FZN_CHAIN_OK)); apply IH.
  - destruct (forged_admit s o root ops hash man Hg) as (err & Herr & ->).
    rewrite bool_decide_eq_false_2 by done. apply IH.
Qed.

(** ** Witnesses *)

(** A hash that tells records apart by epoch and object. *)
Definition toy_hash : fzn_hash_ops := fun _ b =>
  Some (slice FZN_REV_OFF_EPOCH 8 b ++ slice FZN_REV_OFF_OBJECT 1 b ++ zeros 23).

(** A record of issuer [i] on capability 3 and grantee 9. *)
Definition demo_record (object i epoch : Z) (supersedes : option bytes) : bytes :=
  snd (mint object (demo_key i) (demo_key 3) (demo_key 9) 100 epoch supersedes None toy_ops
         (zeros FZN_REVOCATION_LEN)).

Definition demo_revocation : bytes := demo_record FZN_OBJECT_REVOCATION 1 0 None.
Definition demo_withdrawal : bytes :=
  demo_record FZN_OBJECT_WITHDRAWAL 1 0 (toy_hash 32 demo_revocation).

Definition demo_op (rec : bytes) : store_op := op_admit (mk_offer (Some rec) []) (Some toy_hash) None.

Definition demo_empty : fzn_revocation_store :=
  mk_store (Some [demo_vote 0 0 false; demo_vote 0 0 false]) 0 1 1 false (zeros FZN_CAP_ID_LEN) None 0
    None None None 0 None None.

Lemma demo_empty_init :
  fzn_revocation_store_init (Some demo_empty) (entries demo_empty) = (FZN_CHAIN_OK, Some demo_empty).
Proof. reflexivity. Qed.

Definition demo_revoked : fzn_revocation_store :=
  run_ops (demo_key 1) toy_ops [demo_op demo_revocation] demo_empty.

Lemma demo_revoked_ok : store_ok demo_revoked.
Proof. apply run_ops_ok. eapply init_store_ok, demo_empty_init. Qed.

Lemma revocation_store_invariant_witness :
  let s := run_ops (demo_key 1) toy_ops [demo_op demo_revocation; demo_op demo_withdrawal; op_set_k 2]
             demo_empty in
  used s = 1 /\ generation s = 4 /\ corrupt s = false.
Proof.
  split; [vm_compute; reflexivity|]. split; [vm_compute; reflexivity|].
  exact (proj2 (revocation_store_invariant (Some demo_empty) (entries demo_empty) demo_empty (demo_key 1)
    toy_ops [demo_op demo_revocation; demo_op demo_withdrawal; op_set_k 2] demo_empty_init)).
Defined.

Definition demo_withdrawn : fzn_chain_err * fzn_revocation_store * option fzn_manifest_state :=
  fzn_revocation_admit demo_revoked (mk_offer (Some demo_withdrawal) []) (demo_key 1) toy_ops
    (Some toy_hash) None.

Lemma only_the_entitled_change_a_row_witness :
  r_withdrawn <$> found (snd (fst demo_withdrawn)) (demo_key 1) (demo_key 3) (demo_key 9) = Some true /\
  found (snd (fst demo_withdrawn)) (demo_key 2) (demo_key 3) (demo_key 9)
  = found demo_revoked (demo_key 2) (demo_key 3) (demo_key 9).
Proof.
  split; [vm_compute; reflexivity|].
  assert (r_withdrawn <$> rows demo_revoked = [false]) as E1 by (vm_compute; reflexivity).
  assert (r_withdrawn <$> rows (snd (fst demo_withdrawn)) = [true]) as E2 by (vm_compute; reflexivity).
  assert (rec_triple demo_withdrawal = (demo_key 1, demo_key 3, demo_key 9)) as E3 by (vm_compute; reflexivity).
  assert (demo_withdrawn = (fst (fst demo_withdrawn), snd (fst demo_withdrawn), snd demo_withdrawn)) as E4
    by (by destruct demo_withdrawn as [[??]?]).
  destruct (only_the_entitled_change_a_row demo_revoked (mk_offer (Some demo_withdrawal) []) (demo_key 1)
    toy_ops (Some toy_hash) None (fst (fst demo_withdrawn)) (snd (fst demo_withdrawn)) (snd demo_withdrawn)
    demo_revoked_ok E4) as [Hr|(rec & vf & _ & Hrec & _ & _ & _ & Hf)].
  - rewrite Hr, E1 in E2. discriminate E2.
  - apply Hf. change (Some demo_withdrawal = Some rec) in Hrec. apply (inj Some) in Hrec. rewrite <- Hrec, E3.
    apply (bool_decide_unpack _). vm_compute. exact I.
Defined.

Lemma revoked_until_withdrawn_witness :
  Exists (signed_withdrawal toy_ops (demo_key 1, demo_key 3, demo_key 9))
    ([demo_op demo_revocation; demo_op demo_withdrawal] ≫= offers_of).
Proof.
  apply (revoked_until_withdrawn demo_revoked (demo_key 1) toy_ops
           [demo_op demo_revocation; demo_op demo_withdrawal]).
  - exact demo_revoked_ok.
  - vm_compute. reflexivity.
  - vm_compute. reflexivity.
Defined.
