(* ===== verification/RevocationOrder.v ===== *)
(** * The revocation store: order of arrival, and the generation a cache reads

    A revocation and its withdrawal in either order; when an unchanged
    generation promises unchanged answers and when it does not; and the
    witnesses of the theorems of [RevocationStore]. *)

From S2P Require Import Prelude Bytes Hop Revocation RevocationRule Manifest Chain RevocationAdmit.
From S2P Require Import RevocationStore.

(** ** Either order *)

(** A root's own record that every gate before the store lets through, with
    its identity. *)
Definition passes (s : fzn_revocation_store) (rec root : bytes) (ops : fzn_sign_ops)
    (hash : fzn_hash_ops) (id : bytes) : Prop :=
  (fzn_revocation_issuer rec = root \/ root_member s (fzn_revocation_issuer rec) = true) /\
  (exists vf, verify ops = Some vf /\
     vf (fzn_revocation_issuer rec) (fzn_revocation_signed_bytes rec) (fzn_revocation_signature rec)
       = true) /\
  hash FZN_REVOCATION_ID_LEN (slice 0 FZN_REVOCATION_LEN rec) = Some id.

Lemma passing_admit s rec root ops hash id man :
  store_ok s -> passes s rec root ops hash id ->
  fzn_revocation_admit s (mk_offer (Some rec) []) root ops (Some hash) man
    = store_record s rec id man.
Proof.
  intros [Ht Hu _ _ _ _ _ _ _] (Hroot & (vf & Hv & Hvf) & Hh). unfold fzn_revocation_admit, standing.
  destruct (entries s) eqn:He; [|done]. rewrite Hv. cbn [o_record o_hops]. rewrite Hvf.
  change (zlen (@nil (option fzn_chain_hop)) =? 0) with true. cbn [negb andb].
  assert (negb (memeq (fzn_revocation_issuer rec) root)
          && negb (root_member s (fzn_revocation_issuer rec)) = false) as ->.
  { destruct Hroot as [->| ->]; [by rewrite memeq_refl|]. by rewrite andb_false_r. }
  destruct (Z.gtb_spec (used s) (capacity s)); [lia|]. by rewrite Hh.
Qed.

Lemma store_new s rec id man :
  fzn_revocation_is_withdrawal rec = false -> rec_triple rec ∉ triple <$> rows s ->
  used s < capacity s ->
  store_record s rec id man = (FZN_CHAIN_OK, append_entry s (entry_of rec id), satisfied man rec).
Proof.
  intros Hw Hn Hu. apply find_entry_None in Hn. unfold store_record. rewrite Hw, Hn. cbn.
  unfold admit_new. destruct (Z.geb_spec (used s) (capacity s)); [lia|]. done.
Qed.

Lemma store_tombstone s rec id man :
  fzn_revocation_is_withdrawal rec = true -> rec_triple rec ∉ triple <$> rows s ->
  used s < capacity s ->
  store_record s rec id man = (FZN_CHAIN_OK, append_entry s (tombstone_of rec id), man).
Proof.
  intros Hw Hn Hu. apply find_entry_None in Hn. unfold store_record. rewrite Hw, Hn. cbn.
  destruct (Z.geb_spec (used s) (capacity s)); [lia|]. done.
Qed.

(** The entry just added is the one found. *)
Lemma found_appended s e rec :
  store_ok s -> used s < capacity s -> rec_triple rec ∉ triple <$> rows s -> triple e = rec_triple rec ->
  find_entry (append_entry s e) (fzn_revocation_issuer rec) (fzn_revocation_capability rec)
    (fzn_revocation_grantee rec) = Some (length (rows s)) /\
  rows (append_entry s e) = rows s ++ [e].
Proof.
  intros [_ Hu Hd _ _ _ _ _ _] Hc Hn He.
  assert (rows (append_entry s e) = rows s ++ [e]) as Hr by (apply rows_append; lia).
  split; [|done]. eapply find_entry_unique; [|rewrite Hr; by apply list_lookup_middle|exact He].
  rewrite Hr, fmap_app. cbn. apply NoDup_snoc; [done|congruence].
Qed.

Lemma covers_row s i c g k e :
  store_ok s -> rows s !! k = Some e -> triple e = (i, c, g) ->
  fzn_revocation_covers (Some s) (Some i) (Some c) (Some g) = negb (r_withdrawn e).
Proof.
  intros Hok Hk Ht. unfold fzn_revocation_covers. rewrite store_ok_sound by done.
  destruct Hok as [He _ Hd _ _ _ _ _ _]. destruct (entries s); [|done].
  unfold found. rewrite (find_entry_unique s k e i c g) by done. by rewrite Hk.
Qed.

(** The withdrawal of the entry held last. *)
Lemma store_withdrawal s e w wid man :
  store_ok s -> used s < capacity s -> rec_triple w ∉ triple <$> rows s -> triple e = rec_triple w ->
  fzn_revocation_is_withdrawal w = true -> r_withdrawn e = false ->
  r_id e = fzn_revocation_supersedes w -> r_epoch e = fzn_revocation_epoch w ->
  exists s', store_record (append_entry s e) w wid man = (FZN_CHAIN_OK, s', man) /\
    rows s' = rows s ++ [mk_rev (r_capability e) (r_grantee e) (r_issuer e) (r_id e) true (r_epoch e)
                           wid (r_cut e)].
Proof.
  intros Hok Hu Hn Ht Hw Hl Hid Hep.
  destruct (found_appended s e w Hok Hu Hn Ht) as [Hf Hr].
  unfold store_record. rewrite Hf. cbn [mbind option_bind].
  rewrite Hr, list_lookup_middle by done. cbn [fmap option_fmap option_map]. rewrite Hw.
  unfold admit_withdrawal. rewrite Hid, memeq_refl, Hep, Z.eqb_refl, Hl. cbn [negb].
  eexists. split; [done|]. change (rows (bump ?x)) with (rows x).
  rewrite rows_put, Hr by (rewrite Hr, length_app; cbn; lia). by rewrite insert_app_r_alt, Nat.sub_diag.
Qed.

(** The copy of a revocation that the entry held last undid. *)
Lemma store_stale s e r man :
  store_ok s -> used s < capacity s -> rec_triple r ∉ triple <$> rows s -> triple e = rec_triple r ->
  fzn_revocation_is_withdrawal r = false -> r_withdrawn e = true ->
  store_record (append_entry s e) r (r_id e) man = (FZN_CHAIN_OK, append_entry s e, satisfied man r).
Proof.
  intros Hok Hu Hn Ht Hw Hl. destruct (found_appended s e r Hok Hu Hn Ht) as [Hf Hr].
  unfold store_record. rewrite Hf. cbn [mbind option_bind].
  rewrite Hr, list_lookup_middle by done. cbn [fmap option_fmap option_map]. rewrite Hw, Hl.
  unfold admit_over_withdrawn. by rewrite memeq_refl.
Qed.

(** A row as the answers read it, the line aside. *)
Definition sans_cut (e : fzn_revocation) : fzn_revocation :=
  mk_rev (r_capability e) (r_grantee e) (r_issuer e) (r_id e) (r_withdrawn e) (r_epoch e) (r_held e) [].

(** A root's revocation and its withdrawal may arrive in either order. Both
    orders are admitted, both leave one row for the triple, withdrawn, naming
    the revocation and holding the withdrawal, and the two stores differ in no
    row but for the line a vote never seen cannot draw: neither order leaves
    the pair revoked. *)
Theorem withdrawal_may_arrive_first s r w root ops hash id wid man :
  store_ok s -> used s < capacity s -> rec_triple r ∉ triple <$> rows s ->
  fzn_revocation_is_withdrawal r = false -> fzn_revocation_is_withdrawal w = true ->
  rec_triple w = rec_triple r -> fzn_revocation_supersedes w = id ->
  fzn_revocation_epoch w = fzn_revocation_epoch r ->
  passes s r root ops hash id -> passes s w root ops hash wid ->
  let offer b := mk_offer (Some b) [] in
  let admit_ b s := fzn_revocation_admit s (offer b) root ops (Some hash) man in
  exists s1 s2 s12 s21 m1 m2 m12 m21,
    admit_ r s = (FZN_CHAIN_OK, s1, m1) /\ admit_ w s1 = (FZN_CHAIN_OK, s12, m12) /\
    admit_ w s = (FZN_CHAIN_OK, s2, m2) /\ admit_ r s2 = (FZN_CHAIN_OK, s21, m21) /\
    sans_cut <$> rows s12 = sans_cut <$> rows s21 /\
    let covered s := fzn_revocation_covers (Some s) (Some (fzn_revocation_issuer r))
                       (Some (fzn_revocation_capability r)) (Some (fzn_revocation_grantee r)) in
    covered s1 = true /\ covered s12 = false /\ covered s21 = false.
Proof.
  intros Hok Hu Hn Hr Hw Htr Hsup Hep Hpr Hpw offer admit_.
  assert (Hnw : rec_triple w ∉ triple <$> rows s) by (by rewrite Htr).
  set (e1 := entry_of r id). set (e2 := tombstone_of w wid).
  assert (E1 : admit_ r s = (FZN_CHAIN_OK, append_entry s e1, satisfied man r))
    by (unfold admit_, offer; rewrite (passing_admit _ _ _ _ _ id) by done; by apply store_new).
  assert (E2 : admit_ w s = (FZN_CHAIN_OK, append_entry s e2, man))
    by (unfold admit_, offer; rewrite (passing_admit _ _ _ _ _ wid) by done; by apply store_tombstone).
  assert (store_ok (append_entry s e1)) as Hok1 by (by eapply admit_store_ok in E1).
  assert (store_ok (append_entry s e2)) as Hok2 by (by eapply admit_store_ok in E2).
  assert (rec_triple w = triple e1) as Ht1 by (rewrite Htr; done).
  destruct (store_withdrawal s e1 w wid man) as (s12 & E12 & R12);
    [done|done|done|by symmetry|done|done|by symmetry|by symmetry|].
  assert (E12' : admit_ w (append_entry s e1) = (FZN_CHAIN_OK, s12, man))
    by (unfold admit_, offer; rewrite (passing_admit _ _ _ _ _ wid); done).
  assert (E21 : admit_ r (append_entry s e2) = (FZN_CHAIN_OK, append_entry s e2, satisfied man r)).
  { unfold admit_, offer. rewrite (passing_admit _ _ _ _ _ id) by done. rewrite <- Hsup.
    by apply (store_stale s e2 r). }
  assert (store_ok s12) as Hok12 by (by eapply admit_store_ok in E12').
  destruct (found_appended s e1 r Hok Hu Hn eq_refl) as [_ R1].
  destruct (found_appended s e2 w Hok Hu Hnw eq_refl) as [_ R2].
  exists (append_entry s e1), (append_entry s e2), s12, (append_entry s e2). do 4 eexists.
  split_and!; [done..| |intros covered]. { rewrite R12, R2, !fmap_app. f_equal.
    unfold sans_cut, e1, e2, entry_of, tombstone_of. cbn. unfold rec_triple in Htr.
    injection Htr as -> -> ->. by rewrite Hsup, Hep. }
  unfold covered. split_and!.
  - apply (covers_row _ _ _ _ (length (rows s)) e1); [done|rewrite R1; by apply list_lookup_middle|done].
  - erewrite covers_row; [|done|rewrite R12; by apply list_lookup_middle|]; done.
  - eapply (covers_row _ _ _ _ (length (rows s)) e2); [done|rewrite R2; by apply list_lookup_middle|].
    exact Htr.
Qed.

(** [demo_empty] before anything has arrived. *)
Lemma withdrawal_may_arrive_first_witness :
  exists s12 s21, sans_cut <$> rows s12 = sans_cut <$> rows s21 /\
    fzn_revocation_covers (Some s21) (Some (fzn_revocation_issuer demo_revocation))
      (Some (fzn_revocation_capability demo_revocation))
      (Some (fzn_revocation_grantee demo_revocation)) = false.
Proof.
  assert (store_ok demo_empty) as Hok by (eapply init_store_ok, demo_empty_init).
  assert (rec_triple demo_withdrawal = rec_triple demo_revocation) as Ht by (vm_compute; reflexivity).
  assert (rec_triple demo_revocation = (demo_key 1, demo_key 3, demo_key 9)) as Hd by (vm_compute; reflexivity).
  assert (forall r, rec_triple r = (demo_key 1, demo_key 3, demo_key 9) ->
    fzn_revocation_signature r = zeros 64 -> forall id,
    toy_hash 32 (slice 0 FZN_REVOCATION_LEN r) = Some id ->
    passes demo_empty r (demo_key 1) toy_ops toy_hash id) as Hp.
  { intros r Hr Hs id Hh. split; [left; by injection Hr|]. split; [|done].
    eexists. split; [reflexivity|]. cbv beta. rewrite Hs. apply memeq_refl. }
  assert (fzn_revocation_is_withdrawal demo_revocation = false) as W1 by (vm_compute; reflexivity).
  assert (fzn_revocation_is_withdrawal demo_withdrawal = true) as W2 by (vm_compute; reflexivity).
  assert (fzn_revocation_epoch demo_withdrawal = fzn_revocation_epoch demo_revocation) as He
    by (vm_compute; reflexivity).
  assert (rec_triple demo_revocation ∉ triple <$> rows demo_empty) as Hn
    by (apply find_entry_None; vm_compute; reflexivity).
  assert (passes demo_empty demo_revocation (demo_key 1) toy_ops toy_hash
            (fzn_revocation_supersedes demo_withdrawal)) as P1
    by (apply Hp; [exact Hd|vm_compute; reflexivity|vm_compute; reflexivity]).
  assert (passes demo_empty demo_withdrawal (demo_key 1) toy_ops toy_hash
            (default [] (toy_hash 32 demo_withdrawal))) as P2
    by (apply Hp; [congruence|vm_compute; reflexivity|vm_compute; reflexivity]).
  destruct (withdrawal_may_arrive_first demo_empty demo_revocation demo_withdrawal (demo_key 1) toy_ops
    toy_hash (fzn_revocation_supersedes demo_withdrawal)
    (default [] (toy_hash 32 demo_withdrawal)) None Hok eq_refl Hn W1 W2 Ht eq_refl He P1 P2)
    as (s1 & s2 & s12 & s21 & m1 & m2 & m12 & m21 & _ & _ & _ & _ & Hrows & _ & _ & Hc).
  exists s12, s21. split; [exact Hrows|exact Hc].
Defined.

(** ** The generation *)

Lemma u64_next g : in_u64 g -> u64 (g + 1) <> g /\ u64 (u64 (g + 1) + 1) <> g.
Proof. unfold u64. intros. dlia. Qed.

Lemma quiet_live s s' t : quiet <$> rows s' = quiet <$> rows s -> live_row s t -> live_row s' t.
Proof.
  intros Hq (k & e & Hk & Ht & Hw). assert ((quiet <$> rows s) !! k = Some (quiet e)) as H
    by (by rewrite list_lookup_fmap, Hk).
  rewrite <- Hq, list_lookup_fmap in H. apply fmap_Some in H as (e' & Hk' & E).
  unfold quiet in E. injection E as Et Ew Ec. exists k, e'. unfold triple in *. split_and!; congruence.
Qed.

(** An admission that leaves the generation alone leaves every answer of
    [fzn_revocation_covers] alone, so a cache of those answers that is kept
    while the generation is kept is never wrong about them. *)
Theorem generation_guards_covers s offer root ops hash man err s' man' i c g :
  store_ok s -> fzn_revocation_admit s offer root ops hash man = (err, s', man') ->
  generation s' = generation s ->
  fzn_revocation_covers (Some s') i c g = fzn_revocation_covers (Some s) i c g.
Proof.
  intros Hok H Hgen. assert (store_ok s') as Hok' by (by eapply admit_store_ok).
  assert (quiet <$> rows s' = quiet <$> rows s) as Hq.
  { apply admission_cases in H as [[-> _]|(s1 & rec & vf & id & _ & _ & _ & _ & Ha & Hs)];
      [done| |apply Hok|apply Hok].
    destruct (u64_next (generation s)) as [N1 N2]; [apply Hok|].
    rewrite <- (admin_step_rows _ _ Ha). destruct (st_quiet _ _ _ _ _ Hs) as [Hg|[Hg ?]]; [|done].
    exfalso. rewrite Hgen in Hg. destruct Ha as [->|(? & ? & _ & _ & _ & ->)]; [congruence|].
    cbn in Hg. congruence. }
  destruct i as [i|], c as [c|], g as [g|];
    try (unfold fzn_revocation_covers; rewrite !store_ok_sound by done; by destruct (entries s), (entries s')).
  apply eq_true_iff_eq. rewrite !covers_live by done. split; by apply quiet_live.
Qed.

(** The second copy of a withdrawal. *)
Lemma generation_guards_covers_witness :
  fzn_revocation_covers
    (Some (snd (fst (fzn_revocation_admit
       (run_ops (demo_key 1) toy_ops [demo_op demo_revocation; demo_op demo_withdrawal] demo_empty)
       (mk_offer (Some demo_withdrawal) []) (demo_key 1) toy_ops (Some toy_hash) None))))
    (Some (demo_key 1)) (Some (demo_key 3)) (Some (demo_key 9)) = false.
Proof.
  set (s := run_ops _ _ _ _).
  assert (store_ok s) as Hok by (apply run_ops_ok; eapply init_store_ok, demo_empty_init).
  destruct (fzn_revocation_admit _ _ _ _ _ _) as [[err s'] man'] eqn:E.
  transitivity (fzn_revocation_covers (Some s) (Some (demo_key 1)) (Some (demo_key 3)) (Some (demo_key 9))).
  - apply (generation_guards_covers s (mk_offer (Some demo_withdrawal) []) (demo_key 1) toy_ops
             (Some toy_hash) None err s' man'); [exact Hok|exact E|].
    transitivity (generation (snd (fst (fzn_revocation_admit s (mk_offer (Some demo_withdrawal) [])
       (demo_key 1) toy_ops (Some toy_hash) None)))); [by rewrite E|vm_compute; reflexivity].
  - vm_compute. reflexivity.
Defined.

(** The root undid in epoch 5; issuer 2's vote of epoch 1 is live beneath it. *)
Definition undone_store : fzn_revocation_store :=
  demo_store [demo_vote 1 5 true;
    mk_rev (demo_key 3) (demo_key 9) (demo_key 2) (demo_key 77) false 1 (demo_key 77) (zeros 32)] None 1.

(** Issuer 2's vote cast again in epoch 6, naming the one held. *)
Definition recast_offer : fzn_revocation_offer :=
  mk_offer (Some (demo_record FZN_OBJECT_REVOCATION 2 6 (Some (demo_key 77)))) [Some demo_hop].

(** The generation does not guard [fzn_revocation_covers_links], the answer
    chains are verified against. A vote below the root's undo is reissued, in a
    later epoch and with the same line: the admission succeeds, a hop that was
    free is now revoked, and the generation has not moved, so a cache keyed on
    it goes on serving the verdict that authorised the hop. *)
Theorem reissue_goes_unannounced :
  let s := undone_store in
  let '(err, s', _) := fzn_revocation_admit s recast_offer (demo_key 1) toy_ops (Some toy_hash) None in
  let revoked s := fzn_revocation_covers_links (Some s)
        (Some ([demo_key 1; demo_key 2], [demo_key 2; demo_key 9])) (Some (demo_key 3)) !! 1%nat in
  err = FZN_CHAIN_OK /\ generation s' = generation s /\ revoked s = Some false /\ revoked s' = Some true.
Proof. vm_compute. split_and!; reflexivity. Qed.
