(* ===== verification/Memo.v ===== *)
(** * chain/memo.c: a chain verdict, remembered

    The table of affirmative verdicts, keyed by root, grantee and capability
    and by the generation of the revocation store. A memo, a verdict and the
    keys are given; NULL ones are refused before anything is read. *)

From stdpp Require Import sets.
From S2P Require Import Prelude Bytes Hop Revocation Manifest Chain.

(** ** The table *)

Record fzn_chain_memo_entry := mk_memo_entry {
  me_root : bytes;
  me_grantee : bytes;
  me_capability : bytes;
  me_generation : Z;
  me_expires_at : Z
}.

(** The length of [entries] is the capacity. *)
Record fzn_chain_memo := mk_memo {
  memo_entries : list fzn_chain_memo_entry;
  cursor : Z;
  hits : Z;
  misses : Z
}.

Definition zero_memo_entry : fzn_chain_memo_entry :=
  mk_memo_entry (zeros FZN_PUBKEY_LEN) (zeros FZN_PUBKEY_LEN) (zeros FZN_CAP_ID_LEN) 0 0.

(** [entries] may be NULL when the capacity is zero. *)
Definition fzn_chain_memo_init (memo : fzn_chain_memo) (entries_ : option (list fzn_chain_memo_entry))
    (capacity : Z) : fzn_chain_err * fzn_chain_memo :=
  if (capacity >? 0) && is_null entries_ then (FZN_CHAIN_ERR_MALFORMED, memo)
  else
    (FZN_CHAIN_OK,
     mk_memo (if capacity >? 0 then replicate (Z.to_nat capacity) zero_memo_entry else []) 0 0 0).

Definition memo_same_triple (e : fzn_chain_memo_entry) (root grantee capability : bytes) : bool :=
  memeq (me_root e) root && memeq (me_grantee e) grantee && memeq (me_capability e) capability.

(** One turn of the search: the entry is a hit. *)
Definition memo_hit (root grantee capability : bytes) (generation_ now : Z) (e : fzn_chain_memo_entry)
    : bool :=
  if (me_generation e =? 0) || negb (me_generation e =? generation_) then false
  else if negb (memo_same_triple e root grantee capability) then false
  else if negb (me_expires_at e =? FZN_NO_EXPIRY) && (now >=? me_expires_at e) then false
  else true.

Definition with_hit (memo : fzn_chain_memo) : fzn_chain_memo :=
  mk_memo (memo_entries memo) (cursor memo) (u64 (hits memo + 1)) (misses memo).
Definition with_miss (memo : fzn_chain_memo) : fzn_chain_memo :=
  mk_memo (memo_entries memo) (cursor memo) (hits memo) (u64 (misses memo + 1)).

Definition fzn_chain_memo_allows (memo : fzn_chain_memo) (root grantee capability : bytes)
    (generation_ now : Z) : bool * fzn_chain_memo :=
  if generation_ =? 0 then (false, with_miss memo)
  else if existsb (memo_hit root grantee capability generation_ now) (memo_entries memo)
  then (true, with_hit memo)
  else (false, with_miss memo).

(** The search for a slot from index [i] on: the triple's own, which ends it,
    or the first empty or stale one. *)
Fixpoint slot_loop (es : list fzn_chain_memo_entry) (root grantee capability : bytes) (generation_ : Z)
    (i : nat) (slot : option nat) : option nat :=
  match es with
  | [] => slot
  | e :: es =>
    if memo_same_triple e root grantee capability then Some i
    else
      slot_loop es root grantee capability generation_ (S i)
        (if is_null slot && ((me_generation e =? 0) || negb (me_generation e =? generation_))
         then Some i else slot)
  end.

Definition fzn_chain_memo_record (memo : fzn_chain_memo) (verdict : fzn_chain) (generation_ : Z)
    : fzn_chain_err * fzn_chain_memo :=
  let capacity := zlen (memo_entries memo) in
  let e := mk_memo_entry (ch_root verdict) (ch_grantee verdict) (ch_capability verdict) generation_
             (ch_expires_at verdict) in
  if generation_ =? 0 then (FZN_CHAIN_ERR_MALFORMED, memo)
  else if capacity =? 0 then (FZN_CHAIN_OK, memo)
  else
    match slot_loop (memo_entries memo) (ch_root verdict) (ch_grantee verdict) (ch_capability verdict)
            generation_ 0 None with
    | Some slot =>
      (FZN_CHAIN_OK, mk_memo (<[ slot := e ]> (memo_entries memo)) (cursor memo) (hits memo) (misses memo))
    | None =>
      (FZN_CHAIN_OK,
       mk_memo (<[ Z.to_nat (cursor memo) := e ]> (memo_entries memo))
         ((cursor memo + 1) mod capacity) (hits memo) (misses memo))
    end.

Definition fzn_chain_memo_live (memo : fzn_chain_memo) (generation_ : Z) : Z :=
  if generation_ =? 0 then 0 else count (fun e => me_generation e =? generation_) (memo_entries memo).

(** ** Use: verify, then remember *)

(** One step of a receiver: a verification that is remembered when it
    succeeds, under the generation of the store it was made against, or a
    question. *)
Inductive memo_op :=
| memo_verify (hops : list (option fzn_chain_hop)) (root capability : bytes) (now : Z)
    (revs : option fzn_revocation_store) (man : option fzn_manifest_state)
| memo_ask (root grantee capability : bytes) (generation_ now : Z).

Section Histories.
Context (ops : fzn_sign_ops).

Definition run_memo_op (memo : fzn_chain_memo) (op : memo_op) : fzn_chain_memo :=
  match op with
  | memo_verify hops root capability now revs man =>
    match fzn_chain_verify hops root capability now ops revs man with
    | (FZN_CHAIN_OK, Some verdict) =>
      snd (fzn_chain_memo_record memo verdict (fzn_revocation_generation revs))
    | _ => memo
    end
  | memo_ask root grantee capability generation_ now =>
    snd (fzn_chain_memo_allows memo root grantee capability generation_ now)
  end.

Definition run_memo (h : list memo_op) (memo : fzn_chain_memo) : fzn_chain_memo :=
  fold_left run_memo_op h memo.

(** The entry is the trace of a verification of the history. *)
Definition explained (h : list memo_op) (e : fzn_chain_memo_entry) : Prop :=
  exists hops now revs man verdict,
    memo_verify hops (me_root e) (me_capability e) now revs man ∈ h /\
    fzn_chain_verify hops (me_root e) (me_capability e) now ops revs man = (FZN_CHAIN_OK, Some verdict) /\
    ch_grantee verdict = me_grantee e /\ ch_expires_at verdict = me_expires_at e /\
    fzn_revocation_generation revs = me_generation e.

Definition memo_ok (h : list memo_op) (memo : fzn_chain_memo) : Prop :=
  Forall (fun e => me_generation e = 0 \/ explained h e) (memo_entries memo) /\
  (0 < zlen (memo_entries memo) -> 0 <= cursor memo < zlen (memo_entries memo)).

Lemma explained_mono h h' e : h ⊆ h' -> explained h e -> explained h' e.
Proof.
  intros Hs (hops & now & revs & man & v & Hin & H). exists hops, now, revs, man, v. split; [by apply Hs|done].
Qed.

Lemma memo_ok_mono h h' memo : h ⊆ h' -> memo_ok h memo -> memo_ok h' memo.
Proof.
  intros Hs [He Hc]. split; [|done]. eapply list.Forall_impl; [exact He|].
  intros e [?|?]; [by left|right; by eapply explained_mono].
Qed.

Lemma memo_ok_insert h memo k e n :
  memo_ok h memo -> me_generation e = 0 \/ explained h e ->
  (0 < zlen (memo_entries memo) -> 0 <= n < zlen (memo_entries memo)) ->
  memo_ok h (mk_memo (<[ k := e ]> (memo_entries memo)) n (hits memo) (misses memo)).
Proof.
  intros [He _] Hx Hn. split; cbn; [by apply Forall_insert|].
  unfold zlen in *. rewrite length_insert. done.
Qed.

(** What verification returns names the root and capability it was asked about. *)
Lemma verdict_names hops root capability now revs man verdict :
  fzn_chain_verify hops root capability now ops revs man = (FZN_CHAIN_OK, Some verdict) ->
  ch_root verdict = root /\ ch_capability verdict = capability.
Proof. intros (hs & vf & _ & _ & _ & ->)%verify_ok_iff. done. Qed.

Lemma run_memo_op_ok h memo op : memo_ok h memo -> memo_ok (h ++ [op]) (run_memo_op memo op).
Proof.
  intros Hok%(memo_ok_mono h (h ++ [op])); [|set_solver].
  destruct op as [hops root capability now revs man|root grantee capability g now]; cbn [run_memo_op].
  - destruct (fzn_chain_verify hops root capability now ops revs man) as [err v] eqn:Hv.
    destruct err, v as [v|]; try done. destruct (verdict_names _ _ _ _ _ _ _ Hv) as [Er Ec].
    unfold fzn_chain_memo_record. destruct (Z.eqb_spec (fzn_revocation_generation revs) 0); [done|].
    destruct (Z.eqb_spec (zlen (memo_entries memo)) 0) as [|Hne]; [done|].
    pose proof (zlen_nonneg (memo_entries memo)). destruct Hok as [He Hc].
    assert (explained (h ++ [memo_verify hops root capability now revs man])
      (mk_memo_entry (ch_root v) (ch_grantee v) (ch_capability v) (fzn_revocation_generation revs)
         (ch_expires_at v))).
    { exists hops, now, revs, man, v. cbn. rewrite Er, Ec. split_and!; auto. set_solver. }
    destruct (slot_loop _ _ _ _ _ _ _); cbn [snd]; apply memo_ok_insert; auto; try (by split).
    intros _. apply Z.mod_pos_bound. lia.
  - unfold fzn_chain_memo_allows. guards; done.
Qed.

Lemma run_memo_ok h : forall h0 memo, memo_ok h0 memo -> memo_ok (h0 ++ h) (run_memo h memo).
Proof.
  induction h as [|op h IH]; intros h0 memo Hok; cbn; [by rewrite app_nil_r|].
  rewrite cons_middle, app_assoc. by apply IH, run_memo_op_ok.
Qed.

Lemma init_memo_ok memo es capacity memo' :
  fzn_chain_memo_init memo es capacity = (FZN_CHAIN_OK, memo') -> memo_ok [] memo'.
Proof.
  unfold fzn_chain_memo_init. destruct (_ && _); [done|]. intros [= <-]. split; cbn [memo_entries cursor].
  - destruct (capacity >? 0); [|constructor]. apply Forall_replicate. by left.
  - lia.
Qed.
End Histories.

(** A chain that was valid, and of which no hop has expired since, is valid
    now against the same revocations and manifest. *)
Lemma chain_valid_still hs root capability now now' vf revs man :
  chain_valid hs root capability now vf revs man ->
  soonest_expiry 0 hs = FZN_NO_EXPIRY \/ now' < soonest_expiry 0 hs ->
  chain_valid hs root capability now' vf revs man.
Proof.
  intros [Hn Hr Hc Hl Hv Hrev Hb Hs] Hexp. split; auto.
  apply Forall_lookup. intros i h Hi. rewrite Forall_lookup in Hv. specialize (Hv i h Hi).
  destruct (decide (fzn_hop_expires_at h = FZN_NO_EXPIRY)) as [|Hne]; [by left|].
  destruct Hv as [|[Hi1 _]]; [done|]. right. split; [done|].
  destruct (Z_lt_le_dec now' (fzn_hop_expires_at h)) as [|Hle]; [done|]. exfalso.
  destruct (soonest_expired now' hs 0) as [_ H]. destruct H; [right; by exists i, h|].
  unfold FZN_NO_EXPIRY in *. lia.
Qed.

(** What the host may be behind on aside. *)
Lemma chain_valid_later hs root capability now now' vf revs man :
  chain_valid hs root capability now vf revs man ->
  soonest_expiry 0 hs = FZN_NO_EXPIRY \/ now' < soonest_expiry 0 hs ->
  chain_valid hs root capability now' vf revs None.
Proof. intros Hv He. destruct (chain_valid_still _ _ _ _ _ _ _ _ Hv He). split; auto. by apply Forall_true. Qed.

(** A verification that succeeded succeeds again, against what it succeeded
    against, until the verdict expires. *)
Lemma verifies_still hops root capability t now ops revs man verdict :
  fzn_chain_verify hops root capability t ops revs man = (FZN_CHAIN_OK, Some verdict) ->
  fzn_chain_expired_at (Some verdict) now = false ->
  fzn_chain_verify hops root capability now ops revs man = (FZN_CHAIN_OK, Some verdict).
Proof.
  intros (hs & vf & -> & Hvf & Hval & ->)%verify_ok_iff Hx. apply verify_ok_iff.
  exists hs, vf. split_and!; auto. eapply chain_valid_still; [exact Hval|].
  unfold fzn_chain_expired_at in Hx. cbn [verdict_of ch_expires_at] in Hx. lia.
Qed.

(** A hit, of a memo every live row of which a verification explains. *)
Lemma hit_explained ops h memo root grantee capability g now memo' :
  memo_ok ops h memo -> fzn_chain_memo_allows memo root grantee capability g now = (true, memo') ->
  g <> 0 /\ exists hops t revs man verdict,
    memo_verify hops root capability t revs man ∈ h /\
    fzn_chain_verify hops root capability t ops revs man = (FZN_CHAIN_OK, Some verdict) /\
    ch_grantee verdict = grantee /\ fzn_revocation_generation revs = g /\
    fzn_chain_expired_at (Some verdict) now = false.
Proof.
  intros [He _] Ha. unfold fzn_chain_memo_allows in Ha.
  destruct (Z.eqb_spec g 0) as [|Hg0]; [done|]. split; [done|].
  destruct (existsb _ _) eqn:Hx; [|done]. apply existsb_lookup in Hx as (k & e & Hk & Hhit).
  unfold memo_hit in Hhit. destruct (_ || _) eqn:Hg; [done|].
  destruct (memo_same_triple e root grantee capability) eqn:Ht; [|done]. cbn [negb] in Hhit.
  destruct (_ && _) eqn:Hexp in Hhit; [done|]. unfold memo_same_triple in Ht. bool_props. subst.
  rewrite Forall_lookup in He.
  destruct (He k e Hk) as [|(hops & t & revs & m & v & Hin & Hv & Hgr & Hex & Hgv)]; [lia|].
  exists hops, t, revs, m, v. split_and!; auto; [lia|].
  unfold fzn_chain_expired_at, FZN_NO_EXPIRY in *. rewrite Hex. lia.
Qed.

(** A hit is a verdict that was reached. Over any history of verifications,
    each remembered under the generation of the store it was made against, and
    questions, from a fresh memo: when the memo allows a root, grantee and
    capability at a generation and a time, then a chain of the history
    verified from that root, for that capability, to that grantee, against a
    store of that generation, and it verifies still against what it verified
    against then. That the host holds the same store and manifest now is not
    asked. *)
Theorem memo_hit_was_a_verdict ops memo0 es capacity memo h root grantee capability g now memo' :
  fzn_chain_memo_init memo0 es capacity = (FZN_CHAIN_OK, memo) ->
  fzn_chain_memo_allows (run_memo ops h memo) root grantee capability g now = (true, memo') ->
  exists hops t revs man verdict,
    memo_verify hops root capability t revs man ∈ h /\ fzn_revocation_generation revs = g /\
    fzn_chain_verify hops root capability t ops revs man = (FZN_CHAIN_OK, Some verdict) /\
    fzn_chain_verify hops root capability now ops revs man = (FZN_CHAIN_OK, Some verdict) /\
    ch_grantee verdict = grantee.
Proof.
  intros Hi Ha. apply (init_memo_ok ops) in Hi. apply (run_memo_ok ops h) in Hi.
  destruct (hit_explained _ _ _ _ _ _ _ _ _ Hi Ha) as (_ & hops & t & revs & man & v & Hin & Hv & Hg & Hgen & Hx).
  exists hops, t, revs, man, v. split_and!; auto. by eapply verifies_still.
Qed.

(** ** Witness, and the question a hit does not ask *)

(** An empty store, at generation 1. *)
Definition memo_store : fzn_revocation_store :=
  mk_store (Some []) 0 1 1 false (zeros FZN_CAP_ID_LEN) None 0 None None None 0 None None.

Definition fresh_memo : fzn_chain_memo := mk_memo (replicate 2 zero_memo_entry) 0 0 0.

Definition demo_verified : memo_op :=
  memo_verify [Some demo_hop] (demo_key 1) (demo_key 3) 150 (Some memo_store) None.

Definition demo_memo : fzn_chain_memo := run_memo toy_ops [demo_verified] fresh_memo.

Lemma memo_hit_was_a_verdict_witness :
  fst (fzn_chain_memo_allows demo_memo (demo_key 1) (demo_key 2) (demo_key 3) 1 258) = false /\
  exists hops t revs man verdict,
    memo_verify hops (demo_key 1) (demo_key 3) t revs man ∈ [demo_verified] /\ fzn_revocation_generation revs = 1 /\
    fzn_chain_verify hops (demo_key 1) (demo_key 3) t toy_ops revs man = (FZN_CHAIN_OK, Some verdict) /\
    fzn_chain_verify hops (demo_key 1) (demo_key 3) 257 toy_ops revs man = (FZN_CHAIN_OK, Some verdict) /\
    ch_grantee verdict = demo_key 2.
Proof.
  split; [vm_compute; reflexivity|].
  apply (memo_hit_was_a_verdict toy_ops fresh_memo (Some (replicate 2 zero_memo_entry)) 2 fresh_memo
           [demo_verified] (demo_key 1) (demo_key 2) (demo_key 3) 1 257 (with_hit demo_memo)).
  - reflexivity.
  - vm_compute. reflexivity.
Defined.

(** This host knows it is missing a revocation of issuer 1's. *)
Definition behind_state : fzn_manifest_state :=
  mk_state (Some [mk_issuer (demo_key 1) 1 false]) 1
    (Some [mk_deficit (demo_key 1) (demo_key 3) (demo_key 2)]) 1.

(** A hit outlives the manifest gate. The chain verifies and is remembered;
    then a manifest names a revocation of the same grantor that this host does
    not hold. From there verification answers INCOMPLETE, and the memo, which
    neither the manifest nor its arrival invalidates, still allows the same
    root, grantee and capability. *)
Theorem memo_outlives_the_manifest_gate :
  fst (fzn_chain_verify [Some demo_hop] (demo_key 1) (demo_key 3) 200 toy_ops (Some memo_store)
         (Some behind_state)) = FZN_CHAIN_ERR_INCOMPLETE /\
  fst (fzn_chain_memo_allows demo_memo (demo_key 1) (demo_key 2) (demo_key 3)
         (fzn_revocation_generation (Some memo_store)) 200) = true.
Proof. split; vm_compute; reflexivity. Qed.
