(* ===== verification/Seal.v ===== *)
(** * wire/seal.c, session/commitment.c and the frame layout

    A datagram: a hop header anyone may rewrite, a head that is authenticated,
    a sealed body, a tag. The layout is the one the frame schema's generated
    accessors read ([wire/generated/frame.h], [frame.c]); a frame is the bytes
    received, and its length is the view's limit. The cipher, the hash and the
    source of nonces are supplied by the consumer. Pointers that the source
    refuses when NULL are given, but for the operations a consumer may leave
    out. *)

From S2P Require Import Prelude Bytes Hop Revocation.

(** ** session/commitment.c *)

Definition FZN_AEAD_KEY_LEN : Z := 32.
Definition FZN_COMMITMENT_KEY_LEN : Z := 32.
Definition FZN_COMMITMENT_LEN : Z := 16.
Definition FZN_AEAD_NONCE_LEN : Z := 24.
Definition FZN_AEAD_TAG_LEN : Z := 16.
Definition FZN_DERIVED_LEN : Z := FZN_AEAD_KEY_LEN + FZN_COMMITMENT_KEY_LEN.
Definition FZN_TRANSCRIPT_MAX : Z := 512.

Inductive fzn_commitment_err :=
| FZN_COMMITMENT_OK | FZN_COMMITMENT_ERR_MALFORMED | FZN_COMMITMENT_ERR_HASH | FZN_COMMITMENT_ERR_MISMATCH.

(** ["fuzznet-kdf-v2\0\0"] and ["fuzznet-bind-v1\0"]. *)
Definition FZN_ROOT_LABEL : bytes :=
  [102; 117; 122; 122; 110; 101; 116; 45; 107; 100; 102; 45; 118; 50; 0; 0].
Definition FZN_BIND_LABEL : bytes :=
  [102; 117; 122; 122; 110; 101; 116; 45; 98; 105; 110; 100; 45; 118; 49; 0].

(** The key and the commitment key derived from a transcript. *)
Definition fzn_commitment_derive_root (hash : option fzn_hash_ops) (transcript : bytes)
    : fzn_commitment_err * option (bytes * bytes) :=
  match hash with
  | None => (FZN_COMMITMENT_ERR_MALFORMED, None)
  | Some hash =>
    if (zlen transcript =? 0) || (zlen transcript >? FZN_TRANSCRIPT_MAX)
    then (FZN_COMMITMENT_ERR_MALFORMED, None)
    else match hash FZN_DERIVED_LEN (FZN_ROOT_LABEL ++ transcript) with
    | None => (FZN_COMMITMENT_ERR_HASH, None)
    | Some derived =>
      (FZN_COMMITMENT_OK,
       Some (slice 0 FZN_AEAD_KEY_LEN derived, slice FZN_AEAD_KEY_LEN FZN_COMMITMENT_KEY_LEN derived))
    end
  end.

Definition fzn_commitment_for_nonce (hash : option fzn_hash_ops) (commitment_key nonce : bytes)
    : fzn_commitment_err * option bytes :=
  match hash with
  | None => (FZN_COMMITMENT_ERR_MALFORMED, None)
  | Some hash =>
    match hash FZN_COMMITMENT_LEN (FZN_BIND_LABEL ++ commitment_key ++ nonce) with
    | None => (FZN_COMMITMENT_ERR_HASH, None)
    | Some derived => (FZN_COMMITMENT_OK, Some derived)
    end
  end.

Definition fzn_commitment_check (derived received : bytes) : fzn_commitment_err :=
  if memeq derived received then FZN_COMMITMENT_OK else FZN_COMMITMENT_ERR_MISMATCH.

(** ** The layout *)

Definition SITU_FZN_HOP_SIZE : Z := 5.
Definition SITU_FZN_HEAD_SIZE_FIXED : Z := 91.
Definition SITU_FZN_FRAME_SIZE_MIN : Z := 144.
Definition SITU_FZN_HEAD_LENGTH_VALUE_MAX : Z := 1024.
Definition FZN_SEAL_OVERHEAD : Z := 144.
Definition FZN_RELAY_MAX_HOPS : Z := 8.
Definition FZN_RELAY_SERVICE_MAX : Z := UINT16_MAX.

(** The hop header. *)
Definition frame_version (f : bytes) : Z := peek f 0.
Definition frame_hops_left (f : bytes) : Z := peek f 1.
Definition frame_service_hint (f : bytes) : Z := fzn_get_be16 f 2.

(** The head, at byte 5. *)
Definition frame_kind (f : bytes) : Z := peek f 5.
Definition frame_sender (f : bytes) : bytes := slice 6 32 f.
Definition frame_expires_at (f : bytes) : Z := fzn_get_be64 f 38.
Definition frame_nonce (f : bytes) : bytes := slice 46 24 f.
Definition frame_commitment (f : bytes) : bytes := slice 70 16 f.
Definition frame_msg (f : bytes) : Z := fzn_get_be32 f 86.
Definition frame_index (f : bytes) : Z := fzn_get_be16 f 90.
Definition frame_chunks (f : bytes) : Z := fzn_get_be16 f 92.
Definition frame_length (f : bytes) : Z := fzn_get_be16 f 94.

Definition situ_remaining_u32 (limit at_ : Z) : Z := if at_ >=? limit then 0 else limit - at_.
Definition situ_advance_u32 (at_ by_ limit : Z) : Z :=
  let room := situ_remaining_u32 limit at_ in at_ + (if by_ <? room then by_ else room).
Definition situ_in_bounds (limit offset extent : Z) : bool :=
  (extent <=? limit) && (offset <=? limit - extent).

Definition situ_fzn_frame_tag_offset (f : bytes) : Z :=
  situ_advance_u32 96 (32 + frame_length f) (zlen f).

Definition situ_fzn_kind_is_known (k : Z) : bool := (k =? 0) || (k =? 1) || (k =? 2) || (k =? 3).

Definition situ_fzn_hop_validate (f : bytes) : bool := (frame_version f =? 1) && (peek f 4 =? 0).

Definition situ_fzn_head_validate (f : bytes) : bool :=
  situ_fzn_kind_is_known (frame_kind f) && negb (frame_index f >? frame_chunks f - 1)
  && negb (frame_length f >? SITU_FZN_HEAD_LENGTH_VALUE_MAX).

Definition situ_fzn_frame_validate (f : bytes) : bool :=
  if zlen f <? SITU_FZN_FRAME_SIZE_MIN then false
  else if negb (situ_fzn_hop_validate f) then false
  else if negb (situ_fzn_head_validate f) then false
  else if situ_remaining_u32 (zlen f) 96 <? 32 + frame_length f then false
  else situ_in_bounds (zlen f) (situ_fzn_frame_tag_offset f) 16.

Definition views (f : bytes) : bool :=
  if zlen f >? UINT32_MAX then false
  else if zlen f <? SITU_FZN_FRAME_SIZE_MIN then false
  else if negb (situ_fzn_frame_validate f) then false
  else zlen f =? situ_fzn_frame_tag_offset f + 16.

(** What the tag covers: its offset and length, when it lies in the frame. *)
Definition situ_fzn_frame_tag_covered (f : bytes) : option (Z * Z) :=
  let start := SITU_FZN_HOP_SIZE in
  let end_ := situ_fzn_frame_tag_offset f in
  if (end_ <? start) || negb (situ_in_bounds (zlen f) start (end_ - start)) then None
  else Some (start, end_ - start).

(** ** wire/seal.c *)

Inductive fzn_seal_err :=
| FZN_SEAL_OK | FZN_SEAL_ERR_MALFORMED | FZN_SEAL_ERR_SHAPE | FZN_SEAL_ERR_TAG | FZN_SEAL_ERR_COMMITMENT
| FZN_SEAL_ERR_NO_NONCE | FZN_SEAL_ERR_CAPACITY | FZN_SEAL_ERR_HASH | FZN_SEAL_ERR_AEAD.

#[export] Instance fzn_seal_err_eq_dec : EqDecision fzn_seal_err.
Proof. solve_decision. Defined.

(** Both work in place: [seal key nonce aad text] gives its answer, the text
    and the tag it leaves; [open key nonce aad text tag] its answer and the
    text it leaves. *)
Record fzn_aead_ops := mk_aead {
  aead_seal : option (bytes -> bytes -> bytes -> bytes -> bool * bytes * bytes);
  aead_open : option (bytes -> bytes -> bytes -> bytes -> bytes -> bool * bytes)
}.

Record fzn_opened := mk_opened {
  o_capability : bytes;
  o_payload : bytes;
  o_sender : bytes;
  o_nonce : bytes;
  o_expires_at : Z;
  o_msg : Z;
  o_index : Z;
  o_chunks : Z;
  o_kind : Z
}.

Record fzn_peek := mk_peek {
  pk_sender : bytes;
  pk_nonce : bytes;
  pk_commitment : bytes;
  pk_expires_at : Z;
  pk_msg : Z;
  pk_index : Z;
  pk_chunks : Z;
  pk_kind : Z
}.

(** The payload's length as the accessor clamps it. *)
Definition situ_fzn_frame_sealed_payload_len (f : bytes) : Z :=
  Z.min (frame_length f) (situ_remaining_u32 (zlen f) 128).

(** What the opened frame's pointers read. *)
Definition opened_of (f : bytes) : fzn_opened :=
  mk_opened (slice 96 32 f) (slice 128 (situ_fzn_frame_sealed_payload_len f) f) (frame_sender f)
    (frame_nonce f) (frame_expires_at f) (frame_msg f) (frame_index f) (frame_chunks f) (frame_kind f).

Definition fzn_seal_open (frame key commitment_key : bytes) (hash : option fzn_hash_ops)
    (aead : fzn_aead_ops) : fzn_seal_err * bytes * option fzn_opened :=
  match hash, aead_open aead with
  | Some _, Some open =>
    if negb (views frame) then (FZN_SEAL_ERR_SHAPE, frame, None)
    else match fzn_commitment_for_nonce hash commitment_key (frame_nonce frame) with
    | (FZN_COMMITMENT_OK, Some derived) =>
      match fzn_commitment_check derived (frame_commitment frame) with
      | FZN_COMMITMENT_OK =>
        match situ_fzn_frame_tag_covered frame with
        | None => (FZN_SEAL_ERR_SHAPE, frame, None)
        | Some (covered_at, covered_len) =>
          let head_len := SITU_FZN_HEAD_SIZE_FIXED in
          if covered_len <? head_len then (FZN_SEAL_ERR_SHAPE, frame, None)
          else
            let tag := slice (situ_fzn_frame_tag_offset frame) 16 frame in
            let sealed_at := covered_at + head_len in
            let sealed_len := covered_len - head_len in
            let '(verified, text) :=
              open key (frame_nonce frame) (slice covered_at head_len frame)
                (slice sealed_at sealed_len frame) tag in
            let frame := blit sealed_at text frame in
            if verified then (FZN_SEAL_OK, frame, Some (opened_of frame))
            else (FZN_SEAL_ERR_TAG, frame, None)
        end
      | _ => (FZN_SEAL_ERR_COMMITMENT, frame, None)
      end
    | _ => (FZN_SEAL_ERR_HASH, frame, None)
    end
  | _, _ => (FZN_SEAL_ERR_MALFORMED, frame, None)
  end.

Definition fzn_seal_peek (frame : bytes) : fzn_seal_err * option fzn_peek :=
  if negb (views frame) then (FZN_SEAL_ERR_SHAPE, None)
  else
    (FZN_SEAL_OK,
     Some (mk_peek (frame_sender frame) (frame_nonce frame) (frame_commitment frame)
             (frame_expires_at frame) (frame_msg frame) (frame_index frame) (frame_chunks frame)
             (frame_kind frame))).

Definition fzn_seal_peek_sender (frame : bytes) : fzn_seal_err * option bytes :=
  match fzn_seal_peek frame with
  | (FZN_SEAL_OK, Some head) => (FZN_SEAL_OK, Some (pk_sender head))
  | (err, _) => (err, None)
  end.

Definition fzn_seal_close (frame key : bytes) (aead : fzn_aead_ops) : fzn_seal_err * bytes :=
  match aead_seal aead with
  | None => (FZN_SEAL_ERR_MALFORMED, frame)
  | Some seal =>
    if negb (views frame) then (FZN_SEAL_ERR_SHAPE, frame)
    else match situ_fzn_frame_tag_covered frame with
    | None => (FZN_SEAL_ERR_SHAPE, frame)
    | Some (covered_at, covered_len) =>
      let head_len := SITU_FZN_HEAD_SIZE_FIXED in
      if covered_len <? head_len then (FZN_SEAL_ERR_SHAPE, frame)
      else
        let sealed_at := covered_at + head_len in
        let '(ok, text, tag) :=
          seal key (frame_nonce frame) (slice covered_at head_len frame)
            (slice sealed_at (covered_len - head_len) frame) in
        let frame := blit (situ_fzn_frame_tag_offset frame) tag (blit sealed_at text frame) in
        if ok then (FZN_SEAL_OK, frame) else (FZN_SEAL_ERR_AEAD, frame)
    end
  end.

(** [length o_payload] is [payload_len]. *)
Record fzn_send := mk_send {
  s_sender : bytes;
  s_capability : bytes;
  s_payload : bytes;
  s_expires_at : Z;
  s_msg : Z;
  s_index : Z;
  s_chunks : Z;
  s_kind : Z;
  s_hops : Z;
  s_service_hint : Z
}.

(** The writes of [fzn_seal_build] into the zeroed frame. *)
Definition frame_write (total : Z) (what : fzn_send) (nonce commitment : bytes) : bytes :=
  let f := zeros total in
  let f := poke f 0 1 in
  let f := poke f 1 (s_hops what) in
  let f := fzn_put_be16 f 2 (s_service_hint what) in
  let f := poke f 5 (s_kind what) in
  let f := fzn_put_be64 f 38 (s_expires_at what) in
  let f := fzn_put_be32 f 86 (s_msg what) in
  let f := fzn_put_be16 f 90 (s_index what) in
  let f := fzn_put_be16 f 92 (s_chunks what) in
  let f := fzn_put_be16 f 94 (zlen (s_payload what)) in
  let f := blit 6 (s_sender what) f in
  let f := blit 46 nonce f in
  let f := blit 70 commitment f in
  let f := blit 96 (s_capability what) f in
  if zlen (s_payload what) >? 0 then blit 128 (s_payload what) f else f.

(** [draw] is the nonce the source of randomness gives, or its refusal. The
    result is the buffer and, when built, the length of the frame in it. *)
Definition fzn_seal_build (frame : bytes) (what : fzn_send) (key commitment_key : bytes)
    (hash : option fzn_hash_ops) (draw : option bytes) (aead : fzn_aead_ops)
    : fzn_seal_err * bytes * option Z :=
  let payload_len := zlen (s_payload what) in
  match hash, aead_seal aead with
  | Some _, Some _ =>
    if s_hops what >? FZN_RELAY_MAX_HOPS then (FZN_SEAL_ERR_MALFORMED, frame, None)
    else if s_service_hint what >? FZN_RELAY_SERVICE_MAX then (FZN_SEAL_ERR_MALFORMED, frame, None)
    else if payload_len >? SITU_FZN_HEAD_LENGTH_VALUE_MAX then (FZN_SEAL_ERR_SHAPE, frame, None)
    else if negb (situ_fzn_kind_is_known (s_kind what)) then (FZN_SEAL_ERR_SHAPE, frame, None)
    else if s_index what >? s_chunks what - 1 then (FZN_SEAL_ERR_SHAPE, frame, None)
    else
      let total := FZN_SEAL_OVERHEAD + payload_len in
      if zlen frame <? total then (FZN_SEAL_ERR_CAPACITY, frame, None)
      else match draw with
      | None => (FZN_SEAL_ERR_NO_NONCE, frame, None)
      | Some nonce =>
        match fzn_commitment_for_nonce hash commitment_key nonce with
        | (FZN_COMMITMENT_OK, Some commitment) =>
          match fzn_seal_close (frame_write total what nonce commitment) key aead with
          | (FZN_SEAL_OK, f) => (FZN_SEAL_OK, blit 0 f frame, Some total)
          | (err, f) => (err, blit 0 (zeros total) frame, None)
          end
        | _ => (FZN_SEAL_ERR_HASH, frame, None)
        end
      end
  | _, _ => (FZN_SEAL_ERR_MALFORMED, frame, None)
  end.

(** ** A buffer after a sequence of stores *)

Section Writes.
Implicit Types (f : bytes) (ws : list (Z * bytes)).

Definition writes ws f : bytes := fold_left (fun f w => blit (fst w) (snd w) f) ws f.

Definition fits n (w : Z * bytes) : Prop := 0 <= fst w /\ fst w + zlen (snd w) <= n.
Definition apart (o n : Z) (w : Z * bytes) : Prop := fst w + zlen (snd w) <= o \/ o + n <= fst w.

Lemma zlen_writes ws : forall f, Forall (fits (zlen f)) ws -> zlen (writes ws f) = zlen f.
Proof.
  induction ws as [|[o s] ws IH]; intros f H; [done|]. apply Forall_cons_iff in H as [[Ho Hs] H].
  cbn in *. rewrite IH; rewrite zlen_blit by done; done.
Qed.

Lemma writes_apart ws o n : forall f,
  0 <= o -> 0 <= n -> Forall (fits (zlen f)) ws -> Forall (apart o n) ws ->
  slice o n (writes ws f) = slice o n f.
Proof.
  induction ws as [|[o' s] ws IH]; intros f Ho Hn Hf Ha; [done|].
  apply Forall_cons_iff in Hf as [[Ho' Hs] Hf], Ha as [Ha1 Ha]. unfold apart in Ha1. cbn in *.
  rewrite IH; [|done|done|by rewrite zlen_blit|done]. apply slice_blit_disjoint; try done. lia.
Qed.

(** A store that no later one touches is read back. *)
Lemma writes_read ws k o s f :
  ws !! k = Some (o, s) -> Forall (fits (zlen f)) ws -> Forall (apart o (zlen s)) (drop (S k) ws) ->
  slice o (zlen s) (writes ws f) = s.
Proof.
  intros Hk Hf Ha. rewrite <- (take_drop_middle _ _ _ Hk) in Hf |- *.
  unfold writes. rewrite fold_left_app. cbn [fold_left fst snd].
  apply Forall_app in Hf as [Hf1 Hf2]. apply Forall_cons_iff in Hf2 as [[Ho Hs] Hf2]. cbn in Ho, Hs.
  change (fold_left _ (take k ws) f) with (writes (take k ws) f).
  pose proof (zlen_writes (take k ws) f Hf1) as Hl.
  change (fold_left _ (drop (S k) ws) ?x) with (writes (drop (S k) ws) x).
  rewrite writes_apart; [apply slice_blit_same; lia|done|apply zlen_nonneg| |done].
  rewrite zlen_blit, Hl by lia. done.
Qed.
End Writes.

(** ** The frame that is built *)

Section Built.
Context (what : fzn_send) (nonce commitment : bytes).
Let n := zlen (s_payload what).
Let total := FZN_SEAL_OVERHEAD + n.

(** A message a sender may ask for, in its widths. *)
Record send_ok : Prop := {
  sk_sender : zlen (s_sender what) = 32;
  sk_capability : zlen (s_capability what) = 32;
  sk_expires : in_u64 (s_expires_at what);
  sk_msg : in_u32 (s_msg what);
  sk_index : 0 <= s_index what;
  sk_chunks : in_u16 (s_chunks what);
  sk_kind : in_u8 (s_kind what);
  sk_hops : in_u8 (s_hops what);
  sk_hint : 0 <= s_service_hint what
}.

Definition head_writes : list (Z * bytes) :=
  [(0, [u8 1]); (1, [u8 (s_hops what)]); (2, be16 (s_service_hint what)); (5, [u8 (s_kind what)]);
   (38, be64 (s_expires_at what)); (86, be32 (s_msg what)); (90, be16 (s_index what));
   (92, be16 (s_chunks what)); (94, be16 n); (6, s_sender what); (46, nonce); (70, commitment);
   (96, s_capability what); (128, s_payload what)].

Lemma frame_write_writes : frame_write total what nonce commitment = writes head_writes (zeros total).
Proof.
  unfold frame_write, head_writes, writes, poke, fzn_put_be16, fzn_put_be32, fzn_put_be64.
  cbn [fold_left fst snd]. fold n. destruct (Z.gtb_spec n 0); [done|].
  assert (s_payload what = []) as -> by (destruct (s_payload what); [done|]; unfold n, zlen in *; cbn in *; lia).
  by rewrite blit_nil.
Qed.

(** The head writes, then what sealing leaves: text over the body, the tag. *)
Definition sealed_writes (text tag : bytes) : list (Z * bytes) :=
  head_writes ++ [(96, text); (128 + n, tag)].

Hypothesis Hok : send_ok.
Hypothesis Hnonce : zlen nonce = 24.
Hypothesis Hcommit : zlen commitment = 16.
Context (text tag : bytes).
Hypothesis Htext : zlen text = 32 + n.
Hypothesis Htag : zlen tag = 16.

Lemma zlen_total : zlen (zeros total) = total.
Proof. apply zlen_zeros. pose proof (zlen_nonneg (s_payload what)). unfold total, FZN_SEAL_OVERHEAD, n. lia. Qed.

Ltac lens := pose proof (zlen_nonneg (s_payload what)); destruct Hok;
  repeat (apply Forall_cons_iff; split; [|]); try exact (List.Forall_nil _); unfold fits, apart; cbn [fst snd];
  rewrite ?zlen_be64; change (zlen (be16 _)) with 2; change (zlen (be32 _)) with 4;
  change (zlen [_]) with 1; unfold total, FZN_SEAL_OVERHEAD, n in *; lia.

Lemma sealed_fits : Forall (fits (zlen (zeros total))) (sealed_writes text tag).
Proof. rewrite zlen_total. unfold sealed_writes, head_writes. cbn [app]. lens. Qed.

Lemma head_fits : Forall (fits (zlen (zeros total))) head_writes.
Proof. pose proof sealed_fits as H. unfold sealed_writes in H. by apply Forall_app in H as [? _]. Qed.

(** Every field of the head reads as it was sent. *)
Record head_reads (f : bytes) : Prop := {
  hr_len : zlen f = total;
  hr_version : frame_version f = 1;
  hr_hops : frame_hops_left f = s_hops what;
  hr_hint : frame_service_hint f = s_service_hint what;
  hr_reserved : peek f 4 = 0;
  hr_kind : frame_kind f = s_kind what;
  hr_sender : frame_sender f = s_sender what;
  hr_expires : frame_expires_at f = s_expires_at what;
  hr_nonce : frame_nonce f = nonce;
  hr_commitment : frame_commitment f = commitment;
  hr_msg : frame_msg f = s_msg what;
  hr_index : frame_index f = s_index what;
  hr_chunks : frame_chunks f = s_chunks what;
  hr_length : frame_length f = n
}.

Context (rest : list (Z * bytes)).
Hypothesis Hrest : Forall (fun w => 96 <= fst w) rest.
Hypothesis Hfits : Forall (fits (zlen (zeros total))) (head_writes ++ rest).
Hypothesis Hindex : s_index what <= s_chunks what - 1.
Hypothesis Hlen : n <= SITU_FZN_HEAD_LENGTH_VALUE_MAX.
Hypothesis Hhint : s_service_hint what <= FZN_RELAY_SERVICE_MAX.

Let f := writes (head_writes ++ rest) (zeros total).

(** The [k]-th store of the head, at [o], is read back. *)
Lemma head_read k o w m :
  head_writes !! k = Some (o, w) -> zlen w = m -> o + m <= 96 -> Forall (apart o m) (drop (S k) head_writes) ->
  slice o m f = w.
Proof.
  intros Hk <- Hm Ha. apply (writes_read _ k); [by apply lookup_app_l_Some|done|].
  rewrite drop_app_le by (apply lookup_lt_Some in Hk; lia). apply Forall_app. split; [done|].
  eapply list.Forall_impl; [exact Hrest|]. intros [o' w'] Ho'. cbn in Ho'. right. cbn. lia.
Qed.

Lemma built_reads : head_reads f.
Proof.
  pose proof (zlen_nonneg (s_payload what)) as Hn0. destruct (Hok).
  assert (in_u16 n) by (unfold SITU_FZN_HEAD_LENGTH_VALUE_MAX, n in *; ulia).
  assert (in_u16 (s_index what)) by ulia.
  assert (forall k o w m, head_writes !! k = Some (o, w) -> zlen w = m -> o + m <= 96 ->
    Forall (apart o m) (drop (S k) head_writes) -> slice o m f = w) as R by apply head_read.
  split.
  - unfold f. rewrite zlen_writes by done. apply zlen_total.
  - apply peek_of; [lia|]. apply (R 0%nat 0 [u8 1]); [done|done|lia|]. clear R. cbn [drop head_writes]. lens.
  - unfold frame_hops_left. rewrite <- (u8_small (s_hops what)) by done. apply peek_of; [lia|].
    eapply (R 1%nat); [reflexivity|auto|lia|]. clear R. cbn [drop head_writes]. lens.
  - assert (in_u16 (s_service_hint what)) by (unfold FZN_RELAY_SERVICE_MAX in *; ulia).
    unfold frame_service_hint. apply get_be16_of; [lia|assumption|].
    eapply (R 2%nat); [reflexivity|auto|lia|]. clear R. cbn [drop head_writes]. lens.
  - apply peek_of; [lia|]. unfold f. rewrite writes_apart; [|lia|lia|done|].
    + unfold zeros, slice. rewrite drop_replicate, take_replicate.
      match goal with |- replicate ?k _ = _ => replace k with 1%nat; [done|] end.
      unfold total, FZN_SEAL_OVERHEAD, n. lia.
    + apply Forall_app. split; [unfold head_writes; lens|].
      eapply list.Forall_impl; [exact Hrest|]. intros [o' w'] Ho'. cbn in Ho'. right. cbn. lia.
  - unfold frame_kind. rewrite <- (u8_small (s_kind what)) by done. apply peek_of; [lia|].
    eapply (R 3%nat); [reflexivity|auto|lia|]. clear R. cbn [drop head_writes]. lens.
  - eapply (R 9%nat); [reflexivity|auto|lia|]. clear R. cbn [drop head_writes]. lens.
  - unfold frame_expires_at. apply get_be64_of; [lia|assumption|]. eapply (R 4%nat); [reflexivity|auto|lia|]. clear R. cbn [drop head_writes]. lens.
  - eapply (R 10%nat); [reflexivity|auto|lia|]. clear R. cbn [drop head_writes]. lens.
  - eapply (R 11%nat); [reflexivity|auto|lia|]. clear R. cbn [drop head_writes]. lens.
  - unfold frame_msg. apply get_be32_of; [lia|assumption|]. eapply (R 5%nat); [reflexivity|auto|lia|]. clear R. cbn [drop head_writes]. lens.
  - unfold frame_index. apply get_be16_of; [lia|assumption|]. eapply (R 6%nat); [reflexivity|auto|lia|]. clear R. cbn [drop head_writes]. lens.
  - unfold frame_chunks. apply get_be16_of; [lia|assumption|]. eapply (R 7%nat); [reflexivity|auto|lia|]. clear R. cbn [drop head_writes]. lens.
  - unfold frame_length. apply get_be16_of; [lia|assumption|]. eapply (R 8%nat); [reflexivity|auto|lia|]. clear R. cbn [drop head_writes]. lens.
Qed.
End Built.

(** A frame whose head reads so is one the receiver looks at. *)
Lemma reads_views what nonce commitment f :
  head_reads what nonce commitment f -> situ_fzn_kind_is_known (s_kind what) = true ->
  s_index what <= s_chunks what - 1 -> zlen (s_payload what) <= SITU_FZN_HEAD_LENGTH_VALUE_MAX ->
  situ_fzn_frame_tag_offset f = 128 + zlen (s_payload what) /\ views f = true /\
  situ_fzn_frame_tag_covered f = Some (5, 123 + zlen (s_payload what)).
Proof.
  intros [Hl Hv _ _ Hz Hk _ _ _ _ _ Hi Hc Hn] Hkn Hic Hn1. pose proof (zlen_nonneg (s_payload what)).
  unfold FZN_SEAL_OVERHEAD, SITU_FZN_HEAD_LENGTH_VALUE_MAX in *.
  assert (situ_fzn_frame_tag_offset f = 128 + zlen (s_payload what)) as Ho.
  { unfold situ_fzn_frame_tag_offset, situ_advance_u32, situ_remaining_u32. rewrite Hn, Hl.
    guards; lia. }
  split_and!; [done| |].
  - unfold views, situ_fzn_frame_validate, situ_fzn_hop_validate, situ_fzn_head_validate,
      situ_remaining_u32, situ_in_bounds, SITU_FZN_FRAME_SIZE_MIN, SITU_FZN_HEAD_LENGTH_VALUE_MAX.
    rewrite Ho, Hv, Hz, Hk, Hkn, Hi, Hc, Hn, Hl. cbn [andb]. width. guards; lia.
  - unfold situ_fzn_frame_tag_covered, situ_in_bounds, SITU_FZN_HOP_SIZE. rewrite Ho, Hl.
    guards; [lia|]. do 2 f_equal. lia.
Qed.

(** ** What an authenticated cipher promises a pair of hosts *)

Record aead_ok (aead : fzn_aead_ops)
    (seal : bytes -> bytes -> bytes -> bytes -> bool * bytes * bytes)
    (open : bytes -> bytes -> bytes -> bytes -> bytes -> bool * bytes) : Prop := {
  ao_seal : aead_seal aead = Some seal;
  ao_open : aead_open aead = Some open;
  ao_roundtrip : forall key nonce aad text text' tag,
    seal key nonce aad text = (true, text', tag) ->
    zlen text' = zlen text /\ zlen tag = FZN_AEAD_TAG_LEN /\ open key nonce aad text' tag = (true, text)
}.

Definition sent_as (what : fzn_send) (nonce : bytes) : fzn_opened :=
  mk_opened (s_capability what) (s_payload what) (s_sender what) nonce (s_expires_at what) (s_msg what)
    (s_index what) (s_chunks what) (s_kind what).

Lemma views_open f what nonce commitment : head_reads what nonce commitment f ->
  slice 96 32 f = s_capability what -> slice 128 (zlen (s_payload what)) f = s_payload what ->
  opened_of f = sent_as what nonce.
Proof.
  intros [Hl _ _ _ _ Hk Hs He Hn Hc Hm Hi Hch Hlen] Hcap Hpay. unfold opened_of, sent_as.
  rewrite Hk, Hs, He, Hn, Hm, Hi, Hch, Hcap.
  assert (situ_fzn_frame_sealed_payload_len f = zlen (s_payload what)) as ->; [|by rewrite Hpay].
  unfold situ_fzn_frame_sealed_payload_len, situ_remaining_u32. rewrite Hlen, Hl.
  unfold FZN_SEAL_OVERHEAD. pose proof (zlen_nonneg (s_payload what)). guards; lia.
Qed.

Section Roundtrip.
Context (what : fzn_send) (nonce commitment : bytes) (key : bytes) (aead : fzn_aead_ops).
Context (seal : bytes -> bytes -> bytes -> bytes -> bool * bytes * bytes).
Context (open : bytes -> bytes -> bytes -> bytes -> bytes -> bool * bytes).
Hypothesis Hok : send_ok what.
Hypothesis Hnonce : zlen nonce = 24.
Hypothesis Hcommit : zlen commitment = 16.
Hypothesis Haead : aead_ok aead seal open.
Hypothesis Hkind : situ_fzn_kind_is_known (s_kind what) = true.
Hypothesis Hindex : s_index what <= s_chunks what - 1.
Hypothesis Hlen : zlen (s_payload what) <= SITU_FZN_HEAD_LENGTH_VALUE_MAX.
Hypothesis Hhint : s_service_hint what <= FZN_RELAY_SERVICE_MAX.
Let n := zlen (s_payload what).
Let total := FZN_SEAL_OVERHEAD + n.
Let f1 := writes (head_writes what nonce commitment) (zeros total).

Lemma n_nonneg : 0 <= n.
Proof. apply zlen_nonneg. Qed.

(** Bytes for a text and a tag of the right lengths, to reuse the layout. *)
Lemma written_reads rest :
  Forall (fun w => 96 <= fst w) rest -> Forall (fits total) rest ->
  head_reads what nonce commitment (writes (head_writes what nonce commitment ++ rest) (zeros total)).
Proof.
  intros Hr Hf. pose proof n_nonneg as Hn. apply built_reads; auto. apply Forall_app. split.
  - apply (head_fits what nonce commitment Hok Hnonce Hcommit (zeros (32 + n)) (zeros 16));
      apply zlen_zeros; unfold n in *; lia.
  - rewrite zlen_total. exact Hf.
Qed.

Lemma unsealed_reads : head_reads what nonce commitment f1.
Proof. unfold f1. rewrite <- (app_nil_r (head_writes _ _ _)). apply written_reads; apply List.Forall_nil. Qed.

Lemma zlen_f1 : zlen f1 = total.
Proof. apply unsealed_reads. Qed.

(** The body before it is sealed. *)
Lemma unsealed_body : slice 96 32 f1 = s_capability what /\ slice 128 n f1 = s_payload what.
Proof.
  pose proof n_nonneg as Hn. destruct (Hok) as [_ Hcap _ _ _ _ _ _ _].
  assert (Forall (fits (zlen (zeros total))) (head_writes what nonce commitment)) as Hf.
  { apply (head_fits what nonce commitment Hok Hnonce Hcommit (zeros (32 + n)) (zeros 16));
      apply zlen_zeros; unfold n in *; lia. }
  split.
  - rewrite <- Hcap. apply (writes_read _ 12); [reflexivity|exact Hf|].
    cbn [drop head_writes]. repeat (apply Forall_cons_iff; split; [|]); [|apply List.Forall_nil].
    right. cbn. lia.
  - apply (writes_read _ 13); [reflexivity|exact Hf|]. cbn [drop head_writes]. apply List.Forall_nil.
Qed.

Context (text tag : bytes).
Hypothesis Hseal : seal key nonce (slice 5 91 f1) (slice 96 (32 + n) f1) = (true, text, tag).
Let f2 := blit (128 + n) tag (blit 96 text f1).

Lemma sealed_lens : zlen text = 32 + n /\ zlen tag = 16.
Proof.
  pose proof n_nonneg. destruct Haead as [_ _ Hrt]. destruct (Hrt _ _ _ _ _ _ Hseal) as (Hl & Ht & _).
  split; [|done]. rewrite Hl. apply zlen_slice; rewrite ?zlen_f1; unfold total, FZN_SEAL_OVERHEAD; lia.
Qed.

Lemma rest_fits : Forall (fits total) [(96, text); (128 + n, tag)].
Proof.
  pose proof n_nonneg. destruct sealed_lens. repeat (apply Forall_cons_iff; split; [|]);
    [| |apply List.Forall_nil]; unfold fits, total, FZN_SEAL_OVERHEAD; cbn [fst snd]; lia.
Qed.

Lemma sealed_reads : head_reads what nonce commitment f2.
Proof.
  assert (f2 = writes (head_writes what nonce commitment ++ [(96, text); (128 + n, tag)]) (zeros total)) as ->
    by (unfold writes; rewrite fold_left_app; reflexivity).
  apply written_reads; [|apply rest_fits]. pose proof n_nonneg.
  repeat (apply Forall_cons_iff; split; [cbn; lia|]). apply List.Forall_nil.
Qed.

(** What the receiver hands the cipher, and what the frame is after it. *)
Lemma sealed_parts :
  slice 5 91 f2 = slice 5 91 f1 /\ slice 96 (32 + n) f2 = text /\ slice (128 + n) 16 f2 = tag.
Proof.
  pose proof n_nonneg. destruct sealed_lens as [Ht Hg]. pose proof zlen_f1 as Hz.
  unfold total, FZN_SEAL_OVERHEAD in Hz. assert (zlen (blit 96 text f1) = zlen f1) as Hb by (apply zlen_blit; lia).
  unfold f2. split_and!.
  - rewrite !slice_blit_disjoint by lia. done.
  - rewrite slice_blit_disjoint, <- Ht by lia. apply slice_blit_same; lia.
  - rewrite <- Hg. apply slice_blit_same; lia.
Qed.

Lemma reopened : opened_of (blit 96 (slice 96 (32 + n) f1) f2) = sent_as what nonce.
Proof.
  pose proof n_nonneg. destruct sealed_lens as [Ht Hg], unsealed_body as [Hc Hp]. pose proof zlen_f1 as Hz.
  unfold total, FZN_SEAL_OVERHEAD in Hz.
  assert (zlen (slice 96 (32 + n) f1) = 32 + n) as Hs by (apply zlen_slice; lia).
  assert (zlen f2 = 144 + n) as H2 by (unfold f2; rewrite !zlen_blit; rewrite ?zlen_blit; lia).
  apply (views_open _ _ _ commitment).
  - assert (blit 96 (slice 96 (32 + n) f1) f2
      = writes (head_writes what nonce commitment
                ++ [(96, text); (128 + n, tag); (96, slice 96 (32 + n) f1)]) (zeros total)) as ->
      by (unfold writes; rewrite fold_left_app; reflexivity).
    apply written_reads; repeat (apply Forall_cons_iff; split; [|]); try apply List.Forall_nil;
      unfold fits, total, FZN_SEAL_OVERHEAD; cbn [fst snd]; lia.
  - replace (slice 96 32 (blit 96 (slice 96 (32 + n) f1) f2))
      with (slice 0 32 (slice 96 (32 + n) (blit 96 (slice 96 (32 + n) f1) f2)))
      by (rewrite slice_slice by lia; done).
    rewrite <- Hs at 1. rewrite slice_blit_same by lia. rewrite slice_slice by lia. exact Hc.
  - replace (slice 128 (zlen (s_payload what)) (blit 96 (slice 96 (32 + n) f1) f2))
      with (slice 32 n (slice 96 (32 + n) (blit 96 (slice 96 (32 + n) f1) f2)))
      by (rewrite slice_slice by lia; done).
    rewrite <- Hs at 1. rewrite slice_blit_same by lia. rewrite slice_slice by lia. exact Hp.
Qed.
End Roundtrip.

(** The frame a successful build leaves, and what let it through. *)
Lemma build_inv frame what key commitment_key hash nonce aead seal open frame' total :
  send_ok what -> zlen nonce = FZN_AEAD_NONCE_LEN -> aead_ok aead seal open ->
  (forall x d, hash FZN_COMMITMENT_LEN x = Some d -> zlen d = FZN_COMMITMENT_LEN) ->
  fzn_seal_build frame what key commitment_key (Some hash) (Some nonce) aead
    = (FZN_SEAL_OK, frame', Some total) ->
  let n := zlen (s_payload what) in
  exists d text tag, let f1 := writes (head_writes what nonce d) (zeros (FZN_SEAL_OVERHEAD + n)) in
    hash FZN_COMMITMENT_LEN (FZN_BIND_LABEL ++ commitment_key ++ nonce) = Some d /\
    s_service_hint what <= FZN_RELAY_SERVICE_MAX /\ n <= SITU_FZN_HEAD_LENGTH_VALUE_MAX /\
    situ_fzn_kind_is_known (s_kind what) = true /\ s_index what <= s_chunks what - 1 /\
    FZN_SEAL_OVERHEAD + n <= zlen frame /\ total = FZN_SEAL_OVERHEAD + n /\
    seal key nonce (slice 5 91 f1) (slice 96 (32 + n) f1) = (true, text, tag) /\
    frame' = blit 0 (blit (128 + n) tag (blit 96 text f1)) frame.
Proof.
  intros Hok Hn24 [Es _ _] Hhash Hb. unfold fzn_seal_build in Hb. pose proof (zlen_nonneg (s_payload what)).
  rewrite Es in Hb. intros n.
  destruct (s_hops what >? _); [done|]. destruct (Z.gtb_spec (s_service_hint what) FZN_RELAY_SERVICE_MAX); [done|].
  destruct (Z.gtb_spec (zlen (s_payload what)) SITU_FZN_HEAD_LENGTH_VALUE_MAX); [done|].
  destruct (situ_fzn_kind_is_known (s_kind what)) eqn:Hk; [cbn [negb] in Hb|done].
  destruct (Z.gtb_spec (s_index what) (s_chunks what - 1)); [done|].
  destruct (Z.ltb_spec (zlen frame) (FZN_SEAL_OVERHEAD + zlen (s_payload what))) as [|Hcap]; [done|].
  unfold fzn_commitment_for_nonce in Hb.
  destruct (hash FZN_COMMITMENT_LEN (FZN_BIND_LABEL ++ commitment_key ++ nonce)) as [d|] eqn:Hd; [|done].
  assert (zlen d = 16) by (by apply (Hhash _ _ Hd)).
  rewrite frame_write_writes in Hb. set (f1 := writes _ _) in Hb.
  assert (head_reads what nonce d f1) as Hr1 by (by apply unsealed_reads).
  destruct (reads_views _ _ _ _ Hr1) as (Ho1 & Hv1 & Hc1); [done..|].
  unfold fzn_seal_close in Hb. rewrite Es, Hv1, Hc1, Ho1, (hr_nonce _ _ _ _ Hr1) in Hb. cbn [negb] in Hb.
  unfold SITU_FZN_HEAD_SIZE_FIXED in Hb.
  destruct (Z.ltb_spec (123 + zlen (s_payload what)) 91); [lia|].
  change (5 + 91) with 96 in Hb.
  replace (123 + zlen (s_payload what) - 91) with (32 + zlen (s_payload what)) in Hb by lia.
  destruct (seal key nonce (slice 5 91 f1) (slice 96 (32 + zlen (s_payload what)) f1))
    as [[[|] text] tag] eqn:Hs; [|done].
  exists d, text, tag. cbv zeta. apply pair_equal_spec in Hb as [[_ <-]%pair_equal_spec [= <-]].
  split_and!; try done.
Qed.

(** The receiver's half. *)
Lemma open_sealed what key commitment_key hash nonce aead seal open d text tag :
  send_ok what -> zlen nonce = FZN_AEAD_NONCE_LEN -> zlen d = 16 -> aead_ok aead seal open ->
  situ_fzn_kind_is_known (s_kind what) = true -> s_index what <= s_chunks what - 1 ->
  zlen (s_payload what) <= SITU_FZN_HEAD_LENGTH_VALUE_MAX -> s_service_hint what <= FZN_RELAY_SERVICE_MAX ->
  hash FZN_COMMITMENT_LEN (FZN_BIND_LABEL ++ commitment_key ++ nonce) = Some d ->
  let n := zlen (s_payload what) in
  let f1 := writes (head_writes what nonce d) (zeros (FZN_SEAL_OVERHEAD + n)) in
  let f2 := blit (128 + n) tag (blit 96 text f1) in
  seal key nonce (slice 5 91 f1) (slice 96 (32 + n) f1) = (true, text, tag) ->
  fzn_seal_open f2 key commitment_key (Some hash) aead
  = (FZN_SEAL_OK, blit 96 (slice 96 (32 + n) f1) f2, Some (sent_as what nonce)).
Proof.
  intros Hok Hn24 Hd16 Haead Hk Hi Hl Hh Hd n f1 f2 Hs. pose proof (zlen_nonneg (s_payload what)).
  assert (head_reads what nonce d f2) as Hr2 by (by eapply sealed_reads).
  destruct (reads_views _ _ _ _ Hr2) as (Ho2 & Hv2 & Hc2); [done..|].
  destruct (sealed_parts what nonce d key aead seal open) with text tag as (P1 & P2 & P3); [done..|].
  fold n f1 f2 in P1, P2, P3, Ho2, Hc2.
  unfold fzn_seal_open. destruct (Haead) as [_ Eo Hrt]. rewrite Eo, Hv2. cbn [negb].
  rewrite (hr_nonce _ _ _ _ Hr2), (hr_commitment _ _ _ _ Hr2). unfold fzn_commitment_for_nonce. rewrite Hd.
  unfold fzn_commitment_check. rewrite memeq_refl, Hc2, Ho2. unfold SITU_FZN_HEAD_SIZE_FIXED.
  destruct (Z.ltb_spec (123 + n) 91); [unfold n in *; lia|]. change (5 + 91) with 96.
  replace (123 + n - 91) with (32 + n) by lia. rewrite P1, P2, P3.
  destruct (Hrt _ _ _ _ _ _ Hs) as (_ & _ & ->). do 2 f_equal. by eapply reopened.
Qed.

(** What is sealed is what is opened. A frame that [fzn_seal_build] builds
    in a caller's buffer, taken off the wire, is one the receiver looks at; its
    head and hop header read, before any key is used, as they were sent; and
    opening it with the same two keys recovers the capability, the payload byte
    for byte and every field of the head, under any cipher whose opening
    inverts its sealing and any hash that fills what it is asked to fill. *)
Theorem seal_roundtrip frame what key commitment_key hash nonce aead seal open frame' total :
  send_ok what -> zlen nonce = FZN_AEAD_NONCE_LEN -> aead_ok aead seal open ->
  (forall x d, hash FZN_COMMITMENT_LEN x = Some d -> zlen d = FZN_COMMITMENT_LEN) ->
  fzn_seal_build frame what key commitment_key (Some hash) (Some nonce) aead
    = (FZN_SEAL_OK, frame', Some total) ->
  let received := slice 0 total frame' in
  total = FZN_SEAL_OVERHEAD + zlen (s_payload what) /\ zlen frame' = zlen frame /\
  frame_hops_left received = s_hops what /\ frame_service_hint received = s_service_hint what /\
  (exists commitment,
     fzn_seal_peek received = (FZN_SEAL_OK, Some (mk_peek (s_sender what) nonce commitment
       (s_expires_at what) (s_msg what) (s_index what) (s_chunks what) (s_kind what)))) /\
  exists plain,
    fzn_seal_open received key commitment_key (Some hash) aead
    = (FZN_SEAL_OK, plain, Some (sent_as what nonce)).
Proof.
  intros Hok Hn24 Haead Hhash Hb received. pose proof (zlen_nonneg (s_payload what)).
  destruct (build_inv _ _ _ _ _ _ _ _ _ _ _ Hok Hn24 Haead Hhash Hb)
    as (d & text & tag & Hd & Hh & Hl & Hk & Hi & Hcap & -> & Hs & ->).
  assert (zlen d = 16) as Hd16 by (by apply (Hhash _ _ Hd)).
  set (f1 := writes _ _) in *. set (f2 := blit _ tag _) in *.
  assert (head_reads what nonce d f2) as Hr2 by (by eapply sealed_reads).
  pose proof (hr_len _ _ _ _ Hr2) as Hz. cbv zeta in Hz.
  assert (received = f2) as ->.
  { unfold received. rewrite <- Hz. apply slice_blit_same; lia. }
  destruct (reads_views _ _ _ _ Hr2) as (_ & Hv2 & _); [done..|].
  split_and!; [done|apply zlen_blit; lia|apply Hr2|apply Hr2| |].
  - exists d. unfold fzn_seal_peek. rewrite Hv2. cbn [negb]. destruct Hr2. do 3 f_equal; congruence.
  - eexists. by eapply open_sealed.
Qed.

(** A toy cipher: the text reversed, under a tag of zeros. *)
Definition toy_seal (key nonce aad text : bytes) : bool * bytes * bytes := (true, rev text, zeros 16).
Definition toy_open (key nonce aad text tag : bytes) : bool * bytes := (memeq tag (zeros 16), rev text).
Definition toy_aead : fzn_aead_ops := mk_aead (Some toy_seal) (Some toy_open).

Lemma toy_aead_ok : aead_ok toy_aead toy_seal toy_open.
Proof.
  split; [done|done|]. intros key nonce aad text text' tag [= <- <-]. split_and!; [|done|].
  - unfold zlen. by rewrite length_rev.
  - unfold toy_open. by rewrite memeq_refl, rev_involutive.
Qed.

Definition demo_send : fzn_send :=
  mk_send (demo_key 2) (demo_key 3) [104; 105] 500 7 0 1 1 3 0.

Definition demo_built : fzn_seal_err * bytes * option Z :=
  fzn_seal_build (zeros 200) demo_send (demo_key 8) (demo_key 9) (Some (fun n _ => Some (zeros n)))
    (Some (zeros 24)) toy_aead.

Lemma demo_send_ok : send_ok demo_send.
Proof. split; (reflexivity || (cbn; width; lia)). Qed.

Lemma seal_roundtrip_witness :
  exists plain,
    fzn_seal_open (slice 0 146 (snd (fst demo_built))) (demo_key 8) (demo_key 9)
      (Some (fun n _ => Some (zeros n))) toy_aead
    = (FZN_SEAL_OK, plain, Some (sent_as demo_send (zeros 24))).
Proof.
  assert (demo_built = (FZN_SEAL_OK, snd (fst demo_built), Some 146)) as E by (vm_compute; reflexivity).
  destruct (seal_roundtrip (zeros 200) demo_send (demo_key 8) (demo_key 9) (fun n _ => Some (zeros n))
    (zeros 24) toy_aead toy_seal toy_open (snd (fst demo_built)) 146 demo_send_ok eq_refl toy_aead_ok
    ltac:(intros x d [= <-]; reflexivity) E) as (_ & _ & _ & _ & _ & H). exact H.
Defined.
