(* ===== verification/SessionFrame.v ===== *)
(** * wire/session_frame.c: the short frame of a session

    The keys and handles of the two ends of a session, a frame sealed under a
    counter, and a frame opened in place behind a window of the counters heard.
    The hash and the cipher are the consumer's, [None] where the function is
    NULL; the other pointers are given, and a buffer is its capacity. *)

From S2P Require Import Prelude Bytes Hop Revocation Seal.

Definition FZN_SESSION_FRAME_MARK : Z := 250.
Definition FZN_SESSION_FRAME_HEAD_LEN : Z := 9.
Definition FZN_SESSION_FRAME_SEALED_HEAD_LEN : Z := 8.
Definition FZN_SESSION_FRAME_OVERHEAD : Z := FZN_SESSION_FRAME_HEAD_LEN + FZN_SESSION_FRAME_SEALED_HEAD_LEN + FZN_AEAD_TAG_LEN.
Definition FZN_SESSION_FRAME_PAYLOAD_MAX : Z := 1024.
Definition FZN_SESSION_FRAME_MAX : Z := FZN_SESSION_FRAME_OVERHEAD + FZN_SESSION_FRAME_PAYLOAD_MAX.
Definition FZN_SESSION_RANDOM_LEN : Z := 16.
Definition FZN_SESSION_ASK_LEN : Z := FZN_SESSION_RANDOM_LEN + 4.
Definition FZN_SESSION_GRANT_LEN : Z := FZN_SESSION_RANDOM_LEN + 4 + 8.
Definition FZN_SESSION_WINDOW : Z := 64.
Definition HANDLE_AT : Z := 1.
Definition COUNTER_AT : Z := 5.
Definition ASK_HANDLE_AT : Z := FZN_SESSION_RANDOM_LEN.

(** ["fuzznet session frame 1"] *)
Definition DOMAIN : bytes :=
  [102; 117; 122; 122; 110; 101; 116; 32; 115; 101; 115; 115; 105; 111; 110; 32; 102; 114; 97; 109; 101; 32; 49].

Inductive fzn_session_frame_err :=
  | FZN_SESSION_FRAME_OK | FZN_SESSION_FRAME_ERR_MALFORMED | FZN_SESSION_FRAME_ERR_SHAPE | FZN_SESSION_FRAME_ERR_REPLAY
  | FZN_SESSION_FRAME_ERR_TAG | FZN_SESSION_FRAME_ERR_SPENT | FZN_SESSION_FRAME_ERR_CAPACITY | FZN_SESSION_FRAME_ERR_AEAD.

Record fzn_session_end := mk_end {
  en_send_key : bytes;
  en_recv_key : bytes;
  en_hears_as : Z;
  en_speaks_to : Z;
  en_sent : Z;
  en_newest : Z;
  en_heard : Z }.

Record fzn_session_opened := mk_session_opened { fo_payload : bytes; fo_msg : Z; fo_counter : Z; fo_expires_at : Z }.

(** The [memset] of the whole end. *)
Definition end_cleared : fzn_session_end := mk_end (zeros FZN_AEAD_KEY_LEN) (zeros FZN_AEAD_KEY_LEN) 0 0 0 0 0.

(** The end is untouched where there is no hash. *)
Definition fzn_session_end_derive (hash : option fzn_hash_ops) (root ask grant : bytes) (initiator : bool)
    : bool * option fzn_session_end :=
  match hash with
  | None => (false, None)
  | Some hash =>
    match hash (FZN_AEAD_KEY_LEN * 2) (DOMAIN ++ root ++ ask ++ grant) with
    | None => (false, Some end_cleared)
    | Some keys =>
      let ask_handle := fzn_get_be32 ask ASK_HANDLE_AT in
      let grant_handle := fzn_get_be32 grant ASK_HANDLE_AT in
      (true, Some (mk_end
        (slice (if initiator then 0 else FZN_AEAD_KEY_LEN) FZN_AEAD_KEY_LEN keys)
        (slice (if initiator then FZN_AEAD_KEY_LEN else 0) FZN_AEAD_KEY_LEN keys)
        (if initiator then ask_handle else grant_handle)
        (if initiator then grant_handle else ask_handle) 0 0 0))
    end
  end.

Definition fzn_session_frame_handle (frame : bytes) : option Z :=
  if (zlen frame <? FZN_SESSION_FRAME_OVERHEAD) || (zlen frame >? FZN_SESSION_FRAME_MAX)
     || negb (peek frame 0 =? FZN_SESSION_FRAME_MARK)
  then None
  else Some (fzn_get_be32 frame HANDLE_AT).

Definition nonce_of (counter : Z) : bytes :=
  fzn_put_be32 (zeros FZN_AEAD_NONCE_LEN) (FZN_AEAD_NONCE_LEN - 4) counter.

(** [++end->sent] *)
Definition spend (e : fzn_session_end) : fzn_session_end :=
  mk_end (en_send_key e) (en_recv_key e) (en_hears_as e) (en_speaks_to e) (u32 (en_sent e + 1)) (en_newest e) (en_heard e).

(** The plain frame, before it is sealed in place. *)
Definition frame_plain (frame : bytes) (e : fzn_session_end) (msg expires_at : Z) (payload : bytes) : bytes :=
  let frame := poke frame 0 FZN_SESSION_FRAME_MARK in
  let frame := fzn_put_be32 frame HANDLE_AT (en_speaks_to e) in
  let frame := fzn_put_be32 frame COUNTER_AT (en_sent e) in
  let text := FZN_SESSION_FRAME_HEAD_LEN in
  let frame := fzn_put_be32 frame text msg in
  let frame := fzn_put_be32 frame (text + 4) expires_at in
  blit (text + FZN_SESSION_FRAME_SEALED_HEAD_LEN) payload frame.

Definition fzn_session_frame_seal (e : fzn_session_end) (msg expires_at : Z) (payload frame : bytes) (aead : fzn_aead_ops)
    : fzn_session_frame_err * fzn_session_end * bytes * option Z :=
  match aead_seal aead with
  | None => (FZN_SESSION_FRAME_ERR_MALFORMED, e, frame, None)
  | Some seal =>
    if zlen payload >? FZN_SESSION_FRAME_PAYLOAD_MAX then (FZN_SESSION_FRAME_ERR_MALFORMED, e, frame, None)
    else if en_sent e =? UINT32_MAX then (FZN_SESSION_FRAME_ERR_SPENT, e, frame, None)
    else
      let total := FZN_SESSION_FRAME_OVERHEAD + zlen payload in
      if zlen frame <? total then (FZN_SESSION_FRAME_ERR_CAPACITY, e, frame, None)
      else
        let e := spend e in
        let frame := frame_plain frame e msg expires_at payload in
        let text_len := FZN_SESSION_FRAME_SEALED_HEAD_LEN + zlen payload in
        match seal (en_send_key e) (nonce_of (en_sent e)) (slice 0 FZN_SESSION_FRAME_HEAD_LEN frame)
                (slice FZN_SESSION_FRAME_HEAD_LEN text_len frame) with
        | (false, _, _) => (FZN_SESSION_FRAME_ERR_AEAD, e, blit 0 (zeros total) frame, None)
        | (true, text, tag) =>
          (FZN_SESSION_FRAME_OK, e, blit (FZN_SESSION_FRAME_HEAD_LEN + text_len) tag (blit FZN_SESSION_FRAME_HEAD_LEN text frame), Some total)
        end
  end.

Definition stale (e : fzn_session_end) (counter : Z) : bool :=
  if counter >? en_newest e then false
  else
    let behind := en_newest e - counter in
    (behind >=? FZN_SESSION_WINDOW) || negb (Z.land (Z.shiftr (en_heard e) behind) 1 =? 0).

Definition mark_heard (e : fzn_session_end) (counter : Z) : fzn_session_end :=
  let with_window newest heard := mk_end (en_send_key e) (en_recv_key e) (en_hears_as e) (en_speaks_to e) (en_sent e) newest heard in
  if counter >? en_newest e then
    let ahead := counter - en_newest e in
    with_window counter (Z.lor (if ahead >=? FZN_SESSION_WINDOW then 0 else u64 (Z.shiftl (en_heard e) ahead)) 1)
  else with_window (en_newest e) (Z.lor (en_heard e) (Z.shiftl 1 (en_newest e - counter))).

Definition fzn_session_frame_open (e : fzn_session_end) (frame : bytes) (aead : fzn_aead_ops)
    : fzn_session_frame_err * fzn_session_end * bytes * option fzn_session_opened :=
  match aead_open aead with
  | None => (FZN_SESSION_FRAME_ERR_MALFORMED, e, frame, None)
  | Some open =>
    if negb (bool_decide (fzn_session_frame_handle frame = Some (en_hears_as e))) then (FZN_SESSION_FRAME_ERR_SHAPE, e, frame, None)
    else
      let counter := fzn_get_be32 frame COUNTER_AT in
      if (counter =? 0) || stale e counter then (FZN_SESSION_FRAME_ERR_REPLAY, e, frame, None)
      else
        let text_len := zlen frame - FZN_SESSION_FRAME_HEAD_LEN - FZN_AEAD_TAG_LEN in
        match open (en_recv_key e) (nonce_of counter) (slice 0 FZN_SESSION_FRAME_HEAD_LEN frame)
                (slice FZN_SESSION_FRAME_HEAD_LEN text_len frame)
                (slice (FZN_SESSION_FRAME_HEAD_LEN + text_len) FZN_AEAD_TAG_LEN frame) with
        | (false, text) => (FZN_SESSION_FRAME_ERR_TAG, e, blit FZN_SESSION_FRAME_HEAD_LEN text frame, None)
        | (true, text) =>
          let frame := blit FZN_SESSION_FRAME_HEAD_LEN text frame in
          let text := FZN_SESSION_FRAME_HEAD_LEN in
          (FZN_SESSION_FRAME_OK, mark_heard e counter, frame,
           Some (mk_session_opened
             (slice (text + FZN_SESSION_FRAME_SEALED_HEAD_LEN) (text_len - FZN_SESSION_FRAME_SEALED_HEAD_LEN) frame)
             (fzn_get_be32 frame text) counter (fzn_get_be32 frame (text + 4))))
        end
  end.

(** ** A frame sealed is a frame opened *)

(** What [a] sends, [b] hears. *)
Definition hears (a b : fzn_session_end) : Prop := en_send_key a = en_recv_key b /\ en_speaks_to a = en_hears_as b.

(** An end that has sealed and opened nothing. *)
Definition unused (e : fzn_session_end) : Prop := en_sent e = 0 /\ en_newest e = 0 /\ en_heard e = 0.

Lemma derive_pairs hash root ask grant a b :
  fzn_session_end_derive hash root ask grant true = (true, Some a) ->
  fzn_session_end_derive hash root ask grant false = (true, Some b) -> hears a b /\ hears b a /\ unused a /\ unused b.
Proof.
  unfold fzn_session_end_derive. destruct hash as [hash|]; [|done]. destruct (hash _ _); [|done]. intros [= <-] [= <-]. done.
Qed.

Definition head_of (e : fzn_session_end) : bytes := [FZN_SESSION_FRAME_MARK] ++ be32 (en_speaks_to e) ++ be32 (en_sent e).
Definition text_of (msg expires_at : Z) (payload : bytes) : bytes := be32 msg ++ be32 expires_at ++ payload.

Lemma plain_parts frame e msg expires_at payload : frame_plain frame e msg expires_at payload =
  head_of e ++ text_of msg expires_at payload ++ drop (17 + length payload) frame.
Proof.
  transitivity (blits 0 [[250]; be32 (en_speaks_to e); be32 (en_sent e); be32 msg; be32 expires_at; payload] frame); [reflexivity|].
  rewrite blits_start. cbn [concat]. rewrite app_nil_r. unfold head_of, text_of. rewrite <- !app_assoc. reflexivity.
Qed.

Lemma seal_inv aead seal open e msg expires_at payload frame e' frame' n : aead_ok aead seal open ->
  fzn_session_frame_seal e msg expires_at payload frame aead = (FZN_SESSION_FRAME_OK, e', frame', Some n) ->
  exists text tag, e' = spend e /\ en_sent e <> UINT32_MAX /\ zlen payload <= 1024 /\ n = 33 + zlen payload /\ n <= zlen frame /\
    seal (en_send_key e) (nonce_of (en_sent e')) (head_of e') (text_of msg expires_at payload) = (true, text, tag) /\
    zlen text = 8 + zlen payload /\ zlen tag = 16 /\ frame' = (head_of e' ++ text ++ tag) ++ drop (Z.to_nat n) frame.
Proof.
  intros [Hs _ Hrt] H. unfold fzn_session_frame_seal in H. rewrite Hs in H. change FZN_SESSION_FRAME_PAYLOAD_MAX with 1024 in H.
  change FZN_SESSION_FRAME_OVERHEAD with 33 in H. change FZN_SESSION_FRAME_HEAD_LEN with 9 in H.
  change FZN_SESSION_FRAME_SEALED_HEAD_LEN with 8 in H. pose proof (zlen_nonneg payload).
  rewrite Z.gtb_ltb in H. destruct (Z.ltb_spec 1024 (zlen payload)); [done|]. destruct (Z.eqb_spec (en_sent e) UINT32_MAX); [done|].
  destruct (Z.ltb_spec (zlen frame) (33 + zlen payload)); [done|].
  assert (zlen (head_of (spend e)) = 9) as Hh by done.
  assert (zlen (text_of msg expires_at payload) = 8 + zlen payload) as Ht by (unfold text_of; rewrite !zlen_app, !zlen_be32; lia).
  change (let e := spend e in ?f e) with (f (spend e)) in H. cbv zeta in H. rewrite plain_parts in H.
  rewrite (slice_front (head_of (spend e))) in H by done. rewrite (slice_mid (head_of (spend e))) in H by done.
  change (en_send_key (spend e)) with (en_send_key e) in H.
  destruct (seal _ _ _ _) as [[ok text] tag] eqn:E. destruct ok; [|done]. set (fr := blit (9 + _) tag _) in H. injection H as <- <- <-.
  destruct (Hrt _ _ _ _ _ _ E) as (Hlt & Hlg & _). change FZN_AEAD_TAG_LEN with 16 in Hlg.
  exists text, tag. split_and!; try done; try lia.
  unfold fr. rewrite blit_next by done. rewrite blit_next by (rewrite zlen_app; lia). rewrite <- !app_assoc. do 3 f_equal.
  rewrite drop_drop, drop_app_ge by (unfold zlen in *; lia). rewrite drop_drop. f_equal. unfold zlen in *. lia.
Qed.

Lemma open_of_parts aead seal open b counter text tag msg expires_at payload e : aead_ok aead seal open ->
  en_speaks_to e = en_hears_as b -> in_u32 (en_speaks_to e) -> en_sent e = counter -> 1 <= counter <= UINT32_MAX ->
  in_u32 msg -> in_u32 expires_at -> zlen payload <= 1024 -> zlen text = 8 + zlen payload -> zlen tag = 16 ->
  open (en_recv_key b) (nonce_of counter) (head_of e) text tag = (true, text_of msg expires_at payload) ->
  exists plain, fzn_session_frame_open b (head_of e ++ text ++ tag) aead =
    if stale b counter then (FZN_SESSION_FRAME_ERR_REPLAY, b, head_of e ++ text ++ tag, None)
    else (FZN_SESSION_FRAME_OK, mark_heard b counter, plain, Some (mk_session_opened payload msg counter expires_at)).
Proof.
  intros [_ Ho _] Hsp Hspr Hc Hcr Hm Hx Hp Ht Hg E. pose proof (zlen_nonneg payload).
  assert (zlen (head_of e) = 9) as Hh by done.
  exists (head_of e ++ text_of msg expires_at payload ++ tag). unfold fzn_session_frame_open. rewrite Ho.
  assert (fzn_get_be32 (head_of e ++ text ++ tag) 1 = en_speaks_to e) as Hget.
  { apply get_be32_of; [done|done|]. unfold head_of. rewrite <- !app_assoc. by apply (slice_mid [250]). }
  assert (fzn_get_be32 (head_of e ++ text ++ tag) 5 = counter) as Hcnt.
  { apply get_be32_of; [done|ulia|]. unfold head_of. rewrite <- Hc, <- !app_assoc. rewrite (app_assoc [_]). by apply slice_mid. }
  assert (fzn_session_frame_handle (head_of e ++ text ++ tag) = Some (en_hears_as b)) as ->.
  { unfold fzn_session_frame_handle. rewrite !zlen_app, Hh, Ht, Hg. change FZN_SESSION_FRAME_OVERHEAD with 33.
    change FZN_SESSION_FRAME_MAX with 1057. destruct (Z.ltb_spec (9 + (8 + zlen payload + 16)) 33); [lia|].
    rewrite Z.gtb_ltb. destruct (Z.ltb_spec 1057 (9 + (8 + zlen payload + 16))); [lia|]. cbn [orb].
    change (peek (head_of e ++ text ++ tag) 0 =? FZN_SESSION_FRAME_MARK) with true. cbn [negb]. change HANDLE_AT with 1. by rewrite Hget, Hsp. }
  rewrite bool_decide_eq_true_2 by done. cbn [negb]. change COUNTER_AT with 5. rewrite Hcnt.
  destruct (Z.eqb_spec counter 0); [lia|]. cbn [orb]. destruct (stale b counter); [done|].
  change FZN_SESSION_FRAME_HEAD_LEN with 9. change FZN_AEAD_TAG_LEN with 16. change FZN_SESSION_FRAME_SEALED_HEAD_LEN with 8.
  rewrite !zlen_app, Hh, Ht, Hg. replace (9 + (8 + zlen payload + 16) - 9 - 16) with (8 + zlen payload) by lia.
  rewrite (slice_front (head_of e)) by done. rewrite (slice_mid (head_of e)) by done.
  rewrite (app_assoc (head_of e) text tag). rewrite <- (app_nil_r tag) at 1. rewrite (slice_mid (head_of e ++ text)) by (rewrite ?zlen_app; lia).
  rewrite E, <- app_assoc, blit_next by done. rewrite drop_app_length'; [|unfold text_of; rewrite !length_app; unfold zlen in Ht; cbn; lia].
  rewrite <- app_assoc. unfold text_of. rewrite <- !app_assoc. rewrite (get_be32_of _ 9 msg), (get_be32_of _ (9 + 4) expires_at); try done.
  do 3 f_equal. rewrite (app_assoc (be32 msg)), (app_assoc (head_of e)). apply slice_mid; [done|lia].
Qed.

(** ** What was heard, as a set *)

Lemma land_1_testbit x k : 0 <= k -> negb (Z.land (Z.shiftr x k) 1 =? 0) = Z.testbit x k.
Proof.
  intros Hk. change 1 with (Z.ones 1). rewrite Z.land_ones by lia. change (2 ^ 1) with 2.
  rewrite <- Z.bit0_mod, Z.shiftr_spec by lia. change (0 + k) with k. by destruct (Z.testbit x k).
Qed.

Lemma lor_u64 x y : in_u64 x -> in_u64 y -> in_u64 (Z.lor x y).
Proof.
  intros Hx Hy. rewrite <- (u64_small x), <- (u64_small y) by done. unfold u64. rewrite <- !Z.land_ones by done.
  rewrite <- Z.land_lor_distr_l, Z.land_ones by done. apply u64_range.
Qed.

Lemma pow2_u64 k : 0 <= k < 64 -> in_u64 (Z.shiftl 1 k).
Proof.
  intros Hk. rewrite Z.shiftl_1_l. assert (2 ^ k <= 2 ^ 63) by (apply Z.pow_le_mono_r; lia). pose proof (Z.pow_pos_nonneg 2 k). width. lia.
Qed.

(** The newest counter and the bits behind it are the counters opened. *)
Record window_of (e : fzn_session_end) (opened : list Z) : Prop := {
  wo_range : Forall (fun c => 1 <= c <= en_newest e) opened;
  wo_newest : en_newest e = 0 \/ en_newest e ∈ opened;
  wo_u32 : in_u32 (en_newest e);
  wo_u64 : in_u64 (en_heard e);
  wo_bits : forall i, 0 <= i < 64 -> Z.testbit (en_heard e) i = bool_decide (en_newest e - i ∈ opened)
}.

Lemma unused_window e : unused e -> window_of e [].
Proof.
  intros (_ & Hn & Hh). rewrite Hn, Hh || idtac. split; rewrite ?Hn, ?Hh; [constructor|by left|ulia|ulia|].
  intros i Hi. rewrite Z.bits_0. symmetry. apply bool_decide_eq_false. by intros ?%not_elem_of_nil.
Qed.

Lemma stale_iff e opened c : window_of e opened -> 1 <= c ->
  stale e c = true <-> c ∈ opened \/ c + 64 <= en_newest e.
Proof.
  intros [Hr Hn _ _ Hb] Hc. unfold stale. change FZN_SESSION_WINDOW with 64. rewrite Z.gtb_ltb, Z.geb_leb.
  destruct (Z.ltb_spec (en_newest e) c) as [Hlt|Hle].
  - split; [done|]. intros [Hin|]; [|lia]. eapply list.Forall_forall in Hr; [|exact Hin]. cbn in Hr. lia.
  - destruct (Z.leb_spec 64 (en_newest e - c)); cbn [orb]; [split; [right; lia|done]|].
    rewrite land_1_testbit, Hb by lia. replace (en_newest e - (en_newest e - c)) with c by lia. rewrite bool_decide_eq_true.
    split; [by left|intros [|]; [done|lia]].
Qed.

Lemma mark_window e opened c : window_of e opened -> 1 <= c <= UINT32_MAX -> stale e c = false -> window_of (mark_heard e c) (c :: opened).
Proof.
  intros Hw Hc Hs. assert (~ (c ∈ opened \/ c + 64 <= en_newest e)) as Hnew.
  { rewrite <- (stale_iff e opened c Hw) by lia. by rewrite Hs. }
  destruct Hw as [Hr Hn Hu Hu' Hb]. unfold mark_heard. change FZN_SESSION_WINDOW with 64. rewrite Z.gtb_ltb, Z.geb_leb.
  assert (forall x, x ∈ opened -> 1 <= x <= en_newest e) as Hin by (by apply list.Forall_forall).
  destruct (Z.ltb_spec (en_newest e) c) as [Hlt|Hle].
  - split; cbn [en_newest en_heard].
    + constructor; [lia|]. eapply list.Forall_impl; [exact Hr|]. cbn. lia.
    + right. by left.
    + width. lia.
    + apply lor_u64; [|width; lia]. destruct (64 <=? _); [width; lia|apply u64_range].
    + intros i Hi. rewrite Z.lor_spec. change 1 with (2 ^ 0) at 1. rewrite Z.pow2_bits_eqb by lia.
      destruct (Z.eqb_spec 0 i) as [<-|Hi0]; [rewrite orb_true_r; symmetry; apply bool_decide_eq_true, elem_of_cons; left; lia|].
      rewrite orb_false_r. transitivity (bool_decide (c - i ∈ opened)).
      * destruct (Z.leb_spec 64 (c - en_newest e)).
        { rewrite Z.bits_0. symmetry. apply bool_decide_eq_false. intros ?%Hin. lia. }
        unfold u64. rewrite Z.mod_pow2_bits_low, Z.shiftl_spec by lia. destruct (Z.ltb_spec i (c - en_newest e)).
        { rewrite Z.testbit_neg_r by lia. symmetry. apply bool_decide_eq_false. intros ?%Hin. lia. }
        rewrite Hb by lia. by replace (en_newest e - (i - (c - en_newest e))) with (c - i) by lia.
      * apply bool_decide_ext. rewrite elem_of_cons. split; [by right|intros [|]; [lia|done]].
  - split; cbn [en_newest en_heard].
    + constructor; [lia|done].
    + destruct Hn; [by left|right; by right].
    + done.
    + apply lor_u64; [done|]. apply pow2_u64. lia.
    + intros i Hi. rewrite Z.lor_spec, Z.shiftl_1_l, Z.pow2_bits_eqb, Hb by lia. destruct (Z.eqb_spec (en_newest e - c) i) as [<-|Hne].
      * rewrite orb_true_r. symmetry. apply bool_decide_eq_true, elem_of_cons. left. lia.
      * rewrite orb_false_r. apply bool_decide_ext. rewrite elem_of_cons. split; [by right|intros [|]; [lia|done]].
Qed.

Lemma heard_is_stale e c : 0 <= c -> 0 <= en_newest e -> stale (mark_heard e c) c = true.
Proof.
  intros Hc He. unfold stale, mark_heard. rewrite !Z.gtb_ltb. destruct (Z.ltb_spec (en_newest e) c) as [Hlt|Hle]; cbn [en_newest en_heard].
  - rewrite Z.ltb_irrefl, Z.sub_diag, land_1_testbit, Z.lor_spec by lia. cbn [Z.testbit]. by rewrite orb_true_r, orb_true_r.
  - destruct (Z.ltb_spec (en_newest e) c); [lia|]. rewrite land_1_testbit, Z.lor_spec, Z.shiftl_1_l, Z.pow2_bits_true by lia. by rewrite !orb_true_r.
Qed.

(** C25: What one end of a session seals, the other opens: where [b] hears as
    [a] speaks and holds [a]'s key, a frame [a] sealed is, of the buffer, the
    first [n] bytes, the rest being as they were; its counter is the one after
    [a]'s last; at [b] it gives the message, its number and expiry and that
    counter, and is marked heard, unless the counter was already heard or is
    too old, when it is refused as a replay and nothing changes. Once heard it
    is refused as a replay from then on. *)
Theorem sealed_frames_open aead seal open a b msg expires_at payload frame a' frame' n :
  aead_ok aead seal open -> hears a b -> in_u32 (en_speaks_to a) -> in_u32 (en_sent a) -> 0 <= en_newest b ->
  in_u32 msg -> in_u32 expires_at ->
  fzn_session_frame_seal a msg expires_at payload frame aead = (FZN_SESSION_FRAME_OK, a', frame', Some n) ->
  let counter := en_sent a' in let received := take (Z.to_nat n) frame' in
  counter = en_sent a + 1 /\ drop (Z.to_nat n) frame' = drop (Z.to_nat n) frame /\
  (exists plain, fzn_session_frame_open b received aead =
    if stale b counter then (FZN_SESSION_FRAME_ERR_REPLAY, b, received, None)
    else (FZN_SESSION_FRAME_OK, mark_heard b counter, plain, Some (mk_session_opened payload msg counter expires_at))) /\
  fzn_session_frame_open (mark_heard b counter) received aead =
    (FZN_SESSION_FRAME_ERR_REPLAY, mark_heard b counter, received, None).
Proof.
  intros Hok [Hkey Hsp] Hsr Hse Hnew Hm Hx E counter received.
  destruct (seal_inv _ _ _ _ _ _ _ _ _ _ _ Hok E) as (text & tag & -> & Hne & Hp & Hn & Hle & Es & Ht & Hg & Hf).
  assert (counter = en_sent a + 1) as Hc by (apply u32_small; width; lia).
  assert (received = head_of (spend a) ++ text ++ tag) as ->.
  { unfold received. rewrite Hf. apply take_app_length'. rewrite !length_app. unfold zlen in *. cbn [length head_of]. cbn. lia. }
  pose proof (proj2 (proj2 (ao_roundtrip _ _ _ Hok _ _ _ _ _ _ Es))) as Eo.
  assert (forall b', en_recv_key b' = en_recv_key b -> en_hears_as b' = en_hears_as b -> exists plain,
    fzn_session_frame_open b' (head_of (spend a) ++ text ++ tag) aead =
    if stale b' counter then (FZN_SESSION_FRAME_ERR_REPLAY, b', head_of (spend a) ++ text ++ tag, None)
    else (FZN_SESSION_FRAME_OK, mark_heard b' counter, plain, Some (mk_session_opened payload msg counter expires_at))) as Hopen.
  { intros b' Hk Hh. eapply open_of_parts; try done; [by rewrite Hh|width; lia|]. by rewrite Hk, <- Hkey. }
  split; [done|]. split; [|split; [by apply Hopen|]].
  - rewrite Hf. apply drop_app_length'. rewrite !length_app. unfold zlen in *. cbn. lia.
  - destruct (Hopen (mark_heard b counter)) as [plain ->]; [unfold mark_heard; by destruct (_ >? _)..|].
    by rewrite heard_is_stale by (width; lia).
Qed.

(** ** Every counter is used once *)

(** What is done with an end: sealing into a buffer, or opening a frame. *)
Inductive frame_op :=
  | Seal (msg expires_at : Z) (payload frame : bytes)
  | Open (frame : bytes).

(** The end after it, the counter it gave the cipher to seal under, and the
    counter of the frame it opened. *)
Definition frame_step (aead : fzn_aead_ops) (e : fzn_session_end) (op : frame_op) : fzn_session_end * list Z * list Z :=
  match op with
  | Seal msg expires_at payload frame =>
    match fzn_session_frame_seal e msg expires_at payload frame aead with
    | ((FZN_SESSION_FRAME_OK | FZN_SESSION_FRAME_ERR_AEAD), e', _, _) => (e', [en_sent e'], [])
    | (_, e', _, _) => (e', [], [])
    end
  | Open frame =>
    match fzn_session_frame_open e frame aead with
    | (_, e', _, Some o) => (e', [], [fo_counter o])
    | (_, e', _, None) => (e', [], [])
    end
  end.

Fixpoint frame_run (aead : fzn_aead_ops) (e : fzn_session_end) (ops : list frame_op) : fzn_session_end * list Z * list Z :=
  match ops with
  | [] => (e, [], [])
  | op :: ops =>
    let '(e1, sealed1, opened1) := frame_step aead e op in
    let '(e2, sealed2, opened2) := frame_run aead e1 ops in (e2, sealed1 ++ sealed2, opened1 ++ opened2)
  end.

Definition op_ok (op : frame_op) : Prop :=
  match op with Seal _ _ _ _ => True | Open frame => Forall in_u8 frame end.

(** What does not change, what was sealed, and what was opened. *)
Record spent_once (e0 e : fzn_session_end) (sealed opened : list Z) : Prop := {
  so_keys : en_send_key e = en_send_key e0 /\ en_recv_key e = en_recv_key e0;
  so_handles : en_hears_as e = en_hears_as e0 /\ en_speaks_to e = en_speaks_to e0;
  so_sent : in_u32 (en_sent e);
  so_sealed : sealed = seqZ 1 (en_sent e);
  so_window : window_of e opened;
  so_opened : NoDup opened
}.

Lemma seal_spends aead e msg expires_at payload frame e1 sealed1 opened1 : in_u32 (en_sent e) ->
  frame_step aead e (Seal msg expires_at payload frame) = (e1, sealed1, opened1) ->
  opened1 = [] /\ ((e1 = e /\ sealed1 = []) \/ (e1 = spend e /\ en_sent e1 = en_sent e + 1 /\ in_u32 (en_sent e1) /\ sealed1 = [en_sent e1])).
Proof.
  intros Hu. unfold frame_step, fzn_session_frame_seal. destruct (aead_seal aead) as [seal|]; [|intros [= <- <- <-]; auto].
  destruct (_ >? _); [intros [= <- <- <-]; auto|]. destruct (Z.eqb_spec (en_sent e) UINT32_MAX); [intros [= <- <- <-]; auto|].
  destruct (_ <? _); [intros [= <- <- <-]; auto|].
  assert (en_sent (spend e) = en_sent e + 1) as H1 by (apply u32_small; width; lia).
  assert (in_u32 (en_sent (spend e))) as H2 by (rewrite H1; width; lia).
  destruct (seal _ _ _ _) as [[[] ?] ?]; intros [= <- <- <-]; auto 8.
Qed.

Lemma open_marks aead e frame e1 sealed1 opened1 : Forall in_u8 frame ->
  frame_step aead e (Open frame) = (e1, sealed1, opened1) ->
  sealed1 = [] /\ ((e1 = e /\ opened1 = []) \/
    exists c, 1 <= c <= UINT32_MAX /\ stale e c = false /\ e1 = mark_heard e c /\ opened1 = [c]).
Proof.
  intros Hf. unfold frame_step, fzn_session_frame_open. destruct (aead_open aead) as [open|]; [|intros [= <- <- <-]; auto].
  destruct (negb _); [intros [= <- <- <-]; auto|]. set (c := fzn_get_be32 frame COUNTER_AT).
  assert (in_u32 c) as Hc by by apply get_be32_range. destruct (Z.eqb_spec c 0); [intros [= <- <- <-]; auto|]. cbn [orb].
  destruct (stale e c) eqn:Es; [intros [= <- <- <-]; auto|].
  destruct (open _ _ _ _ _) as [[] ?]; intros [= <- <- <-]; [|auto]. split; [done|]. right. exists c. split_and!; try done; width; lia.
Qed.

Lemma step_spends aead e0 e op e1 sealed opened sealed1 opened1 : op_ok op -> spent_once e0 e sealed opened ->
  frame_step aead e op = (e1, sealed1, opened1) -> spent_once e0 e1 (sealed ++ sealed1) (opened1 ++ opened).
Proof.
  intros Hop [Hk Hh Hu Hs Hw Ho] E. destruct op as [msg expires_at payload frame|frame].
  - destruct (seal_spends _ _ _ _ _ _ _ _ _ Hu E) as [-> [[-> ->]|(-> & Hn & Hu' & ->)]]; [by rewrite app_nil_r|].
    split; try done; cbn [app].
    + rewrite Hs, Hn. replace (en_sent e + 1) with (Z.of_nat (S (Z.to_nat (en_sent e)))) at 2 by (width; lia).
      rewrite <- (Z2Nat.id (en_sent e)) at 1 by (width; lia). rewrite seqZ_S. do 2 f_equal. width. lia.
    + by destruct Hw.
  - destruct (open_marks _ _ _ _ _ _ Hop E) as [-> [[-> ->]|(c & Hc & Hst & -> & ->)]]; rewrite app_nil_r; [done|].
    pose proof (stale_iff e opened c Hw ltac:(lia)) as Hiff. pose proof (mark_window e opened c Hw Hc Hst) as Hw'. cbn [app].
    assert (c ∉ opened) as Hni by (intros Hin; rewrite (proj2 Hiff) in Hst; [done|by left]).
    unfold mark_heard in *. destruct (_ >? _); (split; try done; by constructor).
Qed.

Lemma run_spends aead e0 ops : forall e e1 sealed opened sealed1 opened1, Forall op_ok ops -> spent_once e0 e sealed opened ->
  frame_run aead e ops = (e1, sealed1, opened1) -> spent_once e0 e1 (sealed ++ sealed1) (reverse opened1 ++ opened).
Proof.
  induction ops as [|op ops IH]; intros e e1 sealed opened sealed1 opened1 Hops Hinv E; cbn [frame_run] in E.
  - injection E as <- <- <-. by rewrite app_nil_r.
  - apply Forall_cons_iff in Hops as [Hop Hops]. destruct (frame_step aead e op) as [[e2 s2] o2] eqn:E2.
    destruct (frame_run aead e2 ops) as [[e3 s3] o3] eqn:E3. injection E as <- <- <-.
    pose proof (step_spends _ _ _ _ _ _ _ _ _ Hop Hinv E2) as Hinv2. pose proof (IH _ _ _ _ _ _ Hops Hinv2 E3) as Hinv3.
    rewrite (app_assoc sealed), reverse_app, <- (app_assoc (reverse o3)).
    assert (reverse o2 = o2) as ->; [|done].
    destruct op as [????|frame]; cbn [frame_step] in E2; repeat case_match; injection E2 as <- <- <-; done.
Qed.

Lemma nonce_counter c : in_u32 c -> fzn_get_be32 (nonce_of c) 20 = c.
Proof. intros Hc. apply get_be32_of; [done|done|reflexivity]. Qed.

(** C7: Every counter is used once: whatever is sealed and opened, in whatever
    order and with whatever answers from the cipher, from an end that has done
    neither, the counters it gave the cipher to seal under are 1, 2, .. up to
    the last, in order, within 32 bits, so that no nonce is used twice under
    the key; no counter is opened twice, and none is 0; and the window holds
    exactly what it should: a counter is refused as heard just when a frame of
    it was opened, or it lies 64 or more behind the newest. The keys and the
    handles are what they were. *)
Theorem counters_are_spent_once aead e0 ops e sealed opened :
  unused e0 -> Forall op_ok ops -> frame_run aead e0 ops = (e, sealed, opened) ->
  (sealed = seqZ 1 (en_sent e) /\ en_sent e <= UINT32_MAX /\ NoDup (map nonce_of sealed)) /\
  (NoDup opened /\ Forall (fun c => 1 <= c <= en_newest e) opened) /\
  (forall c, 1 <= c -> stale e c = true <-> c ∈ opened \/ c + 64 <= en_newest e) /\
  (en_send_key e = en_send_key e0 /\ en_recv_key e = en_recv_key e0 /\
   en_hears_as e = en_hears_as e0 /\ en_speaks_to e = en_speaks_to e0).
Proof.
  intros Hun Hops E.
  assert (spent_once e0 e0 [] []) as Hinv.
  { destruct Hun as (H1 & H2 & H3). split; try done; [rewrite H1; width; lia|by rewrite H1|by apply unused_window|constructor]. }
  pose proof (run_spends _ _ _ _ _ _ _ _ _ Hops Hinv E) as [Hk Hh Hu Hs Hw Hnd]. rewrite app_nil_r in Hw, Hnd. cbn [app] in Hs.
  assert (forall c, c ∈ reverse opened <-> c ∈ opened) as Hrev by (intros; by rewrite elem_of_reverse).
  split_and!; try done; try apply Hk; try apply Hh; try (width; lia).
  - rewrite Hs. apply NoDup_fmap_2_strong; [|apply NoDup_seqZ]. intros x y Hx Hy Hxy. apply elem_of_seqZ in Hx, Hy.
    rewrite <- (nonce_counter x), <- (nonce_counter y) by (width; lia). by rewrite Hxy.
  - by rewrite <- (reverse_Permutation opened).
  - apply list.Forall_forall. intros c Hc. destruct Hw as [Hr _ _ _ _]. eapply list.Forall_forall in Hr; [exact Hr|]. by apply Hrev.
  - intros c Hc. rewrite (stale_iff e _ c Hw Hc), Hrev. done.
Qed.

(** Two ends derived from one root, and a run of both kinds. *)
Definition demo_end (initiator : bool) : fzn_session_end :=
  default end_cleared (snd (fzn_session_end_derive (Some (fun n _ => Some (map Z.of_nat (seq 0 (Z.to_nat n))))) (zeros 32)
    (zeros 16 ++ be32 7) (zeros 16 ++ be32 9 ++ zeros 8) initiator)).

Definition demo_sealed : fzn_session_frame_err * fzn_session_end * bytes * option Z :=
  fzn_session_frame_seal (demo_end true) 3 500 [10; 20] (zeros 40) toy_aead.

Lemma sealed_frames_open_witness : exists plain,
  fzn_session_frame_open (demo_end false) (take 35 (snd (fst demo_sealed))) toy_aead =
    (FZN_SESSION_FRAME_OK, mark_heard (demo_end false) 1, plain, Some (mk_session_opened [10; 20] 3 1 500)).
Proof.
  assert (hears (demo_end true) (demo_end false)) as Hh by (split; vm_compute; reflexivity).
  assert (fzn_session_frame_seal (demo_end true) 3 500 [10; 20] (zeros 40) toy_aead =
    (FZN_SESSION_FRAME_OK, snd (fst (fst demo_sealed)), snd (fst demo_sealed), Some 35)) as E by (vm_compute; reflexivity).
  assert (in_u32 (en_speaks_to (demo_end true)) /\ in_u32 (en_sent (demo_end true)) /\ 0 <= en_newest (demo_end false)) as (H1 & H2 & H3)
    by (split_and!; vm_compute; intuition congruence).
  destruct (proj1 (proj2 (proj2 (sealed_frames_open toy_aead toy_seal toy_open (demo_end true) (demo_end false) 3 500 [10; 20] (zeros 40)
    _ _ 35 toy_aead_ok Hh H1 H2 H3 ltac:(ulia) ltac:(ulia) E)))) as [plain Hp].
  exists plain. transitivity (if stale (demo_end false) (en_sent (snd (fst (fst demo_sealed))))
    then (FZN_SESSION_FRAME_ERR_REPLAY, demo_end false, take 35 (snd (fst demo_sealed)), None)
    else (FZN_SESSION_FRAME_OK, mark_heard (demo_end false) 1, plain, Some (mk_session_opened [10; 20] 3 1 500))); [exact Hp|vm_compute; reflexivity].
Defined.

Definition demo_frame (counter : Z) : bytes := [250] ++ be32 7 ++ be32 counter ++ zeros 24.

Definition demo_ops : list frame_op :=
  [Seal 1 2 [5] (zeros 64); Open (demo_frame 3); Open (demo_frame 3); Open (demo_frame 1); Seal 1 2 [] (zeros 10); Seal 1 2 [6] (zeros 64)].

Lemma counters_are_spent_once_witness :
  exists e, frame_run toy_aead (demo_end true) demo_ops = (e, [1; 2], [3; 1]) /\ stale e 3 = true /\ stale e 2 = false.
Proof.
  assert (unused (demo_end true)) as Hu by (split_and!; vm_compute; reflexivity).
  assert (Forall op_ok demo_ops) as Hops.
  { unfold demo_ops. repeat constructor; cbn; try exact I; repeat constructor; vm_compute; intuition congruence. }
  set (e := fst (fst (frame_run toy_aead (demo_end true) demo_ops))).
  assert (frame_run toy_aead (demo_end true) demo_ops = (e, [1; 2], [3; 1])) as E by (vm_compute; reflexivity).
  exists e. split; [exact E|]. destruct (counters_are_spent_once toy_aead (demo_end true) demo_ops e [1; 2] [3; 1] Hu Hops E) as (_ & _ & H & _).
  split; [apply H; [lia|left; by left]|]. apply not_true_iff_false. rewrite H by lia.
  assert (en_newest e = 3) as -> by (vm_compute; reflexivity). intros [Hin|Hb]; [|lia]. revert Hin. apply (bool_decide_eq_false_1 _). reflexivity.
Defined.
