(* ===== verification/Relay.v ===== *)
(** * wire/relay.c: carrying a frame that is not ours

    The hop budget of a frame, clamped by a host's own ceiling or by its
    policy for the subsystem the frame names, and spent one hop at a time. The
    frame and the outputs are given. *)

From S2P Require Import Prelude Bytes Hop Revocation Seal.

Inductive fzn_relay_err :=
| FZN_RELAY_OK | FZN_RELAY_ERR_MALFORMED | FZN_RELAY_ERR_SHAPE | FZN_RELAY_ERR_EXHAUSTED
| FZN_RELAY_ERR_REFUSED.

Record fzn_relay_policy := mk_policy { service : Z; allowed : Z }.

Definition hop_view (frame : bytes) : bool :=
  negb (zlen frame >? UINT32_MAX) && negb (zlen frame <? SITU_FZN_HOP_SIZE).

(** The budget, when there is one. *)
Definition fzn_relay_budget (frame : bytes) (allowed_ : Z) : fzn_relay_err * option Z :=
  if negb (hop_view frame) then (FZN_RELAY_ERR_SHAPE, None)
  else if negb (situ_fzn_hop_validate frame) then (FZN_RELAY_ERR_SHAPE, None)
  else
    let claimed := frame_hops_left frame in
    (FZN_RELAY_OK, Some (if claimed <? allowed_ then claimed else allowed_)).

Definition fzn_relay_service (frame : bytes) : fzn_relay_err * option Z :=
  if negb (hop_view frame) then (FZN_RELAY_ERR_SHAPE, None)
  else if negb (situ_fzn_hop_validate frame) then (FZN_RELAY_ERR_SHAPE, None)
  else (FZN_RELAY_OK, Some (frame_service_hint frame)).

(** The ceiling of the first row for the frame's subsystem. A NULL policy has
    no rows. *)
Definition policy_ceiling (frame : bytes) (policy : list fzn_relay_policy) (fallback : Z)
    : fzn_relay_err * option Z :=
  match fzn_relay_service frame with
  | (FZN_RELAY_OK, Some hinted) =>
    let out := default fallback (allowed ∘ snd <$> list_find (fun p => service p = hinted) policy) in
    if out =? 0 then (FZN_RELAY_ERR_REFUSED, Some out) else (FZN_RELAY_OK, Some out)
  | (err, _) => (err, None)
  end.

Definition fzn_relay_budget_policy (frame : bytes) (policy : list fzn_relay_policy) (fallback : Z)
    : fzn_relay_err * option Z :=
  match policy_ceiling frame policy fallback with
  | (FZN_RELAY_OK, Some ceiling) => fzn_relay_budget frame ceiling
  | (err, _) => (err, None)
  end.

Definition fzn_relay_spend (frame : bytes) (allowed_ : Z) : fzn_relay_err * bytes :=
  match fzn_relay_budget frame allowed_ with
  | (FZN_RELAY_OK, Some budget) =>
    if budget =? 0 then (FZN_RELAY_ERR_EXHAUSTED, frame)
    else if negb (hop_view frame) then (FZN_RELAY_ERR_SHAPE, frame)
    else (FZN_RELAY_OK, poke frame 1 (budget - 1))
  | (err, _) => (err, frame)
  end.

Definition fzn_relay_spend_policy (frame : bytes) (policy : list fzn_relay_policy) (fallback : Z)
    : fzn_relay_err * bytes :=
  match policy_ceiling frame policy fallback with
  | (FZN_RELAY_OK, Some ceiling) => fzn_relay_spend frame ceiling
  | (err, _) => (err, frame)
  end.

(** ** The budget byte is outside everything that is covered *)

Lemma poke_1_cons a b (f : bytes) v : poke (a :: b :: f) 1 v = a :: u8 v :: f.
Proof. reflexivity. Qed.

(** A frame of at least the hop header, as its first two bytes and the rest. *)
Lemma two_bytes (f : bytes) : 2 <= zlen f -> exists a b f', f = a :: b :: f'.
Proof. unfold zlen. destruct f as [|a [|b f']]; cbn [length]; try lia. eauto. Qed.

Lemma slice_past a b c (f : bytes) o n : 2 <= o -> slice o n (a :: b :: f) = slice o n (a :: c :: f).
Proof.
  intros. unfold slice. replace (Z.to_nat o) with (S (S (Z.to_nat (o - 2)))) by lia. reflexivity.
Qed.

Lemma peek_past a b c (f : bytes) i : 0 <= i -> i <> 1 -> peek (a :: b :: f) i = peek (a :: c :: f) i.
Proof.
  intros. unfold peek. destruct (Z.to_nat i) as [|[|k]] eqn:E; [done|lia|done].
Qed.

Lemma blit_past a b (f : bytes) o w : 2 <= o -> blit o w (a :: b :: f) = a :: b :: blit (o - 2) w f.
Proof.
  intros. unfold blit. replace (Z.to_nat o) with (S (S (Z.to_nat (o - 2)))) by lia. reflexivity.
Qed.

Section Past.
Context (a b c : Z).
Implicit Types f : bytes.

Lemma get_be16_past f o : 2 <= o -> fzn_get_be16 (a :: b :: f) o = fzn_get_be16 (a :: c :: f) o.
Proof. intros. unfold fzn_get_be16. rewrite !(peek_past a b c) by lia. done. Qed.
Lemma get_be32_past f o : 2 <= o -> fzn_get_be32 (a :: b :: f) o = fzn_get_be32 (a :: c :: f) o.
Proof. intros. unfold fzn_get_be32. rewrite !(peek_past a b c) by lia. done. Qed.
Lemma get_be64_past f o : 2 <= o -> fzn_get_be64 (a :: b :: f) o = fzn_get_be64 (a :: c :: f) o.
Proof. intros. unfold fzn_get_be64. rewrite !(peek_past a b c) by lia. done. Qed.

Lemma opened_past f : opened_of (a :: b :: f) = opened_of (a :: c :: f).
Proof.
  unfold opened_of, situ_fzn_frame_sealed_payload_len, frame_length, frame_sender, frame_nonce,
    frame_expires_at, frame_msg, frame_index, frame_chunks, frame_kind.
  rewrite !(get_be16_past), (get_be32_past), (get_be64_past), (peek_past a b c) by lia.
  change (zlen (a :: b :: f)) with (zlen (a :: c :: f)). rewrite !(slice_past a b c) by lia. done.
Qed.

(** Opening asks nothing of the byte a relay writes. *)
Lemma open_past f key commitment_key hash aead :
  exists err x opened,
    fzn_seal_open (a :: b :: f) key commitment_key hash aead = (err, a :: b :: x, opened) /\
    fzn_seal_open (a :: c :: f) key commitment_key hash aead = (err, a :: c :: x, opened).
Proof.
  assert (views (a :: b :: f) = views (a :: c :: f)) as Hv.
  { unfold views, situ_fzn_frame_validate, situ_fzn_hop_validate, situ_fzn_head_validate,
      situ_fzn_frame_tag_offset, frame_version, frame_kind, frame_index, frame_chunks, frame_length.
    rewrite !(get_be16_past), !(peek_past a b c) by lia. done. }
  assert (situ_fzn_frame_tag_offset (a :: b :: f) = situ_fzn_frame_tag_offset (a :: c :: f)) as Ho.
  { unfold situ_fzn_frame_tag_offset, frame_length. by rewrite (get_be16_past) by lia. }
  unfold fzn_seal_open, situ_fzn_frame_tag_covered. rewrite Hv, Ho.
  assert (frame_nonce (a :: b :: f) = frame_nonce (a :: c :: f)) as -> by (by apply slice_past).
  assert (frame_commitment (a :: b :: f) = frame_commitment (a :: c :: f)) as -> by (by apply slice_past).
  change (zlen (a :: b :: f)) with (zlen (a :: c :: f)).
  destruct hash as [hash|]; [|do 3 eexists; split; reflexivity].
  destruct (aead_open aead) as [open|]; [|do 3 eexists; split; reflexivity].
  destruct (negb (views _)); [do 3 eexists; split; reflexivity|].
  destruct (fzn_commitment_for_nonce _ _ _) as [[] [d|]]; try (do 3 eexists; split; reflexivity).
  destruct (fzn_commitment_check _ _); try (do 3 eexists; split; reflexivity).
  destruct ((_ <? _) || _) eqn:E; [do 3 eexists; split; reflexivity|]. cbv beta iota zeta.
  destruct (_ - _ <? _) eqn:E2; [do 3 eexists; split; reflexivity|]. unfold SITU_FZN_HOP_SIZE in *.
  unfold SITU_FZN_HEAD_SIZE_FIXED in *. rewrite !(slice_past a b c) by lia.
  destruct (open _ _ _ _ _) as [[|] text]; rewrite !blit_past by lia;
    [rewrite (opened_past)|]; do 3 eexists; split; reflexivity.
Qed.
End Past.

(** ** A path of relays *)

(** Each host spends under its own ceiling; [None] once one refuses. *)
Fixpoint relay_path (ceilings : list Z) (frame : bytes) : option bytes :=
  match ceilings with
  | [] => Some frame
  | ceiling :: ceilings =>
    match fzn_relay_spend frame ceiling with
    | (FZN_RELAY_OK, frame) => relay_path ceilings frame
    | _ => None
    end
  end.

(** One relay: the budget falls below what it was and below the ceiling, and
    nothing but its byte is written. *)
Lemma spend_ok frame ceiling frame' :
  Forall in_u8 frame -> 0 <= ceiling -> fzn_relay_spend frame ceiling = (FZN_RELAY_OK, frame') ->
  exists a b c f, frame = a :: b :: f /\ frame' = a :: c :: f /\ in_u8 c /\ c < b /\ c < ceiling.
Proof.
  intros Hb Hc. unfold fzn_relay_spend, fzn_relay_budget.
  destruct (hop_view frame) eqn:Hv; [|done]. cbn [negb]. destruct (negb _); [done|].
  cbv beta iota zeta. destruct (_ =? 0) eqn:H0; [done|]. intros [= <-].
  unfold hop_view, SITU_FZN_HOP_SIZE in Hv.
  destruct (two_bytes frame) as (a & b & f & ->); [lia|].
  apply Forall_cons_iff in Hb as [_ [Hb _]%Forall_cons_iff].
  rewrite poke_1_cons. change (frame_hops_left (a :: b :: f)) with b in *.
  eexists a, b, _, f. split; [reflexivity|]. split; [reflexivity|].
  destruct (Z.ltb_spec b ceiling); rewrite u8_small by ulia; ulia.
Qed.

(** A frame is carried only as far as it was sent, and arrives as it left.
    Whatever ceilings the hosts on a path apply, each relay lowers the budget
    below what it found and below its own ceiling, so a path that carries the
    frame is no longer than the budget it was sent with; and opening the frame
    that arrives answers, and opens, what opening the one that left would,
    because a relay writes no byte the tag covers or the receiver's checks
    read. *)
Theorem relays_spend_and_do_not_touch ceilings frame frame' key commitment_key hash aead :
  Forall in_u8 frame -> Forall (fun ceiling => 0 <= ceiling) ceilings ->
  relay_path ceilings frame = Some frame' ->
  zlen ceilings + frame_hops_left frame' <= frame_hops_left frame /\
  Forall (fun ceiling => frame_hops_left frame' < ceiling) ceilings /\
  Forall in_u8 frame' /\
  let '(err, _, opened) := fzn_seal_open frame key commitment_key hash aead in
  let '(err', _, opened') := fzn_seal_open frame' key commitment_key hash aead in
  err' = err /\ opened' = opened.
Proof.
  revert frame. induction ceilings as [|ceiling ceilings IH]; intros frame Hb Hc Hp; cbn in Hp.
  { injection Hp as <-. split_and!; [unfold zlen; cbn; lia|constructor|done|].
    destruct (fzn_seal_open _ _ _ _ _) as [[??]?]. done. }
  destruct (fzn_relay_spend frame ceiling) as [e f1] eqn:Hs. destruct e; try done.
  apply Forall_cons_iff in Hc as [Hc0 Hc].
  destruct (spend_ok frame ceiling f1 Hb Hc0 Hs) as (a & b & c & f & -> & -> & Hu & Hlt & Hlt2).
  apply Forall_cons_iff in Hb as [Ha [Hb Hf]%Forall_cons_iff].
  destruct (IH (a :: c :: f)) as (Hn & Hall & Hb' & Ho);
    [by repeat (apply Forall_cons_iff; split; [done|])|done|done|].
  destruct (open_past a b c f key commitment_key hash aead) as (err & x & opened & E1 & E2).
  rewrite E2 in Ho. rewrite E1. change (frame_hops_left (a :: b :: f)) with b.
  change (frame_hops_left (a :: c :: f)) with c in Hn. unfold zlen in *. cbn [length].
  split_and!; [lia|apply Forall_cons_iff; split; [lia|done]|done|done].
Qed.

(** The frame of [demo_built], sent with three hops, over two hosts. *)
Lemma relays_spend_and_do_not_touch_witness :
  frame_hops_left (slice 0 146 (snd (fst demo_built))) = 3 /\
  exists frame', relay_path [8; 2] (slice 0 146 (snd (fst demo_built))) = Some frame' /\
    frame_hops_left frame' = 1 /\
    2 + frame_hops_left frame' <= frame_hops_left (slice 0 146 (snd (fst demo_built))).
Proof.
  split; [vm_compute; reflexivity|].
  destruct (relay_path [8; 2] (slice 0 146 (snd (fst demo_built)))) as [frame'|] eqn:E.
  - exists frame'. split; [done|]. split.
    + assert (frame_hops_left <$> relay_path [8; 2] (slice 0 146 (snd (fst demo_built))) = Some 1) as H
        by (vm_compute; reflexivity).
      rewrite E in H. by injection H.
    + destruct (relays_spend_and_do_not_touch [8; 2] (slice 0 146 (snd (fst demo_built))) frame'
        (demo_key 8) (demo_key 9) None toy_aead) as [H _]; [| |exact E|exact H].
      * unfold in_u8. apply (bool_decide_unpack _). vm_compute. exact I.
      * repeat (apply Forall_cons_iff; split; [lia|]). apply List.Forall_nil.
  - exfalso. assert (is_Some (relay_path [8; 2] (slice 0 146 (snd (fst demo_built))))) as [x Hx]
      by (vm_compute; eexists; reflexivity). congruence.
Defined.
