(* ===== verification/ChainStore.v ===== *)
(** * chain/chain_store.c: the chains a host holds

    A table of verified chains, keyed by root, capability and grantee, with
    the container that proves each. Expired entries are withheld and are what a
    full table overwrites. *)

From stdpp Require Import sets.
From S2P Require Import Prelude Bytes Hop Revocation Manifest Chain Memo.

Definition FZN_CHAIN_MAX_LEN : Z := FZN_CHAIN_HEADER_LEN + FZN_CHAIN_MAX_HOPS * FZN_HOP_LEN.

(** [ce_bytes] is the whole array; the container is its first [ce_len] bytes. *)
Record fzn_chain_entry := mk_centry {
  ce_chain : fzn_chain;
  ce_bytes : bytes;
  ce_len : Z
}.

(** The length of the array is the capacity; the log is left out. *)
Record fzn_chain_store := mk_cstore {
  cs_entries : option (list fzn_chain_entry);
  cs_used : Z
}.

Definition fzn_chain_store_sound (store : option fzn_chain_store) : bool :=
  match store with
  | None => true
  | Some s =>
    if cs_used s >? table_capacity (cs_entries s) then false
    else if (cs_used s >? 0) && is_null (cs_entries s) then false
    else true
  end.

Definition cs_corrupt (s : fzn_chain_store) : bool := negb (fzn_chain_store_sound (Some s)).

Definition cs_rows (s : fzn_chain_store) : list fzn_chain_entry := in_table (cs_entries s) (cs_used s).

Definition holds_triple (root capability subject : bytes) (e : fzn_chain_entry) : bool :=
  memeq (ch_root (ce_chain e)) root && memeq (ch_capability (ce_chain e)) capability
  && memeq (ch_grantee (ce_chain e)) subject.

(** [None] is the source's [used], in both. *)
Definition cs_find_entry (s : fzn_chain_store) (root capability subject : bytes) : option nat :=
  find_index (holds_triple root capability subject) (cs_rows s).

Definition find_expired (s : fzn_chain_store) (now : Z) : option nat :=
  find_index (fun e => fzn_chain_expired_at (Some (ce_chain e)) now) (cs_rows s).

Definition zero_centry : fzn_chain_entry :=
  mk_centry (mk_chain (zeros FZN_PUBKEY_LEN) (zeros FZN_PUBKEY_LEN) (zeros FZN_CAP_ID_LEN) 0 0)
    (zeros FZN_CHAIN_MAX_LEN) 0.

Definition fzn_chain_store_init (s : fzn_chain_store) (entries_ : option (list fzn_chain_entry))
    : fzn_chain_err * fzn_chain_store :=
  match entries_ with
  | None => (FZN_CHAIN_ERR_MALFORMED, s)
  | Some tab =>
    if zlen tab =? 0 then (FZN_CHAIN_ERR_MALFORMED, s)
    else (FZN_CHAIN_OK, mk_cstore (Some (replicate (length tab) zero_centry)) 0)
  end.

(** [entries[at]] after the three assignments. *)
Definition set_centry (e : fzn_chain_entry) (verified : fzn_chain) (packed : bytes) (len : Z)
    : fzn_chain_entry := mk_centry verified (blit 0 (slice 0 len packed) (ce_bytes e)) len.

Definition fzn_chain_store_admit (s : fzn_chain_store) (hops : list (option fzn_chain_hop))
    (root capability : bytes) (now : Z) (ops : fzn_sign_ops)
    (revocations : option fzn_revocation_store) (manifest : option fzn_manifest_state)
    : fzn_chain_err * fzn_chain_store :=
  match cs_entries s with
  | None => (FZN_CHAIN_ERR_MALFORMED, s)
  | Some tab =>
    if cs_corrupt s then (FZN_CHAIN_ERR_MALFORMED, s)
    else match fzn_chain_verify hops root capability now ops revocations manifest with
    | (FZN_CHAIN_OK, Some verified) =>
      match fzn_chain_pack hops (zeros FZN_CHAIN_MAX_LEN) with
      | (FZN_CHAIN_OK, packed, packed_len) =>
        let put at_ used_ :=
          mk_cstore (Some (alter (fun e => set_centry e verified packed packed_len) at_ tab)) used_ in
        match cs_find_entry s (ch_root verified) (ch_capability verified) (ch_grantee verified) with
        | Some at_ => (FZN_CHAIN_OK, put at_ (cs_used s))
        | None =>
          if cs_used s >=? zlen tab then
            match find_expired s now with
            | None => (FZN_CHAIN_ERR_STORE_FULL, s)
            | Some at_ => (FZN_CHAIN_OK, put at_ (cs_used s))
            end
          else (FZN_CHAIN_OK, put (Z.to_nat (cs_used s)) (cs_used s + 1))
        end
      | (err, _, _) => (err, s)
      end
    | (err, _) => (err, s)
    end
  end.

(** The container held, if a live one is. *)
Definition fzn_chain_store_lookup (store : option fzn_chain_store) (root capability subject : bytes)
    (now : Z) : option bytes :=
  match store with
  | None => None
  | Some s =>
    if cs_corrupt s then None
    else match cs_entries s with
    | None => None
    | Some _ =>
      match cs_find_entry s root capability subject ≫= (fun at_ => cs_rows s !! at_) with
      | None => None
      | Some e =>
        if ce_len e >? FZN_CHAIN_MAX_LEN then None
        else if fzn_chain_expired_at (Some (ce_chain e)) now then None
        else Some (slice 0 (ce_len e) (ce_bytes e))
      end
    end
  end.

Definition fzn_chain_store_count (store : option fzn_chain_store) : Z :=
  match store with None => 0 | Some s => if cs_corrupt s then 0 else cs_used s end.

(** [held], [examined], [truncated]. *)
Record fzn_chain_offer := mk_chain_offer { held : Z; examined : Z; truncated : bool }.

(** [wants] are triples of root, capability and subject; the tail of [holds]
    that is not examined is left as it was. *)
Definition fzn_chain_plan_offer (store : option fzn_chain_store) (wants : list (bytes * bytes * bytes))
    (holds : bytes) (now : Z) : fzn_chain_err * bytes * fzn_chain_offer :=
  let none := mk_chain_offer 0 0 false in
  if zlen holds =? 0 then (FZN_CHAIN_ERR_MALFORMED, holds, none)
  else match store with
  | None => (FZN_CHAIN_ERR_MALFORMED, holds, none)
  | Some s =>
    if cs_corrupt s then (FZN_CHAIN_ERR_MALFORMED, holds, none)
    else
      let n := Z.min (zlen wants) (zlen holds) in
      let answers := (fun w => negb (is_null (fzn_chain_store_lookup store (fst (fst w)) (snd (fst w)) (snd w) now)))
                     <$> take (Z.to_nat n) wants in
      (FZN_CHAIN_OK, blit 0 ((fun b : bool => if b then 1 else 0) <$> answers) holds,
       mk_chain_offer (count (fun b => b) answers) n (zlen wants >? zlen holds))
  end.

(** ** The invariant *)

(** What can be asked of a store from the history of what it was offered. *)
Inductive cs_op :=
| cs_offer (hops : list (option fzn_chain_hop)) (root capability : bytes) (now : Z)
    (revs : option fzn_revocation_store) (man : option fzn_manifest_state).

Section Histories.
Context (ops : fzn_sign_ops).

Definition run_cs_op (s : fzn_chain_store) (op : cs_op) : fzn_chain_store :=
  match op with
  | cs_offer hops root capability now revs man =>
    snd (fzn_chain_store_admit s hops root capability now ops revs man)
  end.

(** The entry holds the container of a chain of the history, and its verdict. *)
Definition centry_ok (h : list cs_op) (e : fzn_chain_entry) : Prop :=
  exists hs now revs man,
    cs_offer (Some <$> hs) (ch_root (ce_chain e)) (ch_capability (ce_chain e)) now revs man ∈ h /\
    fzn_chain_verify (Some <$> hs) (ch_root (ce_chain e)) (ch_capability (ce_chain e)) now ops revs man
      = (FZN_CHAIN_OK, Some (ce_chain e)) /\
    ce_len e <= FZN_CHAIN_MAX_LEN /\ fzn_chain_open (Some (slice 0 (ce_len e) (ce_bytes e))) = (FZN_CHAIN_OK, hs).

(** What a successful admission does to the rows, [e] being what it stores. *)
Inductive cs_step (s : fzn_chain_store) (now : Z) (e : fzn_chain_entry) : list fzn_chain_entry -> Prop :=
| cs_replace k e0 :
    cs_rows s !! k = Some e0 ->
    cs_find_entry s (ch_root (ce_chain e)) (ch_capability (ce_chain e)) (ch_grantee (ce_chain e)) = Some k ->
    cs_step s now e (<[ k := e ]> (cs_rows s))
| cs_reclaim k e0 :
    cs_rows s !! k = Some e0 -> fzn_chain_expired_at (Some (ce_chain e0)) now = true ->
    cs_find_entry s (ch_root (ce_chain e)) (ch_capability (ce_chain e)) (ch_grantee (ce_chain e)) = None ->
    cs_step s now e (<[ k := e ]> (cs_rows s))
| cs_append :
    cs_find_entry s (ch_root (ce_chain e)) (ch_capability (ce_chain e)) (ch_grantee (ce_chain e)) = None ->
    cs_step s now e (cs_rows s ++ [e]).

Definition table_ok (s : fzn_chain_store) : Prop :=
  exists tab, cs_entries s = Some tab /\ 0 <= cs_used s <= zlen tab /\
    Forall (fun e => zlen (ce_bytes e) = FZN_CHAIN_MAX_LEN) tab.

Lemma table_ok_sound s : table_ok s -> cs_corrupt s = false.
Proof.
  intros (tab & He & Hu & _). unfold cs_corrupt, fzn_chain_store_sound, table_capacity. rewrite He.
  destruct (Z.gtb_spec (cs_used s) (zlen tab)); [lia|]. cbn. by rewrite andb_false_r.
Qed.

(** Writing row [k] of the table. *)
Lemma alter_rows (tab : list fzn_chain_entry) k e0 g n :
  tab !! k = Some e0 -> (k < Z.to_nat n)%nat ->
  take (Z.to_nat n) (alter g k tab) = <[ k := g e0 ]> (take (Z.to_nat n) tab).
Proof.
  intros Hk Hn. apply list_eq. intros i. destruct (decide (i < Z.to_nat n)%nat) as [Hi|Hi].
  - rewrite lookup_take_lt by done. destruct (decide (i = k)) as [->|Hne].
    + rewrite list_lookup_alter_eq, list_lookup_insert_eq, Hk; [done|].
      rewrite length_take. apply lookup_lt_Some in Hk. lia.
    + by rewrite list_lookup_alter_ne, list_lookup_insert_ne, lookup_take_lt by done.
  - rewrite !lookup_ge_None_2; [done|rewrite length_insert, length_take; lia|rewrite length_take; lia].
Qed.

Lemma set_centry_ok e verified hs packed len :
  zlen (ce_bytes e) = FZN_CHAIN_MAX_LEN -> zlen packed = FZN_CHAIN_MAX_LEN -> 0 <= len <= FZN_CHAIN_MAX_LEN ->
  fzn_chain_open (Some (slice 0 len packed)) = (FZN_CHAIN_OK, hs) ->
  let e' := set_centry e verified packed len in
  zlen (ce_bytes e') = FZN_CHAIN_MAX_LEN /\ slice 0 (ce_len e') (ce_bytes e') = slice 0 len packed.
Proof.
  intros He Hp Hl Ho e'. assert (zlen (slice 0 len packed) = len) as Hs by (apply zlen_slice; lia).
  unfold e'. cbn. split; [rewrite zlen_blit; lia|]. rewrite <- Hs at 1. apply slice_blit_same; lia.
Qed.

(** An admission of opened hops: refused, or one step on the rows with the
    verdict and a container that opens to those hops. *)
Lemma cs_admit_cases s hs root capability now revs man err s' :
  table_ok s -> Forall hop_ok hs ->
  fzn_chain_store_admit s (Some <$> hs) root capability now ops revs man = (err, s') ->
  (err <> FZN_CHAIN_OK /\ s' = s) \/
  (err = FZN_CHAIN_OK /\ table_ok s' /\ exists e verdict,
     fzn_chain_verify (Some <$> hs) root capability now ops revs man = (FZN_CHAIN_OK, Some verdict) /\
     ce_chain e = verdict /\ ce_len e <= FZN_CHAIN_MAX_LEN /\
     fzn_chain_open (Some (slice 0 (ce_len e) (ce_bytes e))) = (FZN_CHAIN_OK, hs) /\
     cs_step s now e (cs_rows s')).
Proof.
  intros Hok Hhs. unfold fzn_chain_store_admit. rewrite table_ok_sound by done.
  destruct Hok as (tab & He & Hu & Hb). rewrite He.
  destruct (fzn_chain_verify _ _ _ _ _ _ _) as [e1 v] eqn:Hv.
  destruct e1, v as [v|]; try (intros [= <- <-]; by left); try (by apply verify_none in Hv).
  assert (0 < zlen hs <= 8) as Hn.
  { apply verify_ok_iff in Hv as (hs' & vf & E & _ & [Hn _ _ _ _ _ _ _] & _).
    apply (inj (fmap Some)) in E as ->. exact Hn. }
  destruct (packed_opens hs (zeros FZN_CHAIN_MAX_LEN) Hhs Hn) as (packed & len & -> & Hpl & Hlen & Hop).
  { change (2 + zlen hs * 179 <= 1434). lia. }
  change (zlen (zeros FZN_CHAIN_MAX_LEN)) with FZN_CHAIN_MAX_LEN in Hpl.
  assert (0 <= len <= FZN_CHAIN_MAX_LEN) as Hlr by (change FZN_CHAIN_MAX_LEN with 1434; lia).
  set (g := fun e => set_centry e v packed len).
  assert (forall k e0 n, tab !! k = Some e0 -> 0 <= n <= zlen tab ->
    table_ok (mk_cstore (Some (alter g k tab)) n) /\
    ce_chain (g e0) = v /\ ce_len (g e0) <= FZN_CHAIN_MAX_LEN /\
    fzn_chain_open (Some (slice 0 (ce_len (g e0)) (ce_bytes (g e0)))) = (FZN_CHAIN_OK, hs)) as Hg.
  { intros k e0 n Hk Hn'. rewrite Forall_lookup in Hb.
    destruct (set_centry_ok e0 v hs packed len) as [Hz Hsl]; [by eapply Hb|done..|].
    split; [|split_and!; [done|cbn; lia|unfold g; by rewrite Hsl]].
    exists (alter g k tab). split; [done|]. cbn. unfold zlen in *. rewrite length_alter. split; [done|].
    apply Forall_lookup. intros i x. destruct (decide (i = k)) as [->|].
    - rewrite list_lookup_alter_eq, Hk. by intros [= <-].
    - rewrite list_lookup_alter_ne by done. apply Hb. }
  assert (forall k e0, cs_rows s !! k = Some e0 -> tab !! k = Some e0 /\ (k < Z.to_nat (cs_used s))%nat) as Hrow.
  { unfold cs_rows, in_table. rewrite He. intros k e0 Hk. apply lookup_take_Some in Hk. done. }
  fold g. destruct (cs_find_entry s _ _ _) as [k|] eqn:Hf.
  - intros [= <- <-]. right. assert (Hf' := Hf). apply find_index_Some in Hf' as (e0 & Hk & _).
    destruct (Hrow k e0 Hk) as [Ht Hlt]. destruct (Hg k e0 (cs_used s) Ht Hu) as (G1 & G2 & G3 & G4).
    split_and!; [done|done|]. exists (g e0), v. split_and!; auto.
    unfold cs_rows at 1, in_table. cbn. rewrite (alter_rows tab k e0) by done.
    change (take (Z.to_nat (cs_used s)) tab) with (in_table (Some tab) (cs_used s)). rewrite <- He.
    fold (cs_rows s). by eapply cs_replace.
  - destruct (Z.geb_spec (cs_used s) (zlen tab)) as [|Hroom].
    + destruct (find_expired s now) as [k|] eqn:Hx; intros [= <- <-]; [right|by left].
      apply find_index_Some in Hx as (e0 & Hk & Hexp & _).
      destruct (Hrow k e0 Hk) as [Ht Hlt]. destruct (Hg k e0 (cs_used s) Ht Hu) as (G1 & G2 & G3 & G4).
      split_and!; [done|done|]. exists (g e0), v. split_and!; auto.
      unfold cs_rows at 1, in_table. cbn. rewrite (alter_rows tab k e0) by done.
      change (take (Z.to_nat (cs_used s)) tab) with (in_table (Some tab) (cs_used s)). rewrite <- He.
      fold (cs_rows s). by eapply cs_reclaim.
    + intros [= <- <-]. right. set (k := Z.to_nat (cs_used s)).
      destruct (lookup_lt_is_Some_2 tab k) as [e0 Ht]; [unfold zlen in *; lia|].
      destruct (Hg k e0 (cs_used s + 1) Ht) as (G1 & G2 & G3 & G4); [lia|].
      split_and!; [done|done|]. exists (g e0), v. split_and!; auto.
      assert (cs_rows (mk_cstore (Some (alter g k tab)) (cs_used s + 1)) = cs_rows s ++ [g e0]) as ->;
        [|by constructor].
      unfold cs_rows, in_table. rewrite He. cbn [cs_entries cs_used].
      rewrite (alter_rows tab k e0) by (done || lia).
      replace (Z.to_nat (cs_used s + 1)) with (S k) by lia.
      rewrite (take_S_r _ _ _ Ht), insert_app_r_alt by (rewrite length_take; lia).
      rewrite length_take, Nat.min_l, Nat.sub_diag by (apply lookup_lt_Some in Ht; lia). done.
Qed.

Definition cs_ok (h : list cs_op) (s : fzn_chain_store) : Prop :=
  table_ok s /\ Forall (centry_ok h) (cs_rows s).

Lemma centry_ok_mono h h' e : h ⊆ h' -> centry_ok h e -> centry_ok h' e.
Proof. intros Hs (hs & t & revs & man & Hin & H). exists hs, t, revs, man. split; [by apply Hs|done]. Qed.

Lemma cs_step_Forall s now e l (P : fzn_chain_entry -> Prop) :
  cs_step s now e l -> Forall P (cs_rows s) -> P e -> Forall P l.
Proof.
  intros [k e0 _ _|k e0 _ _ _|_] Hr He; [by apply Forall_insert|by apply Forall_insert|].
  apply Forall_app. split; [done|]. apply Forall_cons_iff. split; [done|apply List.Forall_nil].
Qed.

(** Every hop a history offers is one [fzn_hop_open] accepted. *)
Definition offers_opened (op : cs_op) : Prop :=
  match op with cs_offer hops _ _ _ _ _ => exists hs, hops = Some <$> hs /\ Forall hop_ok hs end.

Lemma run_cs_op_ok h s op : offers_opened op -> cs_ok h s -> cs_ok (h ++ [op]) (run_cs_op s op).
Proof.
  destruct op as [hops root capability now revs man]. intros (hs & -> & Hhs) [Ht Hr]. cbn [run_cs_op].
  assert (Forall (centry_ok (h ++ [cs_offer (Some <$> hs) root capability now revs man])) (cs_rows s)) as Hr'.
  { eapply list.Forall_impl; [exact Hr|]. intros e. apply centry_ok_mono. set_solver. }
  destruct (fzn_chain_store_admit _ _ _ _ _ _ _ _) as [err s'] eqn:E. cbn [snd].
  destruct (cs_admit_cases _ _ _ _ _ _ _ _ _ Ht Hhs E)
    as [[_ ->]|(_ & Ht' & e & v & Hv & Hc & Hl & Ho & Hstep)]; [by split|].
  split; [done|]. eapply cs_step_Forall; [exact Hstep|done|].
  assert (ch_root v = root /\ ch_capability v = capability) as [Er Ec]
    by (apply verify_ok_iff in Hv as (? & ? & _ & _ & _ & ->); done).
  exists hs, now, revs, man. rewrite Hc, Er, Ec. split_and!; auto. set_solver.
Qed.

Lemma run_cs_ok h : forall h0 s, Forall offers_opened h -> cs_ok h0 s -> cs_ok (h0 ++ h) (fold_left run_cs_op h s).
Proof.
  induction h as [|op h IH]; intros h0 s Hh Hok; cbn; [by rewrite app_nil_r|].
  apply Forall_cons_iff in Hh as [Hop Hh]. rewrite cons_middle, app_assoc. by apply IH, run_cs_op_ok.
Qed.
End Histories.

Lemma cs_init_ok ops s es s' : fzn_chain_store_init s es = (FZN_CHAIN_OK, s') -> cs_ok ops [] s'.
Proof.
  unfold fzn_chain_store_init. destruct es as [tab|]; [|done]. destruct (Z.eqb_spec (zlen tab) 0); [done|].
  intros [= <-]. split; [|apply List.Forall_nil].
  exists (replicate (length tab) zero_centry). split; [done|]. split; [cbn; unfold zlen; lia|].
  by apply Forall_replicate.
Qed.

(** What a lookup answers, in terms of the rows. *)
Lemma lookup_row s root capability subject now b :
  table_ok s -> fzn_chain_store_lookup (Some s) root capability subject now = Some b <->
  exists k e, cs_find_entry s root capability subject = Some k /\ cs_rows s !! k = Some e /\
    ce_len e <= FZN_CHAIN_MAX_LEN /\ fzn_chain_expired_at (Some (ce_chain e)) now = false /\
    b = slice 0 (ce_len e) (ce_bytes e).
Proof.
  intros Ht. unfold fzn_chain_store_lookup. rewrite table_ok_sound by done.
  destruct Ht as (tab & -> & _). destruct (cs_find_entry s _ _ _) as [k|] eqn:Hf; cbn [mbind option_bind].
  2: { split; [done|]. by intros (? & ? & ? & _). }
  destruct (cs_rows s !! k) as [e|] eqn:Hk.
  2: { split; [done|]. intros (? & ? & ? & ? & _). congruence. }
  split.
  - destruct (Z.gtb_spec (ce_len e) FZN_CHAIN_MAX_LEN); [done|].
    destruct (fzn_chain_expired_at _ _) eqn:Hx; [done|]. intros [= <-]. exists k, e. auto.
  - intros (k' & e' & [= <-] & Hk' & Hl & Hx & ->). rewrite Hk in Hk'. injection Hk' as <-.
    destruct (Z.gtb_spec (ce_len e) FZN_CHAIN_MAX_LEN); [lia|]. by rewrite Hx.
Qed.

Lemma holds_triple_true r c g e :
  holds_triple r c g e = true <-> ch_root (ce_chain e) = r /\ ch_capability (ce_chain e) = c /\ ch_grantee (ce_chain e) = g.
Proof. unfold holds_triple. rewrite !andb_true_iff, !memeq_true. tauto. Qed.

(** A container served, of a store every row of which an admission explains. *)
Lemma served_explained ops h s root capability subject now b :
  cs_ok ops h s -> fzn_chain_store_lookup (Some s) root capability subject now = Some b ->
  exists hs t revs man verdict,
    cs_offer (Some <$> hs) root capability t revs man ∈ h /\
    fzn_chain_open (Some b) = (FZN_CHAIN_OK, hs) /\
    fzn_chain_verify (Some <$> hs) root capability now ops revs None = (FZN_CHAIN_OK, Some verdict) /\
    ch_grantee verdict = subject.
Proof.
  intros [Ht Hr] Hl.
  apply lookup_row in Hl as (k & e & Hf & Hk & _ & Hx & ->); [|done].
  apply find_index_Some in Hf as (e' & Hk' & Hm & _). rewrite Hk in Hk'. injection Hk' as <-.
  apply holds_triple_true in Hm as (<- & <- & <-).
  rewrite Forall_lookup in Hr. destruct (Hr k e Hk) as (hs & t & revs & man & Hin & Hv & _ & Ho).
  exists hs, t, revs, man, (ce_chain e). split_and!; auto.
  apply verify_ok_iff in Hv as (hs' & vf & E & Hvf & Hval & Hc). apply (inj (fmap Some)) in E as <-.
  apply verify_ok_iff. exists hs, vf. split_and!; auto. eapply chain_valid_later; [exact Hval|].
  rewrite Hc in Hx. unfold fzn_chain_expired_at in Hx. cbn [verdict_of ch_expires_at] in Hx. lia.
Qed.

(** A host serves only chains it has verified, and none that has expired.
    Over any history of admissions of opened hops from a fresh store, whatever
    they were offered with, a container that lookup answers for a root, a
    capability and a subject at a time opens to a chain of the history, and
    that chain verifies at that time, from that root, for that capability, to
    that subject, against the revocations it was admitted under. *)
Theorem served_chains_verify ops s0 es s h root capability subject now b :
  fzn_chain_store_init s0 es = (FZN_CHAIN_OK, s) -> Forall offers_opened h ->
  fzn_chain_store_lookup (Some (fold_left (run_cs_op ops) h s)) root capability subject now = Some b ->
  exists hs t revs man verdict,
    cs_offer (Some <$> hs) root capability t revs man ∈ h /\
    fzn_chain_open (Some b) = (FZN_CHAIN_OK, hs) /\
    fzn_chain_verify (Some <$> hs) root capability now ops revs None = (FZN_CHAIN_OK, Some verdict) /\
    ch_grantee verdict = subject.
Proof.
  intros Hi%(cs_init_ok ops) Hh Hl. apply (run_cs_ok ops h) in Hi; [|done]. by eapply served_explained.
Qed.

(** What a verified chain is at the time it was verified: not expired. *)
Lemma verified_unexpired hops root capability now ops revs man v :
  fzn_chain_verify hops root capability now ops revs man = (FZN_CHAIN_OK, Some v) ->
  fzn_chain_expired_at (Some v) now = false.
Proof.
  intros (hs & vf & _ & _ & [_ _ _ _ Hlive _ _ _] & ->)%verify_ok_iff.
  unfold fzn_chain_expired_at. cbn [verdict_of ch_expires_at].
  destruct (_ && _) eqn:E; [|done]. exfalso. unfold FZN_NO_EXPIRY in *.
  destruct (soonest_expired now hs 0) as [H _]. destruct H as [[? _]|(i & h & Hi & Hne & Hle)]; [lia|done|].
  rewrite Forall_lookup in Hlive. destruct (Hlive i h Hi) as [|[_ ?]]; [done|lia].
Qed.

(** Another triple's live entry is found as before. *)
Lemma cs_step_others s s' now e r c g k e0 :
  cs_step s now e (cs_rows s') -> holds_triple r c g e = false ->
  cs_find_entry s r c g = Some k -> cs_rows s !! k = Some e0 ->
  fzn_chain_expired_at (Some (ce_chain e0)) now = false ->
  cs_find_entry s' r c g = Some k /\ cs_rows s' !! k = Some e0.
Proof.
  intros Hst Hne Hf Hk Hx. unfold cs_find_entry in *. assert (Hf' := Hf).
  apply find_index_Some in Hf' as (e0' & Hk' & Hm & Hlt). rewrite Hk in Hk'. injection Hk' as <-.
  assert (forall j, j <> k -> (<[ j := e ]> (cs_rows s)) !! k = Some e0 /\
    find_index (holds_triple r c g) (<[ j := e ]> (cs_rows s)) = Some k) as Hins.
  { intros j Hj. rewrite list_lookup_insert_ne by done. split; [done|]. apply find_index_Some. exists e0.
    split_and!; [by rewrite list_lookup_insert_ne|done|]. intros i y Hi Hik.
    destruct (decide (i = j)) as [->|].
    - apply list_lookup_insert_Some in Hi as [(_ & <- & _)|(? & _)]; [done|done].
    - rewrite list_lookup_insert_ne in Hi by done. eauto. }
  remember (cs_rows s') as l' eqn:El. destruct Hst as [j e1 Hj Hfe|j e1 Hj Hxe _|_].
  - destruct (Hins j) as [H1 H2]; [|done]. intros ->. apply find_index_Some in Hfe as (e2 & Hj2 & Hm2 & _).
    apply holds_triple_true in Hm, Hm2. rewrite Hk in Hj2. injection Hj2 as <-.
    destruct Hm2 as (E1 & E2 & E3). rewrite E1, E2, E3 in Hm.
    apply holds_triple_true in Hm. congruence.
  - destruct (Hins j) as [H1 H2]; [|done]. intros ->. congruence.
  - split; [|by apply lookup_app_l_Some]. apply find_index_Some. exists e0.
    split_and!; [by apply lookup_app_l_Some|done|]. intros i y Hi Hik. apply (Hlt i); [|done].
    apply lookup_app_Some in Hi as [?|[? _]]; [done|]. apply lookup_lt_Some in Hk. lia.
Qed.

(** The entry just stored is the one its triple finds. *)
Lemma cs_step_found s s' now e :
  cs_step s now e (cs_rows s') ->
  exists k, cs_find_entry s' (ch_root (ce_chain e)) (ch_capability (ce_chain e)) (ch_grantee (ce_chain e)) = Some k /\
    cs_rows s' !! k = Some e.
Proof.
  intros Hst. assert (holds_triple (ch_root (ce_chain e)) (ch_capability (ce_chain e)) (ch_grantee (ce_chain e)) e = true)
    as Hm by (by apply holds_triple_true).
  unfold cs_find_entry. remember (cs_rows s') as l' eqn:El.
  assert (forall k l, l !! k = Some e ->
    (forall j y, l !! j = Some y -> (j < k)%nat ->
       holds_triple (ch_root (ce_chain e)) (ch_capability (ce_chain e)) (ch_grantee (ce_chain e)) y = false) ->
    exists k0, find_index (holds_triple (ch_root (ce_chain e)) (ch_capability (ce_chain e)) (ch_grantee (ce_chain e))) l
      = Some k0 /\ l !! k0 = Some e) as Hfind.
  { intros k l Hk Hlt. exists k. split; [|done]. apply find_index_Some. eauto. }
  destruct Hst as [j e1 Hj Hfe|j e1 Hj _ Hfe|Hfe]; unfold cs_find_entry in Hfe.
  - apply (Hfind j); [apply list_lookup_insert_eq; by eapply lookup_lt_Some|].
    intros i y Hi Hij. rewrite list_lookup_insert_ne in Hi by lia.
    apply find_index_Some in Hfe as (_ & _ & _ & Hlt). by apply (Hlt i).
  - apply (Hfind j); [apply list_lookup_insert_eq; by eapply lookup_lt_Some|].
    intros i y Hi Hij. rewrite list_lookup_insert_ne in Hi by lia. rewrite find_index_None in Hfe. by apply (Hfe i).
  - apply (Hfind (length (cs_rows s))); [by apply list_lookup_middle|].
    intros i y Hi Hij. rewrite find_index_None in Hfe. apply (Hfe i). rewrite lookup_app_l in Hi by done. done.
Qed.

(** What is admitted is found, and at nobody's live expense. After an
    admission of opened hops that answers OK, looking up the chain's own root,
    capability and grantee gives a container that opens to those hops; and
    whatever live container any other triple was answered with, it still is:
    only an expired entry, or the same triple's own, is ever overwritten. A
    refusal changes nothing. *)
Theorem chain_store_admit_lookup ops s hs root capability now revs man err s' :
  table_ok s -> Forall hop_ok hs ->
  fzn_chain_store_admit s (Some <$> hs) root capability now ops revs man = (err, s') ->
  (err <> FZN_CHAIN_OK -> s' = s) /\
  (err = FZN_CHAIN_OK -> table_ok s' /\ exists grantee,
     Some grantee = fzn_hop_grantee <$> list.last hs /\
     (exists b, fzn_chain_store_lookup (Some s') root capability grantee now = Some b /\
        fzn_chain_open (Some b) = (FZN_CHAIN_OK, hs)) /\
     forall r c g b, (r, c, g) <> (root, capability, grantee) ->
       fzn_chain_store_lookup (Some s) r c g now = Some b ->
       fzn_chain_store_lookup (Some s') r c g now = Some b).
Proof.
  intros Ht Hhs H. destruct (cs_admit_cases ops _ _ _ _ _ _ _ _ _ Ht Hhs H)
    as [[Hne ->]|(-> & Ht' & e & v & Hv & Hc & Hl & Ho & Hst)]; [done|].
  split; [done|]. intros _. split; [done|]. pose proof (verified_unexpired _ _ _ _ _ _ _ _ Hv) as Hx.
  assert (ch_root v = root /\ ch_capability v = capability /\
          Some (ch_grantee v) = fzn_hop_grantee <$> list.last hs) as (Er & Ec & Eg).
  { apply verify_ok_iff in Hv as (hs' & vf & E & _ & [Hn _ _ _ _ _ _ _] & ->).
    apply (inj (fmap Some)) in E as ->. split_and!; [done|done|]. cbn.
    destruct (list.last hs') eqn:El; [done|]. apply last_None in El as ->. unfold zlen in Hn. cbn in Hn. lia. }
  exists (ch_grantee v). split_and!; [done| |].
  - destruct (cs_step_found _ _ _ _ Hst) as (k & Hf & Hk). rewrite Hc, Er, Ec in Hf.
    eexists. split; [|exact Ho]. apply lookup_row; [done|]. exists k, e. rewrite Hc. auto.
  - intros r c g b Hne Hb. apply lookup_row in Hb as (k & e0 & Hf & Hk & Hl0 & Hx0 & ->); [|done].
    apply lookup_row; [done|]. exists k, e0.
    destruct (cs_step_others s s' now e r c g k e0 Hst) as [H1 H2]; auto.
    destruct (holds_triple r c g e) eqn:Hm; [|done]. apply holds_triple_true in Hm. rewrite Hc, Er, Ec in Hm.
    destruct Hm as (<- & <- & <-). done.
Qed.

(** ** Witnesses *)

Definition demo_cstore : fzn_chain_store := mk_cstore (Some [zero_centry]) 0.
Definition demo_offer : cs_op := cs_offer [Some demo_hop] (demo_key 1) (demo_key 3) 150 None None.

Lemma demo_hop_ok : Forall hop_ok [demo_hop].
Proof. apply Forall_cons_iff. split; [vm_compute; reflexivity|apply List.Forall_nil]. Qed.

Lemma served_chains_verify_witness :
  exists hs t revs man verdict,
    cs_offer (Some <$> hs) (demo_key 1) (demo_key 3) t revs man ∈ [demo_offer] /\
    fzn_chain_verify (Some <$> hs) (demo_key 1) (demo_key 3) 200 toy_ops revs None
    = (FZN_CHAIN_OK, Some verdict) /\ ch_grantee verdict = demo_key 2.
Proof.
  assert (fzn_chain_store_init demo_cstore (Some [zero_centry]) = (FZN_CHAIN_OK, demo_cstore)) as Hi
    by reflexivity.
  assert (Forall offers_opened [demo_offer]) as Hh.
  { apply Forall_cons_iff. split; [|apply List.Forall_nil]. exists [demo_hop]. split; [done|apply demo_hop_ok]. }
  assert (is_Some (fzn_chain_store_lookup (Some (fold_left (run_cs_op toy_ops) [demo_offer] demo_cstore))
            (demo_key 1) (demo_key 3) (demo_key 2) 200)) as [b Hb]
    by (vm_compute; eexists; reflexivity).
  destruct (served_chains_verify toy_ops demo_cstore (Some [zero_centry]) demo_cstore [demo_offer]
    (demo_key 1) (demo_key 3) (demo_key 2) 200 b Hi Hh Hb) as (hs & t & revs & man & v & H1 & _ & H2 & H3).
  exists hs, t, revs, man, v. split; [exact H1|split; [exact H2|exact H3]].
Defined.

Lemma chain_store_admit_lookup_witness :
  exists b, fzn_chain_store_lookup
      (Some (snd (fzn_chain_store_admit demo_cstore [Some demo_hop] (demo_key 1) (demo_key 3) 150 toy_ops None None)))
      (demo_key 1) (demo_key 3) (fzn_hop_grantee demo_hop) 150 = Some b /\
    fzn_chain_open (Some b) = (FZN_CHAIN_OK, [demo_hop]).
Proof.
  assert (table_ok demo_cstore) as Ht.
  { exists [zero_centry]. split; [reflexivity|]. split; [vm_compute; split; discriminate|].
    apply Forall_cons_iff. split; [reflexivity|apply List.Forall_nil]. }
  set (r := fzn_chain_store_admit _ _ _ _ _ _ _ _).
  assert (r = (FZN_CHAIN_OK, snd r)) as Hr.
  { assert (fst r = FZN_CHAIN_OK) as H by (vm_compute; reflexivity). rewrite <- H. by destruct r. }
  destruct (chain_store_admit_lookup toy_ops demo_cstore [demo_hop] (demo_key 1) (demo_key 3) 150 None None
    FZN_CHAIN_OK (snd r) Ht demo_hop_ok Hr) as [_ H].
  destruct (H eq_refl) as (_ & g & Hg & Hb & _). change (Some g = Some (fzn_hop_grantee demo_hop)) in Hg.
  apply (inj Some) in Hg. rewrite Hg in Hb. exact Hb.
Defined.
