(* ===== verification/Admit.v ===== *)
(** * admit/admit.c: one datagram, in order

    The eight steps a received datagram passes: shape, key, commitment, tag,
    freshness, replay, chain, reassembly. Each step is the operation of the
    component that owns it. What a call may change is the frame, decrypted in
    place, the replay window, the memo and the reassembly table; the rest of
    the environment is read. The array [candidates] is scratch: what the
    consumer leaves in it is read, and it is not part of the result. *)

From stdpp Require Import sets.
From S2P Require Import Prelude Bytes Hop Revocation Manifest Chain Memo Seal ChainStore.
From S2P Require Reassembly.
From S2P Require Import Freshness.

Inductive fzn_admit_step :=
| FZN_ADMIT_ADMITTED | FZN_ADMIT_SHAPE | FZN_ADMIT_KEY_SELECT | FZN_ADMIT_COMMITMENT | FZN_ADMIT_TAG
| FZN_ADMIT_FRESHNESS | FZN_ADMIT_REPLAY | FZN_ADMIT_CHAIN | FZN_ADMIT_REASSEMBLY.

Inductive fzn_admit_vocab :=
| FZN_ADMIT_VOCAB_NONE | FZN_ADMIT_VOCAB_SEAL | FZN_ADMIT_VOCAB_COMMITMENT | FZN_ADMIT_VOCAB_FRESH
| FZN_ADMIT_VOCAB_CHAIN | FZN_ADMIT_VOCAB_REASM | FZN_ADMIT_VOCAB_UNKNOWN_SENDER | FZN_ADMIT_VOCAB_NO_CHAIN.

#[export] Instance fzn_admit_step_eq_dec : EqDecision fzn_admit_step.
Proof. solve_decision. Defined.

(** ** The enumerators' values, as [err] carries them *)

Definition seal_code (e : fzn_seal_err) : Z :=
  match e with
  | FZN_SEAL_OK => 0 | FZN_SEAL_ERR_MALFORMED => -1 | FZN_SEAL_ERR_SHAPE => -2 | FZN_SEAL_ERR_TAG => -3
  | FZN_SEAL_ERR_COMMITMENT => -4 | FZN_SEAL_ERR_NO_NONCE => -5 | FZN_SEAL_ERR_CAPACITY => -6
  | FZN_SEAL_ERR_HASH => -7 | FZN_SEAL_ERR_AEAD => -8
  end.
Definition commitment_code (e : fzn_commitment_err) : Z :=
  match e with
  | FZN_COMMITMENT_OK => 0 | FZN_COMMITMENT_ERR_MALFORMED => -1 | FZN_COMMITMENT_ERR_HASH => -2
  | FZN_COMMITMENT_ERR_MISMATCH => -3
  end.
Definition fresh_code (e : fzn_fresh_err) : Z :=
  match e with
  | FZN_FRESH_OK => 0 | FZN_FRESH_ERR_MALFORMED => -1 | FZN_FRESH_ERR_EXPIRED => -2
  | FZN_FRESH_ERR_NO_EXPIRY => -3 | FZN_FRESH_ERR_REPLAY => -4 | FZN_FRESH_ERR_WINDOW_FULL => -5
  | FZN_FRESH_ERR_HORIZON => -6
  end.
Definition chain_code (e : fzn_chain_err) : Z :=
  match e with
  | FZN_CHAIN_OK => 0 | FZN_CHAIN_ERR_MALFORMED => -1 | FZN_CHAIN_ERR_CHAIN_INVALID => -2
  | FZN_CHAIN_ERR_WRONG_ROOT => -3 | FZN_CHAIN_ERR_EXPIRED => -4 | FZN_CHAIN_ERR_REVOKED => -5
  | FZN_CHAIN_ERR_NOT_DELEGABLE => -6 | FZN_CHAIN_ERR_STORE_FULL => -7 | FZN_CHAIN_ERR_SHAPE => -8
  | FZN_CHAIN_ERR_UNKNOWN_TARGET => -9 | FZN_CHAIN_ERR_INCOMPLETE => -10
  end.
Definition reasm_code (e : Reassembly.fzn_reasm_err) : Z :=
  match e with
  | Reassembly.FZN_REASM_OK => 0 | Reassembly.FZN_REASM_ERR_MALFORMED => -1
  | Reassembly.FZN_REASM_ERR_FULL => -2 | Reassembly.FZN_REASM_ERR_QUOTA => -3
  | Reassembly.FZN_REASM_ERR_MISMATCH => -4 | Reassembly.FZN_REASM_ERR_CONFLICT => -5
  | Reassembly.FZN_REASM_ERR_TOO_LARGE => -6 | Reassembly.FZN_REASM_ERR_EXPIRED => -7
  | Reassembly.FZN_REASM_ERR_ABSENT => -8
  end.

(** ** What the consumer supplies, and what the call answers *)

Record fzn_admit_key := mk_akey { k_aead : bytes; k_commitment : bytes }.

Definition zero_akey : fzn_admit_key := mk_akey (zeros FZN_AEAD_KEY_LEN) (zeros FZN_COMMITMENT_KEY_LEN).

(** [keys] is given the claimed sender and the array, and answers a count and
    what the array then holds; [root_for] answers [None] where the source's
    returns zero. *)
Record fzn_admit_ops := mk_aops {
  keys : option (bytes -> list fzn_admit_key -> Z * list fzn_admit_key);
  expiry_rule : option (Z -> fzn_expiry_rule);
  root_for : option (bytes -> option bytes)
}.

(** [e_hash] may be NULL, and may point to operations whose [hash] is NULL:
    the first is refused with the arguments, the second at step 3. *)
Record fzn_admit_env := mk_aenv {
  e_ops : option fzn_admit_ops;
  e_hash : option (option fzn_hash_ops);
  e_aead : option fzn_aead_ops;
  e_sign : option fzn_sign_ops;
  e_replay : option fzn_replay_window;
  e_chains : option fzn_chain_store;
  e_revocations : option fzn_revocation_store;
  e_manifest : option fzn_manifest_state;
  e_memo : option fzn_chain_memo;
  e_reassembly : option Reassembly.fzn_reasm;
  e_max_ahead : Z
}.

Definition with_replay (e : fzn_admit_env) (w : fzn_replay_window) : fzn_admit_env :=
  mk_aenv (e_ops e) (e_hash e) (e_aead e) (e_sign e) (Some w) (e_chains e) (e_revocations e)
    (e_manifest e) (e_memo e) (e_reassembly e) (e_max_ahead e).
Definition with_memo (e : fzn_admit_env) (m : option fzn_chain_memo) : fzn_admit_env :=
  mk_aenv (e_ops e) (e_hash e) (e_aead e) (e_sign e) (e_replay e) (e_chains e) (e_revocations e)
    (e_manifest e) m (e_reassembly e) (e_max_ahead e).
Definition with_reassembly (e : fzn_admit_env) (t : option Reassembly.fzn_reasm) : fzn_admit_env :=
  mk_aenv (e_ops e) (e_hash e) (e_aead e) (e_sign e) (e_replay e) (e_chains e) (e_revocations e)
    (e_manifest e) (e_memo e) t (e_max_ahead e).

(** [opened] is [None] where the source leaves it zeroed; [message] is the
    index of the slot the completed message is in. *)
Record fzn_admit_result := mk_aresult {
  r_step : fzn_admit_step;
  r_vocab : fzn_admit_vocab;
  r_err : Z;
  r_opened : option fzn_opened;
  r_message : option nat
}.

(** [refuse]: what was opened before stays in the result. *)
Definition refuse (step : fzn_admit_step) (vocab : fzn_admit_vocab) (err : Z) (o : option fzn_opened)
    : fzn_admit_result := mk_aresult step vocab err o None.

(** ** The steps *)

(** Step 3, the candidates from index [i] on, [fuel] of the [n] to go: the
    first whose commitment is the frame's, or the error that ends the search. *)
Fixpoint choose (hash : option fzn_hash_ops) (candidates : list fzn_admit_key) (head : fzn_peek) (i : nat)
    (fuel : nat) : fzn_commitment_err * option nat :=
  match fuel with
  | O => (FZN_COMMITMENT_OK, None)
  | S fuel =>
    match fzn_commitment_for_nonce hash (k_commitment (default zero_akey (candidates !! i))) (pk_nonce head) with
    | (FZN_COMMITMENT_OK, Some derived) =>
      match fzn_commitment_check derived (pk_commitment head) with
      | FZN_COMMITMENT_OK => (FZN_COMMITMENT_OK, Some i)
      | _ => choose hash candidates head (S i) fuel
      end
    | (er, _) => (er, None)
    end
  end.

(** Step 7 once the root is known: the memo, then the chain this host holds.
    [None] is the way through, and the memo as it is left. *)
Definition admit_chain (o : fzn_opened) (root : bytes) (now : Z) (sign : fzn_sign_ops) (env : fzn_admit_env)
    : option (fzn_admit_vocab * Z) * option fzn_chain_memo :=
  let cap := o_capability o in
  let generation_ := fzn_revocation_generation (e_revocations env) in
  let '(hit, memo) :=
    match e_memo env with
    | None => (false, None)
    | Some m =>
      let '(hit, m) := fzn_chain_memo_allows m root (o_sender o) cap generation_ now in (hit, Some m)
    end in
  if hit then (None, memo)
  else match fzn_chain_store_lookup (e_chains env) root cap (o_sender o) now with
  | None => (Some (FZN_ADMIT_VOCAB_NO_CHAIN, 0), memo)
  | Some chain_bytes =>
    match fzn_chain_open (Some chain_bytes) with
    | (FZN_CHAIN_OK, hops) =>
      match fzn_chain_verify (Some <$> hops) root cap now sign (e_revocations env) (e_manifest env) with
      | (FZN_CHAIN_OK, Some verdict) =>
        (None, (fun m => snd (fzn_chain_memo_record m verdict generation_)) <$> memo)
      | (cr, _) => (Some (FZN_ADMIT_VOCAB_CHAIN, chain_code cr), memo)
      end
    | (cr, _) => (Some (FZN_ADMIT_VOCAB_CHAIN, chain_code cr), memo)
    end
  end.

(** Step 8. *)
Definition admit_reassemble (o : fzn_opened) (now : Z) (env : fzn_admit_env)
    : fzn_admit_result * fzn_admit_env :=
  match e_reassembly env with
  | None => (mk_aresult FZN_ADMIT_ADMITTED FZN_ADMIT_VOCAB_NONE 0 (Some o) None, env)
  | Some _ =>
    match Reassembly.fzn_reasm_accept (e_reassembly env) (Some (o_sender o)) (o_msg o) (o_index o)
            (o_chunks o) (Some (o_payload o)) (o_expires_at o) now (Some None) with
    | (Reassembly.FZN_REASM_OK, t, message) =>
      (mk_aresult FZN_ADMIT_ADMITTED FZN_ADMIT_VOCAB_NONE 0 (Some o) (default None message),
       with_reassembly env t)
    | (rr, t, _) =>
      (refuse FZN_ADMIT_REASSEMBLY FZN_ADMIT_VOCAB_REASM (reasm_code rr) (Some o), with_reassembly env t)
    end
  end.

(** Steps 5 to 8, on what the tag authenticated. *)
Definition admit_opened (o : fzn_opened) (now : Z) (rule_of : Z -> fzn_expiry_rule)
    (root_of : bytes -> option bytes) (sign : fzn_sign_ops) (w : fzn_replay_window) (env : fzn_admit_env)
    : fzn_admit_result * fzn_admit_env :=
  let rule := rule_of (o_kind o) in
  match fzn_freshness_check (o_expires_at o) rule now (e_max_ahead env) with
  | FZN_FRESH_OK =>
    let '(fr, w) := replay_admit w (o_nonce o) (o_expires_at o) rule now in
    let env := with_replay env w in
    match fr with
    | FZN_FRESH_OK =>
      match root_of (o_sender o) with
      | None => (refuse FZN_ADMIT_CHAIN FZN_ADMIT_VOCAB_NO_CHAIN 0 (Some o), env)
      | Some root =>
        let '(refusal, memo) := admit_chain o root now sign env in
        let env := with_memo env memo in
        match refusal with
        | Some (vocab, err) => (refuse FZN_ADMIT_CHAIN vocab err (Some o), env)
        | None => admit_reassemble o now env
        end
      end
    | fr => (refuse FZN_ADMIT_REPLAY FZN_ADMIT_VOCAB_FRESH (fresh_code fr) (Some o), env)
    end
  | fr => (refuse FZN_ADMIT_FRESHNESS FZN_ADMIT_VOCAB_FRESH (fresh_code fr) (Some o), env)
  end.

(** [fzn_admit] past its NULL checks: the result, the frame and the
    environment as they are left. *)
Definition admit_frame (frame : bytes) (now : Z)
    (keys_of : bytes -> list fzn_admit_key -> Z * list fzn_admit_key) (rule_of : Z -> fzn_expiry_rule)
    (root_of : bytes -> option bytes) (hash : option fzn_hash_ops) (aead : fzn_aead_ops)
    (sign : fzn_sign_ops) (w : fzn_replay_window) (env : fzn_admit_env) (candidates : list fzn_admit_key)
    (candidate_cap : Z) : fzn_admit_result * bytes * fzn_admit_env :=
  match fzn_seal_peek frame with
  | (FZN_SEAL_OK, Some head) =>
    let '(n, candidates) := keys_of (pk_sender head) candidates in
    if (n =? 0) || (n >? candidate_cap)
    then (refuse FZN_ADMIT_KEY_SELECT FZN_ADMIT_VOCAB_UNKNOWN_SENDER 0 None, frame, env)
    else match choose hash candidates head 0 (Z.to_nat n) with
    | (FZN_COMMITMENT_OK, Some i) =>
      let k := default zero_akey (candidates !! i) in
      match fzn_seal_open frame (k_aead k) (k_commitment k) hash aead with
      | (FZN_SEAL_OK, frame, Some o) =>
        let '(r, env) := admit_opened o now rule_of root_of sign w env in (r, frame, env)
      | (sr, frame, _) => (refuse FZN_ADMIT_TAG FZN_ADMIT_VOCAB_SEAL (seal_code sr) None, frame, env)
      end
    | (FZN_COMMITMENT_OK, None) =>
      (refuse FZN_ADMIT_COMMITMENT FZN_ADMIT_VOCAB_COMMITMENT
         (commitment_code FZN_COMMITMENT_ERR_MISMATCH) None, frame, env)
    | (er, _) =>
      (refuse FZN_ADMIT_COMMITMENT FZN_ADMIT_VOCAB_COMMITMENT (commitment_code er) None, frame, env)
    end
  | (sr, _) => (refuse FZN_ADMIT_SHAPE FZN_ADMIT_VOCAB_SEAL (seal_code sr) None, frame, env)
  end.

Definition fzn_admit (frame : option bytes) (now : Z) (env : option fzn_admit_env)
    (candidates : option (list fzn_admit_key)) (candidate_cap : Z)
    : fzn_admit_result * option bytes * option fzn_admit_env :=
  let bad :=
    (refuse FZN_ADMIT_SHAPE FZN_ADMIT_VOCAB_SEAL (seal_code FZN_SEAL_ERR_MALFORMED) None, frame, env) in
  match frame, env with
  | Some f, Some e =>
    if negb (candidate_cap =? 0) && is_null candidates then bad
    else match e_ops e, e_hash e, e_aead e, e_sign e, e_replay e, e_chains e with
    | Some ops, Some hash, Some aead, Some sign, Some w, Some _ =>
      match keys ops, expiry_rule ops, root_for ops with
      | Some keys_of, Some rule_of, Some root_of =>
        let '(r, f, e) :=
          admit_frame f now keys_of rule_of root_of hash aead sign w e (default [] candidates)
            candidate_cap in
        (r, Some f, Some e)
      | _, _, _ => bad
      end
    | _, _, _, _, _, _ => bad
    end
  | _, _ => bad
  end.

(** ** What each step changes *)

Section Receive.
Context (keys_of : bytes -> list fzn_admit_key -> Z * list fzn_admit_key).
Context (rule_of : Z -> fzn_expiry_rule) (root_of : bytes -> option bytes).
Context (hash : option fzn_hash_ops) (aead : fzn_aead_ops) (sign : fzn_sign_ops).

(** The frame is addressed to a key held for the sender it claims, and the
    cipher verified its tag under that key over its head and its body, to
    [text]. *)
Definition authentic (frame text : bytes) : Prop :=
  exists candidates n cs i k open,
    keys_of (frame_sender frame) candidates = (n, cs) /\ Z.of_nat i < n /\
    k = default zero_akey (cs !! i) /\
    fzn_commitment_for_nonce hash (k_commitment k) (frame_nonce frame)
    = (FZN_COMMITMENT_OK, Some (frame_commitment frame)) /\
    aead_open aead = Some open /\
    open (k_aead k) (frame_nonce frame) (slice 5 91 frame)
      (slice 96 (situ_fzn_frame_tag_offset frame - 96) frame)
      (slice (situ_fzn_frame_tag_offset frame) 16 frame) = (true, text).

Lemma choose_some cs head fuel : forall i j,
  choose hash cs head i fuel = (FZN_COMMITMENT_OK, Some j) ->
  (j < i + fuel)%nat /\
  fzn_commitment_for_nonce hash (k_commitment (default zero_akey (cs !! j))) (pk_nonce head)
  = (FZN_COMMITMENT_OK, Some (pk_commitment head)).
Proof.
  induction fuel as [|fuel IH]; intros i j; cbn [choose]; [done|].
  destruct (fzn_commitment_for_nonce _ _ _) as [er [d|]] eqn:E; destruct er; try done.
  unfold fzn_commitment_check. destruct (memeq d _) eqn:Em.
  - intros [= <-]. apply memeq_true in Em as <-. split; [lia|done].
  - intros [? ?]%IH. split; [lia|done].
Qed.

(** What an opened frame is: the tag verified, and the head, which the
    decryption does not touch, is the frame's. *)
Lemma seal_open_ok frame key commitment_key frame' o :
  fzn_seal_open frame key commitment_key hash aead = (FZN_SEAL_OK, frame', Some o) ->
  144 <= zlen frame /\ exists open text,
    aead_open aead = Some open /\ frame' = blit 96 text frame /\ o = opened_of frame' /\
    open key (frame_nonce frame) (slice 5 91 frame)
      (slice 96 (situ_fzn_frame_tag_offset frame - 96) frame)
      (slice (situ_fzn_frame_tag_offset frame) 16 frame) = (true, text).
Proof.
  unfold fzn_seal_open. destruct hash as [hs|]; [|done]. destruct (aead_open aead) as [open|]; [|done].
  destruct (views frame) eqn:Hv; [|done]. cbn [negb].
  destruct (fzn_commitment_for_nonce _ _ _) as [[] [d|]]; try done.
  destruct (fzn_commitment_check _ _); try done.
  unfold situ_fzn_frame_tag_covered. destruct (_ || _); [done|].
  unfold SITU_FZN_HOP_SIZE, SITU_FZN_HEAD_SIZE_FIXED. destruct (_ <? 91); [done|].
  change (5 + 91) with 96. replace (situ_fzn_frame_tag_offset frame - 5 - 91)
    with (situ_fzn_frame_tag_offset frame - 96) by lia.
  destruct (open _ _ _ _ _) as [[|] text] eqn:Ho; [|done]. intros [= <- <-].
  unfold views, SITU_FZN_FRAME_SIZE_MIN in Hv. split; [guards; try done; lia|].
  exists open, text. done.
Qed.

Lemma blit_head (text f : bytes) o n :
  96 <= zlen f -> 0 <= o -> 0 <= n -> o + n <= 96 -> slice o n (blit 96 text f) = slice o n f.
Proof.
  intros Hf Ho Hn Hs. apply list_eq. intros i. rewrite !lookup_slice by done. case_bool_decide; [|done].
  unfold blit. rewrite lookup_app_l, lookup_take_lt; [done|lia|]. unfold zlen in Hf. rewrite length_take. lia.
Qed.

Lemma opened_head frame key commitment_key frame' o :
  fzn_seal_open frame key commitment_key hash aead = (FZN_SEAL_OK, frame', Some o) ->
  o_sender o = frame_sender frame /\ o_nonce o = frame_nonce frame.
Proof.
  intros (Hz & open & text & _ & -> & -> & _)%seal_open_ok. cbn [opened_of o_sender o_nonce].
  unfold frame_sender, frame_nonce. rewrite !blit_head by lia. done.
Qed.

(** What a receiver keeps, what it reads of the rest of the host, and the
    environment the two make. *)
Record receiver := mk_receiver {
  rc_window : fzn_replay_window;
  rc_memo : option fzn_chain_memo;
  rc_table : option Reassembly.fzn_reasm
}.
Record world := mk_world {
  wd_chains : fzn_chain_store;
  wd_revocations : option fzn_revocation_store;
  wd_manifest : option fzn_manifest_state
}.
Context (ahead : Z).

Definition env_of (st : receiver) (wd : world) : fzn_admit_env :=
  mk_aenv (Some (mk_aops (Some keys_of) (Some rule_of) (Some root_of))) (Some hash) (Some aead) (Some sign)
    (Some (rc_window st)) (Some (wd_chains wd)) (wd_revocations wd) (wd_manifest wd) (rc_memo st)
    (rc_table st) ahead.

(** The replay window took the frame. *)
Definition replay_took (st : receiver) (o : fzn_opened) (now : Z) (w : fzn_replay_window) : Prop :=
  fzn_freshness_check (o_expires_at o) (rule_of (o_kind o)) now ahead = FZN_FRESH_OK /\
  replay_admit (rc_window st) (o_nonce o) (o_expires_at o) (rule_of (o_kind o)) now = (FZN_FRESH_OK, w).

Inductive opened_case (st : receiver) (wd : world) (o : fzn_opened) (now : Z)
    : fzn_admit_result -> receiver -> Prop :=
| case_stale r : fzn_freshness_check (o_expires_at o) (rule_of (o_kind o)) now ahead <> FZN_FRESH_OK ->
    r_step r = FZN_ADMIT_FRESHNESS -> r_opened r = Some o -> opened_case st wd o now r st
| case_replay r err w :
    replay_admit (rc_window st) (o_nonce o) (o_expires_at o) (rule_of (o_kind o)) now = (err, w) ->
    err <> FZN_FRESH_OK -> r_step r = FZN_ADMIT_REPLAY -> r_opened r = Some o ->
    opened_case st wd o now r (mk_receiver w (rc_memo st) (rc_table st))
| case_no_root r w : replay_took st o now w -> root_of (o_sender o) = None ->
    r_step r = FZN_ADMIT_CHAIN -> r_opened r = Some o ->
    opened_case st wd o now r (mk_receiver w (rc_memo st) (rc_table st))
| case_chain r w root x m : replay_took st o now w -> root_of (o_sender o) = Some root ->
    admit_chain o root now sign (env_of st wd) = (Some x, m) ->
    r_step r = FZN_ADMIT_CHAIN -> r_opened r = Some o ->
    opened_case st wd o now r (mk_receiver w m (rc_table st))
| case_through r w root m t : replay_took st o now w -> root_of (o_sender o) = Some root ->
    admit_chain o root now sign (env_of st wd) = (None, m) ->
    r_step r = FZN_ADMIT_ADMITTED \/ r_step r = FZN_ADMIT_REASSEMBLY -> r_opened r = Some o ->
    opened_case st wd o now r (mk_receiver w m t).

Lemma admit_opened_cases st wd o now r env :
  admit_opened o now rule_of root_of sign (rc_window st) (env_of st wd) = (r, env) ->
  exists st', env = env_of st' wd /\ opened_case st wd o now r st'.
Proof.
  unfold admit_opened. cbn [e_max_ahead env_of].
  destruct (fzn_freshness_check _ _ _ _) eqn:Hf;
    try (intros [= <- <-]; exists st; split; [done|]; by apply case_stale; rewrite ?Hf).
  destruct (replay_admit _ _ _ _ _) as [fr w] eqn:Hr.
  change (with_replay (env_of st wd) w) with (env_of (mk_receiver w (rc_memo st) (rc_table st)) wd).
  destruct fr; try (intros [= <- <-]; eexists; split; [reflexivity|]; by eapply case_replay).
  destruct (root_of (o_sender o)) as [root|] eqn:Hroot.
  2: { intros [= <- <-]. eexists. split; [reflexivity|]. by apply case_no_root. }
  change (admit_chain o root now sign (env_of (mk_receiver w (rc_memo st) (rc_table st)) wd))
    with (admit_chain o root now sign (env_of st wd)).
  destruct (admit_chain o root now sign (env_of st wd)) as [[[v x]|] m] eqn:Hc.
  { intros [= <- <-]. exists (mk_receiver w m (rc_table st)). split; [done|]. by eapply case_chain. }
  change (with_memo _ m) with (env_of (mk_receiver w m (rc_table st)) wd).
  unfold admit_reassemble. cbn [e_reassembly env_of rc_table].
  destruct (rc_table st) as [t|] eqn:Ht.
  - destruct (Reassembly.fzn_reasm_accept _ _ _ _ _ _ _ _ _) as [[rr t'] out].
    assert (with_reassembly (env_of (mk_receiver w m (Some t)) wd) t' = env_of (mk_receiver w m t') wd)
      as -> by done.
    destruct rr; intros [= <- <-]; (eexists; split; [reflexivity|]); eapply case_through; eauto; done.
  - intros [= <- <-]. exists (mk_receiver w m None). split; [done|]. eapply case_through; eauto; done.
Qed.

(** The tag verified, and what was opened is in the result. *)
Definition verified (frame frame' : bytes) (o : fzn_opened) : Prop :=
  exists text, authentic frame text /\ frame' = blit 96 text frame /\ o = opened_of frame' /\
    o_sender o = frame_sender frame /\ o_nonce o = frame_nonce frame.

(** A call, on arguments none of which is NULL: it stops above the tag and
    nothing has moved, or the tag verified and the rest runs on what it
    opened. *)
Inductive call_case (st : receiver) (wd : world) (now : Z) (frame : bytes)
    : fzn_admit_result -> bytes -> receiver -> Prop :=
| case_above r : r_step r ∈ [FZN_ADMIT_SHAPE; FZN_ADMIT_KEY_SELECT; FZN_ADMIT_COMMITMENT] ->
    r_opened r = None -> call_case st wd now frame r frame st
| case_tag r frame' : r_step r = FZN_ADMIT_TAG -> r_opened r = None -> call_case st wd now frame r frame' st
| case_opened r frame' o st' : verified frame frame' o -> opened_case st wd o now r st' ->
    call_case st wd now frame r frame' st'.

Ltac stops f st := cbv beta iota; intros [= <- <- <-]; exists f, st; split_and!; try done.

Lemma fzn_admit_cases st wd now frame candidates cap r frame' env :
  fzn_admit (Some frame) now (Some (env_of st wd)) (Some candidates) cap = (r, frame', env) ->
  exists f st', frame' = Some f /\ env = Some (env_of st' wd) /\ call_case st wd now frame r f st'.
Proof.
  unfold fzn_admit. cbn [is_null]. rewrite andb_false_r. cbn [e_ops e_hash e_aead e_sign e_replay e_chains
    env_of keys expiry_rule root_for]. change (default [] (Some candidates)) with candidates.
  unfold admit_frame, fzn_seal_peek.
  destruct (views frame); cbn [negb].
  2: { stops frame st; apply case_above; [set_solver|done]. }
  cbn [pk_sender]. destruct (keys_of (frame_sender frame) candidates) as [n cs] eqn:Hk.
  destruct ((n =? 0) || (n >? cap)) eqn:Hn.
  { stops frame st; apply case_above; [set_solver|done]. }
  destruct (choose _ _ _ _ _) as [er [i|]] eqn:Hc; destruct er;
    try (stops frame st; apply case_above; [set_solver|done]).
  apply choose_some in Hc as [Hi Hc]. cbn [pk_nonce pk_commitment] in Hc.
  destruct (fzn_seal_open _ _ _ _ _) as [[sr f] o] eqn:Ho.
  destruct sr, o as [o|];
    try (stops f st; by apply case_tag).
  destruct (admit_opened _ _ _ _ _ _ _) as [r' e] eqn:Ha. cbv beta iota; intros [= <- <- <-].
  apply admit_opened_cases in Ha as (st' & -> & Hcase). exists f, st'. split_and!; try done.
  apply case_opened with o; [|done]. destruct (opened_head _ _ _ _ _ Ho).
  apply seal_open_ok in Ho as (_ & open & text & Hop & -> & -> & Hv).
  exists text. split_and!; try done.
  exists candidates, n, cs, i, (default zero_akey (cs !! i)), open. split_and!; try done. lia.
Qed.

Lemma allows_rows m root grantee cap g now : memo_entries (snd (fzn_chain_memo_allows m root grantee cap g now)) = memo_entries m.
Proof. unfold fzn_chain_memo_allows. guards; done. Qed.

(** A chain refused leaves the rows of the memo as they were. *)
Lemma chain_refused_rows o root now env x m :
  admit_chain o root now sign env = (Some x, m) -> memo_entries <$> m = memo_entries <$> e_memo env.
Proof.
  unfold admit_chain. destruct (e_memo env) as [m0|].
  - pose proof (allows_rows m0 root (o_sender o) (o_capability o)
      (fzn_revocation_generation (e_revocations env)) now) as Hr.
    destruct (fzn_chain_memo_allows _ _ _ _ _ _) as [hit m1]. cbn [snd] in Hr.
    destruct hit; [done|]. repeat case_match; intros; simplify_eq/=; by rewrite Hr.
  - repeat case_match; intros; simplify_eq/=; done.
Qed.

(** A frame the window refuses is not remembered: the sweep is all that ran. *)
Lemma refused_in_use w n exp rule now err w' :
  window_ok w -> replay_admit w n exp rule now = (err, w') -> err <> FZN_FRESH_OK ->
  in_use w' = List.filter (Spec.alive now) (in_use w).
Proof.
  intros Hok Hr He. pose proof (rstep_in_use w (RAdmit n exp rule now) Hok) as H.
  cbn [rstep taken clock] in H. rewrite Hr in H. cbn [fst snd] in H.
  rewrite bool_decide_eq_false_2 in H by done. by rewrite app_nil_r in H.
Qed.

(** What each outcome may have changed: nothing above the tag, and below it
    only what the steps that ran own. *)
Definition outcome_ok (st st' : receiver) (now : Z) (frame frame' : bytes) (r : fzn_admit_result) : Prop :=
  match r_step r with
  | FZN_ADMIT_SHAPE | FZN_ADMIT_KEY_SELECT | FZN_ADMIT_COMMITMENT =>
      frame' = frame /\ st' = st /\ r_opened r = None
  | FZN_ADMIT_TAG => st' = st /\ r_opened r = None
  | FZN_ADMIT_FRESHNESS => st' = st /\ exists o, r_opened r = Some o /\ verified frame frame' o
  | FZN_ADMIT_REPLAY =>
      in_use (rc_window st') = List.filter (Spec.alive now) (in_use (rc_window st)) /\
      rc_memo st' = rc_memo st /\ rc_table st' = rc_table st /\
      exists o, r_opened r = Some o /\ verified frame frame' o
  | FZN_ADMIT_CHAIN =>
      memo_entries <$> rc_memo st' = memo_entries <$> rc_memo st /\ rc_table st' = rc_table st /\
      exists o, r_opened r = Some o /\ verified frame frame' o /\ replay_took st o now (rc_window st')
  | FZN_ADMIT_REASSEMBLY | FZN_ADMIT_ADMITTED =>
      exists o root, r_opened r = Some o /\ verified frame frame' o /\
        replay_took st o now (rc_window st') /\ root_of (o_sender o) = Some root
  end.

Lemma call_outcome st wd now frame r frame' st' :
  window_ok (rc_window st) -> call_case st wd now frame r frame' st' -> outcome_ok st st' now frame frame' r.
Proof.
  intros Hok [r1 Hs Ho|r1 f1 Hs Ho|r1 f1 o st1 Hv Hc]; unfold outcome_ok.
  - repeat (apply elem_of_cons in Hs as [->|Hs]; [done|]). by apply elem_of_nil in Hs.
  - by rewrite Hs.
  - destruct Hc as [r1 Hf Hs Ho|r1 err w Hr He Hs Ho|r1 w Hw Hn Hs Ho|r1 w root x m Hw Hn Hc Hs Ho
      |r1 w root m t Hw Hn Hc Hs Ho].
    + rewrite Hs. eauto.
    + rewrite Hs. split_and!; eauto. by eapply refused_in_use.
    + rewrite Hs. split_and!; eauto.
    + rewrite Hs. split_and!; eauto. apply chain_refused_rows in Hc. done.
    + destruct Hs as [Hs|Hs]; rewrite Hs; eauto 7.
Qed.

(** ** Many datagrams *)

Record datagram := mk_datagram {
  d_frame : bytes;
  d_now : Z;
  d_world : world;
  d_candidates : list fzn_admit_key;
  d_cap : Z
}.

(** Each in turn, with what the host holds when it arrives. *)
Fixpoint receive_all (st : receiver) (ds : list datagram) : list (datagram * fzn_admit_result) :=
  match ds with
  | [] => []
  | d :: ds =>
    match fzn_admit (Some (d_frame d)) (d_now d) (Some (env_of st (d_world d))) (Some (d_candidates d))
            (d_cap d) with
    | (r, _, Some e) =>
      (d, r) :: receive_all (mk_receiver (default (rc_window st) (e_replay e)) (e_memo e) (e_reassembly e)) ds
    | (r, _, None) => [(d, r)]
    end
  end.

Lemma receive_all_cons st d ds : exists r f st',
  receive_all st (d :: ds) = (d, r) :: receive_all st' ds /\
  call_case st (d_world d) (d_now d) (d_frame d) r f st'.
Proof.
  cbn [receive_all]. destruct (fzn_admit _ _ _ _ _) as [[r f] e] eqn:E.
  apply fzn_admit_cases in E as (f' & st' & -> & -> & Hc). exists r, f', st'. split; [|done].
  by destruct st'.
Qed.

Lemma receive_all_fst ds : forall st, fst <$> receive_all st ds = ds.
Proof.
  induction ds as [|d ds IH]; intros st; [done|].
  destruct (receive_all_cons st d ds) as (r & f & st' & -> & _). rewrite fmap_cons, IH. done.
Qed.

(** The frames admitted that carry an expiry: nonce, expiry, and when. *)
Definition admitted_frames (rs : list (datagram * fzn_admit_result)) : list (bytes * Z * Z) :=
  flat_map (fun dr =>
    match r_step (snd dr), r_opened (snd dr) with
    | FZN_ADMIT_ADMITTED, Some o =>
        if o_expires_at o =? 0 then [] else [(frame_nonce (d_frame (fst dr)), o_expires_at o, d_now (fst dr))]
    | _, _ => []
    end) rs.

Fixpoint arrive_from (T : Z) (ds : list datagram) : Prop :=
  match ds with [] => True | d :: ds => T <= d_now d /\ arrive_from (d_now d) ds end.

Lemma took_taken st o now w :
  replay_took st o now w ->
  rstep (rc_window st) (RAdmit (o_nonce o) (o_expires_at o) (rule_of (o_kind o)) now) = w /\
  taken (rc_window st) (RAdmit (o_nonce o) (o_expires_at o) (rule_of (o_kind o)) now)
  = if o_expires_at o =? 0 then [] else [(o_nonce o, o_expires_at o, now)].
Proof.
  intros [_ Hr]. cbn [rstep taken]. rewrite Hr. cbn [fst snd]. rewrite bool_decide_eq_true_2 by done.
  by destruct (_ =? 0).
Qed.

(** One call is at most one operation of the window, and an admitted frame is
    one it took. *)
Lemma call_window st wd now frame r f st' d :
  call_case st wd now frame r f st' -> d_frame d = frame -> d_now d = now ->
  (rc_window st' = rc_window st /\ admitted_frames [(d, r)] = []) \/
  exists o, clock o = now /\ rstep (rc_window st) o = rc_window st' /\
    admitted_frames [(d, r)] `sublist_of` taken (rc_window st) o.
Proof.
  intros Hc <- <-. unfold admitted_frames. cbn [flat_map fst snd]. rewrite app_nil_r.
  destruct Hc as [r1 Hs Ho|r1 f1 Hs Ho|r1 f1 o st1 (text & _ & _ & _ & _ & Hnn) Hc].
  - left. rewrite Ho. by destruct (r_step r1).
  - left. rewrite Ho. by destruct (r_step r1).
  - destruct Hc as [r1 Hf Hs Ho|r1 err w Hr He Hs Ho|r1 w Hw Hn Hs Ho|r1 w root x m Hw Hn Hc Hs Ho
      |r1 w root m t Hw Hn Hc Hs Ho].
    + left. by rewrite Hs.
    + right. exists (RAdmit (o_nonce o) (o_expires_at o) (rule_of (o_kind o)) (d_now d)).
      cbn [rstep clock]. rewrite Hs, Hr. split_and!; try done. apply sublist_nil_l.
    + right. destruct (took_taken _ _ _ _ Hw) as [E1 E2]. eexists. split; [|split; [exact E1|]]; [done|].
      rewrite Hs. apply sublist_nil_l.
    + right. destruct (took_taken _ _ _ _ Hw) as [E1 E2]. eexists. split; [|split; [exact E1|]]; [done|].
      rewrite Hs. apply sublist_nil_l.
    + right. destruct (took_taken _ _ _ _ Hw) as [E1 E2]. eexists. split; [|split; [exact E1|]]; [done|].
      rewrite E2, Ho, <- Hnn. destruct Hs as [Hs|Hs]; rewrite Hs; [done|apply sublist_nil_l].
Qed.

Lemma admitted_frames_window ds : forall T st,
  arrive_from T ds -> exists ops, clocks_from T ops /\
    admitted_frames (receive_all st ds) `sublist_of` admitted (rc_window st) ops.
Proof.
  induction ds as [|d ds IH]; intros T st Ha; [by exists []|].
  destruct Ha as [HT Ha]. destruct (receive_all_cons st d ds) as (r & f & st' & -> & Hc).
  change (admitted_frames ((d, r) :: receive_all st' ds))
    with (admitted_frames ([(d, r)] ++ receive_all st' ds)).
  unfold admitted_frames. rewrite flat_map_app. fold (admitted_frames (receive_all st' ds)).
  fold (admitted_frames [(d, r)]).
  destruct (call_window _ _ _ _ _ _ _ d Hc eq_refl eq_refl) as [[Hw ->]|(o & Ho & Hw & Hsub)].
  - destruct (IH T st') as (ops & Hck & Hs).
    { destruct ds; cbn in *; [done|]. split; [lia|tauto]. }
    exists ops. by rewrite <- Hw.
  - destruct (IH (d_now d) st' Ha) as (ops & Hck & Hs). exists (o :: ops). cbn [clocks_from admitted].
    rewrite Ho, Hw. split; [done|]. by apply sublist_app.
Qed.

Lemma sublist_Forall' {A} (P : A -> Prop) (l k : list A) : l `sublist_of` k -> Forall P k -> Forall P l.
Proof. induction 1; intros H1; [done| |]; apply Forall_cons_iff in H1 as [??]; [apply Forall_cons_iff|]; auto. Qed.

Lemma sublist_ordered {A} (R : A -> A -> Prop) (l k : list A) :
  l `sublist_of` k -> ForallOrdPairs R k -> ForallOrdPairs R l.
Proof.
  induction 1 as [|x l k Hs IH|x l k Hs IH]; intros Hk; [done| |]; inversion_clear Hk; auto.
  constructor; auto. by eapply sublist_Forall'.
Qed.

(** ** What admission proves *)

(** The host's chain store as its admissions leave it. *)
Definition built_store (s : fzn_chain_store) : Prop :=
  exists s0 es s1 h, fzn_chain_store_init s0 es = (FZN_CHAIN_OK, s1) /\ Forall offers_opened h /\
    s = fold_left (run_cs_op sign) h s1.

(** Step 7's check, in full, when [d] was taken: the host holds a chain for
    [root], [cap] and [who], and it verifies for them against the revocations
    and the manifest the host has then. *)
Definition checked (root cap who : bytes) (d : datagram) (hs : list fzn_chain_hop) (verdict : fzn_chain) : Prop :=
  exists held,
    fzn_chain_store_lookup (Some (wd_chains (d_world d))) root cap who (d_now d) = Some held /\
    fzn_chain_open (Some held) = (FZN_CHAIN_OK, hs) /\
    fzn_chain_verify (Some <$> hs) root cap (d_now d) sign (wd_revocations (d_world d)) (wd_manifest (d_world d))
    = (FZN_CHAIN_OK, Some verdict) /\
    ch_grantee verdict = who.

(** What was checked at [d'] and is remembered at [d]: under the generation
    the revocation store has now, of a chain that has not expired, which
    verifies now against the manifest of then and, where they are still the
    same, the revocations. *)
Definition remembered (root cap : bytes) (hs : list fzn_chain_hop) (verdict : fzn_chain) (d' d : datagram) : Prop :=
  fzn_revocation_generation (wd_revocations (d_world d')) = fzn_revocation_generation (wd_revocations (d_world d)) /\
  fzn_revocation_generation (wd_revocations (d_world d)) <> 0 /\
  fzn_chain_expired_at (Some verdict) (d_now d) = false /\
  (wd_revocations (d_world d') = wd_revocations (d_world d) ->
   fzn_chain_verify (Some <$> hs) root cap (d_now d) sign (wd_revocations (d_world d)) (wd_manifest (d_world d'))
   = (FZN_CHAIN_OK, Some verdict)).

(** The sender stands for what the frame asks, by a check made for this frame
    or remembered from one of the datagrams [before] it. *)
Definition authorised (before : list datagram) (o : fzn_opened) (d : datagram) : Prop :=
  exists root hs verdict, root_of (o_sender o) = Some root /\
    (checked root (o_capability o) (o_sender o) d hs verdict \/
     exists d', d' ∈ before /\ checked root (o_capability o) (o_sender o) d' hs verdict /\
       remembered root (o_capability o) hs verdict d' d).

(** The verification was step 7's at one of the datagrams [before]. *)
Definition step7_of (before : list datagram) (op : memo_op) : Prop :=
  match op with
  | memo_verify hops root cap t revs man =>
    exists d hs who verdict, d ∈ before /\ hops = Some <$> hs /\ t = d_now d /\ revs = wd_revocations (d_world d) /\
      man = wd_manifest (d_world d) /\ checked root cap who d hs verdict
  | memo_ask _ _ _ _ _ => True
  end.

Definition memo_from (before : list datagram) (m : option fzn_chain_memo) : Prop :=
  match m with None => True | Some m => exists h, memo_ok sign h m /\ Forall (step7_of before) h end.

Lemma step7_more before d op : step7_of before op -> step7_of (before ++ [d]) op.
Proof.
  destruct op as [hops root cap t revs man|]; [|done]. intros (d' & hs & who & v & Hin & H).
  exists d', hs, who, v. split; [set_solver|done].
Qed.

Lemma memo_from_run before d m h' :
  memo_from before (Some m) -> Forall (step7_of (before ++ [d])) h' ->
  memo_from (before ++ [d]) (Some (run_memo sign h' m)).
Proof.
  intros (h & Hok & Hh) Hr. exists (h ++ h'). split; [by apply run_memo_ok|].
  apply Forall_app. split; [|done]. eapply list.Forall_impl; [exact Hh|]. intros op. apply step7_more.
Qed.

Lemma held_checked d o root b hs v :
  built_store (wd_chains (d_world d)) ->
  fzn_chain_store_lookup (Some (wd_chains (d_world d))) root (o_capability o) (o_sender o) (d_now d) = Some b ->
  fzn_chain_open (Some b) = (FZN_CHAIN_OK, hs) ->
  fzn_chain_verify (Some <$> hs) root (o_capability o) (d_now d) sign (wd_revocations (d_world d))
    (wd_manifest (d_world d)) = (FZN_CHAIN_OK, Some v) ->
  checked root (o_capability o) (o_sender o) d hs v.
Proof.
  intros (s0 & es & s1 & h & Hi & Hh & Es) Hl Ho Hv.
  apply (cs_init_ok sign), (run_cs_ok sign h) in Hi as Hb; [|done]. rewrite <- Es in Hb.
  exists b. split_and!; try done. apply verify_ok_iff in Hv as (hs' & vf & E & _ & _ & ->).
  apply (inj (fmap Some)) in E as <-.
  destruct (served_explained _ _ _ _ _ _ _ _ Hb Hl) as (hs1 & t & revs & man & v1 & _ & Ho1 & Hv1 & Hg).
  rewrite Ho in Ho1. injection Ho1 as <-.
  apply verify_ok_iff in Hv1 as (hs1 & vf1 & E & _ & _ & ->). by apply (inj (fmap Some)) in E as <-.
Qed.

(** Step 7 is a question to the memo and, past a miss, a verification. *)
Lemma admit_chain_memo st d o root before x m :
  admit_chain o root (d_now d) sign (env_of st (d_world d)) = (x, m) -> built_store (wd_chains (d_world d)) ->
  memo_from before (rc_memo st) -> memo_from (before ++ [d]) m.
Proof.
  unfold admit_chain. cbn [e_memo e_revocations e_chains e_manifest env_of]. intros Hx Hb. revert Hx.
  destruct (rc_memo st) as [m0|]; [|repeat case_match; intros; by simplify_eq/=].
  set (g := fzn_revocation_generation (wd_revocations (d_world d))).
  set (ask := memo_ask root (o_sender o) (o_capability o) g (d_now d)).
  pose proof (fun h' => memo_from_run before d m0 h') as Hrun.
  assert (run_memo sign [ask] m0
    = snd (fzn_chain_memo_allows m0 root (o_sender o) (o_capability o) g (d_now d))) as Ha by done.
  destruct (fzn_chain_memo_allows _ _ _ _ _ _) as [hit m1] eqn:Hal. cbn [snd] in Ha.
  intros Hx Hm. assert (memo_from (before ++ [d]) (Some m1)) as Hm1.
  { rewrite <- Ha. apply Hrun; [done|]. by apply list.Forall_singleton. }
  destruct hit; [by simplify_eq/=|]. destruct (fzn_chain_store_lookup _ _ _ _ _) as [b|] eqn:Hl; [|by simplify_eq/=].
  destruct (fzn_chain_open _) as [e hs] eqn:Ho. destruct e; try by simplify_eq/=.
  destruct (fzn_chain_verify _ _ _ _ _ _ _) as [e v] eqn:Hv. destruct e, v as [v|]; try by simplify_eq/=.
  injection Hx as <- <-. cbn [fmap option_fmap option_map].
  set (vop := memo_verify (Some <$> hs) root (o_capability o) (d_now d) (wd_revocations (d_world d))
    (wd_manifest (d_world d))).
  assert (run_memo sign [ask; vop] m0 = snd (fzn_chain_memo_record m1 v g)) as <-.
  { change (run_memo_op sign (run_memo sign [ask] m0) vop = snd (fzn_chain_memo_record m1 v g)).
    rewrite Ha. unfold vop. cbn [run_memo_op]. by rewrite Hv. }
  apply Hrun; [done|]. apply Forall_cons_iff. split; [done|]. apply list.Forall_singleton.
  exists d, hs, (o_sender o), v. split_and!; try done; [set_solver|]. by eapply held_checked.
Qed.

(** A hit is a check made at a datagram before. *)
Lemma hit_authorises before d o root m m' :
  memo_from before (Some m) -> root_of (o_sender o) = Some root ->
  fzn_chain_memo_allows m root (o_sender o) (o_capability o)
    (fzn_revocation_generation (wd_revocations (d_world d))) (d_now d) = (true, m') ->
  authorised before o d.
Proof.
  intros (hm & Hok & Hh) Hroot Ha.
  destruct (hit_explained _ _ _ _ _ _ _ _ _ Hok Ha) as (Hg0 & hops & t & revs & man & v & Hin & Hv & Hg & Hgen & Hx).
  rewrite list.Forall_forall in Hh.
  destruct (Hh _ Hin) as (d' & hs & who & v' & Hin' & -> & -> & -> & -> & Hck).
  destruct Hck as (b & Hl & Ho & Hv' & Hw). rewrite Hv in Hv'. injection Hv' as <-. subst who. rewrite Hg in Hl.
  exists root, hs, v. split; [done|]. right. exists d'. split_and!; [done|by exists b|].
  split_and!; try done. intros <-. by eapply verifies_still.
Qed.

(** What lets a frame through step 7 is a check, now or remembered. *)
Lemma admit_chain_authorised st d o root before m :
  admit_chain o root (d_now d) sign (env_of st (d_world d)) = (None, m) -> root_of (o_sender o) = Some root ->
  memo_from before (rc_memo st) -> built_store (wd_chains (d_world d)) ->
  authorised before o d.
Proof.
  intros Hc Hroot Hm Hb. unfold admit_chain in Hc.
  cbn [e_memo e_revocations e_chains e_manifest env_of] in Hc.
  destruct (rc_memo st) as [m0|] eqn:Em.
  - destruct (fzn_chain_memo_allows _ _ _ _ _ _) as [[|] m1] eqn:Ha; [by eapply hit_authorises|].
    repeat case_match; simplify_eq; eexists root, _, _; (split; [done|left]); by eapply held_checked.
  - repeat case_match; simplify_eq; eexists root, _, _; (split; [done|left]); by eapply held_checked.
Qed.

Lemma case_memo st d frame r f st' before :
  call_case st (d_world d) (d_now d) frame r f st' -> built_store (wd_chains (d_world d)) ->
  memo_from before (rc_memo st) -> memo_from (before ++ [d]) (rc_memo st').
Proof.
  intros Hc Hb Hm. assert (memo_from (before ++ [d]) (rc_memo st)) as Hm'.
  { destruct (rc_memo st) as [m|]; [|done]. by apply (memo_from_run before d m []). }
  destruct Hc as [| |r f o st' _ Hc]; [done|done|]. destruct Hc; try done; by eapply admit_chain_memo.
Qed.

Lemma received_authorised ds : forall before st i d r,
  Forall (fun d => built_store (wd_chains (d_world d))) ds -> memo_from before (rc_memo st) ->
  receive_all st ds !! i = Some (d, r) -> r_step r = FZN_ADMIT_ADMITTED ->
  exists o frame', r_opened r = Some o /\ verified (d_frame d) frame' o /\ authorised (before ++ take i ds) o d.
Proof.
  induction ds as [|d0 ds IH]; intros before st i d r Hb Hm Hin Hr; [done|].
  apply Forall_cons_iff in Hb as [Hb0 Hb]. destruct (receive_all_cons st d0 ds) as (r0 & f & st' & E & Hc).
  rewrite E in Hin. destruct i as [|i]; cbn [lookup list_lookup take] in Hin |- *.
  - injection Hin as -> ->. rewrite app_nil_r. destruct Hc as [r1 Hs _|r1 f1 Hs _|r1 f1 o st1 Hv Hc].
    + rewrite Hr in Hs. repeat (apply elem_of_cons in Hs as [?|Hs]; [done|]). by apply elem_of_nil in Hs.
    + congruence.
    + exists o, f1. destruct Hc as [| | | |r1 w root m t Hw Hn Hc Hs Ho]; try congruence.
      split_and!; [done..|]. by eapply admit_chain_authorised.
  - rewrite cons_middle, app_assoc. apply (IH (before ++ [d0]) st'); auto. by eapply case_memo.
Qed.
End Receive.

(** C3: a stranger changes nothing. Whatever the frame, a call that refuses it
    for its shape, its sender, its commitment or its tag leaves the replay
    window, the memo and the reassembly table as they were, and reports
    nothing opened; a call that gets further does so only with a tag the
    cipher verified under a key held for the claimed sender, and then a
    refusal for freshness changes nothing, one for replay only sweeps the
    window, one for the chain touches neither the memo's rows nor the
    table. *)
Theorem a_stranger_changes_nothing keys_of rule_of root_of hash aead sign ahead st wd now frame candidates cap
    r frame' env' :
  window_ok (rc_window st) ->
  fzn_admit (Some frame) now (Some (env_of keys_of rule_of root_of hash aead sign ahead st wd))
    (Some candidates) cap = (r, frame', env') ->
  exists f st', frame' = Some f /\
    env' = Some (env_of keys_of rule_of root_of hash aead sign ahead st' wd) /\
    outcome_ok keys_of rule_of root_of hash aead ahead st st' now frame f r.
Proof.
  intros Hok (f & st' & -> & -> & Hc)%fzn_admit_cases. exists f, st'. split_and!; try done.
  by eapply call_outcome.
Qed.

(** C14: no datagram is admitted twice. Over any sequence of datagrams under a
    clock that does not run backwards, whatever the host holds in between, a
    nonce is admitted again only after the frame that carried it has expired,
    so no frame with an expiry is admitted twice. *)
Theorem no_datagram_admitted_twice keys_of rule_of root_of hash aead sign ahead st ds T :
  window_ok (rc_window st) -> arrive_from T ds ->
  let taken := admitted_frames (receive_all keys_of rule_of root_of hash aead sign ahead st ds) in
  ForallOrdPairs no_replay taken /\ List.NoDup (map fst taken).
Proof.
  intros Hok Ha. cbv zeta.
  destruct (admitted_frames_window keys_of rule_of root_of hash aead sign ahead ds T st Ha) as (ops & Hc & Hs).
  assert (ForallOrdPairs no_replay
    (admitted_frames (receive_all keys_of rule_of root_of hash aead sign ahead st ds))).
  { eapply sublist_ordered; [exact Hs|]. by eapply admitted_ordered. }
  split; [done|by apply ordered_nodup].
Qed.

(** C1: an admitted frame is authentic and its sender is authorised. Over any
    sequence of datagrams, from a fresh memo or none, where the host's chain
    stores are what admissions built: a frame admitted has a tag that verified
    under a key held for its sender, and either a chain the host holds, from
    the root that anchors the sender to the sender for the capability the
    frame carries, verifies at that moment against the revocations and the
    manifest held; or just that check was made for a datagram before it, under
    a revocation store of the generation of the present one, no hop of the
    chain has expired since, and where the revocations are those of then the
    chain verifies against them at this moment too. The generation is all of
    the store that a remembered verdict is compared by, and the manifest that
    came since is not asked. *)
Theorem admitted_frames_are_authorised keys_of rule_of root_of hash aead sign ahead st ds i d r :
  (forall m, rc_memo st = Some m -> exists m0 es capacity, fzn_chain_memo_init m0 es capacity = (FZN_CHAIN_OK, m)) ->
  Forall (fun d => built_store sign (wd_chains (d_world d))) ds ->
  receive_all keys_of rule_of root_of hash aead sign ahead st ds !! i = Some (d, r) ->
  r_step r = FZN_ADMIT_ADMITTED ->
  exists o frame', r_opened r = Some o /\ verified keys_of hash aead (d_frame d) frame' o /\
    authorised root_of sign (take i ds) o d.
Proof.
  intros Hm Hb Hin Hr. eapply (received_authorised _ _ _ _ _ _ _ ds []); eauto.
  destruct (rc_memo st) as [m|]; [|done]. destruct (Hm m eq_refl) as (m0 & es & c & Hi).
  exists []. split; [by eapply init_memo_ok|by apply List.Forall_nil].
Qed.

(** ** Witnesses *)

Definition demo_frame : bytes := slice 0 146 (snd (fst demo_built)).
Definition demo_keys (sender : bytes) (out : list fzn_admit_key) : Z * list fzn_admit_key :=
  if memeq sender (demo_key 2) then (1, [mk_akey (demo_key 8) (demo_key 9)]) else (0, out).
Definition demo_rule (kind : Z) : fzn_expiry_rule := FZN_EXPIRY_REQUIRED.
Definition demo_root (sender : bytes) : option bytes := Some (demo_key 1).
Definition demo_hash : option fzn_hash_ops := Some (fun n _ => Some (zeros n)).

Definition demo_receiver : receiver :=
  mk_receiver (mk_window (replicate 4 (mk_entry [] 0)) 0 1000) (Some fresh_memo) None.
Definition demo_world : world :=
  mk_world (fold_left (run_cs_op toy_ops) [demo_offer] demo_cstore) (Some memo_store) None.

(** The same frame three times, and once with its last byte changed. *)
Definition demo_datagram (frame : bytes) (now : Z) : datagram :=
  mk_datagram frame now demo_world [zero_akey] 1.
Definition demo_traffic : list datagram :=
  [demo_datagram (poke demo_frame 145 9) 150; demo_datagram demo_frame 150; demo_datagram demo_frame 151].

Definition demo_received : list (datagram * fzn_admit_result) :=
  receive_all demo_keys demo_rule demo_root demo_hash toy_aead toy_ops 1000 demo_receiver demo_traffic.

Lemma demo_steps :
  (fun dr => r_step (snd dr)) <$> demo_received = [FZN_ADMIT_TAG; FZN_ADMIT_ADMITTED; FZN_ADMIT_REPLAY].
Proof. vm_compute. reflexivity. Qed.

Lemma demo_receiver_ok : window_ok (rc_window demo_receiver).
Proof. split; vm_compute; discriminate. Qed.

Lemma demo_world_built : built_store toy_ops (wd_chains demo_world).
Proof.
  exists demo_cstore, (Some [zero_centry]), demo_cstore, [demo_offer]. split_and!; [reflexivity| |reflexivity].
  apply Forall_cons_iff. split; [|apply List.Forall_nil]. exists [demo_hop]. split; [reflexivity|].
  apply demo_hop_ok.
Qed.

Lemma a_stranger_changes_nothing_witness :
  exists r f env',
    fzn_admit (Some (poke demo_frame 145 9)) 150
      (Some (env_of demo_keys demo_rule demo_root demo_hash toy_aead toy_ops 1000 demo_receiver demo_world))
      (Some [zero_akey]) 1 = (r, f, env') /\
    r_step r = FZN_ADMIT_TAG /\
    exists f' st', f = Some f' /\
      env' = Some (env_of demo_keys demo_rule demo_root demo_hash toy_aead toy_ops 1000 st' demo_world) /\
      outcome_ok demo_keys demo_rule demo_root demo_hash toy_aead 1000 demo_receiver st' 150
        (poke demo_frame 145 9) f' r.
Proof.
  destruct (fzn_admit (Some (poke demo_frame 145 9)) 150
      (Some (env_of demo_keys demo_rule demo_root demo_hash toy_aead toy_ops 1000 demo_receiver demo_world))
      (Some [zero_akey]) 1) as [[r f] env'] eqn:E.
  exists r, f, env'. split; [reflexivity|]. split.
  - apply (f_equal (fun x => r_step (fst (fst x)))) in E. cbn [fst] in E. rewrite <- E.
    vm_compute. reflexivity.
  - exact (a_stranger_changes_nothing demo_keys demo_rule demo_root demo_hash toy_aead toy_ops 1000
      demo_receiver demo_world 150 (poke demo_frame 145 9) [zero_akey] 1 r f env' demo_receiver_ok E).
Defined.

Lemma no_datagram_admitted_twice_witness :
  admitted_frames demo_received = [(zeros 24, 500, 150)] /\
  List.NoDup (map fst (admitted_frames demo_received)).
Proof.
  split; [vm_compute; reflexivity|].
  apply (no_datagram_admitted_twice demo_keys demo_rule demo_root demo_hash toy_aead toy_ops 1000
    demo_receiver demo_traffic 100 demo_receiver_ok).
  cbn. lia.
Defined.

(** The same host later: another frame of the sender's, when the chain is no
    longer held and a manifest says that a revocation is missing. Only the memo
    can let it through. *)
Definition demo_frame_later : bytes :=
  slice 0 146 (snd (fst (fzn_seal_build (zeros 200) demo_send (demo_key 8) (demo_key 9)
    (Some (fun n _ => Some (zeros n))) (Some (1 :: zeros 23)) toy_aead))).
Definition demo_later : datagram :=
  mk_datagram demo_frame_later 160 (mk_world demo_cstore (Some memo_store) (Some behind_state)) [zero_akey] 1.

Lemma demo_later_steps :
  (fun dr => r_step (snd dr)) <$>
    receive_all demo_keys demo_rule demo_root demo_hash toy_aead toy_ops 1000 demo_receiver
      [demo_datagram demo_frame 150; demo_later] = [FZN_ADMIT_ADMITTED; FZN_ADMIT_ADMITTED].
Proof. vm_compute. reflexivity. Qed.

Lemma step_at ds i d st step :
  ((fun dr => r_step (snd dr)) <$> receive_all demo_keys demo_rule demo_root demo_hash toy_aead toy_ops 1000 st ds) !! i
    = Some step -> ds !! i = Some d ->
  exists r, receive_all demo_keys demo_rule demo_root demo_hash toy_aead toy_ops 1000 st ds !! i = Some (d, r) /\
    r_step r = step.
Proof.
  intros Hs Hd. pose proof (receive_all_fst demo_keys demo_rule demo_root demo_hash toy_aead toy_ops 1000 ds st) as E.
  apply (f_equal (lookup i)) in E. rewrite Hd, list_lookup_fmap in E. rewrite list_lookup_fmap in Hs.
  destruct (receive_all _ _ _ _ _ _ _ _ _ !! i) as [[d' r]|]; [|done].
  injection Hs as <-. injection E as ->. by exists r.
Qed.

Lemma admitted_frames_are_authorised_witness :
  fzn_chain_store_lookup (Some (wd_chains (d_world demo_later))) (demo_key 1) (demo_key 3) (demo_key 2) 160 = None /\
  exists r o frame', r_step r = FZN_ADMIT_ADMITTED /\ r_opened r = Some o /\
    verified demo_keys demo_hash toy_aead demo_frame_later frame' o /\
    authorised demo_root toy_ops [demo_datagram demo_frame 150] o demo_later.
Proof.
  split; [vm_compute; reflexivity|].
  destruct (step_at [demo_datagram demo_frame 150; demo_later] 1 demo_later demo_receiver FZN_ADMIT_ADMITTED)
    as (r & Hin & Hr); [by rewrite demo_later_steps|done|].
  destruct (admitted_frames_are_authorised demo_keys demo_rule demo_root demo_hash toy_aead toy_ops 1000
    demo_receiver [demo_datagram demo_frame 150; demo_later] 1 demo_later r) as (o & f & H); [| |exact Hin|exact Hr|].
  - intros m [= <-]. exists fresh_memo, (Some (replicate 2 zero_memo_entry)), 2. reflexivity.
  - apply Forall_cons_iff. split; [exact demo_world_built|]. apply list.Forall_singleton.
    exists demo_cstore, (Some [zero_centry]), demo_cstore, []. split_and!; [reflexivity|apply List.Forall_nil|reflexivity].
  - exists r, o, f. split; [exact Hr|exact H].
Defined.
