(* ===== verification/Service.v ===== *)
(** * chain/service.c: capabilities of services, streams of products

    The capability of a service for a product is a hash of their numbers and a
    name; the stream a product's records go to carries the product in its high
    half. [out] is given; a hash is [None] where its vtable or its function is
    NULL. *)

From S2P Require Import Prelude Bytes Hop Revocation.

Definition FZN_SERVICE_NONE : Z := 0.
Definition FZN_PRODUCT_NONE : Z := 0.
Definition FZN_PRODUCT_ANY : Z := 65535.
Definition FZN_PRODUCT_MAX : Z := 65534.
Definition FZN_SERVICE_NAME_MAX : Z := 64.
Definition FZN_STREAM_PRODUCT_SHIFT : Z := 16.
Definition FZN_STREAM_INDEX_MAX : Z := 65535.

(** ["fuzznet-cap-v1\0\0"] *)
Definition FZN_SERVICE_LABEL : bytes :=
  [102; 117; 122; 122; 110; 101; 116; 45; 99; 97; 112; 45; 118; 49; 0; 0].

(** What is hashed. *)
Definition service_input (service product : Z) (name : option bytes) (name_len : Z) : bytes :=
  FZN_SERVICE_LABEL ++ be32 service ++ be32 product ++ slice 0 name_len (default [] name).

Definition fzn_service_capability (service product : Z) (name : option bytes) (name_len : Z)
    (hash : option fzn_hash_ops) : fzn_chain_err * option bytes :=
  match hash with
  | None => (FZN_CHAIN_ERR_MALFORMED, None)
  | Some hash =>
    if (service =? FZN_SERVICE_NONE) || (product =? FZN_PRODUCT_NONE) then (FZN_CHAIN_ERR_MALFORMED, None)
    else if (product >? FZN_PRODUCT_MAX) && negb (product =? FZN_PRODUCT_ANY) then (FZN_CHAIN_ERR_MALFORMED, None)
    else if name_len >? FZN_SERVICE_NAME_MAX then (FZN_CHAIN_ERR_MALFORMED, None)
    else if (name_len >? 0) && is_null name then (FZN_CHAIN_ERR_MALFORMED, None)
    else match hash FZN_CAP_ID_LEN (service_input service product name name_len) with
    | None => (FZN_CHAIN_ERR_MALFORMED, None)
    | Some derived => (FZN_CHAIN_OK, Some derived)
    end
  end.

(** The scoped capability and the one for every product; the first is written
    before the second may fail. *)
Definition fzn_service_capability_pair (service product : Z) (name : option bytes) (name_len : Z)
    (hash : option fzn_hash_ops) : fzn_chain_err * option bytes * option bytes :=
  if product =? FZN_PRODUCT_ANY then (FZN_CHAIN_ERR_MALFORMED, None, None)
  else match fzn_service_capability service product name name_len hash with
  | (FZN_CHAIN_OK, scoped) =>
    let '(err, any) := fzn_service_capability service FZN_PRODUCT_ANY name name_len hash in (err, scoped, any)
  | (err, _) => (err, None, None)
  end.

Definition fzn_service_stream (product index : Z) : fzn_chain_err * option Z :=
  if (product =? FZN_PRODUCT_NONE) || (product >? FZN_PRODUCT_MAX) then (FZN_CHAIN_ERR_MALFORMED, None)
  else if index >? FZN_STREAM_INDEX_MAX then (FZN_CHAIN_ERR_MALFORMED, None)
  else (FZN_CHAIN_OK, Some (Z.lor (u32 (Z.shiftl product FZN_STREAM_PRODUCT_SHIFT)) index)).

Definition fzn_service_stream_product (stream : Z) : Z := Z.shiftr stream FZN_STREAM_PRODUCT_SHIFT.

(** ** One capability, one name *)

(** The arguments the derivation accepts. *)
Definition service_named (service product : Z) (name : bytes) : Prop :=
  1 <= service <= UINT32_MAX /\ (1 <= product <= FZN_PRODUCT_MAX \/ product = FZN_PRODUCT_ANY) /\ zlen name <= FZN_SERVICE_NAME_MAX.

Lemma capability_ok service product name hash id : in_u32 service -> in_u32 product ->
  fzn_service_capability service product (Some name) (zlen name) (Some hash) = (FZN_CHAIN_OK, Some id) <->
  service_named service product name /\ hash FZN_CAP_ID_LEN (FZN_SERVICE_LABEL ++ be32 service ++ be32 product ++ name) = Some id.
Proof.
  intros Hs Hp. unfold fzn_service_capability, service_named, service_input, FZN_SERVICE_NONE, FZN_PRODUCT_NONE, FZN_PRODUCT_MAX,
    FZN_PRODUCT_ANY. cbn [is_null]. change (default [] (Some name)) with name. rewrite andb_false_r, (slice_all (zlen name) name) by lia.
  destruct (Z.eqb_spec service 0); cbn [orb]; [split; [done|intros [(? & ? & ?) _]; ulia]|]. destruct (Z.eqb_spec product 0); [split; [done|intros [(? & ? & ?) _]; ulia]|].
  rewrite !Z.gtb_ltb. destruct (Z.ltb_spec 65534 product); cbn [andb].
  - destruct (Z.eqb_spec product 65535) as [->|]; cbn [negb]; [|split; [done|intros [(? & ? & ?) _]; ulia]].
    destruct (Z.ltb_spec FZN_SERVICE_NAME_MAX (zlen name)); [split; [done|intros [(? & ? & ?) _]; lia]|].
    destruct (hash _ _) as [d|]; (split; [intros [= ->]|intros [_ Heq]; congruence]). split_and!; try done; ulia.
  - destruct (Z.ltb_spec FZN_SERVICE_NAME_MAX (zlen name)); [split; [done|intros [(? & ? & ?) _]; lia]|].
    destruct (hash _ _) as [d|]; (split; [intros [= ->]|intros [_ Heq]; congruence]). split_and!; try done; ulia.
Qed.

(** Two inputs are one only for one service, product and name. *)
Lemma input_inj s p n s' p' n' : in_u32 s -> in_u32 p -> in_u32 s' -> in_u32 p' ->
  FZN_SERVICE_LABEL ++ be32 s ++ be32 p ++ n = FZN_SERVICE_LABEL ++ be32 s' ++ be32 p' ++ n' -> s = s' /\ p = p' /\ n = n'.
Proof.
  intros Hs Hp Hs' Hp' E. apply app_inv_head in E. apply app_inj_1 in E as [E1 E]; [|done]. apply app_inj_1 in E as [E2 ->]; [|done].
  by apply be32_inj in E1 as ->; apply be32_inj in E2 as ->.
Qed.

Lemma one_name_of hash s p n s' p' n' id : in_u32 s -> in_u32 p -> in_u32 s' -> in_u32 p' ->
  fzn_service_capability s p (Some n) (zlen n) (Some hash) = (FZN_CHAIN_OK, Some id) ->
  fzn_service_capability s' p' (Some n') (zlen n') (Some hash) = (FZN_CHAIN_OK, Some id) ->
  (s = s' /\ p = p' /\ n = n') \/
  exists x y, collide hash FZN_CAP_ID_LEN (FZN_SERVICE_LABEL ++ x) (FZN_SERVICE_LABEL ++ y).
Proof.
  intros Hs Hp Hs' Hp' (_ & H1)%capability_ok (_ & H2)%capability_ok; try done.
  destruct (same_hash _ _ _ _ _ H1 H2) as [E|C]; [left; by apply input_inj|right; eauto].
Qed.

(** A product and an index in the two halves of a stream. *)
Lemma stream_value product index : in_u32 product -> in_u32 index ->
  forall stream, fzn_service_stream product index = (FZN_CHAIN_OK, Some stream) <->
    1 <= product <= FZN_PRODUCT_MAX /\ index <= FZN_STREAM_INDEX_MAX /\ stream = product * 65536 + index.
Proof.
  intros Hp Hi stream. unfold fzn_service_stream, FZN_PRODUCT_NONE, FZN_PRODUCT_MAX, FZN_STREAM_INDEX_MAX, FZN_STREAM_PRODUCT_SHIFT.
  rewrite !Z.gtb_ltb. destruct (Z.eqb_spec product 0); cbn [orb]; [split; [done|lia]|].
  destruct (Z.ltb_spec 65534 product); [split; [done|lia]|]. destruct (Z.ltb_spec 65535 index); [split; [done|lia]|].
  rewrite Z.shiftl_mul_pow2, u32_small by ulia. rewrite lor_add by ulia. change (2 ^ 16) with 65536. split.
  - intros [= <-]. split; [ulia|]. split; [ulia|done].
  - by intros (_ & _ & ->).
Qed.

(** A stream says its product and nobody else's. The stream of a product
    and an index exists exactly for a product that is somebody's and an index
    of sixteen bits, is a 32-bit number, gives its product back, and is no
    other pair's; neither of the two products that name nobody or everybody
    has one. *)
Theorem streams_are_of_one_product product index product' index' :
  in_u32 product -> in_u32 index -> in_u32 product' -> in_u32 index' ->
  ((exists stream, fzn_service_stream product index = (FZN_CHAIN_OK, Some stream)) <->
     product <> FZN_PRODUCT_NONE /\ product < FZN_PRODUCT_ANY /\ index <= FZN_STREAM_INDEX_MAX) /\
  (forall stream, fzn_service_stream product index = (FZN_CHAIN_OK, Some stream) ->
     in_u32 stream /\ fzn_service_stream_product stream = product /\
     (fzn_service_stream product' index' = (FZN_CHAIN_OK, Some stream) -> product' = product /\ index' = index)).
Proof.
  intros Hp Hi Hp' Hi'. unfold FZN_PRODUCT_NONE, FZN_PRODUCT_ANY. split.
  - split.
    + intros [stream (? & ? & _)%stream_value]; try done. unfold FZN_PRODUCT_MAX in *. lia.
    + intros (? & ? & ?). exists (product * 65536 + index). apply stream_value; try done. unfold FZN_PRODUCT_MAX. split; [ulia|done].
  - intros stream (Hpr & Hix & ->)%stream_value; try done. unfold FZN_PRODUCT_MAX, FZN_STREAM_INDEX_MAX in *. split; [ulia|]. split.
    + unfold fzn_service_stream_product, FZN_STREAM_PRODUCT_SHIFT. rewrite Z.shiftr_div_pow2 by lia. change (2 ^ 16) with 65536. dlia.
    + intros (Hpr' & Hix' & E)%stream_value; try done. unfold FZN_PRODUCT_MAX, FZN_STREAM_INDEX_MAX in *. ulia.
Qed.

Lemma streams_are_of_one_product_witness :
  fzn_service_stream 2 7 = (FZN_CHAIN_OK, Some 131079) /\ fzn_service_stream_product 131079 = 2.
Proof.
  split; [reflexivity|].
  destruct (streams_are_of_one_product 2 7 2 7) as [_ H]; [ulia..|]. by apply (H 131079).
Defined.
