(* ===== verification/Authz.v ===== *)
(** * chain/authz.c: whether a request is allowed

    A policy says from where a kind of request may come and which capability
    it needs; the decision is the origin first, the chain after. [root] is
    given; a NULL array of hops is [None]. *)

From S2P Require Import Prelude Bytes Hop Revocation Manifest Chain Service.

Inductive fzn_authz_verdict := FZN_AUTHZ_DENIED | FZN_AUTHZ_GRANTED_BY_CHAIN | FZN_AUTHZ_GRANTED_UNGUARDED.
Inductive fzn_origin := FZN_ORIGIN_NONE | FZN_ORIGIN_SAME_USER | FZN_ORIGIN_LOCAL | FZN_ORIGIN_REMOTE.

#[export] Instance fzn_origin_eq : EqDecision fzn_origin.
Proof. solve_decision. Defined.

(** The value of an origin. *)
Definition origin_value (origin : fzn_origin) : Z :=
  match origin with FZN_ORIGIN_NONE => 0 | FZN_ORIGIN_SAME_USER => 1 | FZN_ORIGIN_LOCAL => 2 | FZN_ORIGIN_REMOTE => 3 end.

Definition FZN_ORIGIN_BIT (origin : fzn_origin) : Z := Z.shiftl 1 (origin_value origin).
Definition FZN_ORIGIN_ANY : Z :=
  Z.lor (Z.lor (FZN_ORIGIN_BIT FZN_ORIGIN_SAME_USER) (FZN_ORIGIN_BIT FZN_ORIGIN_LOCAL)) (FZN_ORIGIN_BIT FZN_ORIGIN_REMOTE).

Record fzn_authz_policy := mk_policy { po_spelled : bool; po_guarded : bool; po_origins : Z; po_capability : bytes }.

Definition fzn_authz_requires (capability : option bytes) (origins : Z) : fzn_authz_policy :=
  mk_policy true true origins (default (zeros FZN_CAP_ID_LEN) capability).

Definition fzn_authz_unguarded (origins : Z) : fzn_authz_policy := mk_policy true false origins (zeros FZN_CAP_ID_LEN).

Definition fzn_authz_origin_permitted (policy : fzn_authz_policy) (origin : fzn_origin) : bool :=
  if decide (origin = FZN_ORIGIN_NONE) then false
  else negb (Z.land (po_origins policy) (FZN_ORIGIN_BIT origin) =? 0).

Definition fzn_authz_decide (policy : fzn_authz_policy) (origin : fzn_origin) (hops : option (list (option fzn_chain_hop)))
    (root : bytes) (now : Z) (sign : fzn_sign_ops) (revocations : option fzn_revocation_store)
    (manifest : option fzn_manifest_state) : fzn_authz_verdict :=
  if negb (po_spelled policy) then FZN_AUTHZ_DENIED
  else if negb (fzn_authz_origin_permitted policy origin) then FZN_AUTHZ_DENIED
  else if negb (po_guarded policy) then FZN_AUTHZ_GRANTED_UNGUARDED
  else match hops with
  | None => FZN_AUTHZ_DENIED
  | Some hops =>
    if zlen hops =? 0 then FZN_AUTHZ_DENIED
    else match fst (fzn_chain_verify hops root (po_capability policy) now sign revocations manifest) with
    | FZN_CHAIN_OK => FZN_AUTHZ_GRANTED_BY_CHAIN
    | _ => FZN_AUTHZ_DENIED
    end
  end.

(** ** What is granted *)

(** The origin was stated and the mask names it. *)
Definition reaches_from (policy : fzn_authz_policy) (origin : fzn_origin) : Prop :=
  po_spelled policy = true /\ origin <> FZN_ORIGIN_NONE /\ Z.testbit (po_origins policy) (origin_value origin) = true.

Lemma origin_permitted_iff policy origin : fzn_authz_origin_permitted policy origin = true <->
  origin <> FZN_ORIGIN_NONE /\ Z.testbit (po_origins policy) (origin_value origin) = true.
Proof.
  unfold fzn_authz_origin_permitted, FZN_ORIGIN_BIT. destruct (decide _) as [->|Ho]; [split; [done|by intros []]|].
  assert (0 <= origin_value origin) as Hn by (by destruct origin). rewrite negb_true_iff, Z.eqb_neq. set (k := origin_value origin) in *.
  transitivity (Z.testbit (po_origins policy) k = true); [|tauto]. split.
  - intros Hne. apply not_false_iff_true. intros Hf. apply Hne. apply Z.bits_inj'. intros i Hi.
    rewrite Z.land_spec, Z.shiftl_1_l, Z.pow2_bits_eqb, Z.bits_0 by lia. destruct (Z.eqb_spec k i) as [<-|]; [by rewrite Hf|apply andb_false_r].
  - intros Ht Hz. apply (f_equal (fun z => Z.testbit z k)) in Hz.
    rewrite Z.land_spec, Z.shiftl_1_l, Z.pow2_bits_eqb, Z.bits_0, Z.eqb_refl, Ht in Hz by lia. done.
Qed.

Lemma verify_code hops root capability now sign revs man :
  fst (fzn_chain_verify hops root capability now sign revs man) = FZN_CHAIN_OK <->
  exists hs vf, hops = Some <$> hs /\ verify sign = Some vf /\ chain_valid hs root capability now vf revs man.
Proof.
  split.
  - intros E. destruct (fzn_chain_verify hops root capability now sign revs man) as [err oc] eqn:Ev. cbn in E. subst err.
    destruct oc as [c|]; [|by apply verify_none in Ev]. apply verify_ok_iff in Ev as (hs & vf & ? & ? & ? & _). eauto.
  - intros (hs & vf & H1 & H2 & H3).
    assert (fzn_chain_verify hops root capability now sign revs man = (FZN_CHAIN_OK, Some (verdict_of root capability hs (soonest_expiry 0 hs)))) as ->;
      [|done]. apply verify_ok_iff. eauto 10.
Qed.

(** What a decision answers, and that it answers nothing else. *)
Lemma decide_cases policy origin hops root now sign revs man :
  match fzn_authz_decide policy origin hops root now sign revs man with
  | FZN_AUTHZ_GRANTED_UNGUARDED => reaches_from policy origin /\ po_guarded policy = false
  | FZN_AUTHZ_GRANTED_BY_CHAIN => reaches_from policy origin /\ po_guarded policy = true /\
      exists hs vf, hops = Some (Some <$> hs) /\ verify sign = Some vf /\
        chain_valid hs root (po_capability policy) now vf revs man
  | FZN_AUTHZ_DENIED => ~ (reaches_from policy origin /\
      (po_guarded policy = false \/
       exists hs vf, hops = Some (Some <$> hs) /\ verify sign = Some vf /\
         chain_valid hs root (po_capability policy) now vf revs man))
  end.
Proof.
  unfold fzn_authz_decide, reaches_from. destruct (po_spelled policy); cbn [negb]; [|naive_solver].
  pose proof (origin_permitted_iff policy origin) as Hp. destruct (fzn_authz_origin_permitted policy origin); cbn [negb].
  2: { intros ((_ & H) & _). by apply Hp in H. }
  destruct (proj1 Hp eq_refl) as [Ho Hb]. destruct (po_guarded policy); cbn [negb]; [|done].
  destruct hops as [hops|]; [|intros (_ & [|(? & ? & ? & _)]); done].
  destruct (Z.eqb_spec (zlen hops) 0) as [Hz|Hz].
  { intros (_ & [|(hs & vf & [= ->] & _ & [[Hc _] _])]); [done|]. unfold zlen in *. rewrite length_fmap in Hz. lia. }
  pose proof (verify_code hops root (po_capability policy) now sign revs man) as Hv.
  destruct (fst _) eqn:E; try (intros (_ & [|(hs & vf & [= ->] & H1 & H2)]); [done|]; assert (FZN_CHAIN_OK = FZN_CHAIN_OK) by done; naive_solver).
  destruct (proj1 Hv eq_refl) as (hs & vf & -> & H1 & H2). naive_solver.
Qed.

(** C26: What is granted is what was stated. A request is let through
    unguarded exactly when the policy was spelled, names the origin, and says
    that the kind needs no capability; by a chain exactly when the policy
    names the origin and the chain is valid for its capability, under the
    root, the revocations and the manifest, at this moment. Nothing else is
    granted: not a policy nobody spelled, not an origin nobody stated even
    under a mask of every bit, and the mask of every origin is those three. *)
Theorem granted_is_what_was_stated policy origin hops root now sign revs man :
  (fzn_authz_decide policy origin hops root now sign revs man = FZN_AUTHZ_GRANTED_UNGUARDED <->
     reaches_from policy origin /\ po_guarded policy = false) /\
  (fzn_authz_decide policy origin hops root now sign revs man = FZN_AUTHZ_GRANTED_BY_CHAIN <->
     reaches_from policy origin /\ po_guarded policy = true /\
     exists hs vf, hops = Some (Some <$> hs) /\ verify sign = Some vf /\
       chain_valid hs root (po_capability policy) now vf revs man) /\
  (forall guarded origins capability,
     fzn_authz_decide (mk_policy false guarded origins capability) origin hops root now sign revs man = FZN_AUTHZ_DENIED) /\
  fzn_authz_decide policy FZN_ORIGIN_NONE hops root now sign revs man = FZN_AUTHZ_DENIED /\
  (forall o, reaches_from (fzn_authz_unguarded FZN_ORIGIN_ANY) o <-> o <> FZN_ORIGIN_NONE).
Proof.
  pose proof (decide_cases policy origin hops root now sign revs man) as Hc. split; [|split; [|split; [done|split]]].
  - destruct (fzn_authz_decide _ _ _ _ _ _ _ _).
    + split; [done|]. intros H. exfalso. tauto.
    + split; [done|]. intros [_ H]. destruct Hc as (_ & H' & _). congruence.
    + tauto.
  - destruct (fzn_authz_decide _ _ _ _ _ _ _ _).
    + split; [done|]. intros H. exfalso. tauto.
    + tauto.
    + split; [done|]. intros (_ & H & _). destruct Hc as [_ H']. congruence.
  - unfold fzn_authz_decide. destruct (po_spelled policy); [|done]. done.
  - intros o. unfold reaches_from. split; [tauto|]. intros Ho. by destruct o.
Qed.

(** Every hop of a chain that grants a capability carries it. *)
Lemma granted_capability policy origin hops root now sign revs man :
  fzn_authz_decide policy origin (Some hops) root now sign revs man = FZN_AUTHZ_GRANTED_BY_CHAIN ->
  exists h, hops !! 0%nat = Some (Some h) /\ fzn_hop_capability h = po_capability policy.
Proof.
  intros E. pose proof (decide_cases policy origin (Some hops) root now sign revs man) as Hc. rewrite E in Hc.
  destruct Hc as (_ & _ & hs & vf & [= ->] & _ & [[Hn _] _ Hcap _ _ _ _ _]). destruct hs as [|h hs]; [done|].
  exists h. apply Forall_cons_iff in Hcap as [? _]. done.
Qed.

(** Services are apart. A chain that opens two guarded kinds, wherever
    the requests came from, under whatever roots, times and stores, opens
    them because they are one: the same service, product and name; otherwise
    two inputs of the derivation with one hash are shown. *)
Theorem services_are_apart hash s p n s' p' n' id id' origins origins' o o' hops root root' now now' sign sign' revs revs' man man' :
  in_u32 s -> in_u32 p -> in_u32 s' -> in_u32 p' ->
  fzn_service_capability s p (Some n) (zlen n) (Some hash) = (FZN_CHAIN_OK, Some id) ->
  fzn_service_capability s' p' (Some n') (zlen n') (Some hash) = (FZN_CHAIN_OK, Some id') ->
  fzn_authz_decide (fzn_authz_requires (Some id) origins) o (Some hops) root now sign revs man = FZN_AUTHZ_GRANTED_BY_CHAIN ->
  fzn_authz_decide (fzn_authz_requires (Some id') origins') o' (Some hops) root' now' sign' revs' man' = FZN_AUTHZ_GRANTED_BY_CHAIN ->
  (s = s' /\ p = p' /\ n = n') \/
  exists x y, collide hash FZN_CAP_ID_LEN (FZN_SERVICE_LABEL ++ x) (FZN_SERVICE_LABEL ++ y).
Proof.
  intros Hs Hp Hs' Hp' H1 H2 (h & Hh & E)%granted_capability (h' & Hh' & E')%granted_capability. simplify_eq.
  change (po_capability (fzn_authz_requires (Some ?x) _)) with x in *. rewrite E in E'. subst id'. by eapply one_name_of.
Qed.

(** A derivation for the demonstrations: the sum of what is hashed. *)
Definition demo_cap_hash : fzn_hash_ops := fun n b => Some (replicate (Z.to_nat n) (u8 (foldr Z.add 0 b))).
Definition demo_cap : bytes := replicate 32 (u8 (foldr Z.add 0 (FZN_SERVICE_LABEL ++ be32 1 ++ be32 2 ++ [7]))).
Definition demo_grant : bytes := hop_bytes (demo_key 1) (demo_key 2) demo_cap 100 258 1 (zeros 64).

Lemma services_are_apart_witness :
  fzn_service_capability 1 2 (Some [7]) 1 (Some demo_cap_hash) = (FZN_CHAIN_OK, Some demo_cap) /\
  ((1 = 1 /\ 2 = 2 /\ [7] = [7]) \/
   exists x y, collide demo_cap_hash FZN_CAP_ID_LEN (FZN_SERVICE_LABEL ++ x) (FZN_SERVICE_LABEL ++ y)).
Proof.
  assert (fzn_service_capability 1 2 (Some [7]) (zlen [7]) (Some demo_cap_hash) = (FZN_CHAIN_OK, Some demo_cap)) as E
    by (vm_compute; reflexivity).
  assert (fzn_authz_decide (fzn_authz_requires (Some demo_cap) FZN_ORIGIN_ANY) FZN_ORIGIN_REMOTE (Some [Some demo_grant]) (demo_key 1)
    150 toy_ops None None = FZN_AUTHZ_GRANTED_BY_CHAIN) as G by (vm_compute; reflexivity).
  split; [exact E|].
  exact (services_are_apart demo_cap_hash 1 2 [7] 1 2 [7] demo_cap demo_cap FZN_ORIGIN_ANY FZN_ORIGIN_ANY _ _ _ _ _ _ _ _ _ _ _ _ _
    ltac:(ulia) ltac:(ulia) ltac:(ulia) ltac:(ulia) E E G G).
Defined.

(** A policy made from no capability at all is one for the capability of
    zeros, and a chain for that capability, signed by the root, opens it. *)
Lemma no_capability_is_zeros :
  fzn_authz_decide (fzn_authz_requires None FZN_ORIGIN_ANY) FZN_ORIGIN_REMOTE
    (Some [Some (hop_bytes (demo_key 1) (demo_key 2) (zeros 32) 100 258 1 (zeros 64))]) (demo_key 1) 150 toy_ops None None
    = FZN_AUTHZ_GRANTED_BY_CHAIN.
Proof. vm_compute. reflexivity. Qed.
