(* ===== verification/Blob.v ===== *)
(** * blob/blob.c: leaves of a content-addressed blob

    Where a byte of content lives, the key, the commitment and the nonce of a
    leaf, sealing and opening one, and the two hashes the tree is made of. The
    hash and the cipher are the consumer's. Wiping of locals and the error
    names are not modelled; the content key is given. The constant-time
    comparison is [memeq], as in [Revocation]. *)

From S2P Require Import Prelude Bytes Hop Revocation Seal.

Definition FZN_BLOB_LEAF_SIZE : Z := 1024.
Definition FZN_BLOB_HASH_LEN : Z := 32.
Definition FZN_BLOB_KEY_LEN : Z := 32.
Definition FZN_BLOB_LEAF_OVERHEAD : Z := FZN_COMMITMENT_LEN + FZN_AEAD_TAG_LEN.
Definition FZN_BLOB_SEALED_MAX : Z := FZN_BLOB_LEAF_SIZE + FZN_BLOB_LEAF_OVERHEAD.
Definition FZN_BLOB_MAX_DEPTH : Z := 40.
Definition FZN_BLOB_MAX_LEAVES : Z := Z.shiftl 1 FZN_BLOB_MAX_DEPTH.
Definition BLOB_MAX_CONTENT : Z := FZN_BLOB_MAX_LEAVES * FZN_BLOB_LEAF_SIZE.

Definition FZN_BLOB_LEAF_PREFIX : Z := 0.
Definition FZN_BLOB_NODE_PREFIX : Z := 1.

(** ["fuzznet-blob-v1\0"] *)
Definition FZN_BLOB_KEY_LABEL : bytes :=
  [102; 117; 122; 122; 110; 101; 116; 45; 98; 108; 111; 98; 45; 118; 49; 0].
(** ["fuzznet-root-v1\0"] *)
Definition FZN_BLOB_ROOT_LABEL : bytes :=
  [102; 117; 122; 122; 110; 101; 116; 45; 114; 111; 111; 116; 45; 118; 49; 0].
Definition FZN_BLOB_DERIVED_LEN : Z := FZN_AEAD_KEY_LEN + FZN_COMMITMENT_LEN.

Inductive fzn_blob_err :=
| FZN_BLOB_OK | FZN_BLOB_ERR_MALFORMED | FZN_BLOB_ERR_HASH | FZN_BLOB_ERR_SHAPE | FZN_BLOB_ERR_COMMITMENT
| FZN_BLOB_ERR_AUTH | FZN_BLOB_ERR_PROOF | FZN_BLOB_ERR_FULL | FZN_BLOB_ERR_IO.

#[export] Instance fzn_blob_err_eq_dec : EqDecision fzn_blob_err.
Proof. solve_decision. Defined.

(** A hash vtable: [None] is NULL, [Some None] one without its function. *)
Abbreviation hash_vtable := (option (option fzn_hash_ops)).

Definition nonce_for_index (index : Z) : bytes := fzn_put_be64 (zeros FZN_AEAD_NONCE_LEN) (FZN_AEAD_NONCE_LEN - 8) index.

(** The leaves, and the length of the last one. *)
Definition fzn_blob_geometry (content_len : Z) : fzn_blob_err * option (Z * Z) :=
  if content_len =? 0 then (FZN_BLOB_ERR_MALFORMED, None)
  else if content_len >? BLOB_MAX_CONTENT then (FZN_BLOB_ERR_SHAPE, None)
  else
    let leaves := content_len / FZN_BLOB_LEAF_SIZE in
    let tail := content_len mod FZN_BLOB_LEAF_SIZE in
    if negb (tail =? 0) then (FZN_BLOB_OK, Some (leaves + 1, tail))
    else (FZN_BLOB_OK, Some (leaves, FZN_BLOB_LEAF_SIZE)).

Record fzn_blob_extent := mk_extent { x_first : Z; x_count : Z; x_skip : Z }.

Definition fzn_blob_extent_of (content_len offset len : Z) : fzn_blob_err * option fzn_blob_extent :=
  if content_len =? 0 then (FZN_BLOB_ERR_MALFORMED, None)
  else if content_len >? BLOB_MAX_CONTENT then (FZN_BLOB_ERR_SHAPE, None)
  else if len =? 0 then (FZN_BLOB_ERR_MALFORMED, None)
  else if (offset >=? content_len) || (len >? content_len - offset) then (FZN_BLOB_ERR_MALFORMED, None)
  else
    let last_byte := offset + len - 1 in
    let last_leaf := last_byte / FZN_BLOB_LEAF_SIZE in
    let first := offset / FZN_BLOB_LEAF_SIZE in
    (FZN_BLOB_OK, Some (mk_extent first (last_leaf - first + 1) (offset mod FZN_BLOB_LEAF_SIZE))).

(** The cipher key and the commitment. *)
Definition fzn_blob_derive_leaf (hash : hash_vtable) (content_key : bytes) (index : Z)
    : fzn_blob_err * option (bytes * bytes) :=
  match hash with
  | Some (Some hash) =>
    match hash FZN_BLOB_DERIVED_LEN (FZN_BLOB_KEY_LABEL ++ content_key ++ be64 index) with
    | None => (FZN_BLOB_ERR_HASH, None)
    | Some derived =>
      (FZN_BLOB_OK, Some (slice 0 FZN_AEAD_KEY_LEN derived, slice FZN_AEAD_KEY_LEN FZN_COMMITMENT_LEN derived))
    end
  | _ => (FZN_BLOB_ERR_MALFORMED, None)
  end.

(** [length plain] is [plain_len] and [length out] is [out_cap]. The result
    is [out] and the length written. *)
Definition fzn_blob_leaf_seal (hash : hash_vtable) (aead : option fzn_aead_ops) (content_key : bytes) (index : Z)
    (plain out : bytes) : fzn_blob_err * bytes * option Z :=
  let plain_len := zlen plain in
  match hash, aead ≫= aead_seal with
  | Some _, Some seal =>
    if (plain_len =? 0) || (plain_len >? FZN_BLOB_LEAF_SIZE) then (FZN_BLOB_ERR_MALFORMED, out, None)
    else if zlen out <? plain_len + FZN_BLOB_LEAF_OVERHEAD then (FZN_BLOB_ERR_MALFORMED, out, None)
    else match fzn_blob_derive_leaf hash content_key index with
    | (FZN_BLOB_OK, Some (key, commitment)) =>
      let out := blit FZN_COMMITMENT_LEN plain (blit 0 commitment out) in
      let '(sealed, text, tag) :=
        seal key (nonce_for_index index) (slice 0 FZN_COMMITMENT_LEN out)
          (slice FZN_COMMITMENT_LEN plain_len out) in
      let out := blit (FZN_COMMITMENT_LEN + plain_len) tag (blit FZN_COMMITMENT_LEN text out) in
      if negb sealed then (FZN_BLOB_ERR_HASH, blit 0 (zeros (plain_len + FZN_BLOB_LEAF_OVERHEAD)) out, None)
      else (FZN_BLOB_OK, out, Some (plain_len + FZN_BLOB_LEAF_OVERHEAD))
    | (err, _) => (err, out, None)
    end
  | _, _ => (FZN_BLOB_ERR_MALFORMED, out, None)
  end.

Definition fzn_blob_leaf_open (hash : hash_vtable) (aead : option fzn_aead_ops) (content_key : bytes) (index : Z)
    (sealed out : bytes) : fzn_blob_err * bytes * option Z :=
  let sealed_len := zlen sealed in
  match hash, aead ≫= aead_open with
  | Some _, Some open =>
    if (sealed_len <=? FZN_BLOB_LEAF_OVERHEAD) || (sealed_len >? FZN_BLOB_SEALED_MAX) then (FZN_BLOB_ERR_SHAPE, out, None)
    else
      let plain_len := sealed_len - FZN_BLOB_LEAF_OVERHEAD in
      if zlen out <? plain_len then (FZN_BLOB_ERR_MALFORMED, out, None)
      else match fzn_blob_derive_leaf hash content_key index with
      | (FZN_BLOB_OK, Some (key, commitment)) =>
        if negb (memeq (slice 0 FZN_COMMITMENT_LEN sealed) commitment) then (FZN_BLOB_ERR_COMMITMENT, out, None)
        else
          let out := blit 0 (slice FZN_COMMITMENT_LEN plain_len sealed) out in
          let '(verified, text) :=
            open key (nonce_for_index index) (slice 0 FZN_COMMITMENT_LEN sealed) (slice 0 plain_len out)
              (slice (FZN_COMMITMENT_LEN + plain_len) FZN_AEAD_TAG_LEN sealed) in
          let out := blit 0 text out in
          if negb verified then (FZN_BLOB_ERR_AUTH, blit 0 (zeros plain_len) out, None)
          else (FZN_BLOB_OK, out, Some plain_len)
      | (err, _) => (err, out, None)
      end
  | _, _ => (FZN_BLOB_ERR_MALFORMED, out, None)
  end.

Definition fzn_blob_leaf_hash (hash : hash_vtable) (sealed : bytes) : fzn_blob_err * option bytes :=
  match hash with
  | Some (Some hash) =>
    if (zlen sealed =? 0) || (zlen sealed >? FZN_BLOB_SEALED_MAX) then (FZN_BLOB_ERR_SHAPE, None)
    else match hash FZN_BLOB_HASH_LEN ([FZN_BLOB_LEAF_PREFIX] ++ sealed) with
    | None => (FZN_BLOB_ERR_HASH, None)
    | Some h => (FZN_BLOB_OK, Some h)
    end
  | _ => (FZN_BLOB_ERR_MALFORMED, None)
  end.

Definition fzn_blob_node_hash (hash : hash_vtable) (left right : bytes) : fzn_blob_err * option bytes :=
  match hash with
  | Some (Some hash) =>
    match hash FZN_BLOB_HASH_LEN ([FZN_BLOB_NODE_PREFIX] ++ left ++ right) with
    | None => (FZN_BLOB_ERR_HASH, None)
    | Some h => (FZN_BLOB_OK, Some h)
    end
  | _ => (FZN_BLOB_ERR_MALFORMED, None)
  end.

(** ** Where a byte lives *)

(** A blob of the lengths the library takes is cut into leaves that cover it
    exactly: full ones and a last one of 1 to 1024 bytes. *)
Definition covers (content_len leaves last_len : Z) : Prop :=
  1 <= leaves <= FZN_BLOB_MAX_LEAVES /\ 1 <= last_len <= FZN_BLOB_LEAF_SIZE /\
  content_len = (leaves - 1) * FZN_BLOB_LEAF_SIZE + last_len.

(** The least run of leaves that holds [len] bytes from [offset] on, and where
    the first of them lies in it. *)
Definition least_run (offset len : Z) (x : fzn_blob_extent) : Prop :=
  0 <= x_skip x < FZN_BLOB_LEAF_SIZE /\ x_first x * FZN_BLOB_LEAF_SIZE + x_skip x = offset /\ 1 <= x_count x /\
  (x_first x + x_count x - 1) * FZN_BLOB_LEAF_SIZE < offset + len <= (x_first x + x_count x) * FZN_BLOB_LEAF_SIZE.

(** Limits as numerals. *)
Ltac blob_consts :=
  unfold BLOB_MAX_CONTENT, FZN_BLOB_SEALED_MAX, FZN_BLOB_LEAF_OVERHEAD, FZN_BLOB_DERIVED_LEN, FZN_COMMITMENT_LEN, FZN_AEAD_TAG_LEN,
    FZN_AEAD_KEY_LEN, FZN_AEAD_NONCE_LEN, FZN_BLOB_HASH_LEN in *;
  change FZN_BLOB_LEAF_SIZE with 1024 in *; change FZN_BLOB_MAX_LEAVES with 1099511627776 in *;
  change FZN_BLOB_MAX_DEPTH with 40 in *.

(** Every byte of content has a leaf: a length from 1 to 2^50 is cut into
    at most 2^40 leaves, all of 1024 bytes but a last one of 1 to 1024, and
    every other length is refused; a range of bytes is answered by the least
    run of leaves that holds it, all of them leaves of the blob, and is
    refused, never clamped, exactly when it is empty or leaves the content. *)
Theorem every_byte_has_its_leaf content_len offset len :
  0 <= content_len -> 0 <= offset -> 0 <= len ->
  (if (0 <? content_len) && (content_len <=? BLOB_MAX_CONTENT)
   then exists leaves last_len, fzn_blob_geometry content_len = (FZN_BLOB_OK, Some (leaves, last_len)) /\
     covers content_len leaves last_len /\
     (if (0 <? len) && (offset + len <=? content_len)
      then exists x, fzn_blob_extent_of content_len offset len = (FZN_BLOB_OK, Some x) /\ least_run offset len x /\
        x_first x + x_count x <= leaves
      else fzn_blob_extent_of content_len offset len = (FZN_BLOB_ERR_MALFORMED, None))
   else snd (fzn_blob_geometry content_len) = None /\ snd (fzn_blob_extent_of content_len offset len) = None).
Proof.
  intros Hc Ho Hl. unfold fzn_blob_geometry, fzn_blob_extent_of.
  destruct (Z.ltb_spec 0 content_len); cbn [andb]; [|replace content_len with 0 by lia; done].
  destruct (Z.leb_spec content_len BLOB_MAX_CONTENT); cbn [andb].
  2:{ destruct (Z.eqb_spec content_len 0); [lia|]. by destruct (Z.gtb_spec content_len BLOB_MAX_CONTENT); [|lia]. }
  destruct (Z.eqb_spec content_len 0); [lia|]. destruct (Z.gtb_spec content_len BLOB_MAX_CONTENT); [lia|].
  assert (exists leaves last_len,
    (if negb (content_len mod FZN_BLOB_LEAF_SIZE =? 0)
     then (FZN_BLOB_OK, Some (content_len / FZN_BLOB_LEAF_SIZE + 1, content_len mod FZN_BLOB_LEAF_SIZE))
     else (FZN_BLOB_OK, Some (content_len / FZN_BLOB_LEAF_SIZE, FZN_BLOB_LEAF_SIZE)))
    = (FZN_BLOB_OK, Some (leaves, last_len)) /\ covers content_len leaves last_len) as (leaves & last_len & -> & Hcov).
  { unfold covers. destruct (Z.eqb_spec (content_len mod FZN_BLOB_LEAF_SIZE) 0); cbn [negb]; eexists _, _;
      (split; [reflexivity|]); blob_consts; dlia. }
  exists leaves, last_len. split_and!; [done..|]. destruct Hcov as (_ & Hlast & Hcov).
  destruct (Z.ltb_spec 0 len), (Z.leb_spec (offset + len) content_len); cbn [andb];
    destruct (Z.eqb_spec len 0); try lia; try done;
    destruct (Z.geb_spec offset content_len), (Z.gtb_spec len (content_len - offset)); cbn [orb]; try lia; try done.
  eexists. split; [reflexivity|]. unfold least_run. cbn [x_first x_count x_skip]. blob_consts. split; dlia.
Qed.

Lemma every_byte_has_its_leaf_witness :
  fzn_blob_geometry 3000 = (FZN_BLOB_OK, Some (3, 952)) /\
  (exists leaves last_len, fzn_blob_geometry 3000 = (FZN_BLOB_OK, Some (leaves, last_len)) /\
     covers 3000 leaves last_len /\
     exists x, fzn_blob_extent_of 3000 1000 100 = (FZN_BLOB_OK, Some x) /\ least_run 1000 100 x /\
        x_first x + x_count x <= leaves).
Proof. split; [reflexivity|]. apply (every_byte_has_its_leaf 3000 1000 100); lia. Defined.

(** ** A leaf sealed and opened *)

Section Leaves.
Context (hash : fzn_hash_ops) (aead : fzn_aead_ops).
Context (seal : bytes -> bytes -> bytes -> bytes -> bool * bytes * bytes).
Context (open : bytes -> bytes -> bytes -> bytes -> bytes -> bool * bytes).
Hypothesis Haead : aead_ok aead seal open.
Hypothesis Hhash : forall x d, hash FZN_BLOB_DERIVED_LEN x = Some d -> zlen d = FZN_BLOB_DERIVED_LEN.

Lemma derive_lens key i k c : fzn_blob_derive_leaf (Some (Some hash)) key i = (FZN_BLOB_OK, Some (k, c)) ->
  zlen k = FZN_AEAD_KEY_LEN /\ zlen c = FZN_COMMITMENT_LEN.
Proof.
  unfold fzn_blob_derive_leaf. destruct (hash _ _) as [d|] eqn:E; [|done]. intros [= <- <-].
  apply Hhash in E. blob_consts. split; apply zlen_slice; lia.
Qed.

Lemma derive_inv key i k c : fzn_blob_derive_leaf (Some (Some hash)) key i = (k, Some c) -> k = FZN_BLOB_OK.
Proof. unfold fzn_blob_derive_leaf. destruct (hash _ _); congruence. Qed.

Lemma drop_blit {A} n off (src l : list A) : 0 <= off -> off + zlen src <= n -> n <= zlen l ->
  drop (Z.to_nat n) (blit off src l) = drop (Z.to_nat n) l.
Proof.
  intros. apply list_eq. intros j. rewrite !lookup_drop, lookup_blit by lia.
  by rewrite bool_decide_eq_false_2 by lia.
Qed.

(** What a sealed leaf holds: the commitment, the ciphertext and the tag. *)
Lemma seal_holds key i plain out sealed n :
  fzn_blob_leaf_seal (Some (Some hash)) (Some aead) key i plain out = (FZN_BLOB_OK, sealed, Some n) ->
  exists k c text tag,
    fzn_blob_derive_leaf (Some (Some hash)) key i = (FZN_BLOB_OK, Some (k, c)) /\ 1 <= zlen plain <= FZN_BLOB_LEAF_SIZE /\
    n = zlen plain + FZN_BLOB_LEAF_OVERHEAD /\ slice 0 n sealed = c ++ text ++ tag /\ zlen sealed = zlen out /\
    drop (Z.to_nat n) sealed = drop (Z.to_nat n) out /\
    zlen text = zlen plain /\ zlen tag = FZN_AEAD_TAG_LEN /\ open k (nonce_for_index i) c text tag = (true, plain).
Proof.
  unfold fzn_blob_leaf_seal. cbn [mbind option_bind]. rewrite (ao_seal _ _ _ Haead).
  destruct (Z.eqb_spec (zlen plain) 0) as [|Hne]; [done|]. pose proof (zlen_nonneg plain).
  destruct (Z.gtb_spec (zlen plain) FZN_BLOB_LEAF_SIZE) as [|Hle]; [done|]. cbn [orb].
  destruct (Z.ltb_spec (zlen out) (zlen plain + FZN_BLOB_LEAF_OVERHEAD)) as [|Hcap]; [done|].
  destruct (fzn_blob_derive_leaf _ key i) as [[] [[k c]|]] eqn:Ed; try done.
  destruct (derive_lens _ _ _ _ Ed) as [_ Hc].
  set (o := blit _ plain (blit 0 c out)). assert (zlen o = zlen out) as Ho.
  { unfold o. rewrite !zlen_blit; rewrite ?zlen_blit; blob_consts; lia. }
  assert (slice 0 FZN_COMMITMENT_LEN o = c) as Hoc.
  { unfold o. rewrite slice_blit_disjoint; rewrite ?zlen_blit; try (blob_consts; lia).
    rewrite <- Hc at 1. apply slice_blit_same; blob_consts; lia. }
  assert (slice FZN_COMMITMENT_LEN (zlen plain) o = plain) as Hop.
  { unfold o. apply slice_blit_same; rewrite ?zlen_blit; blob_consts; lia. }
  rewrite Hoc, Hop. destruct (seal k (nonce_for_index i) c plain) as [[ok text] tag] eqn:Es.
  destruct ok; cbn [negb]; [|done]. intros [= <- <-].
  destruct (ao_roundtrip _ _ _ Haead _ _ _ _ _ _ Es) as (Ht & Hg & Hopen).
  assert (zlen (blit FZN_COMMITMENT_LEN text o) = zlen out) as Ho1 by (rewrite zlen_blit; blob_consts; lia).
  exists k, c, text, tag. split_and!; try done; try (blob_consts; lia).
  - replace (zlen plain + FZN_BLOB_LEAF_OVERHEAD) with (16 + (zlen plain + 16)) by (blob_consts; lia).
    rewrite <- (slice_app 0 16), <- (slice_app (0 + 16) (zlen plain) 16) by lia. f_equal; [|f_equal].
    + rewrite !slice_blit_disjoint; try (blob_consts; lia). exact Hoc.
    + rewrite slice_blit_disjoint by (blob_consts; lia). rewrite <- Ht. apply slice_blit_same; blob_consts; lia.
    + pose proof (slice_blit_same (16 + zlen plain) tag (blit FZN_COMMITMENT_LEN text o)) as Hs.
      rewrite Hg in Hs. apply Hs; blob_consts; lia.
  - rewrite zlen_blit; blob_consts; lia.
  - rewrite !drop_blit; try (blob_consts; lia). unfold o. rewrite !drop_blit; rewrite ?zlen_blit; blob_consts; lia || done.
Qed.
End Leaves.

Lemma blit_again {A} off (a b l : list A) : 0 <= off -> zlen a = zlen b -> off + zlen a <= zlen l ->
  blit off b (blit off a l) = blit off b l.
Proof.
  intros Ho Hab Hl. apply list_eq. intros j. rewrite lookup_blit by (rewrite ?zlen_blit; lia).
  rewrite (lookup_blit _ b) by lia. case_bool_decide as E; [done|].
  rewrite lookup_blit by lia. by rewrite bool_decide_eq_false_2 by lia.
Qed.

(** A leaf sealed at an index opens there, under the blob's key, to the
    bytes that went in, 32 bytes having been added and nothing of the caller's
    buffers touched past them; it opens nowhere else and under no other key: whatever index
    and key derive another commitment are refused before the cipher is asked
    and before a byte is written. *)
Theorem leaf_roundtrip (hash : fzn_hash_ops) aead seal open key i plain out sealed n buf :
  aead_ok aead seal open ->
  (forall x d, hash FZN_BLOB_DERIVED_LEN x = Some d -> zlen d = FZN_BLOB_DERIVED_LEN) ->
  fzn_blob_leaf_seal (Some (Some hash)) (Some aead) key i plain out = (FZN_BLOB_OK, sealed, Some n) ->
  zlen plain <= zlen buf ->
  n = zlen plain + FZN_BLOB_LEAF_OVERHEAD /\ zlen sealed = zlen out /\
  drop (Z.to_nat n) sealed = drop (Z.to_nat n) out /\
  fzn_blob_leaf_open (Some (Some hash)) (Some aead) key i (slice 0 n sealed) buf
  = (FZN_BLOB_OK, blit 0 plain buf, Some (zlen plain)) /\
  (forall key' j k c k' c', fzn_blob_derive_leaf (Some (Some hash)) key i = (FZN_BLOB_OK, Some (k, c)) ->
    fzn_blob_derive_leaf (Some (Some hash)) key' j = (FZN_BLOB_OK, Some (k', c')) -> c <> c' ->
    fzn_blob_leaf_open (Some (Some hash)) (Some aead) key' j (slice 0 n sealed) buf
    = (FZN_BLOB_ERR_COMMITMENT, buf, None)).
Proof.
  intros Haead Hhash Hs Hbuf.
  destruct (seal_holds _ _ _ _ Haead Hhash _ _ _ _ _ _ Hs) as (k & c & text & tag & Hd & Hp & -> & Hsl & Hz & Hdrop & Ht & Hg & Ho).
  destruct (derive_lens _ Hhash _ _ _ _ Hd) as [_ Hc].
  assert (zlen (c ++ text ++ tag) = zlen plain + FZN_BLOB_LEAF_OVERHEAD) as Hzs by (rewrite !zlen_app; blob_consts; lia).
  do 3 (split; [done|]). rewrite Hsl. unfold fzn_blob_leaf_open. cbn [mbind option_bind].
  rewrite (ao_open _ _ _ Haead), Hzs. destruct (Z.leb_spec (zlen plain + FZN_BLOB_LEAF_OVERHEAD) FZN_BLOB_LEAF_OVERHEAD);
    [lia|]. destruct (Z.gtb_spec (zlen plain + FZN_BLOB_LEAF_OVERHEAD) FZN_BLOB_SEALED_MAX); [blob_consts; lia|]. cbn [orb].
  replace (zlen plain + FZN_BLOB_LEAF_OVERHEAD - FZN_BLOB_LEAF_OVERHEAD) with (zlen plain) by lia.
  destruct (Z.ltb_spec (zlen buf) (zlen plain)); [lia|].
  assert (slice 0 FZN_COMMITMENT_LEN (c ++ text ++ tag) = c) as Hq0 by (apply (slice_mid [] c); done).
  assert (slice FZN_COMMITMENT_LEN (zlen plain) (c ++ text ++ tag) = text) as Hq1 by (by apply slice_mid).
  assert (slice (FZN_COMMITMENT_LEN + zlen plain) FZN_AEAD_TAG_LEN (c ++ text ++ tag) = tag) as Hq2.
  { rewrite app_assoc. pose proof (slice_mid (c ++ text) tag [] (FZN_COMMITMENT_LEN + zlen plain) FZN_AEAD_TAG_LEN) as Q.
    rewrite app_nil_r in Q. apply Q; [rewrite zlen_app; lia|done]. }
  rewrite Hq0. split.
  - rewrite Hd, memeq_refl. cbn [negb]. rewrite Hq1, Hq2.
    pose proof (slice_blit_same 0 text buf ltac:(lia)) as Hb. rewrite Ht in Hb. rewrite Hb by lia. rewrite Ho. cbn [negb].
    rewrite blit_again by lia. done.
  - intros key' j k0 c0 k' c' Hd0 Hd' Hne. rewrite Hd'. replace c0 with c in * by congruence.
    destruct (memeq c c') eqn:E; [by apply memeq_true in E|done].
Qed.

(** Sixteen bytes of commitment that tell leaves apart by their index. *)
Definition toy_leaf_hash : fzn_hash_ops := fun n b => Some (replicate (Z.to_nat n) (peek b 55)).

Lemma leaf_roundtrip_witness :
  let s := fzn_blob_leaf_seal (Some (Some toy_leaf_hash)) (Some toy_aead) (demo_key 5) 3 [10; 20; 30] (zeros 40) in
  fzn_blob_leaf_open (Some (Some toy_leaf_hash)) (Some toy_aead) (demo_key 5) 3 (slice 0 35 (snd (fst s))) (zeros 4)
  = (FZN_BLOB_OK, [10; 20; 30; 0], Some 3) /\
  fzn_blob_leaf_open (Some (Some toy_leaf_hash)) (Some toy_aead) (demo_key 5) 4 (slice 0 35 (snd (fst s))) (zeros 4)
  = (FZN_BLOB_ERR_COMMITMENT, zeros 4, None).
Proof.
  cbv zeta.
  assert (fzn_blob_leaf_seal (Some (Some toy_leaf_hash)) (Some toy_aead) (demo_key 5) 3 [10; 20; 30] (zeros 40)
    = (FZN_BLOB_OK, snd (fst (fzn_blob_leaf_seal (Some (Some toy_leaf_hash)) (Some toy_aead) (demo_key 5) 3 [10; 20; 30] (zeros 40))),
       Some 35)) as E by (vm_compute; reflexivity).
  destruct (leaf_roundtrip toy_leaf_hash toy_aead toy_seal toy_open (demo_key 5) 3 [10; 20; 30] (zeros 40) _ 35 (zeros 4) toy_aead_ok
    ltac:(intros x d [= <-]; reflexivity) E ltac:(vm_compute; discriminate)) as (_ & _ & _ & H & Hno).
  split; [exact H|].
  eapply (Hno (demo_key 5) 4);
    [vm_compute; reflexivity|vm_compute; reflexivity|vm_compute; discriminate].
Defined.
