(* ===== verification/BlobTree.v ===== *)
(** * blob/blob.c: the tree of hashes

    The streaming tree, which keeps one hash a level, its root, and the root
    of a run of leaves; and the tree they stand for: RFC 6962's, which splits
    [n] leaves at the largest power of two below [n]. *)

From S2P Require Import Prelude Bytes Revocation Blob.

(** The two arrays have [FZN_BLOB_MAX_DEPTH] entries, [bt_depth] in use. *)
Record fzn_blob_tree := mk_tree {
  bt_stack : list bytes;
  bt_level : list Z;
  bt_depth : Z;
  bt_leaves : Z
}.

Definition fzn_blob_tree_init : fzn_blob_tree :=
  mk_tree (replicate (Z.to_nat FZN_BLOB_MAX_DEPTH) (zeros FZN_BLOB_HASH_LEN)) (zeros FZN_BLOB_MAX_DEPTH) 0 0.

Definition stack_of (t : fzn_blob_tree) (i : Z) : bytes := nth (Z.to_nat i) (bt_stack t) [].
Definition level_of (t : fzn_blob_tree) (i : Z) : Z := nth (Z.to_nat i) (bt_level t) 0.

(** [stack[i] = h; level[i] = l; depth = i + 1] *)
Definition set_top (t : fzn_blob_tree) (i : Z) (h : bytes) (l : Z) : fzn_blob_tree :=
  mk_tree (<[Z.to_nat i := h]> (bt_stack t)) (<[Z.to_nat i := l]> (bt_level t)) (i + 1) (bt_leaves t).

(** The folds of a push, [n] turns at most; a turn takes one off the depth. *)
Fixpoint fold_loop (n : nat) (hash : hash_vtable) (t : fzn_blob_tree) : fzn_blob_err * fzn_blob_tree :=
  match n with
  | O => (FZN_BLOB_OK, t)
  | S n =>
    let d := bt_depth t in
    if (d >=? 2) && (level_of t (d - 1) =? level_of t (d - 2))
    then match fzn_blob_node_hash hash (stack_of t (d - 2)) (stack_of t (d - 1)) with
      | (FZN_BLOB_OK, Some h) => fold_loop n hash (set_top t (d - 2) h (u8 (level_of t (d - 2) + 1)))
      | (err, _) => (err, t)
      end
    else (FZN_BLOB_OK, t)
  end.

Definition fzn_blob_tree_push (hash : hash_vtable) (t : fzn_blob_tree) (leaf_hash : bytes) : fzn_blob_err * fzn_blob_tree :=
  match hash with
  | None => (FZN_BLOB_ERR_MALFORMED, t)
  | Some _ =>
    if bt_leaves t >=? FZN_BLOB_MAX_LEAVES then (FZN_BLOB_ERR_FULL, t)
    else if bt_depth t >=? FZN_BLOB_MAX_DEPTH then (FZN_BLOB_ERR_FULL, t)
    else
      let t := set_top t (bt_depth t) leaf_hash 0 in
      match fold_loop (Z.to_nat (bt_depth t)) hash t with
      | (FZN_BLOB_OK, t) => (FZN_BLOB_OK, mk_tree (bt_stack t) (bt_level t) (bt_depth t) (bt_leaves t + 1))
      | (err, t) => (err, t)
      end
  end.

(** The stack below [i] folded onto [acc]. *)
Fixpoint apex_loop (i : nat) (hash : hash_vtable) (t : fzn_blob_tree) (acc : bytes) : fzn_blob_err * option bytes :=
  match i with
  | O => (FZN_BLOB_OK, Some acc)
  | S i =>
    match fzn_blob_node_hash hash (stack_of t (Z.of_nat i)) acc with
    | (FZN_BLOB_OK, Some acc) => apex_loop i hash t acc
    | (err, _) => (err, None)
    end
  end.

Definition tree_apex (hash : hash_vtable) (t : fzn_blob_tree) : fzn_blob_err * option bytes :=
  if bt_depth t =? 0 then (FZN_BLOB_ERR_MALFORMED, None)
  else apex_loop (Z.to_nat (bt_depth t - 1)) hash t (stack_of t (bt_depth t - 1)).

(** The source calls [hash->hash] untested: [fzn_blob_proof_verify] alone can
    come here with a vtable that lacks it, which the model answers as
    malformed. *)
Definition finalise_root (hash : hash_vtable) (apex : bytes) (leaf_count : Z) : fzn_blob_err * option bytes :=
  match hash with
  | Some (Some hash) =>
    match hash FZN_BLOB_HASH_LEN (FZN_BLOB_ROOT_LABEL ++ be64 leaf_count ++ apex) with
    | None => (FZN_BLOB_ERR_HASH, None)
    | Some h => (FZN_BLOB_OK, Some h)
    end
  | _ => (FZN_BLOB_ERR_MALFORMED, None)
  end.

Definition fzn_blob_tree_root (hash : hash_vtable) (t : fzn_blob_tree) : fzn_blob_err * option bytes :=
  match hash with
  | Some (Some _) =>
    if bt_depth t =? 0 then (FZN_BLOB_ERR_MALFORMED, None)
    else match tree_apex hash t with
    | (FZN_BLOB_OK, Some apex) => finalise_root hash apex (bt_leaves t)
    | (err, _) => (err, None)
    end
  | _ => (FZN_BLOB_ERR_MALFORMED, None)
  end.

(** [while ((k << 1) < n) k <<= 1;], [turns] at most: a 64-bit [k] shifts 64 times. *)
Fixpoint split_loop (turns : nat) (n k : Z) : Z :=
  match turns with
  | O => k
  | S turns => if u64 (Z.shiftl k 1) <? n then split_loop turns n (u64 (Z.shiftl k 1)) else k
  end.

Definition split_at (n : Z) : Z := split_loop 64 n 1.

(** Hash [i] of an array of hashes. *)
Definition hash_at (leaf_hashes : bytes) (i : Z) : bytes := slice (i * FZN_BLOB_HASH_LEN) FZN_BLOB_HASH_LEN leaf_hashes.

(** [n] leaves from [i] on, pushed. *)
Fixpoint push_loop (n : nat) (hash : hash_vtable) (leaf_hashes : bytes) (i : Z) (t : fzn_blob_tree)
    : fzn_blob_err * fzn_blob_tree :=
  match n with
  | O => (FZN_BLOB_OK, t)
  | S n =>
    match fzn_blob_tree_push hash t (hash_at leaf_hashes i) with
    | (FZN_BLOB_OK, t) => push_loop n hash leaf_hashes (i + 1) t
    | (err, t) => (err, t)
    end
  end.

Definition subtree_root (hash : hash_vtable) (leaf_hashes : bytes) (lo n : Z) : fzn_blob_err * option bytes :=
  if n =? 0 then (FZN_BLOB_ERR_MALFORMED, None)
  else match push_loop (Z.to_nat n) hash leaf_hashes lo fzn_blob_tree_init with
  | (FZN_BLOB_OK, t) => tree_apex hash t
  | (err, _) => (err, None)
  end.

(** ** The tree they stand for *)

Section Merkle.
Context (hash : fzn_hash_ops).

Definition node (a b : bytes) : option bytes := hash FZN_BLOB_HASH_LEN ([FZN_BLOB_NODE_PREFIX] ++ a ++ b).

(** The hash of the tree over a run of leaves: a leaf's own, or a node over
    the largest power of two of leaves short of all of them, and the rest. *)
Inductive apex : list bytes -> bytes -> Prop :=
| apex_leaf h : apex [h] h
| apex_node k l r a b c : 0 <= k -> zlen l = 2 ^ k -> 0 < zlen r <= zlen l ->
    apex l a -> apex r b -> node a b = Some c -> apex (l ++ r) c.

Lemma node_hash_of a b h : fzn_blob_node_hash (Some (Some hash)) a b = (FZN_BLOB_OK, Some h) <-> node a b = Some h.
Proof. unfold fzn_blob_node_hash, node. destruct (hash _ _); split; congruence. Qed.

Lemma node_hash_cases a b :
  fzn_blob_node_hash (Some (Some hash)) a b
  = match node a b with Some h => (FZN_BLOB_OK, Some h) | None => (FZN_BLOB_ERR_HASH, None) end.
Proof. unfold fzn_blob_node_hash, node. by destruct (hash _ _). Qed.

Lemma apex_nonempty l h : apex l h -> 0 < zlen l.
Proof. induction 1; [done|]. rewrite zlen_app. lia. Qed.

(** Where a run splits: the power of two is the only one. *)
Lemma split_unique k k' n : 0 <= k -> 0 <= k' -> 2 ^ k < n <= 2 ^ k + 2 ^ k -> 2 ^ k' < n <= 2 ^ k' + 2 ^ k' -> k = k'.
Proof.
  intros Hk Hk' H H'. destruct (Z.lt_trichotomy k k') as [Hlt|[->|Hlt]]; [|done|].
  - pose proof (Z.pow_le_mono_r 2 (k + 1) k' ltac:(lia) ltac:(lia)) as Hp.
    rewrite Z.pow_add_r in Hp by lia. lia.
  - pose proof (Z.pow_le_mono_r 2 (k' + 1) k ltac:(lia) ltac:(lia)) as Hp.
    rewrite Z.pow_add_r in Hp by lia. lia.
Qed.

Lemma apex_inv k l r h : 0 <= k -> zlen l = 2 ^ k -> 0 < zlen r <= zlen l -> apex (l ++ r) h ->
  exists a b, apex l a /\ apex r b /\ node a b = Some h.
Proof.
  intros Hk Hl Hr H. pose proof (Z.pow_pos_nonneg 2 k ltac:(lia) Hk). inversion H as [h' E|k' l' r' a b c Hk' Hl' Hr' Ha Hb Hn E].
  - apply (f_equal zlen) in E. rewrite zlen_app in E. change (zlen [h']) with 1 in E. lia.
  - subst c. assert (zlen (l' ++ r') = zlen (l ++ r)) as Ez by (by rewrite E). rewrite !zlen_app in Ez.
    assert (k' = k) as -> by (apply (split_unique k' k (zlen l + zlen r)); lia).
    apply app_inj_1 in E as [-> ->]; [by exists a, b|]. unfold zlen in *. lia.
Qed.

Lemma apex_det l : forall a b, apex l a -> apex l b -> a = b.
Proof.
  intros a b H. revert b. induction H as [h|k l r a a' c Hk Hl Hr _ IHl _ IHr Hn]; intros b Hb.
  - inversion Hb as [|k l r ? ? ? Hk Hl Hr ? ? ? E]; [done|]. apply (f_equal zlen) in E. rewrite zlen_app in E.
    pose proof (Z.pow_pos_nonneg 2 k ltac:(lia) Hk). change (zlen [h]) with 1 in E. lia.
  - destruct (apex_inv _ _ _ _ Hk Hl Hr Hb) as (x & y & Hx & Hy & Hxy).
    rewrite (IHl _ Hx), (IHr _ Hy) in Hn. congruence.
Qed.

(** [split_at] is where the tree splits. *)
Lemma split_loop_spec turns : forall n k, 0 <= k -> 2 ^ k < n <= 2 ^ 63 -> n <= 2 ^ (k + Z.of_nat turns) ->
  exists k', k <= k' /\ split_loop turns n (2 ^ k) = 2 ^ k' /\ 2 ^ k' < n <= 2 ^ k' + 2 ^ k'.
Proof.
  induction turns as [|turns IH]; intros n k Hk Hn Hb.
  { rewrite Z.add_0_r in Hb. lia. }
  cbn [split_loop]. assert (k < 63) as Hk63.
  { apply (Z.pow_lt_mono_r_iff 2); lia. }
  assert (u64 (Z.shiftl (2 ^ k) 1) = 2 ^ (k + 1)) as ->.
  { rewrite Z.shiftl_mul_pow2, <- Z.pow_add_r by lia. apply u64_small.
    pose proof (Z.pow_le_mono_r 2 (k + 1) 63 ltac:(lia) ltac:(lia)).
    pose proof (Z.pow_pos_nonneg 2 (k + 1) ltac:(lia) ltac:(lia)).
    change (2 ^ 63) with 9223372036854775808 in *. width. lia. }
  destruct (Z.ltb_spec (2 ^ (k + 1)) n) as [Hlt|Hge].
  - destruct (IH n (k + 1) ltac:(lia) ltac:(lia)) as (k' & Hle & -> & H').
    { by replace (k + 1 + Z.of_nat turns) with (k + Z.of_nat (S turns)) by lia. }
    exists k'. split_and!; [lia|done|lia..].
  - exists k. rewrite Z.pow_add_r in Hge by lia. split_and!; [lia|done|lia..].
Qed.

Lemma split_at_spec n : 1 < n <= 2 ^ 63 ->
  exists k, 0 <= k /\ split_at n = 2 ^ k /\ 2 ^ k < n <= 2 ^ k + 2 ^ k.
Proof. intros Hn. apply (split_loop_spec 64 n 0); [lia|done|]. etrans; [apply Hn|]. by apply Z.pow_le_mono_r. Qed.
End Merkle.

(** ** The stack *)

(** The hashes in use with their levels, the highest first. *)
Definition entries (t : fzn_blob_tree) : list (bytes * Z) :=
  zip (take (Z.to_nat (bt_depth t)) (bt_stack t)) (take (Z.to_nat (bt_depth t)) (bt_level t)).

Record arrays_ok (t : fzn_blob_tree) : Prop := {
  ar_stack : length (bt_stack t) = Z.to_nat FZN_BLOB_MAX_DEPTH;
  ar_level : length (bt_level t) = Z.to_nat FZN_BLOB_MAX_DEPTH;
  ar_depth : 0 <= bt_depth t <= FZN_BLOB_MAX_DEPTH
}.

Lemma zlen_entries t : arrays_ok t -> zlen (entries t) = bt_depth t.
Proof.
  intros [Hs Hl Hd]. unfold entries, zlen. rewrite length_zip_with, !length_take, Hs, Hl.
  change FZN_BLOB_MAX_DEPTH with 40 in *. lia.
Qed.

Lemma entries_lookup t i h l : entries t !! i = Some (h, l) -> stack_of t (Z.of_nat i) = h /\ level_of t (Z.of_nat i) = l.
Proof.
  intros H. apply lookup_zip_with_Some in H as (x & y & [= <- <-] & Hx & Hy).
  apply lookup_take_Some in Hx as [Hx _], Hy as [Hy _]. unfold stack_of, level_of. rewrite Nat2Z.id.
  split; by apply nth_lookup_Some.
Qed.

(** A store at the top of the stack, or below it. *)
Lemma entries_set_top t i h l : arrays_ok t -> 0 <= i <= bt_depth t -> i < FZN_BLOB_MAX_DEPTH ->
  arrays_ok (set_top t i h l) /\ entries (set_top t i h l) = take (Z.to_nat i) (entries t) ++ [(h, l)].
Proof.
  intros [Hs Hl Hd] Hi Hm. split.
  - split; cbn; rewrite ?length_insert; [done..|lia].
  - unfold entries. cbn [set_top bt_stack bt_level bt_depth].
    replace (Z.to_nat (i + 1)) with (S (Z.to_nat i)) by lia.
    rewrite !take_write by lia. rewrite zip_with_app by (rewrite !length_take; lia). cbn.
    rewrite zip_with_take, !take_take. by replace (Z.to_nat i `min` Z.to_nat (bt_depth t))%nat with (Z.to_nat i) by lia.
Qed.

(** A turn of the folds, two entries there. *)
Lemma fold_step n hash t es h' l' h l : arrays_ok t -> entries t = es ++ [(h', l'); (h, l)] ->
  fold_loop (S n) hash t
  = (if l =? l' then match fzn_blob_node_hash hash h' h with
      | (FZN_BLOB_OK, Some c) => fold_loop n hash (set_top t (bt_depth t - 2) c (u8 (l' + 1)))
      | (err, _) => (err, t)
      end else (FZN_BLOB_OK, t)) /\
  forall c k, arrays_ok (set_top t (bt_depth t - 2) c k) /\ entries (set_top t (bt_depth t - 2) c k) = es ++ [(c, k)].
Proof.
  intros Ht He. pose proof (zlen_entries t Ht) as Hz. rewrite He in Hz. rewrite zlen_app in Hz.
  change (zlen [(h', l'); (h, l)]) with 2 in Hz. pose proof (zlen_nonneg es).
  destruct (entries_lookup t (length es) h' l') as [Hs' Hl'].
  { rewrite He, lookup_app_r, Nat.sub_diag by lia. done. }
  destruct (entries_lookup t (S (length es)) h l) as [Hs Hl].
  { rewrite He, lookup_app_r by lia. by replace (S (length es) - length es)%nat with 1%nat by lia. }
  replace (Z.of_nat (length es)) with (bt_depth t - 2) in * by (unfold zlen in *; lia).
  replace (Z.of_nat (S (length es))) with (bt_depth t - 1) in * by (unfold zlen in *; lia).
  split.
  - cbn [fold_loop]. destruct (Z.geb_spec (bt_depth t) 2); [|lia]. cbn [andb]. by rewrite Hs, Hs', Hl, Hl'.
  - intros c k. pose proof (ar_depth _ Ht).
    destruct (entries_set_top t (bt_depth t - 2) c k Ht ltac:(lia) ltac:(lia)) as [H1 H2]. split; [done|].
    rewrite H2, He. f_equal. apply take_app_length'. unfold zlen in *. lia.
Qed.

Lemma fold_stops n hash t e : arrays_ok t -> entries t = [e] -> fold_loop n hash t = (FZN_BLOB_OK, t).
Proof.
  intros Ht He. pose proof (zlen_entries t Ht) as Hz. rewrite He in Hz. change (zlen [e]) with 1 in Hz.
  destruct n as [|n]; [done|]. cbn [fold_loop]. by rewrite <- Hz.
Qed.

(** ** Its levels: a binary counter *)

(** Levels that fall from the bottom of the stack, and the leaves below them. *)
Inductive falling : list Z -> Z -> Prop :=
| falling_nil : falling [] 0
| falling_snoc ls s l : falling ls s -> 0 <= l -> Forall (Z.lt l) ls -> falling (ls ++ [l]) (s + 2 ^ l).

Lemma above_le m l ls : m <= l + 1 -> Forall (Z.lt l) ls -> Forall (Z.le m) ls.
Proof. intros Hm H. eapply Forall_impl; [|exact H]. cbn. lia. Qed.

Lemma falling_least ls s : falling ls s -> forall m, 0 <= m -> Forall (Z.le m) ls -> 2 ^ m * (2 ^ zlen ls - 1) <= s.
Proof.
  induction 1 as [|ls s l _ IH Hl Hf]; intros m Hm Hle; [change (2 ^ zlen (A:=Z) []) with 1; lia|].
  apply Forall_app in Hle as [_ Hle]. apply Forall_cons_iff in Hle as [Hle _].
  specialize (IH (l + 1) ltac:(lia) ltac:(by apply (above_le _ l); [lia|])).
  rewrite zlen_snoc, Z.pow_add_r by (auto using zlen_nonneg; lia). rewrite Z.pow_add_r in IH by lia.
  pose proof (Z.pow_le_mono_r 2 m l ltac:(lia) ltac:(lia)).
  pose proof (Z.pow_pos_nonneg 2 (zlen ls) ltac:(lia) (zlen_nonneg ls)). nia.
Qed.

Lemma falling_divides ls s : falling ls s -> forall m, 0 <= m -> Forall (Z.le m) ls -> (2 ^ m | s).
Proof.
  induction 1 as [|ls s l _ IH Hl Hf]; intros m Hm Hle; [apply Z.divide_0_r|].
  apply Forall_app in Hle as [Hles Hle]. apply Forall_cons_iff in Hle as [Hle _].
  apply Z.divide_add_r; [by apply IH|]. exists (2 ^ (l - m)). rewrite <- Z.pow_add_r by lia. f_equal. lia.
Qed.

(** All ones takes an entry a level. *)
Lemma falling_ones ls s : falling ls s -> forall m top, 0 <= m <= top -> Forall (Z.le m) ls -> s = 2 ^ top - 2 ^ m ->
  zlen ls = top - m.
Proof.
  induction 1 as [|ls s l Hls IH Hl Hf]; intros m top Hm Hle Hs.
  - destruct (Z.eq_dec m top) as [->|]; [change (zlen (A:=Z) []) with 0; lia|].
    pose proof (Z.pow_lt_mono_r 2 m top ltac:(lia) ltac:(lia) ltac:(lia)). lia.
  - apply Forall_app in Hle as [Hles Hle]. apply Forall_cons_iff in Hle as [Hle _].
    assert (Forall (Z.le (l + 1)) ls) as Hf' by (by apply (above_le _ l); [lia|]).
    assert (m < top) as Hmt.
    { destruct (Z.eq_dec m top) as [->|]; [|lia]. pose proof (Z.pow_pos_nonneg 2 l ltac:(lia) Hl).
      pose proof (falling_least _ _ Hls 0 ltac:(lia) ltac:(by apply (above_le _ l); [lia|])) as Hge.
      change (2 ^ 0) with 1 in Hge. pose proof (Z.pow_pos_nonneg 2 (zlen ls) ltac:(lia) (zlen_nonneg ls)). lia. }
    destruct (falling_divides _ _ Hls (l + 1) ltac:(lia) Hf') as [q Hq].
    assert (l = m) as ->.
    { destruct (Z.eq_dec l m) as [|Hne]; [done|]. exfalso.
      assert (2 ^ top = 2 ^ (top - (m + 1)) * (2 * 2 ^ m)) as Et
        by (rewrite <- Z.pow_succ_r, <- Z.pow_add_r by lia; f_equal; lia).
      assert (2 ^ (l + 1) = 2 ^ (l - m) * (2 * 2 ^ m)) as El
        by (rewrite <- Z.pow_succ_r, <- Z.pow_add_r by lia; f_equal; lia).
      assert (2 ^ l = 2 ^ (l - (m + 1)) * (2 * 2 ^ m)) as El'
        by (rewrite <- Z.pow_succ_r, <- Z.pow_add_r by lia; f_equal; lia).
      pose proof (Z.pow_pos_nonneg 2 m ltac:(lia) ltac:(lia)). rewrite Hq, Et, El, El' in Hs.
      assert (2 ^ m * (2 * (q * 2 ^ (l - m) + 2 ^ (l - (m + 1)) - 2 ^ (top - (m + 1))) + 1) = 0) as Ez by lia.
      apply Z.mul_eq_0 in Ez. lia. }
    rewrite zlen_snoc, (IH (m + 1) top ltac:(lia) Hf'); [lia|]. rewrite Z.pow_add_r by lia. lia.
Qed.

(** ** What the stack holds *)

Section Stacked.
Context (hash : fzn_hash_ops) (R : list bytes -> bytes -> Prop).
Hypothesis Hnode : forall k l r a b c, 0 <= k -> zlen l = 2 ^ k -> zlen r = 2 ^ k -> R l a -> R r b ->
  node hash a b = Some c -> R (l ++ r) c.

(** Each entry stands for a run of leaves, a power of two of them, and the
    runs make up what was pushed. *)
Inductive stacked : list (bytes * Z) -> list bytes -> Prop :=
| stacked_nil : stacked [] []
| stacked_snoc es ls h l b : stacked es ls -> 0 <= l -> Forall (Z.lt l) es.*2 -> zlen b = 2 ^ l -> R b h ->
    stacked (es ++ [(h, l)]) (ls ++ b).

Lemma stacked_snoc_inv es h l ls : stacked (es ++ [(h, l)]) ls ->
  exists ls' b, ls = ls' ++ b /\ stacked es ls' /\ 0 <= l /\ Forall (Z.lt l) es.*2 /\ zlen b = 2 ^ l /\ R b h.
Proof.
  inversion 1 as [E|es' ls' h' l' b ? ? ? ? ? E]; [by destruct es|].
  apply app_inj_tail in E as [-> [= -> ->]]. by exists ls', b.
Qed.

Lemma stacked_falling es ls : stacked es ls -> falling es.*2 (zlen ls).
Proof.
  induction 1 as [|es ls h l b _ IH Hl Hf Hb _]; [constructor|]. rewrite fmap_app, zlen_app, Hb. by constructor.
Qed.

(** The folds of a push restore it, or the hash refuses. *)
Lemma fold_stacked n : forall t es h l ls b,
  arrays_ok t -> entries t = es ++ [(h, l)] -> stacked es ls -> 0 <= l -> Forall (Z.le l) es.*2 -> zlen b = 2 ^ l ->
  R b h -> (length es <= n)%nat -> zlen ls + zlen b <= FZN_BLOB_MAX_LEAVES ->
  match fold_loop n (Some (Some hash)) t with
  | (FZN_BLOB_OK, t') => arrays_ok t' /\ stacked (entries t') (ls ++ b) /\ bt_leaves t' = bt_leaves t
  | (FZN_BLOB_ERR_HASH, _) => exists x y, node hash x y = None
  | _ => False
  end.
Proof.
  induction n as [|n IH]; intros t es h l ls b Ht He Hs Hl Hle Hb HR Hn Hm;
    destruct es as [|[h' l'] es _] using rev_ind; try (rewrite length_app in Hn; cbn in Hn; lia);
    try (rewrite (fold_stops _ _ _ _ Ht He), He; split_and!; [done| |done]; by constructor).
  rewrite <- app_assoc in He. destruct (fold_step n (Some (Some hash)) _ _ _ _ _ _ Ht He) as [-> Hnext].
  destruct (stacked_snoc_inv _ _ _ _ Hs) as (ls' & b' & -> & Hs' & Hl' & Hf' & Hb' & HR').
  rewrite fmap_app in Hle. apply Forall_app in Hle as [_ Hle]. apply Forall_cons_iff in Hle as [Hle _]. cbn in Hle.
  destruct (Z.eqb_spec l l') as [->|Hne].
  - rewrite node_hash_cases. destruct (node hash h' h) as [c|] eqn:Ec; [|by eauto].
    destruct (Hnext c (u8 (l' + 1))) as [Ht1 He1].
    assert (l' <= 40) as Hl40.
    { apply (Z.pow_le_mono_r_iff 2); [lia..|]. rewrite zlen_app in Hm. change (2 ^ 40) with FZN_BLOB_MAX_LEAVES.
      pose proof (zlen_nonneg ls'). pose proof (zlen_nonneg b). lia. }
    rewrite u8_small in * by (width; lia).
    rewrite <- app_assoc. change (bt_leaves t) with (bt_leaves (set_top t (bt_depth t - 2) c (l' + 1))).
    apply (IH _ es c (l' + 1) ls' (b' ++ b)); try done.
    + lia.
    + by apply (above_le _ l'); [lia|].
    + rewrite zlen_app, Hb, Hb', Z.pow_add_r by lia. lia.
    + by apply (Hnode l' b' b h' h c).
    + rewrite length_app in Hn. cbn in Hn. lia.
    + rewrite !zlen_app in *. lia.
  - rewrite He, app_assoc. split_and!; [done| |done]. constructor; try done.
    rewrite fmap_app. apply Forall_app. split; [|by repeat constructor; cbn; lia].
    eapply Forall_impl; [|exact Hf']. cbn. lia.
Qed.

Lemma push_stacked t ls leaf : arrays_ok t -> stacked (entries t) ls -> bt_leaves t = zlen ls -> R [leaf] leaf ->
  bt_leaves t < FZN_BLOB_MAX_LEAVES -> bt_depth t < FZN_BLOB_MAX_DEPTH ->
  match fzn_blob_tree_push (Some (Some hash)) t leaf with
  | (FZN_BLOB_OK, t') => arrays_ok t' /\ stacked (entries t') (ls ++ [leaf]) /\ bt_leaves t' = bt_leaves t + 1
  | (FZN_BLOB_ERR_HASH, _) => exists x y, node hash x y = None
  | _ => False
  end.
Proof.
  intros Ht Hs Hn HR Hm Hd. unfold fzn_blob_tree_push.
  destruct (Z.geb_spec (bt_leaves t) FZN_BLOB_MAX_LEAVES); [lia|]. destruct (Z.geb_spec (bt_depth t) FZN_BLOB_MAX_DEPTH); [lia|].
  pose proof (ar_depth _ Ht) as Hd0. destruct (entries_set_top t (bt_depth t) leaf 0 Ht ltac:(lia) Hd) as [Ht1 He1].
  pose proof (zlen_entries t Ht) as Hz. rewrite take_ge in He1 by (unfold zlen in Hz; lia).
  pose proof (fold_stacked (Z.to_nat (bt_depth (set_top t (bt_depth t) leaf 0))) _ _ _ _ _ [leaf] Ht1 He1 Hs) as Hfold.
  destruct (fold_loop _ _ _) as [err t'].
  assert (match err with
    | FZN_BLOB_OK => arrays_ok t' /\ stacked (entries t') (ls ++ [leaf]) /\ bt_leaves t' = bt_leaves (set_top t (bt_depth t) leaf 0)
    | FZN_BLOB_ERR_HASH => exists x y, node hash x y = None | _ => False end) as Hres.
  { apply Hfold; [lia| |done|done| |].
    - pose proof (stacked_falling _ _ Hs) as Hf. clear -Hf. induction Hf; [done|]. apply Forall_app. split; [done|by constructor].
    - cbn [set_top bt_depth]. unfold zlen in Hz. lia.
    - change (zlen [leaf]) with 1. lia. }
  destruct err; try done. destruct Hres as ([Ha1 Ha2 Ha3] & H2 & H3). split_and!; [by split|done|]. cbn in *. lia.
Qed.
End Stacked.

(** ** The bound *)

(** Between pushes: an entry for each one in the binary count of the leaves. *)
Record tree_ok (t : fzn_blob_tree) : Prop := {
  to_arrays : arrays_ok t;
  to_levels : falling (entries t).*2 (bt_leaves t);
  to_leaves : bt_leaves t < FZN_BLOB_MAX_LEAVES
}.

Lemma falling_stacked ls s : falling ls s -> forall es, es.*2 = ls ->
  exists leaves, stacked (fun _ _ => True) es leaves /\ zlen leaves = s.
Proof.
  induction 1 as [|ls s l _ IH Hl Hf]; intros es He.
  - apply fmap_nil_inv in He as ->. exists []. split; [constructor|done].
  - apply fmap_app_inv in He as (es1 & es2 & H1 & H2 & ->). symmetry in H1, H2.
    destruct es2 as [|[h l2] [|]]; [done| |done]. injection H2 as ->.
    destruct (IH _ H1) as (leaves & Hs & Hz).
    assert (zlen (replicate (Z.to_nat (2 ^ l)) ([] : bytes)) = 2 ^ l) as Hr.
    { unfold zlen. rewrite length_replicate. pose proof (Z.pow_pos_nonneg 2 l ltac:(lia) Hl). lia. }
    exists (leaves ++ replicate (Z.to_nat (2 ^ l)) []). rewrite zlen_app, Hz, Hr. split; [|done]. constructor; try done. by rewrite H1.
Qed.

(** The stack is full one leaf before the blob is. *)
Lemma tree_depth t : tree_ok t -> (bt_depth t >= FZN_BLOB_MAX_DEPTH <-> bt_leaves t = FZN_BLOB_MAX_LEAVES - 1).
Proof.
  intros [Ha Hf Hl]. pose proof (zlen_entries t Ha) as Hz. pose proof (ar_depth _ Ha) as Hd.
  assert (zlen (entries t).*2 = bt_depth t) as Hz' by (rewrite <- Hz; unfold zlen; by rewrite length_fmap).
  assert (Forall (Z.le 0) (entries t).*2) as H0.
  { clear -Hf. induction Hf; [done|]. apply Forall_app. split; [done|by constructor]. }
  change FZN_BLOB_MAX_DEPTH with 40 in *. change FZN_BLOB_MAX_LEAVES with (2 ^ 40) in *. split.
  - intros. pose proof (falling_least _ _ Hf 0 ltac:(lia) H0) as Hge. rewrite Hz' in Hge.
    replace (bt_depth t) with 40 in Hge by lia. lia.
  - intros He. pose proof (falling_ones _ _ Hf 0 40 ltac:(lia) H0 He). lia.
Qed.

Lemma tree_init_arrays : arrays_ok fzn_blob_tree_init.
Proof. split; [reflexivity|reflexivity|done]. Qed.

(** The streaming tree stays in its arrays whatever is pushed, keeps one
    hash for each one in the binary count of its leaves, and takes every leaf
    up to the 2^40th, which it refuses as full although a blob of the largest
    length the library accepts has 2^40 leaves. *)
Theorem tree_fills_one_short :
  tree_ok fzn_blob_tree_init /\
  fzn_blob_geometry BLOB_MAX_CONTENT = (FZN_BLOB_OK, Some (FZN_BLOB_MAX_LEAVES, FZN_BLOB_LEAF_SIZE)) /\
  forall hash t leaf, tree_ok t ->
    match fzn_blob_tree_push (Some (Some hash)) t leaf with
    | (FZN_BLOB_OK, t') => tree_ok t' /\ bt_leaves t' = bt_leaves t + 1 /\ bt_leaves t < FZN_BLOB_MAX_LEAVES - 1
    | (FZN_BLOB_ERR_FULL, t') => t' = t /\ bt_leaves t = FZN_BLOB_MAX_LEAVES - 1
    | (FZN_BLOB_ERR_HASH, _) => (exists x y, node hash x y = None) /\ bt_leaves t < FZN_BLOB_MAX_LEAVES - 1
    | _ => False
    end.
Proof.
  split_and!; [split; [exact tree_init_arrays|constructor|done]|reflexivity|]. intros hash t leaf Ht.
  pose proof (tree_depth t Ht) as Hd. destruct Ht as [Ha Hf Hl].
  destruct (falling_stacked _ _ Hf (entries t) eq_refl) as (ls & Hs & Hz).
  destruct (Z.geb_spec (bt_depth t) FZN_BLOB_MAX_DEPTH) as [Hge|Hlt].
  - unfold fzn_blob_tree_push. destruct (Z.geb_spec (bt_leaves t) FZN_BLOB_MAX_LEAVES); [lia|].
    destruct (Z.geb_spec (bt_depth t) FZN_BLOB_MAX_DEPTH); [|lia]. split; [done|]. apply Hd. lia.
  - pose proof (push_stacked hash (fun _ _ => True) ltac:(done) t ls leaf Ha Hs ltac:(lia) I Hl Hlt) as Hp.
    destruct (fzn_blob_tree_push _ t leaf) as [[] t']; try done; [|split; [done|lia]].
    destruct Hp as (Ha' & Hs' & Hn). split_and!; [|done|lia]. split; [done| |lia].
    rewrite Hn, <- Hz. apply stacked_falling in Hs'. by rewrite zlen_snoc in Hs'.
Qed.

(** Forty entries: 2^40 - 1 leaves. *)
Definition demo_full_tree : fzn_blob_tree :=
  mk_tree (replicate 40 (zeros 32)) (rev (seqZ 0 40)) 40 (2 ^ 40 - 1).

Lemma demo_falling n : forall m, 0 <= m -> falling (rev (seqZ m (Z.of_nat n))) (2 ^ (m + Z.of_nat n) - 2 ^ m).
Proof.
  induction n as [|n IH]; intros m Hm.
  - rewrite Z.add_0_r, Z.sub_diag. constructor.
  - rewrite seqZ_cons by lia. cbn [rev]. replace (Z.pred (Z.of_nat (S n))) with (Z.of_nat n) by lia.
    replace (2 ^ (m + Z.of_nat (S n)) - 2 ^ m) with (2 ^ (Z.succ m + Z.of_nat n) - 2 ^ Z.succ m + 2 ^ m).
    + constructor; [apply IH; lia|done|]. apply Forall_rev, Forall_forall. intros x Hx.
      apply list_elem_of_In, elem_of_seqZ in Hx. lia.
    + replace (m + Z.of_nat (S n)) with (Z.succ m + Z.of_nat n) by lia. rewrite (Z.pow_succ_r 2 m) by lia. lia.
Qed.

Lemma demo_full_tree_ok : tree_ok demo_full_tree.
Proof. split; [split; [reflexivity|reflexivity|done]|exact (demo_falling 40 0 ltac:(lia))|done]. Qed.

Definition silent_hash : fzn_hash_ops := fun _ _ => None.

Lemma tree_fills_one_short_witness :
  fzn_blob_tree_push (Some (Some silent_hash)) demo_full_tree [] = (FZN_BLOB_ERR_FULL, demo_full_tree) /\
  bt_leaves demo_full_tree = FZN_BLOB_MAX_LEAVES - 1.
Proof.
  split; [vm_compute; reflexivity|].
  pose proof (proj2 (proj2 tree_fills_one_short) silent_hash demo_full_tree [] demo_full_tree_ok) as H.
  assert (fzn_blob_tree_push (Some (Some silent_hash)) demo_full_tree [] = (FZN_BLOB_ERR_FULL, demo_full_tree)) as E
    by (vm_compute; reflexivity).
  rewrite E in H. exact (proj2 H).
Defined.

(** ** The streaming root is the tree's *)

Lemma zlen_concat_all (n : Z) (l : list bytes) : Forall (fun x => zlen x = n) l -> zlen (concat l) = n * zlen l.
Proof.
  induction 1 as [|x l Hx _ IH]; [change (zlen (concat [])) with 0; change (zlen (A:=bytes) []) with 0; lia|].
  cbn [concat]. rewrite zlen_app, IH, Hx. unfold zlen. cbn [length]. lia.
Qed.

Lemma hash_at_concat hs i h : Forall (fun x => zlen x = FZN_BLOB_HASH_LEN) hs -> hs !! i = Some h ->
  hash_at (concat hs) (Z.of_nat i) = h.
Proof.
  intros Hf Hi. unfold hash_at. rewrite <- (take_drop_middle hs i h Hi) at 1. rewrite concat_app. cbn [concat].
  apply slice_mid.
  - rewrite (zlen_concat_all FZN_BLOB_HASH_LEN) by by apply Forall_take. unfold zlen.
    rewrite length_take_le; [lia|]. apply lookup_lt_Some in Hi. lia.
  - eapply Forall_lookup_1 in Hf; [exact Hf|exact Hi].
Qed.

Section Streaming.
Context (hash : fzn_hash_ops).

(** The hash has refused something. *)
Definition refuses : Prop := exists x y, node hash x y = None.

Lemma apex_closed k l r a b c : 0 <= k -> zlen l = 2 ^ k -> zlen r = 2 ^ k -> apex hash l a -> apex hash r b ->
  node hash a b = Some c -> apex hash (l ++ r) c.
Proof. intros Hk Hl Hr. pose proof (Z.pow_pos_nonneg 2 k ltac:(lia) Hk). apply (apex_node hash k); lia || done. Qed.

Abbreviation holds := (stacked (apex hash)).

(** The stack folded onto what hangs right of it. *)
Lemma apex_loop_spec t es : forall rest ls b acc,
  entries t = es ++ rest -> holds es ls -> apex hash b acc -> Forall (fun e => zlen b <= 2 ^ e.2) es ->
  match apex_loop (length es) (Some (Some hash)) t acc with
  | (FZN_BLOB_OK, Some a) => apex hash (ls ++ b) a
  | (FZN_BLOB_ERR_HASH, None) => refuses
  | _ => False
  end.
Proof.
  induction es as [|[h l] es IH] using rev_ind; intros rest ls b acc He Hs Hb Hle.
  { inversion Hs as [|? ? ? ? ? ? ? ? ? ? E]; [done|by destruct es]. }
  destruct (stacked_snoc_inv _ _ _ _ _ Hs) as (ls' & b' & -> & Hs' & Hl & Hf & Hb' & HR).
  rewrite length_app, Nat.add_1_r. cbn [apex_loop].
  destruct (entries_lookup t (length es) h l) as [-> _].
  { rewrite He, <- app_assoc, lookup_app_r, Nat.sub_diag by lia. done. }
  apply Forall_app in Hle as [_ Hle]. apply Forall_cons_iff in Hle as [Hle _]. cbn in Hle.
  rewrite node_hash_cases. destruct (node hash h acc) as [c|] eqn:Ec; [|by exists h, acc].
  pose proof (apex_nonempty _ _ _ Hb). rewrite <- app_assoc in He |- *. apply (IH _ ls' (b' ++ b) c He Hs').
  - apply (apex_node hash l _ _ h acc); lia || done.
  - rewrite zlen_app. rewrite Forall_fmap in Hf. eapply Forall_impl; [|exact Hf]. intros [x k] Hk. cbn in *.
    pose proof (Z.pow_le_mono_r 2 (l + 1) k ltac:(lia) ltac:(lia)) as Hp. rewrite Z.pow_add_r in Hp by lia. lia.
Qed.

Lemma tree_apex_spec t ls : arrays_ok t -> holds (entries t) ls -> ls <> [] ->
  match tree_apex (Some (Some hash)) t with
  | (FZN_BLOB_OK, Some a) => apex hash ls a
  | (FZN_BLOB_ERR_HASH, None) => refuses
  | _ => False
  end.
Proof.
  intros Ht Hs Hne. pose proof (zlen_entries t Ht) as Hz. unfold tree_apex.
  destruct (entries t) as [|[h l] es _] eqn:He using rev_ind.
  { inversion Hs as [|? ? ? ? ? ? ? ? ? ? E]; [done|by destruct es]. }
  rewrite zlen_snoc in Hz. pose proof (zlen_nonneg es). destruct (Z.eqb_spec (bt_depth t) 0); [lia|].
  destruct (stacked_snoc_inv _ _ _ _ _ Hs) as (ls' & b & -> & Hs' & Hl & Hf & Hb & HR).
  replace (bt_depth t - 1) with (Z.of_nat (length es)) by (unfold zlen in *; lia). rewrite Nat2Z.id.
  destruct (entries_lookup t (length es) h l) as [-> _].
  { rewrite He, lookup_app_r, Nat.sub_diag by lia. done. }
  apply (apex_loop_spec t es [(h, l)] ls' b h He Hs' HR).
  rewrite Forall_fmap in Hf. eapply Forall_impl; [|exact Hf]. intros [x k] Hk. cbn in *.
  rewrite Hb. apply Z.pow_le_mono_r; lia.
Qed.

Lemma depth_short t ls : arrays_ok t -> holds (entries t) ls -> zlen ls < FZN_BLOB_MAX_LEAVES - 1 -> bt_leaves t = zlen ls ->
  bt_depth t < FZN_BLOB_MAX_DEPTH.
Proof.
  intros Ha Hs Hz Hn. apply stacked_falling in Hs.
  destruct (tree_depth t) as [Hd _]; [split; [done|by rewrite Hn|lia]|]. lia.
Qed.

(** Leaves pushed from an array. *)
Lemma push_loop_spec hs : Forall (fun x => zlen x = FZN_BLOB_HASH_LEN) hs -> forall n i t ls,
  arrays_ok t -> holds (entries t) ls -> bt_leaves t = zlen ls -> (i + n <= length hs)%nat ->
  zlen ls + Z.of_nat n < FZN_BLOB_MAX_LEAVES ->
  match push_loop n (Some (Some hash)) (concat hs) (Z.of_nat i) t with
  | (FZN_BLOB_OK, t') => arrays_ok t' /\ holds (entries t') (ls ++ take n (drop i hs)) /\ bt_leaves t' = zlen ls + Z.of_nat n
  | (FZN_BLOB_ERR_HASH, _) => refuses
  | _ => False
  end.
Proof.
  intros Hhs n. induction n as [|n IH]; intros i t ls Ht Hs Hn Hi Hm; cbn [push_loop].
  { rewrite app_nil_r. split_and!; [done..|lia]. }
  destruct (lookup_lt_is_Some_2 hs i ltac:(lia)) as [h Hh]. rewrite (hash_at_concat _ _ _ Hhs Hh).
  pose proof (push_stacked hash (apex hash) apex_closed t ls h Ht Hs Hn (apex_leaf hash h) ltac:(lia)) as Hp.
  specialize (Hp ltac:(eapply depth_short; [done..|lia|done])).
  destruct (fzn_blob_tree_push _ t h) as [[] t']; try done. destruct Hp as (Ht' & Hs' & Hn').
  replace (Z.of_nat i + 1) with (Z.of_nat (S i)) by lia.
  specialize (IH (S i) t' (ls ++ [h]) Ht' Hs' ltac:(rewrite zlen_snoc; lia) ltac:(lia) ltac:(rewrite zlen_snoc; lia)).
  destruct (push_loop n _ _ _ t') as [[] t2]; try done. destruct IH as (H1 & H2 & H3). split_and!; [done| |rewrite zlen_snoc in H3; lia].
  rewrite (drop_S _ _ _ Hh). cbn [take]. by rewrite <- app_assoc in H2.
Qed.

(** The root of a run of leaves is the tree's over them. *)
Lemma subtree_root_spec hs lo n : Forall (fun x => zlen x = FZN_BLOB_HASH_LEN) hs -> 0 <= lo -> 0 < n ->
  lo + n <= zlen hs -> n < FZN_BLOB_MAX_LEAVES ->
  match subtree_root (Some (Some hash)) (concat hs) lo n with
  | (FZN_BLOB_OK, Some a) => apex hash (slice lo n hs) a
  | (FZN_BLOB_ERR_HASH, None) => refuses
  | _ => False
  end.
Proof.
  intros Hhs Hlo Hn Hle Hm. unfold subtree_root. destruct (Z.eqb_spec n 0); [lia|].
  pose proof (push_loop_spec hs Hhs (Z.to_nat n) (Z.to_nat lo) fzn_blob_tree_init [] tree_init_arrays
    ltac:(constructor) eq_refl) as Hp.
  rewrite !Z2Nat.id in Hp by lia. specialize (Hp ltac:(unfold zlen in Hle; lia) ltac:(change (zlen (A:=bytes) []) with 0; lia)).
  destruct (push_loop _ _ _ lo _) as [[] t]; try done. destruct Hp as (Ht & Hs & _).
  apply (tree_apex_spec t (slice lo n hs) Ht Hs). intros E. apply (f_equal zlen) in E. rewrite zlen_slice in E by lia.
  change (zlen (A:=bytes) []) with 0 in E. lia.
Qed.
End Streaming.

(** What names a blob: its leaf count and the hash of the tree over its leaves. *)
Definition root_of (hash : fzn_hash_ops) (hs : list bytes) (r : bytes) : Prop :=
  exists a, apex hash hs a /\ hash FZN_BLOB_HASH_LEN (FZN_BLOB_ROOT_LABEL ++ be64 (zlen hs) ++ a) = Some r.

(** A blob's root does not depend on how it was computed: leaves pushed
    one at a time into forty hashes of memory give the root of RFC 6962's tree
    over all of them with their count, for every number of leaves below 2^40;
    nothing but a refusing hash stands in the way, and that is answered as such. *)
Theorem streaming_root_is_the_trees (hash : fzn_hash_ops) (hs : list bytes) :
  hs <> [] -> Forall (fun x => zlen x = FZN_BLOB_HASH_LEN) hs -> zlen hs < FZN_BLOB_MAX_LEAVES ->
  match push_loop (length hs) (Some (Some hash)) (concat hs) 0 fzn_blob_tree_init with
  | (FZN_BLOB_OK, t) =>
    bt_leaves t = zlen hs /\
    match fzn_blob_tree_root (Some (Some hash)) t with
    | (FZN_BLOB_OK, Some r) => root_of hash hs r
    | (FZN_BLOB_ERR_HASH, None) => exists x, hash FZN_BLOB_HASH_LEN x = None
    | _ => False
    end
  | (FZN_BLOB_ERR_HASH, _) => exists x, hash FZN_BLOB_HASH_LEN x = None
  | _ => False
  end.
Proof.
  intros Hne Hhs Hm.
  pose proof (push_loop_spec hash hs Hhs (length hs) 0 fzn_blob_tree_init [] tree_init_arrays ltac:(constructor) eq_refl ltac:(lia))
    as Hp. change (zlen (A:=bytes) [] + Z.of_nat (length hs)) with (zlen hs) in Hp. specialize (Hp Hm). change (Z.of_nat 0) with 0 in Hp.
  destruct (push_loop _ _ _ 0 _) as [[] t]; try done; [|destruct Hp as (x & y & H); by eexists].
  destruct Hp as (Ht & Hs & Hn). rewrite drop_0, app_nil_l, firstn_all in Hs. split; [done|].
  pose proof (tree_apex_spec hash t hs Ht Hs Hne) as Ha. unfold fzn_blob_tree_root.
  destruct (Z.eqb_spec (bt_depth t) 0) as [E|_]; [unfold tree_apex in Ha; by rewrite E in Ha|].
  destruct (tree_apex _ t) as [[] [a|]]; try done; [|destruct Ha as (x & y & H); by eexists].
  unfold finalise_root. rewrite Hn. destruct (hash FZN_BLOB_HASH_LEN _) as [r|] eqn:E; [|by eexists]. by exists a.
Qed.

(** A checksum, for the witnesses. *)
Definition sum_hash : fzn_hash_ops := fun n b => Some (replicate (Z.to_nat n) (u8 (foldl (fun a x => 3 * a + x) 7 b))).

Definition demo_leaves : list bytes := (fun i => replicate 32 i) <$> [1; 2; 3; 4; 5].

Definition demo_streamed : fzn_blob_tree :=
  snd (push_loop 5 (Some (Some sum_hash)) (concat demo_leaves) 0 fzn_blob_tree_init).
Definition demo_root : bytes := default [] (snd (fzn_blob_tree_root (Some (Some sum_hash)) demo_streamed)).

Lemma demo_leaves_len : Forall (fun x => zlen x = FZN_BLOB_HASH_LEN) demo_leaves.
Proof. repeat constructor. Qed.

Lemma streaming_root_is_the_trees_witness : bt_leaves demo_streamed = 5 /\ root_of sum_hash demo_leaves demo_root.
Proof.
  pose proof (streaming_root_is_the_trees sum_hash demo_leaves ltac:(done) demo_leaves_len ltac:(done)) as H.
  assert (push_loop (length demo_leaves) (Some (Some sum_hash)) (concat demo_leaves) 0 fzn_blob_tree_init
    = (FZN_BLOB_OK, demo_streamed)) as E1 by (vm_compute; reflexivity).
  assert (fzn_blob_tree_root (Some (Some sum_hash)) demo_streamed = (FZN_BLOB_OK, Some demo_root)) as E2 by (vm_compute; reflexivity).
  rewrite E1, E2 in H. exact H.
Defined.
