(* ===== verification/BlobSpan.v ===== *)
(** * blob/blob.c: proofs

    The siblings that lead from a leaf, or from a span of leaves that the
    bisection reaches, to the root, built and verified; which spans those are,
    and the largest that starts at a leaf. *)

From S2P Require Import Prelude Bytes Revocation Blob BlobTree.

(** [siblings[i]] *)
Definition put_sibling (out : bytes) (i : Z) (h : bytes) : bytes := blit (i * FZN_BLOB_HASH_LEN) h out.

(** The descent of [fzn_blob_proof_build] to a leaf, the siblings written on
    the way; its guard on [count] ends it within 41 turns. *)
Fixpoint build_loop (turns : nat) (hash : hash_vtable) (leaf_hashes : bytes) (index lo n count : Z) (out : bytes)
    : fzn_blob_err * bytes * option Z :=
  match turns with
  | O => (FZN_BLOB_ERR_SHAPE, out, None)
  | S turns =>
    if n >? 1 then
      let k := split_at n in
      if count >=? FZN_BLOB_MAX_DEPTH then (FZN_BLOB_ERR_SHAPE, out, None)
      else if zlen out <? (count + 1) * FZN_BLOB_HASH_LEN then (FZN_BLOB_ERR_MALFORMED, out, None)
      else
        let left := index - lo <? k in
        match (if left then subtree_root hash leaf_hashes (lo + k) (n - k) else subtree_root hash leaf_hashes lo k) with
        | (FZN_BLOB_OK, Some sibling) =>
          build_loop turns hash leaf_hashes index (if left then lo else lo + k) (if left then k else n - k) (count + 1)
            (put_sibling out count sibling)
        | (err, _) => (err, out, None)
        end
    else (FZN_BLOB_OK, out, Some count)
  end.

Definition fzn_blob_proof_build (hash : hash_vtable) (leaf_hashes : bytes) (leaf_count index : Z) (out : bytes)
    : fzn_blob_err * bytes * option Z :=
  match hash with
  | None => (FZN_BLOB_ERR_MALFORMED, out, None)
  | Some _ =>
    if (leaf_count =? 0) || (leaf_count >? FZN_BLOB_MAX_LEAVES) || (index >=? leaf_count)
    then (FZN_BLOB_ERR_MALFORMED, out, None)
    else build_loop 41 hash leaf_hashes index 0 leaf_count 0 out
  end.

(** The path to a leaf, [false] to the left, the root's turn first. *)
Fixpoint path_loop (turns : nat) (index lo n depth : Z) (path : list bool) : option (list bool * Z) :=
  match turns with
  | O => None
  | S turns =>
    if n >? 1 then
      let k := split_at n in
      if depth >=? FZN_BLOB_MAX_DEPTH then None
      else if index - lo <? k then path_loop turns index lo k (depth + 1) (path ++ [false])
      else path_loop turns index (lo + k) (n - k) (depth + 1) (path ++ [true])
    else Some (path, depth)
  end.

(** [for (i = depth; i > 0; i--)]: from the deepest sibling up. *)
Fixpoint climb (i : nat) (hash : hash_vtable) (siblings : bytes) (path : list bool) (acc : bytes)
    : fzn_blob_err * option bytes :=
  match i with
  | O => (FZN_BLOB_OK, Some acc)
  | S i =>
    let sib := hash_at siblings (Z.of_nat i) in
    match (if nth i path false then fzn_blob_node_hash hash sib acc else fzn_blob_node_hash hash acc sib) with
    | (FZN_BLOB_OK, Some acc) => climb i hash siblings path acc
    | (err, _) => (err, None)
    end
  end.

(** The climb's end, the count bound in and the root compared. *)
Definition reaches_root (hash : hash_vtable) (acc : fzn_blob_err * option bytes) (leaf_count : Z) (root : bytes) : fzn_blob_err :=
  match acc with
  | (FZN_BLOB_OK, Some acc) =>
    match finalise_root hash acc leaf_count with
    | (FZN_BLOB_OK, Some acc) => if memeq acc root then FZN_BLOB_OK else FZN_BLOB_ERR_PROOF
    | (err, _) => err
    end
  | (err, _) => err
  end.

(** [siblings] may be NULL. *)
Definition fzn_blob_proof_verify (hash : hash_vtable) (leaf_hash : bytes) (index leaf_count : Z)
    (siblings : option bytes) (sibling_count : Z) (root : bytes) : fzn_blob_err :=
  match hash with
  | None => FZN_BLOB_ERR_MALFORMED
  | Some _ =>
    if (leaf_count =? 0) || (leaf_count >? FZN_BLOB_MAX_LEAVES) || (index >=? leaf_count) then FZN_BLOB_ERR_MALFORMED
    else if sibling_count >? FZN_BLOB_MAX_DEPTH then FZN_BLOB_ERR_SHAPE
    else if (sibling_count >? 0) && negb (bool_decide (is_Some siblings)) then FZN_BLOB_ERR_MALFORMED
    else match path_loop 41 index 0 leaf_count 0 [] with
    | None => FZN_BLOB_ERR_SHAPE
    | Some (path, depth) =>
      if negb (sibling_count =? depth) then FZN_BLOB_ERR_PROOF
      else reaches_root hash (climb (Z.to_nat depth) hash (default [] siblings) path leaf_hash) leaf_count root
    end
  end.

(** A provider of subtree roots. *)
Definition fzn_blob_subtree : Type := Z -> Z -> fzn_blob_err * option bytes.

Definition from_array (hash : hash_vtable) (leaf_hashes : bytes) : fzn_blob_subtree :=
  fun lo n => subtree_root hash leaf_hashes lo n.

(** A sibling asked for and written, where [siblings] is given. *)
Definition ask_sibling (subtree : fzn_blob_subtree) (lo n depth : Z) (siblings : option bytes)
    : fzn_blob_err * option bytes :=
  match siblings with
  | None => (FZN_BLOB_OK, None)
  | Some out =>
    if zlen out <? (depth + 1) * FZN_BLOB_HASH_LEN then (FZN_BLOB_ERR_MALFORMED, siblings)
    else match subtree lo n with
    | (FZN_BLOB_OK, Some h) => (FZN_BLOB_OK, Some (put_sibling out depth h))
    | (err, _) => (err, siblings)
    end
  end.

(** The loop of [span_walk]: the error, the siblings, the depth and the path. *)
Fixpoint walk_loop (turns : nat) (subtree : fzn_blob_subtree) (first count lo n depth : Z) (siblings : option bytes)
    (path : list bool) : fzn_blob_err * option bytes * Z * list bool :=
  match turns with
  | O => (FZN_BLOB_ERR_SHAPE, siblings, depth, path)
  | S turns =>
    if (lo =? first) && (n =? count) then (FZN_BLOB_OK, siblings, depth, path)
    else if n <=? 1 then (FZN_BLOB_ERR_SHAPE, siblings, depth, path)
    else if depth >=? FZN_BLOB_MAX_DEPTH then (FZN_BLOB_ERR_SHAPE, siblings, depth, path)
    else
      let k := split_at n in
      if first + count <=? lo + k then
        match ask_sibling subtree (lo + k) (n - k) depth siblings with
        | (FZN_BLOB_OK, siblings) => walk_loop turns subtree first count lo k (depth + 1) siblings (path ++ [false])
        | (err, siblings) => (err, siblings, depth, path)
        end
      else if first >=? lo + k then
        match ask_sibling subtree lo k depth siblings with
        | (FZN_BLOB_OK, siblings) => walk_loop turns subtree first count (lo + k) (n - k) (depth + 1) siblings (path ++ [true])
        | (err, siblings) => (err, siblings, depth, path)
        end
      else (FZN_BLOB_ERR_SHAPE, siblings, depth, path)
  end.

(** The callers have [count <= leaf_count]. *)
Definition span_walk (subtree : fzn_blob_subtree) (leaf_count first count : Z) (siblings : option bytes)
    : fzn_blob_err * option bytes * Z * list bool :=
  if (count =? 0) || (first >? leaf_count - count) then (FZN_BLOB_ERR_MALFORMED, siblings, 0, [])
  else walk_loop 41 subtree first count 0 leaf_count 0 siblings [].

(** A walk that asks nothing is given no provider. *)
Definition no_subtree : fzn_blob_subtree := fun _ _ => (FZN_BLOB_ERR_MALFORMED, None).

Definition fzn_blob_span_is_canonical (leaf_count first count : Z) : bool :=
  if (leaf_count =? 0) || (leaf_count >? FZN_BLOB_MAX_LEAVES) then false
  else if (count =? 0) || (count >? leaf_count) || (first >? leaf_count - count) then false
  else match span_walk no_subtree leaf_count first count None with
    | (FZN_BLOB_OK, _, _, _) => true
    | _ => false
    end.

(** The siblings written and how many, which is 0 until the walk is done;
    [None] where the caller's count is left alone. *)
Definition fzn_blob_span_proof_from (subtree : fzn_blob_subtree) (leaf_count first count : Z) (out : bytes)
    : fzn_blob_err * bytes * option Z :=
  if (leaf_count =? 0) || (leaf_count >? FZN_BLOB_MAX_LEAVES) then (FZN_BLOB_ERR_MALFORMED, out, None)
  else if (count =? 0) || (count >? leaf_count) || (first >? leaf_count - count) then (FZN_BLOB_ERR_MALFORMED, out, None)
  else match span_walk subtree leaf_count first count (Some out) with
    | (FZN_BLOB_OK, siblings, depth, _) => (FZN_BLOB_OK, default out siblings, Some depth)
    | (err, siblings, _, _) => (err, default out siblings, Some 0)
    end.

Definition fzn_blob_span_proof_build (hash : hash_vtable) (leaf_hashes : bytes) (leaf_count first count : Z) (out : bytes)
    : fzn_blob_err * bytes * option Z :=
  match hash with
  | Some (Some _) =>
    if (leaf_count =? 0) || (leaf_count >? FZN_BLOB_MAX_LEAVES) then (FZN_BLOB_ERR_MALFORMED, out, None)
    else if (count =? 0) || (count >? leaf_count) || (first >? leaf_count - count) then (FZN_BLOB_ERR_MALFORMED, out, None)
    else match span_walk (from_array hash leaf_hashes) leaf_count first count (Some out) with
      | (FZN_BLOB_OK, siblings, depth, _) => (FZN_BLOB_OK, default out siblings, Some depth)
      | (err, siblings, _, _) => (err, default out siblings, Some 0)
      end
  | _ => (FZN_BLOB_ERR_MALFORMED, out, None)
  end.

Definition fzn_blob_span_proof_verify (hash : hash_vtable) (span_root : bytes) (first count leaf_count : Z)
    (siblings : option bytes) (sibling_count : Z) (root : bytes) : fzn_blob_err :=
  match hash with
  | Some (Some _) =>
    if (leaf_count =? 0) || (leaf_count >? FZN_BLOB_MAX_LEAVES) then FZN_BLOB_ERR_MALFORMED
    else if (count =? 0) || (count >? leaf_count) || (first >? leaf_count - count) then FZN_BLOB_ERR_MALFORMED
    else if sibling_count >? FZN_BLOB_MAX_DEPTH then FZN_BLOB_ERR_SHAPE
    else if (sibling_count >? 0) && negb (bool_decide (is_Some siblings)) then FZN_BLOB_ERR_MALFORMED
    else match span_walk no_subtree leaf_count first count None with
    | (FZN_BLOB_OK, _, depth, path) =>
      if negb (sibling_count =? depth) then FZN_BLOB_ERR_SHAPE
      else reaches_root hash (climb (Z.to_nat depth) hash (default [] siblings) path span_root) leaf_count root
    | (err, _, _, _) => err
    end
  | _ => FZN_BLOB_ERR_MALFORMED
  end.

(** The descent to [first], 41 turns: a turn at least halves what is left. *)
Fixpoint largest_loop (turns : nat) (first max_count lo n : Z) : Z :=
  match turns with
  | O => 0
  | S turns =>
    if (lo =? first) && (n <=? max_count) then n
    else if n <=? 1 then 0
    else
      let k := split_at n in
      if first <? lo + k then largest_loop turns first max_count lo k
      else largest_loop turns first max_count (lo + k) (n - k)
  end.

Definition fzn_blob_span_largest_at (leaf_count first max_count : Z) : Z :=
  if (leaf_count =? 0) || (leaf_count >? FZN_BLOB_MAX_LEAVES) || (first >=? leaf_count) then 0
  else if max_count =? 0 then 0
  else largest_loop 41 first max_count 0 leaf_count.

Definition fzn_blob_span_root (hash : hash_vtable) (leaf_hashes : bytes) (count : Z) : fzn_blob_err * option bytes :=
  match hash with
  | Some (Some _) =>
    if (count =? 0) || (count >? FZN_BLOB_MAX_LEAVES) then (FZN_BLOB_ERR_MALFORMED, None)
    else subtree_root hash leaf_hashes 0 count
  | _ => (FZN_BLOB_ERR_MALFORMED, None)
  end.

(** ** Spans that are nodes *)

(** The bisection of [lo, lo + n) reaches [first, first + count), passing a
    sibling at each step: the side taken, and where the sibling lies. *)
Inductive reaches (first count : Z) : Z -> Z -> list (bool * (Z * Z)) -> Prop :=
| reach_here : reaches first count first count []
| reach_left k lo n st : 0 <= k -> 2 ^ k < n <= 2 ^ k + 2 ^ k -> reaches first count lo (2 ^ k) st ->
    reaches first count lo n ((false, (lo + 2 ^ k, n - 2 ^ k)) :: st)
| reach_right k lo n st : 0 <= k -> 2 ^ k < n <= 2 ^ k + 2 ^ k -> reaches first count (lo + 2 ^ k) (n - 2 ^ k) st ->
    reaches first count lo n ((true, (lo, 2 ^ k)) :: st).

Lemma reaches_within f c lo n st : reaches f c lo n st -> lo <= f /\ f + c <= lo + n.
Proof.
  induction 1 as [|k lo n st Hk Hn _ IH|k lo n st Hk Hn _ IH]; [lia|lia|].
  pose proof (Z.pow_pos_nonneg 2 k ltac:(lia) Hk). lia.
Qed.

Lemma reaches_siblings f c lo n st : reaches f c lo n st ->
  Forall (fun s => lo <= fst (snd s) /\ 0 < snd (snd s) < n /\ fst (snd s) + snd (snd s) <= lo + n) st.
Proof.
  induction 1 as [|k lo n st Hk Hn _ IH|k lo n st Hk Hn _ IH]; [constructor|..];
    pose proof (Z.pow_pos_nonneg 2 k ltac:(lia) Hk); (constructor; [cbn; lia|]);
    (eapply Forall_impl; [|exact IH]); cbn; lia.
Qed.

Lemma half_below k n d : 0 <= k -> 2 ^ k < n <= 2 ^ d -> 0 <= d -> k <= d - 1.
Proof. intros Hk Hn Hd. assert (k < d); [|lia]. apply (Z.pow_lt_mono_r_iff 2); lia. Qed.

Lemma reaches_depth f c lo n st : reaches f c lo n st -> forall d, 0 <= d -> n <= 2 ^ d -> zlen st <= d.
Proof.
  induction 1 as [|k lo n st Hk Hn _ IH|k lo n st Hk Hn _ IH]; intros d Hd Hle; [done|..];
    pose proof (half_below k n d Hk ltac:(lia) Hd);
    pose proof (Z.pow_le_mono_r 2 k (d - 1) ltac:(lia) ltac:(lia));
    specialize (IH (d - 1) ltac:(lia) ltac:(lia)); unfold zlen in *; cbn [length]; lia.
Qed.

(** The siblings asked for along a way. *)
Fixpoint fill (subtree : fzn_blob_subtree) (st : list (bool * (Z * Z))) (depth : Z) (siblings : option bytes)
    : fzn_blob_err * option bytes :=
  match st with
  | [] => (FZN_BLOB_OK, siblings)
  | (_, (lo, n)) :: st =>
    match ask_sibling subtree lo n depth siblings with
    | (FZN_BLOB_OK, siblings) => fill subtree st (depth + 1) siblings
    | e => e
    end
  end.

Lemma fill_none subtree st : forall depth, fill subtree st depth None = (FZN_BLOB_OK, None).
Proof. induction st as [|[b [lo n]] st IH]; intros depth; cbn; [done|apply IH]. Qed.

(** How one side is entered, given that the span is not the whole. *)
Lemma reaches_left_inv f c lo n st k : 0 < c -> 0 <= k -> 2 ^ k < n <= 2 ^ k + 2 ^ k -> ~ (lo = f /\ n = c) ->
  f + c <= lo + 2 ^ k -> reaches f c lo n st ->
  exists st', st = (false, (lo + 2 ^ k, n - 2 ^ k)) :: st' /\ reaches f c lo (2 ^ k) st'.
Proof.
  intros Hc Hk Hn Hne Hle H. inversion H as [|k' ? ? st' Hk' Hn' H'|k' ? ? st' Hk' Hn' H']; subst; [tauto|..];
    assert (k' = k) as -> by (by apply (split_unique k' k n)).
  - by exists st'.
  - apply reaches_within in H'. lia.
Qed.

Lemma reaches_right_inv f c lo n st k : 0 < c -> 0 <= k -> 2 ^ k < n <= 2 ^ k + 2 ^ k -> ~ (lo = f /\ n = c) ->
  lo + 2 ^ k <= f -> reaches f c lo n st ->
  exists st', st = (true, (lo, 2 ^ k)) :: st' /\ reaches f c (lo + 2 ^ k) (n - 2 ^ k) st'.
Proof.
  intros Hc Hk Hn Hne Hle H. inversion H as [|k' ? ? st' Hk' Hn' H'|k' ? ? st' Hk' Hn' H']; subst; [tauto|..];
    assert (k' = k) as -> by (by apply (split_unique k' k n)).
  - apply reaches_within in H'. lia.
  - by exists st'.
Qed.

Lemma reaches_split_inv f c lo n st k : 0 < c -> 0 <= k -> 2 ^ k < n <= 2 ^ k + 2 ^ k -> ~ (lo = f /\ n = c) ->
  reaches f c lo n st -> f + c <= lo + 2 ^ k \/ lo + 2 ^ k <= f.
Proof.
  intros Hc Hk Hn Hne H. inversion H as [|k' ? ? st' Hk' Hn' H'|k' ? ? st' Hk' Hn' H']; subst; [tauto|..];
    assert (k' = k) as -> by (by apply (split_unique k' k n)); apply reaches_within in H'; lia.
Qed.

(** What a walk answers: the way there, where there is one. *)
Definition walked (subtree : fzn_blob_subtree) (f c lo n depth : Z) (siblings : option bytes) (path : list bool)
    (r : fzn_blob_err * option bytes * Z * list bool) : Prop :=
  match r with
  | (FZN_BLOB_OK, s, d, p) => exists st, reaches f c lo n st /\ fill subtree st depth siblings = (FZN_BLOB_OK, s) /\
      d = depth + zlen st /\ p = path ++ st.*1
  | (err, s, _, _) => (forall st, reaches f c lo n st -> fill subtree st depth siblings = (err, s)) /\
      (siblings = None -> err = FZN_BLOB_ERR_SHAPE /\ s = None)
  end.

(** One step of it. *)
Lemma walked_step subtree f c lo n depth siblings path b slo sn lo' n' (r : option bytes -> fzn_blob_err * option bytes * Z * list bool) :
  (forall st, reaches f c lo n st -> exists st', st = (b, (slo, sn)) :: st' /\ reaches f c lo' n' st') ->
  (forall st', reaches f c lo' n' st' -> reaches f c lo n ((b, (slo, sn)) :: st')) ->
  (forall s, walked subtree f c lo' n' (depth + 1) s (path ++ [b]) (r s)) ->
  walked subtree f c lo n depth siblings path
    (match ask_sibling subtree slo sn depth siblings with
     | (FZN_BLOB_OK, siblings) => r siblings
     | (err, siblings) => (err, siblings, depth, path)
     end).
Proof.
  intros Hinv Hstep Hr. destruct (ask_sibling subtree slo sn depth siblings) as [err s] eqn:Ea.
  assert (err = FZN_BLOB_OK -> walked subtree f c lo n depth siblings path (r s)) as Hok.
  { intros ->. specialize (Hr s). destruct (r s) as [[[[] s'] d'] p']; cbn [walked] in *;
      try (destruct Hr as [H1 H2]; split;
        [intros st Hst; destruct (Hinv _ Hst) as (st' & -> & Hst'); cbn [fill]; rewrite Ea; by apply H1
        |intros ->; cbn in Ea; injection Ea as <-; by apply H2]).
    destruct Hr as (st & Hst & Hfill & -> & ->). eexists. split_and!; [by apply Hstep| | |].
    - cbn [fill]. by rewrite Ea.
    - unfold zlen. cbn [length]. lia.
    - by rewrite <- app_assoc. }
  destruct err; try (by apply Hok); (split;
    [intros st Hst; destruct (Hinv _ Hst) as (st' & -> & _); cbn [fill]; by rewrite Ea|intros ->; cbn in Ea; congruence]).
Qed.

Lemma walk_loop_spec subtree f c turns : 0 < c -> forall lo n depth siblings path,
  0 < n <= 2 ^ (FZN_BLOB_MAX_DEPTH - depth) -> 0 <= depth <= FZN_BLOB_MAX_DEPTH ->
  FZN_BLOB_MAX_DEPTH - depth < Z.of_nat turns ->
  walked subtree f c lo n depth siblings path (walk_loop turns subtree f c lo n depth siblings path).
Proof.
  intros Hc. change FZN_BLOB_MAX_DEPTH with 40.
  induction turns as [|turns IH]; intros lo n depth siblings path Hn Hd Ht; [lia|]. cbn [walk_loop].
  destruct ((lo =? f) && (n =? c)) eqn:Ehere.
  { assert (lo = f /\ n = c) as [-> ->] by lia. exists []. split_and!; [constructor|done|change (zlen (A:=bool * (Z * Z)) []) with 0; lia|].
    by rewrite app_nil_r. }
  assert (~ (lo = f /\ n = c)) as Hne by lia.
  destruct (Z.leb_spec n 1) as [|Hn1].
  { split; [|done]. intros st Hst. exfalso. inversion Hst as [|k ? ? ? Hk Hn' _|k ? ? ? Hk Hn' _]; subst; [tauto|..];
      pose proof (Z.pow_pos_nonneg 2 k ltac:(lia) Hk); lia. }
  change FZN_BLOB_MAX_DEPTH with 40. destruct (Z.geb_spec depth 40) as [|Hd40].
  { replace (40 - depth) with 0 in Hn by lia. lia. }
  assert (n <= 2 ^ 40) as Hbig by (etrans; [apply Hn|]; apply Z.pow_le_mono_r; lia).
  destruct (split_at_spec n) as (k & Hk & -> & Hsplit).
  { split; [lia|]. etrans; [exact Hbig|]. by apply Z.pow_le_mono_r. }
  pose proof (Z.pow_pos_nonneg 2 k ltac:(lia) Hk) as Hk0.
  pose proof (half_below k n (40 - depth) Hk ltac:(lia) ltac:(lia)) as Hkd.
  assert (2 ^ k <= 2 ^ (40 - (depth + 1))) as Hpk by (apply Z.pow_le_mono_r; lia).
  destruct (Z.leb_spec (f + c) (lo + 2 ^ k)) as [Hleft|Hnl]; [|destruct (Z.geb_spec f (lo + 2 ^ k)) as [Hright|Hnr]].
  - apply walked_step with (b := false) (lo' := lo) (n' := 2 ^ k) (r := fun s => walk_loop turns subtree f c lo (2 ^ k) (depth + 1) s (path ++ [false])).
    + intros st Hst. by apply (reaches_left_inv _ _ _ _ _ _ Hc Hk Hsplit Hne).
    + intros st' Hst'. by apply reach_left.
    + intros s. apply IH; lia.
  - apply walked_step with (b := true) (lo' := lo + 2 ^ k) (n' := n - 2 ^ k)
      (r := fun s => walk_loop turns subtree f c (lo + 2 ^ k) (n - 2 ^ k) (depth + 1) s (path ++ [true])).
    + intros st Hst. apply (reaches_right_inv _ _ _ _ _ _ Hc Hk Hsplit Hne); [lia|done].
    + intros st' Hst'. by apply reach_right.
    + intros s. apply IH; lia.
  - split; [|done]. intros st Hst. exfalso. destruct (reaches_split_inv _ _ _ _ _ _ Hc Hk Hsplit Hne Hst); lia.
Qed.

Lemma span_walk_spec subtree n f c siblings : 1 <= n <= FZN_BLOB_MAX_LEAVES -> 1 <= c <= n -> f <= n - c ->
  walked subtree f c 0 n 0 siblings [] (span_walk subtree n f c siblings).
Proof.
  intros Hn Hc Hf. unfold span_walk. destruct (Z.eqb_spec c 0); [lia|]. destruct (Z.gtb_spec f (n - c)); [lia|]. cbn [orb].
  apply walk_loop_spec; [lia| |done|done]. change (2 ^ (FZN_BLOB_MAX_DEPTH - 0)) with FZN_BLOB_MAX_LEAVES. lia.
Qed.

Lemma largest_loop_spec f max turns : 0 < max -> forall lo n d,
  lo <= f < lo + n -> 0 <= d < Z.of_nat turns -> n <= 2 ^ d <= 2 ^ 40 ->
  let m := largest_loop turns f max lo n in
  1 <= m <= max /\ (exists st, reaches f m lo n st) /\
  forall c st, 0 < c <= max -> reaches f c lo n st -> c <= m.
Proof.
  intros Hmax. induction turns as [|turns IH]; intros lo n d Hf Hd Hn; [lia|]. cbn [largest_loop].
  destruct ((lo =? f) && (n <=? max)) eqn:Ehere.
  { cbv zeta. assert (lo = f /\ n <= max) as [-> ?] by lia. split_and!; [lia..|exists []; constructor|].
    intros c st _ Hst. apply reaches_within in Hst. lia. }
  destruct (Z.leb_spec n 1); [lia|].
  assert (1 < n <= 2 ^ 63) as Hn63 by (split; [lia|]; etrans; [apply Hn|]; etrans; [apply Hn|]; by apply Z.pow_le_mono_r).
  destruct (split_at_spec n Hn63) as (k & Hk & -> & Hsplit).
  pose proof (half_below k n d Hk ltac:(lia) ltac:(lia)) as Hkd. pose proof (Z.pow_pos_nonneg 2 k ltac:(lia) Hk).
  assert (2 ^ k <= 2 ^ (d - 1) <= 2 ^ 40) as Hp.
  { split; [apply Z.pow_le_mono_r; lia|]. etrans; [|apply Hn]. apply Z.pow_le_mono_r; lia. }
  assert (forall c, 0 < c <= max -> ~ (lo = f /\ n = c)) as Hne by lia.
  destruct (Z.ltb_spec f (lo + 2 ^ k)).
  - destruct (IH lo (2 ^ k) (d - 1) ltac:(lia) ltac:(lia) Hp) as (Hm & (st & Hst) & Hbest).
    split_and!; [lia..|eexists; by apply reach_left|]. intros c st' Hc Hst'.
    destruct (reaches_split_inv _ _ _ _ _ _ (proj1 Hc) Hk Hsplit (Hne c Hc) Hst'); [|lia].
    destruct (reaches_left_inv _ _ _ _ _ _ (proj1 Hc) Hk Hsplit (Hne c Hc) ltac:(lia) Hst') as (st2 & -> & Hst2).
    by apply (Hbest c st2).
  - destruct (IH (lo + 2 ^ k) (n - 2 ^ k) (d - 1) ltac:(lia) ltac:(lia) ltac:(lia)) as (Hm & (st & Hst) & Hbest).
    split_and!; [lia..|eexists; by apply reach_right|]. intros c st' Hc Hst'.
    destruct (reaches_right_inv _ _ _ _ _ _ (proj1 Hc) Hk Hsplit (Hne c Hc) ltac:(lia) Hst') as (st2 & -> & Hst2).
    by apply (Hbest c st2).
Qed.

Lemma canonical_iff n f c : 0 <= n -> 0 <= f -> 0 <= c -> fzn_blob_span_is_canonical n f c = true <->
  1 <= n <= FZN_BLOB_MAX_LEAVES /\ 1 <= c /\ exists st, reaches f c 0 n st.
Proof.
  intros Hn Hf Hc. unfold fzn_blob_span_is_canonical.
  destruct (Z.eqb_spec n 0); [cbn; lia|]. destruct (Z.gtb_spec n FZN_BLOB_MAX_LEAVES); [cbn; lia|]. cbn [orb].
  destruct (Z.eqb_spec c 0); [cbn; lia|]. cbn [orb].
  destruct ((c >? n) || (f >? n - c)) eqn:E.
  { split; [done|]. intros (_ & _ & st & Hst). apply reaches_within in Hst. lia. }
  pose proof (span_walk_spec no_subtree n f c None ltac:(lia) ltac:(lia) ltac:(lia)) as Hw.
  destruct (span_walk _ _ _ _ _) as [[[err s] d] p]. destruct err; cbn [walked] in Hw;
    try (split; [done|]; intros (_ & _ & st & Hst); destruct Hw as [Hw _]; specialize (Hw st Hst);
         rewrite fill_none in Hw; congruence).
  destruct Hw as (st & Hst & _). split; [|done]. intros _. split_and!; [lia..|by exists st].
Qed.

(** The largest span at a leaf. *)
Lemma largest_at_spec n f max : 0 <= n -> 0 <= f -> 0 <= max ->
  let m := fzn_blob_span_largest_at n f max in
  if (1 <=? n) && (n <=? FZN_BLOB_MAX_LEAVES) && (f <? n) && (1 <=? max)
  then 1 <= m <= max /\ fzn_blob_span_is_canonical n f m = true /\
    forall c', 1 <= c' <= max -> fzn_blob_span_is_canonical n f c' = true -> c' <= m
  else m = 0.
Proof.
  intros Hn Hf Hmax. pose proof (fun c H => canonical_iff n f c Hn Hf H) as Hcan.
  cbv zeta. unfold fzn_blob_span_largest_at.
  destruct ((n =? 0) || (n >? FZN_BLOB_MAX_LEAVES) || (f >=? n)) eqn:E1.
  { destruct ((1 <=? n) && _ && _ && _) eqn:E2; [lia|done]. }
  destruct (Z.eqb_spec max 0).
  { destruct ((1 <=? n) && _ && _ && _) eqn:E2; [lia|done]. }
  replace ((1 <=? n) && (n <=? FZN_BLOB_MAX_LEAVES) && (f <? n) && (1 <=? max)) with true by lia.
  destruct (largest_loop_spec f max 41 ltac:(lia) 0 n 40 ltac:(lia) ltac:(lia)) as (Hm & Hst & Hbest).
  { change (2 ^ 40) with FZN_BLOB_MAX_LEAVES. lia. }
  split; [exact Hm|]. split; [apply Hcan; [lia|]; split; [lia|]; split; [lia|exact Hst]|].
  intros c' Hc' H'. apply Hcan in H' as (_ & _ & st & Hst'); [|lia]. apply (Hbest c' st); [lia|exact Hst'].
Qed.

(** A span may be asked for exactly when the bisection reaches it; and
    the span handed to a planner is one of those that start at the leaf it
    asked about, no longer than it allowed, and no other such span is longer. *)
Theorem spans_are_the_nodes n f c max : 0 <= n -> 0 <= f -> 0 <= c -> 0 <= max ->
  (fzn_blob_span_is_canonical n f c = true <-> 1 <= n <= FZN_BLOB_MAX_LEAVES /\ 1 <= c /\ exists st, reaches f c 0 n st) /\
  (let m := fzn_blob_span_largest_at n f max in
   if (1 <=? n) && (n <=? FZN_BLOB_MAX_LEAVES) && (f <? n) && (1 <=? max)
   then 1 <= m <= max /\ fzn_blob_span_is_canonical n f m = true /\
     forall c', 1 <= c' <= max -> fzn_blob_span_is_canonical n f c' = true -> c' <= m
   else m = 0).
Proof.
  intros Hn Hf Hc Hmax. split; [by apply canonical_iff|]. by apply largest_at_spec.
Qed.

Lemma spans_are_the_nodes_witness :
  fzn_blob_span_is_canonical 11 8 2 = true /\ fzn_blob_span_is_canonical 11 8 4 = false /\
  fzn_blob_span_largest_at 11 8 7 = 3 /\
  (forall c', 1 <= c' <= 7 -> fzn_blob_span_is_canonical 11 8 c' = true -> c' <= 3) /\
  exists st, reaches 8 2 0 11 st.
Proof.
  split; [reflexivity|]. split; [reflexivity|]. split; [reflexivity|].
  destruct (spans_are_the_nodes 11 8 2 7 ltac:(lia) ltac:(lia) ltac:(lia) ltac:(lia)) as [Hc Hm].
  split; [exact (proj2 (proj2 Hm))|]. destruct (proj1 Hc ltac:(reflexivity)) as (_ & _ & H). exact H.
Defined.
