(* ===== verification/BlobProof.v ===== *)
(** * blob/blob.c: what a proof proves

    A proof built for a span verifies, for every tree and every span of it; a
    proof that verifies shows the blob's own leaves, or two inputs the hash
    does not tell apart; and a leaf's proof is the proof of a span of one. *)

From S2P Require Import Prelude Bytes Revocation Blob BlobTree BlobSpan.

(** An input of each kind, different, and of one hash. *)
Definition collision (hash : fzn_hash_ops) (P Q : bytes -> Prop) : Prop :=
  exists x y d, P x /\ Q y /\ x <> y /\ hash FZN_BLOB_HASH_LEN x = Some d /\ hash FZN_BLOB_HASH_LEN y = Some d.

Lemma collision_mono hash (P P' Q Q' : bytes -> Prop) : (forall x, P x -> P' x) -> (forall y, Q y -> Q' y) ->
  collision hash P Q -> collision hash P' Q'.
Proof. intros HP HQ (x & y & d & Hx & Hy & H). exists x, y, d. eauto. Qed.

Abbreviation hashes := (Forall (fun x : bytes => zlen x = FZN_BLOB_HASH_LEN)).

Section Climb.
Context (hash : fzn_hash_ops).

(** The siblings folded onto a hash, the last of them first. *)
Fixpoint rise (steps : list (bool * bytes)) (acc : bytes) : option bytes :=
  match steps with
  | [] => Some acc
  | (b, s) :: steps => x ← rise steps acc; if (b : bool) then node hash s x else node hash x s
  end.

Lemma rise_snoc steps b s acc :
  rise (steps ++ [(b, s)]) acc = (x ← (if (b : bool) then node hash s acc else node hash acc s); rise steps x).
Proof.
  induction steps as [|[b' s'] steps IH]; cbn; [by destruct (if b then _ else _)|]. rewrite IH.
  by destruct (if b then _ else _).
Qed.

Lemma climb_ext i siblings p p' acc : (forall j, (j < i)%nat -> nth j p false = nth j p' false) ->
  climb i (Some (Some hash)) siblings p acc = climb i (Some (Some hash)) siblings p' acc.
Proof.
  revert acc. induction i as [|i IH]; intros acc H; cbn [climb]; [done|]. rewrite (H i) by lia.
  destruct (if nth i p' false then _ else _) as [[] [x|]]; try done. apply IH. intros j Hj. apply H. lia.
Qed.

Lemma climb_rise siblings path : forall acc,
  climb (length path) (Some (Some hash)) siblings path acc
  = match rise (zip path (hash_at siblings <$> seqZ 0 (zlen path))) acc with
    | Some a => (FZN_BLOB_OK, Some a)
    | None => (FZN_BLOB_ERR_HASH, None)
    end.
Proof.
  induction path as [|b path IH] using rev_ind; intros acc; [done|].
  rewrite length_app, Nat.add_1_r. cbn [climb]. rewrite app_nth2, Nat.sub_diag by lia. cbn [nth].
  rewrite zlen_snoc, seqZ_app by (auto using zlen_nonneg; lia). rewrite fmap_app.
  rewrite zip_with_app by (by rewrite length_fmap, length_seqZ; unfold zlen; rewrite Nat2Z.id).
  rewrite Z.add_0_l. cbn [seqZ seq fmap list_fmap zip_with].
  replace (zlen path + 0 + Z.of_nat 0) with (zlen path) by lia.
  change (seqZ (zlen path) 1) with [Z.of_nat 0 + zlen path]. cbn [fmap list_fmap zip_with]. rewrite rise_snoc.
  change (Z.of_nat 0 + zlen path) with (zlen path). change (Z.of_nat (length path)) with (zlen path).
  assert (forall x, climb (length path) (Some (Some hash)) siblings (path ++ [b]) x
    = climb (length path) (Some (Some hash)) siblings path x) as Hx.
  { intros x. apply climb_ext. intros j Hj. by rewrite app_nth1. }
  destruct b; rewrite node_hash_cases; (destruct (node hash _ _) as [x|]; [|done]); cbn [mbind option_bind]; by rewrite Hx, IH.
Qed.

(** Siblings that are the tree's lead a span's root to the tree's. *)
Definition sibling_of (hs : list bytes) (s : bool * (Z * Z)) (h : bytes) : Prop :=
  apex hash (slice (fst (snd s)) (snd (snd s)) hs) h.

Lemma slice_split (hs : list bytes) lo n k : 0 <= lo -> 0 <= k -> 2 ^ k < n <= 2 ^ k + 2 ^ k -> lo + n <= zlen hs ->
  slice lo n hs = slice lo (2 ^ k) hs ++ slice (lo + 2 ^ k) (n - 2 ^ k) hs /\
  zlen (slice lo (2 ^ k) hs) = 2 ^ k /\ zlen (slice (lo + 2 ^ k) (n - 2 ^ k) hs) = n - 2 ^ k.
Proof.
  intros Hlo Hk Hn Hl. pose proof (Z.pow_pos_nonneg 2 k ltac:(lia) Hk).
  split_and!; [|apply zlen_slice; lia..].
  rewrite slice_app by lia. f_equal. lia.
Qed.

Lemma rise_reaches hs f c lo n st : reaches f c lo n st -> forall hsib a b, 0 <= lo -> lo + n <= zlen hs ->
  apex hash (slice lo n hs) a -> apex hash (slice f c hs) b -> Forall2 (sibling_of hs) st hsib ->
  rise (zip st.*1 hsib) b = Some a.
Proof.
  induction 1 as [|k lo n st Hk Hn Hr IH|k lo n st Hk Hn Hr IH]; intros hsib a b Hlo Hl Ha Hb Hsib.
  { apply Forall2_nil_inv_l in Hsib as ->. cbn. f_equal. by eapply apex_det. }
  all: apply Forall2_cons_inv_l in Hsib as (h & hsib' & Hh & Hsib & ->); unfold sibling_of in Hh; cbn [fst snd] in Hh.
  all: pose proof (Z.pow_pos_nonneg 2 k ltac:(lia) Hk).
  all: destruct (slice_split hs lo n k Hlo Hk Hn Hl) as (E & E1 & E2); rewrite E in Ha.
  all: destruct (apex_inv hash k (slice lo (2 ^ k) hs) (slice (lo + 2 ^ k) (n - 2 ^ k) hs) a Hk E1 ltac:(lia) Ha) as (x & y & Hx & Hy & Hxy).
  all: cbn [fmap list_fmap zip_with rise fst].
  - rewrite (IH hsib' x b Hlo ltac:(lia) Hx Hb Hsib). cbn. by rewrite (apex_det _ _ _ _ Hh Hy).
  - rewrite (IH hsib' y b ltac:(lia) ltac:(lia) Hy Hb Hsib). cbn. by rewrite (apex_det _ _ _ _ Hh Hx).
Qed.

Hypothesis Hlen : forall x d, hash FZN_BLOB_HASH_LEN x = Some d -> zlen d = FZN_BLOB_HASH_LEN.

Lemma apex_len l h : hashes l -> apex hash l h -> zlen h = FZN_BLOB_HASH_LEN.
Proof.
  intros Hl. induction 1 as [h|k l r a b c _ _ _ _ _ _ _ Hn]; [|by apply Hlen in Hn].
  by apply Forall_cons_iff in Hl as [Hl _].
Qed.

(** What is hashed for the nodes of the tree over [hs]. *)
Definition run_input (hs : list bytes) (x : bytes) : Prop :=
  exists pre l r post a b, hs = pre ++ l ++ r ++ post /\ apex hash l a /\ apex hash r b /\
    x = [FZN_BLOB_NODE_PREFIX] ++ a ++ b.

(** What is hashed on the way up. *)
Fixpoint rise_inputs (steps : list (bool * bytes)) (acc : bytes) : list bytes :=
  match steps with
  | [] => []
  | (b, s) :: steps =>
    match rise steps acc with
    | Some x => [[FZN_BLOB_NODE_PREFIX] ++ (if (b : bool) then s ++ x else x ++ s)]
    | None => []
    end ++ rise_inputs steps acc
  end.

(** A node's hash names its children. *)
Lemma node_names (P Q : bytes -> Prop) a b a' b' h : zlen a = zlen a' -> node hash a b = Some h -> node hash a' b' = Some h ->
  P ([FZN_BLOB_NODE_PREFIX] ++ a ++ b) -> Q ([FZN_BLOB_NODE_PREFIX] ++ a' ++ b') -> (a = a' /\ b = b') \/ collision hash P Q.
Proof.
  intros Hz H H' HP HQ. unfold node in *.
  destruct (decide (a ++ b = a' ++ b')) as [E|Hne].
  - left. apply app_inj_1 in E; [done|]. unfold zlen in Hz. lia.
  - right. exists ([FZN_BLOB_NODE_PREFIX] ++ a ++ b), ([FZN_BLOB_NODE_PREFIX] ++ a' ++ b'), h. split_and!; [done|done|intros [= E]; by apply Hne|done|done].
Qed.

Lemma run_input_slices hs lo n k u v : 0 <= lo -> 0 <= k -> 2 ^ k < n <= 2 ^ k + 2 ^ k -> lo + n <= zlen hs ->
  apex hash (slice lo (2 ^ k) hs) u -> apex hash (slice (lo + 2 ^ k) (n - 2 ^ k) hs) v ->
  run_input hs ([FZN_BLOB_NODE_PREFIX] ++ u ++ v).
Proof.
  intros Hlo Hk Hn Hl Hu Hv. exists (take (Z.to_nat lo) hs), (slice lo (2 ^ k) hs), (slice (lo + 2 ^ k) (n - 2 ^ k) hs),
    (drop (Z.to_nat (lo + n)) hs), u, v. split_and!; [|done..]. rewrite (app_assoc (slice _ _ _)), slice_app by lia.
  unfold slice. replace (Z.to_nat (lo + n)) with (Z.to_nat lo + Z.to_nat (2 ^ k + (n - 2 ^ k)))%nat by lia.
  rewrite <- drop_drop, take_drop, take_drop. done.
Qed.

Lemma run_input_app pre hs post x : run_input hs x -> run_input (pre ++ hs ++ post) x.
Proof.
  intros (p & l & r & q & a & b & -> & H). exists (pre ++ p), l, r, (q ++ post), a, b. split; [|done].
  by rewrite <- !app_assoc.
Qed.

Lemma rise_len steps : forall acc a, zlen acc = FZN_BLOB_HASH_LEN -> rise steps acc = Some a -> zlen a = FZN_BLOB_HASH_LEN.
Proof.
  destruct steps as [|[b s] steps]; intros acc a Hacc; cbn [rise]; [by intros [= <-]|].
  destruct (rise steps acc) as [x|]; [|done]. cbn. destruct b; apply Hlen.
Qed.

(** Whatever the siblings, what rises to a node's hash is what the node holds. *)
Lemma rise_names hs f c lo n st : reaches f c lo n st -> hashes hs -> forall hsib a b, 0 <= lo -> lo + n <= zlen hs ->
  length hsib = length st -> hashes hsib -> zlen b = FZN_BLOB_HASH_LEN ->
  apex hash (slice lo n hs) a -> rise (zip st.*1 hsib) b = Some a ->
  apex hash (slice f c hs) b \/ collision hash (run_input hs) (fun y => y ∈ rise_inputs (zip st.*1 hsib) b).
Proof.
  intros Hr Hhs. induction Hr as [|k lo n st Hk Hn Hr IH|k lo n st Hk Hn Hr IH]; intros hsib a b Hlo Hl Hz Hsib Hb Ha Hrise.
  { destruct hsib; [|done]. cbn in Hrise. injection Hrise as ->. by left. }
  all: destruct hsib as [|h hsib]; [done|]; apply Forall_cons_iff in Hsib as [Hh Hsib].
  all: cbn [fmap list_fmap zip_with rise fst] in Hrise; apply bind_Some in Hrise as (x & Hx & Hnode).
  all: pose proof (Z.pow_pos_nonneg 2 k ltac:(lia) Hk).
  all: destruct (slice_split hs lo n k Hlo Hk Hn Hl) as (E & E1 & E2); rewrite E in Ha.
  all: destruct (apex_inv hash k (slice lo (2 ^ k) hs) (slice (lo + 2 ^ k) (n - 2 ^ k) hs) a Hk E1 ltac:(lia) Ha) as (u & v & Hu & Hv & Huv).
  all: assert (forall o m, hashes (slice o m hs)) as Hsub by (intros; by apply Forall_take, Forall_drop).
  all: pose proof (apex_len _ _ (Hsub _ _) Hu); pose proof (rise_len _ _ _ Hb Hx).
  all: pose proof (run_input_slices hs lo n k u v Hlo Hk Hn Hl Hu Hv) as Hin.
  all: cbn [fmap list_fmap zip_with rise_inputs fst]; rewrite Hx.
  all: set (Q := fun y => y ∈ [_] ++ rise_inputs (zip st.*1 hsib) b).
  all: assert (forall y, y ∈ rise_inputs (zip st.*1 hsib) b -> Q y) as Hmono by (intros y Hy; unfold Q; apply elem_of_app; by right).
  - destruct (node_names (run_input hs) Q u v x h a ltac:(lia) Huv Hnode Hin ltac:(unfold Q; apply elem_of_app; left; by apply list_elem_of_singleton))
      as [[<- <-]|]; [|by right].
    destruct (IH hsib u b Hlo ltac:(lia) ltac:(cbn in Hz; lia) Hsib Hb Hu Hx) as [|Hcol]; [by left|right].
    by apply (collision_mono _ _ _ _ _ (fun x Hx => Hx) Hmono Hcol).
  - destruct (node_names (run_input hs) Q u v h x a ltac:(lia) Huv Hnode Hin ltac:(unfold Q; apply elem_of_app; left; by apply list_elem_of_singleton))
      as [[<- <-]|]; [|by right].
    destruct (IH hsib v b ltac:(lia) ltac:(lia) ltac:(cbn in Hz; lia) Hsib Hb Hv Hx) as [|Hcol]; [by left|right].
    by apply (collision_mono _ _ _ _ _ (fun x Hx => Hx) Hmono Hcol).
Qed.

(** A tree's hash and size name its leaves. *)
Lemma apex_names l h : apex hash l h -> hashes l -> forall l', hashes l' -> zlen l' = zlen l -> apex hash l' h ->
  l = l' \/ collision hash (run_input l) (run_input l').
Proof.
  induction 1 as [h|k l r a b c Hk Hl Hr Ha IHl Hb IHr Hn]; intros Hhs l' Hhs' Hz H'.
  - destruct l' as [|h' [|h2 l']]; [done| |unfold zlen in Hz; cbn in Hz; lia]. inversion H' as [|k l r ? ? ? Hk Hl Hr ? ? ? E]; [by left|].
    apply (f_equal zlen) in E. rewrite zlen_app in E. change (zlen [h']) with 1 in E.
    pose proof (Z.pow_pos_nonneg 2 k ltac:(lia) Hk). lia.
  - rewrite zlen_app in Hz. rewrite <- (take_drop (length l) l') in H', Hhs' |- *.
    assert (zlen (take (length l) l') = zlen l) as Hz1 by (unfold zlen in *; rewrite length_take; lia).
    assert (zlen (drop (length l) l') = zlen r) as Hz2 by (unfold zlen in *; rewrite length_drop; lia).
    destruct (apex_inv hash k (take (length l) l') (drop (length l) l') c Hk ltac:(lia) ltac:(lia) H') as (u & v & Hu & Hv & Huv).
    apply Forall_app in Hhs as [Hhl Hhr], Hhs' as [Hhl' Hhr'].
    pose proof (apex_len _ _ Hhl Ha). pose proof (apex_len _ _ Hhl' Hu).
    set (l1 := take (length l) l') in *. set (r1 := drop (length l) l') in *.
    destruct (node_names (run_input (l ++ r)) (run_input (l1 ++ r1)) a b u v c ltac:(lia) Hn Huv) as [[<- <-]|]; [..|by right].
    + exists [], l, r, [], a, b. by rewrite app_nil_r.
    + exists [], l1, r1, [], u, v. by rewrite app_nil_r.
    + destruct (IHl Hhl _ Hhl' Hz1 Hu) as [E|H2]; [|right; eapply collision_mono; [..|exact H2]; intros y; apply (run_input_app [])].
      destruct (IHr Hhr _ Hhr' Hz2 Hv) as [E'|H2]; [by left; rewrite E, E'|right].
      eapply collision_mono; [..|exact H2]; intros y Hy; [apply (run_input_app l _ []) in Hy|apply (run_input_app l1 _ []) in Hy];
        by rewrite app_nil_r in Hy.
Qed.
End Climb.

(** ** The code's walks *)

Section Walks.
Context (hash : fzn_hash_ops).

(** The siblings a buffer holds. *)
Definition siblings_of (siblings : bytes) (n : Z) : list bytes := hash_at siblings <$> seqZ 0 n.

(** A proof that verifies: the siblings lead the span to a root that binds the count. *)
Definition verifies (b : bytes) (f c n : Z) (siblings : option bytes) (cnt : Z) (root : bytes) : Prop :=
  1 <= n <= FZN_BLOB_MAX_LEAVES /\ 1 <= c /\ (0 < cnt -> is_Some siblings) /\
  exists st a, reaches f c 0 n st /\ cnt = zlen st /\
    rise hash (zip st.*1 (siblings_of (default [] siblings) (zlen st))) b = Some a /\
    hash FZN_BLOB_HASH_LEN (FZN_BLOB_ROOT_LABEL ++ be64 n ++ a) = Some root.

Lemma reaches_root_iff path siblings n root b :
  reaches_root (Some (Some hash)) (climb (length path) (Some (Some hash)) siblings path b) n root = FZN_BLOB_OK <->
  exists a, rise hash (zip path (siblings_of siblings (zlen path))) b = Some a /\
    hash FZN_BLOB_HASH_LEN (FZN_BLOB_ROOT_LABEL ++ be64 n ++ a) = Some root.
Proof.
  rewrite climb_rise. unfold siblings_of. destruct (rise hash _ b) as [a|]; cbn [reaches_root]; [|naive_solver].
  unfold finalise_root. destruct (hash _ (FZN_BLOB_ROOT_LABEL ++ be64 n ++ a)) as [r|] eqn:E.
  - destruct (memeq r root) eqn:Er.
    + apply memeq_true in Er as ->. naive_solver.
    + split; [done|]. intros (a' & [= <-] & H). assert (r = root) as -> by congruence. by rewrite memeq_refl in Er.
  - split; [done|]. intros (a' & [= <-] & H). congruence.
Qed.

Lemma steps_det f c lo n st st' : 0 < c -> 0 < n -> reaches f c lo n st -> reaches f c lo n st' -> st = st'.
Proof.
  intros Hc Hn H. revert st'. induction H as [|k lo n st Hk Hs H IH|k lo n st Hk Hs H IH]; intros st' H'.
  - inversion H' as [|k ? ? st2 Hk Hs H2|k ? ? st2 Hk Hs H2]; subst; [done|..];
      pose proof (Z.pow_pos_nonneg 2 k ltac:(lia) Hk); apply reaches_within in H2; lia.
  - pose proof (Z.pow_pos_nonneg 2 k ltac:(lia) Hk). pose proof (reaches_within _ _ _ _ _ H).
    destruct (reaches_left_inv f c lo n st' k Hc Hk Hs ltac:(lia) ltac:(lia) H') as (st2 & -> & H2).
    f_equal. apply IH; [lia|done].
  - pose proof (Z.pow_pos_nonneg 2 k ltac:(lia) Hk). pose proof (reaches_within _ _ _ _ _ H).
    destruct (reaches_right_inv f c lo n st' k Hc Hk Hs ltac:(lia) ltac:(lia) H') as (st2 & -> & H2).
    f_equal. apply IH; [lia|done].
Qed.

Lemma zlen_fst (st : list (bool * (Z * Z))) : zlen st.*1 = zlen st.
Proof. unfold zlen. by rewrite length_fmap. Qed.

(** Given the way to a span, the last of a verifier is the climb. *)
Lemma climb_verifies b f c n siblings cnt root st : 1 <= n <= FZN_BLOB_MAX_LEAVES -> 1 <= c -> reaches f c 0 n st ->
  (0 < cnt -> is_Some siblings) ->
  (cnt = zlen st /\ reaches_root (Some (Some hash))
      (climb (Z.to_nat (zlen st)) (Some (Some hash)) (default [] siblings) st.*1 b) n root = FZN_BLOB_OK)
  <-> verifies b f c n siblings cnt root.
Proof.
  intros Hn Hc Hst Hsome. replace (Z.to_nat (zlen st)) with (length st.*1) by (unfold zlen; rewrite length_fmap; lia).
  rewrite reaches_root_iff, zlen_fst. split.
  - intros (-> & a & Ha & Hr). split_and!; [lia..|done|]. by exists st, a.
  - intros (_ & _ & _ & st' & a & Hst' & -> & Ha & Hr).
    rewrite (steps_det f c 0 n st st') by (lia || done). split; [done|]. by exists a.
Qed.

Lemma depth_40 f c n st : n <= FZN_BLOB_MAX_LEAVES -> reaches f c 0 n st -> zlen st <= FZN_BLOB_MAX_DEPTH.
Proof. intros Hn H. by apply (reaches_depth _ _ _ _ _ H); [|change (2 ^ FZN_BLOB_MAX_DEPTH) with FZN_BLOB_MAX_LEAVES]. Qed.

Lemma span_verify_iff b f c n siblings cnt root : 0 <= n -> 0 <= f -> 0 <= c -> 0 <= cnt ->
  fzn_blob_span_proof_verify (Some (Some hash)) b f c n siblings cnt root = FZN_BLOB_OK <->
  verifies b f c n siblings cnt root.
Proof.
  intros Hn Hf Hc Hcnt. unfold fzn_blob_span_proof_verify.
  destruct ((n =? 0) || (n >? FZN_BLOB_MAX_LEAVES)) eqn:E1; [split; [done|intros (? & _); lia]|].
  destruct ((c =? 0) || (c >? n) || (f >? n - c)) eqn:E2.
  { split; [done|]. intros (_ & Hc1 & _ & st & a & Hst & _). apply reaches_within in Hst. lia. }
  destruct (Z.gtb_spec cnt FZN_BLOB_MAX_DEPTH) as [Hd|].
  { split; [done|]. intros (_ & _ & _ & st & a & Hst & -> & _). apply depth_40 in Hst; lia. }
  destruct ((cnt >? 0) && negb (bool_decide (is_Some siblings))) eqn:E3.
  { split; [done|]. intros (_ & _ & Hs & _). apply andb_true_iff in E3 as [E3 E4]. apply negb_true_iff, bool_decide_eq_false in E4.
    destruct E4. apply Hs. lia. }
  assert (0 < cnt -> is_Some siblings) as Hsome.
  { intros H0. apply andb_false_iff in E3 as [|E3]; [lia|]. by apply negb_false_iff, bool_decide_eq_true in E3. }
  pose proof (span_walk_spec no_subtree n f c None ltac:(lia) ltac:(lia) ltac:(lia)) as Hw.
  destruct (span_walk no_subtree n f c None) as [[[err s] d] p]. destruct err; cbn [walked] in Hw;
    try (split; [done|]; intros (_ & _ & _ & st & a & Hst & _); destruct Hw as [Hw _]; specialize (Hw st Hst);
         rewrite fill_none in Hw; congruence).
  destruct Hw as (st & Hst & _ & -> & ->). cbn [app].
  rewrite <- (climb_verifies b f c n siblings cnt root st) by (lia || done). rewrite Z.add_0_l.
  destruct (Z.eqb_spec cnt (zlen st)); cbn [negb]; [tauto|]. split; [done|tauto].
Qed.

(** The descents to a leaf. *)
Lemma leaf_step index lo n : lo <= index < lo + n -> 1 < n <= 2 ^ 40 ->
  exists k, 0 <= k /\ split_at n = 2 ^ k /\ 2 ^ k < n <= 2 ^ k + 2 ^ k /\ 0 < 2 ^ k /\
    forall d, 0 <= d -> n <= 2 ^ d -> 0 <= d - 1 /\ 2 ^ k <= 2 ^ (d - 1).
Proof.
  intros Hi Hn. destruct (split_at_spec n) as (k & Hk & E & Hs).
  { split; [lia|]. etrans; [apply Hn|]. by apply Z.pow_le_mono_r. }
  exists k. split; [done|]. split; [done|]. split; [done|]. split; [apply Z.pow_pos_nonneg; lia|]. intros d Hd Hle.
  pose proof (half_below k n d Hk ltac:(lia) Hd). split; [lia|]. apply Z.pow_le_mono_r; lia.
Qed.

Lemma path_loop_spec index turns : forall lo n depth path, lo <= index < lo + n -> n <= 2 ^ (40 - depth) -> 0 <= depth <= 40 ->
  40 - depth < Z.of_nat turns ->
  exists st, reaches index 1 lo n st /\ path_loop turns index lo n depth path = Some (path ++ st.*1, depth + zlen st).
Proof.
  induction turns as [|turns IH]; intros lo n depth path Hi Hn Hd Ht; [lia|]. cbn [path_loop].
  assert (n <= 2 ^ 40) as Hbig by (etrans; [apply Hn|]; apply Z.pow_le_mono_r; lia).
  destruct (Z.gtb_spec n 1) as [Hn1|Hn1].
  - change FZN_BLOB_MAX_DEPTH with 40. destruct (Z.geb_spec depth 40); [replace (40 - depth) with 0 in Hn by lia; lia|].
    destruct (leaf_step index lo n Hi ltac:(lia)) as (k & Hk & -> & Hs & Hp & Hhalf).
    destruct (Hhalf (40 - depth) ltac:(lia) Hn) as [Hd1 Hle]. replace (40 - depth - 1) with (40 - (depth + 1)) in Hle by lia.
    destruct (Z.ltb_spec (index - lo) (2 ^ k)).
    + destruct (IH lo (2 ^ k) (depth + 1) (path ++ [false]) ltac:(lia) Hle ltac:(lia) ltac:(lia)) as (st & Hst & ->).
      eexists. split; [exact (reach_left _ _ k lo n st Hk Hs Hst)|]. rewrite <- app_assoc. unfold zlen. cbn [length fmap list_fmap fst app]. do 2 f_equal. lia.
    + destruct (IH (lo + 2 ^ k) (n - 2 ^ k) (depth + 1) (path ++ [true]) ltac:(lia) ltac:(lia) ltac:(lia) ltac:(lia)) as (st & Hst & ->).
      eexists. split; [exact (reach_right _ _ k lo n st Hk Hs Hst)|]. rewrite <- app_assoc. unfold zlen. cbn [length fmap list_fmap fst app]. do 2 f_equal. lia.
  - assert (index = lo /\ n = 1) as [-> ->] by lia. exists []. split; [constructor|]. rewrite app_nil_r. do 2 f_equal.
    change (zlen (A:=bool * (Z * Z)) []) with 0. lia.
Qed.

Lemma apex_loop_some v t i : forall acc, apex_loop i v t acc <> (FZN_BLOB_OK, None).
Proof.
  induction i as [|i IH]; intros acc; cbn [apex_loop]; [done|].
  unfold fzn_blob_node_hash. destruct v as [[h|]|]; try done. by destruct (h _ _).
Qed.

Lemma subtree_root_some v flat lo n : subtree_root v flat lo n <> (FZN_BLOB_OK, None).
Proof.
  unfold subtree_root. destruct (n =? 0); [done|]. destruct (push_loop _ _ _ _ _) as [[] t]; try done.
  unfold tree_apex. destruct (bt_depth t =? 0); [done|]. apply apex_loop_some.
Qed.

Lemma fill_some subtree st : forall depth out, exists err out', fill subtree st depth (Some out) = (err, Some out').
Proof.
  induction st as [|[b [lo n]] st IH]; intros depth out; cbn [fill]; [by eexists _, _|]. cbn [ask_sibling].
  destruct (zlen out <? _); [by eexists _, _|]. destruct (subtree lo n) as [[] [h|]]; try (by eexists _, _); apply IH.
Qed.

Lemma build_loop_spec flat index turns : forall lo n count out, lo <= index < lo + n -> n <= 2 ^ (40 - count) -> 0 <= count <= 40 ->
  40 - count < Z.of_nat turns ->
  exists st, reaches index 1 lo n st /\
    build_loop turns (Some (Some hash)) flat index lo n count out
    = match fill (from_array (Some (Some hash)) flat) st count (Some out) with
      | (FZN_BLOB_OK, s) => (FZN_BLOB_OK, default out s, Some (count + zlen st))
      | (err, s) => (err, default out s, None)
      end.
Proof.
  induction turns as [|turns IH]; intros lo n count out Hi Hn Hd Ht; [lia|]. cbn [build_loop].
  assert (n <= 2 ^ 40) as Hbig by (etrans; [apply Hn|]; apply Z.pow_le_mono_r; lia).
  destruct (Z.gtb_spec n 1) as [Hn1|Hn1].
  - change FZN_BLOB_MAX_DEPTH with 40. destruct (Z.geb_spec count 40); [replace (40 - count) with 0 in Hn by lia; lia|].
    destruct (leaf_step index lo n Hi ltac:(lia)) as (k & Hk & -> & Hs & Hp & Hhalf).
    destruct (Hhalf (40 - count) ltac:(lia) Hn) as [Hd1 Hle]. replace (40 - count - 1) with (40 - (count + 1)) in Hle by lia.
    set (left := index - lo <? 2 ^ k).
    assert (forall o, exists st', reaches index 1 (if left then lo else lo + 2 ^ k) (if left then 2 ^ k else n - 2 ^ k) st' /\ _)
      as Hrec by (intros o; apply (IH _ _ (count + 1) o); unfold left; destruct (Z.ltb_spec (index - lo) (2 ^ k)); lia).
    assert (forall st', reaches index 1 (if left then lo else lo + 2 ^ k) (if left then 2 ^ k else n - 2 ^ k) st' ->
      reaches index 1 lo n ((negb left, (if left then (lo + 2 ^ k, n - 2 ^ k) else (lo, 2 ^ k))) :: st')) as Hstep.
    { intros st' Hst'. unfold left in *. destruct (index - lo <? 2 ^ k); [exact (reach_left _ _ k lo n st' Hk Hs Hst')|exact (reach_right _ _ k lo n st' Hk Hs Hst')]. }
    destruct (Hrec out) as (st0 & Hst0 & _).
    destruct (zlen out <? (count + 1) * FZN_BLOB_HASH_LEN) eqn:Ecap.
    { eexists. split; [by apply Hstep|]. cbn [fill]. destruct left; cbn [ask_sibling]; by rewrite Ecap. }
    assert ((if left then subtree_root (Some (Some hash)) flat (lo + 2 ^ k) (n - 2 ^ k) else subtree_root (Some (Some hash)) flat lo (2 ^ k))
      = (let '(a, b) := if left then (lo + 2 ^ k, n - 2 ^ k) else (lo, 2 ^ k) in from_array (Some (Some hash)) flat a b)) as ->
      by by destruct left.
    destruct (if left then (lo + 2 ^ k, n - 2 ^ k) else (lo, 2 ^ k)) as [slo sn] eqn:Eside.
    destruct (from_array _ flat slo sn) as [err h] eqn:Eask.
    assert (forall st', fill (from_array (Some (Some hash)) flat) ((negb left, (slo, sn)) :: st') count (Some out)
      = match (err, h) with
        | (FZN_BLOB_OK, Some h) => fill (from_array (Some (Some hash)) flat) st' (count + 1) (Some (put_sibling out count h))
        | _ => (err, Some out) end) as Hfill.
    { intros st'. cbn [fill ask_sibling]. rewrite Ecap, Eask. destruct err, h; try done. by destruct (subtree_root_some _ _ _ _ Eask). }
    destruct err, h as [h|]; try (eexists; split; [by apply Hstep|]; rewrite Hfill; cbn [default]; done).
    + destruct (Hrec (put_sibling out count h)) as (st & Hst & ->). eexists. split; [by apply Hstep|]. rewrite Hfill.
      destruct (fill_some (from_array (Some (Some hash)) flat) st (count + 1) (put_sibling out count h)) as (err & o & ->).
      destruct err; try done. unfold zlen. cbn [length default]. do 2 f_equal. lia.
    + by destruct (subtree_root_some _ _ _ _ Eask).
  - assert (index = lo /\ n = 1) as [-> ->] by lia. exists []. split; [constructor|]. cbn [fill default].
    change (zlen (A:=bool * (Z * Z)) []) with 0. by rewrite Z.add_0_r.
Qed.
End Walks.

(** ** The properties *)

Lemma leaf_verify_iff hash b index n siblings cnt root : 0 <= n -> 0 <= index -> 0 <= cnt ->
  fzn_blob_proof_verify (Some (Some hash)) b index n siblings cnt root = FZN_BLOB_OK <->
  verifies hash b index 1 n siblings cnt root.
Proof.
  intros Hn Hi Hcnt. unfold fzn_blob_proof_verify.
  destruct ((n =? 0) || (n >? FZN_BLOB_MAX_LEAVES) || (index >=? n)) eqn:E1.
  { split; [done|]. intros (? & _ & _ & st & a & Hst & _). apply reaches_within in Hst. lia. }
  destruct (Z.gtb_spec cnt FZN_BLOB_MAX_DEPTH) as [Hd|].
  { split; [done|]. intros (_ & _ & _ & st & a & Hst & -> & _). apply depth_40 in Hst; lia. }
  destruct ((cnt >? 0) && negb (bool_decide (is_Some siblings))) eqn:E3.
  { split; [done|]. intros (_ & _ & Hs & _). apply andb_true_iff in E3 as [E3 E4]. apply negb_true_iff, bool_decide_eq_false in E4.
    destruct E4. apply Hs. lia. }
  assert (0 < cnt -> is_Some siblings) as Hsome.
  { intros H0. apply andb_false_iff in E3 as [|E3]; [lia|]. by apply negb_false_iff, bool_decide_eq_true in E3. }
  destruct (path_loop_spec index 41 0 n 0 [] ltac:(lia)) as (st & Hst & ->);
    [change (2 ^ (40 - 0)) with FZN_BLOB_MAX_LEAVES; lia|lia|lia|]. cbn [app]. rewrite Z.add_0_l.
  rewrite <- (climb_verifies hash b index 1 n siblings cnt root st) by (lia || done).
  destruct (Z.eqb_spec cnt (zlen st)); cbn [negb]; [tauto|]. split; [done|tauto].
Qed.

(** A leaf is the span of one: the proof built for it is, byte for byte
    and error for error, the one built for that span, and the two verifiers
    accept the same proofs. *)
Theorem leaf_proofs_are_spans_of_one (hash : fzn_hash_ops) leaf_hashes leaf_hash index n out siblings cnt root :
  0 <= n -> 0 <= index < n -> 0 <= cnt ->
  (let '(err, out', k) := fzn_blob_proof_build (Some (Some hash)) leaf_hashes n index out in
   let '(err', out'', k') := fzn_blob_span_proof_build (Some (Some hash)) leaf_hashes n index 1 out in
   err = err' /\ out' = out'' /\ (err = FZN_BLOB_OK -> k = k')) /\
  (fzn_blob_proof_verify (Some (Some hash)) leaf_hash index n siblings cnt root = FZN_BLOB_OK <->
   fzn_blob_span_proof_verify (Some (Some hash)) leaf_hash index 1 n siblings cnt root = FZN_BLOB_OK).
Proof.
  intros Hn Hi Hcnt. split; [|by rewrite leaf_verify_iff, span_verify_iff by lia].
  unfold fzn_blob_proof_build, fzn_blob_span_proof_build.
  destruct ((n =? 0) || (n >? FZN_BLOB_MAX_LEAVES)) eqn:E1; [done|]. cbn [orb].
  destruct (Z.geb_spec index n); [lia|].
  destruct ((1 =? 0) || (1 >? n) || (index >? n - 1)) eqn:E2; [lia|].
  destruct (build_loop_spec hash leaf_hashes index 41 0 n 0 out ltac:(lia)) as (st & Hst & ->);
    [change (2 ^ (40 - 0)) with FZN_BLOB_MAX_LEAVES; lia|lia|lia|].
  pose proof (span_walk_spec (from_array (Some (Some hash)) leaf_hashes) n index 1 (Some out) ltac:(lia) ltac:(lia) ltac:(lia)) as Hw.
  destruct (span_walk _ n index 1 (Some out)) as [[[err s] d] p]. destruct err; cbn [walked] in Hw;
    try (destruct Hw as [Hw _]; rewrite (Hw st Hst); cbn; done).
  destruct Hw as (st' & Hst' & Hfill & -> & ->). replace st' with st in * by (by eapply (steps_det index 1 0 n); lia || done).
  by rewrite Hfill.
Qed.

Lemma leaf_proofs_are_spans_of_one_witness :
  let p := fzn_blob_proof_build (Some (Some sum_hash)) (concat demo_leaves) 5 3 (zeros 96) in
  p = fzn_blob_span_proof_build (Some (Some sum_hash)) (concat demo_leaves) 5 3 1 (zeros 96) /\
  fzn_blob_span_proof_verify (Some (Some sum_hash)) (replicate 32 4) 3 1 5 (Some (snd (fst p))) 3 demo_root = FZN_BLOB_OK.
Proof.
  cbv zeta. split; [vm_compute; reflexivity|].
  assert (fzn_blob_proof_verify (Some (Some sum_hash)) (replicate 32 4) 3 5
    (Some (snd (fst (fzn_blob_proof_build (Some (Some sum_hash)) (concat demo_leaves) 5 3 (zeros 96))))) 3 demo_root = FZN_BLOB_OK) as Hv
    by (vm_compute; reflexivity).
  exact (proj1 (proj2 (leaf_proofs_are_spans_of_one sum_hash (concat demo_leaves) (replicate 32 4) 3 5 (zeros 96)
    (Some (snd (fst (fzn_blob_proof_build (Some (Some sum_hash)) (concat demo_leaves) 5 3 (zeros 96))))) 3 demo_root
    ltac:(lia) ltac:(lia) ltac:(lia))) Hv).
Defined.

(** The siblings a provider gives, written. *)
Lemma fill_ok subtree st hsib : Forall2 (fun s h => subtree (fst (snd s)) (snd (snd s)) = (FZN_BLOB_OK, Some h) /\ zlen h = 32) st hsib ->
  forall depth out, 0 <= depth -> (depth + zlen st) * 32 <= zlen out ->
  exists out', fill subtree st depth (Some out) = (FZN_BLOB_OK, Some out') /\ zlen out' = zlen out /\
    hash_at out' <$> seqZ depth (zlen st) = hsib /\ forall j, 0 <= j < depth -> hash_at out' j = hash_at out j.
Proof.
  induction 1 as [|[b [lo n]] h st hsib [Hask Hh] _ IH]; intros depth out Hd Hcap.
  { exists out. split_and!; done. }
  cbn [fst snd] in Hask. assert (zlen ((b, (lo, n)) :: st) = 1 + zlen st) as Hz by (unfold zlen; cbn [length]; lia).
  rewrite Hz in *. pose proof (zlen_nonneg st). cbn [fill ask_sibling]. unfold FZN_BLOB_HASH_LEN.
  destruct (Z.ltb_spec (zlen out) ((depth + 1) * 32)); [lia|]. rewrite Hask.
  assert (zlen (put_sibling out depth h) = zlen out) as Hp by (unfold put_sibling, FZN_BLOB_HASH_LEN; rewrite zlen_blit; lia).
  destruct (IH (depth + 1) (put_sibling out depth h) ltac:(lia) ltac:(lia)) as (out' & -> & Hz' & Hs & Hold).
  exists out'. split_and!; [done|lia| |].
  - rewrite seqZ_cons by lia. cbn [fmap list_fmap]. f_equal.
    + rewrite Hold by lia. unfold hash_at, put_sibling, FZN_BLOB_HASH_LEN.
      pose proof (slice_blit_same (depth * 32) h out) as Q. rewrite Hh in Q. apply Q; lia.
    + rewrite <- Hs. f_equal. f_equal; lia.
  - intros j Hj. rewrite Hold by lia. unfold hash_at, put_sibling, FZN_BLOB_HASH_LEN. apply slice_blit_disjoint; lia.
Qed.

Section Total.
Context (hash : fzn_hash_ops).
Hypothesis Htotal : forall x, exists d, hash FZN_BLOB_HASH_LEN x = Some d /\ zlen d = FZN_BLOB_HASH_LEN.

Lemma subtree_root_total hs lo n : hashes hs -> 0 <= lo -> 0 < n < FZN_BLOB_MAX_LEAVES -> lo + n <= zlen hs ->
  exists h, subtree_root (Some (Some hash)) (concat hs) lo n = (FZN_BLOB_OK, Some h) /\ apex hash (slice lo n hs) h /\ zlen h = 32.
Proof.
  intros Hhs Hlo Hn Hl. pose proof (subtree_root_spec hash hs lo n Hhs Hlo ltac:(lia) Hl ltac:(lia)) as H.
  destruct (subtree_root _ _ lo n) as [[] [h|]]; try done.
  - exists h. split_and!; [done..|]. eapply (apex_len hash); [|by apply Forall_take, Forall_drop|done].
    intros x d Hx. destruct (Htotal x) as (d' & Hd & Hz). congruence.
  - destruct H as (x & y & H). unfold node in H. destruct (Htotal ([FZN_BLOB_NODE_PREFIX] ++ x ++ y)) as (d & Hd & _). congruence.
Qed.

Lemma siblings_total hs f c n st : reaches f c 0 n st -> hashes hs -> n <= zlen hs -> zlen hs <= FZN_BLOB_MAX_LEAVES ->
  exists hsib, Forall2 (fun s h => from_array (Some (Some hash)) (concat hs) (fst (snd s)) (snd (snd s)) = (FZN_BLOB_OK, Some h) /\ zlen h = 32) st hsib /\
    Forall2 (sibling_of hash hs) st hsib.
Proof.
  intros Hst Hhs Hn Hm. apply reaches_siblings in Hst. induction Hst as [|s st Hs _ (hsib & H1 & H2)]; [exists []; by split|].
  destruct (subtree_root_total hs (fst (snd s)) (snd (snd s)) Hhs ltac:(lia) ltac:(lia) ltac:(lia)) as (h & Hh & Ha & Hz).
  exists (h :: hsib). by split; constructor.
Qed.
End Total.

(** The proof built for a span, and that it verifies. *)
Lemma span_proved (hash : fzn_hash_ops) hs root f c out :
  (forall x, exists d, hash FZN_BLOB_HASH_LEN x = Some d /\ zlen d = FZN_BLOB_HASH_LEN) ->
  hashes hs -> zlen hs < FZN_BLOB_MAX_LEAVES -> root_of hash hs root ->
  0 <= f -> 0 <= c -> fzn_blob_span_is_canonical (zlen hs) f c = true ->
  FZN_BLOB_MAX_DEPTH * FZN_BLOB_HASH_LEN <= zlen out ->
  exists span_root out' k,
    fzn_blob_span_root (Some (Some hash)) (concat (slice f c hs)) c = (FZN_BLOB_OK, Some span_root) /\
    fzn_blob_span_proof_build (Some (Some hash)) (concat hs) (zlen hs) f c out = (FZN_BLOB_OK, out', Some k) /\
    zlen out' = zlen out /\
    fzn_blob_span_proof_verify (Some (Some hash)) span_root f c (zlen hs) (Some out') k root = FZN_BLOB_OK.
Proof.
  intros Htotal Hhs Hm (a & Ha & Hroot) Hf Hc Hcan Hout.
  apply canonical_iff in Hcan as (Hn & Hc1 & st & Hst); [|apply zlen_nonneg|done..].
  pose proof (reaches_within _ _ _ _ _ Hst) as Hwin. pose proof (depth_40 f c (zlen hs) st ltac:(lia) Hst) as Hd.
  assert (hashes (slice f c hs)) as Hsub by (by apply Forall_take, Forall_drop).
  assert (zlen (slice f c hs) = c) as Hsl by (apply zlen_slice; lia).
  destruct (subtree_root_total hash Htotal (slice f c hs) 0 c Hsub ltac:(lia) ltac:(lia) ltac:(lia)) as (b & Hb & Hab & Hbz).
  rewrite slice_all in Hab by lia.
  destruct (siblings_total hash Htotal hs f c _ st Hst Hhs ltac:(lia) ltac:(lia)) as (hsib & Hask & Hsib).
  destruct (fill_ok _ st hsib Hask 0 out ltac:(lia)) as (out' & Hfill & Hz' & Hread & _).
  { change (FZN_BLOB_MAX_DEPTH * FZN_BLOB_HASH_LEN) with (40 * 32) in Hout. change FZN_BLOB_MAX_DEPTH with 40 in Hd. lia. }
  exists b, out', (zlen st). split_and!; [| |done|].
  - unfold fzn_blob_span_root. destruct (Z.eqb_spec c 0); [lia|]. by destruct (Z.gtb_spec c FZN_BLOB_MAX_LEAVES); [lia|].
  - unfold fzn_blob_span_proof_build. destruct ((zlen hs =? 0) || _) eqn:E1; [lia|].
    destruct ((c =? 0) || _ || _) eqn:E2; [lia|].
    pose proof (span_walk_spec (from_array (Some (Some hash)) (concat hs)) (zlen hs) f c (Some out) ltac:(lia) ltac:(lia) ltac:(lia)) as Hw.
    destruct (span_walk _ _ _ _ _) as [[[err s] d] p]. destruct err; cbn [walked] in Hw;
      try (destruct Hw as [Hw _]; specialize (Hw st Hst); congruence).
    destruct Hw as (st' & Hst' & Hfill' & -> & ->). replace st' with st in * by (by eapply (steps_det f c 0 (zlen hs)); lia || done).
    rewrite Hfill in Hfill'. injection Hfill' as <-. by rewrite Z.add_0_l.
  - apply span_verify_iff; [lia..|apply zlen_nonneg|]. split_and!; [lia..|by eauto|]. exists st, a. split_and!; [done..| |done].
    change (default [] (Some out')) with out'. unfold siblings_of. rewrite Hread. by eapply (rise_reaches hash hs f c 0 (zlen hs)); try lia; rewrite ?slice_all by lia.
Qed.

(** Every span can be proved: for every blob of fewer than 2^40 leaves and
    every span of it that the bisection reaches, the proof built from its leaf
    hashes verifies, against the blob's root, the root a receiver computes
    from the span's leaves alone. *)
Theorem proofs_are_complete (hash : fzn_hash_ops) hs root f c out :
  (forall x, exists d, hash FZN_BLOB_HASH_LEN x = Some d /\ zlen d = FZN_BLOB_HASH_LEN) ->
  hashes hs -> zlen hs < FZN_BLOB_MAX_LEAVES -> root_of hash hs root ->
  0 <= f -> 0 <= c -> fzn_blob_span_is_canonical (zlen hs) f c = true ->
  FZN_BLOB_MAX_DEPTH * FZN_BLOB_HASH_LEN <= zlen out ->
  exists span_root out' k,
    fzn_blob_span_root (Some (Some hash)) (concat (slice f c hs)) c = (FZN_BLOB_OK, Some span_root) /\
    fzn_blob_span_proof_build (Some (Some hash)) (concat hs) (zlen hs) f c out = (FZN_BLOB_OK, out', Some k) /\
    zlen out' = zlen out /\
    fzn_blob_span_proof_verify (Some (Some hash)) span_root f c (zlen hs) (Some out') k root = FZN_BLOB_OK.
Proof. apply span_proved. Qed.

Lemma demo_total : forall x, exists d, sum_hash FZN_BLOB_HASH_LEN x = Some d /\ zlen d = FZN_BLOB_HASH_LEN.
Proof. intros x. eexists. split; [reflexivity|]. unfold zlen. by rewrite length_replicate. Qed.

Lemma demo_root_of : root_of sum_hash demo_leaves demo_root.
Proof.
  set (h12 := default [] (node sum_hash (replicate 32 1) (replicate 32 2))).
  set (h34 := default [] (node sum_hash (replicate 32 3) (replicate 32 4))).
  set (h14 := default [] (node sum_hash h12 h34)).
  exists (default [] (node sum_hash h14 (replicate 32 5))). split; [|vm_compute; reflexivity].
  change demo_leaves with (([replicate 32 1; replicate 32 2] ++ [replicate 32 3; replicate 32 4]) ++ [replicate 32 5]).
  apply (apex_node sum_hash 2 _ _ h14 (replicate 32 5)); [lia|done|done| |constructor|vm_compute; reflexivity].
  apply (apex_node sum_hash 1 _ _ h12 h34); [lia|done|done|..|vm_compute; reflexivity].
  - change [replicate 32 1; replicate 32 2] with ([replicate 32 1] ++ [replicate 32 2]).
    apply (apex_node sum_hash 0 _ _ (replicate 32 1) (replicate 32 2)); [lia|done|done|constructor|constructor|vm_compute; reflexivity].
  - change [replicate 32 3; replicate 32 4] with ([replicate 32 3] ++ [replicate 32 4]).
    apply (apex_node sum_hash 0 _ _ (replicate 32 3) (replicate 32 4)); [lia|done|done|constructor|constructor|vm_compute; reflexivity].
Qed.

Lemma proofs_are_complete_witness :
  exists span_root out' k,
    fzn_blob_span_root (Some (Some sum_hash)) (concat (slice 2 2 demo_leaves)) 2 = (FZN_BLOB_OK, Some span_root) /\
    fzn_blob_span_proof_build (Some (Some sum_hash)) (concat demo_leaves) 5 2 2 (zeros 1280) = (FZN_BLOB_OK, out', Some k) /\
    zlen out' = 1280 /\
    fzn_blob_span_proof_verify (Some (Some sum_hash)) span_root 2 2 5 (Some out') k demo_root = FZN_BLOB_OK.
Proof.
  apply (proofs_are_complete sum_hash demo_leaves demo_root 2 2 (zeros 1280) demo_total demo_leaves_len);
    [done|exact demo_root_of|lia|lia|vm_compute; reflexivity|vm_compute; discriminate].
Defined.

Section Sound.
Context (hash : fzn_hash_ops) (hs : list bytes) (root : bytes).
Hypothesis Hlen : forall x d, hash FZN_BLOB_HASH_LEN x = Some d -> zlen d = FZN_BLOB_HASH_LEN.
Hypothesis Hhs : hashes hs.
Hypothesis Hm : zlen hs <= FZN_BLOB_MAX_LEAVES.
Hypothesis Hroot : root_of hash hs root.

(** What the verifier hashes. *)
Definition climb_input (b : bytes) (f c n : Z) (siblings : option bytes) (x : bytes) : Prop :=
  exists st, reaches f c 0 n st /\
    let steps := zip st.*1 (siblings_of (default [] siblings) (zlen st)) in
    (x ∈ rise_inputs hash steps b \/ exists a, rise hash steps b = Some a /\ x = FZN_BLOB_ROOT_LABEL ++ be64 n ++ a).

(** What is hashed for the blob above its leaves. *)
Definition tree_input (x : bytes) : Prop :=
  run_input hash hs x \/ exists a, apex hash hs a /\ x = FZN_BLOB_ROOT_LABEL ++ be64 (zlen hs) ++ a.

(** What verifies under a blob's root is its count and its span's hash. *)
Lemma verifies_names b f c n siblings cnt : 0 <= f -> zlen b = FZN_BLOB_HASH_LEN ->
  cnt * FZN_BLOB_HASH_LEN <= zlen (default [] siblings) -> verifies hash b f c n siblings cnt root ->
  (n = zlen hs /\ 1 <= c /\ f + c <= zlen hs /\ apex hash (slice f c hs) b) \/
  collision hash tree_input (climb_input b f c n siblings).
Proof.
  intros Hf Hb Hcap (Hn & Hc & _ & st & a & Hst & -> & Hrise & Ha). destruct Hroot as (t & Ht & Hr).
  destruct (decide (be64 n ++ a = be64 (zlen hs) ++ t)) as [E|Hne].
  2:{ right. exists (FZN_BLOB_ROOT_LABEL ++ be64 (zlen hs) ++ t), (FZN_BLOB_ROOT_LABEL ++ be64 n ++ a), root.
    split_and!; [right; by exists t|exists st; split; [done|]; right; by exists a|intros E; by apply app_inv_head in E|done|done]. }
  apply app_inj_1 in E as [E ->]; [|done]. apply be64_inj in E as ->;
    [|change FZN_BLOB_MAX_LEAVES with 1099511627776 in *; width; pose proof (zlen_nonneg hs); lia..].
  pose proof (reaches_within _ _ _ _ _ Hst).
  destruct (rise_names hash Hlen hs f c 0 (zlen hs) st Hst Hhs (siblings_of (default [] siblings) (zlen st)) t b) as [H1|H1];
    try done; try lia; [| |by rewrite slice_all by lia|left; split_and!; lia || done|].
  - unfold siblings_of. rewrite length_fmap, length_seqZ. unfold zlen. lia.
  - apply Forall_fmap, Forall_forall. intros j Hj. apply list_elem_of_In, elem_of_seqZ in Hj.
    change FZN_BLOB_HASH_LEN with 32 in *. unfold hash_at. cbn. apply zlen_slice; change FZN_BLOB_HASH_LEN with 32; lia.
  - right. eapply collision_mono; [..|exact H1]; [by left|]. intros y Hy. exists st. split; [done|by left].
Qed.
End Sound.

(** What is hashed to name the blob of the sealed leaves. *)
Definition blob_input (hash : fzn_hash_ops) (sealed hs : list bytes) (x : bytes) : Prop :=
  (exists s, s ∈ sealed /\ x = [FZN_BLOB_LEAF_PREFIX] ++ s) \/ tree_input hash hs x.

(** A blob, and a peer's proof against its root. *)
Section Named.
Context (hash : fzn_hash_ops) (sealed hs : list bytes) (root : bytes) (n cnt : Z) (siblings : option bytes).
Hypothesis Hlen : forall x d, hash FZN_BLOB_HASH_LEN x = Some d -> zlen d = FZN_BLOB_HASH_LEN.
Hypothesis Hsealed : Forall2 (fun s h => fzn_blob_leaf_hash (Some (Some hash)) s = (FZN_BLOB_OK, Some h)) sealed hs.
Hypothesis Hm : zlen hs <= FZN_BLOB_MAX_LEAVES.
Hypothesis Hroot : root_of hash hs root.
Hypothesis Hn : 0 <= n.
Hypothesis Hcnt : 0 <= cnt.
Hypothesis Hcap : cnt * FZN_BLOB_HASH_LEN <= zlen (default [] siblings).

Lemma leaf_hash_input s h : fzn_blob_leaf_hash (Some (Some hash)) s = (FZN_BLOB_OK, Some h) ->
  hash FZN_BLOB_HASH_LEN ([FZN_BLOB_LEAF_PREFIX] ++ s) = Some h.
Proof using. intros H. unfold fzn_blob_leaf_hash in H. destruct (_ || _); [done|]. destruct (hash _ _); congruence. Qed.

Lemma sealed_hashes : hashes hs.
Proof using Hlen Hsealed.
  eapply Forall2_Forall_r; [exact Hsealed|]. apply Forall_true. intros h s Hs. by apply leaf_hash_input, Hlen in Hs.
Qed.

(** One leaf hash, one leaf. *)
Lemma leaf_hash_names i h leaf : hs !! i = Some h -> fzn_blob_leaf_hash (Some (Some hash)) leaf = (FZN_BLOB_OK, Some h) ->
  sealed !! i = Some leaf \/ collision hash (blob_input hash sealed hs) (fun x => x = [FZN_BLOB_LEAF_PREFIX] ++ leaf).
Proof using Hsealed.
  intros Hi Hh. destruct (Forall2_lookup_r _ _ _ _ _ Hsealed Hi) as (s & Hs & Hsh).
  destruct (decide (s = leaf)) as [->|Hne]; [by left|]. right.
  exists ([FZN_BLOB_LEAF_PREFIX] ++ s), ([FZN_BLOB_LEAF_PREFIX] ++ leaf), h.
  split_and!; [|done|by intros [= ->]|by apply leaf_hash_input..]. left. exists s. split; [by apply list_elem_of_lookup_2 in Hs|done].
Qed.

Lemma leaf_proof_names leaf h index : 0 <= index ->
  fzn_blob_leaf_hash (Some (Some hash)) leaf = (FZN_BLOB_OK, Some h) ->
  fzn_blob_proof_verify (Some (Some hash)) h index n siblings cnt root = FZN_BLOB_OK ->
  (n = zlen hs /\ sealed !! Z.to_nat index = Some leaf) \/
  collision hash (blob_input hash sealed hs)
    (fun x => x = [FZN_BLOB_LEAF_PREFIX] ++ leaf \/ climb_input hash h index 1 n siblings x).
Proof.
  intros Hi Hh Hv. apply leaf_verify_iff in Hv; [|lia..]. pose proof sealed_hashes as Hhs.
  destruct (verifies_names hash hs root Hlen Hhs Hm Hroot h index 1 n siblings cnt Hi) as [(-> & _ & Hin & Ha)|Hcol]; try done;
    [by apply leaf_hash_input, Hlen in Hh| |right; eapply collision_mono; [..|exact Hcol]; intros; by right].
  destruct (lookup_lt_is_Some_2 hs (Z.to_nat index)) as [h' Hh']; [unfold zlen in Hin; lia|].
  assert (slice index 1 hs = [h']) as E by (unfold slice; by rewrite (drop_S _ _ _ Hh')).
  rewrite E in Ha. pose proof (apex_det _ _ _ _ Ha (apex_leaf hash h')) as ->.
  destruct (leaf_hash_names _ _ _ Hh' Hh) as [|Hcol]; [by left|right].
  eapply collision_mono; [..|exact Hcol]; [done|]; intros x Hx; by left.
Qed.

Lemma span_proof_names got span_root f c : 0 <= f -> hashes got -> zlen got = c -> c < FZN_BLOB_MAX_LEAVES ->
  fzn_blob_span_root (Some (Some hash)) (concat got) c = (FZN_BLOB_OK, Some span_root) ->
  fzn_blob_span_proof_verify (Some (Some hash)) span_root f c n siblings cnt root = FZN_BLOB_OK ->
  (n = zlen hs /\ f + c <= zlen hs /\ got = slice f c hs) \/
  collision hash (tree_input hash hs) (fun x => run_input hash got x \/ climb_input hash span_root f c n siblings x).
Proof.
  pose proof sealed_hashes as Hhs. intros Hf Hgot Hc Hcm Hsr Hv. apply span_verify_iff in Hv as Hv'; [|lia..|subst c; apply zlen_nonneg|lia].
  unfold fzn_blob_span_root in Hsr. destruct ((c =? 0) || _) eqn:E; [done|].
  pose proof (subtree_root_spec hash got 0 c Hgot ltac:(lia) ltac:(pose proof (zlen_nonneg got); lia) ltac:(lia) Hcm) as Hap.
  rewrite Hsr, slice_all in Hap by lia.
  destruct (verifies_names hash hs root Hlen Hhs Hm Hroot span_root f c n siblings cnt Hf) as [(-> & _ & Hin & Ha)|Hcol]; try done;
    [by eapply (apex_len hash Hlen)| |right; eapply collision_mono; [..|exact Hcol]; [done|]; intros; by right].
  assert (hashes (slice f c hs)) as Hsub by (by apply Forall_take, Forall_drop).
  destruct (apex_names hash Hlen (slice f c hs) span_root Ha Hsub got Hgot) as [E2|Hcol];
    [pose proof (zlen_nonneg got); rewrite zlen_slice; lia|done|by left; split_and!|right].
  eapply collision_mono; [..|exact Hcol]; [|by left]. intros x Hx. left.
  apply (run_input_app _ (take (Z.to_nat f) hs) _ (drop (Z.to_nat c) (drop (Z.to_nat f) hs))) in Hx.
  unfold slice in Hx. by rewrite !take_drop in Hx.
Qed.
End Named.

(** C39: A proof shows the blob and nothing else. Against the root of a blob
    of the sealed leaves [sealed], whatever count, siblings and bytes a peer
    sends, a leaf that verifies is the blob's leaf at that index, and leaves
    whose span verifies are the blob's leaves of that span, the count claimed
    being the blob's; or what was hashed to name the blob and what the
    verifier hashed hold two different inputs of one hash. *)
Theorem proofs_name_one_blob (hash : fzn_hash_ops) (sealed hs : list bytes) root n siblings cnt :
  (forall x d, hash FZN_BLOB_HASH_LEN x = Some d -> zlen d = FZN_BLOB_HASH_LEN) ->
  Forall2 (fun s h => fzn_blob_leaf_hash (Some (Some hash)) s = (FZN_BLOB_OK, Some h)) sealed hs ->
  zlen hs <= FZN_BLOB_MAX_LEAVES -> root_of hash hs root ->
  0 <= n -> 0 <= cnt -> cnt * FZN_BLOB_HASH_LEN <= zlen (default [] siblings) ->
  (forall leaf h index, 0 <= index ->
    fzn_blob_leaf_hash (Some (Some hash)) leaf = (FZN_BLOB_OK, Some h) ->
    fzn_blob_proof_verify (Some (Some hash)) h index n siblings cnt root = FZN_BLOB_OK ->
    (n = zlen hs /\ sealed !! Z.to_nat index = Some leaf) \/
    collision hash (blob_input hash sealed hs)
      (fun x => x = [FZN_BLOB_LEAF_PREFIX] ++ leaf \/ climb_input hash h index 1 n siblings x)) /\
  (forall got span_root f c, 0 <= f -> hashes got -> zlen got = c -> c < FZN_BLOB_MAX_LEAVES ->
    fzn_blob_span_root (Some (Some hash)) (concat got) c = (FZN_BLOB_OK, Some span_root) ->
    fzn_blob_span_proof_verify (Some (Some hash)) span_root f c n siblings cnt root = FZN_BLOB_OK ->
    (n = zlen hs /\ got = slice f c hs) \/
    collision hash (tree_input hash hs) (fun x => run_input hash got x \/ climb_input hash span_root f c n siblings x)).
Proof.
  intros Hlen Hsealed Hm Hroot Hn Hcnt Hcap. split.
  - intros leaf h index. by apply leaf_proof_names.
  - intros got sr f c Hf Hgot Hc Hcm Hsr Hv.
    destruct (span_proof_names hash sealed hs root n cnt siblings Hlen Hsealed Hm Hroot Hn Hcnt Hcap got sr f c Hf Hgot Hc Hcm Hsr Hv)
      as [(-> & _ & ->)|]; [by left|by right].
Qed.

Definition demo_sealed : list bytes := [[7]; [8; 9]; [10]].
Definition demo_hashes : list bytes :=
  (fun s => default [] (snd (fzn_blob_leaf_hash (Some (Some sum_hash)) s))) <$> demo_sealed.
Definition demo_apex (a b : bytes) : bytes := default [] (node sum_hash a b).
Definition demo_sealed_root : bytes :=
  default [] (sum_hash 32 (FZN_BLOB_ROOT_LABEL ++ be64 3 ++
    demo_apex (demo_apex (nth 0 demo_hashes []) (nth 1 demo_hashes [])) (nth 2 demo_hashes []))).

Lemma demo_sealed_root_of : root_of sum_hash demo_hashes demo_sealed_root.
Proof.
  exists (demo_apex (demo_apex (nth 0 demo_hashes []) (nth 1 demo_hashes [])) (nth 2 demo_hashes [])).
  split; [|vm_compute; reflexivity].
  change demo_hashes with (([nth 0 demo_hashes []] ++ [nth 1 demo_hashes []]) ++ [nth 2 demo_hashes []]).
  apply (apex_node sum_hash 1 _ _ (demo_apex (nth 0 demo_hashes []) (nth 1 demo_hashes [])) (nth 2 demo_hashes []));
    [lia|done|done| |constructor|vm_compute; reflexivity].
  apply (apex_node sum_hash 0 _ _ (nth 0 demo_hashes []) (nth 1 demo_hashes []));
    [lia|done|done|constructor|constructor|vm_compute; reflexivity].
Qed.

Definition demo_proof : bytes :=
  snd (fst (fzn_blob_proof_build (Some (Some sum_hash)) (concat demo_hashes) 3 1 (zeros 64))).

Lemma proofs_name_one_blob_witness :
  fzn_blob_proof_verify (Some (Some sum_hash)) (nth 1 demo_hashes []) 1 3 (Some demo_proof) 2 demo_sealed_root = FZN_BLOB_OK /\
  ((3 = zlen demo_hashes /\ demo_sealed !! Z.to_nat 1 = Some [8; 9]) \/
   collision sum_hash (blob_input sum_hash demo_sealed demo_hashes)
     (fun x => x = [FZN_BLOB_LEAF_PREFIX] ++ [8; 9] \/ climb_input sum_hash (nth 1 demo_hashes []) 1 1 3 (Some demo_proof) x)).
Proof.
  assert (fzn_blob_proof_verify (Some (Some sum_hash)) (nth 1 demo_hashes []) 1 3 (Some demo_proof) 2 demo_sealed_root = FZN_BLOB_OK)
    as Hv by (vm_compute; reflexivity).
  split; [exact Hv|].
  assert (Forall2 (fun s h => fzn_blob_leaf_hash (Some (Some sum_hash)) s = (FZN_BLOB_OK, Some h)) demo_sealed demo_hashes) as Hs
    by (repeat constructor).
  destruct (proofs_name_one_blob sum_hash demo_sealed demo_hashes demo_sealed_root 3 (Some demo_proof) 2
    ltac:(intros x d [= <-]; reflexivity) Hs ltac:(done) demo_sealed_root_of ltac:(lia) ltac:(lia)
    ltac:(vm_compute; discriminate)) as [Hleaf _].
  apply (Hleaf [8; 9] (nth 1 demo_hashes []) 1); [lia|reflexivity|exact Hv].
Defined.
