(* ===== verification/Storage.v ===== *)
(** * Storage behind offsets

    What [blob/levels.c] and [spool/spool.c] rely on of the storage a caller
    gives them, as an interface, and an array that keeps to it. *)

From S2P Require Import Prelude.

(** A write that succeeds is read back, and leaves the other bytes alone. *)
Class Storage {S} (read : S -> Z -> Z -> option bytes) (write : S -> Z -> bytes -> bool * S) : Prop := {
  so_same : forall s off b s', 0 <= off -> write s off b = (true, s') -> read s' off (zlen b) = Some b;
  so_other : forall s off b s' o n, 0 <= off -> write s off b = (true, s') -> 0 <= o -> 0 <= n ->
    o + n <= off \/ off + zlen b <= o -> read s' o n = read s o n
}.

(** So does a write that fails, whatever it leaves in its own range; and what
    is read can be read in pieces. *)
Class SteadyStorage {S} (read : S -> Z -> Z -> option bytes) (write : S -> Z -> bytes -> bool * S) : Prop := {
  st_storage :: Storage read write;
  st_refused : forall s off b s' o n, 0 <= off -> write s off b = (false, s') -> 0 <= o -> 0 <= n ->
    o + n <= off \/ off + zlen b <= o -> read s' o n = read s o n;
  st_pieces : forall s o m n a b, 0 <= o -> 0 <= m -> 0 <= n ->
    read s o m = Some a -> read s (o + m) n = Some b -> read s o (m + n) = Some (a ++ b)
}.

(** The storage has refused a write. *)
Definition write_fails {S} (write : S -> Z -> bytes -> bool * S) : Prop := exists s off b, fst (write s off b) = false.

(** An array of bytes, which refuses what does not fit. *)
Definition mem_read (s : bytes) (off len : Z) : option bytes := if off + len <=? zlen s then Some (slice off len s) else None.
Definition mem_write (s : bytes) (off : Z) (b : bytes) : bool * bytes :=
  if off + zlen b <=? zlen s then (true, blit off b s) else (false, s).

#[export] Instance mem_storage : SteadyStorage mem_read mem_write.
Proof.
  split; [split|..].
  - intros s off b s' Ho Hw. unfold mem_write in Hw. destruct (Z.leb_spec (off + zlen b) (zlen s)); [|done]. injection Hw as <-.
    unfold mem_read. rewrite zlen_blit by lia. destruct (Z.leb_spec (off + zlen b) (zlen s)); [|lia]. by rewrite slice_blit_same by lia.
  - intros s off b s' o n Ho Hw Ho' Hn Hd. unfold mem_write in Hw. destruct (Z.leb_spec (off + zlen b) (zlen s)); [|done]. injection Hw as <-.
    unfold mem_read. rewrite zlen_blit by lia. by rewrite slice_blit_disjoint by lia.
  - intros s off b s' o n Ho Hw. unfold mem_write in Hw. destruct (_ <=? _); [done|]. by injection Hw as <-.
  - intros s o m n a b Ho Hm Hn Ha Hb. unfold mem_read in *. destruct (_ <=? _) in Ha; [|done].
    destruct (Z.leb_spec (o + m + n) (zlen s)) in Hb; [|done]. injection Ha as <-. injection Hb as <-.
    destruct (Z.leb_spec (o + (m + n)) (zlen s)); [|lia]. by rewrite slice_app.
Qed.
