(* ===== verification/BlobLevels.v ===== *)
(** * blob/levels.c: a blob's tree kept outside memory

    Every perfect subtree written as leaves are pushed, a level after the
    other, and the root of any run of leaves read back. The storage is the
    caller's: [S] is its state, [read] and [write] its operations. *)

From S2P Require Import Prelude Storage Bytes Revocation Blob BlobTree BlobSpan BlobProof.

Record fzn_blob_levels_io (S : Type) := mk_levels_io {
  io_read : option (S -> Z -> Z -> option bytes);
  io_write : option (S -> Z -> bytes -> bool * S)
}.
Arguments mk_levels_io {S}.
Arguments io_read {S}.
Arguments io_write {S}.

(** [for (l = 0; l < level; l++) at += leaves >> l;] *)
Fixpoint level_at (leaves : Z) (level : nat) : Z :=
  match level with
  | O => 0
  | S l => u64 (level_at leaves l + Z.shiftr leaves (Z.of_nat l))
  end.

(** The levels that hold a node, from [levels] on, [turns] at most. *)
Fixpoint count_levels (turns : nat) (leaves : Z) (levels : nat) : nat :=
  match turns with
  | O => levels
  | S turns => if negb (Z.shiftr leaves (Z.of_nat levels) =? 0) then count_levels turns leaves (S levels) else levels
  end.

Definition fzn_blob_levels_bytes (leaves : Z) : Z :=
  if (leaves =? 0) || (leaves >? FZN_BLOB_MAX_LEAVES) then 0
  else u64 (level_at leaves (count_levels (Z.to_nat FZN_BLOB_MAX_DEPTH) leaves 0) * FZN_BLOB_HASH_LEN).

Record fzn_blob_levels_builder := mk_builder { lb_leaves : Z; lb_pushed : Z; lb_pending : list bytes }.

(** [None] is a refusal, the builder left alone. *)
Definition fzn_blob_levels_begin (leaves : Z) : fzn_blob_err * option fzn_blob_levels_builder :=
  if (leaves =? 0) || (leaves >? FZN_BLOB_MAX_LEAVES) then (FZN_BLOB_ERR_MALFORMED, None)
  else (FZN_BLOB_OK, Some (mk_builder leaves 0 (replicate (Z.to_nat FZN_BLOB_MAX_DEPTH) (zeros FZN_BLOB_HASH_LEN)))).

(** Where a node lies. *)
Definition node_at (leaves : Z) (level : nat) (index : Z) : Z := u64 (u64 (level_at leaves level + index) * FZN_BLOB_HASH_LEN).

Definition put_node {S} (write : S -> Z -> bytes -> bool * S) (s : S) (leaves : Z) (level : nat) (index : Z) (node : bytes)
    : bool * S := write s (node_at leaves level index) node.

(** The loop of a push from [level] up; its guard ends it within 40 turns. *)
Fixpoint carry_loop {S} (turns : nat) (hash : hash_vtable) (write : S -> Z -> bytes -> bool * S) (s : S)
    (builder : fzn_blob_levels_builder) (level : nat) (index : Z) (node : bytes) : fzn_blob_err * S * fzn_blob_levels_builder :=
  match turns with
  | O => (FZN_BLOB_ERR_SHAPE, s, builder)
  | Datatypes.S turns =>
    match put_node write s (lb_leaves builder) level index node with
    | (false, s) => (FZN_BLOB_ERR_IO, s, builder)
    | (true, s) =>
      if Z.land index 1 =? 0
      then (FZN_BLOB_OK, s, mk_builder (lb_leaves builder) (lb_pushed builder) (<[level := node]> (lb_pending builder)))
      else if Z.of_nat level + 1 >=? FZN_BLOB_MAX_DEPTH then (FZN_BLOB_ERR_SHAPE, s, builder)
      else match fzn_blob_node_hash hash (nth level (lb_pending builder) []) node with
      | (FZN_BLOB_OK, Some node) => carry_loop turns hash write s builder (Datatypes.S level) (Z.shiftr index 1) node
      | (err, _) => (err, s, builder)
      end
    end
  end.

Definition fzn_blob_levels_push {S} (hash : hash_vtable) (builder : fzn_blob_levels_builder) (io : option (fzn_blob_levels_io S))
    (s : S) (leaf_hash : bytes) : fzn_blob_err * S * fzn_blob_levels_builder :=
  match hash, io ≫= io_write with
  | Some _, Some write =>
    if lb_pushed builder >=? lb_leaves builder then (FZN_BLOB_ERR_FULL, s, builder)
    else
      carry_loop 40 hash write s (mk_builder (lb_leaves builder) (lb_pushed builder + 1) (lb_pending builder)) 0
        (lb_pushed builder) leaf_hash
  | _, _ => (FZN_BLOB_ERR_MALFORMED, s, builder)
  end.

(** [split_at] under another name. *)
Definition split_below (n : Z) : Z := split_loop 64 n 1.

(** [while ((1 << level) < n) level++;], [turns] at most *)
Fixpoint level_loop (turns : nat) (n : Z) (level : nat) : nat :=
  match turns with
  | O => level
  | S turns => if u64 (Z.shiftl 1 (Z.of_nat level)) <? n then level_loop turns n (S level) else level
  end.

(** The levels of a blob of [lv_leaves] behind a storage in state [s]. *)
Record fzn_blob_levels (S : Type) := mk_levels {
  lv_hash : hash_vtable;
  lv_io : option (fzn_blob_levels_io S);
  lv_leaves : Z
}.
Arguments mk_levels {S}.
Arguments lv_hash {S}.
Arguments lv_io {S}.
Arguments lv_leaves {S}.

(** [turns] bounds the recursion, which halves [n]. *)
Fixpoint levels_subtree {S} (turns : nat) (levels : fzn_blob_levels S) (s : S) (lo n : Z) : fzn_blob_err * option bytes :=
  match turns, lv_hash levels, lv_io levels ≫= io_read with
  | Datatypes.S turns, Some _, Some read =>
    if (n =? 0) || (lo >? lv_leaves levels) || (n >? lv_leaves levels - lo) then (FZN_BLOB_ERR_MALFORMED, None)
    else if (Z.land n (n - 1) =? 0) && (Z.land lo (n - 1) =? 0) then
      let level := level_loop 64 n 0 in
      match read s (node_at (lv_leaves levels) level (Z.shiftr lo (Z.of_nat level))) FZN_BLOB_HASH_LEN with
      | Some h => (FZN_BLOB_OK, Some h)
      | None => (FZN_BLOB_ERR_IO, None)
      end
    else
      let k := split_below n in
      match levels_subtree turns levels s lo k with
      | (FZN_BLOB_OK, Some left_) =>
        match levels_subtree turns levels s (lo + k) (n - k) with
        | (FZN_BLOB_OK, Some out) => fzn_blob_node_hash (lv_hash levels) left_ out
        | (err, _) => (err, None)
        end
      | (err, _) => (err, None)
      end
  | _, _, _ => (FZN_BLOB_ERR_MALFORMED, None)
  end.

(** A 64-bit [n] halves 64 times; NULL levels are [None]. *)
Definition fzn_blob_levels_subtree {S} (levels : option (fzn_blob_levels S)) (s : S) : fzn_blob_subtree :=
  fun lo n => match levels with
    | None => (FZN_BLOB_ERR_MALFORMED, None)
    | Some levels => levels_subtree 65 levels s lo n
    end.

Definition fzn_blob_levels_leaf {S} (levels : option (fzn_blob_levels S)) (s : S) (index : Z) : fzn_blob_err * option bytes :=
  match levels with
  | None => (FZN_BLOB_ERR_MALFORMED, None)
  | Some l => if index >=? lv_leaves l then (FZN_BLOB_ERR_MALFORMED, None) else fzn_blob_levels_subtree levels s index 1
  end.

Definition fzn_blob_levels_span_proof {S} (levels : option (fzn_blob_levels S)) (s : S) (first count : Z) (out : bytes)
    : fzn_blob_err * bytes * option Z :=
  match levels with
  | None => (FZN_BLOB_ERR_MALFORMED, out, None)
  | Some l => fzn_blob_span_proof_from (fzn_blob_levels_subtree levels s) (lv_leaves l) first count out
  end.

(** ** Where nodes lie *)

Lemma shiftr_le leaves l : 0 <= leaves -> 0 <= Z.shiftr leaves (Z.of_nat l) <= leaves.
Proof.
  intros H. rewrite Z.shiftr_div_pow2 by lia. pose proof (Z.pow_pos_nonneg 2 (Z.of_nat l) ltac:(lia) ltac:(lia)).
  split; [apply Z.div_pos; lia|]. apply Z.div_le_upper_bound; nia.
Qed.

Lemma shiftr_S leaves l : 0 <= leaves -> 2 * Z.shiftr leaves (Z.of_nat (S l)) <= Z.shiftr leaves (Z.of_nat l).
Proof.
  intros H. replace (Z.of_nat (S l)) with (Z.of_nat l + 1) by lia. rewrite <- Z.shiftr_shiftr by lia.
  rewrite (Z.shiftr_div_pow2 _ 1) by lia. change (2 ^ 1) with 2. dlia.
Qed.

(** The sum does not wrap, and stays a little under twice the leaves. *)
Lemma level_at_spec leaves l : 0 <= leaves <= FZN_BLOB_MAX_LEAVES ->
  level_at leaves (S l) = level_at leaves l + Z.shiftr leaves (Z.of_nat l) /\
  0 <= level_at leaves l /\ level_at leaves l + 2 * Z.shiftr leaves (Z.of_nat l) <= 2 * leaves.
Proof.
  intros Hl. change FZN_BLOB_MAX_LEAVES with 1099511627776 in *.
  assert (0 <= level_at leaves l /\ level_at leaves l + 2 * Z.shiftr leaves (Z.of_nat l) <= 2 * leaves) as [H0 H1].
  { induction l as [|l [IH0 IH1]].
    - cbn [level_at]. rewrite Z.shiftr_0_r. lia.
    - cbn [level_at]. pose proof (shiftr_le leaves l ltac:(lia)). pose proof (shiftr_S leaves l ltac:(lia)).
      rewrite u64_small by (width; lia). lia. }
  split_and!; [|done..]. cbn [level_at]. apply u64_small. pose proof (shiftr_le leaves l ltac:(lia)). width. lia.
Qed.

Lemma level_at_mono leaves l l' : 0 <= leaves <= FZN_BLOB_MAX_LEAVES -> (l <= l')%nat -> level_at leaves l <= level_at leaves l'.
Proof.
  intros Hl. induction 1 as [|l' _ IH]; [lia|]. destruct (level_at_spec leaves l' Hl) as (-> & _).
  pose proof (shiftr_le leaves l' ltac:(lia)). lia.
Qed.

Lemma node_at_spec leaves l j : 0 <= leaves <= FZN_BLOB_MAX_LEAVES -> 0 <= j < Z.shiftr leaves (Z.of_nat l) ->
  node_at leaves l j = (level_at leaves l + j) * 32.
Proof.
  intros Hl Hj. unfold node_at, FZN_BLOB_HASH_LEN. destruct (level_at_spec leaves l Hl) as (_ & H0 & H1).
  change FZN_BLOB_MAX_LEAVES with 1099511627776 in *. rewrite !u64_small; rewrite ?u64_small; width; lia.
Qed.

(** Two nodes lie apart. *)
Lemma node_at_apart leaves l j l' j' : 0 <= leaves <= FZN_BLOB_MAX_LEAVES ->
  0 <= j < Z.shiftr leaves (Z.of_nat l) -> 0 <= j' < Z.shiftr leaves (Z.of_nat l') -> (l, j) <> (l', j') ->
  node_at leaves l j + 32 <= node_at leaves l' j' \/ node_at leaves l' j' + 32 <= node_at leaves l j.
Proof.
  intros Hl Hj Hj' Hne. rewrite !node_at_spec by done.
  destruct (decide (l = l')) as [->|Hll].
  - assert (j <> j') by congruence. lia.
  - destruct (level_at_spec leaves l Hl) as (E & _), (level_at_spec leaves l' Hl) as (E' & _).
    destruct (decide (l < l')%nat).
    + pose proof (level_at_mono leaves (S l) l' Hl ltac:(lia)). lia.
    + pose proof (level_at_mono leaves (S l') l Hl ltac:(lia)). lia.
Qed.

(** ** What is kept *)

Section Kept.
Context {S : Type} (read : S -> Z -> Z -> option bytes) (write : S -> Z -> bytes -> bool * S).
Context (hash : fzn_hash_ops) (hs : list bytes).
Context {Hio : Storage read write}.
Hypothesis Hlen : forall x d, hash FZN_BLOB_HASH_LEN x = Some d -> zlen d = FZN_BLOB_HASH_LEN.
Hypothesis Hhs : hashes hs.
Hypothesis Hmax : zlen hs <= FZN_BLOB_MAX_LEAVES.

Abbreviation pow l := (2 ^ Z.of_nat l).

(** The leaves under node [j] of level [l]. *)
Definition under (l : nat) (j : Z) : list bytes := slice (j * pow l) (pow l) hs.

Definition stored (s : S) (l : nat) (j : Z) : Prop :=
  exists h, read s (node_at (zlen hs) l j) FZN_BLOB_HASH_LEN = Some h /\ apex hash (under l j) h.

(** After [p] leaves: every perfect subtree over them is stored, and each
    level's last left node waits for its sibling. *)
Record kept (p : Z) (s : S) (pending : list bytes) : Prop := {
  kp_nodes : forall l j, 0 <= j -> (j + 1) * pow l <= p -> stored s l j;
  kp_pending : forall l, (l < 40)%nat -> Z.odd (p / pow l) = true -> apex hash (under l (p / pow l - 1)) (nth l pending []);
  kp_length : length pending = 40%nat
}.

Lemma pow_pos l : 0 < pow l.
Proof. apply Z.pow_pos_nonneg; lia. Qed.

Lemma under_within l j : 0 <= j -> (j + 1) * pow l <= zlen hs -> 0 <= j < Z.shiftr (zlen hs) (Z.of_nat l).
Proof.
  intros Hj H. rewrite Z.shiftr_div_pow2 by lia. pose proof (pow_pos l).
  pose proof (Z.div_le_lower_bound (zlen hs) (pow l) (j + 1) ltac:(lia) ltac:(lia)). lia.
Qed.

(** Two siblings make their parent. *)
Lemma under_pair l j a b c : 0 <= j -> Z.odd j = true -> (j + 1) * pow l <= zlen hs ->
  apex hash (under l (j - 1)) a -> apex hash (under l j) b -> node hash a b = Some c ->
  apex hash (under (Datatypes.S l) (j / 2)) c.
Proof.
  intros Hj Hodd Hl Ha Hb Hc. pose proof (pow_pos l) as Hp. apply Z.odd_spec in Hodd as [q ->].
  replace ((2 * q + 1) / 2) with q by dlia. unfold under in *. replace (2 * q + 1 - 1) with (2 * q) in Ha by lia.
  assert (pow (Datatypes.S l) = pow l + pow l) as Ep by (rewrite Nat2Z.inj_succ, Z.pow_succ_r by lia; lia). rewrite Ep.
  replace (q * (pow l + pow l)) with (2 * q * pow l) by lia. rewrite <- slice_app by nia.
  replace (2 * q * pow l + pow l) with ((2 * q + 1) * pow l) by lia.
  apply (apex_closed hash (Z.of_nat l) _ _ a b c); [lia|apply zlen_slice; nia|apply zlen_slice; nia|done..].
Qed.

Lemma stored_after s l i node s' : 0 <= i -> (i + 1) * pow l <= zlen hs ->
  put_node write s (zlen hs) l i node = (true, s') -> zlen node = FZN_BLOB_HASH_LEN -> apex hash (under l i) node ->
  stored s' l i /\
  forall l' j, 0 <= j -> (j + 1) * pow l' <= zlen hs -> (l', j) <> (l, i) -> stored s l' j -> stored s' l' j.
Proof.
  intros Hi Hl Hw Hz Ha. pose proof (under_within l i Hi Hl) as Hin. unfold put_node in Hw. pose proof (zlen_nonneg hs).
  assert (0 <= node_at (zlen hs) l i) as H0.
  { rewrite node_at_spec by (split; lia || done). destruct (level_at_spec (zlen hs) l ltac:(lia)) as (_ & ? & _). lia. }
  split.
  - exists node. split; [|done]. rewrite <- Hz. by apply (so_same s).
  - intros l' j Hj Hl' Hne (h & Hr & Hh). exists h. split; [|done]. rewrite <- Hr.
    pose proof (under_within l' j Hj Hl') as Hin'.
    assert (0 <= node_at (zlen hs) l' j) as H1.
    { rewrite node_at_spec by (split; lia || done). destruct (level_at_spec (zlen hs) l' ltac:(lia)) as (_ & ? & _). lia. }
    apply (so_other s _ _ _ _ _ H0 Hw H1); [done|]. rewrite Hz.
    change FZN_BLOB_HASH_LEN with 32. apply node_at_apart; [lia|done..].
Qed.

(** Where no carry passes, the count reads the same. *)
Lemma no_carry p l i l' : 0 <= p -> (i + 1) * pow l = p + 1 -> Z.even i = true -> (l < l')%nat -> (p + 1) / pow l' = p / pow l'.
Proof.
  intros Hp Hi He Hl. pose proof (pow_pos l). apply Z.even_spec in He as [q ->].
  replace (Z.of_nat l') with (Z.of_nat l + 1 + Z.of_nat (l' - l - 1)) by lia. rewrite !Z.pow_add_r, <- !Z.div_div by (try lia; apply Z.pow_pos_nonneg; lia).
  f_equal. rewrite <- Hi. replace p with ((pow l - 1) + (2 * q) * pow l) by lia.
  rewrite Z.div_mul, Z.div_add, (Z.div_small (pow l - 1)) by lia. change (2 ^ 1) with 2. dlia.
Qed.

(** A left node waits for its sibling, and the push is done. *)
Lemma kept_even p s l i pending node : 1 <= p <= zlen hs -> (l < 40)%nat -> 0 <= i -> (i + 1) * pow l = p -> Z.even i = true ->
  length pending = 40%nat -> stored s l i ->
  (forall l' j, 0 <= j -> (j + 1) * pow l' <= p -> (j + 1) * pow l' <= p - 1 \/ (l' < l)%nat -> (l', j) <> (l, i) -> stored s l' j) ->
  (forall l', (l' < 40)%nat -> Z.odd ((p - 1) / pow l') = true -> apex hash (under l' ((p - 1) / pow l' - 1)) (nth l' pending [])) ->
  apex hash (under l i) node -> kept p s (<[l := node]> pending).
Proof.
  intros Hn Hl Hi Hp He Hlp Hnew Hold Hpend Ha. pose proof (pow_pos l) as Hpl. split; [| |by rewrite length_insert].
  - intros l' j Hj Hle. destruct (decide ((l', j) = (l, i))) as [[= -> ->]|Hne]; [done|].
    apply Hold; [done..| |done].
    destruct (decide ((j + 1) * pow l' <= p - 1)); [by left|]. destruct (decide (l' < l)%nat); [by right|]. exfalso.
    assert ((j + 1) * pow (l' - l) = i + 1) as E.
    { apply (Z.mul_reg_r _ _ (pow l)); [lia|]. rewrite <- Z.mul_assoc, <- Z.pow_add_r by lia.
      replace (Z.of_nat (l' - l) + Z.of_nat l) with (Z.of_nat l') by lia. lia. }
    destruct (decide (l' = l)) as [->|]; [rewrite Nat.sub_diag in E; change (pow 0) with 1 in E; apply Hne; f_equal; lia|].
    replace (l' - l)%nat with (Datatypes.S (l' - l - 1)) in E by lia. rewrite Nat2Z.inj_succ, Z.pow_succ_r in E by lia.
    apply Z.even_spec in He as [q ->]. lia.
  - intros l' Hl' Ho. destruct (Nat.lt_trichotomy l' l) as [Hlt|[->|Hgt]].
    + exfalso. rewrite <- Hp in Ho. replace (Z.of_nat l) with (Z.of_nat (l - l' - 1) + 1 + Z.of_nat l') in Ho by lia.
      rewrite !Z.pow_add_r, Z.mul_assoc, Z.div_mul in Ho by (try lia; pose proof (pow_pos l'); lia).
      change (2 ^ 1) with 2 in Ho. rewrite Z.mul_assoc, Z.odd_mul in Ho. by rewrite andb_false_r in Ho.
    + rewrite <- Hp, Z.div_mul in * by lia. replace (i + 1 - 1) with i by lia.
      by rewrite (nth_lookup_Some _ _ _ node) by (apply list_lookup_insert_eq; lia).
    + replace p with (p - 1 + 1) in Ho |- * by lia. rewrite (no_carry (p - 1) l i l') in Ho |- * by (lia || done).
      specialize (Hpend l' Hl' Ho). erewrite nth_lookup_Some; [exact Hpend|]. rewrite list_lookup_insert_ne by lia.
      destruct (lookup_lt_is_Some_2 pending l' ltac:(lia)) as [x Hx]. rewrite Hx. f_equal. symmetry. by apply nth_lookup_Some.
Qed.

Lemma carry_spec turns : forall s b l i nd,
  lb_leaves b = zlen hs -> (Z.of_nat l < 40) -> 40 - Z.of_nat l <= Z.of_nat turns -> 0 <= i ->
  (i + 1) * pow l = lb_pushed b -> lb_pushed b <= zlen hs ->
  length (lb_pending b) = 40%nat ->
  (forall l' j, 0 <= j -> (j + 1) * pow l' <= lb_pushed b -> (j + 1) * pow l' <= lb_pushed b - 1 \/ (l' < l)%nat -> stored s l' j) ->
  (forall l', (l' < 40)%nat -> Z.odd ((lb_pushed b - 1) / pow l') = true ->
    apex hash (under l' ((lb_pushed b - 1) / pow l' - 1)) (nth l' (lb_pending b) [])) ->
  apex hash (under l i) nd ->
  match carry_loop turns (Some (Some hash)) write s b l i nd with
  | (FZN_BLOB_OK, s', b') => kept (lb_pushed b) s' (lb_pending b') /\ lb_leaves b' = zlen hs /\ lb_pushed b' = lb_pushed b
  | (FZN_BLOB_ERR_IO, _, _) => write_fails write
  | (FZN_BLOB_ERR_HASH, _, _) => refuses hash
  | (FZN_BLOB_ERR_SHAPE, _, _) => lb_pushed b = FZN_BLOB_MAX_LEAVES
  | _ => False
  end.
Proof.
  induction turns as [|turns IH]; intros s b l i nd Hb Hl Ht Hi Hp Hn Hlp Hst Hpend Ha; [lia|].
  cbn [carry_loop]. rewrite Hb. destruct (put_node write s (zlen hs) l i nd) as [[] s'] eqn:Ew; [|by eexists s, _, _; unfold put_node in Ew; rewrite Ew].
  assert (hashes (under l i)) as Hu by (by apply Forall_take, Forall_drop).
  destruct (stored_after s l i nd s' Hi ltac:(lia) Ew ltac:(by eapply (apex_len hash Hlen)) Ha) as [Hnew Hold].
  pose proof (pow_pos l) as Hpl. change (Z.land i 1) with (Z.land i (Z.ones 1)). rewrite Z.land_ones by lia. change (2 ^ 1) with 2.
  destruct (Z.eqb_spec (i mod 2) 0) as [Hev|Hodd].
  - assert (Z.even i = true) as He by (rewrite Zeven_mod; by apply Z.eqb_eq).
    cbn [lb_pending lb_leaves lb_pushed]. split; [|done]. apply kept_even with (i := i); try done; [nia|lia|].
    intros l' j Hj Hle Hc Hne. apply Hold; [done|lia|done|]. by apply Hst.
  - destruct (Z.geb_spec (Z.of_nat l + 1) FZN_BLOB_MAX_DEPTH) as [Hd|Hd].
    { change FZN_BLOB_MAX_DEPTH with 40 in Hd. replace (Z.of_nat l) with 39 in * by lia.
      change FZN_BLOB_MAX_LEAVES with 1099511627776 in *. change (2 ^ 39) with 549755813888 in *. dlia. }
    rewrite node_hash_cases. set (a := nth l (lb_pending b) []). destruct (node hash a nd) as [c|] eqn:Ec; [|by exists a, nd].
    assert (Z.odd i = true) as Ho by (rewrite Zodd_mod; apply Z.eqb_eq; dlia).
    assert ((lb_pushed b - 1) / pow l = i) as Ediv.
    { rewrite <- Hp. replace ((i + 1) * pow l - 1) with ((pow l - 1) + i * pow l) by lia.
      rewrite Z.div_add, Z.div_small by lia. lia. }
    rewrite Z.shiftr_div_pow2 by lia. change (2 ^ 1) with 2. change FZN_BLOB_MAX_DEPTH with 40 in Hd.
    apply IH; try done; try lia.
    + apply Z.div_pos; lia.
    + rewrite Nat2Z.inj_succ, Z.pow_succ_r by lia. rewrite <- Hp. apply Z.odd_spec in Ho as [q ->].
      replace ((2 * q + 1) / 2) with q by dlia. lia.
    + intros l' j Hj Hle [Hc|Hc]; (destruct (decide ((l', j) = (l, i))) as [[= -> ->]|Hne]; [done|]; apply Hold; [done|lia|done|];
        apply Hst; [done..|]); [by left|]. destruct (decide (l' = l)) as [->|]; [|right; lia]. left.
      assert (j <> i) by congruence. nia.
    + apply (under_pair l i a nd c); try done; [lia|]. specialize (Hpend l ltac:(lia)). rewrite Ediv in Hpend. by apply Hpend.
Qed.

Lemma push_kept p s b leaf : kept p s (lb_pending b) -> lb_pushed b = p -> lb_leaves b = zlen hs -> hs !! Z.to_nat p = Some leaf ->
  0 <= p -> forall r,
  match fzn_blob_levels_push (Some (Some hash)) b (Some (mk_levels_io r (Some write))) s leaf with
  | (FZN_BLOB_OK, s', b') => kept (p + 1) s' (lb_pending b') /\ lb_leaves b' = zlen hs /\ lb_pushed b' = p + 1
  | (FZN_BLOB_ERR_IO, _, _) => write_fails write
  | (FZN_BLOB_ERR_HASH, _, _) => refuses hash
  | (FZN_BLOB_ERR_SHAPE, _, _) => p + 1 = FZN_BLOB_MAX_LEAVES
  | _ => False
  end.
Proof.
  intros [Hn Hp Hl] Epush El Hleaf H0 r. unfold fzn_blob_levels_push. cbn [mbind option_bind io_write].
  pose proof (lookup_lt_Some _ _ _ Hleaf) as Hlt. assert (p + 1 <= zlen hs) as Hle by (unfold zlen; lia).
  rewrite Epush, El. destruct (Z.geb_spec p (zlen hs)); [lia|].
  apply (carry_spec 40 s (mk_builder (zlen hs) (p + 1) (lb_pending b)) 0 p leaf); cbn [lb_leaves lb_pushed lb_pending]; try done; try lia.
  - intros l' j Hj Hle' [|]; [|lia]. apply Hn; lia.
  - intros l' Hl' Ho. replace (p + 1 - 1) with p in * by lia. by apply Hp.
  - unfold under. change (pow 0) with 1. rewrite Z.mul_1_r. unfold slice. rewrite (drop_S _ _ _ Hleaf). constructor.
Qed.
End Kept.

(** ** Reading them back *)

Lemma power_of_two n : 0 < n -> Z.land n (n - 1) = 0 -> n = 2 ^ Z.log2 n.
Proof.
  intros Hn H. destruct (Z.log2_spec n Hn) as [Hlo Hhi]. pose proof (Z.log2_nonneg n) as Hk.
  destruct (Z.eq_dec n (2 ^ Z.log2 n)) as [|Hne]; [done|]. exfalso.
  assert (Z.log2 (n - 1) = Z.log2 n) as E by (apply Z.log2_unique; lia).
  assert (Z.testbit (Z.land n (n - 1)) (Z.log2 n) = true) as Hb.
  { rewrite Z.land_spec, Z.bit_log2 by lia. rewrite <- E at 1. by rewrite Z.bit_log2 by lia. }
  rewrite H, Z.bits_0 in Hb. done.
Qed.

Lemma level_loop_spec turns : forall l m, (l <= m)%nat -> (m <= 62)%nat -> (m - l <= turns)%nat ->
  level_loop turns (2 ^ Z.of_nat m) l = m.
Proof.
  induction turns as [|turns IH]; intros l m Hl Hm Ht; cbn [level_loop]; [lia|].
  rewrite Z.shiftl_1_l, u64_small.
  2:{ pose proof (Z.pow_le_mono_r 2 (Z.of_nat l) 63 ltac:(lia) ltac:(lia)). pose proof (pow_pos l).
      change (2 ^ 63) with 9223372036854775808 in *. width. lia. }
  destruct (Z.ltb_spec (2 ^ Z.of_nat l) (2 ^ Z.of_nat m)) as [H|H].
  - apply Z.pow_lt_mono_r_iff in H; [|lia..]. apply IH; lia.
  - apply Z.pow_le_mono_r_iff in H; [|lia..]. lia.
Qed.

Section Read.
Context {S : Type} (read : S -> Z -> Z -> option bytes) (hash : fzn_hash_ops) (hs : list bytes).
Context (write : option (S -> Z -> bytes -> bool * S)) (s : S) (pending : list bytes).
Hypothesis Hmax : zlen hs <= FZN_BLOB_MAX_LEAVES.
Hypothesis Hkept : kept read hash hs (zlen hs) s pending.

Definition the_levels : fzn_blob_levels S := mk_levels (Some (Some hash)) (Some (mk_levels_io (Some read) write)) (zlen hs).

Lemma levels_subtree_spec turns : forall lo n d, 0 <= lo -> 0 < n <= 2 ^ Z.of_nat d -> lo + n <= zlen hs -> (d < turns)%nat ->
  match levels_subtree turns the_levels s lo n with
  | (FZN_BLOB_OK, Some h) => apex hash (slice lo n hs) h
  | (FZN_BLOB_ERR_HASH, None) => refuses hash
  | _ => False
  end.
Proof.
  induction turns as [|turns IH]; intros lo n d Hlo Hn Hl Hd; [lia|]. cbn [levels_subtree]. cbn [the_levels lv_hash lv_io lv_leaves mbind option_bind io_read].
  destruct ((n =? 0) || (lo >? zlen hs) || (n >? zlen hs - lo)) eqn:E1; [lia|].
  destruct ((Z.land n (n - 1) =? 0) && (Z.land lo (n - 1) =? 0)) eqn:E2.
  - apply andb_true_iff in E2 as [E2 E3]. apply Z.eqb_eq in E2, E3. apply power_of_two in E2; [|lia].
    pose proof (Z.log2_nonneg n) as Hk. set (m := Z.to_nat (Z.log2 n)). assert (n = 2 ^ Z.of_nat m) as En by (unfold m; by rewrite Z2Nat.id).
    assert (m <= 40)%nat as Hm.
    { apply Nat2Z.inj_le, (Z.pow_le_mono_r_iff 2); [lia..|]. change (2 ^ Z.of_nat 40) with FZN_BLOB_MAX_LEAVES. lia. }
    clearbody m. subst n. rewrite level_loop_spec by lia.
    replace (2 ^ Z.of_nat m - 1) with (Z.ones (Z.of_nat m)) in E3 by (rewrite Z.ones_equiv; lia). rewrite Z.land_ones in E3 by lia.
    pose proof (pow_pos m). rewrite Z.shiftr_div_pow2 by lia.
    assert (lo = lo / 2 ^ Z.of_nat m * 2 ^ Z.of_nat m) as Elo by (pose proof (Z.div_mod lo (2 ^ Z.of_nat m)); lia).
    destruct (kp_nodes _ _ _ _ _ _ Hkept m (lo / 2 ^ Z.of_nat m)) as (h & -> & Hh); [apply Z.div_pos; lia|lia|].
    unfold under in Hh. by rewrite <- Elo in Hh.
  - assert (1 < n) as Hn1.
    { destruct (Z.eq_dec n 1) as [->|]; [|lia]. exfalso. change (Z.land 1 (1 - 1)) with 0 in E2. rewrite Z.land_0_r in E2. done. }
    assert (n <= 2 ^ 63) as Hn63 by (change FZN_BLOB_MAX_LEAVES with 1099511627776 in *; change (2 ^ 63) with 9223372036854775808; lia).
    change (split_below n) with (split_at n). destruct (split_at_spec n ltac:(lia)) as (k & Hk & -> & Hs).
    pose proof (half_below k n (Z.of_nat d) Hk ltac:(lia) ltac:(lia)) as Hkd. pose proof (Z.pow_pos_nonneg 2 k ltac:(lia) Hk).
    pose proof (Z.pow_le_mono_r 2 k (Z.of_nat (d - 1)) ltac:(lia) ltac:(lia)).
    destruct (slice_split hs lo n k Hlo Hk Hs Hl) as (E & Ez1 & Ez2).
    pose proof (IH lo (2 ^ k) (d - 1)%nat Hlo ltac:(lia) ltac:(lia) ltac:(lia)) as Hleft.
    pose proof (IH (lo + 2 ^ k) (n - 2 ^ k) (d - 1)%nat ltac:(lia) ltac:(lia) ltac:(lia) ltac:(lia)) as Hright.
    destruct (levels_subtree turns the_levels s lo (2 ^ k)) as [[] [a|]]; try done.
    destruct (levels_subtree turns the_levels s (lo + 2 ^ k) (n - 2 ^ k)) as [[] [b|]]; try done.
    rewrite node_hash_cases. destruct (node hash a b) as [c|] eqn:Ec; [|by exists a, b]. rewrite E.
    apply (apex_node hash k _ _ a b c); [done|done|rewrite Ez1, Ez2; lia|done..].
Qed.

Lemma levels_subtree_at lo n : 0 <= lo -> 0 < n -> lo + n <= zlen hs ->
  match fzn_blob_levels_subtree (Some the_levels) s lo n with
  | (FZN_BLOB_OK, Some h) => apex hash (slice lo n hs) h
  | (FZN_BLOB_ERR_HASH, None) => refuses hash
  | _ => False
  end.
Proof.
  intros Hlo Hn Hl. apply (levels_subtree_spec 65 lo n 40); [done| |done|lia]. split; [done|].
  change (2 ^ Z.of_nat 40) with FZN_BLOB_MAX_LEAVES. lia.
Qed.
End Read.

(** A walk asks only for runs of the leaves. *)
Lemma walk_loop_ext st1 st2 N f c turns : (forall lo n, 0 <= lo -> 0 < n < N -> lo + n <= N -> st1 lo n = st2 lo n) -> N <= 2 ^ 63 ->
  forall lo n depth siblings path, 0 <= lo -> lo + n <= N ->
  walk_loop turns st1 f c lo n depth siblings path = walk_loop turns st2 f c lo n depth siblings path.
Proof.
  intros Heq HN. induction turns as [|turns IH]; intros lo n depth siblings path Hlo Hl; [done|]. cbn [walk_loop].
  destruct (_ && _); [done|]. destruct (Z.leb_spec n 1); [done|]. destruct (depth >=? _); [done|].
  destruct (split_at_spec n ltac:(lia)) as (k & Hk & -> & Hs). pose proof (Z.pow_pos_nonneg 2 k ltac:(lia) Hk).
  assert (forall o m, 0 <= o -> 0 < m < N -> o + m <= N -> ask_sibling st1 o m depth siblings = ask_sibling st2 o m depth siblings) as Hask.
  { intros o m Ho Hm Hom. unfold ask_sibling. by rewrite Heq. }
  destruct (_ <=? _); [|destruct (_ >=? _); [|done]]; rewrite Hask by lia;
    destruct (ask_sibling st2 _ _ _ _) as [[] ?]; try done; apply IH; lia.
Qed.

(** ** A blob's levels, written and read *)

(** A caller's loop over the leaves. *)
Fixpoint push_leaves {S} (hash : hash_vtable) (io : option (fzn_blob_levels_io S)) (s : S) (b : fzn_blob_levels_builder)
    (leaves : list bytes) : fzn_blob_err * S * fzn_blob_levels_builder :=
  match leaves with
  | [] => (FZN_BLOB_OK, s, b)
  | leaf :: leaves =>
    match fzn_blob_levels_push hash b io s leaf with
    | (FZN_BLOB_OK, s, b) => push_leaves hash io s b leaves
    | e => e
    end
  end.

Lemma push_leaves_kept {S} (read : S -> Z -> Z -> option bytes) write `{!Storage read write} (hash : fzn_hash_ops) hs r :
  (forall x d, hash FZN_BLOB_HASH_LEN x = Some d -> zlen d = FZN_BLOB_HASH_LEN) -> hashes hs -> zlen hs <= FZN_BLOB_MAX_LEAVES ->
  forall rest before s b, hs = before ++ rest -> kept read hash hs (zlen before) s (lb_pending b) -> lb_pushed b = zlen before ->
  lb_leaves b = zlen hs ->
  match push_leaves (Some (Some hash)) (Some (mk_levels_io r (Some write))) s b rest with
  | (FZN_BLOB_OK, s', b') => kept read hash hs (zlen hs) s' (lb_pending b')
  | (FZN_BLOB_ERR_IO, _, _) => write_fails write
  | (FZN_BLOB_ERR_HASH, _, _) => refuses hash
  | (FZN_BLOB_ERR_SHAPE, _, _) => zlen hs = FZN_BLOB_MAX_LEAVES
  | _ => False
  end.
Proof.
  intros Hlen Hhs Hm. induction rest as [|leaf rest IH]; intros before s b E Hk Hp Hl; cbn [push_leaves].
  { rewrite app_nil_r in E. by subst before. }
  assert (hs !! Z.to_nat (zlen before) = Some leaf) as Hleaf.
  { unfold zlen. rewrite Nat2Z.id, E, lookup_app_r, Nat.sub_diag by lia. done. }
  pose proof (push_kept read write hash hs Hlen Hhs Hm _ s b leaf Hk Hp Hl Hleaf (zlen_nonneg _) r) as H.
  destruct (fzn_blob_levels_push _ b _ s leaf) as [[[] s'] b']; try done.
  - destruct H as (Hk' & Hl' & Hp'). apply (IH (before ++ [leaf]) s' b'); rewrite ?zlen_snoc; try done. by rewrite <- app_assoc.
  - subst hs. rewrite zlen_app in *. unfold zlen in *. cbn [length] in *. lia.
Qed.

(** A tree kept outside memory proves what the tree in memory proves.
    Once the leaves of a blob of fewer than 2^40 have been pushed over any
    storage that gives back what it took, reading the levels gives each leaf,
    and for every span and every buffer the bytes, the count and the error
    that the builder over the array of all leaves gives; and pushing fails
    only where the storage refused. *)
Theorem levels_prove_what_the_array_proves {S} (read : S -> Z -> Z -> option bytes) write `{!Storage read write} (hash : fzn_hash_ops) hs s b :
  (forall x, exists d, hash FZN_BLOB_HASH_LEN x = Some d /\ zlen d = FZN_BLOB_HASH_LEN) ->
  hashes hs -> zlen hs < FZN_BLOB_MAX_LEAVES -> fzn_blob_levels_begin (zlen hs) = (FZN_BLOB_OK, Some b) ->
  let io := Some (mk_levels_io (Some read) (Some write)) in
  match push_leaves (Some (Some hash)) io s b hs with
  | (FZN_BLOB_OK, s', _) =>
    let levels := Some (mk_levels (Some (Some hash)) io (zlen hs)) in
    (forall i h, hs !! i = Some h -> fzn_blob_levels_leaf levels s' (Z.of_nat i) = (FZN_BLOB_OK, Some h)) /\
    (forall f c out, 0 <= f -> 0 <= c ->
      fzn_blob_levels_span_proof levels s' f c out = fzn_blob_span_proof_build (Some (Some hash)) (concat hs) (zlen hs) f c out)
  | (FZN_BLOB_ERR_IO, _, _) => write_fails write
  | _ => False
  end.
Proof.
  intros Htotal Hhs Hm Hb io.
  assert (forall x d, hash FZN_BLOB_HASH_LEN x = Some d -> zlen d = FZN_BLOB_HASH_LEN) as Hlen.
  { intros x d Hx. destruct (Htotal x) as (d' & Hd & Hz). congruence. }
  assert (~ refuses hash) as Hnr.
  { intros (x & y & Hx). unfold node in Hx. destruct (Htotal ([FZN_BLOB_NODE_PREFIX] ++ x ++ y)) as (d & Hd & _). congruence. }
  unfold fzn_blob_levels_begin in Hb. destruct (_ || _) eqn:E0; [done|]. injection Hb as <-.
  pose proof (push_leaves_kept read write hash hs (Some read) Hlen Hhs ltac:(lia) hs [] s
    (mk_builder (zlen hs) 0 (replicate (Z.to_nat FZN_BLOB_MAX_DEPTH) (zeros FZN_BLOB_HASH_LEN))) eq_refl) as H.
  specialize (H ltac:(split; [intros l j Hj Hle; pose proof (pow_pos l); change (zlen (A:=bytes) []) with 0 in Hle; nia
    |intros l _ Ho; change (zlen (A:=bytes) []) with 0 in Ho; rewrite Z.div_0_l in Ho by (pose proof (pow_pos l); lia); done|reflexivity]) eq_refl eq_refl).
  fold io in H. destruct (push_leaves _ io s _ hs) as [[[] s'] b']; try contradiction; try exact H; [|lia].
  pose proof (levels_subtree_at read hash hs (Some write) s' (lb_pending b') ltac:(lia) H) as Hsub. cbv zeta. split.
  - intros i h Hi. pose proof (lookup_lt_Some _ _ _ Hi) as Hlt. unfold fzn_blob_levels_leaf. cbn [lv_leaves].
    destruct (Z.geb_spec (Z.of_nat i) (zlen hs)); [unfold zlen in *; lia|].
    specialize (Hsub (Z.of_nat i) 1 ltac:(lia) ltac:(lia) ltac:(unfold zlen; lia)). unfold the_levels in Hsub. fold io in Hsub.
    destruct (fzn_blob_levels_subtree _ s' (Z.of_nat i) 1) as [[] [h'|]]; try done.
    unfold slice in Hsub. rewrite Nat2Z.id, (drop_S _ _ _ Hi) in Hsub. by rewrite (apex_det _ _ _ _ Hsub (apex_leaf hash h)).
  - intros f c out Hf Hc. unfold fzn_blob_levels_span_proof, fzn_blob_span_proof_from, fzn_blob_span_proof_build. cbn [lv_leaves].
    destruct (_ || _); [done|]. destruct ((c =? 0) || _ || _); [done|]. unfold span_walk. destruct (_ || _); [done|].
    rewrite (walk_loop_ext _ (from_array (Some (Some hash)) (concat hs)) (zlen hs)); [done| |
      change FZN_BLOB_MAX_LEAVES with 1099511627776 in *; change (2 ^ 63) with 9223372036854775808; lia|lia|lia].
    intros lo n Hlo Hn Hl. destruct (subtree_root_total hash Htotal hs lo n Hhs Hlo ltac:(lia) Hl) as (h & Eh & Hh & _).
    unfold from_array. rewrite Eh. specialize (Hsub lo n Hlo ltac:(lia) Hl). unfold the_levels in Hsub. fold io in Hsub.
    destruct (fzn_blob_levels_subtree _ s' lo n) as [[] [h'|]]; try done. by rewrite (apex_det _ _ _ _ Hsub Hh).
Qed.

(** A storage in a buffer. *)
Definition mem_io : option (fzn_blob_levels_io bytes) := Some (mk_levels_io (Some mem_read) (Some mem_write)).
Definition demo_builder : fzn_blob_levels_builder := mk_builder 5 0 (replicate 40 (zeros 32)).
Definition demo_kept : bytes :=
  snd (fst (push_leaves (Some (Some sum_hash)) mem_io (zeros (fzn_blob_levels_bytes 5)) demo_builder demo_leaves)).

Lemma levels_prove_what_the_array_proves_witness :
  fzn_blob_levels_bytes 5 = 256 /\
  fzn_blob_levels_span_proof (Some (mk_levels (Some (Some sum_hash)) mem_io 5)) demo_kept 2 2 (zeros 96)
  = fzn_blob_span_proof_build (Some (Some sum_hash)) (concat demo_leaves) 5 2 2 (zeros 96).
Proof.
  split; [reflexivity|].
  assert (push_leaves (Some (Some sum_hash)) mem_io (zeros (fzn_blob_levels_bytes 5)) demo_builder demo_leaves
    = (FZN_BLOB_OK, demo_kept, snd (push_leaves (Some (Some sum_hash)) mem_io (zeros (fzn_blob_levels_bytes 5)) demo_builder demo_leaves)))
    as E by (vm_compute; reflexivity).
  pose proof (levels_prove_what_the_array_proves mem_read mem_write sum_hash demo_leaves (zeros (fzn_blob_levels_bytes 5)) demo_builder
    demo_total demo_leaves_len ltac:(reflexivity) ltac:(reflexivity)) as H.
  cbv zeta in H. fold mem_io in H. rewrite E in H. destruct H as [_ H]. apply (H 2 2 (zeros 96)); lia.
Defined.
