(* ===== verification/Spool.v ===== *)
(** * spool/spool.c: a blob being assembled

    A bitmap over fixed slots of a storage. A leaf is verified against the
    root before a byte of it is written, and its bit is set after. The storage
    is the caller's: [S] is its state and [fzn_spool_ops] its operations,
    which an opened spool has; [open]'s tests of its pointers are not
    modelled, and a spool is never NULL. *)

From S2P Require Import Prelude Bitmap Storage Bytes Revocation Blob BlobTree BlobSpan BlobProof.

Definition FZN_SPOOL_MAX_LEAVES : Z := Z.shiftl 1 22.

Inductive fzn_spool_err :=
| FZN_SPOOL_OK
| FZN_SPOOL_ERR_MALFORMED
| FZN_SPOOL_ERR_TOO_LARGE
| FZN_SPOOL_ERR_UNVERIFIED
| FZN_SPOOL_ERR_BACKEND
| FZN_SPOOL_ERR_ABSENT.

(** [sync]'s answer is ignored. *)
Record fzn_spool_ops (S : Type) := mk_spool_ops {
  read_at : S -> Z -> Z -> option bytes;
  write_at : S -> Z -> bytes -> bool * S;
  sync : option (S -> S)
}.
Arguments mk_spool_ops {S}.
Arguments read_at {S}.
Arguments write_at {S}.
Arguments sync {S}.

Record fzn_spool := mk_spool { sp_root : bytes; sp_leaves : Z; sp_have : Z; sp_present : bytes }.

Definition FZN_SPOOL_BITMAP_LEN (leaves : Z) : Z := (leaves + 7) / 8.

Definition offset_of (index : Z) : Z := u64 (index * FZN_BLOB_SEALED_MAX).

Definition fzn_spool_open (root : bytes) (leaves : Z) (present : bytes) : fzn_spool_err * option fzn_spool :=
  if leaves =? 0 then (FZN_SPOOL_ERR_MALFORMED, None)
  else if leaves >? FZN_SPOOL_MAX_LEAVES then (FZN_SPOOL_ERR_TOO_LARGE, None)
  else if zlen present <? FZN_SPOOL_BITMAP_LEN leaves then (FZN_SPOOL_ERR_MALFORMED, None)
  else (FZN_SPOOL_OK, Some (mk_spool root leaves (count (bit_get present) (seqZ 0 leaves)) present)).

Definition SPAN_MAX_LEAVES : Z := 64.

(** [bit_set(present, index); have++;] *)
Definition mark (spool : fzn_spool) (index : Z) : fzn_spool :=
  mk_spool (sp_root spool) (sp_leaves spool) (u64 (sp_have spool + 1)) (bit_set (sp_present spool) index).

(** The leaf hashes of a span, one after the other; [None] where a leaf is refused. *)
Fixpoint span_hashes (hash : hash_vtable) (sealed : list (option bytes)) : option bytes :=
  match sealed with
  | [] => Some []
  | None :: _ => None
  | Some leaf :: sealed =>
    if (zlen leaf =? 0) || (zlen leaf >? FZN_BLOB_SEALED_MAX) then None
    else match fzn_blob_leaf_hash hash leaf with
    | (FZN_BLOB_OK, Some h) => app h <$> span_hashes hash sealed
    | _ => None
    end
  end.

Section Ops.
Context {S : Type} (ops : fzn_spool_ops S).

(** A sealed leaf and, behind a short one, the zeros that fill its slot. *)
Definition write_slot (s : S) (index : Z) (sealed : bytes) : bool * S :=
  match write_at ops s (offset_of index) sealed with
  | (false, s) => (false, s)
  | (true, s) =>
    if zlen sealed <? FZN_BLOB_SEALED_MAX
    then write_at ops s (u64 (offset_of index + zlen sealed)) (zeros (FZN_BLOB_SEALED_MAX - zlen sealed))
    else (true, s)
  end.

(** [if (have == leaves && ops->sync) (void)ops->sync(ctx);] *)
Definition sync_when_complete (spool : fzn_spool) (s : S) : S :=
  match sync ops with
  | Some sync => if sp_have spool =? sp_leaves spool then sync s else s
  | None => s
  end.

(** The writing loop of a span, from [index] on. *)
Fixpoint place_loop (spool : fzn_spool) (s : S) (index : Z) (sealed : list (option bytes)) : fzn_spool_err * fzn_spool * S :=
  match sealed with
  | [] => (FZN_SPOOL_OK, spool, s)
  | leaf :: sealed =>
    if bit_get (sp_present spool) index then place_loop spool s (index + 1) sealed
    else match write_slot s index (default [] leaf) with
    | (false, s) => (FZN_SPOOL_ERR_BACKEND, spool, s)
    | (true, s) => place_loop (mark spool index) s (index + 1) sealed
    end
  end.

(** [sealed] is the array of [count] leaves. *)
Definition fzn_spool_place_span (spool : fzn_spool) (s : S) (hash : hash_vtable) (first : Z) (sealed : list (option bytes))
    (proof : option bytes) (proof_len : Z) : fzn_spool_err * fzn_spool * S :=
  let count := zlen sealed in
  if negb (bool_decide (is_Some hash)) then (FZN_SPOOL_ERR_MALFORMED, spool, s)
  else if (count =? 0) || (count >? SPAN_MAX_LEAVES) then (FZN_SPOOL_ERR_MALFORMED, spool, s)
  else if (first >=? sp_leaves spool) || (count >? sp_leaves spool - first) then (FZN_SPOOL_ERR_TOO_LARGE, spool, s)
  else if negb (fzn_blob_span_is_canonical (sp_leaves spool) first count) then (FZN_SPOOL_ERR_UNVERIFIED, spool, s)
  else match span_hashes hash sealed with
  | None => (FZN_SPOOL_ERR_UNVERIFIED, spool, s)
  | Some leaf_hashes =>
    match fzn_blob_span_root hash leaf_hashes count with
    | (FZN_BLOB_OK, Some span_root) =>
      match fzn_blob_span_proof_verify hash span_root first count (sp_leaves spool) proof proof_len (sp_root spool) with
      | FZN_BLOB_OK =>
        match place_loop spool s first sealed with
        | (FZN_SPOOL_OK, spool, s) => (FZN_SPOOL_OK, spool, sync_when_complete spool s)
        | e => e
        end
      | _ => (FZN_SPOOL_ERR_UNVERIFIED, spool, s)
      end
    | _ => (FZN_SPOOL_ERR_UNVERIFIED, spool, s)
    end
  end.

Definition fzn_spool_place (spool : fzn_spool) (s : S) (hash : hash_vtable) (index : Z) (sealed : option bytes)
    (proof : option bytes) (proof_len : Z) : fzn_spool_err * fzn_spool * S :=
  match sealed with
  | None => (FZN_SPOOL_ERR_MALFORMED, spool, s)
  | Some sealed =>
    if index >=? sp_leaves spool then (FZN_SPOOL_ERR_TOO_LARGE, spool, s)
    else if (zlen sealed =? 0) || (zlen sealed >? FZN_BLOB_SEALED_MAX) then (FZN_SPOOL_ERR_UNVERIFIED, spool, s)
    else if bit_get (sp_present spool) index then (FZN_SPOOL_OK, spool, s)
    else match fzn_blob_leaf_hash hash sealed with
    | (FZN_BLOB_OK, Some leaf_hash) =>
      match fzn_blob_proof_verify hash leaf_hash index (sp_leaves spool) proof proof_len (sp_root spool) with
      | FZN_BLOB_OK =>
        match write_slot s index sealed with
        | (false, s) => (FZN_SPOOL_ERR_BACKEND, spool, s)
        | (true, s) => let spool := mark spool index in (FZN_SPOOL_OK, spool, sync_when_complete spool s)
        end
      | _ => (FZN_SPOOL_ERR_UNVERIFIED, spool, s)
      end
    | _ => (FZN_SPOOL_ERR_UNVERIFIED, spool, s)
    end
  end.

(** The bytes read, which [*len] counts. *)
Definition fzn_spool_read (spool : fzn_spool) (s : S) (index cap : Z) : fzn_spool_err * option bytes :=
  if index >=? sp_leaves spool then (FZN_SPOOL_ERR_TOO_LARGE, None)
  else if negb (bit_get (sp_present spool) index) then (FZN_SPOOL_ERR_ABSENT, None)
  else match read_at ops s (offset_of index) (Z.min cap FZN_BLOB_SEALED_MAX) with
  | None => (FZN_SPOOL_ERR_BACKEND, None)
  | Some out => (FZN_SPOOL_OK, Some out)
  end.
End Ops.

(** The loop over the indices to forget, counting those dropped. *)
Fixpoint forget_loop (spool : fzn_spool) (dropped : Z) (indices : list Z) : Z * fzn_spool :=
  match indices with
  | [] => (dropped, spool)
  | i :: indices =>
    if bit_get (sp_present spool) i
    then forget_loop (mk_spool (sp_root spool) (sp_leaves spool) (u64 (sp_have spool - 1)) (bit_clear (sp_present spool) i))
      (dropped + 1) indices
    else forget_loop spool dropped indices
  end.

Definition fzn_spool_forget (spool : fzn_spool) (first count : Z) : Z * fzn_spool :=
  if (first >=? sp_leaves spool) || (count >? sp_leaves spool - first) then (0, spool)
  else forget_loop spool 0 (seqZ first count).

Definition fzn_spool_has (spool : fzn_spool) (index : Z) : bool :=
  if index >=? sp_leaves spool then false else bit_get (sp_present spool) index.

Definition fzn_spool_complete (spool : fzn_spool) : bool := (sp_leaves spool >? 0) && (sp_have spool =? sp_leaves spool).

Definition fzn_spool_next_missing (spool : fzn_spool) (from : Z) : fzn_spool_err * option Z :=
  match List.find (fun i => negb (bit_get (sp_present spool) i)) (seqZ from (sp_leaves spool - from)) with
  | Some i => (FZN_SPOOL_OK, Some i)
  | None => (FZN_SPOOL_ERR_ABSENT, None)
  end.

(** ** The bookkeeping *)

(** The count is the bits', and the bits fit their array. *)
Record spool_ok (spool : fzn_spool) : Prop := {
  sp_bounds : 1 <= sp_leaves spool <= FZN_SPOOL_MAX_LEAVES;
  sp_fits : sp_leaves spool <= 8 * zlen (sp_present spool);
  sp_counts : sp_have spool = bits (sp_present spool) (sp_leaves spool)
}.

Lemma open_ok root leaves present spool : 0 <= leaves ->
  fzn_spool_open root leaves present = (FZN_SPOOL_OK, Some spool) ->
  spool_ok spool /\ sp_root spool = root /\ sp_leaves spool = leaves /\ sp_present spool = present.
Proof.
  intros Hl. unfold fzn_spool_open. destruct (Z.eqb_spec leaves 0); [done|]. destruct (Z.gtb_spec leaves FZN_SPOOL_MAX_LEAVES); [done|].
  destruct (Z.ltb_spec (zlen present) (FZN_SPOOL_BITMAP_LEN leaves)) as [|Hb]; [done|]. intros [= <-]. split_and!; [|done..].
  split; cbn; [lia| |done]. unfold FZN_SPOOL_BITMAP_LEN in Hb. dlia.
Qed.

Lemma have_range spool : spool_ok spool -> 0 <= sp_have spool <= sp_leaves spool.
Proof. intros [Hb _ ->]. apply bits_range. lia. Qed.

Lemma mark_ok spool i : spool_ok spool -> 0 <= i < sp_leaves spool -> bit_get (sp_present spool) i = false ->
  spool_ok (mark spool i) /\ sp_have (mark spool i) = sp_have spool + 1.
Proof.
  intros Hok Hi Hb. pose proof (have_range spool Hok). destruct Hok as [Hl Hf Hc]. change FZN_SPOOL_MAX_LEAVES with 4194304 in *.
  assert (sp_have (mark spool i) = sp_have spool + 1) as E by (cbn; apply u64_small; width; lia).
  split; [|done]. split; [exact Hl|cbn; by rewrite zlen_bit_set|]. rewrite E, Hc. cbn. by rewrite bits_set by lia.
Qed.

Lemma bit_mark spool i j : spool_ok spool -> 0 <= i < sp_leaves spool -> 0 <= j ->
  bit_get (sp_present (mark spool i)) j = (i =? j) || bit_get (sp_present spool) j.
Proof. intros [? ? ?] Hi Hj. cbn. apply bit_get_set; lia. Qed.

(** What is forgotten, and how many bits that was. *)
Lemma forget_loop_spec indices : forall spool dropped, spool_ok spool -> Forall (fun i => 0 <= i < sp_leaves spool) indices ->
  let '(n, spool') := forget_loop spool dropped indices in
  spool_ok spool' /\ sp_root spool' = sp_root spool /\ sp_leaves spool' = sp_leaves spool /\
  sp_have spool' = sp_have spool - (n - dropped) /\
  forall j, 0 <= j -> bit_get (sp_present spool') j = bit_get (sp_present spool) j && negb (bool_decide (j ∈ indices)).
Proof.
  induction indices as [|i indices IH]; intros spool dropped Hok Hin; cbn [forget_loop].
  { split_and!; [done..|lia|]. intros j Hj. rewrite bool_decide_false by apply not_elem_of_nil. by rewrite andb_true_r. }
  apply Forall_cons_iff in Hin as [Hi Hin]. destruct (bit_get (sp_present spool) i) eqn:Eb.
  - set (spool1 := mk_spool _ _ _ _).
    assert (spool_ok spool1 /\ sp_have spool1 = sp_have spool - 1) as [Hok1 Eh].
    { pose proof (have_range spool Hok). destruct Hok as [Hl Hf Hc]. change FZN_SPOOL_MAX_LEAVES with 4194304 in *.
      pose proof (bits_clear (sp_present spool) (sp_leaves spool) i ltac:(lia) ltac:(lia) Eb) as Hcl.
      pose proof (bits_range (bit_clear (sp_present spool) i) (sp_leaves spool) ltac:(lia)).
      assert (u64 (sp_have spool - 1) = sp_have spool - 1) as E by (apply u64_small; width; lia).
      split; [|exact E]. split; [exact Hl|cbn; by rewrite zlen_bit_clear|]. cbn. rewrite E, Hc. lia. }
    specialize (IH spool1 (dropped + 1) Hok1 Hin). destruct (forget_loop spool1 _ _) as [n spool'].
    destruct IH as (H1 & H2 & H3 & H4 & H5). split_and!; [done..|lia|]. intros j Hj. rewrite H5 by done.
    destruct Hok as [Hl Hf _]. cbn [spool1 sp_present]. rewrite bit_get_clear by lia.
    destruct (Z.eqb_spec i j) as [->|Hne]; cbn.
    + rewrite bool_decide_true by constructor. by rewrite andb_false_r.
    + rewrite (bool_decide_ext (j ∈ i :: indices) (j ∈ indices)); [done|]. rewrite elem_of_cons. naive_solver.
  - specialize (IH spool dropped Hok Hin). destruct (forget_loop spool _ _) as [n spool'].
    destruct IH as (H1 & H2 & H3 & H4 & H5). split_and!; [done..|]. intros j Hj. rewrite H5 by done.
    destruct (decide (j = i)) as [->|Hne].
    + by rewrite Eb.
    + f_equal. f_equal. apply bool_decide_ext. rewrite elem_of_cons. naive_solver.
Qed.

Lemma forget_spec spool first count : spool_ok spool -> 0 <= first -> 0 <= count ->
  let '(n, spool') := fzn_spool_forget spool first count in
  spool_ok spool' /\ sp_root spool' = sp_root spool /\ sp_leaves spool' = sp_leaves spool /\
  sp_have spool' = sp_have spool - n /\
  forall j, 0 <= j -> bit_get (sp_present spool') j = bit_get (sp_present spool) j &&
    negb ((first + count <=? sp_leaves spool) && (first <=? j) && (j <? first + count)).
Proof.
  intros Hok Hf Hc. unfold fzn_spool_forget. destruct ((first >=? _) || _) eqn:E.
  { split_and!; [done..|lia|]. intros j Hj. pose proof (sp_bounds _ Hok).
    destruct (bit_get _ j); [|done]. cbn. destruct ((first + count <=? sp_leaves spool) && _ && _) eqn:E2; [lia|done]. }
  pose proof (forget_loop_spec (seqZ first count) spool 0 Hok) as H.
  destruct (forget_loop spool 0 _) as [n spool']. destruct H as (H1 & H2 & H3 & H4 & H5).
  { apply Forall_forall. intros j Hj. apply list_elem_of_In, elem_of_seqZ in Hj. lia. }
  split_and!; [done..|lia|]. intros j Hj. rewrite H5 by done. f_equal. f_equal.
  destruct (Z.leb_spec (first + count) (sp_leaves spool)); [|lia]. cbn.
  apply eq_bool_prop_intro. rewrite bool_decide_spec, elem_of_seqZ, Is_true_true. lia.
Qed.

Lemma complete_iff spool : spool_ok spool ->
  fzn_spool_complete spool = true <-> forall i, 0 <= i < sp_leaves spool -> bit_get (sp_present spool) i = true.
Proof.
  intros [Hb Hf Hc]. rewrite <- bits_full by lia. rewrite <- Hc. unfold fzn_spool_complete.
  destruct (Z.gtb_spec (sp_leaves spool) 0); [|lia]. apply Z.eqb_eq.
Qed.

Lemma next_missing_spec spool from : 0 <= from ->
  match fzn_spool_next_missing spool from with
  | (FZN_SPOOL_OK, Some i) => from <= i < sp_leaves spool /\ bit_get (sp_present spool) i = false /\
      forall j, from <= j < i -> bit_get (sp_present spool) j = true
  | (FZN_SPOOL_ERR_ABSENT, None) => forall j, from <= j < sp_leaves spool -> bit_get (sp_present spool) j = true
  | _ => False
  end.
Proof.
  intros Hf. unfold fzn_spool_next_missing.
  assert (forall n m, match List.find (fun i => negb (bit_get (sp_present spool) i)) (seqZ m (Z.of_nat n)) with
    | Some i => m <= i < m + Z.of_nat n /\ bit_get (sp_present spool) i = false /\ forall j, m <= j < i -> bit_get (sp_present spool) j = true
    | None => forall j, m <= j < m + Z.of_nat n -> bit_get (sp_present spool) j = true end) as H.
  { induction n as [|n IH]; intros m; [cbn; intros j Hj; lia|]. rewrite seqZ_cons by lia. cbn [List.find].
    replace (Z.pred (Z.of_nat (Datatypes.S n))) with (Z.of_nat n) by lia.
    destruct (bit_get (sp_present spool) m) eqn:E; cbn [negb]; [|split_and!; [lia..|done|lia]].
    specialize (IH (Z.succ m)). destruct (List.find _ _).
    - destruct IH as (H1 & H2 & H3). split_and!; [lia..|done|]. intros j Hj. destruct (decide (j = m)) as [->|]; [done|]. apply H3. lia.
    - intros j Hj. destruct (decide (j = m)) as [->|]; [done|]. apply IH. lia. }
  specialize (H (Z.to_nat (sp_leaves spool - from)) from). destruct (decide (0 <= sp_leaves spool - from)).
  - rewrite Z2Nat.id in H by lia. destruct (List.find _ _); [|intros j Hj; apply H; lia].
    destruct H as (H1 & H2 & H3). split_and!; [lia..|done|done].
  - replace (seqZ from (sp_leaves spool - from)) with (@nil Z); [cbn; lia|]. symmetry. apply seqZ_nil. lia.
Qed.

(** A span leaves the count right and sets its bits, all of them unless the
    storage refuses. *)
Lemma place_loop_ok {S} (ops : fzn_spool_ops S) todo : forall spool s index, spool_ok spool -> 0 <= index ->
  index + zlen todo <= sp_leaves spool ->
  let '(err, spool', s') := place_loop ops spool s index todo in
  spool_ok spool' /\ sp_root spool' = sp_root spool /\ sp_leaves spool' = sp_leaves spool /\
  match err with
  | FZN_SPOOL_OK => forall j, 0 <= j ->
      bit_get (sp_present spool') j = (index <=? j) && (j <? index + zlen todo) || bit_get (sp_present spool) j
  | FZN_SPOOL_ERR_BACKEND => True
  | _ => False
  end.
Proof.
  induction todo as [|leaf todo IH]; intros spool s index Hok Hi Hin; cbn [place_loop].
  { split_and!; [done..|]. intros j Hj. change (zlen (A:=option bytes) []) with 0. by destruct (_ && _) eqn:E; [lia|]. }
  assert (zlen (leaf :: todo) = 1 + zlen todo) as Ez by (unfold zlen; cbn [length]; lia). rewrite Ez in *.
  pose proof (zlen_nonneg todo). destruct (bit_get (sp_present spool) index) eqn:Ebit.
  - specialize (IH spool s (index + 1) Hok ltac:(lia) ltac:(lia)).
    destruct (place_loop ops spool s (index + 1) todo) as [[err spool'] s']. destruct IH as (H1 & H2 & H3 & H4).
    split_and!; [done..|]. destruct err; try done. intros j Hj. rewrite H4 by done.
    destruct (decide (j = index)) as [->|]; [by rewrite Ebit, !orb_true_r|]. f_equal. lia.
  - destruct (write_slot ops s index (default [] leaf)) as [[] s1]; [|by split_and!].
    destruct (mark_ok spool index Hok ltac:(lia) Ebit) as [Hok1 _].
    specialize (IH (mark spool index) s1 (index + 1) Hok1 ltac:(lia) ltac:(cbn; lia)).
    destruct (place_loop ops (mark spool index) s1 (index + 1) todo) as [[err spool'] s']. destruct IH as (H1 & H2 & H3 & H4).
    split_and!; [done..|]. destruct err; try done. intros j Hj. rewrite H4, bit_mark by (done || lia).
    rewrite orb_assoc. f_equal. lia.
Qed.
