(* ===== verification/SpoolHolds.v ===== *)
(** * spool/spool.c: what a spool holds

    A storage that fails as it likes and peers that send what they like: a
    slot whose bit is set holds the blob's own leaf. *)

From S2P Require Import Prelude Bitmap Storage Bytes Revocation Blob BlobTree BlobSpan BlobProof Spool.

(** What a spool relies on of its operations. *)
Class SpoolStorage {S} (ops : fzn_spool_ops S) : Prop := {
  ss_steady :: SteadyStorage (read_at ops) (write_at ops);
  ss_sync : forall f s o n, sync ops = Some f -> read_at ops (f s) o n = read_at ops s o n
}.

(** A leaf in its slot. *)
Definition slot_of (leaf : bytes) : bytes := leaf ++ zeros (FZN_BLOB_SEALED_MAX - zlen leaf).

(** A leaf as [place] takes one. *)
Definition leaf_fits (leaf : bytes) : Prop := 1 <= zlen leaf <= FZN_BLOB_SEALED_MAX.

Lemma slot_offset i : 0 <= i < FZN_SPOOL_MAX_LEAVES -> offset_of i = i * FZN_BLOB_SEALED_MAX.
Proof.
  intros Hi. change FZN_SPOOL_MAX_LEAVES with 4194304 in Hi. apply u64_small.
  change FZN_BLOB_SEALED_MAX with 1056. width. lia.
Qed.

Section Slots.
Context {S : Type} (ops : fzn_spool_ops S) `{!SpoolStorage ops}.

(** One slot is written and the others are left alone, whatever fails. *)
Lemma write_slot_spec s i leaf : 0 <= i < FZN_SPOOL_MAX_LEAVES -> leaf_fits leaf ->
  let '(ok, s') := write_slot ops s i leaf in
  (forall j, 0 <= j < FZN_SPOOL_MAX_LEAVES -> j <> i ->
    read_at ops s' (offset_of j) FZN_BLOB_SEALED_MAX = read_at ops s (offset_of j) FZN_BLOB_SEALED_MAX) /\
  if ok then read_at ops s' (offset_of i) FZN_BLOB_SEALED_MAX = Some (slot_of leaf) else write_fails (write_at ops).
Proof.
  intros Hi [Hl1 Hl2]. unfold write_slot. pose proof (slot_offset i Hi) as Eo.
  assert (0 <= offset_of i) as Ho by (rewrite Eo; change FZN_BLOB_SEALED_MAX with 1056; lia).
  assert (forall o b s s' ok, write_at ops s o b = (ok, s') -> offset_of i <= o -> o + zlen b <= offset_of i + FZN_BLOB_SEALED_MAX ->
    forall j, 0 <= j < FZN_SPOOL_MAX_LEAVES -> j <> i ->
    read_at ops s' (offset_of j) FZN_BLOB_SEALED_MAX = read_at ops s (offset_of j) FZN_BLOB_SEALED_MAX) as Hother.
  { intros o b s1 s2 ok Hw Ho1 Ho2 j Hj Hne. pose proof (slot_offset j Hj) as Ej.
    change FZN_BLOB_SEALED_MAX with 1056 in *.
    assert (offset_of j + 1056 <= o \/ o + zlen b <= offset_of j) by lia.
    destruct ok; [eapply so_other|eapply st_refused]; try exact Hw; lia. }
  destruct (write_at ops s (offset_of i) leaf) as [[] s1] eqn:E1.
  2:{ split; [by apply (Hother _ _ _ _ _ E1); lia|]. exists s, (offset_of i), leaf. by rewrite E1. }
  pose proof (so_same _ _ _ _ Ho E1) as Hsame. destruct (Z.ltb_spec (zlen leaf) FZN_BLOB_SEALED_MAX) as [Hs|Hs].
  2:{ split; [by apply (Hother _ _ _ _ _ E1); lia|]. replace FZN_BLOB_SEALED_MAX with (zlen leaf) at 1 by lia. rewrite Hsame.
    unfold slot_of. replace (FZN_BLOB_SEALED_MAX - zlen leaf) with 0 by lia. by rewrite app_nil_r. }
  assert (u64 (offset_of i + zlen leaf) = offset_of i + zlen leaf) as ->.
  { apply u64_small. rewrite Eo. change FZN_SPOOL_MAX_LEAVES with 4194304 in Hi. change FZN_BLOB_SEALED_MAX with 1056 in *. width. lia. }
  pose proof (zlen_zeros (FZN_BLOB_SEALED_MAX - zlen leaf) ltac:(lia)) as Hz.
  destruct (write_at ops s1 (offset_of i + zlen leaf) _) as [ok s2] eqn:E2.
  assert (forall j, 0 <= j < FZN_SPOOL_MAX_LEAVES -> j <> i ->
    read_at ops s2 (offset_of j) FZN_BLOB_SEALED_MAX = read_at ops s (offset_of j) FZN_BLOB_SEALED_MAX) as Hj.
  { intros j Hj Hne. rewrite (Hother _ _ _ _ _ E2) by (done || lia). by rewrite (Hother _ _ _ _ _ E1) by (done || lia). }
  destruct ok; split; try exact Hj; [|exists s1, (offset_of i + zlen leaf), (zeros (FZN_BLOB_SEALED_MAX - zlen leaf)); by rewrite E2].
  replace FZN_BLOB_SEALED_MAX with (zlen leaf + (FZN_BLOB_SEALED_MAX - zlen leaf)) at 1 by lia.
  apply (st_pieces (write := write_at ops)); [lia..| |].
  - rewrite (so_other s1 (offset_of i + zlen leaf) _ s2 _ _ ltac:(lia) E2) by lia. done.
  - rewrite <- Hz at 1. by apply (so_same s1); [lia|].
Qed.

Lemma sync_reads spool s o n : read_at ops (sync_when_complete ops spool s) o n = read_at ops s o n.
Proof.
  unfold sync_when_complete. destruct (sync ops) as [f|] eqn:E; [|done]. destruct (_ =? _); [|done]. by apply ss_sync.
Qed.

(** Every leaf the bitmap claims is the blob's. *)
Definition faithful (sealed : list bytes) (spool : fzn_spool) (s : S) : Prop :=
  forall i, 0 <= i < sp_leaves spool -> bit_get (sp_present spool) i = true ->
  sp_leaves spool = zlen sealed /\
  exists leaf, sealed !! Z.to_nat i = Some leaf /\ read_at ops s (offset_of i) FZN_BLOB_SEALED_MAX = Some (slot_of leaf).

Lemma faithful_sync sealed spool s : faithful sealed spool s -> faithful sealed spool (sync_when_complete ops spool s).
Proof. intros H i Hi Hb. destruct (H i Hi Hb) as (Hl & leaf & Hs & Hr). split; [done|]. exists leaf. by rewrite sync_reads. Qed.

(** A leaf of the blob, put in its slot. *)
Lemma faithful_write sealed spool s i leaf : spool_ok spool -> faithful sealed spool s -> 0 <= i < sp_leaves spool ->
  bit_get (sp_present spool) i = false -> sp_leaves spool = zlen sealed -> sealed !! Z.to_nat i = Some leaf -> leaf_fits leaf ->
  match write_slot ops s i leaf with
  | (true, s') => faithful sealed (mark spool i) s'
  | (false, s') => faithful sealed spool s' /\ write_fails (write_at ops)
  end.
Proof.
  intros Hok Hf Hi Hb Hz Hs Hfit. pose proof (sp_bounds _ Hok). pose proof (write_slot_spec s i leaf ltac:(lia) Hfit) as Hw.
  destruct (write_slot ops s i leaf) as [[] s']; destruct Hw as [Hother Hw].
  - intros j Hj Hbj. change (sp_leaves (mark spool i)) with (sp_leaves spool) in *. split; [done|].
    rewrite bit_mark in Hbj by (done || lia). destruct (Z.eqb_spec i j) as [<-|Hne]; [by exists leaf|].
    destruct (Hf j Hj Hbj) as (_ & leaf' & Hs' & Hr). exists leaf'. by rewrite Hother by lia.
  - split; [|done]. intros j Hj Hbj. destruct (Hf j Hj Hbj) as (Hl & leaf' & Hs' & Hr). split; [done|]. exists leaf'.
    rewrite Hother; [done|lia|congruence].
Qed.

(** A span of the blob's leaves, written as far as the storage lets it. *)
Lemma place_loop_spec sealed todo : forall spool s index, spool_ok spool -> faithful sealed spool s ->
  Forall leaf_fits sealed -> sp_leaves spool = zlen sealed -> 0 <= index -> index + zlen todo <= sp_leaves spool ->
  todo = Some <$> slice index (zlen todo) sealed ->
  let '(err, spool', s') := place_loop ops spool s index todo in
  faithful sealed spool' s' /\ (err = FZN_SPOOL_ERR_BACKEND -> write_fails (write_at ops)).
Proof.
  induction todo as [|leaf todo IH]; intros spool s index Hok Hf Hfit Hz Hi Hin Htodo; cbn [place_loop]; [done|].
  assert (zlen (leaf :: todo) = 1 + zlen todo) as Ez by (unfold zlen; cbn [length]; lia). rewrite Ez in *.
  pose proof (zlen_nonneg todo).
  destruct (lookup_lt_is_Some_2 sealed (Z.to_nat index)) as [b Hb]; [unfold zlen in *; lia|].
  assert (leaf = Some b /\ todo = Some <$> slice (index + 1) (zlen todo) sealed) as [-> Htodo'].
  { unfold slice in *. rewrite (drop_S _ _ _ Hb) in Htodo. replace (Z.to_nat (1 + zlen todo)) with (Datatypes.S (Z.to_nat (zlen todo))) in Htodo by lia.
    cbn in Htodo. injection Htodo as -> Htodo. split; [done|].
    by replace (Z.to_nat (index + 1)) with (Datatypes.S (Z.to_nat index)) by lia. }
  change (default [] (Some b)) with b. destruct (bit_get (sp_present spool) index) eqn:Ebit; [by apply IH; try done; lia|].
  pose proof (faithful_write sealed spool s index b Hok Hf ltac:(lia) Ebit Hz Hb (proj1 (Forall_lookup _ _) Hfit _ _ Hb)) as Hw.
  destruct (write_slot ops s index b) as [[] s1]; [|by destruct Hw].
  destruct (mark_ok spool index Hok ltac:(lia) Ebit) as [Hok1 _]. apply IH; try done; cbn; lia.
Qed.
End Slots.

(** ** Whatever peers send *)

(** One call on a spool, with what a peer chose. *)
Inductive spool_op :=
| op_place (index : Z) (sealed proof : option bytes) (proof_len : Z)
| op_span (first : Z) (sealed : list (option bytes)) (proof : option bytes) (proof_len : Z)
| op_forget (first count : Z).

(** The numbers are unsigned, and a proof has the length it is said to have. *)
Definition op_sane (op : spool_op) : Prop :=
  let sane i proof proof_len := 0 <= i /\ 0 <= proof_len /\ proof_len * FZN_BLOB_HASH_LEN <= zlen (default [] proof) in
  match op with
  | op_place index _ proof proof_len => sane index proof proof_len
  | op_span first _ proof proof_len => sane first proof proof_len
  | op_forget first count => 0 <= first /\ 0 <= count
  end.

Definition spool_step {S} (ops : fzn_spool_ops S) (hash : fzn_hash_ops) (spool : fzn_spool) (s : S) (op : spool_op)
    : fzn_spool_err * fzn_spool * S :=
  match op with
  | op_place index sealed proof proof_len => fzn_spool_place ops spool s (Some (Some hash)) index sealed proof proof_len
  | op_span first sealed proof proof_len => fzn_spool_place_span ops spool s (Some (Some hash)) first sealed proof proof_len
  | op_forget first count => (FZN_SPOOL_OK, snd (fzn_spool_forget spool first count), s)
  end.

Definition spool_run {S} (ops : fzn_spool_ops S) (hash : fzn_hash_ops) (st : fzn_spool * S) (calls : list spool_op) : fzn_spool * S :=
  foldl (fun '(spool, s) op => let '(_, spool, s) := spool_step ops hash spool s op in (spool, s)) st calls.

(** What the verifier hashes of a call's bytes. *)
Definition op_input (hash : fzn_hash_ops) (n : Z) (op : spool_op) (x : bytes) : Prop :=
  match op with
  | op_place index (Some leaf) proof _ =>
    x = [FZN_BLOB_LEAF_PREFIX] ++ leaf \/
    exists h, fzn_blob_leaf_hash (Some (Some hash)) leaf = (FZN_BLOB_OK, Some h) /\ climb_input hash h index 1 n proof x
  | op_span first sealed proof _ =>
    (exists leaf, Some leaf ∈ sealed /\ x = [FZN_BLOB_LEAF_PREFIX] ++ leaf) \/
    exists got r, span_hashes (Some (Some hash)) sealed = Some (concat got) /\ zlen got = zlen sealed /\
      (run_input hash got x \/
       (fzn_blob_span_root (Some (Some hash)) (concat got) (zlen got) = (FZN_BLOB_OK, Some r) /\
        climb_input hash r first (zlen got) n proof x))
  | _ => False
  end.

Lemma span_hashes_spec hash sealed flat : span_hashes (Some (Some hash)) sealed = Some flat ->
  exists leaves got, sealed = Some <$> leaves /\ flat = concat got /\ Forall leaf_fits leaves /\
    Forall2 (fun s h => fzn_blob_leaf_hash (Some (Some hash)) s = (FZN_BLOB_OK, Some h)) leaves got.
Proof.
  revert flat. induction sealed as [|[leaf|] sealed IH]; intros flat; cbn [span_hashes]; [|..|done].
  { intros [= <-]. exists [], []. by split_and!. }
  destruct (_ || _) eqn:E; [done|]. destruct (fzn_blob_leaf_hash _ leaf) as [[] [h|]] eqn:Eh; try done.
  destruct (span_hashes _ sealed) as [flat'|]; [|done]. intros [= <-].
  destruct (IH flat' eq_refl) as (leaves & got & -> & -> & Hfit & Hgot). exists (leaf :: leaves), (h :: got).
  split_and!; [done..|constructor; [|done]|by constructor]. unfold leaf_fits. pose proof (zlen_nonneg leaf). lia.
Qed.

(** The count stays the bits' whatever a call is given. *)
Lemma step_ok {S} (ops : fzn_spool_ops S) hash spool s op : spool_ok spool -> op_sane op ->
  spool_ok (snd (fst (spool_step ops hash spool s op))).
Proof.
  intros Hok Hop. pose proof (sp_bounds _ Hok). destruct op as [index [leaf|] proof proof_len|first todo proof proof_len|first count];
    cbn [spool_step]; [|done| |].
  - unfold fzn_spool_place. destruct (Z.geb_spec index (sp_leaves spool)); [done|]. destruct (_ || _); [done|].
    destruct (bit_get _ index) eqn:Eb; [done|]. repeat (case_match; try done). cbn.
    apply mark_ok; [done|destruct Hop; lia|done].
  - unfold fzn_spool_place_span. destruct (negb _); [done|]. destruct (_ || _); [done|].
    destruct ((first >=? sp_leaves spool) || _) eqn:Ein; [done|].
    pose proof (place_loop_ok ops todo spool s first Hok ltac:(apply Hop) ltac:(lia)) as Hpl.
    repeat (case_match; try done); simplify_eq/=; apply Hpl.
  - destruct Hop as [Hi Hc]. pose proof (forget_spec spool first count Hok Hi Hc) as Hs.
    destruct (fzn_spool_forget spool first count) as [n spool']. apply Hs.
Qed.

Section Safe.
Context {S : Type} (ops : fzn_spool_ops S) `{!SpoolStorage ops}.
Context (hash : fzn_hash_ops) (sealed hs : list bytes) (root : bytes).
Hypothesis Hlen : forall x d, hash FZN_BLOB_HASH_LEN x = Some d -> zlen d = FZN_BLOB_HASH_LEN.
Hypothesis Hsealed : Forall2 (fun s h => fzn_blob_leaf_hash (Some (Some hash)) s = (FZN_BLOB_OK, Some h)) sealed hs.
Hypothesis Hm : zlen hs <= FZN_BLOB_MAX_LEAVES.
Hypothesis Hroot : root_of hash hs root.

Abbreviation collides n op := (collision hash (blob_input hash sealed hs) (op_input hash n op)).

Lemma leaves_fit : Forall leaf_fits sealed.
Proof using Hsealed.
  eapply Forall2_Forall_l; [exact Hsealed|]. apply Forall_true. intros h s Hs. unfold fzn_blob_leaf_hash in Hs.
  destruct (_ || _) eqn:E; [done|]. unfold leaf_fits. pose proof (zlen_nonneg s). lia.
Qed.

Lemma zlen_sealed : zlen sealed = zlen hs.
Proof using Hsealed. unfold zlen. by rewrite (Forall2_length Hsealed). Qed.

(** The leaves of a span that verifies. *)
Lemma span_is_the_blobs n first leaves got proof proof_len r : 0 <= n -> op_sane (op_span first (Some <$> leaves) proof proof_len) ->
  Forall2 (fun s h => fzn_blob_leaf_hash (Some (Some hash)) s = (FZN_BLOB_OK, Some h)) leaves got ->
  span_hashes (Some (Some hash)) (Some <$> leaves) = Some (concat got) -> zlen leaves <= 64 ->
  fzn_blob_span_root (Some (Some hash)) (concat got) (zlen leaves) = (FZN_BLOB_OK, Some r) ->
  fzn_blob_span_proof_verify (Some (Some hash)) r first (zlen leaves) n proof proof_len root = FZN_BLOB_OK ->
  (n = zlen sealed /\ first + zlen leaves <= n /\ leaves = slice first (zlen leaves) sealed) \/
  collides n (op_span first (Some <$> leaves) proof proof_len).
Proof using Hlen Hsealed Hm Hroot.
  intros Hn (Hf & Hp & Hcap) Hgot Hflat H64 Hr Hv.
  assert (zlen got = zlen leaves) as Hz by (unfold zlen; by rewrite (Forall2_length Hgot)).
  assert (hashes got) as Hhg.
  { eapply Forall2_Forall_r; [exact Hgot|]. apply Forall_true. intros h s Hs. by apply leaf_hash_input, Hlen in Hs. }
  assert (zlen (Some <$> leaves) = zlen got) as Hzs by (unfold zlen in *; by rewrite length_fmap).
  destruct (span_proof_names hash sealed hs root n proof_len proof Hlen Hsealed Hm Hroot Hn Hp Hcap got r first (zlen leaves) Hf Hhg Hz
    ltac:(change FZN_BLOB_MAX_LEAVES with 1099511627776; lia) Hr Hv) as [(-> & Hin & Eg)|Hcol].
  2:{ right. eapply collision_mono; [..|exact Hcol]; [intros x Hx; by right|]. intros x Hx. right. exists got, r.
    rewrite Hz. split_and!; [done|unfold zlen in *; rewrite length_fmap; lia|]. destruct Hx; [by left|by right]. }
  assert (forall i leaf, leaves !! i = Some leaf -> sealed !! (Z.to_nat first + i)%nat = Some leaf \/
    collides (zlen hs) (op_span first (Some <$> leaves) proof proof_len)) as Hone.
  { intros i leaf Hi. destruct (Forall2_lookup_l _ _ _ _ _ Hgot Hi) as (h & Hh & Hlh).
    rewrite Eg, lookup_slice in Hh by (try apply zlen_nonneg; lia). case_bool_decide; [|done].
    destruct (leaf_hash_names hash sealed hs Hsealed _ _ _ Hh Hlh) as [|Hcol]; [by left|right].
    eapply collision_mono; [..|exact Hcol]; [done|]. intros x ->. left. exists leaf. split; [|done].
    apply list_elem_of_fmap. exists leaf. split; [done|]. by apply list_elem_of_lookup_2 in Hi. }
  assert (forall k, (forall i leaf, (i < k)%nat -> leaves !! i = Some leaf -> sealed !! (Z.to_nat first + i)%nat = Some leaf) \/
    collides (zlen hs) (op_span first (Some <$> leaves) proof proof_len)) as Hall.
  { induction k as [|k [IH|]]; [left; lia| |by right]. destruct (leaves !! k) as [leaf|] eqn:Ek.
    - destruct (Hone k leaf Ek) as [Hk|]; [|by right]. left. intros i l Hi Hl. destruct (decide (i = k)) as [->|]; [congruence|]. apply IH; [lia|done].
    - left. intros i l Hi Hl. destruct (decide (i = k)) as [->|]; [congruence|]. apply IH; [lia|done]. }
  destruct (Hall (length leaves)) as [H|]; [left|by right]. split_and!; [by rewrite zlen_sealed|lia|].
  apply list_eq. intros i. rewrite lookup_slice by (try apply zlen_nonneg; lia). case_bool_decide as Hb.
  - destruct (lookup_lt_is_Some_2 leaves i) as [leaf Hi]; [unfold zlen in Hb; lia|]. rewrite Hi. symmetry. apply H; [unfold zlen in Hb; lia|done].
  - apply lookup_ge_None. unfold zlen in Hb. lia.
Qed.

(** One call. *)
Lemma step_safe spool s op : spool_ok spool -> sp_root spool = root -> faithful ops sealed spool s -> op_sane op ->
  let '(err, spool', s') := spool_step ops hash spool s op in
  spool_ok spool' /\ sp_root spool' = sp_root spool /\ sp_leaves spool' = sp_leaves spool /\
  (faithful ops sealed spool' s' \/ collides (sp_leaves spool) op) /\
  (err <> FZN_SPOOL_OK -> err <> FZN_SPOOL_ERR_BACKEND -> spool' = spool /\ s' = s).
Proof using All.
  intros Hok Hr Hf Hop. pose proof (sp_bounds _ Hok) as Hb. destruct op as [index [leaf|] proof proof_len|first todo proof proof_len|first count];
    cbn [spool_step]; [| by split_and!; try left | | ].
  - destruct Hop as (Hi & Hp & Hcap). cbn [fzn_spool_place]. destruct (Z.geb_spec index (sp_leaves spool)); [by split_and!; try left|].
    destruct (_ || _) eqn:Efit; [by split_and!; try left|].
    assert (leaf_fits leaf) as Hfit by (unfold leaf_fits; pose proof (zlen_nonneg leaf); lia). destruct (bit_get _ index) eqn:Ebit; [by split_and!; try left|].
    destruct (fzn_blob_leaf_hash _ leaf) as [[] [h|]] eqn:Eh; try (by split_and!; try left).
    destruct (fzn_blob_proof_verify _ h index _ proof proof_len _) eqn:Ev; try (by split_and!; try left).
    destruct (mark_ok spool index Hok ltac:(lia) Ebit) as [Hok' _].
    destruct (leaf_proof_names hash sealed hs root (sp_leaves spool) proof_len proof Hlen Hsealed Hm Hroot ltac:(lia) Hp Hcap leaf h index Hi Eh)
      as [[En Hs]|Hcol]; [by rewrite <- Hr| |].
    + pose proof (faithful_write ops sealed spool s index leaf Hok Hf ltac:(lia) Ebit ltac:(rewrite zlen_sealed; lia) Hs Hfit) as Hw.
      destruct (write_slot ops s index leaf) as [[] s1]; [|by destruct Hw; split_and!; try left].
      split_and!; try done. left. by apply faithful_sync.
    + destruct (write_slot ops s index leaf) as [[] s1]; split_and!; try done; right;
        (eapply collision_mono; [..|exact Hcol]; [done|]); intros x [->|Hx]; [by left|right; by exists h|by left|right; by exists h].
  - unfold fzn_spool_place_span. rewrite bool_decide_true by eauto. cbn [negb].
    destruct ((zlen todo =? 0) || (zlen todo >? SPAN_MAX_LEAVES)) eqn:Ecount; [by split_and!; try left|].
    destruct ((first >=? sp_leaves spool) || _) eqn:Ein; [by split_and!; try left|].
    destruct (negb _); [by split_and!; try left|].
    destruct (span_hashes _ todo) as [flat|] eqn:Eh; [|by split_and!; try left].
    destruct (fzn_blob_span_root _ flat _) as [[] [r|]] eqn:Er; try (by split_and!; try left).
    destruct (fzn_blob_span_proof_verify _ r first _ _ proof proof_len _) eqn:Ev; try (by split_and!; try left).
    destruct (span_hashes_spec hash todo flat Eh) as (leaves & got & -> & -> & Hfit & Hgot).
    assert (zlen (Some <$> leaves) = zlen leaves) as Hz by (unfold zlen; by rewrite length_fmap). rewrite Hz in *.
    pose proof (place_loop_ok ops (Some <$> leaves) spool s first Hok ltac:(apply Hop) ltac:(rewrite Hz; lia)) as Hpl.
    destruct (span_is_the_blobs (sp_leaves spool) first leaves got proof proof_len r ltac:(lia) Hop Hgot Eh
      ltac:(unfold SPAN_MAX_LEAVES in *; lia) Er ltac:(by rewrite <- Hr)) as [(En & _ & El)|Hcol].
    + pose proof (place_loop_spec ops sealed (Some <$> leaves) spool s first Hok Hf leaves_fit En ltac:(apply Hop) ltac:(rewrite Hz; lia)
        ltac:(rewrite Hz; congruence)) as Hpf.
      destruct (place_loop ops spool s first _) as [[[] spool'] s']; destruct Hpl as (H1 & H2 & H3 & H4), Hpf as [H5 _]; split_and!; try done;
        left; [by apply faithful_sync|done].
    + destruct (place_loop ops spool s first _) as [[[] spool'] s']; destruct Hpl as (H1 & H2 & H3 & H4); split_and!; try done; by right.
  - destruct Hop as [Hi Hc]. pose proof (forget_spec spool first count Hok Hi Hc) as H.
    destruct (fzn_spool_forget spool first count) as [n spool']. cbn [snd]. destruct H as (H1 & H2 & H3 & _ & H4).
    split_and!; try done. left. intros i Hin Hbit. rewrite H3 in *. apply Hf; [done|]. rewrite H4 in Hbit by lia. by apply andb_true_iff in Hbit as [? _].
Qed.

(** Any calls. *)
Lemma faithful_run calls : forall spool s, spool_ok spool -> sp_root spool = root -> faithful ops sealed spool s -> Forall op_sane calls ->
  let '(spool', s') := spool_run ops hash (spool, s) calls in
  spool_ok spool' /\ (faithful ops sealed spool' s' \/ exists op, op ∈ calls /\ collides (sp_leaves spool) op).
Proof using All.
  assert (forall calls spool s, spool_ok spool -> Forall op_sane calls -> spool_ok (fst (spool_run ops hash (spool, s) calls))) as Hall.
  { clear. induction calls as [|op calls IH]; intros spool s Hok Hc; [done|]. apply Forall_cons_iff in Hc as [Hop Hc].
    cbn [spool_run foldl]. pose proof (step_ok ops hash spool s op Hok Hop) as H.
    destruct (spool_step ops hash spool s op) as [[err spool1] s1]. by apply IH. }
  induction calls as [|op calls IH]; intros spool s Hok Hr Hf Hc; [by split; [|left]|].
  pose proof (Hall (op :: calls) spool s Hok Hc) as Hok'. apply Forall_cons_iff in Hc as [Hop Hc].
  pose proof (step_safe spool s op Hok Hr Hf Hop) as H. cbn [spool_run foldl] in *.
  destruct (spool_step ops hash spool s op) as [[err spool1] s1]. destruct H as (H1 & H2 & H3 & [H4|H4] & _).
  - specialize (IH spool1 s1 H1 ltac:(congruence) H4 Hc). unfold spool_run in IH. destruct (foldl _ _ calls) as [spool' s'].
    destruct IH as [? [|(o & Ho & Hcol)]]; split; try done; [by left|right]. exists o. rewrite <- H3. split; [by constructor|done].
  - unfold spool_run in *. destruct (foldl _ _ calls) as [spool' s']. split; [done|]. right. exists op. split; [by constructor|done].
Qed.

Lemma faithful_reads spool s : spool_ok spool -> faithful ops sealed spool s ->
  (forall i out, 0 <= i -> fzn_spool_read ops spool s i FZN_BLOB_SEALED_MAX = (FZN_SPOOL_OK, Some out) ->
    exists leaf, sealed !! Z.to_nat i = Some leaf /\ out = slot_of leaf) /\
  (fzn_spool_complete spool = true -> forall i leaf, sealed !! i = Some leaf ->
    fzn_spool_read ops spool s (Z.of_nat i) FZN_BLOB_SEALED_MAX = (FZN_SPOOL_OK, Some (slot_of leaf))).
Proof using.
  intros Hok Hf. pose proof (sp_bounds _ Hok). unfold fzn_spool_read. rewrite Z.min_id. split.
  - intros i out Hi. destruct (Z.geb_spec i (sp_leaves spool)); [done|]. destruct (bit_get _ i) eqn:Eb; cbn [negb]; [|done].
    destruct (Hf i ltac:(lia) Eb) as (_ & leaf & Hs & ->). intros [= <-]. by exists leaf.
  - intros Hc i leaf Hi. rewrite complete_iff in Hc by done. destruct (Hf 0 ltac:(lia) (Hc 0 ltac:(lia))) as (El & _).
    pose proof (lookup_lt_Some _ _ _ Hi). unfold zlen in El. destruct (Z.geb_spec (Z.of_nat i) (sp_leaves spool)); [lia|].
    rewrite Hc by lia. cbn [negb]. destruct (Hf (Z.of_nat i) ltac:(lia) (Hc (Z.of_nat i) ltac:(lia))) as (_ & leaf' & Hs & ->).
    rewrite Nat2Z.id, Hi in Hs. by injection Hs as <-.
Qed.
End Safe.

(** A call refused for what a peer sent writes nothing. *)
Lemma refused_untouched {S} (ops : fzn_spool_ops S) hash spool s op :
  let '(err, spool', s') := spool_step ops hash spool s op in
  err = FZN_SPOOL_OK \/ err = FZN_SPOOL_ERR_BACKEND \/ (spool' = spool /\ s' = s).
Proof.
  assert (forall todo spool s index, let '(err, _, _) := place_loop ops spool s index todo in
    err = FZN_SPOOL_OK \/ err = FZN_SPOOL_ERR_BACKEND) as Hloop.
  { induction todo as [|leaf todo IH]; intros sp t i; cbn [place_loop]; [by left|].
    destruct (bit_get _ i); [apply IH|]. destruct (write_slot ops t i _) as [[] t']; [apply IH|by right]. }
  destruct op as [index [leaf|] proof proof_len|first todo proof proof_len|first count]; cbn [spool_step]; [|by right; right| |by left].
  - unfold fzn_spool_place. destruct (_ >=? _); [by right; right|]. destruct (_ || _); [by right; right|]. destruct (bit_get _ _); [by left|].
    destruct (fzn_blob_leaf_hash _ leaf) as [[] [h|]]; try (by right; right). destruct (fzn_blob_proof_verify _ _ _ _ _ _ _); try (by right; right).
    destruct (write_slot ops s index leaf) as [[] t]; [by left|by right; left].
  - unfold fzn_spool_place_span. destruct (negb _); [by right; right|]. destruct (_ || _); [by right; right|].
    destruct ((first >=? _) || _); [by right; right|]. destruct (negb _); [by right; right|]. destruct (span_hashes _ todo) as [flat|]; [|by right; right].
    destruct (fzn_blob_span_root _ flat _) as [[] [r|]]; try (by right; right).
    destruct (fzn_blob_span_proof_verify _ _ _ _ _ _ _ _); try (by right; right).
    specialize (Hloop todo spool s first). destruct (place_loop ops spool s first todo) as [[[] spool'] s']; cbv beta iota in *;
      [by left|by destruct Hloop|by destruct Hloop|by destruct Hloop|by right; left|by destruct Hloop].
Qed.

(** C36: A spool holds the blob and nothing else. Opened on a blob's root with
    a bitmap that claims only what is there, and whatever leaves, spans,
    proofs and counts peers send, in any order and with anything forgotten
    between, over a storage that refuses what it likes when it likes: the
    count is the bits', a read answers the blob's own leaf at that index with
    zeros behind it, and a spool that says complete has every leaf of the
    blob; or two inputs of one hash are among what was hashed to name the
    blob and what was hashed to verify one of the calls. A call refused for
    its bytes leaves the storage as it was. *)
Theorem spool_holds_only_the_blob {S} (ops : fzn_spool_ops S) `{!SpoolStorage ops} (hash : fzn_hash_ops) sealed hs spool s calls :
  (forall x d, hash FZN_BLOB_HASH_LEN x = Some d -> zlen d = FZN_BLOB_HASH_LEN) ->
  Forall2 (fun s h => fzn_blob_leaf_hash (Some (Some hash)) s = (FZN_BLOB_OK, Some h)) sealed hs ->
  zlen hs <= FZN_BLOB_MAX_LEAVES -> root_of hash hs (sp_root spool) ->
  spool_ok spool -> faithful ops sealed spool s -> Forall op_sane calls ->
  (forall spool s op, let '(err, spool', s') := spool_step ops hash spool s op in
    err = FZN_SPOOL_OK \/ err = FZN_SPOOL_ERR_BACKEND \/ (spool' = spool /\ s' = s)) /\
  (let '(spool', s') := spool_run ops hash (spool, s) calls in
   spool_ok spool' /\
   ((forall i out, 0 <= i -> fzn_spool_read ops spool' s' i FZN_BLOB_SEALED_MAX = (FZN_SPOOL_OK, Some out) ->
       exists leaf, sealed !! Z.to_nat i = Some leaf /\ out = slot_of leaf) /\
    (fzn_spool_complete spool' = true -> forall i leaf, sealed !! i = Some leaf ->
       fzn_spool_read ops spool' s' (Z.of_nat i) FZN_BLOB_SEALED_MAX = (FZN_SPOOL_OK, Some (slot_of leaf))) \/
    exists op, op ∈ calls /\ collision hash (blob_input hash sealed hs) (op_input hash (sp_leaves spool) op))).
Proof.
  intros Hlen Hsealed Hm Hroot Hok Hf Hcalls. split; [intros; apply refused_untouched|].
  assert (let '(spool', s') := spool_run ops hash (spool, s) calls in
    spool_ok spool' /\ (faithful ops sealed spool' s' \/
      exists op, op ∈ calls /\ collision hash (blob_input hash sealed hs) (op_input hash (sp_leaves spool) op))) as H.
  { apply (faithful_run ops hash sealed hs (sp_root spool)); auto. }
  destruct (spool_run ops hash (spool, s) calls) as [spool' s']. destruct H as [Hok' [Hf'|Hcol]]; split; try done; [left|by right].
  apply faithful_reads; auto.
Qed.

(** A storage in an array. *)
Definition mem_ops : fzn_spool_ops bytes := mk_spool_ops mem_read mem_write None.

#[export] Instance mem_spool_storage : SpoolStorage mem_ops.
Proof. split; [apply mem_storage|done]. Qed.

Definition demo_spool : fzn_spool := mk_spool demo_sealed_root 3 0 [0].
Definition demo_span_proof : bytes :=
  snd (fst (fzn_blob_span_proof_build (Some (Some sum_hash)) (concat demo_hashes) 3 0 2 (zeros 64))).
Definition demo_calls : list spool_op :=
  [op_place 1 (Some [8; 8]) (Some demo_proof) 2; op_place 1 (Some [8; 9]) (Some demo_proof) 2;
   op_span 0 [Some [7]; Some [8; 9]] (Some demo_span_proof) 1; op_forget 1 1].

Lemma demo_sealed_ok : Forall2 (fun s h => fzn_blob_leaf_hash (Some (Some sum_hash)) s = (FZN_BLOB_OK, Some h)) demo_sealed demo_hashes.
Proof. repeat constructor. Qed.

Lemma demo_spool_ok : spool_ok demo_spool.
Proof. split; [done|vm_compute; discriminate|reflexivity]. Qed.

Lemma demo_spool_empty s : faithful mem_ops demo_sealed demo_spool s.
Proof.
  intros i Hi Hb. change (sp_leaves demo_spool) with 3 in Hi. assert (i = 0 \/ i = 1 \/ i = 2) as [-> | [-> | ->]] by lia; done.
Qed.

Lemma demo_calls_sane : Forall op_sane demo_calls.
Proof. repeat constructor; vm_compute; discriminate. Qed.

Lemma spool_holds_only_the_blob_witness :
  sp_have (fst (spool_run mem_ops sum_hash (demo_spool, zeros 3168) demo_calls)) = 1 /\
  fzn_spool_read mem_ops (fst (spool_run mem_ops sum_hash (demo_spool, zeros 3168) demo_calls))
    (snd (spool_run mem_ops sum_hash (demo_spool, zeros 3168) demo_calls)) 0 FZN_BLOB_SEALED_MAX = (FZN_SPOOL_OK, Some (slot_of [7])) /\
  let '(spool', s') := spool_run mem_ops sum_hash (demo_spool, zeros 3168) demo_calls in
  spool_ok spool' /\
  ((forall i out, 0 <= i -> fzn_spool_read mem_ops spool' s' i FZN_BLOB_SEALED_MAX = (FZN_SPOOL_OK, Some out) ->
      exists leaf, demo_sealed !! Z.to_nat i = Some leaf /\ out = slot_of leaf) /\
   (fzn_spool_complete spool' = true -> forall i leaf, demo_sealed !! i = Some leaf ->
      fzn_spool_read mem_ops spool' s' (Z.of_nat i) FZN_BLOB_SEALED_MAX = (FZN_SPOOL_OK, Some (slot_of leaf))) \/
   exists op, op ∈ demo_calls /\
     collision sum_hash (blob_input sum_hash demo_sealed demo_hashes) (op_input sum_hash 3 op)).
Proof.
  split; [vm_compute; reflexivity|]. split; [vm_compute; reflexivity|].
  assert (zlen demo_hashes <= FZN_BLOB_MAX_LEAVES) as Hm by (vm_compute; discriminate).
  assert (forall x d, sum_hash FZN_BLOB_HASH_LEN x = Some d -> zlen d = FZN_BLOB_HASH_LEN) as Hlen by (intros x d [= <-]; reflexivity).
  pose proof (spool_holds_only_the_blob mem_ops sum_hash demo_sealed demo_hashes demo_spool (zeros 3168) demo_calls Hlen demo_sealed_ok Hm
    demo_sealed_root_of demo_spool_ok (demo_spool_empty _) demo_calls_sane) as H.
  apply proj2 in H. exact H.
Defined.
