(* ===== verification/SpoolPlan.v ===== *)
(** * spool/plan.c: what to ask for and what to answer

    A walk of the bitmap, its runs cut into spans that one proof covers. The
    arrays are the caller's and are given. *)

From S2P Require Import Prelude Bitmap Blob BlobTree BlobSpan BlobProof Spool.

Definition FZN_SPOOL_MAX_WANT : Z := 256.

Record fzn_spool_range := mk_span { rg_first : Z; rg_count : Z }.

(** The spans of a run: [false] when the array is full. A turn takes a leaf at least. *)
Fixpoint emit (turns : nat) (spool : fzn_spool) (out : list fzn_spool_range) (cap first run limit : Z) : bool * list fzn_spool_range :=
  match turns with
  | O => (true, out)
  | S turns =>
    if run >? 0 then
      let bound := if run <? limit then run else limit in
      let take := fzn_blob_span_largest_at (sp_leaves spool) first bound in
      if take =? 0 then (false, out)
      else if zlen out >=? cap then (false, out)
      else emit turns spool (out ++ [mk_span first take]) cap (first + take) (run - take) limit
    else (true, out)
  end.

(** [if (run > 0 && !emit(...)) return] *)
Definition close_run (spool : fzn_spool) (out : list fzn_spool_range) (cap first run limit : Z) : bool * list fzn_spool_range :=
  if run >? 0 then emit (Z.to_nat run) spool out cap first run limit else (true, out).

(** The leaves in the order of the walk: from [from], round to it. *)
Definition want_positions (leaves from : Z) : list Z :=
  (fun step => let i := from + step in if i >=? leaves then i - leaves else i) <$> seqZ 0 leaves.

Fixpoint want_loop (spool : fzn_spool) (max_per_range cap : Z) (positions : list Z) (out : list fzn_spool_range) (run_first run : Z)
    : list fzn_spool_range :=
  match positions with
  | [] => snd (close_run spool out cap run_first run max_per_range)
  | i :: positions =>
    if negb (bit_get (sp_present spool) i) then
      if (run >? 0) && (i =? 0) then
        match emit (Z.to_nat run) spool out cap run_first run max_per_range with
        | (false, out) => out
        | (true, out) => want_loop spool max_per_range cap positions out i 1
        end
      else want_loop spool max_per_range cap positions out (if run =? 0 then i else run_first) (run + 1)
    else
      match close_run spool out cap run_first run max_per_range with
      | (false, out) => out
      | (true, out) => want_loop spool max_per_range cap positions out run_first 0
      end
  end.

Definition fzn_spool_plan_want (spool : fzn_spool) (from max_per_range cap : Z) : fzn_spool_err * option (list fzn_spool_range) :=
  if max_per_range =? 0 then (FZN_SPOOL_ERR_MALFORMED, None)
  else if (sp_leaves spool =? 0) || (from >=? sp_leaves spool) then (FZN_SPOOL_ERR_MALFORMED, None)
  else (FZN_SPOOL_OK, Some (want_loop spool max_per_range cap (want_positions (sp_leaves spool) from) [] 0 0)).

(** The inner loop over the leaves of one wanted range: whether there is room
    for more, the ranges, and what is left of the budget. *)
Fixpoint offer_run (spool : fzn_spool) (max_leaves cap : Z) (leaves : list Z) (out : list fzn_spool_range) (budget run_first run : Z)
    : bool * list fzn_spool_range * Z :=
  let close := let '(ok, out) := close_run spool out cap run_first run max_leaves in (ok, out, budget) in
  match leaves with
  | [] => close
  | i :: leaves =>
    if budget >? 0 then
      if bit_get (sp_present spool) i
      then offer_run spool max_leaves cap leaves out (budget - 1) (if run =? 0 then i else run_first) (run + 1)
      else match close with
      | (false, out, budget) => (false, out, budget)
      | (true, out, budget) => offer_run spool max_leaves cap leaves out budget run_first 0
      end
    else close
  end.

(** How much of a wanted range is inside the blob. *)
Definition clip (spool : fzn_spool) (w : fzn_spool_range) : Z :=
  let left := sp_leaves spool - rg_first w in if rg_count w <? left then rg_count w else left.

Fixpoint offer_loop (spool : fzn_spool) (max_leaves cap : Z) (want : list fzn_spool_range) (out : list fzn_spool_range) (budget : Z)
    : list fzn_spool_range :=
  match want with
  | [] => out
  | w :: want =>
    if budget >? 0 then
      if rg_first w >=? sp_leaves spool then offer_loop spool max_leaves cap want out budget
      else match offer_run spool max_leaves cap (seqZ (rg_first w) (clip spool w)) out budget 0 0 with
      | (false, out, _) => out
      | (true, out, budget) => offer_loop spool max_leaves cap want out budget
      end
    else out
  end.

Definition fzn_spool_plan_offer (spool : fzn_spool) (want : list fzn_spool_range) (max_leaves cap : Z)
    : fzn_spool_err * option (list fzn_spool_range) :=
  if max_leaves =? 0 then (FZN_SPOOL_ERR_MALFORMED, None)
  else (FZN_SPOOL_OK, Some (offer_loop spool max_leaves cap (take (Z.to_nat FZN_SPOOL_MAX_WANT) want) [] max_leaves)).

(** ** What ranges name *)

Definition leaves_of (r : fzn_spool_range) : list Z := seqZ (rg_first r) (rg_count r).

(** The leaves of ranges, in order. *)
Definition named (ranges : list fzn_spool_range) : list Z := concat (leaves_of <$> ranges).

(** A range a peer can answer under one proof. *)
Definition range_ok (leaves limit : Z) (r : fzn_spool_range) : Prop :=
  1 <= rg_count r <= limit /\ 0 <= rg_first r /\ fzn_blob_span_is_canonical leaves (rg_first r) (rg_count r) = true.

Lemma leaves_named_app a b : named (a ++ b) = named a ++ named b.
Proof. unfold named. by rewrite fmap_app, concat_app. Qed.

Lemma named_snoc a r : named (a ++ [r]) = named a ++ leaves_of r.
Proof. rewrite leaves_named_app. unfold named at 2. cbn. by rewrite app_nil_r. Qed.

Lemma elem_of_named i ranges : i ∈ named ranges <-> exists r, r ∈ ranges /\ i ∈ leaves_of r.
Proof.
  induction ranges as [|r ranges IH].
  - split; [intros Hi; by apply not_elem_of_nil in Hi|intros (r & Hr & _); by apply not_elem_of_nil in Hr].
  - change (named (r :: ranges)) with (leaves_of r ++ named ranges). rewrite elem_of_app, IH. setoid_rewrite elem_of_cons. naive_solver.
Qed.

Lemma range_within leaves limit r : 0 <= leaves -> range_ok leaves limit r -> rg_first r + rg_count r <= leaves.
Proof.
  intros Hl (Hc & Hf & Hcan). apply canonical_iff in Hcan as (_ & _ & st & Hst); [|lia..]. apply reaches_within in Hst. lia.
Qed.

Section Plans.
Context (spool : fzn_spool) (limit cap : Z).
Hypothesis Hspool : spool_ok spool.
Hypothesis Hlimit : 1 <= limit.
Hypothesis Hcap : 0 <= cap.

Abbreviation fine := (Forall (range_ok (sp_leaves spool) limit)).

(** What was added to [out] names the first of [all], all of it where there was room. *)
Definition planned (out : list fzn_spool_range) (all : list Z) (out' : list fzn_spool_range) : Prop :=
  exists rs, out' = out ++ rs /\ fine rs /\ named rs `prefix_of` all /\
    (zlen out <= cap -> zlen out' <= cap) /\ (zlen out' < cap -> named rs = all).

Lemma planned_nil out : planned out [] out.
Proof. exists []. rewrite app_nil_r. by split_and!. Qed.

(** A run closed, and then the rest. *)
Lemma planned_then out run out' all out'' : planned out run out' -> named out' = named out ++ run ->
  planned out' all out'' -> planned out (run ++ all) out''.
Proof.
  intros (rs & -> & Hfine & _ & Hz & _) En (rs' & -> & Hfine' & Hp' & Hz' & Hall').
  rewrite leaves_named_app in En. apply app_inv_head in En. exists (rs ++ rs'). rewrite leaves_named_app, En. split_and!.
  - by rewrite app_assoc.
  - by apply Forall_app.
  - by apply prefix_app.
  - intros H. by apply Hz', Hz.
  - intros H. f_equal. by apply Hall'.
Qed.

(** A full array is enough of a plan. *)
Lemma planned_full out run out' all : planned out run out' -> cap <= zlen out' -> planned out (run ++ all) out'.
Proof.
  intros (rs & -> & Hfine & Hp & Hz & _) Hfull. exists rs. split_and!; [done..| |done|lia].
  etrans; [exact Hp|]. by apply prefix_app_r.
Qed.

Lemma emit_plans turns : forall out first run, 0 <= first -> 0 <= run -> first + run <= sp_leaves spool -> run <= Z.of_nat turns ->
  let '(ok, out') := emit turns spool out cap first run limit in
  planned out (seqZ first run) out' /\ if ok then named out' = named out ++ seqZ first run else cap <= zlen out'.
Proof.
  induction turns as [|turns IH]; intros out first run Hf Hr Hin Ht; cbn [emit].
  { replace run with 0 by lia. cbn. rewrite app_nil_r. split; [apply planned_nil|done]. }
  destruct (Z.gtb_spec run 0) as [Hpos|Hpos].
  2:{ replace run with 0 by lia. cbn. rewrite app_nil_r. split; [apply planned_nil|done]. }
  set (bound := if run <? limit then run else limit).
  assert (1 <= bound <= run /\ bound <= limit) as [Hb1 Hb2] by (unfold bound; destruct (Z.ltb_spec run limit); lia).
  pose proof (sp_bounds _ Hspool) as Hl.
  pose proof (largest_at_spec (sp_leaves spool) first bound ltac:(lia) Hf ltac:(lia)) as Hm. cbv zeta in Hm.
  assert (FZN_SPOOL_MAX_LEAVES <= FZN_BLOB_MAX_LEAVES) by done.
  destruct ((1 <=? sp_leaves spool) && _ && _ && _) eqn:E; [|lia]. destruct Hm as (Hm & Hcan & _).
  set (m := fzn_blob_span_largest_at _ _ _) in *. destruct (Z.eqb_spec m 0); [lia|].
  assert (seqZ first run = seqZ first m ++ seqZ (first + m) (run - m)) as Eq.
  { rewrite <- seqZ_app by lia. f_equal. lia. }
  rewrite Eq. destruct (Z.geb_spec (zlen out) cap) as [Hfull|Hroom].
  { split; [|done]. apply (planned_full _ []); [apply planned_nil|done]. }
  specialize (IH (out ++ [mk_span first m]) (first + m) (run - m) ltac:(lia) ltac:(lia) ltac:(lia) ltac:(lia)).
  destruct (emit turns spool _ cap _ _ limit) as [ok out']. destruct IH as [Hp Hok]. rewrite named_snoc in Hok. split.
  - apply (planned_then _ _ (out ++ [mk_span first m])); [|apply named_snoc|done].
    exists [mk_span first m]. split_and!; [done| | | |].
    + constructor; [|done]. split_and!; cbn; [lia..|done].
    + unfold named. cbn. rewrite app_nil_r. done.
    + intros _. rewrite zlen_snoc. lia.
    + unfold named. cbn. by rewrite app_nil_r.
  - destruct ok; [|done]. by rewrite Hok, <- app_assoc.
Qed.

Lemma close_run_spec out first run : 0 <= first -> 0 <= run -> first + run <= sp_leaves spool ->
  let '(ok, out') := close_run spool out cap first run limit in
  planned out (seqZ first run) out' /\ if ok then named out' = named out ++ seqZ first run else cap <= zlen out'.
Proof.
  intros Hf Hr Hin. unfold close_run. destruct (Z.gtb_spec run 0) as [Hpos|Hpos]; [by apply emit_plans; lia|].
  replace run with 0 by lia. cbn. rewrite app_nil_r. split; [apply planned_nil|done].
Qed.

Abbreviation missing := (filter (fun i => bit_get (sp_present spool) i = false)).
Abbreviation present := (filter (fun i => bit_get (sp_present spool) i = true)).

(** The walk: one leaf after the other, but for the step back to the first. *)
Fixpoint follows (prev : Z) (positions : list Z) : Prop :=
  match positions with
  | [] => True
  | p :: positions => (p = prev \/ p = 0) /\ 0 <= p < sp_leaves spool /\ follows (p + 1) positions
  end.

Lemma want_loop_plans positions : forall out first run prev, 0 <= first -> 0 <= run -> first + run <= sp_leaves spool ->
  (0 < run -> first + run = prev) -> follows prev positions ->
  planned out (seqZ first run ++ missing positions) (want_loop spool limit cap positions out first run).
Proof.
  induction positions as [|p positions IH]; intros out first run prev Hf Hr Hin Hprev Hps; cbn [want_loop].
  { pose proof (close_run_spec out first run Hf Hr Hin) as H. rewrite app_nil_r. destruct (close_run _ _ _ _ _ _). apply H. }
  destruct Hps as (Hp & Hpin & Hps). destruct (bit_get (sp_present spool) p) eqn:Eb; cbn [negb].
  - rewrite filter_cons_False by congruence. pose proof (close_run_spec out first run Hf Hr Hin) as H.
    destruct (close_run _ _ _ _ _ _) as [[] out']; destruct H as [H1 H2]; [|by apply planned_full].
    apply (planned_then out _ out'); [done..|]. apply (IH out' first 0 (p + 1)); try lia; done.
  - rewrite filter_cons_True by done. destruct ((run >? 0) && (p =? 0)) eqn:Ewrap.
    + pose proof (emit_plans (Z.to_nat run) out first run Hf Hr Hin ltac:(lia)) as H.
      destruct (emit _ _ _ _ _ _ _) as [[] out']; destruct H as [H1 H2]; [|by apply planned_full].
      apply (planned_then out _ out'); [done..|]. apply (IH out' p 1 (p + 1)); try lia; done.
    + destruct (Z.eqb_spec run 0) as [->|].
      * apply (IH out p 1 (p + 1)); try lia; done.
      * assert (p = first + run) as -> by (destruct Hp as [-> | ->]; lia).
        replace (seqZ first run ++ first + run :: missing positions) with (seqZ first (run + 1) ++ missing positions).
        -- apply (IH out first (run + 1) (first + run + 1)); try lia; done.
        -- rewrite seqZ_app, <- app_assoc by lia. done.
Qed.

Lemma follows_seqZ n : forall m rest, 0 <= m -> m + Z.of_nat n <= sp_leaves spool -> follows (m + Z.of_nat n) rest ->
  follows m (seqZ m (Z.of_nat n) ++ rest).
Proof.
  induction n as [|n IH]; intros m rest Hm Hn Hrest; [cbn in *; by rewrite Z.add_0_r in Hrest|].
  rewrite seqZ_cons by lia. cbn [follows app]. split_and!; [by left|lia..|].
  replace (Z.pred (Z.of_nat (S n))) with (Z.of_nat n) by lia. change (Z.succ m) with (m + 1). apply IH; [lia..|].
  by replace (m + 1 + Z.of_nat n) with (m + Z.of_nat (S n)) by lia.
Qed.

Lemma want_positions_spec from : 0 <= from < sp_leaves spool ->
  want_positions (sp_leaves spool) from = seqZ from (sp_leaves spool - from) ++ seqZ 0 from /\
  follows from (want_positions (sp_leaves spool) from).
Proof.
  intros Hf. assert (want_positions (sp_leaves spool) from = seqZ from (sp_leaves spool - from) ++ seqZ 0 from) as E.
  { unfold want_positions. replace (seqZ 0 (sp_leaves spool)) with (seqZ 0 (sp_leaves spool - from) ++ seqZ (sp_leaves spool - from) from).
    - rewrite fmap_app. f_equal.
      + apply list_eq. intros i. rewrite list_lookup_fmap. apply option_eq. intros x.
        rewrite fmap_Some. setoid_rewrite lookup_seqZ. split.
        * intros (y & Hy & ->). cbv zeta. destruct (Z.geb_spec (from + y) (sp_leaves spool)); lia.
        * intros Hx. exists (x - from). cbv zeta. destruct (Z.geb_spec (from + (x - from)) (sp_leaves spool)); lia.
      + apply list_eq. intros i. rewrite list_lookup_fmap. apply option_eq. intros x.
        rewrite fmap_Some. setoid_rewrite lookup_seqZ. split.
        * intros (y & Hy & ->). cbv zeta. destruct (Z.geb_spec (from + y) (sp_leaves spool)); lia.
        * intros Hx. exists (x + sp_leaves spool - from). cbv zeta. destruct (Z.geb_spec (from + (x + sp_leaves spool - from)) (sp_leaves spool)); lia.
    - rewrite <- seqZ_app by lia. f_equal. lia. }
  split; [done|]. rewrite E. replace (sp_leaves spool - from) with (Z.of_nat (Z.to_nat (sp_leaves spool - from))) by lia.
  apply follows_seqZ; [lia..|]. replace (seqZ 0 from) with (seqZ 0 (Z.of_nat (Z.to_nat from))) by (f_equal; lia).
  pose proof (follows_seqZ (Z.to_nat from) 0 [] ltac:(lia) ltac:(lia) ltac:(exact I)) as H. rewrite app_nil_r in H.
  destruct (decide (from = 0)) as [->|]; [done|]. rewrite seqZ_cons in * by lia. cbn [follows] in *. split; [by right|apply H].
Qed.

Lemma plan_want_spec from : 0 <= from < sp_leaves spool ->
  exists out, fzn_spool_plan_want spool from limit cap = (FZN_SPOOL_OK, Some out) /\
    planned [] (missing (seqZ from (sp_leaves spool - from) ++ seqZ 0 from)) out.
Proof.
  intros Hf. unfold fzn_spool_plan_want. destruct (Z.eqb_spec limit 0); [lia|]. pose proof (sp_bounds _ Hspool).
  destruct (_ || _) eqn:E; [lia|]. eexists. split; [done|]. destruct (want_positions_spec from Hf) as [<- Hfol].
  apply (want_loop_plans _ [] 0 0 from); [lia..|done].
Qed.

(** One wanted range, as far as the budget goes. *)
Lemma offer_run_spec n : forall p out budget first run, 0 <= p -> p + Z.of_nat n <= sp_leaves spool -> 0 <= budget ->
  0 <= first -> 0 <= run -> first + run <= sp_leaves spool -> (0 < run -> first + run = p) ->
  let held := take (Z.to_nat budget) (present (seqZ p (Z.of_nat n))) in
  let '(ok, out', budget') := offer_run spool limit cap (seqZ p (Z.of_nat n)) out budget first run in
  planned out (seqZ first run ++ held) out' /\
  if ok then named out' = named out ++ seqZ first run ++ held /\ budget' = budget - zlen held else cap <= zlen out'.
Proof.
  induction n as [|n IH]; intros p out budget first run Hp Hin Hb Hf Hr Hfr Hprev.
  { change (seqZ p (Z.of_nat 0)) with (@nil Z). cbn [offer_run]. rewrite filter_nil, take_nil, app_nil_r. cbv zeta.
    pose proof (close_run_spec out first run Hf Hr Hfr) as H. destruct (close_run _ _ _ _ _ _) as [[] out'];
      destruct H as [H1 H2]; split; try done. split; [done|]. unfold zlen. cbn. lia. }
  rewrite seqZ_cons by lia. replace (Z.pred (Z.of_nat (S n))) with (Z.of_nat n) by lia. change (Z.succ p) with (p + 1). cbn [offer_run].
  pose proof (close_run_spec out first run Hf Hr Hfr) as Hclose. destruct (Z.gtb_spec budget 0) as [Hb0|Hb0].
  2:{ replace (Z.to_nat budget) with 0%nat by lia. rewrite take_0, app_nil_r. cbv zeta. destruct (close_run _ _ _ _ _ _) as [[] out'];
      destruct Hclose as [H1 H2]; split; try done. split; [done|]. change (zlen (A:=Z) []) with 0. lia. }
  destruct (bit_get (sp_present spool) p) eqn:Eb.
  - rewrite filter_cons_True by done. replace (Z.to_nat budget) with (S (Z.to_nat (budget - 1))) by lia. cbn [take].
    assert (exists first' , (if run =? 0 then p else first) = first' /\ 0 <= first' /\ first' + (run + 1) = p + 1 /\ seqZ first' (run + 1) = seqZ first run ++ [p])
      as (first' & -> & Hf' & Hnext & Eq).
    { destruct (Z.eqb_spec run 0) as [->|].
      - exists p. split_and!; [done|lia|lia|done].
      - exists first. split_and!; [done|lia|lia|]. replace p with (first + run) by lia. by rewrite seqZ_app by lia. }
    specialize (IH (p + 1) out (budget - 1) first' (run + 1) ltac:(lia) ltac:(lia) ltac:(lia) Hf' ltac:(lia) ltac:(lia) ltac:(lia)).
    cbv zeta in *. rewrite Eq, <- app_assoc in IH. cbn [app] in IH.
    destruct (offer_run _ _ _ _ _ _ _ _) as [[[] out'] budget']; destruct IH as [H1 H2]; split; try done.
    destruct H2 as [H2 ->]. split; [done|]. unfold zlen. cbn [length]. lia.
  - rewrite filter_cons_False by congruence. destruct (close_run _ _ _ _ _ _) as [[] out1]; destruct Hclose as [H1 H2].
    2:{ cbv zeta. split; [by apply planned_full|done]. }
    specialize (IH (p + 1) out1 budget first 0 ltac:(lia) ltac:(lia) Hb Hf ltac:(lia) ltac:(lia) ltac:(lia)). cbv zeta in *.
    change (seqZ first 0 ++ ?l) with l in IH.
    destruct (offer_run _ _ _ _ _ _ _ _) as [[[] out'] budget']; destruct IH as [H3 H4]; (split; [by apply (planned_then out _ out1)|]); try done.
    destruct H4 as [-> ->]. split; [by rewrite H2, <- app_assoc|done].
Qed.

(** The leaves of the blob that a wanted range names. *)
Definition clipped (w : fzn_spool_range) : list Z := if rg_first w >=? sp_leaves spool then [] else seqZ (rg_first w) (clip spool w).

Lemma offer_loop_plans want : Forall (fun w => 0 <= rg_first w /\ 0 <= rg_count w) want -> forall out budget, 0 <= budget ->
  planned out (take (Z.to_nat budget) (present (concat (clipped <$> want)))) (offer_loop spool limit cap want out budget).
Proof.
  induction 1 as [|w want [Hf Hc] _ IH]; intros out budget Hb; cbn [offer_loop].
  { cbn. rewrite take_nil. apply planned_nil. }
  destruct (Z.gtb_spec budget 0) as [Hb0|Hb0].
  2:{ replace (Z.to_nat budget) with 0%nat by lia. rewrite take_0. apply planned_nil. }
  cbn [fmap list_fmap concat]. unfold clipped at 1. destruct (Z.geb_spec (rg_first w) (sp_leaves spool)); [by apply IH|].
  assert (0 <= clip spool w /\ rg_first w + clip spool w <= sp_leaves spool) as [Hcl1 Hcl2].
  { unfold clip. cbv zeta. destruct (Z.ltb_spec (rg_count w) (sp_leaves spool - rg_first w)); lia. }
  pose proof (sp_bounds _ Hspool).
  pose proof (offer_run_spec (Z.to_nat (clip spool w)) (rg_first w) out budget 0 0 Hf ltac:(lia) Hb ltac:(lia) ltac:(lia) ltac:(lia) ltac:(lia)) as H1.
  rewrite Z2Nat.id in H1 by lia. cbv zeta in H1. change (seqZ 0 0 ++ ?l) with l in H1. rewrite list.filter_app, take_app.
  destruct (offer_run _ _ _ _ _ _ _ _) as [[[] out'] budget']; destruct H1 as [H1 H2]; [|by apply planned_full].
  destruct H2 as [H2 ->]. apply (planned_then out _ out'); [done..|].
  replace (Z.to_nat budget - _)%nat with (Z.to_nat (budget - zlen (take (Z.to_nat budget) (present (seqZ (rg_first w) (clip spool w)))))).
  - apply IH. unfold zlen. rewrite length_take. lia.
  - unfold zlen. rewrite length_take. lia.
Qed.
End Plans.

(** Plans say exactly what they mean. A want names, in canonical ranges of
    at most the limit, the leaves the bitmap misses, once each, in the order
    of a walk from the playhead round to it: all of them, or as many as the
    caller's array of ranges has room for. An offer names in the same way the
    leaves held among those a peer wanted, its ranges clipped to the blob and
    the first 256 read, up to the budget or to the caller's room; so it never
    names more leaves than the budget, nor one that is not held. *)
Theorem plans_are_exact spool from limit cap want : spool_ok spool -> 0 <= from < sp_leaves spool -> 1 <= limit -> 0 <= cap ->
  Forall (fun w => 0 <= rg_first w /\ 0 <= rg_count w) want ->
  let exact (all : list Z) (out : list fzn_spool_range) :=
    Forall (range_ok (sp_leaves spool) limit) out /\ zlen out <= cap /\ named out `prefix_of` all /\ (zlen out < cap -> named out = all) in
  (exists out, fzn_spool_plan_want spool from limit cap = (FZN_SPOOL_OK, Some out) /\
    exact (filter (fun i => bit_get (sp_present spool) i = false) (seqZ from (sp_leaves spool - from) ++ seqZ 0 from)) out) /\
  (exists out, fzn_spool_plan_offer spool want limit cap = (FZN_SPOOL_OK, Some out) /\
    exact (take (Z.to_nat limit) (filter (fun i => bit_get (sp_present spool) i = true) (concat (clipped spool <$> take 256 want)))) out).
Proof.
  intros Hok Hf Hl Hc Hw exact.
  assert (forall all out, planned spool limit cap [] all out -> exact all out) as Hex.
  { intros all out (rs & -> & Hfine & Hp & Hz & Hall). split_and!; [done|apply Hz; change (zlen (A:=fzn_spool_range) []) with 0; lia|done|done]. }
  split.
  - destruct (plan_want_spec spool limit cap Hok Hl from Hf) as (out & -> & Hp). exists out. split; [done|by apply Hex].
  - unfold fzn_spool_plan_offer. destruct (Z.eqb_spec limit 0); [lia|]. eexists. split; [done|]. apply Hex.
    apply (offer_loop_plans spool limit cap Hok Hl (take 256 want)); [by apply Forall_take|lia].
Qed.

(** Seven of ten leaves are missing, three are held. *)
Definition demo_plan_spool : fzn_spool := mk_spool [] 10 3 [28; 0].

Lemma plans_are_exact_witness :
  fzn_spool_plan_want demo_plan_spool 6 4 9 = (FZN_SPOOL_OK, Some [mk_span 6 2; mk_span 8 2; mk_span 0 2; mk_span 5 1]) /\
  fzn_spool_plan_offer demo_plan_spool [mk_span 3 1000; mk_span 1 2] 4 9 = (FZN_SPOOL_OK, Some [mk_span 3 1; mk_span 4 1; mk_span 2 1]) /\
  exists out, fzn_spool_plan_want demo_plan_spool 6 4 9 = (FZN_SPOOL_OK, Some out) /\
    Forall (range_ok 10 4) out /\ zlen out <= 9 /\ named out `prefix_of` [6; 7; 8; 9; 0; 1; 5] /\ (zlen out < 9 -> named out = [6; 7; 8; 9; 0; 1; 5]).
Proof.
  split; [vm_compute; reflexivity|]. split; [vm_compute; reflexivity|].
  destruct (plans_are_exact demo_plan_spool 6 4 9 [mk_span 3 1000; mk_span 1 2]) as [H _]; [split; [done|vm_compute; discriminate|reflexivity]|
    by cbn|lia|lia|repeat constructor; cbn; lia|exact H].
Defined.
