(* ===== verification/SpoolMessage.v ===== *)
(** * spool/message.c: the four messages two spools exchange

    A question whether a blob is held, an answer with the ranges held and a
    cookie, a want of a span and the span under its proof: the encoders, the
    parsers and the dispatch on the type byte. A buffer and its capacity are a
    list; a parsed pointer into the message is the bytes it points at. *)

From S2P Require Import Prelude Bytes Blob Spool SpoolPlan.

Inductive fzn_msg_err := FZN_MSG_OK | FZN_MSG_ERR_MALFORMED | FZN_MSG_ERR_TOO_LARGE | FZN_MSG_ERR_EMPTY.
Inductive fzn_msg_type := FZN_MSG_HAVE_QUERY | FZN_MSG_HAVE | FZN_MSG_WANT | FZN_MSG_DATA.

#[export] Instance fzn_msg_type_eq : EqDecision fzn_msg_type.
Proof. solve_decision. Defined.

(** The value of a type on the wire. *)
Definition type_byte (t : fzn_msg_type) : Z :=
  match t with FZN_MSG_HAVE_QUERY => 1 | FZN_MSG_HAVE => 2 | FZN_MSG_WANT => 3 | FZN_MSG_DATA => 4 end.

Definition FZN_MSG_VERSION : Z := 1.
Definition FZN_MSG_COOKIE_LEN : Z := 16.
Definition FZN_MSG_MAX_RANGES : Z := FZN_SPOOL_MAX_WANT.
Definition FZN_MSG_MAX_SPAN : Z := 64.
Definition FZN_MSG_MAX_PROOF : Z := FZN_BLOB_MAX_DEPTH.
Definition FZN_MSG_OFF_VERSION : Z := 0.
Definition FZN_MSG_OFF_TYPE : Z := 1.
Definition FZN_MSG_HAVE_QUERY_LEN : Z := 34.
Definition FZN_MSG_HAVE_OFF_ROOT : Z := 2.
Definition FZN_MSG_HAVE_OFF_LEAF_COUNT : Z := 34.
Definition FZN_MSG_HAVE_OFF_COOKIE : Z := 42.
Definition FZN_MSG_HAVE_OFF_RANGE_COUNT : Z := 58.
Definition FZN_MSG_HAVE_OFF_RANGES : Z := 60.
Definition FZN_MSG_RANGE_LEN : Z := 16.
Definition FZN_MSG_HAVE_LEN (ranges : Z) : Z := FZN_MSG_HAVE_OFF_RANGES + ranges * FZN_MSG_RANGE_LEN.
Definition FZN_MSG_WANT_OFF_TRANSFER : Z := 2.
Definition FZN_MSG_WANT_OFF_COOKIE : Z := 6.
Definition FZN_MSG_WANT_OFF_ROOT : Z := 22.
Definition FZN_MSG_WANT_OFF_FIRST : Z := 54.
Definition FZN_MSG_WANT_OFF_COUNT : Z := 62.
Definition FZN_MSG_WANT_LEN : Z := 70.
Definition FZN_MSG_DATA_OFF_TRANSFER : Z := 2.
Definition FZN_MSG_DATA_OFF_FIRST : Z := 6.
Definition FZN_MSG_DATA_OFF_COUNT : Z := 14.
Definition FZN_MSG_DATA_OFF_PROOF_COUNT : Z := 22.
Definition FZN_MSG_DATA_OFF_PROOF : Z := 23.

(** What a parser hands out. *)
Record fzn_msg_have := mk_have { hv_root : bytes; hv_leaf_count : Z; hv_cookie : bytes; hv_ranges : list fzn_spool_range }.
Record fzn_msg_want := mk_want { wn_transfer : Z; wn_cookie : bytes; wn_root : bytes; wn_first : Z; wn_count : Z }.
Record fzn_msg_data := mk_data {
  dt_transfer : Z; dt_first : Z;
  dt_proof : option bytes;   (* NULL where there is no sibling *)
  dt_proof_count : Z;
  dt_sealed : list (option bytes) }.

Definition check_header (b : bytes) (need : Z) (want : fzn_msg_type) : fzn_msg_err :=
  if zlen b <? need then FZN_MSG_ERR_MALFORMED
  else if negb (peek b FZN_MSG_OFF_VERSION =? FZN_MSG_VERSION) then FZN_MSG_ERR_MALFORMED
  else if negb (peek b FZN_MSG_OFF_TYPE =? type_byte want) then FZN_MSG_ERR_MALFORMED
  else FZN_MSG_OK.

Definition put_header (out : bytes) (type : fzn_msg_type) : bytes :=
  poke (poke out FZN_MSG_OFF_VERSION FZN_MSG_VERSION) FZN_MSG_OFF_TYPE (type_byte type).

Definition fzn_msg_peek (b : bytes) : fzn_msg_err * option fzn_msg_type :=
  if zlen b <? 2 then (FZN_MSG_ERR_MALFORMED, None)
  else if negb (peek b FZN_MSG_OFF_VERSION =? FZN_MSG_VERSION) then (FZN_MSG_ERR_MALFORMED, None)
  else
    let type := peek b FZN_MSG_OFF_TYPE in
    match find (fun t => type =? type_byte t) [FZN_MSG_HAVE_QUERY; FZN_MSG_HAVE; FZN_MSG_WANT; FZN_MSG_DATA] with
    | Some t => (FZN_MSG_OK, Some t)
    | None => (FZN_MSG_ERR_MALFORMED, None)
    end.

(** An encoder answers the buffer after the call and, when it succeeds, the
    length it wrote. *)
Definition encoded : Type := fzn_msg_err * bytes * option Z.

Definition fzn_msg_have_query_encode (root out : bytes) : encoded :=
  if zlen out <? FZN_MSG_HAVE_QUERY_LEN then (FZN_MSG_ERR_TOO_LARGE, out, None)
  else (FZN_MSG_OK, blit FZN_MSG_HAVE_OFF_ROOT (slice 0 FZN_BLOB_HASH_LEN root) (put_header out FZN_MSG_HAVE_QUERY),
        Some FZN_MSG_HAVE_QUERY_LEN).

Definition fzn_msg_have_query_parse (b : bytes) : fzn_msg_err * option bytes :=
  match check_header b FZN_MSG_HAVE_QUERY_LEN FZN_MSG_HAVE_QUERY with
  | FZN_MSG_OK =>
    if negb (zlen b =? FZN_MSG_HAVE_QUERY_LEN) then (FZN_MSG_ERR_MALFORMED, None)
    else (FZN_MSG_OK, Some (slice FZN_MSG_HAVE_OFF_ROOT FZN_BLOB_HASH_LEN b))
  | err => (err, None)
  end.

(** The encoder's first pass over the ranges. *)
Fixpoint check_ranges (leaf_count : Z) (ranges : list fzn_spool_range) : fzn_msg_err :=
  match ranges with
  | [] => FZN_MSG_OK
  | r :: ranges =>
    if rg_count r =? 0 then FZN_MSG_ERR_EMPTY
    else if (rg_first r >? leaf_count) || (rg_count r >? leaf_count - rg_first r) then FZN_MSG_ERR_MALFORMED
    else check_ranges leaf_count ranges
  end.

Fixpoint put_ranges (p : Z) (ranges : list fzn_spool_range) (out : bytes) : bytes :=
  match ranges with
  | [] => out
  | r :: ranges =>
    put_ranges (p + FZN_MSG_RANGE_LEN) ranges (fzn_put_be64 (fzn_put_be64 out p (rg_first r)) (p + 8) (rg_count r))
  end.

Definition fzn_msg_have_encode (root : bytes) (leaf_count : Z) (cookie : bytes) (ranges : list fzn_spool_range)
    (out : bytes) : encoded :=
  let range_count := zlen ranges in
  if range_count =? 0 then (FZN_MSG_ERR_EMPTY, out, None)
  else if range_count >? FZN_MSG_MAX_RANGES then (FZN_MSG_ERR_TOO_LARGE, out, None)
  else if (leaf_count =? 0) || (leaf_count >? FZN_SPOOL_MAX_LEAVES) then (FZN_MSG_ERR_MALFORMED, out, None)
  else
    let need := FZN_MSG_HAVE_LEN range_count in
    if zlen out <? need then (FZN_MSG_ERR_TOO_LARGE, out, None)
    else
      match check_ranges leaf_count ranges with
      | FZN_MSG_OK =>
        let out := put_header out FZN_MSG_HAVE in
        let out := blit FZN_MSG_HAVE_OFF_ROOT (slice 0 FZN_BLOB_HASH_LEN root) out in
        let out := fzn_put_be64 out FZN_MSG_HAVE_OFF_LEAF_COUNT leaf_count in
        let out := blit FZN_MSG_HAVE_OFF_COOKIE (slice 0 FZN_MSG_COOKIE_LEN cookie) out in
        let out := fzn_put_be16 out FZN_MSG_HAVE_OFF_RANGE_COUNT range_count in
        (FZN_MSG_OK, put_ranges FZN_MSG_HAVE_OFF_RANGES ranges out, Some need)
      | err => (err, out, None)
      end.

(** The parser's loop over [at_] ranges from [p] on. *)
Fixpoint get_ranges (at_ : nat) (b : bytes) (p leaf_count : Z) : fzn_msg_err * list fzn_spool_range :=
  match at_ with
  | O => (FZN_MSG_OK, [])
  | S at_ =>
    let first := fzn_get_be64 b p in
    let count := fzn_get_be64 b (p + 8) in
    if count =? 0 then (FZN_MSG_ERR_EMPTY, [])
    else if (first >? leaf_count) || (count >? leaf_count - first) then (FZN_MSG_ERR_MALFORMED, [])
    else
      match get_ranges at_ b (p + FZN_MSG_RANGE_LEN) leaf_count with
      | (FZN_MSG_OK, ranges) => (FZN_MSG_OK, mk_span first count :: ranges)
      | (err, _) => (err, [])
      end
  end.

Definition fzn_msg_have_parse (b : bytes) (cap : Z) : fzn_msg_err * option fzn_msg_have :=
  match check_header b FZN_MSG_HAVE_OFF_RANGES FZN_MSG_HAVE with
  | FZN_MSG_OK =>
    let range_count := fzn_get_be16 b FZN_MSG_HAVE_OFF_RANGE_COUNT in
    if range_count =? 0 then (FZN_MSG_ERR_EMPTY, None)
    else if range_count >? FZN_MSG_MAX_RANGES then (FZN_MSG_ERR_TOO_LARGE, None)
    else if negb (zlen b =? FZN_MSG_HAVE_LEN range_count) then (FZN_MSG_ERR_MALFORMED, None)
    else if range_count >? cap then (FZN_MSG_ERR_TOO_LARGE, None)
    else
      let leaf_count := fzn_get_be64 b FZN_MSG_HAVE_OFF_LEAF_COUNT in
      if (leaf_count =? 0) || (leaf_count >? FZN_SPOOL_MAX_LEAVES) then (FZN_MSG_ERR_MALFORMED, None)
      else
        match get_ranges (Z.to_nat range_count) b FZN_MSG_HAVE_OFF_RANGES leaf_count with
        | (FZN_MSG_OK, ranges) =>
          (FZN_MSG_OK, Some (mk_have (slice FZN_MSG_HAVE_OFF_ROOT FZN_BLOB_HASH_LEN b) leaf_count
                               (slice FZN_MSG_HAVE_OFF_COOKIE FZN_MSG_COOKIE_LEN b) ranges))
        | (err, _) => (err, None)
        end
  | err => (err, None)
  end.

Definition fzn_msg_want_encode (transfer : Z) (cookie root : bytes) (first count : Z) (out : bytes) : encoded :=
  if count =? 0 then (FZN_MSG_ERR_EMPTY, out, None)
  else if count >? FZN_MSG_MAX_SPAN then (FZN_MSG_ERR_TOO_LARGE, out, None)
  else if (first >? FZN_SPOOL_MAX_LEAVES) || (count >? FZN_SPOOL_MAX_LEAVES - first) then (FZN_MSG_ERR_MALFORMED, out, None)
  else if zlen out <? FZN_MSG_WANT_LEN then (FZN_MSG_ERR_TOO_LARGE, out, None)
  else
    let out := put_header out FZN_MSG_WANT in
    let out := fzn_put_be32 out FZN_MSG_WANT_OFF_TRANSFER transfer in
    let out := blit FZN_MSG_WANT_OFF_COOKIE (slice 0 FZN_MSG_COOKIE_LEN cookie) out in
    let out := blit FZN_MSG_WANT_OFF_ROOT (slice 0 FZN_BLOB_HASH_LEN root) out in
    let out := fzn_put_be64 out FZN_MSG_WANT_OFF_FIRST first in
    (FZN_MSG_OK, fzn_put_be64 out FZN_MSG_WANT_OFF_COUNT count, Some FZN_MSG_WANT_LEN).

Definition fzn_msg_want_parse (b : bytes) : fzn_msg_err * option fzn_msg_want :=
  match check_header b FZN_MSG_WANT_LEN FZN_MSG_WANT with
  | FZN_MSG_OK =>
    if negb (zlen b =? FZN_MSG_WANT_LEN) then (FZN_MSG_ERR_MALFORMED, None)
    else
      let count := fzn_get_be64 b FZN_MSG_WANT_OFF_COUNT in
      if count =? 0 then (FZN_MSG_ERR_EMPTY, None)
      else if count >? FZN_MSG_MAX_SPAN then (FZN_MSG_ERR_TOO_LARGE, None)
      else
        let first := fzn_get_be64 b FZN_MSG_WANT_OFF_FIRST in
        if (first >? FZN_SPOOL_MAX_LEAVES) || (count >? FZN_SPOOL_MAX_LEAVES - first) then (FZN_MSG_ERR_MALFORMED, None)
        else (FZN_MSG_OK, Some (mk_want (fzn_get_be32 b FZN_MSG_WANT_OFF_TRANSFER)
                                  (slice FZN_MSG_WANT_OFF_COOKIE FZN_MSG_COOKIE_LEN b)
                                  (slice FZN_MSG_WANT_OFF_ROOT FZN_BLOB_HASH_LEN b) first count))
  | err => (err, None)
  end.

(** The lengths of the leaves summed against the capacity. *)
Fixpoint body_loop (sealed : list (option bytes)) (out_cap need body : Z) : fzn_msg_err * Z :=
  match sealed with
  | [] => (FZN_MSG_OK, body)
  | one :: sealed =>
    match one with
    | None => (FZN_MSG_ERR_MALFORMED, body)
    | Some leaf =>
      if zlen leaf =? 0 then (FZN_MSG_ERR_MALFORMED, body)
      else if zlen leaf >? UINT32_MAX then (FZN_MSG_ERR_TOO_LARGE, body)
      else if (out_cap <? need) || (zlen leaf >? out_cap - need - body) then (FZN_MSG_ERR_TOO_LARGE, body)
      else body_loop sealed out_cap need (body + zlen leaf)
    end
  end.

(** The bytes of a leaf that was seen to be there. *)
Definition leaf_of (one : option bytes) : bytes := default [] one.

Fixpoint put_lens (p : Z) (sealed : list (option bytes)) (out : bytes) : Z * bytes :=
  match sealed with
  | [] => (p, out)
  | one :: sealed => put_lens (p + 4) sealed (fzn_put_be32 out p (zlen (leaf_of one)))
  end.

Fixpoint put_leaves (p : Z) (sealed : list (option bytes)) (out : bytes) : bytes :=
  match sealed with
  | [] => out
  | one :: sealed => put_leaves (p + zlen (leaf_of one)) sealed (blit p (leaf_of one) out)
  end.

(** The writes of the encoder, once every guard has passed. *)
Definition write_data (transfer first : Z) (proof : option bytes) (proof_count : Z) (sealed : list (option bytes))
    (out : bytes) : bytes :=
  let out := put_header out FZN_MSG_DATA in
  let out := fzn_put_be32 out FZN_MSG_DATA_OFF_TRANSFER transfer in
  let out := fzn_put_be64 out FZN_MSG_DATA_OFF_FIRST first in
  let out := fzn_put_be64 out FZN_MSG_DATA_OFF_COUNT (zlen sealed) in
  let out := poke out FZN_MSG_DATA_OFF_PROOF_COUNT proof_count in
  let p := FZN_MSG_DATA_OFF_PROOF in
  let '(p, out) :=
    if proof_count >? 0
    then (p + proof_count * FZN_BLOB_HASH_LEN, blit p (slice 0 (proof_count * FZN_BLOB_HASH_LEN) (default [] proof)) out)
    else (p, out) in
  let '(p, out) := put_lens p sealed out in
  put_leaves p sealed out.

Definition fzn_msg_data_encode (transfer first : Z) (proof : option bytes) (proof_count : Z)
    (sealed : list (option bytes)) (out : bytes) : encoded :=
  let count := zlen sealed in
  if (proof_count >? 0) && is_null proof then (FZN_MSG_ERR_MALFORMED, out, None)
  else if count =? 0 then (FZN_MSG_ERR_EMPTY, out, None)
  else if (count >? FZN_MSG_MAX_SPAN) || (proof_count >? FZN_MSG_MAX_PROOF) then (FZN_MSG_ERR_TOO_LARGE, out, None)
  else if (first >? FZN_SPOOL_MAX_LEAVES) || (count >? FZN_SPOOL_MAX_LEAVES - first) then (FZN_MSG_ERR_MALFORMED, out, None)
  else
    let need := FZN_MSG_DATA_OFF_PROOF + proof_count * FZN_BLOB_HASH_LEN + count * 4 in
    match body_loop sealed (zlen out) need 0 with
    | (FZN_MSG_OK, body) =>
      let need := need + body in
      if zlen out <? need then (FZN_MSG_ERR_TOO_LARGE, out, None)
      else
        (FZN_MSG_OK, write_data transfer first proof proof_count sealed out, Some need)
    | (err, _) => (err, out, None)
    end.

(** The length table summed against what is left of the message. *)
Fixpoint lens_loop (at_ : nat) (b : bytes) (lens need body : Z) : fzn_msg_err * Z :=
  match at_ with
  | O => (FZN_MSG_OK, body)
  | S at_ =>
    let one := fzn_get_be32 b lens in
    if one =? 0 then (FZN_MSG_ERR_MALFORMED, body)
    else if one >? zlen b - need - body then (FZN_MSG_ERR_MALFORMED, body)
    else lens_loop at_ b (lens + 4) need (body + one)
  end.

Fixpoint get_leaves (at_ : nat) (b : bytes) (lens p : Z) : list (option bytes) :=
  match at_ with
  | O => []
  | S at_ => let one := fzn_get_be32 b lens in Some (slice p one b) :: get_leaves at_ b (lens + 4) (p + one)
  end.

Definition fzn_msg_data_parse (b : bytes) (cap : Z) : fzn_msg_err * option fzn_msg_data :=
  match check_header b FZN_MSG_DATA_OFF_PROOF FZN_MSG_DATA with
  | FZN_MSG_OK =>
    let count := fzn_get_be64 b FZN_MSG_DATA_OFF_COUNT in
    if count =? 0 then (FZN_MSG_ERR_EMPTY, None)
    else if count >? FZN_MSG_MAX_SPAN then (FZN_MSG_ERR_TOO_LARGE, None)
    else if count >? cap then (FZN_MSG_ERR_TOO_LARGE, None)
    else
      let first := fzn_get_be64 b FZN_MSG_DATA_OFF_FIRST in
      if (first >? FZN_SPOOL_MAX_LEAVES) || (count >? FZN_SPOOL_MAX_LEAVES - first) then (FZN_MSG_ERR_MALFORMED, None)
      else
        let proof_count := peek b FZN_MSG_DATA_OFF_PROOF_COUNT in
        if proof_count >? FZN_MSG_MAX_PROOF then (FZN_MSG_ERR_TOO_LARGE, None)
        else
          let need := FZN_MSG_DATA_OFF_PROOF + proof_count * FZN_BLOB_HASH_LEN + count * 4 in
          if zlen b <? need then (FZN_MSG_ERR_MALFORMED, None)
          else
            let lens := FZN_MSG_DATA_OFF_PROOF + proof_count * FZN_BLOB_HASH_LEN in
            match lens_loop (Z.to_nat count) b lens need 0 with
            | (FZN_MSG_OK, body) =>
              if negb (zlen b =? need + body) then (FZN_MSG_ERR_MALFORMED, None)
              else
                (FZN_MSG_OK, Some (mk_data (fzn_get_be32 b FZN_MSG_DATA_OFF_TRANSFER) first
                  (if proof_count >? 0 then Some (slice FZN_MSG_DATA_OFF_PROOF (proof_count * FZN_BLOB_HASH_LEN) b) else None)
                  proof_count (get_leaves (Z.to_nat count) b lens (lens + count * 4))))
            | (err, _) => (err, None)
            end
  | err => (err, None)
  end.

(** ** The layouts *)

Definition range_fields (ranges : list fzn_spool_range) : list bytes :=
  concat ((fun r => [be64 (rg_first r); be64 (rg_count r)]) <$> ranges).

Definition have_query_fields (root : bytes) : list bytes := [[1]; [1]; root].
Definition have_fields (m : fzn_msg_have) : list bytes :=
  [[1]; [2]; hv_root m; be64 (hv_leaf_count m); hv_cookie m; be16 (zlen (hv_ranges m))] ++ range_fields (hv_ranges m).
Definition want_fields (m : fzn_msg_want) : list bytes :=
  [[1]; [3]; be32 (wn_transfer m); wn_cookie m; wn_root m; be64 (wn_first m); be64 (wn_count m)].
Definition len_fields (sealed : list (option bytes)) : list bytes := (fun one => be32 (zlen (leaf_of one))) <$> sealed.
Definition data_fields (m : fzn_msg_data) : list bytes :=
  [[1]; [4]; be32 (dt_transfer m); be64 (dt_first m); be64 (zlen (dt_sealed m)); [dt_proof_count m]; default [] (dt_proof m)]
  ++ len_fields (dt_sealed m) ++ (leaf_of <$> dt_sealed m).

Definition range_in (leaf_count : Z) (r : fzn_spool_range) : Prop :=
  0 <= rg_first r /\ 1 <= rg_count r /\ rg_first r + rg_count r <= leaf_count.

Definition have_ok (m : fzn_msg_have) : Prop :=
  is_bytes 32 (hv_root m) /\ is_bytes 16 (hv_cookie m) /\ 1 <= hv_leaf_count m <= FZN_SPOOL_MAX_LEAVES /\
  1 <= zlen (hv_ranges m) <= FZN_MSG_MAX_RANGES /\ Forall (range_in (hv_leaf_count m)) (hv_ranges m).

Definition want_ok (m : fzn_msg_want) : Prop :=
  in_u32 (wn_transfer m) /\ is_bytes 16 (wn_cookie m) /\ is_bytes 32 (wn_root m) /\
  0 <= wn_first m /\ 1 <= wn_count m <= FZN_MSG_MAX_SPAN /\ wn_first m + wn_count m <= FZN_SPOOL_MAX_LEAVES.

Definition leaf_ok (one : option bytes) : Prop :=
  exists leaf, one = Some leaf /\ 1 <= zlen leaf <= UINT32_MAX /\ Forall in_u8 leaf.

Definition data_ok (m : fzn_msg_data) : Prop :=
  in_u32 (dt_transfer m) /\ 0 <= dt_first m /\ dt_first m + zlen (dt_sealed m) <= FZN_SPOOL_MAX_LEAVES /\
  1 <= zlen (dt_sealed m) <= FZN_MSG_MAX_SPAN /\ 0 <= dt_proof_count m <= FZN_MSG_MAX_PROOF /\
  match dt_proof m with
  | Some p => 1 <= dt_proof_count m /\ is_bytes (32 * dt_proof_count m) p
  | None => dt_proof_count m = 0
  end /\ Forall leaf_ok (dt_sealed m).

Lemma put_header_blits out t : put_header out t = blits 0 [[1]; [type_byte t]] out.
Proof. by destruct t. Qed.

Lemma put_ranges_blits ranges : forall p out, put_ranges p ranges out = blits p (range_fields ranges) out.
Proof.
  induction ranges as [|r ranges IH]; intros p out; [done|]. cbn [put_ranges]. rewrite IH.
  change (range_fields (r :: ranges)) with ([be64 (rg_first r); be64 (rg_count r)] ++ range_fields ranges).
  rewrite blits_app. cbn [concat]. rewrite !zlen_app, !zlen_be64, zlen_nil. reflexivity.
Qed.

Lemma zlen_range_fields ranges : zlen (concat (range_fields ranges)) = 16 * zlen ranges.
Proof.
  induction ranges as [|r ranges IH]; [done|].
  change (range_fields (r :: ranges)) with ([be64 (rg_first r); be64 (rg_count r)] ++ range_fields ranges).
  rewrite concat_app. cbn [concat]. rewrite !zlen_app, IH, zlen_cons, !zlen_be64, zlen_nil. lia.
Qed.

Lemma check_header_iff b need t :
  check_header b need t = FZN_MSG_OK <-> need <= zlen b /\ peek b 0 = 1 /\ peek b 1 = type_byte t.
Proof.
  unfold check_header. change FZN_MSG_OFF_VERSION with 0. change FZN_MSG_OFF_TYPE with 1. change FZN_MSG_VERSION with 1.
  destruct (Z.ltb_spec (zlen b) need); [split; [done|lia]|].
  destruct (Z.eqb_spec (peek b 0) 1); cbn [negb]; [|split; [done|lia]].
  destruct (Z.eqb_spec (peek b 1) (type_byte t)); cbn [negb]; [tauto|split; [done|lia]].
Qed.

Lemma header_slice b need t : check_header b need t = FZN_MSG_OK -> 2 <= need -> slice 0 2 b = [1; type_byte t].
Proof. intros (Hl & H0 & H1)%check_header_iff Hn. rewrite slice_2 by lia. change (0 + 1) with 1. by rewrite H0, H1. Qed.

Lemma peek_type b t : 2 <= zlen b -> peek b 0 = 1 -> peek b 1 = type_byte t -> fzn_msg_peek b = (FZN_MSG_OK, Some t).
Proof.
  intros Hl H0 H1. unfold fzn_msg_peek. destruct (Z.ltb_spec (zlen b) 2); [lia|].
  change FZN_MSG_OFF_VERSION with 0. change FZN_MSG_OFF_TYPE with 1. rewrite H0, H1. by destruct t.
Qed.

Lemma check_ranges_iff lc ranges : Forall (fun r => 0 <= rg_first r /\ 0 <= rg_count r) ranges ->
  check_ranges lc ranges = FZN_MSG_OK <-> Forall (range_in lc) ranges.
Proof.
  induction 1 as [|r ranges [Hf Hc] Hr IH]; [split; [constructor|done]|]. cbn [check_ranges]. rewrite Forall_cons_iff. unfold range_in at 1.
  destruct (Z.eqb_spec (rg_count r) 0); [split; [done|lia]|].
  rewrite !Z.gtb_ltb. destruct (Z.ltb_spec lc (rg_first r)); cbn [orb]; [split; [done|lia]|].
  destruct (Z.ltb_spec (lc - rg_first r) (rg_count r)); [split; [done|lia]|]. rewrite IH. split; [intros; split; [lia|done]|tauto].
Qed.

(** Fields at the start of a message are read where their offsets say. *)
Ltac at_field i :=
  eapply (slice_field _ i);
    [reflexivity|cbn [firstn concat app]; rewrite ?zlen_cons, ?zlen_app, ?zlen_be16, ?zlen_be32, ?zlen_be64, ?zlen_nil|].

(** ** The question *)

Lemma query_encode_iff root out out' n : is_bytes 32 root ->
  fzn_msg_have_query_encode root out = (FZN_MSG_OK, out', n) <->
  34 <= zlen out /\ out' = blits 0 (have_query_fields root) out /\ n = Some 34.
Proof.
  intros [Hr _]. unfold fzn_msg_have_query_encode. change FZN_MSG_HAVE_QUERY_LEN with 34. change FZN_BLOB_HASH_LEN with 32.
  destruct (Z.ltb_spec (zlen out) 34); [split; [done|lia]|]. rewrite put_header_blits, slice_all by lia.
  change (blit FZN_MSG_HAVE_OFF_ROOT root _) with (blits 0 (have_query_fields root) out).
  split; [by intros [= <- <-]|by intros (_ & -> & ->)].
Qed.

Lemma zlen_query root : is_bytes 32 root -> zlen (concat (have_query_fields root)) = 34.
Proof. intros [Hr _]. cbn [have_query_fields concat app]. rewrite app_nil_r, !zlen_cons. lia. Qed.

Lemma query_read root : is_bytes 32 root -> fzn_msg_have_query_parse (concat (have_query_fields root)) = (FZN_MSG_OK, Some root).
Proof.
  intros Hr. pose proof (zlen_query root Hr) as Hl. unfold fzn_msg_have_query_parse. change FZN_MSG_HAVE_QUERY_LEN with 34.
  rewrite (proj2 (check_header_iff _ 34 FZN_MSG_HAVE_QUERY)) by (rewrite Hl; done).
  rewrite Hl. cbn [Z.eqb Pos.eqb negb]. do 2 f_equal. unfold have_query_fields. at_field 2%nat; [done|apply Hr].
Qed.

Lemma query_only b root : Forall in_u8 b -> fzn_msg_have_query_parse b = (FZN_MSG_OK, Some root) ->
  is_bytes 32 root /\ b = concat (have_query_fields root).
Proof.
  intros Hb. unfold fzn_msg_have_query_parse. change FZN_MSG_HAVE_QUERY_LEN with 34. change FZN_BLOB_HASH_LEN with 32.
  change FZN_MSG_HAVE_OFF_ROOT with 2. destruct (check_header b 34 FZN_MSG_HAVE_QUERY) eqn:Ec; try done.
  pose proof (header_slice _ _ _ Ec ltac:(lia)) as Hh. destruct (Z.eqb_spec (zlen b) 34); cbn [negb]; [|done].
  intros [= <-]. split; [by apply (is_bytes_slice _ _ 34); try lia|].
  cbn [have_query_fields concat app]. rewrite app_nil_r. rewrite <- (slice_all 34 b) at 1 by lia.
  by rewrite (slice_cut b 0 2 32), Hh by lia.
Qed.

(** ** The answer *)

(** The offsets of the fields before the ranges. *)
Lemma have_head m : have_ok m -> let b := concat (have_fields m) in
  zlen b = 60 + 16 * zlen (hv_ranges m) /\ peek b 0 = 1 /\ peek b 1 = 2 /\ slice 2 32 b = hv_root m /\
  fzn_get_be64 b 34 = hv_leaf_count m /\ slice 42 16 b = hv_cookie m /\ fzn_get_be16 b 58 = zlen (hv_ranges m) /\
  exists pre, zlen pre = 60 /\ b = pre ++ concat (range_fields (hv_ranges m)).
Proof.
  intros ([Hr _] & [Hc _] & Hlc & Hn & _) b. unfold FZN_SPOOL_MAX_LEAVES, FZN_MSG_MAX_RANGES, FZN_SPOOL_MAX_WANT in *.
  change (Z.shiftl 1 22) with 4194304 in Hlc. unfold b, have_fields. split; [|split; [done|split; [done|]]].
  { rewrite concat_app, zlen_app, zlen_range_fields. cbn [concat]. rewrite !zlen_app, Hr, Hc, !zlen_be64, zlen_be16, !zlen_cons, zlen_nil. lia. }
  split; [at_field 2%nat; [lia|exact Hr]|].
  split; [apply get_be64_of; [done|ulia|]; at_field 3%nat; [lia|done]|].
  split; [at_field 4%nat; [lia|done]|].
  split; [apply get_be16_of; [done|ulia|]; at_field 5%nat; [lia|done]|].
  eexists. split; [|apply concat_app]. cbn [concat]. rewrite !zlen_app, Hr, Hc. done.
Qed.

Lemma get_ranges_written lc ranges : Forall (range_in lc) ranges -> lc <= FZN_SPOOL_MAX_LEAVES -> forall pre p post, zlen pre = p ->
  get_ranges (length ranges) (pre ++ concat (range_fields ranges) ++ post) p lc = (FZN_MSG_OK, ranges).
Proof.
  unfold FZN_SPOOL_MAX_LEAVES. change (Z.shiftl 1 22) with 4194304.
  induction 1 as [|[f c] ranges (Hf & Hc & Hin) Hr IH]; intros Hlc pre p post Hp; [done|]. cbn [rg_first rg_count] in *.
  pose proof (zlen_nonneg pre). cbn [length get_ranges].
  change (range_fields (mk_span f c :: ranges)) with ([be64 f; be64 c] ++ range_fields ranges).
  rewrite concat_app. cbn [concat]. rewrite app_nil_r, <- !app_assoc. set (rest := concat _ ++ post).
  assert (fzn_get_be64 (pre ++ be64 f ++ be64 c ++ rest) p = f) as ->
    by (apply get_be64_of; [lia|ulia|by apply slice_mid]).
  assert (fzn_get_be64 (pre ++ be64 f ++ be64 c ++ rest) (p + 8) = c) as ->.
  { apply get_be64_of; [lia|ulia|]. rewrite (app_assoc pre). apply slice_mid; [|done]. rewrite zlen_app, zlen_be64. lia. }
  destruct (Z.eqb_spec c 0); [lia|]. rewrite !Z.gtb_ltb. destruct (Z.ltb_spec lc f); [lia|]. cbn [orb].
  destruct (Z.ltb_spec (lc - f) c); [lia|]. unfold rest. rewrite (app_assoc (be64 f)), (app_assoc pre).
  rewrite IH; [done|done|]. rewrite !zlen_app, !zlen_be64. unfold FZN_MSG_RANGE_LEN. lia.
Qed.

Lemma get_ranges_only lc b : Forall in_u8 b -> forall at_ p ranges, 0 <= p -> p + 16 * Z.of_nat at_ <= zlen b ->
  get_ranges at_ b p lc = (FZN_MSG_OK, ranges) ->
  length ranges = at_ /\ Forall (range_in lc) ranges /\ slice p (16 * Z.of_nat at_) b = concat (range_fields ranges).
Proof.
  intros Hb. induction at_ as [|n IH]; intros p ranges Hp Hl Hg; cbn [get_ranges] in Hg; [injection Hg as <-; split_and!; constructor|].
  pose proof (get_be64_range b p Hb) as Hf. pose proof (get_be64_range b (p + 8) Hb) as Hc.
  pose proof (be64_get b p Hb Hp ltac:(lia)) as Ef. pose proof (be64_get b (p + 8) Hb ltac:(lia) ltac:(lia)) as Ec.
  set (f := fzn_get_be64 b p) in *. set (c := fzn_get_be64 b (p + 8)) in *.
  destruct (Z.eqb_spec c 0); [done|]. rewrite !Z.gtb_ltb in Hg. destruct (Z.ltb_spec lc f); [done|]. cbn [orb] in Hg.
  destruct (Z.ltb_spec (lc - f) c); [done|]. change FZN_MSG_RANGE_LEN with 16 in Hg.
  destruct (get_ranges n b (p + 16) lc) as [[] rs] eqn:Er; try done. injection Hg as <-.
  destruct (IH (p + 16) rs ltac:(lia) ltac:(lia) Er) as (Hn & Hin & Hs). split; [cbn; lia|].
  split; [constructor; [unfold range_in; cbn [rg_first rg_count]; width; lia|done]|].
  change (range_fields (mk_span f c :: rs)) with ([be64 f; be64 c] ++ range_fields rs). rewrite concat_app. cbn [concat].
  rewrite app_nil_r, Ef, Ec, <- Hs, <- app_assoc.
  rewrite (slice_cut b p 8 (8 + 16 * Z.of_nat n)), (slice_cut b (p + 8) 8 (16 * Z.of_nat n)) by lia.
  by replace (p + 8 + 8) with (p + 16) by lia.
Qed.

Lemma have_read m cap : have_ok m -> zlen (hv_ranges m) <= cap ->
  fzn_msg_have_parse (concat (have_fields m)) cap = (FZN_MSG_OK, Some m).
Proof.
  intros Hm Hcap. destruct (have_head m Hm) as (Hl & H0 & H1 & Hr & Hlc & Hc & Hn & pre & Hpre & Hb).
  destruct Hm as (_ & _ & Hlcr & Hnr & Hin). unfold fzn_msg_have_parse.
  change FZN_MSG_HAVE_OFF_RANGES with 60. rewrite (proj2 (check_header_iff _ 60 FZN_MSG_HAVE)) by (split; [lia|done]).
  change FZN_MSG_HAVE_OFF_RANGE_COUNT with 58. rewrite Hn. destruct (Z.eqb_spec (zlen (hv_ranges m)) 0); [lia|].
  rewrite !Z.gtb_ltb. destruct (Z.ltb_spec FZN_MSG_MAX_RANGES (zlen (hv_ranges m))); [lia|].
  rewrite (proj2 (Z.eqb_eq _ _)) by (rewrite Hl; unfold FZN_MSG_HAVE_LEN, FZN_MSG_HAVE_OFF_RANGES, FZN_MSG_RANGE_LEN; lia).
  cbn [negb]. destruct (Z.ltb_spec cap (zlen (hv_ranges m))); [lia|].
  change FZN_MSG_HAVE_OFF_LEAF_COUNT with 34. rewrite Hlc. destruct (Z.eqb_spec (hv_leaf_count m) 0); [lia|].
  destruct (Z.ltb_spec FZN_SPOOL_MAX_LEAVES (hv_leaf_count m)); [lia|]. cbn [orb].
  change (slice FZN_MSG_HAVE_OFF_ROOT FZN_BLOB_HASH_LEN (concat (have_fields m))) with (slice 2 32 (concat (have_fields m))).
  change (slice FZN_MSG_HAVE_OFF_COOKIE FZN_MSG_COOKIE_LEN (concat (have_fields m))) with (slice 42 16 (concat (have_fields m))).
  rewrite Hr, Hc, Hb, <- (app_nil_r (concat (range_fields _))). unfold zlen at 1. rewrite Nat2Z.id.
  rewrite get_ranges_written by (try done; lia). by destruct m.
Qed.

Lemma have_only b cap m : Forall in_u8 b -> fzn_msg_have_parse b cap = (FZN_MSG_OK, Some m) ->
  have_ok m /\ zlen (hv_ranges m) <= cap /\ b = concat (have_fields m).
Proof.
  intros Hb. unfold fzn_msg_have_parse. change FZN_MSG_HAVE_OFF_RANGES with 60.
  destruct (check_header b 60 FZN_MSG_HAVE) eqn:Eh; try done. pose proof (header_slice _ _ _ Eh ltac:(lia)) as Hh.
  apply check_header_iff in Eh as (Hl & _). change FZN_MSG_HAVE_OFF_RANGE_COUNT with 58. change FZN_MSG_HAVE_OFF_LEAF_COUNT with 34.
  pose proof (get_be16_range b 58 Hb) as Hn. pose proof (get_be64_range b 34 Hb) as Hlc.
  pose proof (be16_get b 58 Hb ltac:(lia) ltac:(lia)) as En. pose proof (be64_get b 34 Hb ltac:(lia) ltac:(lia)) as Elc.
  set (n := fzn_get_be16 b 58) in *. set (lc := fzn_get_be64 b 34) in *. rewrite !Z.gtb_ltb.
  destruct (Z.eqb_spec n 0); [done|]. destruct (Z.ltb_spec FZN_MSG_MAX_RANGES n); [done|].
  unfold FZN_MSG_HAVE_LEN, FZN_MSG_HAVE_OFF_RANGES, FZN_MSG_RANGE_LEN. destruct (Z.eqb_spec (zlen b) (60 + n * 16)); cbn [negb]; [|done].
  destruct (Z.ltb_spec cap n); [done|]. destruct (Z.eqb_spec lc 0); [done|].
  destruct (Z.ltb_spec FZN_SPOOL_MAX_LEAVES lc); cbn [orb]; [done|].
  destruct (get_ranges (Z.to_nat n) b 60 lc) as [[] rs] eqn:Er; try done. intros [= <-]. width.
  destruct (get_ranges_only lc b Hb (Z.to_nat n) 60 rs ltac:(lia) ltac:(lia) Er) as (Hrs & Hin & Hs).
  replace (16 * Z.of_nat (Z.to_nat n)) with (16 * n) in Hs by lia. assert (zlen rs = n) as Hz by (unfold zlen; lia).
  unfold have_ok, have_fields. cbn [hv_root hv_leaf_count hv_cookie hv_ranges]. rewrite Hz.
  split; [|split; [done|]].
  - split; [by apply (is_bytes_slice 2 32 (zlen b)); try lia|]. split; [by apply (is_bytes_slice 42 16 (zlen b)); try lia|].
    split; [lia|]. split; [lia|done].
  - rewrite En, Elc, concat_app, <- Hs. cbn [concat]. rewrite app_nil_r. rewrite <- (slice_all (60 + 16 * n) b) at 1 by lia.
    change (slice FZN_MSG_HAVE_OFF_ROOT FZN_BLOB_HASH_LEN b) with (slice 2 32 b).
    change (slice FZN_MSG_HAVE_OFF_COOKIE FZN_MSG_COOKIE_LEN b) with (slice 42 16 b).
    rewrite (slice_cut b 0 2 (58 + 16 * n)), (slice_cut b (0 + 2) 32 (26 + 16 * n)), (slice_cut b (0 + 2 + 32) 8 (18 + 16 * n)),
      (slice_cut b (0 + 2 + 32 + 8) 16 (2 + 16 * n)), (slice_cut b (0 + 2 + 32 + 8 + 16) 2 (16 * n)) by lia.
    rewrite Hh. cbn [app]. by rewrite <- !app_assoc.
Qed.

Lemma have_encode_iff m out out' n : is_bytes 32 (hv_root m) -> is_bytes 16 (hv_cookie m) -> 0 <= hv_leaf_count m ->
  Forall (fun r => 0 <= rg_first r /\ 0 <= rg_count r) (hv_ranges m) ->
  fzn_msg_have_encode (hv_root m) (hv_leaf_count m) (hv_cookie m) (hv_ranges m) out = (FZN_MSG_OK, out', n) <->
  have_ok m /\ 60 + 16 * zlen (hv_ranges m) <= zlen out /\ out' = blits 0 (have_fields m) out /\
  n = Some (60 + 16 * zlen (hv_ranges m)).
Proof.
  intros Hr Hc Hlc Hrs. unfold have_ok. pose proof (zlen_nonneg (hv_ranges m)). unfold fzn_msg_have_encode.
  destruct (Z.eqb_spec (zlen (hv_ranges m)) 0); [split; [done|lia]|].
  rewrite !Z.gtb_ltb. destruct (Z.ltb_spec FZN_MSG_MAX_RANGES (zlen (hv_ranges m))); [split; [done|lia]|].
  destruct (Z.eqb_spec (hv_leaf_count m) 0); cbn [orb]; [split; [done|lia]|].
  destruct (Z.ltb_spec FZN_SPOOL_MAX_LEAVES (hv_leaf_count m)); [split; [done|lia]|].
  unfold FZN_MSG_HAVE_LEN, FZN_MSG_HAVE_OFF_RANGES, FZN_MSG_RANGE_LEN.
  destruct (Z.ltb_spec (zlen out) (60 + zlen (hv_ranges m) * 16)); [split; [done|lia]|].
  pose proof (check_ranges_iff (hv_leaf_count m) _ Hrs) as Hiff.
  destruct (check_ranges _ _) eqn:Ec; try (split; [done|]; intros ((_ & _ & _ & _ & Hin) & _); apply Hiff in Hin; done).
  rewrite put_header_blits, put_ranges_blits.
  assert (have_fields m = [[1]; [2]; hv_root m; be64 (hv_leaf_count m); hv_cookie m; be16 (zlen (hv_ranges m))] ++ range_fields (hv_ranges m)) as E by done.
  destruct Hr as [Hr Hr'], Hc as [Hc Hc']. rewrite E, blits_app.
  assert (zlen (concat [[1]; [2]; hv_root m; be64 (hv_leaf_count m); hv_cookie m; be16 (zlen (hv_ranges m))]) = 60) as ->
    by (cbn [concat]; rewrite !zlen_app, Hr, Hc; done).
  cbn [blits type_byte]. rewrite !zlen_be64, Hr, Hc. rewrite !slice_all by (change FZN_BLOB_HASH_LEN with 32; change FZN_MSG_COOKIE_LEN with 16; lia).
  change (0 + zlen [1] + zlen [2]) with 2. change (0 + zlen [1]) with 1. cbn [Z.add Pos.add Pos.succ Pos.add_carry].
  split.
  - intros [= <- <-]. split; [|split; [lia|split; [reflexivity|f_equal; lia]]]. split; [done|]. split; [done|]. split; [lia|]. split; [lia|]. by apply Hiff.
  - intros (_ & _ & -> & ->). f_equal. f_equal. lia.
Qed.

(** ** The want *)

Lemma want_head m : want_ok m -> let b := concat (want_fields m) in
  zlen b = 70 /\ peek b 0 = 1 /\ peek b 1 = 3 /\ fzn_get_be32 b 2 = wn_transfer m /\ slice 6 16 b = wn_cookie m /\
  slice 22 32 b = wn_root m /\ fzn_get_be64 b 54 = wn_first m /\ fzn_get_be64 b 62 = wn_count m.
Proof.
  intros (Ht & [Hc _] & [Hr _] & Hf & Hn & Hin) b. unfold FZN_SPOOL_MAX_LEAVES, FZN_MSG_MAX_SPAN in *.
  change (Z.shiftl 1 22) with 4194304 in Hin. unfold b, want_fields. split; [|split; [done|split; [done|]]].
  { cbn [concat]. rewrite !zlen_app, Hr, Hc, zlen_nil, !zlen_be64, zlen_be32, !zlen_cons, zlen_nil. lia. }
  split; [apply get_be32_of; [done|ulia|]; at_field 2%nat; [lia|done]|].
  split; [at_field 3%nat; [lia|exact Hc]|]. split; [at_field 4%nat; [lia|exact Hr]|].
  split; (apply get_be64_of; [done|ulia|]); [at_field 5%nat|at_field 6%nat]; (lia || done).
Qed.

Lemma want_read m : want_ok m -> fzn_msg_want_parse (concat (want_fields m)) = (FZN_MSG_OK, Some m).
Proof.
  intros Hm. destruct (want_head m Hm) as (Hl & H0 & H1 & Ht & Hc & Hr & Hf & Hn). destruct Hm as (_ & _ & _ & Hfr & Hnr & Hin).
  unfold fzn_msg_want_parse. change FZN_MSG_WANT_LEN with 70.
  rewrite (proj2 (check_header_iff _ 70 FZN_MSG_WANT)) by (split; [lia|done]). rewrite Hl. cbn [Z.eqb Pos.eqb negb].
  change FZN_MSG_WANT_OFF_COUNT with 62. change FZN_MSG_WANT_OFF_FIRST with 54. change FZN_MSG_WANT_OFF_TRANSFER with 2.
  change (slice FZN_MSG_WANT_OFF_COOKIE FZN_MSG_COOKIE_LEN (concat (want_fields m))) with (slice 6 16 (concat (want_fields m))).
  change (slice FZN_MSG_WANT_OFF_ROOT FZN_BLOB_HASH_LEN (concat (want_fields m))) with (slice 22 32 (concat (want_fields m))).
  rewrite Ht, Hc, Hr, Hf, Hn, !Z.gtb_ltb. destruct (Z.eqb_spec (wn_count m) 0); [lia|].
  destruct (Z.ltb_spec FZN_MSG_MAX_SPAN (wn_count m)); [lia|]. destruct (Z.ltb_spec FZN_SPOOL_MAX_LEAVES (wn_first m)); [lia|].
  cbn [orb]. destruct (Z.ltb_spec (FZN_SPOOL_MAX_LEAVES - wn_first m) (wn_count m)); [lia|]. by destruct m.
Qed.

Lemma want_only b m : Forall in_u8 b -> fzn_msg_want_parse b = (FZN_MSG_OK, Some m) -> want_ok m /\ b = concat (want_fields m).
Proof.
  intros Hb. unfold fzn_msg_want_parse. change FZN_MSG_WANT_LEN with 70.
  destruct (check_header b 70 FZN_MSG_WANT) eqn:Eh; try done. pose proof (header_slice _ _ _ Eh ltac:(lia)) as Hh.
  destruct (Z.eqb_spec (zlen b) 70) as [Hl|]; cbn [negb]; [|done].
  change FZN_MSG_WANT_OFF_COUNT with 62. change FZN_MSG_WANT_OFF_FIRST with 54. change FZN_MSG_WANT_OFF_TRANSFER with 2.
  pose proof (get_be64_range b 62 Hb) as Hn. pose proof (get_be64_range b 54 Hb) as Hf. pose proof (get_be32_range b 2 Hb) as Ht.
  pose proof (be64_get b 62 Hb ltac:(lia) ltac:(lia)) as En. pose proof (be64_get b 54 Hb ltac:(lia) ltac:(lia)) as Ef.
  pose proof (be32_get b 2 Hb ltac:(lia) ltac:(lia)) as Et. rewrite !Z.gtb_ltb.
  set (n := fzn_get_be64 b 62) in *. set (f := fzn_get_be64 b 54) in *. set (t := fzn_get_be32 b 2) in *.
  destruct (Z.eqb_spec n 0); [done|]. destruct (Z.ltb_spec FZN_MSG_MAX_SPAN n); [done|].
  destruct (Z.ltb_spec FZN_SPOOL_MAX_LEAVES f); cbn [orb]; [done|]. destruct (Z.ltb_spec (FZN_SPOOL_MAX_LEAVES - f) n); [done|].
  intros [= <-]. unfold want_ok, want_fields. cbn [wn_transfer wn_cookie wn_root wn_first wn_count].
  change (slice FZN_MSG_WANT_OFF_ROOT FZN_BLOB_HASH_LEN b) with (slice 22 32 b).
  change (slice FZN_MSG_WANT_OFF_COOKIE FZN_MSG_COOKIE_LEN b) with (slice 6 16 b). split.
  - split; [done|]. split; [by apply (is_bytes_slice 6 16 70); try lia|]. split; [by apply (is_bytes_slice 22 32 70); try lia|]. ulia.
  - rewrite En, Ef, Et. cbn [concat]. rewrite app_nil_r. rewrite <- (slice_all 70 b) at 1 by lia.
    rewrite (slice_cut b 0 2 68), (slice_cut b (0 + 2) 4 64), (slice_cut b (0 + 2 + 4) 16 48), (slice_cut b (0 + 2 + 4 + 16) 32 16),
      (slice_cut b (0 + 2 + 4 + 16 + 32) 8 8) by lia. by rewrite Hh.
Qed.

Lemma want_encode_iff m out out' n : in_u32 (wn_transfer m) -> is_bytes 16 (wn_cookie m) -> is_bytes 32 (wn_root m) ->
  0 <= wn_first m -> 0 <= wn_count m ->
  fzn_msg_want_encode (wn_transfer m) (wn_cookie m) (wn_root m) (wn_first m) (wn_count m) out = (FZN_MSG_OK, out', n) <->
  want_ok m /\ 70 <= zlen out /\ out' = blits 0 (want_fields m) out /\ n = Some 70.
Proof.
  intros Ht Hc Hr Hf Hn. unfold want_ok, fzn_msg_want_encode. rewrite !Z.gtb_ltb.
  destruct (Z.eqb_spec (wn_count m) 0); [split; [done|lia]|].
  destruct (Z.ltb_spec FZN_MSG_MAX_SPAN (wn_count m)); [split; [done|lia]|].
  destruct (Z.ltb_spec FZN_SPOOL_MAX_LEAVES (wn_first m)); cbn [orb]; [split; [done|lia]|].
  destruct (Z.ltb_spec (FZN_SPOOL_MAX_LEAVES - wn_first m) (wn_count m)); [split; [done|lia]|].
  change FZN_MSG_WANT_LEN with 70. destruct (Z.ltb_spec (zlen out) 70); [split; [done|lia]|].
  rewrite put_header_blits. unfold want_fields. cbn [blits type_byte]. destruct Hc as [Hc Hc'], Hr as [Hr Hr'].
  rewrite !zlen_be64, zlen_be32, Hr, Hc, !slice_all by (change FZN_BLOB_HASH_LEN with 32; change FZN_MSG_COOKIE_LEN with 16; lia).
  split.
  - intros [= <- <-]. split; [|done]. split_and!; try done; lia.
  - by intros (_ & _ & -> & ->).
Qed.
