(* ===== verification/SpoolMessageRound.v ===== *)
(** * What a spool message says

    The span message read and written, and the four messages together: every
    encoding reads back to its message, and every string a parser takes is
    the one encoding of what it read ([SpoolMessage]). *)

From S2P Require Import Prelude Bytes Blob Spool SpoolPlan SpoolMessage.

(** ** The span *)

Lemma put_lens_blits sealed : forall p out,
  put_lens p sealed out = (p + 4 * zlen sealed, blits p (len_fields sealed) out).
Proof.
  induction sealed as [|one sealed IH]; intros p out; cbn [put_lens]; [by rewrite Z.add_0_r|].
  rewrite IH, zlen_cons. f_equal. lia.
Qed.

Lemma put_leaves_blits sealed : forall p out, put_leaves p sealed out = blits p (leaf_of <$> sealed) out.
Proof. induction sealed as [|one sealed IH]; intros p out; [done|]. cbn [put_leaves]. by rewrite IH. Qed.

Lemma zlen_len_fields sealed : zlen (concat (len_fields sealed)) = 4 * zlen sealed.
Proof.
  induction sealed as [|one sealed IH]; [done|]. unfold len_fields in *. cbn [fmap list_fmap concat].
  rewrite zlen_app, IH, zlen_cons, zlen_be32. lia.
Qed.

(** The bytes of the leaves of a span. *)
Definition body_of_span (sealed : list (option bytes)) : bytes := concat (leaf_of <$> sealed).

Lemma body_of_cons one sealed : body_of_span (one :: sealed) = leaf_of one ++ body_of_span sealed.
Proof. done. Qed.

Lemma body_loop_iff sealed : Forall (fun one => match one with Some leaf => Forall in_u8 leaf | None => True end) sealed ->
  forall cap need body n, 0 <= body -> body <= cap - need \/ sealed <> [] ->
  body_loop sealed cap need body = (FZN_MSG_OK, n) <->
  Forall leaf_ok sealed /\ need + body + zlen (body_of_span sealed) <= cap /\ n = body + zlen (body_of_span sealed).
Proof.
  induction 1 as [|one sealed Hone Hs IH]; intros cap need body n Hb Hroom; cbn [body_loop].
  - change (body_of_span []) with (@nil Z). rewrite zlen_nil. split; [intros [= <-]; split; [constructor|]|intros (_ & _ & ->); f_equal]; try lia.
    destruct Hroom; [lia|done].
  - rewrite Forall_cons_iff, body_of_cons, zlen_app. destruct one as [leaf|]; [|split; [done|intros (((? & ? & _) & _) & _); done]].
    change (leaf_of (Some leaf)) with leaf. pose proof (zlen_nonneg leaf). pose proof (zlen_nonneg (body_of_span sealed)).
    assert (leaf_ok (Some leaf) <-> 1 <= zlen leaf <= UINT32_MAX) as Hlk
      by (split; [intros (? & [= <-] & ? & _); done|intros; by exists leaf]).
    rewrite Hlk. destruct (Z.eqb_spec (zlen leaf) 0); [split; [done|lia]|].
    rewrite !Z.gtb_ltb. destruct (Z.ltb_spec UINT32_MAX (zlen leaf)); [split; [done|lia]|].
    destruct (Z.ltb_spec cap need); cbn [orb]; [split; [done|lia]|].
    destruct (Z.ltb_spec (cap - need - body) (zlen leaf)); [split; [done|lia]|]. rewrite IH by lia.
    split; intros; split_and!; try tauto; lia.
Qed.

Lemma slice_parts (b x y : bytes) off n m : 0 <= off -> 0 <= n -> 0 <= m -> zlen x = n ->
  off + n <= zlen b -> slice off (n + m) b = x ++ y -> slice off n b = x /\ slice (off + n) m b = y.
Proof.
  intros Ho Hn Hm Hx Hl. rewrite (slice_cut b off n m) by lia. intros H. apply app_inj_1 in H; [done|].
  pose proof (zlen_slice off n b Ho Hn Hl) as E. unfold zlen in *. lia.
Qed.

Lemma len_fields_cons one sealed : concat (len_fields (one :: sealed)) = be32 (zlen (leaf_of one)) ++ concat (len_fields sealed).
Proof. done. Qed.

Lemma span_written b sealed : Forall leaf_ok sealed -> forall p need body q, 0 <= p -> p + 4 * zlen sealed <= zlen b ->
  slice p (4 * zlen sealed) b = concat (len_fields sealed) -> body + zlen (body_of_span sealed) <= zlen b - need ->
  0 <= q -> q + zlen (body_of_span sealed) <= zlen b -> slice q (zlen (body_of_span sealed)) b = body_of_span sealed ->
  lens_loop (length sealed) b p need body = (FZN_MSG_OK, body + zlen (body_of_span sealed)) /\
  get_leaves (length sealed) b p q = sealed.
Proof.
  induction 1 as [|one sealed (leaf & -> & Hlen & _) Hs IH]; intros p need body q Hp Hl Hlens Hroom Hq Hql Hbody.
  { cbn. change (zlen (body_of_span [])) with 0. by rewrite Z.add_0_r. }
  rewrite len_fields_cons in Hlens. rewrite body_of_cons in *. change (leaf_of (Some leaf)) with leaf in *.
  rewrite zlen_app in *. pose proof (zlen_nonneg sealed). pose proof (zlen_nonneg (body_of_span sealed)).
  rewrite zlen_cons in Hl, Hlens. replace (4 * (1 + zlen sealed)) with (4 + 4 * zlen sealed) in Hlens by lia.
  apply slice_parts in Hlens as [H1 H2]; [|lia|lia|lia|done|lia]. apply slice_parts in Hbody as [H3 H4]; [|lia|lia|lia|done|lia].
  cbn [length lens_loop get_leaves]. rewrite (get_be32_of b p (zlen leaf)) by (done || ulia).
  destruct (Z.eqb_spec (zlen leaf) 0); [lia|]. rewrite Z.gtb_ltb. destruct (Z.ltb_spec (zlen b - need - body) (zlen leaf)); [lia|].
  destruct (IH (p + 4) need (body + zlen leaf) (q + zlen leaf)) as [-> ->]; try lia; try done. rewrite H3. split; [f_equal; lia|done].
Qed.

Lemma lens_loop_ge b at_ : Forall in_u8 b -> forall p need body n, lens_loop at_ b p need body = (FZN_MSG_OK, n) -> body <= n.
Proof.
  intros Hb. induction at_ as [|at_ IH]; intros p need body n Hr; cbn [lens_loop] in Hr; [injection Hr as <-; lia|].
  repeat case_match; try done. apply IH in Hr. pose proof (get_be32_range b p Hb). ulia.
Qed.

Lemma span_only b : Forall in_u8 b -> forall at_ p need body q n, 0 <= p -> p + 4 * Z.of_nat at_ <= zlen b ->
  lens_loop at_ b p need body = (FZN_MSG_OK, n) -> 0 <= q -> q + (n - body) <= zlen b ->
  let sealed := get_leaves at_ b p q in
  length sealed = at_ /\ Forall leaf_ok sealed /\ concat (len_fields sealed) = slice p (4 * Z.of_nat at_) b /\
  body_of_span sealed = slice q (n - body) b.
Proof.
  intros Hb. induction at_ as [|at_ IH]; intros p need body q n Hp Hl Hr Hq Hql; cbn [lens_loop get_leaves] in *.
  { injection Hr as <-. split_and!; try done. replace (body - body) with 0 by lia. done. }
  pose proof (get_be32_range b p Hb) as Hone. pose proof (be32_get b p Hb Hp ltac:(lia)) as Eone. set (one := fzn_get_be32 b p) in *.
  destruct (Z.eqb_spec one 0); [done|]. rewrite Z.gtb_ltb in Hr. destruct (Z.ltb_spec (zlen b - need - body) one); [done|].
  pose proof (lens_loop_ge _ _ Hb _ _ _ _ Hr) as Hge. destruct (IH (p + 4) need (body + one) (q + one) n) as (H1 & H2 & H3 & H4); try ulia; [done|].
  assert (zlen (slice q one b) = one) as Hz by (apply zlen_slice; ulia).
  split; [cbn; lia|]. split; [|split].
  - constructor; [|done]. exists (slice q one b). split; [done|]. split; [ulia|]. unfold slice. by apply Forall_take, Forall_drop.
  - rewrite len_fields_cons, H3. change (leaf_of (Some ?x)) with x. rewrite Hz, Eone.
    by rewrite (slice_cut b p 4 (4 * Z.of_nat at_) (4 * Z.of_nat (S at_))) by lia.
  - rewrite body_of_cons, H4. change (leaf_of (Some ?x)) with x. symmetry. by rewrite (slice_cut b q one (n - (body + one)) (n - body)) by ulia.
Qed.

(** The head of the message, its proof and where its leaves lie. *)
Lemma zlen_proof m : data_ok m -> zlen (default [] (dt_proof m)) = 32 * dt_proof_count m.
Proof. intros (_ & _ & _ & _ & _ & Hp & _). destruct (dt_proof m); [apply Hp|by rewrite Hp]. Qed.

Lemma data_head m : data_ok m -> let b := concat (data_fields m) in let q := 23 + 32 * dt_proof_count m in
  zlen b = q + 4 * zlen (dt_sealed m) + zlen (body_of_span (dt_sealed m)) /\ peek b 0 = 1 /\ peek b 1 = 4 /\
  fzn_get_be32 b 2 = dt_transfer m /\ fzn_get_be64 b 6 = dt_first m /\ fzn_get_be64 b 14 = zlen (dt_sealed m) /\
  peek b 22 = dt_proof_count m /\ slice 23 (32 * dt_proof_count m) b = default [] (dt_proof m) /\
  slice q (4 * zlen (dt_sealed m)) b = concat (len_fields (dt_sealed m)) /\
  slice (q + 4 * zlen (dt_sealed m)) (zlen (body_of_span (dt_sealed m))) b = body_of_span (dt_sealed m).
Proof.
  intros Hm b q. pose proof (zlen_proof m Hm) as Hp. destruct Hm as (Ht & Hf & Hin & Hn & Hpc & _).
  unfold FZN_SPOOL_MAX_LEAVES, FZN_MSG_MAX_SPAN, FZN_MSG_MAX_PROOF, FZN_BLOB_MAX_DEPTH in *. change (Z.shiftl 1 22) with 4194304 in Hin.
  pose proof (zlen_len_fields (dt_sealed m)) as Hlf. pose proof (zlen_nonneg (dt_sealed m)).
  set (head := [1] ++ [4] ++ be32 (dt_transfer m) ++ be64 (dt_first m) ++ be64 (zlen (dt_sealed m)) ++ [dt_proof_count m]).
  set (pr := default [] (dt_proof m)) in *. set (ls := concat (len_fields (dt_sealed m))) in *. set (bd := body_of_span (dt_sealed m)).
  assert (b = head ++ pr ++ ls ++ bd) as Eb.
  { unfold b, data_fields. rewrite !concat_app. cbn [concat]. rewrite app_nil_r. unfold head. by rewrite <- !app_assoc. }
  assert (zlen head = 23) as Hh by done. unfold q. split; [rewrite Eb, !zlen_app; lia|]. split; [done|]. split; [done|]. unfold b, data_fields.
  split; [apply get_be32_of; [done|ulia|]; at_field 2%nat; [lia|done]|].
  split; [apply get_be64_of; [done|ulia|]; at_field 3%nat; [lia|done]|].
  split; [apply get_be64_of; [done|ulia|]; at_field 4%nat; [lia|done]|]. split; [done|].
  fold b. change (concat (_ ++ _ ++ _)) with b. rewrite Eb. split; [by apply slice_mid|]. split.
  - rewrite app_assoc. apply slice_mid; [rewrite zlen_app|]; lia.
  - rewrite !app_assoc. rewrite <- (app_nil_r bd) at 2. apply slice_mid; [rewrite !zlen_app|]; lia.
Qed.

Lemma data_read m cap : data_ok m -> zlen (dt_sealed m) <= cap ->
  fzn_msg_data_parse (concat (data_fields m)) cap = (FZN_MSG_OK, Some m).
Proof.
  intros Hm Hcap. destruct (data_head m Hm) as (Hl & H0 & H1 & Ht & Hf & Hn & Hpc & Hpr & Hls & Hbd).
  set (b := concat (data_fields m)) in *. destruct Hm as (_ & Hfr & Hin & Hnr & Hpcr & Hproof & Hleaves).
  pose proof (zlen_nonneg (body_of_span (dt_sealed m))). unfold fzn_msg_data_parse. change FZN_MSG_DATA_OFF_PROOF with 23.
  rewrite (proj2 (check_header_iff _ 23 FZN_MSG_DATA)) by (split; [lia|done]).
  change FZN_MSG_DATA_OFF_COUNT with 14. change FZN_MSG_DATA_OFF_FIRST with 6. change FZN_MSG_DATA_OFF_PROOF_COUNT with 22.
  change FZN_MSG_DATA_OFF_TRANSFER with 2. change FZN_BLOB_HASH_LEN with 32. rewrite Hn, Hf, Hpc, Ht, !Z.gtb_ltb.
  destruct (Z.eqb_spec (zlen (dt_sealed m)) 0); [lia|]. destruct (Z.ltb_spec FZN_MSG_MAX_SPAN (zlen (dt_sealed m))); [lia|].
  destruct (Z.ltb_spec cap (zlen (dt_sealed m))); [lia|]. destruct (Z.ltb_spec FZN_SPOOL_MAX_LEAVES (dt_first m)); [lia|]. cbn [orb].
  destruct (Z.ltb_spec (FZN_SPOOL_MAX_LEAVES - dt_first m) (zlen (dt_sealed m))); [lia|].
  destruct (Z.ltb_spec FZN_MSG_MAX_PROOF (dt_proof_count m)); [lia|].
  rewrite !(Z.mul_comm (dt_proof_count m) 32), !(Z.mul_comm (zlen (dt_sealed m)) 4).
  set (q := 23 + 32 * dt_proof_count m) in *. destruct (Z.ltb_spec (zlen b) (q + 4 * zlen (dt_sealed m))); [lia|].
  destruct (span_written b (dt_sealed m) Hleaves q (q + 4 * zlen (dt_sealed m)) 0 (q + 4 * zlen (dt_sealed m))) as [E1 E2]; try done; try lia.
  replace (Z.to_nat (zlen (dt_sealed m))) with (length (dt_sealed m)) by (unfold zlen; lia). rewrite E1, E2, (proj2 (Z.eqb_eq _ _)) by lia. cbn [negb].
  do 2 f_equal. rewrite Hpr. clear -Hproof. destruct m as [t f pr pc sl]; cbn [dt_transfer dt_first dt_proof dt_proof_count dt_sealed] in *. f_equal.
  destruct pr as [p|]; [|by subst]. destruct (Z.ltb_spec 0 pc); [done|lia].
Qed.

Lemma data_only b cap m : Forall in_u8 b -> fzn_msg_data_parse b cap = (FZN_MSG_OK, Some m) ->
  data_ok m /\ zlen (dt_sealed m) <= cap /\ b = concat (data_fields m).
Proof.
  intros Hb. unfold fzn_msg_data_parse. change FZN_MSG_DATA_OFF_PROOF with 23. change FZN_BLOB_HASH_LEN with 32.
  destruct (check_header b 23 FZN_MSG_DATA) eqn:Eh; try done. pose proof (header_slice _ _ _ Eh ltac:(lia)) as Hh.
  apply check_header_iff in Eh as (Hl & _).
  change FZN_MSG_DATA_OFF_COUNT with 14. change FZN_MSG_DATA_OFF_FIRST with 6. change FZN_MSG_DATA_OFF_PROOF_COUNT with 22.
  change FZN_MSG_DATA_OFF_TRANSFER with 2. pose proof (get_be64_range b 14 Hb) as Hn. pose proof (get_be64_range b 6 Hb) as Hf.
  pose proof (get_be32_range b 2 Hb) as Ht. pose proof (peek_range b 22 Hb) as Hpc.
  pose proof (be64_get b 14 Hb ltac:(lia) ltac:(lia)) as En. pose proof (be64_get b 6 Hb ltac:(lia) ltac:(lia)) as Ef.
  pose proof (be32_get b 2 Hb ltac:(lia) ltac:(lia)) as Et. pose proof (slice_1 b 22 ltac:(lia) ltac:(lia)) as Epc. rewrite !Z.gtb_ltb.
  set (n := fzn_get_be64 b 14) in *. set (f := fzn_get_be64 b 6) in *. set (t := fzn_get_be32 b 2) in *. set (pc := peek b 22) in *.
  destruct (Z.eqb_spec n 0); [done|]. destruct (Z.ltb_spec FZN_MSG_MAX_SPAN n); [done|]. destruct (Z.ltb_spec cap n); [done|].
  destruct (Z.ltb_spec FZN_SPOOL_MAX_LEAVES f); cbn [orb]; [done|]. destruct (Z.ltb_spec (FZN_SPOOL_MAX_LEAVES - f) n); [done|].
  destruct (Z.ltb_spec FZN_MSG_MAX_PROOF pc); [done|]. rewrite !(Z.mul_comm pc 32), !(Z.mul_comm n 4).
  set (q := 23 + 32 * pc) in *. destruct (Z.ltb_spec (zlen b) (q + 4 * n)); [done|]. destruct (lens_loop _ _ _ _ _) as [[] body] eqn:El; try done.
  destruct (Z.eqb_spec (zlen b) (q + 4 * n + body)); cbn [negb]; [|done]. intros [= <-]. width.
  pose proof (lens_loop_ge _ _ Hb _ _ _ _ El) as Hge.
  destruct (span_only b Hb (Z.to_nat n) q (q + 4 * n) 0 (q + 4 * n) body ltac:(lia) ltac:(lia) El ltac:(lia) ltac:(lia)) as (G1 & G2 & G3 & G4).
  set (sl := get_leaves _ _ _ _) in *. replace (Z.of_nat (Z.to_nat n)) with n in G3 by lia. rewrite Z.sub_0_r in G4.
  assert (zlen sl = n) as Hz by (unfold zlen; lia).
  assert (default [] (if 0 <? pc then Some (slice 23 (32 * pc) b) else None) = slice 23 (32 * pc) b) as Ep.
  { destruct (Z.ltb_spec 0 pc); [done|]. replace pc with 0 by lia. done. }
  unfold data_ok, data_fields. cbn [dt_transfer dt_first dt_proof dt_proof_count dt_sealed]. rewrite Hz, Ep. split; [|split; [done|]].
  - split; [done|]. split; [lia|]. split; [lia|]. split; [lia|]. split; [lia|]. split; [|done].
    destruct (Z.ltb_spec 0 pc); [|lia]. split; [lia|]. by apply (is_bytes_slice 23 (32 * pc) (zlen b)); try lia.
  - rewrite En, Ef, Et, <- Epc, !concat_app, G3. change (concat (leaf_of <$> sl)) with (body_of_span sl). rewrite G4. cbn [concat].
    rewrite app_nil_r. rewrite <- (slice_all (q + 4 * n + body) b) at 1 by lia.
    rewrite (slice_cut b 0 2 (q + 4 * n + body - 2)), (slice_cut b (0 + 2) 4 (q + 4 * n + body - 6)),
      (slice_cut b (0 + 2 + 4) 8 (q + 4 * n + body - 14)), (slice_cut b (0 + 2 + 4 + 8) 8 (q + 4 * n + body - 22)),
      (slice_cut b (0 + 2 + 4 + 8 + 8) 1 (q + 4 * n + body - 23)), (slice_cut b (0 + 2 + 4 + 8 + 8 + 1) (32 * pc) (4 * n + body)),
      (slice_cut b (0 + 2 + 4 + 8 + 8 + 1 + 32 * pc) (4 * n) body) by lia.
    rewrite Hh. replace (0 + 2 + 4 + 8 + 8 + 1 + 32 * pc) with q by lia. cbn [app type_byte]. rewrite <- !app_assoc. done.
Qed.

(** The arguments of the encoder, whatever their values. *)
Definition data_typed (m : fzn_msg_data) : Prop :=
  in_u32 (dt_transfer m) /\ 0 <= dt_first m /\ 0 <= dt_proof_count m /\
  match dt_proof m with
  | Some p => 1 <= dt_proof_count m /\ is_bytes (32 * dt_proof_count m) p
  | None => True
  end /\ Forall (fun one => match one with Some leaf => Forall in_u8 leaf | None => True end) (dt_sealed m).

Lemma write_data_blits m out : 0 <= dt_proof_count m <= FZN_MSG_MAX_PROOF ->
  zlen (default [] (dt_proof m)) = 32 * dt_proof_count m ->
  write_data (dt_transfer m) (dt_first m) (dt_proof m) (dt_proof_count m) (dt_sealed m) out = blits 0 (data_fields m) out.
Proof.
  destruct m as [t f pr pc sl]; cbn [dt_transfer dt_first dt_proof dt_proof_count dt_sealed]. intros Hpc Hpl.
  unfold write_data. change FZN_MSG_DATA_OFF_PROOF with 23. change FZN_BLOB_HASH_LEN with 32. rewrite !(Z.mul_comm pc 32), Z.gtb_ltb.
  set (q := 23 + 32 * pc).
  assert (forall o, (if 0 <? pc then (q, blit 23 (slice 0 (32 * pc) (default [] pr)) o) else (23, o)) = (q, blit 23 (default [] pr) o)) as ->.
  { intros o. destruct (Z.ltb_spec 0 pc); [by rewrite slice_all by lia|]. unfold q. assert (pc = 0) as -> by lia.
    destruct (default [] pr); [by rewrite blit_nil|]. rewrite zlen_cons in Hpl. pose proof (zlen_nonneg l). lia. }
  rewrite put_lens_blits, put_leaves_blits, put_header_blits. unfold data_fields. cbn [dt_transfer dt_first dt_proof dt_proof_count dt_sealed].
  rewrite !blits_app, zlen_len_fields. cbn [concat]. rewrite !zlen_app, Hpl.
  change (zlen [1]) with 1. change (zlen [4]) with 1. change (zlen (be32 t)) with 4. change (zlen (be64 f)) with 8.
  change (zlen (be64 (zlen sl))) with 8. change (zlen [pc]) with 1. change (zlen (@nil Z)) with 0.
  replace (1 + (1 + (4 + (8 + (8 + (1 + (32 * pc + 0))))))) with q by (unfold q; lia). rewrite !Z.add_0_l.
  do 2 f_equal. unfold poke. rewrite u8_small; [reflexivity|]. unfold FZN_MSG_MAX_PROOF, FZN_BLOB_MAX_DEPTH in *. ulia.
Qed.

Lemma data_encode_iff m out out' n : data_typed m ->
  fzn_msg_data_encode (dt_transfer m) (dt_first m) (dt_proof m) (dt_proof_count m) (dt_sealed m) out = (FZN_MSG_OK, out', n) <->
  data_ok m /\ zlen (concat (data_fields m)) <= zlen out /\ out' = blits 0 (data_fields m) out /\
  n = Some (zlen (concat (data_fields m))).
Proof.
  intros (Ht & Hf & Hpc & Hproof & Hleaves).
  destruct m as [t f pr pc sl]; cbn [dt_transfer dt_first dt_proof dt_proof_count dt_sealed] in *. set (m := mk_data _ _ _ _ _).
  pose proof (zlen_nonneg sl) as Hsl. unfold fzn_msg_data_encode. rewrite !Z.gtb_ltb.
  destruct ((0 <? pc) && is_null pr) eqn:Enull.
  { split; [done|]. intros ((_ & _ & _ & _ & _ & Hp & _) & _). cbn in Hp. destruct pr; [by rewrite andb_false_r in Enull|]. subst. done. }
  assert (zlen (default [] pr) = 32 * pc) as Hpl.
  { destruct pr; cbn; [apply Hproof|]. rewrite andb_true_r in Enull. apply Z.ltb_ge in Enull. change (zlen []) with 0. lia. }
  destruct (Z.eqb_spec (zlen sl) 0); [split; [done|]; intros ((_ & _ & _ & Hn & _) & _); cbn in Hn; lia|].
  destruct (Z.ltb_spec FZN_MSG_MAX_SPAN (zlen sl)); cbn [orb]; [split; [done|]; intros ((_ & _ & _ & Hn & _) & _); cbn in Hn; lia|].
  destruct (Z.ltb_spec FZN_MSG_MAX_PROOF pc); [split; [done|]; intros ((_ & _ & _ & _ & Hn & _) & _); cbn in Hn; lia|].
  destruct (Z.ltb_spec FZN_SPOOL_MAX_LEAVES f); cbn [orb]; [split; [done|]; intros ((_ & _ & Hn & _) & _); cbn in Hn; lia|].
  destruct (Z.ltb_spec (FZN_SPOOL_MAX_LEAVES - f) (zlen sl)); [split; [done|]; intros ((_ & _ & Hn & _) & _); cbn in Hn; lia|].
  change FZN_MSG_DATA_OFF_PROOF with 23. change FZN_BLOB_HASH_LEN with 32. rewrite !(Z.mul_comm pc 32), !(Z.mul_comm (zlen sl) 4).
  set (q := 23 + 32 * pc). set (need := q + 4 * zlen sl).
  assert (data_ok m <-> Forall leaf_ok sl) as Hok.
  { unfold data_ok, m. cbn [dt_transfer dt_first dt_proof dt_proof_count dt_sealed]. split; [tauto|]. intros. split_and!; try done; try lia.
    destruct pr; [done|]. rewrite andb_true_r in Enull. apply Z.ltb_ge in Enull. lia. }
  assert (zlen (concat (data_fields m)) = need + zlen (body_of_span sl)) as Hl.
  { unfold data_fields, m. cbn [dt_transfer dt_first dt_proof dt_proof_count dt_sealed]. rewrite !concat_app, !zlen_app, zlen_len_fields.
    change (concat (leaf_of <$> sl)) with (body_of_span sl). cbn [concat]. rewrite !zlen_app, Hpl, !zlen_be64, zlen_be32, !zlen_cons, !zlen_nil. lia. }
  rewrite Hok, Hl. assert (sl <> []) as Hne by (by intros ->).
  pose proof (body_loop_iff sl Hleaves (zlen out) need 0) as Hiff. pose proof (zlen_nonneg (body_of_span sl)).
  destruct (body_loop sl (zlen out) need 0) as [err body]. specialize (fun n => Hiff n ltac:(lia) ltac:(by right)) as Hiff'. clear Hiff.
  destruct err; try (split; [done|]; intros (Hlk & Hroom & _); destruct (Hiff' (zlen (body_of_span sl))) as [_ Hx];
    discriminate Hx; split; [done|lia]).
  destruct (Hiff' body) as [Hx _]. destruct (Hx eq_refl) as (Hlk & Hroom & ->). rewrite Z.add_0_l.
  destruct (Z.ltb_spec (zlen out) (need + zlen (body_of_span sl))); [lia|].
  change t with (dt_transfer m). change f with (dt_first m). change pr with (dt_proof m). change pc with (dt_proof_count m).
  change sl with (dt_sealed m). rewrite write_data_blits by (unfold m; cbn; lia).
  split; [intros [= <- <-]; split_and!; (done || lia)|intros (_ & _ & -> & ->); done].
Qed.

(** ** One message, one string *)

(** A message of any type, as a host writes it and as the parser its type
    byte chooses reads it. *)
Inductive spool_msg :=
  | msg_have_query (root : bytes)
  | msg_have (m : fzn_msg_have)
  | msg_want (m : fzn_msg_want)
  | msg_data (m : fzn_msg_data).

Definition encode_msg (m : spool_msg) (out : bytes) : encoded :=
  match m with
  | msg_have_query root => fzn_msg_have_query_encode root out
  | msg_have m => fzn_msg_have_encode (hv_root m) (hv_leaf_count m) (hv_cookie m) (hv_ranges m) out
  | msg_want m => fzn_msg_want_encode (wn_transfer m) (wn_cookie m) (wn_root m) (wn_first m) (wn_count m) out
  | msg_data m => fzn_msg_data_encode (dt_transfer m) (dt_first m) (dt_proof m) (dt_proof_count m) (dt_sealed m) out
  end.

Definition parse_msg (b : bytes) (cap : Z) : fzn_msg_err * option spool_msg :=
  match fzn_msg_peek b with
  | (FZN_MSG_OK, Some FZN_MSG_HAVE_QUERY) => let '(err, root) := fzn_msg_have_query_parse b in (err, msg_have_query <$> root)
  | (FZN_MSG_OK, Some FZN_MSG_HAVE) => let '(err, m) := fzn_msg_have_parse b cap in (err, msg_have <$> m)
  | (FZN_MSG_OK, Some FZN_MSG_WANT) => let '(err, m) := fzn_msg_want_parse b in (err, msg_want <$> m)
  | (FZN_MSG_OK, Some FZN_MSG_DATA) => let '(err, m) := fzn_msg_data_parse b cap in (err, msg_data <$> m)
  | (err, _) => (err, None)
  end.

(** What the C types of an encoder's arguments say of them. *)
Definition msg_typed (m : spool_msg) : Prop :=
  match m with
  | msg_have_query root => is_bytes 32 root
  | msg_have m => is_bytes 32 (hv_root m) /\ is_bytes 16 (hv_cookie m) /\ 0 <= hv_leaf_count m /\
      Forall (fun r => 0 <= rg_first r /\ 0 <= rg_count r) (hv_ranges m)
  | msg_want m => in_u32 (wn_transfer m) /\ is_bytes 16 (wn_cookie m) /\ is_bytes 32 (wn_root m) /\
      0 <= wn_first m /\ 0 <= wn_count m
  | msg_data m => data_typed m
  end.

(** The rows a receiver needs for a message. *)
Definition msg_rows (m : spool_msg) : Z :=
  match m with msg_have m => zlen (hv_ranges m) | msg_data m => zlen (dt_sealed m) | _ => 0 end.

Definition msg_fields (m : spool_msg) : list bytes :=
  match m with
  | msg_have_query root => have_query_fields root
  | msg_have m => have_fields m
  | msg_want m => want_fields m
  | msg_data m => data_fields m
  end.

Definition msg_ok (m : spool_msg) : Prop :=
  match m with
  | msg_have_query root => is_bytes 32 root
  | msg_have m => have_ok m
  | msg_want m => want_ok m
  | msg_data m => data_ok m
  end.

Lemma msg_ok_typed m : msg_ok m -> msg_typed m.
Proof.
  destruct m as [root|m|m|m]; cbn.
  - done.
  - intros (Hr & Hc & Hl & _ & Hin). split_and!; try done; [lia|]. eapply list.Forall_impl; [exact Hin|]. unfold range_in. intros ? ?. lia.
  - intros (Ht & Hc & Hr & Hf & Hn & _). split_and!; (done || lia).
  - intros (Ht & Hf & _ & _ & Hpc & Hp & Hl). split_and!; try done; [lia|by destruct (dt_proof m)|].
    eapply list.Forall_impl; [exact Hl|]. by intros one (leaf & -> & _ & Hr).
Qed.

Lemma encode_msg_iff m out out' n : msg_typed m ->
  encode_msg m out = (FZN_MSG_OK, out', n) <->
  msg_ok m /\ zlen (concat (msg_fields m)) <= zlen out /\ out' = blits 0 (msg_fields m) out /\ n = Some (zlen (concat (msg_fields m))).
Proof.
  destruct m as [root|m|m|m]; cbn [msg_typed encode_msg msg_ok msg_fields].
  - intros Hr. rewrite query_encode_iff, zlen_query by done. tauto.
  - intros (Hr & Hc & Hl & Hin). rewrite have_encode_iff by done.
    split; intros (Hm & H); destruct (have_head m Hm) as (E & _); [rewrite E|rewrite E in H]; tauto.
  - intros (Ht & Hc & Hr & Hf & Hn). rewrite want_encode_iff by done.
    split; intros (Hm & H); destruct (want_head m Hm) as (E & _); [rewrite E|rewrite E in H]; tauto.
  - intros Hm. by apply data_encode_iff.
Qed.

Lemma parse_msg_iff b cap m : Forall in_u8 b ->
  parse_msg b cap = (FZN_MSG_OK, Some m) <-> msg_ok m /\ (msg_rows m <= cap \/ msg_rows m = 0) /\ b = concat (msg_fields m).
Proof.
  intros Hb. split.
  - unfold parse_msg. destruct (fzn_msg_peek b) as [[] [[]|]]; try done.
    + destruct (fzn_msg_have_query_parse b) as [err [root|]] eqn:E; cbn; [|done]. intros [= -> <-].
      destruct (query_only b root Hb E). split; [done|]. split; [by right|done].
    + destruct (fzn_msg_have_parse b cap) as [err [h|]] eqn:E; cbn; [|done]. intros [= -> <-].
      destruct (have_only b cap h Hb E) as (? & ? & ?). split; [done|]. split; [by left|done].
    + destruct (fzn_msg_want_parse b) as [err [w|]] eqn:E; cbn; [|done]. intros [= -> <-].
      destruct (want_only b w Hb E). split; [done|]. split; [by right|done].
    + destruct (fzn_msg_data_parse b cap) as [err [d|]] eqn:E; cbn; [|done]. intros [= -> <-].
      destruct (data_only b cap d Hb E) as (? & ? & ?). split; [done|]. split; [by left|done].
  - intros (Hm & Hcap & ->). unfold parse_msg. destruct m as [root|m|m|m]; cbn [msg_ok msg_rows msg_fields] in *.
    + rewrite (peek_type _ FZN_MSG_HAVE_QUERY) by (rewrite ?zlen_query; done). by rewrite query_read.
    + pose proof (have_head m Hm) as (Hl & H0 & H1 & _). pose proof Hm as (_ & _ & _ & Hn & _).
      rewrite (peek_type _ FZN_MSG_HAVE) by (done || lia). by rewrite have_read by (done || lia).
    + pose proof (want_head m Hm) as (Hl & H0 & H1 & _). rewrite (peek_type _ FZN_MSG_WANT) by (done || lia). by rewrite want_read.
    + pose proof (data_head m Hm) as (Hl & H0 & H1 & _). pose proof Hm as (_ & _ & _ & Hn & [Hpc _] & _).
      pose proof (zlen_nonneg (body_of_span (dt_sealed m))).
      rewrite (peek_type _ FZN_MSG_DATA) by (done || lia). by rewrite data_read by (done || lia).
Qed.

Ltac byte_fields :=
  repeat (apply Forall_cons_iff; split;
    [lazymatch goal with
     | |- Forall _ (be64 _) => apply be64_range
     | |- Forall _ (be32 _) => apply be32_range
     | |- Forall _ (be16 _) => apply be16_range
     | |- _ => assumption
     end|]); try apply Forall_nil_2.

(** Fields that are bytes, one by one. *)
Lemma msg_fields_bytes m : msg_ok m -> Forall (Forall in_u8) (msg_fields m).
Proof.
  assert (Forall in_u8 [1] /\ Forall in_u8 [2] /\ Forall in_u8 [3] /\ Forall in_u8 [4]) as (H1 & H2 & H3 & H4)
    by (split_and!; apply Forall_singleton; ulia).
  destruct m as [root|m|m|m]; cbn [msg_ok msg_fields]; intros Hm.
  - destruct Hm as [_ Hr]. unfold have_query_fields. byte_fields.
  - destruct Hm as ([_ Hr] & [_ Hc] & _). unfold have_fields. apply Forall_app. split.
    + byte_fields.
    + unfold range_fields. induction (hv_ranges m); cbn; [constructor|]. do 2 (constructor; [apply be64_range|]). done.
  - destruct Hm as (_ & [_ Hc] & [_ Hr] & _). unfold want_fields.
    byte_fields.
  - destruct Hm as (_ & _ & _ & _ & Hpc & Hp & Hl). unfold FZN_MSG_MAX_PROOF, FZN_BLOB_MAX_DEPTH in Hpc.
    assert (Forall in_u8 [dt_proof_count m]) by (apply Forall_singleton; ulia).
    assert (Forall in_u8 (default [] (dt_proof m))) by (destruct (dt_proof m); [apply Hp|constructor]).
    unfold data_fields. rewrite !Forall_app. split; [|split].
    + byte_fields.
    + apply Forall_fmap, Forall_true. intros. apply be32_range.
    + apply Forall_fmap. eapply list.Forall_impl; [exact Hl|]. by intros one (leaf & -> & _ & Hr).
Qed.

Lemma blits_fits {A} (fs : list (list A)) out : zlen (concat fs) <= zlen out ->
  slice 0 (zlen (concat fs)) (blits 0 fs out) = concat fs /\
  drop (length (concat fs)) (blits 0 fs out) = drop (length (concat fs)) out.
Proof.
  intros Hl. rewrite blits_start. split; [by apply (slice_mid [] (concat fs))|]. by rewrite drop_app_length.
Qed.

(** One message, one string. What a host encodes, the parser its type
    byte chooses reads back to the very message, given rows for it, and no
    byte of the buffer past it is touched. What a parser takes from a
    stranger's bytes is a message whose encoding is those bytes and no
    others: no two strings say the same, so none is counted twice, nothing
    trails, and what was taken passes the encoder's own guards. *)
Theorem messages_say_one_thing cap : 0 <= cap ->
  (forall m out out' n, msg_typed m -> encode_msg m out = (FZN_MSG_OK, out', Some n) ->
     0 <= n <= zlen out /\ drop (Z.to_nat n) out' = drop (Z.to_nat n) out /\ Forall in_u8 (slice 0 n out') /\
     (msg_rows m <= cap -> parse_msg (slice 0 n out') cap = (FZN_MSG_OK, Some m))) /\
  (forall b m out, Forall in_u8 b -> parse_msg b cap = (FZN_MSG_OK, Some m) ->
     msg_typed m /\ msg_rows m <= cap /\
     (zlen b <= zlen out -> encode_msg m out = (FZN_MSG_OK, b ++ drop (length b) out, Some (zlen b)))).
Proof.
  intros Hcap. split.
  - intros m out out' n Hm (Hok & Hfit & -> & [= ->])%encode_msg_iff; [|done].
    destruct (blits_fits _ _ Hfit) as [E1 E2]. pose proof (zlen_nonneg (concat (msg_fields m))).
    assert (Forall in_u8 (concat (msg_fields m))) as Hb by (apply Forall_concat, msg_fields_bytes, Hok).
    split; [lia|]. unfold zlen at 1 2. rewrite Nat2Z.id, E1. split; [done|]. split; [done|]. intros Hrows.
    apply parse_msg_iff; [done|]. split; [done|]. split; [by left|done].
  - intros b m out Hb (Hok & Hrows & ->)%parse_msg_iff; [|done]. split; [by apply msg_ok_typed|]. split; [lia|]. intros Hfit.
    apply encode_msg_iff; [by apply msg_ok_typed|]. by rewrite blits_start.
Qed.

Definition demo_span : spool_msg :=
  msg_data (mk_data 7 2 (Some (replicate 32 9)) 1 [Some [1; 2; 3]; Some [4]]).

Lemma messages_say_one_thing_witness :
  exists out' n, encode_msg demo_span (replicate 80 0) = (FZN_MSG_OK, out', Some n) /\
    n = 67 /\ parse_msg (slice 0 n out') 2 = (FZN_MSG_OK, Some demo_span).
Proof.
  assert (exists out', encode_msg demo_span (replicate 80 0) = (FZN_MSG_OK, out', Some 67)) as [out' E] by (eexists; vm_compute; reflexivity).
  exists out', 67. split; [exact E|]. split; [reflexivity|].
  refine (proj2 (proj2 (proj2 (proj1 (messages_say_one_thing 2 _) demo_span _ _ _ _ E))) _); [lia| |vm_compute; discriminate].
  assert (Forall in_u8 (replicate 32 9)) by (apply Forall_replicate; ulia).
  cbn [msg_typed demo_span]. unfold data_typed. cbn [dt_transfer dt_first dt_proof dt_proof_count dt_sealed]. split; [ulia|]. split; [lia|]. split; [lia|]. split; [split; [lia|split; [reflexivity|done]]|].
  repeat first [apply Forall_nil_2 | apply Forall_cons_iff; split | ulia].
Defined.
