(* ===== verification/Scrub.v ===== *)
(** * spool/scrub.c: stored bytes checked again

    A reference per cell of up to 64 leaves, taken over the slots as they are
    read, and compared with what is read later. The spool and the storage
    change between calls, so each call takes them as they then are; pointers
    are given. *)

From S2P Require Import Prelude Bitmap Storage Bytes Revocation Blob BlobTree BlobSpan BlobProof Spool SpoolHolds SpoolPlan.

Inductive fzn_scrub_err := FZN_SCRUB_OK | FZN_SCRUB_ERR_MALFORMED | FZN_SCRUB_DONE | FZN_SCRUB_ERR_BACKEND.

Definition FZN_SCRUB_CELL : Z := 64.
Definition FZN_SCRUB_SEALED_LEN (cells : Z) : Z := (cells + 7) / 8.

(** The file's own bits, over its own bitmap. *)
Definition bit_get (map : bytes) (index : Z) : bool :=
  negb (Z.land (Z.shiftr (default 0 (map !! Z.to_nat (index / 8))) (index mod 8)) 1 =? 0).
Definition bit_set (map : bytes) (index : Z) : bytes :=
  <[ Z.to_nat (index / 8) := Z.lor (default 0 (map !! Z.to_nat (index / 8))) (u8 (Z.shiftl 1 (index mod 8))) ]> map.

Definition cell_len (leaves first : Z) : Z := fzn_blob_span_largest_at leaves first FZN_SCRUB_CELL.

(** A turn passes a leaf at least, so [leaves] turns are enough. *)
Fixpoint cells_loop (turns : nat) (leaves first cells : Z) : Z :=
  match turns with
  | O => cells
  | S turns =>
    if first <? leaves then
      let len := cell_len leaves first in
      if len =? 0 then cells else cells_loop turns leaves (first + len) (cells + 1)
    else cells
  end.

Definition fzn_scrub_cells (leaves : Z) : Z := cells_loop (Z.to_nat leaves) leaves 0 0.

Record fzn_scrub := mk_scrub {
  sc_roots : bytes;
  sc_sealed : bytes;
  sc_cells : Z;
  sc_seal_cell : Z;
  sc_seal_first : Z;
  sc_step_cell : Z;
  sc_step_first : Z
}.

(** [cells] is how many hashes [roots] has room for. *)
Definition fzn_scrub_open (spool : fzn_spool) (roots : bytes) (cells : Z) (sealed : bytes) : fzn_scrub_err * option fzn_scrub :=
  if sp_leaves spool =? 0 then (FZN_SCRUB_ERR_MALFORMED, None)
  else
    let need := fzn_scrub_cells (sp_leaves spool) in
    if (cells <? need) || (zlen sealed <? FZN_SCRUB_SEALED_LEN need) then (FZN_SCRUB_ERR_MALFORMED, None)
    else
      (FZN_SCRUB_OK, Some (mk_scrub (blit 0 (zeros (need * FZN_BLOB_HASH_LEN)) roots) (blit 0 (zeros (FZN_SCRUB_SEALED_LEN need)) sealed)
        need 0 0 0 0)).

Definition cell_is_whole (spool : fzn_spool) (first count : Z) : bool := forallb (fzn_spool_has spool) (seqZ first count).

(** The hashes of the slots, one after the other. *)
Fixpoint digest_loop {S} (ops : fzn_spool_ops S) (spool : fzn_spool) (s : S) (hash : hash_vtable) (indices : list Z) : option bytes :=
  match indices with
  | [] => Some []
  | i :: indices =>
    match fzn_spool_read ops spool s i FZN_BLOB_SEALED_MAX with
    | (FZN_SPOOL_OK, Some slot) =>
      match fzn_blob_leaf_hash hash slot with
      | (FZN_BLOB_OK, Some h) => app h <$> digest_loop ops spool s hash indices
      | _ => None
      end
    | _ => None
    end
  end.

Definition cell_digest {S} (ops : fzn_spool_ops S) (spool : fzn_spool) (s : S) (hash : hash_vtable) (first count : Z)
    : fzn_scrub_err * option bytes :=
  if count >? FZN_SCRUB_CELL then (FZN_SCRUB_ERR_MALFORMED, None)
  else match digest_loop ops spool s hash (seqZ first count) with
  | None => (FZN_SCRUB_ERR_BACKEND, None)
  | Some slot_hashes =>
    match fzn_blob_span_root hash slot_hashes count with
    | (FZN_BLOB_OK, Some out) => (FZN_SCRUB_OK, Some out)
    | _ => (FZN_SCRUB_ERR_BACKEND, None)
    end
  end.

(** The cursor after a cell of [len], back at the start after the last. *)
Definition advance (scrub : fzn_scrub) (spool : fzn_spool) (cell first len : Z) : Z * Z :=
  let first := first + len in
  let cell := cell + 1 in
  if (cell >=? sc_cells scrub) || (first >=? sp_leaves spool) then (0, 0) else (cell, first).

Definition set_seal_cursor (scrub : fzn_scrub) (cursor : Z * Z) : fzn_scrub :=
  mk_scrub (sc_roots scrub) (sc_sealed scrub) (sc_cells scrub) (fst cursor) (snd cursor) (sc_step_cell scrub) (sc_step_first scrub).
Definition set_step_cursor (scrub : fzn_scrub) (cursor : Z * Z) : fzn_scrub :=
  mk_scrub (sc_roots scrub) (sc_sealed scrub) (sc_cells scrub) (sc_seal_cell scrub) (sc_seal_first scrub) (fst cursor) (snd cursor).

(** [memcpy(roots + cell * LEN, root); bit_set(sealed, cell);] *)
Definition record_reference (scrub : fzn_scrub) (cell : Z) (root : bytes) : fzn_scrub :=
  mk_scrub (blit (cell * FZN_BLOB_HASH_LEN) root (sc_roots scrub)) (bit_set (sc_sealed scrub) cell) (sc_cells scrub)
    (sc_seal_cell scrub) (sc_seal_first scrub) (sc_step_cell scrub) (sc_step_first scrub).

(** [bit_clear(sealed, cell);] *)
Definition drop_reference (scrub : fzn_scrub) (cell : Z) : fzn_scrub :=
  mk_scrub (sc_roots scrub) (bit_clear (sc_sealed scrub) cell) (sc_cells scrub)
    (sc_seal_cell scrub) (sc_seal_first scrub) (sc_step_cell scrub) (sc_step_first scrub).

Section Passes.
Context {S : Type} (ops : fzn_spool_ops S) (hash : hash_vtable).

(** [limit] turns; what was sealed is told only where the call ends well. *)
Fixpoint seal_loop (turns : nat) (scrub : fzn_scrub) (spool : fzn_spool) (s : S) (sealed_now : Z) : fzn_scrub_err * Z * fzn_scrub :=
  match turns with
  | O => (FZN_SCRUB_OK, sealed_now, scrub)
  | Datatypes.S turns =>
    let first := sc_seal_first scrub in
    let cell := sc_seal_cell scrub in
    let len := cell_len (sp_leaves spool) first in
    let next scrub sealed_now :=
      let cursor := advance scrub spool cell first len in
      let scrub := set_seal_cursor scrub cursor in
      if (fst cursor =? 0) && (snd cursor =? 0) then (FZN_SCRUB_DONE, sealed_now, scrub) else seal_loop turns scrub spool s sealed_now in
    if len =? 0 then (FZN_SCRUB_ERR_MALFORMED, 0, scrub)
    else if negb (bit_get (sc_sealed scrub) cell) && cell_is_whole spool first len then
      match cell_digest ops spool s hash first len with
      | (FZN_SCRUB_OK, Some root) => next (record_reference scrub cell root) (sealed_now + 1)
      | (err, _) => (err, 0, scrub)
      end
    else next scrub sealed_now
  end.

Definition fzn_scrub_seal (scrub : fzn_scrub) (spool : fzn_spool) (s : S) (limit : Z) : fzn_scrub_err * Z * fzn_scrub :=
  match hash with
  | None => (FZN_SCRUB_ERR_MALFORMED, 0, scrub)
  | Some _ => if limit =? 0 then (FZN_SCRUB_ERR_MALFORMED, 0, scrub) else seal_loop (Z.to_nat limit) scrub spool s 0
  end.

(** The counts of cells checked and dropped are told only where the call ends well. *)
Fixpoint step_loop (turns : nat) (scrub : fzn_scrub) (spool : fzn_spool) (s : S) (checked dropped : Z)
    : fzn_scrub_err * Z * Z * fzn_scrub * fzn_spool :=
  match turns with
  | O => (FZN_SCRUB_OK, checked, dropped, scrub, spool)
  | Datatypes.S turns =>
    let first := sc_step_first scrub in
    let cell := sc_step_cell scrub in
    let len := cell_len (sp_leaves spool) first in
    let next scrub spool checked dropped :=
      let cursor := advance scrub spool cell first len in
      let scrub := set_step_cursor scrub cursor in
      if (fst cursor =? 0) && (snd cursor =? 0) then (FZN_SCRUB_DONE, checked, dropped, scrub, spool)
      else step_loop turns scrub spool s checked dropped in
    if len =? 0 then (FZN_SCRUB_ERR_MALFORMED, 0, 0, scrub, spool)
    else if bit_get (sc_sealed scrub) cell && cell_is_whole spool first len then
      match cell_digest ops spool s hash first len with
      | (FZN_SCRUB_OK, Some root) =>
        if negb (memeq root (hash_at (sc_roots scrub) cell))
        then next (drop_reference scrub cell) (snd (fzn_spool_forget spool first len)) (checked + 1) (dropped + 1)
        else next scrub spool (checked + 1) dropped
      | (err, _) => (err, 0, 0, scrub, spool)
      end
    else next scrub spool checked dropped
  end.

Definition fzn_scrub_step (scrub : fzn_scrub) (spool : fzn_spool) (s : S) (limit : Z)
    : fzn_scrub_err * Z * Z * fzn_scrub * fzn_spool :=
  match hash with
  | None => (FZN_SCRUB_ERR_MALFORMED, 0, 0, scrub, spool)
  | Some _ => if limit =? 0 then (FZN_SCRUB_ERR_MALFORMED, 0, 0, scrub, spool) else step_loop (Z.to_nat limit) scrub spool s 0 0
  end.
End Passes.

(** Sealed cells, and cells. *)
Definition fzn_scrub_progress (scrub : fzn_scrub) : Z * Z :=
  (count (bit_get (sc_sealed scrub)) (seqZ 0 (sc_cells scrub)), sc_cells scrub).

(** ** The grid *)

Lemma bit_get_eq map i : 0 <= i -> bit_get map i = Bitmap.bit_get map i.
Proof. intros. unfold bit_get, Bitmap.bit_get, byte_of. by rewrite shiftr_3, land_7. Qed.

Lemma cell_bit_set map i j : 0 <= i < 8 * zlen map -> 0 <= j -> bit_get (bit_set map i) j = (i =? j) || bit_get map j.
Proof.
  intros Hi Hj. rewrite !bit_get_eq by lia. unfold bit_set. rewrite <- shiftr_3. apply bit_get_or; [done..|]. intros k Hk.
  rewrite Z.lor_spec, testbit_one_shift by (try apply Z.mod_pos_bound; lia). done.
Qed.

Lemma cell_bit_clear map i j : 0 <= i < 8 * zlen map -> 0 <= j -> bit_get (bit_clear map i) j = negb (i =? j) && bit_get map j.
Proof. intros. rewrite !bit_get_eq by lia. by apply Bitmap.bit_get_clear. Qed.

Lemma zlen_set map i : zlen (bit_set map i) = zlen map.
Proof. unfold zlen, bit_set. by rewrite length_insert. Qed.

(** The cells from [first] on: each begins where the one before ends. *)
Inductive tiles (leaves : Z) : Z -> list (Z * Z) -> Prop :=
| tiles_end : tiles leaves leaves []
| tiles_cell first len rest : first < leaves -> len = cell_len leaves first -> tiles leaves (first + len) rest ->
    tiles leaves first ((first, len) :: rest).

Lemma cell_len_spec leaves first : 0 <= first < leaves -> leaves <= FZN_SPOOL_MAX_LEAVES ->
  1 <= cell_len leaves first <= 64 /\ first + cell_len leaves first <= leaves.
Proof.
  intros Hf Hl. assert (FZN_SPOOL_MAX_LEAVES < FZN_BLOB_MAX_LEAVES) as Hmax by done.
  pose proof (largest_at_spec leaves first FZN_SCRUB_CELL ltac:(lia) ltac:(lia) ltac:(done)) as H. cbv zeta in H.
  destruct ((1 <=? leaves) && _ && _ && _) eqn:E; [|unfold FZN_SCRUB_CELL in *; lia]. destruct H as (H1 & H2 & _).
  fold (cell_len leaves first) in *. split; [exact H1|].
  apply (range_within leaves 64 (mk_span first (cell_len leaves first))); [lia|]. split_and!; cbn; [apply H1|apply H1|lia|done].
Qed.

Lemma cells_loop_spec turns : forall leaves first cells, 0 <= first <= leaves -> leaves <= FZN_SPOOL_MAX_LEAVES -> leaves - first <= Z.of_nat turns ->
  exists gs, tiles leaves first gs /\ cells_loop turns leaves first cells = cells + zlen gs.
Proof.
  induction turns as [|turns IH]; intros leaves first cells Hf Hl Ht; cbn [cells_loop].
  { assert (first = leaves) as -> by lia. exists []. split; [constructor|]. change (zlen (A:=Z*Z) []) with 0. lia. }
  destruct (Z.ltb_spec first leaves) as [Hlt|].
  2:{ assert (first = leaves) as -> by lia. exists []. split; [constructor|]. change (zlen (A:=Z*Z) []) with 0. lia. }
  destruct (cell_len_spec leaves first ltac:(lia) Hl) as [H1 H2]. destruct (Z.eqb_spec (cell_len leaves first) 0); [lia|].
  destruct (IH leaves (first + cell_len leaves first) (cells + 1) ltac:(lia) Hl ltac:(lia)) as (gs & Hgs & ->).
  exists ((first, cell_len leaves first) :: gs). split; [by constructor|]. unfold zlen. cbn [length]. lia.
Qed.

Lemma tiles_within leaves first gs : tiles leaves first gs -> 0 <= first -> leaves <= FZN_SPOOL_MAX_LEAVES ->
  forall i f len, gs !! i = Some (f, len) -> first <= f /\ 1 <= len <= 64 /\ f + len <= leaves.
Proof.
  induction 1 as [|first len rest Hlt -> _ IH]; intros Hf Hl i f n Hi; [done|].
  destruct (cell_len_spec leaves first ltac:(lia) Hl). destruct i as [|i]; cbn in Hi; [injection Hi as <- <-; lia|].
  destruct (IH ltac:(lia) Hl i f n Hi). lia.
Qed.
