(* ===== verification/ScrubFinds.v ===== *)
(** * spool/scrub.c: what a scrub finds

    A pass that seals, a pass that checks: the cells whose slots have changed
    between them are dropped and the others are kept. *)

From S2P Require Import Prelude Bitmap Storage Bytes Revocation Blob BlobTree BlobSpan BlobProof Spool SpoolHolds SpoolPlan Scrub.

Section Finds.
Context {S : Type} (ops : fzn_spool_ops S) (hash : fzn_hash_ops).
Hypothesis Hlen : forall x d, hash FZN_BLOB_HASH_LEN x = Some d -> zlen d = FZN_BLOB_HASH_LEN.

(** The slots a cell reads as. *)
Definition slot_at (spool : fzn_spool) (s : S) (i : Z) : option bytes :=
  match fzn_spool_read ops spool s i FZN_BLOB_SEALED_MAX with
  | (FZN_SPOOL_OK, Some slot) => Some slot
  | _ => None
  end.
Definition slots_of (spool : fzn_spool) (s : S) (f len : Z) : option (list bytes) := mapM (slot_at spool s) (seqZ f len).

(** What is hashed to make a cell's reference. *)
Definition slot_input (slots : list bytes) (x : bytes) : Prop :=
  (exists slot, slot ∈ slots /\ x = [FZN_BLOB_LEAF_PREFIX] ++ slot) \/
  exists got, span_hashes (Some (Some hash)) (Some <$> slots) = Some (concat got) /\ zlen got = zlen slots /\ run_input hash got x.

Abbreviation digest := (cell_digest ops).
Abbreviation vt := (Some (Some hash)).

Lemma digest_loop_eq spool s indices :
  digest_loop ops spool s vt indices = (slots ← mapM (slot_at spool s) indices; span_hashes vt (Some <$> slots)).
Proof.
  induction indices as [|i indices IH]; [done|]. cbn [digest_loop mapM]. rewrite IH. clear IH.
  assert (slot_at spool s i = match fzn_spool_read ops spool s i FZN_BLOB_SEALED_MAX with (FZN_SPOOL_OK, Some slot) => Some slot | _ => None end)
    as -> by done.
  destruct (fzn_spool_read ops spool s i FZN_BLOB_SEALED_MAX) as [[] [slot|]]; try done.
  cbn [mbind option_bind]. destruct (mapM (slot_at spool s) indices) as [slots|]; cbn [mbind option_bind mret option_ret fmap list_fmap span_hashes].
  - destruct (fzn_blob_leaf_hash vt slot) as [[] [h|]] eqn:E; try (by destruct (_ || _)).
    unfold fzn_blob_leaf_hash in E. by destruct (_ || _).
  - by destruct (fzn_blob_leaf_hash vt slot) as [[] [h|]].
Qed.

Lemma digest_ok spool s f len d : digest spool s vt f len = (FZN_SCRUB_OK, Some d) -> 1 <= len ->
  exists slots got, slots_of spool s f len = Some slots /\ zlen slots = len /\ zlen got = len /\
    span_hashes vt (Some <$> slots) = Some (concat got) /\
    Forall2 (fun s h => fzn_blob_leaf_hash vt s = (FZN_BLOB_OK, Some h)) slots got /\ apex hash got d.
Proof using Hlen.
  unfold cell_digest. destruct (Z.gtb_spec len FZN_SCRUB_CELL) as [|Hmax]; [done|]. rewrite digest_loop_eq.
  intros H Hl. fold (slots_of spool s f len) in H. destruct (slots_of spool s f len) as [slots|] eqn:Es; [|done].
  cbn [mbind option_bind] in H. destruct (span_hashes vt (Some <$> slots)) as [flat|] eqn:Eh; [|done].
  destruct (fzn_blob_span_root vt flat len) as [[] [d'|]] eqn:Er; try done. injection H as <-.
  destruct (span_hashes_spec hash _ _ Eh) as (leaves & got & El & -> & _ & Hgot).
  apply (list_fmap_eq_inj Some) in El; [|by intros ? ? [=]]. subst leaves.
  assert (zlen slots = len) as Hz.
  { unfold slots_of in Es. apply mapM_Some_1, Forall2_length in Es. rewrite length_seqZ in Es. unfold zlen. lia. }
  assert (zlen got = len) as Hzg by (rewrite <- Hz; unfold zlen; by rewrite (Forall2_length Hgot)).
  exists slots, got. split_and!; try done.
  unfold fzn_blob_span_root in Er. destruct (_ || _) eqn:E0; [done|].
  assert (hashes got) as Hhg.
  { eapply Forall2_Forall_r; [exact Hgot|]. apply Forall_true. intros h x Hx. by apply leaf_hash_input, Hlen in Hx. }
  change FZN_SCRUB_CELL with 64 in Hmax. change FZN_BLOB_MAX_LEAVES with 1099511627776 in *.
  pose proof (subtree_root_spec hash got 0 len Hhg ltac:(lia) ltac:(lia) ltac:(lia) ltac:(change FZN_BLOB_MAX_LEAVES with 1099511627776; lia)) as H.
  rewrite Er in H. by rewrite slice_all in H by lia.
Qed.

Lemma digest_size spool s f len d : 1 <= len -> digest spool s vt f len = (FZN_SCRUB_OK, Some d) -> zlen d = FZN_BLOB_HASH_LEN.
Proof using Hlen.
  intros Hl H. destruct (digest_ok _ _ _ _ _ H Hl) as (slots & got & _ & _ & _ & _ & Hgot & Ha). eapply (apex_len hash Hlen); [|exact Ha].
  eapply Forall2_Forall_r; [exact Hgot|]. apply Forall_true. intros h x Hx. by apply leaf_hash_input, Hlen in Hx.
Qed.

Lemma digest_errors spool s f len : len <= 64 -> forall err d, digest spool s vt f len = (err, d) ->
  err = FZN_SCRUB_OK /\ is_Some d \/ err = FZN_SCRUB_ERR_BACKEND /\ d = None.
Proof using.
  intros Hl err d. unfold cell_digest, FZN_SCRUB_CELL. destruct (Z.gtb_spec len 64); [lia|].
  destruct (digest_loop _ _ _ _ _); [|intros [= <- <-]; by right].
  destruct (fzn_blob_span_root vt _ len) as [[] [r|]]; intros [= <- <-]; by eauto.
Qed.

(** One list of hashes, one list of slots. *)
Lemma leaf_hashes_name slots got : Forall2 (fun s h => fzn_blob_leaf_hash vt s = (FZN_BLOB_OK, Some h)) slots got ->
  forall slots', Forall2 (fun s h => fzn_blob_leaf_hash vt s = (FZN_BLOB_OK, Some h)) slots' got ->
  slots = slots' \/ collision hash (fun x => exists s, s ∈ slots /\ x = [FZN_BLOB_LEAF_PREFIX] ++ s)
    (fun x => exists s, s ∈ slots' /\ x = [FZN_BLOB_LEAF_PREFIX] ++ s).
Proof using.
  induction 1 as [|s h slots got Hs _ IH]; intros slots' H; [apply Forall2_nil_inv_r in H as ->; by left|].
  apply Forall2_cons_inv_r in H as (s' & slots'' & Hs' & H & ->). destruct (IH slots'' H) as [->|Hcol].
  - destruct (decide (s = s')) as [->|Hne]; [by left|]. right.
    exists ([FZN_BLOB_LEAF_PREFIX] ++ s), ([FZN_BLOB_LEAF_PREFIX] ++ s'), h.
    split_and!; [exists s; split; [constructor|done]|exists s'; split; [constructor|done]|by intros [= ->]|by apply leaf_hash_input..].
  - right. eapply collision_mono; [..|exact Hcol]; intros x (y & Hy & ->); exists y; (split; [by constructor|done]).
Qed.

(** One reference, one list of slots. *)
Lemma digest_names spool s spool' s' f len d slots slots' : 1 <= len ->
  digest spool s vt f len = (FZN_SCRUB_OK, Some d) -> digest spool' s' vt f len = (FZN_SCRUB_OK, Some d) ->
  slots_of spool s f len = Some slots -> slots_of spool' s' f len = Some slots' ->
  slots = slots' \/ collision hash (slot_input slots) (slot_input slots').
Proof using Hlen.
  intros Hl H H' Hs Hs'. destruct (digest_ok _ _ _ _ _ H Hl) as (sl & got & E & Hz & Hzg & Hsp & Hgot & Ha).
  destruct (digest_ok _ _ _ _ _ H' Hl) as (sl' & got' & E' & Hz' & Hzg' & Hsp' & Hgot' & Ha'). simplify_eq.
  assert (forall sl got, Forall2 (fun s h => fzn_blob_leaf_hash vt s = (FZN_BLOB_OK, Some h)) sl got -> hashes got) as Hh.
  { intros l g Hg. eapply Forall2_Forall_r; [exact Hg|]. apply Forall_true. intros h x Hx. by apply leaf_hash_input, Hlen in Hx. }
  destruct (apex_names hash Hlen got d Ha (Hh _ _ Hgot) got' (Hh _ _ Hgot') ltac:(lia) Ha') as [->|Hcol].
  - destruct (leaf_hashes_name _ _ Hgot _ Hgot') as [|Hcol]; [by left|right].
    eapply collision_mono; [..|exact Hcol]; intros x Hx; by left.
  - right. eapply collision_mono; [..|exact Hcol]; intros x Hx; right; [exists got|exists got']; split_and!; done || lia.
Qed.

(** The same slots, the same reference. *)
Lemma digest_same spool s spool' s' f len : slots_of spool s f len = slots_of spool' s' f len ->
  digest spool s vt f len = digest spool' s' vt f len.
Proof using. intros E. unfold cell_digest. rewrite !digest_loop_eq. fold (slots_of spool s f len) (slots_of spool' s' f len). by rewrite E. Qed.

(** What a read of the cell depends on. *)
Lemma slots_of_ext spool spool' s f len : sp_leaves spool' = sp_leaves spool ->
  (forall j, f <= j < f + len -> Bitmap.bit_get (sp_present spool') j = Bitmap.bit_get (sp_present spool) j) ->
  slots_of spool' s f len = slots_of spool s f len.
Proof using.
  intros El Hb. unfold slots_of. apply Forall_mapM_ext, list.Forall_forall. intros j Hj%elem_of_seqZ. unfold slot_at, fzn_spool_read. by rewrite El, Hb.
Qed.

(** ** The checking pass *)

(** Whether a cell is dropped; [None] where it cannot be read. *)
Definition judge (scrub : fzn_scrub) (spool : fzn_spool) (s : S) (k f len : Z) : option bool :=
  if bit_get (sc_sealed scrub) k && cell_is_whole spool f len then
    match digest spool s vt f len with
    | (FZN_SCRUB_OK, Some d) => Some (negb (memeq d (hash_at (sc_roots scrub) k)))
    | _ => None
    end
  else Some false.

Lemma whole_ext spool spool' f len : sp_leaves spool' = sp_leaves spool ->
  (forall j, f <= j < f + len -> Bitmap.bit_get (sp_present spool') j = Bitmap.bit_get (sp_present spool) j) ->
  cell_is_whole spool' f len = cell_is_whole spool f len.
Proof using.
  intros El Hb. unfold cell_is_whole. apply eq_bool_prop_intro. rewrite !Is_true_true, !forallb_forall.
  split; intros H j Hj; specialize (H j Hj); apply list_elem_of_In, elem_of_seqZ in Hj; unfold fzn_spool_has in *;
    [rewrite El, Hb in H by done|rewrite El, Hb by done]; exact H.
Qed.

Lemma judge_ext scrub scrub' spool spool' s k f len : sp_leaves spool' = sp_leaves spool ->
  (forall j, f <= j < f + len -> Bitmap.bit_get (sp_present spool') j = Bitmap.bit_get (sp_present spool) j) ->
  sc_roots scrub' = sc_roots scrub -> bit_get (sc_sealed scrub') k = bit_get (sc_sealed scrub) k ->
  judge scrub' spool' s k f len = judge scrub spool s k f len.
Proof using.
  intros El Hb Er Ek. unfold judge. rewrite Ek, Er, (whole_ext spool spool') by done.
  rewrite (digest_same spool' s spool s) by (by apply slots_of_ext). done.
Qed.

Lemma whole_iff spool f len : cell_is_whole spool f len = true <-> forall j, f <= j < f + len -> fzn_spool_has spool j = true.
Proof using.
  unfold cell_is_whole. rewrite forallb_forall. split; intros H j Hj; apply H; [apply list_elem_of_In, elem_of_seqZ|apply list_elem_of_In, elem_of_seqZ in Hj]; lia.
Qed.

(** What judging a cell does. *)
Definition judged (scrub : fzn_scrub) (k : Z) (bad : bool) : fzn_scrub := if bad then drop_reference scrub k else scrub.
Definition judged_spool (spool : fzn_spool) (f len : Z) (bad : bool) : fzn_spool :=
  if bad then snd (fzn_spool_forget spool f len) else spool.

Lemma step_loop_cell turns scrub spool s checked dropped :
  let first := sc_step_first scrub in
  let cell := sc_step_cell scrub in
  let len := cell_len (sp_leaves spool) first in
  1 <= len <= 64 ->
  exists checked', step_loop ops vt (Datatypes.S turns) scrub spool s checked dropped =
    match judge scrub spool s cell first len with
    | None => (FZN_SCRUB_ERR_BACKEND, 0, 0, scrub, spool)
    | Some bad =>
      let scrub := judged scrub cell bad in
      let spool := judged_spool spool first len bad in
      let cursor := advance scrub spool cell first len in
      let scrub := set_step_cursor scrub cursor in
      if (fst cursor =? 0) && (snd cursor =? 0) then (FZN_SCRUB_DONE, checked', dropped + Z.b2z bad, scrub, spool)
      else step_loop ops vt turns scrub spool s checked' (dropped + Z.b2z bad)
    end.
Proof using.
  intros first cell len Hlen1. cbn [step_loop]. fold first cell. fold len. destruct (Z.eqb_spec len 0); [lia|]. unfold judge.
  destruct (bit_get (sc_sealed scrub) cell && cell_is_whole spool first len); [|exists checked; cbn; by rewrite !Z.add_0_r].
  assert (forall err d, digest spool s vt first len = (err, d) -> err = FZN_SCRUB_OK /\ is_Some d \/ err = FZN_SCRUB_ERR_BACKEND /\ d = None) as Hd
    by (apply digest_errors; lia).
  destruct (digest spool s vt first len) as [err d]. destruct (Hd _ _ eq_refl) as [[-> [d' ->]]|[-> ->]]; [|by exists 0].
  exists (checked + 1). destruct (memeq d' _); cbn; by rewrite ?Z.add_0_r.
Qed.

Lemma advance_next scrub spool cell first len rest : tiles (sp_leaves spool) (first + len) rest -> 0 <= cell -> 0 <= first -> 1 <= len ->
  cell + 1 + zlen rest = sc_cells scrub ->
  advance scrub spool cell first len = match rest with [] => (0, 0) | _ => (cell + 1, first + len) end.
Proof using.
  intros Ht Hc Hf Hl Hz. unfold advance. cbv zeta. destruct rest as [|[f n] rest].
  - change (zlen (A:=Z*Z) []) with 0 in Hz. destruct (Z.geb_spec (cell + 1) (sc_cells scrub)); [done|lia].
  - inversion Ht; subst. unfold zlen in Hz. cbn [length] in Hz. destruct (Z.geb_spec (cell + 1) (sc_cells scrub)); [lia|].
    destruct (Z.geb_spec (first + len) (sp_leaves spool)); [lia|done].
Qed.

Lemma judged_spool_spec spool f len bad : spool_ok spool -> 0 <= f -> 0 <= len -> f + len <= sp_leaves spool ->
  spool_ok (judged_spool spool f len bad) /\ sp_leaves (judged_spool spool f len bad) = sp_leaves spool /\
  forall j, 0 <= j -> Bitmap.bit_get (sp_present (judged_spool spool f len bad)) j
    = Bitmap.bit_get (sp_present spool) j && negb (bad && (f <=? j) && (j <? f + len)).
Proof using.
  intros Hok Hf Hl Hin. destruct bad; cbn [judged_spool andb negb]; [|split_and!; [done..|intros; by rewrite andb_true_r]].
  pose proof (forget_spec spool f len Hok Hf Hl) as H. destruct (fzn_spool_forget spool f len) as [n spool'].
  destruct H as (H1 & _ & H2 & _ & H3). cbn [snd]. split_and!; [done..|]. intros j Hj. rewrite H3 by done.
  destruct (Z.leb_spec (f + len) (sp_leaves spool)); [done|lia].
Qed.

Lemma step_pass_spec s gs : forall turns scrub spool checked dropped,
  let cell := sc_step_cell scrub in
  spool_ok spool -> tiles (sp_leaves spool) (sc_step_first scrub) gs -> gs <> [] -> 0 <= sc_step_first scrub -> 0 <= cell ->
  cell + zlen gs = sc_cells scrub -> (length gs <= turns)%nat -> sc_cells scrub <= 8 * zlen (sc_sealed scrub) ->
  match step_loop ops vt turns scrub spool s checked dropped with
  | (FZN_SCRUB_DONE, _, d, scrub', spool') =>
    spool_ok spool' /\ sp_leaves spool' = sp_leaves spool /\
    (forall j, 0 <= j < sc_step_first scrub -> Bitmap.bit_get (sp_present spool') j = Bitmap.bit_get (sp_present spool) j) /\
    (forall k, 0 <= k < cell -> bit_get (sc_sealed scrub') k = bit_get (sc_sealed scrub) k) /\
    exists bads, d = dropped + count id bads /\ length bads = length gs /\
      forall i f len, gs !! i = Some (f, len) -> exists bad, bads !! i = Some bad /\
        judge scrub spool s (cell + Z.of_nat i) f len = Some bad /\
        (forall j, f <= j < f + len -> Bitmap.bit_get (sp_present spool') j = Bitmap.bit_get (sp_present spool) j && negb bad) /\
        bit_get (sc_sealed scrub') (cell + Z.of_nat i) = bit_get (sc_sealed scrub) (cell + Z.of_nat i) && negb bad
  | (FZN_SCRUB_ERR_BACKEND, _, _, _, _) => exists i f len, gs !! i = Some (f, len) /\ judge scrub spool s (cell + Z.of_nat i) f len = None
  | _ => False
  end.
Proof using.
  induction gs as [|[f len] rest IH]; intros turns scrub spool checked dropped cell Hok Ht Hne Hf Hc Hz Hturns Hroom; [done|].
  pose proof (sp_bounds _ Hok) as Hb. inversion Ht as [|? ? ? Hlt Elen Hrest E1]; subst. clear Hne.
  assert (zlen ((sc_step_first scrub, cell_len (sp_leaves spool) (sc_step_first scrub)) :: rest) = 1 + zlen rest) as Ez by (unfold zlen; cbn [length]; lia).
  rewrite Ez in Hz. pose proof (zlen_nonneg rest).
  destruct (cell_len_spec (sp_leaves spool) (sc_step_first scrub) ltac:(lia) ltac:(lia)) as [Hl1 Hl2].
  set (first := sc_step_first scrub) in *. set (len := cell_len (sp_leaves spool) first) in *.
  destruct turns as [|turns]; [cbn in Hturns; lia|].
  destruct (step_loop_cell turns scrub spool s checked dropped Hl1) as (checked' & ->). fold first len. fold cell.
  destruct (judge scrub spool s cell first len) as [bad|] eqn:Ej.
  2:{ exists 0%nat, first, len. split; [done|]. by rewrite Z.add_0_r. }
  destruct (judged_spool_spec spool first len bad Hok Hf ltac:(lia) Hl2) as (Hok1 & El1 & Hb1). cbv zeta.
  set (scrub1 := judged scrub cell bad). set (spool1 := judged_spool spool first len bad) in *.
  assert (sc_cells scrub1 = sc_cells scrub /\ sc_roots scrub1 = sc_roots scrub /\ zlen (sc_sealed scrub1) = zlen (sc_sealed scrub)) as (Ec1 & Er1 & Ezs1)
    by (unfold scrub1; destruct bad; cbn; rewrite ?zlen_bit_clear; done).
  assert (forall k, 0 <= k -> bit_get (sc_sealed scrub1) k = bit_get (sc_sealed scrub) k && negb (bad && (cell =? k))) as Hs1.
  { intros k Hk. unfold scrub1. destruct bad; cbn [judged andb negb drop_reference sc_sealed]; [|by rewrite andb_true_r].
    rewrite cell_bit_clear by (unfold cell in *; lia). by rewrite andb_comm. }
  rewrite (advance_next scrub1 spool1 cell first len rest) by (rewrite ?El1, ?Ec1; done || lia).
  destruct rest as [|[f' len'] rest].
  - cbn [fst snd Z.eqb andb]. split_and!; [done|done| | |].
    + intros j Hj. rewrite Hb1 by lia. destruct (bad && (first <=? j) && (j <? first + len)) eqn:E; [lia|]. by rewrite andb_true_r.
    + intros k Hk. cbn [set_step_cursor sc_sealed]. rewrite Hs1 by lia. destruct (bad && (cell =? k)) eqn:E; [lia|]. by rewrite andb_true_r.
    + exists [bad]. split_and!; [destruct bad; cbn; lia|done|]. intros [|i] f' n' Hi; [|done]. injection Hi as <- <-. exists bad. rewrite Z.add_0_r.
      split_and!; [done|done| |].
      * intros j Hj. rewrite Hb1 by lia. f_equal. f_equal. destruct bad; [|done]. cbn. lia.
      * cbn [set_step_cursor sc_sealed]. rewrite Hs1, Z.eqb_refl by lia. by rewrite andb_true_r.
  - cbn [fst snd]. destruct (Z.eqb_spec (cell + 1) 0) as [|_]; [lia|]. cbn [andb]. set (scrub2 := set_step_cursor scrub1 _).
    specialize (IH turns scrub2 spool1 checked' (dropped + Z.b2z bad)). cbv zeta in IH.
    change (sc_step_cell scrub2) with (cell + 1) in IH. change (sc_step_first scrub2) with (first + len) in IH.
    change (sc_cells scrub2) with (sc_cells scrub1) in IH. change (sc_sealed scrub2) with (sc_sealed scrub1) in IH.
    rewrite El1, Ec1, Ezs1 in IH. specialize (IH Hok1 Hrest ltac:(done) ltac:(lia) ltac:(lia) ltac:(lia) ltac:(cbn in *; lia) Hroom).
    pose proof (tiles_within _ _ _ Hrest ltac:(lia) ltac:(lia)) as Hin.
    assert (forall i f n, ((f', len') :: rest) !! i = Some (f, n) ->
      judge scrub2 spool1 s (cell + 1 + Z.of_nat i) f n = judge scrub spool s (cell + Z.of_nat (Datatypes.S i)) f n) as Hj.
    { intros i f n Hi. pose proof (Hin i f n Hi). replace (cell + Z.of_nat (Datatypes.S i)) with (cell + 1 + Z.of_nat i) by lia. apply judge_ext; try done.
      - intros j Hj. rewrite Hb1 by lia. destruct (bad && (first <=? j) && (j <? first + len)) eqn:E; [lia|]. by rewrite andb_true_r.
      - change (sc_sealed scrub2) with (sc_sealed scrub1). rewrite Hs1 by lia. destruct (bad && _) eqn:E; [lia|]. by rewrite andb_true_r. }
    destruct (step_loop ops vt turns scrub2 spool1 s _ _) as [[[[err c] d] scrub'] spool']. destruct err; try done.
    + destruct IH as (H1 & H2 & H3 & H4 & bads & -> & Hlb & H5). split_and!; [done|done| | |].
      * intros j Hj'. rewrite H3, Hb1 by lia. destruct (bad && (first <=? j) && (j <? first + len)) eqn:E; [lia|]. by rewrite andb_true_r.
      * intros k Hk. rewrite H4, Hs1 by lia. destruct (bad && (cell =? k)) eqn:E; [lia|]. by rewrite andb_true_r.
      * exists (bad :: bads). split_and!; [destruct bad; cbn; lia|cbn; by rewrite Hlb|]. intros [|i] g n Hi.
        -- injection Hi as <- <-. exists bad. rewrite Z.add_0_r. split_and!; [done|done| |].
           ++ intros j Hj'. rewrite H3, Hb1 by lia. f_equal. f_equal. destruct bad; [|done]. cbn. lia.
           ++ rewrite H4, Hs1, Z.eqb_refl by lia. by rewrite andb_true_r.
        -- destruct (H5 i g n Hi) as (b & Hb' & Hjb & Hbits & Hsl). exists b. rewrite <- (Hj i g n Hi). split_and!; [done|done| |].
           ++ intros j Hj'. pose proof (Hin i g n Hi). rewrite Hbits, Hb1 by lia.
              destruct (bad && (first <=? j) && (j <? first + len)) eqn:E; [lia|]. by rewrite andb_true_r.
           ++ replace (cell + Z.of_nat (Datatypes.S i)) with (cell + 1 + Z.of_nat i) by lia. rewrite Hsl.
              change (sc_sealed scrub2) with (sc_sealed scrub1). rewrite Hs1 by lia. destruct (bad && (cell =? _)) eqn:E; [lia|]. by rewrite andb_true_r.
    + destruct IH as (i & g & n & Hi & Hn). exists (Datatypes.S i), g, n. split; [done|]. by rewrite <- (Hj i g n Hi).
Qed.

(** ** The sealing pass *)

(** The reference a cell is given, if it is; [None] where it cannot be read. *)
Definition refer (scrub : fzn_scrub) (spool : fzn_spool) (s : S) (k f len : Z) : option (option bytes) :=
  if negb (bit_get (sc_sealed scrub) k) && cell_is_whole spool f len then
    match digest spool s vt f len with
    | (FZN_SCRUB_OK, Some d) => Some (Some d)
    | _ => None
    end
  else Some None.

Definition referred (scrub : fzn_scrub) (k : Z) (d : option bytes) : fzn_scrub :=
  match d with Some d => record_reference scrub k d | None => scrub end.

Lemma seal_loop_cell turns scrub spool s sealed_now :
  let first := sc_seal_first scrub in
  let cell := sc_seal_cell scrub in
  let len := cell_len (sp_leaves spool) first in
  1 <= len <= 64 ->
  exists sealed_now', seal_loop ops vt (Datatypes.S turns) scrub spool s sealed_now =
    match refer scrub spool s cell first len with
    | None => (FZN_SCRUB_ERR_BACKEND, 0, scrub)
    | Some d =>
      let scrub := referred scrub cell d in
      let cursor := advance scrub spool cell first len in
      let scrub := set_seal_cursor scrub cursor in
      if (fst cursor =? 0) && (snd cursor =? 0) then (FZN_SCRUB_DONE, sealed_now', scrub)
      else seal_loop ops vt turns scrub spool s sealed_now'
    end.
Proof using.
  intros first cell len Hlen1. cbn [seal_loop]. fold first cell. fold len. destruct (Z.eqb_spec len 0); [lia|]. unfold refer.
  destruct (negb (bit_get (sc_sealed scrub) cell) && cell_is_whole spool first len); [|by exists sealed_now].
  assert (forall err d, digest spool s vt first len = (err, d) -> err = FZN_SCRUB_OK /\ is_Some d \/ err = FZN_SCRUB_ERR_BACKEND /\ d = None) as Hd
    by (apply digest_errors; lia).
  destruct (digest spool s vt first len) as [err d]. destruct (Hd _ _ eq_refl) as [[-> [d' ->]]|[-> ->]]; [|by exists 0].
  by exists (sealed_now + 1).
Qed.

(** What a pass leaves: the cells from [cell] on given their references, the
    others as they were. *)
Lemma seal_pass_spec s spool gs : spool_ok spool -> forall turns scrub sealed_now,
  let cell := sc_seal_cell scrub in
  tiles (sp_leaves spool) (sc_seal_first scrub) gs -> gs <> [] -> 0 <= sc_seal_first scrub -> 0 <= cell ->
  cell + zlen gs = sc_cells scrub -> (length gs <= turns)%nat -> sc_cells scrub <= 8 * zlen (sc_sealed scrub) ->
  sc_cells scrub * 32 <= zlen (sc_roots scrub) ->
  match seal_loop ops vt turns scrub spool s sealed_now with
  | (FZN_SCRUB_DONE, _, scrub') =>
    sc_cells scrub' = sc_cells scrub /\ zlen (sc_sealed scrub') = zlen (sc_sealed scrub) /\
    sc_step_cell scrub' = sc_step_cell scrub /\ sc_step_first scrub' = sc_step_first scrub /\
    (forall k, 0 <= k < cell -> bit_get (sc_sealed scrub') k = bit_get (sc_sealed scrub) k /\
      hash_at (sc_roots scrub') k = hash_at (sc_roots scrub) k) /\
    forall i f len, gs !! i = Some (f, len) -> exists d, refer scrub spool s (cell + Z.of_nat i) f len = Some d /\
      bit_get (sc_sealed scrub') (cell + Z.of_nat i) = bit_get (sc_sealed scrub) (cell + Z.of_nat i) || bool_decide (is_Some d) /\
      hash_at (sc_roots scrub') (cell + Z.of_nat i) = default (hash_at (sc_roots scrub) (cell + Z.of_nat i)) d
  | (FZN_SCRUB_ERR_BACKEND, _, _) => exists i f len, gs !! i = Some (f, len) /\ refer scrub spool s (cell + Z.of_nat i) f len = None
  | _ => False
  end.
Proof using Hlen.
  intros Hok. induction gs as [|[f len] rest IH]; intros turns scrub sealed_now cell Ht Hne Hf Hc Hz Hturns Hroom Hroots; [done|].
  pose proof (sp_bounds _ Hok) as Hb. inversion Ht as [|? ? ? Hlt Elen Hrest E1]; subst. clear Hne.
  assert (zlen ((sc_seal_first scrub, cell_len (sp_leaves spool) (sc_seal_first scrub)) :: rest) = 1 + zlen rest) as Ez by (unfold zlen; cbn [length]; lia).
  rewrite Ez in Hz. pose proof (zlen_nonneg rest).
  destruct (cell_len_spec (sp_leaves spool) (sc_seal_first scrub) ltac:(lia) ltac:(lia)) as [Hl1 Hl2].
  set (first := sc_seal_first scrub) in *. set (len := cell_len (sp_leaves spool) first) in *.
  destruct turns as [|turns]; [cbn in Hturns; lia|].
  destruct (seal_loop_cell turns scrub spool s sealed_now Hl1) as (sealed_now' & ->). fold first len. fold cell.
  destruct (refer scrub spool s cell first len) as [d|] eqn:Ej.
  2:{ exists 0%nat, first, len. split; [done|]. by rewrite Z.add_0_r. }
  cbv zeta. set (scrub1 := referred scrub cell d).
  assert (forall d', d = Some d' -> zlen d' = 32) as Hd.
  { intros d' ->. unfold refer in Ej. destruct (negb _ && _); [|done]. destruct (digest spool s vt first len) as [[] [x|]] eqn:Ed; simplify_eq.
    apply (digest_size spool s first len); [lia|done]. }
  assert (sc_cells scrub1 = sc_cells scrub /\ zlen (sc_roots scrub1) = zlen (sc_roots scrub) /\ zlen (sc_sealed scrub1) = zlen (sc_sealed scrub) /\
    sc_step_cell scrub1 = sc_step_cell scrub /\ sc_step_first scrub1 = sc_step_first scrub) as (Ec1 & Ezr1 & Ezs1 & Esc1 & Esf1).
  { unfold scrub1. destruct d as [d|]; [|done]. specialize (Hd d eq_refl). cbn. split_and!; [done| |by rewrite zlen_set|done|done].
    change FZN_BLOB_HASH_LEN with 32. rewrite zlen_blit; lia. }
  assert (forall k, 0 <= k < sc_cells scrub -> bit_get (sc_sealed scrub1) k = bit_get (sc_sealed scrub) k || (bool_decide (is_Some d) && (cell =? k)) /\
    hash_at (sc_roots scrub1) k = if cell =? k then default (hash_at (sc_roots scrub) k) d else hash_at (sc_roots scrub) k) as Hs1.
  { intros k Hk. unfold scrub1. destruct d as [d|]; cbn [referred default]; [|split; [by rewrite orb_false_r|by destruct (_ =? _)]].
    specialize (Hd d eq_refl). cbn [record_reference sc_sealed sc_roots]. rewrite cell_bit_set by (unfold cell in *; lia).
    rewrite bool_decide_true by eauto. rewrite orb_comm. split; [done|]. unfold hash_at. change FZN_BLOB_HASH_LEN with 32.
    destruct (Z.eqb_spec cell k) as [<-|Hk'].
    - pose proof (slice_blit_same (cell * 32) d (sc_roots scrub) ltac:(lia) ltac:(lia)) as Q. by rewrite Hd in Q.
    - apply slice_blit_disjoint; lia. }
  rewrite (advance_next scrub1 spool cell first len rest) by (rewrite ?Ec1; done || lia).
  destruct rest as [|[f' len'] rest].
  - cbn [fst snd Z.eqb andb]. change (zlen (A:=Z*Z) []) with 0 in *. split_and!; [done..| |].
    + intros k Hk. cbn [set_seal_cursor sc_sealed sc_roots]. destruct (Hs1 k ltac:(lia)) as [-> ->].
      destruct (Z.eqb_spec cell k); [lia|]. by rewrite andb_false_r, orb_false_r.
    + intros [|i] f' m Hi; [|done]. injection Hi as <- <-. exists d. rewrite Z.add_0_r. cbn [set_seal_cursor sc_sealed sc_roots].
      destruct (Hs1 cell ltac:(lia)) as [-> ->]. rewrite Z.eqb_refl, andb_true_r. done.
  - cbn [fst snd]. destruct (Z.eqb_spec (cell + 1) 0) as [|_]; [lia|]. cbn [andb]. set (scrub2 := set_seal_cursor scrub1 _).
    specialize (IH turns scrub2 sealed_now'). cbv zeta in IH.
    change (sc_seal_cell scrub2) with (cell + 1) in IH. change (sc_seal_first scrub2) with (first + len) in IH.
    change (sc_cells scrub2) with (sc_cells scrub1) in IH. change (sc_sealed scrub2) with (sc_sealed scrub1) in IH.
    change (sc_roots scrub2) with (sc_roots scrub1) in IH. change (sc_step_cell scrub2) with (sc_step_cell scrub1) in IH.
    change (sc_step_first scrub2) with (sc_step_first scrub1) in IH.
    rewrite Ec1, Ezs1, Ezr1, Esc1, Esf1 in IH. specialize (IH Hrest ltac:(done) ltac:(lia) ltac:(lia) ltac:(lia) ltac:(cbn in *; lia) Hroom Hroots).
    assert (forall i f n, ((f', len') :: rest) !! i = Some (f, n) -> cell + Z.of_nat (Datatypes.S i) < sc_cells scrub) as Hin.
    { intros i f n Hi. apply lookup_lt_Some in Hi. unfold zlen in Hz. lia. }
    assert (forall i, cell + Z.of_nat (Datatypes.S i) < sc_cells scrub ->
      bit_get (sc_sealed scrub1) (cell + 1 + Z.of_nat i) = bit_get (sc_sealed scrub) (cell + Z.of_nat (Datatypes.S i)) /\
      hash_at (sc_roots scrub1) (cell + 1 + Z.of_nat i) = hash_at (sc_roots scrub) (cell + Z.of_nat (Datatypes.S i))) as Hsame.
    { intros i Hi. replace (cell + Z.of_nat (Datatypes.S i)) with (cell + 1 + Z.of_nat i) in * by lia.
      destruct (Hs1 (cell + 1 + Z.of_nat i) ltac:(lia)) as [-> ->]. destruct (Z.eqb_spec cell (cell + 1 + Z.of_nat i)); [lia|].
      by rewrite andb_false_r, orb_false_r. }
    assert (forall i f n, ((f', len') :: rest) !! i = Some (f, n) ->
      refer scrub2 spool s (cell + 1 + Z.of_nat i) f n = refer scrub spool s (cell + Z.of_nat (Datatypes.S i)) f n) as Hj.
    { intros i f n Hi. unfold refer. change (sc_sealed scrub2) with (sc_sealed scrub1). by rewrite (proj1 (Hsame i (Hin i f n Hi))). }
    destruct (seal_loop ops vt turns scrub2 spool s _) as [[err n] scrub']. destruct err; try done.
    + destruct IH as (H1 & H2 & H3 & H4 & H5 & H6). split_and!; [done..| |].
      * intros k Hk. destruct (H5 k ltac:(lia)) as [-> ->]. destruct (Hs1 k ltac:(lia)) as [-> ->].
        destruct (Z.eqb_spec cell k); [lia|]. by rewrite andb_false_r, orb_false_r.
      * intros [|i] g m Hi.
        -- injection Hi as <- <-. exists d. rewrite Z.add_0_r. destruct (H5 cell ltac:(lia)) as [-> ->].
           destruct (Hs1 cell ltac:(lia)) as [-> ->]. rewrite Z.eqb_refl, andb_true_r. done.
        -- destruct (H6 i g m Hi) as (b & Hb' & Hbit & Hroot). exists b. rewrite <- (Hj i g m Hi). split; [done|].
           destruct (Hsame i (Hin i g m Hi)) as [<- <-]. replace (cell + Z.of_nat (Datatypes.S i)) with (cell + 1 + Z.of_nat i) by lia. done.
    + destruct IH as (i & g & m & Hi & Hn). exists (Datatypes.S i), g, m. split; [done|]. by rewrite <- (Hj i g m Hi).
Qed.
End Finds.

Lemma zeroed_bits map m k : 0 <= k < 8 * m -> m <= zlen map -> bit_get (blit 0 (zeros m) map) k = false.
Proof.
  intros Hk Hm. rewrite bit_get_eq, bit_get_testbit by lia. unfold byte_of. rewrite shiftr_3.
  assert (zlen (zeros m) = m) as Hz by (apply zlen_zeros; lia).
  rewrite lookup_blit by lia. rewrite bool_decide_true by (rewrite Hz; dlia).
  unfold zeros. rewrite lookup_replicate_2 by dlia. apply Z.testbit_0_l.
Qed.

Lemma scrub_open_spec spool roots cells sealed scrub : spool_ok spool -> cells * FZN_BLOB_HASH_LEN <= zlen roots ->
  fzn_scrub_open spool roots cells sealed = (FZN_SCRUB_OK, Some scrub) ->
  exists gs, tiles (sp_leaves spool) 0 gs /\ gs <> [] /\ zlen gs = sc_cells scrub /\ sc_cells scrub <= 8 * zlen (sc_sealed scrub) /\
    sc_cells scrub * 32 <= zlen (sc_roots scrub) /\ sc_seal_cell scrub = 0 /\ sc_seal_first scrub = 0 /\ sc_step_cell scrub = 0 /\
    sc_step_first scrub = 0 /\ forall k, 0 <= k < sc_cells scrub -> bit_get (sc_sealed scrub) k = false.
Proof.
  intros Hok Hroots. pose proof (sp_bounds _ Hok) as Hb. unfold fzn_scrub_open. destruct (Z.eqb_spec (sp_leaves spool) 0); [done|].
  destruct (cells_loop_spec (Z.to_nat (sp_leaves spool)) (sp_leaves spool) 0 0 ltac:(lia) ltac:(lia) ltac:(lia)) as (gs & Hgs & Eg).
  fold (fzn_scrub_cells (sp_leaves spool)) in Eg. set (need := fzn_scrub_cells _) in *. rewrite Z.add_0_l in Eg.
  destruct ((cells <? need) || _) eqn:E; [done|]. intros Es. injection Es as <-. change FZN_BLOB_HASH_LEN with 32 in *.
  assert (FZN_SCRUB_SEALED_LEN need <= zlen sealed) as Hs by lia. pose proof (zlen_nonneg gs).
  assert (need <= 8 * FZN_SCRUB_SEALED_LEN need /\ 0 <= FZN_SCRUB_SEALED_LEN need) as [Hn Hn0] by (unfold FZN_SCRUB_SEALED_LEN; split; dlia).
  exists gs. cbn [sc_cells sc_sealed sc_roots sc_seal_cell sc_seal_first sc_step_cell sc_step_first].
  rewrite !zlen_blit by (rewrite ?zlen_zeros by lia; lia). split_and!; try done; try lia.
  - intros ->. inversion Hgs. lia.
  - intros k Hk. apply zeroed_bits; lia.
Qed.

(** C38: A scrub drops what changed and nothing else. One pass seals the cells
    whole at the time, whatever the spool is by then; a later pass over the
    storage, as it then reads, drops exactly the cells still whole whose slots
    no longer read as they did, each with all its leaves, and counts them;
    every other leaf keeps its bit. What it keeps although its slots read
    differently shows two inputs of one hash. And a pass goes all the way
    round, unless a leaf that the bitmap claims cannot be read. *)
Theorem scrub_finds_what_changed {S} (ops : fzn_spool_ops S) (hash : fzn_hash_ops) spool0 s0 spool1 s1 roots cells sealed scrub :
  (forall x d, hash FZN_BLOB_HASH_LEN x = Some d -> zlen d = FZN_BLOB_HASH_LEN) ->
  spool_ok spool0 -> spool_ok spool1 -> sp_leaves spool1 = sp_leaves spool0 ->
  cells * FZN_BLOB_HASH_LEN <= zlen roots -> fzn_scrub_open spool0 roots cells sealed = (FZN_SCRUB_OK, Some scrub) ->
  let unreadable spool s f len := cell_is_whole spool f len = true /\
    forall d, cell_digest ops spool s (Some (Some hash)) f len <> (FZN_SCRUB_OK, Some d) in
  exists gs, tiles (sp_leaves spool0) 0 gs /\ zlen gs = sc_cells scrub /\
  match fzn_scrub_seal ops (Some (Some hash)) scrub spool0 s0 (sc_cells scrub) with
  | (FZN_SCRUB_DONE, _, scrub1) =>
    match fzn_scrub_step ops (Some (Some hash)) scrub1 spool1 s1 (sc_cells scrub) with
    | (FZN_SCRUB_DONE, _, dropped, _, spool2) =>
      spool_ok spool2 /\ exists bads, dropped = count id bads /\ length bads = length gs /\
      forall i f len, gs !! i = Some (f, len) -> exists bad, bads !! i = Some bad /\
        (forall j, f <= j < f + len -> Bitmap.bit_get (sp_present spool2) j = Bitmap.bit_get (sp_present spool1) j && negb bad) /\
        if cell_is_whole spool0 f len && cell_is_whole spool1 f len then
          exists slots0 slots1, slots_of ops spool0 s0 f len = Some slots0 /\ slots_of ops spool1 s1 f len = Some slots1 /\
            if (bad : bool) then slots0 <> slots1 else slots0 = slots1 \/ collision hash (slot_input hash slots0) (slot_input hash slots1)
        else bad = false
    | (FZN_SCRUB_ERR_BACKEND, _, _, _, _) => exists f len, (f, len) ∈ gs /\ unreadable spool1 s1 f len
    | _ => False
    end
  | (FZN_SCRUB_ERR_BACKEND, _, _) => exists f len, (f, len) ∈ gs /\ unreadable spool0 s0 f len
  | _ => False
  end.
Proof.
  intros Hlen Hok0 Hok1 El Hroots Hopen unreadable. pose proof (sp_bounds _ Hok0) as Hb.
  destruct (scrub_open_spec _ _ _ _ _ Hok0 Hroots Hopen) as (gs & Hgs & Hne & Hz & Hbits & Hrs & E1 & E2 & E3 & E4 & Hclear).
  exists gs. split; [done|]. split; [done|]. pose proof (tiles_within _ _ _ Hgs ltac:(lia) ltac:(lia)) as Hin.
  assert (0 < sc_cells scrub) as Hpos by (rewrite <- Hz; destruct gs; [done|unfold zlen; cbn [length]; lia]).
  assert (length gs <= Z.to_nat (sc_cells scrub))%nat as Hturns by (unfold zlen in Hz; lia).
  assert (forall i f len, gs !! i = Some (f, len) -> 0 <= Z.of_nat i < sc_cells scrub) as Hidx.
  { intros i f len Hi. apply lookup_lt_Some in Hi. unfold zlen in Hz. lia. }
  unfold fzn_scrub_seal, fzn_scrub_step. destruct (Z.eqb_spec (sc_cells scrub) 0); [lia|].
  pose proof (seal_pass_spec ops hash Hlen s0 spool0 gs Hok0 (Z.to_nat (sc_cells scrub)) scrub 0) as Hseal. cbv zeta in Hseal.
  rewrite E1, E2 in Hseal. specialize (Hseal Hgs Hne ltac:(lia) ltac:(lia) ltac:(lia) Hturns Hbits Hrs).
  destruct (seal_loop _ _ _ scrub spool0 s0 0) as [[[] n'] scrub1]; try done.
  2:{ destruct Hseal as (i & f & len & Hi & Href). exists f, len. split; [by apply list_elem_of_lookup_2 in Hi|].
    unfold refer in Href. rewrite Hclear in Href by (rewrite Z.add_0_l; by eapply Hidx). cbn [negb andb] in Href.
    unfold unreadable. destruct (cell_is_whole spool0 f len); [|done]. split; [done|]. intros d Hd. by rewrite Hd in Href. }
  destruct Hseal as (Hc1 & Hzs1 & Hsc1 & Hsf1 & _ & Hseal).
  pose proof (step_pass_spec ops hash s1 gs (Z.to_nat (sc_cells scrub)) scrub1 spool1 0 0) as Hstep. cbv zeta in Hstep.
  rewrite El, Hsc1, Hsf1, E3, E4, Hc1, Hzs1 in Hstep. specialize (Hstep Hok1 Hgs Hne ltac:(lia) ltac:(lia) ltac:(lia) Hturns Hbits).
  assert (forall i f len, gs !! i = Some (f, len) ->
    bit_get (sc_sealed scrub1) (0 + Z.of_nat i) = cell_is_whole spool0 f len /\
    (cell_is_whole spool0 f len = true -> cell_digest ops spool0 s0 (Some (Some hash)) f len = (FZN_SCRUB_OK, Some (hash_at (sc_roots scrub1) (0 + Z.of_nat i))))) as Href.
  { intros i f len Hi. destruct (Hseal i f len Hi) as (d & Hd & -> & ->). rewrite Z.add_0_l in *. unfold refer in Hd.
    rewrite Hclear in * by (by eapply Hidx). cbn [negb andb orb] in *. destruct (cell_is_whole spool0 f len).
    - destruct (cell_digest _ _ _ _ _ _) as [[] [x|]]; simplify_eq. by split.
    - injection Hd as <-. by split. }
  destruct (step_loop _ _ _ scrub1 spool1 s1 0 0) as [[[[[] ch] d] scrub2] spool2]; try done.
  - destruct Hstep as (Hok2 & _ & _ & _ & bads & -> & Hlb & Hstep). split; [done|]. exists bads. split_and!; [done..|]. intros i f len Hi.
    destruct (Hstep i f len Hi) as (bad & Hbad & Hjudge & Hkept & _). exists bad. split_and!; [done..|].
    destruct (Href i f len Hi) as [Es Hd0]. unfold judge in Hjudge. rewrite Es in Hjudge.
    destruct (cell_is_whole spool0 f len); cbn [andb] in *; [|by injection Hjudge as <-].
    destruct (cell_is_whole spool1 f len); [|by injection Hjudge as <-]. specialize (Hd0 eq_refl). destruct (Hin i f len Hi) as (_ & Hl & _).
    destruct (cell_digest ops spool1 s1 _ f len) as [[] [d1|]] eqn:Ed1; try done. injection Hjudge as <-.
    destruct (digest_ok ops hash Hlen _ _ _ _ _ Hd0 ltac:(lia)) as (sl0 & _ & Hsl0 & _).
    destruct (digest_ok ops hash Hlen _ _ _ _ _ Ed1 ltac:(lia)) as (sl1 & _ & Hsl1 & _).
    exists sl0, sl1. split_and!; [done..|]. destruct (memeq d1 _) eqn:Em; cbn [negb].
    + apply memeq_true in Em as ->.
      apply (digest_names ops hash Hlen spool0 s0 spool1 s1 f len (hash_at (sc_roots scrub1) (0 + Z.of_nat i))); [lia|done..].
    + intros ->. rewrite <- Hsl0 in Hsl1. rewrite (digest_same ops hash spool1 s1 spool0 s0 f len Hsl1), Hd0 in Ed1.
      injection Ed1 as <-. by rewrite memeq_refl in Em.
  - destruct Hstep as (i & f & len & Hi & Hjudge). exists f, len. split; [by apply list_elem_of_lookup_2 in Hi|].
    unfold judge in Hjudge. destruct (bit_get _ _ && cell_is_whole spool1 f len) eqn:Ew; [|done]. apply andb_true_iff in Ew as [_ Ew].
    split; [done|]. intros d1 Hd. by rewrite Hd in Hjudge.
Qed.

(** A blob of three leaves, the last byte of one changed at rest. *)
Definition demo_held : fzn_spool := mk_spool [] 3 3 [7].
Definition demo_disk (last : Z) : bytes := zeros (3 * FZN_BLOB_SEALED_MAX - 1) ++ [last].
Definition demo_scrub : fzn_scrub := mk_scrub (zeros 64) [0] 1 0 0 0 0.

Lemma scrub_finds_what_changed_witness :
  fzn_scrub_open demo_held (zeros 64) 2 [7] = (FZN_SCRUB_OK, Some demo_scrub) /\
  exists gs, tiles 3 0 gs /\ zlen gs = 1 /\
  match fzn_scrub_seal mem_ops (Some (Some sum_hash)) demo_scrub demo_held (demo_disk 1) 1 with
  | (FZN_SCRUB_DONE, _, scrub1) =>
    match fzn_scrub_step mem_ops (Some (Some sum_hash)) scrub1 demo_held (demo_disk 2) 1 with
    | (FZN_SCRUB_DONE, _, dropped, _, spool2) => dropped = 1 /\ sp_have spool2 = 0 /\ spool_ok spool2
    | _ => False
    end
  | _ => False
  end.
Proof.
  split; [reflexivity|].
  assert (spool_ok demo_held) as Hok by (split; [done|vm_compute; discriminate|reflexivity]).
  assert (forall x d, sum_hash FZN_BLOB_HASH_LEN x = Some d -> zlen d = FZN_BLOB_HASH_LEN) as Hlen by (intros x d [= <-]; reflexivity).
  destruct (scrub_finds_what_changed mem_ops sum_hash demo_held (demo_disk 1) demo_held (demo_disk 2) (zeros 64) 2 [7] demo_scrub Hlen Hok Hok
    eq_refl ltac:(vm_compute; discriminate) eq_refl) as (gs & Hgs & Hz & H).
  exists gs. split; [exact Hgs|]. split; [exact Hz|]. change (sc_cells demo_scrub) with 1 in H.
  set (scrub1 := snd (fzn_scrub_seal mem_ops (Some (Some sum_hash)) demo_scrub demo_held (demo_disk 1) 1)).
  assert (fzn_scrub_seal mem_ops (Some (Some sum_hash)) demo_scrub demo_held (demo_disk 1) 1 = (FZN_SCRUB_DONE, 1, scrub1)) as E1
    by (vm_compute; reflexivity).
  assert ((let '(err, _, dropped, _, spool2) := fzn_scrub_step mem_ops (Some (Some sum_hash)) scrub1 demo_held (demo_disk 2) 1 in
    (err, dropped, sp_have spool2)) = (FZN_SCRUB_DONE, 1, 0)) as E2 by (vm_compute; reflexivity).
  clearbody scrub1. rewrite E1 in *.
  destruct (fzn_scrub_step mem_ops (Some (Some sum_hash)) scrub1 demo_held (demo_disk 2) 1) as [[[[err ch] dropped] scrub2] spool2].
  injection E2 as -> -> E2. destruct H as [Hok2 _]. split; [reflexivity|]. split; [exact E2|exact Hok2].
Defined.

(** C40: A leaf that cannot be read stops the pass for good: while a sealed cell
    whose leaves the bitmap claims cannot be read, every call from its cursor
    answers BACKEND, checks nothing, and leaves the cursor where it is, so no
    cell behind it is ever looked at. *)
Theorem unreadable_leaf_stops_the_pass {S} (ops : fzn_spool_ops S) (hash : fzn_hash_ops) scrub spool s limits :
  let cell := sc_step_cell scrub in
  let first := sc_step_first scrub in
  let len := cell_len (sp_leaves spool) first in
  0 <= first < sp_leaves spool -> sp_leaves spool <= FZN_SPOOL_MAX_LEAVES -> Forall (fun l => 1 <= l) limits ->
  bit_get (sc_sealed scrub) cell = true -> cell_is_whole spool first len = true ->
  (exists i, first <= i < first + len /\ read_at ops s (offset_of i) FZN_BLOB_SEALED_MAX = None) ->
  foldl (fun '(answers, scrub, spool) limit =>
      let '(err, checked, dropped, scrub, spool) := fzn_scrub_step ops (Some (Some hash)) scrub spool s limit in
      (answers ++ [(err, checked, dropped)], scrub, spool)) ([], scrub, spool) limits
  = (replicate (length limits) (FZN_SCRUB_ERR_BACKEND, 0, 0), scrub, spool).
Proof.
  intros cell first len Hf Hl Hlim Hs Hw (i & Hi & Hr).
  destruct (cell_len_spec (sp_leaves spool) first Hf Hl) as [Hl1 _]. fold len in Hl1.
  assert (forall limit, 1 <= limit -> fzn_scrub_step ops (Some (Some hash)) scrub spool s limit = (FZN_SCRUB_ERR_BACKEND, 0, 0, scrub, spool)) as Hone.
  { intros limit Hlimit. unfold fzn_scrub_step. destruct (Z.eqb_spec limit 0); [lia|].
    destruct (Z.to_nat limit) as [|turns] eqn:Et; [lia|]. destruct (step_loop_cell ops hash turns scrub spool s 0 0 Hl1) as (ch & ->).
    fold first. fold cell. fold len. unfold judge. rewrite Hs, Hw. cbn [andb].
    destruct (cell_digest ops spool s _ first len) as [err [d|]] eqn:Ed; [|by destruct err]. exfalso.
    destruct (digest_errors ops hash spool s first len ltac:(lia) _ _ Ed) as [[-> _]|[-> ?]]; [|done].
    unfold cell_digest in Ed. destruct (_ >? _); [done|]. rewrite digest_loop_eq in Ed.
    assert (mapM (slot_at ops spool s) (seqZ first len) = None) as E; [|by rewrite E in Ed].
    apply mapM_None_2, Exists_exists. exists i. split; [by apply list_elem_of_In, elem_of_seqZ|].
    unfold slot_at, fzn_spool_read. destruct (_ >=? _); [done|]. destruct (negb _); [done|]. by rewrite Z.min_id, Hr. }
  assert (forall answers, foldl (fun '(answers, scrub, spool) limit =>
      let '(err, checked, dropped, scrub, spool) := fzn_scrub_step ops (Some (Some hash)) scrub spool s limit in
      (answers ++ [(err, checked, dropped)], scrub, spool)) (answers, scrub, spool) limits
    = (answers ++ replicate (length limits) (FZN_SCRUB_ERR_BACKEND, 0, 0), scrub, spool)) as H; [|apply (H [])].
  induction Hlim as [|l limits Hl' _ IH]; intros answers; cbn [foldl]; [by rewrite app_nil_r|].
  rewrite Hone by done. rewrite IH, <- app_assoc. done.
Qed.

Definition demo_sealed_scrub : fzn_scrub := mk_scrub (zeros 64) [3] 1 0 0 0 0.

Lemma unreadable_leaf_stops_the_pass_witness :
  foldl (fun '(answers, scrub, spool) limit =>
      let '(err, checked, dropped, scrub, spool) := fzn_scrub_step mem_ops (Some (Some sum_hash)) scrub spool [] limit in
      (answers ++ [(err, checked, dropped)], scrub, spool)) ([], demo_sealed_scrub, demo_held) [1; 5]
  = ([(FZN_SCRUB_ERR_BACKEND, 0, 0); (FZN_SCRUB_ERR_BACKEND, 0, 0)], demo_sealed_scrub, demo_held).
Proof.
  apply (unreadable_leaf_stops_the_pass mem_ops sum_hash demo_sealed_scrub demo_held [] [1; 5]); try reflexivity.
  - cbn. lia.
  - vm_compute. discriminate.
  - repeat constructor; lia.
  - exists 0. split; [vm_compute; split; [discriminate|reflexivity]|reflexivity].
Defined.
