(* ===== verification/Transfer.v ===== *)
(** * spool/transfer.c: which peer is asked for what

    An array of assignments over one spool, and a window that opens by one a
    windowful of successes and halves on a loss. The spool is the caller's
    and changes between calls, so each call takes it as it then is; pointers
    are given. *)

From S2P Require Import Prelude Bitmap Blob BlobTree BlobSpan BlobProof Spool SpoolPlan.

Inductive fzn_transfer_err :=
| FZN_TRANSFER_OK
| FZN_TRANSFER_ERR_MALFORMED
| FZN_TRANSFER_NONE
| FZN_TRANSFER_FULL
| FZN_TRANSFER_ERR_UNKNOWN.

Definition FZN_TRANSFER_MAX_ASSIGNS : Z := 64.
Definition CANDIDATES : Z := FZN_TRANSFER_MAX_ASSIGNS + 1.

Record fzn_transfer_assign := mk_assign { as_first : Z; as_count : Z; as_deadline : Z; as_peer : Z; as_live : bool }.

(** [cap] is the length of [tr_assigns]. *)
Record fzn_transfer := mk_transfer { tr_assigns : list fzn_transfer_assign; tr_in_flight : Z; tr_window : Z; tr_successes : Z }.

Definition overlaps (a_first a_count b_first b_count : Z) : bool :=
  (a_first <? u64 (b_first + b_count)) && (b_first <? u64 (a_first + a_count)).

Definition is_pending (transfer : fzn_transfer) (first count : Z) : bool :=
  existsb (fun slot => as_live slot && overlaps first count (as_first slot) (as_count slot)) (tr_assigns transfer).

Definition find_slot (transfer : fzn_transfer) (peer first count : Z) : option nat :=
  find_index (fun slot => as_live slot && (as_peer slot =? peer) && (as_first slot =? first) && (as_count slot =? count))
    (tr_assigns transfer).

Definition on_success (transfer : fzn_transfer) : fzn_transfer :=
  let successes := u32 (tr_successes transfer + 1) in
  if successes <? tr_window transfer then mk_transfer (tr_assigns transfer) (tr_in_flight transfer) (tr_window transfer) successes
  else
    mk_transfer (tr_assigns transfer) (tr_in_flight transfer)
      (if tr_window transfer <? zlen (tr_assigns transfer) then u32 (tr_window transfer + 1) else tr_window transfer) 0.

Definition on_loss (transfer : fzn_transfer) : fzn_transfer :=
  let window := tr_window transfer / 2 in
  mk_transfer (tr_assigns transfer) (tr_in_flight transfer) (if window =? 0 then 1 else window) 0.

Definition fzn_transfer_open (spool : fzn_spool) (cap : Z) : fzn_transfer_err * option fzn_transfer :=
  if (cap =? 0) || (cap >? FZN_TRANSFER_MAX_ASSIGNS) then (FZN_TRANSFER_ERR_MALFORMED, None)
  else if sp_leaves spool =? 0 then (FZN_TRANSFER_ERR_MALFORMED, None)
  else (FZN_TRANSFER_OK, Some (mk_transfer (replicate (Z.to_nat cap) (mk_assign 0 0 0 0 false)) 0 1 0)).

Definition fzn_transfer_next_want (transfer : fzn_transfer) (spool : fzn_spool) (peer from max_per_range deadline : Z)
    : fzn_transfer_err * option fzn_spool_range * fzn_transfer :=
  if max_per_range =? 0 then (FZN_TRANSFER_ERR_MALFORMED, None, transfer)
  else if tr_in_flight transfer >=? tr_window transfer then (FZN_TRANSFER_FULL, None, transfer)
  else match fzn_spool_plan_want spool from max_per_range CANDIDATES with
  | (FZN_SPOOL_OK, Some candidates) =>
    if zlen candidates =? 0 then (FZN_TRANSFER_NONE, None, transfer)
    else match List.find (fun r => negb (is_pending transfer (rg_first r) (rg_count r))) candidates with
    | None => (FZN_TRANSFER_NONE, None, transfer)
    | Some r =>
      match find_index (fun slot => negb (as_live slot)) (tr_assigns transfer) with
      | None => (FZN_TRANSFER_FULL, None, transfer)
      | Some free_slot =>
        (FZN_TRANSFER_OK, Some r,
         mk_transfer (<[free_slot := mk_assign (rg_first r) (rg_count r) deadline peer true]> (tr_assigns transfer))
           (u64 (tr_in_flight transfer + 1)) (tr_window transfer) (tr_successes transfer))
      end
    end
  | _ => (FZN_TRANSFER_ERR_MALFORMED, None, transfer)
  end.

(** [slot->live = 0u;] *)
Definition retire (slot : fzn_transfer_assign) : fzn_transfer_assign :=
  mk_assign (as_first slot) (as_count slot) (as_deadline slot) (as_peer slot) false.

Definition release (transfer : fzn_transfer) (slot : nat) : fzn_transfer :=
  mk_transfer (alter retire slot (tr_assigns transfer)) (u64 (tr_in_flight transfer - 1)) (tr_window transfer) (tr_successes transfer).

Definition fzn_transfer_delivered (transfer : fzn_transfer) (spool : fzn_spool) (peer first count : Z)
    : fzn_transfer_err * fzn_transfer :=
  match find_slot transfer peer first count with
  | None => (FZN_TRANSFER_ERR_UNKNOWN, transfer)
  | Some slot =>
    if forallb (fzn_spool_has spool) (seqZ first count) then (FZN_TRANSFER_OK, on_success (release transfer slot))
    else (FZN_TRANSFER_ERR_UNKNOWN, transfer)
  end.

Definition fzn_transfer_failed (transfer : fzn_transfer) (peer first count : Z) : fzn_transfer_err * fzn_transfer :=
  match find_slot transfer peer first count with
  | None => (FZN_TRANSFER_ERR_UNKNOWN, transfer)
  | Some slot => (FZN_TRANSFER_OK, on_loss (release transfer slot))
  end.

(** How many were dropped. *)
Definition fzn_transfer_expire (transfer : fzn_transfer) (now : Z) : Z * fzn_transfer :=
  let late slot := negb (negb (as_live slot) || (as_deadline slot >? now)) in
  let dropped := count late (tr_assigns transfer) in
  let transfer := mk_transfer ((fun slot => if late slot then retire slot else slot) <$> tr_assigns transfer)
    (u64 (tr_in_flight transfer - dropped)) (tr_window transfer) (tr_successes transfer) in
  (dropped, if dropped >? 0 then on_loss transfer else transfer).

(** ** What stays true *)

Definition apart (a_first a_count b_first b_count : Z) : Prop := a_first + a_count <= b_first \/ b_first + b_count <= a_first.

Record transfer_ok (leaves : Z) (t : fzn_transfer) : Prop := {
  to_cap : 1 <= zlen (tr_assigns t) <= FZN_TRANSFER_MAX_ASSIGNS;
  to_flight : tr_in_flight t = count as_live (tr_assigns t);
  to_window : 1 <= tr_window t <= zlen (tr_assigns t);
  to_successes : 0 <= tr_successes t < tr_window t;
  to_inside : forall i a, tr_assigns t !! i = Some a -> as_live a = true ->
    0 <= as_first a /\ 1 <= as_count a /\ as_first a + as_count a <= leaves;
  to_apart : forall i j a b, i <> j -> tr_assigns t !! i = Some a -> tr_assigns t !! j = Some b ->
    as_live a = true -> as_live b = true -> apart (as_first a) (as_count a) (as_first b) (as_count b)
}.

Lemma overlaps_iff a n b m : 0 <= a -> 0 <= n -> a + n <= FZN_SPOOL_MAX_LEAVES -> 0 <= b -> 0 <= m -> b + m <= FZN_SPOOL_MAX_LEAVES ->
  overlaps a n b m = false <-> apart a n b m.
Proof.
  intros. change FZN_SPOOL_MAX_LEAVES with 4194304 in *. unfold overlaps, apart. rewrite !u64_small by (width; lia). lia.
Qed.

Section Steps.
Context (leaves : Z).

(** Only the windows differ. *)
Lemma window_ok t window successes : transfer_ok leaves t -> 1 <= window <= zlen (tr_assigns t) -> 0 <= successes < window ->
  transfer_ok leaves (mk_transfer (tr_assigns t) (tr_in_flight t) window successes).
Proof. intros [] ? ?. by split. Qed.

Lemma on_success_ok t : transfer_ok leaves t -> transfer_ok leaves (on_success t).
Proof.
  intros Ht. pose proof (to_cap _ _ Ht). pose proof (to_window _ _ Ht). pose proof (to_successes _ _ Ht).
  unfold FZN_TRANSFER_MAX_ASSIGNS in *. unfold on_success. rewrite !u32_small by (width; lia).
  destruct (Z.ltb_spec (tr_successes t + 1) (tr_window t)); apply window_ok; auto; try lia;
    destruct (Z.ltb_spec (tr_window t) (zlen (tr_assigns t))); lia.
Qed.

Lemma on_loss_ok t : transfer_ok leaves t -> transfer_ok leaves (on_loss t).
Proof.
  intros Ht. pose proof (to_window _ _ Ht). unfold on_loss.
  assert (0 <= tr_window t / 2 <= tr_window t) by dlia.
  destruct (Z.eqb_spec (tr_window t / 2) 0); apply window_ok; auto; lia.
Qed.

(** Assignments retired, as many as the count says. *)
Lemma retire_ok t (late : fzn_transfer_assign -> bool) assigns n : transfer_ok leaves t ->
  length assigns = length (tr_assigns t) ->
  (forall i a, assigns !! i = Some a -> as_live a = true -> tr_assigns t !! i = Some a) ->
  count as_live assigns = count as_live (tr_assigns t) - n -> 0 <= n <= count as_live (tr_assigns t) ->
  transfer_ok leaves (mk_transfer assigns (u64 (tr_in_flight t - n)) (tr_window t) (tr_successes t)).
Proof.
  intros [Hc Hf Hw Hs Hi Ha] Hl Hsub Hn Hn'. pose proof (count_le_zlen as_live (tr_assigns t)).
  assert (zlen assigns = zlen (tr_assigns t)) as Hz by (unfold zlen; lia). unfold FZN_TRANSFER_MAX_ASSIGNS in *.
  split; cbn [tr_assigns tr_in_flight tr_window tr_successes]; rewrite ?Hz; unfold FZN_TRANSFER_MAX_ASSIGNS; auto; try lia.
  - rewrite u64_small by (width; lia). lia.
  - intros i a H1 H2. eapply Hi; eauto.
  - intros i j a b Hne H1 H2 H3 H4. eapply Ha; eauto.
Qed.

Lemma release_ok t slot a : transfer_ok leaves t -> tr_assigns t !! slot = Some a -> as_live a = true ->
  transfer_ok leaves (release t slot).
Proof.
  intros Ht Ha Hl. apply (retire_ok t as_live); auto.
  - by rewrite length_alter.
  - intros i b Hb Hlb. destruct (decide (i = slot)) as [->|].
    + rewrite list_lookup_alter_eq, Ha in Hb. cbn in Hb. by simplify_eq.
    + by rewrite list_lookup_alter_ne in Hb.
  - replace (alter retire slot (tr_assigns t)) with (<[slot := retire a]> (tr_assigns t)).
    + rewrite (count_insert _ _ _ _ _ Ha), Hl. cbn. lia.
    + apply list_eq. intros i. destruct (decide (i = slot)) as [->|].
      * rewrite list_lookup_alter_eq, list_lookup_insert_eq, Ha by (by eapply lookup_lt_Some). done.
      * by rewrite list_lookup_alter_ne, list_lookup_insert_ne.
  - pose proof (count_insert as_live _ _ _ (retire a) Ha) as Hc. rewrite Hl in Hc. cbn in Hc.
    pose proof (count_nonneg as_live (<[slot := retire a]> (tr_assigns t))). lia.
Qed.

Lemma find_slot_Some t peer first n slot : find_slot t peer first n = Some slot ->
  exists a, tr_assigns t !! slot = Some a /\ as_live a = true /\ as_first a = first /\ as_count a = n /\ as_peer a = peer.
Proof.
  intros H. apply find_index_Some in H as (a & Ha & Hb & _). exists a. split; [done|].
  destruct (as_live a); [|done]. cbn in Hb. lia.
Qed.

Lemma expire_ok t now : transfer_ok leaves t -> transfer_ok leaves (snd (fzn_transfer_expire t now)).
Proof.
  intros Ht. unfold fzn_transfer_expire. cbn [snd].
  set (late := fun slot => negb (negb (as_live slot) || (as_deadline slot >? now))).
  assert (transfer_ok leaves (mk_transfer ((fun slot => if late slot then retire slot else slot) <$> tr_assigns t)
    (u64 (tr_in_flight t - count late (tr_assigns t))) (tr_window t) (tr_successes t))) as H.
  { apply (retire_ok t late); auto.
    - by rewrite length_fmap.
    - intros i a Ha Hl. rewrite list_lookup_fmap in Ha. destruct (tr_assigns t !! i) as [b|]; [|done]. cbn in Ha.
      destruct (late b); simplify_eq; done.
    - induction (tr_assigns t) as [|a l IH]; cbn [fmap list_fmap count]; [lia|]. change ((fun slot => _) <$> l) with
        ((fun slot => if late slot then retire slot else slot) <$> l) in *. rewrite IH. unfold late at 1 3. destruct (as_live a) eqn:E; cbn; [destruct (_ >? now); cbn; rewrite ?E; lia|]. rewrite E. lia.
    - split; [apply count_nonneg|]. apply count_mono. intros i a _ Hl. unfold late in Hl. by destruct (as_live a). }
  destruct (_ >? 0); [by apply on_loss_ok|done].
Qed.
End Steps.

(** Nothing in flight, nothing pending. *)
Lemma none_pending leaves t first n : transfer_ok leaves t -> tr_in_flight t = 0 -> is_pending t first n = false.
Proof.
  intros Ht H0. apply not_true_iff_false. unfold is_pending. rewrite existsb_lookup. intros (i & a & Ha & Hb).
  rewrite (to_flight _ _ Ht) in H0. apply andb_true_iff in Hb as [Hb _].
  pose proof (count_insert as_live _ _ _ (retire a) Ha) as Hc. rewrite Hb in Hc. cbn in Hc.
  pose proof (count_nonneg as_live (<[i := retire a]> (tr_assigns t))). lia.
Qed.

Lemma not_pending_apart leaves t first n : transfer_ok leaves t -> leaves <= FZN_SPOOL_MAX_LEAVES -> is_pending t first n = false ->
  0 <= first -> 1 <= n -> first + n <= leaves ->
  forall a, a ∈ tr_assigns t -> as_live a = true -> apart first n (as_first a) (as_count a).
Proof.
  intros Ht Hl Hp Hf Hn Hin a Ha Hlive. apply list_elem_of_lookup in Ha as (i & Ha).
  destruct (to_inside _ _ Ht i a Ha Hlive) as (H1 & H2 & H3). apply overlaps_iff; [lia..|].
  apply not_true_iff_false. intros Ho. apply not_true_iff_false in Hp. apply Hp. unfold is_pending. apply existsb_lookup.
  exists i, a. by rewrite Hlive, Ho.
Qed.

(** A free slot filled. *)
Lemma assign_ok leaves t slot a b : transfer_ok leaves t -> leaves <= FZN_SPOOL_MAX_LEAVES ->
  tr_assigns t !! slot = Some b -> as_live b = false -> as_live a = true ->
  0 <= as_first a -> 1 <= as_count a -> as_first a + as_count a <= leaves -> is_pending t (as_first a) (as_count a) = false ->
  transfer_ok leaves (mk_transfer (<[slot := a]> (tr_assigns t)) (u64 (tr_in_flight t + 1)) (tr_window t) (tr_successes t)).
Proof.
  intros Ht Hl Hb Hdead Hlive Hf Hn Hin Hp.
  pose proof (not_pending_apart leaves t _ _ Ht Hl Hp Hf Hn Hin) as Hap. destruct Ht as [Hc Hfl Hw Hs Hi Ha].
  pose proof (count_le_zlen as_live (tr_assigns t)). pose proof (count_nonneg as_live (tr_assigns t)). unfold FZN_TRANSFER_MAX_ASSIGNS in *.
  assert (zlen (<[slot := a]> (tr_assigns t)) = zlen (tr_assigns t)) as Hz by (unfold zlen; by rewrite length_insert).
  split; cbn [tr_assigns tr_in_flight tr_window tr_successes]; rewrite ?Hz; unfold FZN_TRANSFER_MAX_ASSIGNS; try lia.
  - rewrite u64_small by (width; lia). rewrite (count_insert _ _ _ _ _ Hb), Hdead, Hlive. lia.
  - intros i c Hi' Hc'. apply list_lookup_insert_Some in Hi' as [(-> & -> & _)|[_ Hi']]; [by split_and!|by eapply Hi].
  - intros i j c d Hne H1 H2 H3 H4.
    apply list_lookup_insert_Some in H1 as [(<- & <- & _)|[Hni H1]]; apply list_lookup_insert_Some in H2 as [(-> & <- & _)|[Hnj H2]]; [done|..].
    + apply Hap; [by apply list_elem_of_lookup_2 in H2|done].
    + destruct (Hap c ltac:(by apply list_elem_of_lookup_2 in H1) H3); [by right|by left].
    + by apply (Ha i j).
Qed.

(** What a want hands out. *)
Definition free_range (spool : fzn_spool) (t : fzn_transfer) (max_per_range : Z) (r : fzn_spool_range) : Prop :=
  range_ok (sp_leaves spool) max_per_range r /\
  (forall i, i ∈ leaves_of r -> bit_get (sp_present spool) i = false) /\
  (forall a, a ∈ tr_assigns t -> as_live a = true -> apart (rg_first r) (rg_count r) (as_first a) (as_count a)).

Lemma find_negb {A} (f : A -> bool) l :
  match List.find (fun x => negb (f x)) l with
  | Some x => x ∈ l /\ f x = false
  | None => forall x, x ∈ l -> f x = true
  end.
Proof.
  induction l as [|x l IH]; cbn; [intros x Hx; by apply not_elem_of_nil in Hx|]. destruct (f x) eqn:E; cbn.
  - destruct (List.find _ l).
    + destruct IH. split; [by constructor|done].
    + intros y Hy. apply elem_of_cons in Hy as [->|]; auto.
  - split; [constructor|done].
Qed.

Lemma next_range_spec t spool peer from max deadline : spool_ok spool -> transfer_ok (sp_leaves spool) t -> 0 <= from -> 0 <= max ->
  match fzn_transfer_next_want t spool peer from max deadline with
  | (FZN_TRANSFER_OK, Some r, t') => transfer_ok (sp_leaves spool) t' /\ free_range spool t max r /\
      exists slot, find_index (fun a => negb (as_live a)) (tr_assigns t) = Some slot /\
        t' = mk_transfer (<[slot := mk_assign (rg_first r) (rg_count r) deadline peer true]> (tr_assigns t)) (tr_in_flight t + 1)
               (tr_window t) (tr_successes t)
  | (FZN_TRANSFER_NONE, None, t') => t' = t /\ (tr_in_flight t = 0 -> forall i, 0 <= i < sp_leaves spool -> bit_get (sp_present spool) i = true)
  | (FZN_TRANSFER_FULL, None, t') => t' = t /\ tr_window t <= tr_in_flight t
  | (FZN_TRANSFER_ERR_MALFORMED, None, t') => t' = t /\ (max = 0 \/ sp_leaves spool <= from)
  | _ => False
  end.
Proof.
  intros Hok Ht Hf Hm. unfold fzn_transfer_next_want. destruct (Z.eqb_spec max 0); [by split; [|left]|].
  destruct (Z.geb_spec (tr_in_flight t) (tr_window t)); [by split|]. pose proof (sp_bounds _ Hok) as Hb.
  destruct (decide (from < sp_leaves spool)) as [Hin|Hout].
  2:{ unfold fzn_spool_plan_want. destruct (Z.eqb_spec max 0); [lia|]. destruct (_ || _) eqn:E; [|lia]. split; [done|right; lia]. }
  destruct (plan_want_spec spool max CANDIDATES Hok ltac:(lia) from ltac:(lia)) as (out & -> & rs & Eout & Hfine & Hpre & _ & Hall).
  cbn [app] in Eout. subst rs.
  destruct (Z.eqb_spec (zlen out) 0) as [Hz|Hz].
  { split; [done|]. intros _ i Hi. destruct out; [|unfold zlen in Hz; cbn in Hz; lia]. specialize (Hall ltac:(done)).
    change (named []) with (@nil Z) in Hall. symmetry in Hall. apply not_false_iff_true. intros Hbit.
    assert (i ∈ filter (fun i => bit_get (sp_present spool) i = false) (seqZ from (sp_leaves spool - from) ++ seqZ 0 from)) as Hin'.
    { apply list_elem_of_filter. split; [done|]. apply elem_of_app. rewrite !elem_of_seqZ. lia. }
    rewrite Hall in Hin'. by apply not_elem_of_nil in Hin'. }
  pose proof (find_negb (fun r => is_pending t (rg_first r) (rg_count r)) out) as Hfind.
  destruct (List.find _ out) as [r|].
  2:{ split; [done|]. intros H0. exfalso. destruct out as [|r out]; [done|]. specialize (Hfind r ltac:(constructor)). cbn in Hfind.
    by rewrite (none_pending _ _ _ _ Ht H0) in Hfind. }
  destruct Hfind as [Hr Hp]. pose proof (proj1 (list.Forall_forall _ _) Hfine r Hr) as Hrok.
  pose proof (range_within (sp_leaves spool) max r ltac:(lia) Hrok) as Hwin. destruct Hrok as (Hrc & Hrf & Hcan).
  destruct (find_index _ (tr_assigns t)) as [slot|] eqn:Eslot.
  2:{ exfalso. pose proof (to_flight _ _ Ht). pose proof (to_window _ _ Ht). rewrite find_index_None in Eslot.
    assert (count as_live (tr_assigns t) = zlen (tr_assigns t)); [|lia]. apply count_all. intros i a Ha. specialize (Eslot i a Ha). by destruct (as_live a). }
  assert (u64 (tr_in_flight t + 1) = tr_in_flight t + 1) as Eu.
  { apply u64_small. rewrite (to_flight _ _ Ht). pose proof (count_le_zlen as_live (tr_assigns t)). pose proof (count_nonneg as_live (tr_assigns t)).
    pose proof (to_cap _ _ Ht). unfold FZN_TRANSFER_MAX_ASSIGNS in *. width. lia. }
  split_and!.
  - apply find_index_Some in Eslot as (b & Hb' & Hdead & _). apply negb_true_iff in Hdead.
    apply (assign_ok _ _ _ _ b); cbn; auto; lia.
  - split_and!; [done| |].
    + intros i Hi. assert (i ∈ named out) as Hin' by (apply elem_of_named; by exists r).
      apply (elem_of_prefix _ _ _ Hin') in Hpre. by apply list_elem_of_filter in Hpre as [? _].
    + apply (not_pending_apart _ _ _ _ Ht); auto; lia.
  - exists slot. by rewrite Eu.
Qed.

(** ** Any calls *)

Inductive transfer_event :=
| ev_want (spool : fzn_spool) (peer from max_per_range deadline : Z)
| ev_delivered (spool : fzn_spool) (peer first count : Z)
| ev_failed (peer first count : Z)
| ev_expire (now : Z).

Definition transfer_step (t : fzn_transfer) (ev : transfer_event) : fzn_transfer :=
  match ev with
  | ev_want spool peer from max deadline => snd (fzn_transfer_next_want t spool peer from max deadline)
  | ev_delivered spool peer first count => snd (fzn_transfer_delivered t spool peer first count)
  | ev_failed peer first count => snd (fzn_transfer_failed t peer first count)
  | ev_expire now => snd (fzn_transfer_expire t now)
  end.

(** The spool is one of the blob's, whatever its bits are by then. *)
Definition event_sane (leaves : Z) (ev : transfer_event) : Prop :=
  match ev with
  | ev_want spool _ from max _ => spool_ok spool /\ sp_leaves spool = leaves /\ 0 <= from /\ 0 <= max
  | _ => True
  end.

Lemma transfer_step_ok leaves t ev : transfer_ok leaves t -> event_sane leaves ev -> transfer_ok leaves (transfer_step t ev).
Proof.
  intros Ht Hev. destruct ev as [spool peer from max deadline|spool peer first n|peer first n|now]; cbn [transfer_step].
  - destruct Hev as (Hok & <- & Hf & Hm). pose proof (next_range_spec t spool peer from max deadline Hok Ht Hf Hm) as H.
    destruct (fzn_transfer_next_want _ _ _ _ _ _) as [[[] [r|]] t']; try done; cbn [snd]; destruct H as [H _]; [done|by subst..].
  - unfold fzn_transfer_delivered. destruct (find_slot t peer first n) as [slot|] eqn:E; [|done].
    destruct (forallb _ _); [|done]. apply find_slot_Some in E as (a & Ha & Hl & _). apply on_success_ok. by eapply release_ok.
  - unfold fzn_transfer_failed. destruct (find_slot t peer first n) as [slot|] eqn:E; [|done].
    apply find_slot_Some in E as (a & Ha & Hl & _). apply on_loss_ok. by eapply release_ok.
  - by apply expire_ok.
Qed.

Lemma open_transfer_ok spool cap t : 0 <= cap -> fzn_transfer_open spool cap = (FZN_TRANSFER_OK, Some t) -> transfer_ok (sp_leaves spool) t.
Proof.
  intros Hc. unfold fzn_transfer_open. destruct (_ || _) eqn:E; [done|]. destruct (sp_leaves spool =? 0); [done|]. intros Et. injection Et as <-.
  assert (forall i a, replicate (Z.to_nat cap) (mk_assign 0 0 0 0 false) !! i = Some a -> as_live a = false) as Hdead.
  { intros i a Ha. by apply lookup_replicate in Ha as [-> _]. }
  assert (zlen (replicate (Z.to_nat cap) (mk_assign 0 0 0 0 false)) = cap) as Hz by (unfold zlen; rewrite length_replicate; lia).
  split; cbn [tr_assigns tr_in_flight tr_window tr_successes]; rewrite ?Hz; try lia.
  - symmetry. by apply count_none.
  - intros i a Ha Hl. by rewrite (Hdead i a Ha) in Hl.
  - intros i j a b _ Ha _ Hl. by rewrite (Hdead i a Ha) in Hl.
Qed.

(** No leaf is asked of two peers at once. Whatever wants, deliveries,
    failures and deadlines follow on an opened transfer, in any order, from any
    peers, while the spool's bits change under it: the live assignments lie
    inside the blob and apart, as many as are counted in flight, and the window
    stays between one and the caller's array. A range handed out next is one a
    peer can answer under one proof, misses every leaf it names, overlaps no
    live assignment, and is live itself before it is returned; and a delivery
    is counted only for a range that was asked of that peer and is all held. *)
Theorem transfer_invariant spool0 cap t events : spool_ok spool0 -> 0 <= cap ->
  fzn_transfer_open spool0 cap = (FZN_TRANSFER_OK, Some t) -> Forall (event_sane (sp_leaves spool0)) events ->
  let t' := foldl transfer_step t events in
  transfer_ok (sp_leaves spool0) t' /\
  (forall spool peer from max deadline, spool_ok spool -> sp_leaves spool = sp_leaves spool0 -> 0 <= from -> 0 <= max ->
    match fzn_transfer_next_want t' spool peer from max deadline with
    | (FZN_TRANSFER_OK, r, t'') => exists r', r = Some r' /\ free_range spool t' max r' /\
        mk_assign (rg_first r') (rg_count r') deadline peer true ∈ tr_assigns t'' /\ tr_in_flight t'' = tr_in_flight t' + 1
    | (FZN_TRANSFER_ERR_UNKNOWN, _, _) => False
    | (_, r, t'') => r = None /\ t'' = t'
    end) /\
  (forall spool peer first n, match fzn_transfer_delivered t' spool peer first n with
    | (FZN_TRANSFER_OK, _) => (exists a, a ∈ tr_assigns t' /\ as_live a = true /\ as_peer a = peer /\ as_first a = first /\ as_count a = n) /\
        forall i, first <= i < first + n -> bit_get (sp_present spool) i = true
    | (err, t'') => err = FZN_TRANSFER_ERR_UNKNOWN /\ t'' = t'
    end).
Proof.
  intros Hok0 Hcap Hopen Hev t'.
  assert (transfer_ok (sp_leaves spool0) t') as Ht.
  { pose proof (open_transfer_ok _ _ _ Hcap Hopen) as Ht. unfold t'. clear t' Hopen. revert t Ht.
    induction Hev as [|ev events Hev _ IH]; intros t Ht; [done|]. cbn [foldl]. by apply IH, transfer_step_ok. }
  split_and!; [done| |].
  - intros spool peer from max deadline Hok El Hf Hm. rewrite <- El in Ht.
    pose proof (next_range_spec t' spool peer from max deadline Hok Ht Hf Hm) as H.
    destruct (fzn_transfer_next_want _ _ _ _ _ _) as [[[] [r|]] t'']; try done; try (by destruct H).
    destruct H as (_ & Hr & slot & Hslot & ->). exists r. split_and!; [done..| |done]. cbn [tr_assigns].
    apply find_index_Some in Hslot as (b & Hb & _). eapply list_elem_of_lookup_2, list_lookup_insert_eq. by eapply lookup_lt_Some.
  - intros spool peer first n. unfold fzn_transfer_delivered. destruct (find_slot t' peer first n) as [slot|] eqn:E; [|done].
    destruct (forallb _ _) eqn:Eall; [|done]. split.
    + apply find_slot_Some in E as (a & Ha & Hl & Hf & Hn & Hp). exists a. split_and!; try done. by apply list_elem_of_lookup_2 in Ha.
    + intros i Hi. rewrite forallb_forall in Eall. specialize (Eall i). unfold fzn_spool_has in Eall.
      rewrite <- list_elem_of_In, elem_of_seqZ in Eall. specialize (Eall Hi). by destruct (_ >=? _).
Qed.

Definition demo_want_spool (present : bytes) : fzn_spool := mk_spool [] 10 (bits present 10) present.
Definition demo_events : list transfer_event :=
  [ev_want (demo_want_spool [0; 0]) 1 6 4 100; ev_delivered (demo_want_spool [0; 0]) 1 6 2; ev_delivered (demo_want_spool [192; 0]) 1 6 2;
   ev_want (demo_want_spool [192; 0]) 2 6 4 200; ev_want (demo_want_spool [192; 0]) 1 6 4 300; ev_expire 200].

Lemma transfer_invariant_witness :
  let t := mk_transfer (replicate 3 (mk_assign 0 0 0 0 false)) 0 1 0 in
  fzn_transfer_open (demo_want_spool [0; 0]) 3 = (FZN_TRANSFER_OK, Some t) /\
  foldl transfer_step t demo_events =
    mk_transfer [mk_assign 8 2 200 2 false; mk_assign 0 4 300 1 true; mk_assign 0 0 0 0 false] 1 1 0 /\
  transfer_ok 10 (foldl transfer_step t demo_events).
Proof.
  cbv zeta. split; [reflexivity|]. split; [vm_compute; reflexivity|].
  assert (spool_ok (demo_want_spool [0; 0])) as Hok by (split; [done|vm_compute; discriminate|reflexivity]).
  assert (Forall (event_sane 10) demo_events) as Hev.
  { repeat constructor; vm_compute; discriminate. }
  exact (proj1 (transfer_invariant (demo_want_spool [0; 0]) 3 (mk_transfer (replicate 3 (mk_assign 0 0 0 0 false)) 0 1 0) demo_events
    Hok ltac:(lia) eq_refl Hev)).
Defined.

(** Ten ranges of 64 leaves: six fetched, three asked for and half placed,
    every other leaf of them, and one nobody has been asked for. *)
Definition demo_gaps (present : bytes) : fzn_spool := mk_spool [] 640 (bits present 640) present.
Definition demo_fetched (k : nat) : fzn_spool := demo_gaps (replicate (8 * k) 255 ++ replicate (80 - 8 * k) 0).
Definition demo_half_placed : fzn_spool := demo_gaps (replicate 48 255 ++ replicate 24 85 ++ replicate 8 0).
Definition demo_long_events : list transfer_event :=
  concat ((fun k => [ev_want (demo_fetched k) 1 0 64 9; ev_delivered (demo_fetched (S k)) 1 (64 * Z.of_nat k) 64]) <$> seq 0 6)
  ++ [ev_want (demo_fetched 6) 1 0 64 9; ev_want (demo_fetched 6) 2 0 64 9; ev_want (demo_fetched 6) 3 0 64 9].
Definition demo_busy : fzn_transfer :=
  foldl transfer_step (mk_transfer (replicate 4 (mk_assign 0 0 0 0 false)) 0 1 0) demo_long_events.

(** The search can answer that there is nothing to ask for while a free
    range exists and the window is open, though every call used one
    granularity and one playhead: three live assignments, half of whose leaves
    have been placed one by one, are cut into 96 single leaves and so rule out
    every candidate the search looks at. *)
Theorem search_misses_a_free_range :
  fzn_transfer_open demo_half_placed 4 = (FZN_TRANSFER_OK, Some (mk_transfer (replicate 4 (mk_assign 0 0 0 0 false)) 0 1 0)) /\
  tr_in_flight demo_busy < tr_window demo_busy /\
  fzn_transfer_next_want demo_busy demo_half_placed 4 0 64 9 = (FZN_TRANSFER_NONE, None, demo_busy) /\
  fzn_spool_plan_want demo_half_placed 576 64 1 = (FZN_SPOOL_OK, Some [mk_span 576 64]) /\
  is_pending demo_busy 576 64 = false.
Proof. repeat split; vm_compute; reflexivity. Qed.
