(* ===== verification/TransferFetch.v ===== *)
(** * spool/transfer.c and spool/spool.c: a blob fetched

    Peers that hold a blob and answer honestly, asked one range after the
    other, over a storage that takes what fits. *)

From S2P Require Import Prelude Bitmap Storage Bytes Revocation Blob BlobTree BlobSpan BlobProof Spool SpoolHolds SpoolPlan Transfer.

(** Where a fetch stands. *)
Record fetching (S : Type) := mk_fetching { ft_spool : fzn_spool; ft_storage : S; ft_transfer : fzn_transfer }.
Arguments mk_fetching {S}.
Arguments ft_spool {S}.
Arguments ft_storage {S}.
Arguments ft_transfer {S}.

(** A peer, and the playhead and granularity it is asked with. *)
Record asked := mk_asked { ak_peer : Z; ak_from : Z; ak_max : Z }.

(** One range asked for, answered by one who holds every leaf, placed and
    reported. [None] is any failure on the way. *)
Definition fetch_round {S} (ops : fzn_spool_ops S) (hash : fzn_hash_ops) (sealed hs : list bytes) (st : fetching S) (a : asked)
    : option (fetching S) :=
  match fzn_transfer_next_want (ft_transfer st) (ft_spool st) (ak_peer a) (ak_from a) (ak_max a) UINT64_MAX with
  | (FZN_TRANSFER_NONE, _, _) => Some st
  | (FZN_TRANSFER_OK, Some r, t) =>
    match fzn_blob_span_proof_build (Some (Some hash)) (concat hs) (zlen hs) (rg_first r) (rg_count r)
      (zeros (FZN_BLOB_MAX_DEPTH * FZN_BLOB_HASH_LEN)) with
    | (FZN_BLOB_OK, proof, Some k) =>
      match fzn_spool_place_span ops (ft_spool st) (ft_storage st) (Some (Some hash)) (rg_first r)
        (Some <$> slice (rg_first r) (rg_count r) sealed) (Some proof) k with
      | (FZN_SPOOL_OK, spool, s) =>
        match fzn_transfer_delivered t spool (ak_peer a) (rg_first r) (rg_count r) with
        | (FZN_TRANSFER_OK, t) => Some (mk_fetching spool s t)
        | _ => None
        end
      | _ => None
      end
    | _ => None
    end
  | _ => None
  end.

(** One round after the other. *)
Definition fetch {S} (ops : fzn_spool_ops S) (hash : fzn_hash_ops) (sealed hs : list bytes) (st : fetching S) (rounds : list asked)
    : option (fetching S) := foldl (fun st a => st ≫= fun st => fetch_round ops hash sealed hs st a) (Some st) rounds.

(** A storage in a state of [room] takes what lies below [size]. *)
Class Roomy {S} (ops : fzn_spool_ops S) (room : S -> Prop) (size : Z) : Prop := {
  rm_write : forall s off b, room s -> 0 <= off -> off + zlen b <= size -> exists s', write_at ops s off b = (true, s') /\ room s';
  rm_sync : forall f s, sync ops = Some f -> room s -> room (f s)
}.

Section Fetch.
Context {S : Type} (ops : fzn_spool_ops S) `{!SpoolStorage ops} (room : S -> Prop).
Context (hash : fzn_hash_ops) (sealed hs : list bytes) (root : bytes).
Context `{!Roomy ops room (zlen sealed * FZN_BLOB_SEALED_MAX)}.
Hypothesis Htotal : forall x, exists d, hash FZN_BLOB_HASH_LEN x = Some d /\ zlen d = FZN_BLOB_HASH_LEN.
Hypothesis Hsealed : Forall2 (fun s h => fzn_blob_leaf_hash (Some (Some hash)) s = (FZN_BLOB_OK, Some h)) sealed hs.
Hypothesis Hm : zlen hs <= FZN_SPOOL_MAX_LEAVES.
Hypothesis Hroot : root_of hash hs root.

Lemma write_slot_roomy s i leaf : room s -> 0 <= i < zlen sealed -> leaf_fits leaf ->
  exists s', write_slot ops s i leaf = (true, s') /\ room s'.
Proof using All.
  intros Hr Hi [Hl1 Hl2]. pose proof (zlen_sealed hash sealed hs Hsealed) as Ez. unfold write_slot.
  pose proof (rm_write (room := room) (size := zlen sealed * FZN_BLOB_SEALED_MAX)) as Hwrite.
  assert (offset_of i = i * FZN_BLOB_SEALED_MAX) as Eo by (apply slot_offset; lia).
  assert (0 <= offset_of i /\ offset_of i + FZN_BLOB_SEALED_MAX <= zlen sealed * FZN_BLOB_SEALED_MAX) as [H0 H1].
  { rewrite Eo. change FZN_BLOB_SEALED_MAX with 1056. lia. }
  destruct (Hwrite s (offset_of i) leaf Hr H0 ltac:(lia)) as (s1 & -> & Hr1).
  destruct (Z.ltb_spec (zlen leaf) FZN_BLOB_SEALED_MAX); [|by exists s1].
  assert (u64 (offset_of i + zlen leaf) = offset_of i + zlen leaf) as ->.
  { apply u64_small. change FZN_BLOB_SEALED_MAX with 1056 in *. change FZN_SPOOL_MAX_LEAVES with 4194304 in *. width. lia. }
  pose proof (zlen_zeros (FZN_BLOB_SEALED_MAX - zlen leaf) ltac:(lia)) as Hz.
  apply Hwrite; [done|lia|lia].
Qed.

Lemma place_loop_roomy todo : forall spool s index, room s -> 0 <= index -> index + zlen todo <= zlen sealed -> Forall leaf_fits todo ->
  exists spool' s', place_loop ops spool s index (Some <$> todo) = (FZN_SPOOL_OK, spool', s') /\ room s'.
Proof using All.
  induction todo as [|leaf todo IH]; intros spool s index Hr Hi Hin Hfit; cbn [place_loop fmap list_fmap]; [by eauto|].
  assert (zlen (leaf :: todo) = 1 + zlen todo) as Ez by (unfold zlen; cbn [length]; lia). rewrite Ez in *.
  pose proof (zlen_nonneg todo). apply Forall_cons_iff in Hfit as [Hf Hfit].
  destruct (bit_get _ index); [apply IH; [done|lia..|done]|]. change (default [] (Some leaf)) with leaf.
  destruct (write_slot_roomy s index leaf Hr ltac:(lia) Hf) as (s1 & -> & Hr1). apply IH; [done|lia..|done].
Qed.

Lemma span_hashes_ok leaves got : Forall2 (fun s h => fzn_blob_leaf_hash (Some (Some hash)) s = (FZN_BLOB_OK, Some h)) leaves got ->
  span_hashes (Some (Some hash)) (Some <$> leaves) = Some (concat got).
Proof using.
  induction 1 as [|leaf h leaves got Hh _ IH]; [done|]. cbn [fmap list_fmap span_hashes]. rewrite IH, Hh.
  unfold fzn_blob_leaf_hash in Hh. destruct (_ || _); [done|]. done.
Qed.

(** The blob's own span is taken. *)
Lemma place_span_roomy spool s f c : spool_ok spool -> sp_root spool = root -> sp_leaves spool = zlen sealed ->
  faithful ops sealed spool s -> room s -> range_ok (sp_leaves spool) 64 (mk_span f c) ->
  exists proof k spool' s',
    fzn_blob_span_proof_build (Some (Some hash)) (concat hs) (zlen hs) f c (zeros (FZN_BLOB_MAX_DEPTH * FZN_BLOB_HASH_LEN)) = (FZN_BLOB_OK, proof, Some k) /\
    fzn_spool_place_span ops spool s (Some (Some hash)) f (Some <$> slice f c sealed) (Some proof) k = (FZN_SPOOL_OK, spool', s') /\
    spool_ok spool' /\ sp_root spool' = root /\ sp_leaves spool' = zlen sealed /\ faithful ops sealed spool' s' /\ room s' /\
    forall j, 0 <= j -> bit_get (sp_present spool') j = (f <=? j) && (j <? f + c) || bit_get (sp_present spool) j.
Proof using All.
  intros Hok Hr Hz Hf Hroom Hrange. pose proof (zlen_sealed hash sealed hs Hsealed) as Ez.
  pose proof (sp_bounds _ Hok). pose proof (range_within (sp_leaves spool) 64 (mk_span f c) ltac:(lia) Hrange) as Hwin. destruct Hrange as (Hc & Hf0 & Hcan). cbn [rg_first rg_count] in *.
  assert (hashes hs) as Hhs.
  { eapply (sealed_hashes hash sealed); [|done]. intros x d Hx. destruct (Htotal x) as (d' & Hd & Hz'). congruence. }
  assert (FZN_SPOOL_MAX_LEAVES < FZN_BLOB_MAX_LEAVES) as Hlt by done.
  destruct (span_proved hash hs root f c (zeros (FZN_BLOB_MAX_DEPTH * FZN_BLOB_HASH_LEN)) Htotal Hhs ltac:(lia) Hroot Hf0 ltac:(lia))
    as (span_root & proof & k & Hsr & Hbuild & _ & Hv); [by rewrite <- Ez, <- Hz|vm_compute; discriminate|].
  assert (Forall2 (fun s h => fzn_blob_leaf_hash (Some (Some hash)) s = (FZN_BLOB_OK, Some h)) (slice f c sealed) (slice f c hs)) as Hgot
    by (by apply Forall2_take, Forall2_drop).
  assert (zlen (slice f c sealed) = c) as Hsl by (apply zlen_slice; lia).
  assert (zlen (Some <$> slice f c sealed) = c) as Hsl' by (rewrite <- Hsl at 2; unfold zlen; by rewrite length_fmap).
  assert (Forall leaf_fits sealed) as Hfit by (by apply (leaves_fit hash sealed hs)).
  destruct (place_loop_roomy (slice f c sealed) spool s f Hroom Hf0 ltac:(lia)) as (spool' & s' & El & Hroom');
    [by apply Forall_take, Forall_drop|].
  pose proof (place_loop_ok ops (Some <$> slice f c sealed) spool s f Hok Hf0 ltac:(lia)) as H1.
  pose proof (place_loop_spec ops sealed (Some <$> slice f c sealed) spool s f Hok Hf Hfit Hz Hf0 ltac:(lia) ltac:(by rewrite Hsl')) as H2.
  rewrite El in H1, H2. destruct H1 as (Hok' & Hr' & Hz' & Hbits), H2 as [Hf' _].
  exists proof, k, spool', (sync_when_complete ops spool' s'). split; [done|]. split.
  { unfold fzn_spool_place_span. rewrite Hsl'. rewrite bool_decide_true by eauto. cbn [negb].
    destruct ((c =? 0) || (c >? SPAN_MAX_LEAVES)) eqn:E1; [unfold SPAN_MAX_LEAVES in *; lia|].
    destruct ((f >=? _) || _) eqn:E2; [lia|]. rewrite Hcan. cbn [negb].
    rewrite (span_hashes_ok _ _ Hgot), Hsr, Hz, Ez, Hr, Hv, El. done. }
  split_and!; [done|congruence|congruence|by apply faithful_sync| |].
  - unfold sync_when_complete. destruct (sync ops) as [g|] eqn:Eg; [|done]. destruct (_ =? _); [|done].
    by apply (rm_sync (room := room) (size := zlen sealed * FZN_BLOB_SEALED_MAX)).
  - intros j Hj. by rewrite Hbits, Hsl'.
Qed.

(** Between two rounds. *)
Record underway (st : fetching S) : Prop := {
  uw_ok : spool_ok (ft_spool st);
  uw_root : sp_root (ft_spool st) = root;
  uw_leaves : sp_leaves (ft_spool st) = zlen sealed;
  uw_faithful : faithful ops sealed (ft_spool st) (ft_storage st);
  uw_room : room (ft_storage st);
  uw_transfer : transfer_ok (zlen sealed) (ft_transfer st);
  uw_idle : tr_in_flight (ft_transfer st) = 0
}.

(** A playhead inside the blob, and ranges a message carries. *)
Definition asked_ok (a : asked) : Prop := 0 <= ak_from a < zlen sealed /\ 1 <= ak_max a <= 64.

Lemma delivered_frees t spool peer f c slot : 0 <= f -> tr_assigns t !! slot = Some (mk_assign f c UINT64_MAX peer true) ->
  f + c <= sp_leaves spool -> (forall j, f <= j < f + c -> bit_get (sp_present spool) j = true) -> tr_in_flight t = 1 ->
  exists t', fzn_transfer_delivered t spool peer f c = (FZN_TRANSFER_OK, t') /\ tr_in_flight t' = 0.
Proof using.
  intros Hf Hslot Hin Hbits Hfl. unfold fzn_transfer_delivered. destruct (find_slot t peer f c) as [slot'|] eqn:E.
  2:{ unfold find_slot in E. rewrite find_index_None in E. specialize (E _ _ Hslot). cbn in E. rewrite !Z.eqb_refl in E. done. }
  replace (forallb _ _) with true.
  - eexists. split; [done|]. unfold on_success, release. cbn [tr_successes tr_window tr_in_flight tr_assigns]. rewrite Hfl. by destruct (_ <? _).
  - symmetry. apply forallb_forall. intros j Hj. apply list_elem_of_In, elem_of_seqZ in Hj. unfold fzn_spool_has.
    destruct (Z.geb_spec j (sp_leaves spool)); [lia|]. by apply Hbits.
Qed.

Lemma fetch_round_spec st a : underway st -> asked_ok a ->
  exists st', fetch_round ops hash sealed hs st a = Some st' /\ underway st' /\
    (fzn_spool_complete (ft_spool st) = true /\ st' = st \/ sp_have (ft_spool st) < sp_have (ft_spool st')).
Proof using All.
  intros [Hok Hr Hz Hf Hroom Ht Hidle] [Hfrom Hmax]. unfold fetch_round.
  pose proof (next_range_spec (ft_transfer st) (ft_spool st) (ak_peer a) (ak_from a) (ak_max a) UINT64_MAX Hok
    ltac:(by rewrite Hz) ltac:(lia) ltac:(lia)) as H.
  destruct (fzn_transfer_next_want _ _ _ _ _ _) as [[[] [r|]] t]; try done.
  - destruct H as (Ht' & (Hrange & Hmiss & _) & slot & Hslot & ->). rewrite Hidle in *.
    destruct r as [f c]. destruct Hrange as (Hc & Hf0 & Hcan). cbn [rg_first rg_count] in *.
    assert (range_ok (sp_leaves (ft_spool st)) 64 (mk_span f c)) as Hrange by (split_and!; cbn; first [lia|done]).
    pose proof (sp_bounds _ Hok) as Hb.
    pose proof (range_within (sp_leaves (ft_spool st)) 64 (mk_span f c) ltac:(lia) Hrange) as Hwin. cbn in Hwin.
    destruct (place_span_roomy (ft_spool st) (ft_storage st) f c Hok Hr Hz Hf Hroom Hrange)
      as (proof & k & spool' & s' & -> & -> & Hok' & Hr' & Hz' & Hf' & Hroom' & Hbits).
    apply find_index_Some in Hslot as (b & Hb' & _).
    assert (forall j, f <= j < f + c -> bit_get (sp_present spool') j = true) as Hset.
    { intros j Hj. rewrite Hbits by lia. destruct ((f <=? j) && (j <? f + c)) eqn:E; [done|lia]. }
    match goal with |- context [fzn_transfer_delivered ?t _ _ _ _] =>
      destruct (delivered_frees t spool' (ak_peer a) f c slot Hf0) as (t' & Et' & Hidle')
    end; [apply list_lookup_insert_eq; by eapply lookup_lt_Some|lia|exact Hset|reflexivity|]. rewrite Et'.
    eexists. split; [done|]. split; [split; cbn [ft_spool ft_storage ft_transfer]; try done|right; cbn [ft_spool]].
    + replace t' with (snd (FZN_TRANSFER_OK, t')) by done. rewrite <- Et'. rewrite <- Hz.
      by apply (transfer_step_ok _ _ (ev_delivered spool' (ak_peer a) f c)).
    + rewrite (sp_counts _ Hok), (sp_counts _ Hok'). rewrite Hz', Hz. unfold bits. apply (count_seqZ_strict _ _ _ f); [lia| |by apply Hset; lia|].
      * apply Hmiss. apply elem_of_seqZ. cbn. lia.
      * intros j Hj Hbit. by rewrite Hbits, Hbit, orb_true_r by lia.
  - destruct H as [-> [H0|H0]]; lia.
  - destruct H as [-> Hall]. exists st. split; [done|]. split; [by split|]. left. split; [|done]. apply complete_iff; [done|]. by apply Hall.
  - destruct H as [_ H]. pose proof (to_window _ _ Ht). lia.
Qed.

Lemma fetch_spec rounds : forall st, underway st -> Forall asked_ok rounds -> zlen sealed - sp_have (ft_spool st) <= zlen rounds ->
  exists st', fetch ops hash sealed hs st rounds = Some st' /\ underway st' /\ fzn_spool_complete (ft_spool st') = true.
Proof using All.
  assert (forall st, underway st -> zlen sealed <= sp_have (ft_spool st) -> fzn_spool_complete (ft_spool st) = true) as Hdone.
  { intros st H Hh. pose proof (have_range _ (uw_ok _ H)). pose proof (sp_bounds _ (uw_ok _ H)). rewrite (uw_leaves _ H) in *.
    unfold fzn_spool_complete. rewrite (uw_leaves _ H). lia. }
  induction rounds as [|a rounds IH]; intros st H Hall Hlen.
  { exists st. split_and!; [done..|]. apply Hdone; [done|]. change (zlen (A:=asked) []) with 0 in Hlen. lia. }
  apply Forall_cons_iff in Hall as [Ha Hall]. assert (zlen (a :: rounds) = 1 + zlen rounds) as Ez by (unfold zlen; cbn [length]; lia).
  destruct (fetch_round_spec st a H Ha) as (st' & E & H' & Hprog). unfold fetch. cbn [foldl mbind option_bind]. rewrite E.
  destruct Hprog as [[Hc ->]|Hlt]; [|apply IH; [done..|lia]].
  apply IH; [done..|]. unfold fzn_spool_complete in Hc. rewrite (uw_leaves _ H) in Hc. pose proof (zlen_nonneg rounds). lia.
Qed.
End Fetch.

(** C37: An honest fetch completes. On any blob the spool accepts, from a bitmap
    fresh or resumed whose leaves are there, over a storage with room: a
    transfer asked round after round, of any peers that hold the blob, with
    any playheads and any granularity up to 64 leaves, has after as many
    rounds as leaves were missing a complete spool, and every leaf reads back
    as the blob's. Every range the planner chose had a proof that verified,
    and no answer was refused. *)
Theorem honest_fetch_completes {S} (ops : fzn_spool_ops S) `{!SpoolStorage ops} (room : S -> Prop) (hash : fzn_hash_ops) sealed hs
    `{!Roomy ops room (zlen sealed * FZN_BLOB_SEALED_MAX)} spool s cap t rounds :
  (forall x, exists d, hash FZN_BLOB_HASH_LEN x = Some d /\ zlen d = FZN_BLOB_HASH_LEN) ->
  Forall2 (fun s h => fzn_blob_leaf_hash (Some (Some hash)) s = (FZN_BLOB_OK, Some h)) sealed hs ->
  zlen hs <= FZN_SPOOL_MAX_LEAVES -> root_of hash hs (sp_root spool) ->
  spool_ok spool -> sp_leaves spool = zlen sealed -> faithful ops sealed spool s -> room s ->
  0 <= cap -> fzn_transfer_open spool cap = (FZN_TRANSFER_OK, Some t) ->
  Forall (fun a => 0 <= ak_from a < zlen sealed /\ 1 <= ak_max a <= 64) rounds -> zlen sealed - sp_have spool <= zlen rounds ->
  exists st, fetch ops hash sealed hs (mk_fetching spool s t) rounds = Some st /\
    fzn_spool_complete (ft_spool st) = true /\
    forall i leaf, sealed !! i = Some leaf ->
      fzn_spool_read ops (ft_spool st) (ft_storage st) (Z.of_nat i) FZN_BLOB_SEALED_MAX = (FZN_SPOOL_OK, Some (slot_of leaf)).
Proof.
  intros Htotal Hsealed Hm Hroot Hok Hz Hf Hroom Hcap Hopen Hrounds Hlen.
  destruct (fetch_spec ops room hash sealed hs (sp_root spool) Htotal Hsealed Hm Hroot rounds (mk_fetching spool s t))
    as (st & Est & Hst & Hc); [|exact Hrounds|exact Hlen|].
  { split; cbn [ft_spool ft_storage ft_transfer]; try done.
    - rewrite <- Hz. by eapply open_transfer_ok.
    - unfold fzn_transfer_open in Hopen. destruct (_ || _); [done|]. destruct (sp_leaves spool =? 0); [done|].
      injection Hopen as <-. done. }
  exists st. split_and!; [done..|]. destruct Hst. by apply (faithful_reads ops sealed).
Qed.

#[export] Instance mem_roomy n : Roomy mem_ops (fun s => zlen s = n) n.
Proof.
  split; [|done]. intros s off b Hs Ho Hin. cbn. unfold mem_write. destruct (Z.leb_spec (off + zlen b) (zlen s)); [|lia].
  eexists. split; [done|]. rewrite zlen_blit by lia. done.
Qed.

Definition demo_transfer : fzn_transfer := mk_transfer (replicate 2 (mk_assign 0 0 0 0 false)) 0 1 0.
Definition demo_rounds : list asked := [mk_asked 7 2 64; mk_asked 8 1 1; mk_asked 7 0 2].

Lemma honest_fetch_completes_witness :
  zlen (zeros 3168) = 3168 /\
  exists st, fetch mem_ops sum_hash demo_sealed demo_hashes (mk_fetching demo_spool (zeros 3168) demo_transfer) demo_rounds = Some st /\
    fzn_spool_complete (ft_spool st) = true /\
    forall i leaf, demo_sealed !! i = Some leaf ->
      fzn_spool_read mem_ops (ft_spool st) (ft_storage st) (Z.of_nat i) FZN_BLOB_SEALED_MAX = (FZN_SPOOL_OK, Some (slot_of leaf)).
Proof.
  assert (zlen (zeros 3168) = 3168) as Hs by (apply zlen_zeros; lia). split; [exact Hs|].
  assert (zlen demo_hashes <= FZN_SPOOL_MAX_LEAVES) as Hm by (vm_compute; discriminate).
  assert (Forall (fun a => 0 <= ak_from a < zlen demo_sealed /\ 1 <= ak_max a <= 64) demo_rounds) as Hr.
  { repeat constructor; cbn; change (zlen demo_sealed) with 3; lia. }
  exact (honest_fetch_completes mem_ops (fun s => zlen s = 3168) sum_hash demo_sealed demo_hashes demo_spool (zeros 3168) 2 demo_transfer
    demo_rounds demo_total demo_sealed_ok Hm demo_sealed_root_of demo_spool_ok eq_refl (demo_spool_empty _) Hs ltac:(lia) eq_refl Hr
    ltac:(vm_compute; discriminate)).
Defined.
