(* ===== verification/Gf256.v ===== *)
(** * chunk/erasure.c, first part: GF(2^8)

    The field of 256 elements the code works in, by its tables of logarithms
    and exponents, as [gf_init] fills them. An element is a byte; addition is
    exclusive or. What the tables satisfy is checked by evaluation, over one
    element or over pairs; the field laws follow. *)

From S2P Require Import Prelude.

(** An equation between exclusive ors, bit by bit. *)
Ltac xor_solve :=
  apply Z.bits_inj'; intros ? _; rewrite ?Z.lxor_spec, ?Z.bits_0;
  repeat match goal with |- context [Z.testbit ?x ?i] => destruct (Z.testbit x i) end; reflexivity.

Lemma lxor_u8 a b : in_u8 a -> in_u8 b -> in_u8 (Z.lxor a b).
Proof.
  intros Ha Hb. assert (Z.lxor a b = Z.land (Z.lxor a b) (Z.ones 8)) as ->.
  { apply Z.bits_inj'. intros i Hi. rewrite Z.land_spec, Z.lxor_spec.
    destruct (Z.lt_ge_cases i 8); [by rewrite Z.ones_spec_low, andb_true_r by lia|].
    rewrite Z.ones_spec_high, andb_false_r by lia.
    rewrite <- (Z.mod_small a (2 ^ 8)), <- (Z.mod_small b (2 ^ 8)) by ulia.
    by rewrite !Z.mod_pow2_bits_high by lia. }
  rewrite Z.land_ones by lia. pose proof (Z.mod_pos_bound (Z.lxor a b) (2 ^ 8) ltac:(lia)). ulia.
Qed.

(** ** The tables *)

(** The first loop of [gf_init], [n] turns to go. *)
Fixpoint gf_fill (n : nat) (i x : Z) (gf_exp gf_log : list Z) : list Z * list Z :=
  match n with
  | O => (gf_exp, gf_log)
  | S n =>
    let gf_exp := <[ Z.to_nat i := u8 x ]> gf_exp in
    let gf_log := <[ Z.to_nat x := u8 i ]> gf_log in
    let x := Z.shiftl x 1 in
    let x := if negb (Z.land x 256 =? 0) then Z.lxor x 285 else x in
    gf_fill n (i + 1) x gf_exp gf_log
  end.

(** The second loop: the exponents, doubled. *)
Fixpoint gf_double (n : nat) (i : Z) (gf_exp : list Z) : list Z :=
  match n with
  | O => gf_exp
  | S n => gf_double n (i + 1) (<[ Z.to_nat i := nth (Z.to_nat (i - 255)) gf_exp 0 ]> gf_exp)
  end.

Definition gf_init : list Z * list Z :=
  let '(gf_exp, gf_log) := gf_fill 255 0 1 (replicate 512 0) (replicate 256 0) in
  (gf_double 257 255 gf_exp, gf_log).

Definition gf_exp : list Z := Eval vm_compute in fst gf_init.
Definition gf_log : list Z := Eval vm_compute in snd gf_init.

Definition exp_at (i : Z) : Z := nth (Z.to_nat i) gf_exp 0.
Definition log_at (a : Z) : Z := nth (Z.to_nat a) gf_log 0.

Definition gf_mul (a b : Z) : Z :=
  if (a =? 0) || (b =? 0) then 0 else exp_at (log_at a + log_at b).

Definition gf_inv (a : Z) : Z := exp_at (255 - log_at a).

(** ** What the tables hold *)

Lemma tables_filled : gf_init = (gf_exp, gf_log).
Proof. vm_compute. reflexivity. Qed.

Definition below (n : Z) : list Z := Z.of_nat <$> seq 0 (Z.to_nat n).

Lemma below_in n i : 0 <= i < n -> In i (below n).
Proof.
  intros Hi. unfold below. replace i with (Z.of_nat (Z.to_nat i)) by lia. apply in_map, in_seq. lia.
Qed.

(** A fact checked at every index below a bound. *)
Lemma all_below (f : Z -> bool) n : forallb f (below n) = true -> forall i, 0 <= i < n -> f i = true.
Proof. intros H i Hi. rewrite forallb_forall in H. by apply H, below_in. Qed.

Lemma log_range a : 0 <= log_at a < 255.
Proof.
  unfold log_at. destruct (Nat.lt_ge_cases (Z.to_nat a) 256) as [Hl|Hl].
  - assert (forallb (fun i => (0 <=? log_at i) && (log_at i <? 255)) (below 256) = true) as H
      by (vm_compute; reflexivity).
    pose proof (all_below _ _ H (Z.of_nat (Z.to_nat a)) ltac:(lia)) as Ha. unfold log_at in Ha.
    rewrite Nat2Z.id in Ha. lia.
  - rewrite nth_overflow by (change (length gf_log) with 256%nat; lia). lia.
Qed.

(** Exponents below 512: nonzero bytes, of period 255, that [gf_log] inverts. *)
Lemma exp_facts i : 0 <= i < 512 ->
  0 < exp_at i < 256 /\ exp_at i = exp_at (i mod 255) /\ log_at (exp_at i) = i mod 255.
Proof.
  intros Hi.
  assert (forallb (fun i => (0 <? exp_at i) && (exp_at i <? 256) && (exp_at i =? exp_at (i mod 255))
    && (log_at (exp_at i) =? i mod 255)) (below 512) = true) as H by (vm_compute; reflexivity).
  pose proof (all_below _ _ H i Hi) as Ha. cbn beta in Ha. bool_props. lia.
Qed.

Lemma exp_log a : 0 < a < 256 -> exp_at (log_at a) = a.
Proof.
  intros Ha.
  assert (forallb (fun a => (a =? 0) || (exp_at (log_at a) =? a)) (below 256) = true) as H
    by (vm_compute; reflexivity).
  pose proof (all_below _ _ H a ltac:(lia)) as H1. cbn beta in H1. lia.
Qed.

(** ** The field *)

Lemma gf_mul_range a b : in_u8 (gf_mul a b).
Proof.
  unfold gf_mul. destruct (_ || _); [ulia|].
  destruct (exp_facts (log_at a + log_at b)) as [? _]; [|ulia].
  pose proof (log_range a). pose proof (log_range b). lia.
Qed.

Lemma gf_mul_comm a b : gf_mul a b = gf_mul b a.
Proof. unfold gf_mul. rewrite orb_comm, Z.add_comm. done. Qed.

Lemma gf_mul_0_l b : gf_mul 0 b = 0.
Proof. done. Qed.

Lemma gf_mul_0_r a : gf_mul a 0 = 0.
Proof. by rewrite gf_mul_comm. Qed.

Lemma gf_mul_nonzero a b : a <> 0 -> b <> 0 ->
  gf_mul a b = exp_at ((log_at a + log_at b) mod 255) /\ gf_mul a b <> 0.
Proof.
  intros Ha Hb. unfold gf_mul. destruct (Z.eqb_spec a 0), (Z.eqb_spec b 0); try done. cbn [orb].
  pose proof (log_range a). pose proof (log_range b).
  destruct (exp_facts (log_at a + log_at b)) as (? & ? & _); lia.
Qed.

Lemma gf_mul_zero a b : gf_mul a b = 0 -> a = 0 \/ b = 0.
Proof.
  intros E. destruct (Z.eq_dec a 0); [by left|]. destruct (Z.eq_dec b 0); [by right|].
  destruct (gf_mul_nonzero a b); done.
Qed.

Lemma log_mul a b : a <> 0 -> b <> 0 -> log_at (gf_mul a b) = (log_at a + log_at b) mod 255.
Proof.
  intros Ha Hb. destruct (gf_mul_nonzero a b Ha Hb) as [-> _].
  pose proof (Z.mod_pos_bound (log_at a + log_at b) 255 ltac:(lia)).
  destruct (exp_facts ((log_at a + log_at b) mod 255)) as (_ & _ & ->); [lia|]. by rewrite Zmod_mod.
Qed.

Lemma gf_mul_assoc a b c : gf_mul a (gf_mul b c) = gf_mul (gf_mul a b) c.
Proof.
  destruct (Z.eq_dec a 0) as [->|Ha]; [by rewrite !gf_mul_0_l|].
  destruct (Z.eq_dec b 0) as [->|Hb]; [by rewrite !gf_mul_0_r, !gf_mul_0_l|].
  destruct (Z.eq_dec c 0) as [->|Hc]; [by rewrite !gf_mul_0_r|].
  pose proof (proj2 (gf_mul_nonzero a b Ha Hb)). pose proof (proj2 (gf_mul_nonzero b c Hb Hc)).
  destruct (gf_mul_nonzero a (gf_mul b c)) as [-> _]; [done..|].
  destruct (gf_mul_nonzero (gf_mul a b) c) as [-> _]; [done..|].
  rewrite !log_mul by done. f_equal. rewrite Zplus_mod_idemp_r, Zplus_mod_idemp_l. f_equal. lia.
Qed.

Lemma gf_mul_1_l a : in_u8 a -> gf_mul 1 a = a.
Proof.
  intros Ha. destruct (Z.eq_dec a 0) as [->|Hn]; [done|]. unfold gf_mul.
  destruct (Z.eqb_spec a 0); [done|]. change (log_at 1) with 0. cbn [orb Z.eqb].
  apply exp_log. ulia.
Qed.

Lemma gf_inv_l a : a <> 0 -> gf_mul (gf_inv a) a = 1.
Proof.
  intros Ha. pose proof (log_range a). unfold gf_inv.
  destruct (exp_facts (255 - log_at a)) as (Hp & He & Hl); [lia|].
  destruct (gf_mul_nonzero (exp_at (255 - log_at a)) a) as [-> _]; [lia|done|].
  rewrite Hl, Zplus_mod_idemp_l. replace (255 - log_at a + log_at a) with 255 by lia. reflexivity.
Qed.

Lemma gf_inv_range a : in_u8 (gf_inv a) /\ gf_inv a <> 0.
Proof.
  pose proof (log_range a). unfold gf_inv. destruct (exp_facts (255 - log_at a)) as (? & _); ulia.
Qed.

(** Multiplication by two is the step of [gf_init], which is linear, and every
    nonzero element is a power of two. *)
Definition gf_step (x : Z) : Z :=
  let x := Z.shiftl x 1 in if negb (Z.land x 256 =? 0) then Z.lxor x 285 else x.

Lemma gf_mul_2 b : in_u8 b -> gf_mul 2 b = gf_step b.
Proof.
  intros Hb. assert (forallb (fun b => gf_mul 2 b =? gf_step b) (below 256) = true) as H
    by (vm_compute; reflexivity).
  apply Z.eqb_eq, (all_below _ _ H). ulia.
Qed.

Lemma exp_succ l : 0 <= l < 511 -> exp_at (l + 1) = gf_mul 2 (exp_at l).
Proof.
  intros Hl. assert (forallb (fun l => exp_at (l + 1) =? gf_mul 2 (exp_at l)) (below 511) = true) as H
    by (vm_compute; reflexivity).
  by apply Z.eqb_eq, (all_below _ _ H).
Qed.

Lemma carry_bit x : negb (Z.land x 256 =? 0) = Z.testbit x 8.
Proof.
  change 256 with (2 ^ 8). rewrite Z.land_comm.
  assert (Z.land (2 ^ 8) x = if Z.testbit x 8 then 2 ^ 8 else 0) as ->; [|by destruct (Z.testbit x 8)].
  apply Z.bits_inj'. intros i Hi. rewrite Z.land_spec, Z.pow2_bits_eqb by lia.
  destruct (Z.eqb_spec 8 i) as [<-|Hn]; destruct (Z.testbit x 8);
    rewrite ?Z.pow2_bits_true, ?Z.pow2_bits_false, ?Z.bits_0 by lia; done.
Qed.

Lemma gf_step_xor b c : gf_step (Z.lxor b c) = Z.lxor (gf_step b) (gf_step c).
Proof.
  unfold gf_step. rewrite !carry_bit, Z.shiftl_lxor, Z.lxor_spec.
  destruct (Z.testbit (Z.shiftl b 1) 8), (Z.testbit (Z.shiftl c 1) 8); cbn [xorb]; xor_solve.
Qed.

Lemma power_xor l b c : 0 <= l -> l < 255 -> in_u8 b -> in_u8 c ->
  gf_mul (exp_at l) (Z.lxor b c) = Z.lxor (gf_mul (exp_at l) b) (gf_mul (exp_at l) c).
Proof.
  intros Hl Hm Hb Hc. assert (in_u8 (Z.lxor b c)) by by apply lxor_u8. revert Hm.
  pattern l. apply natlike_ind; [|clear l Hl; intros l Hl IH Hm|done]; intros.
  - change (exp_at 0) with 1. by rewrite !gf_mul_1_l.
  - unfold Z.succ in *. rewrite !exp_succ, <- !gf_mul_assoc, IH by lia.
    rewrite !gf_mul_2 by (repeat apply lxor_u8; apply gf_mul_range). apply gf_step_xor.
Qed.

Lemma gf_mul_xor a b c : in_u8 b -> in_u8 c -> gf_mul a (Z.lxor b c) = Z.lxor (gf_mul a b) (gf_mul a c).
Proof.
  intros Hb Hc. destruct (Z.eq_dec a 0) as [->|Ha]; [done|]. pose proof (log_range a) as Hl.
  assert (forall x, gf_mul a x = gf_mul (exp_at (log_at a)) x) as E.
  { intros x. destruct (exp_facts (log_at a)) as (Hp & _ & Hlog); [lia|].
    unfold gf_mul. destruct (Z.eqb_spec a 0); [done|]. destruct (Z.eqb_spec (exp_at (log_at a)) 0); [lia|].
    rewrite Hlog. by rewrite Z.mod_small by lia. }
  rewrite !E. apply power_xor; lia || done.
Qed.

Lemma gf_mul_xor_l a b c : in_u8 a -> in_u8 b -> gf_mul (Z.lxor a b) c = Z.lxor (gf_mul a c) (gf_mul b c).
Proof. intros. rewrite !(gf_mul_comm _ c). by apply gf_mul_xor. Qed.

(** ** Sums *)

Section Sums.
Context {A : Type}.
Implicit Types (f g : A -> Z) (l : list A).

Definition xsum f l : Z := foldr (fun i acc => Z.lxor (f i) acc) 0 l.

Lemma xsum_ext f g l : (forall i, In i l -> f i = g i) -> xsum f l = xsum g l.
Proof. induction l as [|i l IH]; intros H; cbn [xsum foldr]; [done|]. fold (xsum f l) (xsum g l).
  rewrite H, IH; [done| |by left]. intros j Hj. apply H. by right. Qed.

Lemma xsum_range f l : (forall i, In i l -> in_u8 (f i)) -> in_u8 (xsum f l).
Proof.
  induction l as [|i l IH]; intros H; [cbn; ulia|]. apply lxor_u8; [apply H; by left|].
  apply IH. intros j Hj. apply H. by right.
Qed.

Lemma xsum_zero f l : (forall i, In i l -> f i = 0) -> xsum f l = 0.
Proof. intros H. rewrite (xsum_ext f (fun _ => 0) l H). by induction l as [|i l IH]; [|apply IH; intros; apply H; right]. Qed.

Lemma xsum_xor f g l : xsum (fun i => Z.lxor (f i) (g i)) l = Z.lxor (xsum f l) (xsum g l).
Proof.
  induction l as [|i l IH]; [done|]. unfold xsum in *. cbn [foldr]. rewrite IH. xor_solve.
Qed.

Lemma xsum_scale a f l :
  (forall i, In i l -> in_u8 (f i)) -> gf_mul a (xsum f l) = xsum (fun i => gf_mul a (f i)) l.
Proof.
  induction l as [|i l IH]; intros H; [apply gf_mul_0_r|].
  assert (forall j, In j l -> in_u8 (f j)) by (intros; apply H; by right).
  unfold xsum. cbn [foldr]. fold (xsum f l) (xsum (fun i => gf_mul a (f i)) l).
  rewrite gf_mul_xor; [by rewrite IH|apply H; by left|by apply xsum_range].
Qed.

(** Only the terms that are not zero count. *)
Lemma xsum_filter (p : A -> bool) f l :
  (forall i, In i l -> p i = false -> f i = 0) -> xsum f l = xsum f (List.filter p l).
Proof.
  induction l as [|i l IH]; intros H; [done|]. cbn [List.filter].
  assert (xsum f l = xsum f (List.filter p l)) as E by (apply IH; intros; apply H; [by right|done]).
  unfold xsum in *. destruct (p i) eqn:Hp; cbn [foldr]; rewrite E; [done|].
  rewrite H by (done || by left). apply Z.lxor_0_l.
Qed.

Lemma xsum_single f l i :
  List.NoDup l -> In i l -> (forall j, In j l -> j <> i -> f j = 0) -> xsum f l = f i.
Proof.
  induction 1 as [|j l Hj Hl IH]; [done|]. intros [->|Hi] H; unfold xsum; cbn [foldr]; fold (xsum f l).
  - rewrite xsum_zero; [apply Z.lxor_0_r|]. intros j Hin. apply H; [by right|]. by intros ->.
  - rewrite IH; [|done|intros; apply H; [by right|done]]. rewrite (H j); [apply Z.lxor_0_l|by left|].
    by intros ->.
Qed.
End Sums.

(** ** The Cauchy matrix *)

Lemma lxor_nonzero a b : a <> b -> Z.lxor a b <> 0.
Proof. intros Hn E. apply Hn. by apply Z.lxor_eq. Qed.

Lemma gf_inv_r a : a <> 0 -> gf_mul a (gf_inv a) = 1.
Proof. intros. rewrite gf_mul_comm. by apply gf_inv_l. Qed.

(** 1/a + 1/b = (a + b) / ab *)
Lemma inv_sum a b : in_u8 a -> in_u8 b -> a <> 0 -> b <> 0 ->
  Z.lxor (gf_inv a) (gf_inv b) = gf_mul (Z.lxor a b) (gf_mul (gf_inv a) (gf_inv b)).
Proof.
  intros Ha Hb Na Nb. destruct (gf_inv_range a) as [Ia _]. destruct (gf_inv_range b) as [Ib _].
  rewrite gf_mul_xor_l by done.
  rewrite (gf_mul_assoc a), gf_inv_r, gf_mul_1_l by done.
  rewrite (gf_mul_comm (gf_inv a)), (gf_mul_assoc b), gf_inv_r, gf_mul_1_l by done. apply Z.lxor_comm.
Qed.

Section Cauchy.
Implicit Types (X Y : list Z) (v : Z -> Z).

(** The sum of [v y / (x + y)] over [y]. *)
Definition cauchy_row Y v (x : Z) : Z := xsum (fun y => gf_mul (gf_inv (Z.lxor x y)) (v y)) Y.

Definition apart (X Y : list Z) : Prop := forall x y, In x X -> In y Y -> x <> y.

(** One row spent: the others, on [v y / (x + y)], and its own sum. *)
Lemma cauchy_spend x X Y v :
  Forall in_u8 (x :: X) -> Forall in_u8 Y -> (forall y, in_u8 (v y)) -> ~ In x X -> apart (x :: X) Y ->
  (forall x', In x' (x :: X) -> cauchy_row Y v x' = 0) ->
  let u y := gf_mul (gf_inv (Z.lxor x y)) (v y) in
  xsum u Y = 0 /\ forall x', In x' X -> cauchy_row Y u x' = 0.
Proof.
  intros HX HY Hv Hx Ha Hrow u. split; [apply Hrow; by left|]. intros x' Hx'.
  rewrite List.Forall_forall in HX, HY.
  assert (gf_mul (Z.lxor x' x) (cauchy_row Y u x') = 0) as E.
  { unfold cauchy_row. rewrite xsum_scale by (intros; apply gf_mul_range).
    rewrite <- (Z.lxor_0_l 0), <- (Hrow x' ltac:(by right)) at 1. rewrite <- (Hrow x ltac:(by left)).
    unfold cauchy_row. rewrite <- xsum_xor. apply xsum_ext. intros y Hy.
    assert (in_u8 x /\ in_u8 x' /\ in_u8 y) as (? & ? & ?).
    { split_and!; [apply HX; by left|apply HX; by right|by apply HY]. }
    rewrite <- gf_mul_xor_l by apply gf_inv_range.
    rewrite inv_sum; try (by apply lxor_u8).
    - replace (Z.lxor (Z.lxor x' y) (Z.lxor x y)) with (Z.lxor x' x) by xor_solve.
      unfold u. by rewrite !gf_mul_assoc.
    - apply lxor_nonzero, Ha; [by right|done].
    - apply lxor_nonzero, Ha; [by left|done]. }
  apply gf_mul_zero in E as [E|E]; [|done]. apply Z.lxor_eq in E. by subst.
Qed.

(** One column spent. *)
Lemma cauchy_column X y0 Y u :
  Forall in_u8 X -> Forall in_u8 (y0 :: Y) -> (forall y, in_u8 (u y)) -> apart X (y0 :: Y) ->
  xsum u (y0 :: Y) = 0 -> (forall x, In x X -> cauchy_row (y0 :: Y) u x = 0) ->
  forall x, In x X -> cauchy_row Y (fun y => gf_mul (Z.lxor y0 y) (u y)) x = 0.
Proof.
  intros HX HY Hu Ha Hs Hrow x Hx. rewrite List.Forall_forall in HX, HY.
  pose proof (Hrow x Hx) as Hr. unfold cauchy_row in *.
  transitivity (xsum (fun y => gf_mul (gf_inv (Z.lxor x y)) (gf_mul (Z.lxor y0 y) (u y))) (y0 :: Y)).
  { unfold xsum at 2. cbn [foldr]. by rewrite Z.lxor_nilpotent, gf_mul_0_l, gf_mul_0_r, Z.lxor_0_l. }
  transitivity (Z.lxor (gf_mul (Z.lxor x y0) (xsum (fun y => gf_mul (gf_inv (Z.lxor x y)) (u y)) (y0 :: Y)))
    (xsum u (y0 :: Y))); [|by rewrite Hr, Hs, gf_mul_0_r].
  rewrite xsum_scale by (intros; apply gf_mul_range). rewrite <- xsum_xor. apply xsum_ext. intros y Hy.
  assert (in_u8 x /\ in_u8 y0 /\ in_u8 y) as (? & ? & ?) by (split_and!; [by apply HX|apply HY; by left|by apply HY]).
  assert (Z.lxor x y <> 0) by by apply lxor_nonzero, Ha.
  replace (Z.lxor y0 y) with (Z.lxor (Z.lxor x y0) (Z.lxor x y)) by xor_solve.
  rewrite gf_mul_xor_l, gf_mul_xor; try (by apply lxor_u8); try apply gf_mul_range. f_equal.
  - by rewrite !gf_mul_assoc, (gf_mul_comm (gf_inv _)).
  - rewrite gf_mul_assoc, gf_inv_l, gf_mul_1_l; done.
Qed.

(** As many rows as columns: only zero is in the kernel. *)
Lemma cauchy_kernel X : forall Y v,
  Forall in_u8 X -> Forall in_u8 Y -> (forall y, in_u8 (v y)) -> List.NoDup X -> List.NoDup Y -> apart X Y ->
  length X = length Y -> (forall x, In x X -> cauchy_row Y v x = 0) -> forall y, In y Y -> v y = 0.
Proof.
  induction X as [|x X IH]; intros [|y0 Y] v HX HY Hv NX NY Ha Hlen Hrow y Hy; try done.
  inversion_clear NX as [|? ? NX1 NX2]. inversion_clear NY as [|? ? NY1 NY2].
  destruct (cauchy_spend x X (y0 :: Y) v) as [Hs Hu]; try done.
  set (u := fun y => gf_mul (gf_inv (Z.lxor x y)) (v y)) in *.
  assert (forall y, in_u8 (u y)) as Ru by (intros; apply gf_mul_range).
  assert (forall y, In y (y0 :: Y) -> u y = 0 -> v y = 0) as Huv.
  { intros y' Hy' [E|E]%gf_mul_zero; [|done]. by destruct (gf_inv_range (Z.lxor x y')). }
  assert (forall y, In y Y -> u y = 0) as Hw.
  { intros y' Hy'. assert (gf_mul (Z.lxor y0 y') (u y') = 0) as E.
    - apply (IH Y (fun y => gf_mul (Z.lxor y0 y) (u y))); try done.
      + by inversion_clear HX.
      + by inversion_clear HY.
      + intros; apply gf_mul_range.
      + intros a b Hia Hib. apply Ha; by right.
      + cbn in Hlen. lia.
      + apply cauchy_column; try done; [by inversion_clear HX|]. intros a b Hia Hib. apply Ha; [by right|done].
    - apply gf_mul_zero in E as [E|E]; [|done]. apply Z.lxor_eq in E. by subst. }
  destruct Hy as [<-|Hy]; [|by apply Huv, Hw; try right].
  apply Huv; [by left|]. rewrite <- Hs. symmetry. apply xsum_single; [by constructor|by left|].
  intros j [->|Hj] Hne; [done|]. by apply Hw.
Qed.
End Cauchy.
