(* ===== verification/Erasure.v ===== *)
(** * chunk/erasure.c: any k pieces rebuild the buffer

    The systematic code over GF(2^8): the data pieces are the buffer, the
    parity pieces are rows of a Cauchy matrix over them; decoding inverts, by
    Gauss-Jordan elimination, the rows of the pieces held. A matrix is the
    list of its rows, and the elimination works on the rows of [a] with those
    of [inv] beside them, as every step of the source writes both. *)

From S2P Require Import Prelude Bytes Gf256.

Inductive fzn_erasure_err := FZN_ERASURE_OK | FZN_ERASURE_ERR_MALFORMED | FZN_ERASURE_ERR_TOO_FEW.

Definition FZN_ERASURE_PIECES_MAX : Z := 32.

(** Row [r] of the generator matrix, column [c]. *)
Definition generator (k r c : Z) : Z :=
  if r <? k then (if r =? c then 1 else 0) else gf_inv (u8 (Z.lxor r c)).

Definition fzn_erasure_piece_len (len k : Z) : Z :=
  if (k =? 0) || (len =? 0) then 0 else len / k + (if negb (len mod k =? 0) then 1 else 0).

(** [k] and [m] are unsigned, and so is their sum. *)
Definition shape_ok (k m len : Z) : bool :=
  negb (k =? 0) && negb (m =? 0) && (u32 (k + m) <=? FZN_ERASURE_PIECES_MAX) && negb (len =? 0).

(** ** Encoding *)

(** [parity[b] ^= gf_mul(coef, piece[b])] for every [b]. *)
Definition add_piece (coef : Z) (parity piece : bytes) : bytes :=
  zip_with (fun p x => Z.lxor p (gf_mul coef x)) parity piece.

Definition parity_of (k plen : Z) (pieces : bytes) (j : Z) : bytes :=
  fold_left (fun parity c => add_piece (generator k (k + j) c) parity (slice (c * plen) plen pieces))
    (below k) (zeros plen).

Definition fzn_erasure_encode (k m : Z) (data pieces : option bytes) : fzn_erasure_err * option bytes :=
  match data, pieces with
  | Some data, Some pieces =>
    let len := zlen data in
    let plen := fzn_erasure_piece_len len k in
    if negb (shape_ok k m len) then (FZN_ERASURE_ERR_MALFORMED, Some pieces)
    else
      let pieces := blit 0 data (blit 0 (zeros (k * plen)) pieces) in
      (FZN_ERASURE_OK,
       Some (fold_left (fun pieces j => blit ((k + j) * plen) (parity_of k plen pieces j) pieces) (below m)
               pieces))
  | _, _ => (FZN_ERASURE_ERR_MALFORMED, pieces)
  end.

(** ** Decoding *)

(** The indices of the first [n] pieces held, from index [i] on. *)
Fixpoint held_rows (pieces : list (option bytes)) (i : Z) (n : nat) : list Z :=
  match n, pieces with
  | S n', Some _ :: pieces => i :: held_rows pieces (i + 1) n'
  | S _, None :: pieces => held_rows pieces (i + 1) n
  | _, _ => []
  end.

(** A row of [a] and the row of [inv] beside it. *)
Notation row2 := (bytes * bytes)%type (only parsing).
Definition no_row : row2 := ([], []).

Definition entry (M : list row2) (r c : nat) : Z := nth c (fst (nth r M no_row)) 0.

(** The search for a pivot from row [p] on, [n] rows to go. *)
Fixpoint pivot (n p c : nat) (M : list row2) : nat :=
  match n with
  | O => p
  | S n => if entry M p c =? 0 then pivot n (S p) c M else p
  end.

Definition swap_rows (M : list row2) (p c : nat) : list row2 :=
  if negb (p =? c)%nat then <[ c := nth p M no_row ]> (<[ p := nth c M no_row ]> M) else M.

Definition scale_row (scale : Z) (row : row2) : row2 :=
  ((fun x => gf_mul x scale) <$> fst row, (fun x => gf_mul x scale) <$> snd row).

Definition add_row (f : Z) (row other : row2) : row2 := (add_piece f (fst row) (fst other), add_piece f (snd row) (snd other)).

(** Column [c] cleared from every row but row [c]. *)
Definition clear_column (M : list row2) (c : nat) : list row2 :=
  imap (fun r row => let f := nth c (fst row) 0 in
    if (r =? c)%nat || (f =? 0) then row else add_row f row (nth c M no_row)) M.

(** The columns from [c] on, [n] of the [k] to go. *)
Fixpoint gauss (n c k : nat) (M : list row2) : option (list row2) :=
  match n with
  | O => Some M
  | S n =>
    let p := pivot (k - c) c c M in
    if (p =? k)%nat then None
    else
      let M := swap_rows M p c in
      let scale := gf_inv (entry M c c) in
      let M := <[ c := scale_row scale (nth c M no_row) ]> M in
      gauss n (S c) k (clear_column M c)
  end.

(** [v ^= gf_mul(inv[r][i], pieces[rows[i]][b])] over the pieces held. *)
Definition rebuilt_byte (inv_row : bytes) (held : list bytes) (b : Z) : Z :=
  fold_left (fun v fp => Z.lxor v (gf_mul (fst fp) (peek (snd fp) b))) (zip inv_row held) 0.

(** The writing loop over the rows of the inverse. *)
Fixpoint write_rows (M : list row2) (held : list bytes) (len plen done : Z) (out : bytes) : bytes :=
  match M with
  | [] => out
  | row :: M =>
    if done <? len then
      let want := if len - done <? plen then len - done else plen in
      write_rows M held len plen (done + want) (blit done (rebuilt_byte (snd row) held <$> below want) out)
    else out
  end.

Definition fzn_erasure_decode (k m : Z) (pieces : option (list (option bytes))) (len : Z) (out : option bytes)
    : fzn_erasure_err * option bytes :=
  match pieces, out with
  | Some pieces, Some out =>
    let plen := fzn_erasure_piece_len len k in
    if negb (shape_ok k m len) then (FZN_ERASURE_ERR_MALFORMED, Some out)
    else
      let rows := held_rows (take (Z.to_nat (u32 (k + m))) pieces) 0 (Z.to_nat k) in
      if zlen rows <? k then (FZN_ERASURE_ERR_TOO_FEW, Some out)
      else
        let M := imap (fun r row => (generator k row <$> below k,
                                     (fun c => if Z.of_nat r =? c then 1 else 0) <$> below k)) rows in
        match gauss (Z.to_nat k) 0 (Z.to_nat k) M with
        | None => (FZN_ERASURE_ERR_MALFORMED, Some out)
        | Some M =>
          let held := (fun i => default [] (default None (pieces !! Z.to_nat i))) <$> rows in
          (FZN_ERASURE_OK, Some (write_rows M held len plen 0 out))
        end
  | _, _ => (FZN_ERASURE_ERR_MALFORMED, out)
  end.

(** ** Linear algebra over the field *)

Section Elimination.
Context (K : nat).
Implicit Types (x y d : bytes) (row : row2) (M : list row2).

Definition vec x : Prop := length x = K /\ Forall in_u8 x.

Definition dot x d : Z := xsum (fun i => gf_mul (nth i x 0) (nth i d 0)) (seq 0 K).

Lemma nth_u8 x i : Forall in_u8 x -> in_u8 (nth i x 0).
Proof.
  intros Hx. destruct (nth_in_or_default i x 0) as [Hin| ->]; [|ulia].
  rewrite List.Forall_forall in Hx. by apply Hx.
Qed.

Lemma dot_range x d : in_u8 (dot x d).
Proof. apply xsum_range. intros. apply gf_mul_range. Qed.

Lemma nth_add_piece f x y i : length x = length y ->
  nth i (add_piece f x y) 0 = Z.lxor (nth i x 0) (gf_mul f (nth i y 0)).
Proof.
  revert y i. induction x as [|a x IH]; intros [|b y] i Hl; try done.
  - destruct i; cbn; by rewrite gf_mul_0_r.
  - destruct i; [done|]. cbn. apply IH. by injection Hl.
Qed.

Lemma length_add_piece f x y : length x = length y -> length (add_piece f x y) = length x.
Proof. intros H. unfold add_piece. rewrite length_zip_with. lia. Qed.

Lemma vec_add f x y : vec x -> vec y -> vec (add_piece f x y).
Proof.
  intros [Lx Hx] [Ly Hy]. split; [rewrite length_add_piece; lia|].
  apply List.Forall_forall. intros z Hz. apply (In_nth _ _ 0) in Hz as (i & _ & <-).
  rewrite nth_add_piece by lia. apply lxor_u8; [by apply nth_u8|apply gf_mul_range].
Qed.

Lemma vec_scale s x : vec x -> vec ((fun e => gf_mul e s) <$> x).
Proof.
  intros [Lx _]. split; [by rewrite length_fmap|]. apply List.Forall_forall.
  intros z (e & <- & _)%in_map_iff. apply gf_mul_range.
Qed.

Lemma nth_scale s x i : nth i ((fun e => gf_mul e s) <$> x) 0 = gf_mul (nth i x 0) s.
Proof. rewrite <- (gf_mul_0_l s) at 1. apply (map_nth (fun e => gf_mul e s)). Qed.

Lemma dot_add f x y d : vec x -> vec y ->
  dot (add_piece f x y) d = Z.lxor (dot x d) (gf_mul f (dot y d)).
Proof.
  intros [Lx Hx] [Ly Hy]. unfold dot. rewrite xsum_scale by (intros; apply gf_mul_range).
  rewrite <- xsum_xor. apply xsum_ext. intros i _. rewrite nth_add_piece by lia.
  rewrite gf_mul_xor_l by (apply gf_mul_range || by apply nth_u8). by rewrite gf_mul_assoc.
Qed.

Lemma dot_scale s x d : dot ((fun e => gf_mul e s) <$> x) d = gf_mul s (dot x d).
Proof.
  unfold dot. rewrite xsum_scale by (intros; apply gf_mul_range). apply xsum_ext. intros i _.
  by rewrite nth_scale, (gf_mul_comm _ s), gf_mul_assoc.
Qed.

(** A vector whose entries are one at [r] and zero elsewhere picks an entry. *)
Lemma dot_unit x d r : vec d -> (r < K)%nat ->
  (forall j, (j < K)%nat -> nth j x 0 = if (r =? j)%nat then 1 else 0) -> dot x d = nth r d 0.
Proof.
  intros [_ Hd] Hr Hx. unfold dot. rewrite (xsum_single _ _ r).
  - rewrite Hx, Nat.eqb_refl by done. apply gf_mul_1_l. by apply nth_u8.
  - apply seq_NoDup.
  - apply in_seq. lia.
  - intros j Hj%in_seq Hne. rewrite Hx by lia. destruct (Nat.eqb_spec r j); [by subst|done].
Qed.

(** The rows to invert, and what they make of a vector. *)
Context (A : list bytes).
Hypothesis HA : length A = K.
Definition image d : bytes := (fun a => dot a d) <$> A.

(** What holds of the two matrices from column [c] on: every row of [a] is
    what its row of [inv] makes of [A], nothing was lost, and the columns
    before [c] are those of the identity. *)
Record reduced (c : nat) M : Prop := {
  rd_len : length M = K;
  rd_vec : forall r, (r < K)%nat -> vec (fst (nth r M no_row)) /\ vec (snd (nth r M no_row));
  rd_tracks : forall r d, (r < K)%nat -> vec d ->
    dot (fst (nth r M no_row)) d = dot (snd (nth r M no_row)) (image d);
  rd_kernel : forall d, vec d -> (forall r, (r < K)%nat -> dot (fst (nth r M no_row)) d = 0) ->
    forall a, In a A -> dot a d = 0;
  rd_unit : forall r j, (r < K)%nat -> (j < c)%nat -> entry M r j = if (r =? j)%nat then 1 else 0
}.

Lemma nth_list_insert M (i j : nat) row : (j < length M)%nat ->
  nth i (<[ j := row ]> M) no_row = if (i =? j)%nat then row else nth i M no_row.
Proof.
  intros Hj. rewrite !list.nth_lookup. destruct (Nat.eqb_spec i j) as [->|Hne].
  - by rewrite list_lookup_insert_eq.
  - by rewrite list_lookup_insert_ne.
Qed.

(** A change of rows that keeps [tracks], and that the old rows can be read
    back from, keeps the rest. *)
Lemma reduced_swap c M p : reduced c M -> (c <= p < K)%nat -> reduced c (swap_rows M p c).
Proof.
  intros H Hp. unfold swap_rows. destruct (Nat.eqb_spec p c) as [->|Hne]; [done|]. cbn [negb].
  pose proof (rd_len _ _ H) as Hl.
  set (sw := fun r => if (r =? c)%nat then p else if (r =? p)%nat then c else r).
  assert (forall r, nth r (<[ c := nth p M no_row ]> (<[ p := nth c M no_row ]> M)) no_row
    = nth (sw r) M no_row) as E.
  { intros r. unfold sw. rewrite nth_list_insert by (rewrite length_insert; lia).
    destruct (Nat.eqb_spec r c); [done|]. rewrite nth_list_insert by lia. by destruct (r =? p)%nat. }
  assert (forall r, (r < K)%nat -> (sw r < K)%nat) as Hb
    by (intros r Hr; unfold sw; destruct (r =? c)%nat, (r =? p)%nat; lia).
  assert (forall r, sw (sw r) = r) as Hs.
  { intros r. unfold sw. destruct (Nat.eqb_spec r c) as [->|]; [|destruct (Nat.eqb_spec r p) as [->|]].
    - destruct (Nat.eqb_spec p c); [done|]. by rewrite Nat.eqb_refl.
    - by rewrite Nat.eqb_refl.
    - destruct (Nat.eqb_spec r c), (Nat.eqb_spec r p); done. }
  split.
  - by rewrite !length_insert.
  - intros r Hr. rewrite E. by apply (rd_vec _ _ H), Hb.
  - intros r d Hr Hd. rewrite E. apply (rd_tracks _ _ H); [by apply Hb|done].
  - intros d Hd Hz. apply (rd_kernel _ _ H d Hd). intros r Hr.
    specialize (Hz _ (Hb r Hr)). by rewrite E, Hs in Hz.
  - intros r j Hr Hj. unfold entry. rewrite E. fold (entry M (sw r) j).
    rewrite (rd_unit _ _ H) by auto. unfold sw.
    destruct (Nat.eqb_spec r c), (Nat.eqb_spec r p); try done; subst;
      rewrite !(proj2 (Nat.eqb_neq _ _)) by lia; done.
Qed.

Lemma reduced_scale c M s : reduced c M -> (c < K)%nat -> s <> 0 ->
  reduced c (<[ c := scale_row s (nth c M no_row) ]> M).
Proof.
  intros H Hc Hs. pose proof (rd_len _ _ H) as Hl. pose proof (nth_list_insert M) as E. split.
  - by rewrite length_insert.
  - intros r Hr. rewrite E by lia. destruct (r =? c)%nat; [|by apply (rd_vec _ _ H)].
    cbn [scale_row fst snd]. destruct (rd_vec _ _ H c Hc). split; by apply vec_scale.
  - intros r d Hr Hd. rewrite E by lia. destruct (r =? c)%nat; [|by apply (rd_tracks _ _ H)].
    cbn [scale_row fst snd]. by rewrite !dot_scale, (rd_tracks _ _ H).
  - intros d Hd Hz. apply (rd_kernel _ _ H d Hd). intros r Hr. specialize (Hz r Hr).
    rewrite E in Hz by lia. destruct (Nat.eqb_spec r c) as [Erc|]; [|done]. subst r.
    cbn [scale_row fst snd] in Hz. rewrite dot_scale in Hz. by apply gf_mul_zero in Hz as [?|?].
  - intros r j Hr Hj. unfold entry. rewrite E by lia.
    destruct (Nat.eqb_spec r c) as [->|]; [|by apply (rd_unit _ _ H)].
    cbn [scale_row fst snd]. rewrite nth_scale. fold (entry M c j). rewrite (rd_unit _ _ H) by done.
    destruct (Nat.eqb_spec c j); [lia|done].
Qed.

Lemma nth_clear M c r : (r < length M)%nat ->
  nth r (clear_column M c) no_row =
    if (r =? c)%nat || (entry M r c =? 0) then nth r M no_row
    else add_row (entry M r c) (nth r M no_row) (nth c M no_row).
Proof.
  intros Hr. destruct (lookup_lt_is_Some_2 M r Hr) as [row E].
  assert (nth r M no_row = row) as Hn by (rewrite list.nth_lookup, E; done).
  unfold clear_column, entry. rewrite Hn, (list.nth_lookup (imap _ _)). rewrite list_lookup_imap, E. done.
Qed.

Lemma reduced_clear c M : reduced c M -> (c < K)%nat -> entry M c c = 1 -> reduced (S c) (clear_column M c).
Proof.
  intros H Hc Hone. pose proof (rd_len _ _ H) as Hl. pose proof (nth_clear M c) as E.
  destruct (rd_vec _ _ H c Hc) as [Vc1 Vc2]. split.
  - unfold clear_column. by rewrite length_imap.
  - intros r Hr. rewrite E by lia. destruct (_ || _); [by apply (rd_vec _ _ H)|].
    destruct (rd_vec _ _ H r Hr). split; by apply vec_add.
  - intros r d Hr Hd. rewrite E by lia. destruct (_ || _); [by apply (rd_tracks _ _ H)|].
    destruct (rd_vec _ _ H r Hr). cbn [add_row fst snd].
    rewrite !dot_add by done. by rewrite !(rd_tracks _ _ H).
  - intros d Hd Hz. apply (rd_kernel _ _ H d Hd).
    assert (dot (fst (nth c M no_row)) d = 0) as Hzc.
    { specialize (Hz c Hc). rewrite E in Hz by lia. by rewrite Nat.eqb_refl in Hz. }
    intros r Hr. specialize (Hz r Hr). rewrite E in Hz by lia. destruct (_ || _); [done|].
    destruct (rd_vec _ _ H r Hr). cbn [add_row fst] in Hz. rewrite dot_add, Hzc, gf_mul_0_r, Z.lxor_0_r in Hz by done.
    done.
  - intros r j Hr Hj. unfold entry at 1. rewrite E by lia.
    destruct (rd_vec _ _ H r Hr) as [[L1 _] _]. destruct Vc1 as [L2 _].
    assert (nth j (fst (add_row (entry M r c) (nth r M no_row) (nth c M no_row))) 0
      = Z.lxor (entry M r j) (gf_mul (entry M r c) (entry M c j))) as Ea.
    { cbn [add_row fst]. rewrite nth_add_piece by lia. done. }
    destruct (Nat.eq_dec j c) as [->|Hjc].
    + destruct (Nat.eqb_spec r c) as [->|Hrc]; cbn [orb]; [exact Hone|].
      destruct (Z.eqb_spec (entry M r c) 0) as [E0|_]; [exact E0|].
      rewrite Ea, Hone, (gf_mul_comm _ 1), gf_mul_1_l, Z.lxor_nilpotent; [done|].
      apply nth_u8. by apply (rd_vec _ _ H).
    + assert (entry M c j = 0) as Hcj.
      { rewrite (rd_unit _ _ H) by lia. destruct (Nat.eqb_spec c j); [lia|done]. }
      rewrite <- (rd_unit _ _ H r j) by lia. destruct (_ || _); [done|].
      by rewrite Ea, Hcj, gf_mul_0_r, Z.lxor_0_r.
Qed.

Lemma pivot_spec n : forall p c M q, pivot n p c M = q ->
  (p <= q <= p + n)%nat /\ ((q < p + n)%nat -> entry M q c <> 0) /\
  (forall r, (p <= r < q)%nat -> entry M r c = 0).
Proof.
  induction n as [|n IH]; intros p c M q; cbn [pivot]; [intros <-; split; [lia|split; lia]|].
  destruct (Z.eqb_spec (entry M p c) 0) as [E|E].
  - intros H%IH. destruct H as (H1 & H2 & H3). split_and!; [lia..|intros; apply H2; lia|].
    intros r Hr. destruct (Nat.eq_dec r p) as [->|]; [done|]. apply H3. lia.
  - intros <-. split_and!; [lia..|done|lia].
Qed.

(** Only zero is sent to zero by the rows of [A]. *)
Hypothesis Hinj : forall d, vec d -> (forall a, In a A -> dot a d = 0) -> forall i, (i < K)%nat -> nth i d 0 = 0.

(** The combination of columns that a missing pivot would send to zero. *)
Definition no_pivot (c : nat) M : bytes :=
  (fun j => if (j <? c)%nat then entry M j c else if (j =? c)%nat then 1 else 0) <$> seq 0 K.

Lemma nth_no_pivot c M j : (j < K)%nat ->
  nth j (no_pivot c M) 0 = if (j <? c)%nat then entry M j c else if (j =? c)%nat then 1 else 0.
Proof.
  intros Hj. unfold no_pivot. rewrite list.nth_lookup, list_lookup_fmap, lookup_seq_lt by done. done.
Qed.

Lemma xsum_at (v : Z) a : (a < K)%nat -> xsum (fun j => if (j =? a)%nat then v else 0) (seq 0 K) = v.
Proof.
  intros Ha. rewrite (xsum_single _ _ a); [by rewrite Nat.eqb_refl|apply seq_NoDup|apply in_seq; lia|].
  intros j _ Hj. by rewrite (proj2 (Nat.eqb_neq j a)).
Qed.

Lemma pivot_found c M : reduced c M -> (c < K)%nat -> (pivot (K - c) c c M < K)%nat.
Proof.
  intros H Hc. destruct (pivot_spec (K - c) c c M _ eq_refl) as (Hq & _ & Hz).
  destruct (Nat.eq_dec (pivot (K - c) c c M) K) as [Eq|]; [exfalso|lia]. rewrite Eq in Hz.
  assert (vec (no_pivot c M)) as Hv.
  { split; [unfold no_pivot; by rewrite length_fmap, length_seq|]. apply List.Forall_forall.
    intros z (j & <- & Hj)%in_map_iff. apply in_seq in Hj. destruct (j <? c)%nat; [|destruct (j =? c)%nat; ulia].
    apply nth_u8. apply (rd_vec _ _ H). lia. }
  assert (nth c (no_pivot c M) 0 = 0) as E.
  { apply Hinj; [done| |done]. apply (rd_kernel _ _ H _ Hv). intros r Hr. unfold dot.
    rewrite (xsum_ext _ (fun j => Z.lxor (if (j =? r)%nat then if (r <? c)%nat then entry M r c else 0 else 0)
      (if (j =? c)%nat then entry M r c else 0))).
    - rewrite xsum_xor, !xsum_at by done. destruct (Nat.ltb_spec r c); [apply Z.lxor_nilpotent|].
      by rewrite Hz by lia.
    - intros j Hj%in_seq. rewrite nth_no_pivot by lia. fold (entry M r j).
      assert (in_u8 (entry M j c)) by (apply nth_u8, (rd_vec _ _ H); lia).
      destruct (Nat.ltb_spec j c).
      + rewrite (rd_unit _ _ H) by lia. rewrite (proj2 (Nat.eqb_neq j c)), Z.lxor_0_r by lia.
        rewrite (Nat.eqb_sym r j). destruct (Nat.eqb_spec j r) as [<-|]; [|done].
        rewrite (proj2 (Nat.ltb_lt j c)) by done. by apply gf_mul_1_l.
      + destruct (Nat.eqb_spec j c) as [->|].
        * rewrite (gf_mul_comm _ 1), gf_mul_1_l by (apply nth_u8, (rd_vec _ _ H); lia).
          destruct (Nat.eqb_spec c r) as [<-|]; [rewrite Nat.ltb_irrefl|]; by rewrite Z.lxor_0_l.
        * rewrite gf_mul_0_r. destruct (Nat.eqb_spec j r) as [<-|]; [|done].
          by rewrite (proj2 (Nat.ltb_ge j c)). }
  rewrite nth_no_pivot in E by done. rewrite Nat.ltb_irrefl, Nat.eqb_refl in E. done.
Qed.

Lemma gauss_total n : forall c M, (c + n = K)%nat -> reduced c M ->
  exists M', gauss n c K M = Some M' /\ reduced K M'.
Proof.
  induction n as [|n IH]; intros c M Hn H; cbn [gauss].
  { exists M. split; [done|]. by replace K with c by lia. }
  pose proof (pivot_found c M H ltac:(lia)) as Hp.
  destruct (pivot_spec (K - c) c c M _ eq_refl) as (Hq & Hnz & _).
  rewrite (proj2 (Nat.eqb_neq _ _)) by lia. specialize (Hnz ltac:(lia)).
  set (p := pivot (K - c) c c M) in *. clearbody p. pose proof (reduced_swap c M p H ltac:(lia)) as H1.
  set (M1 := swap_rows M p c) in *.
  assert (entry M1 c c <> 0) as Hnz1.
  { unfold M1, swap_rows, entry. pose proof (rd_len _ _ H). destruct (Nat.eqb_spec p c) as [->|]; [done|].
    cbn [negb]. rewrite nth_list_insert by (rewrite length_insert; lia). by rewrite Nat.eqb_refl. }
  apply IH; [lia|]. apply reduced_clear; [|lia|].
  - apply reduced_scale; [done|lia|apply gf_inv_range].
  - unfold entry. rewrite nth_list_insert by (rewrite (rd_len _ _ H1); lia). rewrite Nat.eqb_refl.
    cbn [scale_row fst]. rewrite nth_scale. fold (entry M1 c c). by apply gf_inv_r.
Qed.

(** The rows of the inverse rebuild a vector from its image. *)
Lemma reduced_inverts M r d : reduced K M -> (r < K)%nat -> vec d ->
  dot (snd (nth r M no_row)) (image d) = nth r d 0.
Proof.
  intros H Hr Hd. rewrite <- (rd_tracks _ _ H) by done. apply dot_unit; [done..|].
  intros j Hj. by apply (rd_unit _ _ H).
Qed.

(** The identity beside the rows to invert. *)
Lemma reduced_start M :
  length M = K ->
  (forall r, (r < K)%nat -> vec (fst (nth r M no_row)) /\ vec (snd (nth r M no_row)) /\
    fst (nth r M no_row) = nth r A [] /\
    forall j, (j < K)%nat -> nth j (snd (nth r M no_row)) 0 = if (r =? j)%nat then 1 else 0) ->
  reduced 0 M.
Proof.
  intros Hl Hrow. split; [done| | | |lia].
  - intros r Hr. destruct (Hrow r Hr) as (? & ? & _). done.
  - intros r d Hr Hd. destruct (Hrow r Hr) as (_ & _ & -> & Hu).
    assert (vec (image d)) as Hi.
    { split; [unfold image; by rewrite length_fmap|]. apply List.Forall_forall.
      intros z (a & <- & _)%in_map_iff. apply dot_range. }
    rewrite (dot_unit _ (image d) r) by done. unfold image.
    destruct (lookup_lt_is_Some_2 A r ltac:(lia)) as [a E].
    rewrite !list.nth_lookup, list_lookup_fmap, E. done.
  - intros d Hd Hz a (i & Hi & <-)%(In_nth _ _ []).
    destruct (Hrow i ltac:(lia)) as (_ & _ & <- & _). apply Hz. lia.
Qed.
End Elimination.

(** ** The generator's rows *)

Section Generator.
Context (k m : Z).
Hypothesis Hk : 0 < k.
Hypothesis Hm : 0 < m.
Hypothesis Hkm : k + m <= FZN_ERASURE_PIECES_MAX.
Notation K := (Z.to_nat k).

Definition gen_row (i : Z) : bytes := generator k i <$> below k.

Lemma length_below n : length (below n) = Z.to_nat n.
Proof. unfold below. by rewrite length_fmap, length_seq. Qed.

Lemma nth_map_below {A} (f : Z -> A) n j (x : A) : (j < Z.to_nat n)%nat -> nth j (f <$> below n) x = f (Z.of_nat j).
Proof.
  intros Hj. unfold below. rewrite list.nth_lookup, !list_lookup_fmap, lookup_seq_lt by done. done.
Qed.

Lemma in_below n i : In i (below n) <-> 0 <= i < n.
Proof.
  split; [|apply below_in]. intros (j & <- & Hj)%in_map_iff. apply in_seq in Hj. lia.
Qed.

Lemma below_nodup n : List.NoDup (below n).
Proof. apply NoDup_map_NoDup_ForallPairs; [intros a b _ _; lia|apply seq_NoDup]. Qed.

Lemma generator_range i c : in_u8 (generator k i c).
Proof. unfold generator. destruct (_ <? _); [destruct (_ =? _); ulia|apply gf_inv_range]. Qed.

Lemma gen_row_vec i : vec K (gen_row i).
Proof.
  split; [unfold gen_row; by rewrite length_fmap, length_below|]. apply List.Forall_forall.
  intros z (c & <- & _)%in_map_iff. apply generator_range.
Qed.

Lemma dot_gen_row i d : dot K (gen_row i) d = xsum (fun c => gf_mul (generator k i c) (nth (Z.to_nat c) d 0)) (below k).
Proof.
  unfold dot, below, xsum. rewrite foldr_fmap. apply (xsum_ext _ _ (seq 0 K)). intros j Hj%in_seq.
  unfold gen_row. rewrite nth_map_below by lia. by rewrite Nat2Z.id.
Qed.

Lemma dot_data_row i d : vec K d -> 0 <= i < k -> dot K (gen_row i) d = nth (Z.to_nat i) d 0.
Proof.
  intros Hd Hi. apply dot_unit; [done|lia|]. intros j Hj. unfold gen_row. rewrite nth_map_below by done.
  unfold generator. destruct (Z.ltb_spec i k); [|lia].
  destruct (Z.eqb_spec i (Z.of_nat j)), (Nat.eqb_spec (Z.to_nat i) j); lia || done.
Qed.

(** Among [below k], those a list of distinct indices names are as many as
    its entries below [k]. *)
Lemma named_count (rows : list Z) : List.NoDup rows -> Forall (fun i => 0 <= i) rows ->
  length (List.filter (fun c => existsb (Z.eqb c) rows) (below k)) = length (List.filter (fun i => i <? k) rows).
Proof.
  intros Hn Hr. rewrite List.Forall_forall in Hr. apply Permutation_length, Permutation.NoDup_Permutation.
  - apply List.NoDup_filter, below_nodup.
  - by apply List.NoDup_filter.
  - intros c. rewrite !filter_In, in_below, existsb_exists. split.
    + intros (Hc & i & Hi & E%Z.eqb_eq). subst. split; [done|lia].
    + intros [Hc Hlt]. split; [specialize (Hr c Hc); lia|]. exists c. split; [done|apply Z.eqb_refl].
Qed.

(** Any [k] distinct rows are independent. *)
Lemma rows_independent (rows : list Z) d :
  List.NoDup rows -> Forall (fun i => 0 <= i < k + m) rows -> length rows = K -> vec K d ->
  (forall i, In i rows -> dot K (gen_row i) d = 0) -> forall j, (j < K)%nat -> nth j d 0 = 0.
Proof.
  intros Hn Hr Hl Hd Hz j Hj. unfold FZN_ERASURE_PIECES_MAX in Hkm.
  pose proof Hr as Hr'. rewrite List.Forall_forall in Hr'.
  set (v := fun c => nth (Z.to_nat c) d 0). assert (forall c, in_u8 (v c)) as Rv by (intros; by apply nth_u8, Hd).
  assert (forall c, In c rows -> c < k -> v c = 0) as Hdata.
  { intros c Hc Hlt. unfold v. rewrite <- dot_data_row; [by apply Hz|done|specialize (Hr' c Hc); lia]. }
  set (Y := List.filter (fun c => negb (existsb (Z.eqb c) rows)) (below k)).
  set (X := List.filter (fun i => negb (i <? k)) rows).
  assert (forall y, In y Y -> v y = 0) as HY.
  { apply (cauchy_kernel X Y v); try done.
    - apply List.Forall_forall. intros x [Hx _]%filter_In. specialize (Hr' x Hx). ulia.
    - apply List.Forall_forall. intros y [Hy _]%filter_In. apply in_below in Hy. ulia.
    - by apply List.NoDup_filter.
    - apply List.NoDup_filter, below_nodup.
    - intros x y [_ Hx]%filter_In [Hy _]%filter_In. apply in_below in Hy. lia.
    - pose proof (filter_length (fun i => i <? k) rows).
      pose proof (filter_length (fun c => existsb (Z.eqb c) rows) (below k)).
      assert (length (below k) = K) by apply length_below.
      rewrite named_count in * by (done || (eapply list.Forall_impl; [exact Hr|]; cbn; lia)).
      unfold X, Y. lia.
    - intros x [Hx Hxk]%filter_In. specialize (Hz x Hx). rewrite dot_gen_row in Hz.
      rewrite (xsum_filter (fun c => negb (existsb (Z.eqb c) rows))) in Hz.
      + rewrite <- Hz. apply xsum_ext. intros y [Hy _]%filter_In. apply in_below in Hy.
        unfold generator. destruct (Z.ltb_spec x k); [done|]. specialize (Hr' x Hx).
        rewrite u8_small; [done|]. apply lxor_u8; ulia.
      + intros c Hc%in_below (c' & Hc' & <-%Z.eqb_eq)%negb_false_iff%existsb_exists.
        fold (v c). rewrite Hdata by lia || done. apply gf_mul_0_r. }
  replace (nth j d 0) with (v (Z.of_nat j)) by (unfold v; by rewrite Nat2Z.id).
  destruct (existsb (Z.eqb (Z.of_nat j)) rows) eqn:Ex.
  - apply existsb_exists in Ex as (c & Hc & <-%Z.eqb_eq). apply Hdata; [done|lia].
  - apply HY, filter_In. split; [apply in_below; lia|by rewrite Ex].
Qed.
End Generator.

(** ** The pieces *)

Lemma below_succ (n : nat) : below (Z.of_nat (S n)) = below (Z.of_nat n) ++ [Z.of_nat n].
Proof. unfold below. rewrite !Nat2Z.id, seq_S, fmap_app. done. Qed.

Lemma nth_add_fold (g : Z -> Z) (piece : Z -> bytes) n l : forall acc b,
  length acc = n -> (forall c, In c l -> length (piece c) = n) ->
  length (fold_left (fun p c => add_piece (g c) p (piece c)) l acc) = n /\
  nth b (fold_left (fun p c => add_piece (g c) p (piece c)) l acc) 0
  = Z.lxor (nth b acc 0) (xsum (fun c => gf_mul (g c) (nth b (piece c) 0)) l).
Proof.
  induction l as [|c l IH]; intros acc b Hacc Hp; cbn [fold_left].
  { by rewrite Z.lxor_0_r. }
  assert (length (piece c) = n) as Hc by (apply Hp; by left).
  destruct (IH (add_piece (g c) acc (piece c)) b) as [Hl ->];
    [rewrite length_add_piece; lia|intros; apply Hp; by right|].
  split; [done|]. rewrite nth_add_piece by lia. unfold xsum. cbn [foldr].
  fold (xsum (fun c => gf_mul (g c) (nth b (piece c) 0)) l). xor_solve.
Qed.

Lemma dot_zip (x d : bytes) : length x = length d ->
  dot (length x) x d = foldr (fun fp acc => Z.lxor (gf_mul (fst fp) (snd fp)) acc) 0 (zip x d).
Proof.
  revert d. induction x as [|a x IH]; intros [|b d] Hl; try done. injection Hl as Hl.
  unfold dot. cbn [length seq zip zip_with foldr fst snd]. unfold xsum. cbn [foldr nth]. f_equal.
  rewrite <- (IH d Hl). unfold dot, xsum. rewrite <- seq_shift, foldr_fmap. done.
Qed.

Lemma rebuilt_dot (x : bytes) (held : list bytes) b : length x = length held ->
  rebuilt_byte x held b = dot (length x) x ((fun p => peek p b) <$> held).
Proof.
  intros Hl. rewrite dot_zip by (by rewrite length_fmap). unfold rebuilt_byte.
  assert (forall acc, fold_left (fun v fp => Z.lxor v (gf_mul (fst fp) (peek (snd fp) b))) (zip x held) acc
    = Z.lxor acc (foldr (fun fp acc => Z.lxor (gf_mul (fst fp) (snd fp)) acc) 0
        (zip x ((fun p => peek p b) <$> held)))) as E; [|by rewrite E, Z.lxor_0_l].
  revert held Hl. induction x as [|a x IH]; intros [|p held] Hl acc; try done; [cbn; by rewrite Z.lxor_0_r..|].
  injection Hl as Hl. cbn [fmap list_fmap zip zip_with fold_left foldr fst snd]. rewrite IH by done. xor_solve.
Qed.

Lemma slice_blit_low {A} (l src : list A) off o n :
  0 <= o -> 0 <= n -> o + n <= off -> off + zlen src <= zlen l -> slice o n (blit off src l) = slice o n l.
Proof. intros. apply slice_blit_disjoint; lia. Qed.

Lemma nth_zeros b n : nth b (zeros n) 0 = 0.
Proof. unfold zeros. revert b. induction (Z.to_nat n) as [|x IH]; intros [|b]; cbn; auto. Qed.

Section Codec.
Context (k m : Z) (data buf : bytes).
Hypothesis Hk : 0 < k.
Hypothesis Hm : 0 < m.
Hypothesis Hkm : k + m <= FZN_ERASURE_PIECES_MAX.
Hypothesis Hdata : Forall in_u8 data.
Notation K := (Z.to_nat k).
Notation len := (zlen data).
Notation plen := (fzn_erasure_piece_len (zlen data) k).
Hypothesis Hlen : 0 < len.
Hypothesis Hbuf : (k + m) * plen <= zlen buf.

Lemma plen_bounds : 0 < plen /\ len <= k * plen.
Proof.
  unfold fzn_erasure_piece_len. destruct (Z.eqb_spec k 0), (Z.eqb_spec (zlen data) 0); try lia. cbn [orb].
  pose proof (Z.div_mod (zlen data) k ltac:(lia)). pose proof (Z.mod_pos_bound (zlen data) k ltac:(lia)).
  pose proof (Z.div_pos (zlen data) k ltac:(lia) ltac:(lia)).
  destruct (Z.eqb_spec (zlen data mod k) 0); cbn [negb]; nia.
Qed.

Lemma shape_holds : shape_ok k m len = true.
Proof.
  unfold shape_ok, FZN_ERASURE_PIECES_MAX in *. rewrite u32_small by ulia.
  destruct (Z.eqb_spec k 0), (Z.eqb_spec m 0), (Z.eqb_spec (zlen data) 0), (Z.leb_spec (k + m) 32); lia || done.
Qed.

(** The buffer with the data in place, and with the first [n] parities. *)
Definition laid : bytes := blit 0 data (blit 0 (zeros (k * plen)) buf).
Definition coded (n : nat) : bytes :=
  fold_left (fun pieces j => blit ((k + j) * plen) (parity_of k plen pieces j) pieces) (below (Z.of_nat n)) laid.

Lemma zlen_laid : zlen laid = zlen buf.
Proof.
  pose proof plen_bounds. unfold laid.
  assert (zlen (blit 0 (zeros (k * plen)) buf) = zlen buf) as E
    by (apply zlen_blit; rewrite ?zlen_zeros; nia).
  rewrite zlen_blit; rewrite ?E; nia.
Qed.

Lemma laid_range : Forall in_u8 (slice 0 (k * plen) laid).
Proof.
  pose proof plen_bounds. unfold laid.
  assert (zlen (blit 0 (zeros (k * plen)) buf) = zlen buf) as E
    by (apply zlen_blit; rewrite ?zlen_zeros; nia).
  apply Forall_lookup. intros i x. rewrite lookup_slice by nia. case_bool_decide as Hi; [|done].
  rewrite lookup_blit by (rewrite ?E; nia). case_bool_decide.
  - rewrite Forall_lookup in Hdata. apply Hdata.
  - rewrite lookup_blit by (rewrite ?zlen_zeros; nia). rewrite bool_decide_eq_true_2 by (rewrite zlen_zeros; nia).
    intros Hx. pose proof (zeros_range (k * plen)) as Hz. rewrite Forall_lookup in Hz. by eapply Hz.
Qed.

(** A piece of what lies below the parities. *)
Lemma piece_of (p q : bytes) c : 0 <= c < k -> zlen p = zlen buf ->
  slice 0 (k * plen) p = slice 0 (k * plen) q -> slice (c * plen) plen p = slice (c * plen) plen q.
Proof.
  pose proof plen_bounds. intros Hc Hp E.
  replace (c * plen) with (0 + c * plen) by lia.
  rewrite <- (slice_slice 0 (k * plen) (c * plen) plen p) by nia.
  rewrite <- (slice_slice 0 (k * plen) (c * plen) plen q) by nia. by rewrite E.
Qed.

Lemma zlen_coded_piece (p : bytes) c : 0 <= c < k + m -> zlen p = zlen buf -> length (slice (c * plen) plen p) = Z.to_nat plen.
Proof.
  pose proof plen_bounds. intros Hc Hp. pose proof (zlen_slice (c * plen) plen p) as E. unfold zlen in *. nia.
Qed.

Lemma parity_same (p q : bytes) j : zlen p = zlen buf -> slice 0 (k * plen) p = slice 0 (k * plen) q ->
  parity_of k plen p j = parity_of k plen q j.
Proof.
  intros Hp E. unfold parity_of. generalize (zeros plen).
  assert (forall c, In c (below k) -> 0 <= c < k) as Hb by (intros c; apply in_below).
  revert Hb. induction (below k) as [|c l IH]; intros Hb acc; cbn [fold_left]; [done|].
  rewrite (piece_of p q c) by (done || (apply Hb; by left)). apply IH. intros; apply Hb. by right.
Qed.

Lemma parity_spec (p : bytes) j b : zlen p = zlen buf -> (b < Z.to_nat plen)%nat ->
  length (parity_of k plen p j) = Z.to_nat plen /\
  nth b (parity_of k plen p j) 0
  = xsum (fun c => gf_mul (generator k (k + j) c) (nth b (slice (c * plen) plen p) 0)) (below k).
Proof.
  intros Hp Hb. unfold parity_of.
  destruct (nth_add_fold (generator k (k + j)) (fun c => slice (c * plen) plen p) (Z.to_nat plen) (below k)
    (zeros plen) b) as [Hl E].
  - unfold zeros. by rewrite length_replicate.
  - intros c Hc%in_below. apply zlen_coded_piece; [lia|done].
  - split; [exact Hl|]. rewrite E. by rewrite nth_zeros, Z.lxor_0_l.
Qed.

(** After [n] parities: the data as laid out, and each parity where it goes. *)
Lemma coded_spec (n : nat) : Z.of_nat n <= m ->
  zlen (coded n) = zlen buf /\ slice 0 (k * plen) (coded n) = slice 0 (k * plen) laid /\
  forall j, 0 <= j < Z.of_nat n -> slice ((k + j) * plen) plen (coded n) = parity_of k plen laid j.
Proof.
  pose proof plen_bounds as [Hp Hkp]. induction n as [|n IH]; intros Hn.
  { split_and!; [apply zlen_laid|done|lia]. }
  destruct IH as (Hz & H0 & Hj); [lia|]. unfold coded. rewrite below_succ, fold_left_app. cbn [fold_left].
  fold (coded n). rewrite (parity_same (coded n) laid) by done.
  destruct (parity_spec laid (Z.of_nat n) 0 zlen_laid ltac:(lia)) as [Hl _].
  assert (zlen (parity_of k plen laid (Z.of_nat n)) = plen) as Hzl by (unfold zlen at 1; lia).
  split_and!.
  - rewrite zlen_blit; [done|nia|]. rewrite Hz, Hzl. nia.
  - rewrite slice_blit_low; [done|nia..|]. rewrite Hz, Hzl. nia.
  - intros j Hjn. destruct (Z.eq_dec j (Z.of_nat n)) as [->|Hne].
    + pose proof (slice_blit_same ((k + Z.of_nat n) * plen) (parity_of k plen laid (Z.of_nat n)) (coded n)) as E.
      rewrite Hz, Hzl in E. apply E; nia.
    + rewrite slice_blit_low; [apply Hj; lia|nia..|]. rewrite Hz, Hzl. nia.
Qed.

(** The bytes at offset [b] of the data pieces. *)
Definition column (b : Z) : bytes := (fun c => peek laid (c * plen + b)) <$> below k.

Lemma column_vec b : 0 <= b < plen -> vec K (column b).
Proof.
  pose proof plen_bounds. intros Hb. unfold column. split; [by rewrite length_fmap, length_below|].
  apply List.Forall_forall. intros z (c & <- & Hc)%in_map_iff. apply in_below in Hc.
  replace (c * plen + b) with (0 + (c * plen + b)) by lia. rewrite <- peek_slice with (len := k * plen) by nia.
  apply peek_range, laid_range.
Qed.

(** Byte [b] of piece [i] is row [i] of the generator over that column. *)
Lemma piece_byte i b : 0 <= i < k + m -> 0 <= b < plen ->
  peek (slice (i * plen) plen (coded (Z.to_nat m))) b = dot K (gen_row k i) (column b).
Proof.
  pose proof plen_bounds. intros Hi Hb. destruct (coded_spec (Z.to_nat m) ltac:(lia)) as (Hz & H0 & Hj).
  destruct (Z.lt_ge_cases i k) as [Hik|Hik].
  - rewrite (piece_of (coded (Z.to_nat m)) laid i) by (done || lia).
    rewrite dot_data_row by (try apply column_vec; lia). unfold column.
    rewrite nth_map_below, Z2Nat.id, peek_slice by nia. done.
  - replace i with (k + (i - k)) by lia. rewrite Hj by lia. unfold peek at 1.
    destruct (parity_spec laid (i - k) (Z.to_nat b) zlen_laid ltac:(lia)) as [_ ->].
    rewrite dot_gen_row. apply xsum_ext. intros c Hc%in_below. f_equal. unfold column.
    rewrite nth_map_below, Z2Nat.id by lia.
    fold (peek (slice (c * plen) plen laid) b). rewrite peek_slice by nia. done.
Qed.

Definition is_held (p : option bytes) : bool := match p with Some _ => true | None => false end.

(** The rows of the pieces held. *)
Lemma held_rows_spec (ps : list (option bytes)) : forall i n,
  let rows := held_rows ps i n in
  List.NoDup rows /\
  Forall (fun r => i <= r /\ exists p, ps !! Z.to_nat (r - i) = Some (Some p)) rows /\
  length rows = Nat.min n (length (List.filter is_held ps)).
Proof.
  induction ps as [|[p|] ps IH]; intros i n; cbn zeta.
  - destruct n; cbn; split_and!; constructor.
  - destruct n as [|n]; [cbn; split_and!; constructor|]. cbn [held_rows List.filter is_held length].
    destruct (IH (i + 1) n) as (Hn & Hf & Hl). rewrite List.Forall_forall in Hf. split_and!.
    + constructor; [|done]. intros Hin. specialize (Hf i Hin). lia.
    + apply List.Forall_forall. intros r [<-|Hr]; [split; [lia|exists p; by rewrite Z.sub_diag]|].
      destruct (Hf r Hr) as (Hle & q & Hq). split; [lia|]. exists q.
      replace (Z.to_nat (r - i)) with (S (Z.to_nat (r - (i + 1)))) by lia. done.
    + by rewrite Hl.
  - destruct n as [|n]; [cbn; split_and!; constructor|]. cbn [held_rows List.filter is_held].
    destruct (IH (i + 1) (S n)) as (Hn & Hf & Hl). split_and!; [done| |done].
    eapply list.Forall_impl; [exact Hf|]. intros r (Hle & q & Hq). split; [lia|]. exists q.
    replace (Z.to_nat (r - i)) with (S (Z.to_nat (r - (i + 1)))) by lia. done.
Qed.

Section Held.
Context (rows : list Z).
Hypothesis Hnd : List.NoDup rows.
Hypothesis Hrange : Forall (fun i => 0 <= i < k + m) rows.
Hypothesis Hcount : length rows = K.
Notation held := ((fun i => slice (i * plen) plen (coded (Z.to_nat m))) <$> rows).
Notation A := (gen_row k <$> rows).

Definition start : list row2 :=
  imap (fun r row => (generator k row <$> below k, (fun c => if Z.of_nat r =? c then 1 else 0) <$> below k)) rows.

Lemma start_reduced : reduced K A 0 start.
Proof.
  apply reduced_start.
  - by rewrite length_fmap.
  - unfold start. by rewrite length_imap.
  - intros r Hr. destruct (lookup_lt_is_Some_2 rows r ltac:(lia)) as [i E].
    assert (nth r start no_row = (gen_row k i, (fun c => if Z.of_nat r =? c then 1 else 0) <$> below k)) as ->.
    { unfold start. rewrite list.nth_lookup, list_lookup_imap, E. done. }
    cbn [fst snd]. split_and!.
    + apply gen_row_vec.
    + split; [by rewrite length_fmap, length_below|]. apply List.Forall_forall.
      intros z (c & <- & _)%in_map_iff. destruct (_ =? c); ulia.
    + rewrite list.nth_lookup, list_lookup_fmap, E. done.
    + intros j Hj. rewrite nth_map_below by done.
      destruct (Z.eqb_spec (Z.of_nat r) (Z.of_nat j)), (Nat.eqb_spec r j); lia || done.
Qed.

Lemma elimination_succeeds : exists M, gauss K 0 K start = Some M /\ reduced K A K M.
Proof.
  apply (gauss_total K A); [by rewrite length_fmap| |done|apply start_reduced].
  intros d Hd Hz. apply (rows_independent k m Hk Hm Hkm rows); try done.
  intros i Hi. apply Hz. by apply in_map.
Qed.

Lemma held_image b : 0 <= b < plen -> (fun p => peek p b) <$> held = image K A (column b).
Proof.
  intros Hb. unfold image. rewrite <- !list_fmap_compose. apply map_ext_in. intros i Hi.
  rewrite List.Forall_forall in Hrange. cbn. apply piece_byte; [by apply Hrange|done].
Qed.

Lemma rebuilt M r b : reduced K A K M -> (r < K)%nat -> 0 <= b < plen ->
  rebuilt_byte (snd (nth r M no_row)) held b = peek laid (Z.of_nat r * plen + b).
Proof.
  intros H Hr Hb. destruct (rd_vec _ _ _ _ H r Hr) as [_ [Hl _]].
  rewrite rebuilt_dot by (by rewrite length_fmap, Hl). rewrite Hl, held_image by done.
  rewrite (reduced_inverts K A M) by (done || by apply column_vec).
  unfold column. by rewrite nth_map_below.
Qed.

(** What the data piece [r] holds of the data. *)
Lemma rebuilt_run M r want : reduced K A K M -> (r < K)%nat -> 0 <= want <= plen ->
  Z.of_nat r * plen + want <= len ->
  rebuilt_byte (snd (nth r M no_row)) held <$> below want = slice (Z.of_nat r * plen) want data.
Proof.
  pose proof plen_bounds. intros H0 Hr Hw Hle. apply list_eq. intros b.
  rewrite list_lookup_fmap, lookup_slice by nia. case_bool_decide as Hb.
  - unfold below. rewrite list_lookup_fmap, lookup_seq_lt by lia. cbn [fmap option_fmap option_map].
    rewrite rebuilt by (done || lia). unfold laid. rewrite peek_blit; [|lia| |nia].
    2: { rewrite zlen_blit; rewrite ?zlen_zeros; nia. }
    destruct (Z.leb_spec 0 (Z.of_nat r * plen + Z.of_nat (0 + b))); [|nia].
    destruct (Z.ltb_spec (Z.of_nat r * plen + Z.of_nat (0 + b)) (0 + len)); [|lia]. cbn [andb].
    destruct (lookup_lt_is_Some_2 data (Z.to_nat (Z.of_nat r * plen) + b)%nat) as [x Hx];
      [assert (len = Z.of_nat (length data)) by done; nia|].
    unfold peek. rewrite list.nth_lookup.
    replace (Z.to_nat (Z.of_nat r * plen + Z.of_nat (0 + b) - 0)) with (Z.to_nat (Z.of_nat r * plen) + b)%nat by nia.
    by rewrite Hx.
  - unfold below. rewrite list_lookup_fmap, lookup_seq_ge by lia. done.
Qed.
End Held.

Lemma blit_blit {A} (l x y : list A) off :
  0 <= off -> off + zlen x + zlen y <= zlen l -> blit (off + zlen x) y (blit off x l) = blit off (x ++ y) l.
Proof.
  intros Ho Hl. apply list_eq. intros i. pose proof (zlen_nonneg x). pose proof (zlen_nonneg y).
  rewrite !lookup_blit; rewrite ?zlen_blit, ?zlen_app; try lia.
  repeat case_bool_decide; try lia; try done.
  - rewrite lookup_app_r by (unfold zlen in *; lia). f_equal. unfold zlen in *. lia.
  - rewrite lookup_app_l by (unfold zlen in *; lia). done.
Qed.

Lemma blit_nothing {A} (l l' : list A) off o : blit off (slice o 0 l') l = l.
Proof.
  unfold slice. change (Z.to_nat 0) with 0%nat. rewrite take_0. unfold blit. cbn [app length].
  by rewrite Nat.add_0_r, take_drop.
Qed.

Lemma write_rows_spec M hl (r n : nat) : forall out,
  (r + n = K)%nat -> length M = K -> len <= zlen out ->
  (forall r want, (r < K)%nat -> 0 <= want <= plen -> Z.of_nat r * plen + want <= len ->
    rebuilt_byte (snd (nth r M no_row)) hl <$> below want = slice (Z.of_nat r * plen) want data) ->
  let done := Z.min (Z.of_nat r * plen) len in
  write_rows (drop r M) hl len plen done out = blit done (slice done (len - done) data) out.
Proof.
  pose proof plen_bounds as [Hp Hkp]. revert r. induction n as [|n IH]; intros r out Hn HM Ho Hb; cbn zeta.
  - rewrite drop_ge by lia. replace (Z.min (Z.of_nat r * plen) len) with len by nia.
    cbn [write_rows]. by rewrite Z.sub_diag, blit_nothing.
  - destruct (lookup_lt_is_Some_2 M r ltac:(lia)) as [row E].
    rewrite (drop_S _ _ _ E). cbn [write_rows].
    assert (nth r M no_row = row) as Hrow by (rewrite list.nth_lookup, E; done).
    destruct (Z.ltb_spec (Z.min (Z.of_nat r * plen) len) len) as [Hlt|Hge].
    + replace (Z.min (Z.of_nat r * plen) len) with (Z.of_nat r * plen) in * by lia. cbv zeta.
      set (want := if len - Z.of_nat r * plen <? plen then len - Z.of_nat r * plen else plen).
      assert (0 <= want <= plen /\ want = Z.min plen (len - Z.of_nat r * plen)) as [Hw Ew]
        by (unfold want; destruct (Z.ltb_spec (len - Z.of_nat r * plen) plen); lia).
      clearbody want. rewrite <- Hrow, Hb by lia.
      replace (Z.of_nat r * plen + want) with (Z.min (Z.of_nat (S r) * plen) len) by lia.
      assert (zlen (slice (Z.of_nat r * plen) want data) = want) as Hz by (apply zlen_slice; nia).
      rewrite IH; [|lia|done|rewrite zlen_blit; [done|nia|rewrite Hz; lia]|done].
      replace (Z.min (Z.of_nat (S r) * plen) len) with
        (Z.of_nat r * plen + zlen (slice (Z.of_nat r * plen) want data)) by lia.
      rewrite blit_blit; [|nia|].
      * rewrite Hz, slice_app by nia. repeat f_equal. lia.
      * rewrite Hz, zlen_slice by nia. lia.
    + replace (Z.min (Z.of_nat r * plen) len) with len by lia.
      by rewrite Z.sub_diag, blit_nothing.
Qed.
End Codec.

(** C11: any k pieces rebuild the buffer. For any data, cut into k data pieces
    and coded into m parity pieces, k + m at most 32, into a buffer that holds
    them: encoding succeeds, the data pieces are the data, and decoding from
    whatever subset of the pieces is held, data, parity or both, gives back
    the data exactly when k of them or more are held, and otherwise answers
    TOO_FEW and writes nothing; the elimination never fails. *)
Theorem any_k_pieces_rebuild k m data buf :
  0 < k -> 0 < m -> k + m <= FZN_ERASURE_PIECES_MAX -> Forall in_u8 data -> 0 < zlen data ->
  let plen := fzn_erasure_piece_len (zlen data) k in
  (k + m) * plen <= zlen buf ->
  exists code, fzn_erasure_encode k m (Some data) (Some buf) = (FZN_ERASURE_OK, Some code) /\
    slice 0 (zlen data) code = data /\
    forall pieces out, zlen pieces = k + m -> zlen data <= zlen out ->
      (forall i p, pieces !! i = Some (Some p) -> p = slice (Z.of_nat i * plen) plen code) ->
      fzn_erasure_decode k m (Some pieces) (zlen data) (Some out)
      = if zlen (List.filter is_held pieces) <? k then (FZN_ERASURE_ERR_TOO_FEW, Some out)
        else (FZN_ERASURE_OK, Some (blit 0 data out)).
Proof.
  intros Hk Hm Hkm Hd Hl plen Hbuf. pose proof (plen_bounds k data Hk Hl) as Hp. fold plen in Hp.
  pose proof (shape_holds k m data Hk Hm Hkm Hl) as Hs.
  destruct (coded_spec k m data buf Hk Hm Hkm Hl Hbuf (Z.to_nat m) ltac:(lia)) as (Hz & H0 & _).
  exists (coded k data buf (Z.to_nat m)). split_and!.
  - unfold fzn_erasure_encode, coded, laid. rewrite Hs, Z2Nat.id by lia. done.
  - replace 0 with (0 + 0) by done. rewrite <- (slice_slice 0 (k * plen)) by lia. unfold plen. rewrite H0.
    rewrite slice_slice by (fold plen; lia). unfold laid.
    apply slice_blit_same; [lia|]. rewrite zlen_blit; rewrite ?zlen_zeros; fold plen; nia.
  - intros pieces out Hpz Ho Hpc. unfold fzn_erasure_decode. rewrite Hs. cbn [negb].
    rewrite u32_small by (unfold FZN_ERASURE_PIECES_MAX in *; ulia).
    rewrite take_ge by (unfold zlen in Hpz; lia).
    destruct (held_rows_spec pieces 0 (Z.to_nat k)) as (Hn & Hf & Hlen).
    set (rows := held_rows pieces 0 (Z.to_nat k)) in *. clearbody rows.
    destruct (Z.ltb_spec (zlen rows) k) as [Hlt|Hge];
      destruct (Z.ltb_spec (zlen (List.filter is_held pieces)) k) as [Hlt'|Hge']; try done;
      try (unfold zlen in *; lia).
    assert (length rows = Z.to_nat k) as Hcount by (unfold zlen in *; lia).
    assert (Forall (fun i => 0 <= i < k + m) rows) as Hrange.
    { eapply list.Forall_impl; [exact Hf|]. intros i (Hi & p & Hip). apply lookup_lt_Some in Hip.
      unfold zlen in Hpz. lia. }
    destruct (elimination_succeeds k m Hk Hm Hkm rows Hn Hrange Hcount) as (M & Hg & HM).
    unfold start in Hg. rewrite Hg. do 2 f_equal.
    assert ((fun i => default [] (default None (pieces !! Z.to_nat i))) <$> rows
      = (fun i => slice (i * plen) plen (coded k data buf (Z.to_nat m))) <$> rows) as ->.
    { apply map_ext_in. intros i Hi. rewrite List.Forall_forall in Hf. destruct (Hf i Hi) as (Hi0 & p & Hip).
      rewrite Z.sub_0_r in Hip. rewrite Hip. cbn. rewrite (Hpc _ _ Hip), Z2Nat.id by lia. done. }
    pose proof (write_rows_spec k m data buf Hk Hm Hl Hbuf M
      ((fun i => slice (i * plen) plen (coded k data buf (Z.to_nat m))) <$> rows) 0 (Z.to_nat k) out
      ltac:(lia) (rd_len _ _ _ _ HM) Ho) as Hw.
    cbn zeta in Hw. rewrite Z.min_l in Hw by lia. fold plen in Hw. rewrite drop_0 in Hw.
    change (Z.of_nat 0 * plen) with 0 in Hw. fold plen. rewrite Hw; [by rewrite Z.sub_0_r, slice_all by lia|].
    intros r want Hr Hwa Hle. by apply (rebuilt_run k m data buf Hk Hm Hkm Hd Hl Hbuf rows).
Qed.

(** The guard wraps. Whatever the length of the data, the largest k the
    type holds, with m = 1, is a shape the guard accepts, though it names far
    more pieces than the 32 the encoder is limited to; a buffer of 32 pieces
    is overrun by the first thing the encoder writes. *)
Theorem erasure_guard_wraps :
  (forall len, 0 < len -> shape_ok UINT32_MAX 1 len = true) /\
  UINT32_MAX + 1 > FZN_ERASURE_PIECES_MAX /\
  UINT32_MAX * fzn_erasure_piece_len 5 UINT32_MAX > FZN_ERASURE_PIECES_MAX * fzn_erasure_piece_len 5 UINT32_MAX.
Proof.
  split_and!; [|reflexivity..]. intros len Hl. unfold shape_ok. destruct (Z.eqb_spec len 0); [lia|]. reflexivity.
Qed.

(** ** Witness *)

Definition demo_data : bytes := [1; 2; 3; 4; 5; 200; 7; 8; 9; 10; 11].
Definition demo_code : bytes := default [] (snd (fzn_erasure_encode 4 2 (Some demo_data) (Some (zeros 18)))).
Definition demo_piece (i : Z) : option bytes := Some (slice (i * 3) 3 demo_code).

(** Two data pieces lost. *)
Lemma any_k_pieces_rebuild_witness :
  fzn_erasure_decode 4 2 (Some [None; demo_piece 1; None; demo_piece 3; demo_piece 4; demo_piece 5]) 11
    (Some (zeros 11)) = (FZN_ERASURE_OK, Some demo_data).
Proof.
  destruct (any_k_pieces_rebuild 4 2 demo_data (zeros 18)) as (code & He & _ & Hd).
  - reflexivity.
  - reflexivity.
  - vm_compute. discriminate.
  - unfold in_u8. apply (bool_decide_unpack _). vm_compute. exact I.
  - reflexivity.
  - vm_compute. discriminate.
  - assert (code = demo_code) as -> by (unfold demo_code; by rewrite He).
    apply (Hd [None; demo_piece 1; None; demo_piece 3; demo_piece 4; demo_piece 5] (zeros 11));
      [reflexivity|vm_compute; discriminate|].
    intros i p Hi. do 6 (destruct i as [|i]; [by (discriminate Hi || injection Hi as <-)|]). discriminate Hi.
Defined.
