(* ===== verification/Ratchet.v ===== *)
(** * ratchet/ratchet.c: a chain of keys

    One step hashes a chain key into the message key it yields and the chain
    key that follows; an advance takes the steps up to a sequence number a
    message names, on a copy, and hands back the keys it jumped over. The hash
    is the consumer's. Wiping of locals is not modelled. *)

From S2P Require Import Prelude Bytes Revocation.

Definition FZN_CHAIN_KEY_LEN : Z := 32.
Definition FZN_MESSAGE_KEY_LEN : Z := 32.
Definition FZN_RATCHET_MAX_ADVANCE : Z := 100000.
Definition FZN_RATCHET_DERIVED_LEN : Z := FZN_MESSAGE_KEY_LEN + FZN_CHAIN_KEY_LEN.

(** ["fuzznet-ratchet1"] *)
Definition FZN_RATCHET_LABEL : bytes :=
  [102; 117; 122; 122; 110; 101; 116; 45; 114; 97; 116; 99; 104; 101; 116; 49].

Inductive fzn_ratchet_err :=
| FZN_RATCHET_OK | FZN_RATCHET_ERR_MALFORMED | FZN_RATCHET_ERR_HASH | FZN_RATCHET_ERR_BEHIND
| FZN_RATCHET_ERR_TOO_FAR | FZN_RATCHET_ERR_IN_PLACE.

Record fzn_ratchet_chain := mk_rchain { rk_key : bytes; rk_seq : Z }.

(** [None] for the hash is a NULL vtable or one without its function. The
    result is the message key and the next chain key. *)
Definition fzn_ratchet_derive (hash : option fzn_hash_ops) (chain_key : bytes)
    : fzn_ratchet_err * option (bytes * bytes) :=
  match hash with
  | None => (FZN_RATCHET_ERR_MALFORMED, None)
  | Some hash =>
    match hash FZN_RATCHET_DERIVED_LEN (FZN_RATCHET_LABEL ++ chain_key) with
    | None => (FZN_RATCHET_ERR_HASH, None)
    | Some derived =>
      (FZN_RATCHET_OK,
       Some (slice 0 FZN_MESSAGE_KEY_LEN derived, slice FZN_MESSAGE_KEY_LEN FZN_CHAIN_KEY_LEN derived))
    end
  end.

Definition fzn_ratchet_init (key : option bytes) (seq : Z) : fzn_ratchet_chain :=
  mk_rchain (default (zeros FZN_CHAIN_KEY_LEN) key) seq.

Definition fzn_ratchet_wipe (chain : fzn_ratchet_chain) : fzn_ratchet_chain :=
  mk_rchain (zeros (zlen (rk_key chain))) 0.

(** The loop over the keys jumped over, [n] turns to go. *)
Fixpoint jump_loop (hash : option fzn_hash_ops) (n : nat) (work : fzn_ratchet_chain)
    (skipped : option bytes) (cap kept lost : Z)
    : fzn_ratchet_err * fzn_ratchet_chain * option bytes * Z * Z :=
  match n with
  | O => (FZN_RATCHET_OK, work, skipped, kept, lost)
  | S n =>
    match fzn_ratchet_derive hash (rk_key work) with
    | (FZN_RATCHET_OK, Some (message_key, next)) =>
      let work := mk_rchain next (u64 (rk_seq work + 1)) in
      match skipped with
      | None => jump_loop hash n work None cap kept lost
      | Some s =>
        if kept <? cap
        then jump_loop hash n work (Some (blit (kept * FZN_MESSAGE_KEY_LEN) message_key s)) cap (kept + 1) lost
        else jump_loop hash n work (Some s) cap kept (lost + 1)
      end
    | (err, _) => (err, work, skipped, kept, lost)
    end
  end.

(** What an advance leaves: the message key, the chain written to [to], the
    counts written, where it writes them; and the buffer of skipped keys,
    written as the loop goes. *)
Record advanced := mk_advanced {
  ad_key : bytes; ad_to : fzn_ratchet_chain; ad_kept : Z; ad_lost : Z
}.

(** [vtable] may be NULL. [in_place] is [to == from]. A caller that gives [skipped_out] gives
    [skipped_count] and [dropped] with it: [counts] says the first was given,
    [dropped] the second. *)
Definition fzn_ratchet_advance (vtable : option (option fzn_hash_ops)) (from : fzn_ratchet_chain) (in_place : bool)
    (target_seq : Z) (skipped_out : option bytes) (skipped_cap : Z) (counts dropped : bool)
    : fzn_ratchet_err * option advanced * option bytes :=
  let given := match skipped_out with Some _ => true | None => false end in
  match vtable with
  | None => (FZN_RATCHET_ERR_MALFORMED, None, skipped_out)
  | Some hash =>
  if in_place then (FZN_RATCHET_ERR_IN_PLACE, None, skipped_out)
  else if (skipped_cap >? 0) && negb given then (FZN_RATCHET_ERR_MALFORMED, None, skipped_out)
  else if negb (Bool.eqb counts given) then (FZN_RATCHET_ERR_MALFORMED, None, skipped_out)
  else if given && negb dropped then (FZN_RATCHET_ERR_MALFORMED, None, skipped_out)
  else if target_seq <? rk_seq from then (FZN_RATCHET_ERR_BEHIND, None, skipped_out)
  else
    let jump := target_seq - rk_seq from in
    if jump >? FZN_RATCHET_MAX_ADVANCE then (FZN_RATCHET_ERR_TOO_FAR, None, skipped_out)
    else
      match jump_loop hash (Z.to_nat jump) from skipped_out skipped_cap 0 0 with
      | (FZN_RATCHET_OK, work, skipped, kept, lost) =>
        match fzn_ratchet_derive hash (rk_key work) with
        | (FZN_RATCHET_OK, Some (message_key, next)) =>
          (FZN_RATCHET_OK,
           Some (mk_advanced message_key (mk_rchain next (u64 (rk_seq work + 1))) kept lost), skipped)
        | (err, _) => (err, None, skipped)
        end
      | (err, _, skipped, _, _) => (err, None, skipped)
      end
  end.

(** Equal tuples, their integers by [lia]. *)
Ltac tuples := repeat match goal with |- (_, _) = (_, _) => f_equal | |- Some _ = Some _ => f_equal
  | |- mk_rchain _ _ = mk_rchain _ _ => f_equal | |- mk_advanced _ _ _ _ = mk_advanced _ _ _ _ => f_equal end;
  try reflexivity; try lia.

(** ** The keys, one at a time *)

Section Keys.
Context (hash : fzn_hash_ops).

(** What a hash promises: an answer of the length asked for. *)
Definition hash_total : Prop := forall n b, 0 <= n -> exists d, hash n b = Some d /\ zlen d = n.

Hypothesis Htotal : hash_total.

Definition step (k : bytes) : bytes * bytes :=
  match fzn_ratchet_derive (Some hash) k with (_, Some r) => r | (_, None) => ([], []) end.

(** The chain key after [n] steps, and the message key of step [n]. *)
Fixpoint chain_key (k : bytes) (n : nat) : bytes :=
  match n with O => k | S n => chain_key (snd (step k)) n end.
Definition message_key (k : bytes) (n : nat) : bytes := fst (step (chain_key k n)).

Lemma derive_step k : fzn_ratchet_derive (Some hash) k = (FZN_RATCHET_OK, Some (step k)) /\ zlen (fst (step k)) = 32.
Proof.
  unfold step, fzn_ratchet_derive.
  destruct (Htotal FZN_RATCHET_DERIVED_LEN (FZN_RATCHET_LABEL ++ k) ltac:(done)) as (d & -> & Hd).
  split; [done|]. cbn [fst]. apply zlen_slice; [lia..|]. rewrite Hd. done.
Qed.

Lemma chain_key_add k a b : chain_key (chain_key k a) b = chain_key k (a + b).
Proof. revert k. induction a as [|a IH]; intros k; cbn; [done|apply IH]. Qed.

Lemma chain_key_S k n : snd (step (chain_key k n)) = chain_key k (S n).
Proof. rewrite <- (Nat.add_1_r n), <- chain_key_add. done. Qed.

Lemma message_key_add k a b : message_key (chain_key k a) b = message_key k (a + b).
Proof. unfold message_key. by rewrite chain_key_add. Qed.

(** The loop, with nowhere to put the keys. *)
Lemma jump_none n : forall k seq cap kept lost, 0 <= seq -> seq + Z.of_nat n <= UINT64_MAX ->
  jump_loop (Some hash) n (mk_rchain k seq) None cap kept lost
  = (FZN_RATCHET_OK, mk_rchain (chain_key k n) (seq + Z.of_nat n), None, kept, lost).
Proof.
  induction n as [|n IH]; intros k seq cap kept lost Hs Hm; cbn [jump_loop rk_key rk_seq chain_key].
  { by rewrite Z.add_0_r. }
  destruct (derive_step k) as [-> _]. destruct (step k) as [mk next]. cbn [snd].
  rewrite u64_small by ulia. rewrite IH by lia. by replace (seq + Z.of_nat (S n)) with (seq + 1 + Z.of_nat n) by lia.
Qed.

(** The loop, with room for [cap] keys of which [kept] are taken. *)
Lemma jump_some n : forall k seq cap kept lost s,
  0 <= seq -> seq + Z.of_nat n <= UINT64_MAX -> 0 <= kept <= cap -> cap * 32 <= zlen s ->
  exists s', jump_loop (Some hash) n (mk_rchain k seq) (Some s) cap kept lost
    = (FZN_RATCHET_OK, mk_rchain (chain_key k n) (seq + Z.of_nat n), Some s',
       kept + Z.min (cap - kept) (Z.of_nat n), lost + (Z.of_nat n - Z.min (cap - kept) (Z.of_nat n))) /\
    zlen s' = zlen s /\
    (forall i, 0 <= i < kept -> slice (i * 32) 32 s' = slice (i * 32) 32 s) /\
    (forall i, 0 <= i < Z.min (cap - kept) (Z.of_nat n) ->
      slice ((kept + i) * 32) 32 s' = message_key k (Z.to_nat i)).
Proof.
  induction n as [|n IH]; intros k seq cap kept lost s Hs Hm Hk Hz; cbn [jump_loop rk_key rk_seq chain_key].
  { exists s. split_and!; [|done|done|lia]. rewrite Z.min_r by lia. tuples. }
  destruct (derive_step k) as [-> Hl]. destruct (step k) as [mk next] eqn:Est. cbn [snd fst] in *.
  rewrite u64_small by ulia. unfold FZN_MESSAGE_KEY_LEN. destruct (Z.ltb_spec kept cap) as [Hlt|Hge].
  - assert (zlen (blit (kept * 32) mk s) = zlen s) as Hzb by (apply zlen_blit; lia).
    destruct (IH next (seq + 1) cap (kept + 1) lost (blit (kept * 32) mk s)) as (s' & -> & Hz' & Hold & Hnew);
      [lia..|by rewrite Hzb|].
    exists s'. split_and!; [tuples|by rewrite Hz'| |].
    + intros i Hi. rewrite Hold by lia. apply slice_blit_disjoint; lia.
    + intros i Hi. destruct (Z.eq_dec i 0) as [->|Hne].
      * rewrite Z.add_0_r, Hold by lia. pose proof (slice_blit_same (kept * 32) mk s) as E. rewrite Hl in E. rewrite E by lia.
        unfold message_key. change (Z.to_nat 0) with 0%nat. cbn [chain_key]. by rewrite Est.
      * replace (kept + i) with (kept + 1 + (i - 1)) by lia. rewrite Hnew by lia.
        replace next with (snd (step k)) by (by rewrite Est).
        replace (Z.to_nat i) with (S (Z.to_nat (i - 1))) by lia. done.
  - destruct (IH next (seq + 1) cap kept (lost + 1) s) as (s' & -> & Hz' & Hold & Hnew); [lia..|].
    exists s'. split_and!; [tuples|done|done|lia].
Qed.

Lemma advance_plain from target :
  0 <= rk_seq from <= target -> target < UINT64_MAX -> target - rk_seq from <= FZN_RATCHET_MAX_ADVANCE ->
  fzn_ratchet_advance (Some (Some hash)) from false target None 0 false false
  = (FZN_RATCHET_OK,
     Some (mk_advanced (message_key (rk_key from) (Z.to_nat (target - rk_seq from)))
             (mk_rchain (chain_key (rk_key from) (S (Z.to_nat (target - rk_seq from)))) (target + 1)) 0 0), None).
Proof.
  intros Hs Ht Hj. unfold fzn_ratchet_advance. cbn [andb negb Bool.eqb].
  destruct (Z.ltb_spec target (rk_seq from)); [lia|].
  destruct (Z.gtb_spec (target - rk_seq from) FZN_RATCHET_MAX_ADVANCE); [lia|].
  destruct from as [k seq]. cbn [rk_key rk_seq] in *. change (0 >? 0) with false. cbn [andb].
  rewrite jump_none by lia. cbn [rk_key rk_seq].
  destruct (derive_step (chain_key k (Z.to_nat (target - seq)))) as [-> _].
  unfold message_key. rewrite <- chain_key_S. destruct (step _) as [mk next]. cbn [fst snd].
  rewrite u64_small by ulia. tuples.
Qed.
End Keys.

(** The same key whichever way it is reached, and none lost on the way.
    With a hash that answers, a chain advanced to a sequence number within the
    bound yields that number's message key, the chain position after it, and,
    oldest first, the keys of the numbers jumped over as far as there is room,
    with the rest counted; and advancing in two steps, by way of any number in
    between, yields the same key and the same position, so two peers that
    received different messages on the way still agree. *)
Theorem ratchet_keys_agree hash from target s cap :
  hash_total hash -> 0 <= rk_seq from <= target -> target < UINT64_MAX ->
  target - rk_seq from <= FZN_RATCHET_MAX_ADVANCE -> 0 <= cap -> cap * FZN_MESSAGE_KEY_LEN <= zlen s ->
  let jump := target - rk_seq from in
  let kept := Z.min cap jump in
  let to := mk_rchain (chain_key hash (rk_key from) (S (Z.to_nat jump))) (target + 1) in
  (exists s',
    fzn_ratchet_advance (Some (Some hash)) from false target (Some s) cap true true
    = (FZN_RATCHET_OK,
       Some (mk_advanced (message_key hash (rk_key from) (Z.to_nat jump)) to kept (jump - kept)), Some s') /\
    zlen s' = zlen s /\
    forall i, 0 <= i < kept ->
      slice (i * FZN_MESSAGE_KEY_LEN) FZN_MESSAGE_KEY_LEN s' = message_key hash (rk_key from) (Z.to_nat i)) /\
  forall via, rk_seq from <= via < target -> exists mid ad,
    fzn_ratchet_advance (Some (Some hash)) from false via None 0 false false = (FZN_RATCHET_OK, Some mid, None) /\
    fzn_ratchet_advance (Some (Some hash)) (ad_to mid) false target None 0 false false
    = (FZN_RATCHET_OK, Some ad, None) /\
    ad_key ad = message_key hash (rk_key from) (Z.to_nat jump) /\ ad_to ad = to.
Proof.
  intros Hh Hs Ht Hj Hc Hz. cbv zeta. unfold FZN_MESSAGE_KEY_LEN in *. split.
  - unfold fzn_ratchet_advance. cbn [andb negb Bool.eqb]. rewrite andb_false_r.
    destruct (Z.ltb_spec target (rk_seq from)); [lia|].
    destruct (Z.gtb_spec (target - rk_seq from) FZN_RATCHET_MAX_ADVANCE); [lia|].
    destruct from as [k seq]. cbn [rk_key rk_seq] in *.
    destruct (jump_some hash Hh (Z.to_nat (target - seq)) k seq cap 0 0 s) as (s' & -> & Hz' & _ & Hnew); [lia..|].
    cbn [rk_key rk_seq]. destruct (derive_step hash Hh (chain_key hash k (Z.to_nat (target - seq)))) as [-> _].
    exists s'. unfold message_key at 1. rewrite <- chain_key_S. destruct (step hash _) as [mk next]. cbn [fst snd].
    rewrite u64_small by ulia. rewrite Z.sub_0_r, Z2Nat.id in * by lia.
    split_and!; [tuples|done|]. intros i Hi. apply Hnew. lia.
  - intros via Hv. do 2 eexists. split; [apply advance_plain; lia || done|]. cbn [ad_to].
    split; [apply advance_plain; cbn [rk_seq]; lia || done|]. cbn [ad_key ad_to rk_key rk_seq].
    rewrite message_key_add, chain_key_add. split; [|f_equal]; f_equal; lia.
Qed.

Definition demo_kdf : fzn_hash_ops :=
  fun n b => Some (replicate (Z.to_nat n) (u8 (7 * nth 20 b 0 + 11))).

Lemma demo_kdf_total : hash_total demo_kdf.
Proof. intros n b Hn. eexists. split; [reflexivity|]. unfold zlen. rewrite length_replicate. lia. Qed.

Lemma ratchet_keys_agree_witness :
  (exists s',
    fzn_ratchet_advance (Some (Some demo_kdf)) (mk_rchain (zeros 32) 5) false 8 (Some (zeros 64)) 2 true true
    = (FZN_RATCHET_OK,
       Some (mk_advanced (message_key demo_kdf (zeros 32) 3) (mk_rchain (chain_key demo_kdf (zeros 32) 4) 9) 2 1),
       Some s') /\
    slice 32 32 s' = message_key demo_kdf (zeros 32) 1) /\
  message_key demo_kdf (zeros 32) 1 <> message_key demo_kdf (zeros 32) 3.
Proof.
  split; [|vm_compute; discriminate].
  destruct (ratchet_keys_agree demo_kdf (mk_rchain (zeros 32) 5) 8 (zeros 64) 2) as [(s' & Ha & _ & Hs) _].
  - exact demo_kdf_total.
  - cbn. lia.
  - reflexivity.
  - vm_compute. discriminate.
  - lia.
  - vm_compute. discriminate.
  - exists s'. split; [exact Ha|]. apply (Hs 1). cbn. lia.
Defined.
