(* ===== verification/Session.v ===== *)
(** * session/agree.c and session/session.c: establishing a session

    A prekey secret and its agreements, the transcripts of the two ways to
    establish a session, and the chain key of each direction. The agreement
    and the hash are the consumer's; [public_of] and [agree] are [None] where
    the function is NULL. The other pointers are given. What a refused call
    leaves in its out-parameters is [None]; the wiping of locals is left out. *)

From S2P Require Import Prelude Bytes Hop Revocation Seal Ratchet.

Definition FZN_AGREE_SECRET_LEN : Z := 32.
Definition FZN_AGREE_PUBLIC_LEN : Z := 32.
Definition FZN_AGREE_SHARED_LEN : Z := 32.

Record fzn_agree_ops := mk_agree {
  public_of : option (bytes -> option bytes);
  agree : option (bytes -> bytes -> option bytes) }.

Record fzn_agree_secret := mk_secret { sk_secret : bytes; sk_public_key : bytes; sk_generation : Z; sk_live : bool }.

Inductive fzn_agree_err :=
  | FZN_AGREE_OK | FZN_AGREE_ERR_MALFORMED | FZN_AGREE_ERR_OPS | FZN_AGREE_ERR_DEGENERATE | FZN_AGREE_ERR_ABSENT.

Definition fzn_agree_secret_install (sk : fzn_agree_secret) (ops : option fzn_agree_ops) (secret : bytes)
    : fzn_agree_err * fzn_agree_secret :=
  match ops ≫= public_of with
  | None => (FZN_AGREE_ERR_OPS, sk)
  | Some public_of =>
    match public_of secret with
    | None => (FZN_AGREE_ERR_OPS, sk)
    | Some public_key =>
      (FZN_AGREE_OK, mk_secret secret public_key (if sk_live sk then u64 (sk_generation sk + 1) else 0) true)
    end
  end.

Definition fzn_agree_secret_public (sk : fzn_agree_secret) : option bytes :=
  if sk_live sk then Some (sk_public_key sk) else None.

Definition fzn_agree_secret_generation (sk : fzn_agree_secret) : Z := if sk_live sk then sk_generation sk else 0.

Definition fzn_agree_shared (sk : fzn_agree_secret) (ops : option fzn_agree_ops) (peer_public : bytes)
    : fzn_agree_err * option bytes :=
  match ops ≫= agree with
  | None => (FZN_AGREE_ERR_OPS, None)
  | Some agree =>
    if negb (sk_live sk) then (FZN_AGREE_ERR_ABSENT, None)
    else match agree (sk_secret sk) peer_public with
    | None => (FZN_AGREE_ERR_DEGENERATE, None)
    | Some shared => (FZN_AGREE_OK, Some shared)
    end
  end.

Definition fzn_agree_secret_wipe (sk : fzn_agree_secret) : fzn_agree_secret :=
  mk_secret (zeros FZN_AGREE_SECRET_LEN) (zeros FZN_AGREE_PUBLIC_LEN) 0 false.

(** ** session.c *)

Definition FZN_SESSION_IDENTITY_LEN : Z := 32.
Definition FZN_SESSION_TRANSCRIPT_VERSION : Z := 1.
Definition FZN_SESSION_TRANSCRIPT_V2 : Z := 2.
Definition FZN_SESSION_TRANSCRIPT_LEN : Z := 16 + 1 + 2 * FZN_SESSION_IDENTITY_LEN + 2 * FZN_AGREE_PUBLIC_LEN + FZN_AGREE_SHARED_LEN.
Definition FZN_SESSION_TRANSCRIPT_V2_LEN : Z := 16 + 1 + 2 * FZN_SESSION_IDENTITY_LEN + 3 * FZN_AGREE_PUBLIC_LEN + 2 * FZN_AGREE_SHARED_LEN.

Inductive fzn_session_err :=
  | FZN_SESSION_OK | FZN_SESSION_ERR_MALFORMED | FZN_SESSION_ERR_SELF | FZN_SESSION_ERR_AGREE | FZN_SESSION_ERR_HASH.

(** ["fuzznet-sess-v1\0"] and ["fuzznet-dir-v1\0\0"] *)
Definition FZN_SESSION_LABEL : bytes :=
  [102; 117; 122; 122; 110; 101; 116; 45; 115; 101; 115; 115; 45; 118; 49; 0].
Definition FZN_SESSION_DIR_LABEL : bytes :=
  [102; 117; 122; 122; 110; 101; 116; 45; 100; 105; 114; 45; 118; 49; 0; 0].

Definition fzn_session_transcript (self_identity self_prekey peer_identity peer_prekey shared : bytes)
    : fzn_session_err * option bytes :=
  let order := memcmp self_identity peer_identity in
  if order =? 0 then (FZN_SESSION_ERR_SELF, None)
  else
    let '(first_id, first_pk, second_id, second_pk) :=
      if order <? 0 then (self_identity, self_prekey, peer_identity, peer_prekey)
      else (peer_identity, peer_prekey, self_identity, self_prekey) in
    let out := FZN_SESSION_LABEL ++ [FZN_SESSION_TRANSCRIPT_VERSION] ++ first_id ++ first_pk ++ second_id ++ second_pk ++ shared in
    (if zlen out =? FZN_SESSION_TRANSCRIPT_LEN then FZN_SESSION_OK else FZN_SESSION_ERR_MALFORMED, Some out).

(** The root of a transcript. *)
Definition root_of_transcript (hash : option fzn_hash_ops) (transcript : bytes) : fzn_session_err * option (bytes * bytes) :=
  match fzn_commitment_derive_root hash transcript with
  | (FZN_COMMITMENT_OK, Some keys) => (FZN_SESSION_OK, Some keys)
  | _ => (FZN_SESSION_ERR_HASH, None)
  end.

Definition fzn_session_establish (self_prekey : fzn_agree_secret) (agree : option fzn_agree_ops) (hash : option fzn_hash_ops)
    (self_identity peer_identity peer_prekey : bytes) : fzn_session_err * option (bytes * bytes) :=
  match fzn_agree_secret_public self_prekey with
  | None => (FZN_SESSION_ERR_AGREE, None)
  | Some self_pk =>
    match fzn_agree_shared self_prekey agree peer_prekey with
    | (FZN_AGREE_OK, Some shared) =>
      match fzn_session_transcript self_identity self_pk peer_identity peer_prekey shared with
      | (FZN_SESSION_OK, Some transcript) => root_of_transcript hash transcript
      | (err, _) => (err, None)
      end
    | _ => (FZN_SESSION_ERR_AGREE, None)
    end
  end.

Definition transcript_v2 (initiator_id initiator_prekey responder_id responder_prekey ephemeral_public prekey_shared
    ephemeral_shared : bytes) : fzn_session_err * option bytes :=
  if memcmp initiator_id responder_id =? 0 then (FZN_SESSION_ERR_SELF, None)
  else
    let out := FZN_SESSION_LABEL ++ [FZN_SESSION_TRANSCRIPT_V2] ++ initiator_id ++ initiator_prekey ++ responder_id ++
      responder_prekey ++ ephemeral_public ++ prekey_shared ++ ephemeral_shared in
    (if zlen out =? FZN_SESSION_TRANSCRIPT_V2_LEN then FZN_SESSION_OK else FZN_SESSION_ERR_MALFORMED, Some out).

Definition finish_v2 (hash : option fzn_hash_ops) (transcript : bytes) : fzn_session_err * option (bytes * bytes) :=
  root_of_transcript hash transcript.

Definition fzn_session_establish_initiator (self_prekey ephemeral : fzn_agree_secret) (agree : option fzn_agree_ops)
    (hash : option fzn_hash_ops) (self_identity peer_identity peer_prekey : bytes) : fzn_session_err * option (bytes * bytes) :=
  match fzn_agree_secret_public self_prekey, fzn_agree_secret_public ephemeral with
  | Some self_pk, Some eph_pk =>
    match fzn_agree_shared self_prekey agree peer_prekey with
    | (FZN_AGREE_OK, Some dh_prekey) =>
      match fzn_agree_shared ephemeral agree peer_prekey with
      | (FZN_AGREE_OK, Some dh_ephemeral) =>
        match transcript_v2 self_identity self_pk peer_identity peer_prekey eph_pk dh_prekey dh_ephemeral with
        | (FZN_SESSION_OK, Some transcript) => finish_v2 hash transcript
        | (err, _) => (err, None)
        end
      | _ => (FZN_SESSION_ERR_AGREE, None)
      end
    | _ => (FZN_SESSION_ERR_AGREE, None)
    end
  | _, _ => (FZN_SESSION_ERR_AGREE, None)
  end.

Definition fzn_session_establish_responder (self_prekey : fzn_agree_secret) (agree : option fzn_agree_ops)
    (hash : option fzn_hash_ops) (self_identity peer_identity peer_prekey peer_ephemeral : bytes)
    : fzn_session_err * option (bytes * bytes) :=
  match fzn_agree_secret_public self_prekey with
  | None => (FZN_SESSION_ERR_AGREE, None)
  | Some self_pk =>
    match fzn_agree_shared self_prekey agree peer_prekey with
    | (FZN_AGREE_OK, Some dh_prekey) =>
      match fzn_agree_shared self_prekey agree peer_ephemeral with
      | (FZN_AGREE_OK, Some dh_ephemeral) =>
        match transcript_v2 peer_identity peer_prekey self_identity self_pk peer_ephemeral dh_prekey dh_ephemeral with
        | (FZN_SESSION_OK, Some transcript) => finish_v2 hash transcript
        | (err, _) => (err, None)
        end
      | _ => (FZN_SESSION_ERR_AGREE, None)
      end
    | _ => (FZN_SESSION_ERR_AGREE, None)
    end
  end.

Definition chain_for (hash : fzn_hash_ops) (key from to_ : bytes) : fzn_session_err * option bytes :=
  match hash FZN_CHAIN_KEY_LEN (FZN_SESSION_DIR_LABEL ++ from ++ to_ ++ key) with
  | None => (FZN_SESSION_ERR_HASH, None)
  | Some out => (FZN_SESSION_OK, Some out)
  end.

Definition fzn_session_chains (hash : option fzn_hash_ops) (key self_identity peer_identity : bytes)
    : fzn_session_err * option (bytes * bytes) :=
  match hash with
  | None => (FZN_SESSION_ERR_HASH, None)
  | Some hash =>
    if memcmp self_identity peer_identity =? 0 then (FZN_SESSION_ERR_SELF, None)
    else match chain_for hash key self_identity peer_identity with
    | (FZN_SESSION_OK, Some send) =>
      match chain_for hash key peer_identity self_identity with
      | (FZN_SESSION_OK, Some recv) => (FZN_SESSION_OK, Some (send, recv))
      | (err, _) => (err, None)
      end
    | (err, _) => (err, None)
    end
  end.

(** ** Two ends, one session *)

(** What a consumer's agreement promises: a public key for every secret, and
    one answer from either side. *)
Class Agreement (ops : fzn_agree_ops) (pub : bytes -> bytes) (dh : bytes -> bytes -> option bytes) : Prop := {
  ag_public : public_of ops = Some (fun s => Some (pub s));
  ag_agree : agree ops = Some dh;
  ag_comm : forall a b, dh a (pub b) = dh b (pub a)
}.

(** A secret a host holds, with its own public half. *)
Definition holds (pub : bytes -> bytes) (sk : fzn_agree_secret) : Prop :=
  sk_live sk = true /\ sk_public_key sk = pub (sk_secret sk).

(** What a hash answers has the length asked for. *)
Definition hash_sizes (hash : fzn_hash_ops) : Prop := forall n b d, 0 <= n -> hash n b = Some d -> zlen d = n.

Section Ends.
Context (ops : fzn_agree_ops) (pub : bytes -> bytes) (dh : bytes -> bytes -> option bytes) `{!Agreement ops pub dh}.

Lemma install_holds sk secret : exists sk', fzn_agree_secret_install sk (Some ops) secret = (FZN_AGREE_OK, sk') /\
  holds pub sk' /\ sk_secret sk' = secret /\ fzn_agree_secret_public sk' = Some (pub secret).
Proof using All.
  unfold fzn_agree_secret_install. cbn [mbind option_bind]. rewrite ag_public. by eexists.
Qed.

Lemma holds_public sk : holds pub sk -> fzn_agree_secret_public sk = Some (pub (sk_secret sk)).
Proof using. intros [Hl <-]. unfold fzn_agree_secret_public. by rewrite Hl. Qed.

Lemma holds_shared sk peer : holds pub sk -> fzn_agree_shared sk (Some ops) peer =
  match dh (sk_secret sk) peer with Some s => (FZN_AGREE_OK, Some s) | None => (FZN_AGREE_ERR_DEGENERATE, None) end.
Proof using All. intros [Hl _]. unfold fzn_agree_shared. cbn [mbind option_bind]. by rewrite ag_agree, Hl. Qed.

Lemma transcript_sym a ak b bk shared : zlen a = zlen b ->
  fzn_session_transcript a ak b bk shared = fzn_session_transcript b bk a ak shared.
Proof using.
  intros Hl. unfold fzn_session_transcript. rewrite (memcmp_opp b a).
  assert (length b = length a) as Hl' by (unfold zlen in Hl; lia). pose proof (memcmp_zero b a Hl') as Hz.
  destruct (Z.eqb_spec (memcmp b a) 0) as [E|E]; [by rewrite E|].
  destruct (Z.eqb_spec (- memcmp b a) 0); [lia|]. destruct (Z.ltb_spec (memcmp b a) 0), (Z.ltb_spec (- memcmp b a) 0); try lia; done.
Qed.

Lemma establish_sym sk sk' hash a b : holds pub sk -> holds pub sk' -> zlen a = zlen b ->
  fzn_session_establish sk (Some ops) hash a b (pub (sk_secret sk')) = fzn_session_establish sk' (Some ops) hash b a (pub (sk_secret sk)).
Proof using All.
  intros H H' Hl. unfold fzn_session_establish. rewrite !holds_public, !holds_shared, ag_comm by done.
  destruct (dh _ _); [|done]. by rewrite transcript_sym.
Qed.

Lemma establish_roles sk eph sk' hash a b : holds pub sk -> holds pub eph -> holds pub sk' ->
  fzn_session_establish_initiator sk eph (Some ops) hash a b (pub (sk_secret sk')) =
  fzn_session_establish_responder sk' (Some ops) hash b a (pub (sk_secret sk)) (pub (sk_secret eph)).
Proof using All.
  intros H He H'. unfold fzn_session_establish_initiator, fzn_session_establish_responder.
  rewrite !holds_public, !holds_shared by done. rewrite (ag_comm (sk_secret sk)), (ag_comm (sk_secret eph)). done.
Qed.
End Ends.

Lemma chains_sym hash key a b : zlen a = zlen b ->
  fzn_session_chains hash key b a = let '(err, ends) := fzn_session_chains hash key a b in (err, prod_swap <$> ends).
Proof.
  intros Hl. unfold fzn_session_chains. destruct hash as [hash|]; [|done]. rewrite (memcmp_opp a b).
  destruct (Z.eqb_spec (memcmp a b) 0) as [E|E]; [by rewrite E|]. destruct (Z.eqb_spec (- memcmp a b) 0); [lia|].
  unfold chain_for. destruct (hash _ (_ ++ a ++ _)), (hash _ (_ ++ b ++ _)); done.
Qed.

(** ** What a session is of *)

Definition len32 (l : list bytes) : Prop := Forall (fun b => zlen b = 32) l.

Lemma root_inj hash t t' keys : hash_sizes hash ->
  root_of_transcript (Some hash) t = (FZN_SESSION_OK, Some keys) -> root_of_transcript (Some hash) t' = (FZN_SESSION_OK, Some keys) ->
  t = t' \/ collide hash FZN_DERIVED_LEN (FZN_ROOT_LABEL ++ t) (FZN_ROOT_LABEL ++ t').
Proof.
  intros Hs. unfold root_of_transcript, fzn_commitment_derive_root. destruct (_ || _); [done|].
  destruct (hash FZN_DERIVED_LEN (FZN_ROOT_LABEL ++ t)) as [d|] eqn:E; [|done]. intros [= <-].
  destruct (_ || _); [done|]. destruct (hash FZN_DERIVED_LEN (FZN_ROOT_LABEL ++ t')) as [d'|] eqn:E'; [|done].
  intros [= H1 H2]. pose proof (Hs FZN_DERIVED_LEN _ _ ltac:(done) E) as Hd. pose proof (Hs FZN_DERIVED_LEN _ _ ltac:(done) E') as Hd'.
  assert (d' = d) as ->.
  { change FZN_DERIVED_LEN with 64 in *. rewrite <- (slice_all 64 d), <- (slice_all 64 d') by lia.
    change FZN_AEAD_KEY_LEN with 32 in *. change FZN_COMMITMENT_KEY_LEN with 32 in *.
    rewrite (slice_cut d 0 32 32), (slice_cut d' 0 32 32) by lia. change (0 + 32) with 32. by rewrite H1, H2. }
  destruct (same_hash _ _ _ _ _ E E') as [Ht|]; [|by right]. left. by apply app_inv_head in Ht.
Qed.

(** What the two ends write, in either order. *)
Lemma transcript_out a ak b bk s err t : fzn_session_transcript a ak b bk s = (err, Some t) ->
  exists x xk y yk, t = FZN_SESSION_LABEL ++ [FZN_SESSION_TRANSCRIPT_VERSION] ++ x ++ xk ++ y ++ yk ++ s /\
    ((x = a /\ xk = ak /\ y = b /\ yk = bk) \/ (x = b /\ xk = bk /\ y = a /\ yk = ak)).
Proof.
  unfold fzn_session_transcript. destruct (_ =? 0); [done|]. destruct (_ <? 0); intros H; apply (f_equal snd) in H;
    cbn [snd] in H; apply (inj Some) in H; rewrite <- H; do 4 eexists; (split; [reflexivity|]); [left|right]; done.
Qed.

Lemma transcript_v2_out i ip r rp e p s err t : transcript_v2 i ip r rp e p s = (err, Some t) ->
  t = FZN_SESSION_LABEL ++ [FZN_SESSION_TRANSCRIPT_V2] ++ i ++ ip ++ r ++ rp ++ e ++ p ++ s.
Proof.
  unfold transcript_v2. destruct (_ =? 0); [done|]. intros H. apply (f_equal snd) in H. cbn [snd] in H. by apply (inj Some) in H.
Qed.

(** The two ends of a transcript, in either order. *)
Lemma transcript_inj a ak b bk s a' ak' b' bk' s' t : len32 [a; ak; b; bk; s; a'; ak'; b'; bk'; s'] ->
  fzn_session_transcript a ak b bk s = (FZN_SESSION_OK, Some t) -> fzn_session_transcript a' ak' b' bk' s' = (FZN_SESSION_OK, Some t) ->
  s = s' /\ ((a = a' /\ ak = ak' /\ b = b' /\ bk = bk') \/ (a = b' /\ ak = bk' /\ b = a' /\ bk = ak')).
Proof.
  intros Hl. unfold len32 in Hl. rewrite !Forall_cons_iff in Hl. destruct Hl as (? & ? & ? & ? & ? & ? & ? & ? & ? & ? & _).
  assert (forall x y : bytes, zlen x = 32 -> zlen y = 32 -> length x = length y) as L by (unfold zlen; lia).
  intros (x & xk & y & yk & -> & O)%transcript_out (x' & xk' & y' & yk' & E & O')%transcript_out.
  do 2 apply app_inv_head in E.
  apply app_inj_1 in E as [-> E]; [|destruct O as [(-> & _)|(-> & _)], O' as [(-> & _)|(-> & _)]; by auto].
  apply app_inj_1 in E as [-> E]; [|destruct O as [(_ & -> & _)|(_ & -> & _)], O' as [(_ & -> & _)|(_ & -> & _)]; by auto].
  apply app_inj_1 in E as [-> E]; [|destruct O as [(_ & _ & -> & _)|(_ & _ & -> & _)], O' as [(_ & _ & -> & _)|(_ & _ & -> & _)]; by auto].
  apply app_inj_1 in E as [-> ->]; [|destruct O as [(_ & _ & _ & ->)|(_ & _ & _ & ->)], O' as [(_ & _ & _ & ->)|(_ & _ & _ & ->)]; by auto].
  split; [done|]. naive_solver.
Qed.

Lemma transcript_v2_inj i ip r rp e p s i' ip' r' rp' e' p' s' t : len32 [i; ip; r; rp; e; p; s; i'; ip'; r'; rp'; e'; p'; s'] ->
  transcript_v2 i ip r rp e p s = (FZN_SESSION_OK, Some t) -> transcript_v2 i' ip' r' rp' e' p' s' = (FZN_SESSION_OK, Some t) ->
  i = i' /\ ip = ip' /\ r = r' /\ rp = rp' /\ e = e' /\ p = p' /\ s = s'.
Proof.
  intros Hl. unfold len32 in Hl. rewrite !Forall_cons_iff in Hl.
  destruct Hl as (? & ? & ? & ? & ? & ? & ? & ? & ? & ? & ? & ? & ? & ? & _).
  assert (forall x y : bytes, zlen x = 32 -> zlen y = 32 -> length x = length y) as L by (unfold zlen; lia).
  intros ->%transcript_v2_out E%transcript_v2_out. do 2 apply app_inv_head in E. repeat (apply app_inj_1 in E as [? E]; [|by auto]); simplify_eq; tauto.
Qed.

Lemma transcripts_apart a ak b bk s i ip r rp e p q t :
  fzn_session_transcript a ak b bk s = (FZN_SESSION_OK, Some t) -> transcript_v2 i ip r rp e p q = (FZN_SESSION_OK, Some t) -> False.
Proof.
  intros (x & xk & y & yk & -> & _)%transcript_out E%transcript_v2_out. apply app_inv_head in E. discriminate E.
Qed.

Lemma chain_inj hash key from to_ key' from' to' c : len32 [from; to_; from'; to'] ->
  chain_for hash key from to_ = (FZN_SESSION_OK, Some c) -> chain_for hash key' from' to' = (FZN_SESSION_OK, Some c) ->
  (key = key' /\ from = from' /\ to_ = to') \/
  exists x y, collide hash FZN_CHAIN_KEY_LEN (FZN_SESSION_DIR_LABEL ++ x) (FZN_SESSION_DIR_LABEL ++ y).
Proof.
  intros Hl. unfold len32 in Hl. rewrite !Forall_cons_iff in Hl. destruct Hl as (? & ? & ? & ? & _). unfold chain_for.
  destruct (hash _ (_ ++ from ++ _)) as [d|] eqn:E; [|done]. intros [= ->].
  destruct (hash _ (_ ++ from' ++ _)) as [d'|] eqn:E'; [|done]. intros [= ->].
  destruct (same_hash _ _ _ _ _ E E') as [Ht|]; [|right; eauto]. left. apply app_inv_head in Ht.
  apply app_inj_1 in Ht as [-> Ht]; [|unfold zlen in *; lia]. apply app_inj_1 in Ht as [-> ->]; [done|unfold zlen in *; lia].
Qed.

(** The ways a host establishes a session: with a peer's prekey, and as the
    initiator or the responder of one with an ephemeral key. *)
Inductive establishing :=
  | est_base (sk : fzn_agree_secret) (me you you_prekey : bytes)
  | est_initiator (sk eph : fzn_agree_secret) (me you you_prekey : bytes)
  | est_responder (sk : fzn_agree_secret) (me you you_prekey you_ephemeral : bytes).

Definition establish (ops : option fzn_agree_ops) (hash : option fzn_hash_ops) (e : establishing) : fzn_session_err * option (bytes * bytes) :=
  match e with
  | est_base sk me you pk => fzn_session_establish sk ops hash me you pk
  | est_initiator sk eph me you pk => fzn_session_establish_initiator sk eph ops hash me you pk
  | est_responder sk me you pk eph => fzn_session_establish_responder sk ops hash me you pk eph
  end.

(** Who a session is between: two hosts with their prekeys, in no order; or
    an initiator, a responder and the initiator's ephemeral key. *)
Inductive parties :=
  | between (a a_prekey b b_prekey : bytes)
  | from_to (initiator initiator_prekey responder responder_prekey ephemeral : bytes).

Definition parties_of (e : establishing) : parties :=
  match e with
  | est_base sk me you pk => between me (sk_public_key sk) you pk
  | est_initiator sk eph me you pk => from_to me (sk_public_key sk) you pk (sk_public_key eph)
  | est_responder sk me you pk eph => from_to you pk me (sk_public_key sk) eph
  end.

Definition same_parties (p q : parties) : Prop :=
  match p, q with
  | between a ak b bk, between a' ak' b' bk' => (a = a' /\ ak = ak' /\ b = b' /\ bk = bk') \/ (a = b' /\ ak = bk' /\ b = a' /\ bk = ak')
  | from_to i ip r rp e, from_to i' ip' r' rp' e' => i = i' /\ ip = ip' /\ r = r' /\ rp = rp' /\ e = e'
  | _, _ => False
  end.

Definition parties_sized (p : parties) : Prop :=
  match p with
  | between a ak b bk => len32 [a; ak; b; bk]
  | from_to i ip r rp e => len32 [i; ip; r; rp; e]
  end.

(** The transcript an establishment hashes. *)
Definition transcript_of (p : parties) (s s' : bytes) : fzn_session_err * option bytes :=
  match p with
  | between a ak b bk => fzn_session_transcript a ak b bk s
  | from_to i ip r rp e => transcript_v2 i ip r rp e s s'
  end.

Lemma establish_inv ops hash e keys : establish (Some ops) (Some hash) e = (FZN_SESSION_OK, Some keys) ->
  (forall dh a b s, agree ops = Some dh -> dh a b = Some s -> zlen s = 32) ->
  exists s s' t, zlen s = 32 /\ zlen s' = 32 /\ transcript_of (parties_of e) s s' = (FZN_SESSION_OK, Some t) /\
    root_of_transcript (Some hash) t = (FZN_SESSION_OK, Some keys).
Proof.
  intros He Hdh. assert (forall sk peer s, fzn_agree_shared sk (Some ops) peer = (FZN_AGREE_OK, Some s) -> zlen s = 32) as Hs.
  { intros sk peer s. unfold fzn_agree_shared. cbn [mbind option_bind]. destruct (agree ops) as [dh|] eqn:Ea; [|done].
    destruct (negb _); [done|]. destruct (dh _ _) eqn:Ed; [|done]. intros [= ->]. by eapply Hdh. }
  destruct e as [sk me you pk|sk eph me you pk|sk me you pk eph]; cbn [establish parties_of transcript_of] in *.
  - unfold fzn_session_establish, fzn_agree_secret_public in He. destruct (sk_live sk); [|done].
    destruct (fzn_agree_shared _ _ _) as [[] [s|]] eqn:Es; try done. destruct (fzn_session_transcript _ _ _ _ _) as [[] [t|]] eqn:Et; try done.
    exists s, s, t. split; [by eapply Hs|]. split; [by eapply Hs|]. by split.
  - unfold fzn_session_establish_initiator, fzn_agree_secret_public in He. destruct (sk_live sk); [|done]. destruct (sk_live eph); [|done].
    destruct (fzn_agree_shared sk _ _) as [[] [s|]] eqn:Es; try done. destruct (fzn_agree_shared eph _ _) as [[] [s'|]] eqn:Es'; try done.
    destruct (transcript_v2 _ _ _ _ _ _ _) as [[] [t|]] eqn:Et; try done. exists s, s', t. split; [by eapply Hs|]. split; [by eapply Hs|]. by split.
  - unfold fzn_session_establish_responder, fzn_agree_secret_public in He. destruct (sk_live sk); [|done].
    destruct (fzn_agree_shared sk _ pk) as [[] [s|]] eqn:Es; try done. destruct (fzn_agree_shared sk _ eph) as [[] [s'|]] eqn:Es'; try done.
    destruct (transcript_v2 _ _ _ _ _ _ _) as [[] [t|]] eqn:Et; try done. exists s, s', t. split; [by eapply Hs|]. split; [by eapply Hs|]. by split.
Qed.

(** Every transcript begins with the session's label. *)
Lemma transcript_label p s s' t : transcript_of p s s' = (FZN_SESSION_OK, Some t) -> exists x, t = FZN_SESSION_LABEL ++ x.
Proof.
  destruct p; cbn [transcript_of]; [intros (x & xk & y & yk & -> & _)%transcript_out|intros ->%transcript_v2_out]; by eexists.
Qed.

Lemma parties_inj p q s s' u u' t : parties_sized p -> parties_sized q -> zlen s = 32 -> zlen s' = 32 -> zlen u = 32 -> zlen u' = 32 ->
  transcript_of p s s' = (FZN_SESSION_OK, Some t) -> transcript_of q u u' = (FZN_SESSION_OK, Some t) -> same_parties p q.
Proof.
  intros Hp Hq Hs Hs' Hu Hu'. unfold len32 in *.
  destruct p, q; cbn [transcript_of parties_sized same_parties] in *; unfold len32 in *; rewrite !Forall_cons_iff in Hp; rewrite !Forall_cons_iff in Hq.
  - intros H1 H2. eapply transcript_inj; [|exact H1|exact H2]. unfold len32. rewrite !Forall_cons_iff. tauto.
  - intros H1 H2. by eapply transcripts_apart.
  - intros H1 H2. by eapply transcripts_apart.
  - intros H1 H2. assert (len32 [initiator; initiator_prekey; responder; responder_prekey; ephemeral; s; s';
      initiator0; initiator_prekey0; responder0; responder_prekey0; ephemeral0; u; u']) as Hl by (unfold len32; rewrite !Forall_cons_iff; tauto).
    pose proof (transcript_v2_inj _ _ _ _ _ _ _ _ _ _ _ _ _ _ _ Hl H1 H2). tauto.
Qed.

(** C6: Both ends derive one session. With an agreement that answers the same
    from either side, what one host gets from establishing a session with
    another is what the other gets, keys and refusals alike; so for an
    initiator with an ephemeral key and the responder that hears it; and the
    chain one sends on is the chain the other receives on. Where the hosts
    differ, the agreement contributes and the hash answers, keys there are. *)
Theorem both_ends_derive_one_session ops pub dh hash a eph b ida idb : Agreement ops pub dh ->
  holds pub a -> holds pub eph -> holds pub b -> zlen ida = 32 -> zlen idb = 32 ->
  let apk := pub (sk_secret a) in let bpk := pub (sk_secret b) in let epk := pub (sk_secret eph) in
  establish (Some ops) hash (est_base a ida idb bpk) = establish (Some ops) hash (est_base b idb ida apk) /\
  establish (Some ops) hash (est_initiator a eph ida idb bpk) = establish (Some ops) hash (est_responder b idb ida apk epk) /\
  (forall key, fzn_session_chains hash key idb ida = let '(err, ends) := fzn_session_chains hash key ida idb in (err, prod_swap <$> ends)) /\
  (forall h s, hash = Some h -> hash_total h -> ida <> idb -> zlen apk = 32 -> zlen bpk = 32 -> dh (sk_secret a) bpk = Some s -> zlen s = 32 ->
     exists keys ends, establish (Some ops) hash (est_base a ida idb bpk) = (FZN_SESSION_OK, Some keys) /\
       fzn_session_chains hash (fst keys) ida idb = (FZN_SESSION_OK, Some ends)).
Proof.
  intros HA Ha He Hb Hida Hidb apk bpk epk. split; [apply (establish_sym ops pub dh); (done || lia)|]. split; [by apply (establish_roles ops pub dh)|].
  split; [intros key; apply chains_sym; lia|]. intros h s -> Hh Hne Hapk Hbpk Hs Hsl. cbn [establish].
  unfold fzn_session_establish. rewrite (holds_public pub) by done. rewrite (holds_shared ops pub dh) by done. fold bpk. rewrite Hs. fold apk.
  assert (memcmp ida idb <> 0) as Hm by (rewrite memcmp_zero; [done|unfold zlen in *; lia]).
  unfold fzn_session_transcript. destruct (Z.eqb_spec (memcmp ida idb) 0); [done|].
  assert (forall x xk y yk, zlen x = 32 -> zlen xk = 32 -> zlen y = 32 -> zlen yk = 32 ->
    zlen (FZN_SESSION_LABEL ++ [FZN_SESSION_TRANSCRIPT_VERSION] ++ x ++ xk ++ y ++ yk ++ s) = 177) as Hz.
  { intros x xk y yk H1 H2 H3 H4. rewrite !zlen_app, H1, H2, H3, H4, Hsl. reflexivity. }
  assert (forall t, zlen t = 177 -> exists keys, root_of_transcript (Some h) t = (FZN_SESSION_OK, Some keys)) as Hr.
  { intros t Ht. unfold root_of_transcript, fzn_commitment_derive_root. rewrite Ht. change ((177 =? 0) || (177 >? FZN_TRANSCRIPT_MAX)) with false.
    destruct (Hh FZN_DERIVED_LEN (FZN_ROOT_LABEL ++ t)) as (d & -> & _); [done|]. by eexists. }
  destruct (memcmp ida idb <? 0); rewrite Hz by done; cbn [Z.eqb Pos.eqb].
  all: match goal with |- context [root_of_transcript _ ?t] => destruct (Hr t) as [keys ->]; [by apply Hz|] end.
  all: exists keys; unfold fzn_session_chains; (destruct (Z.eqb_spec (memcmp ida idb) 0); [done|]); unfold chain_for.
  all: destruct (Hh FZN_CHAIN_KEY_LEN (FZN_SESSION_DIR_LABEL ++ ida ++ idb ++ fst keys)) as (c & -> & _); [done|].
  all: destruct (Hh FZN_CHAIN_KEY_LEN (FZN_SESSION_DIR_LABEL ++ idb ++ ida ++ fst keys)) as (c' & -> & _); [done|]; by eexists.
Qed.

(** C24: A session is of its ends. Two establishments, by any hosts in any
    roles, that end with the same keys are of the same parties: the same two
    identities with their prekeys, and where there is an ephemeral key the
    same roles and the same one. Two chain keys that are one are of one
    session key in one direction, so that the two of a session differ. In
    either case two inputs the hash does not tell apart are shown otherwise. *)
Theorem session_is_of_its_ends ops hash e e' keys :
  hash_sizes hash -> (forall dh a b s, agree ops = Some dh -> dh a b = Some s -> zlen s = 32) ->
  parties_sized (parties_of e) -> parties_sized (parties_of e') ->
  establish (Some ops) (Some hash) e = (FZN_SESSION_OK, Some keys) ->
  establish (Some ops) (Some hash) e' = (FZN_SESSION_OK, Some keys) ->
  (same_parties (parties_of e) (parties_of e') \/
   exists x y, collide hash FZN_DERIVED_LEN (FZN_ROOT_LABEL ++ FZN_SESSION_LABEL ++ x) (FZN_ROOT_LABEL ++ FZN_SESSION_LABEL ++ y)) /\
  (forall key key' a b a' b' s r s' r', len32 [a; b; a'; b'] ->
     fzn_session_chains (Some hash) key a b = (FZN_SESSION_OK, Some (s, r)) ->
     fzn_session_chains (Some hash) key' a' b' = (FZN_SESSION_OK, Some (s', r')) ->
     (s = s' -> key = key' /\ a = a' /\ b = b') /\ s <> r \/
     exists x y, collide hash FZN_CHAIN_KEY_LEN (FZN_SESSION_DIR_LABEL ++ x) (FZN_SESSION_DIR_LABEL ++ y)).
Proof.
  intros Hs Hdh Hp Hp' He He'. split.
  - destruct (establish_inv _ _ _ _ He Hdh) as (s & s2 & t & Hz & Hz2 & Ht & Hr).
    destruct (establish_inv _ _ _ _ He' Hdh) as (u & u2 & t' & Hy & Hy2 & Ht' & Hr').
    destruct (root_inj _ _ _ _ Hs Hr Hr') as [<-|Hc]; [left; by eapply (parties_inj _ _ s s2 u u2 t)|]. right.
    destruct (transcript_label _ _ _ _ Ht) as [x ->], (transcript_label _ _ _ _ Ht') as [y ->]. eauto.
  - intros key key' a b a' b' s r s' r' Hl Hc Hc'. unfold len32 in Hl. rewrite !Forall_cons_iff in Hl.
    unfold fzn_session_chains in Hc, Hc'. destruct (Z.eqb_spec (memcmp a b) 0) as [|Hne]; [done|]. destruct (memcmp a' b' =? 0); [done|].
    destruct (chain_for hash key a b) as [[] [c1|]] eqn:E1; try done. destruct (chain_for hash key b a) as [[] [c2|]] eqn:E2; try done.
    destruct (chain_for hash key' a' b') as [[] [c3|]] eqn:E3; try done. destruct (chain_for hash key' b' a') as [[] [c4|]] eqn:E4; try done.
    simplify_eq. assert (len32 [a; b; b; a] /\ len32 [a; b; a'; b']) as [L1 L2] by (unfold len32; rewrite !Forall_cons_iff; tauto).
    destruct (decide (s = r)) as [<-|Hsr].
    + destruct (chain_inj _ _ _ _ _ _ _ _ L1 E1 E2) as [(_ & -> & _)|]; [|by right]. exfalso. apply Hne. by apply memcmp_zero.
    + destruct (decide (s = s')) as [<-|]; [|left; by split]. destruct (chain_inj _ _ _ _ _ _ _ _ L2 E1 E3) as [|]; [left; by split|by right].
Qed.

(** A toy agreement: the sum of the two keys' first bytes. *)
Definition toy_pub (s : bytes) : bytes := s.
Definition toy_dh (s p : bytes) : option bytes := Some (replicate 32 (u8 (peek s 0 + peek p 0))).
Definition toy_agree : fzn_agree_ops := mk_agree (Some (fun s => Some (toy_pub s))) (Some toy_dh).

#[export] Instance toy_agreement : Agreement toy_agree toy_pub toy_dh.
Proof. split; [done|done|]. intros a b. unfold toy_dh, toy_pub. by rewrite Z.add_comm. Qed.

Definition demo_secret (x : Z) : fzn_agree_secret := mk_secret (demo_key x) (demo_key x) 0 true.

Lemma both_ends_derive_one_session_witness :
  exists keys, establish (Some toy_agree) (Some demo_kdf) (est_base (demo_secret 5) (demo_key 1) (demo_key 2) (demo_key 6)) = (FZN_SESSION_OK, Some keys) /\
    establish (Some toy_agree) (Some demo_kdf) (est_base (demo_secret 6) (demo_key 2) (demo_key 1) (demo_key 5)) = (FZN_SESSION_OK, Some keys).
Proof.
  destruct (both_ends_derive_one_session toy_agree toy_pub toy_dh (Some demo_kdf) (demo_secret 5) (demo_secret 7) (demo_secret 6)
    (demo_key 1) (demo_key 2)) as (H1 & _ & _ & H4); try done; [apply toy_agreement|].
  destruct (H4 demo_kdf (replicate 32 11)) as (keys & _ & E & _); try done; [apply demo_kdf_total|].
  exists keys. split; [exact E|]. rewrite <- E. symmetry. exact H1.
Defined.

Lemma demo_kdf_sizes : hash_sizes demo_kdf.
Proof. intros n b d Hn [= <-]. unfold zlen. rewrite length_replicate. lia. Qed.

Lemma session_is_of_its_ends_witness :
  exists keys, establish (Some toy_agree) (Some demo_kdf) (est_base (demo_secret 5) (demo_key 1) (demo_key 2) (demo_key 6)) = (FZN_SESSION_OK, Some keys) /\
    (same_parties (between (demo_key 1) (demo_key 5) (demo_key 2) (demo_key 6)) (between (demo_key 2) (demo_key 6) (demo_key 1) (demo_key 5)) \/
     exists x y, collide demo_kdf FZN_DERIVED_LEN (FZN_ROOT_LABEL ++ FZN_SESSION_LABEL ++ x) (FZN_ROOT_LABEL ++ FZN_SESSION_LABEL ++ y)).
Proof.
  assert (exists keys, establish (Some toy_agree) (Some demo_kdf) (est_base (demo_secret 5) (demo_key 1) (demo_key 2) (demo_key 6)) = (FZN_SESSION_OK, Some keys))
    as [keys E] by (eexists; vm_compute; reflexivity).
  assert (establish (Some toy_agree) (Some demo_kdf) (est_base (demo_secret 6) (demo_key 2) (demo_key 1) (demo_key 5)) = (FZN_SESSION_OK, Some keys)) as E'
    by (rewrite <- E; vm_compute; reflexivity).
  assert (forall dh a b s, agree toy_agree = Some dh -> dh a b = Some s -> zlen s = 32) as Hdh by (by intros dh a b s [= <-] [= <-]).
  assert (forall x y, parties_sized (between (demo_key x) (demo_key y) (demo_key 2) (demo_key 6)) /\
    parties_sized (between (demo_key 2) (demo_key 6) (demo_key x) (demo_key y))) as Hp by (intros x y; split; repeat constructor).
  exists keys. split; [exact E|].
  exact (proj1 (session_is_of_its_ends toy_agree demo_kdf
    (est_base (demo_secret 5) (demo_key 1) (demo_key 2) (demo_key 6)) (est_base (demo_secret 6) (demo_key 2) (demo_key 1) (demo_key 5)) keys demo_kdf_sizes Hdh (proj1 (Hp 1 5)) (proj2 (Hp 1 5)) E E')).
Defined.
