(* ===== verification/Box.v ===== *)
(** * session/box.c: a sealed box to a prekey

    A payload sealed to a public key under an ephemeral one. The agreement,
    the hash, the cipher and the source of randomness are the consumer's;
    [fill] is [None] where the function is NULL, and otherwise what it fills a
    buffer of a length with, [None] where it refuses. The cipher's functions
    are called untested and are arguments. The other pointers are given, a
    buffer is its capacity, and the wiping of locals is left out. *)

From S2P Require Import Prelude Bytes Hop Revocation Seal Ratchet Session.

Definition FZN_BOX_MARK : Z := 251.
Definition FZN_BOX_VERSION : Z := 1.
Definition FZN_BOX_HEAD_LEN : Z := 2 + FZN_AGREE_PUBLIC_LEN.
Definition FZN_BOX_OVERHEAD : Z := FZN_BOX_HEAD_LEN + FZN_AEAD_TAG_LEN.

Inductive fzn_box_err := FZN_BOX_OK | FZN_BOX_ERR_MALFORMED | FZN_BOX_ERR_SHAPE | FZN_BOX_ERR_OPEN | FZN_BOX_ERR_OPS.

(** ["fuzznet.box"] and its NUL. *)
Definition LABEL : bytes := [102; 117; 122; 122; 110; 101; 116; 46; 98; 111; 120; 0].

Definition fzn_box_is (b : bytes) : bool :=
  (zlen b >=? FZN_BOX_OVERHEAD) && (peek b 0 =? FZN_BOX_MARK) && (peek b 1 =? FZN_BOX_VERSION).

Definition box_key (hash : fzn_hash_ops) (eph recipient shared : bytes) : option bytes :=
  hash FZN_AEAD_KEY_LEN (LABEL ++ eph ++ recipient ++ shared).

Definition zero_secret : fzn_agree_secret := mk_secret (zeros FZN_AGREE_SECRET_LEN) (zeros FZN_AGREE_PUBLIC_LEN) 0 false.

(** The ephemeral public key and the key, where every step answers. *)
Definition box_ephemeral (agree : fzn_agree_ops) (hash : fzn_hash_ops) (seed recipient : bytes) : option (bytes * bytes) :=
  match fzn_agree_secret_install zero_secret (Some agree) seed with
  | (FZN_AGREE_OK, eph) =>
    match fzn_agree_shared eph (Some agree) recipient, fzn_agree_secret_public eph with
    | (FZN_AGREE_OK, Some shared), Some pub => (fun key => (pub, key)) <$> box_key hash pub recipient shared
    | _, _ => None
    end
  | _ => None
  end.

Definition box_plain (out pub payload : bytes) : bytes :=
  let out := poke out 0 FZN_BOX_MARK in
  let out := poke out 1 FZN_BOX_VERSION in
  let out := blit 2 pub out in
  blit FZN_BOX_HEAD_LEN payload out.

Section Ops.
Context (agree : fzn_agree_ops) (hash : fzn_hash_ops).
Context (seal : bytes -> bytes -> bytes -> bytes -> bool * bytes * bytes).
Context (open : bytes -> bytes -> bytes -> bytes -> bytes -> bool * bytes).

Definition fzn_box_seal (fill : option (Z -> option bytes)) (recipient payload out : bytes) : fzn_box_err * bytes * option Z :=
  match fill with
  | None => (FZN_BOX_ERR_MALFORMED, out, None)
  | Some fill =>
    if (zlen out <? FZN_BOX_OVERHEAD) || (zlen out - FZN_BOX_OVERHEAD <? zlen payload) then (FZN_BOX_ERR_MALFORMED, out, None)
    else match fill FZN_AGREE_SECRET_LEN ≫= fun seed => box_ephemeral agree hash seed recipient with
    | None => (FZN_BOX_ERR_OPS, out, None)
    | Some (pub, key) =>
      let out := box_plain out pub payload in
      let len := zlen payload in
      match seal key (zeros FZN_AEAD_NONCE_LEN) (slice 0 FZN_BOX_HEAD_LEN out) (slice FZN_BOX_HEAD_LEN len out) with
      | (false, text, tag) => (FZN_BOX_ERR_OPS, blit (FZN_BOX_HEAD_LEN + len) tag (blit FZN_BOX_HEAD_LEN text out), None)
      | (true, text, tag) =>
        (FZN_BOX_OK, blit (FZN_BOX_HEAD_LEN + len) tag (blit FZN_BOX_HEAD_LEN text out), Some (FZN_BOX_OVERHEAD + len))
      end
    end
  end.

Definition fzn_box_open (secret : fzn_agree_secret) (box out : bytes) : fzn_box_err * bytes * option Z :=
  if negb (fzn_box_is box) then (FZN_BOX_ERR_SHAPE, out, None)
  else
    let n := zlen box - FZN_BOX_OVERHEAD in
    if zlen out <? n then (FZN_BOX_ERR_MALFORMED, out, None)
    else match fzn_agree_secret_public secret with
    | None => (FZN_BOX_ERR_OPEN, out, None)
    | Some mine =>
      let eph := slice 2 FZN_AGREE_PUBLIC_LEN box in
      match fzn_agree_shared secret (Some agree) eph with
      | (FZN_AGREE_OK, Some shared) =>
        match box_key hash eph mine shared with
        | None => (FZN_BOX_ERR_OPEN, out, None)
        | Some key =>
          let out := blit 0 (slice FZN_BOX_HEAD_LEN n box) out in
          match open key (zeros FZN_AEAD_NONCE_LEN) (slice 0 FZN_BOX_HEAD_LEN box) (slice 0 n out)
                  (slice (FZN_BOX_HEAD_LEN + n) FZN_AEAD_TAG_LEN box) with
          | (false, _) => (FZN_BOX_ERR_OPEN, blit 0 (zeros n) out, None)
          | (true, text) => (FZN_BOX_OK, blit 0 text out, Some n)
          end
        end
      | _ => (FZN_BOX_ERR_OPEN, out, None)
      end
    end.
End Ops.

(** ** A box sealed is a box opened *)

Lemma blit_front {A} (src l : list A) : blit 0 src l = src ++ drop (length src) l.
Proof. done. Qed.

Lemma box_plain_parts out pub payload : zlen pub = 32 ->
  box_plain out pub payload = ([251; 1] ++ pub) ++ payload ++ drop (34 + length payload) out.
Proof.
  intros Hp. transitivity (blits 0 [[251]; [1]; pub; payload] out).
  - cbn [blits]. rewrite Hp. reflexivity.
  - rewrite blits_start. cbn [concat]. rewrite app_nil_r.
    replace (length ([251] ++ [1] ++ pub ++ payload)) with (34 + length payload)%nat by (cbn; rewrite length_app; unfold zlen in *; lia).
    by rewrite <- !app_assoc.
Qed.

Section Round.
Context (agree : fzn_agree_ops) (pub : bytes -> bytes) (dh : bytes -> bytes -> option bytes) `{!Agreement agree pub dh}.
Context (Hpub : forall s, zlen (pub s) = 32).

Lemma ephemeral_ok hash seed recipient : box_ephemeral agree hash seed recipient =
  dh seed recipient ≫= fun shared => (fun key => (pub seed, key)) <$> box_key hash (pub seed) recipient shared.
Proof using All.
  unfold box_ephemeral, fzn_agree_secret_install. cbn [mbind option_bind]. rewrite ag_public. cbn [sk_live].
  unfold fzn_agree_shared. cbn [mbind option_bind]. rewrite ag_agree. cbn [sk_live sk_secret negb].
  unfold fzn_agree_secret_public. cbn [sk_live sk_public_key]. by destruct (dh seed recipient).
Qed.

Context (aead : fzn_aead_ops) (seal : bytes -> bytes -> bytes -> bytes -> bool * bytes * bytes).
Context (open : bytes -> bytes -> bytes -> bytes -> bytes -> bool * bytes) (Haead : aead_ok aead seal open).

(** A box, in its parts. *)
Lemma box_seal_parts hash fill recipient payload out out' n :
  fzn_box_seal agree hash seal fill recipient payload out = (FZN_BOX_OK, out', Some n) ->
  exists seed shared key text tag, fill ≫= (fun f => f FZN_AGREE_SECRET_LEN) = Some seed /\ dh seed recipient = Some shared /\
    box_key hash (pub seed) recipient shared = Some key /\
    seal key (zeros FZN_AEAD_NONCE_LEN) ([251; 1] ++ pub seed) payload = (true, text, tag) /\
    zlen text = zlen payload /\ zlen tag = 16 /\ n = 50 + zlen payload /\ n <= zlen out /\
    out' = (([251; 1] ++ pub seed) ++ text ++ tag) ++ drop (Z.to_nat n) out.
Proof using All.
  unfold fzn_box_seal. destruct fill as [fill|]; [|done]. change FZN_BOX_OVERHEAD with 50. change FZN_BOX_HEAD_LEN with 34.
  destruct (Z.ltb_spec (zlen out) 50); cbn [orb]; [done|]. destruct (Z.ltb_spec (zlen out - 50) (zlen payload)); [done|]. cbn [mbind option_bind].
  destruct (fill FZN_AGREE_SECRET_LEN) as [seed|]; cbn [mbind option_bind]; [|done]. rewrite ephemeral_ok.
  destruct (dh seed recipient) as [shared|] eqn:Ed; cbn [mbind option_bind]; [|done]. destruct (box_key _ _ _ _) as [key|] eqn:Ek; cbn [fmap option_fmap option_map]; [|done].
  rewrite (box_plain_parts out (pub seed)) by done. set (head := [251; 1] ++ pub seed).
  assert (zlen head = 34) as Hh by (unfold head; rewrite zlen_app, Hpub; done).
  rewrite (slice_front head) by done. rewrite (slice_mid head) by done.
  destruct (seal key _ head payload) as [[[] text] tag] eqn:Es; [|done]. set (res := blit _ tag _). intros [= <- <-].
  destruct (ao_roundtrip _ _ _ Haead _ _ _ _ _ _ Es) as (Ht & Hg & _). change FZN_AEAD_TAG_LEN with 16 in Hg.
  exists seed, shared, key, text, tag. split_and!; try done; try lia.
  fold head. unfold res. rewrite blit_next by done. rewrite blit_next by (rewrite zlen_app; lia). rewrite <- !app_assoc. do 3 f_equal.
  rewrite drop_drop, drop_app_ge by (unfold zlen in *; lia). rewrite drop_drop. f_equal. unfold zlen in *. lia.
Qed.
End Round.

(** C34: a sealed box is opened by whom it was sealed to. With an agreement
    that answers the same from either side, a box sealed to a host's public
    key is, of the buffer, its first [n] bytes, the rest being as they were,
    and no longer than the payload and the overhead; it is one by its first
    bytes; and the host that holds the secret opens it, into any buffer with
    room, to the payload that was sealed and nothing after it. *)
Theorem sealed_boxes_open agree pub dh aead seal open hash fill secret payload out out' n into :
  Agreement agree pub dh -> (forall s, zlen (pub s) = FZN_AGREE_PUBLIC_LEN) -> aead_ok aead seal open -> holds pub secret ->
  fzn_box_seal agree hash seal fill (pub (sk_secret secret)) payload out = (FZN_BOX_OK, out', Some n) ->
  zlen payload <= zlen into ->
  let box := take (Z.to_nat n) out' in
  n = FZN_BOX_OVERHEAD + zlen payload /\ drop (Z.to_nat n) out' = drop (Z.to_nat n) out /\ zlen box = n /\ fzn_box_is box = true /\
  fzn_box_open agree hash open secret box into =
    (FZN_BOX_OK, payload ++ drop (length payload) into, Some (zlen payload)).
Proof.
  intros Hag Hpub Haead Hold E Hroom box. change FZN_AGREE_PUBLIC_LEN with 32 in Hpub. change FZN_BOX_OVERHEAD with 50.
  destruct (box_seal_parts agree pub dh Hpub aead seal open Haead _ _ _ _ _ _ _ E) as (seed & shared & key & text & tag & _ & Hdh & Hk & Es & Ht & Hg & Hn & Hle & Ho).
  set (head := [251; 1] ++ pub seed) in *. assert (zlen head = 34) as Hh by (unfold head; rewrite zlen_app, Hpub; done).
  pose proof (zlen_nonneg payload).
  assert (length (head ++ text ++ tag) = Z.to_nat n) as Hl by (rewrite !length_app; unfold zlen in *; lia).
  assert (box = head ++ text ++ tag) as -> by (unfold box; rewrite Ho; by apply take_app_length').
  assert (zlen (head ++ text ++ tag) = n) as Hz by (unfold zlen; lia).
  assert (fzn_box_is (head ++ text ++ tag) = true) as His.
  { unfold fzn_box_is. rewrite Hz. change FZN_BOX_OVERHEAD with 50. rewrite Z.geb_leb. destruct (Z.leb_spec 50 n); [done|lia]. }
  split_and!; try done; try lia; [rewrite Ho; by apply drop_app_length'|].
  unfold fzn_box_open. rewrite His, Hz. cbn [negb]. change FZN_BOX_OVERHEAD with 50. change FZN_BOX_HEAD_LEN with 34.
  change FZN_AGREE_PUBLIC_LEN with 32. change FZN_AEAD_TAG_LEN with 16.
  replace (n - 50) with (zlen payload) by lia. destruct (Z.ltb_spec (zlen into) (zlen payload)); [lia|].
  rewrite (holds_public pub) by done.
  assert (slice 2 32 (head ++ text ++ tag) = pub seed) as ->.
  { unfold head. rewrite <- app_assoc. apply (slice_mid [251; 1]); [done|apply Hpub]. }
  unfold fzn_agree_shared. cbn [mbind option_bind]. rewrite ag_agree. destruct Hold as [Hlive _]. rewrite Hlive. cbn [negb].
  rewrite (ag_comm _ seed), Hdh, Hk. cbv zeta.
  rewrite (slice_front head) by done. rewrite (slice_mid head) by (done || lia).
  rewrite <- (app_nil_r tag) at 1. rewrite (app_assoc head text). rewrite (slice_mid (head ++ text)) by (rewrite ?zlen_app; lia).
  rewrite (blit_front text).
  rewrite (slice_front text) by done. pose proof (proj2 (proj2 (ao_roundtrip _ _ _ Haead _ _ _ _ _ _ Es))) as ->.
  rewrite (blit_front payload). do 3 f_equal.
  assert (length payload = length text) as -> by (unfold zlen in Ht; lia). apply drop_app_length.
Qed.

(** Another recipient, another ephemeral key or another agreement is another
    key. *)
Lemma box_key_binds hash eph recipient shared eph' recipient' shared' key :
  zlen eph = 32 -> zlen eph' = 32 -> zlen recipient = 32 -> zlen recipient' = 32 ->
  box_key hash eph recipient shared = Some key -> box_key hash eph' recipient' shared' = Some key ->
  (eph = eph' /\ recipient = recipient' /\ shared = shared') \/ exists x y, collide hash FZN_AEAD_KEY_LEN (LABEL ++ x) (LABEL ++ y).
Proof.
  intros He He' Hr Hr' H1 H2. destruct (same_hash _ _ _ _ _ H1 H2) as [E|C]; [left|right; eauto].
  apply app_inv_head in E. apply app_inj_1 in E as [-> E]; [|unfold zlen in *; lia]. by apply app_inj_1 in E as [-> ->]; [|unfold zlen in *; lia].
Qed.

(** A cipher that refuses and leaves its text alone leaves the payload in the
    caller's buffer. *)
Lemma refused_box_keeps_the_payload agree pub dh hash fill seed key shared recipient payload out tag :
  Agreement agree pub dh -> (forall s, zlen (pub s) = FZN_AGREE_PUBLIC_LEN) ->
  fill FZN_AGREE_SECRET_LEN = Some seed -> dh seed recipient = Some shared -> box_key hash (pub seed) recipient shared = Some key ->
  FZN_BOX_OVERHEAD + zlen payload <= zlen out ->
  exists out', fzn_box_seal agree hash (fun _ _ _ text => (false, text, tag)) (Some fill) recipient payload out = (FZN_BOX_ERR_OPS, out', None) /\
    slice FZN_BOX_HEAD_LEN (zlen payload) out' = payload.
Proof.
  intros Hag Hpub Hf Hd Hk Hroom. change FZN_AGREE_PUBLIC_LEN with 32 in Hpub. pose proof (zlen_nonneg payload). unfold fzn_box_seal.
  change FZN_BOX_OVERHEAD with 50 in *. change FZN_BOX_HEAD_LEN with 34.
  destruct (Z.ltb_spec (zlen out) 50); cbn [orb]; [lia|]. destruct (Z.ltb_spec (zlen out - 50) (zlen payload)); [lia|].
  rewrite Hf. cbn [mbind option_bind]. rewrite (ephemeral_ok agree pub dh Hpub), Hd. cbn [mbind option_bind]. rewrite Hk. cbn [fmap option_fmap option_map].
  rewrite (box_plain_parts out (pub seed)) by done. set (head := [251; 1] ++ pub seed).
  assert (zlen head = 34) as Hh by (unfold head; rewrite zlen_app, Hpub; done).
  rewrite (slice_mid head) by done. eexists. split; [reflexivity|].
  rewrite blit_next by done. rewrite blit_next by (rewrite zlen_app; lia). rewrite <- !app_assoc. by apply slice_mid.
Qed.

(** An agreement over the first bytes of its keys. *)
Definition first_pub (s : bytes) : bytes := replicate 32 (peek s 0).
Definition first_dh (s p : bytes) : option bytes := Some (replicate 32 (u8 (peek s 0 + peek p 0))).
Definition first_agree : fzn_agree_ops := mk_agree (Some (fun s => Some (first_pub s))) (Some first_dh).

#[export] Instance first_agreement : Agreement first_agree first_pub first_dh.
Proof.
  split; [done|done|]. intros a b. unfold first_dh, first_pub. change (peek (replicate 32 (peek b 0)) 0) with (peek b 0).
  change (peek (replicate 32 (peek a 0)) 0) with (peek a 0). by rewrite Z.add_comm.
Qed.

Lemma sealed_boxes_open_witness : exists box,
  fzn_box_seal first_agree (fun n b => Some (zeros n)) toy_seal (Some (fun n => Some (replicate (Z.to_nat n) 9))) (replicate 32 5) [1; 2; 3] (zeros 60) =
    (FZN_BOX_OK, box, Some 53) /\
  fzn_box_open first_agree (fun n b => Some (zeros n)) toy_open (mk_secret (replicate 32 5) (replicate 32 5) 0 true) (take 53 box) (zeros 4) =
    (FZN_BOX_OK, [1; 2; 3; 0], Some 3).
Proof.
  assert (holds first_pub (mk_secret (replicate 32 5) (replicate 32 5) 0 true)) as Hold by (split; reflexivity).
  assert (forall s, zlen (first_pub s) = FZN_AGREE_PUBLIC_LEN) as Hpub by (intros s; reflexivity).
  set (box := snd (fst (fzn_box_seal first_agree (fun n b => Some (zeros n)) toy_seal (Some (fun n => Some (replicate (Z.to_nat n) 9))) (replicate 32 5) [1; 2; 3] (zeros 60)))).
  exists box. assert (fzn_box_seal first_agree (fun n b => Some (zeros n)) toy_seal (Some (fun n => Some (replicate (Z.to_nat n) 9)))
    (first_pub (replicate 32 5)) [1; 2; 3] (zeros 60) = (FZN_BOX_OK, box, Some 53)) as E by (vm_compute; reflexivity).
  split; [exact E|].
  exact (proj2 (proj2 (proj2 (proj2 (sealed_boxes_open first_agree first_pub first_dh toy_aead toy_seal toy_open (fun n b => Some (zeros n)) _ _ _ _ _ _ (zeros 4)
    first_agreement Hpub toy_aead_ok Hold E ltac:(vm_compute; discriminate)))))).
Defined.
