(* ===== verification/Records.v ===== *)
(** * record/record.c and record/record.h: signed, sequenced statements

    A record is a 124-byte header, a body of up to 512 bytes and a signature
    over both, read through accessors. A view is the bytes it spans; a view
    with no base is [None]. *)

From S2P Require Import Prelude Bytes Hop Revocation Chain.

Definition FZN_SUBJECT_LEN : Z := 32.
Definition FZN_RECORD_BODY_MAX : Z := 512.
Definition FZN_RECORD_ID_LEN : Z := 32.

Definition FZN_RECORD_OFF_VERSION : Z := 0.
Definition FZN_RECORD_OFF_OBJECT : Z := FZN_RECORD_OFF_VERSION + 1.
Definition FZN_RECORD_OFF_ISSUER : Z := FZN_RECORD_OFF_OBJECT + 1.
Definition FZN_RECORD_OFF_SUBJECT : Z := FZN_RECORD_OFF_ISSUER + FZN_PUBKEY_LEN.
Definition FZN_RECORD_OFF_STREAM : Z := FZN_RECORD_OFF_SUBJECT + FZN_SUBJECT_LEN.
Definition FZN_RECORD_OFF_KIND : Z := FZN_RECORD_OFF_STREAM + 4.
Definition FZN_RECORD_OFF_SEQ : Z := FZN_RECORD_OFF_KIND + 4.
Definition FZN_RECORD_OFF_PREV : Z := FZN_RECORD_OFF_SEQ + 8.
Definition FZN_RECORD_OFF_ISSUED_AT : Z := FZN_RECORD_OFF_PREV + FZN_RECORD_ID_LEN.
Definition FZN_RECORD_OFF_BODY_LEN : Z := FZN_RECORD_OFF_ISSUED_AT + 8.
Definition FZN_RECORD_OFF_BODY : Z := FZN_RECORD_OFF_BODY_LEN + 2.
Definition FZN_RECORD_HEADER_LEN : Z := FZN_RECORD_OFF_BODY.
Definition FZN_RECORD_MIN_LEN : Z := FZN_RECORD_HEADER_LEN + FZN_SIG_LEN.
Definition FZN_RECORD_MAX_LEN : Z := FZN_RECORD_HEADER_LEN + FZN_RECORD_BODY_MAX + FZN_SIG_LEN.
Definition FZN_RECORD_SECONDS_BELOW : Z := 100000000000.

Inductive fzn_record_err :=
| FZN_RECORD_OK | FZN_RECORD_ERR_MALFORMED | FZN_RECORD_ERR_UNSIGNED | FZN_RECORD_ERR_BODY_TOO_LARGE
| FZN_RECORD_ERR_SEQ_ZERO | FZN_RECORD_ERR_SHAPE.

#[export] Instance fzn_record_err_eq_dec : EqDecision fzn_record_err.
Proof. solve_decision. Defined.

(** The bytes an opened view spans. *)
Abbreviation fzn_record := bytes (only parsing).

Definition fzn_record_issuer (r : fzn_record) : bytes := slice FZN_RECORD_OFF_ISSUER FZN_PUBKEY_LEN r.
Definition fzn_record_subject (r : fzn_record) : bytes := slice FZN_RECORD_OFF_SUBJECT FZN_SUBJECT_LEN r.
Definition fzn_record_stream (r : fzn_record) : Z := fzn_get_be32 r FZN_RECORD_OFF_STREAM.
Definition fzn_record_kind (r : fzn_record) : Z := fzn_get_be32 r FZN_RECORD_OFF_KIND.
Definition fzn_record_seq (r : fzn_record) : Z := fzn_get_be64 r FZN_RECORD_OFF_SEQ.
Definition fzn_record_prev (r : fzn_record) : bytes := slice FZN_RECORD_OFF_PREV FZN_RECORD_ID_LEN r.
Definition fzn_record_issued_at (r : fzn_record) : Z := fzn_get_be64 r FZN_RECORD_OFF_ISSUED_AT.
Definition fzn_record_issued_ms (r : fzn_record) : Z :=
  let at_ := fzn_record_issued_at r in
  if at_ <? FZN_RECORD_SECONDS_BELOW then u64 (at_ * 1000) else at_.
Definition fzn_record_body_len (r : fzn_record) : Z := fzn_get_be16 r FZN_RECORD_OFF_BODY_LEN.
(** The body, as far as [fzn_record_body_len] says it goes. *)
Definition fzn_record_body (r : fzn_record) : bytes := slice FZN_RECORD_OFF_BODY (fzn_record_body_len r) r.
Definition fzn_record_signature (r : fzn_record) : bytes := slice (zlen r - FZN_SIG_LEN) FZN_SIG_LEN r.
Definition fzn_record_signed_bytes (r : fzn_record) : bytes := slice 0 (zlen r - FZN_SIG_LEN) r.

Definition prev_is_zero (p : bytes) : bool := fold_left (fun acc x => u8 (Z.lor acc x)) p 0 =? 0.

(** The [len] of the call is the length of the bytes. *)
Definition fzn_record_open (b : option bytes) : fzn_record_err * option fzn_record :=
  match b with
  | None => (FZN_RECORD_ERR_MALFORMED, None)
  | Some b =>
    if zlen b <? FZN_RECORD_MIN_LEN then (FZN_RECORD_ERR_SHAPE, None)
    else if negb (peek b FZN_RECORD_OFF_VERSION =? FZN_SIGNED_VERSION) then (FZN_RECORD_ERR_SHAPE, None)
    else if negb (peek b FZN_RECORD_OFF_OBJECT =? FZN_OBJECT_RECORD) then (FZN_RECORD_ERR_SHAPE, None)
    else
      let body_len := fzn_get_be16 b FZN_RECORD_OFF_BODY_LEN in
      if body_len >? FZN_RECORD_BODY_MAX then (FZN_RECORD_ERR_BODY_TOO_LARGE, None)
      else if negb (zlen b =? FZN_RECORD_HEADER_LEN + body_len + FZN_SIG_LEN)
      then (FZN_RECORD_ERR_SHAPE, None)
      else if fzn_get_be64 b FZN_RECORD_OFF_SEQ =? 0 then (FZN_RECORD_ERR_SEQ_ZERO, None)
      else if (fzn_get_be64 b FZN_RECORD_OFF_SEQ =? 1)
              && negb (prev_is_zero (slice FZN_RECORD_OFF_PREV FZN_RECORD_ID_LEN b))
      then (FZN_RECORD_ERR_SHAPE, None)
      else (FZN_RECORD_OK, Some b)
  end.

Definition fzn_record_is_open (r : option bytes) : bool :=
  match r with
  | None => false
  | Some r =>
    if zlen r <? FZN_RECORD_MIN_LEN then false
    else if negb (peek r FZN_RECORD_OFF_VERSION =? FZN_SIGNED_VERSION) then false
    else if negb (peek r FZN_RECORD_OFF_OBJECT =? FZN_OBJECT_RECORD) then false
    else
      let body_len := fzn_get_be16 r FZN_RECORD_OFF_BODY_LEN in
      if body_len >? FZN_RECORD_BODY_MAX then false
      else if fzn_get_be64 r FZN_RECORD_OFF_SEQ =? 0 then false
      else if (fzn_get_be64 r FZN_RECORD_OFF_SEQ =? 1)
              && negb (prev_is_zero (slice FZN_RECORD_OFF_PREV FZN_RECORD_ID_LEN r))
      then false
      else zlen r =? FZN_RECORD_HEADER_LEN + body_len + FZN_SIG_LEN
  end.

(** [None] for the operations is a NULL vtable. *)
Definition fzn_record_verify (record : option bytes) (ops : option fzn_sign_ops) : fzn_record_err :=
  match ops with
  | None => FZN_RECORD_ERR_MALFORMED
  | Some ops =>
    match verify ops with
    | None => FZN_RECORD_ERR_MALFORMED
    | Some verify =>
      match record with
      | None => FZN_RECORD_ERR_MALFORMED
      | Some r =>
        if negb (fzn_record_is_open (Some r)) then FZN_RECORD_ERR_MALFORMED
        else if negb (verify (fzn_record_issuer r) (fzn_record_signed_bytes r) (fzn_record_signature r))
        then FZN_RECORD_ERR_UNSIGNED
        else FZN_RECORD_OK
      end
    end
  end.

(** The writes of [fzn_record_sign] up to the signature, in order. *)
Definition record_write (out issuer subject : bytes) (stream kind seq : Z) (prev : option bytes)
    (issued_at : Z) (body : option bytes) (body_len : Z) : bytes :=
  let out := poke out FZN_RECORD_OFF_VERSION FZN_SIGNED_VERSION in
  let out := poke out FZN_RECORD_OFF_OBJECT FZN_OBJECT_RECORD in
  let out := blit FZN_RECORD_OFF_ISSUER issuer out in
  let out := blit FZN_RECORD_OFF_SUBJECT subject out in
  let out := fzn_put_be32 out FZN_RECORD_OFF_STREAM stream in
  let out := fzn_put_be32 out FZN_RECORD_OFF_KIND kind in
  let out := fzn_put_be64 out FZN_RECORD_OFF_SEQ seq in
  let out := blit FZN_RECORD_OFF_PREV
               (match prev with Some prev => prev | None => zeros FZN_RECORD_ID_LEN end) out in
  let out := fzn_put_be64 out FZN_RECORD_OFF_ISSUED_AT issued_at in
  let out := fzn_put_be16 out FZN_RECORD_OFF_BODY_LEN (u16 body_len) in
  match body with
  | Some body => if negb (body_len =? 0) then blit FZN_RECORD_OFF_BODY (slice 0 body_len body) out else out
  | None => out
  end.

(** [out] holds [out_cap] bytes; the result is the buffer and [*out_len] where
    it is written. *)
Definition fzn_record_sign (issuer subject : option bytes) (stream kind seq : Z) (prev : option bytes)
    (issued_at : Z) (body : option bytes) (body_len : Z) (ops : option fzn_sign_ops) (out : bytes)
    : fzn_record_err * bytes * option Z :=
  match issuer, subject, ops ≫= sign with
  | Some issuer, Some subject, Some sign =>
    if match body with None => negb (body_len =? 0) | Some _ => false end
    then (FZN_RECORD_ERR_MALFORMED, out, None)
    else if body_len >? FZN_RECORD_BODY_MAX then (FZN_RECORD_ERR_BODY_TOO_LARGE, out, None)
    else if seq =? 0 then (FZN_RECORD_ERR_SEQ_ZERO, out, None)
    else if (seq =? 1) && match prev with Some prev => negb (prev_is_zero prev) | None => false end
    then (FZN_RECORD_ERR_MALFORMED, out, None)
    else
      let signed_len := FZN_RECORD_HEADER_LEN + body_len in
      if zlen out <? signed_len + FZN_SIG_LEN then (FZN_RECORD_ERR_MALFORMED, out, None)
      else
        let out := record_write out issuer subject stream kind seq prev issued_at body body_len in
        match sign (slice 0 signed_len out) with
        | None => (FZN_RECORD_ERR_UNSIGNED, blit signed_len (zeros FZN_SIG_LEN) out, None)
        | Some sig => (FZN_RECORD_OK, blit signed_len sig out, Some (signed_len + FZN_SIG_LEN))
        end
  | _, _, _ => (FZN_RECORD_ERR_MALFORMED, out, None)
  end.

(** ** Two gates that agree *)

Lemma open_is_open b :
  fzn_record_open (Some b) = (FZN_RECORD_OK, Some b) <-> fzn_record_is_open (Some b) = true.
Proof.
  unfold fzn_record_open, fzn_record_is_open. split; intros H; guards; simplify_eq; bool_props; try done; lia.
Qed.

Lemma open_cases b :
  fzn_record_open (Some b) = (FZN_RECORD_OK, Some b) \/
  exists e, e <> FZN_RECORD_OK /\ fzn_record_open (Some b) = (e, None).
Proof. unfold fzn_record_open. guards; auto; right; eexists; (split; [|reflexivity]); done. Qed.

Lemma open_some b r : fzn_record_open (Some b) = (FZN_RECORD_OK, r) -> r = Some b.
Proof. destruct (open_cases b) as [E | (e & He & E)]; rewrite E; congruence. Qed.

(** What [fzn_record_open] accepts. *)
Record opens (b : bytes) : Prop := {
  op_len : zlen b = FZN_RECORD_HEADER_LEN + fzn_record_body_len b + FZN_SIG_LEN;
  op_version : peek b FZN_RECORD_OFF_VERSION = FZN_SIGNED_VERSION;
  op_object : peek b FZN_RECORD_OFF_OBJECT = FZN_OBJECT_RECORD;
  op_body : fzn_record_body_len b <= FZN_RECORD_BODY_MAX;
  op_seq : fzn_record_seq b <> 0;
  op_first : fzn_record_seq b = 1 -> prev_is_zero (fzn_record_prev b) = true
}.

Lemma body_len_def b : fzn_record_body_len b = fzn_get_be16 b FZN_RECORD_OFF_BODY_LEN.
Proof. reflexivity. Qed.
Lemma seq_def b : fzn_record_seq b = fzn_get_be64 b FZN_RECORD_OFF_SEQ.
Proof. reflexivity. Qed.
Lemma prev_def b : fzn_record_prev b = slice FZN_RECORD_OFF_PREV FZN_RECORD_ID_LEN b.
Proof. reflexivity. Qed.

Lemma opens_of b : fzn_record_is_open (Some b) = true -> opens b.
Proof.
  unfold fzn_record_is_open. rewrite <- body_len_def, <- seq_def, <- prev_def.
  destruct (zlen b <? FZN_RECORD_MIN_LEN); [discriminate|].
  destruct (Z.eqb_spec (peek b FZN_RECORD_OFF_VERSION) FZN_SIGNED_VERSION) as [Hv|]; [|discriminate].
  destruct (Z.eqb_spec (peek b FZN_RECORD_OFF_OBJECT) FZN_OBJECT_RECORD) as [Ho|]; [|discriminate]. cbn [negb].
  destruct (Z.gtb_spec (fzn_record_body_len b) FZN_RECORD_BODY_MAX) as [|Hm]; [discriminate|].
  destruct (Z.eqb_spec (fzn_record_seq b) 0) as [|Hs]; [discriminate|].
  destruct ((fzn_record_seq b =? 1) && negb (prev_is_zero (fzn_record_prev b))) eqn:Hf; [discriminate|].
  intros Hl%Z.eqb_eq. constructor; auto.
  intros E. rewrite E in Hf. cbn [andb] in Hf. by apply negb_false_iff.
Qed.

Lemma body_len_range b : Forall in_u8 b -> 0 <= fzn_record_body_len b.
Proof. intros Hb. destruct (get_be16_range b FZN_RECORD_OFF_BODY_LEN Hb) as [H _]. exact H. Qed.

Lemma opens_is_open b : Forall in_u8 b -> opens b -> fzn_record_is_open (Some b) = true.
Proof.
  intros Hb%body_len_range [Hl Hv Ho Hm Hs Hf].
  unfold fzn_record_is_open. rewrite <- body_len_def, <- seq_def, <- prev_def.
  rewrite Hv, Ho, !Z.eqb_refl. cbn [negb].
  destruct (Z.ltb_spec (zlen b) FZN_RECORD_MIN_LEN) as [Hlt|]; [unfold FZN_RECORD_MIN_LEN in Hlt; lia|].
  destruct (Z.gtb_spec (fzn_record_body_len b) FZN_RECORD_BODY_MAX); [lia|].
  destruct (Z.eqb_spec (fzn_record_seq b) 0); [lia|].
  destruct (Z.eqb_spec (fzn_record_seq b) 1) as [E|]; cbn [andb]; [rewrite (Hf E); cbn [negb]|];
    by apply Z.eqb_eq.
Qed.

(** ** The one encoding of a record's fields *)

Definition record_fields (iss subj : bytes) (stream kind seq : Z) (prev : bytes) (iat : Z) (body sig : bytes)
    : list bytes :=
  [[1; 130]; iss; subj; be32 stream; be32 kind; be64 seq; prev; be64 iat; be16 (zlen body); body; sig].

Definition record_bytes iss subj stream kind seq prev iat body sig : bytes :=
  concat (record_fields iss subj stream kind seq prev iat body sig).

Section Fields.
Context (iss subj prev body sig : bytes) (stream kind seq iat : Z).
Context (Hiss : is_bytes 32 iss) (Hsubj : is_bytes 32 subj) (Hprev : is_bytes 32 prev).
Context (Hbody : zlen body <= FZN_RECORD_BODY_MAX) (Hbodyr : Forall in_u8 body) (Hsig : is_bytes 64 sig).
Context (Hstream : in_u32 stream) (Hkind : in_u32 kind) (Hseq : in_u64 seq) (Hiat : in_u64 iat).

Let b := record_bytes iss subj stream kind seq prev iat body sig.

Ltac widths := cbn [take record_fields concat]; rewrite ?zlen_app, ?zlen_be64, ?zlen_be32, ?zlen_be16, ?zlen_nil;
  destruct Hiss as [Li _], Hsubj as [Ls _], Hprev as [Lp _], Hsig as [Lg _]; rewrite ?Li, ?Ls, ?Lp, ?Lg;
  change (zlen [1; 130]) with 2; change FZN_SIG_LEN with 64; change FZN_RECORD_HEADER_LEN with 124;
  clear -iss; first [reflexivity | lia].

(** Field [i], at its offset. *)
Lemma field_at i f off n :
  record_fields iss subj stream kind seq prev iat body sig !! i = Some f ->
  zlen (concat (take i (record_fields iss subj stream kind seq prev iat body sig))) = off ->
  zlen f = n -> slice off n b = f.
Proof. apply slice_field. Qed.

Lemma record_bytes_len : zlen b = FZN_RECORD_HEADER_LEN + zlen body + FZN_SIG_LEN.
Proof.
  unfold b, record_bytes. widths.
Qed.

Lemma record_bytes_range : Forall in_u8 b.
Proof.
  unfold b, record_bytes. cbn [record_fields concat]. destruct Hiss, Hsubj, Hprev, Hsig.
  rewrite !Forall_app. split_and!; auto using be32_range, be64_range, be16_range;
    repeat constructor; try ulia.
Qed.

Lemma record_bytes_accessors :
  fzn_record_issuer b = iss /\ fzn_record_subject b = subj /\ fzn_record_stream b = stream /\
  fzn_record_kind b = kind /\ fzn_record_seq b = seq /\ fzn_record_prev b = prev /\
  fzn_record_issued_at b = iat /\ fzn_record_body b = body /\ fzn_record_signature b = sig /\
  fzn_record_body_len b = zlen body.
Proof.
  assert (fzn_record_body_len b = zlen body) as El.
  { unfold fzn_record_body_len. apply get_be16_of; [done| |apply (field_at 8); [reflexivity|widths|reflexivity]].
    unfold FZN_RECORD_BODY_MAX in Hbody. pose proof (zlen_nonneg body). ulia. }
  split_and!; [..|exact El].
  - apply (field_at 1); [reflexivity|widths|apply Hiss].
  - apply (field_at 2); [reflexivity|widths|apply Hsubj].
  - unfold fzn_record_stream. apply get_be32_of; [done|exact Hstream|]. apply (field_at 3); [reflexivity|widths|reflexivity].
  - unfold fzn_record_kind. apply get_be32_of; [done|exact Hkind|]. apply (field_at 4); [reflexivity|widths|reflexivity].
  - unfold fzn_record_seq. apply get_be64_of; [done|exact Hseq|]. apply (field_at 5); [reflexivity|widths|reflexivity].
  - apply (field_at 6); [reflexivity|widths|apply Hprev].
  - unfold fzn_record_issued_at. apply get_be64_of; [done|exact Hiat|]. apply (field_at 7); [reflexivity|widths|reflexivity].
  - unfold fzn_record_body. rewrite El. apply (field_at 9); [reflexivity|widths|reflexivity].
  - unfold fzn_record_signature. rewrite record_bytes_len. apply (field_at 10); [reflexivity| |apply Hsig].
    widths.
Qed.

Lemma record_bytes_signed :
  fzn_record_signed_bytes b = concat (take 10 (record_fields iss subj stream kind seq prev iat body [])).
Proof.
  unfold fzn_record_signed_bytes. rewrite record_bytes_len. unfold b, record_bytes.
  cbn [record_fields concat take]. rewrite !app_nil_r.
  set (h := [1; 130] ++ iss ++ subj ++ be32 stream ++ be32 kind ++ be64 seq ++ prev ++ be64 iat ++ be16 (zlen body) ++ body).
  replace ([1; 130] ++ iss ++ subj ++ be32 stream ++ be32 kind ++ be64 seq ++ prev ++ be64 iat ++ be16 (zlen body) ++ body ++ sig)
    with ([] ++ h ++ sig) by (unfold h; rewrite <- !app_assoc; reflexivity).
  apply slice_mid; [done|]. unfold h. widths.
Qed.

Lemma record_bytes_opens : seq <> 0 -> (seq = 1 -> prev_is_zero prev = true) -> opens b.
Proof.
  intros Hz Hf. destruct record_bytes_accessors as (_ & _ & _ & _ & Eq & Ep & _ & _ & _ & El).
  split; rewrite ?El, ?Eq, ?Ep; auto. apply record_bytes_len.
Qed.
End Fields.

(** An opened record is the encoding of what its accessors read. *)
Lemma record_open_canonical b :
  Forall in_u8 b -> opens b ->
  b = record_bytes (fzn_record_issuer b) (fzn_record_subject b) (fzn_record_stream b) (fzn_record_kind b)
        (fzn_record_seq b) (fzn_record_prev b) (fzn_record_issued_at b) (fzn_record_body b)
        (fzn_record_signature b).
Proof.
  intros Hb [Hl Hv Ho Hm _ _]. pose proof (body_len_range b Hb) as Hn.
  change FZN_RECORD_HEADER_LEN with 124 in Hl. change FZN_SIG_LEN with 64 in Hl. unfold FZN_RECORD_BODY_MAX in Hm.
  assert (zlen (fzn_record_body b) = fzn_record_body_len b) as Hbl.
  { apply zlen_slice; [done|lia|]. change FZN_RECORD_OFF_BODY with 124. lia. }
  unfold record_bytes, record_fields. cbn [concat]. rewrite Hbl, app_nil_r.
  unfold fzn_record_stream, fzn_record_kind, fzn_record_seq, fzn_record_issued_at, fzn_record_body_len at 1.
  rewrite !be32_get, !be64_get, be16_get
    by (first [assumption | done | match goal with |- ?o + ?n <= _ => let v := eval vm_compute in (o + n) in
         change (o + n) with v end; lia]).
  assert ([1; 130] = slice 0 2 b) as ->.
  { rewrite (slice_cut b 0 1 1), !slice_1 by lia. change (0 + 1) with 1.
    change FZN_RECORD_OFF_VERSION with 0 in Hv. change FZN_RECORD_OFF_OBJECT with 1 in Ho. by rewrite Hv, Ho. }
  unfold fzn_record_body, fzn_record_signature. rewrite Hl. set (n := fzn_record_body_len b) in *.
  replace (124 + n + 64 - FZN_SIG_LEN) with (124 + n) by (unfold FZN_SIG_LEN; lia).
  rewrite <- (slice_all (188 + n) b) at 1 by lia.
  rewrite (slice_cut b 0 2 (186 + n)), (slice_cut b (0 + 2) 32 (154 + n)), (slice_cut b (0 + 2 + 32) 32 (122 + n)),
    (slice_cut b (0 + 2 + 32 + 32) 4 (118 + n)), (slice_cut b (0 + 2 + 32 + 32 + 4) 4 (114 + n)),
    (slice_cut b (0 + 2 + 32 + 32 + 4 + 4) 8 (106 + n)), (slice_cut b (0 + 2 + 32 + 32 + 4 + 4 + 8) 32 (74 + n)),
    (slice_cut b (0 + 2 + 32 + 32 + 4 + 4 + 8 + 32) 8 (66 + n)),
    (slice_cut b (0 + 2 + 32 + 32 + 4 + 4 + 8 + 32 + 8) 2 (64 + n)),
    (slice_cut b (0 + 2 + 32 + 32 + 4 + 4 + 8 + 32 + 8 + 2) n 64) by lia.
  reflexivity.
Qed.

(** ** Signing *)

(** The body handed to [fzn_record_sign]. *)
Definition body_of (body : option bytes) (body_len : Z) : bytes :=
  match body with Some b => slice 0 body_len b | None => [] end.

Lemma zlen_body_of body body_len :
  0 <= body_len -> (if body is Some b then body_len <= zlen b else body_len = 0) -> zlen (body_of body body_len) = body_len.
Proof. destruct body as [b|]; cbn; intros; [by apply zlen_slice; lia|by subst]. Qed.

Lemma record_write_layout out iss subj stream kind seq prev iat body body_len :
  is_bytes 32 iss -> is_bytes 32 subj -> (if prev is Some p then is_bytes 32 p else True) ->
  0 <= body_len <= FZN_RECORD_BODY_MAX -> (if body is Some b then body_len <= zlen b else body_len = 0) ->
  124 + body_len <= zlen out ->
  record_write out iss subj stream kind seq prev iat body body_len =
    concat (take 10 (record_fields iss subj stream kind seq (default (zeros 32) prev) iat (body_of body body_len) []))
      ++ drop (Z.to_nat (124 + body_len)) out.
Proof.
  intros [Hi _] [Hs _] Hp Hn Hb Ho. set (p := default (zeros 32) prev).
  assert (zlen p = 32) as Hpl by (unfold p; destruct prev; cbn; [apply Hp|reflexivity]).
  assert (match prev with Some prev => prev | None => zeros FZN_RECORD_ID_LEN end = p) as Ep by (by destruct prev).
  clearbody p.
  assert (u16 body_len = body_len) as Eu by (apply u16_small; unfold FZN_RECORD_BODY_MAX in Hn; ulia).
  unfold record_write, poke, fzn_put_be16, fzn_put_be32, fzn_put_be64. rewrite Ep, Eu.
  change out with ([] ++ out).
  rewrite (blit_next [] out [u8 FZN_SIGNED_VERSION]) by done.
  erewrite blit_next by done. erewrite blit_next by done.
  do 7 (erewrite blit_next by (rewrite ?zlen_app, ?zlen_be64, ?zlen_be32, ?Hi, ?Hs, ?Hpl; reflexivity)).
  rewrite !drop_drop. cbn [take record_fields concat]. rewrite zlen_body_of, app_nil_r by (done || lia).
  set (h := (_ ++ be16 body_len)%list).
  assert (zlen h = 124) as Hh by (unfold h; rewrite ?zlen_app, ?zlen_be64, ?zlen_be32, ?Hi, ?Hs, ?Hpl; reflexivity).
  match goal with |- context [drop ?k out] => assert (k = 124%nat) as -> end.
  { unfold zlen in Hi, Hs, Hpl. unfold be64, be32, be16. rewrite ?length_app. cbn [length]. clear -Hi Hs Hpl. lia. }
  assert (forall x : bytes, [1; 130] ++ iss ++ subj ++ be32 stream ++ be32 kind ++ be64 seq ++ p ++ be64 iat
    ++ be16 body_len ++ x = h ++ x) as Eh by (intros x; unfold h; rewrite <- !app_assoc; reflexivity).
  rewrite Eh. destruct body as [b|]; cbn [body_of].
  - destruct (Z.eqb_spec body_len 0) as [->|Hne]; cbn [negb].
    + change (slice 0 0 b) with (@nil Z). by rewrite app_nil_r.
    + rewrite blit_next by exact Hh. rewrite drop_drop, <- !app_assoc.
      pose proof (zlen_slice 0 body_len b ltac:(lia) ltac:(lia) ltac:(lia)) as Hz. unfold zlen in Hz.
      by replace (Z.to_nat (124 + body_len)) with (124 + length (slice 0 body_len b))%nat by lia.
  - rewrite Hb. by rewrite app_nil_r.
Qed.

(** What signing leaves in the buffer, given what the signer answers. *)
Lemma record_sign_ok ops sg iss subj stream kind seq prev iat body body_len out sig :
  sign ops = Some sg -> is_bytes 32 iss -> is_bytes 32 subj -> (if prev is Some p then is_bytes 32 p else True) ->
  seq <> 0 -> (seq = 1 -> if prev is Some p then prev_is_zero p = true else True) ->
  0 <= body_len <= FZN_RECORD_BODY_MAX -> (if body is Some b then body_len <= zlen b else body_len = 0) ->
  188 + body_len <= zlen out -> is_bytes 64 sig ->
  let pv := default (zeros 32) prev in
  let bd := body_of body body_len in
  sg (concat (take 10 (record_fields iss subj stream kind seq pv iat bd []))) = Some sig ->
  fzn_record_sign (Some iss) (Some subj) stream kind seq prev iat body body_len (Some ops) out
  = (FZN_RECORD_OK, record_bytes iss subj stream kind seq pv iat bd sig ++ drop (Z.to_nat (188 + body_len)) out,
     Some (188 + body_len)).
Proof.
  intros Hsg Hiss Hsubj Hprev Hz Hf Hn Hb Ho Hsb pv bd Hsig.
  set (signed := concat (take 10 (record_fields iss subj stream kind seq pv iat bd []))) in *.
  set (r := record_bytes iss subj stream kind seq pv iat bd sig).
  assert (signed ++ sig = r) as Er.
  { unfold signed, r, record_bytes. cbn [take record_fields concat]. rewrite !app_nil_r, <- !app_assoc. reflexivity. }
  assert (zlen signed = 124 + body_len) as Hsl.
  { assert (is_bytes 32 pv) as [Lp _] by (unfold pv; destruct prev; [done|split; [reflexivity|apply zeros_range]]).
    destruct Hiss as [Li _], Hsubj as [Ls _]. assert (zlen bd = body_len) as Lb by (apply zlen_body_of; [lia|done]).
    unfold signed. cbn [take record_fields concat]. rewrite ?zlen_app, ?zlen_be64, ?zlen_be32, ?zlen_be16, ?zlen_nil.
    rewrite Li, Ls, Lp, Lb. change (zlen [1; 130]) with 2. lia. }
  unfold fzn_record_sign. cbn [mbind option_bind]. rewrite Hsg.
  destruct (match body with None => _ | Some _ => _ end) eqn:E1; [exfalso; destruct body; [done|]; lia|].
  destruct (Z.gtb_spec body_len FZN_RECORD_BODY_MAX); [lia|]. destruct (Z.eqb_spec seq 0); [lia|].
  destruct ((seq =? 1) && _) eqn:E2.
  { exfalso. apply andb_true_iff in E2 as [E2%Z.eqb_eq E3]. specialize (Hf E2). destruct prev; [|done]. by rewrite Hf in E3. }
  change (FZN_RECORD_HEADER_LEN + body_len) with (124 + body_len). change FZN_SIG_LEN with 64.
  destruct (Z.ltb_spec (zlen out) (124 + body_len + 64)); [lia|].
  rewrite record_write_layout by (auto; lia). fold pv bd. fold signed.
  rewrite (slice_mid [] signed _ 0 (124 + body_len) eq_refl Hsl : slice 0 (124 + body_len) (signed ++ _) = signed), Hsig.
  replace (124 + body_len + 64) with (188 + body_len) by lia.
  rewrite blit_next by exact Hsl. rewrite Er, drop_drop. destruct Hsb as [Hsb _].
  by replace (Z.to_nat (124 + body_len) + length sig)%nat with (Z.to_nat (188 + body_len)) by (unfold zlen in Hsb; lia).
Qed.

(** One encoding per record, and no forging past the gate. Signing with a
    working signer succeeds into any buffer that holds the record, whatever
    the buffer held before; what it leaves opens, verifies under the issuer's
    key, and reads back every field, body included; and whatever bytes off the
    wire pass [fzn_record_open] (equally, pass [fzn_record_is_open]) are
    exactly the encoding of the fields their accessors read, so one signed
    record is never two. *)
Theorem record_roundtrip ops vf sg iss subj stream kind seq prev iat body body_len out :
  verify ops = Some vf -> sign ops = Some sg -> (forall m, exists sig, sg m = Some sig) ->
  signs_for ops vf iss -> is_bytes 32 iss -> is_bytes 32 subj -> (if prev is Some p then is_bytes 32 p else True) ->
  in_u32 stream -> in_u32 kind -> in_u64 seq -> in_u64 iat -> seq <> 0 ->
  (seq = 1 -> if prev is Some p then prev_is_zero p = true else True) ->
  0 <= body_len <= FZN_RECORD_BODY_MAX ->
  (if body is Some b then body_len <= zlen b /\ Forall in_u8 b else body_len = 0) ->
  188 + body_len <= zlen out ->
  (exists out' r, fzn_record_sign (Some iss) (Some subj) stream kind seq prev iat body body_len (Some ops) out
     = (FZN_RECORD_OK, out', Some (188 + body_len)) /\
     r = slice 0 (188 + body_len) out' /\ slice (188 + body_len) (zlen out) out' = slice (188 + body_len) (zlen out) out /\
     fzn_record_open (Some r) = (FZN_RECORD_OK, Some r) /\ fzn_record_verify (Some r) (Some ops) = FZN_RECORD_OK /\
     fzn_record_issuer r = iss /\ fzn_record_subject r = subj /\ fzn_record_stream r = stream /\
     fzn_record_kind r = kind /\ fzn_record_seq r = seq /\ fzn_record_prev r = default (zeros 32) prev /\
     fzn_record_issued_at r = iat /\ fzn_record_body r = body_of body body_len) /\
  (forall b r, Forall in_u8 b -> fzn_record_open (Some b) = (FZN_RECORD_OK, r) ->
     r = Some b /\ fzn_record_is_open (Some b) = true /\
     b = record_bytes (fzn_record_issuer b) (fzn_record_subject b) (fzn_record_stream b) (fzn_record_kind b)
           (fzn_record_seq b) (fzn_record_prev b) (fzn_record_issued_at b) (fzn_record_body b)
           (fzn_record_signature b)).
Proof.
  intros Hvf Hsg Htot Hs Hiss Hsubj Hprev Hst Hk Hseq Hiat Hz Hf Hn Hb Ho. split.
  2: { intros b r Hbr Hop. pose proof (open_some b r Hop) as ->. split; [done|].
       apply open_is_open in Hop. split; [done|]. apply record_open_canonical; [done|]. by apply opens_of. }
  set (pv := default (zeros 32) prev). set (bd := body_of body body_len).
  assert (is_bytes 32 pv) as Hpv by (unfold pv; destruct prev; [done|split; [reflexivity|apply zeros_range]]).
  assert (if body is Some b then body_len <= zlen b else body_len = 0) as Hbl by (by destruct body; [apply Hb|]).
  assert (zlen bd = body_len) as Hbd by (apply zlen_body_of; [lia|done]).
  assert (Forall in_u8 bd) as Hbr.
  { unfold bd. destruct body as [b|]; cbn; [|constructor]. unfold slice. apply Forall_take, Forall_drop, Hb. }
  assert (seq = 1 -> prev_is_zero pv = true) as Hf'.
  { intros E. specialize (Hf E). unfold pv. destruct prev; [done|reflexivity]. }
  destruct (Htot (concat (take 10 (record_fields iss subj stream kind seq pv iat bd [])))) as [sig Hsig].
  destruct (Hs sg _ sig Hsg Hsig) as [Hsb Hv].
  exists (record_bytes iss subj stream kind seq pv iat bd sig ++ drop (Z.to_nat (188 + body_len)) out),
    (record_bytes iss subj stream kind seq pv iat bd sig).
  split; [by apply (record_sign_ok ops sg)|].
  pose proof (record_bytes_signed iss subj pv bd sig stream kind seq iat Hiss Hsubj Hpv Hsb) as Hsd.
  pose proof (record_bytes_len iss subj pv bd sig stream kind seq iat Hiss Hsubj Hpv Hsb) as Hrl.
  pose proof (record_bytes_range iss subj pv bd sig stream kind seq iat Hiss Hsubj Hpv Hbr Hsb) as Hrr.
  destruct (record_bytes_accessors iss subj pv bd sig stream kind seq iat) as (A1 & A2 & A3 & A4 & A5 & A6 & A7 & A8 & A9 & A10);
    auto; [lia|].
  pose proof (record_bytes_opens iss subj pv bd sig stream kind seq iat) as Hop.
  set (r := record_bytes iss subj stream kind seq pv iat bd sig) in *.
  assert (fzn_record_is_open (Some r) = true) as Hiso by (apply opens_is_open; auto; apply Hop; auto; lia).
  assert (zlen r = 188 + body_len) as Hr
    by (rewrite Hrl, Hbd; change FZN_RECORD_HEADER_LEN with 124; change FZN_SIG_LEN with 64; lia).
  split_and!; auto.
  - symmetry. apply (slice_mid [] r); done.
  - unfold slice. f_equal. rewrite drop_app_ge by (unfold zlen in Hr; lia).
    by replace (Z.to_nat (188 + body_len) - length r)%nat with 0%nat by (unfold zlen in Hr; lia).
  - by apply open_is_open.
  - unfold fzn_record_verify. rewrite Hvf, Hiso, A1, Hsd, A9, Hv. done.
Qed.

Lemma record_roundtrip_witness :
  exists out' r, fzn_record_sign (Some (demo_key 1)) (Some (demo_key 2)) 7 9 1 None 1000 (Some [5; 6; 7]) 2
                   (Some toy_ops) (replicate 200 9) = (FZN_RECORD_OK, out', Some 190) /\
    r = slice 0 190 out' /\ fzn_record_verify (Some r) (Some toy_ops) = FZN_RECORD_OK /\
    fzn_record_stream r = 7 /\ fzn_record_body r = [5; 6].
Proof.
  destruct (record_roundtrip toy_ops (fun _ _ sig => memeq sig (zeros 64)) (fun _ => Some (zeros 64))
    (demo_key 1) (demo_key 2) 7 9 1 None 1000 (Some [5; 6; 7]) 2 (replicate 200 9))
    as [(out' & r & Hs & Hr & _ & _ & Hv & _ & _ & Hst & _ & _ & _ & _ & Hb) _].
  - reflexivity.
  - reflexivity.
  - intros m. by eexists.
  - by apply toy_signs.
  - apply demo_key_is. ulia.
  - apply demo_key_is. ulia.
  - exact I.
  - ulia.
  - ulia.
  - ulia.
  - ulia.
  - lia.
  - intros _. exact I.
  - vm_compute. intuition discriminate.
  - split; [vm_compute; discriminate|]. repeat constructor; ulia.
  - vm_compute. discriminate.
  - exists out', r. split_and!; auto.
Defined.
