(* ===== verification/Tree.v ===== *)
(** * tree/tree.c: nodes and the parents they claim

    A node is a record whose body carries a parent, a place among siblings and
    content that means nothing here. Two records may claim different parents
    for one node, so the claims are a directed graph, with cycles; the walks
    below answer over it. An array of nodes is a list, a pointer into it an
    index; the array, the parent and the outputs are given. [qsort] is a sort
    by its comparison; no two pointers compare equal, so what it answers is
    determined. *)

From stdpp Require Import sorting sets.
From S2P Require Import Prelude Bytes Hop Revocation Records.

Definition FZN_TREE_ID_LEN : Z := FZN_SUBJECT_LEN.
Definition FZN_TREE_OFF_PARENT : Z := 0.
Definition FZN_TREE_OFF_ORDER : Z := FZN_TREE_OFF_PARENT + FZN_TREE_ID_LEN.
Definition FZN_TREE_OFF_CONTENT_TYPE : Z := FZN_TREE_OFF_ORDER + 8.
Definition FZN_TREE_OFF_CONTENT : Z := FZN_TREE_OFF_CONTENT_TYPE + 2.
Definition FZN_TREE_BODY_HEADER_LEN : Z := FZN_TREE_OFF_CONTENT.
Definition FZN_TREE_CONTENT_MAX : Z := FZN_RECORD_BODY_MAX - FZN_TREE_BODY_HEADER_LEN.

Inductive fzn_tree_err :=
| FZN_TREE_OK | FZN_TREE_ERR_SHORT_BODY | FZN_TREE_ERR_CONTENT_LEN | FZN_TREE_ERR_NULL | FZN_TREE_ERR_CAPACITY
| FZN_TREE_ERR_RANGE | FZN_TREE_ERR_CLOSED | FZN_TREE_ORDER_EXHAUSTED.

(** [content_len] is the length of [content]. *)
Record fzn_tree_node := mk_node {
  n_id : bytes; n_parent : bytes; n_content : bytes; n_order : Z; n_content_type : Z
}.

Record fzn_tree_walk := mk_walk { w_emitted : Z; w_examined : Z; w_truncated : bool }.

(** [None] is NULL. *)
Definition fzn_tree_is_root (id : option bytes) : bool :=
  match id with
  | None => false
  | Some id => forallb (fun x => x =? 0) (slice 0 FZN_TREE_ID_LEN id)
  end.

Definition fzn_tree_open (record : option fzn_record) : fzn_tree_err * option fzn_tree_node :=
  match record with
  | Some r =>
    if negb (fzn_record_is_open record) then (FZN_TREE_ERR_CLOSED, None)
    else
      let body_len := fzn_record_body_len r in
      if body_len <? FZN_TREE_BODY_HEADER_LEN then (FZN_TREE_ERR_SHORT_BODY, None)
      else
        let body := fzn_record_body r in
        (FZN_TREE_OK,
         Some (mk_node (fzn_record_subject r) (slice FZN_TREE_OFF_PARENT FZN_TREE_ID_LEN body)
                 (slice FZN_TREE_OFF_CONTENT (body_len - FZN_TREE_BODY_HEADER_LEN) body)
                 (fzn_get_be64 body FZN_TREE_OFF_ORDER) (fzn_get_be16 body FZN_TREE_OFF_CONTENT_TYPE)))
  | None => (FZN_TREE_ERR_CLOSED, None)
  end.

(** [out] is the caller's buffer, its length [out_cap]; the last component is
    [*out_len]. *)
Definition fzn_tree_body (parent : option bytes) (order content_type : Z) (content : option bytes) (content_len : Z)
    (out : bytes) : fzn_tree_err * bytes * option Z :=
  match parent with
  | None => (FZN_TREE_ERR_NULL, out, None)
  | Some parent =>
    if match content with None => negb (content_len =? 0) | Some _ => false end then (FZN_TREE_ERR_NULL, out, None)
    else if content_len >? FZN_TREE_CONTENT_MAX then (FZN_TREE_ERR_CONTENT_LEN, out, None)
    else
      let need := FZN_TREE_BODY_HEADER_LEN + content_len in
      if zlen out <? need then (FZN_TREE_ERR_CAPACITY, out, None)
      else
        let out := blit FZN_TREE_OFF_PARENT (slice 0 FZN_TREE_ID_LEN parent) out in
        let out := fzn_put_be64 out FZN_TREE_OFF_ORDER order in
        let out := fzn_put_be16 out FZN_TREE_OFF_CONTENT_TYPE content_type in
        let out := match content with
                   | Some content =>
                     if negb (content_len =? 0) then blit FZN_TREE_OFF_CONTENT (slice 0 content_len content) out else out
                   | None => out
                   end in
        (FZN_TREE_OK, out, Some need)
  end.

Definition fzn_tree_order_between (lo hi : Z) : fzn_tree_err * option Z :=
  if lo >? hi then (FZN_TREE_ERR_RANGE, None)
  else
    let out := u64 (lo + u64 (hi - lo) / 2) in
    if out =? lo then (FZN_TREE_ORDER_EXHAUSTED, Some out) else (FZN_TREE_OK, Some out).

Definition fzn_tree_cmp (a b : fzn_tree_node) : Z :=
  if n_order a <? n_order b then -1
  else if n_order a >? n_order b then 1
  else memcmp (n_id a) (n_id b).

(** ** The children of a node *)

Definition no_node : fzn_tree_node := mk_node [] [] [] 0 0.
(** [nodes[i]] *)
Definition node_at (nodes : list fzn_tree_node) (i : nat) : fzn_tree_node := nth i nodes no_node.

(** [x], [y] are pointers into [nodes]. *)
Definition child_cmp (nodes : list fzn_tree_node) (x y : nat) : Z :=
  let cmp := fzn_tree_cmp (node_at nodes x) (node_at nodes y) in
  if negb (cmp =? 0) then cmp else Z.b2z (y <? x)%nat - Z.b2z (x <? y)%nat.

(** The scan from [i] on; what it answers is appended to the array. *)
Fixpoint children_loop (nodes : list fzn_tree_node) (i : nat) (parent : bytes) (out_cap : Z) (walk : fzn_tree_walk)
    : list nat * fzn_tree_walk :=
  match nodes with
  | [] => ([], walk)
  | n :: nodes =>
    let walk := mk_walk (w_emitted walk) (w_examined walk + 1) (w_truncated walk) in
    if negb (memeq (n_parent n) parent) then children_loop nodes (S i) parent out_cap walk
    else if w_emitted walk =? out_cap
    then children_loop nodes (S i) parent out_cap (mk_walk (w_emitted walk) (w_examined walk) true)
    else
      let '(out, walk) := children_loop nodes (S i) parent out_cap
                            (mk_walk (w_emitted walk + 1) (w_examined walk) (w_truncated walk)) in
      (i :: out, walk)
  end.

Definition in_order (nodes : list fzn_tree_node) (x y : nat) : Prop := child_cmp nodes x y <= 0.

#[export] Instance in_order_dec nodes x y : Decision (in_order nodes x y).
Proof. unfold in_order. apply _. Defined.

(** [None] for the parent is NULL; the answer is what is written to [out]. *)
Definition fzn_tree_children (nodes : list fzn_tree_node) (parent : option bytes) (out_cap : Z)
    : fzn_tree_err * list nat * fzn_tree_walk :=
  match parent with
  | None => (FZN_TREE_ERR_NULL, [], mk_walk 0 0 false)
  | Some parent =>
    let '(out, walk) := children_loop nodes 0 parent out_cap (mk_walk 0 0 false) in
    (FZN_TREE_OK, if w_emitted walk >? 1 then merge_sort (in_order nodes) out else out, walk)
  end.

(** ** What the root can reach *)

(** [mark[i]] *)
Definition marked (mark : bytes) (i : nat) : bool := negb (nth i mark 0 =? 0).

(** The inner loop: some marked node is the parent of [n]. *)
Definition parent_marked (nodes : list fzn_tree_node) (mark : bytes) (n : fzn_tree_node) : bool :=
  existsb (fun j => marked mark j && memeq (n_id (node_at nodes j)) (n_parent n)) (seq 0 (length nodes)).

(** One pass over the nodes [todo]: the marks, whether any changed, and the
    visits so far. *)
Fixpoint reach_pass (nodes : list fzn_tree_node) (todo : list nat) (mark : bytes) (changed : bool) (examined : Z)
    : bytes * bool * Z :=
  match todo with
  | [] => (mark, changed, examined)
  | i :: todo =>
    if marked mark i then reach_pass nodes todo mark changed examined
    else
      let examined := examined + 1 in
      let n := node_at nodes i in
      if fzn_tree_is_root (Some (n_parent n)) then reach_pass nodes todo (<[i := 1]> mark) true examined
      else if parent_marked nodes mark n then reach_pass nodes todo (<[i := 1]> mark) true examined
      else reach_pass nodes todo mark changed examined
  end.

(** [do ... while (changed)], [fuel] passes at most. *)
Fixpoint reach_loop (fuel : nat) (nodes : list fzn_tree_node) (mark : bytes) (examined : Z) : option (bytes * Z) :=
  match fuel with
  | O => None
  | S fuel =>
    let '(mark, changed, examined) := reach_pass nodes (seq 0 (length nodes)) mark false examined in
    if changed then reach_loop fuel nodes mark examined else Some (mark, examined)
  end.

(** [mark] is the caller's array, its length [mark_cap]. A pass that marks
    nothing is the last, so one pass a node and one more are enough. *)
Definition fzn_tree_reachable (nodes : list fzn_tree_node) (mark : bytes) : option (fzn_tree_err * bytes * fzn_tree_walk) :=
  if zlen mark <? zlen nodes then Some (FZN_TREE_ERR_CAPACITY, mark, mk_walk 0 0 false)
  else
    let mark := replicate (length nodes) 0 ++ drop (length nodes) mark in
    match reach_loop (S (length nodes)) nodes mark 0 with
    | None => None
    | Some (mark, examined) =>
      Some (FZN_TREE_OK, mark, mk_walk (count (marked mark) (seq 0 (length nodes))) examined false)
    end.

(** ** Reachability *)

(** A claim the root can reach: its parent is the root, or a node some
    reachable claim is about. *)
Inductive reachable (nodes : list fzn_tree_node) : fzn_tree_node -> Prop :=
| reach_top n : n ∈ nodes -> fzn_tree_is_root (Some (n_parent n)) = true -> reachable nodes n
| reach_child n p : n ∈ nodes -> reachable nodes p -> n_id p = n_parent n -> reachable nodes n.

Lemma reachable_in nodes n : reachable nodes n -> n ∈ nodes.
Proof. by destruct 1. Qed.

Lemma reachable_same nodes nodes' n : (forall x, x ∈ nodes -> x ∈ nodes') -> reachable nodes n -> reachable nodes' n.
Proof. intros H. induction 1 as [n Hn Ht|n p Hn _ IH Hp]; [apply reach_top|eapply reach_child]; eauto. Qed.

Section Reach.
Context (nodes : list fzn_tree_node).

Definition marks_sound (mark : bytes) : Prop :=
  forall i n, nodes !! i = Some n -> marked mark i = true -> reachable nodes n.

(** Nothing more to mark at [i]. *)
Definition settled (mark : bytes) (i : nat) : Prop :=
  marked mark i = true \/
  fzn_tree_is_root (Some (n_parent (node_at nodes i))) = false /\ parent_marked nodes mark (node_at nodes i) = false.

Definition nmarked (mark : bytes) : Z := count (marked mark) (seq 0 (length nodes)).

Lemma marked_set mark i j : (i < length mark)%nat -> marked (<[i := 1]> mark) j = bool_decide (j = i) || marked mark j.
Proof.
  intros Hi. unfold marked. rewrite !nth_lookup. case_bool_decide as E.
  - subst j. by rewrite list_lookup_insert_eq.
  - by rewrite list_lookup_insert_ne.
Qed.

Lemma node_at_lookup i n : nodes !! i = Some n -> node_at nodes i = n.
Proof. apply nth_lookup_Some. Qed.

Lemma parent_marked_true mark n : parent_marked nodes mark n = true <->
  exists j p, nodes !! j = Some p /\ marked mark j = true /\ n_id p = n_parent n.
Proof.
  unfold parent_marked. rewrite existsb_exists. setoid_rewrite andb_true_iff. setoid_rewrite memeq_true. split.
  - intros (j & Hj & Hm & He). apply list_elem_of_In, elem_of_seq in Hj as [_ Hj]. cbn in Hj.
    destruct (lookup_lt_is_Some_2 nodes j Hj) as [p Hp]. exists j, p. rewrite (node_at_lookup _ _ Hp) in He. done.
  - intros (j & p & Hp & Hm & He). exists j. rewrite (node_at_lookup _ _ Hp). split; [|done].
    apply list_elem_of_In, elem_of_seq. apply lookup_lt_Some in Hp. lia.
Qed.

(** Marking [i], rightly. *)
Lemma mark_one mark i : (i < length nodes)%nat -> (length nodes <= length mark)%nat -> marks_sound mark -> marked mark i = false ->
  reachable nodes (node_at nodes i) ->
  let mark' := <[i := 1]> mark in
  length mark' = length mark /\ marks_sound mark' /\ (forall j, marked mark j = true -> marked mark' j = true) /\
  drop (length nodes) mark' = drop (length nodes) mark /\ nmarked mark < nmarked mark'.
Proof.
  intros Hi Hl Hs Hm Hr mark'. assert (forall j, marked mark j = true -> marked mark' j = true) as Hmono.
  { intros j Hj. unfold mark'. rewrite marked_set by lia. by rewrite Hj, orb_true_r. }
  split_and!; [by apply length_insert| |done| |].
  - intros j n Hn. unfold mark'. rewrite marked_set by lia. case_bool_decide as E; [|by apply Hs].
    subst j. by rewrite (node_at_lookup _ _ Hn) in Hr.
  - unfold mark'. by rewrite drop_insert_lt by lia.
  - apply (count_strict _ _ _ i); [done|apply elem_of_seq; lia|done|]. unfold mark'. rewrite marked_set by lia.
    by rewrite bool_decide_true.
Qed.

Lemma pass_spec todo : forall mark changed ex mark' changed' ex',
  reach_pass nodes todo mark changed ex = (mark', changed', ex') ->
  (forall i, i ∈ todo -> (i < length nodes)%nat) -> (length nodes <= length mark)%nat -> marks_sound mark ->
  length mark' = length mark /\ marks_sound mark' /\ (forall j, marked mark j = true -> marked mark' j = true) /\
  drop (length nodes) mark' = drop (length nodes) mark /\ ex <= ex' <= ex + zlen todo /\ nmarked mark <= nmarked mark' /\
  (if changed' then changed = true \/ nmarked mark < nmarked mark'
   else changed = false /\ mark' = mark /\ forall i, i ∈ todo -> settled mark i).
Proof.
  induction todo as [|i todo IH]; intros mark changed ex mark' changed' ex' Hp Hin Hl Hs; cbn [reach_pass] in Hp.
  { injection Hp as <- <- <-. rewrite zlen_nil. split_and!; auto; try lia. destruct changed; [by left|].
    split_and!; auto. intros i Hi. by apply not_elem_of_nil in Hi. }
  assert (zlen (i :: todo) = zlen todo + 1) as -> by (unfold zlen; cbn [length]; lia). pose proof (zlen_nonneg todo).
  assert (i < length nodes)%nat as Hi by (by apply Hin, elem_of_cons; left).
  assert (forall j, j ∈ todo -> (j < length nodes)%nat) as Hin' by (intros; by apply Hin, elem_of_cons; right).
  destruct (lookup_lt_is_Some_2 nodes i Hi) as [n Hn]. destruct (marked mark i) eqn:Hm.
  { destruct (IH _ _ _ _ _ _ Hp Hin' Hl Hs) as (H1 & H2 & H3 & H4 & H5 & H6 & H7). split_and!; auto; [lia|lia|].
    destruct changed'; [done|]. destruct H7 as (? & ? & H7). split_and!; auto. intros j Hj.
    apply elem_of_cons in Hj as [->|Hj]; [by left|by apply H7]. }
  assert (reachable nodes (node_at nodes i) ->
    reach_pass nodes todo (<[i := 1]> mark) true (ex + 1) = (mark', changed', ex') ->
    length mark' = length mark /\ marks_sound mark' /\ (forall j, marked mark j = true -> marked mark' j = true) /\
    drop (length nodes) mark' = drop (length nodes) mark /\ ex <= ex' <= ex + (zlen todo + 1) /\
    nmarked mark <= nmarked mark' /\ changed' = true /\ nmarked mark < nmarked mark') as Hset.
  { intros Hr Hp'. destruct (mark_one mark i Hi Hl Hs Hm Hr) as (M1 & M2 & M3 & M4 & M5).
    destruct (IH _ _ _ _ _ _ Hp' Hin') as (H1 & H2 & H3 & H4 & H5 & H6 & H7); [lia|done|].
    split_and!; auto; try lia; try congruence. }
  destruct (fzn_tree_is_root _) eqn:Et; [|destruct (parent_marked _ _ _) eqn:Ep].
  - destruct Hset as (? & ? & ? & ? & ? & ? & -> & ?); auto 10. apply reach_top; [|done].
    rewrite (node_at_lookup _ _ Hn). by eapply list_elem_of_lookup_2.
  - destruct Hset as (? & ? & ? & ? & ? & ? & -> & ?); auto 10.
    apply parent_marked_true in Ep as (j & p & Hj & Hmj & He). apply (reach_child _ _ p); [|by apply (Hs j)|done].
    rewrite (node_at_lookup _ _ Hn). by eapply list_elem_of_lookup_2.
  - destruct (IH _ _ _ _ _ _ Hp Hin' Hl Hs) as (H1 & H2 & H3 & H4 & H5 & H6 & H7). split_and!; auto; [lia|lia|].
    destruct changed'; [done|]. destruct H7 as (? & ? & H7). split_and!; auto. intros j Hj.
    apply elem_of_cons in Hj as [->|Hj]; [by right|by apply H7].
Qed.

(** What is settled everywhere marks all that can be reached. *)
Lemma settled_complete mark i n : (forall j, (j < length nodes)%nat -> settled mark j) ->
  nodes !! i = Some n -> reachable nodes n -> marked mark i = true.
Proof.
  intros Hall Hi Hr. revert i Hi. induction Hr as [n Hn Ht|n p Hn Hr IH He]; intros i Hi.
  - destruct (Hall i) as [?|[H _]]; [by eapply lookup_lt_Some|done|]. rewrite (node_at_lookup _ _ Hi) in H. congruence.
  - destruct (Hall i) as [?|[_ H]]; [by eapply lookup_lt_Some|done|]. rewrite (node_at_lookup _ _ Hi) in H.
    apply reachable_in, list_elem_of_lookup in Hr as [j Hj].
    assert (parent_marked nodes mark n = true); [|congruence]. apply parent_marked_true. exists j, p. auto.
Qed.

Lemma loop_spec fuel : forall mark ex,
  (length nodes <= length mark)%nat -> marks_sound mark -> zlen nodes - nmarked mark < Z.of_nat fuel ->
  exists mark' ex', reach_loop fuel nodes mark ex = Some (mark', ex') /\ length mark' = length mark /\
    drop (length nodes) mark' = drop (length nodes) mark /\
    ex <= ex' <= ex + zlen nodes * (zlen nodes - nmarked mark + 1) /\
    forall i n, nodes !! i = Some n -> (marked mark' i = true <-> reachable nodes n).
Proof.
  induction fuel as [|fuel IH]; intros mark ex Hl Hs Hf; cbn [reach_loop].
  { pose proof (count_le_zlen (marked mark) (seq 0 (length nodes))). unfold nmarked, zlen in *. rewrite length_seq in *. lia. }
  assert (zlen (seq 0 (length nodes)) = zlen nodes) as Ez by (unfold zlen; by rewrite length_seq).
  pose proof (count_le_zlen (marked mark) (seq 0 (length nodes))) as Hc. rewrite Ez in Hc. fold (nmarked mark) in Hc.
  pose proof (zlen_nonneg nodes).
  destruct (reach_pass _ _ _ _ _) as [[mark1 changed] ex1] eqn:Ep.
  destruct (pass_spec _ _ _ _ _ _ _ Ep) as (H1 & H2 & H3 & H4 & H5 & H6 & H7); auto.
  { intros i Hi. apply elem_of_seq in Hi. lia. }
  rewrite Ez in H5. destruct changed.
  - destruct H7 as [?|Hlt]; [done|]. destruct (IH mark1 ex1) as (mark' & ex' & -> & I1 & I2 & I3 & I4); [lia|done|lia|].
    exists mark', ex'. split_and!; auto; try congruence; try lia. nia.
  - destruct H7 as (_ & -> & Hset). exists mark, ex1. split_and!; auto; [lia|nia|].
    intros i n Hi. split; [by apply Hs|]. apply settled_complete; [|done]. intros j Hj. apply Hset, elem_of_seq. lia.
Qed.
End Reach.

(** C35: reachability is what it says, on any set of claims, cycles and all.
    With room for the marks the walk ends within the passes counted; a claim
    is marked exactly when the root can reach it; marks past the nodes are not
    touched; the visits are bounded by the square of the nodes. What is marked
    depends on which claims are held and not on how they are arranged, so two
    hosts with the same claims show the same tree. *)
Theorem reachable_is_exact nodes mark :
  zlen nodes <= zlen mark ->
  exists mark' walk, fzn_tree_reachable nodes mark = Some (FZN_TREE_OK, mark', walk) /\
    zlen mark' = zlen mark /\ drop (length nodes) mark' = drop (length nodes) mark /\
    (forall i n, nodes !! i = Some n -> (marked mark' i = true <-> reachable nodes n)) /\
    w_emitted walk = count (marked mark') (seq 0 (length nodes)) /\ w_truncated walk = false /\
    0 <= w_examined walk <= zlen nodes * (zlen nodes + 1) /\
    forall nodes' mark2 mark2' walk2 i j n, (forall x, x ∈ nodes <-> x ∈ nodes') ->
      fzn_tree_reachable nodes' mark2 = Some (FZN_TREE_OK, mark2', walk2) ->
      nodes !! i = Some n -> nodes' !! j = Some n -> marked mark' i = marked mark2' j.
Proof.
  assert (forall nodes mark, zlen nodes <= zlen mark ->
    exists mark' ex, fzn_tree_reachable nodes mark = Some (FZN_TREE_OK, mark', mk_walk (count (marked mark') (seq 0 (length nodes))) ex false) /\
      zlen mark' = zlen mark /\ drop (length nodes) mark' = drop (length nodes) mark /\
      0 <= ex <= zlen nodes * (zlen nodes + 1) /\
      forall i n, nodes !! i = Some n -> (marked mark' i = true <-> reachable nodes n)) as Hrun.
  { clear. intros nodes mark Hl. unfold fzn_tree_reachable. destruct (Z.ltb_spec (zlen mark) (zlen nodes)); [lia|].
    set (mark0 := replicate (length nodes) 0 ++ drop (length nodes) mark).
    assert (length mark0 = length mark) as Hm0 by (unfold mark0, zlen in *; rewrite length_app, length_replicate, length_drop; lia).
    assert (forall i, (i < length nodes)%nat -> marked mark0 i = false) as Hz.
    { intros i Hi. unfold marked, mark0. rewrite app_nth1 by (rewrite length_replicate; lia).
      by rewrite nth_lookup, lookup_replicate_2. }
    assert (nmarked nodes mark0 = 0) as Hn0.
    { apply count_none. intros i j Hj. apply lookup_seq in Hj as [-> Hj]. by apply Hz. }
    destruct (loop_spec nodes (S (length nodes)) mark0 0) as (mark' & ex & -> & H1 & H2 & H3 & H4).
    - unfold zlen in *. lia.
    - intros i n Hn Hm. rewrite Hz in Hm; [done|]. by eapply lookup_lt_Some.
    - rewrite Hn0. unfold zlen. lia.
    - exists mark', ex. rewrite Hn0, Z.sub_0_r in H3. split; [done|]. split; [unfold zlen; by rewrite H1, Hm0|].
      split; [rewrite H2; unfold mark0; by rewrite drop_app_length' by (by rewrite length_replicate)|]. split; [lia|done]. }
  intros Hl. destruct (Hrun nodes mark Hl) as (mark' & ex & E & H1 & H2 & H3 & H4). eexists mark', _. split; [exact E|].
  split_and!; auto; [apply H3..|]. intros nodes' mark2 mark2' walk2 i j n Hsame E2 Hi Hj.
  destruct (Z.lt_ge_cases (zlen mark2) (zlen nodes')) as [Hlt|Hge].
  { unfold fzn_tree_reachable in E2. destruct (Z.ltb_spec (zlen mark2) (zlen nodes')); [done|lia]. }
  destruct (Hrun nodes' mark2 Hge) as (m & ex2 & E3 & _ & _ & _ & H5). assert (m = mark2') as -> by congruence.
  apply Bool.eq_iff_eq_true. rewrite (H4 i n Hi), (H5 j n Hj). split; apply reachable_same; intros x; apply Hsame.
Qed.

(** ** Siblings *)

Definition ids_ok (nodes : list fzn_tree_node) : Prop := Forall (fun n => zlen (n_id n) = FZN_TREE_ID_LEN) nodes.

Section Children.
Context (nodes : list fzn_tree_node).
Hypothesis (Hids : ids_ok nodes).

Lemma id_len i : (i < length nodes)%nat -> length (n_id (node_at nodes i)) = 32%nat.
Proof.
  intros Hi. destruct (lookup_lt_is_Some_2 nodes i Hi) as [n Hn]. rewrite (node_at_lookup _ _ _ Hn).
  unfold ids_ok in Hids. rewrite Forall_lookup in Hids. specialize (Hids i n Hn). unfold zlen in Hids.
  change FZN_TREE_ID_LEN with 32 in Hids. lia.
Qed.

(** The order of siblings, written out. *)
Lemma child_cmp_le i j : (i < length nodes)%nat -> (j < length nodes)%nat ->
  let a := node_at nodes i in let b := node_at nodes j in
  in_order nodes i j <->
  n_order a < n_order b \/ n_order a = n_order b /\
    (memcmp (n_id a) (n_id b) < 0 \/ n_id a = n_id b /\ (i <= j)%nat).
Proof.
  intros Hi Hj a b. unfold in_order, child_cmp, fzn_tree_cmp. fold a b.
  pose proof (memcmp_zero (n_id a) (n_id b)) as Hz. specialize (Hz (eq_trans (id_len i Hi) (eq_sym (id_len j Hj)))).
  destruct (Z.ltb_spec (n_order a) (n_order b)); [cbn; lia|].
  destruct (Z.gtb_spec (n_order a) (n_order b)); [cbn; lia|].
  destruct (Z.eqb_spec (memcmp (n_id a) (n_id b)) 0) as [E|E]; cbn [negb].
  - apply proj1 in Hz. specialize (Hz E). transitivity (i <= j)%nat;
      [destruct (Nat.ltb_spec j i), (Nat.ltb_spec i j); cbn; lia|].
    split; [intros; right; split; [lia|by right]|]. intros [?|[_ [?|[_ ?]]]]; lia.
  - split; [intros; right; split; [lia|left; lia]|]. intros [?|[_ [?|[Heq _]]]]; [lia|lia|]. apply Hz in Heq. lia.
Qed.

Lemma child_cmp_opp i j : child_cmp nodes j i = - child_cmp nodes i j.
Proof.
  unfold child_cmp, fzn_tree_cmp. set (a := node_at nodes i). set (b := node_at nodes j).
  rewrite (memcmp_opp (n_id a) (n_id b)).
  destruct (Z.ltb_spec (n_order a) (n_order b)), (Z.ltb_spec (n_order b) (n_order a)), (Z.gtb_spec (n_order a) (n_order b)),
    (Z.gtb_spec (n_order b) (n_order a)); cbn; try lia.
  destruct (Z.eqb_spec (memcmp (n_id a) (n_id b)) 0), (Z.eqb_spec (- memcmp (n_id a) (n_id b)) 0); cbn [negb]; lia.
Qed.

#[local] Instance in_order_total : Total (in_order nodes).
Proof. intros i j. unfold in_order. rewrite (child_cmp_opp i j). lia. Qed.

Lemma in_order_trans i j k : (i < length nodes)%nat -> (j < length nodes)%nat -> (k < length nodes)%nat ->
  in_order nodes i j -> in_order nodes j k -> in_order nodes i k.
Proof.
  intros Hi Hj Hk. rewrite !child_cmp_le by done.
  set (a := node_at nodes i). set (b := node_at nodes j). set (c := node_at nodes k).
  pose proof (id_len i Hi) as La. pose proof (id_len j Hj) as Lb. pose proof (id_len k Hk) as Lc. fold a in La. fold b in Lb. fold c in Lc.
  pose proof (memcmp_trans (n_id a) (n_id b) (n_id c)) as Ht. pose proof (memcmp_zero (n_id a) (n_id c)) as Hz.
  intros [H1|[H1 [H1'|[H1' H1'']]]] [H2|[H2 [H2'|[H2' H2'']]]]; try (left; lia); right; (split; [lia|]).
  - left. specialize (Ht ltac:(lia) ltac:(lia) ltac:(lia) ltac:(lia)).
    destruct (Z.eq_dec (memcmp (n_id a) (n_id c)) 0) as [E|]; [|lia]. apply Hz in E; [|lia].
    rewrite E, (memcmp_opp (n_id b) (n_id c)) in H1'. lia.
  - left. by rewrite <- H2'.
  - left. by rewrite H1'.
  - right. split; [congruence|lia].
Qed.

Lemma in_order_same i j : (i < length nodes)%nat -> (j < length nodes)%nat -> in_order nodes i j -> in_order nodes j i -> i = j.
Proof.
  intros Hi Hj. rewrite !child_cmp_le by done. rewrite (memcmp_opp (n_id (node_at nodes i)) (n_id (node_at nodes j))).
  intros [?|[? [?|[E ?]]]] [?|[? [?|[E' ?]]]]; try lia.
  - rewrite E' in *. pose proof (memcmp_zero (n_id (node_at nodes i)) (n_id (node_at nodes i)) eq_refl) as [_ H']. specialize (H' eq_refl). lia.
  - rewrite E in *. pose proof (memcmp_zero (n_id (node_at nodes j)) (n_id (node_at nodes j)) eq_refl) as [_ H']. specialize (H' eq_refl). lia.
Qed.
End Children.

(** An order that is transitive on the elements of a list sorts it strongly. *)
Lemma Sorted_strongly {A} (R : relation A) l :
  (forall x y z, x ∈ l -> y ∈ l -> z ∈ l -> R x y -> R y z -> R x z) -> Sorted R l -> StronglySorted R l.
Proof.
  intros Ht. induction 1 as [|x l Hs IH Hhd]; [by constructor|].
  assert (StronglySorted R l) as Hss by (apply IH; intros y1 y2 y3 ? ? ?; apply Ht; by apply elem_of_cons; right).
  constructor; [done|]. destruct Hhd as [|y l Hxy]; [by constructor|]. apply StronglySorted_cons in Hss as [Hy _].
  constructor; [done|]. apply list.Forall_forall. intros z Hz. rewrite list.Forall_forall in Hy. apply (Ht x y z); set_solver.
Qed.

(** The claims of [parent], by their places from [i] on. *)
Definition kids (nodes : list fzn_tree_node) (parent : bytes) (i n : nat) : list nat :=
  filter (fun j => n_parent (node_at nodes j) = parent) (seq i n).

Lemma children_loop_spec nodes parent cap rest : forall pre i walk out walk', nodes = pre ++ rest -> i = length pre ->
  children_loop rest i parent cap walk = (out, walk') -> 0 <= w_emitted walk <= cap ->
  let ks := kids nodes parent i (length rest) in
  out = take (Z.to_nat (cap - w_emitted walk)) ks /\ w_emitted walk' = w_emitted walk + zlen out /\
  w_examined walk' = w_examined walk + zlen rest /\
  w_truncated walk' = (w_truncated walk || (w_emitted walk + zlen ks >? cap)).
Proof.
  induction rest as [|n rest IH]; intros pre i walk out walk' Hn Hi Hl Hcap; cbn [children_loop] in Hl.
  { injection Hl as <- <-. cbv zeta. unfold kids. cbn. rewrite take_nil. unfold zlen. cbn.
    rewrite !Z.add_0_r. split_and!; auto. destruct (Z.gtb_spec (w_emitted walk) cap); [lia|]. by rewrite orb_false_r. }
  assert (nodes = (pre ++ [n]) ++ rest) as Hn' by (by rewrite <- app_assoc).
  assert (S i = length (pre ++ [n])) as Hi' by (rewrite length_app, Hi; cbn; lia).
  assert (node_at nodes i = n) as Ei.
  { apply node_at_lookup. rewrite Hn, Hi. by apply list_lookup_middle. }
  assert (zlen (n :: rest) = zlen rest + 1) as -> by (unfold zlen; cbn [length]; lia).
  cbv zeta. change (kids nodes parent i (length (n :: rest))) with (filter (fun j => n_parent (node_at nodes j) = parent) (i :: seq (S i) (length rest))).
  rewrite filter_cons, Ei. fold (kids nodes parent (S i) (length rest)). set (ks := kids nodes parent (S i) (length rest)) in *.
  unfold memeq in Hl. destruct (decide (n_parent n = parent)) as [Hp|Hp]; [rewrite bool_decide_true in Hl by done|rewrite bool_decide_false in Hl by done]; cbn [negb w_emitted w_examined w_truncated] in Hl.
  - assert (zlen (i :: ks) = zlen ks + 1) as -> by (unfold zlen; cbn [length]; lia). pose proof (zlen_nonneg ks).
    destruct (Z.eqb_spec (w_emitted walk) cap) as [Ec|Ec].
    + destruct (IH _ _ _ _ _ Hn' Hi' Hl ltac:(cbn; lia)) as (-> & E2 & E3 & E4). cbn [w_emitted w_examined w_truncated] in *.
      rewrite Ec, Z.sub_diag in *. cbn [Z.to_nat] in *. rewrite !take_0 in *. split_and!; auto; [lia|]. rewrite E4. cbn.
      destruct (Z.gtb_spec (cap + (zlen ks + 1)) cap); [|lia]. by rewrite orb_true_r.
    + destruct (children_loop rest _ _ _ _) as [out1 walk1] eqn:El. injection Hl as <- <-.
      destruct (IH _ _ _ _ _ Hn' Hi' El ltac:(cbn; lia)) as (-> & E2 & E3 & E4). cbn [w_emitted w_examined w_truncated] in *. fold ks in E2, E4 |- *.
      replace (Z.to_nat (cap - w_emitted walk)) with (S (Z.to_nat (cap - (w_emitted walk + 1)))) by lia. cbn [take].
      split_and!; auto.
      * rewrite E2. unfold zlen. cbn [length]. lia.
      * lia.
      * rewrite E4. do 2 f_equal. lia.
  - destruct (IH _ _ _ _ _ Hn' Hi' Hl ltac:(cbn; lia)) as (-> & E2 & E3 & E4). cbn [w_emitted w_examined w_truncated] in *.
    split_and!; auto. lia.
Qed.

Lemma kids_in nodes parent j : j ∈ kids nodes parent 0 (length nodes) <-> (j < length nodes)%nat /\ n_parent (node_at nodes j) = parent.
Proof. unfold kids. rewrite list_elem_of_filter, elem_of_seq. intuition lia. Qed.

(** What [fzn_tree_children] writes. *)
Lemma children_spec nodes parent cap : ids_ok nodes -> 0 <= cap ->
  let ks := kids nodes parent 0 (length nodes) in
  exists out walk, fzn_tree_children nodes (Some parent) cap = (FZN_TREE_OK, out, walk) /\
    out ≡ₚ take (Z.to_nat cap) ks /\ StronglySorted (in_order nodes) out /\ w_examined walk = zlen nodes /\
    w_emitted walk = zlen out /\ w_truncated walk = (zlen ks >? cap).
Proof.
  intros Hids Hcap ks. unfold fzn_tree_children.
  destruct (children_loop nodes 0 parent cap (mk_walk 0 0 false)) as [out walk] eqn:El.
  destruct (children_loop_spec nodes parent cap nodes [] 0 _ _ _ eq_refl eq_refl El ltac:(cbn; lia)) as (Eo & E2 & E3 & E4).
  cbn [w_emitted w_examined w_truncated] in *. rewrite Z.sub_0_r in Eo. rewrite Z.add_0_l in *. fold ks in Eo, E4.
  assert (forall l, l ≡ₚ out -> Sorted (in_order nodes) l -> StronglySorted (in_order nodes) l) as Hss.
  { intros l Hl. apply Sorted_strongly. intros x y z Hx Hy Hz. rewrite Hl, Eo in Hx, Hy, Hz.
    assert (forall j, j ∈ take (Z.to_nat cap) ks -> (j < length nodes)%nat) as Hlt.
    { intros j Hj. apply list_elem_of_lookup in Hj as [p Hj]. apply lookup_take_Some in Hj as [Hj _].
      apply list_elem_of_lookup_2 in Hj. by apply kids_in in Hj as [? _]. }
    by apply in_order_trans; auto. }
  destruct (Z.gtb_spec (w_emitted walk) 1) as [Hgt|Hle].
  - eexists _, walk. split; [done|]. pose proof (merge_sort_Permutation (in_order nodes) out) as Hp.
    split_and!; [by rewrite Hp, Eo| |done| |done].
    + apply Hss; [done|]. apply Sorted_merge_sort. apply in_order_total.
    + rewrite E2. unfold zlen. by rewrite Hp.
  - eexists out, walk. split; [done|]. split_and!; [by rewrite Eo| |done|done|done]. apply Hss; [done|].
    unfold zlen in E2. destruct out as [|x [|y out]]; [constructor|repeat constructor|cbn in E2; lia].
Qed.

Lemma filter_of_fmap {A B} (f : A -> B) (P : B -> Prop) `{forall x, Decision (P x)} (l : list A) :
  f <$> filter (fun x => P (f x)) l = filter P (f <$> l).
Proof. induction l as [|x l IH]; [done|]. rewrite fmap_cons, !filter_cons. destruct (decide _); [rewrite fmap_cons|]; by rewrite IH. Qed.

(** The claims of a parent, read off the array, are the array's. *)
Lemma kids_nodes nodes parent :
  node_at nodes <$> kids nodes parent 0 (length nodes) = filter (fun n => n_parent n = parent) nodes.
Proof.
  transitivity (filter (fun n => n_parent n = parent) (node_at nodes <$> seq 0 (length nodes)));
    [exact (filter_of_fmap (node_at nodes) (fun n => n_parent n = parent) (seq 0 (length nodes)))|].
  f_equal. apply list_eq. intros i.
  rewrite list_lookup_fmap. destruct (decide (i < length nodes)%nat) as [Hi|Hi].
  - rewrite lookup_seq_lt by done. destruct (lookup_lt_is_Some_2 nodes i Hi) as [n Hn].
    cbn. by rewrite (node_at_lookup _ _ _ Hn), Hn.
  - rewrite lookup_seq_ge by lia. rewrite (lookup_ge_None_2 nodes) by lia. done.
Qed.

Lemma in_order_cmp nodes i j : in_order nodes i j -> fzn_tree_cmp (node_at nodes i) (node_at nodes j) <= 0.
Proof. unfold in_order, child_cmp. destruct (Z.eqb_spec (fzn_tree_cmp (node_at nodes i) (node_at nodes j)) 0); cbn [negb]; lia. Qed.

Lemma cmp_alike a b : length (n_id a) = length (n_id b) -> fzn_tree_cmp a b <= 0 -> fzn_tree_cmp b a <= 0 ->
  n_order a = n_order b /\ n_id a = n_id b.
Proof.
  intros Hl. unfold fzn_tree_cmp. pose proof (memcmp_zero _ _ Hl) as [Hz _]. rewrite (memcmp_opp (n_id a) (n_id b)).
  destruct (Z.ltb_spec (n_order a) (n_order b)), (Z.gtb_spec (n_order a) (n_order b)), (Z.ltb_spec (n_order b) (n_order a)),
    (Z.gtb_spec (n_order b) (n_order a)); try lia. intros. split; [lia|]. apply Hz. lia.
Qed.

(** The children of a node, in an order every host computes alike. The
    walk looks at every claim, answers the claims of that parent, all of them
    unless it says [truncated], which it says exactly when they do not fit;
    what it answers is in the order (order, id) and claims alike in both stay
    as they stood. Where it is not truncated and no two claims of the parent
    are alike in order and id, another host that holds the same claims in any
    arrangement answers the same nodes in the same order. *)
Theorem children_are_in_order nodes parent cap :
  ids_ok nodes -> 0 <= cap ->
  exists out walk, fzn_tree_children nodes (Some parent) cap = (FZN_TREE_OK, out, walk) /\
    NoDup out /\ StronglySorted (in_order nodes) out /\
    (forall j, j ∈ out -> (j < length nodes)%nat /\ n_parent (node_at nodes j) = parent) /\
    w_examined walk = zlen nodes /\ w_emitted walk = zlen out /\
    w_truncated walk = (zlen (kids nodes parent 0 (length nodes)) >? cap) /\
    (w_truncated walk = false -> forall j, (j < length nodes)%nat -> n_parent (node_at nodes j) = parent -> j ∈ out) /\
    (w_truncated walk = false ->
     (forall i j, i ∈ out -> j ∈ out -> n_order (node_at nodes i) = n_order (node_at nodes j) ->
        n_id (node_at nodes i) = n_id (node_at nodes j) -> i = j) ->
     forall nodes', nodes' ≡ₚ nodes -> exists out' walk',
       fzn_tree_children nodes' (Some parent) cap = (FZN_TREE_OK, out', walk') /\
       node_at nodes' <$> out' = node_at nodes <$> out).
Proof.
  intros Hids Hcap. destruct (children_spec nodes parent cap Hids Hcap) as (out & walk & E & Hp & Hs & He & Hem & Ht).
  set (ks := kids nodes parent 0 (length nodes)) in *.
  assert (NoDup ks) as Hnd by (apply list.NoDup_filter, list.NoDup_seq).
  assert (w_truncated walk = false -> out ≡ₚ ks) as Hall.
  { rewrite Ht. intros Hc. destruct (Z.gtb_spec (zlen ks) cap) as [|Hle]; [done|]. rewrite Hp, take_ge; [done|]. unfold zlen in Hle. lia. }
  exists out, walk. split; [done|]. split_and!; auto.
  - rewrite Hp. by apply (sublist_NoDup _ ks), sublist_take.
  - intros j Hj. rewrite Hp in Hj. apply kids_in. by apply (sublist_subseteq _ _ (sublist_take ks (Z.to_nat cap))).
  - intros Hc j Hj Hpar. rewrite (Hall Hc). by apply kids_in.
  - intros Hc Hdist nodes' Hperm.
    assert (ids_ok nodes') as Hids' by (unfold ids_ok in *; by rewrite Hperm).
    destruct (children_spec nodes' parent cap Hids' Hcap) as (out' & walk' & E' & Hp' & Hs' & _ & _ & Ht').
    exists out', walk'. split; [done|].
    set (ks' := kids nodes' parent 0 (length nodes')) in *.
    assert (node_at nodes' <$> ks' ≡ₚ node_at nodes <$> ks) as Hks by (unfold ks, ks'; rewrite !kids_nodes; by rewrite Hperm).
    assert (length ks' = length ks) as Hlen by (apply Permutation_length in Hks; by rewrite !length_fmap in Hks).
    assert (out' ≡ₚ ks') as Hall'.
    { rewrite Hp', take_ge; [done|]. rewrite Ht in Hc. unfold zlen in Hc. destruct (Z.gtb_spec (Z.of_nat (length ks)) cap); [done|lia]. }
    assert (node_at nodes' <$> out' ≡ₚ node_at nodes <$> out) as Hsame by (by rewrite Hall', (Hall Hc)).
    apply (StronglySorted_unique_strong (fun a b => fzn_tree_cmp a b <= 0)).
    + intros a b Ha Hb. rewrite Hsame in Ha. apply list_elem_of_fmap in Ha as (i & -> & Hi). apply list_elem_of_fmap in Hb as (j & -> & Hj).
      assert (forall x, x ∈ out -> (x < length nodes)%nat) as Hlt.
      { intros x Hx. rewrite (Hall Hc) in Hx. by apply kids_in in Hx as [? _]. }
      intros H1 H2. apply cmp_alike in H1 as [Ho Hid]; [|by rewrite !id_len by auto|done]. by rewrite (Hdist i j).
    + eapply StronglySorted_fmap; [|exact Hs']. intros x y. apply in_order_cmp.
    + eapply StronglySorted_fmap; [|exact Hs]. intros x y. apply in_order_cmp.
    + done.
Qed.

(** ** The body of a node *)

Definition node_fields (parent : bytes) (order content_type : Z) (content : bytes) : list bytes :=
  [parent; be64 order; be16 content_type; content].

Lemma body_layout parent order ct content content_len out :
  is_bytes 32 parent -> 0 <= content_len <= FZN_TREE_CONTENT_MAX ->
  (if content is Some c then content_len <= zlen c else content_len = 0) -> 42 + content_len <= zlen out ->
  fzn_tree_body (Some parent) order ct content content_len out
  = (FZN_TREE_OK, concat (node_fields parent order ct (body_of content content_len)) ++ drop (Z.to_nat (42 + content_len)) out,
     Some (42 + content_len)).
Proof.
  intros [Hp _] Hc Hb Ho. unfold fzn_tree_body.
  assert (match content with None => negb (content_len =? 0) | Some _ => false end = false) as -> by (destruct content; [done|by subst]).
  destruct (Z.gtb_spec content_len FZN_TREE_CONTENT_MAX); [lia|]. change FZN_TREE_BODY_HEADER_LEN with 42.
  destruct (Z.ltb_spec (zlen out) (42 + content_len)); [lia|]. change FZN_TREE_ID_LEN with 32.
  assert (slice 0 32 parent = parent) as -> by (apply slice_all; lia).
  do 2 f_equal. unfold fzn_put_be64, fzn_put_be16. change (blit FZN_TREE_OFF_PARENT parent out) with (blit FZN_TREE_OFF_PARENT parent ([] ++ out)).
  rewrite (blit_next [] out parent) by done. cbn [app].
  do 2 (erewrite blit_next by (rewrite ?zlen_app, ?zlen_be64, ?Hp; reflexivity)). rewrite !drop_drop.
  set (h := (_ ++ be16 ct)%list).
  assert (zlen h = 42) as Hh by (unfold h; rewrite !zlen_app, zlen_be64, Hp; reflexivity).
  match goal with |- context [drop ?k out] => assert (k = 42%nat) as -> end.
  { unfold zlen in Hp. unfold be64, be16. cbn [length]. lia. }
  assert (forall x : bytes, concat (node_fields parent order ct x) = h ++ x) as Eh.
  { intros x. unfold h, node_fields. cbn [concat]. by rewrite app_nil_r, <- !app_assoc. }
  rewrite Eh. destruct content as [c|]; cbn [body_of].
  - destruct (Z.eqb_spec content_len 0) as [->|Hne]; cbn [negb].
    + change (slice 0 0 c) with (@nil Z). by rewrite app_nil_r.
    + rewrite blit_next by exact Hh. rewrite drop_drop, <- app_assoc.
      pose proof (zlen_slice 0 content_len c ltac:(lia) ltac:(lia) ltac:(lia)) as Hz. unfold zlen in Hz.
      replace (Z.to_nat (42 + content_len)) with (42 + length (slice 0 content_len c))%nat by lia. by rewrite <- app_assoc.
  - rewrite Hb. by rewrite app_nil_r.
Qed.

Lemma zlen_node_fields parent order ct c : zlen parent = 32 -> zlen (concat (node_fields parent order ct c)) = 42 + zlen c.
Proof. intros Hp. unfold node_fields. cbn [concat]. rewrite app_nil_r, !zlen_app, zlen_be64, zlen_be16, Hp. lia. Qed.

(** A record whose body is a node's opens to that node. *)
Lemma open_fields r parent order ct c : is_bytes 32 parent -> in_u64 order -> in_u16 ct ->
  fzn_record_is_open (Some r) = true -> fzn_record_body r = concat (node_fields parent order ct c) ->
  fzn_tree_open (Some r) = (FZN_TREE_OK, Some (mk_node (fzn_record_subject r) parent c order ct)).
Proof.
  intros [Hp Hpr] Ho Hct Hopen Hb. unfold fzn_tree_open. rewrite Hopen. cbn [negb].
  assert (fzn_record_body_len r = 42 + zlen c) as Hl.
  { apply opens_of in Hopen as [Hlen _ _ _ _ _]. change FZN_RECORD_HEADER_LEN with 124 in Hlen. change FZN_SIG_LEN with 64 in Hlen.
    rewrite <- (zlen_node_fields parent order ct c Hp), <- Hb. unfold fzn_record_body. symmetry.
    pose proof (zlen_nonneg (fzn_record_body r)) as Hnn. rewrite Hb, zlen_node_fields in Hnn by done. pose proof (zlen_nonneg c).
    destruct (Z.lt_ge_cases (fzn_record_body_len r) 0) as [Hneg|].
    - exfalso. pose proof (f_equal zlen Hb) as E. rewrite zlen_node_fields in E by done. unfold fzn_record_body, slice in E.
      replace (Z.to_nat (fzn_record_body_len r)) with 0%nat in E by lia. rewrite take_0, zlen_nil in E. lia.
    - apply zlen_slice; change FZN_RECORD_OFF_BODY with 124; lia. }
  rewrite Hl, Hb. pose proof (zlen_nonneg c). change FZN_TREE_BODY_HEADER_LEN with 42.
  destruct (Z.ltb_spec (42 + zlen c) 42); [lia|]. replace (42 + zlen c - 42) with (zlen c) by lia. do 3 f_equal.
  - by apply (slice_field _ 0).
  - apply (slice_field _ 3); [done| |done]. unfold node_fields. cbn [take concat]. rewrite app_nil_r, !zlen_app, zlen_be64, zlen_be16, Hp. done.
  - apply get_be64_of; [done|done|]. apply (slice_field _ 1); [done| |done]. cbn [take concat node_fields]. by rewrite app_nil_r.
  - apply get_be16_of; [done|done|]. apply (slice_field _ 2); [done| |done]. unfold node_fields. cbn [take concat].
    rewrite app_nil_r, !zlen_app, zlen_be64, Hp. done.
Qed.

(** A node survives the trip through a record. The body written for a node
    fills its bytes of the buffer and no more, and a record that carries it
    opens to the same parent, order, type and content, under the record's
    subject; and whatever opens as a node, its content of a type nobody here
    knows included, is re-published to the very bytes of its body. *)
Theorem node_roundtrip :
  (forall parent order ct content content_len out, is_bytes 32 parent -> in_u64 order -> in_u16 ct ->
     0 <= content_len <= FZN_TREE_CONTENT_MAX ->
     (if content is Some c then content_len <= zlen c else content_len = 0) -> 42 + content_len <= zlen out ->
     exists out', fzn_tree_body (Some parent) order ct content content_len out = (FZN_TREE_OK, out', Some (42 + content_len)) /\
       zlen out' = zlen out /\ drop (Z.to_nat (42 + content_len)) out' = drop (Z.to_nat (42 + content_len)) out /\
       forall r, fzn_record_is_open (Some r) = true -> fzn_record_body r = slice 0 (42 + content_len) out' ->
         fzn_tree_open (Some r) = (FZN_TREE_OK, Some (mk_node (fzn_record_subject r) parent (body_of content content_len) order ct))) /\
  (forall r n out, Forall in_u8 r -> fzn_tree_open (Some r) = (FZN_TREE_OK, Some n) -> FZN_RECORD_BODY_MAX <= zlen out ->
     exists out', fzn_tree_body (Some (n_parent n)) (n_order n) (n_content_type n) (Some (n_content n)) (zlen (n_content n)) out
                  = (FZN_TREE_OK, out', Some (fzn_record_body_len r)) /\
       slice 0 (fzn_record_body_len r) out' = fzn_record_body r).
Proof.
  split.
  - intros parent order ct content content_len out Hp Ho Hct Hc Hb Hout.
    rewrite body_layout by done. set (h := concat _).
    assert (zlen h = 42 + content_len) as Hh by (unfold h; rewrite zlen_node_fields by apply Hp; rewrite zlen_body_of by (done || lia); done).
    eexists. split; [reflexivity|]. split_and!.
    + rewrite zlen_app, Hh. unfold zlen in *. rewrite length_drop. lia.
    + rewrite drop_app_length' by (unfold zlen in Hh; lia). done.
    + intros r Hr Hbody. apply open_fields; auto. rewrite Hbody. by apply (slice_mid [] h).
  - intros r n out Hr Hopen Hout. unfold fzn_tree_open in Hopen.
    destruct (fzn_record_is_open (Some r)) eqn:Hio; cbn [negb] in Hopen; [|done].
    apply opens_of in Hio as [Hlen _ _ Hmax _ _]. change FZN_RECORD_HEADER_LEN with 124 in Hlen. change FZN_SIG_LEN with 64 in Hlen.
    set (bl := fzn_record_body_len r) in *. change FZN_RECORD_BODY_MAX with 512 in *.
    change FZN_TREE_BODY_HEADER_LEN with 42 in Hopen. destruct (Z.ltb_spec bl 42); [done|]. injection Hopen as <-.
    set (body := fzn_record_body r) in *.
    assert (zlen body = bl) as Hbl by (unfold body, fzn_record_body; apply zlen_slice; change FZN_RECORD_OFF_BODY with 124; lia).
    assert (Forall in_u8 body) as Hbr by (unfold body, fzn_record_body, slice; by apply Forall_take, Forall_drop).
    cbn [n_parent n_order n_content_type n_content]. change FZN_TREE_OFF_CONTENT with 42. change FZN_TREE_OFF_PARENT with 0.
    change FZN_TREE_OFF_ORDER with 32. change FZN_TREE_OFF_CONTENT_TYPE with 40. change FZN_TREE_ID_LEN with 32.
    assert (zlen (slice 42 (bl - 42) body) = bl - 42) as Hcl by (apply zlen_slice; lia). rewrite Hcl.
    rewrite body_layout; [|by apply (is_bytes_slice _ _ bl); [lia..|]|change FZN_TREE_CONTENT_MAX with 470; lia|lia|lia].
    cbn [body_of]. rewrite (slice_all (bl - 42)) by lia.
    assert (concat (node_fields (slice 0 32 body) (fzn_get_be64 body 32) (fzn_get_be16 body 40) (slice 42 (bl - 42) body)) = body) as E.
    { unfold node_fields. rewrite be64_get, be16_get by (done || lia). cbn [concat]. rewrite app_nil_r.
      assert (slice 40 2 body ++ slice 42 (bl - 42) body = slice 40 (2 + (bl - 42)) body) as -> by (apply (slice_app 40 2); lia).
      assert (slice 32 8 body ++ slice 40 (2 + (bl - 42)) body = slice 32 (8 + (2 + (bl - 42))) body) as -> by (apply (slice_app 32 8); lia).
      assert (slice 0 32 body ++ slice 32 (8 + (2 + (bl - 42))) body = slice 0 (32 + (8 + (2 + (bl - 42)))) body) as -> by (apply (slice_app 0 32); lia).
      apply slice_all. lia. }
    rewrite E. replace (42 + (bl - 42)) with bl by lia. eexists. split; [reflexivity|]. by apply (slice_mid [] body).
Qed.

(** ** Keys between neighbours *)

Lemma order_between_spec lo hi : in_u64 lo -> in_u64 hi -> lo <= hi ->
  fzn_tree_order_between lo hi
  = if hi - lo <=? 1 then (FZN_TREE_ORDER_EXHAUSTED, Some lo) else (FZN_TREE_OK, Some (lo + (hi - lo) / 2)).
Proof.
  intros Hl Hh Hle. unfold fzn_tree_order_between. destruct (Z.gtb_spec lo hi); [lia|].
  rewrite (u64_small (hi - lo)) by ulia.
  assert (0 <= (hi - lo) / 2 <= hi - lo) as Hd by (Z.to_euclidean_division_equations; lia).
  rewrite u64_small by ulia. destruct (Z.eqb_spec (lo + (hi - lo) / 2) lo), (Z.leb_spec (hi - lo) 1); try done.
  - repeat f_equal. lia.
  - Z.to_euclidean_division_equations. lia.
  - Z.to_euclidean_division_equations. lia.
Qed.

(** The insertions that find a key, each between the last key and one of the
    neighbours it was put between ([true] is the upper). *)
Fixpoint insertions (choices : list bool) (lo hi : Z) : Z :=
  match choices with
  | [] => 0
  | upper :: choices =>
    match fzn_tree_order_between lo hi with
    | (FZN_TREE_OK, Some mid) => 1 + (if upper then insertions choices mid hi else insertions choices lo mid)
    | _ => 0
    end
  end.

(** A key between two neighbours. It is strictly between them where
    anything is and the lower neighbour's own, said to be exhausted, where
    nothing is; neighbours the wrong way round are refused. However a list is
    inserted into, at most 64 keys are found between two neighbours, and 64
    can be. *)
Theorem order_keys_run_out lo hi :
  in_u64 lo -> in_u64 hi ->
  match fzn_tree_order_between lo hi with
  | (FZN_TREE_OK, Some mid) => lo < mid < hi
  | (FZN_TREE_ORDER_EXHAUSTED, Some key) => key = lo /\ ~ exists mid, lo < mid < hi
  | (err, key) => err = FZN_TREE_ERR_RANGE /\ key = None /\ hi < lo
  end /\
  (forall choices, insertions choices lo hi <= 64) /\ insertions (replicate 65 true) 0 UINT64_MAX = 64.
Proof.
  intros Hl Hh. split_and!; [| |vm_compute; reflexivity].
  - destruct (Z.lt_ge_cases hi lo) as [Hlt|Hge].
    { unfold fzn_tree_order_between. destruct (Z.gtb_spec lo hi); [done|lia]. }
    rewrite order_between_spec by done. destruct (Z.leb_spec (hi - lo) 1).
    + split; [done|]. intros [mid ?]. lia.
    + Z.to_euclidean_division_equations. lia.
  - assert (forall n choices lo hi, in_u64 lo -> in_u64 hi -> hi - lo <= 2 ^ Z.of_nat n -> insertions choices lo hi <= Z.of_nat n) as H.
    { clear. induction n as [|n IH]; intros choices lo hi Hl Hh Hg; (destruct choices as [|upper choices]; cbn [insertions]; [lia|]);
        (destruct (Z.lt_ge_cases hi lo) as [Hlt|Hge]; [unfold fzn_tree_order_between; destruct (Z.gtb_spec lo hi); lia|]);
        rewrite order_between_spec by done; destruct (Z.leb_spec (hi - lo) 1); try lia.
      rewrite Nat2Z.inj_succ, Z.pow_succ_r in Hg by lia. set (h := 2 ^ Z.of_nat n) in *.
      assert (0 <= (hi - lo) / 2 <= h /\ hi - lo - (hi - lo) / 2 <= h /\ (hi - lo) / 2 <= hi - lo) as (? & ? & ?)
        by (Z.to_euclidean_division_equations; lia).
      assert (in_u64 (lo + (hi - lo) / 2)) by ulia.
      destruct upper; [specialize (IH choices (lo + (hi - lo) / 2) hi)|specialize (IH choices lo (lo + (hi - lo) / 2))];
        (specialize (IH ltac:(done) ltac:(done) ltac:(lia)); lia). }
    intros choices. apply (H 64%nat choices lo hi Hl Hh). change (2 ^ Z.of_nat 64) with (UINT64_MAX + 1). ulia.
Qed.

(** ** Witnesses *)

Definition demo_tree_id (x : Z) : bytes := replicate 32 x.
(** Node 2 under the root and again under node 3, twice; 4 and 5 each the
    other's parent. *)
Definition demo_nodes : list fzn_tree_node :=
  [mk_node (demo_tree_id 5) (demo_tree_id 4) [] 1 0; mk_node (demo_tree_id 2) (demo_tree_id 3) [] 7 0;
   mk_node (demo_tree_id 3) (demo_tree_id 0) [] 9 0; mk_node (demo_tree_id 2) (demo_tree_id 0) [] 7 0;
   mk_node (demo_tree_id 4) (demo_tree_id 5) [] 1 0; mk_node (demo_tree_id 6) (demo_tree_id 0) [] 7 0].

Lemma reachable_is_exact_witness :
  exists mark' walk, fzn_tree_reachable demo_nodes (replicate 8 9) = Some (FZN_TREE_OK, mark', walk) /\
    mark' = [0; 1; 1; 1; 0; 1; 9; 9] /\ w_emitted walk = 4 /\ ~ reachable demo_nodes (mk_node (demo_tree_id 5) (demo_tree_id 4) [] 1 0).
Proof.
  destruct (reachable_is_exact demo_nodes (replicate 8 9)) as (mark' & walk & E & _ & _ & Hm & _).
  - vm_compute. discriminate.
  - exists mark', walk. pose proof E as E'. vm_compute in E'. injection E' as Em Ew. split; [exact E|]. subst mark' walk.
    split; [reflexivity|]. split; [reflexivity|]. intros H. apply (Hm 0%nat) in H; [discriminate H|reflexivity].
Defined.

Lemma children_are_in_order_witness :
  exists out walk, fzn_tree_children demo_nodes (Some (demo_tree_id 0)) 5 = (FZN_TREE_OK, out, walk) /\
    out = [3; 5; 2]%nat /\ w_truncated walk = false /\ NoDup out.
Proof.
  destruct (children_are_in_order demo_nodes (demo_tree_id 0) 5) as (out & walk & E & Hnd & _).
  - repeat constructor.
  - discriminate.
  - exists out, walk. pose proof E as E'. vm_compute in E'. injection E' as Eo Ew. split; [exact E|]. split; [symmetry; exact Eo|].
    split; [subst walk; reflexivity|exact Hnd].
Defined.

Lemma node_roundtrip_witness :
  exists out', fzn_tree_body (Some (demo_tree_id 3)) 77 9 (Some [1; 2; 3]) 2 (replicate 60 0) = (FZN_TREE_OK, out', Some 44).
Proof.
  destruct (proj1 node_roundtrip (demo_tree_id 3) 77 9 (Some [1; 2; 3]) 2 (replicate 60 0)) as (out' & E & _).
  - split; [reflexivity|]. apply Forall_replicate. ulia.
  - ulia.
  - ulia.
  - change FZN_TREE_CONTENT_MAX with 470. lia.
  - vm_compute. discriminate.
  - vm_compute. discriminate.
  - exists out'. exact E.
Defined.

Lemma order_keys_run_out_witness : insertions [true; false; true] 0 10 <= 64 /\ insertions [true; false; true] 0 10 = 3.
Proof.
  split; [|reflexivity].
  destruct (order_keys_run_out 0 10) as (_ & H & _); [ulia|ulia|apply H].
Defined.
