(* ===== verification/Journal.v ===== *)
(** * record/journal.c: what has been received from each stream

    One row per (issuer, stream): the highest contiguous sequence received,
    how far it has been applied, and the id of the record at the head. The
    table is the caller's array; its length is the capacity. A journal and an
    issuer are given: NULL ones are refused before anything is read.
    Diagnostics are left out. *)

From stdpp Require Import gmap fin_maps.
From S2P Require Import Prelude Table Bytes Hop Records.

Inductive fzn_journal_err :=
| FZN_JOURNAL_OK | FZN_JOURNAL_ERR_MALFORMED | FZN_JOURNAL_ERR_DUPLICATE | FZN_JOURNAL_ERR_GAP
| FZN_JOURNAL_ERR_FULL | FZN_JOURNAL_ERR_UNKNOWN_ISSUER | FZN_JOURNAL_ERR_NOT_RECEIVED | FZN_JOURNAL_ERR_FORK.

#[export] Instance fzn_journal_err_eq_dec : EqDecision fzn_journal_err.
Proof. solve_decision. Defined.

Record fzn_journal_entry := mk_jentry {
  j_issuer : bytes;
  j_stream : Z;
  j_received : Z;
  j_applied : Z;
  j_head : bytes;
  j_has_head : bool;
  j_forked : bool
}.

(** [None] for the entries is NULL. *)
Record fzn_journal := mk_journal {
  j_entries : option (list fzn_journal_entry);
  j_used : Z
}.

Definition j_capacity (j : fzn_journal) : Z := zlen (default [] (j_entries j)).
(** The rows in use, which is what every scan walks. *)
Definition jrows (j : fzn_journal) : list fzn_journal_entry := take (Z.to_nat (j_used j)) (default [] (j_entries j)).

Definition zero_jentry : fzn_journal_entry :=
  mk_jentry (zeros FZN_PUBKEY_LEN) 0 0 0 (zeros FZN_RECORD_ID_LEN) false false.

Definition holds_stream (issuer : bytes) (stream : Z) (e : fzn_journal_entry) : bool :=
  (j_stream e =? stream) && memeq (j_issuer e) issuer.

(** The scan of [find] from row [i] on, the last match so far in [hit]. *)
Fixpoint find_loop (es : list fzn_journal_entry) (i : nat) (hit : option nat) (issuer : bytes) (stream : Z)
    : option nat :=
  match es with
  | [] => hit
  | e :: es => find_loop es (S i) (if holds_stream issuer stream e then Some i else hit) issuer stream
  end.

(** The index of the row and the row. *)
Definition jfind (j : fzn_journal) (issuer : bytes) (stream : Z) : option (nat * fzn_journal_entry) :=
  match find_loop (jrows j) 0 None issuer stream with
  | None => None
  | Some i => (fun e => (i, e)) <$> jrows j !! i
  end.

Definition fzn_journal_init (j : fzn_journal) (entries : option (list fzn_journal_entry))
    : fzn_journal_err * fzn_journal :=
  match entries with
  | Some ((_ :: _) as es) => (FZN_JOURNAL_OK, mk_journal (Some (replicate (length es) zero_jentry)) 0)
  | _ => (FZN_JOURNAL_ERR_MALFORMED, j)
  end.

(** Onto entries of the caller's, cleared past what is followed; [same] is
    [entries == journal->entries], where nothing is copied or cleared. *)
Definition fzn_journal_use (j : fzn_journal) (same : bool) (entries : option (list fzn_journal_entry))
    : fzn_journal_err * fzn_journal :=
  match entries with
  | None => (FZN_JOURNAL_ERR_MALFORMED, j)
  | Some es =>
    if (zlen es =? 0) || (zlen es <? j_used j) || (j_used j >? j_capacity j)
    then (FZN_JOURNAL_ERR_MALFORMED, j)
    else
      let rest := if same then drop (Z.to_nat (j_used j)) es
                  else replicate (Z.to_nat (zlen es - j_used j)) zero_jentry in
      (FZN_JOURNAL_OK, mk_journal (Some (jrows j ++ rest)) (j_used j))
  end.

Definition usable (j : fzn_journal) : bool :=
  match j_entries j with None => false | Some _ => j_used j <=? j_capacity j end.

(** [journal->entries[i] = e] *)
Definition set_row (j : fzn_journal) (i : nat) (e : fzn_journal_entry) : fzn_journal :=
  mk_journal ((fun es => <[i := e]> es) <$> j_entries j) (j_used j).

(** [e->received = seq], the head no longer known. *)
Definition move_to (e : fzn_journal_entry) (seq : Z) : fzn_journal_entry :=
  mk_jentry (j_issuer e) (j_stream e) seq (j_applied e) (zeros FZN_RECORD_ID_LEN) false (j_forked e).

Definition with_head (e : fzn_journal_entry) (id : bytes) : fzn_journal_entry :=
  mk_jentry (j_issuer e) (j_stream e) (j_received e) (j_applied e) id true (j_forked e).

Definition mark_forked (e : fzn_journal_entry) : fzn_journal_entry :=
  mk_jentry (j_issuer e) (j_stream e) (j_received e) (j_applied e) (j_head e) (j_has_head e) true.

Definition with_applied (e : fzn_journal_entry) (seq : Z) : fzn_journal_entry :=
  mk_jentry (j_issuer e) (j_stream e) (j_received e) seq (j_head e) (j_has_head e) (j_forked e).

Definition fzn_journal_admit (j : fzn_journal) (issuer : bytes) (stream seq : Z) : fzn_journal_err * fzn_journal :=
  if negb (usable j) then (FZN_JOURNAL_ERR_MALFORMED, j)
  else if seq =? 0 then (FZN_JOURNAL_ERR_MALFORMED, j)
  else match jfind j issuer stream with
  | None => (FZN_JOURNAL_ERR_UNKNOWN_ISSUER, j)
  | Some (i, e) =>
    if seq <=? j_received e then (FZN_JOURNAL_ERR_DUPLICATE, j)
    else if seq >? u64 (j_received e + 1) then (FZN_JOURNAL_ERR_GAP, j)
    else (FZN_JOURNAL_OK, set_row j i (move_to e seq))
  end.

Definition fzn_journal_admit_chained (j : fzn_journal) (issuer : bytes) (stream seq : Z) (prev id : bytes)
    : fzn_journal_err * fzn_journal :=
  if negb (usable j) || (seq =? 0) then (FZN_JOURNAL_ERR_MALFORMED, j)
  else
    let found := jfind j issuer stream in
    if match found with
       | Some (_, e) => j_has_head e && (seq =? j_received e) && negb (j_received e =? 0) && negb (memeq (j_head e) id)
       | None => false
       end
       || match found with
          | Some (_, e) => (seq =? u64 (j_received e + 1)) && j_has_head e && negb (memeq (j_head e) prev)
          | None => false
          end
    then (FZN_JOURNAL_ERR_FORK, match found with Some (i, e) => set_row j i (mark_forked e) | None => j end)
    else match fzn_journal_admit j issuer stream seq with
    | (FZN_JOURNAL_OK, j') =>
      (FZN_JOURNAL_OK,
       match found with
       | Some (i, _) => match jrows j' !! i with Some e => set_row j' i (with_head e id) | None => j' end
       | None => j'
       end)
    | (err, j') => (err, j')
    end.

(** The row a new stream starts as. *)
Definition new_row (issuer : bytes) (stream : Z) : fzn_journal_entry :=
  mk_jentry issuer stream 0 0 (zeros FZN_RECORD_ID_LEN) true false.

(** The end of [fzn_journal_anchor]: never backwards, and a jump leaves no
    known head. *)
Definition anchor_at (j : fzn_journal) (i : nat) (e : fzn_journal_entry) (seq : Z) : fzn_journal_err * fzn_journal :=
  if seq <=? j_received e then (FZN_JOURNAL_ERR_DUPLICATE, j)
  else (FZN_JOURNAL_OK, set_row j i (move_to e seq)).

Definition fzn_journal_anchor (j : fzn_journal) (issuer : bytes) (stream seq : Z) : fzn_journal_err * fzn_journal :=
  if negb (usable j) then (FZN_JOURNAL_ERR_MALFORMED, j)
  else match jfind j issuer stream with
  | None =>
    if j_used j >=? j_capacity j then (FZN_JOURNAL_ERR_FULL, j)
    else
      let i := Z.to_nat (j_used j) in
      let e := new_row issuer stream in
      let j := mk_journal (j_entries (set_row j i e)) (j_used j + 1) in
      if seq =? 0 then (FZN_JOURNAL_OK, j) else anchor_at j i e seq
  | Some (i, e) =>
    if seq =? 0 then (FZN_JOURNAL_ERR_DUPLICATE, j) else anchor_at j i e seq
  end.

Definition fzn_journal_confirm (j : fzn_journal) (issuer : bytes) (stream seq : Z) : fzn_journal_err * fzn_journal :=
  if negb (usable j) then (FZN_JOURNAL_ERR_MALFORMED, j)
  else match jfind j issuer stream with
  | None => (FZN_JOURNAL_ERR_UNKNOWN_ISSUER, j)
  | Some (i, e) =>
    if seq >? j_received e then (FZN_JOURNAL_ERR_NOT_RECEIVED, j)
    else if seq <=? j_applied e then (FZN_JOURNAL_ERR_DUPLICATE, j)
    else (FZN_JOURNAL_OK, set_row j i (with_applied e seq))
  end.

Definition fzn_journal_next (j : fzn_journal) (issuer : bytes) (stream : Z) : Z :=
  if negb (usable j) then 1
  else match jfind j issuer stream with
  | None => 1
  | Some (_, e) => if j_received e =? UINT64_MAX then UINT64_MAX else j_received e + 1
  end.

Definition fzn_journal_pending (j : fzn_journal) (issuer : bytes) (stream : Z) : Z :=
  if negb (usable j) then 0
  else match jfind j issuer stream with None => 0 | Some (_, e) => u64 (j_received e - j_applied e) end.

(** ** The table as a map *)

Abbreviation key := (bytes * Z)%type (only parsing).
Definition key_of (e : fzn_journal_entry) : key := (j_issuer e, j_stream e).

(** What the journal says of each stream. *)
Definition positions (j : fzn_journal) : gmap key fzn_journal_entry :=
  tmap key_of (jrows j).

(** A row at its widths: applied never ahead of received, and a head kept only
    where it is known; nothing received is the head of the start. *)
Record entry_ok (e : fzn_journal_entry) : Prop := {
  eo_issuer : is_bytes FZN_PUBKEY_LEN (j_issuer e);
  eo_stream : in_u32 (j_stream e);
  eo_applied : 0 <= j_applied e <= j_received e;
  eo_received : j_received e <= UINT64_MAX;
  eo_head : is_bytes FZN_RECORD_ID_LEN (j_head e);
  eo_unknown : j_has_head e = false -> j_head e = zeros FZN_RECORD_ID_LEN;
  eo_start : j_received e = 0 -> j_has_head e = true /\ j_head e = zeros FZN_RECORD_ID_LEN
}.

Record journal_ok (j : fzn_journal) : Prop := {
  jo_entries : is_Some (j_entries j);
  jo_used : 0 <= j_used j <= j_capacity j;
  jo_rows : Forall entry_ok (jrows j);
  jo_keys : NoDup (key_of <$> jrows j)
}.

Lemma holds_stream_true iss st e : holds_stream iss st e = true <-> key_of e = (iss, st).
Proof.
  unfold holds_stream, key_of. rewrite andb_true_iff, memeq_true, Z.eqb_eq.
  split; [by intros [-> ->]|by intros [= -> ->]].
Qed.

Lemma jfind_loop_spec es : forall i hit iss st,
  (forall e, e ∈ es -> holds_stream iss st e = false) -> find_loop es i hit iss st = hit.
Proof.
  induction es as [|e es IH]; intros i hit iss st H; cbn [find_loop]; [done|].
  rewrite (H e) by set_solver. apply IH. set_solver.
Qed.

Lemma find_loop_at es : forall i hit iss st n e,
  NoDup (key_of <$> es) -> es !! n = Some e -> key_of e = (iss, st) -> find_loop es i hit iss st = Some (i + n)%nat.
Proof.
  induction es as [|x es IH]; intros i hit iss st n e Hnd Hn He; [done|]. cbn [find_loop].
  rewrite fmap_cons, list.NoDup_cons in Hnd. destruct Hnd as [Hx Hnd]. destruct n as [|n]; cbn in Hn.
  - simplify_eq. assert (holds_stream iss st e = true) as -> by (by apply holds_stream_true).
    rewrite jfind_loop_spec; [f_equal; lia|]. intros y Hy. destruct (holds_stream iss st y) eqn:E; [|done].
    apply holds_stream_true in E. exfalso. apply Hx. rewrite He, <- E. by apply list_elem_of_fmap_2.
  - erewrite IH by eauto. f_equal. lia.
Qed.

Section Refine.
Context (j : fzn_journal).
Hypothesis Hj : journal_ok j.

Lemma positions_lookup k e : positions j !! k = Some e <-> key_of e = k /\ e ∈ jrows j.
Proof. apply tmap_lookup, Hj. Qed.

(** The scan finds the one row there is. *)
Lemma find_is_lookup iss st :
  snd <$> jfind j iss st = positions j !! (iss, st) /\
  forall i e, jfind j iss st = Some (i, e) -> jrows j !! i = Some e.
Proof.
  unfold jfind. destruct (positions j !! (iss, st)) as [e|] eqn:El.
  - apply positions_lookup in El as [Hk [n Hn]%list_elem_of_lookup].
    rewrite (find_loop_at _ 0 None iss st n e (jo_keys _ Hj) Hn Hk). cbn [Nat.add]. rewrite Hn. cbn.
    split; [done|]. by intros i e' [= <- <-].
  - rewrite jfind_loop_spec; [done|]. intros e He. destruct (holds_stream iss st e) eqn:E; [|done].
    apply holds_stream_true in E. assert (positions j !! (iss, st) = Some e) by (by apply positions_lookup). congruence.
Qed.

Lemma jok_usable : usable j = true.
Proof. destruct (jo_entries _ Hj) as [es E]. unfold usable. rewrite E. apply Z.leb_le, Hj. Qed.

Lemma jrows_lt i e : jrows j !! i = Some e -> (i < Z.to_nat (j_used j))%nat /\ default [] (j_entries j) !! i = Some e.
Proof. intros H. apply lookup_take_Some in H. tauto. Qed.

(** Writing one row over another of the same stream. *)
Lemma jrows_set_row i e e' :
  jrows j !! i = Some e -> jrows (set_row j i e') = <[i := e']> (jrows j).
Proof.
  intros H. destruct (jo_entries _ Hj) as [es E]. unfold jrows, set_row. cbn [j_entries j_used].
  rewrite E. cbn -[take insert]. apply take_insert_lt. apply jrows_lt in H as [H _]. exact H.
Qed.

Lemma set_row_ok i e e' :
  jrows j !! i = Some e -> key_of e' = key_of e -> entry_ok e' ->
  journal_ok (set_row j i e') /\ positions (set_row j i e') = <[key_of e := e']> (positions j).
Proof.
  intros Hi Hk He'. destruct (jo_entries _ Hj) as [es E]. pose proof (jrows_set_row i e e' Hi) as Er.
  assert (key_of <$> <[i := e']> (jrows j) = key_of <$> jrows j) as Ek.
  { rewrite list_fmap_insert. apply list_insert_id. rewrite list_lookup_fmap, Hi. cbn. by rewrite Hk. }
  assert (journal_ok (set_row j i e')) as Hok.
  { split.
    - unfold set_row. cbn. rewrite E. by eexists.
    - pose proof (jo_used _ Hj) as Hu. unfold j_capacity, set_row in *. cbn in *. rewrite E in *. cbn in *.
      unfold zlen in *. by rewrite length_insert.
    - rewrite Er. apply Forall_insert; [apply Hj|done].
    - rewrite Er, Ek. apply Hj. }
  split; [done|]. unfold positions. rewrite Er. by apply tmap_set; [apply Hj| |].
Qed.
End Refine.

(** ** The map the journal promises to be *)

Inductive journal_op :=
| OpAdmit (issuer : bytes) (stream seq : Z)
| OpChained (issuer : bytes) (stream seq : Z) (prev id : bytes)
| OpAnchor (issuer : bytes) (stream seq : Z)
| OpConfirm (issuer : bytes) (stream seq : Z)
| OpUse (same : bool) (entries : option (list fzn_journal_entry)).

Definition run_op (j : fzn_journal) (op : journal_op) : fzn_journal_err * fzn_journal :=
  match op with
  | OpAdmit iss st seq => fzn_journal_admit j iss st seq
  | OpChained iss st seq prev id => fzn_journal_admit_chained j iss st seq prev id
  | OpAnchor iss st seq => fzn_journal_anchor j iss st seq
  | OpConfirm iss st seq => fzn_journal_confirm j iss st seq
  | OpUse same es => fzn_journal_use j same es
  end.

(** Arguments at their widths. *)
Definition op_ok (op : journal_op) : Prop :=
  match op with
  | OpAdmit iss st seq | OpAnchor iss st seq | OpConfirm iss st seq =>
    is_bytes FZN_PUBKEY_LEN iss /\ in_u32 st /\ in_u64 seq
  | OpChained iss st seq prev id =>
    is_bytes FZN_PUBKEY_LEN iss /\ in_u32 st /\ in_u64 seq /\ is_bytes FZN_RECORD_ID_LEN prev /\ is_bytes FZN_RECORD_ID_LEN id
  | OpUse _ _ => True
  end.

(** A record that is not the next link of the line held. *)
Definition breaks_line (e : fzn_journal_entry) (seq : Z) (prev id : bytes) : bool :=
  j_has_head e &&
  (((seq =? j_received e) && negb (memeq (j_head e) id)) || ((seq =? j_received e + 1) && negb (memeq (j_head e) prev))).

Definition spec_admit (m : gmap key fzn_journal_entry) (k : key) (seq : Z) (moved : fzn_journal_entry -> fzn_journal_entry)
    : fzn_journal_err * gmap key fzn_journal_entry :=
  match m !! k with
  | None => (FZN_JOURNAL_ERR_UNKNOWN_ISSUER, m)
  | Some e =>
    if seq <=? j_received e then (FZN_JOURNAL_ERR_DUPLICATE, m)
    else if seq >? j_received e + 1 then (FZN_JOURNAL_ERR_GAP, m)
    else (FZN_JOURNAL_OK, <[k := moved e]> m)
  end.

(** The journal over a map from streams to positions, with room for [cap]
    streams and numbers that do not wrap. *)
Definition spec_op (cap : Z) (m : gmap key fzn_journal_entry) (op : journal_op)
    : fzn_journal_err * gmap key fzn_journal_entry :=
  match op with
  | OpAdmit iss st seq =>
    if seq =? 0 then (FZN_JOURNAL_ERR_MALFORMED, m) else spec_admit m (iss, st) seq (fun e => move_to e seq)
  | OpChained iss st seq prev id =>
    if seq =? 0 then (FZN_JOURNAL_ERR_MALFORMED, m)
    else match m !! (iss, st) with
    | Some e =>
      if breaks_line e seq prev id then (FZN_JOURNAL_ERR_FORK, <[(iss, st) := mark_forked e]> m)
      else spec_admit m (iss, st) seq (fun e => with_head (move_to e seq) id)
    | None => (FZN_JOURNAL_ERR_UNKNOWN_ISSUER, m)
    end
  | OpAnchor iss st seq =>
    match m !! (iss, st) with
    | None =>
      if Z.of_nat (size m) >=? cap then (FZN_JOURNAL_ERR_FULL, m)
      else (FZN_JOURNAL_OK,
            <[(iss, st) := if seq =? 0 then new_row iss st else move_to (new_row iss st) seq]> m)
    | Some e =>
      if seq <=? j_received e then (FZN_JOURNAL_ERR_DUPLICATE, m)
      else (FZN_JOURNAL_OK, <[(iss, st) := move_to e seq]> m)
    end
  | OpConfirm iss st seq =>
    match m !! (iss, st) with
    | None => (FZN_JOURNAL_ERR_UNKNOWN_ISSUER, m)
    | Some e =>
      if seq >? j_received e then (FZN_JOURNAL_ERR_NOT_RECEIVED, m)
      else if seq <=? j_applied e then (FZN_JOURNAL_ERR_DUPLICATE, m)
      else (FZN_JOURNAL_OK, <[(iss, st) := with_applied e seq]> m)
    end
  | OpUse _ es =>
    match es with
    | Some es => if (zlen es =? 0) || (zlen es <? Z.of_nat (size m)) then (FZN_JOURNAL_ERR_MALFORMED, m)
                 else (FZN_JOURNAL_OK, m)
    | None => (FZN_JOURNAL_ERR_MALFORMED, m)
    end
  end.

(** ** Each operation keeps a row well formed *)

Lemma move_ok e seq : entry_ok e -> j_received e < seq <= UINT64_MAX -> entry_ok (move_to e seq).
Proof.
  intros [Hi Hs Ha Hr Hh Hu Hst] Hlt. split; cbn; auto; try lia.
  split; [reflexivity|apply zeros_range].
Qed.

Lemma head_ok e id : entry_ok e -> 0 < j_received e -> is_bytes FZN_RECORD_ID_LEN id -> entry_ok (with_head e id).
Proof. intros [Hi Hs Ha Hr Hh Hu Hst] Hlt Hid. split; cbn; auto; [done|lia]. Qed.

Lemma fork_ok e : entry_ok e -> entry_ok (mark_forked e).
Proof. intros [Hi Hs Ha Hr Hh Hu Hst]. split; cbn; auto. Qed.

Lemma applied_ok e seq : entry_ok e -> 0 <= seq <= j_received e -> entry_ok (with_applied e seq).
Proof. intros [Hi Hs Ha Hr Hh Hu Hst] Hle. split; cbn; auto. Qed.

Lemma new_row_ok iss st : is_bytes FZN_PUBKEY_LEN iss -> in_u32 st -> entry_ok (new_row iss st).
Proof.
  intros Hi Hs. split; cbn; auto; try ulia; try done. split; [reflexivity|apply zeros_range].
Qed.

#[export] Hint Resolve move_ok head_ok fork_ok applied_ok new_row_ok : fzn.

Section Steps.
Context (j : fzn_journal).
Hypothesis Hj : journal_ok j.

Lemma find_cases iss st :
  (jfind j iss st = None /\ positions j !! (iss, st) = None) \/
  exists i e, jfind j iss st = Some (i, e) /\ jrows j !! i = Some e /\ positions j !! (iss, st) = Some e /\
    key_of e = (iss, st) /\ entry_ok e.
Proof.
  destruct (find_is_lookup j Hj iss st) as [Hl Hr]. destruct (jfind j iss st) as [[i e]|]; cbn in Hl; [right|by left].
  specialize (Hr i e eq_refl). exists i, e. symmetry in Hl. split_and!; auto.
  - by apply positions_lookup in Hl as [? _].
  - by eapply Forall_lookup_1; [apply Hj|].
Qed.

(** Writing the row of a stream that is there. *)
Lemma set_found i e e' iss st :
  jrows j !! i = Some e -> key_of e = (iss, st) -> key_of e' = key_of e -> entry_ok e' ->
  journal_ok (set_row j i e') /\ positions (set_row j i e') = <[(iss, st) := e']> (positions j).
Proof. intros Hi Hk Hk' He'. rewrite <- Hk. by apply set_row_ok. Qed.

(** The test against [received + 1] as the machine computes it. *)
Lemma next_wraps e seq : entry_ok e -> in_u64 seq -> seq <> 0 ->
  (j_received e < seq -> (seq >? u64 (j_received e + 1)) = (seq >? j_received e + 1)) /\
  (seq =? u64 (j_received e + 1)) = (seq =? j_received e + 1).
Proof.
  intros He Hseq Hz. pose proof (eo_received _ He). pose proof (eo_applied _ He).
  destruct (Z.eq_dec (j_received e) UINT64_MAX) as [E|].
  - rewrite E. change (u64 (UINT64_MAX + 1)) with 0. split; [intros; width; lia|].
    destruct (Z.eqb_spec seq 0), (Z.eqb_spec seq (UINT64_MAX + 1)); width; lia.
  - rewrite u64_small by ulia. done.
Qed.

Lemma admit_cases_j iss st seq : in_u64 seq -> seq <> 0 ->
  (exists i e, jrows j !! i = Some e /\ key_of e = (iss, st) /\ entry_ok e /\ jfind j iss st = Some (i, e) /\
     positions j !! (iss, st) = Some e /\ seq = j_received e + 1 /\
     fzn_journal_admit j iss st seq = (FZN_JOURNAL_OK, set_row j i (move_to e seq))) \/
  (exists err, err <> FZN_JOURNAL_OK /\ fzn_journal_admit j iss st seq = (err, j) /\
     forall moved, spec_admit (positions j) (iss, st) seq moved = (err, positions j)).
Proof.
  intros Hs Hz. unfold fzn_journal_admit, spec_admit. rewrite (jok_usable j Hj). cbn [negb].
  destruct (Z.eqb_spec seq 0); [done|].
  destruct (find_cases iss st) as [[-> ->]|(i & e & Ef & Hi & Hp & Hk & He)]; [right; by exists FZN_JOURNAL_ERR_UNKNOWN_ISSUER|].
  rewrite Ef, Hp. destruct (Z.leb_spec seq (j_received e)); [right; by exists FZN_JOURNAL_ERR_DUPLICATE|].
  destruct (next_wraps e seq He Hs Hz) as [-> _]; [|done].
  destruct (Z.gtb_spec seq (j_received e + 1)); [right; by exists FZN_JOURNAL_ERR_GAP|].
  left. exists i, e. split_and!; auto. lia.
Qed.

Lemma journal_admit_refines iss st seq : in_u64 seq ->
  journal_ok (snd (fzn_journal_admit j iss st seq)) /\
  (fst (fzn_journal_admit j iss st seq), positions (snd (fzn_journal_admit j iss st seq)))
  = spec_op (j_capacity j) (positions j) (OpAdmit iss st seq).
Proof.
  intros Hs. cbn [spec_op]. destruct (Z.eqb_spec seq 0) as [->|Hz].
  { unfold fzn_journal_admit. rewrite (jok_usable j Hj). by cbn. }
  destruct (admit_cases_j iss st seq Hs Hz) as [(i & e & Hi & Hk & He & _ & Hp & Hn & ->)|(err & _ & -> & Hsp)]; cbn [fst snd].
  - destruct (set_found i e (move_to e seq) iss st Hi Hk eq_refl) as [Hok ->]; [apply move_ok; [done|ulia]|].
    split; [done|]. unfold spec_admit. rewrite Hp, Hn. destruct (Z.leb_spec (j_received e + 1) (j_received e)); [lia|].
    destruct (Z.gtb_spec (j_received e + 1) (j_received e + 1)); [lia|done].
  - by rewrite Hsp.
Qed.

Lemma set_row_twice i x y : set_row (set_row j i x) i y = set_row j i y.
Proof.
  unfold set_row. cbn. f_equal. destruct (j_entries j); cbn; [|done]. by rewrite list_insert_insert_eq.
Qed.

(** What the chained form adds: the line is not broken, or nothing but the
    mark moves. *)
Lemma chained_cases iss st seq prev id : in_u64 seq -> seq <> 0 -> is_bytes FZN_RECORD_ID_LEN id ->
  (exists i e, jrows j !! i = Some e /\ key_of e = (iss, st) /\ entry_ok e /\ positions j !! (iss, st) = Some e /\
     seq = j_received e + 1 /\ breaks_line e seq prev id = false /\
     fzn_journal_admit_chained j iss st seq prev id
     = (FZN_JOURNAL_OK, set_row j i (with_head (move_to e seq) id))) \/
  (exists i e, jrows j !! i = Some e /\ key_of e = (iss, st) /\ entry_ok e /\ positions j !! (iss, st) = Some e /\
     breaks_line e seq prev id = true /\
     fzn_journal_admit_chained j iss st seq prev id = (FZN_JOURNAL_ERR_FORK, set_row j i (mark_forked e))) \/
  (exists err, err <> FZN_JOURNAL_OK /\ err <> FZN_JOURNAL_ERR_FORK /\
     (forall e, positions j !! (iss, st) = Some e -> breaks_line e seq prev id = false) /\
     fzn_journal_admit_chained j iss st seq prev id = (err, j) /\
     forall moved, spec_admit (positions j) (iss, st) seq moved = (err, positions j)).
Proof.
  intros Hs Hz Hid. unfold fzn_journal_admit_chained. rewrite (jok_usable j Hj). cbn [negb orb].
  destruct (Z.eqb_spec seq 0); [done|].
  set (fork := (_ || _)%bool).
  assert (forall i e, jfind j iss st = Some (i, e) -> entry_ok e -> fork = breaks_line e seq prev id) as Hfork.
  { intros i e Ef He. unfold fork, breaks_line. rewrite Ef. destruct (next_wraps e seq He Hs Hz) as [_ ->].
    destruct (j_has_head e); cbn [andb]; [|by rewrite andb_false_r].
    destruct (Z.eqb_spec seq (j_received e)); cbn [andb];
      [destruct (Z.eqb_spec (j_received e) 0); [lia|]; cbn [negb andb]|]; by rewrite ?andb_true_r. }
  assert (jfind j iss st = None -> fork = false) as Hnone by (intros E; unfold fork; by rewrite E).
  destruct (admit_cases_j iss st seq Hs Hz) as [(i & e & Hi & Hk & He & Ef & Hp & Hn & Ha)|(err & Herr & Ha & Hsp)].
  - rewrite Ef, Ha, (Hfork i e Ef He). destruct (breaks_line e seq prev id) eqn:Eb.
    + right. left. exists i, e. split_and!; auto.
    + left. exists i, e. rewrite (jrows_set_row j Hj i e _ Hi), list_lookup_insert_eq by (by apply lookup_lt_Some in Hi).
      rewrite set_row_twice. split_and!; auto.
  - right. destruct (find_cases iss st) as [[Ef Hp]|(i & e & Ef & Hi & Hp & Hk & He)].
    + rewrite (Hnone Ef), Ef, Ha. right. exists err. split_and!; auto.
      * intros ->. specialize (Hsp (fun e => e)). unfold spec_admit in Hsp. by rewrite Hp in Hsp.
      * intros e Hpe. congruence.
      * by destruct err.
    + rewrite Ef, (Hfork i e Ef He). destruct (breaks_line e seq prev id) eqn:Eb.
      * left. exists i, e. split_and!; auto.
      * right. exists err. rewrite Ha. split_and!; auto.
        { intros ->. specialize (Hsp (fun e => e)). unfold spec_admit in Hsp. rewrite Hp in Hsp. by guards. }
        { intros e' Hpe. congruence. }
        { by destruct err. }
Qed.
End Steps.

Section Refinement.
Context (j : fzn_journal).
Hypothesis Hj : journal_ok j.

(** One step of the journal against one step of the map. *)
Definition refines (op : journal_op) (r : fzn_journal_err * fzn_journal) : Prop :=
  journal_ok (snd r) /\ (fst r, positions (snd r)) = spec_op (j_capacity j) (positions j) op.

Lemma chained_refines iss st seq prev id :
  in_u64 seq -> is_bytes FZN_RECORD_ID_LEN id ->
  refines (OpChained iss st seq prev id) (fzn_journal_admit_chained j iss st seq prev id).
Proof.
  intros Hs Hid. unfold refines. cbn [spec_op]. destruct (Z.eqb_spec seq 0) as [->|Hz].
  { unfold fzn_journal_admit_chained. by rewrite orb_true_r. }
  destruct (chained_cases j Hj iss st seq prev id Hs Hz Hid)
    as [(i & e & Hi & Hk & He & Hp & Hn & Hb & ->)|[(i & e & Hi & Hk & He & Hp & Hb & ->)|(err & _ & _ & Hb & -> & Hsp)]];
    cbn [fst snd].
  - destruct (set_found j Hj i e (with_head (move_to e seq) id) iss st Hi Hk eq_refl) as [Hok ->].
    { pose proof (eo_applied _ He). apply head_ok; [apply move_ok; [done|ulia]|cbn; lia|done]. }
    split; [done|]. rewrite Hp, Hb. unfold spec_admit. rewrite Hp, Hn.
    destruct (Z.leb_spec (j_received e + 1) (j_received e)); [lia|].
    destruct (Z.gtb_spec (j_received e + 1) (j_received e + 1)); [lia|done].
  - destruct (set_found j Hj i e (mark_forked e) iss st Hi Hk eq_refl) as [Hok ->]; [by apply fork_ok|].
    by rewrite Hp, Hb.
  - split; [done|]. destruct (positions j !! (iss, st)) as [e|] eqn:Hp.
    + by rewrite (Hb e eq_refl), Hsp.
    + specialize (Hsp (fun e => e)). unfold spec_admit in Hsp. by rewrite Hp in Hsp.
Qed.

Lemma confirm_refines iss st seq : in_u64 seq ->
  refines (OpConfirm iss st seq) (fzn_journal_confirm j iss st seq).
Proof.
  intros Hs. unfold refines, fzn_journal_confirm. cbn [spec_op]. rewrite (jok_usable j Hj). cbn [negb].
  destruct (find_cases j Hj iss st) as [[-> ->]|(i & e & -> & Hi & -> & Hk & He)]; [done|].
  destruct (Z.gtb_spec seq (j_received e)); [done|]. destruct (Z.leb_spec seq (j_applied e)); [done|]. cbn [fst snd].
  pose proof (eo_applied _ He).
  destruct (set_found j Hj i e (with_applied e seq) iss st Hi Hk eq_refl) as [Hok ->]; [apply applied_ok; [done|lia]|done].
Qed.

Lemma size_positions : Z.of_nat (size (positions j)) = j_used j.
Proof.
  unfold positions. rewrite tmap_size by apply Hj. unfold jrows, zlen.
  pose proof (jo_used _ Hj) as Hu. unfold j_capacity, zlen in Hu. rewrite length_take. lia.
Qed.

(** A row appended. *)
Lemma append_row iss st e :
  positions j !! (iss, st) = None -> j_used j < j_capacity j -> key_of e = (iss, st) -> entry_ok e ->
  let j' := mk_journal (j_entries (set_row j (Z.to_nat (j_used j)) e)) (j_used j + 1) in
  journal_ok j' /\ positions j' = <[(iss, st) := e]> (positions j) /\ jrows j' !! Z.to_nat (j_used j) = Some e.
Proof.
  intros Hp Hlt Hk He j'. destruct (jo_entries _ Hj) as [es E]. pose proof (jo_used _ Hj) as Hu.
  assert (length (jrows j) = Z.to_nat (j_used j)) as Hlen.
  { unfold jrows. unfold j_capacity, zlen in Hu. rewrite length_take. lia. }
  unfold j_capacity in Hlt, Hu. rewrite E in Hlt, Hu. unfold zlen in Hlt, Hu. cbn in Hlt, Hu.
  assert (jrows j' = jrows j ++ [e]) as Er.
  { unfold j', jrows, set_row. cbn [j_entries j_used]. rewrite E. cbn -[take insert].
    replace (Z.to_nat (j_used j + 1)) with (S (Z.to_nat (j_used j))) by lia.
    rewrite (take_S_r _ _ e) by (apply list_lookup_insert_eq; lia). f_equal. by apply take_insert_ge. }
  destruct (tmap_snoc key_of (jrows j) e) as [Hnd Hm]; [apply Hj|by rewrite Hk|].
  assert (journal_ok j') as Hok.
  { split.
    - unfold j', set_row. cbn. rewrite E. by eexists.
    - unfold j', j_capacity, set_row. cbn. rewrite E. cbn. unfold zlen. rewrite length_insert. lia.
    - rewrite Er. apply Forall_app. split; [apply Hj|]. by constructor.
    - by rewrite Er. }
  split_and!; [done| |].
  - unfold positions. by rewrite Er, Hm, Hk.
  - rewrite Er, <- Hlen. by apply list_lookup_middle.
Qed.

Lemma anchor_refines iss st seq : is_bytes FZN_PUBKEY_LEN iss -> in_u32 st -> in_u64 seq ->
  refines (OpAnchor iss st seq) (fzn_journal_anchor j iss st seq).
Proof.
  intros Hiss Hst Hs. unfold refines, fzn_journal_anchor. cbn [spec_op]. rewrite (jok_usable j Hj). cbn [negb].
  rewrite size_positions.
  destruct (find_cases j Hj iss st) as [[-> Hp]|(i & e & -> & Hi & -> & Hk & He)].
  - rewrite Hp. destruct (Z.geb_spec (j_used j) (j_capacity j)); [done|].
    destruct (append_row iss st (new_row iss st) Hp ltac:(lia) eq_refl) as (Hok & Hpos & Hi); [by apply new_row_ok|].
    set (j' := mk_journal _ _) in *. destruct (Z.eqb_spec seq 0) as [->|Hz]; [by rewrite <- Hpos|].
    unfold anchor_at. cbn [j_received new_row]. destruct (Z.leb_spec seq 0); [width; lia|]. cbn [fst snd].
    destruct (set_found j' Hok _ (new_row iss st) (move_to (new_row iss st) seq) iss st Hi eq_refl eq_refl) as [Hok' ->].
    { apply move_ok; [by apply new_row_ok|cbn; ulia]. }
    split; [done|]. by rewrite Hpos, insert_insert_eq.
  - destruct (Z.eqb_spec seq 0) as [->|Hz].
    { pose proof (eo_applied _ He). destruct (Z.leb_spec 0 (j_received e)); [done|lia]. }
    unfold anchor_at. destruct (Z.leb_spec seq (j_received e)); [done|]. cbn [fst snd].
    destruct (set_found j Hj i e (move_to e seq) iss st Hi Hk eq_refl) as [Hok ->]; [apply move_ok; [done|ulia]|done].
Qed.

Lemma use_refines same es : refines (OpUse same es) (fzn_journal_use j same es).
Proof.
  unfold refines, fzn_journal_use. cbn [spec_op]. destruct es as [es|]; [|done]. rewrite size_positions.
  pose proof (jo_used _ Hj) as Hu. destruct (Z.gtb_spec (j_used j) (j_capacity j)); [lia|]. rewrite orb_false_r.
  destruct (Z.eqb_spec (zlen es) 0); [done|]. destruct (Z.ltb_spec (zlen es) (j_used j)); [done|]. cbn [orb fst snd].
  assert (length (jrows j) = Z.to_nat (j_used j)) as Hlen.
  { unfold jrows. unfold j_capacity, zlen in Hu. rewrite length_take. lia. }
  set (rest := if same then _ else _). set (j' := mk_journal _ _).
  assert (jrows j' = jrows j) as Er by (unfold j'; unfold jrows at 1; cbn [j_entries j_used default]; rewrite <- Hlen; apply take_app_length).
  split; [|by unfold positions; rewrite Er]. split; rewrite ?Er; try apply Hj; [by eexists|].
  unfold j', j_capacity. cbn. rewrite zlen_app. unfold zlen. lia.
Qed.
End Refinement.

Lemma next_spec j iss st : journal_ok j ->
  fzn_journal_next j iss st
  = match positions j !! (iss, st) with None => 1 | Some e => Z.min UINT64_MAX (j_received e + 1) end.
Proof.
  intros Hj. unfold fzn_journal_next. rewrite (jok_usable j Hj). cbn [negb].
  destruct (find_cases j Hj iss st) as [[-> ->]|(i & e & -> & _ & -> & _ & He)]; [done|].
  pose proof (eo_received _ He). destruct (Z.eqb_spec (j_received e) UINT64_MAX); lia.
Qed.

Lemma pending_spec j iss st : journal_ok j ->
  fzn_journal_pending j iss st
  = match positions j !! (iss, st) with None => 0 | Some e => j_received e - j_applied e end.
Proof.
  intros Hj. unfold fzn_journal_pending. rewrite (jok_usable j Hj). cbn [negb].
  destruct (find_cases j Hj iss st) as [[-> ->]|(i & e & -> & _ & -> & _ & He)]; [done|].
  pose proof (eo_received _ He). pose proof (eo_applied _ He). apply u64_small. ulia.
Qed.

Lemma run_op_refines j op : journal_ok j -> op_ok op -> refines j op (run_op j op).
Proof.
  intros Hj. destruct op; cbn [op_ok run_op].
  - intros (_ & _ & ?). by apply journal_admit_refines.
  - intros (_ & _ & ? & _ & ?). by apply chained_refines.
  - intros (? & ? & ?). by apply anchor_refines.
  - intros (_ & _ & ?). by apply confirm_refines.
  - intros _. by apply use_refines.
Qed.

(** C30: the journal is the map it promises to be. Whatever the operation and
    whatever it answers, the array of rows afterwards stands for the map the
    reference operation leaves, the answer is the reference's, and the table
    is still well formed: one row a stream, applied never past received, no
    row past the capacity. The reference computes without wrapping, so the
    sums past the top of a stream never decide anything; and what to ask for
    next and how far applying lags are read off the map. *)
Theorem journal_refines_map j op :
  journal_ok j -> op_ok op ->
  let r := run_op j op in
  journal_ok (snd r) /\
  (fst r, positions (snd r)) = spec_op (j_capacity j) (positions j) op /\
  forall iss st,
    fzn_journal_next j iss st
    = match positions j !! (iss, st) with None => 1 | Some e => Z.min UINT64_MAX (j_received e + 1) end /\
    fzn_journal_pending j iss st
    = match positions j !! (iss, st) with None => 0 | Some e => j_received e - j_applied e end.
Proof.
  intros Hj Hop r. destruct (run_op_refines j op Hj Hop) as [Hok Hs].
  split; [exact Hok|]. split; [exact Hs|]. intros iss st. split; [by apply next_spec|by apply pending_spec].
Qed.

(** ** Histories *)

Definition run_ops (j : fzn_journal) (ops : list journal_op) : fzn_journal :=
  foldl (fun j op => snd (run_op j op)) j ops.

(** A position that has only moved on. *)
Definition advanced_from (e e' : fzn_journal_entry) : Prop :=
  key_of e' = key_of e /\ j_received e <= j_received e' /\ j_applied e <= j_applied e' /\
  (j_forked e = true -> j_forked e' = true) /\
  (j_received e' = j_received e -> j_head e' = j_head e /\ j_has_head e' = j_has_head e).

Lemma advanced_refl e : advanced_from e e.
Proof. by split_and!. Qed.

Lemma advanced_trans e1 e2 e3 : advanced_from e1 e2 -> advanced_from e2 e3 -> advanced_from e1 e3.
Proof.
  intros (K1 & R1 & A1 & F1 & H1) (K2 & R2 & A2 & F2 & H2).
  split_and!; [congruence|lia|lia|auto|]. intros E. destruct H2 as [-> ->]; [lia|]. apply H1. lia.
Qed.

Lemma spec_advances cap m op k e :
  (forall k e, m !! k = Some e -> key_of e = k) -> m !! k = Some e ->
  exists e', snd (spec_op cap m op) !! k = Some e' /\ advanced_from e e'.
Proof.
  intros Hk Hm.
  assert (forall k' e0 e', m !! k' = Some e0 -> advanced_from e0 e' ->
    exists e'', <[k' := e']> m !! k = Some e'' /\ advanced_from e e'') as Hins.
  { intros k' e0 e' Hm' Ha. destruct (decide (k' = k)) as [->|]; [|rewrite lookup_insert_ne by done; eauto using advanced_refl].
    rewrite lookup_insert_eq. exists e'. split; [done|]. congruence. }
  destruct op as [iss st seq|iss st seq prev id|iss st seq|iss st seq|same es]; cbn [spec_op]; unfold spec_admit; guards;
    repeat (case_match; cbn [snd]; guards); cbn [snd]; simplify_eq; eauto using advanced_refl;
    try (eapply Hins; [eassumption|]; split_and!; cbn; done || lia).
  all: rewrite lookup_insert_ne by congruence; eauto using advanced_refl.
Qed.

Lemma journal_run_ok ops : forall j, journal_ok j -> Forall op_ok ops -> journal_ok (run_ops j ops).
Proof.
  induction ops as [|op ops IH]; intros j Hj Hops; [done|]. apply Forall_cons_iff in Hops as [Hop Hops]. cbn.
  apply IH; [|done]. by apply run_op_refines.
Qed.

Lemma run_ops_advance ops : forall j k e, journal_ok j -> Forall op_ok ops -> positions j !! k = Some e ->
  exists e', positions (run_ops j ops) !! k = Some e' /\ advanced_from e e'.
Proof.
  induction ops as [|op ops IH]; intros j k e Hj Hops He; [eauto using advanced_refl|].
  apply Forall_cons_iff in Hops as [Hop Hops]. destruct (run_op_refines j op Hj Hop) as [Hok Hs].
  destruct (spec_advances (j_capacity j) (positions j) op k e) as (e1 & He1 & Ha1); [|done|].
  { intros k' e' [? _]%positions_lookup; done. }
  rewrite <- Hs in He1. cbn [snd] in He1.
  destruct (IH (snd (run_op j op)) k e1 Hok Hops He1) as (e2 & He2 & Ha2).
  exists e2. split; [exact He2|]. by eapply advanced_trans.
Qed.

Lemma journal_init_ok j es : es <> [] ->
  exists j', fzn_journal_init j (Some es) = (FZN_JOURNAL_OK, j') /\ journal_ok j' /\ positions j' = ∅ /\ j_capacity j' = zlen es.
Proof.
  intros Hne. destruct es as [|x es]; [done|]. eexists. split; [reflexivity|]. split; [|split].
  - split; [by eexists|split; [done|apply zlen_nonneg]|apply Forall_nil_2|apply NoDup_nil_2].
  - reflexivity.
  - unfold j_capacity, zlen. cbn. by rewrite length_replicate.
Qed.

(** C31: nothing is ever forgotten or taken back. From a fresh journal, after
    any history of admissions, chained admissions, anchors, confirmations and
    moves to larger tables, refused ones included, the table is well formed;
    and whatever it said of a stream at any point of that history, it says at
    least as much at the end: still followed, received and applied no lower, a
    fork once seen still marked, and the head unchanged while the position is. *)
Theorem journal_only_advances j0 es before after j :
  es <> [] -> Forall op_ok before -> Forall op_ok after -> fzn_journal_init j0 (Some es) = (FZN_JOURNAL_OK, j) ->
  let mid := run_ops j before in
  let last := run_ops j (before ++ after) in
  journal_ok last /\
  forall k e, positions mid !! k = Some e ->
    exists e', positions last !! k = Some e' /\ entry_ok e' /\ advanced_from e e'.
Proof.
  intros Hes Hb Ha Hi mid last. destruct (journal_init_ok j0 es Hes) as (j' & Hi' & Hj & _).
  assert (j' = j) as -> by congruence.
  assert (last = run_ops mid after) as -> by (unfold last, mid, run_ops; by rewrite foldl_app).
  pose proof (journal_run_ok before j Hj Hb : journal_ok mid) as Hmid. split; [by apply journal_run_ok|].
  intros k e He. destruct (run_ops_advance after mid k e Hmid Ha He) as (e' & He' & Hadv).
  exists e'. split_and!; [done| |done]. apply positions_lookup in He' as [_ Hin]; [|by apply journal_run_ok].
  pose proof (jo_rows _ (journal_run_ok after mid Hmid Ha)) as HF. rewrite list.Forall_forall in HF. by apply HF.
Qed.

(** ** Witnesses *)

Definition demo_streams : list journal_op :=
  [OpAnchor (demo_key 1) 7 0; OpChained (demo_key 1) 7 1 (zeros 32) (demo_key 9);
   OpChained (demo_key 1) 7 2 (demo_key 8) (demo_key 10); OpConfirm (demo_key 1) 7 1; OpAnchor (demo_key 2) 7 40].

Definition demo_journal : fzn_journal := snd (fzn_journal_init (mk_journal None 0) (Some (replicate 3 zero_jentry))).

Lemma demo_streams_ok : Forall op_ok demo_streams.
Proof.
  unfold demo_streams. repeat (apply Forall_cons_2; [cbn [op_ok]; split_and!|]); [..|by apply Forall_nil_2];
    first [apply demo_key_is; ulia | ulia | split; [reflexivity|apply zeros_range]].
Qed.

Lemma journal_refines_map_witness :
  let j := run_ops demo_journal demo_streams in
  run_op j (OpAdmit (demo_key 2) 7 42) = (FZN_JOURNAL_ERR_GAP, j) /\
  fst (spec_op (j_capacity j) (positions j) (OpAdmit (demo_key 2) 7 42)) = FZN_JOURNAL_ERR_GAP.
Proof.
  split; [reflexivity|]. destruct (journal_refines_map (run_ops demo_journal demo_streams) (OpAdmit (demo_key 2) 7 42))
    as (_ & E & _).
  - apply journal_run_ok; [|apply demo_streams_ok]. by destruct (journal_init_ok (mk_journal None 0) (replicate 3 zero_jentry)) as (j' & [= <-] & ? & _).
  - cbn [op_ok]. split_and!; [apply demo_key_is; ulia|ulia|ulia].
  - rewrite <- E. reflexivity.
Defined.

Lemma journal_only_advances_witness :
  let last := run_ops demo_journal demo_streams in
  j_received <$> positions last !! (demo_key 1, 7) = Some 1 /\ j_forked <$> positions last !! (demo_key 1, 7) = Some true /\
  journal_ok last.
Proof.
  split; [reflexivity|]. split; [reflexivity|].
  apply (journal_only_advances (mk_journal None 0) (replicate 3 zero_jentry) demo_streams [] demo_journal).
  - discriminate.
  - apply demo_streams_ok.
  - constructor.
  - reflexivity.
Defined.
