(* ===== verification/Ledger.v ===== *)
(** * record/ledger.c: what each peer has confirmed holding

    One row per (peer, subject, kind) with the highest version confirmed. A
    table whose fields do not agree cannot be scanned, and every reader then
    answers in the direction that sends again. A ledger, a peer and a subject
    are given, but where NULL is an answer; diagnostics are left out. *)

From stdpp Require Import gmap fin_maps.
From S2P Require Import Prelude Table Bytes Hop Records.

Inductive fzn_ledger_err := FZN_LEDGER_OK | FZN_LEDGER_ERR_MALFORMED | FZN_LEDGER_ERR_FULL | FZN_LEDGER_ERR_STALE.

Record fzn_ledger_entry := mk_lentry { l_peer : bytes; l_subject : bytes; l_kind : Z; l_version : Z }.

(** [l_entries] is the caller's array, [None] for NULL; what a table claims of
    it, in [l_capacity] and [l_used], may be wrong. *)
Record fzn_ledger := mk_ledger { l_entries : option (list fzn_ledger_entry); l_capacity : Z; l_used : Z }.

Definition zero_lentry : fzn_ledger_entry := mk_lentry (zeros FZN_PUBKEY_LEN) (zeros FZN_SUBJECT_LEN) 0 0.

Definition unscannable (l : fzn_ledger) : bool :=
  (l_used l >? l_capacity l) || ((l_used l >? 0) && negb (if l_entries l is Some _ then true else false)).

Definition has_rows (l : fzn_ledger) : bool := if l_entries l is Some _ then true else false.

(** The rows a scan of a sound table reads. *)
Definition lrows (l : fzn_ledger) : list fzn_ledger_entry := take (Z.to_nat (l_used l)) (default [] (l_entries l)).

Definition holds_subject (peer subject : bytes) (kind : Z) (e : fzn_ledger_entry) : bool :=
  (l_kind e =? kind) && memeq (l_peer e) peer && memeq (l_subject e) subject.

(** The index of a row; [None] is [used]. *)
Definition find_row (l : fzn_ledger) (peer subject : bytes) (kind : Z) : option nat :=
  find_index (holds_subject peer subject kind) (lrows l).

Definition fzn_ledger_init (l : fzn_ledger) (entries : option (list fzn_ledger_entry)) (capacity : Z)
    : fzn_ledger_err * fzn_ledger :=
  match entries with
  | None => (FZN_LEDGER_ERR_MALFORMED, l)
  | Some es =>
    if capacity =? 0 then (FZN_LEDGER_ERR_MALFORMED, l)
    else (FZN_LEDGER_OK, mk_ledger (Some (replicate (Z.to_nat capacity) zero_lentry ++ drop (Z.to_nat capacity) es)) capacity 0)
  end.

Definition version_at (l : fzn_ledger) (i : nat) : Z := l_version (nth i (lrows l) zero_lentry).

Definition with_version (l : fzn_ledger) (i : nat) (version : Z) : fzn_ledger :=
  mk_ledger ((fun es => match es !! i with
                        | Some e => <[i := mk_lentry (l_peer e) (l_subject e) (l_kind e) version]> es
                        | None => es
                        end) <$> l_entries l) (l_capacity l) (l_used l).

Definition with_row (l : fzn_ledger) (e : fzn_ledger_entry) : fzn_ledger :=
  mk_ledger ((fun es => <[Z.to_nat (l_used l) := e]> es) <$> l_entries l) (l_capacity l) (l_used l + 1).

Definition fzn_ledger_confirm (l : fzn_ledger) (peer subject : bytes) (kind version : Z) : fzn_ledger_err * fzn_ledger :=
  if version =? 0 then (FZN_LEDGER_ERR_MALFORMED, l)
  else if unscannable l || negb (has_rows l) then (FZN_LEDGER_ERR_MALFORMED, l)
  else match find_row l peer subject kind with
  | Some at_ =>
    if version <=? version_at l at_ then (FZN_LEDGER_ERR_STALE, l)
    else (FZN_LEDGER_OK, with_version l at_ version)
  | None =>
    if l_used l >=? l_capacity l then (FZN_LEDGER_ERR_FULL, l)
    else (FZN_LEDGER_OK, with_row l (mk_lentry peer subject kind version))
  end.

Definition fzn_ledger_confirmed (l : fzn_ledger) (peer subject : bytes) (kind : Z) : Z :=
  if unscannable l || negb (has_rows l) then 0
  else match find_row l peer subject kind with Some at_ => version_at l at_ | None => 0 end.

Definition fzn_ledger_behind (l : fzn_ledger) (peer subject : bytes) (kind current : Z) : bool :=
  fzn_ledger_confirmed l peer subject kind <? current.

Definition fzn_ledger_sound (l : option fzn_ledger) : bool :=
  match l with None => true | Some l => negb (unscannable l) end.

Definition fzn_ledger_count (l : option fzn_ledger) : Z :=
  match l with None => 0 | Some l => if unscannable l then 0 else l_used l end.

(** ** The table as a map *)

Abbreviation lkey := (bytes * bytes * Z)%type (only parsing).
Definition lkey_of (e : fzn_ledger_entry) : lkey := (l_peer e, l_subject e, l_kind e).

(** The version each row holds. *)
Definition versions (l : fzn_ledger) : gmap lkey Z := l_version <$> tmap lkey_of (lrows l).

Record ledger_ok (l : fzn_ledger) : Prop := {
  lo_entries : exists es, l_entries l = Some es /\ zlen es = l_capacity l;
  lo_used : 0 <= l_used l <= l_capacity l;
  lo_keys : NoDup (lkey_of <$> lrows l);
  lo_versions : Forall (fun e => 0 < l_version e) (lrows l)
}.

Lemma holds_subject_true p s k e : holds_subject p s k e = true <-> lkey_of e = (p, s, k).
Proof.
  unfold holds_subject, lkey_of. rewrite !andb_true_iff, Z.eqb_eq, !memeq_true.
  split; [intros [[-> ->] ->]; done|by intros [= -> -> ->]].
Qed.

Section Ok.
Context (l : fzn_ledger).
Hypothesis Hl : ledger_ok l.

Lemma ok_scannable : unscannable l || negb (has_rows l) = false.
Proof.
  destruct (lo_entries _ Hl) as (es & E & _). unfold unscannable, has_rows. rewrite E. pose proof (lo_used _ Hl).
  destruct (Z.gtb_spec (l_used l) (l_capacity l)); [lia|]. by rewrite andb_false_r.
Qed.

Lemma zlen_lrows : zlen (lrows l) = l_used l.
Proof.
  destruct (lo_entries _ Hl) as (es & E & Hc). pose proof (lo_used _ Hl). unfold lrows, zlen in *. rewrite E. cbn.
  rewrite length_take. lia.
Qed.

Lemma ledger_find_row p s k :
  match find_row l p s k with
  | Some i => exists e, lrows l !! i = Some e /\ lkey_of e = (p, s, k) /\ versions l !! (p, s, k) = Some (l_version e) /\
      version_at l i = l_version e /\ 0 < l_version e
  | None => versions l !! (p, s, k) = None
  end.
Proof.
  pose proof (scan_is_lookup lkey_of (holds_subject p s k) (lrows l) (p, s, k) (lo_keys _ Hl) (holds_subject_true p s k)) as H.
  unfold find_row. destruct (find_index _ _) as [i|]; unfold versions; rewrite lookup_fmap.
  - destruct H as (e & Hi & Hk & Hm). exists e. rewrite Hm. split_and!; auto.
    + unfold version_at. by rewrite (nth_lookup_Some _ _ _ _ Hi).
    + pose proof (lo_versions _ Hl) as HF. rewrite Forall_lookup in HF. by eapply HF.
  - by rewrite H.
Qed.

Lemma confirmed_spec p s k : fzn_ledger_confirmed l p s k = default 0 (versions l !! (p, s, k)).
Proof.
  unfold fzn_ledger_confirmed. rewrite ok_scannable. pose proof (ledger_find_row p s k) as H.
  destruct (find_row l p s k) as [i|]; [|by rewrite H]. by destruct H as (e & _ & _ & -> & -> & _).
Qed.

Lemma count_spec : fzn_ledger_count (Some l) = Z.of_nat (size (versions l)).
Proof.
  pose proof ok_scannable as H. apply orb_false_iff in H as [H _]. unfold fzn_ledger_count. rewrite H.
  unfold versions. by rewrite map_size_fmap, tmap_size, zlen_lrows by apply Hl.
Qed.

(** What [fzn_ledger_confirm] does to the map. *)
Definition spec_confirm (cap : Z) (m : gmap lkey Z) (k : lkey) (v : Z) : fzn_ledger_err * gmap lkey Z :=
  if v =? 0 then (FZN_LEDGER_ERR_MALFORMED, m)
  else match m !! k with
  | Some v0 => if v <=? v0 then (FZN_LEDGER_ERR_STALE, m) else (FZN_LEDGER_OK, <[k := v]> m)
  | None => if Z.of_nat (size m) >=? cap then (FZN_LEDGER_ERR_FULL, m) else (FZN_LEDGER_OK, <[k := v]> m)
  end.

Lemma with_version_ok i e v : lrows l !! i = Some e -> 0 < v ->
  ledger_ok (with_version l i v) /\ versions (with_version l i v) = <[lkey_of e := v]> (versions l).
Proof.
  intros Hi Hv. destruct (lo_entries _ Hl) as (es & E & Hc). pose proof (lo_used _ Hl) as Hu.
  set (e' := mk_lentry (l_peer e) (l_subject e) (l_kind e) v).
  assert (es !! i = Some e /\ (i < Z.to_nat (l_used l))%nat) as [Hes Hlt].
  { unfold lrows in Hi. rewrite E in Hi. cbn in Hi. by apply lookup_take_Some in Hi as [? ?]. }
  assert (lrows (with_version l i v) = <[i := e']> (lrows l)) as Er.
  { unfold lrows, with_version. cbn [l_entries l_used]. rewrite E. cbn -[take insert]. rewrite Hes. by apply take_insert_lt. }
  destruct (tmap_set lkey_of (lrows l) i e e' (lo_keys _ Hl) Hi eq_refl) as [Hnd Hm]. split.
  - split; [|exact Hu|by rewrite Er|].
    + unfold with_version. cbn [l_entries l_capacity]. rewrite E. cbn -[insert]. rewrite Hes. eexists. split; [done|].
      unfold zlen in *. by rewrite length_insert.
    + rewrite Er. apply Forall_insert; [apply Hl|done].
  - unfold versions. by rewrite Er, Hm, fmap_insert.
Qed.

Lemma ledger_with_row_ok e : versions l !! lkey_of e = None -> l_used l < l_capacity l -> 0 < l_version e ->
  ledger_ok (with_row l e) /\ versions (with_row l e) = <[lkey_of e := l_version e]> (versions l).
Proof.
  intros Hn Hlt Hv. destruct (lo_entries _ Hl) as (es & E & Hc). pose proof (lo_used _ Hl) as Hu.
  assert (lrows (with_row l e) = lrows l ++ [e]) as Er.
  { unfold lrows, with_row. cbn [l_entries l_used]. rewrite E. cbn -[take insert]. unfold zlen in Hc.
    replace (Z.to_nat (l_used l + 1)) with (S (Z.to_nat (l_used l))) by lia.
    rewrite (take_S_r _ _ e) by (apply list_lookup_insert_eq; lia). f_equal. by apply take_insert_ge. }
  destruct (tmap_snoc lkey_of (lrows l) e (lo_keys _ Hl)) as [Hnd Hm].
  { unfold versions in Hn. by rewrite lookup_fmap, fmap_None in Hn. }
  split.
  - split.
    + unfold with_row. cbn [l_entries l_capacity]. rewrite E. cbn -[insert]. eexists. split; [done|].
      unfold zlen in *. by rewrite length_insert.
    + cbn. lia.
    + by rewrite Er.
    + rewrite Er. apply Forall_app. split; [apply Hl|]. by apply Forall_singleton.
  - unfold versions. by rewrite Er, Hm, fmap_insert.
Qed.

Lemma ledger_confirm_refines p s k v : in_u64 v ->
  let r := fzn_ledger_confirm l p s k v in
  ledger_ok (snd r) /\ l_capacity (snd r) = l_capacity l /\
  (fst r, versions (snd r)) = spec_confirm (l_capacity l) (versions l) (p, s, k) v.
Proof.
  intros Hv. cbv zeta. unfold fzn_ledger_confirm, spec_confirm. destruct (Z.eqb_spec v 0); [done|]. rewrite ok_scannable.
  pose proof (ledger_find_row p s k) as H. destruct (find_row l p s k) as [i|].
  - destruct H as (e & Hi & Hk & -> & -> & _). destruct (Z.leb_spec v (l_version e)); [done|].
    destruct (with_version_ok i e v Hi) as [Hok Hm]; [ulia|]. cbn [fst snd]. by rewrite Hm, Hk.
  - rewrite H. pose proof count_spec as Hc. pose proof ok_scannable as Hs. apply orb_false_iff in Hs as [Hs _].
    unfold fzn_ledger_count in Hc. rewrite Hs in Hc. rewrite <- Hc. destruct (Z.geb_spec (l_used l) (l_capacity l)); [done|].
    destruct (ledger_with_row_ok (mk_lentry p s k v) H) as [Hok Hm]; [lia|cbn; ulia|]. cbn [fst snd]. by rewrite Hm.
Qed.
End Ok.

(** ** A history of confirmations *)

Record confirmation := mk_conf { k_peer : bytes; k_subject : bytes; k_kind : Z; k_version : Z }.
Definition kkey (c : confirmation) : lkey := (k_peer c, k_subject c, k_kind c).

Definition confirm_all (l : fzn_ledger) (cs : list confirmation) : fzn_ledger :=
  fold_left (fun l c => snd (fzn_ledger_confirm l (k_peer c) (k_subject c) (k_kind c) (k_version c))) cs l.

(** The highest version each key was ever confirmed at. *)
Fixpoint highest (cs : list confirmation) : gmap lkey Z :=
  match cs with
  | [] => ∅
  | c :: cs =>
    if k_version c =? 0 then highest cs
    else <[kkey c := Z.max (k_version c) (default 0 (highest cs !! kkey c))]> (highest cs)
  end.

Lemma init_ledger_ok l es cap : cap <> 0 -> zlen es = cap ->
  exists l', fzn_ledger_init l (Some es) cap = (FZN_LEDGER_OK, l') /\ ledger_ok l' /\ versions l' = ∅ /\ l_capacity l' = cap.
Proof.
  intros Hc Hl. unfold fzn_ledger_init. destruct (Z.eqb_spec cap 0); [done|]. eexists. split; [done|].
  pose proof (zlen_nonneg es). split_and!; [|done|done]. split; cbn; [|lia|apply NoDup_nil_2|apply Forall_nil_2].
  eexists. split; [done|]. unfold zlen in *. rewrite length_app, length_replicate, length_drop. lia.
Qed.

(** A run of confirmations says no more than was confirmed. *)
Lemma confirm_all_spec cs : forall l, ledger_ok l -> Forall (fun c => in_u64 (k_version c)) cs ->
  ledger_ok (confirm_all l cs) /\ l_capacity (confirm_all l cs) = l_capacity l /\
  forall k, default 0 (versions (confirm_all l cs) !! k) <= Z.max (default 0 (versions l !! k)) (default 0 (highest cs !! k)).
Proof.
  induction cs as [|c cs IH]; intros l Hl Hcs; cbn [confirm_all fold_left].
  { split_and!; auto. intros k. apply Z.le_max_l. }
  apply Forall_cons_iff in Hcs as [Hc Hcs].
  destruct (ledger_confirm_refines l Hl (k_peer c) (k_subject c) (k_kind c) (k_version c) Hc) as (Hok & Hcap & Hspec).
  set (l1 := snd (fzn_ledger_confirm _ _ _ _ _)) in *. fold (confirm_all l1 cs).
  destruct (IH l1 Hok Hcs) as (Hok' & Hcap' & Hle). split_and!; [done|congruence|]. intros k. specialize (Hle k).
  fold (kkey c) in Hspec. cbn [highest]. unfold spec_confirm in Hspec. destruct (Z.eqb_spec (k_version c) 0).
  { apply (f_equal snd) in Hspec. cbn [snd] in Hspec. by rewrite Hspec in Hle. }
  destruct (decide (k = kkey c)) as [->|Hne].
  - rewrite lookup_insert_eq. cbn [default]. destruct (versions l !! kkey c) as [v0|] eqn:Ev; cbn [default] in *; repeat case_match;
      apply (f_equal snd) in Hspec; cbn [snd] in Hspec; rewrite Hspec in Hle; rewrite ?lookup_insert_eq, ?Ev in Hle; cbn [default] in Hle;
      unfold id in *; lia.
  - rewrite lookup_insert_ne by done. assert (versions l1 !! k = versions l !! k) as E; [|by rewrite <- E].
    apply (f_equal snd) in Hspec. cbn [snd] in Hspec. rewrite Hspec. repeat case_match; cbn [snd]; rewrite ?lookup_insert_ne; auto.
Qed.

(** Two tables of versions, the higher of each. *)
Definition join (m h : gmap lkey Z) : gmap lkey Z := union_with (fun a b => Some (Z.max a b)) m h.

Lemma join_lookup m h k : join m h !! k =
  match m !! k, h !! k with Some a, Some b => Some (Z.max a b) | Some a, None | None, Some a => Some a | None, None => None end.
Proof. unfold join. rewrite lookup_union_with. by destruct (m !! k), (h !! k). Qed.

Lemma size_join_new m h k : m !! k = None -> is_Some (h !! k) -> (size m < size (join m h))%nat.
Proof.
  intros Hm [v Hh]. apply Nat.lt_le_trans with (size (<[k := v]> m)); [rewrite map_size_insert_None by done; lia|].
  rewrite <- !size_dom. apply subseteq_size. intros k' Hk'. apply elem_of_dom in Hk' as [x Hx]. apply elem_of_dom.
  rewrite join_lookup. destruct (decide (k' = k)) as [->|]; [rewrite Hm, Hh; eauto|].
  rewrite lookup_insert_ne in Hx by done. rewrite Hx. destruct (h !! k'); eauto.
Qed.

(** While there is room for every key, it is exactly the highest confirmed. *)
Lemma confirm_all_exact cs : forall l, ledger_ok l -> Forall (fun c => in_u64 (k_version c)) cs ->
  Z.of_nat (size (join (versions l) (highest cs))) <= l_capacity l ->
  versions (confirm_all l cs) = join (versions l) (highest cs).
Proof.
  induction cs as [|c cs IH]; intros l Hl Hcs Hroom; cbn [confirm_all fold_left].
  { apply map_eq. intros k. rewrite join_lookup. cbn [highest]. rewrite lookup_empty. by destruct (versions l !! k). }
  apply Forall_cons_iff in Hcs as [Hc Hcs].
  destruct (ledger_confirm_refines l Hl (k_peer c) (k_subject c) (k_kind c) (k_version c) Hc) as (Hok & Hcap & Hspec).
  set (l1 := snd (fzn_ledger_confirm _ _ _ _ _)) in *. fold (confirm_all l1 cs). fold (kkey c) in Hspec.
  assert (join (versions l1) (highest cs) = join (versions l) (highest (c :: cs))) as E.
  { apply (f_equal snd) in Hspec. cbn [snd] in Hspec. rewrite Hspec. unfold spec_confirm. cbn [highest] in *.
    destruct (Z.eqb_spec (k_version c) 0); [done|]. apply map_eq. intros k.
    destruct (versions l !! kkey c) as [v0|] eqn:Ev.
    - destruct (Z.leb_spec (k_version c) v0); cbn [snd]; rewrite !join_lookup; destruct (decide (k = kkey c)) as [->|];
        rewrite ?lookup_insert_eq, ?Ev, ?lookup_insert_ne by done; try done; destruct (highest cs !! kkey c); cbn [default];
        unfold id; f_equal; ulia.
    - destruct (Z.geb_spec (Z.of_nat (size (versions l))) (l_capacity l)) as [Hfull|].
      { pose proof (size_join_new (versions l) (<[kkey c := Z.max (k_version c) (default 0 (highest cs !! kkey c))]> (highest cs))
          (kkey c) Ev) as Hs. rewrite lookup_insert_eq in Hs. specialize (Hs ltac:(eauto)). lia. }
      cbn [snd]. rewrite !join_lookup. destruct (decide (k = kkey c)) as [->|];
        rewrite ?lookup_insert_eq, ?Ev, ?lookup_insert_ne by done; try done. destruct (highest cs !! kkey c); cbn [default];
        unfold id; f_equal; ulia. }
  rewrite <- E. apply IH; [done|done|]. by rewrite E, Hcap.
Qed.

(** The ledger over-claims for nobody. Whatever confirmations arrive, in
    whatever order and however often, it says of each peer and subject no more
    than the highest version that was confirmed; while it has a row for every
    subject it says exactly that, so late and repeated confirmations change
    nothing and a peer is behind just when nothing as high was confirmed. A
    table that cannot be scanned claims nothing at all: every peer is behind. *)
Theorem ledger_never_overclaims l0 es cap cs p s k :
  cap <> 0 -> zlen es = cap -> Forall (fun c => in_u64 (k_version c)) cs ->
  let l := confirm_all (snd (fzn_ledger_init l0 (Some es) cap)) cs in
  let top := default 0 (highest cs !! (p, s, k)) in
  fzn_ledger_confirmed l p s k <= top /\
  (Z.of_nat (size (highest cs)) <= cap ->
   fzn_ledger_confirmed l p s k = top /\ fzn_ledger_count (Some l) = Z.of_nat (size (highest cs)) /\
   forall current, fzn_ledger_behind l p s k current = (top <? current)) /\
  forall bad current, fzn_ledger_sound (Some bad) = false ->
    fzn_ledger_behind bad p s k current = (0 <? current) /\
    forall v, fst (fzn_ledger_confirm bad p s k v) = FZN_LEDGER_ERR_MALFORMED.
Proof.
  intros Hcap Hes Hcs. destruct (init_ledger_ok l0 es cap Hcap Hes) as (l1 & -> & Hl1 & Hv1 & Hc1). cbn [snd]. cbv zeta.
  destruct (confirm_all_spec cs l1 Hl1 Hcs) as (Hok & _ & Hle). rewrite confirmed_spec by done.
  assert (forall h, join ∅ h = h) as Hjoin.
  { intros h. apply map_eq. intros x. rewrite join_lookup, lookup_empty. by destruct (h !! x). }
  split; [|split].
  - specialize (Hle (p, s, k)). rewrite Hv1, lookup_empty in Hle. cbn [default] in Hle.
    assert (0 <= default 0 (highest cs !! (p, s, k))); [|lia]. clear -Hcs. induction Hcs as [|c cs Hc _ IH]; [done|]. cbn [highest].
    destruct (_ =? 0); [done|]. destruct (decide ((p, s, k) = kkey c)) as [<-|]; [rewrite lookup_insert_eq|by rewrite lookup_insert_ne].
    cbn. ulia.
  - intros Hroom. pose proof (confirm_all_exact cs l1 Hl1 Hcs) as Hex. rewrite Hv1, Hjoin, Hc1 in Hex. specialize (Hex Hroom).
    rewrite count_spec, Hex by done. split_and!; auto. intros current. unfold fzn_ledger_behind. by rewrite confirmed_spec, Hex.
  - intros bad current Hbad. cbn in Hbad. apply negb_false_iff in Hbad. unfold fzn_ledger_behind, fzn_ledger_confirmed. rewrite Hbad.
    split; [done|]. intros v. unfold fzn_ledger_confirm. rewrite Hbad. by destruct (v =? 0).
Qed.

(** ** Witness *)

Definition demo_confirmations : list confirmation :=
  [mk_conf (zeros 32) (zeros 32) 1 3; mk_conf (zeros 32) (zeros 32) 1 9; mk_conf (zeros 32) (zeros 32) 2 4;
   mk_conf (zeros 32) (zeros 32) 1 5].

Lemma ledger_never_overclaims_witness :
  let l := confirm_all (snd (fzn_ledger_init (mk_ledger None 0 0) (Some (replicate 2 zero_lentry)) 2)) demo_confirmations in
  fzn_ledger_confirmed l (zeros 32) (zeros 32) 1 = 9 /\ fzn_ledger_count (Some l) = 2.
Proof.
  intros l. destruct (ledger_never_overclaims (mk_ledger None 0 0) (replicate 2 zero_lentry) 2 demo_confirmations (zeros 32) (zeros 32) 1)
    as (_ & H & _).
  - discriminate.
  - reflexivity.
  - repeat constructor; cbn; ulia.
  - destruct H as (H1 & H2 & _); [vm_compute; discriminate|]. split; [exact H1|exact H2].
Defined.
