(* ===== verification/Sync.v ===== *)
(** * record/sync.c: what two journals are missing of each other

    A digest is the positions of a journal; a plan compares a journal with a
    peer's digest and names ranges of records to fetch or to offer. The arrays
    written are the lists of what is written to them. A journal, a plan and an
    output are given; a peer's positions are a list, empty where NULL is
    allowed. *)

From stdpp Require Import gmap fin_maps.
From S2P Require Import Prelude Bytes Hop Records Journal.

Inductive fzn_sync_err := FZN_SYNC_OK | FZN_SYNC_ERR_MALFORMED.

Definition FZN_SYNC_MAX_POSITIONS : Z := 1024.

Record fzn_sync_position := mk_pos { p_issuer : bytes; p_stream : Z; p_received : Z }.
Record fzn_sync_request := mk_req { q_issuer : bytes; q_stream : Z; q_from : Z; q_count : Z }.
Record fzn_sync_plan := mk_plan {
  request_count : Z; unknown_issuers : Z; truncated : Z; positions_ignored : Z
}.

Definition names_stream (issuer : bytes) (stream : Z) (p : fzn_sync_position) : bool :=
  (p_stream p =? stream) && memeq (p_issuer p) issuer.

(** The scan of [theirs_for], the largest so far in [hit]. *)
Fixpoint theirs_loop (theirs : list fzn_sync_position) (issuer : bytes) (stream : Z)
    (hit : option fzn_sync_position) : option fzn_sync_position :=
  match theirs with
  | [] => hit
  | t :: theirs =>
    theirs_loop theirs issuer stream
      (if negb (names_stream issuer stream t) then hit
       else match hit with
            | None => Some t
            | Some h => if p_received t >? p_received h then Some t else hit
            end)
  end.

Definition theirs_for (theirs : list fzn_sync_position) (issuer : bytes) (stream : Z) : option fzn_sync_position :=
  theirs_loop theirs issuer stream None.

Definition follows (j : fzn_journal) (issuer : bytes) (stream : Z) : bool :=
  existsb (holds_stream issuer stream) (jrows j).

Definition clear_plan : fzn_sync_plan := mk_plan 0 0 0 0.

(** How many positions to look at, and the plan with the rest counted. *)
Definition to_examine (their_count : Z) (plan : fzn_sync_plan) : Z * fzn_sync_plan :=
  if their_count <=? FZN_SYNC_MAX_POSITIONS then (their_count, plan)
  else (FZN_SYNC_MAX_POSITIONS,
        mk_plan (request_count plan) (unknown_issuers plan) (truncated plan) (their_count - FZN_SYNC_MAX_POSITIONS)).

(** The loop of [fzn_sync_digest]: [out] what is written so far. *)
Fixpoint digest_loop (es : list fzn_journal_entry) (out_cap : Z) (out : list fzn_sync_position) (dropped : Z)
    : list fzn_sync_position * Z :=
  match es with
  | [] => (out, dropped)
  | e :: es =>
    if zlen out >=? out_cap then digest_loop es out_cap out (dropped + 1)
    else digest_loop es out_cap (out ++ [mk_pos (j_issuer e) (j_stream e) (j_received e)]) dropped
  end.

(** What is written, whose length is the answer, and [*dropped]. *)
Definition fzn_sync_digest (j : fzn_journal) (out_cap : Z) : list fzn_sync_position * Z :=
  if negb (usable j) then ([], 0) else digest_loop (jrows j) out_cap [] 0.

Definition add_range (issuer : bytes) (stream behind ahead max_per_request : Z) (out : list fzn_sync_request)
    (out_cap : Z) (plan : fzn_sync_plan) : list fzn_sync_request * fzn_sync_plan :=
  if ahead <=? behind then (out, plan)
  else if request_count plan >=? out_cap
  then (out, mk_plan (request_count plan) (unknown_issuers plan) (truncated plan + 1) (positions_ignored plan))
  else
    let want := ahead - behind in
    let want := if want >? max_per_request then max_per_request else want in
    (out ++ [mk_req issuer stream (u64 (behind + 1)) want],
     mk_plan (request_count plan + 1) (unknown_issuers plan) (truncated plan) (positions_ignored plan)).

Definition args_ok (j : fzn_journal) (max_per_request : Z) : bool :=
  match j_entries j with
  | None => false
  | Some _ => negb (max_per_request =? 0) && (j_used j <=? j_capacity j)
  end.

Definition count_unknown (plan : fzn_sync_plan) : fzn_sync_plan :=
  mk_plan (request_count plan) (unknown_issuers plan + 1) (truncated plan) (positions_ignored plan).

(** The first pass of [fzn_sync_plan_fetch]. *)
Fixpoint strangers_loop (j : fzn_journal) (theirs : list fzn_sync_position) (plan : fzn_sync_plan) : fzn_sync_plan :=
  match theirs with
  | [] => plan
  | t :: theirs =>
    strangers_loop j theirs (if follows j (p_issuer t) (p_stream t) then plan else count_unknown plan)
  end.

(** Its second pass, over this host's rows. *)
Fixpoint fetch_loop (es : list fzn_journal_entry) (look : list fzn_sync_position) (max_per_request out_cap : Z)
    (out : list fzn_sync_request) (plan : fzn_sync_plan) : list fzn_sync_request * fzn_sync_plan :=
  match es with
  | [] => (out, plan)
  | mine :: es =>
    match theirs_for look (j_issuer mine) (j_stream mine) with
    | None => fetch_loop es look max_per_request out_cap out plan
    | Some t =>
      let '(out, plan) := add_range (j_issuer mine) (j_stream mine) (j_received mine) (p_received t)
                            max_per_request out out_cap plan in
      fetch_loop es look max_per_request out_cap out plan
    end
  end.

Definition fzn_sync_plan_fetch (j : fzn_journal) (theirs : list fzn_sync_position) (max_per_request out_cap : Z)
    : fzn_sync_err * list fzn_sync_request * fzn_sync_plan :=
  let plan := clear_plan in
  if negb (args_ok j max_per_request) then (FZN_SYNC_ERR_MALFORMED, [], plan)
  else
    let '(look, plan) := to_examine (zlen theirs) plan in
    let look := take (Z.to_nat look) theirs in
    let plan := strangers_loop j look plan in
    let '(out, plan) := fetch_loop (jrows j) look max_per_request out_cap [] plan in
    (FZN_SYNC_OK, out, plan).

Fixpoint offer_loop (es : list fzn_journal_entry) (look : list fzn_sync_position) (max_per_request out_cap : Z)
    (out : list fzn_sync_request) (plan : fzn_sync_plan) : list fzn_sync_request * fzn_sync_plan :=
  match es with
  | [] => (out, plan)
  | mine :: es =>
    match theirs_for look (j_issuer mine) (j_stream mine) with
    | None => offer_loop es look max_per_request out_cap out (count_unknown plan)
    | Some t =>
      let '(out, plan) := add_range (j_issuer mine) (j_stream mine) (p_received t) (j_received mine)
                            max_per_request out out_cap plan in
      offer_loop es look max_per_request out_cap out plan
    end
  end.

Definition fzn_sync_plan_offer (j : fzn_journal) (theirs : list fzn_sync_position) (max_per_request out_cap : Z)
    : fzn_sync_err * list fzn_sync_request * fzn_sync_plan :=
  let plan := clear_plan in
  if negb (args_ok j max_per_request) then (FZN_SYNC_ERR_MALFORMED, [], plan)
  else
    let '(look, plan) := to_examine (zlen theirs) plan in
    let look := take (Z.to_nat look) theirs in
    let '(out, plan) := offer_loop (jrows j) look max_per_request out_cap [] plan in
    (FZN_SYNC_OK, out, plan).

(** ** The largest claim *)

Definition pkey (p : fzn_sync_position) : bytes * Z := (p_issuer p, p_stream p).

Lemma names_stream_true iss st p : names_stream iss st p = true <-> pkey p = (iss, st).
Proof.
  unfold names_stream, pkey. rewrite andb_true_iff, memeq_true, Z.eqb_eq.
  split; [by intros [-> ->]|by intros [= -> ->]].
Qed.

(** The greatest [received] a list claims for a stream. *)
Fixpoint claim (theirs : list fzn_sync_position) (iss : bytes) (st : Z) : option Z :=
  match theirs with
  | [] => None
  | t :: theirs =>
    let rest := claim theirs iss st in
    if names_stream iss st t then Some (match rest with Some r => Z.max (p_received t) r | None => p_received t end)
    else rest
  end.

Definition zmax_opt (a b : option Z) : option Z :=
  match a, b with Some a, Some b => Some (Z.max a b) | None, b => b | a, None => a end.

Lemma theirs_loop_claim theirs iss st : forall hit,
  p_received <$> theirs_loop theirs iss st hit = zmax_opt (p_received <$> hit) (claim theirs iss st).
Proof.
  induction theirs as [|t theirs IH]; intros hit; cbn [theirs_loop claim]; [by destruct hit|].
  rewrite IH. destruct (names_stream iss st t); cbn [negb]; [|done].
  destruct hit as [h|], (claim theirs iss st) as [c|]; cbn; [| |done..]; destruct (Z.gtb_spec (p_received t) (p_received h)); cbn; f_equal; lia.
Qed.

Lemma theirs_for_claim theirs iss st : p_received <$> theirs_for theirs iss st = claim theirs iss st.
Proof. unfold theirs_for. rewrite theirs_loop_claim. cbn. by destruct (claim theirs iss st). Qed.

#[export] Instance claim_perm : Proper ((≡ₚ) ==> eq ==> eq ==> eq) claim.
Proof.
  intros l1 l2 Hp iss ? <- st ? <-. induction Hp as [|x l1 l2 _ IH|x y l|l1 l2 l3 _ IH1 _ IH2]; cbn [claim]; [done| | |congruence].
  - by rewrite IH.
  - destruct (names_stream iss st x), (names_stream iss st y), (claim l iss st); try done; f_equal; lia.
Qed.

Lemma claim_Some theirs iss st c : claim theirs iss st = Some c ->
  (exists p, p ∈ theirs /\ pkey p = (iss, st) /\ p_received p = c) /\
  (forall p, p ∈ theirs -> pkey p = (iss, st) -> p_received p <= c).
Proof.
  revert c. induction theirs as [|t theirs IH]; intros c; cbn [claim]; [done|].
  destruct (names_stream iss st t) eqn:E.
  - apply names_stream_true in E. destruct (claim theirs iss st) as [r|] eqn:Er; intros [= <-].
    + destruct (IH r eq_refl) as [(p & Hp & Hk & Hr) Hmax]. split.
      * destruct (Z.max_spec (p_received t) r) as [[_ ->]|[_ ->]]; [exists p|exists t]; set_solver.
      * intros q [->|Hq]%elem_of_cons Hqk; [lia|]. specialize (Hmax q Hq Hqk). lia.
    + split; [exists t; set_solver|]. intros q [->|Hq]%elem_of_cons Hqk; [lia|]. exfalso. clear -Er Hq Hqk.
      induction theirs as [|u theirs IH]; [set_solver|]. cbn in Er. destruct (names_stream iss st u) eqn:Eu; [done|].
      apply elem_of_cons in Hq as [->|Hq]; [|by apply IH]. apply names_stream_true in Hqk. congruence.
  - intros Hc. destruct (IH c Hc) as [(p & Hp & Hk & Hr) Hmax]. split; [exists p; set_solver|].
    intros q [->|Hq]%elem_of_cons Hqk; [|by apply Hmax]. apply names_stream_true in Hqk. congruence.
Qed.

(** ** The plan, in one expression *)

Definition range_of (iss : bytes) (st behind ahead max : Z) : option fzn_sync_request :=
  if ahead <=? behind then None else Some (mk_req iss st (behind + 1) (Z.min max (ahead - behind))).

(** The range worth fetching for a row of this host, and the one worth
    offering. *)
Definition wanted (look : list fzn_sync_position) (max : Z) (e : fzn_journal_entry) : option fzn_sync_request :=
  claim look (j_issuer e) (j_stream e) ≫= fun c => range_of (j_issuer e) (j_stream e) (j_received e) c max.
Definition offered (look : list fzn_sync_position) (max : Z) (e : fzn_journal_entry) : option fzn_sync_request :=
  claim look (j_issuer e) (j_stream e) ≫= fun c => range_of (j_issuer e) (j_stream e) c (j_received e) max.

Definition unmentioned (look : list fzn_sync_position) (e : fzn_journal_entry) : bool :=
  match claim look (j_issuer e) (j_stream e) with None => true | Some _ => false end.

Definition position_ok (p : fzn_sync_position) : Prop :=
  is_bytes FZN_PUBKEY_LEN (p_issuer p) /\ in_u32 (p_stream p) /\ in_u64 (p_received p).

Section Loops.
Context (look : list fzn_sync_position) (max cap : Z).
Hypothesis (Hlook : Forall position_ok look) (Hmax : 0 < max) (Hcap : 0 <= cap).

(** What a list of ranges leaves, written after [out]. *)
Definition written (out W : list fzn_sync_request) (plan : fzn_sync_plan) (unk : Z) : list fzn_sync_request * fzn_sync_plan :=
  (take (Z.to_nat cap) (out ++ W),
   mk_plan (Z.min cap (zlen out + zlen W)) (unknown_issuers plan + unk)
     (truncated plan + Z.max 0 (zlen out + zlen W - cap)) (positions_ignored plan)).

Definition fits (out : list fzn_sync_request) (plan : fzn_sync_plan) : Prop :=
  zlen out <= cap /\ request_count plan = zlen out.

Lemma add_range_spec iss st behind ahead out plan :
  fits out plan -> in_u64 behind -> in_u64 ahead ->
  exists out' plan', add_range iss st behind ahead max out cap plan = (out', plan') /\ fits out' plan' /\
    unknown_issuers plan' = unknown_issuers plan /\
    forall W unk, written out' W plan' unk
      = written out (match range_of iss st behind ahead max with Some q => q :: W | None => W end) plan unk.
Proof.
  intros [Hle Hrc] Hb Ha. unfold add_range, range_of. destruct (Z.leb_spec ahead behind); [by eexists _, _|].
  rewrite u64_small by ulia. destruct (Z.geb_spec (request_count plan) cap).
  - eexists _, _. split; [done|]. split; [done|]. split; [done|]. intros W unk. unfold written. cbn.
    assert (zlen out = cap) as E by lia. unfold zlen in *. cbn [length].
    rewrite !take_app_le by lia. f_equal. f_equal; lia.
  - eexists _, _. split; [done|]. split; [split; cbn; rewrite ?zlen_snoc; lia|]. split; [done|]. intros W unk.
    unfold written. cbn. rewrite zlen_snoc, <- app_assoc. cbn [app].
    assert ((if ahead - behind >? max then max else ahead - behind) = Z.min max (ahead - behind)) as ->
      by (destruct (Z.gtb_spec (ahead - behind) max); lia).
    f_equal. unfold zlen. cbn [length]. f_equal; lia.
Qed.

Lemma claim_range iss st c : claim look iss st = Some c -> in_u64 c.
Proof.
  intros [(p & Hp & _ & <-) _]%claim_Some. rewrite list.Forall_forall in Hlook. by apply Hlook in Hp as (_ & _ & ?).
Qed.

Lemma entry_received e : entry_ok e -> in_u64 (j_received e).
Proof. intros He. pose proof (eo_applied _ He). pose proof (eo_received _ He). ulia. Qed.

Lemma written_done out plan unk : fits out plan -> unk = 0 -> (out, plan) = written out [] plan unk.
Proof.
  intros [Hle Hrc] ->. unfold written. rewrite app_nil_r, zlen_nil. f_equal.
  - symmetry. apply take_ge. unfold zlen in Hle. lia.
  - destruct plan; cbn in *. f_equal; lia.
Qed.

Lemma fetch_loop_spec es : forall out plan, Forall entry_ok es -> fits out plan ->
  fetch_loop es look max cap out plan = written out (omap (wanted look max) es) plan 0.
Proof.
  induction es as [|e es IH]; intros out plan Hes Hf; cbn [fetch_loop omap list_omap]; [by apply written_done|].
  apply Forall_cons_iff in Hes as [He Hes]. unfold wanted at 1.
  pose proof (theirs_for_claim look (j_issuer e) (j_stream e)) as Hc.
  destruct (theirs_for look (j_issuer e) (j_stream e)) as [t|]; cbn in Hc; rewrite <- Hc; cbn; [|by apply IH].
  destruct (add_range_spec (j_issuer e) (j_stream e) (j_received e) (p_received t) out plan)
    as (out' & plan' & -> & Hf' & _ & Hw); auto using entry_received; [by eapply claim_range|].
  rewrite IH by done. rewrite Hw. by destruct (range_of _ _ _ _ _).
Qed.

Lemma offer_loop_spec es : forall out plan, Forall entry_ok es -> fits out plan ->
  offer_loop es look max cap out plan = written out (omap (offered look max) es) plan (count (unmentioned look) es).
Proof.
  induction es as [|e es IH]; intros out plan Hes Hf; cbn [offer_loop omap list_omap count]; [by apply written_done|].
  apply Forall_cons_iff in Hes as [He Hes]. unfold offered at 1, unmentioned at 1.
  pose proof (theirs_for_claim look (j_issuer e) (j_stream e)) as Hc.
  destruct (theirs_for look (j_issuer e) (j_stream e)) as [t|]; cbn in Hc; rewrite <- Hc; cbn.
  - destruct (add_range_spec (j_issuer e) (j_stream e) (p_received t) (j_received e) out plan)
      as (out' & plan' & -> & Hf' & _ & Hw); auto using entry_received; [by eapply claim_range|].
    rewrite IH by done. rewrite Hw. destruct (range_of _ _ _ _ _); unfold written; cbn; f_equal; f_equal; lia.
  - rewrite IH; [|done|by destruct Hf]. unfold written. cbn. f_equal. f_equal; lia.
Qed.
End Loops.

Definition stranger (j : fzn_journal) (t : fzn_sync_position) : bool := negb (follows j (p_issuer t) (p_stream t)).

Lemma strangers_spec j look : forall plan,
  strangers_loop j look plan
  = mk_plan (request_count plan) (unknown_issuers plan + count (stranger j) look) (truncated plan) (positions_ignored plan).
Proof.
  induction look as [|t look IH]; intros plan; cbn [strangers_loop count]; [by destruct plan; cbn; rewrite Z.add_0_r|].
  rewrite IH. unfold stranger at 2. destruct (follows j _ _); cbn; f_equal; lia.
Qed.

Definition examined (theirs : list fzn_sync_position) : list fzn_sync_position := take 1024 theirs.

Lemma examined_spec theirs :
  to_examine (zlen theirs) clear_plan
  = (Z.min 1024 (zlen theirs), mk_plan 0 0 0 (Z.max 0 (zlen theirs - 1024))) /\
  take (Z.to_nat (Z.min 1024 (zlen theirs))) theirs = examined theirs.
Proof.
  unfold to_examine, FZN_SYNC_MAX_POSITIONS, examined, clear_plan. cbn. pose proof (zlen_nonneg theirs).
  destruct (Z.leb_spec (zlen theirs) 1024).
  - split; [f_equal; [lia|f_equal; lia]|]. rewrite !take_ge; [done| |]; unfold zlen in *; lia.
  - split; [f_equal; [lia|f_equal; lia]|]. f_equal. lia.
Qed.

Lemma args_of j max : journal_ok j -> 0 < max -> args_ok j max = true.
Proof.
  intros Hj Hm. destruct (jo_entries _ Hj) as [es E]. unfold args_ok. rewrite E. pose proof (jo_used _ Hj).
  apply andb_true_iff. split; [by apply negb_true_iff, Z.eqb_neq; lia|]. apply Z.leb_le. lia.
Qed.

Lemma count_perm {A} (f : A -> bool) l1 l2 : l1 ≡ₚ l2 -> count f l1 = count f l2.
Proof. induction 1; cbn; lia. Qed.

#[export] Instance count_proper {A} : Proper (eq ==> (≡ₚ) ==> eq) (@count A).
Proof. intros f ? <- l1 l2 Hl. by apply count_perm. Qed.

Section Plans.
Context (j : fzn_journal) (theirs : list fzn_sync_position) (max cap : Z).
Hypothesis (Hj : journal_ok j) (Ht : Forall position_ok theirs) (Hmax : 0 < max) (Hcap : 0 <= cap).

Definition fetch_list : list fzn_sync_request := omap (wanted (examined theirs) max) (jrows j).
Definition offer_list : list fzn_sync_request := omap (offered (examined theirs) max) (jrows j).

Lemma plan_fetch_spec :
  fzn_sync_plan_fetch j theirs max cap
  = (FZN_SYNC_OK, take (Z.to_nat cap) fetch_list,
     mk_plan (Z.min cap (zlen fetch_list)) (count (stranger j) (examined theirs))
       (Z.max 0 (zlen fetch_list - cap)) (Z.max 0 (zlen theirs - 1024))).
Proof.
  unfold fzn_sync_plan_fetch. rewrite args_of by done. cbn [negb]. destruct (examined_spec theirs) as [-> ->].
  rewrite strangers_spec, fetch_loop_spec by (first [done | by apply Forall_take | apply Hj | split; cbn; done]).
  unfold written. cbn. rewrite zlen_nil, !Z.add_0_l, Z.add_0_r. done.
Qed.

Lemma plan_offer_spec :
  fzn_sync_plan_offer j theirs max cap
  = (FZN_SYNC_OK, take (Z.to_nat cap) offer_list,
     mk_plan (Z.min cap (zlen offer_list)) (count (unmentioned (examined theirs)) (jrows j))
       (Z.max 0 (zlen offer_list - cap)) (Z.max 0 (zlen theirs - 1024))).
Proof.
  unfold fzn_sync_plan_offer. rewrite args_of by done. cbn [negb]. destruct (examined_spec theirs) as [-> ->].
  rewrite offer_loop_spec by (first [done | by apply Forall_take | apply Hj | split; cbn; done]).
  unfold written. cbn. by rewrite zlen_nil, !Z.add_0_l.
Qed.

Definition qkey (q : fzn_sync_request) : bytes * Z := (q_issuer q, q_stream q).

Lemma wanted_Some e q : wanted (examined theirs) max e = Some q ->
  exists c, claim (examined theirs) (j_issuer e) (j_stream e) = Some c /\ j_received e < c /\
    q = mk_req (j_issuer e) (j_stream e) (j_received e + 1) (Z.min max (c - j_received e)).
Proof.
  unfold wanted, range_of. destruct (claim _ _ _) as [c|]; cbn; [|done].
  destruct (Z.leb_spec c (j_received e)); [done|]. intros [= <-]. eauto.
Qed.

Lemma fetch_in_order es : qkey <$> omap (wanted (examined theirs) max) es `sublist_of` key_of <$> es.
Proof.
  induction es as [|e es IH]; cbn; [constructor|]. destruct (wanted (examined theirs) max e) as [q|] eqn:E; cbn.
  - apply wanted_Some in E as (c & _ & _ & ->). by constructor.
  - by constructor.
Qed.

Lemma fetch_list_len : zlen fetch_list <= j_used j.
Proof.
  pose proof (sublist_length _ _ (fetch_in_order (jrows j))) as H. rewrite !length_fmap in H.
  unfold fetch_list, zlen. unfold jrows in H at 2. rewrite length_take in H. pose proof (jo_used _ Hj). lia.
Qed.
End Plans.

(** A plan cannot be aimed by the peer it is made from. Whatever positions
    a peer sends, of whatever length and order and however often it repeats
    itself, what this host asks for is at most one range a stream it already
    follows, in the order of its own journal, each from the record after the
    last it received, no longer than the bound and no further than the peer's
    largest claim; room for one range a row is enough for every plan, what
    does not fit is counted and the positions past the ceiling are counted;
    and another order of the same positions makes the same plan. *)
Theorem plan_is_not_the_peers_to_aim j theirs theirs' max cap :
  journal_ok j -> Forall position_ok theirs -> 0 < max -> 0 <= cap ->
  exists out plan,
    fzn_sync_plan_fetch j theirs max cap = (FZN_SYNC_OK, out, plan) /\
    request_count plan = zlen out /\ zlen out <= cap /\
    qkey <$> out `sublist_of` key_of <$> jrows j /\
    (forall q, q ∈ out -> exists e c, positions j !! qkey q = Some e /\ q_from q = j_received e + 1 /\
       0 < q_count q <= max /\ q_from q + q_count q - 1 <= c /\
       exists p, p ∈ examined theirs /\ pkey p = qkey q /\ p_received p = c) /\
    (j_used j <= cap -> truncated plan = 0) /\
    positions_ignored plan = Z.max 0 (zlen theirs - FZN_SYNC_MAX_POSITIONS) /\
    (theirs' ≡ₚ theirs -> zlen theirs <= FZN_SYNC_MAX_POSITIONS ->
       fzn_sync_plan_fetch j theirs' max cap = (FZN_SYNC_OK, out, plan)).
Proof.
  intros Hj Ht Hmax Hcap. rewrite (plan_fetch_spec j theirs max cap) by done. eexists _, _. split; [reflexivity|]. cbn.
  pose proof (fetch_list_len j theirs max Hj) as Hlen. unfold FZN_SYNC_MAX_POSITIONS. split_and!; try done; try lia.
  - unfold zlen. rewrite length_take. lia.
  - unfold zlen. rewrite length_take. lia.
  - etrans; [|apply fetch_in_order]. rewrite fmap_take. apply sublist_take.
  - intros q Hq. apply elem_of_take in Hq as (n & Hn & _). apply list_elem_of_lookup_2, list_elem_of_omap in Hn as (e & He & Hw).
    apply wanted_Some in Hw as (c & Hc & Hlt & ->). exists e, c. cbn. split.
    { apply positions_lookup; [done|]. by split. }
    apply claim_Some in Hc as [(p & Hp & Hk & Hr) _]. split_and!; eauto; lia.
  - intros Hp Hle. assert (zlen theirs' = zlen theirs) as Hl by (unfold zlen; by rewrite Hp).
    assert (examined theirs' ≡ₚ examined theirs) as He
      by (unfold examined; rewrite !take_ge; [done| |]; unfold zlen in *; lia).
    rewrite (plan_fetch_spec j theirs' max cap) by (first [done|by rewrite Hp]).
    assert (fetch_list j theirs' max = fetch_list j theirs max) as ->.
    { unfold fetch_list. apply list_omap_ext, Forall_Forall2_diag, Forall_true. intros e. unfold wanted. by rewrite He. }
    rewrite Hl. by rewrite He.
Qed.

(** ** Two journals *)

Definition pos_of (e : fzn_journal_entry) : fzn_sync_position := mk_pos (j_issuer e) (j_stream e) (j_received e).

Lemma digest_loop_spec es cap : 0 <= cap -> forall out dropped, zlen out <= cap ->
  digest_loop es cap out dropped
  = (take (Z.to_nat cap) (out ++ (pos_of <$> es)), dropped + Z.max 0 (zlen out + zlen es - cap)).
Proof.
  intros Hcap. induction es as [|e es IH]; intros out dropped Hle; cbn [digest_loop fmap list_fmap].
  - rewrite app_nil_r, take_ge by (unfold zlen in Hle; lia). f_equal. unfold zlen at 2. cbn [length]. lia.
  - destruct (Z.geb_spec (zlen out) cap).
    + rewrite IH by done. rewrite (take_app_le out) by (unfold zlen in *; lia).
      rewrite (take_app_le out (pos_of e :: _)) by (unfold zlen in *; lia). f_equal. unfold zlen in *. cbn [length]. lia.
    + rewrite IH by (rewrite zlen_snoc; lia). rewrite <- app_assoc. cbn [app]. f_equal. rewrite zlen_snoc.
      unfold zlen in *. cbn [length]. lia.
Qed.

Lemma zlen_jrows j : journal_ok j -> zlen (jrows j) = j_used j.
Proof.
  intros Hj. pose proof (jo_used _ Hj) as Hu. unfold j_capacity, zlen in Hu. unfold zlen, jrows. rewrite length_take. lia.
Qed.

Lemma digest_spec j cap : journal_ok j -> 0 <= cap ->
  fzn_sync_digest j cap = (take (Z.to_nat cap) (pos_of <$> jrows j), Z.max 0 (j_used j - cap)).
Proof.
  intros Hj Hcap. unfold fzn_sync_digest. rewrite (jok_usable j Hj). cbn [negb].
  rewrite digest_loop_spec by exact Hcap. by rewrite zlen_jrows.
Qed.

Lemma digest_positions_ok j : journal_ok j -> Forall position_ok (pos_of <$> jrows j).
Proof.
  intros Hj. apply Forall_fmap. eapply Forall_impl; [|apply (jo_rows _ Hj)]. intros e He.
  split_and!; [apply He|apply He|by apply entry_received].
Qed.

(** What a digest claims of a stream is what its journal holds. *)
Lemma claim_digest j iss st : journal_ok j ->
  claim (pos_of <$> jrows j) iss st = j_received <$> positions j !! (iss, st).
Proof.
  intros Hj. destruct (claim (pos_of <$> jrows j) iss st) as [c|] eqn:Ec.
  - apply claim_Some in Ec as [(p & Hp & Hk & <-) _]. apply list_elem_of_fmap in Hp as (e & -> & He).
    assert (positions j !! (iss, st) = Some e) as -> by (apply positions_lookup; [done|]; by split). done.
  - destruct (positions j !! (iss, st)) as [e|] eqn:El; [|done]. exfalso.
    apply positions_lookup in El as [Hk He]; [|done].
    assert (pos_of e ∈ pos_of <$> jrows j) as Hin by (by apply list_elem_of_fmap_2).
    revert Hin Ec. generalize (pos_of <$> jrows j). intros l. assert (pkey (pos_of e) = (iss, st)) as Hpk by done.
    induction l as [|x l IH]; [set_solver|]. cbn. intros [<-|Hin]%elem_of_cons.
    + apply names_stream_true in Hpk. by rewrite Hpk.
    + destruct (names_stream iss st x); [done|]. by apply IH.
Qed.

Section Pair.
Context (a b : fzn_journal) (max : Z).
Hypothesis (Ha : journal_ok a) (Hb : journal_ok b) (Hmax : 0 < max).
Hypothesis (Hua : j_used a <= FZN_SYNC_MAX_POSITIONS) (Hub : j_used b <= FZN_SYNC_MAX_POSITIONS).

(** A range of the records of [b] that [a] follows and lacks. *)
Definition lacks (q : fzn_sync_request) : Prop :=
  exists ea eb, positions a !! qkey q = Some ea /\ positions b !! qkey q = Some eb /\ j_received ea < j_received eb /\
    q = mk_req (q_issuer q) (q_stream q) (j_received ea + 1) (Z.min max (j_received eb - j_received ea)).

Lemma digest_examined j : journal_ok j -> j_used j <= FZN_SYNC_MAX_POSITIONS ->
  fzn_sync_digest j FZN_SYNC_MAX_POSITIONS = (pos_of <$> jrows j, 0) /\
  examined (pos_of <$> jrows j) = pos_of <$> jrows j /\ zlen (pos_of <$> jrows j) <= 1024.
Proof.
  intros Hj Hu. unfold FZN_SYNC_MAX_POSITIONS, examined in *. rewrite digest_spec by done.
  pose proof (zlen_jrows j Hj) as Hl. unfold zlen in *. rewrite length_fmap, !take_ge by (rewrite length_fmap; lia).
  split_and!; [f_equal; lia|done|lia].
Qed.

Lemma fetch_elems q : q ∈ fetch_list a (pos_of <$> jrows b) max <-> lacks q.
Proof.
  unfold fetch_list, lacks. destruct (digest_examined b Hb Hub) as (_ & -> & _). rewrite list_elem_of_omap. split.
  - intros (e & He & Hw). unfold wanted in Hw. rewrite claim_digest in Hw by done.
    destruct (positions b !! (j_issuer e, j_stream e)) as [eb|] eqn:Eb; cbn in Hw; [|done].
    unfold range_of in Hw. destruct (Z.leb_spec (j_received eb) (j_received e)); [done|]. simplify_eq/=.
    exists e, eb. split_and!; auto. apply positions_lookup; [done|]. by split.
  - destruct q as [qi qs qf qc]. unfold qkey. cbn. intros (ea & eb & Hea & Heb & Hlt & [= -> ->]).
    apply positions_lookup in Hea as [[= <- <-] Hin]; [|done].
    exists ea. split; [done|]. unfold wanted. rewrite claim_digest, Heb by done. cbn. unfold range_of.
    destruct (Z.leb_spec (j_received eb) (j_received ea)); [lia|done].
Qed.

Lemma offer_elems q : q ∈ offer_list b (pos_of <$> jrows a) max <-> lacks q.
Proof.
  unfold offer_list, lacks. destruct (digest_examined a Ha Hua) as (_ & -> & _). rewrite list_elem_of_omap. split.
  - intros (e & He & Hw). unfold offered in Hw. rewrite claim_digest in Hw by done.
    destruct (positions a !! (j_issuer e, j_stream e)) as [ea|] eqn:Ea; cbn in Hw; [|done].
    unfold range_of in Hw. destruct (Z.leb_spec (j_received e) (j_received ea)); [done|]. simplify_eq/=.
    exists ea, e. split_and!; auto. apply positions_lookup; [done|]. by split.
  - destruct q as [qi qs qf qc]. unfold qkey. cbn. intros (ea & eb & Hea & Heb & Hlt & [= -> ->]).
    apply positions_lookup in Heb as [[= <- <-] Hin]; [|done].
    exists eb. split; [done|]. unfold offered. rewrite claim_digest, Hea by done. cbn. unfold range_of.
    destruct (Z.leb_spec (j_received eb) (j_received ea)); [lia|done].
Qed.
End Pair.

(** Ranges of distinct streams, whichever journal's order they are in. *)
Lemma fetch_nodup j l max : journal_ok j -> NoDup (qkey <$> fetch_list j l max).
Proof. intros Hj. eapply sublist_NoDup; [apply (jo_keys _ Hj)|apply fetch_in_order]. Qed.

Lemma offer_nodup j l max : journal_ok j -> NoDup (qkey <$> offer_list j l max).
Proof.
  intros Hj. eapply sublist_NoDup; [apply (jo_keys _ Hj)|]. unfold offer_list.
  induction (jrows j) as [|e es IH]; cbn; [constructor|]. unfold offered at 1, range_of.
  destruct (claim _ _ _); cbn; [|by constructor]. by destruct (_ <=? _); constructor.
Qed.

Lemma strangers_are_unmentioned a b : journal_ok a ->
  count (stranger a) (pos_of <$> jrows b) = count (unmentioned (pos_of <$> jrows a)) (jrows b).
Proof.
  intros Ha. rewrite count_fmap. apply count_ext. intros i e _. unfold stranger, unmentioned, follows. cbn.
  rewrite claim_digest by done. destruct (positions a !! (j_issuer e, j_stream e)) as [x|] eqn:Ex; cbn.
  - apply positions_lookup in Ex as [Hk Hin]; [|done]. apply negb_false_iff, existsb_lookup.
    apply list_elem_of_lookup in Hin as [n Hn]. exists n, x. split; [done|]. by apply holds_stream_true.
  - apply negb_true_iff, not_true_is_false. intros (n & x & Hn & Hx)%existsb_lookup. apply holds_stream_true in Hx.
    assert (positions a !! (j_issuer e, j_stream e) = Some x); [|congruence].
    apply positions_lookup; [done|]. split; [done|]. by eapply list_elem_of_lookup_2.
Qed.

(** One exchange of digests finds exactly the difference, whichever side
    plans. From the digest of the other, a host asks for precisely the ranges
    of the streams it follows that the other has received and it has not, one
    a stream, up to the bound a request carries; the other, from the digest of
    the first, offers the very same ranges; nothing is truncated or ignored,
    and both count the streams one side follows and the other does not. *)
Theorem sync_finds_the_difference a b max :
  journal_ok a -> journal_ok b -> 0 < max ->
  j_used a <= FZN_SYNC_MAX_POSITIONS -> j_used b <= FZN_SYNC_MAX_POSITIONS ->
  exists fetch offer strangers,
    fzn_sync_plan_fetch a (fst (fzn_sync_digest b FZN_SYNC_MAX_POSITIONS)) max FZN_SYNC_MAX_POSITIONS
    = (FZN_SYNC_OK, fetch, mk_plan (zlen fetch) strangers 0 0) /\
    fzn_sync_plan_offer b (fst (fzn_sync_digest a FZN_SYNC_MAX_POSITIONS)) max FZN_SYNC_MAX_POSITIONS
    = (FZN_SYNC_OK, offer, mk_plan (zlen offer) strangers 0 0) /\
    NoDup (qkey <$> fetch) /\ offer ≡ₚ fetch /\
    (forall q, q ∈ fetch <-> lacks a b max q).
Proof.
  intros Ha Hb Hmax Hua Hub. destruct (digest_examined a Ha Hua) as (-> & Ea & La), (digest_examined b Hb Hub) as (-> & Eb & Lb).
  cbn [fst]. unfold FZN_SYNC_MAX_POSITIONS in *.
  rewrite plan_fetch_spec, plan_offer_spec by (first [done|by apply digest_positions_ok]). rewrite Ea, Eb.
  pose proof (fetch_nodup a (pos_of <$> jrows b) max Ha) as Hnf. pose proof (offer_nodup b (pos_of <$> jrows a) max Hb) as Hno.
  assert (offer_list b (pos_of <$> jrows a) max ≡ₚ fetch_list a (pos_of <$> jrows b) max) as Hperm.
  { apply NoDup_Permutation; [by eapply NoDup_fmap_1|by eapply NoDup_fmap_1|]. intros q.
    by rewrite offer_elems, fetch_elems. }
  pose proof (fetch_list_len a (pos_of <$> jrows b) max Ha) as Hl.
  assert (zlen (offer_list b (pos_of <$> jrows a) max) = zlen (fetch_list a (pos_of <$> jrows b) max)) as Hlo
    by (unfold zlen; by rewrite Hperm).
  rewrite !take_ge by (unfold zlen in *; lia). rewrite strangers_are_unmentioned by done.
  eexists _, _, _. split; [f_equal; f_equal; lia|]. split; [f_equal; f_equal; lia|]. split_and!; [done|done|].
  intros q. by apply fetch_elems.
Qed.

(** ** Witnesses *)

Definition demo_ahead : fzn_journal :=
  run_ops demo_journal [OpAnchor (demo_key 3) 2 5; OpAnchor (demo_key 1) 7 0; OpAnchor (demo_key 1) 7 12].

Definition demo_behind : fzn_journal := run_ops demo_journal [OpAnchor (demo_key 1) 7 0; OpAnchor (demo_key 4) 7 0].

Lemma demo_journal_ok : journal_ok demo_journal.
Proof. by destruct (journal_init_ok (mk_journal None 0) (replicate 3 zero_jentry)) as (j' & [= <-] & ? & _). Qed.

Lemma demo_pair_ok : journal_ok demo_behind /\ journal_ok demo_ahead.
Proof.
  split; (apply journal_run_ok; [apply demo_journal_ok|]);
    repeat (apply Forall_cons_2; [cbn [op_ok]; split_and!; first [apply demo_key_is; ulia | ulia]|]); by apply Forall_nil_2.
Qed.

Lemma plan_is_not_the_peers_to_aim_witness :
  exists out plan,
    fzn_sync_plan_fetch demo_behind (replicate 5 (mk_pos (demo_key 1) 7 9)) 4 2 = (FZN_SYNC_OK, out, plan) /\
    zlen out <= 2 /\ out = [mk_req (demo_key 1) 7 1 4] /\ truncated plan = 0.
Proof.
  destruct (plan_is_not_the_peers_to_aim demo_behind (replicate 5 (mk_pos (demo_key 1) 7 9)) [] 4 2)
    as (out & plan & H & _ & Hl & _ & _ & Ht & _).
  - apply demo_pair_ok.
  - apply Forall_replicate. split_and!; [apply demo_key_is; ulia|cbn; ulia|cbn; ulia].
  - lia.
  - lia.
  - exists out, plan. split; [exact H|]. split; [exact Hl|]. split; [|apply Ht; vm_compute; discriminate].
    vm_compute in H. by inversion H.
Defined.

Lemma sync_finds_the_difference_witness :
  exists fetch offer strangers,
    fzn_sync_plan_fetch demo_behind (fst (fzn_sync_digest demo_ahead 1024)) 4 1024
    = (FZN_SYNC_OK, fetch, mk_plan (zlen fetch) strangers 0 0) /\
    fzn_sync_plan_offer demo_ahead (fst (fzn_sync_digest demo_behind 1024)) 4 1024
    = (FZN_SYNC_OK, offer, mk_plan (zlen offer) strangers 0 0) /\ offer ≡ₚ fetch /\
    fetch = [mk_req (demo_key 1) 7 1 4].
Proof.
  destruct (sync_finds_the_difference demo_behind demo_ahead 4) as (fetch & offer & n & Hf & Ho & _ & Hp & _).
  - apply demo_pair_ok.
  - apply demo_pair_ok.
  - lia.
  - vm_compute. discriminate.
  - vm_compute. discriminate.
  - exists fetch, offer, n. split; [exact Hf|]. split; [exact Ho|]. split; [exact Hp|]. vm_compute in Hf. by inversion Hf.
Defined.
