(* ===== verification/RecordStore.v ===== *)
(** * record/store.c: records by address, over a backend that is not trusted

    The backend is the consumer's: a state and operations on it. A record is
    filed under the address it carries and what comes back is checked against
    the address asked for. Stores, backends and keys are given; NULL ones are
    refused before anything is read. *)

From stdpp Require Import gmap fin_maps.
From S2P Require Import Prelude Bytes Hop Revocation Chain Records.

Inductive fzn_record_store_err :=
| FZN_RECORD_STORE_OK | FZN_RECORD_STORE_ERR_MALFORMED | FZN_RECORD_STORE_ERR_ABSENT
| FZN_RECORD_STORE_ERR_BACKEND | FZN_RECORD_STORE_ERR_SHAPE | FZN_RECORD_STORE_ERR_MISPLACED.

#[export] Instance fzn_record_store_err_eq_dec : EqDecision fzn_record_store_err.
Proof. solve_decision. Defined.

(** The operations over a backend whose state is a [C]. [rs_get] answers what
    it wrote to the buffer, or [None] for a zero result, and [*found_out]. A
    backend may have no [cut]. *)
Record fzn_record_store_ops (C : Type) := mk_rstore {
  rs_put : C -> bytes -> Z -> Z -> bytes -> bool * C;
  rs_get : C -> bytes -> Z -> Z -> Z -> option bytes * bool;
  rs_cut : option (C -> bytes -> Z -> Z -> Z -> bool * C)
}.
Arguments rs_put {C} _ _ _ _ _ _.
Arguments rs_get {C} _ _ _ _ _ _.
Arguments rs_cut {C} _.

Section Store.
Context {C : Type} (ops : fzn_record_store_ops C).

Definition fzn_record_store_put (c : C) (record : option bytes) : fzn_record_store_err * C :=
  match record with
  | None => (FZN_RECORD_STORE_ERR_MALFORMED, c)
  | Some r =>
    if negb (fzn_record_is_open (Some r)) then (FZN_RECORD_STORE_ERR_MALFORMED, c)
    else match rs_put ops c (fzn_record_issuer r) (fzn_record_stream r) (fzn_record_seq r) r with
    | (false, c) => (FZN_RECORD_STORE_ERR_BACKEND, c)
    | (true, c) => (FZN_RECORD_STORE_OK, c)
    end
  end.

Definition fzn_record_store_cut (c : C) (issuer : bytes) (stream from below : Z) : fzn_record_store_err * C :=
  match rs_cut ops with
  | None => (FZN_RECORD_STORE_ERR_MALFORMED, c)
  | Some cut =>
    if (from =? 0) || (below <=? from) then (FZN_RECORD_STORE_ERR_MALFORMED, c)
    else match cut c issuer stream from below with
    | (false, c) => (FZN_RECORD_STORE_ERR_BACKEND, c)
    | (true, c) => (FZN_RECORD_STORE_OK, c)
    end
  end.

(** [cap] is the room in the caller's buffer; the view is of what it holds. *)
Definition fzn_record_store_get (c : C) (issuer : bytes) (stream seq cap : Z)
    : fzn_record_store_err * option bytes :=
  if seq =? 0 then (FZN_RECORD_STORE_ERR_MALFORMED, None)
  else match rs_get ops c issuer stream seq cap with
  | (None, found) => (if found then FZN_RECORD_STORE_ERR_BACKEND else FZN_RECORD_STORE_ERR_ABSENT, None)
  | (Some b, _) =>
    match fzn_record_open (Some b) with
    | (FZN_RECORD_OK, Some record) =>
      if negb (memeq (fzn_record_issuer record) issuer) || negb (fzn_record_stream record =? stream)
         || negb (fzn_record_seq record =? seq)
      then (FZN_RECORD_STORE_ERR_MISPLACED, None)
      else (FZN_RECORD_STORE_OK, Some record)
    | _ => (FZN_RECORD_STORE_ERR_SHAPE, None)
    end
  end.

(** The walk of [fzn_record_store_stands] from [seq] down, [n] records to go
    at most: [seq - act_seq] of them are left. *)
Fixpoint stands_loop (hash : fzn_hash_ops) (c : C) (issuer : bytes) (stream : Z) (n : nat) (seq : Z) (want : bytes)
    (act_seq : Z) (act_id : bytes) : bool :=
  match n with
  | O => false
  | S n =>
    match fzn_record_store_get c issuer stream seq FZN_RECORD_MAX_LEN with
    | (FZN_RECORD_STORE_OK, Some rec) =>
      match hash FZN_RECORD_ID_LEN rec with
      | None => false
      | Some got =>
        if negb (memeq got want) then false
        else if seq =? act_seq then memeq got act_id
        else stands_loop hash c issuer stream n (seq - 1) (fzn_record_prev rec) act_seq act_id
      end
    | _ => false
    end
  end.

Definition fzn_record_store_stands (hash : option fzn_hash_ops) (c : C) (issuer : bytes) (stream cut_seq : Z)
    (cut_id : bytes) (act_seq : Z) (act_id : bytes) : bool :=
  match hash with
  | None => false
  | Some hash =>
    if (act_seq =? 0) || (act_seq >? cut_seq) then false
    else stands_loop hash c issuer stream (Z.to_nat (cut_seq - act_seq + 1)) cut_seq cut_id act_seq act_id
  end.

(** ** What comes back is what was asked for *)

(** A record at an address: it opens, and it names the address. *)
Definition placed (issuer : bytes) (stream seq : Z) (r : bytes) : Prop :=
  fzn_record_is_open (Some r) = true /\ fzn_record_issuer r = issuer /\ fzn_record_stream r = stream /\
  fzn_record_seq r = seq.

Lemma store_get_placed c issuer stream seq cap r :
  fzn_record_store_get c issuer stream seq cap = (FZN_RECORD_STORE_OK, Some r) ->
  seq <> 0 /\ placed issuer stream seq r /\ fst (rs_get ops c issuer stream seq cap) = Some r.
Proof.
  unfold fzn_record_store_get. destruct (Z.eqb_spec seq 0); [done|].
  destruct (rs_get ops c issuer stream seq cap) as [[b|] found]; [|by destruct found].
  destruct (open_cases b) as [E|(e & He & E)]; rewrite E; [|by destruct e].
  destruct (_ || _) eqn:Hb; [done|]. intros [= <-]. apply orb_false_iff in Hb as [Hb H3]. apply orb_false_iff in Hb as [H1 H2].
  apply negb_false_iff in H1, H2, H3. apply memeq_true in H1. apply Z.eqb_eq in H2, H3.
  split; [done|]. split; [|done]. split_and!; try done. by apply open_is_open.
Qed.

Lemma store_get_some c issuer stream seq cap r :
  seq <> 0 -> placed issuer stream seq r -> fst (rs_get ops c issuer stream seq cap) = Some r ->
  fzn_record_store_get c issuer stream seq cap = (FZN_RECORD_STORE_OK, Some r).
Proof.
  intros Hz (Ho & <- & <- & <-) Hg. unfold fzn_record_store_get. destruct (Z.eqb_spec (fzn_record_seq r) 0); [done|].
  destruct (rs_get _ _ _ _ _ _) as [b found]. cbn in Hg. subst b. apply open_is_open in Ho as ->.
  by rewrite memeq_refl, !Z.eqb_refl.
Qed.

(** A line of records of one stream, newest first: each hashes to the id the
    one above it names. *)
Fixpoint line (hash : fzn_hash_ops) (issuer : bytes) (stream seq : Z) (want : bytes) (rs : list bytes) : Prop :=
  match rs with
  | [] => True
  | r :: rs => placed issuer stream seq r /\ hash FZN_RECORD_ID_LEN r = Some want /\
               line hash issuer stream (seq - 1) (fzn_record_prev r) rs
  end.

Lemma stands_loop_spec hash c issuer stream act_seq act_id n : forall seq want,
  act_seq <= seq -> Z.of_nat n = seq - act_seq + 1 -> 0 < act_seq ->
  stands_loop hash c issuer stream n seq want act_seq act_id = true <->
  exists rs, length rs = n /\ line hash issuer stream seq want rs /\
    (forall i r, rs !! i = Some r ->
       fst (rs_get ops c issuer stream (seq - Z.of_nat i) FZN_RECORD_MAX_LEN) = Some r) /\
    exists r, rs !! Nat.pred n = Some r /\ hash FZN_RECORD_ID_LEN r = Some act_id.
Proof.
  induction n as [|n IH]; intros seq want Hle Hn Hpos; [lia|]. cbn [stands_loop]. split.
  - destruct (fzn_record_store_get c issuer stream seq FZN_RECORD_MAX_LEN) as [e o] eqn:Eg.
    destruct e; try done. destruct o as [rec|]; [|done]. apply store_get_placed in Eg as (_ & Hp & Hg).
    destruct (hash FZN_RECORD_ID_LEN rec) as [got|] eqn:Eh; [|done].
    destruct (memeq got want) eqn:Em; cbn [negb]; [|done]. apply memeq_true in Em. subst got.
    destruct (Z.eqb_spec seq act_seq) as [->|Hne].
    + intros Ha%memeq_true. subst act_id. assert (n = 0)%nat as -> by lia. exists [rec]. split; [done|]. split; [done|]. split; [|by exists rec].
      intros [|[]] r Hr; [|done..]. cbn in Hr. simplify_eq. by rewrite Z.sub_0_r.
    + intros Hs. apply IH in Hs as (rs & Hl & Hline & Hget & r & Hlast & Hid); [|lia..].
      exists (rec :: rs). split; [cbn; lia|]. split; [done|]. split.
      * intros [|i] r' Hr; cbn in Hr; [simplify_eq; by rewrite Z.sub_0_r|]. rewrite <- (Hget i r' Hr).
        by replace (seq - Z.of_nat (S i)) with (seq - 1 - Z.of_nat i) by lia.
      * exists r. split; [|done]. destruct n; [lia|]. done.
  - intros (rs & Hl & Hline & Hget & r & Hlast & Hid). destruct rs as [|rec rs]; [done|]. cbn in Hl.
    destruct Hline as (Hp & Eh & Hline). pose proof (Hget 0%nat rec eq_refl) as Hg. rewrite Z.sub_0_r in Hg.
    rewrite (store_get_some c issuer stream seq _ rec) by (done || lia). rewrite Eh, memeq_refl. cbn [negb].
    destruct (Z.eqb_spec seq act_seq) as [->|Hne].
    + assert (n = 0)%nat as -> by lia. cbn in Hlast. simplify_eq. by apply memeq_true.
    + apply IH; [lia..|]. exists rs. split; [lia|]. split; [done|]. split.
      * intros i r' Hr. rewrite <- (Hget (S i) r' Hr).
        by replace (seq - 1 - Z.of_nat i) with (seq - Z.of_nat (S i)) by lia.
      * exists r. split; [|done]. destruct n; [lia|]. done.
Qed.
End Store.

(** Two lines below one id are the same records, unless the hash collides. *)
Lemma line_unique hash issuer stream rs1 : forall rs2 seq want,
  (forall x y d, hash FZN_RECORD_ID_LEN x = Some d -> hash FZN_RECORD_ID_LEN y = Some d -> x = y) ->
  length rs1 = length rs2 -> line hash issuer stream seq want rs1 -> line hash issuer stream seq want rs2 -> rs1 = rs2.
Proof.
  induction rs1 as [|r1 rs1 IH]; intros [|r2 rs2] seq want Hinj Hl H1 H2; try done. cbn in Hl, H1, H2.
  destruct H1 as (_ & E1 & H1), H2 as (_ & E2 & H2). assert (r1 = r2) as <- by eauto. f_equal. eapply IH; eauto.
Qed.

(** An act stands under a cut exactly when the records say so, and no store
    can make it otherwise. The walk answers yes precisely when the store hands
    over, from the cut down to the act, records of that stream each of which
    hashes to the id named above it, starting from the id the cut names, the
    last hashing to the act's id; and, where the hash does not collide, no two
    stores, honest or not, over any backends, can vouch for two different acts
    at one sequence under the same cut. *)
Theorem stands_does_not_trust_the_store {C1 C2 : Type} (ops1 : fzn_record_store_ops C1) (ops2 : fzn_record_store_ops C2)
    hash c1 c2 issuer stream cut_seq cut_id act_seq id1 id2 :
  0 < act_seq <= cut_seq ->
  (fzn_record_store_stands ops1 (Some hash) c1 issuer stream cut_seq cut_id act_seq id1 = true <->
   exists rs, zlen rs = cut_seq - act_seq + 1 /\ line hash issuer stream cut_seq cut_id rs /\
     (forall i r, rs !! i = Some r ->
        fst (rs_get ops1 c1 issuer stream (cut_seq - Z.of_nat i) FZN_RECORD_MAX_LEN) = Some r) /\
     exists r, rs !! Z.to_nat (cut_seq - act_seq) = Some r /\ hash FZN_RECORD_ID_LEN r = Some id1) /\
  ((forall x y d, hash FZN_RECORD_ID_LEN x = Some d -> hash FZN_RECORD_ID_LEN y = Some d -> x = y) ->
   fzn_record_store_stands ops1 (Some hash) c1 issuer stream cut_seq cut_id act_seq id1 = true ->
   fzn_record_store_stands ops2 (Some hash) c2 issuer stream cut_seq cut_id act_seq id2 = true -> id1 = id2).
Proof.
  intros Hr.
  assert (forall (C : Type) (ops : fzn_record_store_ops C) c id,
    fzn_record_store_stands ops (Some hash) c issuer stream cut_seq cut_id act_seq id = true <->
    exists rs, zlen rs = cut_seq - act_seq + 1 /\ line hash issuer stream cut_seq cut_id rs /\
     (forall i r, rs !! i = Some r ->
        fst (rs_get ops c issuer stream (cut_seq - Z.of_nat i) FZN_RECORD_MAX_LEN) = Some r) /\
     exists r, rs !! Z.to_nat (cut_seq - act_seq) = Some r /\ hash FZN_RECORD_ID_LEN r = Some id) as Hspec.
  { intros C ops c id. unfold fzn_record_store_stands. destruct (Z.eqb_spec act_seq 0); [lia|].
    destruct (Z.gtb_spec act_seq cut_seq); [lia|]. cbn [orb]. rewrite stands_loop_spec by lia.
    replace (Nat.pred (Z.to_nat (cut_seq - act_seq + 1))) with (Z.to_nat (cut_seq - act_seq)) by lia.
    split; intros (rs & Hl & Hrs); exists rs; (split; [unfold zlen in *; lia|exact Hrs]). }
  split; [apply Hspec|]. intros Hinj (rs1 & L1 & H1 & _ & r1 & E1 & I1)%Hspec (rs2 & L2 & H2 & _ & r2 & E2 & I2)%Hspec.
  assert (rs1 = rs2) as <- by (eapply line_unique; eauto; unfold zlen in *; lia). congruence.
Qed.

(** ** What a backend promises *)

(** What [record/store.h] asks of a backend that works: [get] finds what is
    held and says when the buffer is too small for it, [put] at an address
    that holds nothing keeps the bytes there and disturbs no other address. *)
Class LawfulBackend {C : Type} (ops : fzn_record_store_ops C) (held : C -> bytes -> Z -> Z -> option bytes) := {
  lb_get : forall c iss st seq cap,
    rs_get ops c iss st seq cap
    = match held c iss st seq with
      | Some b => if zlen b <=? cap then (Some b, true) else (None, true)
      | None => (None, false)
      end;
  lb_put : forall c iss st seq b, held c iss st seq = None ->
    exists c', rs_put ops c iss st seq b = (true, c') /\ held c' iss st seq = Some b /\
      forall iss' st' seq', (iss', st', seq') <> (iss, st, seq) -> held c' iss' st' seq' = held c iss' st' seq'
}.

(** A backend in memory. *)
Abbreviation mem := (gmap (bytes * Z * Z) bytes) (only parsing).
Definition mem_held (c : mem) (iss : bytes) (st seq : Z) : option bytes := c !! (iss, st, seq).
Definition mem_ops : fzn_record_store_ops mem :=
  {| rs_put := fun c iss st seq b => (true, <[(iss, st, seq) := b]> c);
     rs_get := fun c iss st seq cap =>
       match mem_held c iss st seq with
       | Some b => if zlen b <=? cap then (Some b, true) else (None, true)
       | None => (None, false)
       end;
     rs_cut := None |}.

#[export] Instance mem_lawful : LawfulBackend mem_ops mem_held.
Proof.
  split; [done|]. intros c iss st seq b _. eexists. split; [reflexivity|]. unfold mem_held.
  split; [apply lookup_insert_eq|]. intros iss' st' seq' Hne. by apply lookup_insert_ne.
Qed.

Section Kept.
Context {C : Type} {ops : fzn_record_store_ops C} {held : C -> bytes -> Z -> Z -> option bytes}.
Context {Hlaw : LawfulBackend ops held}.

(** A record filed at a free address is there to be read. *)
Lemma store_put_kept c r iss st seq :
  placed iss st seq r -> held c iss st seq = None ->
  exists c', fzn_record_store_put ops c (Some r) = (FZN_RECORD_STORE_OK, c') /\ held c' iss st seq = Some r /\
    forall iss' st' seq', (iss', st', seq') <> (iss, st, seq) -> held c' iss' st' seq' = held c iss' st' seq'.
Proof.
  intros (Ho & <- & <- & <-) Hn. destruct (lb_put c _ _ _ r Hn) as (c' & Hp & Hh & Hoth).
  exists c'. unfold fzn_record_store_put. by rewrite Ho, Hp.
Qed.

Lemma placed_len iss st seq r : placed iss st seq r -> zlen r <= FZN_RECORD_MAX_LEN.
Proof. intros (Ho & _). apply opens_of in Ho as [-> _ _ Hm _ _]. unfold FZN_RECORD_MAX_LEN. lia. Qed.

Lemma store_get_kept c r iss st seq :
  seq <> 0 -> placed iss st seq r -> held c iss st seq = Some r ->
  fzn_record_store_get ops c iss st seq FZN_RECORD_MAX_LEN = (FZN_RECORD_STORE_OK, Some r).
Proof.
  intros Hz Hp Hh. apply store_get_some; [done|done|]. rewrite lb_get, Hh.
  pose proof (placed_len _ _ _ _ Hp). by destruct (Z.leb_spec (zlen r) FZN_RECORD_MAX_LEN); [|lia].
Qed.
End Kept.

(** ** Witness *)

Definition demo_chain_hash : fzn_hash_ops := fun n b => Some (u8 <$> slice 0 n (slice 74 8 b ++ zeros 40)).

(** Record [seq] of the demo stream, naming [prev]. *)
Definition demo_record (seq : Z) (prev : option bytes) : bytes :=
  match fzn_record_sign (Some (demo_key 1)) (Some (demo_key 2)) 7 9 seq prev 1000 None 0 (Some toy_ops) (zeros 188) with
  | (_, out, _) => out
  end.

Definition demo_id (seq : Z) : bytes := default [] (demo_chain_hash 32 (demo_record seq None)).

Definition demo_store : mem :=
  <[(demo_key 1, 7, 1) := demo_record 1 None]> (<[(demo_key 1, 7, 2) := demo_record 2 (Some (demo_id 1))]>
    (<[(demo_key 1, 7, 3) := demo_record 3 (Some (demo_id 2))]> ∅)).

Lemma stands_does_not_trust_the_store_witness :
  fzn_record_store_stands mem_ops (Some demo_chain_hash) demo_store (demo_key 1) 7 3 (demo_id 3) 1 (demo_id 1) = true /\
  exists rs, zlen rs = 3 /\ line demo_chain_hash (demo_key 1) 7 3 (demo_id 3) rs.
Proof.
  assert (fzn_record_store_stands mem_ops (Some demo_chain_hash) demo_store (demo_key 1) 7 3 (demo_id 3) 1 (demo_id 1) = true)
    as H by (vm_compute; reflexivity).
  split; [exact H|].
  destruct (stands_does_not_trust_the_store mem_ops mem_ops demo_chain_hash demo_store demo_store (demo_key 1) 7 3
    (demo_id 3) 1 (demo_id 1) (demo_id 1)) as [[Hs _] _]; [lia|].
  destruct (Hs H) as (rs & Hl & Hline & _). exists rs. split; [exact Hl|exact Hline].
Defined.
