(* ===== verification/HeldStore.v ===== *)
(** * record/store_held.c: records kept in memory while the store refuses them

    A delta over a backend that may refuse a record: what it refuses is held
    in memory, in buckets and in a list from the oldest, read first, and
    written back by a flush. Past its budget the delta sheds the oldest record
    of any stream but the journal's own. A row is one object in its bucket's
    chain and in the list; no two rows have one key, so a row is known by its
    key. [alloc] says which allocations succeed, counted from the first; the
    delta and the arguments are given. *)

From stdpp Require Import gmap fin_maps.
From S2P Require Import Prelude Table Bytes Hop Revocation Records RecordStore.

Definition FZN_RECORD_HELD_BUDGET_DEFAULT : Z := 32 * 1024 * 1024.
Definition FZN_RECORD_HELD_BUCKETS : Z := 1024.
Definition FZN_RECORD_HELD_KEPT_STREAM : Z := 1.

(** [len] is the length of [row_bytes]. *)
Record held_row := mk_row { row_issuer : bytes; row_stream : Z; row_seq : Z; row_bytes : bytes }.

Section Delta.
Context {C : Type} (base : fzn_record_store_ops C) (alloc : nat -> bool).

(** [base_state] is what [base->ctx] points at; [listed] runs from [oldest] to
    [newest]; [tries] counts the allocations asked for. *)
Record fzn_record_held := mk_held {
  base_state : C; budget : Z; buckets : list (list held_row); listed : list held_row;
  rows : Z; held_bytes : Z; dropped : Z; refused : Z; stuck : bool; tries : nat
}.

Definition bucket_of (issuer : bytes) (stream seq : Z) : nat :=
  Z.to_nat (u64 (u64 (peek issuer 0 * 31 + u64 (stream * 131)) + u64 (seq * 2654435761)) mod FZN_RECORD_HELD_BUCKETS).

Definition is_row (issuer : bytes) (stream seq : Z) (r : held_row) : bool :=
  (row_seq r =? seq) && (row_stream r =? stream) && memeq (row_issuer r) issuer.

Fixpoint find_chain (issuer : bytes) (stream seq : Z) (chain : list held_row) : option held_row :=
  match chain with
  | [] => None
  | r :: chain => if is_row issuer stream seq r then Some r else find_chain issuer stream seq chain
  end.

(** [h->buckets[b]] *)
Definition chain_at (h : fzn_record_held) (b : nat) : list held_row := nth b (buckets h) [].

Definition find_row (h : fzn_record_held) (issuer : bytes) (stream seq : Z) : option held_row :=
  find_chain issuer stream seq (chain_at h (bucket_of issuer stream seq)).

(** A row unlinked from a chain or from the list. *)
Fixpoint unlink (r : held_row) (l : list held_row) : list held_row :=
  match l with
  | [] => []
  | x :: l => if is_row (row_issuer r) (row_stream r) (row_seq r) x then l else x :: unlink r l
  end.

Definition drop_row (h : fzn_record_held) (r : held_row) : fzn_record_held :=
  let b := bucket_of (row_issuer r) (row_stream r) (row_seq r) in
  mk_held (base_state h) (budget h) (<[b := unlink r (chain_at h b)]> (buckets h)) (unlink r (listed h))
    (u64 (rows h - 1)) (u64 (held_bytes h - zlen (row_bytes r))) (dropped h) (refused h) (stuck h) (tries h).

Definition with_dropped (h : fzn_record_held) : fzn_record_held :=
  mk_held (base_state h) (budget h) (buckets h) (listed h) (rows h) (held_bytes h) (u64 (dropped h + 1)) (refused h)
    (stuck h) (tries h).
Definition with_refused (h : fzn_record_held) : fzn_record_held :=
  mk_held (base_state h) (budget h) (buckets h) (listed h) (rows h) (held_bytes h) (dropped h) (u64 (refused h + 1))
    (stuck h) (tries h).
Definition with_try (h : fzn_record_held) : fzn_record_held :=
  mk_held (base_state h) (budget h) (buckets h) (listed h) (rows h) (held_bytes h) (dropped h) (refused h) (stuck h) (S (tries h)).
Definition with_base (h : fzn_record_held) (c : C) (s : bool) : fzn_record_held :=
  mk_held c (budget h) (buckets h) (listed h) (rows h) (held_bytes h) (dropped h) (refused h) s (tries h).

(** A row that may go. *)
Definition may_go (r : held_row) : bool := negb (row_stream r =? FZN_RECORD_HELD_KEPT_STREAM).

Definition shed_one (h : fzn_record_held) : option fzn_record_held :=
  match find_index may_go (listed h) with
  | None => None
  | Some i => match listed h !! i with Some r => Some (with_dropped (drop_row h r)) | None => None end
  end.

(** Both loops of [hold] shed a row a turn: [n] is the rows there are and one.
    The result is whether there is room, [None] out of turns. *)
Fixpoint make_room (n : nat) (h : fzn_record_held) (len : Z) : option (bool * fzn_record_held) :=
  match n with
  | O => None
  | S n =>
    if u64 (held_bytes h + len) >? budget h then
      match shed_one h with None => Some (false, with_refused h) | Some h => make_room n h len end
    else Some (true, h)
  end.

Fixpoint make_row (n : nat) (h : fzn_record_held) : option (bool * fzn_record_held) :=
  match n with
  | O => None
  | S n =>
    let ok := alloc (tries h) in
    let h := with_try h in
    if ok then Some (true, h)
    else match shed_one h with None => Some (false, with_refused h) | Some h => make_row n h end
  end.

Definition with_row (h : fzn_record_held) (r : held_row) : fzn_record_held :=
  let b := bucket_of (row_issuer r) (row_stream r) (row_seq r) in
  mk_held (base_state h) (budget h) (<[b := r :: chain_at h b]> (buckets h)) (listed h ++ [r]) (u64 (rows h + 1))
    (u64 (held_bytes h + zlen (row_bytes r))) (dropped h) (refused h) (stuck h) (tries h).

Definition turns (h : fzn_record_held) : nat := S (length (listed h)).

Definition hold (h : fzn_record_held) (issuer : bytes) (stream seq : Z) (b : bytes) : option (bool * fzn_record_held) :=
  if match find_row h issuer stream seq with Some _ => true | None => false end then Some (true, h)
  else
    match (if negb (stream =? FZN_RECORD_HELD_KEPT_STREAM) then make_room (turns h) h (zlen b) else Some (true, h)) with
    | None => None
    | Some (false, h) => Some (false, h)
    | Some (true, h) =>
      match make_row (turns h) h with
      | None => None
      | Some (false, h) => Some (false, h)
      | Some (true, h) => Some (true, with_row h (mk_row issuer stream seq b))
      end
    end.

Definition held_put (h : fzn_record_held) (issuer : bytes) (stream seq : Z) (b : bytes) : option (bool * fzn_record_held) :=
  if stuck h then hold h issuer stream seq b
  else match rs_put base (base_state h) issuer stream seq b with
  | (true, c) => Some (true, with_base h c false)
  | (false, c) => hold (with_base h c true) issuer stream seq b
  end.

Definition held_get (h : fzn_record_held) (issuer : bytes) (stream seq cap : Z) : option bytes * bool :=
  match find_row h issuer stream seq with
  | None => rs_get base (base_state h) issuer stream seq cap
  | Some r => if zlen (row_bytes r) >? cap then (None, false) else (Some (row_bytes r), true)
  end.

(** The walk of [held_cut] over the list from [r] on. *)
Fixpoint cut_loop (h : fzn_record_held) (walk : list held_row) (issuer : bytes) (stream from below : Z) : fzn_record_held :=
  match walk with
  | [] => h
  | r :: walk =>
    let h := if (row_stream r =? stream) && (row_seq r >=? from) && (row_seq r <? below) && memeq (row_issuer r) issuer
             then drop_row h r else h in
    cut_loop h walk issuer stream from below
  end.

Definition held_cut (h : fzn_record_held) (issuer : bytes) (stream from below : Z) : bool * fzn_record_held :=
  let h := cut_loop h (listed h) issuer stream from below in
  match rs_cut base with
  | None => (false, h)
  | Some cut => let '(ok, c) := cut (base_state h) issuer stream from below in (ok, with_base h c (stuck h))
  end.

Definition fzn_record_held_init (c : C) (budget : Z) : fzn_record_held :=
  mk_held c (if negb (budget =? 0) then budget else FZN_RECORD_HELD_BUDGET_DEFAULT)
    (replicate (Z.to_nat FZN_RECORD_HELD_BUCKETS) []) [] 0 0 0 0 false 0.

(** [n] rows at most are written back, and there are no more. *)
Fixpoint flush_loop (n : nat) (h : fzn_record_held) (done : Z) : Z * fzn_record_held :=
  match n, listed h with
  | S n, r :: _ =>
    match rs_put base (base_state h) (row_issuer r) (row_stream r) (row_seq r) (row_bytes r) with
    | (false, c) => (done, with_base h c true)
    | (true, c) => flush_loop n (drop_row (with_base h c (stuck h)) r) (done + 1)
    end
  | _, _ => (done, with_base h (base_state h) false)
  end.

Definition fzn_record_held_flush (h : fzn_record_held) : Z * fzn_record_held := flush_loop (length (listed h)) h 0.

Fixpoint free_loop (n : nat) (h : fzn_record_held) : fzn_record_held :=
  match n, listed h with
  | S n, r :: _ => free_loop n (drop_row h r)
  | _, _ => h
  end.

Definition fzn_record_held_free (h : fzn_record_held) : fzn_record_held := free_loop (length (listed h)) h.
End Delta.

(** ** The delta's invariant *)

Abbreviation rkey := (bytes * Z * Z)%type (only parsing).
Definition rkey_of (r : held_row) : rkey := (row_issuer r, row_stream r, row_seq r).
Definition bucket_of_row (r : held_row) : nat := bucket_of (row_issuer r) (row_stream r) (row_seq r).

(** The bytes of some rows. *)
Definition total (l : list held_row) : Z := foldr (fun r n => zlen (row_bytes r) + n) 0 l.

(** No two rows have one key, each is in the chain of its bucket and in no
    other, and the counters count them. *)
Record held_ok {C} (h : fzn_record_held (C := C)) : Prop := {
  ho_keys : NoDup (rkey_of <$> listed h);
  ho_buckets : length (buckets h) = Z.to_nat FZN_RECORD_HELD_BUCKETS;
  ho_chains : forall b, chain_at h b ≡ₚ filter (fun r => bucket_of_row r = b) (listed h);
  ho_rows : rows h = u64 (zlen (listed h));
  ho_bytes : held_bytes h = u64 (total (listed h))
}.

Lemma is_row_true iss st seq r : is_row iss st seq r = true <-> rkey_of r = (iss, st, seq).
Proof.
  unfold is_row, rkey_of. rewrite !andb_true_iff, !Z.eqb_eq, memeq_true.
  split; [intros [[-> ->] ->]; done|by intros [= -> -> ->]].
Qed.

Lemma is_row_self r : is_row (row_issuer r) (row_stream r) (row_seq r) r = true.
Proof. by apply is_row_true. Qed.

Lemma total_cons r l : total (r :: l) = zlen (row_bytes r) + total l.
Proof. done. Qed.

Lemma total_app l1 l2 : total (l1 ++ l2) = total l1 + total l2.
Proof. unfold total. induction l1 as [|r l1 IH]; cbn; [done|]. lia. Qed.

Lemma total_nonneg l : 0 <= total l.
Proof. unfold total. induction l as [|r l IH]; cbn; [done|]. pose proof (zlen_nonneg (row_bytes r)). lia. Qed.

(** A row taken out of a list that has it, by its key, is that row. *)
Lemma unlink_delete r l i : NoDup (rkey_of <$> l) -> l !! i = Some r -> unlink r l = delete i l.
Proof.
  revert i. induction l as [|x l IH]; intros i Hnd Hi; [done|]. cbn [unlink]. rewrite fmap_cons, list.NoDup_cons in Hnd.
  destruct Hnd as [Hx Hnd]. destruct i as [|i]; cbn in Hi.
  - simplify_eq. by rewrite is_row_self.
  - destruct (is_row _ _ _ x) eqn:E.
    + exfalso. apply Hx. apply is_row_true in E. fold (rkey_of r) in E. rewrite E.
      by apply list_elem_of_fmap_2, list_elem_of_lookup_2 with i.
    + change (delete (S i) (x :: l)) with (x :: delete i l). by rewrite (IH i).
Qed.

Lemma unlink_other r l : (forall x, x ∈ l -> rkey_of x <> rkey_of r) -> unlink r l = l.
Proof.
  induction l as [|x l IH]; intros H; [done|]. cbn [unlink]. destruct (is_row _ _ _ x) eqn:E.
  - apply is_row_true in E. exfalso. apply (H x); [by apply elem_of_cons; left|done].
  - rewrite IH; [done|]. intros y Hy. apply H. by apply elem_of_cons; right.
Qed.

Lemma unlink_perm r l1 l2 : NoDup (rkey_of <$> l1) -> l1 ≡ₚ l2 -> r ∈ l1 -> unlink r l1 ≡ₚ unlink r l2.
Proof.
  intros Hnd Hp [i Hi]%list_elem_of_lookup. assert (NoDup (rkey_of <$> l2)) as Hnd2 by (by rewrite <- Hp).
  assert (r ∈ l2) as [j Hj]%list_elem_of_lookup by (rewrite <- Hp; by eapply list_elem_of_lookup_2).
  rewrite (unlink_delete r l1 i), (unlink_delete r l2 j) by done.
  apply (Permutation_cons_inv (a := r)). rewrite <- (delete_Permutation l1 i r Hi), <- (delete_Permutation l2 j r Hj). done.
Qed.

Lemma total_delete l i r : l !! i = Some r -> total l = zlen (row_bytes r) + total (delete i l).
Proof.
  revert i. induction l as [|x l IH]; intros [|i] Hi; cbn in Hi; [done..| |].
  - by simplify_eq.
  - change (delete (S i) (x :: l)) with (x :: delete i l). rewrite !total_cons, (IH i Hi). lia.
Qed.

Section Ok.
Context {C : Type}.
Abbreviation delta := (fzn_record_held (C := C)) (only parsing).

(** The rows by their keys. *)
Definition row_map (h : delta) : gmap rkey held_row := tmap rkey_of (listed h).

Lemma chain_keys (h : delta) b : held_ok h -> NoDup (rkey_of <$> chain_at h b).
Proof.
  intros Hh. rewrite (ho_chains _ Hh b). apply (sublist_NoDup _ (rkey_of <$> listed h)); [apply Hh|apply fmap_sublist, sublist_filter].
Qed.

Lemma find_chain_spec iss st seq l : NoDup (rkey_of <$> l) ->
  match find_chain iss st seq l with
  | Some r => r ∈ l /\ rkey_of r = (iss, st, seq)
  | None => forall r, r ∈ l -> rkey_of r <> (iss, st, seq)
  end.
Proof.
  induction l as [|x l IH]; intros Hnd; cbn [find_chain]; [intros r Hr; by apply not_elem_of_nil in Hr|].
  rewrite fmap_cons, list.NoDup_cons in Hnd. destruct Hnd as [_ Hnd]. specialize (IH Hnd).
  destruct (is_row iss st seq x) eqn:E.
  - apply is_row_true in E. split; [by apply elem_of_cons; left|done].
  - destruct (find_chain iss st seq l); [destruct IH; split; [by apply elem_of_cons; right|done]|].
    intros r [->|Hr]%elem_of_cons; [|by apply IH]. intros Hk. apply is_row_true in Hk. congruence.
Qed.

(** A search of the bucket finds what the list has. *)
Lemma find_row_spec (h : delta) iss st seq : held_ok h -> find_row h iss st seq = row_map h !! (iss, st, seq).
Proof.
  intros Hh. unfold find_row. pose proof (find_chain_spec iss st seq _ (chain_keys h (bucket_of iss st seq) Hh)) as H.
  destruct (find_chain _ _ _ _) as [r|]; symmetry.
  - destruct H as [Hin Hk]. apply tmap_lookup; [apply Hh|]. split; [done|].
    rewrite (ho_chains _ Hh) in Hin. by apply list_elem_of_filter in Hin as [_ ?].
  - destruct (row_map h !! (iss, st, seq)) as [r|] eqn:E; [|done]. exfalso.
    apply tmap_lookup in E as [Hk Hin]; [|apply Hh]. apply (H r); [|done]. rewrite (ho_chains _ Hh).
    apply list_elem_of_filter. split; [|done]. unfold bucket_of_row, rkey_of in *. by simplify_eq.
Qed.

Lemma bucket_lt iss st seq : (bucket_of iss st seq < Z.to_nat FZN_RECORD_HELD_BUCKETS)%nat.
Proof.
  unfold bucket_of. change FZN_RECORD_HELD_BUCKETS with 1024.
  apply Z2Nat.inj_lt; [apply Z.mod_pos_bound; done|done|apply Z.mod_pos_bound; done].
Qed.

Lemma chain_at_insert (h : delta) b b' l bs :
  bs = <[b := l]> (buckets h) -> (b < length (buckets h))%nat -> nth b' bs [] = if decide (b' = b) then l else chain_at h b'.
Proof.
  intros -> Hb. rewrite !list.nth_lookup. unfold chain_at. case_decide as E.
  - subst b'. by rewrite list_lookup_insert_eq.
  - by rewrite list_lookup_insert_ne, list.nth_lookup.
Qed.

Lemma drop_row_ok (h : delta) i r : held_ok h -> listed h !! i = Some r ->
  held_ok (drop_row h r) /\ listed (drop_row h r) = delete i (listed h) /\
  row_map (drop_row h r) = delete (rkey_of r) (row_map h).
Proof.
  intros Hh Hi. pose proof (ho_keys _ Hh) as Hnd. pose proof (unlink_delete r _ i Hnd Hi) as Hu.
  destruct (tmap_drop rkey_of (listed h) i r Hnd Hi) as [Hnd' Hm].
  assert (listed (drop_row h r) = delete i (listed h)) as El by done || (cbn; exact Hu).
  split_and!; [|done|unfold row_map; by rewrite El].
  assert (r ∈ listed h) as Hin by (by eapply list_elem_of_lookup_2).
  split.
  - by rewrite El.
  - cbn. rewrite length_insert. apply Hh.
  - intros b. rewrite El.
    change (chain_at (drop_row h r) b) with (nth b (<[bucket_of_row r := unlink r (chain_at h (bucket_of_row r))]> (buckets h)) []).
    rewrite (chain_at_insert h (bucket_of_row r) b (unlink r (chain_at h (bucket_of_row r))) _ eq_refl)
      by (rewrite (ho_buckets _ Hh); apply bucket_lt).
    rewrite (delete_Permutation (listed h) i r Hi) in Hnd.
    assert (chain_at h b ≡ₚ filter (fun r => bucket_of_row r = b) (r :: delete i (listed h))) as Hc
      by (rewrite (ho_chains _ Hh b); by rewrite (delete_Permutation (listed h) i r Hi) at 1).
    rewrite filter_cons in Hc. rewrite fmap_cons, list.NoDup_cons in Hnd. destruct Hnd as [Hr _].
    destruct (decide (b = bucket_of_row r)) as [Eb|Eb].
    + subst b. rewrite decide_True in Hc by done.
      rewrite (unlink_perm r _ _ (chain_keys h _ Hh) Hc) by (rewrite Hc; by apply elem_of_cons; left).
      cbn [unlink]. by rewrite is_row_self.
    + rewrite decide_False in Hc by congruence. exact Hc.
  - cbn. rewrite Hu, (ho_rows _ Hh). unfold zlen. pose proof (length_delete (listed h) i ltac:(by eexists)) as Hld.
    pose proof (lookup_lt_Some _ _ _ Hi). rewrite Hld. unfold u64. rewrite Zminus_mod_idemp_l. f_equal. lia.
  - rewrite El. change (held_bytes (drop_row h r)) with (u64 (held_bytes h - zlen (row_bytes r))).
    rewrite (ho_bytes _ Hh), (total_delete _ _ _ Hi). unfold u64. rewrite Zminus_mod_idemp_l. f_equal. lia.
Qed.
End Ok.

(** ** Making room, and holding *)

Definition kept (r : held_row) : Prop := row_stream r = FZN_RECORD_HELD_KEPT_STREAM.
#[export] Instance kept_dec r : Decision (kept r).
Proof. unfold kept. apply _. Defined.

(** The bytes of the rows that may go. *)
Definition light (l : list held_row) : Z := total (filter (fun r => ~ kept r) l).

#[export] Instance total_perm : Proper ((≡ₚ) ==> (=)) total.
Proof.
  intros l l' H. induction H as [|r l l' _ IH|r1 r2 l|l1 l2 l3 _ IH1 _ IH2]; rewrite ?total_cons; try done; try lia; congruence.
Qed.

#[export] Instance light_perm : Proper ((≡ₚ) ==> (=)) light.
Proof. intros l l' H. unfold light. by rewrite H. Qed.

Lemma light_cons r l : light (r :: l) = (if decide (kept r) then 0 else zlen (row_bytes r)) + light l.
Proof. unfold light. rewrite filter_cons. repeat case_decide; try done; try tauto. Qed.

Section Hold.
Context {C : Type} (alloc : nat -> bool).
Abbreviation delta := (fzn_record_held (C := C)) (only parsing).

(** [h'] is [h] with rows shed, none of them kept. *)
Record shed (h h' : delta) : Prop := {
  sh_ok : held_ok h';
  sh_base : base_state h' = base_state h;
  sh_budget : budget h' = budget h;
  sh_stuck : stuck h' = stuck h;
  sh_rows : forall k r, row_map h' !! k = Some r -> row_map h !! k = Some r;
  sh_kept : forall k r, row_map h !! k = Some r -> kept r -> row_map h' !! k = Some r;
  sh_total : total (listed h') <= total (listed h);
  sh_light : light (listed h') <= light (listed h);
  sh_len : (length (listed h') <= length (listed h))%nat
}.

Lemma shed_trans h1 h2 h3 : shed h1 h2 -> shed h2 h3 -> shed h1 h3.
Proof. intros [] []. split; auto; try congruence; lia. Qed.

(** Counting a try or a refusal moves nothing. *)
Lemma shed_same (h h' : delta) : held_ok h -> base_state h' = base_state h -> budget h' = budget h -> stuck h' = stuck h ->
  buckets h' = buckets h -> listed h' = listed h -> rows h' = rows h -> held_bytes h' = held_bytes h -> shed h h'.
Proof.
  intros [K B Ch R T] E1 E2 E3 E4 E5 E6 E7. split; auto; try (unfold row_map; by rewrite E5); try (by rewrite E5).
  split; unfold chain_at; rewrite ?E4, ?E5, ?E6, ?E7; auto.
Qed.

Lemma shed_refl (h : delta) : held_ok h -> shed h h.
Proof. intros. by apply shed_same. Qed.

Lemma drop_shed (h : delta) i r : held_ok h -> listed h !! i = Some r -> ~ kept r ->
  shed h (with_dropped (drop_row h r)) /\ (length (listed (drop_row h r)) < length (listed h))%nat.
Proof.
  intros Hh Hi Hk. destruct (drop_row_ok h i r Hh Hi) as (Hok & El & Em).
  pose proof (length_delete (listed h) i ltac:(by eexists)) as Hl. pose proof (lookup_lt_Some _ _ _ Hi) as Hlt.
  pose proof (delete_Permutation _ _ _ Hi) as Hp.
  assert (row_map (with_dropped (drop_row h r)) = delete (rkey_of r) (row_map h)) as Em' by exact Em.
  assert (listed (with_dropped (drop_row h r)) = delete i (listed h)) as El' by exact El.
  split; [|rewrite El; lia]. split; try done.
  - destruct Hok as [K B Ch R T]. by split.
  - intros k x. rewrite Em'. intros Hx. by apply lookup_delete_Some in Hx as [_ ?].
  - intros k x Hx Hkx. rewrite Em'. apply lookup_delete_Some. split; [|done]. intros <-.
    apply tmap_lookup in Hx as [Hkey Hin]; [|apply Hh]. apply Hk.
    assert (row_map h !! rkey_of r = Some r) as E1 by (eapply tmap_at; [apply Hh|done]).
    assert (row_map h !! rkey_of r = Some x) as E2 by (apply tmap_lookup; [apply Hh|done]). congruence.
  - rewrite El', (total_delete _ _ _ Hi). pose proof (zlen_nonneg (row_bytes r)). lia.
  - rewrite El', (light_perm _ _ Hp), light_cons. case_decide; [done|]. pose proof (zlen_nonneg (row_bytes r)). lia.
  - rewrite El'. lia.
Qed.

Lemma shed_one_spec (h : delta) : held_ok h ->
  match shed_one h with
  | Some h' => shed h h' /\ (length (listed h') < length (listed h))%nat
  | None => Forall kept (listed h)
  end.
Proof.
  intros Hh. unfold shed_one. assert (forall r, may_go r = true <-> ~ kept r) as Hg.
  { intros r. unfold may_go, kept. rewrite negb_true_iff, Z.eqb_neq. done. }
  destruct (find_index may_go (listed h)) as [i|] eqn:E.
  - apply find_index_Some in E as (r & Hi & Hr & _). rewrite Hi. apply (drop_shed h i r); auto. by apply Hg.
  - apply Forall_lookup. intros i r Hi. rewrite find_index_None in E. specialize (E i r Hi).
    destruct (decide (kept r)) as [|Hk]; [done|]. apply Hg in Hk. congruence.
Qed.

Lemma make_room_spec n : forall h len, held_ok h -> 0 <= len -> total (listed h) + len <= SIZE_MAX ->
  (length (listed h) < n)%nat ->
  exists ok h', make_room n h len = Some (ok, h') /\ shed h h' /\ (ok = true -> total (listed h') + len <= budget h').
Proof.
  induction n as [|n IH]; intros h len Hh Hl Ht Hn; [lia|]. cbn [make_room].
  pose proof (total_nonneg (listed h)). rewrite (ho_bytes _ Hh), (u64_small (total (listed h))) by ulia.
  rewrite u64_small by ulia. destruct (Z.gtb_spec (total (listed h) + len) (budget h)).
  - pose proof (shed_one_spec h Hh) as Hs. destruct (shed_one h) as [h1|].
    + destruct Hs as [Hs Hlt]. pose proof (sh_total _ _ Hs).
      destruct (IH h1 len (sh_ok _ _ Hs) Hl ltac:(lia) ltac:(lia)) as (ok & h' & -> & Hs' & Hok).
      exists ok, h'. split; [done|]. split; [by eapply shed_trans|done].
    + eexists false, _. split; [done|]. split; [by apply shed_same|done].
  - exists true, h. split; [done|]. split; [by apply shed_refl|]. intros _. lia.
Qed.

Lemma make_row_spec n : forall h, held_ok h -> (length (listed h) < n)%nat ->
  exists ok h', make_row alloc n h = Some (ok, h') /\ shed h h'.
Proof.
  induction n as [|n IH]; intros h Hh Hn; [lia|]. cbn [make_row].
  assert (shed h (with_try h)) as Ht by (by apply shed_same). pose proof (sh_ok _ _ Ht) as Hh'.
  destruct (alloc (tries h)); [by exists true, (with_try h)|].
  pose proof (shed_one_spec (with_try h) Hh') as Hs. destruct (shed_one (with_try h)) as [h1|].
  - destruct Hs as [Hs Hlt]. cbn [with_try listed] in Hlt. destruct (IH h1 (sh_ok _ _ Hs) ltac:(lia)) as (ok & h' & -> & Hs').
    exists ok, h'. split; [done|]. eauto using shed_trans.
  - eexists false, _. split; [done|]. eapply shed_trans; [exact Ht|]. by apply shed_same.
Qed.

Lemma with_row_ok (h : delta) r : held_ok h -> row_map h !! rkey_of r = None ->
  held_ok (with_row h r) /\ row_map (with_row h r) = <[rkey_of r := r]> (row_map h).
Proof.
  intros Hh Hn. destruct (tmap_snoc rkey_of (listed h) r (ho_keys _ Hh) Hn) as [Hnd Hm]. split; [|exact Hm].
  split.
  - exact Hnd.
  - cbn. rewrite length_insert. apply Hh.
  - intros b. change (chain_at (with_row h r) b) with (nth b (<[bucket_of_row r := r :: chain_at h (bucket_of_row r)]> (buckets h)) []).
    change (listed (with_row h r)) with (listed h ++ [r]).
    rewrite (chain_at_insert h (bucket_of_row r) b (r :: chain_at h (bucket_of_row r)) _ eq_refl)
      by (rewrite (ho_buckets _ Hh); apply bucket_lt).
    rewrite <- Permutation_cons_append, filter_cons. destruct (decide (b = bucket_of_row r)) as [->|Hb].
    + rewrite decide_True by done. by rewrite (ho_chains _ Hh).
    + rewrite decide_False by congruence. apply (ho_chains _ Hh).
  - change (rows (with_row h r)) with (u64 (rows h + 1)). change (listed (with_row h r)) with (listed h ++ [r]).
    rewrite (ho_rows _ Hh). unfold zlen. rewrite length_app. cbn [length]. unfold u64. rewrite Zplus_mod_idemp_l. f_equal. lia.
  - change (held_bytes (with_row h r)) with (u64 (held_bytes h + zlen (row_bytes r))).
    change (listed (with_row h r)) with (listed h ++ [r]). rewrite (ho_bytes _ Hh), total_app, total_cons.
    change (total []) with 0. unfold u64. rewrite Zplus_mod_idemp_l. f_equal. lia.
Qed.

(** What [hold] does. *)
Lemma hold_spec (h : delta) iss st seq b : held_ok h -> total (listed h) + zlen b <= SIZE_MAX ->
  let k := (iss, st, seq) in
  exists ok h', hold alloc h iss st seq b = Some (ok, h') /\ held_ok h' /\ base_state h' = base_state h /\ budget h' = budget h /\
    stuck h' = stuck h /\ total (listed h') <= total (listed h) + zlen b /\
    (light (listed h) <= budget h -> light (listed h') <= budget h) /\
    (forall k' r, row_map h' !! k' = Some r -> row_map h !! k' = Some r \/ k' = k /\ r = mk_row iss st seq b) /\
    (forall k' r, row_map h !! k' = Some r -> kept r -> row_map h' !! k' = Some r) /\
    (ok = true -> is_Some (row_map h' !! k)).
Proof.
  intros Hh Ht k. pose proof (zlen_nonneg b) as Hb. unfold hold. rewrite find_row_spec by done. fold k.
  destruct (row_map h !! k) as [r0|] eqn:Er.
  { exists true, h. split_and!; auto; try lia. }
  assert (exists ok h1, (if negb (st =? FZN_RECORD_HELD_KEPT_STREAM) then make_room (turns h) h (zlen b) else Some (true, h)) = Some (ok, h1) /\
    shed h h1 /\ (ok = true -> st <> FZN_RECORD_HELD_KEPT_STREAM -> total (listed h1) + zlen b <= budget h)) as (ok1 & h1 & -> & Hs1 & Hroom).
  { destruct (Z.eqb_spec st FZN_RECORD_HELD_KEPT_STREAM) as [|Hst]; cbn [negb].
    - exists true, h. split; [done|]. split; [by apply shed_refl|done].
    - destruct (make_room_spec (turns h) h (zlen b) Hh Hb Ht ltac:(unfold turns; lia)) as (ok & h1 & -> & Hs & Hr).
      exists ok, h1. split; [done|]. split; [done|]. intros E _. specialize (Hr E). by rewrite (sh_budget _ _ Hs) in Hr. }
  destruct ok1.
  2: { exists false, h1. destruct Hs1 as [? ? ? ? Sr Sk St Sl _]. split_and!; auto; try congruence; lia. }
  destruct (make_row_spec (turns h1) h1 (sh_ok _ _ Hs1) ltac:(unfold turns; lia)) as (ok2 & h2 & -> & Hs2).
  pose proof (shed_trans _ _ _ Hs1 Hs2) as [Hok Hba Hbu Hst Hr Hk Hto Hli _].
  destruct ok2.
  2: { exists false, h2. split_and!; auto; try congruence; lia. }
  set (r := mk_row iss st seq b).
  assert (row_map h2 !! rkey_of r = None) as Hn.
  { destruct (row_map h2 !! rkey_of r) as [x|] eqn:E; [|done]. apply Hr in E. change (rkey_of r) with k in E. congruence. }
  destruct (with_row_ok h2 r Hok Hn) as [Hok' Hm].
  assert (listed (with_row h2 r) = listed h2 ++ [r]) as El by done.
  exists true, (with_row h2 r). rewrite El, Hm, total_app. change (total [r]) with (zlen b + 0).
  split_and!; auto; [lia| | | |].
  - intros Hle. rewrite <- Permutation_cons_append, light_cons. case_decide as Hkr; [lia|].
    specialize (Hroom eq_refl Hkr). pose proof (sh_total _ _ Hs2).
    assert (light (listed h2) <= total (listed h2)); [|cbn; lia].
    clear. induction (listed h2) as [|x l IH]; [done|]. rewrite light_cons, total_cons. pose proof (zlen_nonneg (row_bytes x)).
    case_decide; lia.
  - intros k' x. destruct (decide (k' = rkey_of r)) as [->|]; [rewrite lookup_insert_eq; intros [= <-]; by right|].
    rewrite lookup_insert_ne by done. intros Hx. left. by apply Hr.
  - intros k' x Hx Hkx. destruct (decide (k' = rkey_of r)) as [->|]; [|rewrite lookup_insert_ne by done; by apply Hk].
    change (rkey_of r) with k in Hx. congruence.
  - intros _. change k with (rkey_of r). rewrite lookup_insert_eq. by eexists.
Qed.
End Hold.

(** ** Over a backend that may refuse *)

(** What the delta relies on of the backend beneath: [get] finds what is held,
    a refused [put] changes nothing, an accepted one leaves something at the
    address (at an address that was taken, either record: that is the
    backend's to define) and nothing else changed, and a [cut] takes records
    of its range only, all of them if it says so. *)
Class RefusingBackend {C : Type} (ops : fzn_record_store_ops C) (held : C -> bytes -> Z -> Z -> option bytes) := {
  rb_get : forall c iss st seq cap,
    rs_get ops c iss st seq cap
    = match held c iss st seq with
      | Some b => if zlen b <=? cap then (Some b, true) else (None, true)
      | None => (None, false)
      end;
  rb_put : forall c iss st seq b ok c', rs_put ops c iss st seq b = (ok, c') ->
    (if ok then held c' iss st seq = Some b \/ (held c' iss st seq = held c iss st seq /\ held c iss st seq <> None)
     else held c' iss st seq = held c iss st seq) /\
    forall iss' st' seq', (iss', st', seq') <> (iss, st, seq) -> held c' iss' st' seq' = held c iss' st' seq';
  rb_cut : forall cut c iss st from below ok c', rs_cut ops = Some cut -> cut c iss st from below = (ok, c') ->
    forall iss' st' seq',
      if (st' =? st) && (seq' >=? from) && (seq' <? below) && memeq iss' iss
      then (ok = true -> held c' iss' st' seq' = None) /\
           (held c' iss' st' seq' = None \/ held c' iss' st' seq' = held c iss' st' seq')
      else held c' iss' st' seq' = held c iss' st' seq'
}.

(** A call on the delta, after the reads. *)
Inductive held_op :=
| HeldPut (issuer : bytes) (stream seq : Z) (b : bytes)
| HeldCut (issuer : bytes) (stream from below : Z)
| HeldFlush.

Definition op_size (op : held_op) : Z := match op with HeldPut _ _ _ b => zlen b | _ => 0 end.

(** The address is in the range of a cut. *)
Definition cuts (op : held_op) (iss : bytes) (st seq : Z) : bool :=
  match op with
  | HeldCut issuer stream from below => (st =? stream) && (seq >=? from) && (seq <? below) && memeq iss issuer
  | _ => false
  end.

Section Life.
Context {C : Type} (base : fzn_record_store_ops C) (held : C -> bytes -> Z -> Z -> option bytes).
Context {Hlaw : RefusingBackend base held} (alloc : nat -> bool).
(** The one record of an address: a record is signed and never changes. *)
Context (content : bytes -> Z -> Z -> bytes).
Abbreviation delta := (fzn_record_held (C := C)) (only parsing).

Definition run_held_op (h : delta) (op : held_op) : option delta :=
  match op with
  | HeldPut iss st seq b => snd <$> held_put base alloc h iss st seq b
  | HeldCut iss st from below => Some (snd (held_cut base h iss st from below))
  | HeldFlush => Some (snd (fzn_record_held_flush base h))
  end.

Fixpoint run_held (h : delta) (ops : list held_op) : option delta :=
  match ops with
  | [] => Some h
  | op :: ops => match run_held_op h op with Some h => run_held h ops | None => None end
  end.

Definition op_fits (op : held_op) : Prop :=
  match op with HeldPut iss st seq b => b = content iss st seq | _ => True end.

(** What a read finds. *)
Definition view (h : delta) (iss : bytes) (st seq : Z) : option bytes :=
  match row_map h !! (iss, st, seq) with Some r => Some (row_bytes r) | None => held (base_state h) iss st seq end.

Record inv (h : delta) : Prop := {
  iv_ok : held_ok h;
  iv_light : light (listed h) <= budget h;
  iv_rows : forall iss st seq r, row_map h !! (iss, st, seq) = Some r -> row_bytes r = content iss st seq;
  iv_base : forall iss st seq b, held (base_state h) iss st seq = Some b -> b = content iss st seq
}.

Lemma view_content h iss st seq b : inv h -> view h iss st seq = Some b -> b = content iss st seq.
Proof.
  intros Hi. unfold view. destruct (row_map h !! _) as [r|] eqn:E; [intros [= <-]; by eapply iv_rows|by apply iv_base].
Qed.

Lemma view_get h iss st seq b cap : inv h -> view h iss st seq = Some b -> zlen b <= cap ->
  held_get base h iss st seq cap = (Some b, true).
Proof.
  intros Hi Hv Hc. unfold held_get. rewrite find_row_spec by apply Hi. unfold view in Hv.
  destruct (row_map h !! _) as [r|].
  - simplify_eq. destruct (Z.gtb_spec (zlen (row_bytes r)) cap); [lia|done].
  - rewrite rb_get, Hv. by destruct (Z.leb_spec (zlen b) cap); [|lia].
Qed.

(** Unlinking a row. *)
Lemma drop_effect (h : delta) i r : held_ok h -> listed h !! i = Some r ->
  held_ok (drop_row h r) /\ row_map (drop_row h r) = delete (rkey_of r) (row_map h) /\
  total (listed (drop_row h r)) <= total (listed h) /\ light (listed (drop_row h r)) <= light (listed h) /\
  length (listed (drop_row h r)) = (length (listed h) - 1)%nat.
Proof.
  intros Hh Hi. destruct (drop_row_ok h i r Hh Hi) as (Hok & El & Em). pose proof (zlen_nonneg (row_bytes r)).
  split_and!; auto; rewrite El.
  - rewrite (total_delete _ _ _ Hi). lia.
  - rewrite (light_perm _ _ (delete_Permutation _ _ _ Hi)), light_cons. case_decide; lia.
  - by apply length_delete.
Qed.

(** The base's state written over. *)
Lemma with_base_ok (h : delta) c s : held_ok h -> held_ok (with_base h c s).
Proof. intros [K B Ch R T]. by split. Qed.

Lemma view_with_base (h : delta) c s i t q :
  view (with_base h c s) i t q = match row_map h !! (i, t, q) with Some r => Some (row_bytes r) | None => held c i t q end.
Proof. done. Qed.

Lemma put_step h iss st seq : inv h -> let b := content iss st seq in total (listed h) + zlen b <= SIZE_MAX ->
  exists ok h', held_put base alloc h iss st seq b = Some (ok, h') /\ inv h' /\ budget h' = budget h /\
    total (listed h') <= total (listed h) + zlen b /\
    (ok = true -> view h' iss st seq = Some b) /\
    forall iss' seq' b', view h iss' FZN_RECORD_HELD_KEPT_STREAM seq' = Some b' ->
      view h' iss' FZN_RECORD_HELD_KEPT_STREAM seq' = Some b'.
Proof.
  intros Hi b Ht. unfold held_put. pose proof (zlen_nonneg b) as Hb0.
  (* holding, over a base that holds what it held *)
  assert (forall c s, (forall i t q, held c i t q = held (base_state h) i t q) ->
    exists ok h', hold alloc (with_base h c s) iss st seq b = Some (ok, h') /\ inv h' /\ budget h' = budget h /\
      total (listed h') <= total (listed h) + zlen b /\ (ok = true -> view h' iss st seq = Some b) /\
      forall iss' seq' b', view h iss' FZN_RECORD_HELD_KEPT_STREAM seq' = Some b' ->
        view h' iss' FZN_RECORD_HELD_KEPT_STREAM seq' = Some b') as Hhold.
  { intros c s Hc. pose proof (with_base_ok h c s (iv_ok _ Hi)) as Hok.
    destruct (hold_spec alloc (with_base h c s) iss st seq b Hok Ht) as (ok & h' & E & Hok' & Eb & Ebu & Es & Hto & Hli & Hr & Hk & Hput).
    exists ok, h'. split; [exact E|].
    assert (forall i t q r, row_map h' !! (i, t, q) = Some r -> row_bytes r = content i t q) as Hrows.
    { intros i t q r Hx. destruct (Hr _ _ Hx) as [Hx'|[[= -> -> ->] ->]]; [by eapply iv_rows|done]. }
    split_and!; auto.
    - split; auto; [rewrite Ebu; apply Hli, Hi|]. intros i t q x. rewrite Eb. cbn. rewrite Hc. by apply iv_base.
    - intros ->. destruct (Hput eq_refl) as [r Hx]. unfold view. rewrite Hx. f_equal. by apply Hrows.
    - intros i q b' Hv. unfold view in *.
      destruct (row_map h !! (i, FZN_RECORD_HELD_KEPT_STREAM, q)) as [r|] eqn:Ex.
      + assert (kept r) as Hkr by (apply tmap_lookup in Ex as [Ek _]; [|apply Hi]; unfold kept; unfold rkey_of in Ek; congruence).
        by rewrite (Hk _ _ Ex Hkr).
      + destruct (row_map h' !! (i, FZN_RECORD_HELD_KEPT_STREAM, q)) as [r|] eqn:Ex'.
        * f_equal. rewrite (Hrows _ _ _ _ Ex'). symmetry. by apply (iv_base _ Hi).
        * rewrite Eb. cbn. by rewrite Hc. }
  destruct (stuck h) eqn:Es.
  { specialize (Hhold (base_state h) true (fun _ _ _ => eq_refl)).
    assert (with_base h (base_state h) true = h) as E by (destruct h; cbn in Es; by subst). by rewrite E in Hhold. }
  destruct (rs_put base (base_state h) iss st seq b) as [[|] c] eqn:Ep;
    destruct (rb_put _ _ _ _ _ _ _ Ep) as [Hself Hoth].
  2: { apply Hhold. intros i t q. destruct (decide ((i, t, q) = (iss, st, seq))) as [[= -> -> ->]|]; [done|by apply Hoth]. }
  assert (held c iss st seq = Some b) as Hc.
  { destruct Hself as [?|[E Hn]]; [done|]. rewrite E. destruct (held (base_state h) iss st seq) as [b0|] eqn:E0; [|done].
    f_equal. by apply (iv_base _ Hi). }
  exists true, (with_base h c false). split; [done|]. change (listed (with_base h c false)) with (listed h).
  split_and!; [|done|lia| |].
  - split; [by apply with_base_ok, Hi|apply Hi|apply Hi|]. cbn. intros i t q x Hx.
    destruct (decide ((i, t, q) = (iss, st, seq))) as [[= -> -> ->]|]; [by simplify_eq|]. rewrite Hoth in Hx by done. by apply (iv_base _ Hi).
  - intros _. rewrite view_with_base.
    destruct (row_map h !! (iss, st, seq)) as [r|] eqn:Er; [f_equal; by apply (iv_rows _ Hi)|done].
  - intros i q x Hv. rewrite view_with_base. unfold view in Hv.
    destruct (row_map h !! _) as [r|]; [done|].
    destruct (decide ((i, FZN_RECORD_HELD_KEPT_STREAM, q) = (iss, st, seq))) as [E|]; [|by rewrite Hoth].
    injection E as -> <- ->. rewrite Hc. f_equal. symmetry. by apply (iv_base _ Hi).
Qed.

Lemma flush_spec n : forall h done_, inv h -> length (listed h) = n ->
  let r := flush_loop base n h done_ in let h' := snd r in
  inv h' /\ budget h' = budget h /\ total (listed h') <= total (listed h) /\
  (forall iss st seq, view h' iss st seq = view h iss st seq) /\
  (stuck h' = false -> listed h' = [] /\ fst r = done_ + Z.of_nat n).
Proof.
  induction n as [|n IH]; intros h d Hi Hn; cbn [flush_loop].
  { apply nil_length_inv in Hn. cbv zeta. cbn [fst snd]. change (listed (with_base h (base_state h) false)) with (listed h).
    split; [|split; [done|split; [lia|split; [done|intros _; split; [done|lia]]]]].
    split; [by apply with_base_ok, Hi|apply Hi|apply Hi|apply Hi]. }
  destruct (listed h) as [|r l] eqn:El; [done|].
  destruct (rs_put base (base_state h) _ _ _ _) as [ok c] eqn:Ep. destruct (rb_put _ _ _ _ _ _ _ Ep) as [Hself Hoth].
  assert (listed h !! 0%nat = Some r) as H0 by (by rewrite El).
  assert (row_map h !! rkey_of r = Some r) as Hr by (eapply tmap_at; [apply Hi|done]).
  pose proof (iv_rows _ Hi _ _ _ _ Hr) as Hcr. destruct ok.
  - set (h1 := with_base h c (stuck h)).
    assert (held_ok h1) as Hok1 by (apply with_base_ok, Hi).
    destruct (drop_effect h1 0 r Hok1 H0) as (Hok2 & Em & Hto & Hli & Hlen).
    assert (held c (row_issuer r) (row_stream r) (row_seq r) = Some (row_bytes r)) as Hc.
    { destruct Hself as [?|[E Hne]]; [done|]. rewrite E. destruct (held (base_state h) _ _ _) as [b0|] eqn:E0; [|done].
      f_equal. rewrite Hcr. by apply (iv_base _ Hi). }
    assert (forall i t q, view (drop_row h1 r) i t q = view h i t q) as Hview.
    { intros i t q. unfold view. rewrite Em. change (row_map h1) with (row_map h). change (base_state (drop_row h1 r)) with c.
      destruct (decide ((i, t, q) = rkey_of r)) as [E|Hne].
      - rewrite E, lookup_delete_eq, Hr. injection E as -> -> ->. exact Hc.
      - rewrite lookup_delete_ne by congruence. destruct (row_map h !! (i, t, q)); [reflexivity|by apply Hoth]. }
    assert (inv (drop_row h1 r)) as Hi1.
    { split; auto.
      - change (budget (drop_row h1 r)) with (budget h). pose proof (iv_light _ Hi). change (listed h1) with (listed h) in *. lia.
      - intros i t q x. rewrite Em. intros [_ Hx]%lookup_delete_Some. by apply (iv_rows _ Hi).
      - intros i t q x. change (base_state (drop_row h1 r)) with c.
        destruct (decide ((i, t, q) = rkey_of r)) as [[= -> -> ->]|]; [rewrite Hc; intros [= <-]; exact Hcr|].
        rewrite Hoth by done. by apply (iv_base _ Hi). }
    destruct (IH (drop_row h1 r) (d + 1) Hi1) as (I1 & I2 & I3 & I4 & I5).
    { rewrite Hlen. change (listed h1) with (listed h). rewrite El. cbn in *. lia. }
    cbv zeta. split; [exact I1|]. split; [exact I2|]. change (listed h1) with (listed h) in Hto. rewrite El in Hto.
    split; [lia|]. split; [intros; by rewrite I4|]. intros Hs. destruct (I5 Hs) as [? ->]. split; [done|lia].
  - cbv zeta. cbn [fst snd]. change (listed (with_base h c true)) with (listed h).
    split; [|split; [done|split; [rewrite El; lia|split; [|done]]]].
    + assert (forall i t q, held c i t q = held (base_state h) i t q) as Hc.
      { intros i t q. destruct (decide ((i, t, q) = rkey_of r)) as [[= -> -> ->]|]; [done|by apply Hoth]. }
      split; [by apply with_base_ok, Hi|apply Hi|apply Hi|]. cbn. intros i t q x. rewrite Hc. by apply (iv_base _ Hi).
    + intros i t q. rewrite view_with_base. unfold view. destruct (row_map h !! (i, t, q)); [reflexivity|].
      destruct (decide ((i, t, q) = rkey_of r)) as [[= -> -> ->]|]; [done|by apply Hoth].
Qed.

(** The rows of [walk] that a cut takes are gone, and no other. *)
Lemma cut_loop_spec iss st from below walk : forall h, inv h -> NoDup (rkey_of <$> walk) ->
  (forall r, r ∈ walk -> r ∈ listed h) ->
  let op := HeldCut iss st from below in
  let h' := cut_loop h walk iss st from below in
  inv h' /\ budget h' = budget h /\ base_state h' = base_state h /\ stuck h' = stuck h /\
  total (listed h') <= total (listed h) /\
  (forall i t q r, row_map h' !! (i, t, q) = Some r -> row_map h !! (i, t, q) = Some r) /\
  (forall i t q r, row_map h !! (i, t, q) = Some r -> cuts op i t q = false -> row_map h' !! (i, t, q) = Some r) /\
  (forall r, r ∈ walk -> cuts op (row_issuer r) (row_stream r) (row_seq r) = true -> row_map h' !! rkey_of r = None).
Proof.
  induction walk as [|r walk IH]; intros h Hi Hnd Hin; cbv zeta; cbn [cut_loop].
  { split; [done|]. split_and!; auto; [lia|]. intros r Hr. by apply not_elem_of_nil in Hr. }
  rewrite fmap_cons, list.NoDup_cons in Hnd. destruct Hnd as [Hr Hnd].
  assert (forall x, x ∈ walk -> x ∈ listed h) as Hin' by (intros; by apply Hin, elem_of_cons; right).
  fold (cuts (HeldCut iss st from below) (row_issuer r) (row_stream r) (row_seq r)).
  destruct (cuts _ (row_issuer r) _ _) eqn:Ec.
  2: { destruct (IH h Hi Hnd Hin') as (I1 & I2 & I3 & I4 & I5 & I6 & I7 & I8). split; [exact I1|]. split_and!; auto.
       intros x [->|Hx]%elem_of_cons; [congruence|by apply I8]. }
  assert (r ∈ listed h) as [i0 Hi0]%list_elem_of_lookup by (apply Hin; by apply elem_of_cons; left).
  destruct (drop_effect h i0 r (iv_ok _ Hi) Hi0) as (Hok & Em & Hto & Hli & _).
  destruct (drop_row_ok h i0 r (iv_ok _ Hi) Hi0) as (_ & El & _).
  assert (inv (drop_row h r)) as Hi1.
  { split; auto.
    - change (budget (drop_row h r)) with (budget h). pose proof (iv_light _ Hi). lia.
    - intros i t q x. rewrite Em. intros [_ Hx]%lookup_delete_Some. by apply (iv_rows _ Hi).
    - apply (iv_base _ Hi). }
  destruct (IH (drop_row h r) Hi1 Hnd) as (I1 & I2 & I3 & I4 & I5 & I6 & I7 & I8).
  { intros x Hx. specialize (Hin' x Hx). apply list_elem_of_lookup in Hin' as [j Hj]. rewrite El.
    assert (i0 <> j) as Hne.
    { intros ->. assert (x = r) as -> by congruence. apply Hr. by apply list_elem_of_fmap_2. }
    assert (x ∈ r :: delete i0 (listed h)) as Hx2 by (rewrite <- (delete_Permutation (listed h) i0 r Hi0); by eapply list_elem_of_lookup_2).
    apply elem_of_cons in Hx2 as [->|]; [|done]. exfalso. apply Hr. by apply list_elem_of_fmap_2. }
  split; [exact I1|]. split_and!; auto.
  - lia.
  - intros i t q x Hx. apply I6 in Hx. rewrite Em in Hx. by apply lookup_delete_Some in Hx as [_ ?].
  - intros i t q x Hx Hc. apply I7; [|done]. rewrite Em. apply lookup_delete_Some. split; [|done]. intros Ek.
    unfold rkey_of in Ek. injection Ek as <- <- <-. congruence.
  - intros x [->|Hx]%elem_of_cons; [|by apply I8]. intros _.
    destruct (row_map (cut_loop (drop_row h r) walk iss st from below) !! rkey_of r) as [y|] eqn:E; [|done].
    apply I6 in E. rewrite Em, lookup_delete_eq in E. done.
Qed.

Lemma cut_step h iss st from below : inv h ->
  let r := held_cut base h iss st from below in let h' := snd r in
  inv h' /\ budget h' = budget h /\ total (listed h') <= total (listed h) /\
  (forall i t q, cuts (HeldCut iss st from below) i t q = false -> view h' i t q = view h i t q) /\
  (fst r = true -> forall i t q, cuts (HeldCut iss st from below) i t q = true -> view h' i t q = None).
Proof.
  intros Hi. unfold held_cut.
  destruct (cut_loop_spec iss st from below (listed h) h Hi (ho_keys _ (iv_ok _ Hi)) (fun _ H => H))
    as (I1 & I2 & I3 & I4 & I5 & I6 & I7 & I8).
  set (h1 := cut_loop h (listed h) iss st from below) in *.
  assert (forall i t q, cuts (HeldCut iss st from below) i t q = false -> row_map h1 !! (i, t, q) = row_map h !! (i, t, q)) as Hsame.
  { intros i t q Hc. destruct (row_map h !! (i, t, q)) as [r|] eqn:E; [by apply I7|].
    destruct (row_map h1 !! (i, t, q)) as [r|] eqn:E1; [|done]. apply I6 in E1. congruence. }
  assert (forall i t q, cuts (HeldCut iss st from below) i t q = true -> row_map h1 !! (i, t, q) = None) as Hgone.
  { intros i t q Hc. destruct (row_map h1 !! (i, t, q)) as [r|] eqn:E1; [|done]. exfalso. pose proof E1 as E. apply I6 in E.
    apply tmap_lookup in E as [Ek Hin]; [|apply Hi]. injection Ek as <- <- <-. specialize (I8 r Hin Hc). unfold rkey_of in I8. congruence. }
  destruct (rs_cut base) as [cut|] eqn:Ecut; cbv zeta.
  - destruct (cut (base_state h1) iss st from below) as [ok c] eqn:Ep.
    pose proof (rb_cut cut _ _ _ _ _ _ _ Ecut Ep) as Hc. cbn [fst snd]. rewrite I3 in Hc.
    change (listed (with_base h1 c (stuck h1))) with (listed h1). split; [|split; [done|split; [done|split]]].
    + split; [by apply with_base_ok, I1|apply I1|apply I1|]. cbn. intros i t q x Hx. specialize (Hc i t q).
      destruct (_ && _); [destruct Hc as [_ [E|E]]; rewrite E in Hx; [done|]|rewrite Hc in Hx]; by apply (iv_base _ Hi).
    + intros i t q Hcut. rewrite view_with_base, Hsame by done. unfold view. destruct (row_map h !! (i, t, q)); [reflexivity|].
      specialize (Hc i t q). cbn in Hcut. by rewrite Hcut in Hc.
    + intros -> i t q Hcut. rewrite view_with_base, Hgone by done. specialize (Hc i t q). cbn in Hcut. rewrite Hcut in Hc. by apply Hc.
  - cbn [fst snd]. split; [done|]. split; [done|]. split; [done|]. split; [|done]. intros i t q Hcut. unfold view.
    by rewrite Hsame, I3.
Qed.

(** Any call keeps the invariant, and of the journal's stream takes only what
    a cut names. *)
Lemma step_spec h op : inv h -> op_fits op -> total (listed h) + op_size op <= SIZE_MAX ->
  exists h', run_held_op h op = Some h' /\ inv h' /\ budget h' = budget h /\
    total (listed h') <= total (listed h) + op_size op /\
    forall iss seq b, view h iss FZN_RECORD_HELD_KEPT_STREAM seq = Some b -> cuts op iss FZN_RECORD_HELD_KEPT_STREAM seq = false ->
      view h' iss FZN_RECORD_HELD_KEPT_STREAM seq = Some b.
Proof.
  intros Hi Hf Ht. destruct op as [iss st seq b|iss st from below|]; cbn [run_held_op op_size] in *.
  - cbn in Hf. subst b. destruct (put_step h iss st seq Hi Ht) as (ok & h' & -> & H1 & H2 & H3 & _ & H4). exists h'. split; [done|].
    split; [done|]. split_and!; auto.
  - destruct (cut_step h iss st from below Hi) as (H1 & H2 & H3 & H4 & _). eexists. split; [done|]. split; [done|].
    split; [done|]. split; [lia|]. intros i q b Hv Hc. by rewrite H4.
  - destruct (flush_spec _ h 0 Hi eq_refl) as (H1 & H2 & H3 & H4 & _). eexists. split; [done|].
    fold (fzn_record_held_flush base h) in *. split; [done|]. split; [done|]. split; [lia|]. intros i q b Hv _. by rewrite H4.
Qed.

Definition ops_size (ops : list held_op) : Z := foldr (fun op n => op_size op + n) 0 ops.

Lemma ops_size_nonneg ops : 0 <= ops_size ops.
Proof.
  unfold ops_size. induction ops as [|[iss st seq b| |] ops IH]; cbn; try lia. pose proof (zlen_nonneg b). lia.
Qed.

Lemma run_spec ops : forall h, inv h -> Forall op_fits ops -> total (listed h) + ops_size ops <= SIZE_MAX ->
  exists h', run_held h ops = Some h' /\ inv h' /\ budget h' = budget h /\ total (listed h') <= total (listed h) + ops_size ops /\
    forall iss seq b, view h iss FZN_RECORD_HELD_KEPT_STREAM seq = Some b ->
      Forall (fun op => cuts op iss FZN_RECORD_HELD_KEPT_STREAM seq = false) ops ->
      view h' iss FZN_RECORD_HELD_KEPT_STREAM seq = Some b.
Proof.
  induction ops as [|op ops IH]; intros h Hi Hf Ht; cbn [run_held].
  { exists h. split; [done|]. split; [done|]. split; [done|]. split; [cbn; lia|done]. }
  apply Forall_cons_iff in Hf as [Hf1 Hf]. change (ops_size (op :: ops)) with (op_size op + ops_size ops) in *.
  pose proof (ops_size_nonneg ops). destruct (step_spec h op Hi Hf1 ltac:(lia)) as (h1 & -> & H1 & H2 & H3 & H4).
  destruct (IH h1 H1 Hf ltac:(lia)) as (h' & -> & I1 & I2 & I3 & I4). exists h'. split; [done|]. split; [done|].
  split; [congruence|]. split; [lia|]. intros iss seq b Hv [Hc Hcs]%Forall_cons_iff. apply I4; [|done]. by apply H4.
Qed.

Lemma init_inv c b : 0 <= b -> (forall iss st seq x, held c iss st seq = Some x -> x = content iss st seq) ->
  inv (fzn_record_held_init c b).
Proof.
  intros Hb Hc. unfold fzn_record_held_init. split; [split|..]; cbn [listed buckets rows held_bytes budget].
  - apply NoDup_nil_2.
  - by rewrite length_replicate.
  - intros i. unfold chain_at. cbn [buckets]. rewrite list.nth_lookup. destruct (replicate _ _ !! i) as [l|] eqn:E; [|done].
    apply lookup_replicate in E as [-> _]. done.
  - done.
  - done.
  - change (light []) with 0. destruct (negb _); [done|]. unfold FZN_RECORD_HELD_BUDGET_DEFAULT. lia.
  - intros iss st seq r Hr. change (row_map _) with (∅ : gmap rkey held_row) in Hr. by apply lookup_empty_Some in Hr.
  - exact Hc.
Qed.
End Life.

(** C32: a store that stops taking records loses none of the journal's. Over a
    backend that refuses whatever it likes whenever it likes, and an allocator
    that fails as it likes, any history of puts, cuts and flushes ends (no
    loop runs on), and after it: a read finds nothing but the record of its
    address; a record of the journal's own stream that could be read before
    can be read after any further calls until a cut takes it, wherever it is
    kept; a record that was accepted can be read; a flush changes no read, and
    one that ends unstuck has written back every row; and the rows that may go
    are never more bytes than the budget. *)
Theorem held_records_survive {C : Type} (ops : fzn_record_store_ops C) held `{!RefusingBackend ops held} alloc content c b before after :
  0 <= b -> (forall iss st seq x, held c iss st seq = Some x -> x = content iss st seq) ->
  Forall (op_fits content) (before ++ after) -> ops_size (before ++ after) <= SIZE_MAX ->
  exists h1 h2, run_held ops alloc (fzn_record_held_init c b) before = Some h1 /\ run_held ops alloc h1 after = Some h2 /\
    (forall iss st seq x, view held h2 iss st seq = Some x -> x = content iss st seq) /\
    (forall iss seq x cap, view held h1 iss FZN_RECORD_HELD_KEPT_STREAM seq = Some x ->
       Forall (fun op => cuts op iss FZN_RECORD_HELD_KEPT_STREAM seq = false) after -> zlen x <= cap ->
       held_get ops h2 iss FZN_RECORD_HELD_KEPT_STREAM seq cap = (Some x, true)) /\
    (forall iss st seq, ops_size (before ++ after) + zlen (content iss st seq) <= SIZE_MAX ->
       exists ok h3, held_put ops alloc h2 iss st seq (content iss st seq) = Some (ok, h3) /\
         (ok = true -> view held h3 iss st seq = Some (content iss st seq))) /\
    (let '(n, h3) := fzn_record_held_flush ops h2 in
     (forall iss st seq, view held h3 iss st seq = view held h2 iss st seq) /\
     (stuck h3 = false -> listed h3 = [] /\ n = zlen (listed h2))) /\
    light (listed h2) <= (if b =? 0 then FZN_RECORD_HELD_BUDGET_DEFAULT else b).
Proof.
  intros Hb Hc [Hf1 Hf2]%Forall_app Hs.
  assert (ops_size (before ++ after) = ops_size before + ops_size after) as Es.
  { clear. unfold ops_size. induction before as [|op l IH]; cbn; [done|]. lia. }
  rewrite Es in *. pose proof (ops_size_nonneg before). pose proof (ops_size_nonneg after).
  pose proof (init_inv held content c b Hb Hc) as Hi0.
  destruct (run_spec ops held alloc content before _ Hi0 Hf1) as (h1 & E1 & Hi1 & Hb1 & Ht1 & _); [change (total (listed (fzn_record_held_init c b))) with 0; lia|].
  change (total (listed (fzn_record_held_init c b))) with 0 in Ht1.
  destruct (run_spec ops held alloc content after h1 Hi1 Hf2) as (h2 & E2 & Hi2 & Hb2 & Ht2 & Hkeep); [lia|].
  exists h1, h2. split; [done|]. split; [done|]. split; [|split; [|split; [|split]]].
  - intros iss st seq x. by apply view_content.
  - intros iss seq x cap Hv Hcut Hcap. eapply view_get; eauto.
  - intros iss st seq Hroom. destruct (put_step ops held alloc content h2 iss st seq Hi2) as (ok & h3 & E3 & _ & _ & _ & Hok & _); [lia|].
    exists ok, h3. split; [done|]. done.
  - destruct (flush_spec ops held content _ h2 0 Hi2 eq_refl) as (_ & _ & _ & Hv & Hn). unfold fzn_record_held_flush.
    destruct (flush_loop ops (length (listed h2)) h2 0) as [n h3]. cbn [fst snd] in *. split; [done|]. intros Hst.
    destruct (Hn Hst) as [? ->]. split; [done|]. unfold zlen. lia.
  - pose proof (iv_light _ _ _ Hi2) as Hl. rewrite Hb2, Hb1 in Hl. unfold fzn_record_held_init in Hl. cbn [budget] in Hl.
    by destruct (b =? 0).
Qed.

(** A backend that refuses when its script says so. *)
Definition moody : Type := gmap rkey bytes * list bool.

Definition moody_put (c : moody) (iss : bytes) (st seq : Z) (b : bytes) : bool * moody :=
  match snd c with
  | true :: more => (false, (fst c, more))
  | _ => (true, (<[(iss, st, seq) := b]> (fst c), tail (snd c)))
  end.

Definition moody_get (c : moody) (iss : bytes) (st seq cap : Z) : option bytes * bool :=
  match fst c !! (iss, st, seq) with
  | Some b => if zlen b <=? cap then (Some b, true) else (None, true)
  | None => (None, false)
  end.

Definition moody_ops : fzn_record_store_ops moody := mk_rstore moody moody_put moody_get None.

#[local] Instance moody_backend : RefusingBackend moody_ops (fun c iss st seq => fst c !! (iss, st, seq)).
Proof.
  split; [done| |done]. intros c iss st seq b ok c' E.
  assert (ok = false /\ fst c' = fst c \/ ok = true /\ fst c' = <[(iss, st, seq) := b]> (fst c)) as [[-> ->]|[-> ->]].
  { cbn in E. unfold moody_put in E. destruct (snd c) as [|[|] more]; injection E as <- <-; auto. }
  - done.
  - split; [left; apply lookup_insert_eq|]. intros iss' st' seq' Hne. apply lookup_insert_ne. congruence.
Qed.

(** Three puts that the backend refuses at first, a cut between, and a flush. *)
Lemma held_records_survive_witness :
  let put st seq := HeldPut [1] st seq [st; seq] in
  exists h1 h2,
    run_held moody_ops (fun _ => true) (fzn_record_held_init (∅, [true]) 4) [put 1 1; put 2 1] = Some h1 /\
    run_held moody_ops (fun _ => true) h1 [put 2 2; put 2 3; HeldCut [1] 2 2 3; HeldFlush] = Some h2 /\
    held_get moody_ops h2 [1] 1 1 10 = (Some [1; 1], true).
Proof.
  intros put.
  destruct (held_records_survive moody_ops (fun c iss st seq => fst c !! (iss, st, seq)) (fun _ => true)
    (fun _ st seq => [st; seq]) (∅, [true]) 4 [put 1 1; put 2 1] [put 2 2; put 2 3; HeldCut [1] 2 2 3; HeldFlush])
    as (h1 & h2 & E1 & E2 & _ & Hget & _).
  - lia.
  - intros iss st seq x Hx. discriminate Hx.
  - repeat constructor.
  - vm_compute. discriminate.
  - exists h1, h2. split; [exact E1|]. split; [exact E2|]. apply (Hget [1] 1 [1; 1] 10).
    + revert E1. vm_compute. intros [= <-]. vm_compute. reflexivity.
    + repeat constructor.
    + vm_compute. discriminate.
Defined.
