(* ===== verification/Exchange.v ===== *)
(** * record/exchange.c: the journal between two hosts

    One host answers queries from its journal and its store; the other pulls,
    a state machine that is handed each answer and writes the next request,
    or pushes. A message is its bytes; an answer is the bytes written to the
    reply buffer, all of which are written, empty for a zero result. The host
    is its journal and the state of its record store. NULL arguments are
    refused before anything is read. *)

From stdpp Require Import gmap fin_maps.
From S2P Require Import Prelude Bytes Hop Revocation Chain Records Journal Sync RecordStore.

Definition FZN_EXCHANGE_VERSION : Z := 5.
Definition FZN_EXCHANGE_DIGEST_QUERY : Z := 1.
Definition FZN_EXCHANGE_DIGEST : Z := 2.
Definition FZN_EXCHANGE_RECORDS_QUERY : Z := 3.
Definition FZN_EXCHANGE_RECORDS : Z := 4.
Definition FZN_EXCHANGE_PUSH : Z := 5.
Definition FZN_EXCHANGE_PUSHED : Z := 6.
Definition FZN_EXCHANGE_DIGEST_QUERY_LEN : Z := 4.
Definition FZN_EXCHANGE_POSITION_LEN : Z := 44.
Definition FZN_EXCHANGE_DIGEST_HEAD_LEN : Z := 8.
Definition FZN_EXCHANGE_RECORDS_QUERY_LEN : Z := 48.
Definition FZN_EXCHANGE_RECORDS_HEAD_LEN : Z := 4.
Definition FZN_EXCHANGE_PUSH_HEAD_LEN : Z := 4.
Definition FZN_EXCHANGE_PUSHED_LEN : Z := 10.
Definition FZN_EXCHANGE_REPLY_MIN : Z := FZN_EXCHANGE_RECORDS_HEAD_LEN + 2 + FZN_RECORD_MAX_LEN.
Definition FZN_EXCHANGE_MISSED_MAX : Z := 8.

Inductive fzn_exchange_err :=
| FZN_EXCHANGE_OK | FZN_EXCHANGE_ERR_MALFORMED | FZN_EXCHANGE_ERR_NO_ANSWER | FZN_EXCHANGE_ERR_SHAPE
| FZN_EXCHANGE_ERR_STORE.

#[export] Instance fzn_exchange_err_eq_dec : EqDecision fzn_exchange_err.
Proof. solve_decision. Defined.

Record fzn_exchange_tally := mk_tally {
  t_positions : Z; t_requested : Z; t_learned : Z; t_refused : Z; t_forks : Z; t_missing : Z;
  t_missed : list (bytes * Z)
}.

Record fzn_exchange_push_tally := mk_push_tally {
  pt_positions : Z; pt_offered : Z; pt_taken : Z; pt_held : Z; pt_refused : Z; pt_forks : Z
}.

(** The positions read so far are the first [d_n] of the array. *)
Record fzn_exchange_digest := mk_digest { d_n : Z; d_total : Z; d_pages : Z; d_theirs : list fzn_sync_position }.

Definition is_msg (m : bytes) (type : Z) : bool :=
  (zlen m >=? 2) && (peek m 0 =? FZN_EXCHANGE_VERSION) && (peek m 1 =? type).

(** ** The server *)

Definition position_bytes (p : fzn_sync_position) : bytes := p_issuer p ++ be32 (p_stream p) ++ be64 (p_received p).

(** The loop of [answer_digest] over the positions from [from] on: [i - from]
    written so far. *)
Fixpoint page_loop (held : list fzn_sync_position) (room written : Z) : bytes * Z :=
  match held with
  | [] => ([], written)
  | p :: held =>
    if written <? room
    then let '(rest, n) := page_loop held room (written + 1) in (position_bytes p ++ rest, n)
    else ([], written)
  end.

Definition answer_digest (j : fzn_journal) (request : bytes) (reply_cap : Z) : bytes :=
  if negb (zlen request =? FZN_EXCHANGE_DIGEST_QUERY_LEN) || (reply_cap <? FZN_EXCHANGE_DIGEST_HEAD_LEN) then []
  else
    let held := fst (fzn_sync_digest j FZN_SYNC_MAX_POSITIONS) in
    let total := zlen held in
    let from := fzn_get_be16 request 2 in
    let from := if from >? total then total else from in
    let room := (reply_cap - FZN_EXCHANGE_DIGEST_HEAD_LEN) / FZN_EXCHANGE_POSITION_LEN in
    let '(page, n) := page_loop (drop (Z.to_nat from) held) room 0 in
    [FZN_EXCHANGE_VERSION; FZN_EXCHANGE_DIGEST] ++ be16 (u16 total) ++ be16 (u16 from) ++ be16 (u16 n) ++ page.

Section Exchange.
Context {C : Type} (ops : fzn_record_store_ops C).

(** The loop of [answer_records] from [seq] on, [n] turns at most ([max] is a
    16-bit count): [at_] bytes of the reply are taken. *)
Fixpoint records_loop (c : C) (issuer : bytes) (stream : Z) (n : nat) (seq last at_ reply_cap count max : Z)
    : bytes * Z :=
  match n with
  | O => ([], count)
  | S n =>
    if (seq <=? last) && (count <? max) && (count <? 65535) then
      match fzn_record_store_get ops c issuer stream seq FZN_RECORD_MAX_LEN with
      | (FZN_RECORD_STORE_OK, Some rec) =>
        if reply_cap - at_ <? 2 + zlen rec then ([], count)
        else
          let '(rest, count) := records_loop c issuer stream n (u64 (seq + 1)) last (at_ + 2 + zlen rec) reply_cap
                                  (count + 1) max in
          (be16 (u16 (zlen rec)) ++ rec ++ rest, count)
      | _ => ([], count)
      end
    else ([], count)
  end.

Definition answer_records (j : fzn_journal) (c : C) (request : bytes) (reply_cap : Z) : bytes :=
  if negb (zlen request =? FZN_EXCHANGE_RECORDS_QUERY_LEN) || (reply_cap <? FZN_EXCHANGE_RECORDS_HEAD_LEN) then []
  else
    let issuer := slice 2 FZN_PUBKEY_LEN request in
    let stream := fzn_get_be32 request 34 in
    let from := fzn_get_be64 request 38 in
    let max := fzn_get_be16 request 46 in
    if (from =? 0) || (max =? 0) then []
    else
      let last := u64 (fzn_journal_next j issuer stream - 1) in
      let '(page, count) := records_loop c issuer stream (Z.to_nat max) from last FZN_EXCHANGE_RECORDS_HEAD_LEN
                              reply_cap 0 max in
      [FZN_EXCHANGE_VERSION; FZN_EXCHANGE_RECORDS] ++ be16 (u16 count) ++ page.

Definition fzn_exchange_answer (j : fzn_journal) (c : C) (request : bytes) (reply_cap : Z) : bytes :=
  if is_msg request FZN_EXCHANGE_DIGEST_QUERY then answer_digest j request reply_cap
  else if is_msg request FZN_EXCHANGE_RECORDS_QUERY then answer_records j c request reply_cap
  else [].

(** ** The client *)

(** What a host takes records into. *)
Record host := mk_host { h_journal : fzn_journal; h_store : C }.

(** [None] for the verifier or for the hash is a NULL operation; both have
    been checked before a record is taken. *)
Context (sign_ : fzn_sign_ops) (hash : fzn_hash_ops).

(** What is left of a range: [*next] and [*left]. *)
Record paging := mk_paging { pg_next : Z; pg_left : Z }.

Definition count_refused (t : fzn_exchange_tally) : fzn_exchange_tally :=
  mk_tally (t_positions t) (t_requested t) (t_learned t) (t_refused t + 1) (t_forks t) (t_missing t) (t_missed t).
Definition count_learned (t : fzn_exchange_tally) : fzn_exchange_tally :=
  mk_tally (t_positions t) (t_requested t) (t_learned t + 1) (t_refused t) (t_forks t) (t_missing t) (t_missed t).
Definition count_fork (t : fzn_exchange_tally) : fzn_exchange_tally :=
  mk_tally (t_positions t) (t_requested t) (t_learned t) (t_refused t) (t_forks t + 1) (t_missing t) (t_missed t).
Definition count_missing (t : fzn_exchange_tally) (want : fzn_sync_request) : fzn_exchange_tally :=
  mk_tally (t_positions t) (t_requested t) (t_learned t) (t_refused t) (t_forks t) (t_missing t + 1)
    (if t_missing t <? FZN_EXCHANGE_MISSED_MAX then t_missed t ++ [(q_issuer want, q_stream want)] else t_missed t).

(** The record a reply carries at [at_], if it is exactly [next] of the stream
    asked about and signed by its issuer, with its id. *)
Definition next_record (want : fzn_sync_request) (b : bytes) (next : Z) : option (bytes * bytes) :=
  match fzn_record_open (Some b) with
  | (FZN_RECORD_OK, Some rec) =>
    if negb (memeq (fzn_record_issuer rec) (q_issuer want)) || negb (fzn_record_stream rec =? q_stream want)
       || negb (fzn_record_seq rec =? next)
    then None
    else match fzn_record_verify (Some rec) (Some sign_) with
    | FZN_RECORD_OK =>
      match hash FZN_RECORD_ID_LEN rec with None => None | Some id => Some (rec, id) end
    | _ => None
    end
  | _ => None
  end.

(** The loop of [take_records], [n] records to go: whether to ask again, and
    what it leaves. *)
Fixpoint take_loop (n : nat) (want : fzn_sync_request) (reply : bytes) (at_ : Z) (h : host) (pg : paging)
    (tally : fzn_exchange_tally) : bool * fzn_exchange_err * host * paging * fzn_exchange_tally :=
  match n with
  | O => (true, FZN_EXCHANGE_OK, h, pg, tally)
  | S n =>
    if zlen reply - at_ <? 2 then (false, FZN_EXCHANGE_ERR_SHAPE, h, pg, tally)
    else
      let len := fzn_get_be16 reply at_ in
      if zlen reply - at_ - 2 <? len then (false, FZN_EXCHANGE_ERR_SHAPE, h, pg, tally)
      else match next_record want (slice (at_ + 2) len reply) (pg_next pg) with
      | None => (false, FZN_EXCHANGE_OK, h, pg, count_refused tally)
      | Some (rec, id) =>
        let at_ := at_ + 2 + len in
        let pg' := mk_paging (u64 (pg_next pg + 1)) (u64 (pg_left pg - 1)) in
        match fzn_journal_admit_chained (h_journal h) (q_issuer want) (q_stream want) (pg_next pg)
                (fzn_record_prev rec) id with
        | (FZN_JOURNAL_ERR_FORK, j) => (false, FZN_EXCHANGE_OK, mk_host j (h_store h), pg, count_fork tally)
        | (FZN_JOURNAL_OK, j) =>
          match fzn_record_store_put ops (h_store h) (Some rec) with
          | (FZN_RECORD_STORE_OK, c) =>
            let h := mk_host j c in
            if pg_left pg' =? 0 then (false, FZN_EXCHANGE_OK, h, pg', count_learned tally)
            else take_loop n want reply at_ h pg' (count_learned tally)
          | (_, c) => (false, FZN_EXCHANGE_ERR_STORE, mk_host j c, pg, tally)
          end
        | (FZN_JOURNAL_ERR_DUPLICATE, j) =>
          let h := mk_host j (h_store h) in
          if pg_left pg' =? 0 then (false, FZN_EXCHANGE_OK, h, pg', tally)
          else take_loop n want reply at_ h pg' tally
        | (_, j) => (false, FZN_EXCHANGE_OK, mk_host j (h_store h), pg, count_refused tally)
        end
      end
  end.

Definition take_records (want : fzn_sync_request) (reply : bytes) (h : host) (pg : paging) (tally : fzn_exchange_tally)
    : bool * fzn_exchange_err * host * paging * fzn_exchange_tally :=
  if negb (is_msg reply FZN_EXCHANGE_RECORDS) || (zlen reply <? FZN_EXCHANGE_RECORDS_HEAD_LEN)
  then (false, FZN_EXCHANGE_ERR_SHAPE, h, pg, tally)
  else
    let count := fzn_get_be16 reply 2 in
    if count =? 0 then (false, FZN_EXCHANGE_OK, h, pg, count_missing tally want)
    else take_loop (Z.to_nat count) want reply FZN_EXCHANGE_RECORDS_HEAD_LEN h pg tally.

(** ** The digest, paged *)

Definition digest_query (d : fzn_exchange_digest) : bytes :=
  [FZN_EXCHANGE_VERSION; FZN_EXCHANGE_DIGEST_QUERY] ++ be16 (u16 (d_n d)).

(** The digest cleared, and the query for its first page. *)
Definition digest_begin : fzn_exchange_digest * bytes :=
  let d := mk_digest 0 0 0 [] in (d, digest_query d).

(** The loop of [digest_take] over the [n] positions of a page from [at_]. *)
Fixpoint positions_loop (n : nat) (reply : bytes) (at_ : Z) (d : fzn_exchange_digest) : fzn_exchange_digest :=
  match n with
  | O => d
  | S n =>
    if d_n d <? FZN_SYNC_MAX_POSITIONS then
      positions_loop n reply (at_ + FZN_EXCHANGE_POSITION_LEN)
        (mk_digest (d_n d + 1) (d_total d) (d_pages d)
           (d_theirs d ++ [mk_pos (slice at_ FZN_PUBKEY_LEN reply) (fzn_get_be32 reply (at_ + 32))
                             (fzn_get_be64 reply (at_ + 36))]))
    else d
  end.

(** The answer of [digest_take], [None] for -1, [Some None] for 0 and the next
    page's query for 1; and the digest it leaves. *)
Definition digest_take (d : fzn_exchange_digest) (reply : bytes) : option (option bytes) * fzn_exchange_digest :=
  if negb (is_msg reply FZN_EXCHANGE_DIGEST) || (zlen reply <? FZN_EXCHANGE_DIGEST_HEAD_LEN) then (None, d)
  else
    let d := mk_digest (d_n d) (fzn_get_be16 reply 2) (d_pages d) (d_theirs d) in
    let count := fzn_get_be16 reply 6 in
    if negb (fzn_get_be16 reply 4 =? d_n d)
       || negb (zlen reply =? FZN_EXCHANGE_DIGEST_HEAD_LEN + count * FZN_EXCHANGE_POSITION_LEN)
       || (count >? u64 (d_total d - d_n d)) || ((count =? 0) && (d_n d <? d_total d))
    then (None, d)
    else
      let d := positions_loop (Z.to_nat count) reply FZN_EXCHANGE_DIGEST_HEAD_LEN d in
      if (d_n d <? d_total d) && (d_n d <? FZN_SYNC_MAX_POSITIONS) then
        let d := mk_digest (d_n d) (d_total d) (d_pages d + 1) (d_theirs d) in
        (Some (if d_pages d <=? FZN_SYNC_MAX_POSITIONS then Some (digest_query d) else None), d)
      else (Some None, d).

(** ** The pull *)

Inductive pull_phase := PULL_DIGEST | PULL_RECORDS | PULL_DONE.

(** What [fzn_exchange_pulling] holds besides the pointers it was given. *)
Record fzn_exchange_pulling := mk_pulling {
  pl_max_per_request : Z;
  pl_phase : pull_phase;
  pl_digest : fzn_exchange_digest;
  pl_plan_out : list fzn_sync_request;
  pl_plan : fzn_sync_plan;
  pl_want : Z;
  pl_paging : paging;
  pl_tally : fzn_exchange_tally
}.

Definition no_request : fzn_sync_request := mk_req [] 0 0 0.
(** [p->plan_out[p->want]] *)
Definition wanted_at (p : fzn_exchange_pulling) : fzn_sync_request := nth (Z.to_nat (pl_want p)) (pl_plan_out p) no_request.

Definition records_query (p : fzn_exchange_pulling) : bytes :=
  let want := wanted_at p in
  let left := pg_left (pl_paging p) in
  [FZN_EXCHANGE_VERSION; FZN_EXCHANGE_RECORDS_QUERY] ++ q_issuer want ++ be32 (q_stream want)
    ++ be64 (pg_next (pl_paging p)) ++ be16 (u16 (if left >? 65535 then 65535 else left)).

Definition with_phase (p : fzn_exchange_pulling) (phase : pull_phase) : fzn_exchange_pulling :=
  mk_pulling (pl_max_per_request p) phase (pl_digest p) (pl_plan_out p) (pl_plan p) (pl_want p) (pl_paging p) (pl_tally p).
Definition with_want (p : fzn_exchange_pulling) (want : Z) (pg : paging) : fzn_exchange_pulling :=
  mk_pulling (pl_max_per_request p) (pl_phase p) (pl_digest p) (pl_plan_out p) (pl_plan p) want pg (pl_tally p).

(** The next request with anything to page, [n] requests left to look at;
    [None] is [*done]. *)
Fixpoint next_want (n : nat) (p : fzn_exchange_pulling) : option bytes * fzn_exchange_pulling :=
  match n with
  | O => (None, with_phase p PULL_DONE)
  | S n =>
    let q := wanted_at p in
    let p := with_want p (pl_want p) (mk_paging (q_from q) (q_count q)) in
    if negb (pg_left (pl_paging p) =? 0) then (Some (records_query p), p)
    else next_want n (with_want p (pl_want p + 1) (pl_paging p))
  end.

(** [p->plan.request_count - p->want] *)
Definition wants_left (p : fzn_exchange_pulling) : nat := Z.to_nat (request_count (pl_plan p) - pl_want p).

Definition zero_tally : fzn_exchange_tally := mk_tally 0 0 0 0 0 0 [].

(** [p] is what the struct held; [cap] the room for a request. *)
Definition fzn_exchange_pull_begin (p : fzn_exchange_pulling) (max_per_request cap : Z)
    : fzn_exchange_err * fzn_exchange_pulling * bytes :=
  if (cap <? FZN_EXCHANGE_RECORDS_QUERY_LEN) || (max_per_request =? 0) || negb (if verify sign_ is Some _ then true else false)
  then (FZN_EXCHANGE_ERR_MALFORMED, p, [])
  else
    let '(d, request) := digest_begin in
    (FZN_EXCHANGE_OK,
     mk_pulling max_per_request PULL_DIGEST d (pl_plan_out p) (pl_plan p) 0 (pl_paging p) zero_tally, request).

(** What a step answers: the next request, or [*done]. *)
Inductive step_out := Ask (request : bytes) | Done | Failed (err : fzn_exchange_err).

Definition asked (r : option bytes) : step_out := match r with Some request => Ask request | None => Done end.

(** The digest read: the plan made, and its first request. *)
Definition plan_pull (p : fzn_exchange_pulling) (h : host) : step_out * fzn_exchange_pulling :=
  let t := pl_tally p in
  let n := d_n (pl_digest p) in
  let tally := mk_tally n (t_requested t) (t_learned t) (t_refused t) (t_forks t) (t_missing t) (t_missed t) in
  match fzn_sync_plan_fetch (h_journal h) (d_theirs (pl_digest p)) (pl_max_per_request p) FZN_SYNC_MAX_POSITIONS with
  | (FZN_SYNC_OK, out, plan) =>
    let tally := mk_tally n (request_count plan) (t_learned t) (t_refused t) (t_forks t) (t_missing t) (t_missed t) in
    let p := mk_pulling (pl_max_per_request p) PULL_RECORDS (pl_digest p) out plan 0 (pl_paging p) tally in
    let '(r, p) := next_want (wants_left p) p in (asked r, p)
  | (_, _, plan) =>
    (Failed FZN_EXCHANGE_ERR_MALFORMED,
     mk_pulling (pl_max_per_request p) PULL_DONE (pl_digest p) (pl_plan_out p) plan (pl_want p) (pl_paging p) tally)
  end.

(** An answer to a records query taken: the same request paged on, or the next. *)
Definition page_pull (p : fzn_exchange_pulling) (h : host) (reply : bytes) : step_out * fzn_exchange_pulling * host :=
  let '(more, err, h, pg, tally) := take_records (wanted_at p) reply h (pl_paging p) (pl_tally p) in
  let p := mk_pulling (pl_max_per_request p) (pl_phase p) (pl_digest p) (pl_plan_out p) (pl_plan p) (pl_want p) pg tally in
  if more && negb (pg_left pg =? 0) then (Ask (records_query p), p, h)
  else match err with
  | FZN_EXCHANGE_OK =>
    let p := with_want p (pl_want p + 1) pg in
    let '(r, p) := next_want (wants_left p) p in (asked r, p, h)
  | err => (Failed err, with_phase p PULL_DONE, h)
  end.

(** [None] for the reply is no answer. *)
Definition fzn_exchange_pull_step (p : fzn_exchange_pulling) (h : host) (reply : option bytes) (cap : Z)
    : step_out * fzn_exchange_pulling * host :=
  if cap <? FZN_EXCHANGE_RECORDS_QUERY_LEN then (Failed FZN_EXCHANGE_ERR_MALFORMED, p, h)
  else match pl_phase p with
  | PULL_DONE => (Failed FZN_EXCHANGE_ERR_MALFORMED, p, h)
  | phase =>
    match reply with
    | None => (Failed FZN_EXCHANGE_ERR_NO_ANSWER, with_phase p PULL_DONE, h)
    | Some reply =>
      match phase with
      | PULL_DIGEST =>
        let '(r, d) := digest_take (pl_digest p) reply in
        let p := mk_pulling (pl_max_per_request p) (pl_phase p) d (pl_plan_out p) (pl_plan p) (pl_want p) (pl_paging p) (pl_tally p) in
        match r with
        | None => (Failed FZN_EXCHANGE_ERR_SHAPE, with_phase p PULL_DONE, h)
        | Some (Some request) => (Ask request, p, h)
        | Some None => let '(o, p) := plan_pull p h in (o, p, h)
        end
      | _ => page_pull p h reply
      end
    end
  end.

(** The peer: its state, and what it answers a request in a buffer of a size. *)
Context {W : Type} (ask : W -> bytes -> Z -> option bytes * W).

(** The loop of [fzn_exchange_pull], [n] requests at most; [None] when that
    many have been made. *)
Fixpoint pull_loop (n : nat) (w : W) (p : fzn_exchange_pulling) (h : host) (request : bytes) (reply_cap : Z)
    : option (fzn_exchange_err * fzn_exchange_pulling * host * W) :=
  match n with
  | O => None
  | S n =>
    let '(reply, w) := ask w request reply_cap in
    match fzn_exchange_pull_step p h reply FZN_EXCHANGE_RECORDS_QUERY_LEN with
    | (Ask request, p, h) => pull_loop n w p h request reply_cap
    | (Done, p, h) => Some (FZN_EXCHANGE_OK, p, h, w)
    | (Failed err, p, h) => Some (err, p, h, w)
    end
  end.

(** The error, the tally, and the host and the peer as they are left. *)
Definition fzn_exchange_pull (n : nat) (w : W) (p : fzn_exchange_pulling) (h : host) (max_per_request reply_cap : Z)
    : option (fzn_exchange_err * option fzn_exchange_tally * host * W) :=
  if reply_cap <? FZN_EXCHANGE_REPLY_MIN then Some (FZN_EXCHANGE_ERR_MALFORMED, None, h, w)
  else match fzn_exchange_pull_begin p max_per_request FZN_EXCHANGE_RECORDS_QUERY_LEN with
  | (FZN_EXCHANGE_OK, p, request) =>
    match pull_loop n w p h request reply_cap with
    | Some (err, p, h, w) => Some (err, Some (pl_tally p), h, w)
    | None => None
    end
  | (err, p, _) => Some (err, Some zero_tally, h, w)
  end.

(** ** The push *)

(** Counts of a [PUSHED] message. *)
Record pushed := mk_pushed { pu_taken : Z; pu_held : Z; pu_refused : Z; pu_forks : Z }.

Definition pushed_bytes (n : pushed) : bytes :=
  [FZN_EXCHANGE_VERSION; FZN_EXCHANGE_PUSHED] ++ be16 (u16 (pu_taken n)) ++ be16 (u16 (pu_held n))
    ++ be16 (u16 (pu_refused n)) ++ be16 (u16 (pu_forks n)).

(** The record a push carries at [at_], its length and its id. *)
Definition pushed_record (request : bytes) (at_ : Z) : option (bytes * Z * bytes) :=
  if zlen request - at_ <? 2 then None
  else
    let len := fzn_get_be16 request at_ in
    if zlen request - at_ - 2 <? len then None
    else match fzn_record_open (Some (slice (at_ + 2) len request)) with
    | (FZN_RECORD_OK, Some rec) =>
      match fzn_record_verify (Some rec) (Some sign_) with
      | FZN_RECORD_OK => (fun id => (rec, len, id)) <$> hash FZN_RECORD_ID_LEN rec
      | _ => None
      end
    | _ => None
    end.

Fixpoint push_loop (n : nat) (request : bytes) (at_ : Z) (h : host) (k : pushed) : pushed * host :=
  match n with
  | O => (k, h)
  | S n =>
    match pushed_record request at_ with
    | None => (mk_pushed (pu_taken k) (pu_held k) (pu_refused k + 1) (pu_forks k), h)
    | Some (rec, len, id) =>
      let at_ := at_ + 2 + len in
      let issuer := fzn_record_issuer rec in
      let stream := fzn_record_stream rec in
      let seq := fzn_record_seq rec in
      if seq <? fzn_journal_next (h_journal h) issuer stream
      then push_loop n request at_ h (mk_pushed (pu_taken k) (pu_held k + 1) (pu_refused k) (pu_forks k))
      else match fzn_journal_admit_chained (h_journal h) issuer stream seq (fzn_record_prev rec) id with
      | (FZN_JOURNAL_ERR_FORK, j) =>
        (mk_pushed (pu_taken k) (pu_held k) (pu_refused k) (pu_forks k + 1), mk_host j (h_store h))
      | (FZN_JOURNAL_ERR_DUPLICATE, j) =>
        push_loop n request at_ (mk_host j (h_store h)) (mk_pushed (pu_taken k) (pu_held k + 1) (pu_refused k) (pu_forks k))
      | (FZN_JOURNAL_OK, j) =>
        match fzn_record_store_put ops (h_store h) (Some rec) with
        | (FZN_RECORD_STORE_OK, c) =>
          push_loop n request at_ (mk_host j c) (mk_pushed (pu_taken k + 1) (pu_held k) (pu_refused k) (pu_forks k))
        | (_, c) => (mk_pushed (pu_taken k) (pu_held k) (pu_refused k + 1) (pu_forks k), mk_host j c)
        end
      | (_, j) => (mk_pushed (pu_taken k) (pu_held k) (pu_refused k + 1) (pu_forks k), mk_host j (h_store h))
      end
    end
  end.

Definition fzn_exchange_take_push (h : host) (request : bytes) (reply_cap : Z) : bytes * host :=
  if negb (if verify sign_ is Some _ then true else false) || negb (is_msg request FZN_EXCHANGE_PUSH)
     || (zlen request <? FZN_EXCHANGE_PUSH_HEAD_LEN) || (reply_cap <? FZN_EXCHANGE_PUSHED_LEN)
  then ([], h)
  else
    let '(k, h) := push_loop (Z.to_nat (fzn_get_be16 request 2)) request FZN_EXCHANGE_PUSH_HEAD_LEN h (mk_pushed 0 0 0 0) in
    (pushed_bytes k, h).

Inductive push_phase := PUSH_DIGEST | PUSH_OFFERS | PUSH_DONE.

Record fzn_exchange_pushing := mk_pushing {
  ps_phase : push_phase;
  ps_digest : fzn_exchange_digest;
  ps_at : Z;
  ps_seq : Z;
  ps_mine : Z;
  ps_tally : fzn_exchange_push_tally
}.

Definition no_position : fzn_sync_position := mk_pos [] 0 0.
(** [p->digest.theirs[p->at]] *)
Definition offered_to (p : fzn_exchange_pushing) : fzn_sync_position :=
  nth (Z.to_nat (ps_at p)) (d_theirs (ps_digest p)) no_position.

Definition offer_bounds (j : fzn_journal) (p : fzn_exchange_pushing) : fzn_exchange_pushing :=
  if ps_at p >=? d_n (ps_digest p) then p
  else
    let theirs := offered_to p in
    mk_pushing (ps_phase p) (ps_digest p) (ps_at p) (u64 (p_received theirs + 1))
      (u64 (fzn_journal_next j (p_issuer theirs) (p_stream theirs) - 1)) (ps_tally p).

(** The records of one message from [seq] on, [n] at most: what is written,
    how many, and the next sequence. *)
Fixpoint offer_records (c : C) (theirs : fzn_sync_position) (n : nat) (seq mine at_ cap count : Z) : bytes * Z * Z :=
  match n with
  | O => ([], count, seq)
  | S n =>
    if (seq <=? mine) && (count <? 65535) then
      match fzn_record_store_get ops c (p_issuer theirs) (p_stream theirs) seq FZN_RECORD_MAX_LEN with
      | (FZN_RECORD_STORE_OK, Some rec) =>
        if cap - at_ <? 2 + zlen rec then ([], count, seq)
        else
          let '(rest, count, seq) := offer_records c theirs n (u64 (seq + 1)) mine (at_ + 2 + zlen rec) cap (count + 1) in
          (be16 (u16 (zlen rec)) ++ rec ++ rest, count, seq)
      | _ => ([], count, seq)
      end
    else ([], count, seq)
  end.

(** [n] positions left to look at; [None] is [*done]. *)
Fixpoint next_offer (n : nat) (j : fzn_journal) (c : C) (cap : Z) (p : fzn_exchange_pushing)
    : option bytes * fzn_exchange_pushing :=
  match n with
  | O => (None, mk_pushing PUSH_DONE (ps_digest p) (ps_at p) (ps_seq p) (ps_mine p) (ps_tally p))
  | S n =>
    let '(page, count, seq) := offer_records c (offered_to p) (Z.to_nat 65535) (ps_seq p) (ps_mine p)
                                 FZN_EXCHANGE_PUSH_HEAD_LEN cap 0 in
    let t := ps_tally p in
    if negb (count =? 0) then
      (Some ([FZN_EXCHANGE_VERSION; FZN_EXCHANGE_PUSH] ++ be16 (u16 count) ++ page),
       mk_pushing (ps_phase p) (ps_digest p) (ps_at p) seq (ps_mine p)
         (mk_push_tally (pt_positions t) (pt_offered t + count) (pt_taken t) (pt_held t) (pt_refused t) (pt_forks t)))
    else
      next_offer n j c cap
        (offer_bounds j (mk_pushing (ps_phase p) (ps_digest p) (ps_at p + 1) seq (ps_mine p) t))
  end.

Definition positions_left (p : fzn_exchange_pushing) : nat := Z.to_nat (d_n (ps_digest p) - ps_at p).

Definition fzn_exchange_push_begin (p : fzn_exchange_pushing) (cap : Z)
    : fzn_exchange_err * fzn_exchange_pushing * bytes :=
  if cap <? FZN_EXCHANGE_REPLY_MIN then (FZN_EXCHANGE_ERR_MALFORMED, p, [])
  else
    let '(d, message) := digest_begin in
    (FZN_EXCHANGE_OK, mk_pushing PUSH_DIGEST d 0 (ps_seq p) (ps_mine p) (mk_push_tally 0 0 0 0 0 0), message).

(** The digest read: the offers begun. *)
Definition begin_offers (p : fzn_exchange_pushing) (h : host) (cap : Z) : step_out * fzn_exchange_pushing :=
  let t := ps_tally p in
  let p := mk_pushing PUSH_OFFERS (ps_digest p) 0 (ps_seq p) (ps_mine p)
             (mk_push_tally (d_n (ps_digest p)) (pt_offered t) (pt_taken t) (pt_held t) (pt_refused t) (pt_forks t)) in
  let p := offer_bounds (h_journal h) p in
  let '(r, p) := next_offer (positions_left p) (h_journal h) (h_store h) cap p in (asked r, p).

(** A [PUSHED] answer taken. *)
Definition take_pushed (p : fzn_exchange_pushing) (h : host) (reply : bytes) (cap : Z)
    : step_out * fzn_exchange_pushing :=
  if negb (is_msg reply FZN_EXCHANGE_PUSHED) || negb (zlen reply =? FZN_EXCHANGE_PUSHED_LEN)
  then (Failed FZN_EXCHANGE_ERR_SHAPE, mk_pushing PUSH_DONE (ps_digest p) (ps_at p) (ps_seq p) (ps_mine p) (ps_tally p))
  else
    let t := ps_tally p in
    let t := mk_push_tally (pt_positions t) (pt_offered t) (pt_taken t + fzn_get_be16 reply 2)
               (pt_held t + fzn_get_be16 reply 4) (pt_refused t + fzn_get_be16 reply 6)
               (pt_forks t + fzn_get_be16 reply 8) in
    let p :=
      if negb (fzn_get_be16 reply 6 =? 0) || negb (fzn_get_be16 reply 8 =? 0)
      then offer_bounds (h_journal h) (mk_pushing (ps_phase p) (ps_digest p) (ps_at p + 1) (ps_seq p) (ps_mine p) t)
      else mk_pushing (ps_phase p) (ps_digest p) (ps_at p) (ps_seq p) (ps_mine p) t in
    let '(r, p) := next_offer (positions_left p) (h_journal h) (h_store h) cap p in (asked r, p).

Definition fzn_exchange_push_step (p : fzn_exchange_pushing) (h : host) (reply : option bytes) (cap : Z)
    : step_out * fzn_exchange_pushing :=
  if cap <? FZN_EXCHANGE_REPLY_MIN then (Failed FZN_EXCHANGE_ERR_MALFORMED, p)
  else match ps_phase p with
  | PUSH_DONE => (Failed FZN_EXCHANGE_ERR_MALFORMED, p)
  | phase =>
    let fail err := (Failed err, mk_pushing PUSH_DONE (ps_digest p) (ps_at p) (ps_seq p) (ps_mine p) (ps_tally p)) in
    match reply with
    | None => fail FZN_EXCHANGE_ERR_NO_ANSWER
    | Some reply =>
      match phase with
      | PUSH_DIGEST =>
        let '(r, d) := digest_take (ps_digest p) reply in
        let p := mk_pushing (ps_phase p) d (ps_at p) (ps_seq p) (ps_mine p) (ps_tally p) in
        match r with
        | None => (Failed FZN_EXCHANGE_ERR_SHAPE, mk_pushing PUSH_DONE d (ps_at p) (ps_seq p) (ps_mine p) (ps_tally p))
        | Some (Some message) => (Ask message, p)
        | Some None => begin_offers p h cap
        end
      | _ => take_pushed p h reply cap
      end
    end
  end.

(** The message buffer [fzn_exchange_push] sends from. *)
Definition push_message_cap : Z := FZN_EXCHANGE_PUSH_HEAD_LEN + 16 * (2 + FZN_RECORD_MAX_LEN).

Fixpoint push_driver (n : nat) (w : W) (p : fzn_exchange_pushing) (h : host) (message : bytes) (reply_cap cap : Z)
    : option (fzn_exchange_err * fzn_exchange_pushing * W) :=
  match n with
  | O => None
  | S n =>
    let '(reply, w) := ask w message reply_cap in
    match fzn_exchange_push_step p h reply cap with
    | (Ask message, p) => push_driver n w p h message reply_cap cap
    | (Done, p) => Some (FZN_EXCHANGE_OK, p, w)
    | (Failed err, p) => Some (err, p, w)
    end
  end.

Definition fzn_exchange_push (n : nat) (w : W) (p : fzn_exchange_pushing) (h : host) (reply_cap : Z)
    : option (fzn_exchange_err * option fzn_exchange_push_tally * W) :=
  let cap := if reply_cap <? push_message_cap then reply_cap else push_message_cap in
  if reply_cap <? FZN_EXCHANGE_REPLY_MIN then Some (FZN_EXCHANGE_ERR_MALFORMED, None, w)
  else match fzn_exchange_push_begin p cap with
  | (FZN_EXCHANGE_OK, p, message) =>
    match push_driver n w p h message reply_cap cap with
    | Some (err, p, w) => Some (err, Some (ps_tally p), w)
    | None => None
    end
  | (err, p, _) => Some (err, Some (mk_push_tally 0 0 0 0 0 0), w)
  end.
End Exchange.
