(* ===== verification/ExchangeSafe.v ===== *)
(** * What a peer can put into a journal

    The invariant of a host over its journal and its store, kept by every
    message an exchange takes, whatever its bytes. *)

From stdpp Require Import gmap fin_maps.
From S2P Require Import Prelude Bytes Hop Revocation Chain Records Journal Sync RecordStore Exchange.

Section Safe.
Context {C : Type} {ops : fzn_record_store_ops C} {held : C -> bytes -> Z -> Z -> option bytes}.
Context {Hlaw : LawfulBackend ops held}.
Context (sign_ : fzn_sign_ops) (hash : fzn_hash_ops).
Hypothesis Hhash : hash_fits hash.

Abbreviation host := (@host C) (only parsing).

(** A stream held whole: as many records as have been received, each filed at
    its place and signed by its issuer, each naming the hash of the one before
    it, the last hashing to the head. *)
Definition one_line (c : C) (iss : bytes) (st : Z) (e : fzn_journal_entry) : Prop :=
  j_has_head e = true /\
  exists rs, zlen rs = j_received e /\ line hash iss st (j_received e) (j_head e) rs /\
    forall i r, rs !! i = Some r ->
      held c iss st (j_received e - Z.of_nat i) = Some r /\ fzn_record_verify (Some r) (Some sign_) = FZN_RECORD_OK /\
      Forall in_u8 r.

Record host_ok (h : host) : Prop := {
  ho_journal : journal_ok (h_journal h);
  ho_lines : forall iss st e, positions (h_journal h) !! (iss, st) = Some e -> one_line (h_store h) iss st e;
  ho_store : forall iss st seq r, held (h_store h) iss st seq = Some r ->
    exists e, positions (h_journal h) !! (iss, st) = Some e /\ 0 < seq <= j_received e
}.

(** Nothing followed is dropped, nothing held is lost or written over. *)
Record grows (h h' : host) : Prop := {
  gr_positions : forall k e, positions (h_journal h) !! k = Some e ->
    exists e', positions (h_journal h') !! k = Some e' /\ advanced_from e e';
  gr_held : forall iss st seq r, held (h_store h) iss st seq = Some r -> held (h_store h') iss st seq = Some r
}.

Lemma grows_refl h : grows h h.
Proof. split; eauto using advanced_refl. Qed.

Lemma grows_trans h1 h2 h3 : grows h1 h2 -> grows h2 h3 -> grows h1 h3.
Proof.
  intros [P1 H1] [P2 H2]. split; [|eauto]. intros k e He. destruct (P1 k e He) as (e1 & He1 & A1).
  destruct (P2 k e1 He1) as (e2 & He2 & A2). eauto using advanced_trans.
Qed.

(** A record that has passed every test but the journal's. *)
Record genuine (iss : bytes) (st seq : Z) (rec id : bytes) : Prop := {
  ge_placed : placed iss st seq rec;
  ge_signed : fzn_record_verify (Some rec) (Some sign_) = FZN_RECORD_OK;
  ge_id : hash FZN_RECORD_ID_LEN rec = Some id;
  ge_bytes : Forall in_u8 rec
}.

Lemma genuine_seq iss st seq rec id : genuine iss st seq rec id -> in_u64 seq /\ seq <> 0.
Proof.
  intros [(Ho & _ & _ & <-) _ _ Hb]. split; [unfold fzn_record_seq; by apply get_be64_range|]. by apply opens_of in Ho as [].
Qed.

(** The fork mark alone changes nothing else. *)
Lemma mark_keeps h i e iss st :
  host_ok h -> jrows (h_journal h) !! i = Some e -> key_of e = (iss, st) -> entry_ok e ->
  host_ok (mk_host (set_row (h_journal h) i (mark_forked e)) (h_store h)) /\
  grows h (mk_host (set_row (h_journal h) i (mark_forked e)) (h_store h)).
Proof.
  intros [Hj Hl Hs] Hi Hk He. destruct (set_found _ Hj i e (mark_forked e) iss st Hi Hk eq_refl) as [Hok Hp]; [by apply fork_ok|].
  assert (positions (h_journal h) !! (iss, st) = Some e) as Hpe
    by (apply positions_lookup; [done|]; split; [done|by eapply list_elem_of_lookup_2]).
  assert (forall k e', positions (h_journal h) !! k = Some e' -> exists e'',
    <[(iss, st) := mark_forked e]> (positions (h_journal h)) !! k = Some e'' /\ advanced_from e' e'' /\
    j_received e'' = j_received e' /\ j_head e'' = j_head e' /\ j_has_head e'' = j_has_head e') as Hold.
  { intros k e' He'. destruct (decide (k = (iss, st))) as [->|].
    - rewrite lookup_insert_eq. exists (mark_forked e). simplify_eq. by split_and!.
    - rewrite lookup_insert_ne by done. exists e'. split_and!; auto using advanced_refl. }
  split; split; cbn [h_journal h_store]; rewrite ?Hp; auto.
  - intros iss' st' e'' He''. destruct (decide ((iss', st') = (iss, st))) as [[= -> ->]|].
    + rewrite lookup_insert_eq in He''. injection He'' as <-. exact (Hl iss st e Hpe).
    + rewrite lookup_insert_ne in He'' by done. by apply Hl.
  - intros iss' st' seq r Hr. destruct (Hs _ _ _ _ Hr) as (e' & He' & Hle).
    destruct (Hold _ _ He') as (e'' & He'' & _ & Er & _). exists e''. split; [done|]. by rewrite Er.
  - intros k e' He'. destruct (Hold k e' He') as (e'' & ? & ? & _). eauto.
Qed.

(** The next link, admitted and stored. *)
Lemma link_keeps h i e iss st seq rec id :
  host_ok h -> jrows (h_journal h) !! i = Some e -> key_of e = (iss, st) -> entry_ok e ->
  genuine iss st seq rec id -> seq = j_received e + 1 -> breaks_line e seq (fzn_record_prev rec) id = false ->
  exists c', fzn_record_store_put ops (h_store h) (Some rec) = (FZN_RECORD_STORE_OK, c') /\
    let h' := mk_host (set_row (h_journal h) i (with_head (move_to e seq) id)) c' in host_ok h' /\ grows h h'.
Proof.
  intros [Hj Hl Hs] Hi Hk He Hg Hseq Hb. destruct (genuine_seq _ _ _ _ _ Hg) as [Hr Hz].
  assert (positions (h_journal h) !! (iss, st) = Some e) as Hpe
    by (apply positions_lookup; [done|]; split; [done|by eapply list_elem_of_lookup_2]).
  assert (held (h_store h) iss st seq = None) as Hfree.
  { destruct (held (h_store h) iss st seq) as [r|] eqn:Er; [|done]. apply Hs in Er as (e' & He' & Hle). simplify_eq. lia. }
  destruct (store_put_kept (Hlaw := Hlaw) (h_store h) rec iss st seq (ge_placed _ _ _ _ _ Hg) Hfree) as (c' & Hput & Hhere & Hoth).
  exists c'. split; [done|]. set (e' := with_head (move_to e seq) id).
  pose proof (eo_applied _ He) as Happ.
  destruct (set_found _ Hj i e e' iss st Hi Hk eq_refl) as [Hok Hp].
  { apply head_ok; [apply move_ok; [done|ulia]|cbn; lia|]. by eapply Hhash, ge_id. }
  assert (forall iss' st' s r, held (h_store h) iss' st' s = Some r -> held c' iss' st' s = Some r) as Hkeep.
  { intros iss' st' s r Hr'. rewrite Hoth; [done|]. intros [= -> -> ->]. congruence. }
  destruct (Hl iss st e Hpe) as (Hh & rs & Hlen & Hline & Hheld).
  assert (j_head e = fzn_record_prev rec) as Hprev.
  { unfold breaks_line in Hb. rewrite Hh, Hseq, Z.eqb_refl in Hb. cbn [andb] in Hb.
    apply orb_false_iff in Hb as [_ Hb%negb_false_iff]. by apply memeq_true in Hb. }
  split; split; cbn [h_journal h_store]; rewrite ?Hp; auto.
  - intros iss' st' e'' He''. destruct (decide ((iss', st') = (iss, st))) as [[= -> ->]|Hne].
    + rewrite lookup_insert_eq in He''. injection He'' as <-. split; [done|]. exists (rec :: rs). cbn [e' j_received with_head move_to j_head].
      split; [unfold zlen in *; cbn [length]; lia|]. split.
      * cbn [line]. split; [apply Hg|]. split; [apply Hg|]. rewrite <- Hprev. by replace (seq - 1) with (j_received e) by lia.
      * intros [|n] r Hn; cbn in Hn.
        { simplify_eq. rewrite Z.sub_0_r. split; [done|]. split; apply Hg. }
        destruct (Hheld n r Hn) as [Hr' Hv]. split; [|done]. apply Hkeep.
        by replace (seq - Z.of_nat (S n)) with (j_received e - Z.of_nat n) by lia.
    + rewrite lookup_insert_ne in He'' by done. destruct (Hl _ _ _ He'') as (Hh' & rs' & Hlen' & Hline' & Hheld').
      split; [done|]. exists rs'. split_and!; auto. intros n r Hn. destruct (Hheld' n r Hn). auto.
  - intros iss' st' s r Hr'. destruct (decide ((iss', st', s) = (iss, st, seq))) as [[= -> -> ->]|Hne].
    + exists e'. rewrite lookup_insert_eq. split; [done|]. cbn. lia.
    + rewrite Hoth in Hr' by done. apply Hs in Hr' as (e0 & He0 & Hle).
      destruct (decide ((iss', st') = (iss, st))) as [[= -> ->]|Hne'].
      * exists e'. rewrite lookup_insert_eq. simplify_eq. split; [done|]. cbn. lia.
      * exists e0. by rewrite lookup_insert_ne.
  - intros k e0 He0. destruct (decide (k = (iss, st))) as [->|].
    + rewrite lookup_insert_eq. exists e'. simplify_eq. split; [done|]. split_and!; cbn; auto; lia.
    + rewrite lookup_insert_ne by done. eauto using advanced_refl.
Qed.

(** One genuine record offered to the journal, and stored if it is admitted. *)
Lemma offered_keeps h iss st seq rec id err j' :
  host_ok h -> genuine iss st seq rec id ->
  fzn_journal_admit_chained (h_journal h) iss st seq (fzn_record_prev rec) id = (err, j') ->
  (err = FZN_JOURNAL_OK /\ exists c', fzn_record_store_put ops (h_store h) (Some rec) = (FZN_RECORD_STORE_OK, c') /\
     host_ok (mk_host j' c') /\ grows h (mk_host j' c')) \/
  (err <> FZN_JOURNAL_OK /\ host_ok (mk_host j' (h_store h)) /\ grows h (mk_host j' (h_store h))).
Proof.
  intros Hh Hg Ha. destruct (genuine_seq _ _ _ _ _ Hg) as [Hr Hz].
  destruct (chained_cases (h_journal h) (ho_journal _ Hh) iss st seq (fzn_record_prev rec) id Hr Hz)
    as [(i & e & Hi & Hk & He & Hp & Hn & Hb & Ha')|[(i & e & Hi & Hk & He & Hp & Hb & Ha')|(err' & Herr & _ & _ & Ha' & _)]];
    [by eapply Hhash, ge_id|..]; rewrite Ha' in Ha; injection Ha as <- <-.
  - left. split; [done|]. by eapply link_keeps.
  - right. split; [done|]. by eapply mark_keeps.
  - right. split; [done|]. destruct h. by split; [|apply grows_refl].
Qed.

Lemma slice_bytes off n (b : bytes) : Forall in_u8 b -> Forall in_u8 (slice off n b).
Proof. intros Hb. unfold slice. by apply Forall_take, Forall_drop. Qed.

Lemma next_record_genuine want b next rec id :
  Forall in_u8 b -> next_record sign_ hash want b next = Some (rec, id) ->
  genuine (q_issuer want) (q_stream want) next rec id.
Proof.
  intros Hb. unfold next_record. destruct (open_cases b) as [E|(e & He & E)]; rewrite E; [|by destruct e].
  destruct (_ || _) eqn:Ht; [done|]. apply orb_false_iff in Ht as [Ht H3]. apply orb_false_iff in Ht as [H1 H2].
  apply negb_false_iff in H1, H2, H3. apply memeq_true in H1. apply Z.eqb_eq in H2, H3.
  destruct (fzn_record_verify (Some b) (Some sign_)) eqn:Ev; try done.
  destruct (hash FZN_RECORD_ID_LEN b) as [d|] eqn:Eh; [|done]. intros [= <- <-].
  split; [|done..]. split_and!; try done. by apply open_is_open.
Qed.

Lemma pushed_record_genuine request at_ rec len id :
  Forall in_u8 request -> pushed_record sign_ hash request at_ = Some (rec, len, id) ->
  genuine (fzn_record_issuer rec) (fzn_record_stream rec) (fzn_record_seq rec) rec id.
Proof.
  intros Hb. unfold pushed_record. destruct (_ <? 2); [done|]. destruct (_ <? fzn_get_be16 request at_); [done|].
  set (b := slice _ _ request). destruct (open_cases b) as [E|(e & He & E)]; rewrite E; [|by destruct e].
  destruct (fzn_record_verify (Some b) (Some sign_)) eqn:Ev; try done.
  destruct (hash FZN_RECORD_ID_LEN b) as [d|] eqn:Eh; [|done]. intros [= <- <- <-].
  split; [|done|done|by apply slice_bytes]. split_and!; try done. by apply open_is_open.
Qed.

(** Every turn of the pull's loop keeps the invariant. *)
Lemma take_loop_keeps n : forall want reply at_ h pg tally more err h' pg' tally',
  host_ok h -> Forall in_u8 reply ->
  take_loop ops sign_ hash n want reply at_ h pg tally = (more, err, h', pg', tally') -> host_ok h' /\ grows h h'.
Proof.
  induction n as [|n IH]; intros want reply at_ h pg tally more err h' pg' tally' Hh Hb Ht; cbn [take_loop] in Ht.
  { simplify_eq. by split; [|apply grows_refl]. }
  destruct (_ <? 2); [simplify_eq; by split; [|apply grows_refl]|].
  destruct (_ <? fzn_get_be16 reply at_); [simplify_eq; by split; [|apply grows_refl]|].
  destruct (next_record sign_ hash want (slice (at_ + 2) (fzn_get_be16 reply at_) reply) (pg_next pg)) as [[rec id]|] eqn:En;
    [|simplify_eq; by split; [|apply grows_refl]].
  apply next_record_genuine in En; [|by apply slice_bytes].
  destruct (fzn_journal_admit_chained (h_journal h) _ _ _ _ _) as [jerr j'] eqn:Ea.
  destruct (offered_keeps h _ _ _ rec id jerr j' Hh En Ea) as [(-> & c' & Hput & Hok & Hgr)|(Hne & Hok & Hgr)].
  - rewrite Hput in Ht. destruct (_ =? 0); [simplify_eq; by split|]. apply IH in Ht as [Hok' Hgr']; [|done..].
    split; [done|]. by eapply grows_trans.
  - destruct jerr; try done; try (simplify_eq; by split). destruct (_ =? 0); [simplify_eq; by split|].
    apply IH in Ht as [Hok' Hgr']; [|done..]. split; [done|]. by eapply grows_trans.
Qed.

Lemma pull_step_keeps p h reply cap out p' h' :
  host_ok h -> (forall b, reply = Some b -> Forall in_u8 b) ->
  fzn_exchange_pull_step ops sign_ hash p h reply cap = (out, p', h') -> host_ok h' /\ grows h h'.
Proof.
  intros Hh Hb Hs. unfold fzn_exchange_pull_step in Hs.
  assert (host_ok h /\ grows h h) as Hsame by (by split; [|apply grows_refl]).
  destruct (cap <? _); [by simplify_eq|]. destruct reply as [reply|]; [|by destruct (pl_phase p); simplify_eq].
  destruct (pl_phase p); [| |by simplify_eq].
  - destruct (digest_take (pl_digest p) reply) as [[[q|]|] d]; [by simplify_eq| |by simplify_eq].
    destruct (plan_pull _ _) as [o p0]. by simplify_eq.
  - unfold page_pull in Hs. destruct (take_records _ _ _ _ _ _ _ _) as [[[[more err] h1] pg] tally] eqn:Et.
    assert (host_ok h1 /\ grows h h1) as Hone.
    { unfold take_records in Et. destruct (_ || _); [by simplify_eq|]. destruct (_ =? 0); [by simplify_eq|].
      eapply take_loop_keeps; [done| |exact Et]. by apply Hb. }
    destruct (more && _); [by simplify_eq|]. destruct err; [|by simplify_eq..].
    destruct (next_want _ _) as [r p0]. by simplify_eq.
Qed.

Lemma push_loop_keeps n : forall request at_ h k k' h',
  host_ok h -> Forall in_u8 request ->
  push_loop ops sign_ hash n request at_ h k = (k', h') -> host_ok h' /\ grows h h'.
Proof.
  induction n as [|n IH]; intros request at_ h k k' h' Hh Hb Ht; cbn [push_loop] in Ht.
  { simplify_eq. by split; [|apply grows_refl]. }
  destruct (pushed_record sign_ hash request at_) as [[[rec len] id]|] eqn:En; [|simplify_eq; by split; [|apply grows_refl]].
  apply pushed_record_genuine in En; [|done]. destruct (_ <? fzn_journal_next _ _ _); [by eapply IH|].
  destruct (fzn_journal_admit_chained (h_journal h) _ _ _ _ _) as [jerr j'] eqn:Ea.
  destruct (offered_keeps h _ _ _ rec id jerr j' Hh En Ea) as [(-> & c' & Hput & Hok & Hgr)|(Hne & Hok & Hgr)].
  - rewrite Hput in Ht. apply IH in Ht as [Hok' Hgr']; [|done..]. split; [done|]. by eapply grows_trans.
  - destruct jerr; try done; try (simplify_eq; by split).
    apply IH in Ht as [Hok' Hgr']; [|done..]. split; [done|]. by eapply grows_trans.
Qed.

Lemma take_push_keeps h request cap : host_ok h -> Forall in_u8 request ->
  let h' := snd (fzn_exchange_take_push ops sign_ hash h request cap) in host_ok h' /\ grows h h'.
Proof.
  intros Hh Hb. unfold fzn_exchange_take_push. destruct (_ || _); [by split; [|apply grows_refl]|].
  destruct (push_loop _ _ _ _ _ _ _ _) as [k h'] eqn:E. by eapply push_loop_keeps.
Qed.

(** Following one more stream, from its beginning. *)
Lemma follow_keeps h iss st : host_ok h -> is_bytes FZN_PUBKEY_LEN iss -> in_u32 st ->
  let h' := mk_host (snd (fzn_journal_anchor (h_journal h) iss st 0)) (h_store h) in host_ok h' /\ grows h h'.
Proof.
  intros [Hj Hl Hs] Hi Hst. destruct (anchor_refines _ Hj iss st 0 Hi Hst) as [Hok Hsp]; [ulia|].
  destruct (fzn_journal_anchor (h_journal h) iss st 0) as [err j']. cbn [fst snd spec_op] in *.
  destruct (positions (h_journal h) !! (iss, st)) as [e|] eqn:Ee.
  { assert (positions j' = positions (h_journal h)) as Ep by (destruct (0 <=? j_received e) eqn:E; [congruence|];
      apply positions_lookup in Ee as [_ Hin]; [|done]; pose proof (jo_rows _ Hj) as HF; rewrite list.Forall_forall in HF;
      apply HF in Hin; pose proof (eo_applied _ Hin); lia).
    split; split; cbn; rewrite ?Ep; eauto using advanced_refl. }
  destruct (_ >=? j_capacity _).
  { assert (positions j' = positions (h_journal h)) as Ep by congruence.
    split; split; cbn; rewrite ?Ep; eauto using advanced_refl. }
  assert (positions j' = <[(iss, st) := new_row iss st]> (positions (h_journal h))) as Ep by (cbn in Hsp; congruence).
  split; split; cbn; rewrite ?Ep; auto.
  - intros iss' st' e He. destruct (decide ((iss', st') = (iss, st))) as [[= -> ->]|].
    + rewrite lookup_insert_eq in He. injection He as <-. split; [done|]. exists []. split; [done|]. split; [done|]. done.
    + rewrite lookup_insert_ne in He by done. by apply Hl.
  - intros iss' st' s r Hr. destruct (Hs _ _ _ _ Hr) as (e & He & Hle). exists e. split; [|done].
    rewrite lookup_insert_ne; [done|]. congruence.
  - intros k e He. rewrite lookup_insert_ne by congruence. eauto using advanced_refl.
Qed.

(** ** Histories *)

(** What happens to a host: it decides to follow a stream from the beginning,
    an answer arrives for a pull in any state, or a push arrives. *)
Inductive event :=
| Follow (issuer : bytes) (stream : Z)
| Answered (p : fzn_exchange_pulling) (reply : bytes)
| PushTaken (request : bytes) (reply_cap : Z).

Definition event_ok (ev : event) : Prop :=
  match ev with
  | Follow iss st => is_bytes FZN_PUBKEY_LEN iss /\ in_u32 st
  | Answered _ reply => Forall in_u8 reply
  | PushTaken request _ => Forall in_u8 request
  end.

Definition happen (h : host) (ev : event) : host :=
  match ev with
  | Follow iss st => mk_host (snd (fzn_journal_anchor (h_journal h) iss st 0)) (h_store h)
  | Answered p reply => snd (fzn_exchange_pull_step ops sign_ hash p h (Some reply) FZN_EXCHANGE_RECORDS_QUERY_LEN)
  | PushTaken request cap => snd (fzn_exchange_take_push ops sign_ hash h request cap)
  end.

Definition happened (h : host) (evs : list event) : host := foldl happen h evs.

Lemma happen_keeps h ev : host_ok h -> event_ok ev -> host_ok (happen h ev) /\ grows h (happen h ev).
Proof.
  intros Hh He. destruct ev as [iss st|p reply|request cap]; cbn [happen event_ok] in *.
  - destruct He. by apply follow_keeps.
  - destruct (fzn_exchange_pull_step _ _ _ _ _ _ _) as [[out p'] h'] eqn:E.
    eapply pull_step_keeps; [done| |exact E]. by intros b [= <-].
  - by apply take_push_keeps.
Qed.

Lemma happened_keeps evs : forall h, host_ok h -> Forall event_ok evs -> host_ok (happened h evs) /\ grows h (happened h evs).
Proof.
  induction evs as [|ev evs IH]; intros h Hh Hevs; [by split; [|apply grows_refl]|].
  apply Forall_cons_iff in Hevs as [He Hevs]. destruct (happen_keeps h ev Hh He) as [Hh1 Hg1].
  destruct (IH (happen h ev) Hh1 Hevs) as [Hh2 Hg2]. split; [done|]. by eapply grows_trans.
Qed.

Lemma empty_host_ok j c : journal_ok j -> positions j = ∅ -> (forall iss st seq, held c iss st seq = None) ->
  host_ok (mk_host j c).
Proof.
  intros Hj Hp Hc. split; cbn; [done| |].
  - intros iss st e He. rewrite Hp in He. by apply lookup_empty_Some in He.
  - intros iss st seq r Hr. by rewrite Hc in Hr.
Qed.
End Safe.

(** C4: whatever peers send, a stream is the one line its issuer signed. From
    an empty journal and an empty store over a working backend, after any
    history of decisions to follow streams, of answers to pulls in whatever
    state and of pushes, with any bytes in them: every stream followed is held
    whole, record by record up to the position the journal claims, each at its
    own address, each signed by the issuer, each naming the hash of the one
    before, the last hashing to the journal's head; nothing is held that the
    journal does not claim; and no later message unfollows a stream, takes a
    position back, or loses or writes over a record that was held before it. *)
Theorem peers_add_only_the_issuers_line {C : Type} (ops : fzn_record_store_ops C) held `{!LawfulBackend ops held}
    sign_ hash es j c before after :
  hash_fits hash -> es <> [] -> fzn_journal_init (mk_journal None 0) (Some es) = (FZN_JOURNAL_OK, j) ->
  (forall iss st seq, held c iss st seq = None) -> Forall event_ok before -> Forall event_ok after ->
  let mid := happened (ops := ops) sign_ hash (mk_host j c) before in
  let now := happened (ops := ops) sign_ hash mid after in
  (forall iss st e, positions (h_journal now) !! (iss, st) = Some e ->
     exists rs, zlen rs = j_received e /\ line hash iss st (j_received e) (j_head e) rs /\
       forall i r, rs !! i = Some r -> held (h_store now) iss st (j_received e - Z.of_nat i) = Some r /\
         fzn_record_verify (Some r) (Some sign_) = FZN_RECORD_OK /\ Forall in_u8 r) /\
  (forall iss st seq r, held (h_store now) iss st seq = Some r ->
     exists e, positions (h_journal now) !! (iss, st) = Some e /\ 0 < seq <= j_received e) /\
  (forall k e, positions (h_journal mid) !! k = Some e ->
     exists e', positions (h_journal now) !! k = Some e' /\ advanced_from e e') /\
  (forall iss st seq r, held (h_store mid) iss st seq = Some r -> held (h_store now) iss st seq = Some r).
Proof.
  intros Hh Hes Hi Hc Hb Ha mid now. destruct (journal_init_ok (mk_journal None 0) es Hes) as (j' & Hi' & Hj & Hp & _).
  assert (j' = j) as -> by congruence.
  destruct (happened_keeps sign_ hash Hh before (mk_host j c)) as [Hmid _]; [by apply empty_host_ok|done|].
  destruct (happened_keeps sign_ hash Hh after mid Hmid Ha) as [[_ Hl Hs] [Hgp Hgh]].
  split_and!; auto. intros iss st e He. by destruct (Hl iss st e He) as [_ ?].
Qed.

(** ** Witness *)

(** A push of the first two records of the demo stream, then a second record
    at the same place as the second, which is a fork. *)
Definition push_of (rs : list bytes) : bytes :=
  [5; 5] ++ be16 (zlen rs) ++ concat ((fun r => be16 (zlen r) ++ r) <$> rs).

Definition demo_events : list event :=
  [Follow (demo_key 1) 7;
   PushTaken (push_of [demo_record 1 None; demo_record 2 (Some (demo_id 1)); demo_record 3 (Some (demo_id 1))]) 10].

Lemma demo_hash_fits : hash_fits demo_chain_hash.
Proof.
  intros b d [= <-]. split.
  - unfold zlen. rewrite length_fmap. pose proof (zlen_slice 0 32 (slice 74 8 b ++ zeros 40)) as H. unfold zlen in H.
    apply H; [lia|lia|]. rewrite length_app. unfold zeros. rewrite length_replicate. lia.
  - apply Forall_fmap, Forall_true. intros x. apply u8_range.
Qed.

Lemma demo_events_ok : Forall event_ok demo_events.
Proof.
  apply Forall_cons_2; [split; [apply demo_key_is; ulia|ulia]|]. apply Forall_cons_2; [|by apply Forall_nil_2].
  cbn [event_ok]. unfold in_u8. apply (bool_decide_unpack _). vm_compute. exact I.
Qed.

Lemma peers_add_only_the_issuers_line_witness :
  let now := happened (ops := mem_ops) toy_ops demo_chain_hash (mk_host demo_journal ∅) demo_events in
  j_received <$> positions (h_journal now) !! (demo_key 1, 7) = Some 2 /\
  j_forked <$> positions (h_journal now) !! (demo_key 1, 7) = Some true /\
  exists rs e, zlen rs = 2 /\ line demo_chain_hash (demo_key 1) 7 2 (j_head e) rs.
Proof.
  set (now := happened _ _ _ _). cbv zeta.
  assert (j_received <$> positions (h_journal now) !! (demo_key 1, 7) = Some 2) as Hr by (vm_compute; reflexivity).
  split; [exact Hr|]. split; [vm_compute; reflexivity|].
  destruct (peers_add_only_the_issuers_line mem_ops mem_held toy_ops demo_chain_hash (replicate 3 zero_jentry) demo_journal ∅
    demo_events []) as [Hline _].
  - exact demo_hash_fits.
  - discriminate.
  - reflexivity.
  - intros iss st seq. apply lookup_empty.
  - exact demo_events_ok.
  - constructor.
  - destruct (positions (h_journal now) !! (demo_key 1, 7)) as [e|] eqn:He; [|discriminate Hr].
    injection Hr as Hr. destruct (Hline _ _ _ He) as (rs & Hl & Hli & _). exists rs, e. rewrite <- Hr.
    split; [exact Hl|exact Hli].
Defined.
