(* ===== verification/ExchangePull.v ===== *)
(** * A pull, start to end

    A pull against any peer ends within a bound that does not depend on the
    peer. *)

From stdpp Require Import gmap fin_maps.
From S2P Require Import Prelude Bytes Hop Revocation Chain Records Journal Sync RecordStore Exchange ExchangeSafe.

(** ** Termination, whatever the peer answers *)

Definition work (qs : list fzn_sync_request) : Z := foldr (fun q n => q_count q + 1 + n) 0 qs.

Lemma work_bound qs max : 0 <= max -> Forall (fun q => 0 < q_count q <= max) qs -> 0 <= work qs <= zlen qs * (max + 1).
Proof.
  intros Hm. induction 1 as [|q qs Hq _ IH]; cbn [work foldr]; [unfold zlen; cbn [length]; lia|]. fold (work qs).
  assert (zlen (q :: qs) = zlen qs + 1) as -> by (unfold zlen; cbn [length]; lia). lia.
Qed.

Section Ends.
Context {C : Type} {ops : fzn_record_store_ops C} {held : C -> bytes -> Z -> Z -> option bytes}.
Context {Hlaw : LawfulBackend ops held}.
Context (sign_ : fzn_sign_ops) (hash : fzn_hash_ops) (max : Z).
Hypothesis (Hhash : hash_fits hash) (Hmax : 0 < max <= UINT64_MAX).

Abbreviation host := (@host C) (only parsing).
Abbreviation host_ok := (host_ok (held := held) sign_ hash) (only parsing).

(** The requests of the plan that are still to come after the one being paged. *)
Definition to_come (p : fzn_exchange_pulling) : list fzn_sync_request := drop (S (Z.to_nat (pl_want p))) (pl_plan_out p).

(** A pull waiting for an answer. *)
Definition waiting (p : fzn_exchange_pulling) : Prop :=
  pl_max_per_request p = max /\
  match pl_phase p with
  | PULL_DIGEST => 0 <= d_pages (pl_digest p) <= 1024 /\ Forall position_ok (d_theirs (pl_digest p))
  | PULL_RECORDS =>
    request_count (pl_plan p) = zlen (pl_plan_out p) /\ zlen (pl_plan_out p) <= 1024 /\
    Forall (fun q => 0 < q_count q <= max) (pl_plan_out p) /\
    0 <= pl_want p < zlen (pl_plan_out p) /\ 0 < pg_left (pl_paging p) <= max
  | PULL_DONE => False
  end.

(** How many requests it may still make. *)
Definition measure (p : fzn_exchange_pulling) : Z :=
  match pl_phase p with
  | PULL_DIGEST => 1025 - d_pages (pl_digest p) + 1024 * (max + 1)
  | PULL_RECORDS => 1 + pg_left (pl_paging p) + work (to_come p)
  | PULL_DONE => 0
  end.

Lemma take_loop_left n : forall want reply at_ h pg tally err h' pg' tally',
  0 < pg_left pg <= UINT64_MAX ->
  take_loop ops sign_ hash n want reply at_ h pg tally = (true, err, h', pg', tally') ->
  err = FZN_EXCHANGE_OK /\ 0 < pg_left pg' <= pg_left pg - Z.of_nat n.
Proof.
  induction n as [|n IH]; intros want reply at_ h pg tally err h' pg' tally' Hl Ht; cbn [take_loop] in Ht.
  { simplify_eq. split; [done|lia]. }
  destruct (_ <? 2); [done|]. destruct (_ <? fzn_get_be16 reply at_); [done|].
  destruct (next_record _ _ _ _ _) as [[rec id]|]; [|done].
  assert (u64 (pg_left pg - 1) = pg_left pg - 1) as Eu by (apply u64_small; ulia).
  destruct (fzn_journal_admit_chained _ _ _ _ _ _) as [[] j']; try done.
  - destruct (fzn_record_store_put _ _ _) as [[] c']; try done. cbn [pg_left] in Ht. rewrite Eu in Ht.
    destruct (Z.eqb_spec (pg_left pg - 1) 0); [done|]. apply IH in Ht as [-> Hb]; cbn [pg_left] in *; [split; [done|lia]|lia].
  - cbn [pg_left] in Ht. rewrite Eu in Ht. destruct (Z.eqb_spec (pg_left pg - 1) 0); [done|].
    apply IH in Ht as [-> Hb]; cbn [pg_left] in *; [split; [done|lia]|lia].
Qed.

Lemma wanted_at_lookup p q : 0 <= pl_want p -> pl_plan_out p !! Z.to_nat (pl_want p) = Some q -> wanted_at p = q.
Proof. intros _ H. unfold wanted_at. by apply nth_lookup_Some. Qed.

Lemma to_come_work p q : pl_plan_out p !! Z.to_nat (pl_want p) = Some q ->
  work (drop (Z.to_nat (pl_want p)) (pl_plan_out p)) = q_count q + 1 + work (to_come p).
Proof. intros H. by rewrite (drop_S _ q). Qed.

(** The search for the next request stops at once: no plan names an empty
    range. *)
Lemma next_want_spec p : 0 <= pl_want p <= zlen (pl_plan_out p) -> request_count (pl_plan p) = zlen (pl_plan_out p) ->
  Forall (fun q => 0 < q_count q <= max) (pl_plan_out p) ->
  match pl_plan_out p !! Z.to_nat (pl_want p) with
  | None => next_want (wants_left p) p = (None, with_phase p PULL_DONE)
  | Some q =>
    let p' := with_want p (pl_want p) (mk_paging (q_from q) (q_count q)) in
    next_want (wants_left p) p = (Some (records_query p'), p')
  end.
Proof.
  intros Hw Hc Hq. unfold wants_left. rewrite Hc. destruct (pl_plan_out p !! Z.to_nat (pl_want p)) as [q|] eqn:El.
  - pose proof (lookup_lt_Some _ _ _ El) as Hlt. pose proof (Forall_lookup_1 _ _ _ _ Hq El) as Hpos. cbn in Hpos.
    destruct (Z.to_nat (zlen (pl_plan_out p) - pl_want p)) as [|n] eqn:En; [unfold zlen in En; lia|]. cbn [next_want].
    rewrite (wanted_at_lookup p q) by (done || lia). cbn [with_want pl_paging pg_left].
    destruct (Z.eqb_spec (q_count q) 0); [lia|]. done.
  - apply lookup_ge_None in El. replace (Z.to_nat (zlen (pl_plan_out p) - pl_want p)) with 0%nat by (unfold zlen; lia). done.
Qed.

Lemma positions_loop_ok n : forall reply at_ d, Forall in_u8 reply -> 0 <= at_ ->
  at_ + 44 * Z.of_nat n <= zlen reply -> Forall position_ok (d_theirs d) ->
  let d' := positions_loop n reply at_ d in
  Forall position_ok (d_theirs d') /\ d_pages d' = d_pages d /\ d_total d' = d_total d.
Proof.
  induction n as [|n IH]; intros reply at_ d Hb Ha Hl Hd; cbn [positions_loop]; [done|].
  destruct (_ <? FZN_SYNC_MAX_POSITIONS); [|done].
  match goal with |- context [positions_loop n reply ?a ?d1] => destruct (IH reply a d1) as (H1 & H2 & H3) end; auto.
  - unfold FZN_EXCHANGE_POSITION_LEN. lia.
  - unfold FZN_EXCHANGE_POSITION_LEN. lia.
  - cbn. apply Forall_app. split; [done|]. apply Forall_singleton. split_and!; cbn.
    + apply (is_bytes_slice _ _ (zlen reply)); [lia|done|unfold FZN_PUBKEY_LEN; lia|done].
    + by apply get_be32_range.
    + by apply get_be64_range.
Qed.

Lemma digest_take_waits d reply r d' :
  Forall in_u8 reply -> Forall position_ok (d_theirs d) -> 0 <= d_pages d <= 1024 ->
  digest_take d reply = (Some r, d') ->
  Forall position_ok (d_theirs d') /\
  match r with Some _ => d_pages d' = d_pages d + 1 /\ d_pages d' <= 1024 | None => True end.
Proof.
  intros Hb Hd Hp Ht. unfold digest_take in Ht. destruct (_ || (zlen reply <? _)); [done|].
  match type of Ht with (if ?b then _ else _) = _ => destruct b eqn:Eg; [done|] end.
  apply orb_false_iff in Eg as [Eg _]. apply orb_false_iff in Eg as [Eg _]. apply orb_false_iff in Eg as [_ Eg].
  apply negb_false_iff, Z.eqb_eq in Eg. pose proof (get_be16_range reply 6 Hb) as Hc.
  match type of Ht with context [positions_loop ?n ?b ?a ?d0] => destruct (positions_loop_ok n b a d0) as (H1 & H2 & H3) end; auto.
  { done. } { unfold FZN_EXCHANGE_DIGEST_HEAD_LEN, FZN_EXCHANGE_POSITION_LEN in *. width. lia. }
  cbn [d_pages d_theirs d_total] in *. set (d1 := positions_loop _ _ _ _) in *. clearbody d1.
  destruct (_ && _); [|by simplify_eq]. cbn [d_pages] in Ht. unfold FZN_SYNC_MAX_POSITIONS in Ht.
  destruct (Z.leb_spec (d_pages d1 + 1) 1024); simplify_eq; cbn; (split; [done|]); [lia|done].
Qed.

Lemma next_want_waits p : pl_phase p = PULL_RECORDS -> pl_max_per_request p = max ->
  0 <= pl_want p <= zlen (pl_plan_out p) -> zlen (pl_plan_out p) <= 1024 ->
  request_count (pl_plan p) = zlen (pl_plan_out p) -> Forall (fun q => 0 < q_count q <= max) (pl_plan_out p) ->
  match next_want (wants_left p) p with
  | (None, p') => True
  | (Some _, p') => waiting p' /\ measure p' = work (drop (Z.to_nat (pl_want p)) (pl_plan_out p))
  end.
Proof.
  intros Hph Hmx Hw Hl Hc Hq. pose proof (next_want_spec p Hw Hc Hq) as H.
  destruct (pl_plan_out p !! Z.to_nat (pl_want p)) as [q|] eqn:El; cbv zeta in H; rewrite H; [|done].
  pose proof (lookup_lt_Some _ _ _ El) as Hlt. pose proof (Forall_lookup_1 _ _ _ _ Hq El) as Hpos. cbn in Hpos.
  unfold waiting, measure. cbn [with_want pl_phase pl_max_per_request pl_plan pl_plan_out pl_want pl_paging pg_left]. rewrite Hph.
  split; [split_and!; auto; unfold zlen; lia|]. rewrite (to_come_work p q El). unfold to_come.
  cbn [with_want pl_want pl_plan_out]. lia.
Qed.

Lemma plan_pull_waits p h out p' :
  pl_max_per_request p = max -> Forall position_ok (d_theirs (pl_digest p)) -> host_ok h ->
  plan_pull p h = (out, p') ->
  match out with Ask _ => waiting p' /\ measure p' <= 1024 * (max + 1) | _ => True end.
Proof.
  intros Hm Hpos Hh Hp. unfold plan_pull in Hp.
  rewrite Hm in Hp. rewrite plan_fetch_spec in Hp by (first [apply Hh | done | lia]).
  set (W := fetch_list _ _ _) in *. unfold FZN_SYNC_MAX_POSITIONS in Hp. cbn [request_count] in Hp.
  match type of Hp with context [next_want (wants_left ?p0) ?p0] => pose proof (next_want_waits p0) as Hn;
    destruct (next_want (wants_left p0) p0) as [r p1] end.
  injection Hp as <- <-. cbn in Hn. destruct r as [q|]; cbn; [|done].
  assert (zlen (take (Z.to_nat 1024) W) = Z.min 1024 (zlen W)) as Hl by (unfold zlen; rewrite length_take; lia).
  assert (Forall (fun q => 0 < q_count q <= max) (take (Z.to_nat 1024) W)) as HF.
  { apply Forall_take, list.Forall_forall. intros x Hx. apply list_elem_of_omap in Hx as (e & _ & Hx).
    apply wanted_Some in Hx as (cl & _ & Hlt & ->). cbn. lia. }
  pose proof (zlen_nonneg W).
  destruct Hn as [Hwait Hmeas]; [done|done|lia|lia|by rewrite Hl|done|]. split; [done|]. rewrite Hmeas.
  change (Z.to_nat 0) with 0%nat. rewrite drop_0.
  pose proof (work_bound _ max ltac:(lia) HF) as Hb. rewrite Hl in Hb. nia.
Qed.

Lemma page_pull_waits p h reply out p' h' :
  Forall in_u8 reply -> waiting p -> pl_phase p = PULL_RECORDS -> page_pull ops sign_ hash p h reply = (out, p', h') ->
  match out with Ask _ => waiting p' /\ measure p' < measure p | _ => True end.
Proof.
  intros Hb [Hm Hw] Hph Hp. rewrite Hph in Hw. destruct Hw as (Hc & Hl & Hq & Hwant & Hleft). unfold page_pull in Hp.
  destruct (take_records _ _ _ _ _ _ _ _) as [[[[more err] h1] pg] tally] eqn:Et.
  destruct (more && negb (pg_left pg =? 0)) eqn:Em.
  - injection Hp as <- <- <-. apply andb_true_iff in Em as [-> _]. unfold take_records in Et.
    destruct (_ || _); [done|]. destruct (Z.eqb_spec (fzn_get_be16 reply 2) 0) as [|Hn]; [done|].
    apply take_loop_left in Et as [_ Hlt]; [|lia].
    pose proof (get_be16_range reply 2 Hb) as Hr. width.
    assert (0 < pg_left pg < pg_left (pl_paging p)) by lia.
    unfold waiting, measure, to_come. cbn [pl_phase pl_max_per_request pl_plan pl_plan_out pl_want pl_paging].
    rewrite Hph. split; [split_and!; auto; lia|]. lia.
  - destruct err; try (by simplify_eq).
    match type of Hp with context [next_want (wants_left ?p0) ?p0] => pose proof (next_want_waits p0) as Hnw;
      destruct (next_want (wants_left p0) p0) as [r p1] end.
    simplify_eq. cbn in Hnw. destruct r as [q|]; cbn; [|done].
    destruct Hnw as [Hwait Hmeas]; [done|done|lia|done|done|done|]. split; [done|]. rewrite Hmeas.
    unfold measure. rewrite Hph. unfold to_come. replace (Z.to_nat (pl_want p + 1)) with (S (Z.to_nat (pl_want p))) by lia. lia.
Qed.

(** One answer, whatever it is: the pull is over, or it waits again with less
    to do. *)
Lemma pull_step_waits p h reply out p' h' :
  waiting p -> host_ok h -> (forall b, reply = Some b -> Forall in_u8 b) ->
  fzn_exchange_pull_step ops sign_ hash p h reply FZN_EXCHANGE_RECORDS_QUERY_LEN = (out, p', h') ->
  match out with Ask _ => waiting p' /\ measure p' < measure p | _ => True end.
Proof.
  intros Hw Hh Hb Hs. unfold fzn_exchange_pull_step in Hs.
  change (FZN_EXCHANGE_RECORDS_QUERY_LEN <? FZN_EXCHANGE_RECORDS_QUERY_LEN) with false in Hs. cbv iota in Hs.
  destruct reply as [reply|]; [|by destruct (pl_phase p); simplify_eq]. specialize (Hb reply eq_refl).
  destruct (pl_phase p) eqn:Hph; [| |by simplify_eq].
  - destruct (digest_take (pl_digest p) reply) as [r d] eqn:Et. destruct Hw as [Hm Hw]. rewrite Hph in Hw. destruct Hw as [Hpg Hpos].
    destruct r as [r|]; [|by simplify_eq].
    destruct (digest_take_waits _ _ _ _ Hb Hpos Hpg Et) as [Hpos' Hr].
    assert (measure p = 1025 - d_pages (pl_digest p) + 1024 * (max + 1)) as Emeas by (unfold measure; by rewrite Hph).
    destruct r as [q|].
    + injection Hs as <- <- <-. unfold waiting, measure. cbn [pl_phase pl_max_per_request pl_digest]. rewrite Hph.
      split; [split_and!; auto; lia|]. lia.
    + destruct (plan_pull _ _) as [o p1] eqn:Ep. injection Hs as <- <- <-.
      eapply plan_pull_waits in Ep; [|done..]. destruct o; [|done..]. destruct Ep. split; [done|]. lia.
  - eapply page_pull_waits; eauto.
Qed.

Context {W : Type} (ask : W -> bytes -> Z -> option bytes * W).
Hypothesis Hask : forall w request cap b w', ask w request cap = (Some b, w') -> Forall in_u8 b.

Lemma pull_loop_ends n : forall w p h request cap, waiting p -> host_ok h -> measure p <= Z.of_nat n ->
  exists err p' h' w', pull_loop ops sign_ hash ask n w p h request cap = Some (err, p', h', w').
Proof.
  induction n as [|n IH]; intros w p h request cap Hw Hh Hn; cbn [pull_loop].
  { exfalso. destruct Hw as [_ Hw]. unfold measure in Hn. destruct (pl_phase p); [lia| |done].
    destruct Hw as (_ & _ & Hq & _ & Hl). assert (0 <= work (to_come p)); [|lia].
    apply (work_bound _ max); [lia|]. by apply Forall_drop. }
  destruct (ask w request cap) as [reply w'] eqn:Ea.
  destruct (fzn_exchange_pull_step _ _ _ _ _ _ _) as [[out p'] h'] eqn:Es.
  pose proof (fun b E => Hask w request cap b w' (eq_trans Ea (f_equal (fun r => (r, w')) E))) as Hb.
  pose proof (pull_step_waits p h reply out p' h' Hw Hh Hb Es) as Hout.
  destruct (pull_step_keeps sign_ hash Hhash p h reply _ out p' h' Hh Hb Es) as [Hh' _].
  destruct out; eauto. destruct Hout as [Hw' Hm']. apply IH; [done|done|lia].
Qed.
End Ends.

(** The requests a pull may make of one peer. *)
Definition pull_bound (max : Z) : Z := 1025 + 1024 * (max + 1).

(** C29: no peer can keep a pull going. Whatever a peer answers to whatever it is
    asked, lies, garbage or silence, and for ever if it likes, the pull returns
    within a number of requests that depends only on the bound the caller set
    on a range: at most 1025 pages of digest, and one request a record of at
    most 1024 ranges. *)
Theorem pull_ends_whatever_the_peer {C W : Type} (ops : fzn_record_store_ops C) held `{!LawfulBackend ops held}
    sign_ hash (ask : W -> bytes -> Z -> option bytes * W) w p h max cap n :
  hash_fits hash -> host_ok (held := held) sign_ hash h -> 0 <= max <= UINT64_MAX ->
  (forall w request cap b w', ask w request cap = (Some b, w') -> Forall in_u8 b) ->
  pull_bound max <= Z.of_nat n ->
  exists err tally h' w', fzn_exchange_pull ops sign_ hash ask n w p h max cap = Some (err, tally, h', w').
Proof.
  intros Hhash Hh Hm Hask Hn. unfold fzn_exchange_pull. destruct (cap <? _); [eauto|].
  unfold fzn_exchange_pull_begin. destruct (_ || _) eqn:E; [eauto|].
  apply orb_false_iff in E as [E _]. apply orb_false_iff in E as [_ E%Z.eqb_neq].
  unfold digest_begin. cbv beta iota zeta.
  match goal with |- context [pull_loop _ _ _ _ _ _ ?p0 _ ?r _] =>
    destruct (pull_loop_ends sign_ hash max Hhash ltac:(lia) ask Hask n w p0 h r cap) as (err & p' & h' & w' & ->) end; eauto.
  unfold waiting. cbn. split_and!; auto; lia.
Qed.

(** A peer that answers every request with the head of a digest that is never
    done, and says so with one position it does not send. *)
Lemma pull_ends_whatever_the_peer_witness :
  exists err tally h' w', fzn_exchange_pull mem_ops toy_ops demo_chain_hash
      (fun (w : Z) _ _ => (Some [5; 2; 3; 255; 0; 0; 0; 1], w + 1)) (Z.to_nat (pull_bound 1)) 0
      (mk_pulling 0 PULL_DONE (mk_digest 0 0 0 []) [] (mk_plan 0 0 0 0) 0 (mk_paging 0 0) zero_tally)
      (mk_host demo_journal ∅) 1 1000
    = Some (err, tally, h', w').
Proof.
  apply (pull_ends_whatever_the_peer mem_ops mem_held).
  - exact demo_hash_fits.
  - destruct (journal_init_ok (mk_journal None 0) (replicate 3 zero_jentry)) as (j & E & Hj & Hp & _); [discriminate|].
    replace demo_journal with j by (vm_compute in E; vm_compute; congruence).
    apply empty_host_ok; [exact Hj|exact Hp|]. intros iss st seq. apply lookup_empty.
  - ulia.
  - intros w request cap b w' [= <- <-]. repeat constructor; ulia.
  - unfold pull_bound. lia.
Defined.
