(* ===== verification/ExchangeConverge.v ===== *)
(** * A pull against an honest peer

    The peer answers from its own journal and store, as [fzn_exchange_answer]
    does. What the pull reads of its digest, plans and takes is followed
    message by message. *)

From stdpp Require Import gmap fin_maps.
From S2P Require Import Prelude Bytes Hop Revocation Chain Records Journal Sync RecordStore Exchange ExchangeSafe ExchangePull.

(** ** Bytes that are all zero *)

Lemma zero_fold p : Forall in_u8 p -> forall acc, in_u8 acc ->
  fold_left (fun acc x => u8 (Z.lor acc x)) p acc = 0 -> acc = 0 /\ Forall (fun x => x = 0) p.
Proof.
  induction 1 as [|x p Hx Hp IH]; intros acc Ha H; cbn in H; [done|].
  apply IH in H as [H H0]; [|apply u8_range]. apply u8_lor_zero in H as [-> ->]; auto.
Qed.

Lemma prev_zero p n : is_bytes n p -> prev_is_zero p = true -> p = zeros n.
Proof.
  intros [Hl Hr] H. unfold prev_is_zero in H. apply Z.eqb_eq, zero_fold in H as [_ H]; [|done|ulia].
  unfold zeros. rewrite <- Hl. unfold zlen. rewrite Nat2Z.id. clear -H.
  induction H as [|x p -> _ IH]; [done|]. cbn. by f_equal.
Qed.

Section Honest.
Context {C C2 : Type} {ops : fzn_record_store_ops C} {held : C -> bytes -> Z -> Z -> option bytes}.
Context {ops2 : fzn_record_store_ops C2} {held2 : C2 -> bytes -> Z -> Z -> option bytes}.
Context {Hlaw : LawfulBackend ops held} {Hlaw2 : LawfulBackend ops2 held2}.
Context (sign_ : fzn_sign_ops) (hash : fzn_hash_ops) (jB : fzn_journal) (cB : C2).
Hypothesis (Hhash : hash_fits hash).
Hypothesis (HB : host_ok (held := held2) sign_ hash (mk_host jB cB)).

Abbreviation host := (@Exchange.host C) (only parsing).
Abbreviation host_ok := (ExchangeSafe.host_ok (held := held) sign_ hash) (only parsing).

(** ** The peer's records *)

Lemma line_at iss st rs : forall seq want i r, line hash iss st seq want rs -> rs !! i = Some r ->
  placed iss st (seq - Z.of_nat i) r /\
  (exists d, hash FZN_RECORD_ID_LEN r = Some d /\ (i = 0%nat -> d = want)) /\
  (forall r', rs !! S i = Some r' -> hash FZN_RECORD_ID_LEN r' = Some (fzn_record_prev r)).
Proof.
  induction rs as [|x rs IH]; intros seq want i r Hl Hi; [done|]. cbn in Hl. destruct Hl as (Hp & Hh & Hl).
  destruct i as [|i]; cbn in Hi.
  - simplify_eq. rewrite Z.sub_0_r. split; [done|]. split; [by exists want|]. intros r' Hr'. cbn in Hr'.
    destruct rs as [|y rs]; [done|]. cbn in Hr', Hl. simplify_eq. apply Hl.
  - destruct (IH _ _ _ _ Hl Hi) as (H1 & (d & Hd & _) & H3). split_and!.
    + by replace (seq - Z.of_nat (S i)) with (seq - 1 - Z.of_nat i) by lia.
    + exists d. split; [done|]. lia.
    + intros r' Hr'. by apply H3.
Qed.

(** The id of record [s] of the peer's line; nothing is what the first names. *)
Definition id_at (iss : bytes) (st s : Z) (d : bytes) : Prop :=
  if s =? 0 then d = zeros FZN_RECORD_ID_LEN
  else exists r, held2 cB iss st s = Some r /\ hash FZN_RECORD_ID_LEN r = Some d.

Lemma id_at_det iss st s d d' : id_at iss st s d -> id_at iss st s d' -> d = d'.
Proof. unfold id_at. destruct (s =? 0); [congruence|]. intros (r & ? & ?) (r' & ? & ?). congruence. Qed.

(** Record [s] of the peer: genuine, and linked to the one before it. *)
Lemma peer_record iss st e s :
  positions jB !! (iss, st) = Some e -> 0 < s <= j_received e ->
  exists r id, held2 cB iss st s = Some r /\ genuine sign_ hash iss st s r id /\ id_at iss st s id /\
    id_at iss st (s - 1) (fzn_record_prev r) /\ (s = j_received e -> id = j_head e).
Proof.
  intros He Hs. destruct (ho_lines _ _ _ HB iss st e He) as (_ & rs & Hlen & Hline & Hheld). cbn [h_store] in Hheld.
  set (i := Z.to_nat (j_received e - s)).
  destruct (lookup_lt_is_Some_2 rs i) as [r Hr]; [unfold zlen in Hlen; lia|].
  destruct (Hheld i r Hr) as (Hh & Hv & Hb). destruct (line_at _ _ _ _ _ _ _ Hline Hr) as (Hp & (d & Hd & Hhead) & Hnext).
  replace (j_received e - Z.of_nat i) with s in * by lia.
  exists r, d. split; [done|]. split; [by split|]. split.
  { unfold id_at. destruct (Z.eqb_spec s 0); [lia|]. eauto. }
  split; [|intros; apply Hhead; lia].
  unfold id_at. destruct (Z.eqb_spec (s - 1) 0) as [Hs1|Hs1].
  - apply prev_zero.
    + destruct Hp as (Ho & _). apply opens_of in Ho as [Hl _ _ _ _ _]. pose proof (body_len_range r Hb).
      apply (is_bytes_slice _ _ (zlen r)); try done. rewrite Hl. change FZN_RECORD_HEADER_LEN with 124.
      change FZN_SIG_LEN with 64. change (FZN_RECORD_OFF_PREV + FZN_RECORD_ID_LEN) with 114. lia.
    + destruct Hp as (Ho & _ & _ & Hseq). apply opens_of in Ho as [_ _ _ _ _ Hf]. apply Hf. lia.
  - destruct (lookup_lt_is_Some_2 rs (S i)) as [r' Hr']; [unfold zlen in Hlen; lia|].
    exists r'. split; [|by apply Hnext]. destruct (Hheld (S i) r' Hr') as (Hh' & _).
    by replace (j_received e - Z.of_nat (S i)) with (s - 1) in Hh' by lia.
Qed.

(** ** Taking the next of them *)

Lemma take_one (h : host) iss st eA eB r id :
  host_ok h -> positions (h_journal h) !! (iss, st) = Some eA -> positions jB !! (iss, st) = Some eB ->
  j_received eA < j_received eB -> id_at iss st (j_received eA) (j_head eA) ->
  held2 cB iss st (j_received eA + 1) = Some r -> genuine sign_ hash iss st (j_received eA + 1) r id ->
  exists j' c', fzn_journal_admit_chained (h_journal h) iss st (j_received eA + 1) (fzn_record_prev r) id
                = (FZN_JOURNAL_OK, j') /\
    fzn_record_store_put ops (h_store h) (Some r) = (FZN_RECORD_STORE_OK, c') /\ host_ok (mk_host j' c') /\
    positions j' = <[(iss, st) := with_head (move_to eA (j_received eA + 1)) id]> (positions (h_journal h)) /\
    id_at iss st (j_received eA + 1) id.
Proof.
  intros Hh HeA HeB Hlt Hid Hr Hg. destruct (genuine_seq _ _ _ _ _ _ _ Hg) as [Hrange Hz].
  destruct (peer_record iss st eB (j_received eA + 1) HeB) as (r' & id' & Hr' & Hg' & Hid' & Hprev & _).
  { pose proof (ho_journal _ _ _ Hh) as Hj. apply positions_lookup in HeA as [_ Hin]; [|done].
    pose proof (jo_rows _ Hj) as HF. rewrite list.Forall_forall in HF. pose proof (eo_applied _ (HF _ Hin)). lia. }
  assert (r' = r) as -> by congruence. assert (id' = id) as -> by (destruct Hg, Hg'; congruence).
  replace (j_received eA + 1 - 1) with (j_received eA) in Hprev by lia.
  pose proof (id_at_det _ _ _ _ _ Hid Hprev) as Hhead.
  assert (breaks_line eA (j_received eA + 1) (fzn_record_prev r) id = false) as Hb.
  { unfold breaks_line. rewrite Hhead, memeq_refl. destruct (Z.eqb_spec (j_received eA + 1) (j_received eA)); [lia|].
    cbn [andb orb negb]. by rewrite !andb_false_r. }
  destruct (chained_cases (h_journal h) (ho_journal _ _ _ Hh) iss st (j_received eA + 1) (fzn_record_prev r) id Hrange Hz)
    as [(i & e & Hi & Hk & He & Hp & Hn & _ & Ha)|[(i & e & _ & _ & _ & Hp & Hb' & _)|(err & Herr & _ & _ & Ha & Hsp)]].
  { eapply Hhash, ge_id, Hg. }
  - assert (e = eA) as -> by congruence.
    destruct (offered_keeps sign_ hash Hhash h iss st _ r id _ _ Hh Hg Ha) as [(_ & c' & Hput & Hok & _)|(Hne & _)]; [|done].
    exists (set_row (h_journal h) i (with_head (move_to eA (j_received eA + 1)) id)), c'.
    split_and!; auto. eapply set_found; eauto; [apply Hh|]. pose proof (eo_applied _ He).
    apply head_ok; [apply move_ok; [done|ulia]|cbn; lia|]. eapply Hhash, ge_id, Hg.
  - congruence.
  - exfalso. specialize (Hsp (fun e => e)). unfold spec_admit in Hsp. rewrite HeA in Hsp.
    destruct (Z.leb_spec (j_received eA + 1) (j_received eA)); [lia|].
    destruct (Z.gtb_spec (j_received eA + 1) (j_received eA + 1)); [lia|]. congruence.
Qed.

(** ** A page of records *)

Definition frame (r : bytes) : bytes := be16 (u16 (zlen r)) ++ r.
Definition frames (rs : list bytes) : bytes := concat (frame <$> rs).

(** The peer's records from [seq] on. *)
Definition run_of (iss : bytes) (st seq : Z) (rs : list bytes) : Prop :=
  forall i r, rs !! i = Some r -> held2 cB iss st (seq + Z.of_nat i) = Some r.

Lemma run_of_cons iss st seq r rs : run_of iss st seq (r :: rs) <-> held2 cB iss st seq = Some r /\ run_of iss st (seq + 1) rs.
Proof.
  split.
  - intros H. split; [rewrite <- (Z.add_0_r seq); by apply (H 0%nat)|]. intros i x Hx.
    replace (seq + 1 + Z.of_nat i) with (seq + Z.of_nat (S i)) by lia. by apply H.
  - intros [H0 H] [|i] x Hx; cbn in Hx; [simplify_eq; by rewrite Z.add_0_r|].
    replace (seq + Z.of_nat (S i)) with (seq + 1 + Z.of_nat i) by lia. by apply H.
Qed.

Lemma frame_read (pre r post : bytes) :
  zlen r <= FZN_RECORD_MAX_LEN ->
  let b := pre ++ frame r ++ post in
  fzn_get_be16 b (zlen pre) = zlen r /\ slice (zlen pre + 2) (zlen r) b = r /\ zlen b - zlen pre - 2 >= zlen r.
Proof.
  intros Hr b. change FZN_RECORD_MAX_LEN with 700 in Hr. pose proof (zlen_nonneg r). pose proof (zlen_nonneg pre).
  pose proof (zlen_nonneg post).
  assert (u16 (zlen r) = zlen r) as Eu by (apply u16_small; ulia). split_and!.
  - apply get_be16_of; [done|ulia|]. unfold b, frame. rewrite Eu, <- app_assoc. by apply slice_mid.
  - assert (b = (pre ++ be16 (zlen r)) ++ r ++ post) as -> by (unfold b, frame; rewrite Eu, <- !app_assoc; done).
    apply slice_mid; [rewrite zlen_app, zlen_be16; lia|done].
  - unfold b, frame. rewrite !zlen_app, zlen_be16. lia.
Qed.

Section Stream.
Context (iss : bytes) (st : Z) (eB : fzn_journal_entry).
Hypothesis (HeB : positions jB !! (iss, st) = Some eB) (Htop : j_received eB < UINT64_MAX).

(** Where a host stands on this stream, on the peer's line. *)
Definition stands_at (h : host) (s : Z) : Prop :=
  exists e, positions (h_journal h) !! (iss, st) = Some e /\ j_received e = s /\ id_at iss st s (j_head e).

(** The positions of every other stream are untouched. *)
Definition same_elsewhere (h h' : host) : Prop :=
  forall k, k <> (iss, st) -> positions (h_journal h') !! k = positions (h_journal h) !! k.

Lemma take_frames want recs : q_issuer want = iss -> q_stream want = st -> forall pre (h : host) next left tally,
  host_ok h -> stands_at h (next - 1) -> 0 < next -> run_of iss st next recs -> next + zlen recs - 1 <= j_received eB ->
  zlen recs <= left -> 0 < left <= UINT64_MAX ->
  exists h' tally',
    take_loop ops sign_ hash (length recs) want (pre ++ frames recs) (zlen pre) h (mk_paging next left) tally
    = (negb (zlen recs =? left), FZN_EXCHANGE_OK, h', mk_paging (next + zlen recs) (left - zlen recs), tally') /\
    host_ok h' /\ stands_at h' (next + zlen recs - 1) /\ same_elsewhere h h'.
Proof.
  intros Hqi Hqs. induction recs as [|r recs IH]; intros pre h next left tally Hh Hat Hpos Hrun Hle Hll Hleft; cbn [length take_loop].
  { rewrite zlen_nil in *. exists h, tally. destruct (Z.eqb_spec 0 left); [lia|].
    rewrite Z.add_0_r, Z.sub_0_r. split_and!; auto. by intros k. }
  assert (zlen (r :: recs) = zlen recs + 1) as El by (unfold zlen; cbn [length]; lia).
  rewrite El in *. pose proof (zlen_nonneg recs). apply run_of_cons in Hrun as [Hr Hrun].
  destruct Hat as (eA & HeA & Hrec & Hid).
  destruct (peer_record iss st eB next HeB) as (r' & id & Hr' & Hg & _); [lia|]. assert (r' = r) as -> by congruence.
  assert (zlen r <= FZN_RECORD_MAX_LEN) as Hlen by (eapply placed_len, ge_placed, Hg).
  destruct (frame_read pre r (frames recs) Hlen) as (Hget & Hsl & Hroom).
  change (frames (r :: recs)) with (frame r ++ frames recs). pose proof (zlen_nonneg r).
  destruct (Z.ltb_spec (zlen (pre ++ frame r ++ frames recs) - zlen pre) 2); [lia|]. rewrite Hget.
  destruct (Z.ltb_spec (zlen (pre ++ frame r ++ frames recs) - zlen pre - 2) (zlen r)); [lia|]. rewrite Hsl. cbn [pg_next pg_left].
  assert (next_record sign_ hash want r next = Some (r, id)) as ->.
  { destruct Hg as [(Ho & Hi & Hs & Hn) Hv Hd _]. unfold next_record. apply open_is_open in Ho as ->.
    rewrite Hqi, Hqs, Hi, Hs, Hn, memeq_refl, !Z.eqb_refl, Hv, Hd. done. }
  rewrite Hqi, Hqs. assert (next = j_received eA + 1) as En by lia.
  destruct (take_one h iss st eA eB r id Hh HeA HeB) as (j' & c' & Ha & Hput & Hok & Hpos' & Hid'); [lia|by rewrite Hrec|by rewrite <- En|by rewrite <- En|].
  rewrite En, Ha, Hput. rewrite <- En in *. rewrite !u64_small by ulia.
  assert (same_elsewhere h (mk_host j' c')) as Helse.
  { intros k Hk. cbn. rewrite Hpos'. by rewrite lookup_insert_ne. }
  assert (stands_at (mk_host j' c') next) as Hat'.
  { eexists. cbn. rewrite Hpos', lookup_insert_eq. split; [done|]. cbn. split; [done|]. done. }
  destruct (Z.eqb_spec (left - 1) 0) as [Hl0|Hl0].
  - exists (mk_host j' c'), (count_learned tally). assert (zlen recs = 0) as -> by lia.
    destruct (Z.eqb_spec (0 + 1) left); [|lia]. split_and!; auto.
    by replace (next + (0 + 1) - 1) with next by lia.
  - assert (pre ++ frame r ++ frames recs = (pre ++ frame r) ++ frames recs) as -> by (by rewrite app_assoc).
    replace (zlen pre + 2 + zlen r) with (zlen (pre ++ frame r)) by (unfold frame; rewrite !zlen_app, zlen_be16; lia).
    destruct (IH (pre ++ frame r) (mk_host j' c') (next + 1) (left - 1) (count_learned tally)) as (h' & tally' & Hloop & Hok' & Hat2 & Helse2);
      try lia; auto.
    { by replace (next + 1 - 1) with next by lia. }
    exists h', tally'. rewrite Hloop. split.
    { replace (zlen recs + 1 =? left) with (zlen recs =? left - 1)
        by (destruct (Z.eqb_spec (zlen recs) (left - 1)), (Z.eqb_spec (zlen recs + 1) left); done || (exfalso; lia)).
      replace (next + (zlen recs + 1)) with (next + 1 + zlen recs) by lia.
      by replace (left - (zlen recs + 1)) with (left - 1 - zlen recs) by lia. }
    split_and!; auto.
    + by replace (next + (zlen recs + 1) - 1) with (next + 1 + zlen recs - 1) by lia.
    + intros k Hk. rewrite Helse2 by done. by apply Helse.
Qed.

Lemma records_loop_spec n : forall seq at_ cap count max, 0 < seq -> 0 <= count ->
  exists recs, records_loop ops2 cB iss st n seq (j_received eB) at_ cap count max = (frames recs, count + zlen recs) /\
    run_of iss st seq recs /\ (recs = [] \/ seq + zlen recs - 1 <= j_received eB) /\ zlen recs <= Z.max 0 (max - count) /\
    ((0 < n)%nat -> seq <= j_received eB -> count < max -> count < 65535 -> at_ + 702 <= cap -> recs <> []).
Proof.
  induction n as [|n IH]; intros seq at_ cap count max Hs Hc; cbn [records_loop].
  { exists []. rewrite zlen_nil, Z.add_0_r. split_and!; auto; [by intros []|lia|lia]. }
  assert (([], count) = (frames [], count + zlen (@nil bytes))) as Hstop by (rewrite zlen_nil, Z.add_0_r; done).
  destruct (Z.leb_spec seq (j_received eB)) as [Hle|]; cbn [andb];
    [|exists []; split_and!; auto; [by intros []|unfold zlen; cbn; lia|lia]].
  destruct (Z.ltb_spec count max) as [Hm|]; cbn [andb]; [|exists []; split_and!; auto; [by intros []|unfold zlen; cbn; lia|lia]].
  destruct (Z.ltb_spec count 65535) as [H16|]; [|exists []; split_and!; auto; [by intros []|unfold zlen; cbn; lia|lia]].
  destruct (peer_record iss st eB seq HeB) as (r & id & Hr & Hg & _); [lia|].
  rewrite (store_get_kept (Hlaw := Hlaw2) cB r iss st seq) by (first [lia | apply Hg | exact Hr]).
  assert (zlen r <= 700) as Hlen by (apply (placed_len iss st seq), Hg).
  destruct (Z.ltb_spec (cap - at_) (2 + zlen r)) as [Hroom|Hroom].
  { exists []. split_and!; auto; [by intros []|unfold zlen; cbn; lia|lia]. }
  rewrite u64_small by ulia.
  destruct (IH (seq + 1) (at_ + 2 + zlen r) cap (count + 1) max) as (recs & -> & Hrun & Hlast & Hmax & _); [lia..|].
  exists (r :: recs). assert (zlen (r :: recs) = zlen recs + 1) as -> by (unfold zlen; cbn [length]; lia).
  pose proof (zlen_nonneg recs). split_and!.
  - change (frames (r :: recs)) with (frame r ++ frames recs). unfold frame. rewrite <- app_assoc. f_equal. lia.
  - by apply run_of_cons.
  - right. destruct Hlast as [->|Hlast]; [rewrite zlen_nil; lia|lia].
  - lia.
  - done.
Qed.

Hypothesis (Hiss : is_bytes FZN_PUBKEY_LEN iss) (Hst : in_u32 st).

(** A records query, and what the honest peer answers it. *)
Definition query (next m : Z) : bytes :=
  [FZN_EXCHANGE_VERSION; FZN_EXCHANGE_RECORDS_QUERY] ++ iss ++ be32 st ++ be64 next ++ be16 m.

Lemma query_fields next m : in_u64 next -> in_u16 m ->
  zlen (query next m) = 48 /\ slice 2 32 (query next m) = iss /\ fzn_get_be32 (query next m) 34 = st /\
  fzn_get_be64 (query next m) 38 = next /\ fzn_get_be16 (query next m) 46 = m.
Proof.
  intros Hn Hm. destruct Hiss as [Hl _]. change FZN_PUBKEY_LEN with 32 in Hl.
  assert (query next m = concat [[5; 3]; iss; be32 st; be64 next; be16 m]) as E
    by (unfold query; cbn [concat]; by rewrite app_nil_r).
  split_and!.
  - unfold query. rewrite !zlen_app, zlen_be32, zlen_be64, zlen_be16, Hl. done.
  - rewrite E. apply (slice_field _ 1); [done|done|done].
  - apply get_be32_of; [done|done|]. rewrite E. apply (slice_field _ 2); [done| |done]. cbn [take concat]. rewrite app_nil_r, zlen_app, Hl. done.
  - apply get_be64_of; [done|done|]. rewrite E. apply (slice_field _ 3); [done| |done]. cbn [take concat].
    rewrite app_nil_r, !zlen_app, Hl, zlen_be32. done.
  - apply get_be16_of; [done|done|]. rewrite E. apply (slice_field _ 4); [done| |done]. cbn [take concat].
    rewrite app_nil_r, !zlen_app, Hl, zlen_be32, zlen_be64. done.
Qed.

Lemma honest_records next m cap : 0 < next <= j_received eB -> 0 < m <= 65535 -> FZN_EXCHANGE_REPLY_MIN <= cap ->
  exists recs, recs <> [] /\
    fzn_exchange_answer ops2 jB cB (query next m) cap = ([5; 4] ++ be16 (u16 (zlen recs))) ++ frames recs /\
    run_of iss st next recs /\ next + zlen recs - 1 <= j_received eB /\ zlen recs <= m.
Proof.
  intros Hn Hm Hcap. change FZN_EXCHANGE_REPLY_MIN with 706 in Hcap.
  destruct (query_fields next m) as (Hl & Hi & Hs & Hf & Hx); [ulia|ulia|].
  unfold fzn_exchange_answer, is_msg. rewrite Hl. change (peek (query next m) 0) with 5. change (peek (query next m) 1) with 3.
  change (48 >=? 2) with true. unfold FZN_EXCHANGE_VERSION, FZN_EXCHANGE_DIGEST_QUERY, FZN_EXCHANGE_RECORDS_QUERY.
  change (5 =? 5) with true. change (3 =? 1) with false. change (3 =? 3) with true. cbn [andb].
  unfold answer_records. rewrite Hl. change (48 =? FZN_EXCHANGE_RECORDS_QUERY_LEN) with true. cbn [negb orb].
  unfold FZN_EXCHANGE_RECORDS_HEAD_LEN. destruct (Z.ltb_spec cap 4); [lia|].
  change FZN_PUBKEY_LEN with 32. rewrite Hi, Hs, Hf, Hx. destruct (Z.eqb_spec next 0); [lia|]. destruct (Z.eqb_spec m 0); [lia|]. cbn [orb].
  rewrite next_spec, HeB by apply HB. rewrite Z.min_r by lia. replace (j_received eB + 1 - 1) with (j_received eB) by lia.
  rewrite u64_small by ulia.
  destruct (records_loop_spec (Z.to_nat m) next 4 cap 0 m) as (recs & -> & Hrun & Hlast & Hmax & Hne); [lia..|].
  exists recs. assert (recs <> []) as Hn0 by (apply Hne; lia). split_and!; [done|reflexivity|done| |lia].
  destruct Hlast; [done|lia].
Qed.

(** One records message, asked and taken: the host moves on along the peer's
    line by at least one record and never past what it asked for. *)
Lemma honest_page want (h : host) next left cap tally :
  q_issuer want = iss -> q_stream want = st ->
  host_ok h -> stands_at h (next - 1) -> 0 < next -> 0 < left <= UINT64_MAX -> next + left - 1 <= j_received eB ->
  FZN_EXCHANGE_REPLY_MIN <= cap ->
  exists n h' tally', 0 < n <= left /\
    take_records ops sign_ hash want
      (fzn_exchange_answer ops2 jB cB (query next (u16 (if left >? 65535 then 65535 else left))) cap)
      h (mk_paging next left) tally
    = (negb (n =? left), FZN_EXCHANGE_OK, h', mk_paging (next + n) (left - n), tally') /\
    host_ok h' /\ stands_at h' (next + n - 1) /\ same_elsewhere h h'.
Proof.
  intros Hqi Hqs Hh Hat Hpos Hleft Hle Hcap. set (m := u16 (if left >? 65535 then 65535 else left)).
  assert (m = Z.min left 65535) as Em.
  { unfold m. destruct (Z.gtb_spec left 65535); rewrite u16_small by ulia; lia. }
  destruct (honest_records next m cap) as (recs & Hne & -> & Hrun & Hlast & Hm); [lia..|done|].
  assert (0 < zlen recs) as Hp by (destruct recs; [done|]; unfold zlen; cbn [length]; lia).
  exists (zlen recs). assert (u16 (zlen recs) = zlen recs) as Eu by (apply u16_small; ulia).
  destruct (take_frames want recs Hqi Hqs ([5; 4] ++ be16 (u16 (zlen recs))) h next left tally) as (h' & tally' & Ht & Hrest);
    auto; [lia|].
  exists h', tally'. split; [lia|]. split; [|done]. unfold take_records, is_msg.
  assert (4 <= zlen (([5; 4] ++ be16 (u16 (zlen recs))) ++ frames recs)) as Hl4.
  { pose proof (zlen_nonneg (frames recs)). rewrite !zlen_app, zlen_be16. change (zlen [5; 4]) with 2. lia. }
  destruct (Z.geb_spec (zlen (([5; 4] ++ be16 (u16 (zlen recs))) ++ frames recs)) 2); [|lia].
  change (peek (([5; 4] ++ be16 (u16 (zlen recs))) ++ frames recs) 0) with 5.
  change (peek (([5; 4] ++ be16 (u16 (zlen recs))) ++ frames recs) 1) with 4.
  unfold FZN_EXCHANGE_VERSION, FZN_EXCHANGE_RECORDS, FZN_EXCHANGE_RECORDS_HEAD_LEN. rewrite !Z.eqb_refl. cbn [andb negb orb].
  destruct (Z.ltb_spec (zlen (([5; 4] ++ be16 (u16 (zlen recs))) ++ frames recs)) 4); [lia|].
  assert (fzn_get_be16 (([5; 4] ++ be16 (u16 (zlen recs))) ++ frames recs) 2 = zlen recs) as ->.
  { apply get_be16_of; [done|ulia|]. rewrite Eu, <- app_assoc. by apply slice_mid. }
  destruct (Z.eqb_spec (zlen recs) 0); [lia|].
  replace (Z.to_nat (zlen recs)) with (length recs) by (unfold zlen; lia). exact Ht.
Qed.
End Stream.

(** ** A page of the digest *)

Definition listing : list fzn_sync_position := pos_of <$> jrows jB.

Lemma page_loop_spec room ps : forall w, 0 <= w <= room ->
  page_loop ps room w
  = (concat (position_bytes <$> take (Z.to_nat (room - w)) ps), w + Z.min (room - w) (zlen ps)).
Proof.
  induction ps as [|p ps IH]; intros w Hw; cbn [page_loop].
  { rewrite take_nil. unfold zlen. cbn [length fmap list_fmap concat]. f_equal. lia. }
  assert (zlen (p :: ps) = zlen ps + 1) as -> by (unfold zlen; cbn [length]; lia). pose proof (zlen_nonneg ps).
  destruct (Z.ltb_spec w room).
  - rewrite IH by lia. replace (Z.to_nat (room - w)) with (S (Z.to_nat (room - (w + 1)))) by lia.
    cbn [take fmap list_fmap concat]. f_equal. lia.
  - replace (Z.to_nat (room - w)) with 0%nat by lia. rewrite take_0. f_equal. lia.
Qed.

Lemma zlen_position p : position_ok p -> zlen (position_bytes p) = 44.
Proof. intros ([Hl _] & _). unfold position_bytes. rewrite !zlen_app, Hl, zlen_be32, zlen_be64. done. Qed.

Lemma zlen_positions ps : Forall position_ok ps -> zlen (concat (position_bytes <$> ps)) = 44 * zlen ps.
Proof.
  induction 1 as [|p ps Hp _ IH]; [done|]. cbn [fmap list_fmap concat]. rewrite zlen_app, IH, zlen_position by done.
  unfold zlen. cbn [length]. lia.
Qed.

Lemma position_read pre p post : position_ok p ->
  let b := pre ++ position_bytes p ++ post in
  mk_pos (slice (zlen pre) FZN_PUBKEY_LEN b) (fzn_get_be32 b (zlen pre + 32)) (fzn_get_be64 b (zlen pre + 36)) = p.
Proof.
  intros ([Hl _] & Hs & Hr) b. change FZN_PUBKEY_LEN with 32 in *. pose proof (zlen_nonneg pre).
  assert (b = concat [pre; p_issuer p; be32 (p_stream p); be64 (p_received p); post]) as E
    by (unfold b, position_bytes; cbn [concat]; rewrite app_nil_r, <- !app_assoc; done).
  destruct p as [iss st rc]. cbn [p_issuer p_stream p_received] in *. rewrite E. f_equal.
  - apply (slice_field _ 1); [done| |done]. cbn [take concat]. by rewrite app_nil_r.
  - apply get_be32_of; [lia|done|]. apply (slice_field _ 2); [done| |done]. cbn [take concat].
    rewrite app_nil_r, zlen_app, Hl. done.
  - apply get_be64_of; [lia|done|]. apply (slice_field _ 3); [done| |done]. cbn [take concat].
    rewrite app_nil_r, !zlen_app, Hl, zlen_be32. lia.
Qed.

Lemma positions_loop_spec ps : forall pre d, Forall position_ok ps -> d_n d + zlen ps <= 1024 ->
  positions_loop (length ps) (pre ++ concat (position_bytes <$> ps)) (zlen pre) d
  = mk_digest (d_n d + zlen ps) (d_total d) (d_pages d) (d_theirs d ++ ps).
Proof.
  induction ps as [|p ps IH]; intros pre d Hps Hn; cbn [length positions_loop].
  { unfold zlen. cbn [length]. rewrite app_nil_r, Z.add_0_r. by destruct d. }
  apply Forall_cons_iff in Hps as [Hp Hps].
  assert (zlen (p :: ps) = zlen ps + 1) as El by (unfold zlen; cbn [length]; lia). rewrite El in *. pose proof (zlen_nonneg ps).
  unfold FZN_SYNC_MAX_POSITIONS. destruct (Z.ltb_spec (d_n d) 1024); [|lia]. cbn [fmap list_fmap concat].
  rewrite position_read by done. rewrite app_assoc.
  replace (zlen pre + FZN_EXCHANGE_POSITION_LEN) with (zlen (pre ++ position_bytes p))
    by (rewrite zlen_app, zlen_position by done; done).
  rewrite IH by (cbn; first [done|lia]). cbn. rewrite <- app_assoc. cbn [app]. f_equal. lia.
Qed.

Lemma listing_ok : Forall position_ok listing /\ zlen listing = j_used jB.
Proof.
  split; [apply digest_positions_ok, HB|]. unfold listing. unfold zlen. rewrite length_fmap.
  fold (zlen (jrows jB)). apply (zlen_jrows jB), HB.
Qed.

Hypothesis (HuB : j_used jB <= FZN_SYNC_MAX_POSITIONS).

(** What the honest peer answers the query for the page at [n]. *)
Lemma honest_digest n cap : 0 <= n <= zlen listing -> FZN_EXCHANGE_REPLY_MIN <= cap ->
  exists m, 0 <= m <= zlen listing - n /\ (n < zlen listing -> 0 < m) /\
    fzn_exchange_answer ops2 jB cB ([5; 1] ++ be16 (u16 n)) cap
    = ([5; 2] ++ be16 (zlen listing) ++ be16 n ++ be16 m)
        ++ concat (position_bytes <$> take (Z.to_nat m) (drop (Z.to_nat n) listing)).
Proof.
  intros Hn Hcap. change FZN_EXCHANGE_REPLY_MIN with 706 in Hcap. unfold FZN_SYNC_MAX_POSITIONS in HuB.
  destruct listing_ok as [_ Hl]. rewrite Hl in *.
  assert (u16 n = n) as En by (apply u16_small; ulia). rewrite En.
  unfold fzn_exchange_answer, is_msg. change (zlen ([5; 1] ++ be16 n)) with 4.
  change (peek ([5; 1] ++ be16 n) 0) with 5. change (peek ([5; 1] ++ be16 n) 1) with 1.
  unfold FZN_EXCHANGE_VERSION, FZN_EXCHANGE_DIGEST_QUERY. change (4 >=? 2) with true. rewrite !Z.eqb_refl. cbn [andb].
  unfold answer_digest. change (zlen ([5; 1] ++ be16 n)) with 4. change (4 =? FZN_EXCHANGE_DIGEST_QUERY_LEN) with true. cbn [negb orb].
  unfold FZN_EXCHANGE_DIGEST_HEAD_LEN. destruct (Z.ltb_spec cap 8); [lia|].
  destruct (digest_examined jB ltac:(apply HB) HuB) as (-> & _ & _). cbn [fst]. fold listing. rewrite Hl.
  assert (fzn_get_be16 ([5; 1] ++ be16 n) 2 = n) as -> by (apply get_be16_of; [done|ulia|done]).
  destruct (Z.gtb_spec n (j_used jB)); [lia|]. unfold FZN_EXCHANGE_POSITION_LEN.
  assert (15 <= (cap - 8) / 44) as Hroom by (Z.to_euclidean_division_equations; lia).
  set (room := (cap - 8) / 44) in *. clearbody room.
  rewrite page_loop_spec by lia. rewrite Z.sub_0_r, Z.add_0_l.
  assert (zlen (drop (Z.to_nat n) listing) = j_used jB - n) as Hd by (unfold zlen in *; rewrite length_drop; lia).
  rewrite Hd. exists (Z.min room (j_used jB - n)). split; [lia|]. split; [lia|].
  rewrite !u16_small by ulia. unfold FZN_EXCHANGE_DIGEST. rewrite <- !app_assoc. do 5 f_equal.
  destruct (Z.min_spec room (j_used jB - n)) as [[Hm ->]|[Hm ->]]; [done|].
  rewrite !take_ge; [done| |]; unfold zlen in Hd; lia.
Qed.

(** One page taken: the listing read so far, and whether there is more. *)
Lemma honest_digest_taken n total pages cap : 0 <= n <= zlen listing -> (n = 0 \/ n < zlen listing) -> 0 <= pages <= n ->
  FZN_EXCHANGE_REPLY_MIN <= cap ->
  exists n', n <= n' <= zlen listing /\
    if n' <? zlen listing then
      n < n' /\
      let d' := mk_digest n' (zlen listing) (pages + 1) (take (Z.to_nat n') listing) in
      digest_take (mk_digest n total pages (take (Z.to_nat n) listing))
        (fzn_exchange_answer ops2 jB cB ([5; 1] ++ be16 (u16 n)) cap) = (Some (Some (digest_query d')), d')
    else
      digest_take (mk_digest n total pages (take (Z.to_nat n) listing))
        (fzn_exchange_answer ops2 jB cB ([5; 1] ++ be16 (u16 n)) cap)
      = (Some None, mk_digest (zlen listing) (zlen listing) pages listing).
Proof.
  intros Hn Hn0 Hpages Hcap. destruct (honest_digest n cap Hn Hcap) as (m & Hm & Hpos & ->).
  destruct listing_ok as [Hok Hl]. unfold FZN_SYNC_MAX_POSITIONS in HuB. exists (n + m). split; [lia|].
  set (ps := take (Z.to_nat m) (drop (Z.to_nat n) listing)).
  assert (zlen ps = m) as Hps by (unfold ps, zlen in *; rewrite length_take, length_drop; lia).
  assert (Forall position_ok ps) as Hpok by (by apply Forall_take, Forall_drop).
  set (head := [5; 2] ++ be16 (zlen listing) ++ be16 n ++ be16 m).
  set (reply := head ++ concat (position_bytes <$> ps)).
  assert (zlen reply = 8 + m * 44) as Hrl.
  { unfold reply. rewrite zlen_app, zlen_positions, Hps by done. change (zlen head) with 8. lia. }
  assert (fzn_get_be16 reply 2 = zlen listing /\ fzn_get_be16 reply 4 = n /\ fzn_get_be16 reply 6 = m) as (F2 & F4 & F6).
  { split_and!; (apply get_be16_of; [done|ulia|reflexivity]). }
  assert (take (Z.to_nat n) listing ++ ps = take (Z.to_nat (n + m)) listing) as Etake.
  { unfold ps. rewrite <- (take_drop (Z.to_nat n) (take (Z.to_nat (n + m)) listing)). rewrite take_take, take_drop_commute.
    replace (Z.to_nat n `min` Z.to_nat (n + m))%nat with (Z.to_nat n) by lia.
    by replace (Z.to_nat n + Z.to_nat m)%nat with (Z.to_nat (n + m)) by lia. }
  unfold digest_take, is_msg. rewrite Hrl. destruct (Z.geb_spec (8 + m * 44) 2); [|lia].
  change (peek reply 0) with 5. change (peek reply 1) with 2.
  unfold FZN_EXCHANGE_VERSION, FZN_EXCHANGE_DIGEST, FZN_EXCHANGE_DIGEST_HEAD_LEN, FZN_EXCHANGE_POSITION_LEN.
  rewrite !Z.eqb_refl. cbn [andb negb orb]. destruct (Z.ltb_spec (8 + m * 44) 8); [lia|]. cbn [d_n d_total d_pages d_theirs].
  rewrite F2, F4, F6, !Z.eqb_refl. cbn [negb orb]. rewrite u64_small by ulia.
  destruct (Z.gtb_spec m (zlen listing - n)); [lia|]. cbn [orb].
  assert ((m =? 0) && (n <? zlen listing) = false) as ->.
  { destruct (Z.eqb_spec m 0), (Z.ltb_spec n (zlen listing)); try done. specialize (Hpos ltac:(lia)). lia. }
  replace (Z.to_nat m) with (length ps) by (unfold zlen in Hps; lia). change 8 with (zlen head). unfold reply.
  rewrite positions_loop_spec by (cbn; first [done|lia]). cbn [d_n d_total d_pages d_theirs]. rewrite Hps, Etake.
  unfold FZN_SYNC_MAX_POSITIONS. destruct (Z.ltb_spec (n + m) (zlen listing)) as [Hlt|Hge]; cbn [andb].
  - destruct (Z.ltb_spec (n + m) 1024); [|lia]. cbn [d_pages]. destruct (Z.leb_spec (pages + 1) 1024); [|lia].
    split; [|done]. assert (0 < m); [|lia]. apply Hpos. lia.
  - assert (n + m = zlen listing) as -> by lia. by rewrite take_ge by (unfold zlen; lia).
Qed.

(** ** The whole pull *)

Context (A0 : host) (max cap : Z).
Hypothesis (HA0 : host_ok A0) (HuA : j_used (h_journal A0) <= FZN_SYNC_MAX_POSITIONS).
Hypothesis (Hmax : 0 < max <= UINT64_MAX) (Hcap : FZN_EXCHANGE_REPLY_MIN <= cap).
Hypothesis Htop : forall k e, positions jB !! k = Some e -> j_received e < UINT64_MAX.
(** Where the host is not ahead of the peer, it is on the peer's line. *)
Hypothesis Hagree : forall iss st eA eB, positions (h_journal A0) !! (iss, st) = Some eA ->
  positions jB !! (iss, st) = Some eB -> j_received eA <= j_received eB -> id_at iss st (j_received eA) (j_head eA).

Definition Q : list fzn_sync_request := fetch_list (h_journal A0) listing max.

Abbreviation reached h q s := (stands_at (q_issuer q) (q_stream q) h s) (only parsing).

Lemma Q_elem q : q ∈ Q -> exists eA eB, positions (h_journal A0) !! qkey q = Some eA /\ positions jB !! qkey q = Some eB /\
  q_from q = j_received eA + 1 /\ q_count q = Z.min max (j_received eB - j_received eA) /\ 0 < q_count q <= max /\
  q_from q + q_count q - 1 <= j_received eB /\ entry_ok eA /\ is_bytes FZN_PUBKEY_LEN (q_issuer q) /\ in_u32 (q_stream q).
Proof.
  intros Hq. apply (fetch_elems _ jB max) in Hq; [|apply HA0|apply HB|done].
  destruct Hq as (eA & eB & HeA & HeB & Hlt & Eq). rewrite Eq. cbn. exists eA, eB.
  assert (entry_ok eA) as He.
  { apply positions_lookup in HeA as [_ Hin]; [|apply HA0]. pose proof (jo_rows _ (ho_journal _ _ _ HA0)) as HF.
    rewrite list.Forall_forall in HF. by apply HF. }
  assert (key_of eA = qkey q) as Hk by (apply positions_lookup in HeA as [? _]; [done|apply HA0]).
  unfold qkey, key_of in Hk. injection Hk as Hk1 Hk2. split_and!; auto; try lia; [rewrite <- Hk1|rewrite <- Hk2]; apply He.
Qed.

Lemma Q_len : zlen Q <= 1024.
Proof.
  pose proof (fetch_list_len (h_journal A0) listing max (ho_journal _ _ _ HA0)). unfold Q, FZN_SYNC_MAX_POSITIONS in *. lia.
Qed.

Lemma Q_counts : Forall (fun q => 0 < q_count q <= max) Q.
Proof. apply list.Forall_forall. intros q Hq. by destruct (Q_elem q Hq) as (? & ? & _ & _ & _ & _ & ? & _). Qed.

(** The first [n] ranges taken whole, and nothing else touched. *)
Record between (h : host) (n : Z) : Prop := {
  bw_host : host_ok h;
  bw_done : forall i q, (i < Z.to_nat n)%nat -> Q !! i = Some q -> reached h q (q_from q + q_count q - 1);
  bw_else : forall k, (forall i q, (i < Z.to_nat n)%nat -> Q !! i = Some q -> qkey q <> k) ->
    positions (h_journal h) !! k = positions (h_journal A0) !! k
}.

(** The same, and range [n] taken up to but not including [next]. *)
Record during (h : host) (n next left : Z) (q : fzn_sync_request) : Prop := {
  du_host : host_ok h;
  du_done : forall i q, (i < Z.to_nat n)%nat -> Q !! i = Some q -> reached h q (q_from q + q_count q - 1);
  du_now : reached h q (next - 1);
  du_left : next + left = q_from q + q_count q /\ q_from q <= next /\ 0 < left;
  du_else : forall k, (forall i q, (i <= Z.to_nat n)%nat -> Q !! i = Some q -> qkey q <> k) ->
    positions (h_journal h) !! k = positions (h_journal A0) !! k
}.

Lemma Q_keys i i' q q' : Q !! i = Some q -> Q !! i' = Some q' -> qkey q = qkey q' -> i = i'.
Proof.
  intros Hi Hi' Hk. pose proof (fetch_nodup (h_journal A0) listing max (ho_journal _ _ _ HA0) : NoDup (qkey <$> Q)) as Hnd.
  apply (NoDup_lookup _ i i' (qkey q) Hnd); rewrite list_lookup_fmap; [by rewrite Hi|by rewrite Hi', Hk].
Qed.

Lemma between_start h n q : 0 <= n -> between h n -> Q !! Z.to_nat n = Some q -> during h n (q_from q) (q_count q) q.
Proof.
  intros Hn [Hh Hd He] Hq. destruct (Q_elem q) as (eA & eB & HeA & HeB & Hf & Hc & Hpos & Htop' & _); [by eapply list_elem_of_lookup_2|].
  split; auto; [|lia|].
  - exists eA. assert (positions (h_journal h) !! qkey q = positions (h_journal A0) !! qkey q) as E.
    { apply He. intros i q' Hi Hq' Hk. pose proof (Q_keys _ _ _ _ Hq' Hq Hk). lia. }
    unfold qkey in *. rewrite E. replace (q_from q - 1) with (j_received eA) by lia. split_and!; auto.
    eapply Hagree; eauto. lia.
  - intros k Hk. apply He. intros i q' Hi Hq'. apply (Hk i); [lia|done].
Qed.

(** One message of range [n]. *)
Lemma during_page h n next left q tally : 0 <= n -> Q !! Z.to_nat n = Some q -> during h n next left q ->
  exists m h' tally', 0 < m <= left /\
    take_records ops sign_ hash q
      (fzn_exchange_answer ops2 jB cB
         (query (q_issuer q) (q_stream q) next (u16 (if left >? 65535 then 65535 else left))) cap) h (mk_paging next left) tally
    = (negb (m =? left), FZN_EXCHANGE_OK, h', mk_paging (next + m) (left - m), tally') /\
    if m =? left then between h' (n + 1) else during h' n (next + m) (left - m) q.
Proof.
  intros Hn Hq [Hh Hd Hnow (Hl1 & Hl2 & Hl3) He].
  destruct (Q_elem q) as (eA & eB & HeA & HeB & Hf & Hc & Hpos & Htop' & HeAok & Hiss & Hst); [by eapply list_elem_of_lookup_2|].
  pose proof (eo_applied _ HeAok). pose proof (Htop _ _ HeB).
  destruct (honest_page (q_issuer q) (q_stream q) eB HeB (Htop _ _ HeB) Hiss Hst q h next left cap tally eq_refl eq_refl)
    as (m & h' & tally' & Hm & Ht & Hh' & Hat & Helse); auto; [lia|ulia|lia|].
  exists m, h', tally'. split; [done|]. split; [done|].
  assert (forall i q', (i < Z.to_nat n)%nat -> Q !! i = Some q' -> reached h' q' (q_from q' + q_count q' - 1)) as Hd'.
  { intros i q' Hi Hq'. destruct (Hd i q' Hi Hq') as (e & He' & Hr & Hid). exists e. split_and!; auto.
    rewrite Helse; [done|]. intros Hk. pose proof (Q_keys i (Z.to_nat n) q' q Hq' Hq Hk). lia. }
  assert (forall k, (forall i q, (i <= Z.to_nat n)%nat -> Q !! i = Some q -> qkey q <> k) ->
    positions (h_journal h') !! k = positions (h_journal A0) !! k) as He'.
  { intros k Hk. rewrite Helse; [by apply He|]. intros ->. by apply (Hk (Z.to_nat n) q ltac:(lia) Hq). }
  destruct (Z.eqb_spec m left) as [->|Hne].
  - split; auto.
    + intros i q' Hi Hq'. destruct (decide (i = Z.to_nat n)) as [->|]; [|apply (Hd' i); [lia|done]].
      assert (q' = q) as -> by congruence. by replace (q_from q + q_count q - 1) with (next + left - 1) by lia.
    + intros k Hk. apply He'. intros i q' Hi Hq'. apply (Hk i); [lia|done].
  - split; auto. lia.
Qed.

(** The pull waiting for the answer to [request]. *)
Definition pulling_at (p : fzn_exchange_pulling) (h : host) (request : bytes) : Prop :=
  pl_max_per_request p = max /\
  match pl_phase p with
  | PULL_DIGEST =>
    h = A0 /\ exists n total pages, pl_digest p = mk_digest n total pages (take (Z.to_nat n) listing) /\
      0 <= n <= zlen listing /\ (n = 0 \/ n < zlen listing) /\ 0 <= pages <= n /\ request = [5; 1] ++ be16 (u16 n)
  | PULL_RECORDS =>
    pl_plan_out p = Q /\ request_count (pl_plan p) = zlen Q /\ 0 <= pl_want p /\ request = records_query p /\
    exists q, Q !! Z.to_nat (pl_want p) = Some q /\ during h (pl_want p) (pg_next (pl_paging p)) (pg_left (pl_paging p)) q
  | PULL_DONE => False
  end.

(** On to the next range, or done. *)
Lemma next_want_at p h :
  pl_max_per_request p = max -> pl_phase p = PULL_RECORDS -> pl_plan_out p = Q -> request_count (pl_plan p) = zlen Q ->
  0 <= pl_want p <= zlen Q -> between h (pl_want p) ->
  match next_want (wants_left p) p with
  | (None, _) => between h (zlen Q)
  | (Some request, p') => pulling_at p' h request
  end.
Proof.
  intros Hm Hph Ho Hc Hw Hb. pose proof (next_want_spec max p) as H. rewrite Ho in H. specialize (H Hw Hc Q_counts).
  destruct (Q !! Z.to_nat (pl_want p)) as [q|] eqn:Eq; cbv zeta in H; rewrite H.
  - unfold pulling_at. cbn [with_want pl_max_per_request pl_phase pl_plan_out pl_plan pl_want pl_paging pg_next pg_left].
    rewrite Hph. split_and!; auto; [lia|]. exists q. split; [done|]. apply between_start; [lia|done|done].
  - apply lookup_ge_None in Eq. by replace (zlen Q) with (pl_want p) by (unfold zlen in *; lia).
Qed.

Lemma between_0 : between A0 0.
Proof. split; [done| |done]. intros i q Hi. lia. Qed.

Lemma plan_pull_at p o p' :
  pl_max_per_request p = max -> d_theirs (pl_digest p) = listing -> plan_pull p A0 = (o, p') ->
  match o with Ask request => pulling_at p' A0 request | Done => between A0 (zlen Q) | Failed _ => False end.
Proof.
  intros Hm Hd Hp. unfold plan_pull in Hp. rewrite Hm, Hd in Hp. destruct listing_ok as [Hok _].
  rewrite plan_fetch_spec in Hp by (first [apply HA0 | done | lia]). fold Q in Hp. unfold FZN_SYNC_MAX_POSITIONS in Hp.
  pose proof Q_len. pose proof (zlen_nonneg Q). rewrite (take_ge Q) in Hp by (unfold zlen in *; lia).
  rewrite (Z.min_r 1024 (zlen Q)) in Hp by lia. cbn [request_count] in Hp.
  match type of Hp with context [next_want (wants_left ?p0) ?p0] => pose proof (next_want_at p0 A0) as Hn;
    destruct (next_want (wants_left p0) p0) as [r p1] end.
  injection Hp as <- <-. destruct r as [q|]; cbn; apply Hn; auto; try (cbn; lia); apply between_0.
Qed.

(** What the honest peer answers, as the pull's driver sees it. *)
Definition honest (w : unit) (request : bytes) (cap : Z) : option bytes * unit :=
  match fzn_exchange_answer ops2 jB cB request cap with [] => (None, w) | b => (Some b, w) end.

Lemma honest_step p h request out p' h' :
  pulling_at p h request ->
  fzn_exchange_pull_step ops sign_ hash p h (fst (honest tt request cap)) FZN_EXCHANGE_RECORDS_QUERY_LEN = (out, p', h') ->
  match out with Ask request' => pulling_at p' h' request' | Done => between h' (zlen Q) | Failed _ => False end.
Proof.
  intros [Hm Hat] Hs. unfold fzn_exchange_pull_step in Hs.
  change (FZN_EXCHANGE_RECORDS_QUERY_LEN <? FZN_EXCHANGE_RECORDS_QUERY_LEN) with false in Hs. cbv iota in Hs.
  destruct (pl_phase p) eqn:Hph; [| |done].
  - destruct Hat as (-> & n & total & pages & Hd & Hn & Hn0 & Hpg & ->).
    destruct (honest_digest_taken n total pages cap Hn Hn0 Hpg Hcap) as (n' & Hn' & Htake).
    assert (fst (honest tt ([5; 1] ++ be16 (u16 n)) cap) = Some (fzn_exchange_answer ops2 jB cB ([5; 1] ++ be16 (u16 n)) cap)) as Eh.
    { destruct (honest_digest n cap Hn Hcap) as (m & _ & _ & E). unfold honest. rewrite E. reflexivity. }
    rewrite Eh, Hd in Hs. destruct (Z.ltb_spec n' (zlen listing)).
    + destruct Htake as [Hlt Htake]. cbv zeta in Htake. rewrite Htake in Hs. injection Hs as <- <- <-.
      unfold pulling_at. cbn [pl_max_per_request pl_phase pl_digest]. split; [done|]. split; [done|].
      exists n', (zlen listing), (pages + 1). split_and!; auto; lia.
    + rewrite Htake in Hs. destruct (plan_pull _ _) as [o p1] eqn:Ep. injection Hs as <- <- <-.
      eapply plan_pull_at; [| |exact Ep]; done.
  - destruct Hat as (Ho & Hc & Hw & -> & q & Hq & Hdu).
    assert (wanted_at p = q) as Ewq by (unfold wanted_at; rewrite Ho; by apply nth_lookup_Some).
    destruct (during_page h (pl_want p) _ _ q (pl_tally p) Hw Hq Hdu) as (m & h1 & tally & Hmm & Ht & Hnext).
    set (b := fzn_exchange_answer _ _ _ _ _) in Ht.
    assert (fst (honest tt (records_query p) cap) = Some b) as Eh.
    { unfold honest. replace (fzn_exchange_answer ops2 jB cB (records_query p) cap) with b
        by (unfold b, records_query, query; by rewrite Ewq).
      destruct b; [|done]. unfold take_records, is_msg in Ht. cbn in Ht. done. }
    rewrite Eh in Hs. unfold page_pull in Hs. rewrite Ewq in Hs.
    replace (pl_paging p) with (mk_paging (pg_next (pl_paging p)) (pg_left (pl_paging p))) in Hs by (by destruct (pl_paging p)).
    rewrite Ht in Hs. cbn [pg_left] in Hs. destruct (Z.eqb_spec m (pg_left (pl_paging p))) as [->|Hne]; cbn [negb andb] in Hs.
    + match type of Hs with context [next_want (wants_left ?p0) ?p0] => pose proof (next_want_at p0 h1) as Hn;
        destruct (next_want (wants_left p0) p0) as [r p1] end.
      injection Hs as <- <- <-. pose proof (lookup_lt_Some _ _ _ Hq) as Hlt.
      destruct r as [rq|]; cbn; apply Hn; auto; cbn; unfold zlen; lia.
    + destruct (Z.eqb_spec (pg_left (pl_paging p) - m) 0); [lia|]. cbn [negb] in Hs. injection Hs as <- <- <-.
      unfold pulling_at. cbn [pl_max_per_request pl_phase pl_plan_out pl_plan pl_want pl_paging pg_next pg_left].
      rewrite Hph. split_and!; auto. exists q. split; [done|]. exact Hnext.
Qed.

Lemma honest_loop n : forall p h request err p' h' w',
  pulling_at p h request -> pull_loop ops sign_ hash honest n tt p h request cap = Some (err, p', h', w') ->
  err = FZN_EXCHANGE_OK /\ between h' (zlen Q).
Proof.
  induction n as [|n IH]; intros p h request err p' h' w' Hat Hl; cbn [pull_loop] in Hl; [done|].
  destruct (honest tt request cap) as [reply []] eqn:Eh.
  destruct (fzn_exchange_pull_step _ _ _ _ _ _ _) as [[out p1] h1] eqn:Es.
  pose proof (honest_step p h request out p1 h1 Hat) as Hstep. rewrite Eh in Hstep. specialize (Hstep Es).
  destruct out; [by eapply IH| |done]. by simplify_eq.
Qed.

(** ** An honest peer answers with bytes *)

Lemma page_loop_bytes room ps : forall w, Forall position_ok ps -> Forall in_u8 (fst (page_loop ps room w)).
Proof.
  induction ps as [|p ps IH]; intros w Hps; cbn [page_loop]; [by apply Forall_nil_2|].
  apply Forall_cons_iff in Hps as [([_ Hp] & _) Hps]. destruct (w <? room); [|by apply Forall_nil_2].
  specialize (IH (w + 1) Hps). destruct (page_loop ps room (w + 1)) as [rest n]. cbn [fst] in *.
  unfold position_bytes. rewrite !Forall_app. split_and!; auto using be32_range, be64_range.
Qed.

Lemma records_loop_bytes iss st n : forall seq last at_ cap' count m,
  Forall in_u8 (fst (records_loop ops2 cB iss st n seq last at_ cap' count m)).
Proof.
  induction n as [|n IH]; intros seq last at_ cap' count m; cbn [records_loop]; [by apply Forall_nil_2|].
  destruct (_ && _); [|by apply Forall_nil_2].
  destruct (fzn_record_store_get _ _ _ _ _ _) as [[] [r|]] eqn:Eg; try by apply Forall_nil_2.
  apply store_get_placed in Eg as (_ & _ & Hg). destruct (_ <? _); [by apply Forall_nil_2|].
  specialize (IH (u64 (seq + 1)) last (at_ + 2 + zlen r) cap' (count + 1) m).
  destruct (records_loop _ _ _ _ _ _ _ _ _ _) as [rest n']. cbn [fst] in *.
  rewrite !Forall_app. split_and!; auto using be16_range. rewrite lb_get in Hg.
  destruct (held2 cB iss st seq) as [r'|] eqn:Eh; [|done]. destruct (_ <=? _); [|done]. simplify_eq/=.
  destruct (ho_store _ _ _ HB iss st seq r Eh) as (e & He & Hs).
  destruct (peer_record iss st e seq He Hs) as (r0 & id & Hr0 & Hgen & _). assert (r0 = r) as -> by congruence. apply Hgen.
Qed.

Lemma answer_bytes request cap' : Forall in_u8 (fzn_exchange_answer ops2 jB cB request cap').
Proof.
  assert (Forall in_u8 [5; 2] /\ Forall in_u8 [5; 4]) as [H2 H4] by (repeat constructor; ulia).
  unfold fzn_exchange_answer, answer_digest, answer_records.
  destruct (is_msg _ _); [destruct (_ || _); [by apply Forall_nil_2|]|
    destruct (is_msg _ _); [|by apply Forall_nil_2]; destruct (_ || _); [by apply Forall_nil_2|];
    destruct (_ || _); [by apply Forall_nil_2|]].
  - destruct (digest_examined jB ltac:(apply HB) HuB) as (-> & _ & _). cbn [fst]. fold listing.
    match goal with |- context [page_loop ?ps ?room 0] => pose proof (page_loop_bytes room ps 0) as Hp;
      destruct (page_loop ps room 0) as [page n] end.
    cbn [fst] in Hp. rewrite !Forall_app. split_and!; auto using be16_range. apply Hp, Forall_drop, listing_ok.
  - match goal with |- context [records_loop _ _ ?i ?s ?n ?q ?l ?a ?c ?k ?m] =>
      pose proof (records_loop_bytes i s n q l a c k m) as Hp; destruct (records_loop _ _ _ _ _ _ _ _ _ _) as [page k'] end.
    rewrite !Forall_app. split_and!; auto using be16_range.
Qed.

Lemma honest_bytes w request cap' b w' : honest w request cap' = (Some b, w') -> Forall in_u8 b.
Proof.
  unfold honest. pose proof (answer_bytes request cap') as H. destruct (fzn_exchange_answer _ _ _ _ _); [done|].
  intros [= <- _]. done.
Qed.

(** What the host holds of a stream after every range was taken. *)
Definition caught_up (h : host) (iss : bytes) (st : Z) : Prop :=
  match positions (h_journal A0) !! (iss, st), positions jB !! (iss, st) with
  | Some eA, Some eB =>
    exists e, positions (h_journal h) !! (iss, st) = Some e /\
      j_received e = Z.max (j_received eA) (Z.min (j_received eB) (j_received eA + max)) /\
      (j_received eA < j_received eB -> id_at iss st (j_received e) (j_head e))
  | eA, _ => positions (h_journal h) !! (iss, st) = eA
  end.

Lemma all_taken h iss st : between h (zlen Q) -> caught_up h iss st.
Proof.
  intros [_ Hd He]. unfold caught_up.
  assert (forall eA eB, positions (h_journal A0) !! (iss, st) = Some eA -> positions jB !! (iss, st) = Some eB ->
    j_received eA < j_received eB -> exists q, q ∈ Q /\ qkey q = (iss, st)) as Hin.
  { intros eA eB HA HB' Hlt. exists (mk_req iss st (j_received eA + 1) (Z.min max (j_received eB - j_received eA))).
    split; [|done]. apply (fetch_elems _ jB max); [apply HA0|apply HB|done|]. by exists eA, eB. }
  assert ((forall q, q ∈ Q -> qkey q <> (iss, st)) -> positions (h_journal h) !! (iss, st) = positions (h_journal A0) !! (iss, st)) as Hsame.
  { intros H. apply He. intros i q _ Hq. eapply H, list_elem_of_lookup_2, Hq. }
  destruct (positions (h_journal A0) !! (iss, st)) as [eA|] eqn:EA, (positions jB !! (iss, st)) as [eB|] eqn:EB.
  - destruct (Z.lt_ge_cases (j_received eA) (j_received eB)) as [Hlt|Hge].
    + destruct (Hin eA eB) as (q & Hq & Hk); auto. apply list_elem_of_lookup in Hq as Hq'. destruct Hq' as [i Hi].
      destruct (Q_elem q Hq) as (eA' & eB' & HA & HB' & Hf & Hc & _). rewrite Hk in HA, HB'. simplify_eq.
      destruct (Hd i q) as (e & He' & Hr & Hid); [apply lookup_lt_Some in Hi; unfold zlen; lia|done|].
      unfold qkey in Hk. injection Hk as <- <-. exists e. rewrite Hr. split_and!; auto. lia.
    + exists eA. split_and!; [|lia|lia]. apply Hsame. intros q Hq Hk. destruct (Q_elem q Hq) as (? & ? & HA & HB' & _ & Hc & Hp & _).
      rewrite Hk in HA, HB'. simplify_eq. lia.
  - apply Hsame. intros q Hq Hk. destruct (Q_elem q Hq) as (? & ? & _ & HB' & _). rewrite Hk in HB'. congruence.
  - apply Hsame. intros q Hq Hk. destruct (Q_elem q Hq) as (? & ? & HA & _). rewrite Hk in HA. congruence.
  - apply Hsame. intros q Hq Hk. destruct (Q_elem q Hq) as (? & ? & HA & _). rewrite Hk in HA. congruence.
Qed.
End Honest.

(** C5: two nodes that have not diverged come together. A node that pulls from
    an honest peer (one that answers from its own journal and store), and that
    stands on the peer's line wherever it is not ahead, is done within its
    bound on requests and with no error. Every stream both follow then ends
    where the peer stands on it, or [max] records further on than it was, with
    the head the id of the peer's own record there; every other stream, and
    every stream it was ahead on, is as it was. *)
Theorem pull_catches_up {C C2 : Type} (ops : fzn_record_store_ops C) held `{!LawfulBackend ops held}
    (ops2 : fzn_record_store_ops C2) held2 `{!LawfulBackend ops2 held2} sign_ hash A jB cB p max cap n :
  hash_fits hash -> verify sign_ <> None ->
  host_ok (held := held) sign_ hash A -> host_ok (held := held2) sign_ hash (mk_host jB cB) ->
  j_used (h_journal A) <= FZN_SYNC_MAX_POSITIONS -> j_used jB <= FZN_SYNC_MAX_POSITIONS ->
  0 < max <= UINT64_MAX -> FZN_EXCHANGE_REPLY_MIN <= cap ->
  (forall k e, positions jB !! k = Some e -> j_received e < UINT64_MAX) ->
  (forall iss st eA eB, positions (h_journal A) !! (iss, st) = Some eA -> positions jB !! (iss, st) = Some eB ->
     j_received eA <= j_received eB -> id_at (held2 := held2) hash cB iss st (j_received eA) (j_head eA)) ->
  pull_bound max <= Z.of_nat n ->
  exists tally A', fzn_exchange_pull ops sign_ hash (honest (ops2 := ops2) jB cB) n tt p A max cap
                   = Some (FZN_EXCHANGE_OK, Some tally, A', tt) /\
    host_ok (held := held) sign_ hash A' /\
    forall iss st, caught_up (held2 := held2) hash jB cB A max A' iss st.
Proof.
  intros Hhash Hv HA HB HuA HuB Hmax Hcap Htop Hagree Hn. unfold fzn_exchange_pull.
  destruct (Z.ltb_spec cap FZN_EXCHANGE_REPLY_MIN); [lia|].
  unfold fzn_exchange_pull_begin. destruct (Z.eqb_spec max 0); [lia|]. destruct (verify sign_); [|done].
  change (FZN_EXCHANGE_RECORDS_QUERY_LEN <? FZN_EXCHANGE_RECORDS_QUERY_LEN) with false. cbn [orb negb]. unfold digest_begin. cbv beta iota zeta.
  match goal with |- context [pull_loop _ _ _ _ _ _ ?p0 _ ?r _] =>
    destruct (pull_loop_ends sign_ hash max Hhash ltac:(lia) (honest (ops2 := ops2) jB cB) (honest_bytes sign_ hash jB cB HB HuB)
      n tt p0 A r cap) as (err & p' & h' & [] & E);
    [unfold waiting; cbn; split_and!; auto; lia|done|unfold measure, pull_bound in *; cbn; lia|] end.
  rewrite E. eapply honest_loop in E as [-> Hbw]; eauto.
  - eexists _, _. split; [done|]. split; [apply Hbw|]. intros iss st. by eapply all_taken.
  - unfold pulling_at. cbn. split; [done|]. split; [done|]. exists 0, 0, 0. rewrite take_0. pose proof (zlen_nonneg (listing jB)).
    split_and!; auto; lia.
Qed.

(** ** Witness *)

(** A node that follows the demo stream and has none of it, and a peer that
    was pushed its first two records. *)
Definition demo_here : @Exchange.host mem :=
  happened (ops := mem_ops) toy_ops demo_chain_hash (mk_host demo_journal ∅) [Follow (demo_key 1) 7].
Definition demo_there : @Exchange.host mem :=
  happened (ops := mem_ops) toy_ops demo_chain_hash (mk_host demo_journal ∅) demo_events.

Lemma demo_hosts_ok : host_ok (held := mem_held) toy_ops demo_chain_hash demo_here /\
  host_ok (held := mem_held) toy_ops demo_chain_hash demo_there.
Proof.
  destruct (journal_init_ok (mk_journal None 0) (replicate 3 zero_jentry)) as (j & E & Hj & Hp & _); [done|].
  assert (j = demo_journal) as -> by (vm_compute in E; vm_compute; congruence).
  pose proof (empty_host_ok (held := mem_held) toy_ops demo_chain_hash demo_journal ∅ Hj Hp (fun _ _ _ => lookup_empty _)) as H0.
  pose proof demo_events_ok as Hev. split; (eapply happened_keeps; [exact demo_hash_fits|exact H0|]); [|exact Hev].
  apply Forall_cons_iff in Hev as [Hf _]. by apply Forall_cons_2; [|apply Forall_nil_2].
Qed.

Lemma demo_here_positions : map_to_list (positions (h_journal demo_here))
  = [((demo_key 1, 7), mk_jentry (demo_key 1) 7 0 0 (zeros 32) true false)].
Proof. vm_compute. reflexivity. Qed.

Lemma demo_there_positions : (fun x => j_received x.2) <$> map_to_list (positions (h_journal demo_there)) = [2].
Proof. vm_compute. reflexivity. Qed.

Lemma pull_catches_up_witness :
  exists tally A', fzn_exchange_pull mem_ops toy_ops demo_chain_hash
      (honest (ops2 := mem_ops) (h_journal demo_there) (h_store demo_there)) (Z.to_nat (pull_bound 1)) tt
      (mk_pulling 0 PULL_DONE (mk_digest 0 0 0 []) [] (mk_plan 0 0 0 0) 0 (mk_paging 0 0) zero_tally) demo_here 1 1000
    = Some (FZN_EXCHANGE_OK, Some tally, A', tt) /\
    caught_up (held2 := mem_held) demo_chain_hash (h_journal demo_there) (h_store demo_there) demo_here 1 A' (demo_key 1) 7.
Proof.
  destruct demo_hosts_ok as [HA HB].
  destruct (pull_catches_up mem_ops mem_held mem_ops mem_held toy_ops demo_chain_hash demo_here (h_journal demo_there)
    (h_store demo_there) (mk_pulling 0 PULL_DONE (mk_digest 0 0 0 []) [] (mk_plan 0 0 0 0) 0 (mk_paging 0 0) zero_tally)
    1 1000 (Z.to_nat (pull_bound 1))) as (tally & A' & E & _ & H).
  - exact demo_hash_fits.
  - discriminate.
  - exact HA.
  - exact HB.
  - vm_compute. discriminate.
  - vm_compute. discriminate.
  - ulia.
  - vm_compute. discriminate.
  - intros k e He. apply elem_of_map_to_list in He. pose proof demo_there_positions as Hp.
    apply (list_elem_of_fmap_2 (fun x => j_received x.2)) in He. cbn [snd] in He. rewrite Hp in He.
    apply list_elem_of_singleton in He. ulia.
  - intros iss st eA eB He _ _. apply elem_of_map_to_list in He. rewrite demo_here_positions in He.
    apply list_elem_of_singleton in He. injection He as -> -> ->. reflexivity.
  - unfold pull_bound. lia.
  - exists tally, A'. split; [exact E|apply H].
Defined.
