(* ===== verification/State.v ===== *)
(** * state/state.c: what is true now

    A cell for each subject and kind, holding its writer (an issuer and one of
    its streams), the sequence that set it, and a value or a tombstone. A
    state, a record and a subject are given where NULL is MALFORMED; a view of
    nothing is [None]. A body is the bytes the record holds; diagnostics are
    left out. *)

From stdpp Require Import gmap fin_maps.
From S2P Require Import Prelude Table Bytes Hop Records.

Inductive fzn_state_err :=
  | FZN_STATE_OK | FZN_STATE_ERR_MALFORMED | FZN_STATE_ERR_FULL | FZN_STATE_ERR_STALE | FZN_STATE_ERR_CONFLICT
  | FZN_STATE_ABSENT | FZN_STATE_ERR_CROSS_STREAM.

Record fzn_state_entry := mk_sentry {
  se_subject : bytes;
  se_kind : Z;
  se_stream : Z;
  se_issuer : bytes;
  se_seq : Z;
  se_body : option bytes;
  se_body_len : Z;
  se_live : bool }.

(** [s_entries] is the caller's array, [None] for NULL; what a state claims of
    it, in [s_capacity] and [s_used], may be wrong. *)
Record fzn_state := mk_state {
  s_entries : option (list fzn_state_entry);
  s_capacity : Z;
  s_used : Z;
  s_forgotten : Z }.

Definition zero_sentry : fzn_state_entry :=
  mk_sentry (zeros FZN_SUBJECT_LEN) 0 0 (zeros FZN_PUBKEY_LEN) 0 None 0 false.

(** The cells every scan walks. *)
Definition srows (s : fzn_state) : list fzn_state_entry := take (Z.to_nat (s_used s)) (default [] (s_entries s)).

Definition names (subject : bytes) (kind : Z) (e : fzn_state_entry) : bool :=
  (se_kind e =? kind) && memeq (se_subject e) subject.

Definition find (s : fzn_state) (subject : bytes) (kind : Z) : option nat :=
  last_index (names subject kind) (srows s) 0 None.

Definition fzn_state_sound (s : option fzn_state) : bool :=
  match s with
  | None => false
  | Some s => negb (is_null (s_entries s)) && (s_used s <=? s_capacity s)
  end.

Definition usable (s : fzn_state) : bool := fzn_state_sound (Some s).

(** The state and the slot to write. *)
Definition slot (s : fzn_state) : fzn_state * option nat :=
  if s_used s <? s_capacity s
  then (mk_state (s_entries s) (s_capacity s) (s_used s + 1) (s_forgotten s), Some (Z.to_nat (s_used s)))
  else match find_index (fun e => negb (se_live e)) (srows s) with
  | Some i => (mk_state (s_entries s) (s_capacity s) (s_used s) (u64 (s_forgotten s + 1)), Some i)
  | None => (s, None)
  end.

Definition fzn_state_init (s : fzn_state) (entries : option (list fzn_state_entry)) (capacity : Z)
    : fzn_state_err * fzn_state :=
  match entries with
  | None => (FZN_STATE_ERR_MALFORMED, s)
  | Some es =>
    if capacity =? 0 then (FZN_STATE_ERR_MALFORMED, s)
    else (FZN_STATE_OK, mk_state (Some (replicate (Z.to_nat capacity) zero_sentry ++ drop (Z.to_nat capacity) es)) capacity 0 0)
  end.

(** What a cell holds of a record. *)
Definition stored (record : fzn_record) (live : bool) : fzn_state_entry :=
  mk_sentry (fzn_record_subject record) (fzn_record_kind record) (fzn_record_stream record) (fzn_record_issuer record)
    (fzn_record_seq record) (if live then Some (fzn_record_body record) else None)
    (if live then fzn_record_body_len record else 0) live.

Definition store (s : fzn_state) (i : nat) (record : fzn_record) (live : bool) : fzn_state :=
  mk_state ((fun es => <[i := stored record live]> es) <$> s_entries s) (s_capacity s) (s_used s) (s_forgotten s).

Definition put (s : fzn_state) (record : option bytes) (override live : bool) : fzn_state_err * fzn_state :=
  match record with
  | None => (FZN_STATE_ERR_MALFORMED, s)
  | Some r =>
    if negb (usable s) then (FZN_STATE_ERR_MALFORMED, s)
    else if negb (fzn_record_is_open (Some r)) then (FZN_STATE_ERR_MALFORMED, s)
    else if fzn_record_seq r =? 0 then (FZN_STATE_ERR_MALFORMED, s)
    else match find s (fzn_record_subject r) (fzn_record_kind r) with
    | None =>
      match slot s with
      | (s, None) => (FZN_STATE_ERR_FULL, s)
      | (s, Some i) => (if live then FZN_STATE_OK else FZN_STATE_ABSENT, store s i r live)
      end
    | Some i =>
      let e := nth i (srows s) zero_sentry in
      if negb (memeq (se_issuer e) (fzn_record_issuer r)) then
        if negb override then (FZN_STATE_ERR_CONFLICT, s) else (FZN_STATE_OK, store s i r live)
      else if negb (se_stream e =? fzn_record_stream r) then
        if negb override then (FZN_STATE_ERR_CROSS_STREAM, s) else (FZN_STATE_OK, store s i r live)
      else if fzn_record_seq r <=? se_seq e then (FZN_STATE_ERR_STALE, s)
      else (FZN_STATE_OK, store s i r live)
    end
  end.

Definition fzn_state_apply (s : fzn_state) (record : option bytes) : fzn_state_err * fzn_state := put s record false true.
Definition fzn_state_resolve (s : fzn_state) (record : option bytes) : fzn_state_err * fzn_state := put s record true true.
Definition fzn_state_clear (s : fzn_state) (record : option bytes) : fzn_state_err * fzn_state := put s record false false.
Definition fzn_state_resolve_clear (s : fzn_state) (record : option bytes) : fzn_state_err * fzn_state := put s record true false.

Definition fzn_state_get (s : fzn_state) (subject : bytes) (kind : Z) : option fzn_state_entry :=
  if negb (usable s) then None
  else match find s subject kind with
  | None => None
  | Some i => let e := nth i (srows s) zero_sentry in if se_live e then Some e else None
  end.

Definition fzn_state_count (s : fzn_state) : Z := if negb (usable s) then 0 else count se_live (srows s).

Definition fzn_state_forgotten (s : fzn_state) : Z := if usable s then s_forgotten s else 0.

(** ** The cells as a map *)

Abbreviation skey := (bytes * Z)%type (only parsing).
Definition skey_of (e : fzn_state_entry) : skey := (se_subject e, se_kind e).

Definition cells (s : fzn_state) : gmap skey fzn_state_entry := tmap skey_of (srows s).

Record state_ok (s : fzn_state) : Prop := {
  sk_entries : exists es, s_entries s = Some es /\ zlen es = s_capacity s;
  sk_used : 0 <= s_used s <= s_capacity s;
  sk_keys : NoDup (skey_of <$> srows s)
}.

Lemma names_true subject kind e : names subject kind e = true <-> skey_of e = (subject, kind).
Proof.
  unfold names, skey_of. rewrite andb_true_iff, Z.eqb_eq, memeq_true. split; [by intros [-> ->]|by intros [= -> ->]].
Qed.

Lemma skey_stored r live : skey_of (stored r live) = (fzn_record_subject r, fzn_record_kind r).
Proof. done. Qed.

Section Ok.
Context (s : fzn_state).
Hypothesis Hs : state_ok s.

Lemma state_usable : usable s = true.
Proof using All.
  destruct (sk_entries _ Hs) as (es & E & _). pose proof (sk_used _ Hs). unfold usable, fzn_state_sound. rewrite E. cbn. lia.
Qed.

Lemma zlen_srows : zlen (srows s) = s_used s.
Proof using All.
  destruct (sk_entries _ Hs) as (es & E & Hc). pose proof (sk_used _ Hs). unfold srows, zlen in *. rewrite E. cbn.
  rewrite length_take. lia.
Qed.

Lemma find_cell subject kind :
  match find s subject kind with
  | Some i => exists e, srows s !! i = Some e /\ skey_of e = (subject, kind) /\ cells s !! (subject, kind) = Some e /\
      nth i (srows s) zero_sentry = e
  | None => cells s !! (subject, kind) = None
  end.
Proof using All.
  pose proof (last_is_lookup skey_of (names subject kind) (srows s) (subject, kind) (sk_keys _ Hs) (names_true subject kind)) as H.
  unfold find. destruct (last_index _ _ _ _) as [i|]; [|exact H]. destruct H as (e & Hi & Hk & Hm). exists e. split_and!; try done.
  by rewrite (nth_lookup_Some _ _ _ _ Hi).
Qed.

Lemma get_cell subject kind : fzn_state_get s subject kind =
  match cells s !! (subject, kind) with Some e => if se_live e then Some e else None | None => None end.
Proof using All.
  unfold fzn_state_get. rewrite state_usable. cbn [negb]. pose proof (find_cell subject kind) as H.
  destruct (find s subject kind); [|by rewrite H]. destruct H as (e & _ & _ & -> & ->). done.
Qed.
End Ok.

(** ** The table a cell follows *)

Definition rkey (r : bytes) : skey := (fzn_record_subject r, fzn_record_kind r).

(** The issuer and the stream: who orders a cell. *)
Definition writes (r : bytes) (e : fzn_state_entry) : Prop := se_issuer e = fzn_record_issuer r /\ se_stream e = fzn_record_stream r.

(** One record meeting the cells of a state of [cap] slots: what is answered
    and what they are then. *)
Inductive cell_step (cap : Z) (override live : bool) (r : bytes) (m : gmap skey fzn_state_entry) :
    fzn_state_err -> gmap skey fzn_state_entry -> Prop :=
  | step_conflict e : m !! rkey r = Some e -> override = false -> se_issuer e <> fzn_record_issuer r ->
      cell_step cap override live r m FZN_STATE_ERR_CONFLICT m
  | step_cross e : m !! rkey r = Some e -> override = false -> se_issuer e = fzn_record_issuer r -> se_stream e <> fzn_record_stream r ->
      cell_step cap override live r m FZN_STATE_ERR_CROSS_STREAM m
  | step_stale e : m !! rkey r = Some e -> writes r e -> fzn_record_seq r <= se_seq e ->
      cell_step cap override live r m FZN_STATE_ERR_STALE m
  | step_later e : m !! rkey r = Some e -> writes r e -> se_seq e < fzn_record_seq r ->
      cell_step cap override live r m FZN_STATE_OK (<[rkey r := stored r live]> m)
  | step_over e : m !! rkey r = Some e -> override = true -> ~ writes r e ->
      cell_step cap override live r m FZN_STATE_OK (<[rkey r := stored r live]> m)
  | step_new : m !! rkey r = None -> Z.of_nat (size m) < cap ->
      cell_step cap override live r m (if live then FZN_STATE_OK else FZN_STATE_ABSENT) (<[rkey r := stored r live]> m)
  | step_forget k e : m !! rkey r = None -> Z.of_nat (size m) = cap -> m !! k = Some e -> se_live e = false ->
      cell_step cap override live r m (if live then FZN_STATE_OK else FZN_STATE_ABSENT) (<[rkey r := stored r live]> (delete k m))
  | step_full : m !! rkey r = None -> Z.of_nat (size m) = cap -> (forall k e, m !! k = Some e -> se_live e = true) ->
      cell_step cap override live r m FZN_STATE_ERR_FULL m.

Section Put.
Context (s : fzn_state).
Hypothesis Hs : state_ok s.

Lemma size_cells : Z.of_nat (size (cells s)) = s_used s.
Proof using All. unfold cells. rewrite tmap_size by apply Hs. by apply zlen_srows. Qed.

Lemma srows_at i e : srows s !! i = Some e -> (i < Z.to_nat (s_used s))%nat.
Proof using. intros [_ H]%lookup_take_Some. exact H. Qed.

(** Writing a row that is in use. *)
Lemma srows_store i e r live forgotten : srows s !! i = Some e ->
  srows (store (mk_state (s_entries s) (s_capacity s) (s_used s) forgotten) i r live) = <[i := stored r live]> (srows s).
Proof using All.
  intros H. destruct (sk_entries _ Hs) as (es & E & _). unfold srows, store. cbn [s_entries s_used]. rewrite E.
  cbn -[take insert]. apply take_insert_lt. by eapply srows_at.
Qed.

Lemma store_ok s1 i r live : s_entries s1 = s_entries s -> s_capacity s1 = s_capacity s -> 0 <= s_used s1 <= s_capacity s ->
  NoDup (skey_of <$> srows (store s1 i r live)) -> state_ok (store s1 i r live).
Proof using All.
  intros He Hc Hu Hnd. destruct (sk_entries _ Hs) as (es & E & Hl). split; [|cbn; lia|done].
  exists (<[i := stored r live]> es). cbn. rewrite He, E, Hc. split; [done|]. unfold zlen in *. by rewrite length_insert.
Qed.

Lemma store_found i e r live : srows s !! i = Some e -> skey_of e = rkey r ->
  state_ok (store s i r live) /\ cells (store s i r live) = <[rkey r := stored r live]> (cells s).
Proof using All.
  intros Hi Hk. destruct (tmap_set skey_of (srows s) i e (stored r live)) as [Hnd Hm]; [apply Hs|done|by rewrite Hk|].
  pose proof (srows_store i e r live (s_forgotten s) Hi) as Hr. replace (mk_state _ _ _ _) with s in Hr by (by destruct s).
  split; [apply store_ok; try done; [apply Hs|by rewrite Hr]|]. unfold cells. by rewrite Hr, Hm, Hk.
Qed.

Lemma store_slot r live : cells s !! rkey r = None ->
  match slot s with
  | (s1, None) => s1 = s /\ Z.of_nat (size (cells s)) = s_capacity s /\ forall k e, cells s !! k = Some e -> se_live e = true
  | (s1, Some i) => state_ok (store s1 i r live) /\ s_capacity s1 = s_capacity s /\
    ((Z.of_nat (size (cells s)) < s_capacity s /\ cells (store s1 i r live) = <[rkey r := stored r live]> (cells s)) \/
     (Z.of_nat (size (cells s)) = s_capacity s /\ exists k e, cells s !! k = Some e /\ se_live e = false /\
        cells (store s1 i r live) = <[rkey r := stored r live]> (delete k (cells s))))
  end.
Proof using All.
  intros Hk. pose proof (sk_used _ Hs) as Hu. destruct (sk_entries _ Hs) as (es & E & Hl). unfold slot.
  destruct (Z.ltb_spec (s_used s) (s_capacity s)) as [Hlt|Hge].
  - set (s1 := mk_state _ _ _ _).
    assert (srows (store s1 (Z.to_nat (s_used s)) r live) = srows s ++ [stored r live]) as Hr.
    { unfold srows, store, s1. cbn [s_entries s_used]. rewrite E. cbn -[take insert].
      replace (Z.to_nat (s_used s + 1)) with (S (Z.to_nat (s_used s))) by lia. apply take_write. unfold zlen in Hl. lia. }
    destruct (tmap_snoc skey_of (srows s) (stored r live)) as [Hnd Hm]; [apply Hs|done|].
    split; [apply store_ok; try done; [cbn; lia|by rewrite Hr]|]. split; [done|]. left. rewrite size_cells. split; [done|].
    unfold cells. by rewrite Hr, Hm.
  - destruct (find_index _ _) as [i|] eqn:Ei.
    + apply find_index_Some in Ei as (e & Hi & Hd & _). apply negb_true_iff in Hd.
      destruct (tmap_replace skey_of (srows s) i e (stored r live)) as [Hnd Hm]; [apply Hs|done|done|].
      pose proof (srows_store i e r live (u64 (s_forgotten s + 1)) Hi) as Hr.
      split; [apply store_ok; try done; by rewrite Hr|]. split; [done|]. right. rewrite size_cells. split; [lia|].
      exists (skey_of e), e. split_and!; [|done|]; [eapply tmap_at; [apply Hs|done]|]. unfold cells. by rewrite Hr, Hm.
    + rewrite find_index_None in Ei. split; [done|]. rewrite size_cells. split; [lia|]. intros k e Hke.
      apply tmap_lookup in Hke as [_ [i Hi]%list_elem_of_lookup]; [|apply Hs]. specialize (Ei i e Hi). by apply negb_false_iff in Ei.
Qed.

Lemma put_steps r override live : fzn_record_is_open (Some r) = true ->
  state_ok (snd (put s (Some r) override live)) /\ s_capacity (snd (put s (Some r) override live)) = s_capacity s /\
  cell_step (s_capacity s) override live r (cells s) (fst (put s (Some r) override live)) (cells (snd (put s (Some r) override live))).
Proof using All.
  intros Ho. unfold put. rewrite state_usable by done. rewrite Ho. cbn [negb]. destruct (Z.eqb_spec (fzn_record_seq r) 0) as [Hz|_].
  { exfalso. by apply (op_seq _ (opens_of _ Ho)). }
  pose proof (find_cell s Hs (fzn_record_subject r) (fzn_record_kind r)) as Hf. destruct (find s _ _) as [i|].
  - destruct Hf as (e & Hi & Hk & Hm & ->). destruct (store_found i e r live Hi Hk) as [Hok Hc]. cbv zeta.
    destruct (memeq (se_issuer e) (fzn_record_issuer r)) eqn:Em; cbn [negb].
    + apply memeq_true in Em. destruct (Z.eqb_spec (se_stream e) (fzn_record_stream r)) as [Est|Est]; cbn [negb].
      * destruct (Z.leb_spec (fzn_record_seq r) (se_seq e)); cbn [fst snd].
        { split_and!; try done. by eapply step_stale. }
        rewrite Hc. split_and!; try done. by eapply step_later.
      * destruct override; cbn [negb fst snd]; [|split_and!; try done; by eapply step_cross].
        rewrite Hc. split_and!; try done. eapply step_over; try done. by intros [_ ?].
    + assert (se_issuer e <> fzn_record_issuer r) as Hne by (intros ?%memeq_true; congruence).
      destruct override; cbn [negb fst snd]; [|split_and!; try done; by eapply step_conflict].
      rewrite Hc. split_and!; try done. eapply step_over; try done. by intros [? _].
  - pose proof (store_slot r live Hf) as Hsl. destruct (slot s) as [s1 [i|]]; cbn [fst snd].
    + destruct Hsl as (Hok & Hcap & [[Hlt ->]|(Heq & k & e & Hke & Hd & ->)]); split_and!; try done; [by apply step_new|by eapply step_forget].
    + destruct Hsl as (-> & Heq & Hall). split_and!; try done. by apply step_full.
Qed.
End Put.

Lemma state_init_ok s0 es cap : cap <> 0 -> zlen es = cap ->
  exists s, fzn_state_init s0 (Some es) cap = (FZN_STATE_OK, s) /\ state_ok s /\ s_capacity s = cap /\ cells s = ∅.
Proof.
  intros Hc Hl. pose proof (zlen_nonneg es). unfold fzn_state_init. destruct (Z.eqb_spec cap 0); [done|]. eexists. split; [done|].
  split; [|done]. split; cbn; [|lia|constructor]. eexists. split; [done|]. unfold zlen in *. rewrite length_app, length_replicate, length_drop. lia.
Qed.

(** The cells that hold a value. *)
Definition settings (m : gmap skey fzn_state_entry) : gmap skey fzn_state_entry := filter (fun p => se_live (snd p) = true) m.

Lemma count_rows rows : NoDup (skey_of <$> rows) -> count se_live rows = Z.of_nat (size (settings (tmap skey_of rows))).
Proof.
  induction rows as [|e rows IH]; [done|]. rewrite fmap_cons, list.NoDup_cons. intros [He Hnd]. rewrite tmap_cons. unfold settings in *.
  apply tmap_none in He. cbn [count]. rewrite IH by done. destruct (se_live e) eqn:El.
  - rewrite map_filter_insert_True by done. rewrite map_size_insert_None; [lia|]. apply map_lookup_filter_None. by left.
  - rewrite map_filter_insert_False by (cbn; congruence). rewrite delete_id by done. lia.
Qed.

Lemma count_cells s : state_ok s -> fzn_state_count s = Z.of_nat (size (settings (cells s))).
Proof. intros Hs. unfold fzn_state_count. rewrite state_usable by done. apply count_rows, Hs. Qed.

(** The four ways to write, over one call. *)
Inductive state_op := Apply (r : bytes) | Resolve (r : bytes) | Clear (r : bytes) | Resolve_clear (r : bytes).

Definition op_record (op : state_op) : bytes := match op with Apply r | Resolve r | Clear r | Resolve_clear r => r end.
Definition op_override (op : state_op) : bool := match op with Apply _ | Clear _ => false | _ => true end.
Definition op_live (op : state_op) : bool := match op with Apply _ | Resolve _ => true | _ => false end.

Definition state_step (s : fzn_state) (op : state_op) : fzn_state_err * fzn_state :=
  match op with
  | Apply r => fzn_state_apply s (Some r)
  | Resolve r => fzn_state_resolve s (Some r)
  | Clear r => fzn_state_clear s (Some r)
  | Resolve_clear r => fzn_state_resolve_clear s (Some r)
  end.

Fixpoint state_run (s : fzn_state) (ops : list state_op) : fzn_state :=
  match ops with
  | [] => s
  | op :: ops => state_run (snd (state_step s op)) ops
  end.

(** What each of them is answered. *)
Fixpoint answers (s : fzn_state) (ops : list state_op) : list fzn_state_err :=
  match ops with
  | [] => []
  | op :: ops => fst (state_step s op) :: answers (snd (state_step s op)) ops
  end.

Definition op_opened (op : state_op) : Prop := fzn_record_is_open (Some (op_record op)) = true.

Lemma state_run_app s ops ops' : state_run s (ops ++ ops') = state_run (state_run s ops) ops'.
Proof. revert s. induction ops as [|op ops IH]; intros s; [done|]. apply IH. Qed.

Lemma state_step_put s op : state_step s op = put s (Some (op_record op)) (op_override op) (op_live op).
Proof. by destruct op. Qed.

Lemma step_steps s op : state_ok s -> op_opened op ->
  state_ok (snd (state_step s op)) /\ s_capacity (snd (state_step s op)) = s_capacity s /\
  cell_step (s_capacity s) (op_override op) (op_live op) (op_record op) (cells s) (fst (state_step s op)) (cells (snd (state_step s op))).
Proof. intros Hs Ho. rewrite state_step_put. by apply put_steps. Qed.

(** C27: a state is a table of registers. Whatever is written, opened or not
    and by whichever of the four calls, a well-formed state stays so, and what
    it answers and what its cells are then is the step of the documented table
    and no other: a stranger is refused as a conflict or as another stream and
    never as stale, an older statement of the writer as stale; a later one, or
    any with an override, is stored; a new subject takes a free slot, or where
    there is none a tombstone's, and never a setting's; and a record nobody
    opened changes nothing. What is read is the map's: the value a cell
    holds, where it is one, and how many do. *)
Theorem state_refines_its_table s record override live : state_ok s ->
  let '(err, s') := put s record override live in
  (state_ok s' /\ s_capacity s' = s_capacity s) /\
  (fzn_record_is_open record = false -> err = FZN_STATE_ERR_MALFORMED /\ s' = s) /\
  (forall r, record = Some r -> fzn_record_is_open (Some r) = true ->
     cell_step (s_capacity s) override live r (cells s) err (cells s')) /\
  (forall subject kind e, fzn_state_get s' subject kind = Some e <-> cells s' !! (subject, kind) = Some e /\ se_live e = true) /\
  fzn_state_count s' = Z.of_nat (size (settings (cells s'))).
Proof.
  intros Hs. assert (forall s' : fzn_state, state_ok s' ->
    (forall subject kind e, fzn_state_get s' subject kind = Some e <-> cells s' !! (subject, kind) = Some e /\ se_live e = true) /\
    fzn_state_count s' = Z.of_nat (size (settings (cells s')))) as Hread.
  { intros s' Hs'. split; [|by apply count_cells]. intros subject kind e. rewrite get_cell by done.
    destruct (cells s' !! _) as [e'|]; [|split; [done|by intros [? _]]].
    destruct (se_live e') eqn:El; split; try by intros [= <-]. all: intros [[= <-] ?]; congruence. }
  destruct (fzn_record_is_open record) eqn:Ho.
  - destruct record as [r|]; [|discriminate Ho]. pose proof (put_steps s Hs r override live Ho) as (Hok & Hcap & Hst).
    destruct (put s (Some r) override live) as [err s']. cbn [fst snd] in *. split_and!; [done|done|done| |apply Hread; done..].
    intros r' [= <-] _. done.
  - assert (put s record override live = (FZN_STATE_ERR_MALFORMED, s)) as ->.
    { destruct record as [r|]; [|done]. unfold put. rewrite state_usable, Ho by done. done. }
    split_and!; [done|done|done| |apply Hread; done..]. intros r -> Ho'. congruence.
Qed.

(** ** Lost only as a tombstone *)

(** Still its writer's, and no earlier. *)
Definition cell_advanced (e e' : fzn_state_entry) : Prop :=
  se_issuer e' = se_issuer e /\ se_stream e' = se_stream e /\ (e' = e \/ se_seq e < se_seq e').

Lemma cell_advanced_trans e1 e2 e3 : cell_advanced e1 e2 -> cell_advanced e2 e3 -> cell_advanced e1 e3.
Proof. intros (Hi & Hs & H) (Hi' & Hs' & H'). split_and!; [congruence..|]. destruct H as [->|H], H' as [->|H']; auto. right. lia. Qed.

Definition plain (op : state_op) : Prop := op_override op = false.

(** What one record nobody forces does to a cell that is there. *)
Lemma step_advances cap live r m err m' k e : cell_step cap false live r m err m' -> m !! k = Some e ->
  (exists e', m' !! k = Some e' /\ cell_advanced e e') \/
  (m' !! k = None /\ se_live e = false /\ Z.of_nat (size m) = cap).
Proof.
  assert (cell_advanced e e) as Hrefl by (split_and!; auto). intros Hst Hk.
  destruct Hst as [e1 H1|e1 H1|e1 H1|e1 H1 [Hi Hw] Hlt|e1 H1 [=]|H1 Hlt|k1 e1 H1 Heq Hk1 Hd|H1]; try by (left; exists e).
  - destruct (decide (k = rkey r)) as [->|]; [|left; exists e; by rewrite lookup_insert_ne].
    left. rewrite lookup_insert_eq. eexists. split; [done|]. simplify_eq. split_and!; [done..|by right].
  - left. exists e. rewrite lookup_insert_ne; [done|]. intros <-. congruence.
  - destruct (decide (k = k1)) as [->|].
    + right. simplify_eq. rewrite lookup_insert_ne by (intros <-; congruence). by rewrite lookup_delete_eq.
    + left. exists e. rewrite lookup_insert_ne by (intros <-; congruence). by rewrite lookup_delete_ne.
Qed.

(** A cell is lost only as a tombstone. Over any run of records applied
    and cleared, a cell stays its writer's and moves only to later statements
    of that writer's, so that no replay undoes a clear and no stranger a
    setting; unless at some point the cell was a tombstone, the state full,
    and a new subject took its slot. A setting is never given up for room. *)
Theorem cells_are_lost_only_as_tombstones ops s k e : state_ok s -> Forall plain ops -> Forall op_opened ops ->
  cells s !! k = Some e ->
  (exists e', cells (state_run s ops) !! k = Some e' /\ cell_advanced e e') \/
  (exists before op after e', ops = before ++ op :: after /\ cells (state_run s before) !! k = Some e' /\ cell_advanced e e' /\
     se_live e' = false /\ Z.of_nat (size (cells (state_run s before))) = s_capacity s /\
     cells (state_run s (before ++ [op])) !! k = None).
Proof.
  revert s e. induction ops as [|op ops IH]; intros s e Hs Hp Ho Hk; [left; exists e; split_and!; auto; split_and!; auto|].
  apply Forall_cons_iff in Hp as [Hp Hps], Ho as [Ho Hos]. destruct (step_steps s op Hs Ho) as (Hs1 & Hc1 & Hst).
  unfold plain in Hp. rewrite Hp in Hst. destruct (step_advances _ _ _ _ _ _ k e Hst Hk) as [(e1 & Hk1 & Ha1)|(Hk1 & Hd & Hsz)].
  - destruct (IH _ e1 Hs1 Hps Hos Hk1) as [(e2 & Hk2 & Ha2)|(before & op' & after & e2 & -> & Hk2 & Ha2 & Hd & Hsz & Hn)].
    + left. exists e2. split; [done|]. by eapply cell_advanced_trans.
    + right. exists (op :: before), op', after, e2. split_and!; try done; [by eapply cell_advanced_trans|]. by rewrite <- Hc1.
  - right. exists [], op, ops, e. split_and!; try done; split_and!; auto.
Qed.

(** ** One set of records, one state *)

Definition op_key (op : state_op) : skey := rkey (op_record op).
Definition op_cell (op : state_op) : fzn_state_entry := stored (op_record op) (op_live op).
Definition op_seq (op : state_op) : Z := fzn_record_seq (op_record op).

Definition keys_of (ops : list state_op) : gset skey := list_to_set (op_key <$> ops).

(** A subject has one writer, who says one thing at one sequence. *)
Definition one_voice (ops : list state_op) : Prop := forall a b, a ∈ ops -> b ∈ ops -> op_key a = op_key b ->
  fzn_record_issuer (op_record a) = fzn_record_issuer (op_record b) /\
  fzn_record_stream (op_record a) = fzn_record_stream (op_record b) /\ (op_seq a = op_seq b -> a = b).

(** Every cell is the latest of what was said of it. *)
Definition latest (ops : list state_op) (m : gmap skey fzn_state_entry) : Prop := forall k,
  match m !! k with
  | None => forall op, op ∈ ops -> op_key op <> k
  | Some e => exists op, op ∈ ops /\ op_key op = k /\ e = op_cell op /\ forall op', op' ∈ ops -> op_key op' = k -> op_seq op' <= op_seq op
  end.

Lemma elem_of_keys_of k ops : k ∈ keys_of ops <-> exists op, op ∈ ops /\ op_key op = k.
Proof. unfold keys_of. rewrite elem_of_list_to_set, list_elem_of_fmap. naive_solver. Qed.

(** The cells of a part of the records leave room for one more of them. *)
Lemma latest_room all seen op m : latest seen m -> (forall x, x ∈ seen -> x ∈ all) -> op ∈ all -> m !! op_key op = None ->
  (size m < size (keys_of all))%nat.
Proof.
  intros Hl Hin Hop Hn. rewrite <- size_dom. apply subset_size. split.
  - intros k [e Hk]%elem_of_dom. apply elem_of_keys_of. specialize (Hl k). rewrite Hk in Hl. destruct Hl as (x & Hx & Hxk & _). eauto.
  - intros Hsub. assert (op_key op ∈ dom m) as Hd by (apply Hsub, elem_of_keys_of; eauto). by apply not_elem_of_dom in Hn.
Qed.

Lemma latest_step all seen op cap m err m' : latest seen m -> (forall x, x ∈ seen -> x ∈ all) -> op ∈ all -> one_voice all ->
  plain op -> Z.of_nat (size (keys_of all)) <= cap -> cell_step cap (op_override op) (op_live op) (op_record op) m err m' ->
  latest (op :: seen) m' /\ (err = FZN_STATE_OK \/ err = FZN_STATE_ERR_STALE \/ err = FZN_STATE_ABSENT).
Proof.
  intros Hl Hin Hop Hv Hp Hcap Hst. unfold plain in Hp. rewrite Hp in Hst.
  assert (forall e, m !! op_key op = Some e -> exists x, x ∈ seen /\ op_key x = op_key op /\ e = op_cell x /\ writes (op_record op) e /\
    se_seq e = op_seq x /\ forall y, y ∈ seen -> op_key y = op_key op -> op_seq y <= op_seq x) as Hcell.
  { intros e He. specialize (Hl (op_key op)). rewrite He in Hl. destruct Hl as (x & Hx & Hxk & -> & Hmax).
    destruct (Hv x op (Hin _ Hx) Hop Hxk) as (H1 & H2 & _). exists x. by split_and!. }
  pose proof (fun H => latest_room all seen op m Hl Hin Hop H) as Hroom.
  assert ((forall y, y ∈ seen -> op_key y = op_key op -> op_seq y <= op_seq op) -> latest (op :: seen) (<[op_key op := op_cell op]> m)) as Hins.
  { intros Hmax k. destruct (decide (k = op_key op)) as [->|Hne].
    - rewrite lookup_insert_eq. exists op. split_and!; [by left|done|done|]. intros y [->|Hy]%elem_of_cons Hk; [lia|by apply Hmax].
    - rewrite lookup_insert_ne by done. specialize (Hl k). destruct (m !! k) as [e|].
      + destruct Hl as (x & Hx & Hxk & He & Hm). exists x. split_and!; [by right|done|done|].
        intros y [->|Hy]%elem_of_cons Hk; [by destruct Hne|by apply Hm].
      + intros y [->|Hy]%elem_of_cons; [by intros <-|by apply Hl]. }
  destruct Hst as [e H1 _ Hne|e H1 _ Hi Hne|e H1 _ Hle|e H1 _ Hlt|e H1 [=]|H1 Hlt|k e H1 Heq|H1 Heq].
  - destruct (Hcell e H1) as (_ & _ & _ & _ & [Hw _] & _). done.
  - destruct (Hcell e H1) as (_ & _ & _ & _ & [_ Hw] & _). done.
  - change (m !! op_key op = Some e) in H1. split; [|auto]. destruct (Hcell e H1) as (x & Hx & Hxk & -> & _ & Hsq & Hmax). intros k. specialize (Hl k).
    destruct (m !! k) as [e'|] eqn:Ek.
    + destruct Hl as (z & Hz & Hzk & He & Hm). exists z. split_and!; [by right|done|done|].
      intros y [->|Hy]%elem_of_cons Hk; [|by apply Hm]. specialize (Hm x Hx ltac:(congruence)). unfold op_seq in *. lia.
    + intros y [->|Hy]%elem_of_cons; [|by apply Hl]. intros <-. congruence.
  - split; [|auto]. apply Hins. destruct (Hcell e H1) as (x & _ & _ & _ & _ & Hsq & Hmax). intros y Hy Hk.
    specialize (Hmax y Hy Hk). unfold op_seq in *. lia.
  - change (m !! op_key op = None) in H1. split; [|destruct (op_live op); auto]. apply Hins. specialize (Hl (op_key op)). rewrite H1 in Hl. intros y Hy Hk. by destruct (Hl y Hy).
  - specialize (Hroom H1). lia.
  - specialize (Hroom H1). lia.
Qed.

Lemma latest_run all ops : forall seen s, state_ok s -> latest seen (cells s) -> (forall x, x ∈ seen \/ x ∈ ops -> x ∈ all) -> one_voice all ->
  Forall plain ops -> Forall op_opened ops -> Z.of_nat (size (keys_of all)) <= s_capacity s ->
  latest (reverse ops ++ seen) (cells (state_run s ops)) /\ state_ok (state_run s ops) /\
  Forall (fun err => err = FZN_STATE_OK \/ err = FZN_STATE_ERR_STALE \/ err = FZN_STATE_ABSENT) (answers s ops).
Proof.
  induction ops as [|op ops IH]; intros seen s Hs Hl Hin Hv Hp Ho Hcap; [split_and!; done|].
  apply Forall_cons_iff in Hp as [Hp Hps], Ho as [Ho Hos]. destruct (step_steps s op Hs Ho) as (Hs1 & Hc1 & Hst).
  destruct (latest_step all seen op _ _ _ _ Hl ltac:(auto) ltac:(apply Hin; right; by left) Hv Hp Hcap Hst) as [Hl1 Herr].
  destruct (IH (op :: seen) _ Hs1 Hl1) as (H1 & H2 & H3); try done; [|by rewrite Hc1|].
  { intros x [[->|Hx]%elem_of_cons|Hx]; apply Hin; [right; by left|by left|right; by right]. }
  cbn [state_run answers]. rewrite reverse_cons, <- app_assoc. split_and!; try done. by constructor.
Qed.

Lemma latest_same ops ops' m : (forall x, x ∈ ops <-> x ∈ ops') -> latest ops m -> latest ops' m.
Proof.
  intros Hsame Hl k. specialize (Hl k). destruct (m !! k) as [e|].
  - destruct Hl as (x & Hx & Hk & He & Hm). exists x. split_and!; [by apply Hsame|done|done|]. intros y Hy. by apply Hm, Hsame.
  - intros y Hy. by apply Hl, Hsame.
Qed.

Lemma latest_unique ops ops' m m' : one_voice ops -> (forall x, x ∈ ops <-> x ∈ ops') -> latest ops m -> latest ops' m' -> m = m'.
Proof.
  intros Hv Hsame Hl Hl'. apply map_eq. intros k. specialize (Hl k). specialize (Hl' k).
  destruct (m !! k) as [e|], (m' !! k) as [e'|]; [| | |done].
  - destruct Hl as (x & Hx & Hxk & -> & Hmx), Hl' as (y & Hy & Hyk & -> & Hmy). apply Hsame in Hy.
    assert (x = y) as ->; [|done]. destruct (Hv x y Hx Hy ltac:(congruence)) as (_ & _ & Heq). apply Heq.
    pose proof (Hmx y Hy Hyk). pose proof (Hmy x (proj1 (Hsame x) Hx) Hxk). lia.
  - destruct Hl as (x & Hx & Hxk & _). apply Hsame in Hx. by destruct (Hl' x Hx).
  - destruct Hl' as (y & Hy & Hyk & _). apply Hsame in Hy. by destruct (Hl y Hy).
Qed.

(** C8: one set of records, one state. Two hosts that apply and clear the same
    records, each in its own order and with its own repeats, hold the same
    cells and answer every question alike, where every subject has one writer
    that says one thing at one sequence, no conflict is resolved by hand, and
    there is room for the subjects; where writers contend, the value depends
    on the order, as state.h says.
    What a cell holds is then the latest of what was said of it, a value or a
    clear, whether the clear came first or last; and no record was refused
    but as stale. *)
Theorem replicas_converge s0 s0' es es' cap cap' s s' ops ops' :
  cap <> 0 -> cap' <> 0 -> zlen es = cap -> zlen es' = cap' ->
  fzn_state_init s0 (Some es) cap = (FZN_STATE_OK, s) -> fzn_state_init s0' (Some es') cap' = (FZN_STATE_OK, s') ->
  (forall op, op ∈ ops <-> op ∈ ops') -> Forall plain ops -> Forall op_opened ops -> one_voice ops ->
  Z.of_nat (size (keys_of ops)) <= cap -> Z.of_nat (size (keys_of ops)) <= cap' ->
  cells (state_run s ops) = cells (state_run s' ops') /\
  (forall subject kind, fzn_state_get (state_run s ops) subject kind = fzn_state_get (state_run s' ops') subject kind) /\
  (forall op, op ∈ ops -> exists last, last ∈ ops /\ op_key last = op_key op /\ op_seq op <= op_seq last /\
     cells (state_run s ops) !! op_key op = Some (op_cell last)) /\
  Forall (fun err => err = FZN_STATE_OK \/ err = FZN_STATE_ERR_STALE \/ err = FZN_STATE_ABSENT) (answers s ops ++ answers s' ops').
Proof.
  intros Hc Hc' Hz Hz' Hi Hi' Hsame Hp Ho Hv Hr Hr'.
  destruct (state_init_ok s0 es cap Hc Hz) as (s1 & E & Hs & Hcap & H0). rewrite E in Hi. injection Hi as ->.
  destruct (state_init_ok s0' es' cap' Hc' Hz') as (s1' & E' & Hs' & Hcap' & H0'). rewrite E' in Hi'. injection Hi' as ->.
  assert (latest [] (∅ : gmap skey fzn_state_entry)) as Hl by (intros k; rewrite lookup_empty; by intros ? ?%not_elem_of_nil).
  assert (forall x, x ∈ [] \/ x ∈ ops -> x ∈ ops) as Hin by (intros x [Hx|Hx]; [by apply not_elem_of_nil in Hx|done]).
  assert (forall x, x ∈ [] \/ x ∈ ops' -> x ∈ ops) as Hin' by (intros x [Hx|Hx]; [by apply not_elem_of_nil in Hx|by apply Hsame]).
  destruct (latest_run ops ops [] s Hs ltac:(by rewrite H0) Hin Hv Hp Ho ltac:(by rewrite Hcap)) as (H1 & H2 & H3).
  assert (forall P, Forall P ops -> Forall P ops') as Hall.
  { intros P HP. apply list.Forall_forall. intros x Hx%Hsame. by eapply list.Forall_forall in HP. }
  destruct (latest_run ops ops' [] s' Hs' ltac:(by rewrite H0') Hin' Hv (Hall _ Hp) (Hall _ Ho) ltac:(by rewrite Hcap')) as (H1' & H2' & H3').
  rewrite app_nil_r in H1, H1'.
  assert (latest ops (cells (state_run s ops))) as Hlat.
  { apply (latest_same (reverse ops)); [|done]. intros x. apply elem_of_reverse. }
  assert (cells (state_run s ops) = cells (state_run s' ops')) as Heq.
  { apply (latest_unique ops ops'); [done|done|done|]. apply (latest_same (reverse ops')); [|done]. intros x. apply elem_of_reverse. }
  split_and!; [done| | |by apply Forall_app].
  - intros subject kind. rewrite !get_cell by done. by rewrite Heq.
  - intros op Hop. specialize (Hlat (op_key op)). destruct (_ !! op_key op) as [e|]; [|by destruct (Hlat op Hop)].
    destruct Hlat as (x & Hx & Hk & -> & Hm). exists x. split_and!; try done. by apply Hm.
Qed.

(** A state of two slots, and statements by one issuer of one subject, and of
    another. *)
Definition demo_state : fzn_state := mk_state (Some (replicate 2 zero_sentry)) 2 0 0.

Definition demo_said (issuer subject stream seq : Z) (body : bytes) : bytes :=
  record_bytes (replicate 32 issuer) (replicate 32 subject) stream 4 seq (zeros 32) 100 body (zeros 64).

Lemma demo_cells_ok : state_ok demo_state.
Proof. split; [by eexists|cbn; lia|constructor]. Qed.

Lemma state_refines_its_table_witness :
  exists s', fzn_state_apply demo_state (Some (demo_said 1 7 5 3 [42])) = (FZN_STATE_OK, s') /\
    fzn_state_get s' (replicate 32 7) 4 = Some (stored (demo_said 1 7 5 3 [42]) true) /\ fzn_state_count s' = 1.
Proof.
  exists (snd (fzn_state_apply demo_state (Some (demo_said 1 7 5 3 [42])))).
  pose proof (state_refines_its_table demo_state (Some (demo_said 1 7 5 3 [42])) false true demo_cells_ok) as H.
  change (put demo_state (Some (demo_said 1 7 5 3 [42])) false true) with (fzn_state_apply demo_state (Some (demo_said 1 7 5 3 [42]))) in H.
  assert (fst (fzn_state_apply demo_state (Some (demo_said 1 7 5 3 [42]))) = FZN_STATE_OK) as E by (vm_compute; reflexivity).
  destruct (fzn_state_apply demo_state (Some (demo_said 1 7 5 3 [42]))) as [err s'] eqn:Es. cbn [fst snd] in *. subst err.
  destruct H as (_ & _ & _ & Hget & Hcount). split; [reflexivity|].
  assert (s' = snd (fzn_state_apply demo_state (Some (demo_said 1 7 5 3 [42])))) as -> by (rewrite Es; reflexivity).
  split; [apply Hget; split; vm_compute; reflexivity|]. rewrite Hcount. vm_compute. reflexivity.
Defined.

Definition demo_kept : fzn_state := state_run demo_state [Apply (demo_said 1 7 5 3 [42]); Apply (demo_said 2 8 5 3 [43])].

Lemma cells_are_lost_only_as_tombstones_witness :
  exists e', cells (state_run demo_kept [Clear (demo_said 1 7 5 4 []); Apply (demo_said 1 7 5 3 [42]); Apply (demo_said 3 7 5 9 [44])])
      !! (replicate 32 7, 4) = Some e' /\ se_seq e' = 4 /\ se_live e' = false.
Proof.
  assert (forall n op, op ∈ [Clear (demo_said 1 7 5 4 []); Apply (demo_said 1 7 5 3 [42]); Apply (demo_said 3 7 5 n [44])] ->
    plain op /\ (n = 9 -> op_opened op)) as Hops.
  { intros n op Hin. repeat (apply elem_of_cons in Hin as [->|Hin]); [| | |by apply not_elem_of_nil in Hin];
      (split; [reflexivity|intros ->; vm_compute; reflexivity]). }
  assert (Forall op_opened [Apply (demo_said 1 7 5 3 [42]); Apply (demo_said 2 8 5 3 [43])]) as Ho2 by (repeat constructor).
  assert (state_ok demo_kept) as Hs.
  { unfold demo_kept. pose proof demo_cells_ok as H0. cbn [state_run].
    apply Forall_cons_iff in Ho2 as [Ho1 Ho2]. apply Forall_cons_iff in Ho2 as [Ho2 _].
    destruct (step_steps _ _ H0 Ho1) as (H1 & _). destruct (step_steps _ _ H1 Ho2) as (H2 & _). exact H2. }
  assert (cells demo_kept !! (replicate 32 7, 4) = Some (stored (demo_said 1 7 5 3 [42]) true)) as Hk by (vm_compute; reflexivity).
  destruct (cells_are_lost_only_as_tombstones
    [Clear (demo_said 1 7 5 4 []); Apply (demo_said 1 7 5 3 [42]); Apply (demo_said 3 7 5 9 [44])] demo_kept _ _ Hs
    ltac:(apply list.Forall_forall; intros op Hop; exact (proj1 (Hops 9 op Hop)))
    ltac:(apply list.Forall_forall; intros op Hop; exact (proj2 (Hops 9 op Hop) eq_refl)) Hk) as [(e' & He' & _)|(b & op & a & e' & Hb & _ & _ & _ & _ & Hn)].
  - exists e'. split; [exact He'|]. assert (cells (state_run demo_kept [Clear (demo_said 1 7 5 4 []); Apply (demo_said 1 7 5 3 [42]); Apply (demo_said 3 7 5 9 [44])])
      !! (replicate 32 7, 4) = Some (stored (demo_said 1 7 5 4 []) false)) as E by (vm_compute; reflexivity).
    rewrite E in He'. injection He' as <-. split; vm_compute; reflexivity.
  - exists (stored (demo_said 1 7 5 4 []) false). split_and!; vm_compute; reflexivity.
Defined.

(** The grant and the revocation, in both orders. *)
Lemma replicas_converge_witness :
  fzn_state_get (state_run demo_state [Apply (demo_said 1 7 5 5 [42]); Clear (demo_said 1 7 5 10 [])]) (replicate 32 7) 4 =
    fzn_state_get (state_run demo_state [Clear (demo_said 1 7 5 10 []); Apply (demo_said 1 7 5 5 [42])]) (replicate 32 7) 4.
Proof.
  set (g := Apply (demo_said 1 7 5 5 [42])). set (c := Clear (demo_said 1 7 5 10 [])).
  assert (forall op, op ∈ [g; c] <-> op ∈ [c; g]) as Hsame by (intros op; rewrite !elem_of_cons; tauto).
  assert (Forall plain [g; c]) as Hp by (repeat constructor).
  assert (Forall op_opened [g; c]) as Ho by (repeat constructor; vm_compute; reflexivity).
  assert (op_seq g = 5 /\ op_seq c = 10) as [Hg Hc] by (split; vm_compute; reflexivity).
  assert (one_voice [g; c]) as Hv.
  { intros a b Ha Hb _. rewrite !elem_of_cons in Ha, Hb.
    assert (forall x, x = g \/ x = c \/ x ∈ [] -> x = g \/ x = c) as Hx by (intros x [|[|Hx%not_elem_of_nil]]; tauto).
    apply Hx in Ha, Hb. destruct Ha as [-> | ->], Hb as [-> | ->]; split_and!; try (vm_compute; reflexivity); rewrite ?Hg, ?Hc; done. }
  assert (Z.of_nat (size (keys_of [g; c])) <= 2) as Hr by (vm_compute; discriminate).
  destruct (replicas_converge demo_state demo_state (replicate 2 zero_sentry) (replicate 2 zero_sentry) 2 2 demo_state demo_state [g; c] [c; g]
    ltac:(lia) ltac:(lia) eq_refl eq_refl eq_refl eq_refl Hsame Hp Ho Hv Hr Hr) as (_ & H & _). apply H.
Defined.
