(* ===== verification/Scope.v ===== *)
(** * state/scope.c: how far a value travels

    The four scopes, the subject a scoped value has, and the names of groups.
    A scope is the number it is kept as, which may be no scope at all. A hash
    is [None] where its vtable or its function is NULL; other pointers are
    given. *)

From S2P Require Import Prelude Bytes Hop Revocation Records.

Definition FZN_SCOPE_HOST_PRIVATE : Z := 0.
Definition FZN_SCOPE_HOST : Z := 1.
Definition FZN_SCOPE_GROUP : Z := 2.
Definition FZN_SCOPE_ESTATE : Z := 3.
Definition FZN_SCOPE_COUNT : Z := 4.
Definition FZN_SCOPE_GROUP_NAME_MAX : Z := 32.

Inductive fzn_scope_err := FZN_SCOPE_OK | FZN_SCOPE_ERR_MALFORMED | FZN_SCOPE_ERR_PRIVATE.

(** ["fuzznet-scope-v1"] *)
Definition FZN_SCOPE_LABEL : bytes := [102; 117; 122; 122; 110; 101; 116; 45; 115; 99; 111; 112; 101; 45; 118; 49].

(** ["host-private"], ["host"], ["group"], ["estate"] *)
Definition NAMES : list bytes :=
  [[104; 111; 115; 116; 45; 112; 114; 105; 118; 97; 116; 101]; [104; 111; 115; 116]; [103; 114; 111; 117; 112];
   [101; 115; 116; 97; 116; 101]].

Definition fzn_scope_known (byte : Z) : bool := byte <? FZN_SCOPE_COUNT.

Definition fzn_scope_read (byte : Z) : Z := if fzn_scope_known byte then byte else FZN_SCOPE_HOST_PRIVATE.

Definition fzn_scope_name (scope : Z) : option bytes :=
  if scope <? FZN_SCOPE_COUNT then NAMES !! Z.to_nat scope else None.

Definition fzn_scope_parse (text : bytes) : option Z := Z.of_nat <$> find_index (memeq text) NAMES.

Definition fzn_scope_reaches (scope : Z) (in_group : bool) : bool :=
  if (scope =? FZN_SCOPE_HOST) || (scope =? FZN_SCOPE_ESTATE) then true
  else if scope =? FZN_SCOPE_GROUP then in_group
  else if scope =? FZN_SCOPE_HOST_PRIVATE then false
  else false.

Definition fzn_scope_replicates (scope : Z) : bool := fzn_scope_reaches scope true.

Definition fzn_scope_widens (from to_ : Z) : bool :=
  (fzn_scope_reaches to_ true && negb (fzn_scope_reaches from true))
  || (fzn_scope_reaches to_ false && negb (fzn_scope_reaches from false)).

Definition fzn_scope_subject (scope : Z) (id : bytes) (hash : option fzn_hash_ops) : fzn_scope_err * option bytes :=
  match hash with
  | None => (FZN_SCOPE_ERR_MALFORMED, None)
  | Some hash =>
    if scope =? FZN_SCOPE_HOST_PRIVATE then (FZN_SCOPE_ERR_PRIVATE, None)
    else if scope >=? FZN_SCOPE_COUNT then (FZN_SCOPE_ERR_MALFORMED, None)
    else match hash FZN_SUBJECT_LEN (FZN_SCOPE_LABEL ++ [u8 scope] ++ id) with
    | None => (FZN_SCOPE_ERR_MALFORMED, None)
    | Some derived => (FZN_SCOPE_OK, Some derived)
    end
  end.

Definition group_char (c : Z) : bool :=
  ((c >=? 97) && (c <=? 122)) || ((c >=? 48) && (c <=? 57)) || (c =? 46) || (c =? 95) || (c =? 45).

Definition fzn_scope_group_id (name : bytes) : option bytes :=
  if (zlen name =? 0) || (zlen name >? FZN_SCOPE_GROUP_NAME_MAX) || (zlen name >? FZN_SUBJECT_LEN) then None
  else if negb (forallb group_char name) then None
  else Some (blit 0 name (zeros FZN_SUBJECT_LEN)).

(** The bytes before the first that is zero, at most [n]. *)
Fixpoint name_len (id : bytes) (n : nat) : Z :=
  match n, id with
  | S n, c :: id => if c =? 0 then 0 else 1 + name_len id n
  | _, _ => 0
  end.

Definition fzn_scope_group_name (id : bytes) : option bytes :=
  let n := name_len id (Z.to_nat (Z.min FZN_SUBJECT_LEN FZN_SCOPE_GROUP_NAME_MAX)) in
  if n =? 0 then None
  else if negb (forallb group_char (slice 0 n id)) then None
  else if negb (forallb (fun c => c =? 0) (slice n (FZN_SUBJECT_LEN - n) id)) then None
  else Some (slice 0 n id).

(** ** Names and ids *)

Lemma group_char_range c : group_char c = true -> 0 < c < 256.
Proof. unfold group_char. lia. Qed.

Lemma name_len_app name rest n : Forall (fun c => c <> 0) name -> (length name <= n)%nat ->
  name_len (name ++ rest) n = zlen name + name_len rest (n - length name).
Proof.
  revert n. unfold zlen. induction name as [|c name IH]; intros n Hnz Hn; cbn [app length name_len] in *; [replace (n - 0)%nat with n by lia; lia|].
  destruct n as [|n]; [lia|]. apply Forall_cons_iff in Hnz as [Hc Hnz]. cbn [name_len]. destruct (Z.eqb_spec c 0); [done|].
  rewrite IH by (done || lia). cbn [Nat.sub]. lia.
Qed.

Lemma name_len_zeros k n : name_len (replicate k 0) n = 0.
Proof. destruct n, k; done. Qed.

Lemma name_len_spec id : forall n, exists k, name_len id n = Z.of_nat k /\ (k <= n)%nat /\ (k <= length id)%nat.
Proof.
  induction id as [|c id IH]; intros [|n]; cbn [name_len length]; try (by exists 0%nat; split_and!; lia).
  destruct (Z.eqb_spec c 0); [exists 0%nat; lia|]. destruct (IH n) as (k & -> & ? & ?). exists (S k). lia.
Qed.

Lemma forallb_zeros l : forallb (fun c => c =? 0) l = true <-> l = zeros (zlen l).
Proof.
  unfold zeros, zlen. rewrite Nat2Z.id. induction l as [|c l IH]; [done|]. cbn [forallb length replicate].
  rewrite andb_true_iff, Z.eqb_eq, IH. split; [by intros [-> <-]|by intros [= -> H]].
Qed.

(** A name that has an id. *)
Definition group_name_ok (name : bytes) : Prop := 0 < zlen name <= 32 /\ Forall (fun c => group_char c = true) name.

Lemma group_id_spec name id : fzn_scope_group_id name = Some id <-> group_name_ok name /\ id = name ++ zeros (32 - zlen name).
Proof.
  pose proof (zlen_nonneg name). unfold fzn_scope_group_id, group_name_ok. change FZN_SCOPE_GROUP_NAME_MAX with 32.
  change FZN_SUBJECT_LEN with 32. rewrite !Z.gtb_ltb. destruct (Z.eqb_spec (zlen name) 0); cbn [orb]; [split; [done|lia]|].
  destruct (Z.ltb_spec 32 (zlen name)); cbn [orb]; [split; [done|lia]|].
  assert (blit 0 name (zeros 32) = name ++ zeros (32 - zlen name)) as ->.
  { unfold blit, zeros. rewrite drop_replicate. change (take (Z.to_nat 0) _) with (@nil Z). apply (f_equal (fun n => name ++ replicate n 0)). unfold zlen. lia. }
  destruct (forallb group_char name) eqn:Ef; cbn [negb].
  - apply forallb_true_Forall in Ef. split; [intros [= <-]; split_and!; [lia|done..]|by intros [_ ->]].
  - split; [done|]. intros [[_ Hf] _]. apply forallb_true_Forall in Hf. congruence.
Qed.

Lemma group_name_spec id name : zlen id = 32 ->
  fzn_scope_group_name id = Some name <-> group_name_ok name /\ id = name ++ zeros (32 - zlen name).
Proof.
  intros Hid. unfold fzn_scope_group_name. change (Z.to_nat (Z.min FZN_SUBJECT_LEN FZN_SCOPE_GROUP_NAME_MAX)) with 32%nat.
  change FZN_SUBJECT_LEN with 32. destruct (name_len_spec id 32) as (k & Hk & Hk1 & Hk2). cbv zeta. split.
  - rewrite Hk. destruct (Z.eqb_spec (Z.of_nat k) 0); [done|].
    destruct (forallb group_char _) eqn:Ef; cbn [negb]; [|done]. destruct (forallb _ (slice (Z.of_nat k) _ id)) eqn:Ez; cbn [negb]; [|done].
    intros [= <-]. apply forallb_true_Forall in Ef. apply forallb_zeros in Ez.
    assert (zlen (slice 0 (Z.of_nat k) id) = Z.of_nat k) as Hl by (apply zlen_slice; lia).
    rewrite zlen_slice in Ez by lia. split; [split; [lia|done]|]. rewrite Hl, <- Ez.
    rewrite (slice_app 0) by lia. symmetry. apply slice_all. lia.
  - intros [[Hl Hf] ->]. pose proof (list.Forall_impl _ _ _ Hf (fun c H => proj1 (group_char_range c H))) as Hnz.
    assert (name_len (name ++ zeros (32 - zlen name)) 32 = zlen name) as ->.
    { unfold zeros. rewrite name_len_app, name_len_zeros; [lia| |unfold zlen in *; lia]. eapply list.Forall_impl; [exact Hnz|]. cbn. lia. }
    destruct (Z.eqb_spec (zlen name) 0); [lia|]. rewrite slice_front by done. apply forallb_true_Forall in Hf. rewrite Hf. cbn [negb].
    replace (slice (zlen name) (32 - zlen name) _) with (zeros (32 - zlen name)).
    + rewrite (proj2 (forallb_zeros _)); [done|]. by rewrite zlen_zeros by lia.
    + rewrite <- (app_nil_r (zeros _)) at 2. symmetry. apply slice_mid; [done|]. apply zlen_zeros. lia.
Qed.

(** A group's id is its name. A name has an id just when it has a
    character or more, no more than 32, each of the alphabet; the id, and no
    other, is read back as that name, and an id that no name makes is read as
    none. *)
Theorem group_names_are_ids id name : zlen id = FZN_SUBJECT_LEN ->
  (fzn_scope_group_id name = Some id <-> fzn_scope_group_name id = Some name) /\
  (is_Some (fzn_scope_group_id name) <-> group_name_ok name).
Proof.
  intros Hid. rewrite group_id_spec, group_name_spec by done. split; [done|]. split.
  - intros [i Hi]. by apply group_id_spec in Hi as [? _].
  - intros Hok. eexists. by apply group_id_spec.
Qed.

Lemma group_names_are_ids_witness :
  fzn_scope_group_name ([97; 46; 48] ++ zeros 29) = Some [97; 46; 48].
Proof. apply (group_names_are_ids ([97; 46; 48] ++ zeros 29) [97; 46; 48] eq_refl). reflexivity. Defined.

(** ** Reach *)

(** What is no scope travels as what is private. *)
Lemma unknown_is_private byte in_group : fzn_scope_reaches (fzn_scope_read byte) in_group = fzn_scope_reaches byte in_group.
Proof.
  unfold fzn_scope_read, fzn_scope_known, fzn_scope_reaches, FZN_SCOPE_COUNT, FZN_SCOPE_HOST, FZN_SCOPE_ESTATE, FZN_SCOPE_GROUP, FZN_SCOPE_HOST_PRIVATE.
  destruct (Z.ltb_spec byte 4); [done|]. destruct (Z.eqb_spec byte 1); [lia|]. destruct (Z.eqb_spec byte 3); [lia|]. destruct (Z.eqb_spec byte 2); [lia|].
  cbn [orb]. by destruct (byte =? 0).
Qed.

(** A change widens when it reaches a host that was not reached. *)
Lemma widens_iff from to_ : fzn_scope_widens from to_ = true <->
  exists in_group, fzn_scope_reaches to_ in_group = true /\ fzn_scope_reaches from in_group = false.
Proof.
  unfold fzn_scope_widens. rewrite orb_true_iff, !andb_true_iff, !negb_true_iff. split.
  - intros [[? ?]|[? ?]]; [by exists true|by exists false].
  - intros [[|] [? ?]]; auto.
Qed.

Lemma subject_ok scope id hash d : 0 <= scope <= UINT8_MAX ->
  fzn_scope_subject scope id (Some hash) = (FZN_SCOPE_OK, Some d) <->
  0 < scope < FZN_SCOPE_COUNT /\ hash FZN_SUBJECT_LEN (FZN_SCOPE_LABEL ++ [scope] ++ id) = Some d.
Proof.
  intros Hs. unfold fzn_scope_subject, FZN_SCOPE_HOST_PRIVATE, FZN_SCOPE_COUNT. rewrite Z.geb_leb.
  destruct (Z.eqb_spec scope 0); [split; [done|lia]|]. destruct (Z.leb_spec 4 scope); [split; [done|lia]|].
  rewrite u8_small by done. destruct (hash _ _) as [d'|]; (split; [intros [= ->]|intros [_ E]; congruence]). split; [lia|done].
Qed.

(** One subject is of one scope and one id. *)
Lemma one_scope_of hash s i s' i' d : 0 <= s <= UINT8_MAX -> 0 <= s' <= UINT8_MAX ->
  fzn_scope_subject s i (Some hash) = (FZN_SCOPE_OK, Some d) -> fzn_scope_subject s' i' (Some hash) = (FZN_SCOPE_OK, Some d) ->
  (s = s' /\ i = i') \/ exists x y, collide hash FZN_SUBJECT_LEN (FZN_SCOPE_LABEL ++ x) (FZN_SCOPE_LABEL ++ y).
Proof.
  intros Hs Hs' (_ & H1)%subject_ok (_ & H2)%subject_ok; try done.
  destruct (same_hash _ _ _ _ _ H1 H2) as [E|C]; [left|right; eauto]. apply app_inv_head in E. by injection E.
Qed.
