(* ===== verification/Setting.v ===== *)
(** * state/setting.c: one cell of the estate's configuration, signed

    A setting is issued and opened in one of two shapes, told by their length;
    a cell is named by a hash; and of two settings of one rank the one that
    stands is decided. Keys, values and the fields of fixed length are given;
    the operations of a signature are [None] where they are NULL. *)

From S2P Require Import Prelude Bytes Hop Revocation Records Scope.

Definition FZN_SETTING_KEY_MAX : Z := 64.
Definition FZN_SETTING_VALUE_MAX : Z := 256.
Definition FZN_SETTING_OFF_SETTER : Z := 2.
Definition FZN_SETTING_OFF_SCOPE : Z := FZN_SETTING_OFF_SETTER + FZN_PUBKEY_LEN.
Definition FZN_SETTING_OFF_ABOUT : Z := FZN_SETTING_OFF_SCOPE + 1.
Definition FZN_SETTING_OFF_VERSION : Z := FZN_SETTING_OFF_ABOUT + FZN_SUBJECT_LEN.
Definition FZN_SETTING_OFF_KEY_LEN : Z := FZN_SETTING_OFF_VERSION + 8.
Definition FZN_SETTING_OFF_KEY : Z := FZN_SETTING_OFF_KEY_LEN + 1.
Definition FZN_SETTING_MIN : Z := FZN_SETTING_OFF_KEY + 1 + 1 + 2 + FZN_SIG_LEN.
Definition FZN_SETTING_MAX : Z :=
  FZN_SETTING_OFF_KEY + FZN_SETTING_KEY_MAX + 1 + 2 + FZN_SETTING_VALUE_MAX + 1 + FZN_SIG_LEN.
Definition FZN_SETTING_RANKS : Z := 3.
Definition FZN_OBJECT_SETTING : Z := 147.

(** The number of a rank; [-1] is none stated. *)
Definition FZN_SETTING_RANK_HOST : Z := 0.
Definition FZN_SETTING_RANK_ADMIN : Z := 1.
Definition FZN_SETTING_RANK_ROOT : Z := 2.

Inductive fzn_setting_err :=
  | FZN_SETTING_OK | FZN_SETTING_ERR_MALFORMED | FZN_SETTING_ERR_SHAPE | FZN_SETTING_ERR_SIGNATURE | FZN_SETTING_ERR_SCOPE.

Record fzn_setting := mk_setting {
  sg_setter : bytes;
  sg_scope : Z;
  sg_about : bytes;
  sg_version : Z;
  sg_key : bytes;
  sg_set : Z;
  sg_value : bytes;
  sg_rank : Z }.

(** ["fuzznet-cell-v1."] *)
Definition FZN_SETTING_LABEL : bytes := [102; 117; 122; 122; 110; 101; 116; 45; 99; 101; 108; 108; 45; 118; 49; 46].

Definition key_char (c : Z) : bool :=
  ((c >=? 97) && (c <=? 122)) || ((c >=? 48) && (c <=? 57)) || (c =? 46) || (c =? 95) || (c =? 47) || (c =? 45).

Definition fzn_setting_key_ok (key : bytes) : bool :=
  if (zlen key =? 0) || (zlen key >? FZN_SETTING_KEY_MAX) then false else forallb key_char key.

Definition value_ok (value : bytes) : bool :=
  if zlen value >? FZN_SETTING_VALUE_MAX then false else forallb (fun c => negb ((c <? 32) || (c >? 126))) value.

Definition scope_served (scope : Z) : bool :=
  (scope =? FZN_SCOPE_HOST) || (scope =? FZN_SCOPE_GROUP) || (scope =? FZN_SCOPE_ESTATE).

(** The buffer up to the signature, and how much of it is written. *)
Definition setting_write (out setter : bytes) (scope : Z) (about : bytes) (version : Z) (key : bytes) (set : Z) (value : bytes) (rank : Z)
    : bytes * Z :=
  let out := poke out 0 FZN_SIGNED_VERSION in
  let out := poke out 1 FZN_OBJECT_SETTING in
  let out := blit FZN_SETTING_OFF_SETTER setter out in
  let out := poke out FZN_SETTING_OFF_SCOPE scope in
  let out := blit FZN_SETTING_OFF_ABOUT about out in
  let out := fzn_put_be64 out FZN_SETTING_OFF_VERSION version in
  let out := poke out FZN_SETTING_OFF_KEY_LEN (zlen key) in
  let out := blit FZN_SETTING_OFF_KEY key out in
  let at_ := FZN_SETTING_OFF_KEY + zlen key in
  let out := poke out at_ set in
  let at_ := at_ + 1 in
  let out := fzn_put_be16 out at_ (u16 (zlen value)) in
  let at_ := at_ + 2 in
  let out := blit at_ value out in
  let at_ := at_ + zlen value in
  if rank >=? 0 then (poke out at_ rank, at_ + 1) else (out, at_).

(** The buffer and [*out_len]. *)
Definition issue (setter : bytes) (sign_ops : option fzn_sign_ops) (scope : Z) (about : bytes) (version : Z) (key : bytes) (set : Z)
    (value : bytes) (rank : Z) (out : bytes) : fzn_setting_err * bytes * Z :=
  match sign_ops ≫= sign with
  | None => (FZN_SETTING_ERR_MALFORMED, out, 0)
  | Some sign =>
    if negb (fzn_setting_key_ok key) || (negb (set =? 0) && negb (set =? 1)) || ((set =? 0) && negb (zlen value =? 0)) || negb (value_ok value)
       || (rank <? -1) || (rank >=? FZN_SETTING_RANKS)
    then (FZN_SETTING_ERR_MALFORMED, out, 0)
    else if negb (scope_served scope) then (FZN_SETTING_ERR_SCOPE, out, 0)
    else
      let '(out, at_) := setting_write out setter scope about version key set value rank in
      match sign (slice 0 at_ out) with
      | None => (FZN_SETTING_ERR_SIGNATURE, out, 0)
      | Some sig => (FZN_SETTING_OK, blit at_ sig out, at_ + FZN_SIG_LEN)
      end
  end.

Definition fzn_setting_issue (setter : bytes) (sign_ops : option fzn_sign_ops) (scope : Z) (about : bytes) (version : Z) (key : bytes)
    (set : Z) (value out : bytes) : fzn_setting_err * bytes * Z :=
  issue setter sign_ops scope about version key set value (-1) out.

(** [rank] is converted to [unsigned]. *)
Definition fzn_setting_issue_ranked (setter : bytes) (sign_ops : option fzn_sign_ops) (scope : Z) (about : bytes) (version : Z) (key : bytes)
    (set : Z) (value : bytes) (rank : Z) (out : bytes) : fzn_setting_err * bytes * Z :=
  if u32 rank >=? FZN_SETTING_RANKS then (FZN_SETTING_ERR_MALFORMED, out, 0)
  else issue setter sign_ops scope about version key set value rank out.

Definition fzn_setting_open (b : bytes) (sign_ops : option fzn_sign_ops) : fzn_setting_err * option fzn_setting :=
  match sign_ops ≫= verify with
  | None => (FZN_SETTING_ERR_MALFORMED, None)
  | Some verify =>
    if (zlen b <? FZN_SETTING_MIN) || (zlen b >? FZN_SETTING_MAX) || negb (peek b 0 =? FZN_SIGNED_VERSION) || negb (peek b 1 =? FZN_OBJECT_SETTING)
    then (FZN_SETTING_ERR_SHAPE, None)
    else
      let key_len := peek b FZN_SETTING_OFF_KEY_LEN in
      let at_ := FZN_SETTING_OFF_KEY + key_len in
      if negb (fzn_setting_key_ok (slice FZN_SETTING_OFF_KEY key_len b)) || (zlen b <? at_ + 3 + FZN_SIG_LEN) || (peek b at_ >? 1)
      then (FZN_SETTING_ERR_SHAPE, None)
      else
        let value_len := fzn_get_be16 b (at_ + 1) in
        let ranked := zlen b =? at_ + 3 + value_len + 1 + FZN_SIG_LEN in
        if (negb ranked && negb (zlen b =? at_ + 3 + value_len + FZN_SIG_LEN))
           || ((peek b at_ =? 0) && negb (value_len =? 0)) || negb (value_ok (slice (at_ + 3) value_len b))
           || (ranked && (peek b (at_ + 3 + value_len) >=? FZN_SETTING_RANKS))
        then (FZN_SETTING_ERR_SHAPE, None)
        else if negb (scope_served (peek b FZN_SETTING_OFF_SCOPE)) then (FZN_SETTING_ERR_SCOPE, None)
        else if negb (verify (slice FZN_SETTING_OFF_SETTER FZN_PUBKEY_LEN b) (slice 0 (zlen b - FZN_SIG_LEN) b)
                        (slice (zlen b - FZN_SIG_LEN) FZN_SIG_LEN b))
        then (FZN_SETTING_ERR_SIGNATURE, None)
        else (FZN_SETTING_OK, Some (mk_setting
          (slice FZN_SETTING_OFF_SETTER FZN_PUBKEY_LEN b) (peek b FZN_SETTING_OFF_SCOPE) (slice FZN_SETTING_OFF_ABOUT FZN_SUBJECT_LEN b)
          (fzn_get_be64 b FZN_SETTING_OFF_VERSION) (slice FZN_SETTING_OFF_KEY key_len b) (peek b at_) (slice (at_ + 3) value_len b)
          (if ranked then peek b (at_ + 3 + value_len) else -1)))
  end.

Definition fzn_setting_cell_of (scope : Z) (about key : bytes) (hash : option fzn_hash_ops) : option bytes :=
  match hash with
  | None => None
  | Some h =>
    if negb (fzn_setting_key_ok key) then None
    else match fzn_scope_subject scope about hash with
    | (FZN_SCOPE_OK, Some subject) =>
      h FZN_SUBJECT_LEN (FZN_SETTING_LABEL ++ [u8 scope] ++ subject ++ [u8 (zlen key)] ++ key)
    | _ => None
    end
  end.

Definition fzn_setting_cell (s : fzn_setting) (hash : option fzn_hash_ops) : option bytes :=
  fzn_setting_cell_of (sg_scope s) (sg_about s) (sg_key s) hash.

Definition fzn_setting_supersedes (a b : fzn_setting) : bool :=
  if negb (sg_version a =? sg_version b) then sg_version a >? sg_version b
  else
    let c := memcmp (sg_setter a) (sg_setter b) in
    if negb (c =? 0) then c >? 0
    else if negb (sg_set a =? sg_set b) then sg_set a >? sg_set b
    else if negb (zlen (sg_value a) =? zlen (sg_value b)) then zlen (sg_value a) >? zlen (sg_value b)
    else negb (zlen (sg_value a) =? 0) && (memcmp (sg_value a) (sg_value b) >? 0).

(** ** One encoding *)

Definition setting_fields (t : fzn_setting) : list bytes :=
  [[1]; [147]; sg_setter t; [sg_scope t]; sg_about t; be64 (sg_version t); [zlen (sg_key t)]; sg_key t; [sg_set t]; be16 (zlen (sg_value t));
   sg_value t; if sg_rank t >=? 0 then [sg_rank t] else []].

Definition setting_bytes (t : fzn_setting) : bytes := concat (setting_fields t).

Record setting_ok (t : fzn_setting) : Prop := {
  go_setter : is_bytes 32 (sg_setter t);
  go_scope : scope_served (sg_scope t) = true;
  go_about : is_bytes 32 (sg_about t);
  go_version : in_u64 (sg_version t);
  go_key : fzn_setting_key_ok (sg_key t) = true;
  go_set : sg_set t = 0 \/ sg_set t = 1;
  go_clear : sg_set t = 0 -> sg_value t = [];
  go_value : value_ok (sg_value t) = true;
  go_rank : -1 <= sg_rank t < 3
}.

Lemma scope_served_range s : scope_served s = true -> 1 <= s <= 3.
Proof. unfold scope_served, FZN_SCOPE_HOST, FZN_SCOPE_GROUP, FZN_SCOPE_ESTATE. lia. Qed.

Lemma key_ok_len key : fzn_setting_key_ok key = true -> 1 <= zlen key <= 64 /\ Forall in_u8 key.
Proof.
  unfold fzn_setting_key_ok, FZN_SETTING_KEY_MAX. pose proof (zlen_nonneg key). rewrite Z.gtb_ltb.
  destruct (Z.eqb_spec (zlen key) 0); [done|]. destruct (Z.ltb_spec 64 (zlen key)); [done|]. cbn [orb]. intros Hk%forallb_true_Forall.
  split; [lia|]. eapply list.Forall_impl; [exact Hk|]. intros c. unfold key_char. cbn. ulia.
Qed.

Lemma value_ok_len value : value_ok value = true -> zlen value <= 256 /\ Forall in_u8 value.
Proof.
  unfold value_ok, FZN_SETTING_VALUE_MAX. rewrite Z.gtb_ltb. destruct (Z.ltb_spec 256 (zlen value)); [done|]. intros Hk%forallb_true_Forall.
  split; [lia|]. eapply list.Forall_impl; [exact Hk|]. cbn. intros c. ulia.
Qed.

(** The length of a setting's bytes: of a rank too, where it states one. *)
Definition rank_len (t : fzn_setting) : Z := if sg_rank t >=? 0 then 1 else 0.

Lemma zlen_setting t : setting_ok t -> zlen (setting_bytes t) = 79 + zlen (sg_key t) + zlen (sg_value t) + rank_len t.
Proof.
  intros [[Hs _] _ [Ha _] _ _ _ _ _ _]. unfold setting_bytes, setting_fields, rank_len. cbn [concat].
  rewrite !zlen_app, zlen_be64, zlen_be16, Hs, Ha. destruct (_ >=? 0); rewrite !zlen_cons, !zlen_nil; lia.
Qed.

Lemma write_fields out t : setting_ok t ->
  setting_write out (sg_setter t) (sg_scope t) (sg_about t) (sg_version t) (sg_key t) (sg_set t) (sg_value t) (sg_rank t) =
  (setting_bytes t ++ drop (length (setting_bytes t)) out, zlen (setting_bytes t)).
Proof.
  intros Ht. pose proof (zlen_setting t Ht) as Hlen. destruct Ht as [[Hs _] Hsc [Ha _] Hv Hk Hset _ Hval Hr].
  apply scope_served_range in Hsc. apply key_ok_len in Hk as [Hk _]. apply value_ok_len in Hval as [Hval _]. pose proof (zlen_nonneg (sg_value t)).
  unfold setting_write, rank_len in *. unfold poke.
  pose proof (blits_start (setting_fields t) out) as Hb. fold (setting_bytes t) in Hb.
  unfold setting_fields in Hb. cbn [blits] in Hb. rewrite !zlen_1, zlen_be64, zlen_be16, Hs, Ha in Hb.
  rewrite Z.geb_leb in *. destruct (Z.leb_spec 0 (sg_rank t)).
  - rewrite <- Hb, !u8_small, u16_small by ulia. f_equal; [..|change FZN_SETTING_OFF_KEY with 76; lia]; reflexivity.
  - rewrite blit_nil in Hb. rewrite <- Hb, !u8_small, u16_small by ulia. f_equal; [..|change FZN_SETTING_OFF_KEY with 76; lia]; reflexivity.
Qed.

(** What a setter signs is a setting, or is refused. *)
Lemma issue_spec t ops sg out : is_bytes 32 (sg_setter t) -> is_bytes 32 (sg_about t) -> in_u64 (sg_version t) ->
  sign ops = Some sg -> FZN_SETTING_MAX <= zlen out ->
  let '(err, out', n) := issue (sg_setter t) (Some ops) (sg_scope t) (sg_about t) (sg_version t) (sg_key t) (sg_set t) (sg_value t) (sg_rank t) out in
  (setting_ok t -> match sg (setting_bytes t) with
     | Some sig => err = FZN_SETTING_OK /\ n = zlen (setting_bytes t) + 64 /\ (zlen sig = 64 -> slice 0 n out' = setting_bytes t ++ sig)
     | None => err = FZN_SETTING_ERR_SIGNATURE /\ n = 0
     end) /\
  (err = FZN_SETTING_OK \/ err = FZN_SETTING_ERR_SIGNATURE -> setting_ok t).
Proof.
  intros Hs Ha Hv Hsg Hout. unfold issue. cbn [mbind option_bind]. rewrite Hsg.
  destruct (_ || _ || _ || _ || _ || _) eqn:Hbad.
  { split; [|by intros [|]]. intros [_ _ _ _ Hk Hset Hcl Hval Hr]. exfalso. rewrite Hk, Hval in Hbad. change FZN_SETTING_RANKS with 3 in Hbad.
    assert (sg_set t = 0 -> zlen (sg_value t) = 0) as Hz by (intros Hz; by rewrite (Hcl Hz)). lia. }
  rewrite !orb_false_iff in Hbad. destruct Hbad as [[[[[Hk Hset] Hcl] Hval] Hr1] Hr2]. apply negb_false_iff in Hk, Hval.
  change FZN_SETTING_RANKS with 3 in Hr2. destruct (scope_served (sg_scope t)) eqn:Hsc; cbn [negb].
  2:{ split; [|by intros [|]]. intros [_ Hsc' _ _ _ _ _ _ _]. congruence. }
  assert (setting_ok t) as Ht.
  { split; try done; try lia. intros Hz. rewrite Hz in Hcl. cbn in Hcl. apply negb_false_iff, Z.eqb_eq in Hcl. unfold zlen in Hcl.
    by destruct (sg_value t). }
  rewrite (write_fields out t Ht). rewrite slice_front by done.
  destruct (sg (setting_bytes t)) as [sig|]; split; try done; try by intros.
  intros _. split_and!; [done|done|]. intros Hsig. pose proof (zlen_setting t Ht) as Hl.
  rewrite blit_next by done. apply slice_front. rewrite zlen_app. change FZN_SIG_LEN with 64. lia.
Qed.

(** A byte string opens to a setting just when it is its one encoding, and
    its setter signed it. *)
Lemma open_spec b ops vf t : Forall in_u8 b -> verify ops = Some vf ->
  fzn_setting_open b (Some ops) = (FZN_SETTING_OK, Some t) <->
  setting_ok t /\ exists sig, zlen sig = 64 /\ b = setting_bytes t ++ sig /\ vf (sg_setter t) (setting_bytes t) sig = true.
Proof.
  intros Hb Hvf. unfold fzn_setting_open. cbn [mbind option_bind]. rewrite Hvf. change FZN_SETTING_MIN with 144.
  change FZN_SETTING_MAX with 464. change FZN_SIGNED_VERSION with 1. change FZN_OBJECT_SETTING with 147.
  change FZN_SETTING_OFF_KEY_LEN with 75. change FZN_SETTING_OFF_KEY with 76. change FZN_SIG_LEN with 64. change FZN_SETTING_RANKS with 3.
  change FZN_SETTING_OFF_SCOPE with 34. change FZN_SETTING_OFF_SETTER with 2. change FZN_PUBKEY_LEN with 32.
  change FZN_SETTING_OFF_ABOUT with 35. change FZN_SUBJECT_LEN with 32. change FZN_SETTING_OFF_VERSION with 67. split.
  - destruct (_ || _ || _ || _) eqn:H0; [done|]. rewrite !orb_false_iff, !negb_false_iff, !Z.eqb_eq in H0. destruct H0 as [[[Hmin Hmax] Hp0] Hp1].
    cbv zeta. set (kl := peek b 75). destruct (_ || _ || _) eqn:H1; [done|]. rewrite !orb_false_iff, negb_false_iff in H1.
    destruct H1 as [[Hk Hlen] Hset]. assert (in_u8 kl) as Hkl by by apply peek_range.
    set (vl := fzn_get_be16 b (76 + kl + 1)) in *. assert (in_u16 vl) as Hvl by by apply get_be16_range.
    set (ranked := zlen b =? _) in *. set (set_ := peek b (76 + kl)) in *. assert (in_u8 set_) as Hsr by by apply peek_range.
    destruct (_ || _ || _ || _) eqn:H2; [done|]. rewrite !orb_false_iff, negb_false_iff in H2. destruct H2 as [[[Hsh Hcl] Hval] Hrk].
    destruct (scope_served (peek b 34)) eqn:Hsc; cbn [negb]; [|done]. destruct (vf _ _ _) eqn:Hv; cbn [negb]; [|done]. intros [= <-].
    set (rk := if ranked then _ else -1) in *. set (rl := if ranked then 1 else 0).
    assert (zlen b = 76 + kl + 3 + vl + rl + 64) as Hl by (unfold ranked, rl in *; lia).
    assert (setting_bytes (mk_setting (slice 2 32 b) (peek b 34) (slice 35 32 b) (fzn_get_be64 b 67) (slice 76 kl b) set_ (slice (76 + kl + 3) vl b) rk)
      = slice 0 (zlen b - 64) b) as Hbytes.
    { transitivity (cuts 0 [1; 1; 32; 1; 32; 8; 1; kl; 1; 2; vl; rl] b).
      2:{ rewrite cuts_range by (done || (repeat constructor; unfold rl; destruct ranked; width; lia)). f_equal. cbn. lia. }
      unfold setting_bytes, setting_fields. cbn [concat cuts sg_setter sg_scope sg_about sg_version sg_key sg_set sg_value sg_rank].
      rewrite !zlen_slice, be64_get by (done || width; lia). unfold vl at 1. rewrite be16_get by (done || width; lia).
      rewrite !slice_1 by (width; lia). change (0 + 1) with 1. rewrite Hp0, Hp1. fold kl.
      change (peek b (1 + 1 + 32 + 1 + 32 + 8 + 1 + kl)) with set_. replace (1 + 1 + 32 + 1 + 32 + 8 + 1 + kl + 1 + 2) with (76 + kl + 3) by lia.
      replace (if rk >=? 0 then [rk] else []) with (slice (76 + kl + 3 + vl) rl b); [reflexivity|]. unfold rk, rl. destruct ranked; [|reflexivity].
      rewrite slice_1 by (width; lia). pose proof (peek_range b (76 + kl + 3 + vl) Hb) as Hr. rewrite Z.geb_leb.
      destruct (Z.leb_spec 0 (peek b (76 + kl + 3 + vl))); [done|]. width. lia. }
    split; [|exists (slice (zlen b - 64) 64 b)].
    + split; cbn [sg_setter sg_scope sg_about sg_version sg_key sg_set sg_value sg_rank]; try done.
      * apply (is_bytes_slice 2 32 (zlen b)); lia || by split.
      * apply (is_bytes_slice 35 32 (zlen b)); lia || by split.
      * by apply get_be64_range.
      * width. lia.
      * intros Hz. unfold set_ in *. rewrite Hz in Hcl. cbn in Hcl. apply negb_false_iff, Z.eqb_eq in Hcl. by rewrite Hcl.
      * unfold rk. destruct ranked; [|lia]. pose proof (peek_range b (76 + kl + 3 + vl) Hb). cbn [andb] in Hrk. width. lia.
    + rewrite Hbytes. split_and!; [apply zlen_slice; lia| |exact Hv]. rewrite (slice_app 0) by lia. symmetry. apply slice_all. lia.
  - intros [Ht (sig & Hsig & -> & Hv)]. pose proof (zlen_setting t Ht) as Hl. pose proof (zlen_nonneg (sg_value t)) as Hv0.
    destruct Ht as [[Hs _] Hsc [Ha _] Hver Hk Hset Hcl Hval Hr]. pose proof (scope_served_range _ Hsc) as Hscr.
    pose proof (key_ok_len _ Hk) as [Hkl _]. pose proof (value_ok_len _ Hval) as [Hvl _].
    set (b := setting_bytes t ++ sig) in *. set (kl := zlen (sg_key t)) in *. set (vl := zlen (sg_value t)) in *.
    assert (zlen b = 79 + kl + vl + rank_len t + 64) as Hlb by (unfold b; rewrite zlen_app; lia).
    assert (forall i f off n, (setting_fields t ++ [sig]) !! i = Some f -> zlen (concat (take i (setting_fields t ++ [sig]))) = off ->
      zlen f = n -> slice off n b = f) as Hf.
    { intros i f off n Hi Ho Hn. replace b with (concat (setting_fields t ++ [sig])); [by eapply slice_field|].
      rewrite concat_app. cbn [concat]. by rewrite app_nil_r. }
    assert (forall i f off n, (setting_fields t ++ [sig]) !! i = Some f ->
      match i with 0%nat => 0 | 1%nat => 1 | 2%nat => 2 | 3%nat => 34 | 4%nat => 35 | 5%nat => 67 | 6%nat => 75 | 7%nat => 76 | 8%nat => 76 + kl
        | 9%nat => 76 + kl + 1 | 10%nat => 76 + kl + 3 | 11%nat => 76 + kl + 3 + vl | _ => 79 + kl + vl + rank_len t end = off ->
      zlen f = n -> slice off n b = f) as Hg.
    { intros i f off n Hi <- Hn. eapply Hf; [exact Hi| |exact Hn]. unfold setting_fields.
      do 12 (destruct i as [|i]; [cbn [take app concat]; unfold rank_len, kl, vl; try destruct (sg_rank t >=? 0);
        repeat (rewrite zlen_app || rewrite zlen_cons || rewrite zlen_nil || rewrite zlen_be64 || rewrite zlen_be16); lia|]).
      destruct i as [|i]; [|done]. rewrite take_app_length' by done. fold (setting_fields t). fold (setting_bytes t). exact Hl. }
    assert (forall i x off, (setting_fields t ++ [sig]) !! i = Some [x] ->
      match i with 0%nat => 0 | 1%nat => 1 | 3%nat => 34 | 6%nat => 75 | 8%nat => 76 + kl | _ => 79 + kl + vl end = off ->
      match i with 0%nat | 1%nat | 3%nat | 6%nat | 8%nat | 11%nat => True | _ => False end -> peek b off = x) as Hp.
    { intros i x off Hi <- Hcase. apply peek_of; [destruct i as [|[|[|[|[|[|[|[|[|[|[|[|i]]]]]]]]]]]]; lia|].
      eapply Hg; [exact Hi| |done]. do 12 (destruct i as [|i]; [try done; lia|]). done. }
    rewrite (Hp 0%nat 1 0 eq_refl eq_refl I), (Hp 1%nat 147 1 eq_refl eq_refl I), (Hp 6%nat kl 75 eq_refl eq_refl I), (Hp 8%nat (sg_set t) (76 + kl) eq_refl eq_refl I),
      (Hp 3%nat (sg_scope t) 34 eq_refl eq_refl I). cbv zeta.
    rewrite (get_be16_of b (76 + kl + 1) vl) by (try (width; lia); eapply (Hg 9%nat); reflexivity).
    rewrite (get_be64_of b 67 (sg_version t)) by (try (width; lia); eapply (Hg 5%nat); reflexivity).
    rewrite (Hg 7%nat (sg_key t) 76 kl eq_refl eq_refl eq_refl), (Hg 10%nat (sg_value t) (76 + kl + 3) vl eq_refl eq_refl eq_refl),
      (Hg 2%nat (sg_setter t) 2 32 eq_refl eq_refl Hs), (Hg 4%nat (sg_about t) 35 32 eq_refl eq_refl Ha).
    rewrite Hk, Hval, Hsc. cbn [negb].
    assert (zlen b - 64 = zlen (setting_bytes t)) as -> by lia.
    assert (slice 0 (zlen (setting_bytes t)) b = setting_bytes t) as -> by (by apply slice_front).
    assert (slice (zlen (setting_bytes t)) 64 b = sig) as ->.
    { unfold b. rewrite <- (app_nil_r sig) at 1. by apply slice_mid. }
    rewrite Hv. cbn [negb].
    assert (sg_set t = 0 -> vl = 0) as Hz by (intros Hz; unfold vl; by rewrite (Hcl Hz)).
    assert ((zlen b =? 76 + kl + 3 + vl + 1 + 64) = (sg_rank t >=? 0)) as -> by (unfold rank_len in *; destruct (sg_rank t >=? 0); lia).
    assert (sg_rank t >= 0 -> peek b (76 + kl + 3 + vl) = sg_rank t) as Hrank.
    { intros Hge. apply (Hp 11%nat); [|lia|done]. cbn. destruct (Z.geb_spec (sg_rank t) 0); [done|lia]. }
    assert (0 <= rank_len t <= 1) by (unfold rank_len; destruct (sg_rank t >=? 0); lia).
    repeat match goal with |- context [if ?c then (FZN_SETTING_ERR_SHAPE, None) else _] =>
      destruct c eqn:?; [exfalso; unfold rank_len in *; destruct (Z.geb_spec (sg_rank t) 0) as [Hge|]; [rewrite (Hrank ltac:(lia)) in *|]; lia|] end.
    destruct (Z.geb_spec (sg_rank t) 0) as [Hge|Hlt]; [rewrite Hrank by lia; by destruct t|].
    assert (sg_rank t = -1) as <- by lia. by destruct t.
Qed.

(** A setting by the call its rank asks for. *)
Definition issue_of (t : fzn_setting) (ops : fzn_sign_ops) (out : bytes) : fzn_setting_err * bytes * Z :=
  if sg_rank t =? -1
  then fzn_setting_issue (sg_setter t) (Some ops) (sg_scope t) (sg_about t) (sg_version t) (sg_key t) (sg_set t) (sg_value t) out
  else fzn_setting_issue_ranked (sg_setter t) (Some ops) (sg_scope t) (sg_about t) (sg_version t) (sg_key t) (sg_set t) (sg_value t) (sg_rank t) out.

Lemma issue_of_issue t ops out : -1 <= sg_rank t < 3 ->
  issue_of t ops out =
  issue (sg_setter t) (Some ops) (sg_scope t) (sg_about t) (sg_version t) (sg_key t) (sg_set t) (sg_value t) (sg_rank t) out.
Proof.
  intros Hr. unfold issue_of. destruct (Z.eqb_spec (sg_rank t) (-1)) as [->|Hne]; [done|]. unfold fzn_setting_issue_ranked, FZN_SETTING_RANKS.
  rewrite u32_small by ulia. destruct (Z.geb_spec (sg_rank t) 3); [lia|done].
Qed.

(** A setting is one string of bytes. What a setter signs, with a rank or
    without, is written as its encoding and the signature and opens to what
    was set; what is out of shape is not signed. A string opens to a setting
    just when it is that setting's one encoding, under a signature of the
    setter's over all of it: the two shapes are never taken for each other,
    and no byte is left to differ. *)
Theorem settings_are_one_string t ops sg vf out : sign ops = Some sg -> verify ops = Some vf -> FZN_SETTING_MAX <= zlen out ->
  is_bytes 32 (sg_setter t) -> is_bytes 32 (sg_about t) -> in_u64 (sg_version t) -> -1 <= sg_rank t < 3 ->
  (forall m sig, sg m = Some sig -> is_bytes 64 sig /\ vf (sg_setter t) m sig = true) ->
  (forall out' n, issue_of t ops out = (FZN_SETTING_OK, out', n) ->
     fzn_setting_open (slice 0 n out') (Some ops) = (FZN_SETTING_OK, Some t) /\ n <= FZN_SETTING_MAX) /\
  ((exists out' n, issue_of t ops out = (FZN_SETTING_OK, out', n)) <-> setting_ok t /\ exists sig, sg (setting_bytes t) = Some sig) /\
  (forall b, Forall in_u8 b -> fzn_setting_open b (Some ops) = (FZN_SETTING_OK, Some t) <->
     setting_ok t /\ exists sig, zlen sig = 64 /\ b = setting_bytes t ++ sig /\ vf (sg_setter t) (setting_bytes t) sig = true).
Proof.
  intros Hsg Hvf Hout Hs Ha Hv Hr Hsound. rewrite (issue_of_issue t ops out Hr).
  pose proof (issue_spec t ops sg out Hs Ha Hv Hsg Hout) as Hi. destruct (issue _ _ _ _ _ _ _ _ _ _) as [[err out1] n1]. destruct Hi as [H1 H2].
  split; [|split; [|by intros b Hb; apply open_spec]].
  - intros out' n [= -> -> ->]. specialize (H2 (or_introl eq_refl)). specialize (H1 H2).
    destruct (sg (setting_bytes t)) as [sig|] eqn:Esig; [|by destruct H1]. destruct H1 as (_ & Hn & Hsl). destruct (Hsound _ _ Esig) as [[Hl Hsr] Hok].
    rewrite (Hsl Hl). pose proof (zlen_setting t H2) as Hlen.
    pose proof (key_ok_len _ (go_key _ H2)) as [Hkl Hkr]. pose proof (value_ok_len _ (go_value _ H2)) as [Hvl Hvr]. split.
    + apply (open_spec _ _ vf); [|done|split; [done|by exists sig]]. apply Forall_app. split; [|done].
      pose proof (scope_served_range _ (go_scope _ H2)) as Hsc. pose proof (go_set _ H2) as Hset. pose proof (zlen_nonneg (sg_value t)).
      unfold setting_bytes, setting_fields. cbn [concat]. rewrite !Forall_app.
      repeat split; try (apply Hs || apply Ha || apply be64_range || apply be16_range || done); try (constructor; [ulia|constructor]).
      destruct (Z.geb_spec (sg_rank t) 0); constructor; [ulia|constructor].
    + change FZN_SETTING_MAX with 464. rewrite Hn, Hlen. unfold rank_len. destruct (_ >=? 0); lia.
  - split.
    + intros (out' & n & [= -> _ _]). specialize (H2 (or_introl eq_refl)). split; [done|]. specialize (H1 H2).
      destruct (sg (setting_bytes t)) as [sig|]; [by exists sig|by destruct H1].
    + intros [Ht [sig Esig]]. specialize (H1 Ht). rewrite Esig in H1. destruct H1 as [-> _]. by exists out1, n1.
Qed.

(** ** Which of two stands *)

(** The facts of three strings of one length that an order needs. *)
Lemma memcmp_three a b c : length a = length b -> length b = length c ->
  (memcmp a b = 0 -> memcmp a c = memcmp b c) /\ (memcmp b c = 0 -> memcmp a c = memcmp a b) /\
  (0 < memcmp a b -> 0 < memcmp b c -> 0 < memcmp a c).
Proof.
  intros H1 H2. split_and!.
  - by intros ->%memcmp_zero.
  - by intros ->%memcmp_zero.
  - by apply memcmp_gt_trans.
Qed.

Definition above (a b : fzn_setting) : Prop :=
  sg_version b < sg_version a \/ (sg_version a = sg_version b /\
  (0 < memcmp (sg_setter a) (sg_setter b) \/ (memcmp (sg_setter a) (sg_setter b) = 0 /\
  (sg_set b < sg_set a \/ (sg_set a = sg_set b /\
  (zlen (sg_value b) < zlen (sg_value a) \/ (zlen (sg_value a) = zlen (sg_value b) /\ 0 < memcmp (sg_value a) (sg_value b)))))))).

Lemma supersedes_iff a b : fzn_setting_supersedes a b = true <-> above a b.
Proof.
  unfold fzn_setting_supersedes, above.
  destruct (Z.eqb_spec (sg_version a) (sg_version b)); cbn [negb]; [|lia].
  destruct (Z.eqb_spec (memcmp (sg_setter a) (sg_setter b)) 0); cbn [negb]; [|lia].
  destruct (Z.eqb_spec (sg_set a) (sg_set b)); cbn [negb]; [|lia].
  destruct (Z.eqb_spec (zlen (sg_value a)) (zlen (sg_value b))) as [El|]; cbn [negb]; [|lia].
  destruct (Z.eqb_spec (zlen (sg_value a)) 0) as [Ez|]; cbn [negb andb]; [|lia].
  assert (sg_value a = [] /\ sg_value b = []) as [-> ->]; [|cbn; lia].
  unfold zlen in *. destruct (sg_value a), (sg_value b); done.
Qed.

Lemma above_trans a b c : zlen (sg_setter a) = 32 -> zlen (sg_setter b) = 32 -> zlen (sg_setter c) = 32 -> above a b -> above b c -> above a c.
Proof.
  unfold above, zlen. intros Ha Hb Hc. destruct (memcmp_three (sg_setter a) (sg_setter b) (sg_setter c) ltac:(lia) ltac:(lia)) as (H1 & H2 & H3).
  destruct (decide (length (sg_value a) = length (sg_value b))) as [E1|E1]; [|lia].
  destruct (decide (length (sg_value b) = length (sg_value c))) as [E2|E2]; [|lia].
  destruct (memcmp_three (sg_value a) (sg_value b) (sg_value c) E1 E2) as (H4 & H5 & H6). lia.
Qed.

Lemma above_irrefl a : ~ above a a.
Proof. unfold above. pose proof (memcmp_opp (sg_setter a) (sg_setter a)). pose proof (memcmp_opp (sg_value a) (sg_value a)). lia. Qed.

(** What a setting says of its cell, and who says it when. *)
Definition says (a : fzn_setting) : Z * bytes * Z * bytes := (sg_version a, sg_setter a, sg_set a, sg_value a).

Lemma above_total a b : zlen (sg_setter a) = 32 -> zlen (sg_setter b) = 32 -> above a b \/ above b a \/ says a = says b.
Proof.
  unfold above, zlen. intros Ha Hb. pose proof (memcmp_opp (sg_setter a) (sg_setter b)). pose proof (memcmp_opp (sg_value a) (sg_value b)).
  destruct (decide (memcmp (sg_setter a) (sg_setter b) = 0)) as [Es|]; [|lia].
  destruct (decide (length (sg_value a) = length (sg_value b))) as [El|]; [|lia].
  destruct (decide (memcmp (sg_value a) (sg_value b) = 0)) as [Ev|]; [|lia].
  destruct (decide (sg_version a = sg_version b)) as [E1|]; [|lia]. destruct (decide (sg_set a = sg_set b)) as [E2|]; [|lia].
  right. right. apply memcmp_zero in Es; [|lia]. apply memcmp_zero in Ev; [|lia]. unfold says. congruence.
Qed.

(** The one kept of those heard, in the order they came. *)
Definition keep (held heard : fzn_setting) : fzn_setting := if fzn_setting_supersedes heard held then heard else held.
Definition stands (first : fzn_setting) (rest : list fzn_setting) : fzn_setting := foldl keep first rest.

Lemma stands_top rest : forall first, Forall (fun s => zlen (sg_setter s) = 32) (first :: rest) ->
  stands first rest ∈ first :: rest /\ forall s, s ∈ first :: rest -> ~ above s (stands first rest).
Proof.
  induction rest as [|x rest IH]; intros first Hall.
  - split; [by left|]. intros s [->|Hs%not_elem_of_nil]%elem_of_cons; [apply above_irrefl|done].
  - apply Forall_cons_iff in Hall as [Hf Hall]. pose proof Hall as [Hx Hr]%Forall_cons_iff.
    assert (zlen (sg_setter (keep first x)) = 32) as Hk by (unfold keep; by destruct (fzn_setting_supersedes x first)).
    destruct (IH (keep first x)) as [Hin Htop]; [by constructor|]. change (stands first (x :: rest)) with (stands (keep first x) rest).
    set (top := stands (keep first x) rest) in *. assert (zlen (sg_setter top) = 32) as Ht.
    { apply elem_of_cons in Hin as [->|Hin]; [done|]. by eapply list.Forall_forall in Hr. }
    split.
    + apply elem_of_cons in Hin as [->|Hin]; [|by right; right]. unfold keep. destruct (fzn_setting_supersedes x first); [by right; left|by left].
    + assert (forall s, s = first \/ s = x -> ~ above s top) as H2.
      { pose proof (Htop (keep first x) ltac:(by left)) as Hkt. unfold keep in Hkt. destruct (fzn_setting_supersedes x first) eqn:E.
        - apply supersedes_iff in E. intros s [->| ->] Hab; [|done]. apply Hkt. by apply (above_trans x first top).
        - intros s [->| ->] Hab; [done|]. assert (~ above x first) as Hn by (by rewrite <- supersedes_iff, E).
          destruct (above_total first x Hf Hx) as [Hfx|[Hxf|Hsame]]; [|done|].
          + apply Hkt. by apply (above_trans first x top).
          + apply Hkt. unfold above in *. unfold says in Hsame. injection Hsame as E1 E2 E3 E4. by rewrite E1, E2, E3, E4. }
      intros s [->|[->|Hs]%elem_of_cons]%elem_of_cons; [by apply H2; left|by apply H2; right|]. apply Htop. by right.
Qed.

(** C28: one setting stands. Standing over is a strict order, in which two
    settings of one rank that neither stands over say the same, by the same
    setter at the same version; so of the settings heard of a cell, whatever
    order they came in and however often, the one kept is one nothing heard
    stands over, and on every host it says the same: equivocations too. *)
Theorem one_setting_stands first rest first' rest' :
  Forall (fun s => zlen (sg_setter s) = FZN_PUBKEY_LEN) (first :: rest) -> (forall s, s ∈ first :: rest <-> s ∈ first' :: rest') ->
  says (stands first rest) = says (stands first' rest') /\
  (forall s, s ∈ first :: rest -> fzn_setting_supersedes s (stands first rest) = false) /\
  (forall a b c, a ∈ first :: rest -> b ∈ first :: rest -> c ∈ first :: rest ->
     fzn_setting_supersedes a a = false /\
     (fzn_setting_supersedes a b = true -> fzn_setting_supersedes b c = true -> fzn_setting_supersedes a c = true) /\
     (fzn_setting_supersedes a b = false -> fzn_setting_supersedes b a = false -> says a = says b)).
Proof.
  intros Hall Hsame. assert (forall s, s ∈ first :: rest -> zlen (sg_setter s) = 32) as Hl by (by apply list.Forall_forall).
  destruct (stands_top rest first Hall) as [Hin Htop].
  destruct (stands_top rest' first') as [Hin' Htop'].
  { apply list.Forall_forall. intros s Hs. by apply Hl, Hsame. }
  apply Hsame in Hin'. split; [|split].
  - destruct (above_total (stands first rest) (stands first' rest') (Hl _ Hin) (Hl _ Hin')) as [Hab|[Hab|Heq]]; [| |done].
    + destruct (Htop' _ (proj1 (Hsame _) Hin) Hab).
    + destruct (Htop _ Hin' Hab).
  - intros s Hs. apply not_true_iff_false. rewrite supersedes_iff. by apply Htop.
  - intros a b c Ha Hb Hc. split_and!.
    + apply not_true_iff_false. rewrite supersedes_iff. apply above_irrefl.
    + rewrite !supersedes_iff. apply above_trans; by apply Hl.
    + rewrite <- !not_true_iff_false, !supersedes_iff. intros Hn1 Hn2. by destruct (above_total a b (Hl _ Ha) (Hl _ Hb)) as [|[|]].
Qed.

(** One cell, one scope, subject and key. *)
Lemma one_cell_of hash s a k s' a' k' d : 0 <= s <= UINT8_MAX -> 0 <= s' <= UINT8_MAX ->
  (forall n b d, hash n b = Some d -> zlen d = n) ->
  fzn_setting_cell_of s a k (Some hash) = Some d -> fzn_setting_cell_of s' a' k' (Some hash) = Some d ->
  (s = s' /\ a = a' /\ k = k') \/
  exists x y, collide hash FZN_SUBJECT_LEN (FZN_SETTING_LABEL ++ x) (FZN_SETTING_LABEL ++ y) \/
              collide hash FZN_SUBJECT_LEN (FZN_SCOPE_LABEL ++ x) (FZN_SCOPE_LABEL ++ y).
Proof.
  intros Hs Hs' Hlen. unfold fzn_setting_cell_of.
  destruct (fzn_setting_key_ok k) eqn:Hk; cbn [negb]; [|done]. destruct (fzn_setting_key_ok k') eqn:Hk'; cbn [negb]; [|by intros].
  destruct (fzn_scope_subject s a (Some hash)) as [[] [sub|]] eqn:E; try done. destruct (fzn_scope_subject s' a' (Some hash)) as [[] [sub'|]] eqn:E'; try done.
  intros H1 H2. destruct (same_hash _ _ _ _ _ H1 H2) as [Heq|C]; [|right; eauto].
  pose proof (proj2 (proj1 (subject_ok _ _ _ _ Hs) E)) as Hd. pose proof (proj2 (proj1 (subject_ok _ _ _ _ Hs') E')) as Hd'.
  apply Hlen in Hd, Hd'. apply app_inv_head in Heq.
  rewrite (u8_small s Hs), (u8_small s' Hs') in Heq. apply app_inj_1 in Heq as [[= <-] Heq]; [|done].
  apply app_inj_1 in Heq as [-> Heq]; [|unfold zlen in *; lia]. apply app_inj_1 in Heq as [_ ->]; [|done].
  destruct (one_scope_of hash s a s a' sub' Hs Hs E E') as [[_ ->]|(x & y & C)]; [by left|right; eauto].
Qed.

Definition demo_setting (version : Z) (value : bytes) (rank : Z) : fzn_setting :=
  mk_setting (replicate 32 1) FZN_SCOPE_ESTATE (replicate 32 2) version [97; 46; 98] 1 value rank.

Lemma settings_are_one_string_witness :
  exists out n, issue_of (demo_setting 7 [120] 2) (mk_sign (Some (fun _ _ _ => true)) (Some (fun _ => Some (zeros 64)))) (zeros 464) = (FZN_SETTING_OK, out, n) /\
    fzn_setting_open (slice 0 n out) (Some (mk_sign (Some (fun _ _ _ => true)) (Some (fun _ => Some (zeros 64))))) = (FZN_SETTING_OK, Some (demo_setting 7 [120] 2)).
Proof.
  assert (forall m sig, Some (zeros 64) = Some sig -> is_bytes 64 sig /\ (fun _ _ _ : bytes => true) (replicate 32 1) m sig = true) as Hsound.
  { intros _ sig [= <-]. split; [|done]. split; [done|apply zeros_range]. }
  assert (is_bytes 32 (replicate 32 1) /\ is_bytes 32 (replicate 32 2)) as [H1 H2] by (split; (split; [done|apply Forall_replicate; ulia])).
  destruct (settings_are_one_string (demo_setting 7 [120] 2) (mk_sign (Some (fun _ _ _ => true)) (Some (fun _ => Some (zeros 64))))
    (fun _ => Some (zeros 64)) (fun _ _ _ => true) (zeros 464) eq_refl eq_refl ltac:(vm_compute; discriminate) H1 H2 ltac:(vm_compute; intuition congruence)
    ltac:(cbn; lia) Hsound) as (Hopen & Hex & _).
  assert (setting_ok (demo_setting 7 [120] 2)) as Hok.
  { split; try done; try (vm_compute; reflexivity); try (vm_compute; intuition congruence). }
  destruct (proj2 Hex (conj Hok (ex_intro _ (zeros 64) eq_refl))) as (out & n & E). exists out, n. split; [exact E|]. exact (proj1 (Hopen out n E)).
Defined.

Lemma one_setting_stands_witness :
  says (stands (demo_setting 7 [120] 2) [demo_setting 8 [121] 2]) = says (stands (demo_setting 8 [121] 2) [demo_setting 7 [120] 2; demo_setting 8 [121] 2]).
Proof.
  assert (Forall (fun s => zlen (sg_setter s) = FZN_PUBKEY_LEN) [demo_setting 7 [120] 2; demo_setting 8 [121] 2]) as Hall by (repeat constructor).
  assert (forall s, s ∈ [demo_setting 7 [120] 2; demo_setting 8 [121] 2] <-> s ∈ [demo_setting 8 [121] 2; demo_setting 7 [120] 2; demo_setting 8 [121] 2]) as Hsame.
  { intros s. rewrite !elem_of_cons. tauto. }
  exact (proj1 (one_setting_stands _ _ _ _ Hall Hsame)).
Defined.
