(* ===== verification/Schema.v ===== *)
(** * state/schema.c: settings declared

    What a key's value may be, and the parsers that read one. A key of an
    entry is the bytes before its NUL; a value and a table are given, a value
    of NULL where the source answers it is [None]. What [check] says of a
    value it refuses is a string. *)

From Stdlib Require Import String.
From S2P Require Import Prelude Bytes.

Definition FZN_SCHEMA_FLAG : Z := 1.
Definition FZN_SCHEMA_COUNT : Z := 2.
Definition FZN_SCHEMA_DURATION : Z := 3.
Definition FZN_SCHEMA_ADDRESS : Z := 4.
Definition FZN_SCHEMA_TEXT : Z := 5.

(** The default, the unit, the flags and the summary are shown and never read
    here. *)
Record fzn_schema_entry := mk_schema {
  sc_key : option bytes;
  sc_type : Z;
  sc_scopes : Z;
  sc_min : Z;
  sc_max : Z;
  sc_def : bytes;
  sc_unit : bytes;
  sc_flags : Z;
  sc_summary : bytes;
  sc_check : option (bytes -> option string) }.

Definition key_len_of (key : option bytes) : Z := match key with Some key => zlen key | None => 0 end.

Definition word_char (c : Z) : bool := ((c >=? 97) && (c <=? 122)) || ((c >=? 48) && (c <=? 57)).

(** Whether the key last ends in ['/']. *)
Definition is_family (key : bytes) : bool := peek key (zlen key - 1) =? 47.

(** Whether an entry's key is [key], or a family that [key] is in. *)
Definition claims (entry_key : option bytes) (key : bytes) : bool :=
  let k := key_len_of entry_key in
  match entry_key with
  | None => false
  | Some entry_key =>
    if k =? 0 then false
    else if negb (is_family entry_key) then (k =? zlen key) && memeq entry_key key
    else if (zlen key <=? k) || negb (memeq (slice 0 k entry_key) (slice 0 k key)) then false
    else forallb word_char (slice k (zlen key - k) key)
  end.

Fixpoint find_entry (table : list fzn_schema_entry) (key : bytes) : option fzn_schema_entry :=
  match table with
  | [] => None
  | e :: table => if claims (sc_key e) key then Some e else find_entry table key
  end.

Definition fzn_schema_find (table : list fzn_schema_entry) (key : bytes) : option fzn_schema_entry :=
  if zlen key =? 0 then None else find_entry table key.

Definition fzn_schema_overlap (a b : option bytes) : bool :=
  let la := key_len_of a in
  let lb := key_len_of b in
  if (la =? 0) || (lb =? 0) then false
  else match a, b with
  | Some a, Some b =>
    if la =? lb then memeq a b
    else if la <? lb then is_family a && memeq (slice 0 la a) (slice 0 la b)
    else is_family b && memeq (slice 0 lb a) (slice 0 lb b)
  | _, _ => false
  end.

(** [1], [0] and [-1] are [Some true], [Some false] and [None]. *)
Definition fzn_schema_flag (value : option bytes) : option bool :=
  match value with
  | None => None
  | Some value =>
    if ((zlen value =? 2) && memeq value [111; 110]) || ((zlen value =? 1) && (peek value 0 =? 49)) then Some true
    else if ((zlen value =? 3) && memeq value [111; 102; 102]) || ((zlen value =? 1) && (peek value 0 =? 48)) then Some false
    else None
  end.

(** [for (m = max; m; m /= 10u) digits++;], of a number below [10 ^ 20]. *)
Fixpoint digits_loop (fuel : nat) (m : Z) : Z :=
  match fuel with
  | O => 0
  | S fuel => if m =? 0 then 0 else 1 + digits_loop fuel (m / 10)
  end.

Definition digits (max : Z) : Z := digits_loop 20 max.

Fixpoint count_loop (value : bytes) (n : Z) : option Z :=
  match value with
  | [] => Some n
  | c :: value => if (c <? 48) || (c >? 57) then None else count_loop value (u64 (u64 (n * 10) + (c - 48)))
  end.

Definition fzn_schema_count (value : option bytes) (min max : Z) : option Z :=
  match value with
  | None => None
  | Some value =>
    if (zlen value =? 0) || (zlen value >? (if digits max =? 0 then 1 else digits max)) then None
    else match count_loop value 0 with
    | None => None
    | Some n => if (n <? min) || (n >? max) then None else Some n
    end
  end.

(** The seconds of a unit. *)
Definition unit_of (c : Z) : option Z :=
  if c =? 100 then Some 86400
  else if c =? 104 then Some 3600
  else if c =? 109 then Some 60
  else if c =? 115 then Some 1
  else None.

Definition fzn_schema_duration (value : option bytes) (min max : Z) : option Z :=
  match value with
  | None => None
  | Some v =>
    if zlen v <? 2 then None
    else match unit_of (peek v (zlen v - 1)) with
    | None => None
    | Some unit_ =>
      match fzn_schema_count (Some (slice 0 (zlen v - 1) v)) 1 (max / unit_) with
      | None => None
      | Some n => if u64 (n * unit_) <? min then None else Some (u64 (n * unit_))
      end
    end
  end.

Definition host_char (c : Z) : bool :=
  ((c >=? 97) && (c <=? 122)) || ((c >=? 65) && (c <=? 90)) || ((c >=? 48) && (c <=? 57)) || (c =? 46) || (c =? 45) || (c =? 58).

(** The host and the port; [host] is whether there is a buffer for it, of
    [host_cap] bytes. *)
Definition fzn_schema_address (value : option bytes) (host : bool) (host_cap : Z) : option (bytes * Z) :=
  match value with
  | None => None
  | Some v =>
    let space := match find_index (fun c => c =? 32) v with Some i => Z.of_nat i | None => zlen v end in
    if (space =? 0) || (space =? zlen v) || (negb (host_cap =? 0) && (space >=? host_cap)) || (host && (host_cap =? 0)) then None
    else if negb (forallb host_char (slice 0 space v)) then None
    else match fzn_schema_count (Some (slice (space + 1) (zlen v - space - 1) v)) 1 65535 with
    | None => None
    | Some p => Some (slice 0 space v, u16 p)
    end
  end.

Definition fzn_schema_type_name (type : Z) : string :=
  if type =? FZN_SCHEMA_FLAG then "flag"
  else if type =? FZN_SCHEMA_COUNT then "count"
  else if type =? FZN_SCHEMA_DURATION then "duration"
  else if type =? FZN_SCHEMA_ADDRESS then "address"
  else if type =? FZN_SCHEMA_TEXT then "text"
  else "text".

(** [None] where the value is one of the entry's. *)
Definition fzn_schema_check (e : option fzn_schema_entry) (value : option bytes) (len : Z) : option string :=
  match e with
  | None => None
  | Some e =>
    if is_null value && negb (len =? 0) then Some "no value"%string
    else if sc_type e =? FZN_SCHEMA_FLAG then
      match fzn_schema_flag value with None => Some "a flag is on or off"%string | Some _ => None end
    else if sc_type e =? FZN_SCHEMA_COUNT then
      match fzn_schema_count value (sc_min e) (sc_max e) with Some _ => None | None => Some "not a count in its range"%string end
    else if sc_type e =? FZN_SCHEMA_DURATION then
      match fzn_schema_duration value (sc_min e) (sc_max e) with
      | Some _ => None
      | None => Some "not a duration in its range, a count and one of d h m s"%string
      end
    else if sc_type e =? FZN_SCHEMA_ADDRESS then
      match fzn_schema_address value false (if negb (sc_max e =? 0) then u64 (sc_max e + 1) else 0) with
      | Some _ => None
      | None => Some "not HOST PORT"%string
      end
    else if sc_type e =? FZN_SCHEMA_TEXT then
      if (len <? sc_min e) || (negb (sc_max e =? 0) && (len >? sc_max e)) then Some "text of the wrong length"%string
      else if negb (forallb (fun c => negb ((c <? 32) || (c >? 126))) (default [] value)) then Some "text that does not print"%string
      else match sc_check e with Some check => check (default [] value) | None => None end
    else Some "an entry of no type"%string
  end.

(** ** Counts *)

Definition digit (c : Z) : Prop := 48 <= c <= 57.
(** The number that decimal digits write. *)
Definition decimal (l : bytes) : Z := foldl (fun n c => n * 10 + (c - 48)) 0 l.

Lemma decimal_snoc l c : decimal (l ++ [c]) = decimal l * 10 + (c - 48).
Proof. unfold decimal. by rewrite foldl_app. Qed.

Lemma decimal_bound l : Forall digit l -> 0 <= decimal l < 10 ^ zlen l.
Proof.
  induction l as [|c l IH] using rev_ind; [done|]. intros [Hl Hc]%Forall_app. apply Forall_cons_iff in Hc as [Hc _].
  rewrite decimal_snoc, zlen_snoc, Z.pow_add_r by (try apply zlen_nonneg; lia). specialize (IH Hl). unfold digit in Hc. lia.
Qed.

Lemma count_loop_spec v : forall pre, Forall digit pre -> zlen pre + zlen v <= 19 ->
  count_loop v (decimal pre) = if forallb (fun c => negb ((c <? 48) || (c >? 57))) v then Some (decimal (pre ++ v)) else None.
Proof.
  induction v as [|c v IH]; intros pre Hpre Hlen; cbn [count_loop forallb]; [by rewrite app_nil_r|].
  destruct ((c <? 48) || (c >? 57)) eqn:Hc; cbn [negb andb]; [done|].
  rewrite zlen_cons in Hlen. pose proof (zlen_nonneg v). pose proof (zlen_nonneg pre). pose proof (decimal_bound pre Hpre).
  assert (10 ^ zlen pre <= 10 ^ 18) by (apply Z.pow_le_mono_r; lia).
  assert (digit c) as Hd by (unfold digit; lia). unfold digit in Hd.
  rewrite (u64_small (decimal pre * 10)) by (width; lia). rewrite (u64_small (_ + _)) by (width; lia).
  rewrite <- decimal_snoc, IH by (rewrite ?zlen_snoc; try apply Forall_app; try split; try constructor; try lia; done).
  by rewrite <- app_assoc.
Qed.

Lemma digits_loop_spec fuel : forall m, 0 <= m < 10 ^ Z.of_nat fuel ->
  0 <= digits_loop fuel m <= Z.of_nat fuel /\ m < 10 ^ digits_loop fuel m /\ (m <> 0 -> 10 ^ (digits_loop fuel m - 1) <= m).
Proof.
  induction fuel as [|fuel IH]; intros m Hm; cbn [digits_loop]; [split_and!; cbn in *; lia|].
  destruct (Z.eqb_spec m 0) as [->|Hne]; [split_and!; lia|]. rewrite Nat2Z.inj_succ, Z.pow_succ_r in Hm by lia.
  destruct (IH (m / 10)) as (H1 & H2 & H3); [dlia|]. set (d := digits_loop fuel (m / 10)) in *.
  rewrite Nat2Z.inj_succ. split_and!; [lia|lia| |].
  - replace (1 + d) with (Z.succ d) by lia. rewrite Z.pow_succ_r by lia. dlia.
  - intros _. replace (1 + d - 1) with d by lia. destruct (decide (m / 10 = 0)) as [E|E].
    + assert (d = 0) as ->; [|change (10 ^ 0) with 1; lia]. unfold d. rewrite E. by destruct fuel.
    + specialize (H3 E). replace d with (Z.succ (d - 1)) by lia. rewrite Z.pow_succ_r; [dlia|].
      destruct (Z.leb_spec 0 (d - 1)); [done|]. assert (d = 0) as E0 by lia. rewrite E0 in H2. change (10 ^ 0) with 1 in H2. dlia.
Qed.

Lemma digits_spec max : in_u64 max ->
  0 <= digits max <= 20 /\ max < 10 ^ digits max /\ (max <> 0 -> 10 ^ (digits max - 1) <= max).
Proof. intros Hm. apply (digits_loop_spec 20). width. change (10 ^ Z.of_nat 20) with 100000000000000000000. lia. Qed.

(** The number of digits of a number, one for 0. *)
Definition width_of (max : Z) : Z := if digits max =? 0 then 1 else digits max.

(** A count of at least [min] and at most [max], in no more digits than [max]
    has. *)
Definition count_is (v : bytes) (min max n : Z) : Prop :=
  Forall digit v /\ 1 <= zlen v <= width_of max /\ decimal v = n /\ min <= n <= max.

Lemma digits_19 max : in_u64 max -> max < 10 ^ 19 -> width_of max <= 19.
Proof.
  intros Hm Hlt. destruct (digits_spec max Hm) as (H1 & _ & H3). unfold width_of. destruct (Z.eqb_spec (digits max) 0); [lia|].
  destruct (decide (max = 0)) as [->|Hne]; [done|]. specialize (H3 Hne). destruct (Z.leb_spec (digits max) 19); [done|].
  assert (10 ^ 19 <= 10 ^ (digits max - 1)) by (apply Z.pow_le_mono_r; lia). lia.
Qed.

Lemma schema_count_spec v min max n : in_u64 max -> max < 10 ^ 19 -> fzn_schema_count (Some v) min max = Some n <-> count_is v min max n.
Proof.
  intros Hm Hlt. pose proof (digits_19 max Hm Hlt) as Hw. pose proof (zlen_nonneg v). unfold fzn_schema_count, count_is. fold (width_of max).
  rewrite !Z.gtb_ltb. destruct (Z.eqb_spec (zlen v) 0); cbn [orb]; [split; [done|lia]|]. destruct (Z.ltb_spec (width_of max) (zlen v)); [split; [done|lia]|].
  change 0 with (decimal []) at 1. rewrite (count_loop_spec v []) by (rewrite ?zlen_nil; constructor || lia). cbn [app].
  assert (forallb (fun c => negb ((c <? 48) || (c >? 57))) v = true <-> Forall digit v) as Hd.
  { rewrite forallb_true_Forall. split; intros H'; (eapply list.Forall_impl; [exact H'|]); unfold digit; cbn; lia. }
  destruct (forallb _ v) eqn:E; [|split; [done|]; intros (Hv & _); by rewrite <- Hd in Hv]. pose proof (proj1 Hd eq_refl) as Hdv.
  rewrite Z.gtb_ltb. destruct (Z.ltb_spec (decimal v) min); cbn [orb]; [split; [done|intros (_ & _ & <- & ?); lia]|].
  destruct (Z.ltb_spec max (decimal v)); [split; [done|intros (_ & _ & <- & ?); lia]|]. split; [intros [= <-]|by intros (_ & _ & -> & _)].
  split_and!; done || lia.
Qed.

(** Beyond, a count wraps, and the guard on its digits does not see it. *)
Lemma count_wraps : fzn_schema_count (Some [49; 56; 52; 52; 54; 55; 52; 52; 48; 55; 51; 55; 48; 57; 53; 53; 49; 54; 49; 55]) 0 UINT64_MAX = Some 1 /\
  decimal [49; 56; 52; 52; 54; 55; 52; 52; 48; 55; 51; 55; 48; 57; 53; 53; 49; 54; 49; 55] = UINT64_MAX + 2.
Proof. by vm_compute. Qed.

(** ** Durations *)

Definition duration_is (v : bytes) (min max secs : Z) : Prop :=
  exists n unit_char unit_, unit_of unit_char = Some unit_ /\
    (exists ds, v = ds ++ [unit_char] /\ count_is ds 1 (max / unit_) n) /\ secs = n * unit_ /\ min <= secs <= max.

Lemma unit_of_range c u : unit_of c = Some u -> 1 <= u <= 86400.
Proof. unfold unit_of. intros H. repeat case_match; simplify_eq; lia. Qed.

Lemma duration_spec v min max secs : in_u64 max -> max < 10 ^ 19 ->
  fzn_schema_duration (Some v) min max = Some secs <-> duration_is v min max secs.
Proof.
  intros Hm Hlt. unfold fzn_schema_duration, duration_is. pose proof (zlen_nonneg v).
  assert (forall u n, 1 <= u <= 86400 -> 0 <= n <= max / u -> 0 <= n * u <= max) as Hmul.
  { intros u n Hu Hn. pose proof (Z.mul_div_le max u ltac:(lia)). nia. }
  assert (forall u, 1 <= u <= 86400 -> in_u64 (max / u) /\ max / u < 10 ^ 19) as Hdiv.
  { intros u Hu. assert (0 <= max / u <= max); [|width; lia]. split; [apply Z.div_pos; width; lia|]. apply Z.div_le_upper_bound; width; nia. }
  destruct (Z.ltb_spec (zlen v) 2) as [Hs|Hs].
  - split; [done|]. intros (n & c & u & Hu & (ds & -> & Hc) & _). destruct Hc as (_ & Hl & _). rewrite zlen_snoc in Hs. lia.
  - destruct v as [|c0 v0 _] using rev_ind; [done|]. rewrite zlen_snoc in *. rewrite (peek_mid v0 c0 []) by lia.
    replace (zlen v0 + 1 - 1) with (zlen v0) by lia. rewrite slice_front by done. split.
    + destruct (unit_of c0) as [u|] eqn:Hu; [|done]. pose proof (unit_of_range _ _ Hu) as Hur. destruct (Hdiv u Hur) as [Hd1 Hd2].
      destruct (fzn_schema_count (Some v0) 1 (max / u)) as [n|] eqn:Ec; [|done]. apply schema_count_spec in Ec; [|done..].
      assert (0 <= n <= max / u) as Hn by (destruct Ec as (_ & _ & _ & ?); lia). specialize (Hmul u n Hur Hn).
      rewrite u64_small by (width; lia). destruct (Z.ltb_spec (n * u) min); [done|]. intros [= <-].
      exists n, c0, u. split_and!; try done; try lia. by exists v0.
    + intros (n & c & u & Hu & (ds & Heq & Hc) & -> & Hr). apply app_inj_tail in Heq as [-> ->]. rewrite Hu.
      pose proof (unit_of_range _ _ Hu) as Hur. destruct (Hdiv u Hur) as [Hd1 Hd2].
      assert (fzn_schema_count (Some ds) 1 (max / u) = Some n) as -> by (by apply schema_count_spec).
      assert (0 <= n * u <= max) by (apply Hmul; [done|]; destruct Hc as (_ & _ & _ & ?); lia).
      rewrite u64_small by (width; lia). destruct (Z.ltb_spec (n * u) min); [lia|done].
Qed.

(** ** Addresses *)

Definition address_is (v host : bytes) (host_cap port : Z) : Prop :=
  exists ds, v = host ++ 32 :: ds /\ host <> [] /\ Forall (fun c => host_char c = true) host /\ (host_cap <> 0 -> zlen host < host_cap) /\
    count_is ds 1 65535 port.

Lemma address_spec v host_cap h p : 0 <= host_cap ->
  fzn_schema_address (Some v) false host_cap = Some (h, p) <-> address_is v h host_cap p.
Proof.
  intros Hcap. unfold fzn_schema_address, address_is. cbn [andb]. rewrite orb_false_r.
  assert (forall ds, fzn_schema_count (Some ds) 1 65535 = Some p <-> count_is ds 1 65535 p) as Hcnt by (intros; apply schema_count_spec; ulia).
  destruct (find_index (fun c => c =? 32) v) as [i|] eqn:Ei.
  - apply find_index_Some in Ei as (c & Hi & Hc & Hbefore). apply Z.eqb_eq in Hc as ->.
    pose proof (take_drop_middle v i 32 Hi) as Hv. assert (Z.of_nat i = zlen (take i v)) as Hil.
    { unfold zlen. rewrite length_take. apply lookup_lt_Some in Hi. lia. }
    assert (forall c, c ∈ take i v -> c <> 32) as Hno.
    { intros c [k Hk]%list_elem_of_lookup. apply lookup_take_Some in Hk as [Hk Hki]. specialize (Hbefore k c Hk ltac:(lia)). by apply Z.eqb_neq. }
    rewrite Hil. set (pre := take i v) in *. set (post := drop (S i) v) in *. clearbody pre post. clear Hi Hbefore Hil. subst v.
    pose proof (zlen_nonneg pre). pose proof (zlen_nonneg post). rewrite zlen_app, zlen_cons, slice_front by done.
    replace (zlen pre + (1 + zlen post) - zlen pre - 1) with (zlen post) by lia.
    replace (slice (zlen pre + 1) (zlen post) (pre ++ 32 :: post)) with post.
    2:{ change (32 :: post) with ([32] ++ post). rewrite <- (app_nil_r post) at 3. rewrite app_assoc. symmetry.
        apply slice_mid; [by rewrite zlen_app|done]. }
    destruct (Z.eqb_spec (zlen pre + (1 + zlen post)) (zlen pre)); [lia|]. split.
    + destruct (_ || _) eqn:Hg; [done|]. destruct (forallb host_char pre) eqn:Hh; cbn [negb]; [|done].
      destruct (fzn_schema_count (Some post) 1 65535) as [q|] eqn:Ec; [|done]. intros [= <- Hq].
      assert (0 <= q <= 65535) as Hqr by (apply schema_count_spec in Ec; [destruct Ec as (_ & _ & _ & ?); lia|ulia..]).
      rewrite u16_small in Hq by (width; lia). subst q. exists post. split_and!; [done| | | |by apply Hcnt].
      * intros ->. rewrite zlen_nil in Hg. done.
      * by apply forallb_true_Forall.
      * intros Hz. lia.
    + intros (ds & Heq & Hne & Hh & Hc & Hcount).
      assert (pre = h /\ post = ds) as [-> ->].
      { assert (forall l1 l2 m1 m2 : bytes, (forall c, c ∈ l1 -> c <> 32) -> (forall c, c ∈ l2 -> c <> 32) -> l1 ++ 32 :: m1 = l2 ++ 32 :: m2 -> l1 = l2 /\ m1 = m2) as Hu.
        { induction l1 as [|x l1 IH]; intros [|y l2] m1 m2 H1 H2 E; cbn in E; simplify_eq; try done.
          - by destruct (H2 32 ltac:(by left)).
          - by destruct (H1 32 ltac:(by left)).
          - destruct (IH l2 m1 m2) as [-> ->]; try done; intros c Hin; first [apply H1; by right|apply H2; by right]. }
        apply Hu; [done| |done]. intros c Hin. eapply list.Forall_forall in Hh; [|exact Hin]. cbn in Hh. unfold host_char in Hh. intros ->. done. }
      apply forallb_true_Forall in Hh. rewrite Hh. cbn [negb]. apply Hcnt in Hcount. rewrite Hcount.
      assert (zlen h <> 0) as Hz by (unfold zlen; destruct h; cbn; lia || done).
      assert (0 <= p <= 65535) by (apply Hcnt in Hcount; destruct Hcount as (_ & _ & _ & ?); lia). rewrite u16_small by (width; lia).
      destruct (_ || _) eqn:Hg; [exfalso; lia|done].
  - rewrite Z.eqb_refl, !orb_true_r. cbn [orb]. split; [done|]. intros (ds & -> & _). rewrite find_index_None in Ei.
    specialize (Ei (length h) 32 ltac:(by apply list_lookup_middle)). done.
Qed.

(** ** What a value may be *)

(** A value of an entry, as its type reads. *)
Definition value_is (e : fzn_schema_entry) (v : bytes) : Prop :=
  (sc_type e = FZN_SCHEMA_FLAG /\ (v = [111; 110] \/ v = [49] \/ v = [111; 102; 102] \/ v = [48])) \/
  (sc_type e = FZN_SCHEMA_COUNT /\ exists n, count_is v (sc_min e) (sc_max e) n) \/
  (sc_type e = FZN_SCHEMA_DURATION /\ exists secs, duration_is v (sc_min e) (sc_max e) secs) \/
  (sc_type e = FZN_SCHEMA_ADDRESS /\ exists host port, address_is v host (if sc_max e =? 0 then 0 else sc_max e + 1) port) \/
  (sc_type e = FZN_SCHEMA_TEXT /\ sc_min e <= zlen v /\ (sc_max e <> 0 -> zlen v <= sc_max e) /\ Forall (fun c => 32 <= c <= 126) v /\
   forall check, sc_check e = Some check -> check v = None).

Lemma flag_spec v b : fzn_schema_flag (Some v) = Some b <->
  (b = true /\ (v = [111; 110] \/ v = [49])) \/ (b = false /\ (v = [111; 102; 102] \/ v = [48])).
Proof.
  unfold fzn_schema_flag. assert (forall x, (zlen v =? 1) && (peek v 0 =? x) = true <-> v = [x]) as H1.
  { intros x. rewrite andb_true_iff, !Z.eqb_eq. split; [|by intros ->]. intros [Hl Hp]. destruct v as [|y [|z w]]; [done| |unfold zlen in Hl; cbn in Hl; lia].
    change (y = x) in Hp. by rewrite Hp. }
  assert (forall w n, zlen w = n -> (zlen v =? n) && memeq v w = true <-> v = w) as H2.
  { intros w n <-. rewrite andb_true_iff, Z.eqb_eq, memeq_true. split; [by intros [_ ->]|by intros ->]. }
  destruct (_ || _) eqn:E1; [|destruct (_ || (_ && (peek v 0 =? 48))) eqn:E2].
  - apply orb_true_iff in E1. rewrite H1, (H2 [111; 110] 2 eq_refl) in E1. split; [intros [= <-]; left; tauto|].
    intros [[-> _]|[-> [->| ->]]]; [done|destruct E1 as [?|?]; done..].
  - apply orb_true_iff in E2. rewrite H1, (H2 [111; 102; 102] 3 eq_refl) in E2. split; [intros [= <-]; right; tauto|].
    intros [[-> [->| ->]]|[-> _]]; [destruct E2 as [?|?]; done..|done].
  - apply orb_false_iff in E1 as [E1 E1'], E2 as [E2 E2']. apply not_true_iff_false in E1, E1', E2, E2'.
    rewrite H1 in E1', E2'. rewrite (H2 [111; 110] 2 eq_refl) in E1. rewrite (H2 [111; 102; 102] 3 eq_refl) in E2. split; [done|tauto].
Qed.

Lemma none_iff {A B} (o : option A) (m : B) : match o with Some _ => None | None => Some m end = None <-> exists x, o = Some x.
Proof. destruct o; split; try done; [by eexists|by intros [? ?]]. Qed.

(** C33: what is refused is what no reader would read. A value passes the
    check of an entry just when it is one of the entry's type: one of the four
    flags; a decimal number within the bounds, in no more digits than the
    upper has; a count of a unit whose seconds lie within them; a host and a
    port; printable text of a length within them that its own grammar accepts.
    The parsers read the same values as what they say, and nothing wraps. All
    this for an upper bound below ten to the nineteenth: one of twenty digits
    lets a count of twenty digits wrap. *)
Theorem check_accepts_what_is_read e v : in_u64 (sc_min e) -> 0 <= sc_max e < 10 ^ 19 ->
  (fzn_schema_check (Some e) (Some v) (zlen v) = None <-> value_is e v) /\
  (forall n, fzn_schema_count (Some v) (sc_min e) (sc_max e) = Some n <-> count_is v (sc_min e) (sc_max e) n) /\
  (forall secs, fzn_schema_duration (Some v) (sc_min e) (sc_max e) = Some secs <-> duration_is v (sc_min e) (sc_max e) secs) /\
  (forall cap host port, 0 <= cap -> fzn_schema_address (Some v) false cap = Some (host, port) <-> address_is v host cap port).
Proof.
  intros Hmin Hmax. assert (in_u64 (sc_max e)) as Hm by (width; lia). split; [|split_and!].
  - unfold fzn_schema_check, value_is. cbn [is_null andb]. change (default [] (Some v)) with v.
    unfold FZN_SCHEMA_FLAG, FZN_SCHEMA_COUNT, FZN_SCHEMA_DURATION, FZN_SCHEMA_ADDRESS, FZN_SCHEMA_TEXT.
    destruct (Z.eqb_spec (sc_type e) 1) as [->|N1].
    { transitivity (exists b, fzn_schema_flag (Some v) = Some b); [apply none_iff|]. setoid_rewrite flag_spec. naive_solver. }
    destruct (Z.eqb_spec (sc_type e) 2) as [->|N2].
    { transitivity (exists n, fzn_schema_count (Some v) (sc_min e) (sc_max e) = Some n); [apply none_iff|].
      setoid_rewrite schema_count_spec; [|done|lia]. naive_solver lia. }
    destruct (Z.eqb_spec (sc_type e) 3) as [->|N3].
    { transitivity (exists n, fzn_schema_duration (Some v) (sc_min e) (sc_max e) = Some n); [apply none_iff|].
      setoid_rewrite duration_spec; [|done|lia]. naive_solver lia. }
    destruct (Z.eqb_spec (sc_type e) 4) as [->|N4].
    { assert ((if negb (sc_max e =? 0) then u64 (sc_max e + 1) else 0) = (if sc_max e =? 0 then 0 else sc_max e + 1)) as ->.
      { destruct (Z.eqb_spec (sc_max e) 0); [done|]. apply u64_small. width. lia. }
      rewrite none_iff. split.
      - intros [[h p] H]. apply address_spec in H; [|destruct (sc_max e =? 0); lia]. do 3 right. left. split; [done|by exists h, p].
      - intros [[? _]|[[? _]|[[? _]|[[_ (h & p & H)]|[? _]]]]]; [done..| |done]. exists (h, p). apply address_spec; [destruct (sc_max e =? 0); lia|done]. }
    destruct (Z.eqb_spec (sc_type e) 5) as [->|N5]; [|split; [done|lia]].
    rewrite Z.gtb_ltb. destruct ((zlen v <? sc_min e) || negb (sc_max e =? 0) && (sc_max e <? zlen v)) eqn:Hl; [split; [done|lia]|].
    destruct (forallb _ v) eqn:Hf; cbn [negb].
    + apply forallb_true_Forall in Hf. split.
      * intros Hc. do 4 right. split_and!; [done|lia|lia|eapply list.Forall_impl; [exact Hf|cbn; lia]|]. intros check Hck. by rewrite Hck in Hc.
      * intros [[? _]|[[? _]|[[? _]|[[? _]|(_ & _ & _ & _ & Hck)]]]]; [done..|]. destruct (sc_check e) as [check|]; [by apply Hck|done].
    + split; [done|]. intros [[? _]|[[? _]|[[? _]|[[? _]|(_ & _ & _ & Hp & _)]]]]; [done..|]. apply not_true_iff_false in Hf. destruct Hf.
      apply forallb_true_Forall. eapply list.Forall_impl; [exact Hp|cbn; lia].
  - intros n. apply schema_count_spec; lia || done.
  - intros secs. apply duration_spec; lia || done.
  - intros cap host port. apply address_spec.
Qed.

(** ** Which entry a key is *)

Lemma claims_family k key : is_family k = true -> claims (Some k) key = true ->
  0 < zlen k < zlen key /\ k = slice 0 (zlen k) key.
Proof.
  intros Hf. unfold claims. cbn [key_len_of]. pose proof (zlen_nonneg k). rewrite Hf. cbn [negb]. destruct (Z.eqb_spec (zlen k) 0); [done|].
  destruct (Z.leb_spec (zlen key) (zlen k)); cbn [orb]; [done|]. destruct (memeq _ _) eqn:E; [|done]. apply memeq_true in E.
  rewrite slice_all in E by lia. intros _. split; [lia|done].
Qed.

Lemma claims_exact k key : is_family k = false -> claims (Some k) key = true -> key = k /\ 0 < zlen k.
Proof.
  intros Hf. unfold claims. cbn [key_len_of]. pose proof (zlen_nonneg k). rewrite Hf. cbn [negb]. destruct (Z.eqb_spec (zlen k) 0); [done|].
  intros [_ ->%memeq_true]%andb_true_iff. split; [done|lia].
Qed.

(** Two declarations that claim one key overlap. *)
Lemma claims_overlap a b key : claims a key = true -> claims b key = true -> fzn_schema_overlap a b = true.
Proof.
  destruct a as [a|]; [|done]. destruct b as [b|]; [|done].
  assert (forall k, claims (Some k) key = true -> 0 < zlen k /\ (is_family k = true -> zlen k < zlen key) /\ (is_family k = false -> k = key) /\
    k = slice 0 (zlen k) key) as Hc.
  { intros k Hk. destruct (is_family k) eqn:Hf.
    - destruct (claims_family k key Hf Hk) as [? ?]. split_and!; try done; lia.
    - destruct (claims_exact k key Hf Hk) as [-> ?]. split_and!; try done. symmetry. apply slice_all. lia. }
  intros Ha%Hc Hb%Hc. destruct Ha as (Ha0 & Haf & Hae & Ha), Hb as (Hb0 & Hbf & Hbe & Hb).
  unfold fzn_schema_overlap. cbn [key_len_of]. destruct (Z.eqb_spec (zlen a) 0); [lia|]. destruct (Z.eqb_spec (zlen b) 0); [lia|]. cbn [orb].
  assert (forall x y, zlen x <= zlen y -> 0 < zlen x -> x = slice 0 (zlen x) key -> y = slice 0 (zlen y) key -> x = slice 0 (zlen x) y) as Hpre.
  { intros x y Hl H0 Hx Hy. rewrite Hy at 1. rewrite slice_slice by lia. exact Hx. }
  assert (zlen a <= zlen key /\ zlen b <= zlen key) as [Hla Hlb].
  { split; [destruct (is_family a); [specialize (Haf eq_refl); lia|by rewrite (Hae eq_refl)]|destruct (is_family b); [specialize (Hbf eq_refl); lia|by rewrite (Hbe eq_refl)]]. }
  destruct (Z.eqb_spec (zlen a) (zlen b)) as [E|E]; [apply memeq_true; by rewrite Ha, Hb, E|].
  destruct (Z.ltb_spec (zlen a) (zlen b)).
  - destruct (is_family a); [|exfalso; rewrite (Hae eq_refl) in *; lia]. cbn [andb]. apply memeq_true. rewrite (slice_all (zlen a) a) by lia. by apply Hpre; try lia.
  - destruct (is_family b); [|exfalso; rewrite (Hbe eq_refl) in *; lia]. cbn [andb]. apply memeq_true. rewrite (slice_all (zlen b) b) by lia. symmetry. by apply Hpre; try lia.
Qed.

(** No two declarations of a table claim one cell. *)
Definition apart (table : list fzn_schema_entry) : Prop := forall i j x y, i <> j -> table !! i = Some x -> table !! j = Some y ->
  fzn_schema_overlap (sc_key x) (sc_key y) = false.

Lemma find_entry_first table key : match find_entry table key with
  | Some e => e ∈ table /\ claims (sc_key e) key = true
  | None => forall e, e ∈ table -> claims (sc_key e) key = false
  end.
Proof.
  induction table as [|e table IH]; cbn [find_entry]; [by intros e ?%not_elem_of_nil|].
  destruct (claims (sc_key e) key) eqn:Hc; [split; [by left|done]|]. destruct (find_entry table key) as [e'|].
  - destruct IH. split; [by right|done].
  - intros e' [->|He]%elem_of_cons; [done|by apply IH].
Qed.

(** A key is of one entry. Two declarations that both take a key, a
    family its instance or a key itself, are told by the overlap check; so in
    a table the check finds nothing in, the entry a key is does not depend on
    the order of the table: it is the one entry that takes the key, and where
    none does there is none. *)
Theorem a_key_is_of_one_entry table key : apart table ->
  (forall e, fzn_schema_find table key = Some e <-> e ∈ table /\ claims (sc_key e) key = true) /\
  (forall table', (forall e, e ∈ table' <-> e ∈ table) -> fzn_schema_find table' key = fzn_schema_find table key).
Proof.
  intros Hap. assert (forall x y, x ∈ table -> y ∈ table -> claims (sc_key x) key = true -> claims (sc_key y) key = true -> x = y) as Huniq.
  { intros x y [i Hi]%list_elem_of_lookup [j Hj]%list_elem_of_lookup Hx Hy. destruct (decide (i = j)) as [->|Hne]; [congruence|].
    pose proof (Hap i j x y Hne Hi Hj) as Hno. by rewrite (claims_overlap _ _ key) in Hno. }
  assert (forall k, claims k key = true -> zlen key <> 0) as Hne.
  { intros [k|] Hk; [|done]. destruct (is_family k) eqn:Hf; [destruct (claims_family k key Hf Hk) as [? ?]; lia|].
    destruct (claims_exact k key Hf Hk) as [-> ?]. lia. }
  assert (forall table', (forall e, e ∈ table' <-> e ∈ table) -> forall e, fzn_schema_find table' key = Some e <-> e ∈ table /\ claims (sc_key e) key = true) as Hfind.
  { intros table' Hsame e. unfold fzn_schema_find. pose proof (find_entry_first table' key) as Hf. split.
    - destruct (zlen key =? 0); [done|]. intros E. rewrite E in Hf. destruct Hf as [Hin Hc]. split; [by apply Hsame|done].
    - intros [Hin Hc]. destruct (Z.eqb_spec (zlen key) 0) as [Hz|_]; [by destruct (Hne _ Hc)|].
      destruct (find_entry table' key) as [e'|]; [|by rewrite Hf in Hc by (by apply Hsame)]. destruct Hf as [Hin' Hc']. f_equal.
      apply Huniq; [by apply Hsame|done..]. }
  split; [by apply Hfind|]. intros table' Hsame.
  pose proof (Hfind table' Hsame) as H1. pose proof (Hfind table ltac:(done)) as H2.
  destruct (fzn_schema_find table' key) as [e|] eqn:E.
  - symmetry. apply H2. by apply H1.
  - destruct (fzn_schema_find table key) as [e|] eqn:E2; [|done]. assert (None = Some e) as [=]. apply H1. by apply H2.
Qed.

(** ["a/b"], a count from 1 to 90; ["a/"], a family of text. *)
Definition demo_entry (key : bytes) (type min max : Z) : fzn_schema_entry :=
  mk_schema (Some key) type 1 min max [] [] 0 [] None.

Lemma check_accepts_what_is_read_witness :
  fzn_schema_check (Some (demo_entry [97; 47; 98] FZN_SCHEMA_COUNT 1 90)) (Some [52; 50]) 2 = None /\
  fzn_schema_duration (Some [51; 109]) 1 900 = Some 180.
Proof.
  destruct (check_accepts_what_is_read (demo_entry [97; 47; 98] FZN_SCHEMA_COUNT 1 90) [52; 50] ltac:(split; vm_compute; congruence) ltac:(split; vm_compute; congruence)) as (H1 & _).
  destruct (check_accepts_what_is_read (demo_entry [97; 47; 98] FZN_SCHEMA_DURATION 1 900) [51; 109] ltac:(split; vm_compute; congruence) ltac:(split; vm_compute; congruence)) as (_ & _ & H2 & _).
  split.
  - apply H1. right. left. split; [reflexivity|]. exists 42. repeat split; try (vm_compute; congruence). repeat constructor; unfold digit; lia.
  - apply H2. exists 3, 109, 60. repeat split; try (vm_compute; congruence). exists [51]. split; [reflexivity|].
    repeat split; try (vm_compute; congruence). repeat constructor; unfold digit; lia.
Defined.

Lemma a_key_is_of_one_entry_witness :
  fzn_schema_find [demo_entry [97; 47; 98] FZN_SCHEMA_COUNT 1 90; demo_entry [99; 47] FZN_SCHEMA_TEXT 1 9] [99; 47; 120; 49]
    = Some (demo_entry [99; 47] FZN_SCHEMA_TEXT 1 9).
Proof.
  assert (apart [demo_entry [97; 47; 98] FZN_SCHEMA_COUNT 1 90; demo_entry [99; 47] FZN_SCHEMA_TEXT 1 9]) as Hap.
  { intros [|[|i]] [|[|j]] x y Hne Hx Hy; try done; cbn in Hx, Hy; simplify_eq; reflexivity. }
  apply (proj1 (a_key_is_of_one_entry _ [99; 47; 120; 49] Hap)). split; [by right; left|reflexivity].
Defined.
