(* ===== verification/Trust.v ===== *)
(** * trust/trust.c: the root a host verifies against

    An anchor is taken once, from a pin, from first contact or as the host's
    own key; only a pin replaces only a host's own. Keys are given. The log
    and its lines are left out. *)

From S2P Require Import Prelude Bytes Hop Revocation.

Inductive fzn_trust_err := FZN_TRUST_OK | FZN_TRUST_ERR_MALFORMED | FZN_TRUST_ERR_ANCHORED | FZN_TRUST_ERR_UNCHANGED.
Inductive fzn_trust_source := FZN_TRUST_NONE | FZN_TRUST_PINNED | FZN_TRUST_ADOPTED | FZN_TRUST_SELF.

#[export] Instance fzn_trust_err_eq_dec : EqDecision fzn_trust_err.
Proof. solve_decision. Defined.
#[export] Instance fzn_trust_source_eq_dec : EqDecision fzn_trust_source.
Proof. solve_decision. Defined.

Record fzn_trust := mk_trust {
  tu_root : bytes;
  tu_adopted_at : Z;
  tu_source : fzn_trust_source }.

Definition fzn_trust_init : fzn_trust := mk_trust (zeros FZN_PUBKEY_LEN) 0 FZN_TRUST_NONE.

Definition anchor (t : fzn_trust) (root : bytes) (source : fzn_trust_source) (now : Z) : fzn_trust_err * fzn_trust :=
  if all_zero root then (FZN_TRUST_ERR_MALFORMED, t)
  else
    let taken := mk_trust root (if decide (source = FZN_TRUST_ADOPTED) then now else 0) source in
    if decide (tu_source t = FZN_TRUST_NONE) then (FZN_TRUST_OK, taken)
    else if memeq (tu_root t) root then (FZN_TRUST_ERR_UNCHANGED, t)
    else if negb (bool_decide (tu_source t = FZN_TRUST_SELF) && bool_decide (source = FZN_TRUST_PINNED)) then (FZN_TRUST_ERR_ANCHORED, t)
    else (FZN_TRUST_OK, taken).

Definition fzn_trust_pin (t : fzn_trust) (root : bytes) : fzn_trust_err * fzn_trust := anchor t root FZN_TRUST_PINNED 0.
Definition fzn_trust_adopt (t : fzn_trust) (root : bytes) (now : Z) : fzn_trust_err * fzn_trust := anchor t root FZN_TRUST_ADOPTED now.
Definition fzn_trust_self (t : fzn_trust) (own : bytes) : fzn_trust_err * fzn_trust := anchor t own FZN_TRUST_SELF 0.

Definition fzn_trust_root (t : fzn_trust) : option bytes :=
  if decide (tu_source t = FZN_TRUST_NONE) then None else Some (tu_root t).

Definition fzn_trust_source_of (t : option fzn_trust) : fzn_trust_source := match t with Some t => tu_source t | None => FZN_TRUST_NONE end.
Definition fzn_trust_adopted_at (t : option fzn_trust) : Z := match t with Some t => tu_adopted_at t | None => 0 end.

Definition FZN_TRUST_FINGERPRINT_LEN : Z := 80.

(** ["0123456789abcdef"] *)
Definition DIGITS : bytes := [48; 49; 50; 51; 52; 53; 54; 55; 56; 57; 97; 98; 99; 100; 101; 102].

(** The loop over a key's bytes from the [i]th, writing at [at_]. *)
Fixpoint print_loop (key : bytes) (i at_ : Z) (out : bytes) : bytes * Z :=
  match key with
  | [] => (out, at_)
  | k :: key =>
    let '(out, at_) := if negb (i =? 0) && (i mod 2 =? 0) then (poke out at_ 32, at_ + 1) else (out, at_) in
    let out := poke out at_ (peek DIGITS (Z.shiftr k 4)) in
    let out := poke out (at_ + 1) (peek DIGITS (Z.land k 15)) in
    print_loop key (i + 1) (at_ + 2) out
  end.

Definition fzn_trust_fingerprint (key out : bytes) : fzn_trust_err * bytes :=
  if zlen out <? FZN_TRUST_FINGERPRINT_LEN then (FZN_TRUST_ERR_MALFORMED, out)
  else let '(out, at_) := print_loop key 0 0 out in (FZN_TRUST_OK, poke out at_ 0).

(** ** An anchor is taken once *)

Inductive trust_op := Pin (root : bytes) | Adopt (root : bytes) (now : Z) | Own (own : bytes).

Definition trust_step (t : fzn_trust) (op : trust_op) : fzn_trust_err * fzn_trust :=
  match op with Pin root => fzn_trust_pin t root | Adopt root now => fzn_trust_adopt t root now | Own own => fzn_trust_self t own end.

Definition trust_run (t : fzn_trust) (ops : list trust_op) : fzn_trust := foldl (fun t op => snd (trust_step t op)) t ops.

(** The anchor an operation asks for. *)
Definition asked_anchor (op : trust_op) : fzn_trust :=
  match op with
  | Pin root => mk_trust root 0 FZN_TRUST_PINNED
  | Adopt root now => mk_trust root now FZN_TRUST_ADOPTED
  | Own own => mk_trust own 0 FZN_TRUST_SELF
  end.

(** What one operation may do to an anchor. *)
Inductive anchor_step (t : fzn_trust) (op : trust_op) : fzn_trust_err -> fzn_trust -> Prop :=
  | as_empty : all_zero (tu_root (asked_anchor op)) = true -> anchor_step t op FZN_TRUST_ERR_MALFORMED t
  | as_first : all_zero (tu_root (asked_anchor op)) = false -> tu_source t = FZN_TRUST_NONE -> anchor_step t op FZN_TRUST_OK (asked_anchor op)
  | as_same : all_zero (tu_root (asked_anchor op)) = false -> tu_source t <> FZN_TRUST_NONE -> tu_root t = tu_root (asked_anchor op) ->
      anchor_step t op FZN_TRUST_ERR_UNCHANGED t
  | as_join root : op = Pin root -> all_zero root = false -> tu_source t = FZN_TRUST_SELF -> tu_root t <> root ->
      anchor_step t op FZN_TRUST_OK (asked_anchor op)
  | as_held : all_zero (tu_root (asked_anchor op)) = false -> tu_source t <> FZN_TRUST_NONE -> tu_root t <> tu_root (asked_anchor op) ->
      ~ (tu_source t = FZN_TRUST_SELF /\ exists root, op = Pin root) -> anchor_step t op FZN_TRUST_ERR_ANCHORED t.

Lemma trust_steps t op : anchor_step t op (fst (trust_step t op)) (snd (trust_step t op)).
Proof.
  assert (trust_step t op = anchor t (tu_root (asked_anchor op)) (tu_source (asked_anchor op)) (tu_adopted_at (asked_anchor op))) as -> by (by destruct op).
  unfold anchor. destruct (all_zero (tu_root (asked_anchor op))) eqn:Ez; [by apply as_empty|].
  assert (mk_trust (tu_root (asked_anchor op)) (if decide (tu_source (asked_anchor op) = FZN_TRUST_ADOPTED) then tu_adopted_at (asked_anchor op) else 0)
    (tu_source (asked_anchor op)) = asked_anchor op) as -> by (by destruct op).
  destruct (decide (tu_source t = FZN_TRUST_NONE)) as [|Hn]; [by apply as_first|].
  destruct (memeq _ _) eqn:Em; [apply memeq_true in Em; by apply as_same|].
  assert (tu_root t <> tu_root (asked_anchor op)) as Hne by (rewrite <- memeq_true; congruence).
  case_bool_decide as Hs; cbn [andb negb]; [case_bool_decide as Hp; cbn [negb fst snd]|].
  - destruct op; try done. by eapply as_join.
  - apply as_held; try done. intros [_ [root ->]]. done.
  - apply as_held; try done. tauto.
Qed.

Lemma trust_run_cons t op ops : trust_run t (op :: ops) = trust_run (snd (trust_step t op)) ops.
Proof. done. Qed.

(** C21: An anchor is taken once. Over any operations from an empty anchor:
    while there is none the next key offered that is not all zeros is taken;
    an anchor that was pinned, or adopted on first contact, is never changed
    again, root, source and time; a host's own key is replaced at most once,
    and only by a pin of another key; and no anchor is the key of zeros. *)
Theorem an_anchor_is_taken_once before after :
  let t := trust_run fzn_trust_init before in
  let t' := trust_run t after in
  ((tu_source t = FZN_TRUST_PINNED \/ tu_source t = FZN_TRUST_ADOPTED) -> t' = t) /\
  (tu_source t = FZN_TRUST_SELF -> t' = t \/ exists root, Pin root ∈ after /\ root <> tu_root t /\ t' = mk_trust root 0 FZN_TRUST_PINNED) /\
  (tu_source t = FZN_TRUST_NONE -> forall op, all_zero (tu_root (asked_anchor op)) = false ->
     trust_step t op = (FZN_TRUST_OK, asked_anchor op)) /\
  (fzn_trust_root t' = None <-> tu_source t' = FZN_TRUST_NONE) /\
  (forall root, fzn_trust_root t' = Some root -> all_zero root = false /\ exists op, op ∈ before ++ after /\ t' = asked_anchor op).
Proof.
  intros t t'. split_and!.
  - revert t'. generalize t. clear. induction after as [|op ops IH]; intros t t' Hs; [done|]. unfold t'. rewrite trust_run_cons.
    assert (snd (trust_step t op) = t) as ->; [|by apply IH]. destruct (trust_steps t op); try done; destruct Hs; congruence.
  - revert t'. generalize t. clear. induction after as [|op ops IH]; intros t t' Hs; [by left|]. unfold t'. rewrite trust_run_cons.
    assert (snd (trust_step t op) = t \/ exists root, op = Pin root /\ root <> tu_root t /\ snd (trust_step t op) = mk_trust root 0 FZN_TRUST_PINNED)
      as [->|(root & -> & Hne & ->)]; [| |].
    + destruct (trust_steps t op) as [| | |root Hop| ]; try (by left); [congruence|]. subst op. right. by exists root.
    + destruct (IH t Hs) as [->|(root & Hin & Hne & ->)]; [by left|]. right. exists root. by rewrite elem_of_cons; auto.
    + right. exists root. split_and!; [left|done|]. clear IH. induction ops as [|op ops IH]; [done|]. rewrite trust_run_cons.
      destruct (trust_steps (mk_trust root 0 FZN_TRUST_PINNED) op); done.
  - intros Hs op Hz. destruct (trust_step t op) as [err t1] eqn:E. pose proof (trust_steps t op) as H. rewrite E in H. cbn in H.
    inversion H; congruence.
  - unfold fzn_trust_root. case_decide; naive_solver.
  - assert (forall ops t0, (tu_source t0 <> FZN_TRUST_NONE -> all_zero (tu_root t0) = false /\ exists op, op ∈ before ++ after /\ t0 = asked_anchor op) ->
      (forall op, op ∈ ops -> op ∈ before ++ after) -> let t1 := trust_run t0 ops in
      tu_source t1 <> FZN_TRUST_NONE -> all_zero (tu_root t1) = false /\ exists op, op ∈ before ++ after /\ t1 = asked_anchor op) as Hrun.
    { induction ops as [|op ops IH]; intros t0 H0 Hin; [done|]. intros t1 Ht1. unfold t1. rewrite trust_run_cons. apply IH; [|intros o Ho; apply Hin; by right|done].
      pose proof (Hin op ltac:(left)) as Hop. destruct (trust_steps t0 op) as [| | |root Hpin Hz| ]; try done; intros _; (split; [|by exists op]); [done|].
      by subst op. }
    intros root Hr. unfold fzn_trust_root in Hr. case_decide as Hn; [done|]. injection Hr as <-.
    apply (Hrun after); [|intros o Ho; rewrite elem_of_app; auto|done].
    apply (Hrun before fzn_trust_init); [done|intros o Ho; rewrite elem_of_app; auto].
Qed.

(** ** A fingerprint names one key *)

Definition hex2 (k : Z) : bytes := [peek DIGITS (Z.shiftr k 4); peek DIGITS (Z.land k 15)].
Definition gap (i : Z) : bytes := if negb (i =? 0) && (i mod 2 =? 0) then [32] else [].

Fixpoint print_text (key : bytes) (i : Z) : bytes :=
  match key with [] => [] | k :: key => gap i ++ hex2 k ++ print_text key (i + 1) end.

Definition digit_val (c : Z) : Z := if c <? 58 then c - 48 else c - 87.

Lemma digit_val_digits x : 0 <= x < 16 -> digit_val (peek DIGITS x) = x /\ in_u8 (peek DIGITS x).
Proof.
  intros H. assert (x ∈ seqZ 0 16) as Hx by (apply elem_of_seqZ; lia). clear H. revert x Hx.
  apply list.Forall_forall. repeat (constructor; [split; [reflexivity|vm_compute; split; discriminate]|]). constructor.
Qed.

Lemma hex2_parts k : in_u8 k -> 0 <= Z.shiftr k 4 < 16 /\ 0 <= Z.land k 15 < 16 /\ k = Z.shiftr k 4 * 16 + Z.land k 15.
Proof.
  intros Hk. rewrite Z.shiftr_div_pow2 by lia. change 15 with (Z.ones 4). rewrite Z.land_ones by lia. change (2 ^ 4) with 16. dlia.
Qed.

Lemma hex2_inj j k : in_u8 j -> in_u8 k -> hex2 j = hex2 k -> j = k.
Proof.
  intros (Hj & Hj' & Ej)%hex2_parts (Hk & Hk' & Ek)%hex2_parts [= Eh El]. apply (f_equal digit_val) in Eh, El.
  rewrite (proj1 (digit_val_digits _ Hj)), (proj1 (digit_val_digits _ Hk)) in Eh.
  rewrite (proj1 (digit_val_digits _ Hj')), (proj1 (digit_val_digits _ Hk')) in El. lia.
Qed.

Lemma print_text_inj key : forall key' i, length key = length key' -> Forall in_u8 key -> Forall in_u8 key' ->
  print_text key i = print_text key' i -> key = key'.
Proof.
  induction key as [|k key IH]; intros [|k' key'] i Hlen Hk Hk' H; try done. apply Forall_cons_iff in Hk as [Hk Hks]. apply Forall_cons_iff in Hk' as [Hk' Hks'].
  cbn [print_text] in H. apply app_inv_head in H. apply app_inj_1 in H as [E H]; [|done]. apply hex2_inj in E as ->; [|done..].
  f_equal. apply (IH _ (i + 1)); cbn in Hlen; auto; lia.
Qed.

Lemma print_text_len key : forall i, 0 <= i -> zlen (print_text key i) =
  2 * zlen key + count (fun j => negb (j =? 0) && (j mod 2 =? 0)) (seqZ i (zlen key)).
Proof.
  induction key as [|k key IH]; intros i Hi; [done|]. cbn [print_text]. rewrite !zlen_app, IH, zlen_cons by lia.
  pose proof (zlen_nonneg key). rewrite (seqZ_cons i) by lia. cbn [count]. replace (Z.pred (1 + zlen key)) with (zlen key) by lia.
  change (Z.succ i) with (i + 1). change (zlen (hex2 k)) with 2. unfold gap. destruct (_ && _); [change (zlen [32]) with 1|change (zlen []) with 0]; cbn; lia.
Qed.

Lemma print_loop_text key : forall i pre rest, Forall in_u8 key -> (length (print_text key i) <= length rest)%nat ->
  print_loop key i (zlen pre) (pre ++ rest) =
    (pre ++ print_text key i ++ drop (length (print_text key i)) rest, zlen pre + zlen (print_text key i)).
Proof.
  induction key as [|k key IH]; intros i pre rest Hk Hlen; [cbn; by rewrite ?drop_0, Z.add_0_r|].
  apply Forall_cons_iff in Hk as [Hk Hks]. cbn [print_loop print_text] in *.
  destruct (hex2_parts k Hk) as (H1 & H2 & _). pose proof (proj2 (digit_val_digits _ H1)). pose proof (proj2 (digit_val_digits _ H2)).
  assert (forall pre rest, (2 + length (print_text key (i + 1)) <= length rest)%nat ->
    print_loop key (i + 1) (zlen pre + 2) (poke (poke (pre ++ rest) (zlen pre) (peek DIGITS (Z.shiftr k 4))) (zlen pre + 1) (peek DIGITS (Z.land k 15))) =
    (pre ++ (hex2 k ++ print_text key (i + 1)) ++ drop (2 + length (print_text key (i + 1))) rest, zlen pre + zlen (hex2 k ++ print_text key (i + 1)))) as Hdigits.
  { clear pre rest Hlen. intros pre [|x [|y rest]] Hlen; cbn [length] in Hlen; try lia. unfold poke. rewrite !u8_small by done.
    rewrite (blit_next pre) by done. cbn [drop length]. rewrite ?drop_0.
    rewrite (blit_next (pre ++ [_])) by (by rewrite zlen_snoc). cbn [length drop]. rewrite ?drop_0.
    replace (((pre ++ [peek DIGITS (Z.shiftr k 4)]) ++ [peek DIGITS (Z.land k 15)]) ++ rest) with ((pre ++ hex2 k) ++ rest) by (by rewrite <- !app_assoc).
    replace (zlen pre + 2) with (zlen (pre ++ hex2 k)) by (by rewrite zlen_app). rewrite IH by (done || lia).
    rewrite <- !app_assoc, !zlen_app. f_equal. lia. }
  unfold gap in *. destruct (negb (i =? 0) && (i mod 2 =? 0)).
  - cbn [app length] in Hlen. rewrite length_app in Hlen. cbn [hex2 length] in Hlen. destruct rest as [|x rest]; cbn [length] in Hlen; [lia|].
    unfold poke at 3. rewrite (blit_next pre) by done. cbn [length drop]. rewrite ?drop_0. change (u8 32) with 32.
    replace (zlen pre + 1) with (zlen (pre ++ [32])) by (by rewrite zlen_snoc).
    rewrite Hdigits by lia. rewrite <- !app_assoc, zlen_snoc. cbn [app length]. rewrite !zlen_cons. f_equal. lia.
  - cbn [app] in *. rewrite length_app in Hlen. cbn [hex2 length] in Hlen. rewrite Hdigits by lia. done.
Qed.

(** A fingerprint names one key. Of a key of 32 bytes it is 79 characters and
    a NUL and touches nothing after them, two keys of one fingerprint are one
    key, and a buffer too small for all of it is not written at all. *)
Theorem fingerprints_name_one_key key key' out out' : is_bytes 32 key -> is_bytes 32 key' ->
  (zlen out < FZN_TRUST_FINGERPRINT_LEN -> fzn_trust_fingerprint key out = (FZN_TRUST_ERR_MALFORMED, out)) /\
  (FZN_TRUST_FINGERPRINT_LEN <= zlen out -> exists text, zlen text = 79 /\
     fzn_trust_fingerprint key out = (FZN_TRUST_OK, text ++ [0] ++ drop 80 out) /\
     (FZN_TRUST_FINGERPRINT_LEN <= zlen out' -> fzn_trust_fingerprint key' out' = (FZN_TRUST_OK, text ++ [0] ++ drop 80 out') -> key = key')).
Proof.
  change FZN_TRUST_FINGERPRINT_LEN with 80. intros Hk Hk'.
  assert (forall key, is_bytes 32 key -> zlen (print_text key 0) = 79) as Hlen.
  { clear. intros key [Hl _]. rewrite print_text_len, Hl by lia. reflexivity. }
  assert (forall key out, is_bytes 32 key -> 80 <= zlen out -> fzn_trust_fingerprint key out = (FZN_TRUST_OK, print_text key 0 ++ [0] ++ drop 80 out)) as H.
  { clear - Hlen. intros key out Hk Ho. unfold fzn_trust_fingerprint. change FZN_TRUST_FINGERPRINT_LEN with 80.
    destruct (Z.ltb_spec (zlen out) 80); [lia|]. pose proof (Hlen key Hk) as Ht. unfold zlen in Ht, Ho.
    pose proof (print_loop_text key 0 [] out (proj2 Hk) ltac:(lia)) as E. cbn [app zlen length Z.of_nat] in E. change (zlen []) with 0 in E. rewrite E.
    unfold poke. rewrite (blit_next (print_text key 0)) by lia. rewrite drop_drop, <- app_assoc. cbn [length].
    by replace (length (print_text key 0) + 1)%nat with 80%nat by lia. }
  split.
  - intros Ho. unfold fzn_trust_fingerprint. change FZN_TRUST_FINGERPRINT_LEN with 80. by destruct (Z.ltb_spec (zlen out) 80); [|lia].
  - intros Ho. exists (print_text key 0). split_and!; [by apply Hlen|by apply H|]. intros Ho' E. rewrite H in E by done. injection E as E.
    apply app_inj_1 in E as [E _]; [|pose proof (Hlen key Hk); pose proof (Hlen key' Hk'); unfold zlen in *; lia].
    apply (print_text_inj _ _ 0); try (apply Hk || apply Hk' || done). destruct Hk as [H1 _], Hk' as [H2 _]. unfold zlen in *. lia.
Qed.

(** ** Witnesses *)

(** A host of its own, met by a stranger and then joined to an estate. *)
Lemma an_anchor_is_taken_once_witness :
  trust_run fzn_trust_init [Own (replicate 32 1); Adopt (replicate 32 9) 5; Pin (replicate 32 2); Pin (replicate 32 3)]
    = mk_trust (replicate 32 2) 0 FZN_TRUST_PINNED /\
  trust_run (trust_run fzn_trust_init [Own (replicate 32 1); Pin (replicate 32 2)]) [Pin (replicate 32 3)]
    = trust_run fzn_trust_init [Own (replicate 32 1); Pin (replicate 32 2)].
Proof.
  split; [vm_compute; reflexivity|].
  apply (proj1 (an_anchor_is_taken_once [Own (replicate 32 1); Pin (replicate 32 2)] [Pin (replicate 32 3)])). left. vm_compute. reflexivity.
Defined.

Lemma fingerprints_name_one_key_witness : exists text, zlen text = 79 /\
  fzn_trust_fingerprint (replicate 32 202) (zeros 80) = (FZN_TRUST_OK, text ++ [0] ++ drop 80 (zeros 80)).
Proof.
  assert (forall x, in_u8 x -> is_bytes 32 (replicate 32 x)) as H by (intros x Hx; split; [done|by apply Forall_replicate]).
  destruct (fingerprints_name_one_key (replicate 32 202) (replicate 32 203) (zeros 80) (zeros 80)
    (H 202 ltac:(ulia)) (H 203 ltac:(ulia))) as [_ H2].
  destruct H2 as (text & H3 & H4 & _); [vm_compute; discriminate|]. by exists text.
Defined.
