(* ===== verification/Prekey.v ===== *)
(** * prekey/prekey.c: a prekey record, and the act of pinning one

    A record is issued, opened and verified; a peer takes its host's key on
    first use and afterwards only that host's newer prekeys. A view never
    opened is [None]s; other buffers and keys are given. The log is left out. *)

From S2P Require Import Prelude Bytes Hop Revocation Trust.

Definition FZN_PREKEY_LEN : Z := 32.
Definition FZN_PREKEY_OFF_VERSION : Z := 0.
Definition FZN_PREKEY_OFF_OBJECT : Z := FZN_PREKEY_OFF_VERSION + 1.
Definition FZN_PREKEY_OFF_HOST : Z := FZN_PREKEY_OFF_OBJECT + 1.
Definition FZN_PREKEY_OFF_PREKEY : Z := FZN_PREKEY_OFF_HOST + FZN_PUBKEY_LEN.
Definition FZN_PREKEY_OFF_CREATED_AT : Z := FZN_PREKEY_OFF_PREKEY + FZN_PREKEY_LEN.
Definition FZN_PREKEY_OFF_SIGNATURE : Z := FZN_PREKEY_OFF_CREATED_AT + 8.
Definition FZN_PREKEY_BODY_LEN : Z := FZN_PREKEY_OFF_SIGNATURE.
Definition FZN_PREKEY_LEN_TOTAL : Z := FZN_PREKEY_BODY_LEN + FZN_SIG_LEN.
Definition FZN_OBJECT_PREKEY : Z := 132.

Inductive fzn_prekey_err :=
  | FZN_PREKEY_OK | FZN_PREKEY_ERR_MALFORMED | FZN_PREKEY_ERR_SHAPE | FZN_PREKEY_ERR_SIGNATURE | FZN_PREKEY_ERR_SIGNER
  | FZN_PREKEY_ERR_ROLLBACK | FZN_PREKEY_ERR_WRONG_HOST.

#[export] Instance fzn_prekey_err_eq_dec : EqDecision fzn_prekey_err.
Proof. solve_decision. Defined.

Record fzn_prekey_record := mk_prekey {
  pr_bytes : option bytes;
  pr_host : option bytes;
  pr_prekey : option bytes;
  pr_created_at : Z }.

Record fzn_prekey_peer := mk_peer {
  pp_trust : fzn_trust;
  pp_prekey : bytes;
  pp_created_at : Z }.

Definition prekey_write (host prekey : bytes) (created_at : Z) (out : bytes) : bytes :=
  let out := poke out FZN_PREKEY_OFF_VERSION FZN_SIGNED_VERSION in
  let out := poke out FZN_PREKEY_OFF_OBJECT FZN_OBJECT_PREKEY in
  let out := blit FZN_PREKEY_OFF_HOST host out in
  let out := blit FZN_PREKEY_OFF_PREKEY prekey out in
  fzn_put_be64 out FZN_PREKEY_OFF_CREATED_AT created_at.

Definition fzn_prekey_issue (host prekey : bytes) (created_at : Z) (signer : option fzn_sign_ops) (out : bytes) : fzn_prekey_err * bytes :=
  match signer ≫= sign with
  | None => (FZN_PREKEY_ERR_SIGNER, out)
  | Some sign =>
    let out := prekey_write host prekey created_at out in
    match sign (slice 0 FZN_PREKEY_BODY_LEN out) with
    | None => (FZN_PREKEY_ERR_SIGNER, out)
    | Some sig => (FZN_PREKEY_OK, blit FZN_PREKEY_OFF_SIGNATURE sig out)
    end
  end.

Definition fzn_prekey_open (b : bytes) : fzn_prekey_err * option fzn_prekey_record :=
  if negb (zlen b =? FZN_PREKEY_LEN_TOTAL) then (FZN_PREKEY_ERR_SHAPE, None)
  else if negb (peek b FZN_PREKEY_OFF_VERSION =? FZN_SIGNED_VERSION) then (FZN_PREKEY_ERR_SHAPE, None)
  else if negb (peek b FZN_PREKEY_OFF_OBJECT =? FZN_OBJECT_PREKEY) then (FZN_PREKEY_ERR_SHAPE, None)
  else (FZN_PREKEY_OK, Some (mk_prekey (Some b) (Some (slice FZN_PREKEY_OFF_HOST FZN_PUBKEY_LEN b))
          (Some (slice FZN_PREKEY_OFF_PREKEY FZN_PREKEY_LEN b)) (fzn_get_be64 b FZN_PREKEY_OFF_CREATED_AT))).

Definition fzn_prekey_verify (record : fzn_prekey_record) (verifier : option fzn_sign_ops) : fzn_prekey_err :=
  match pr_bytes record, pr_host record with
  | Some b, Some host =>
    match verifier ≫= verify with
    | None => FZN_PREKEY_ERR_SIGNER
    | Some verify =>
      if negb (verify host (slice 0 FZN_PREKEY_BODY_LEN b) (slice FZN_PREKEY_OFF_SIGNATURE FZN_SIG_LEN b)) then FZN_PREKEY_ERR_SIGNATURE
      else FZN_PREKEY_OK
    end
  | _, _ => FZN_PREKEY_ERR_MALFORMED
  end.

Definition fzn_prekey_peer_init : fzn_prekey_peer := mk_peer fzn_trust_init (zeros FZN_PREKEY_LEN) 0.

Definition fzn_prekey_pin (p : fzn_prekey_peer) (record : fzn_prekey_record) (verifier : option fzn_sign_ops)
    (source : fzn_trust_source) (now : Z) : fzn_prekey_err * fzn_prekey_peer :=
  match pr_bytes record, pr_host record, pr_prekey record with
  | Some _, Some host, Some prekey =>
    if negb (bool_decide (source = FZN_TRUST_PINNED)) && negb (bool_decide (source = FZN_TRUST_ADOPTED)) then (FZN_PREKEY_ERR_MALFORMED, p)
    else match fzn_prekey_verify record verifier with
    | FZN_PREKEY_OK =>
      match fzn_trust_root (pp_trust p) with
      | None =>
        match (if decide (source = FZN_TRUST_PINNED) then fzn_trust_pin (pp_trust p) host else fzn_trust_adopt (pp_trust p) host now) with
        | (FZN_TRUST_OK, trust) => (FZN_PREKEY_OK, mk_peer trust prekey (pr_created_at record))
        | (_, trust) => (FZN_PREKEY_ERR_MALFORMED, mk_peer trust (pp_prekey p) (pp_created_at p))
        end
      | Some anchor =>
        if negb (memeq anchor host) then (FZN_PREKEY_ERR_WRONG_HOST, p)
        else if memeq (pp_prekey p) prekey && (pr_created_at record =? pp_created_at p) then (FZN_PREKEY_OK, p)
        else if pr_created_at record <=? pp_created_at p then (FZN_PREKEY_ERR_ROLLBACK, p)
        else (FZN_PREKEY_OK, mk_peer (pp_trust p) prekey (pr_created_at record))
      end
    | err => (err, p)
    end
  | _, _, _ => (FZN_PREKEY_ERR_MALFORMED, p)
  end.

(** ** One encoding *)

Definition prekey_bytes (host prekey : bytes) (created_at : Z) : bytes := concat [[1]; [132]; host; prekey; be64 created_at].

Lemma zlen_prekey host prekey created_at : zlen host = 32 -> zlen prekey = 32 -> zlen (prekey_bytes host prekey created_at) = 74.
Proof. intros Hh Hp. unfold prekey_bytes. cbn [concat]. rewrite !zlen_app, zlen_be64, Hh, Hp. reflexivity. Qed.

(** What is written is the encoding, over whatever the buffer held. *)
Lemma prekey_written host prekey created_at out : zlen host = 32 -> zlen prekey = 32 ->
  prekey_write host prekey created_at out = prekey_bytes host prekey created_at ++ drop 74 out.
Proof.
  intros Hh Hp. pose proof (blits_start [[1]; [132]; host; prekey; be64 created_at] out) as Hb. fold (prekey_bytes host prekey created_at) in Hb.
  pose proof (zlen_prekey host prekey created_at Hh Hp) as Hl. unfold zlen in Hl at 1. replace (length _) with 74%nat in Hb by lia. rewrite <- Hb.
  cbn [blits]. rewrite !zlen_1, Hh, Hp. reflexivity.
Qed.

(** The view of a string of the right shape. *)
Definition view_of (host prekey : bytes) (created_at : Z) (sig : bytes) : fzn_prekey_record :=
  mk_prekey (Some (prekey_bytes host prekey created_at ++ sig)) (Some host) (Some prekey) created_at.

Lemma prekey_open_spec b r : Forall in_u8 b -> fzn_prekey_open b = (FZN_PREKEY_OK, Some r) <->
  exists host prekey created_at sig, b = prekey_bytes host prekey created_at ++ sig /\ r = view_of host prekey created_at sig /\
    zlen host = 32 /\ zlen prekey = 32 /\ in_u64 created_at /\ zlen sig = 64.
Proof.
  intros Hb. unfold fzn_prekey_open. change FZN_PREKEY_LEN_TOTAL with 138. change FZN_PREKEY_OFF_VERSION with 0. change FZN_PREKEY_OFF_OBJECT with 1.
  change FZN_PREKEY_OFF_HOST with 2. change FZN_PREKEY_OFF_PREKEY with 34. change FZN_PREKEY_OFF_CREATED_AT with 66. split.
  - destruct (Z.eqb_spec (zlen b) 138) as [Hlen|]; [|done]. cbn [negb]. destruct (Z.eqb_spec (peek b 0) FZN_SIGNED_VERSION) as [H0|]; [|done].
    cbn [negb]. destruct (Z.eqb_spec (peek b 1) FZN_OBJECT_PREKEY) as [H1|]; [|done]. cbn [negb]. intros [= <-].
    assert (b = [peek b 0] ++ [peek b 1] ++ slice 2 32 b ++ slice 34 32 b ++ slice 66 8 b ++ slice 74 64 b) as E.
    { rewrite <- !slice_1 by lia. rewrite (cuts_all [1; 1; 32; 32; 8; 64] b) at 1 by (by rewrite ?Hlen; repeat constructor; lia).
      cbn [cuts]. by rewrite app_nil_r. }
    rewrite H0, H1 in E.
    rewrite <- (be64_get b 66) in E by (done || lia).
    exists (slice 2 32 b), (slice 34 32 b), (fzn_get_be64 b 66), (slice 74 64 b).
    assert (b = prekey_bytes (slice 2 32 b) (slice 34 32 b) (fzn_get_be64 b 66) ++ slice 74 64 b) as E'.
    { unfold prekey_bytes. cbn [concat]. rewrite app_nil_r, <- !app_assoc. exact E. }
    split_and!; [exact E'| |rewrite zlen_slice; lia..|by apply get_be64_range|rewrite zlen_slice; lia].
    unfold view_of. by rewrite <- E'.
  - intros (host & prekey & created_at & sig & -> & -> & Hh & Hp & Hc & Hs).
    pose proof (zlen_prekey host prekey created_at Hh Hp) as Hl. rewrite zlen_app, Hl, Hs. cbn [Z.add negb Z.eqb Pos.eqb Pos.add].
    set (fs := [[1]; [132]; host; prekey; be64 created_at; sig]).
    assert (prekey_bytes host prekey created_at ++ sig = concat fs) as Ef.
    { unfold prekey_bytes, fs. cbn [concat]. by rewrite !app_nil_r, <- !app_assoc. }
    assert (forall i f off n, fs !! i = Some f -> zlen (concat (take i fs)) = off -> zlen f = n -> slice off n (concat fs) = f) as R.
    { intros i f off n Hi Ho Hn. by apply (slice_field fs i). }
    rewrite Ef. rewrite (peek_of _ 0 1), (peek_of _ 1 132) by (lia || (by apply (R 0%nat)) || (by apply (R 1%nat))). cbn [negb Z.eqb Pos.eqb].
    rewrite (R 2%nat host), (R 3%nat prekey) by (done || (cbn; by rewrite !zlen_cons, ?app_nil_r, ?Hh)).
    rewrite (get_be64_of _ 66 created_at); [|lia|done|]; [by unfold view_of; rewrite Ef|].
    apply (R 4%nat); [done| |apply zlen_be64]. unfold fs. cbn [take concat]. rewrite !zlen_app, Hh, Hp. reflexivity.
Qed.

(** ** Pinning *)

(** A record that arrives, and how the caller takes it. *)
Record pin_event := mk_pin { pe_bytes : bytes; pe_source : fzn_trust_source; pe_now : Z }.

Definition pin_step (ops : option fzn_sign_ops) (p : fzn_prekey_peer) (ev : pin_event) : fzn_prekey_err * fzn_prekey_peer :=
  match fzn_prekey_open (pe_bytes ev) with
  | (FZN_PREKEY_OK, Some r) => fzn_prekey_pin p r ops (pe_source ev) (pe_now ev)
  | (err, _) => (err, p)
  end.

Definition pin_run (ops : option fzn_sign_ops) (p : fzn_prekey_peer) (evs : list pin_event) : fzn_prekey_peer :=
  foldl (fun p ev => snd (pin_step ops p ev)) p evs.

Section Pinning.
Context (ops : fzn_sign_ops) (vf : bytes -> bytes -> bytes -> bool).
Hypothesis Hvf : verify ops = Some vf.

(** The host says, under its own signature, that this is its prekey. *)
Definition stated (ev : pin_event) (host prekey : bytes) (created_at : Z) : Prop :=
  (pe_source ev = FZN_TRUST_PINNED \/ pe_source ev = FZN_TRUST_ADOPTED) /\
  exists sig, pe_bytes ev = prekey_bytes host prekey created_at ++ sig /\
    zlen host = 32 /\ zlen prekey = 32 /\ in_u64 created_at /\ zlen sig = 64 /\ vf host (prekey_bytes host prekey created_at) sig = true.

(** What one event does to a peer. *)
Inductive pin_moves (p : fzn_prekey_peer) (ev : pin_event) : fzn_prekey_err -> fzn_prekey_peer -> Prop :=
  | pm_refused err : err <> FZN_PREKEY_OK -> (forall h k c, ~ stated ev h k c) -> pin_moves p ev err p
  | pm_zeros k c h : stated ev h k c -> all_zero h = true -> fzn_trust_root (pp_trust p) = None -> pin_moves p ev FZN_PREKEY_ERR_MALFORMED p
  | pm_first h k c trust : stated ev h k c -> all_zero h = false -> fzn_trust_root (pp_trust p) = None -> fzn_trust_root trust = Some h ->
      tu_source trust = pe_source ev -> pin_moves p ev FZN_PREKEY_OK (mk_peer trust k c)
  | pm_stranger h k c anchor : stated ev h k c -> fzn_trust_root (pp_trust p) = Some anchor -> anchor <> h ->
      pin_moves p ev FZN_PREKEY_ERR_WRONG_HOST p
  | pm_again h k c : stated ev h k c -> fzn_trust_root (pp_trust p) = Some h -> k = pp_prekey p -> c = pp_created_at p ->
      pin_moves p ev FZN_PREKEY_OK p
  | pm_older h k c : stated ev h k c -> fzn_trust_root (pp_trust p) = Some h -> c <= pp_created_at p ->
      pin_moves p ev FZN_PREKEY_ERR_ROLLBACK p
  | pm_newer h k c : stated ev h k c -> fzn_trust_root (pp_trust p) = Some h -> pp_created_at p < c ->
      pin_moves p ev FZN_PREKEY_OK (mk_peer (pp_trust p) k c).

(** A string says one thing. *)
Lemma stated_one ev h k c h' k' c' : stated ev h k c -> stated ev h' k' c' -> h = h' /\ k = k' /\ c = c'.
Proof.
  intros (_ & sig & E & Hh & Hk & Hc & Hs & _) (_ & sig' & E' & Hh' & Hk' & Hc' & Hs' & _). rewrite E in E'.
  assert (forall x y : bytes, zlen x = zlen y -> length x = length y) as L by (unfold zlen; lia).
  apply app_inj_1 in E' as [E' _]; [|apply L; by rewrite !zlen_prekey]. unfold prekey_bytes in E'. cbn [concat] in E'.
  do 2 apply app_inv_head in E'. apply app_inj_1 in E' as [-> E']; [|apply L; lia]. apply app_inj_1 in E' as [-> E']; [|apply L; lia].
  rewrite !app_nil_r in E'. by apply be64_inj in E' as ->.
Qed.

Lemma verified_stated b h k c sig : b = prekey_bytes h k c ++ sig -> zlen h = 32 -> zlen k = 32 -> zlen sig = 64 ->
  fzn_prekey_verify (view_of h k c sig) (Some ops) = if vf h (prekey_bytes h k c) sig then FZN_PREKEY_OK else FZN_PREKEY_ERR_SIGNATURE.
Proof.
  intros -> Hh Hk Hs. unfold fzn_prekey_verify, view_of. cbn [pr_bytes pr_host mbind option_bind]. rewrite Hvf.
  pose proof (zlen_prekey h k c Hh Hk) as Hl. rewrite slice_front by done.
  assert (slice FZN_PREKEY_OFF_SIGNATURE FZN_SIG_LEN (prekey_bytes h k c ++ sig) = sig) as ->.
  { transitivity (slice 74 64 (prekey_bytes h k c ++ sig ++ [])); [by rewrite app_nil_r|by apply slice_mid]. }
  by destruct (vf _ _ _).
Qed.

Lemma pin_moved p ev : Forall in_u8 (pe_bytes ev) ->
  pin_moves p ev (fst (pin_step (Some ops) p ev)) (snd (pin_step (Some ops) p ev)).
Proof.
  intros Hb. unfold pin_step. destruct (fzn_prekey_open (pe_bytes ev)) as [err r] eqn:E.
  assert ((exists h k c, stated ev h k c) -> exists r, fzn_prekey_open (pe_bytes ev) = (FZN_PREKEY_OK, Some r)) as Hst.
  { intros (h & k & c & _ & sig & Hs & ? & ? & ? & ? & _). exists (view_of h k c sig). apply prekey_open_spec; [done|]. by exists h, k, c, sig. }
  assert (forall err', err' <> FZN_PREKEY_OK -> (forall r, fzn_prekey_open (pe_bytes ev) <> (FZN_PREKEY_OK, Some r)) -> pin_moves p ev err' p) as Hbad.
  { intros err' He Hn. apply pm_refused; [done|]. intros h k c Hs. destruct Hst as [r' Hr]; [by exists h, k, c|]. by apply (Hn r'). }
  destruct err, r as [r|]; try (cbn [fst snd]; apply Hbad; [done|intros r'; congruence]).
  2:{ exfalso. unfold fzn_prekey_open in E. repeat case_match; congruence. }
  apply prekey_open_spec in E as (h & k & c & sig & Eb & -> & Hh & Hk & Hc & Hs); [|done].
  unfold fzn_prekey_pin. cbn [view_of pr_bytes pr_host pr_prekey pr_created_at]. fold (view_of h k c sig).
  assert (forall h' k' c', stated ev h' k' c' -> pe_source ev = FZN_TRUST_PINNED \/ pe_source ev = FZN_TRUST_ADOPTED) as Hsrc by (by intros ? ? ? [? _]).
  assert (vf h (prekey_bytes h k c) sig = true -> pe_source ev = FZN_TRUST_PINNED \/ pe_source ev = FZN_TRUST_ADOPTED -> stated ev h k c) as Hok.
  { intros Hv Hse. split; [done|]. by exists sig. }
  assert (vf h (prekey_bytes h k c) sig = false -> forall h' k' c', ~ stated ev h' k' c') as Hno.
  { intros Hv h' k' c' [_ (sig' & E' & Hh' & Hk' & _ & _ & Hv')]. rewrite Eb in E'.
    assert (length (prekey_bytes h k c) = length (prekey_bytes h' k' c')) as L.
    { pose proof (zlen_prekey h k c Hh Hk). pose proof (zlen_prekey h' k' c' Hh' Hk'). unfold zlen in *. lia. }
    pose proof E' as E1. apply app_inj_1 in E1 as [E1 ->]; [|done]. rewrite <- E1 in Hv'. unfold prekey_bytes in E1. cbn [concat] in E1.
    do 2 apply app_inv_head in E1. apply app_inj_1 in E1 as [-> _]; [congruence|unfold zlen in *; lia]. }
  destruct (negb _ && negb _) eqn:Eso.
  { cbn [fst snd]. apply pm_refused; [done|]. intros h' k' c' Hst'. destruct (Hsrc _ _ _ Hst') as [H|H]; rewrite H in Eso; discriminate Eso. }
  assert (pe_source ev = FZN_TRUST_PINNED \/ pe_source ev = FZN_TRUST_ADOPTED) as Hse.
  { apply andb_false_iff in Eso as [Eso|Eso]; apply negb_false_iff, bool_decide_eq_true in Eso; auto. }
  rewrite (verified_stated _ h k c sig Eb) by done. destruct (vf h (prekey_bytes h k c) sig) eqn:Hv; [|by apply pm_refused; auto].
  pose proof (Hok eq_refl Hse) as Hst'. destruct (fzn_trust_root (pp_trust p)) as [anchor|] eqn:Ea.
  - destruct (memeq anchor h) eqn:Em; cbn [negb]; [apply memeq_true in Em as ->|].
    2:{ eapply pm_stranger; [done..|]. rewrite <- memeq_true. congruence. }
    destruct (memeq (pp_prekey p) k && (c =? pp_created_at p)) eqn:Eq.
    + apply andb_true_iff in Eq as [Eq1 Eq2]. apply memeq_true in Eq1. apply Z.eqb_eq in Eq2. by eapply pm_again.
    + destruct (Z.leb_spec c (pp_created_at p)); [by eapply pm_older|by eapply pm_newer].
  - unfold fzn_trust_root in Ea. destruct (decide (tu_source (pp_trust p) = FZN_TRUST_NONE)) as [En|]; [|done].
    assert (fzn_trust_root (pp_trust p) = None) as Ea' by (unfold fzn_trust_root; by rewrite decide_True).
    unfold fzn_trust_pin, fzn_trust_adopt, anchor. destruct (all_zero h) eqn:Ez.
    + destruct p as [t kk cc]. destruct (decide (pe_source ev = FZN_TRUST_PINNED)); cbn [fst snd pp_trust pp_prekey pp_created_at]; by eapply pm_zeros.
    + rewrite !(decide_True _ _ En). destruct (decide (pe_source ev = FZN_TRUST_PINNED)) as [Hp|]; cbn [fst snd]; eapply pm_first; try done.
      destruct Hse as [| ->]; done.
Qed.

(** What the peer is after the events so far: empty while nobody stated
    anything, and otherwise at the newest its host stated. *)
Definition newest_of (evs : list pin_event) (p : fzn_prekey_peer) : Prop :=
  match fzn_trust_root (pp_trust p) with
  | None => forall ev h k c, ev ∈ evs -> stated ev h k c -> all_zero h = true
  | Some h => (exists ev, ev ∈ evs /\ stated ev h (pp_prekey p) (pp_created_at p)) /\
      forall ev k c, ev ∈ evs -> stated ev h k c -> c <= pp_created_at p
  end.

Lemma newest_moves evs p ev err p' : newest_of evs p -> (forall h, fzn_trust_root (pp_trust p) = Some h -> all_zero h = false) ->
  pin_moves p ev err p' -> newest_of (evs ++ [ev]) p' /\ (forall h, fzn_trust_root (pp_trust p') = Some h -> all_zero h = false).
Proof.
  intros Hn Hz Hm.
  assert (forall e, e ∈ evs ++ [ev] <-> e ∈ evs \/ e = ev) as Hin by (intros e; rewrite elem_of_app, elem_of_cons, elem_of_nil; tauto).
  unfold newest_of in *. destruct Hm as [err Herr Hno|k c h Hst Hhz Hnone|h k c trust Hst Hhz Hnone Hroot Hsrc|h k c anchor Hst Ha Hne|
    h k c Hst Ha -> ->|h k c Hst Ha Hle|h k c Hst Ha Hlt].
  - split; [|done]. destruct (fzn_trust_root (pp_trust p)) as [h|].
    + destruct Hn as [(e & He & Hs) Hmax]. split; [exists e; by rewrite Hin; auto|]. intros e' k c [?| ->]%Hin Hs'; [by eapply Hmax|]. by destruct (Hno h k c).
    + intros e h k c [?| ->]%Hin Hs'; [by eapply Hn|]. by destruct (Hno h k c).
  - split; [|done]. rewrite Hnone in *. intros e h' k' c' [?| ->]%Hin Hs'; [by eapply Hn|].
    by destruct (stated_one _ _ _ _ _ _ _ Hst Hs') as (<- & _).
  - cbn [pp_trust pp_prekey pp_created_at]. rewrite Hnone, Hroot in *. split; [|by intros ? [= <-]].
    split; [exists ev; by rewrite Hin; auto|]. intros e k' c' [He| ->]%Hin Hs'; [|by destruct (stated_one _ _ _ _ _ _ _ Hst Hs') as (_ & _ & <-)].
    rewrite (Hn e h k' c' He Hs') in Hhz. done.
  - split; [|done]. rewrite Ha in *. destruct Hn as [(e & He & Hs) Hmax]. split; [exists e; by rewrite Hin; auto|].
    intros e' k' c' [?| ->]%Hin Hs'; [by eapply Hmax|]. by destruct (stated_one _ _ _ _ _ _ _ Hst Hs') as (<- & _).
  - split; [|done]. rewrite Ha in *. destruct Hn as [(e & He & Hs) Hmax]. split; [exists e; by rewrite Hin; auto|].
    intros e' k' c' [?| ->]%Hin Hs'; [by eapply Hmax|]. by destruct (stated_one _ _ _ _ _ _ _ Hst Hs') as (_ & _ & <-).
  - split; [|done]. rewrite Ha in *. destruct Hn as [(e & He & Hs) Hmax]. split; [exists e; by rewrite Hin; auto|].
    intros e' k' c' [?| ->]%Hin Hs'; [by eapply Hmax|]. by destruct (stated_one _ _ _ _ _ _ _ Hst Hs') as (_ & _ & <-).
  - cbn [pp_trust pp_prekey pp_created_at]. split; [|done]. rewrite Ha in *. destruct Hn as [_ Hmax]. split; [exists ev; by rewrite Hin; auto|].
    intros e' k' c' [He'| ->]%Hin Hs'; [pose proof (Hmax e' k' c' He' Hs'); lia|]. by destruct (stated_one _ _ _ _ _ _ _ Hst Hs') as (_ & _ & <-).
Qed.

Lemma newest_run evs : forall seen p, newest_of seen p -> (forall h, fzn_trust_root (pp_trust p) = Some h -> all_zero h = false) ->
  Forall (fun ev => Forall in_u8 (pe_bytes ev)) evs -> newest_of (seen ++ evs) (pin_run (Some ops) p evs).
Proof.
  induction evs as [|ev evs IH]; intros seen p Hn Hz Hb; [by rewrite app_nil_r|]. apply Forall_cons_iff in Hb as [Hb Hbs].
  destruct (newest_moves seen p ev _ _ Hn Hz (pin_moved p ev Hb)) as [Hn' Hz'].
  rewrite cons_middle, app_assoc. by apply IH.
Qed.

(** A peer that is anchored stays so, and only moves forward. *)
Lemma forward_run evs : forall p h, fzn_trust_root (pp_trust p) = Some h -> Forall (fun ev => Forall in_u8 (pe_bytes ev)) evs ->
  let p' := pin_run (Some ops) p evs in pp_trust p' = pp_trust p /\ pp_created_at p <= pp_created_at p' /\
    (pp_prekey p' <> pp_prekey p -> pp_created_at p < pp_created_at p').
Proof.
  induction evs as [|ev evs IH]; intros p h Hr Hb; [cbn; split_and!; [done|lia|done]|]. apply Forall_cons_iff in Hb as [Hb Hbs].
  pose proof (pin_moved p ev Hb) as Hm. change (pin_run (Some ops) p (ev :: evs)) with (pin_run (Some ops) (snd (pin_step (Some ops) p ev)) evs).
  remember (fst (pin_step (Some ops) p ev)) as err. remember (snd (pin_step (Some ops) p ev)) as p1.
  assert (p1 = p \/ (pp_trust p1 = pp_trust p /\ pp_created_at p < pp_created_at p1)) as [->|[Ht Hc]]; [|by apply (IH _ h)|].
  { destruct Hm; try (by left); [congruence|right; cbn; by split]. }
  cbv zeta. destruct (IH p1 h ltac:(congruence) Hbs) as (H1 & H2 & H3). split_and!; [congruence|lia|lia].
Qed.
End Pinning.

(** C20: A peer holds its host's newest prekey. Whatever strings arrive, in
    whatever order and however they are taken: a refusal leaves the peer as it
    was; a peer that has an anchor keeps it and how it came by it, and its
    prekey changes only for one stated later; and the prekey it holds is one
    that its host signed, with the greatest time of all those the host signed
    that arrived. *)
Theorem peers_hold_the_newest_prekey ops vf before after ev : verify ops = Some vf ->
  Forall (fun ev => Forall in_u8 (pe_bytes ev)) (before ++ after ++ [ev]) ->
  let p := pin_run (Some ops) fzn_prekey_peer_init before in
  let p' := pin_run (Some ops) p after in
  (forall err q, pin_step (Some ops) p ev = (err, q) -> err <> FZN_PREKEY_OK -> q = p) /\
  (forall h, fzn_trust_root (pp_trust p) = Some h -> pp_trust p' = pp_trust p /\ pp_created_at p <= pp_created_at p' /\
     (pp_prekey p' <> pp_prekey p -> pp_created_at p < pp_created_at p')) /\
  (forall h, fzn_trust_root (pp_trust p') = Some h ->
     (exists e, e ∈ before ++ after /\ stated vf e h (pp_prekey p') (pp_created_at p')) /\
     forall e k c, e ∈ before ++ after -> stated vf e h k c -> c <= pp_created_at p').
Proof.
  intros Hvf Hb p p'. rewrite !Forall_app, Forall_singleton in Hb. destruct Hb as (Hb1 & Hb2 & Hb3). split_and!.
  - intros err q E Herr. pose proof (pin_moved ops vf Hvf p ev Hb3) as Hm. rewrite E in Hm. cbn in Hm. by destruct Hm.
  - intros h Hh. by apply (forward_run ops vf Hvf after p h).
  - intros h Hh. pose proof (newest_run ops vf Hvf (before ++ after) [] fzn_prekey_peer_init) as Hn. unfold newest_of in Hn.
    cbn [app] in Hn. unfold p', p in *. unfold pin_run in *. rewrite <- foldl_app in *. rewrite Hh in Hn.
    apply Hn; [intros ? ? ? ? []%elem_of_nil|done|by apply Forall_app].
Qed.

(** ** Witnesses *)

Definition toy_vf (key msg sig : bytes) : bool := memeq sig (replicate 64 (peek key 0)).
Definition toy_ops : fzn_sign_ops := mk_sign (Some toy_vf) (Some (fun _ => Some (replicate 64 1))).

(** What the host of key 1 signs. *)
Definition demo_pin (prekey created_at : Z) (source : fzn_trust_source) : pin_event :=
  mk_pin (prekey_bytes (replicate 32 1) (replicate 32 prekey) created_at ++ replicate 64 1) source 7.

(** The same prekey again with an earlier time is a rollback, and with a
    later one moves the peer. *)
Lemma same_prekey_other_time :
  let p := pin_run (Some toy_ops) fzn_prekey_peer_init [demo_pin 5 10 FZN_TRUST_ADOPTED] in
  fst (pin_step (Some toy_ops) p (demo_pin 5 9 FZN_TRUST_ADOPTED)) = FZN_PREKEY_ERR_ROLLBACK /\
  pp_created_at (snd (pin_step (Some toy_ops) p (demo_pin 5 11 FZN_TRUST_ADOPTED))) = 11.
Proof. split; vm_compute; reflexivity. Qed.

(** First use, a rotation, and then the first record replayed. *)
Lemma peers_hold_the_newest_prekey_witness :
  let p := pin_run (Some toy_ops) fzn_prekey_peer_init [demo_pin 5 10 FZN_TRUST_ADOPTED; demo_pin 6 20 FZN_TRUST_PINNED] in
  p = mk_peer (mk_trust (replicate 32 1) 7 FZN_TRUST_ADOPTED) (replicate 32 6) 20 /\
  snd (pin_step (Some toy_ops) p (demo_pin 5 10 FZN_TRUST_PINNED)) = p.
Proof.
  intros p. split; [vm_compute; reflexivity|].
  assert (forall k c s, in_u8 k -> Forall in_u8 (pe_bytes (demo_pin k c s))) as Hb.
  { intros k c s Hk. cbn [demo_pin pe_bytes]. unfold prekey_bytes. cbn [concat]. rewrite !Forall_app. split_and!; try apply be64_range;
      try (apply Forall_replicate); try (constructor; [|constructor]); try constructor; ulia. }
  destruct (peers_hold_the_newest_prekey toy_ops toy_vf [demo_pin 5 10 FZN_TRUST_ADOPTED; demo_pin 6 20 FZN_TRUST_PINNED] []
    (demo_pin 5 10 FZN_TRUST_PINNED) eq_refl) as [H _].
  { cbn [app]. repeat (constructor; [apply Hb; ulia|]). constructor. }
  fold p in H. destruct (pin_step (Some toy_ops) p (demo_pin 5 10 FZN_TRUST_PINNED)) as [err q] eqn:E. cbn [snd].
  apply (H err q); [done|]. assert (err = fst (pin_step (Some toy_ops) p (demo_pin 5 10 FZN_TRUST_PINNED))) as -> by by rewrite E.
  vm_compute. discriminate.
Defined.

(** What a host issues is opened and verified. *)
Lemma issued_prekeys_open ops sg vf host prekey created_at sig out : sign ops = Some sg -> verify ops = Some vf ->
  is_bytes 32 host -> is_bytes 32 prekey -> in_u64 created_at -> zlen out = FZN_PREKEY_LEN_TOTAL ->
  sg (prekey_bytes host prekey created_at) = Some sig -> is_bytes 64 sig -> vf host (prekey_bytes host prekey created_at) sig = true ->
  exists r, fzn_prekey_issue host prekey created_at (Some ops) out = (FZN_PREKEY_OK, prekey_bytes host prekey created_at ++ sig) /\
    fzn_prekey_open (prekey_bytes host prekey created_at ++ sig) = (FZN_PREKEY_OK, Some r) /\ fzn_prekey_verify r (Some ops) = FZN_PREKEY_OK /\
    pr_host r = Some host /\ pr_prekey r = Some prekey /\ pr_created_at r = created_at.
Proof.
  intros Hsg Hvf [Hh Hhr] [Hp Hpr] Hc Hout Hs [Hsl Hsr] Hv. change FZN_PREKEY_LEN_TOTAL with 138 in Hout.
  pose proof (zlen_prekey host prekey created_at Hh Hp) as Hl. exists (view_of host prekey created_at sig). split_and!; try done.
  - unfold fzn_prekey_issue. cbn [mbind option_bind]. rewrite Hsg. rewrite prekey_written by done. rewrite slice_front by done. rewrite Hs.
    change FZN_PREKEY_OFF_SIGNATURE with 74. rewrite blit_last; [done|done|]. rewrite length_drop. unfold zlen in *. lia.
  - apply prekey_open_spec; [|by exists host, prekey, created_at, sig].
    unfold prekey_bytes. cbn [concat]. rewrite !Forall_app. split_and!; try done; try apply be64_range; repeat constructor; ulia.
  - rewrite (verified_stated ops vf Hvf _ host prekey created_at sig eq_refl) by done. by rewrite Hv.
Qed.
