(* ===== verification/Roster.v ===== *)
(** * roster/roster.c: a user's roster

    Records that add a subject's incarnation or remove it, admitted by who
    wrote them and judged when they are read. A table is the list of its used
    rows beside its capacity; a writer's chain and an entry's removers are the
    lists of those in use, what lies past them in the source's arrays being
    zeros. Records, hops and keys are given; a signature's operations, a root
    set and a hash may be missing. *)

From S2P Require Import Prelude Bytes Hop Revocation Chain.

Definition FZN_ROSTER_INCARNATION_LEN : Z := 16.
Definition FZN_ROSTER_BODY_MAX : Z := 192.
Definition FZN_ROSTER_OFF_VERSION : Z := 0.
Definition FZN_ROSTER_OFF_OBJECT : Z := 1.
Definition FZN_ROSTER_OFF_WRITER : Z := 2.
Definition FZN_ROSTER_OFF_SUBJECT : Z := FZN_ROSTER_OFF_WRITER + FZN_PUBKEY_LEN.
Definition FZN_ROSTER_OFF_INCARNATION : Z := FZN_ROSTER_OFF_SUBJECT + FZN_PUBKEY_LEN.
Definition FZN_ROSTER_OFF_SEQ : Z := FZN_ROSTER_OFF_INCARNATION + FZN_ROSTER_INCARNATION_LEN.
Definition FZN_ROSTER_OFF_SETTING : Z := FZN_ROSTER_OFF_SEQ + 8.
Definition FZN_ROSTER_OFF_BODY_LEN : Z := FZN_ROSTER_OFF_SETTING + 2.
Definition FZN_ROSTER_HEADER_LEN : Z := FZN_ROSTER_OFF_BODY_LEN + 1.
Definition FZN_ROSTER_LEN (body : Z) : Z := FZN_ROSTER_HEADER_LEN + body + FZN_SIG_LEN.
Definition FZN_ROSTER_MIN_LEN : Z := FZN_ROSTER_LEN 0.
Definition FZN_ROSTER_MAX_LEN : Z := FZN_ROSTER_LEN FZN_ROSTER_BODY_MAX.
Definition FZN_ROSTER_K_DEFAULT : Z := 2.
Definition FZN_ROSTER_REMOVERS_MAX : Z := 4.
Definition FZN_OBJECT_ROSTER_ADD : Z := 135.
Definition FZN_OBJECT_ROSTER_REMOVE : Z := 136.
Definition FZN_OBJECT_ROSTER_SET : Z := 137.

Inductive fzn_roster_err :=
  | FZN_ROSTER_OK | FZN_ROSTER_ERR_MALFORMED | FZN_ROSTER_ERR_SHAPE | FZN_ROSTER_ERR_SIGNATURE | FZN_ROSTER_ERR_STANDING
  | FZN_ROSTER_ERR_CONFLICT | FZN_ROSTER_ERR_FULL | FZN_ROSTER_ERR_UNSUPPORTED.

Inductive fzn_roster_state_t := FZN_ROSTER_ABSENT | FZN_ROSTER_ACTIVE | FZN_ROSTER_SUSPENDED | FZN_ROSTER_RETIRED.

#[export] Instance fzn_roster_err_eq_dec : EqDecision fzn_roster_err.
Proof. solve_decision. Defined.
#[export] Instance fzn_roster_state_eq_dec : EqDecision fzn_roster_state_t.
Proof. solve_decision. Defined.

(** ** Records *)

Definition fzn_roster_object (rec : bytes) : Z := peek rec FZN_ROSTER_OFF_OBJECT.
Definition fzn_roster_writer_of (rec : bytes) : bytes := slice FZN_ROSTER_OFF_WRITER FZN_PUBKEY_LEN rec.
Definition fzn_roster_subject (rec : bytes) : bytes := slice FZN_ROSTER_OFF_SUBJECT FZN_PUBKEY_LEN rec.
Definition fzn_roster_incarnation (rec : bytes) : bytes := slice FZN_ROSTER_OFF_INCARNATION FZN_ROSTER_INCARNATION_LEN rec.
Definition fzn_roster_seq (rec : bytes) : Z := fzn_get_be64 rec FZN_ROSTER_OFF_SEQ.

Definition is_roster_object (object : Z) : bool :=
  (object =? FZN_OBJECT_ROSTER_ADD) || (object =? FZN_OBJECT_ROSTER_REMOVE) || (object =? FZN_OBJECT_ROSTER_SET).

Definition fzn_roster_open (b : bytes) : fzn_roster_err * option bytes :=
  if (zlen b <? FZN_ROSTER_MIN_LEN) || (zlen b >? FZN_ROSTER_MAX_LEN) then (FZN_ROSTER_ERR_SHAPE, None)
  else
    let object := peek b FZN_ROSTER_OFF_OBJECT in
    let body_len := peek b FZN_ROSTER_OFF_BODY_LEN in
    if negb (peek b FZN_ROSTER_OFF_VERSION =? FZN_SIGNED_VERSION) || negb (is_roster_object object) || (body_len >? FZN_ROSTER_BODY_MAX)
       || negb (zlen b =? FZN_ROSTER_LEN body_len) || all_zero (slice FZN_ROSTER_OFF_INCARNATION FZN_ROSTER_INCARNATION_LEN b)
    then (FZN_ROSTER_ERR_SHAPE, None)
    else if negb (object =? FZN_OBJECT_ROSTER_SET)
            && (negb (body_len =? 0) || negb (peek b FZN_ROSTER_OFF_SETTING =? 0) || negb (peek b (FZN_ROSTER_OFF_SETTING + 1) =? 0))
    then (FZN_ROSTER_ERR_SHAPE, None)
    else (FZN_ROSTER_OK, Some b).

Definition roster_write (object : Z) (writer subject incarnation : bytes) (seq setting : Z) (body out : bytes) : bytes :=
  let out := poke out FZN_ROSTER_OFF_VERSION FZN_SIGNED_VERSION in
  let out := poke out FZN_ROSTER_OFF_OBJECT object in
  let out := blit FZN_ROSTER_OFF_WRITER writer out in
  let out := blit FZN_ROSTER_OFF_SUBJECT subject out in
  let out := blit FZN_ROSTER_OFF_INCARNATION incarnation out in
  let out := fzn_put_be64 out FZN_ROSTER_OFF_SEQ seq in
  let out := poke out FZN_ROSTER_OFF_SETTING (Z.shiftr setting 8) in
  let out := poke out (FZN_ROSTER_OFF_SETTING + 1) (Z.land setting 255) in
  let out := poke out FZN_ROSTER_OFF_BODY_LEN (zlen body) in
  blit FZN_ROSTER_HEADER_LEN body out.

Definition mint (object : Z) (writer subject incarnation : bytes) (seq setting : Z) (body : bytes) (ops : option fzn_sign_ops) (out : bytes)
    : fzn_roster_err * bytes * option Z :=
  let signed_len := FZN_ROSTER_HEADER_LEN + zlen body in
  match ops ≫= sign with
  | None => (FZN_ROSTER_ERR_MALFORMED, out, None)
  | Some sign =>
    if (zlen body >? FZN_ROSTER_BODY_MAX) || all_zero incarnation then (FZN_ROSTER_ERR_SHAPE, out, None)
    else if zlen out <? FZN_ROSTER_LEN (zlen body) then (FZN_ROSTER_ERR_MALFORMED, out, None)
    else
      let out := roster_write object writer subject incarnation seq setting body out in
      match sign (slice 0 signed_len out) with
      | None => (FZN_ROSTER_ERR_SIGNATURE, out, None)
      | Some sig => (FZN_ROSTER_OK, blit signed_len sig out, Some (signed_len + FZN_SIG_LEN))
      end
  end.

Definition fzn_roster_issue_add (writer subject incarnation : bytes) (seq : Z) (ops : option fzn_sign_ops) (out : bytes) :=
  mint FZN_OBJECT_ROSTER_ADD writer subject incarnation seq 0 [] ops out.
Definition fzn_roster_issue_remove (writer subject incarnation : bytes) (seq : Z) (ops : option fzn_sign_ops) (out : bytes) :=
  mint FZN_OBJECT_ROSTER_REMOVE writer subject incarnation seq 0 [] ops out.
Definition fzn_roster_issue_set (writer subject incarnation : bytes) (seq setting : Z) (body : bytes) (ops : option fzn_sign_ops) (out : bytes) :=
  mint FZN_OBJECT_ROSTER_SET writer subject incarnation seq setting body ops out.

(** ** The roster *)

Record fzn_roster_writer := mk_writer {
  rw_key : bytes;
  rw_capability : bytes;
  rw_hop_count : Z;
  rw_grantor : list bytes;
  rw_grantee : list bytes;
  rw_first_act : bytes;
  rw_hop_act : list bytes }.

#[export] Instance fzn_roster_writer_eq_dec : EqDecision fzn_roster_writer.
Proof. solve_decision. Defined.

(** [re_removers] is [remover] and [remover_act]. *)
Record fzn_roster_entry := mk_rentry {
  re_subject : bytes;
  re_incarnation : bytes;
  re_added : bool;
  re_add_seq : Z;
  re_add_writer : nat;
  re_removers : list (nat * bytes);
  re_add_act : bytes }.

Record fzn_roster := mk_roster {
  ro_entries : list fzn_roster_entry;
  ro_capacity : Z;
  ro_writers : list fzn_roster_writer;
  ro_writer_capacity : Z;
  ro_seq_seen : Z }.

Record fzn_roster_authority := mk_authority {
  ra_root : bytes;
  ra_capability : bytes;
  ra_sign : fzn_sign_ops;
  ra_roots : option fzn_root_ops;
  ra_hash : option fzn_hash_ops }.

Definition fzn_roster_init (r : fzn_roster) (capacity writer_capacity : Z) : fzn_roster_err * fzn_roster :=
  if (capacity =? 0) || (writer_capacity =? 0) then (FZN_ROSTER_ERR_MALFORMED, r)
  else (FZN_ROSTER_OK, mk_roster [] capacity [] writer_capacity 0).

Definition is_of (subject incarnation : bytes) (e : fzn_roster_entry) : bool :=
  memeq (re_subject e) subject && memeq (re_incarnation e) incarnation.

Definition find (r : fzn_roster) (subject incarnation : bytes) : option nat := find_index (is_of subject incarnation) (ro_entries r).

(** The newest hop's issue. *)
Definition latest_issue (hops : list fzn_chain_hop) : Z :=
  fold_left (fun latest h => if fzn_hop_issued_at h >? latest then fzn_hop_issued_at h else latest) hops 0.

Definition has_standing (writer : bytes) (hops : list fzn_chain_hop) (a : fzn_roster_authority) : bool :=
  if zlen hops =? 0 then memeq writer (ra_root a) || match ra_roots a with Some set => member set writer | None => false end
  else if zlen hops >? FZN_CHAIN_MAX_HOPS then false
  else
    let first := fzn_hop_grantor (default [] (head hops)) in
    let pin := match ra_roots a with Some set => if member set first then first else ra_root a | None => ra_root a end in
    match fzn_chain_verify (Some <$> hops) pin (ra_capability a) (latest_issue hops) (ra_sign a) None None with
    | (FZN_CHAIN_OK, Some verdict) => memeq (ch_grantee verdict) writer
    | _ => false
    end.

(** Every hop's hash, zeros with no hash; [None] where the hash refuses. *)
Definition hop_acts (hash : option fzn_hash_ops) (hops : list fzn_chain_hop) : option (list bytes) :=
  match hash with
  | None => Some (replicate (length hops) (zeros FZN_REVOCATION_ID_LEN))
  | Some hash => mapM (fun h => hash FZN_REVOCATION_ID_LEN (slice 0 FZN_HOP_LEN h)) hops
  end.

Definition writer_of (key : bytes) (hops : list fzn_chain_hop) (capability : bytes) (acts : list bytes) : fzn_roster_writer :=
  mk_writer key capability (zlen hops) (fzn_hop_grantor <$> hops) (fzn_hop_grantee <$> hops)
    (default (zeros FZN_REVOCATION_ID_LEN) (head acts)) acts.

Definition intern_writer (r : fzn_roster) (key : bytes) (hops : list fzn_chain_hop) (capability : bytes) (hash : option fzn_hash_ops)
    : fzn_roster * option nat :=
  match hop_acts hash hops with
  | None => (r, None)
  | Some acts =>
    let w := writer_of key hops capability acts in
    match find_index (fun x => bool_decide (x = w)) (ro_writers r) with
    | Some i => (r, Some i)
    | None =>
      if zlen (ro_writers r) >=? ro_writer_capacity r then (r, None)
      else (mk_roster (ro_entries r) (ro_capacity r) (ro_writers r ++ [w]) (ro_writer_capacity r) (ro_seq_seen r),
            Some (length (ro_writers r)))
    end
  end.

Definition with_entries (r : fzn_roster) (es : list fzn_roster_entry) : fzn_roster :=
  mk_roster es (ro_capacity r) (ro_writers r) (ro_writer_capacity r) (ro_seq_seen r).

(** An entry with nothing said of it. *)
Definition fresh_entry (subject incarnation : bytes) : fzn_roster_entry :=
  mk_rentry subject incarnation false 0 0 [] (zeros FZN_REVOCATION_ID_LEN).

Definition see_seq (r : fzn_roster) (seq : Z) : fzn_roster :=
  mk_roster (ro_entries r) (ro_capacity r) (ro_writers r) (ro_writer_capacity r)
    (if seq >? ro_seq_seen r then seq else ro_seq_seen r).

(** What the entry at [i] becomes, or [None] where its removers are full. *)
Definition say (e : fzn_roster_entry) (rec : bytes) (w : nat) (act : bytes) : option fzn_roster_entry :=
  if fzn_roster_object rec =? FZN_OBJECT_ROSTER_ADD then
    Some (mk_rentry (re_subject e) (re_incarnation e) true (fzn_roster_seq rec) w (re_removers e) act)
  else if existsb (fun p => bool_decide (fst p = w)) (re_removers e) then Some e
  else if zlen (re_removers e) >=? FZN_ROSTER_REMOVERS_MAX then None
  else Some (mk_rentry (re_subject e) (re_incarnation e) (re_added e) (re_add_seq e) (re_add_writer e) (re_removers e ++ [(w, act)]) (re_add_act e)).

(** The entry of a record, made where there was none. *)
Definition entry_of (r : fzn_roster) (rec : bytes) (entry : option nat) : option (fzn_roster * nat) :=
  match entry with
  | Some i => Some (r, i)
  | None =>
    if zlen (ro_entries r) >=? ro_capacity r then None
    else Some (with_entries r (ro_entries r ++ [fresh_entry (fzn_roster_subject rec) (fzn_roster_incarnation rec)]), length (ro_entries r))
  end.

(** The writer interned, the entry found or made, and the record said of it. *)
Definition record_in (r : fzn_roster) (rec : bytes) (hops : list fzn_chain_hop) (a : fzn_roster_authority) (entry : option nat) (act : bytes)
    : fzn_roster_err * fzn_roster :=
  match intern_writer r (fzn_roster_writer_of rec) hops (ra_capability a) (ra_hash a) with
  | (r, None) => (FZN_ROSTER_ERR_FULL, r)
  | (r, Some w) =>
    match entry_of r rec entry with
    | None => (FZN_ROSTER_ERR_FULL, r)
    | Some (r, i) =>
      match (ro_entries r !! i) ≫= fun e => say e rec w act with
      | None => (FZN_ROSTER_ERR_FULL, r)
      | Some e => (FZN_ROSTER_OK, see_seq (with_entries r (<[i := e]> (ro_entries r))) (fzn_roster_seq rec))
      end
    end
  end.

(** The record as an act. *)
Definition act_of (hash : option fzn_hash_ops) (rec : bytes) : option bytes :=
  match hash with None => Some (zeros FZN_REVOCATION_ID_LEN) | Some hash => hash FZN_REVOCATION_ID_LEN rec end.

(** The entry, where the record adds what it holds as added. *)
Definition held_add (r : fzn_roster) (object : Z) (entry : option nat) : option fzn_roster_entry :=
  match entry ≫= fun i => ro_entries r !! i with
  | Some e => if (object =? FZN_OBJECT_ROSTER_ADD) && re_added e then Some e else None
  | None => None
  end.

Definition add_key (r : fzn_roster) (e : fzn_roster_entry) : bytes := default [] (rw_key <$> ro_writers r !! re_add_writer e).

Definition apply (r : fzn_roster) (record : bytes) (hops : list fzn_chain_hop) (a : fzn_roster_authority) : fzn_roster_err * fzn_roster :=
  match verify (ra_sign a) with
  | None => (FZN_ROSTER_ERR_MALFORMED, r)
  | Some verify =>
    if negb (is_null (ra_roots a)) && is_null (ra_hash a) then (FZN_ROSTER_ERR_MALFORMED, r)
    else match fzn_roster_open record with
    | (FZN_ROSTER_OK, Some rec) =>
      let object := fzn_roster_object rec in
      let signed_len := zlen rec - FZN_SIG_LEN in
      if negb (verify (fzn_roster_writer_of rec) (slice 0 signed_len rec) (slice signed_len FZN_SIG_LEN rec)) then (FZN_ROSTER_ERR_SIGNATURE, r)
      else if object =? FZN_OBJECT_ROSTER_SET then (FZN_ROSTER_ERR_UNSUPPORTED, r)
      else if negb (has_standing (fzn_roster_writer_of rec) hops a) then (FZN_ROSTER_ERR_STANDING, r)
      else
        let entry := find r (fzn_roster_subject rec) (fzn_roster_incarnation rec) in
        match held_add r object entry with
        | Some e =>
          if (re_add_seq e =? fzn_roster_seq rec) && memeq (add_key r e) (fzn_roster_writer_of rec) then (FZN_ROSTER_OK, r)
          else (FZN_ROSTER_ERR_CONFLICT, r)
        | None =>
          match act_of (ra_hash a) rec with
          | None => (FZN_ROSTER_ERR_MALFORMED, r)
          | Some act => record_in r rec hops a entry act
          end
        end
    | _ => (FZN_ROSTER_ERR_SHAPE, r)
    end
  end.

Definition fzn_roster_admit (r : fzn_roster) (record : bytes) (hops : list fzn_chain_hop) (a : fzn_roster_authority) := apply r record hops a.
Definition fzn_roster_restore (r : fzn_roster) (record : bytes) (hops : list fzn_chain_hop) (a : fzn_roster_authority) := apply r record hops a.

(** ** Reading *)

Definition counts (w : fzn_roster_writer) (act : bytes) (revocations : option fzn_revocation_store) : bool :=
  let by_chain := match revocations with
    | None => true
    | Some _ =>
      if rw_hop_count w =? 0 then true
      else
        let links := Some (rw_grantor w, rw_grantee w) in
        let revoked := fzn_revocation_covers_links revocations links (Some (rw_capability w)) in
        forallb (fun i => negb (nth i revoked false)
          || fzn_revocation_act_stands revocations links (Some (rw_capability w)) (Z.of_nat i)
               (Some (if Z.of_nat i + 1 <? rw_hop_count w then nth (i + 1) (rw_hop_act w) [] else act)))
          (seq 0 (Z.to_nat (rw_hop_count w)))
    end in
  match revocations ≫= roots with
  | Some set =>
    if rw_hop_count w =? 0 then root_counts set (rw_key w) act
    else if negb (root_counts set (default [] (head (rw_grantor w))) (rw_first_act w)) then false
    else by_chain
  | None => by_chain
  end.

(** The distinct keys whose removal counts; [None] where a root retires it. *)
Fixpoint judge_loop (r : fzn_roster) (revocations : option fzn_revocation_store) (removers : list (nat * bytes)) (keys : list bytes)
    : option (list bytes) :=
  match removers with
  | [] => Some keys
  | (i, act) :: removers =>
    match ro_writers r !! i with
    | None => judge_loop r revocations removers keys
    | Some w =>
      if negb (counts w act revocations) then judge_loop r revocations removers keys
      else if rw_hop_count w =? 0 then None
      else if existsb (memeq (rw_key w)) keys then judge_loop r revocations removers keys
      else judge_loop r revocations removers (keys ++ [rw_key w])
    end
  end.

Definition judge (r : fzn_roster) (e : fzn_roster_entry) (revocations : option fzn_revocation_store) (k : Z) : fzn_roster_state_t :=
  let k := if k =? 0 then FZN_ROSTER_K_DEFAULT else k in
  match judge_loop r revocations (re_removers e) [] with
  | None => FZN_ROSTER_RETIRED
  | Some keys =>
    if zlen keys >=? k then FZN_ROSTER_RETIRED
    else if zlen keys >? 0 then FZN_ROSTER_SUSPENDED
    else if re_added e && match ro_writers r !! re_add_writer e with Some w => counts w (re_add_act e) revocations | None => false end
    then FZN_ROSTER_ACTIVE
    else FZN_ROSTER_ABSENT
  end.

Definition fzn_roster_state (r : fzn_roster) (subject incarnation : bytes) (revocations : option fzn_revocation_store) (k : Z) : fzn_roster_state_t :=
  match find r subject incarnation ≫= fun i => ro_entries r !! i with
  | Some e => judge r e revocations k
  | None => FZN_ROSTER_ABSENT
  end.

Definition beats (r : fzn_roster) (a b : fzn_roster_entry) : bool :=
  if negb (re_add_seq a =? re_add_seq b) then re_add_seq a >? re_add_seq b else memcmp (add_key r a) (add_key r b) >? 0.

Fixpoint active_loop (r : fzn_roster) (subject : bytes) (revocations : option fzn_revocation_store) (k : Z) (es : list fzn_roster_entry)
    (best : option fzn_roster_entry) : option fzn_roster_entry :=
  match es with
  | [] => best
  | e :: es =>
    if negb (memeq (re_subject e) subject) || negb (bool_decide (judge r e revocations k = FZN_ROSTER_ACTIVE))
    then active_loop r subject revocations k es best
    else if match best with None => true | Some b => beats r e b end then active_loop r subject revocations k es (Some e)
    else active_loop r subject revocations k es best
  end.

Definition fzn_roster_active (r : fzn_roster) (subject : bytes) (revocations : option fzn_revocation_store) (k : Z) : option bytes :=
  re_incarnation <$> active_loop r subject revocations k (ro_entries r) None.

(** ** Bundles *)

Definition FZN_ROSTER_BUNDLE_HEAD_LEN : Z := 3.
Definition FZN_ROSTER_BUNDLE_LEN (record_len hop_count : Z) : Z := FZN_ROSTER_BUNDLE_HEAD_LEN + record_len + hop_count * FZN_HOP_LEN.

Record fzn_roster_bundle := mk_bundle { bu_record : bytes; bu_hops : list fzn_chain_hop }.

Fixpoint pack_hops (hops : list bytes) (at_ : Z) (out : bytes) : bytes * Z :=
  match hops with [] => (out, at_) | h :: hops => pack_hops hops (at_ + FZN_HOP_LEN) (blit at_ h out) end.

Definition fzn_roster_bundle_pack (record : bytes) (hops : list bytes) (out : bytes) : fzn_roster_err * bytes * option Z :=
  if (zlen hops >? FZN_CHAIN_MAX_HOPS) || negb (bool_decide (fst (fzn_roster_open record) = FZN_ROSTER_OK)) then (FZN_ROSTER_ERR_SHAPE, out, None)
  else if zlen out <? FZN_ROSTER_BUNDLE_LEN (zlen record) (zlen hops) then (FZN_ROSTER_ERR_MALFORMED, out, None)
  else
    let out := poke out 0 (zlen hops) in
    let out := poke out 1 (Z.shiftr (zlen record) 8) in
    let out := poke out 2 (Z.land (zlen record) 255) in
    let out := blit FZN_ROSTER_BUNDLE_HEAD_LEN record out in
    let '(out, at_) := pack_hops hops (FZN_ROSTER_BUNDLE_HEAD_LEN + zlen record) out in
    (FZN_ROSTER_OK, out, Some at_).

Fixpoint open_hops (b : bytes) (at_ : Z) (n : nat) : option (list fzn_chain_hop) :=
  match n with
  | O => Some []
  | S n =>
    match fzn_hop_open (Some (slice at_ FZN_HOP_LEN b)) with
    | (FZN_CHAIN_OK, Some h) => (fun hs => h :: hs) <$> open_hops b (at_ + FZN_HOP_LEN) n
    | _ => None
    end
  end.

Definition fzn_roster_bundle_open (b : bytes) : fzn_roster_err * option fzn_roster_bundle :=
  if zlen b <? FZN_ROSTER_BUNDLE_HEAD_LEN then (FZN_ROSTER_ERR_SHAPE, None)
  else
    let hop_count := peek b 0 in
    let record_len := Z.lor (Z.shiftl (peek b 1) 8) (peek b 2) in
    if (hop_count >? FZN_CHAIN_MAX_HOPS) || (record_len <? FZN_ROSTER_MIN_LEN) || (record_len >? FZN_ROSTER_MAX_LEN)
       || negb (zlen b =? FZN_ROSTER_BUNDLE_LEN record_len hop_count)
    then (FZN_ROSTER_ERR_SHAPE, None)
    else match fzn_roster_open (slice FZN_ROSTER_BUNDLE_HEAD_LEN record_len b) with
    | (FZN_ROSTER_OK, Some record) =>
      match open_hops b (FZN_ROSTER_BUNDLE_HEAD_LEN + record_len) (Z.to_nat hop_count) with
      | None => (FZN_ROSTER_ERR_SHAPE, None)
      | Some hops => (FZN_ROSTER_OK, Some (mk_bundle record hops))
      end
    | _ => (FZN_ROSTER_ERR_SHAPE, None)
    end.
