(* ===== verification/RosterReads.v ===== *)
(** * roster/roster.c: what a roster says, whoever tells it

    What a roster holds of one incarnation, without its tables: the add and
    the removals, each with who wrote it. An admission adds to it or leaves
    it; a reading goes up as it grows and does not depend on its order. *)

From stdpp Require Import sets.
From S2P Require Import Prelude Bytes Hop Revocation Chain Roster.

(** ** Views *)

(** The add, its sequence, writer and act; and the removals. *)
Definition view : Type := option (Z * fzn_roster_writer * bytes) * list (fzn_roster_writer * bytes).

(** The writer of a remover, and its act. *)
Definition removal_in (ws : list fzn_roster_writer) (p : nat * bytes) : option (fzn_roster_writer * bytes) :=
  (fun w => (w, snd p)) <$> ws !! fst p.

Definition view_in (ws : list fzn_roster_writer) (e : fzn_roster_entry) : view :=
  (if re_added e then (fun w => (re_add_seq e, w, re_add_act e)) <$> ws !! re_add_writer e else None,
   omap (removal_in ws) (re_removers e)).

Definition view_of (r : fzn_roster) (subject incarnation : bytes) : view :=
  match find r subject incarnation ≫= fun i => ro_entries r !! i with
  | Some e => view_in (ro_writers r) e
  | None => (None, [])
  end.

Fixpoint view_loop (revocations : option fzn_revocation_store) (removals : list (fzn_roster_writer * bytes)) (keys : list bytes)
    : option (list bytes) :=
  match removals with
  | [] => Some keys
  | (w, act) :: removals =>
    if negb (counts w act revocations) then view_loop revocations removals keys
    else if rw_hop_count w =? 0 then None
    else if existsb (memeq (rw_key w)) keys then view_loop revocations removals keys
    else view_loop revocations removals (keys ++ [rw_key w])
  end.

Definition judge_view (v : view) (revocations : option fzn_revocation_store) (k : Z) : fzn_roster_state_t :=
  let k := if k =? 0 then FZN_ROSTER_K_DEFAULT else k in
  match view_loop revocations (snd v) [] with
  | None => FZN_ROSTER_RETIRED
  | Some keys =>
    if zlen keys >=? k then FZN_ROSTER_RETIRED
    else if zlen keys >? 0 then FZN_ROSTER_SUSPENDED
    else if match fst v with Some (_, w, act) => counts w act revocations | None => false end then FZN_ROSTER_ACTIVE
    else FZN_ROSTER_ABSENT
  end.

Lemma loop_is_view r revocations rem : forall keys,
  judge_loop r revocations rem keys = view_loop revocations (snd (view_in (ro_writers r) (mk_rentry [] [] false 0 0 rem []))) keys.
Proof.
  induction rem as [|[i act] rem IH]; intros keys; [done|]. cbn [judge_loop view_in snd omap list_omap re_removers]. unfold removal_in at 1. cbn [fst snd].
  destruct (ro_writers r !! i) as [w|]; cbn [fmap option_fmap option_map view_loop]; rewrite !IH; done.
Qed.

Lemma judge_is_view r e revocations k : judge r e revocations k = judge_view (view_in (ro_writers r) e) revocations k.
Proof.
  unfold judge, judge_view. rewrite loop_is_view. cbn [view_in snd fst re_removers]. destruct (view_loop _ _ _); [|done].
  destruct (_ >=? _); [done|]. destruct (_ >? _); [done|]. destruct (re_added e); [|done]. cbn [andb].
  by destruct (ro_writers r !! re_add_writer e).
Qed.

Lemma state_is_view r subject incarnation revocations k : 0 <= k ->
  fzn_roster_state r subject incarnation revocations k = judge_view (view_of r subject incarnation) revocations k.
Proof.
  intros Hk. unfold fzn_roster_state, view_of. destruct (_ ≫= _) as [e|]; [apply judge_is_view|].
  unfold judge_view. cbn [fst snd view_loop]. change (zlen []) with 0. rewrite Z.geb_leb.
  destruct (Z.eqb_spec k 0); [done|]. by destruct (Z.leb_spec k 0); [lia|].
Qed.

(** ** A reading *)

Section Reading.
Context (revocations : option fzn_revocation_store).

Definition counting (x : fzn_roster_writer * bytes) : Prop := counts (fst x) (snd x) revocations = true.

(** A root's removal that counts, or else the distinct keys of those that do. *)
Lemma view_loop_spec rem : forall keys, NoDup keys ->
  match view_loop revocations rem keys with
  | None => exists x, x ∈ rem /\ counting x /\ rw_hop_count (fst x) = 0
  | Some keys' => NoDup keys' /\ (forall x, x ∈ rem -> counting x -> rw_hop_count (fst x) <> 0) /\
      forall key, key ∈ keys' <-> key ∈ keys \/ exists x, x ∈ rem /\ counting x /\ rw_key (fst x) = key
  end.
Proof.
  induction rem as [|[w act] rem IH]; intros keys Hk; cbn [view_loop].
  { split_and!; [done|by intros x ?%elem_of_nil|]. intros key. split; [by left|]. by intros [?|(x & ?%elem_of_nil & _)]. }
  destruct (counts w act revocations) eqn:Ec; cbn [negb].
  2:{ specialize (IH keys Hk). assert (forall x, x ∈ (w, act) :: rem /\ counting x <-> x ∈ rem /\ counting x) as Hx.
      { intros x. rewrite elem_of_cons. unfold counting. split; [intros [[-> |] ?]; [cbn in *; congruence|done]|tauto]. }
      destruct (view_loop revocations rem keys).
      - destruct IH as (H1 & H2 & H3). split_and!; [done|intros x H4 H5; apply H2; [by apply Hx|done]|]. intros key. rewrite H3.
        split; (intros [|(x & H4 & H5 & H6)]; [by left|right; exists x]); (split_and!; [by apply (Hx x)|done|done]).
      - destruct IH as (x & H1 & H2 & H3). exists x. split_and!; [by apply Hx|done|done]. }
  destruct (Z.eqb_spec (rw_hop_count w) 0) as [Hz|Hz]; [exists (w, act); split_and!; [left|done|done]|].
  assert (forall keys', NoDup keys' -> (forall key, key ∈ keys' <-> key ∈ keys \/ key = rw_key w) ->
    match view_loop revocations rem keys' with
    | None => exists x, x ∈ (w, act) :: rem /\ counting x /\ rw_hop_count (fst x) = 0
    | Some keys' => NoDup keys' /\ (forall x, x ∈ (w, act) :: rem -> counting x -> rw_hop_count (fst x) <> 0) /\
        forall key, key ∈ keys' <-> key ∈ keys \/ exists x, x ∈ (w, act) :: rem /\ counting x /\ rw_key (fst x) = key
    end) as Hcase.
  { intros keys' Hnd Hin. specialize (IH keys' Hnd). destruct (view_loop revocations rem keys').
    - destruct IH as (H1 & H2 & H3). split_and!; [done| |].
      + intros x [-> |H4]%elem_of_cons H5; [done|by apply H2].
      + intros key. rewrite H3, Hin. split.
        * intros [[?| ->]|(x & H4 & H5 & H6)]; [by left|right; exists (w, act); split_and!; [left|done|done]|].
          right. exists x. by rewrite elem_of_cons; auto.
        * intros [?|(x & [-> |H4]%elem_of_cons & H5 & H6)]; [by left; left|left; right; done|right; by exists x].
    - destruct IH as (x & H1 & H2 & H3). exists x. rewrite elem_of_cons. auto. }
  destruct (existsb (memeq (rw_key w)) keys) eqn:Ex; apply Hcase.
  - done.
  - intros key. split; [by left|]. intros [?| ->]; [done|]. apply existsb_exists in Ex as (y & Hy & <-%memeq_true). by apply list_elem_of_In.
  - apply list.NoDup_app. split_and!; [done| |apply list.NoDup_singleton]. intros y Hy ->%list_elem_of_singleton.
    assert (existsb (memeq (rw_key w)) keys = true); [|congruence]. apply existsb_exists. exists (rw_key w). rewrite memeq_refl. by apply list_elem_of_In in Hy.
  - intros key. by rewrite elem_of_app, list_elem_of_singleton.
Qed.
End Reading.

(** The source's numbers: nothing, added, suspended, retired. *)
Definition state_rank (s : fzn_roster_state_t) : Z :=
  match s with FZN_ROSTER_ABSENT => 0 | FZN_ROSTER_ACTIVE => 1 | FZN_ROSTER_SUSPENDED => 2 | FZN_ROSTER_RETIRED => 3 end.

Lemma state_rank_inj s s' : state_rank s = state_rank s' -> s = s'.
Proof. by destruct s, s'. Qed.

Lemma state_rank_range s : 0 <= state_rank s <= 3.
Proof. destruct s; cbn; lia. Qed.

(** Everything one view holds, another does. *)
Definition within (v v' : view) : Prop := (forall x, fst v = Some x -> fst v' = Some x) /\ forall x, x ∈ snd v -> x ∈ snd v'.

Lemma within_refl v : within v v.
Proof. done. Qed.

Lemma within_trans v1 v2 v3 : within v1 v2 -> within v2 v3 -> within v1 v3.
Proof. intros [H1 H2] [H3 H4]. split; auto. Qed.

(** A reading goes up as the view grows. *)
Lemma judge_grows v v' revocations k : within v v' -> state_rank (judge_view v revocations k) <= state_rank (judge_view v' revocations k).
Proof.
  intros [Hadd Hrem]. unfold judge_view. set (k' := if k =? 0 then _ else _).
  pose proof (view_loop_spec revocations (snd v) [] (NoDup_nil_2)) as Hv. pose proof (view_loop_spec revocations (snd v') [] (NoDup_nil_2)) as Hv'.
  destruct (view_loop revocations (snd v') []) as [keys'|]; [|apply state_rank_range].
  destruct Hv' as (Hnd' & Hno' & Hin'). destruct (view_loop revocations (snd v) []) as [keys|].
  2:{ destruct Hv as (x & Hx & Hc & Hz). by destruct (Hno' x (Hrem x Hx) Hc). }
  destruct Hv as (Hnd & Hno & Hin).
  assert (zlen keys <= zlen keys') as Hlen.
  { unfold zlen. apply Nat2Z.inj_le, submseteq_length, NoDup_submseteq; [done|]. intros key. rewrite Hin, Hin'.
    intros [?|(x & H1 & H2 & H3)]; [by left|right; exists x; auto]. }
  rewrite !Z.geb_leb, !Z.gtb_ltb. destruct (Z.leb_spec k' (zlen keys')); [apply state_rank_range|].
  destruct (Z.leb_spec k' (zlen keys)); [lia|]. destruct (Z.ltb_spec 0 (zlen keys')).
  - destruct (0 <? zlen keys); [done|]. by destruct (match fst v with None => false | Some _ => _ end).
  - destruct (Z.ltb_spec 0 (zlen keys)); [lia|]. destruct (fst v) as [[[q w] act]|] eqn:E; [|apply state_rank_range].
    rewrite (Hadd _ eq_refl). by destruct (counts w act revocations).
Qed.

Lemma judge_same v v' revocations k : within v v' -> within v' v -> judge_view v revocations k = judge_view v' revocations k.
Proof. intros H H'. apply state_rank_inj. pose proof (judge_grows v v' revocations k H). pose proof (judge_grows v' v revocations k H'). lia. Qed.

(** ** The tables *)

Definition rkey_of (e : fzn_roster_entry) : bytes * bytes := (re_subject e, re_incarnation e).

Record roster_ok (r : fzn_roster) : Prop := {
  rk_keys : NoDup (rkey_of <$> ro_entries r);
  rk_writers : NoDup (ro_writers r);
  rk_lens : Forall (fun w => zlen (rw_key w) = FZN_PUBKEY_LEN) (ro_writers r);
  rk_known : forall e, e ∈ ro_entries r -> (re_added e = true -> (re_add_writer e < length (ro_writers r))%nat) /\
      Forall (fun p => (fst p < length (ro_writers r))%nat) (re_removers e) /\ NoDup (fst <$> re_removers e)
}.

Lemma is_of_true subject incarnation e : is_of subject incarnation e = true <-> rkey_of e = (subject, incarnation).
Proof. unfold is_of, rkey_of. rewrite andb_true_iff, !memeq_true. split; [by intros [-> ->]|by intros [= -> ->]]. Qed.

Lemma view_more ws more e : (re_added e = true -> (re_add_writer e < length ws)%nat) ->
  Forall (fun p => (fst p < length ws)%nat) (re_removers e) -> view_in (ws ++ more) e = view_in ws e.
Proof.
  intros Ha Hr. unfold view_in. f_equal.
  - destruct (re_added e); [|done]. by rewrite lookup_app_l by auto.
  - induction Hr as [|[i act] rem Hi _ IH]; [done|]. cbn [fst] in Hi.
    assert (removal_in (ws ++ more) (i, act) = removal_in ws (i, act)) as E by (unfold removal_in; cbn [fst snd]; by rewrite lookup_app_l).
    cbn [omap list_omap]. by rewrite E, IH.
Qed.

(** The entry of a key is the one that is found. *)
Lemma find_at r i e : roster_ok r -> ro_entries r !! i = Some e -> find r (re_subject e) (re_incarnation e) = Some i.
Proof.
  intros Hr Hi. apply find_index_Some. exists e. split_and!; [done|by apply is_of_true|]. intros j y Hj Hlt.
  destruct (is_of _ _ y) eqn:E; [|done]. apply is_of_true in E. exfalso. cut (j = i); [lia|].
  apply (list.NoDup_lookup (rkey_of <$> ro_entries r) j i (rkey_of e)); [apply Hr| |]; rewrite list_lookup_fmap; [by rewrite Hj; cbn; rewrite E|by rewrite Hi].
Qed.

Lemma find_found r subject incarnation i : find r subject incarnation = Some i ->
  exists e, ro_entries r !! i = Some e /\ rkey_of e = (subject, incarnation).
Proof. intros (e & He & Hk & _)%find_index_Some. exists e. by rewrite is_of_true in Hk. Qed.

Lemma find_none r subject incarnation : find r subject incarnation = None ->
  forall e, e ∈ ro_entries r -> rkey_of e <> (subject, incarnation).
Proof.
  intros H e [i Hi]%list_elem_of_lookup. unfold find in H. rewrite find_index_None in H. rewrite <- is_of_true. by rewrite (H i e Hi).
Qed.

Lemma view_at r e : roster_ok r -> e ∈ ro_entries r -> view_of r (re_subject e) (re_incarnation e) = view_in (ro_writers r) e.
Proof. intros Hr [i Hi]%list_elem_of_lookup. unfold view_of. rewrite (find_at r i e Hr Hi). cbn [mbind option_bind]. by rewrite Hi. Qed.

Lemma view_absent r subject incarnation : (forall e, e ∈ ro_entries r -> rkey_of e <> (subject, incarnation)) ->
  view_of r subject incarnation = (None, []).
Proof.
  intros H. unfold view_of. destruct (find r subject incarnation) as [i|] eqn:E; [|done].
  apply find_found in E as (e & He & Hk). by destruct (H e); [apply list_elem_of_lookup_2 in He|].
Qed.

(** ** An admission *)

Lemma intern_spec r key hops capability hash acts r' o : roster_ok r -> zlen key = FZN_PUBKEY_LEN -> hop_acts hash hops = Some acts ->
  intern_writer r key hops capability hash = (r', o) ->
  roster_ok r' /\ ro_entries r' = ro_entries r /\ (forall s i, view_of r' s i = view_of r s i) /\ (o = None -> r' = r) /\
  forall iw, o = Some iw -> ro_writers r' !! iw = Some (writer_of key hops capability acts).
Proof.
  intros Hr Hkey Ha. unfold intern_writer. rewrite Ha. set (w := writer_of key hops capability acts).
  destruct (find_index _ (ro_writers r)) as [iw|] eqn:Ef.
  { intros [= <- <-]. split_and!; try done. intros ? [= <-]. apply find_index_Some in Ef as (x & Hx & E%bool_decide_eq_true & _). by rewrite Hx, E. }
  destruct (_ >=? _); intros [= <- <-]; [by split_and!|].
  assert (w ∉ ro_writers r) as Hw.
  { intros [j Hj]%list_elem_of_lookup. rewrite find_index_None in Ef. specialize (Ef j w Hj). by rewrite bool_decide_eq_false in Ef. }
  assert (forall e, e ∈ ro_entries r -> view_in (ro_writers r ++ [w]) e = view_in (ro_writers r) e) as Hv.
  { intros e He. destruct (rk_known r Hr e He) as (H1 & H2 & _). by apply view_more. }
  split_and!.
  - split; cbn [ro_entries ro_writers]; [apply Hr| | |].
    + apply list.NoDup_app. split_and!; [apply Hr| |apply list.NoDup_singleton]. by intros x Hx ->%list_elem_of_singleton; apply Hw.
    + apply Forall_app. split; [apply Hr|]. by constructor.
    + intros e He. destruct (rk_known r Hr e He) as (H1 & H2 & H3). rewrite length_app. split_and!; [intros H; specialize (H1 H); cbn; lia| |done].
      eapply list.Forall_impl; [exact H2|]. cbn. lia.
  - done.
  - intros s i. unfold view_of, find. cbn [ro_entries ro_writers]. destruct (_ ≫= _) as [e|] eqn:E; [|done]. apply Hv.
    apply bind_Some in E as (j & _ & E). by apply list_elem_of_lookup_2 in E.
  - done.
  - intros iw [= <-]. cbn [ro_writers]. by rewrite list_lookup_middle.
Qed.

Lemma entry_spec r rec r' i : roster_ok r ->
  entry_of r rec (find r (fzn_roster_subject rec) (fzn_roster_incarnation rec)) = Some (r', i) ->
  roster_ok r' /\ ro_writers r' = ro_writers r /\ (forall s i, view_of r' s i = view_of r s i) /\
  exists e, ro_entries r' !! i = Some e /\ rkey_of e = (fzn_roster_subject rec, fzn_roster_incarnation rec).
Proof.
  intros Hr. unfold entry_of. destruct (find r _ _) as [j|] eqn:Ef.
  { intros [= <- <-]. split_and!; try done. by apply find_found. }
  destruct (_ >=? _); [done|]. intros [= <- <-]. pose proof (find_none _ _ _ Ef) as Hnone.
  set (e0 := fresh_entry _ _). set (r' := with_entries _ _).
  assert (roster_ok r') as Hr'.
  { split; unfold r'; cbn [with_entries ro_entries ro_writers]; [|apply Hr|apply Hr|].
    - rewrite fmap_app. apply list.NoDup_app. split_and!; [apply Hr| |apply list.NoDup_singleton].
      intros k Hk1 Hk2. apply list_elem_of_singleton in Hk2 as ->. apply list_elem_of_fmap in Hk1 as (e & Hk & He).
      by apply (Hnone e He).
    - intros e [He| ->%list_elem_of_singleton]%elem_of_app; [by apply Hr|]. by split_and!; [|constructor|constructor]. }
  split_and!; [done|done| |].
  - intros s k. destruct (decide ((s, k) ∈ (rkey_of <$> ro_entries r'))) as [He|Hno]; [apply list_elem_of_fmap in He as (e & [= -> ->] & He)|].
    + rewrite (view_at r' e Hr' He). apply elem_of_app in He as [He| ->%list_elem_of_singleton]; [by rewrite (view_at r e Hr He)|].
      symmetry. apply view_absent. exact Hnone.
    + rewrite !view_absent; [done| |].
      * intros e He E. apply Hno, list_elem_of_fmap. exists e. split; [done|apply elem_of_app; by left].
      * intros e He E. apply Hno, list_elem_of_fmap. by exists e.
  - exists e0. split; [|done]. unfold r'. cbn [with_entries ro_entries]. by rewrite list_lookup_middle.
Qed.

(** The removers of an entry are those of its view. *)
Lemma removers_view ws (rem : list (nat * bytes)) (iw : nat) w : NoDup ws -> ws !! iw = Some w ->
  Forall (fun p => (fst p < length ws)%nat) rem -> iw ∈ (fst <$> rem) <-> w ∈ (fst <$> omap (removal_in ws) rem).
Proof.
  intros Hws Hw Hrem. induction Hrem as [|[j act] rem Hj _ IH]; [by rewrite !elem_of_nil|].
  cbn [fst] in Hj. apply lookup_lt_is_Some in Hj as [x Hx].
  assert (omap (removal_in ws) ((j, act) :: rem) = (x, act) :: omap (removal_in ws) rem) as -> by (cbn; unfold removal_in at 1; cbn; by rewrite Hx).
  rewrite !fmap_cons, !elem_of_cons, IH. cbn [fst]. split; (intros [E|?]; [left|by right]).
  - subst j. congruence.
  - subst x. by apply (list.NoDup_lookup ws iw j w).
Qed.

Lemma existsb_fst iw (rem : list (nat * bytes)) : existsb (fun p => bool_decide (fst p = iw)) rem = bool_decide (iw ∈ (fst <$> rem)).
Proof.
  induction rem as [|[j act] rem IH]; [done|]. cbn [existsb fst]. rewrite IH, fmap_cons. cbn [fst].
  destruct (bool_decide (iw ∈ j :: (fst <$> rem))) eqn:E.
  - apply bool_decide_eq_true, elem_of_cons in E as [-> |E]; [by rewrite bool_decide_true|].
    rewrite orb_true_iff. right. by apply bool_decide_eq_true.
  - apply bool_decide_eq_false in E. rewrite elem_of_cons in E. rewrite !bool_decide_false by naive_solver. done.
Qed.

(** A row rewritten in place, its key and its writers kept. *)
Lemma rewrite_spec r i e e' q : roster_ok r -> ro_entries r !! i = Some e -> rkey_of e' = rkey_of e ->
  (re_added e' = true -> (re_add_writer e' < length (ro_writers r))%nat) ->
  Forall (fun p => (fst p < length (ro_writers r))%nat) (re_removers e') -> NoDup (fst <$> re_removers e') ->
  let r' := see_seq (with_entries r (<[i := e']> (ro_entries r))) q in
  roster_ok r' /\ view_of r' (re_subject e) (re_incarnation e) = view_in (ro_writers r) e' /\
  forall s k, (s, k) <> rkey_of e -> view_of r' s k = view_of r s k.
Proof.
  intros Hr Hi Hk H1 H2 H3 r'.
  assert (rkey_of <$> ro_entries r' = rkey_of <$> ro_entries r) as Hkeys.
  { unfold r'. cbn [see_seq with_entries ro_entries]. rewrite list_fmap_insert, Hk. apply list_insert_id. by rewrite list_lookup_fmap, Hi. }
  assert (roster_ok r') as Hr'.
  { split; [rewrite Hkeys; apply Hr|apply Hr|apply Hr|]. unfold r'. cbn [see_seq with_entries ro_entries ro_writers].
    intros x [j Hj]%list_elem_of_lookup.
    apply list_lookup_insert_Some in Hj as [(_ & <- & _)|[_ Hj]]; [done|]. apply list_elem_of_lookup_2 in Hj. by apply Hr. }
  assert (ro_entries r' !! i = Some e') as Hi'.
  { unfold r'. cbn [see_seq with_entries ro_entries]. apply list_lookup_insert_eq. by eapply lookup_lt_Some. }
  split_and!; [done| |].
  - unfold rkey_of in Hk. injection Hk as <- <-. apply (view_at r' e' Hr'). by apply list_elem_of_lookup_2 in Hi'.
  - intros s k Hne. destruct (decide ((s, k) ∈ (rkey_of <$> ro_entries r))) as [Hin|Hno].
    + apply list_elem_of_fmap in Hin as (x & E & Hx). apply list_elem_of_lookup in Hx as [j Hj].
      assert (j <> i) as Hji by (intros ->; congruence).
      assert (ro_entries r' !! j = Some x) as Hj'.
      { unfold r'. cbn [see_seq with_entries ro_entries]. by rewrite list_lookup_insert_ne. }
      injection E as -> ->. rewrite (view_at r x), (view_at r' x); [done|done| |done|]; eapply list_elem_of_lookup_2; eassumption.
    + rewrite !view_absent; [done| |]; intros x Hx E; apply Hno; [|rewrite <- Hkeys]; apply list_elem_of_fmap; by exists x.
Qed.

(** An operation: a record, its writer's chain and the authority it is checked
    against. *)
Record roster_op := mk_rop { rop_record : bytes; rop_hops : list fzn_chain_hop; rop_authority : fzn_roster_authority }.

Definition roster_step (r : fzn_roster) (op : roster_op) : fzn_roster_err * fzn_roster :=
  fzn_roster_admit r (rop_record op) (rop_hops op) (rop_authority op).

Definition roster_run (r : fzn_roster) (ops : list roster_op) : fzn_roster := foldl (fun r op => snd (roster_step r op)) r ops.

Record statement := mk_statement {
  st_add : bool;
  st_subject : bytes;
  st_incarnation : bytes;
  st_seq : Z;
  st_writer : fzn_roster_writer;
  st_act : bytes }.

(** What an operation says, where it is of the right shape, signed by its
    writer, and the writer has standing; the roster is not asked. *)
Definition said (op : roster_op) : option statement :=
  let a := rop_authority op in
  match verify (ra_sign a) with
  | None => None
  | Some verify =>
    if negb (is_null (ra_roots a)) && is_null (ra_hash a) then None
    else match fzn_roster_open (rop_record op) with
    | (FZN_ROSTER_OK, Some rec) =>
      if negb (verify (fzn_roster_writer_of rec) (slice 0 (zlen rec - FZN_SIG_LEN) rec) (slice (zlen rec - FZN_SIG_LEN) FZN_SIG_LEN rec)) then None
      else if fzn_roster_object rec =? FZN_OBJECT_ROSTER_SET then None
      else if negb (has_standing (fzn_roster_writer_of rec) (rop_hops op) a) then None
      else match act_of (ra_hash a) rec, hop_acts (ra_hash a) (rop_hops op) with
      | Some act, Some acts =>
        Some (mk_statement (fzn_roster_object rec =? FZN_OBJECT_ROSTER_ADD) (fzn_roster_subject rec) (fzn_roster_incarnation rec)
                (fzn_roster_seq rec) (writer_of (fzn_roster_writer_of rec) (rop_hops op) (ra_capability a) acts) act)
      | _, _ => None
      end
    | _ => None
    end
  end.

(** What a statement makes of a view, and the answer. *)
Definition told (m : statement) (v : view) (err : fzn_roster_err) (v' : view) : Prop :=
  if st_add m then
    match fst v with
    | Some (q, w, _) => v' = v /\ err = (if (q =? st_seq m) && memeq (rw_key w) (rw_key (st_writer m)) then FZN_ROSTER_OK else FZN_ROSTER_ERR_CONFLICT)
    | None => (err = FZN_ROSTER_ERR_FULL /\ v' = v) \/ (err = FZN_ROSTER_OK /\ v' = (Some (st_seq m, st_writer m, st_act m), snd v))
    end
  else (err = FZN_ROSTER_ERR_FULL /\ v' = v) \/
    (err = FZN_ROSTER_OK /\ ((st_writer m ∈ (fst <$> snd v) /\ v' = v) \/
       (st_writer m ∉ (fst <$> snd v) /\ v' = (fst v, snd v ++ [(st_writer m, st_act m)])))).

Lemma say_spec ws e rec iw w act e' : NoDup ws -> ws !! iw = Some w -> (re_added e = true -> (re_add_writer e < length ws)%nat) ->
  Forall (fun p => (fst p < length ws)%nat) (re_removers e) -> NoDup (fst <$> re_removers e) ->
  ((fzn_roster_object rec =? FZN_OBJECT_ROSTER_ADD) && re_added e) = false -> say e rec iw act = Some e' ->
  rkey_of e' = rkey_of e /\ (re_added e' = true -> (re_add_writer e' < length ws)%nat) /\
  Forall (fun p => (fst p < length ws)%nat) (re_removers e') /\ NoDup (fst <$> re_removers e') /\
  forall s k, told (mk_statement (fzn_roster_object rec =? FZN_OBJECT_ROSTER_ADD) s k (fzn_roster_seq rec) w act) (view_in ws e) FZN_ROSTER_OK (view_in ws e').
Proof.
  intros Hws Hw Ha Hrem Hnd Hna Hsay. pose proof (lookup_lt_Some _ _ _ Hw) as Hlt. unfold say in Hsay. unfold told. cbn [st_add st_seq st_writer st_act].
  destruct (fzn_roster_object rec =? FZN_OBJECT_ROSTER_ADD).
  - injection Hsay as <-. cbn in Hna. split_and!; try done. intros s k. cbn [view_in fst snd re_added re_add_seq re_add_writer re_add_act re_removers].
    rewrite Hna. right. unfold view_in. cbn [re_added re_add_seq re_add_writer re_add_act re_removers]. by rewrite Hw.
  - rewrite existsb_fst in Hsay. case_bool_decide as Hin.
    + injection Hsay as <-. split_and!; try done. intros s k. right. split; [done|]. left. split; [|done]. by apply (removers_view ws (re_removers e) iw w).
    + destruct (_ >=? _); [done|]. injection Hsay as <-. cbn [re_added re_add_writer re_removers]. split_and!; try done.
      * apply Forall_app. split; [done|]. by constructor.
      * rewrite fmap_app. apply list.NoDup_app. split_and!; [done| |apply list.NoDup_singleton]. by intros x Hx ->%list_elem_of_singleton.
      * intros s k. right. split; [done|]. right. rewrite <- (removers_view ws (re_removers e) iw w) by done. split; [done|].
        unfold view_in. cbn [fst snd re_added re_add_seq re_add_writer re_add_act re_removers]. f_equal. rewrite omap_app. f_equal.
        assert (removal_in ws (iw, act) = Some (w, act)) as E by (unfold removal_in; cbn [fst snd]; by rewrite Hw). cbn. by rewrite E.
Qed.

Lemma record_in_spec r rec hops a acts act err r' : roster_ok r -> zlen (fzn_roster_writer_of rec) = FZN_PUBKEY_LEN -> hop_acts (ra_hash a) hops = Some acts ->
  let s := fzn_roster_subject rec in let k := fzn_roster_incarnation rec in
  let entry := find r s k in
  held_add r (fzn_roster_object rec) entry = None -> record_in r rec hops a entry act = (err, r') ->
  roster_ok r' /\
  told (mk_statement (fzn_roster_object rec =? FZN_OBJECT_ROSTER_ADD) s k (fzn_roster_seq rec)
    (writer_of (fzn_roster_writer_of rec) hops (ra_capability a) acts) act) (view_of r s k) err (view_of r' s k) /\
  forall s' k', (s', k') <> (s, k) -> view_of r' s' k' = view_of r s' k'.
Proof.
  intros Hr Hkey Ha s k entry Hadd. set (m := mk_statement _ _ _ _ _ _). unfold record_in.
  assert (forall r1, roster_ok r1 -> (forall s k, view_of r1 s k = view_of r s k) -> (st_add m = true -> fst (view_of r s k) = None) ->
    roster_ok r1 /\ told m (view_of r s k) FZN_ROSTER_ERR_FULL (view_of r1 s k) /\ forall s' k', (s', k') <> (s, k) -> view_of r1 s' k' = view_of r s' k') as Hfull.
  { intros r1 Hr1 Hv Hnone. split_and!; [done| |auto]. unfold told. rewrite Hv. destruct (st_add m); [rewrite Hnone by done|]; by left. }
  assert (st_add m = true -> fst (view_of r s k) = None) as Hnone.
  { intros Hm. cbn [m st_add] in Hm. unfold held_add in Hadd. rewrite Hm in Hadd. unfold view_of. fold entry.
    destruct (entry ≫= _) as [e|]; [|done]. cbn [andb] in Hadd. cbn [view_in fst]. by destruct (re_added e). }
  destruct (intern_writer _ _ _ _ _) as [r1 o] eqn:E1.
  destruct (intern_spec _ _ _ _ _ _ _ _ Hr Hkey Ha E1) as (Hr1 & He1 & Hv1 & _ & Hw).
  destruct o as [w|]; [|intros [= <- <-]; by apply Hfull]. specialize (Hw w eq_refl).
  assert (entry = find r1 s k) as Hfind by (unfold entry, find; by rewrite He1). rewrite Hfind.
  destruct (entry_of r1 rec (find r1 s k)) as [[r2 i]|] eqn:E2; [|intros [= <- <-]; by apply Hfull].
  destruct (entry_spec _ _ _ _ Hr1 E2) as (Hr2 & Hw2 & Hv2 & e & Hi & Hk). rewrite Hi. cbn [mbind option_bind].
  assert (forall s k, view_of r2 s k = view_of r s k) as Hv by (intros; by rewrite Hv2).
  destruct (say e rec w act) as [e'|] eqn:E3; [|intros [= <- <-]; by apply Hfull]. intros [= <- <-].
  pose proof Hi as Hin. apply list_elem_of_lookup_2 in Hin. destruct (rk_known r2 Hr2 e Hin) as (H1 & H2 & H3). rewrite <- Hw2 in Hw.
  pose proof (view_at r2 e Hr2 Hin) as Hve. unfold rkey_of in Hk. injection Hk as Hks Hkk. rewrite Hks, Hkk in Hve. fold s k in Hve.
  destruct (say_spec (ro_writers r2) e rec w _ act e' (rk_writers r2 Hr2) Hw H1 H2 H3) as (H4 & H5 & H6 & H7 & H8); [|done|].
  { destruct (fzn_roster_object rec =? FZN_OBJECT_ROSTER_ADD) eqn:Eo; [|done]. specialize (Hnone eq_refl). rewrite <- Hv, Hve in Hnone. cbn [view_in fst] in Hnone.
    destruct (re_added e); [|done]. destruct (lookup_lt_is_Some_2 (ro_writers r2) (re_add_writer e) (H1 eq_refl)) as [x Hx]. by rewrite Hx in Hnone. }
  destruct (rewrite_spec r2 i e e' (fzn_roster_seq rec) Hr2 Hi H4 H5 H6 H7) as (Hr3 & Hv3 & Hother). split_and!; [done| |].
  - rewrite Hks, Hkk in Hv3. fold s k in Hv3. rewrite Hv3, <- Hv, Hve. apply H8.
  - intros s' k' Hne. rewrite Hother by (unfold rkey_of; by rewrite Hks, Hkk). apply Hv.
Qed.

(** A record with a hop that no hash answers for is not taken. *)
Lemma record_in_nothing r rec hops a entry act : hop_acts (ra_hash a) hops = None -> snd (record_in r rec hops a entry act) = r.
Proof. intros H. unfold record_in, intern_writer. by rewrite H. Qed.

Lemma opened_key b rec : fzn_roster_open b = (FZN_ROSTER_OK, Some rec) -> zlen (fzn_roster_writer_of rec) = FZN_PUBKEY_LEN.
Proof.
  unfold fzn_roster_open. destruct (Z.ltb_spec (zlen b) FZN_ROSTER_MIN_LEN) as [|Hlen]; [done|]. destruct (_ >? _); [done|]. cbn [orb].
  destruct (_ || _ || _ || _ || _); [done|]. destruct (_ && _); [done|]. intros [= <-]. change FZN_ROSTER_MIN_LEN with 157 in Hlen.
  unfold fzn_roster_writer_of. change FZN_ROSTER_OFF_WRITER with 2. change FZN_PUBKEY_LEN with 32. apply zlen_slice; lia.
Qed.

(** An admission says of one incarnation what the record says, or nothing. *)
Lemma admission_spec r op err r' : roster_ok r -> roster_step r op = (err, r') ->
  roster_ok r' /\
  match said op with
  | None => forall s k, view_of r' s k = view_of r s k
  | Some m => told m (view_of r (st_subject m) (st_incarnation m)) err (view_of r' (st_subject m) (st_incarnation m)) /\
      forall s k, (s, k) <> (st_subject m, st_incarnation m) -> view_of r' s k = view_of r s k
  end.
Proof.
  intros Hr. unfold roster_step, fzn_roster_admit, apply, said. set (a := rop_authority op).
  destruct (verify (ra_sign a)) as [vf|]; [|by intros [= <- <-]]. destruct (_ && _); [by intros [= <- <-]|].
  destruct (fzn_roster_open (rop_record op)) as [[] [rec|]] eqn:Eopen; try by intros [= <- <-].
  apply opened_key in Eopen as Hkey.
  destruct (negb (vf _ _ _)); [by intros [= <- <-]|]. destruct (_ =? FZN_OBJECT_ROSTER_SET); [by intros [= <- <-]|].
  destruct (negb (has_standing _ _ _)); [by intros [= <- <-]|]. set (s := fzn_roster_subject rec). set (k := fzn_roster_incarnation rec).
  destruct (held_add r (fzn_roster_object rec) (find r s k)) as [e|] eqn:Eh.
  - intros H. assert (r' = r) as -> by (destruct (_ && _); congruence). split; [done|].
    destruct (act_of _ _) as [act|]; [|done]. destruct (hop_acts _ _) as [acts|]; [|done]. split; [|done]. cbn [st_subject st_incarnation].
    unfold held_add in Eh. destruct (find r s k ≫= _) as [e'|] eqn:Ef; [|done]. destruct (_ && re_added e') eqn:Ea; [|done]. injection Eh as ->.
    apply andb_true_iff in Ea as [Eo Ea]. unfold told. cbn [st_add st_seq st_writer]. rewrite Eo.
    assert (e ∈ ro_entries r) as Hin by (apply bind_Some in Ef as (i & _ & Hi); by apply list_elem_of_lookup_2 in Hi).
    destruct (rk_known r Hr e Hin) as (H1 & _ & _). destruct (lookup_lt_is_Some_2 (ro_writers r) (re_add_writer e) (H1 Ea)) as [x Hx].
    unfold view_of. rewrite Ef. cbn [view_in fst]. rewrite Ea, Hx. cbn [fmap option_fmap option_map]. split; [done|].
    unfold add_key in H. rewrite Hx in H. cbn [fmap option_fmap option_map default] in H. cbn [rw_key writer_of].
    destruct (_ && _); congruence.
  - destruct (act_of (ra_hash a) rec) as [act|]; [|by intros [= <- <-]].
    destruct (hop_acts (ra_hash a) (rop_hops op)) as [acts|] eqn:Ea.
    + intros H. by apply (record_in_spec r rec (rop_hops op) a acts act err r' Hr Hkey Ea Eh) in H.
    + intros H. pose proof (record_in_nothing r rec (rop_hops op) a (find r s k) act Ea) as Hn. rewrite H in Hn. cbn in Hn. by subst r'.
Qed.

(** ** Bundles *)

Lemma pack_blits hops : forall at_ out, Forall hop_ok hops ->
  pack_hops hops at_ out = (blits at_ hops out, at_ + 179 * zlen hops).
Proof.
  induction hops as [|h hops IH]; intros at_ out Hh; [cbn [pack_hops blits]; change (zlen []) with 0; by rewrite Z.mul_0_r, Z.add_0_r|]. apply Forall_cons_iff in Hh as [Hh Hhs].
  cbn [pack_hops blits]. rewrite IH, (hop_ok_len h Hh), zlen_cons by done. change FZN_HOP_LEN with 179. apply f_equal2; [done|lia].
Qed.

Lemma open_packed hops : forall pre post, Forall hop_ok hops ->
  open_hops (pre ++ concat hops ++ post) (zlen pre) (length hops) = Some hops.
Proof.
  induction hops as [|h hops IH]; intros pre post Hh; [done|]. apply Forall_cons_iff in Hh as [Hh Hhs]. cbn [concat open_hops length].
  pose proof (hop_ok_len h Hh) as Hl. rewrite <- !app_assoc, slice_mid by done. rewrite Hh.
  rewrite (app_assoc pre h). replace (zlen pre + FZN_HOP_LEN) with (zlen (pre ++ h)) by (rewrite zlen_app, Hl; done).
  by rewrite IH.
Qed.

(** A bundle opens to the record and the hops it was packed of. *)
Theorem packed_bundles_open record hops out : fzn_roster_open record = (FZN_ROSTER_OK, Some record) -> Forall hop_ok hops ->
  zlen hops <= FZN_CHAIN_MAX_HOPS -> FZN_ROSTER_BUNDLE_LEN (zlen record) (zlen hops) <= zlen out ->
  exists out', fzn_roster_bundle_pack record hops out = (FZN_ROSTER_OK, out', Some (FZN_ROSTER_BUNDLE_LEN (zlen record) (zlen hops))) /\
    fzn_roster_bundle_open (slice 0 (FZN_ROSTER_BUNDLE_LEN (zlen record) (zlen hops)) out') = (FZN_ROSTER_OK, Some (mk_bundle record hops)).
Proof.
  intros Ho Hh Hn Hout. set (n := FZN_ROSTER_BUNDLE_LEN _ _) in *. pose proof (zlen_nonneg hops).
  assert (157 <= zlen record <= 349) as Hrec.
  { unfold fzn_roster_open in Ho. destruct (_ || _) eqn:E; [done|]. apply orb_false_iff in E as [E1 E2].
    change FZN_ROSTER_MIN_LEN with 157 in E1. change FZN_ROSTER_MAX_LEN with 349 in E2. lia. }
  set (head := [[zlen hops]; [Z.shiftr (zlen record) 8]; [Z.land (zlen record) 255]; record]).
  assert (u8 (zlen hops) = zlen hops /\ u8 (Z.shiftr (zlen record) 8) = Z.shiftr (zlen record) 8 /\ u8 (Z.land (zlen record) 255) = Z.land (zlen record) 255 /\
    Z.lor (Z.shiftl (Z.shiftr (zlen record) 8) 8) (Z.land (zlen record) 255) = zlen record) as (U1 & U2 & U3 & U4).
  { change FZN_CHAIN_MAX_HOPS with 8 in Hn. change 255 with (Z.ones 8). rewrite Z.land_ones, Z.shiftr_div_pow2 by lia.
    rewrite Z.shiftl_mul_pow2, lor_add by (try apply Z.mod_pos_bound; lia). change (2 ^ 8) with 256.
    rewrite !u8_small by (unfold in_u8; dlia). split_and!; try done. dlia. }
  assert (n = 3 + zlen record + 179 * zlen hops) as En by (unfold n, FZN_ROSTER_BUNDLE_LEN; change FZN_HOP_LEN with 179; change FZN_ROSTER_BUNDLE_HEAD_LEN with 3; lia).
  assert (zlen (concat head) = 3 + zlen record) as Hhead by (unfold head; cbn [concat app]; rewrite !zlen_cons, app_nil_r; lia).
  assert (zlen (concat head ++ concat hops) = n) as Hlen by (rewrite zlen_app, (zlen_concat_hops hops Hh); lia).
  exists (concat head ++ concat hops ++ drop (length (concat head ++ concat hops)) out). split.
  - unfold fzn_roster_bundle_pack. rewrite Ho. cbn [fst]. rewrite bool_decide_true by done. rewrite Z.gtb_ltb.
    destruct (Z.ltb_spec FZN_CHAIN_MAX_HOPS (zlen hops)); [lia|]. cbn [orb negb]. fold n. destruct (Z.ltb_spec (zlen out) n); [lia|].
    unfold poke. rewrite U1, U2, U3. rewrite pack_blits by done. change FZN_ROSTER_BUNDLE_HEAD_LEN with 3.
    pose proof (blits_start (head ++ hops) out) as Hb. rewrite blits_app, concat_app, <- app_assoc in Hb. unfold head at 2 in Hb. cbn [blits] in Hb.
    rewrite Hhead in Hb.
    rewrite <- Hb. do 2 f_equal. lia.
  - rewrite (app_assoc (concat head)), slice_front by done. unfold fzn_roster_bundle_open. rewrite Hlen. change FZN_ROSTER_BUNDLE_HEAD_LEN with 3.
    destruct (Z.ltb_spec n 3); [lia|].
    assert (forall i f off m, head !! i = Some f -> zlen (concat (take i head)) = off -> zlen f = m -> slice off m (concat head ++ concat hops) = f) as R.
    { intros i f off m Hi Hoff Hm. rewrite <- concat_app. apply (slice_field (head ++ hops) i); [by apply lookup_app_l_Some| |done].
      rewrite take_app_le by (apply lookup_lt_Some in Hi; lia). done. }
    rewrite (peek_of _ 0 (zlen hops)), (peek_of _ 1 (Z.shiftr (zlen record) 8)), (peek_of _ 2 (Z.land (zlen record) 255));
      [|lia|by apply (R 2%nat)|lia|by apply (R 1%nat)|lia|by apply (R 0%nat)].
    rewrite U4. change FZN_ROSTER_MIN_LEN with 157. change FZN_ROSTER_MAX_LEN with 349. rewrite !Z.gtb_ltb. fold n.
    destruct (Z.ltb_spec FZN_CHAIN_MAX_HOPS (zlen hops)); [lia|]. destruct (Z.ltb_spec (zlen record) 157); [lia|].
    destruct (Z.ltb_spec 349 (zlen record)); [lia|]. rewrite Z.eqb_refl. cbn [orb negb]. rewrite (R 3%nat record) by done. rewrite Ho.
    replace (3 + zlen record) with (zlen (concat head)) by done.
    assert (Z.to_nat (zlen hops) = length hops) as -> by (unfold zlen; by rewrite Nat2Z.id).
    pose proof (open_packed hops (concat head) [] Hh) as E. rewrite app_nil_r in E. by rewrite E.
Qed.

(** ** Records issued *)

Definition roster_fields (object : Z) (writer subject incarnation : bytes) (seq setting : Z) (body : bytes) : list bytes :=
  [[1]; [object]; writer; subject; incarnation; be64 seq; [Z.shiftr setting 8]; [Z.land setting 255]; [zlen body]; body].

(** What a host signs as an add, a removal or a setting is a record that opens
    to what it said. *)
Theorem minted_records_open ops sg object writer subject incarnation seq setting body sig out :
  sign ops = Some sg -> is_roster_object object = true -> zlen writer = 32 -> zlen subject = 32 -> zlen incarnation = 16 ->
  all_zero incarnation = false -> in_u64 seq -> in_u16 setting -> zlen body <= FZN_ROSTER_BODY_MAX ->
  (object <> FZN_OBJECT_ROSTER_SET -> body = [] /\ setting = 0) -> FZN_ROSTER_LEN (zlen body) <= zlen out ->
  let signed := concat (roster_fields object writer subject incarnation seq setting body) in
  let rec := signed ++ sig in
  sg signed = Some sig -> zlen sig = 64 ->
  exists out', mint object writer subject incarnation seq setting body (Some ops) out = (FZN_ROSTER_OK, out', Some (FZN_ROSTER_LEN (zlen body))) /\
    slice 0 (FZN_ROSTER_LEN (zlen body)) out' = rec /\ fzn_roster_open rec = (FZN_ROSTER_OK, Some rec) /\
    fzn_roster_object rec = object /\ fzn_roster_writer_of rec = writer /\ fzn_roster_subject rec = subject /\
    fzn_roster_incarnation rec = incarnation /\ fzn_roster_seq rec = seq.
Proof.
  intros Hsg Hobj Hw Hs Hi Hz Hq Hset Hbody Hplain Hout signed rec Hsign Hsig. set (fs := roster_fields _ _ _ _ _ _ _) in *.
  pose proof (zlen_nonneg body). change FZN_ROSTER_BODY_MAX with 192 in *.
  assert (forall n, FZN_ROSTER_LEN n = 157 + n) as L by (intros n; unfold FZN_ROSTER_LEN; change FZN_ROSTER_HEADER_LEN with 93; change FZN_SIG_LEN with 64; lia).
  rewrite L in *.
  assert (zlen signed = 93 + zlen body) as Hlen.
  { unfold signed, fs, roster_fields. cbn [concat]. rewrite app_nil_r, !zlen_app, zlen_be64, Hw, Hs, Hi, !zlen_1. lia. }
  assert (135 <= object <= 137) as Ho.
  { unfold is_roster_object, FZN_OBJECT_ROSTER_ADD, FZN_OBJECT_ROSTER_REMOVE, FZN_OBJECT_ROSTER_SET in Hobj. lia. }
  assert (u8 (Z.shiftr setting 8) = Z.shiftr setting 8 /\ u8 (Z.land setting 255) = Z.land setting 255) as [U1 U2].
  { change 255 with (Z.ones 8). rewrite Z.land_ones, Z.shiftr_div_pow2 by lia. change (2 ^ 8) with 256. rewrite !u8_small by (unfold in_u8; dlia). done. }
  assert (roster_write object writer subject incarnation seq setting body out = signed ++ drop (length signed) out) as Hwrite.
  { pose proof (blits_start fs out) as Hb. fold signed in Hb. rewrite <- Hb. unfold fs, roster_fields. cbn [blits].
    rewrite !zlen_1, zlen_be64, Hw, Hs, Hi. unfold roster_write, poke. rewrite U1, U2, !u8_small by ulia. reflexivity. }
  assert (forall n f, fs !! n = Some f -> zlen (concat (take n fs)) = foldr Z.add 0 (take n [1; 1; 32; 32; 16; 8; 1; 1; 1])) as T.
  { intros n f Hn. do 10 (destruct n as [|n]; [unfold fs, roster_fields; cbn [take concat foldr]; rewrite ?zlen_app, ?zlen_be64, ?Hw, ?Hs, ?Hi; reflexivity|]). done. }
  assert (forall i f off n, fs !! i = Some f -> foldr Z.add 0 (take i [1; 1; 32; 32; 16; 8; 1; 1; 1]) = off -> zlen f = n -> slice off n rec = f) as R.
  { intros i f off n Hf Hoff Hn. unfold rec, signed. rewrite <- (app_nil_r sig). change (sig ++ []) with (concat [sig]). rewrite <- concat_app.
    apply (slice_field (fs ++ [sig]) i); [by apply lookup_app_l_Some| |done]. rewrite take_app_le by (apply lookup_lt_Some in Hf; lia).
    by rewrite (T i f Hf). }
  assert (peek rec 0 = 1 /\ peek rec 1 = object /\ peek rec 90 = Z.shiftr setting 8 /\ peek rec 91 = Z.land setting 255 /\ peek rec 92 = zlen body)
    as (P0 & P1 & P90 & P91 & P92).
  { split_and!; (apply peek_of; [lia|]); [apply (R 0%nat)|apply (R 1%nat)|apply (R 6%nat)|apply (R 7%nat)|apply (R 8%nat)]; done. }
  assert (slice 66 16 rec = incarnation) as Rinc by (apply (R 4%nat); [done|done|done]).
  exists (rec ++ drop 64 (drop (length signed) out)). split_and!.
  - unfold mint. cbn [mbind option_bind]. rewrite Hsg, Hz. change FZN_ROSTER_BODY_MAX with 192. rewrite Z.gtb_ltb, L. destruct (Z.ltb_spec 192 (zlen body)); [lia|].
    destruct (Z.ltb_spec (zlen out) (157 + zlen body)); [lia|]. cbn [orb]. rewrite Hwrite. change FZN_ROSTER_HEADER_LEN with 93. rewrite slice_front by done.
    rewrite Hsign, blit_next by done. change FZN_SIG_LEN with 64. replace (length sig) with 64%nat by (unfold zlen in Hsig; lia).
    do 2 f_equal. lia.
  - rewrite slice_front; [done|]. unfold rec. rewrite zlen_app. lia.
  - unfold fzn_roster_open. change FZN_ROSTER_MIN_LEN with 157. change FZN_ROSTER_MAX_LEN with 349. change FZN_ROSTER_OFF_OBJECT with 1.
    change FZN_ROSTER_OFF_BODY_LEN with 92. change FZN_ROSTER_OFF_VERSION with 0. change FZN_ROSTER_OFF_INCARNATION with 66.
    change FZN_ROSTER_INCARNATION_LEN with 16. change FZN_ROSTER_OFF_SETTING with 90. change (90 + 1) with 91. rewrite P0, P1, P90, P91, P92, Rinc, Hobj, Hz, L.
    assert (zlen rec = 157 + zlen body) as -> by (unfold rec; rewrite zlen_app; lia). rewrite !Z.gtb_ltb.
    change FZN_ROSTER_BODY_MAX with 192. destruct (Z.ltb_spec (157 + zlen body) 157); [lia|]. destruct (Z.ltb_spec 349 (157 + zlen body)); [lia|].
    destruct (Z.ltb_spec 192 (zlen body)); [lia|]. rewrite Z.eqb_refl. cbn [orb negb]. change (1 =? FZN_SIGNED_VERSION) with true. cbn [orb negb].
    destruct (Z.eqb_spec object FZN_OBJECT_ROSTER_SET) as [|Hne]; rewrite Z.eqb_refl; cbn [negb andb orb]; [done|]. destruct (Hplain Hne) as [-> ->]. reflexivity.
  - exact P1.
  - apply (R 2%nat); [done|done|done].
  - apply (R 3%nat); [done|done|done].
  - exact Rinc.
  - unfold fzn_roster_seq. apply get_be64_of; [done|done|]. apply (R 5%nat); [done|done|apply zlen_be64].
Qed.
