(* ===== verification/RosterConverge.v ===== *)
(** * roster/roster.c: removal, and two rosters that were told the same

    Over any admissions what is read of an incarnation only goes up; and two
    rosters told the same records read alike, in whatever order. *)

From stdpp Require Import sets.
From S2P Require Import Prelude Bytes Hop Revocation Chain Roster RosterReads.

(** ** Runs *)

Lemma told_within m v err v' : told m v err v' -> within v v'.
Proof.
  unfold told. destruct (st_add m).
  - destruct (fst v) as [[[q w] act]|] eqn:E; [by intros [-> _]|]. intros [[_ ->]|[_ ->]]; [done|]. split; cbn; [by rewrite E|done].
  - intros [[_ ->]|[_ [[_ ->]|[_ ->]]]]; [done|done|]. split; cbn [fst snd]; [done|]. intros x Hx. apply elem_of_app. by left.
Qed.

Lemma step_within r op : roster_ok r -> roster_ok (snd (roster_step r op)) /\ forall s k, within (view_of r s k) (view_of (snd (roster_step r op)) s k).
Proof.
  intros Hr. destruct (roster_step r op) as [err r'] eqn:E. destruct (admission_spec r op err r' Hr E) as [Hr' H]. cbn [snd]. split; [done|].
  intros s k. destruct (said op) as [m|]; [|by rewrite H]. destruct H as [Ht Ho].
  destruct (decide ((s, k) = (st_subject m, st_incarnation m))) as [[= -> ->]|Hne]; [by eapply told_within|by rewrite Ho].
Qed.

Lemma run_within ops : forall r, roster_ok r -> roster_ok (roster_run r ops) /\ forall s k, within (view_of r s k) (view_of (roster_run r ops) s k).
Proof.
  induction ops as [|op ops IH]; intros r Hr; [done|]. destruct (step_within r op Hr) as [Hr' Hv]. destruct (IH _ Hr') as [Hr'' Hv'].
  split; [done|]. intros s k. by eapply within_trans.
Qed.

Lemma roster_init_ok r0 capacity writers r : fzn_roster_init r0 capacity writers = (FZN_ROSTER_OK, r) ->
  roster_ok r /\ forall s k, view_of r s k = (None, []).
Proof.
  unfold fzn_roster_init. destruct (_ || _); [done|]. intros [= <-]. split; [|done].
  split; cbn; [constructor|constructor|constructor|]. by intros e ?%elem_of_nil.
Qed.

(** ** The active incarnation *)

Definition higher (x y : Z * bytes) : Prop := fst y < fst x \/ (fst x = fst y /\ 0 < memcmp (snd x) (snd y)).

Definition add_place (v : view) : option (Z * bytes) := (fun x => (fst (fst x), rw_key (snd (fst x)))) <$> fst v.

Lemma higher_trans x y z : zlen (snd x) = 32 -> zlen (snd y) = 32 -> zlen (snd z) = 32 -> higher x y -> higher y z -> higher x z.
Proof.
  unfold higher, zlen. intros Hx Hy Hz [?|[E1 H1]] [?|[E2 H2]]; try (left; lia). right. split; [lia|].
  apply (memcmp_gt_trans _ (snd y)); lia.
Qed.

Section Active.
Context (r : fzn_roster) (subject : bytes) (revocations : option fzn_revocation_store) (k : Z).
Hypothesis Hr : roster_ok r.

Definition is_active (e : fzn_roster_entry) : Prop := e ∈ ro_entries r /\ re_subject e = subject /\ judge r e revocations k = FZN_ROSTER_ACTIVE.
Definition place (e : fzn_roster_entry) : Z * bytes := (re_add_seq e, add_key r e).

(** An active entry has an add, whose place is its view's. *)
Lemma active_place e : is_active e -> add_place (view_in (ro_writers r) e) = Some (place e) /\ zlen (add_key r e) = 32.
Proof.
  intros (He & _ & Hj). destruct (rk_known r Hr e He) as (H1 & _ & _).
  assert (re_added e = true) as Ha.
  { unfold judge in Hj. destruct (judge_loop _ _ _ _); [|done]. destruct (_ >=? _); [done|]. destruct (_ >? _); [done|]. by destruct (re_added e). }
  destruct (lookup_lt_is_Some_2 (ro_writers r) (re_add_writer e) (H1 Ha)) as [x Hx].
  unfold add_place, view_in, place, add_key. cbn [fst]. rewrite Ha, Hx. split; [done|]. cbn.
  by apply (proj1 (list.Forall_lookup _ _) (rk_lens r Hr) (re_add_writer e)).
Qed.

Lemma beats_higher a b : beats r a b = true <-> higher (place a) (place b).
Proof.
  unfold beats, higher, place. cbn [fst snd]. destruct (Z.eqb_spec (re_add_seq a) (re_add_seq b)); cbn [negb]; lia.
Qed.

Lemma active_loop_spec es : forall best, (forall e, e ∈ es -> e ∈ ro_entries r) -> (forall b, best = Some b -> is_active b) ->
  match active_loop r subject revocations k es best with
  | None => best = None /\ forall e, e ∈ es -> ~ is_active e
  | Some b => is_active b /\ forall e, (e ∈ es /\ is_active e) \/ best = Some e -> ~ higher (place e) (place b)
  end.
Proof.
  induction es as [|e es IH]; intros best Hes Hbest; cbn [active_loop].
  { destruct best as [b|]; [|split; [done|by intros ? ?%elem_of_nil]]. split; [by apply Hbest|].
    intros e [[?%elem_of_nil _]|[= ->]]; [done|]. pose proof (memcmp_opp (snd (place e)) (snd (place e))). unfold higher. lia. }
  assert (forall e, e ∈ es -> e ∈ ro_entries r) as Hes' by (intros; apply Hes; by right).
  destruct (negb (memeq (re_subject e) subject) || negb (bool_decide (judge r e revocations k = FZN_ROSTER_ACTIVE))) eqn:Ea.
  - assert (~ is_active e) as Hna.
    { intros (_ & Hs & Hj). rewrite Hs, memeq_refl, Hj, bool_decide_true in Ea by done. done. }
    specialize (IH best Hes' Hbest). destruct (active_loop _ _ _ _ es best) as [b|].
    + destruct IH as [H1 H2]. split; [done|]. intros e' [[[-> |He']%elem_of_cons Hac]|He']; [done|apply H2; auto|apply H2; auto].
    + destruct IH as [H1 H2]. split; [done|]. intros e' [-> |He']%elem_of_cons; [done|by apply H2].
  - assert (is_active e) as Hac.
    { apply orb_false_iff in Ea as [E1 E2]. apply negb_false_iff in E1, E2. rewrite memeq_true in E1. apply bool_decide_eq_true in E2.
      split_and!; [apply Hes; left|done|done]. }
    destruct (match best with None => true | Some b => beats r e b end) eqn:Eb.
    + specialize (IH (Some e) Hes' ltac:(by intros ? [= <-])). destruct (active_loop _ _ _ _ es (Some e)) as [b|]; [|by destruct IH].
      destruct IH as [H1 H2]. split; [done|]. intros e' [[[-> |He']%elem_of_cons Hac']|He']; [apply H2; auto|apply H2; auto|].
      subst best. apply beats_higher in Eb. intros Hhi. apply (H2 e); [by right|].
      apply (higher_trans _ (place e')); [by apply active_place|by apply active_place, Hbest|by apply active_place|done|done].
    + destruct best as [b0|]; [|done]. specialize (IH (Some b0) Hes' Hbest). destruct (active_loop _ _ _ _ es (Some b0)) as [b|]; [|by destruct IH].
      destruct IH as [H1 H2]. split; [done|]. intros e' [[[-> |He']%elem_of_cons Hac']|He']; [|apply H2; auto|apply H2; auto].
      intros Hhi. pose proof (H2 b0 (or_intror eq_refl)) as Hb0.
      assert (~ higher (place e) (place b0)) as Hnb by (rewrite <- beats_higher; congruence).
      destruct (active_place e Hac) as [_ Le], (active_place b H1) as [_ Lb], (active_place b0 (Hbest b0 eq_refl)) as [_ L0].
      unfold higher, place, zlen in *. cbn [fst snd] in *. pose proof (memcmp_opp (add_key r b0) (add_key r e)) as O1.
      pose proof (memcmp_trans (add_key r e) (add_key r b0) (add_key r b) ltac:(lia) ltac:(lia)) as T. lia.
Qed.
End Active.

Lemma state_active_entry r s i revocations k : roster_ok r -> fzn_roster_state r s i revocations k = FZN_ROSTER_ACTIVE <->
  exists e, is_active r s revocations k e /\ re_incarnation e = i.
Proof.
  intros Hr. unfold fzn_roster_state. split.
  - destruct (find r s i ≫= _) as [e|] eqn:E; [|done]. intros Hj. apply bind_Some in E as (j & Hf & He). apply find_found in Hf as (e' & He' & [= Hs Hi]).
    assert (e' = e) as -> by congruence. exists e. split; [|done]. split_and!; [|done|done]. by apply list_elem_of_lookup_2 in He.
  - intros (e & (He & <- & Hj) & <-). apply list_elem_of_lookup in He as [j Hj']. rewrite (find_at r j e Hr Hj'). cbn [mbind option_bind]. by rewrite Hj'.
Qed.

(** The active incarnation is one whose add no other active one's is above. *)
Lemma active_spec r s revocations k : roster_ok r ->
  match fzn_roster_active r s revocations k with
  | None => forall i, fzn_roster_state r s i revocations k <> FZN_ROSTER_ACTIVE
  | Some i => fzn_roster_state r s i revocations k = FZN_ROSTER_ACTIVE /\ exists x, add_place (view_of r s i) = Some x /\
      forall j y, fzn_roster_state r s j revocations k = FZN_ROSTER_ACTIVE -> add_place (view_of r s j) = Some y -> ~ higher y x
  end.
Proof.
  intros Hr. unfold fzn_roster_active.
  pose proof (active_loop_spec r s revocations k Hr (ro_entries r) None ltac:(done) ltac:(done)) as H.
  destruct (active_loop _ _ _ _ _ None) as [b|]; cbn [fmap option_fmap option_map].
  - destruct H as [Hb Hmax]. pose proof Hb as (Hin & Hs & _). split; [apply state_active_entry; [done|by exists b]|].
    exists (place r b). split; [rewrite <- Hs, view_at by done; by apply (active_place r s revocations k)|].
    intros j y Hj Hy. apply state_active_entry in Hj as (e & He & <-); [|done]. pose proof He as (Hine & Hse & _).
    rewrite <- Hse, view_at in Hy by done. destruct (active_place r s revocations k Hr e He) as [E _]. rewrite E in Hy. injection Hy as <-.
    apply Hmax. by left.
  - destruct H as [_ Hno]. intros i Hi. apply state_active_entry in Hi as (e & He & _); [|done]. pose proof He as (Hin & _). by apply (Hno e Hin).
Qed.

(** ** Removal *)

(** C19: What is removed stays removed. Over any admissions, whoever wrote the
    records, whatever chains came with them and in whatever order: under the
    same revocations what is read of an incarnation only goes up, from nothing
    to active, suspended and retired; and an incarnation that was suspended or
    retired is never again its subject's active one. *)
Theorem removed_stays_removed r0 capacity writers r before after subject incarnation revocations k :
  fzn_roster_init r0 capacity writers = (FZN_ROSTER_OK, r) -> 0 <= k ->
  let r1 := roster_run r before in
  let r2 := roster_run r1 after in
  state_rank (fzn_roster_state r1 subject incarnation revocations k) <= state_rank (fzn_roster_state r2 subject incarnation revocations k) /\
  (fzn_roster_active r2 subject revocations k = Some incarnation ->
     fzn_roster_state r1 subject incarnation revocations k = FZN_ROSTER_ABSENT \/
     fzn_roster_state r1 subject incarnation revocations k = FZN_ROSTER_ACTIVE).
Proof.
  intros [Hr _]%roster_init_ok Hk r1 r2. destruct (run_within before r Hr) as [Hr1 _]. destruct (run_within after r1 Hr1) as [Hr2 Hv].
  assert (state_rank (fzn_roster_state r1 subject incarnation revocations k) <= state_rank (fzn_roster_state r2 subject incarnation revocations k)) as Hup.
  { rewrite !state_is_view by done. apply judge_grows, Hv. }
  split; [done|]. intros Ha. pose proof (active_spec r2 subject revocations k Hr2) as H. rewrite Ha in H. destruct H as [Hs _].
  fold r1 r2 in Hup |- *. rewrite Hs in Hup. cbn in Hup. destruct (fzn_roster_state r1 subject incarnation revocations k); cbn in Hup; auto; lia.
Qed.

(** ** Convergence *)

(** The answers of a run. *)
Fixpoint roster_answers (r : fzn_roster) (ops : list roster_op) : list fzn_roster_err :=
  match ops with [] => [] | op :: ops => fst (roster_step r op) :: roster_answers (snd (roster_step r op)) ops end.

(** Nobody contradicts: an incarnation is added in one way, a writer removes it
    in one way, and no two adds of a subject have one place. *)
Definition one_voice (ops : list roster_op) : Prop := forall a b m n, a ∈ ops -> b ∈ ops -> said a = Some m -> said b = Some n ->
  st_subject m = st_subject n ->
  (st_add m = true -> st_add n = true -> st_incarnation m = st_incarnation n ->
     (st_seq m, st_writer m, st_act m) = (st_seq n, st_writer n, st_act n)) /\
  (st_add m = false -> st_add n = false -> st_incarnation m = st_incarnation n -> st_writer m = st_writer n -> st_act m = st_act n) /\
  (st_add m = true -> st_add n = true -> st_seq m = st_seq n -> rw_key (st_writer m) = rw_key (st_writer n) -> st_incarnation m = st_incarnation n).

Definition says_of (ops : list roster_op) (add : bool) (s i : bytes) (m : statement) : Prop :=
  (exists op, op ∈ ops /\ said op = Some m) /\ st_add m = add /\ st_subject m = s /\ st_incarnation m = i.

(** A roster holds what was said, all of it. *)
Definition tells (ops : list roster_op) (r : fzn_roster) : Prop := forall s i,
  (forall x, fst (view_of r s i) = Some x <-> exists m, says_of ops true s i m /\ x = (st_seq m, st_writer m, st_act m)) /\
  (forall x, x ∈ snd (view_of r s i) <-> exists m, says_of ops false s i m /\ x = (st_writer m, st_act m)).

Lemma says_snoc ops op add s i m : says_of (ops ++ [op]) add s i m <->
  says_of ops add s i m \/ (said op = Some m /\ st_add m = add /\ st_subject m = s /\ st_incarnation m = i).
Proof.
  unfold says_of. split.
  - intros [(o & [Ho| ->%list_elem_of_singleton]%elem_of_app & Hs) H]; [left|by right]. split; [by exists o|done].
  - intros [[(o & Ho & Hs) H]|[Hs H]]; (split; [|done]).
    + exists o. by rewrite elem_of_app; auto.
    + exists op. rewrite elem_of_app, list_elem_of_singleton. auto.
Qed.

Lemma said_key op m : said op = Some m -> zlen (rw_key (st_writer m)) = FZN_PUBKEY_LEN.
Proof.
  unfold said. destruct (verify _); [|done]. destruct (_ && _); [done|]. destruct (fzn_roster_open (rop_record op)) as [[] [rec|]] eqn:E; try done.
  destruct (negb _); [done|]. destruct (_ =? FZN_OBJECT_ROSTER_SET); [done|]. destruct (negb _); [done|].
  destruct (act_of _ _); [|done]. destruct (hop_acts _ _); [|done]. intros [= <-]. by apply opened_key in E.
Qed.

Lemma tells_step all seen op r : one_voice all -> (forall o, o ∈ seen -> o ∈ all) -> op ∈ all -> roster_ok r -> tells seen r ->
  fst (roster_step r op) <> FZN_ROSTER_ERR_FULL -> tells (seen ++ [op]) (snd (roster_step r op)).
Proof.
  intros Hv Hseen Hop Hr Ht Hfull s i. destruct (roster_step r op) as [err r'] eqn:E. destruct (admission_spec r op err r' Hr E) as [_ H].
  cbn [fst snd] in *. destruct (Ht s i) as [Hadd Hrem].
  assert (forall add m, says_of seen add s i m -> says_of (seen ++ [op]) add s i m) as Hold by (intros; apply says_snoc; by left).
  destruct (said op) as [m|] eqn:Em.
  2:{ rewrite H. assert (forall add m, says_of (seen ++ [op]) add s i m -> says_of seen add s i m) as Hback.
      { intros add m [?|[? _]]%says_snoc; [done|congruence]. }
      split; intros x; [rewrite Hadd|rewrite Hrem]; split; intros (m & Hm & ->); exists m; auto. }
  destruct H as [Htold Hother]. destruct (decide ((s, i) = (st_subject m, st_incarnation m))) as [[= -> ->]|Hne].
  2:{ rewrite Hother by done. assert (forall add m, says_of (seen ++ [op]) add s i m -> says_of seen add s i m) as Hback.
      { intros add m' [?|(Hs & _ & Hs1 & Hs2)]%says_snoc; [done|]. rewrite Em in Hs. injection Hs as <-. by rewrite Hs1, Hs2 in Hne. }
      split; intros x; [rewrite Hadd|rewrite Hrem]; split; intros (m' & Hm & ->); exists m'; auto. }
  assert (says_of (seen ++ [op]) (st_add m) (st_subject m) (st_incarnation m) m) as Hnew by (apply says_snoc; by right).
  assert (forall add m', says_of (seen ++ [op]) add (st_subject m) (st_incarnation m) m' ->
    says_of seen add (st_subject m) (st_incarnation m) m' \/ (m' = m /\ add = st_add m)) as Hback.
  { intros add m' [?|(Hs & Ha & _)]%says_snoc; [by left|right]. rewrite Em in Hs. injection Hs as <-. by split. }
  assert (forall add m', says_of seen add (st_subject m) (st_incarnation m) m' -> exists o, o ∈ all /\ said o = Some m' /\ st_add m' = add /\
    st_subject m' = st_subject m /\ st_incarnation m' = st_incarnation m) as Hall.
  { intros add m' ((o & Ho & Hs) & H1 & H2 & H3). exists o. auto 6. }
  unfold told in Htold. destruct (st_add m) eqn:Eadd.
  - destruct (fst (view_of r _ _)) as [[[q w] act]|] eqn:Ev.
    + destruct Htold as [-> _]. rewrite Ev. split; intros x.
      * rewrite Hadd. split; [intros (m' & Hm & ->); exists m'; auto|]. intros (m' & [Hm|[-> _]]%Hback & ->); [by exists m'|].
        destruct (proj1 (Hadd _) eq_refl) as (m0 & Hm0 & E0). destruct (Hall _ _ Hm0) as (o & Ho & Hso & Ha0 & Hs0 & Hi0).
        exists m0. split; [done|]. symmetry. by apply (Hv o op m0 m Ho Hop Hso Em).
      * rewrite Hrem. split; intros (m' & Hm & ->); [exists m'; auto|]. apply Hback in Hm as [Hm|[_ ?]]; [by exists m'|done].
    + destruct Htold as [[-> _]|[_ ->]]; [done|]. cbn [fst snd]. split; intros x.
      * split; [intros [= <-]; by exists m|]. intros (m' & [Hm|[-> _]]%Hback & ->); [|done].
        assert (None = Some (st_seq m', st_writer m', st_act m')) as H; [|discriminate H]. apply Hadd. by exists m'.
      * rewrite Hrem. split; intros (m' & Hm & ->); [exists m'; auto|]. apply Hback in Hm as [Hm|[_ ?]]; [by exists m'|done].
  - destruct Htold as [[-> _]|[_ [[Hin ->]|[Hnin ->]]]]; [done| |]; cbn [fst snd]; split; intros x.
    + rewrite Hadd. split; intros (m' & Hm & ->); [exists m'; auto|]. apply Hback in Hm as [Hm|[_ ?]]; [by exists m'|done].
    + rewrite Hrem. split; intros (m' & Hm & ->); [exists m'; auto|]. apply Hback in Hm as [Hm|[-> _]]; [by exists m'|].
      apply list_elem_of_fmap in Hin as (y & Ey & Hy). apply Hrem in Hy as (m0 & Hm0 & ->). cbn [fst] in Ey.
      destruct (Hall _ _ Hm0) as (o & Ho & Hso & Ha0 & Hs0 & Hi0). exists m0. split; [done|]. rewrite Ey. f_equal. symmetry.
      by apply (Hv o op m0 m Ho Hop Hso Em).
    + rewrite Hadd. split; intros (m' & Hm & ->); [exists m'; auto|]. apply Hback in Hm as [Hm|[_ ?]]; [by exists m'|done].
    + rewrite elem_of_app, list_elem_of_singleton, Hrem. split; [intros [(m' & Hm & ->)| ->]; [exists m'; auto|by exists m]|].
      intros (m' & [Hm|[-> _]]%Hback & ->); [left; by exists m'|by right].
Qed.

Lemma tells_run all ops : forall seen r, one_voice all -> (forall o, o ∈ seen \/ o ∈ ops -> o ∈ all) -> roster_ok r -> tells seen r ->
  Forall (fun err => err <> FZN_ROSTER_ERR_FULL) (roster_answers r ops) -> tells (seen ++ ops) (roster_run r ops).
Proof.
  induction ops as [|op ops IH]; intros seen r Hv Hall Hr Ht Hf; [by rewrite app_nil_r|]. cbn [roster_answers] in Hf.
  apply Forall_cons_iff in Hf as [Hf Hfs]. rewrite cons_middle, app_assoc. apply IH; try done.
  - intros o [[Ho| ->%list_elem_of_singleton]%elem_of_app|Ho]; apply Hall; [by left|right; left|right; by right].
  - by apply step_within.
  - apply (tells_step all); try done; [intros o Ho; apply Hall; by left|apply Hall; right; left].
Qed.

Lemma tells_within ops ops' r r' s i : (forall o, o ∈ ops -> o ∈ ops') -> tells ops r -> tells ops' r' -> within (view_of r s i) (view_of r' s i).
Proof.
  intros Hin Ht Ht'. destruct (Ht s i) as [Ha Hm], (Ht' s i) as [Ha' Hm'].
  assert (forall add m, says_of ops add s i m -> says_of ops' add s i m) as H by (intros add m ((o & Ho & Hs) & ?); split; [exists o; auto|done]).
  split; intros x; [rewrite Ha, Ha'|rewrite Hm, Hm']; intros (m & Hsm & ->); exists m; auto.
Qed.

(** C9: Rosters converge. Two rosters, of whatever sizes, that are told the
    same records, each any number of times and in any order, read alike under
    any revocations and any [k], every incarnation and the active one of every
    subject: where nobody contradicts and neither was full. *)
Theorem rosters_converge r0 c w r r0' c' w' r' ops ops' :
  fzn_roster_init r0 c w = (FZN_ROSTER_OK, r) -> fzn_roster_init r0' c' w' = (FZN_ROSTER_OK, r') ->
  (forall op, op ∈ ops <-> op ∈ ops') -> one_voice ops ->
  Forall (fun err => err <> FZN_ROSTER_ERR_FULL) (roster_answers r ops) ->
  Forall (fun err => err <> FZN_ROSTER_ERR_FULL) (roster_answers r' ops') ->
  forall subject revocations k, 0 <= k ->
    (forall incarnation, fzn_roster_state (roster_run r ops) subject incarnation revocations k =
       fzn_roster_state (roster_run r' ops') subject incarnation revocations k) /\
    fzn_roster_active (roster_run r ops) subject revocations k = fzn_roster_active (roster_run r' ops') subject revocations k.
Proof.
  intros [Hr Hz]%roster_init_ok [Hr' Hz']%roster_init_ok Hsame Hv Hf Hf' s revocations k Hk.
  assert (forall r, (forall s k, view_of r s k = (None, [])) -> tells [] r) as Hnil.
  { assert (forall add s i m, ~ says_of [] add s i m) as Hno by (by intros add s1 i m ((o & ?%elem_of_nil & _) & _)).
    intros r1 H s1 i. rewrite H. cbn [fst snd]. split; intros x; split; [done| |by intros ?%elem_of_nil|]; intros (m & Hm & _); by destruct (Hno _ _ _ _ Hm). }
  pose proof (tells_run ops ops [] r Hv ltac:(intros o [?%elem_of_nil|]; done) Hr (Hnil r Hz) Hf) as Ht.
  pose proof (tells_run ops ops' [] r' Hv ltac:(intros o [?%elem_of_nil|?%Hsame]; done) Hr' (Hnil r' Hz') Hf') as Ht'. cbn [app] in Ht, Ht'.
  assert (forall i, within (view_of (roster_run r ops) s i) (view_of (roster_run r' ops') s i)) as W by (intros i; eapply tells_within; [|done..]; apply Hsame).
  assert (forall i, within (view_of (roster_run r' ops') s i) (view_of (roster_run r ops) s i)) as W' by (intros i; eapply tells_within; [|done..]; apply Hsame).
  assert (forall i, fzn_roster_state (roster_run r ops) s i revocations k = fzn_roster_state (roster_run r' ops') s i revocations k) as Hst.
  { intros i. rewrite !state_is_view by done. by apply judge_same. }
  split; [done|]. pose proof (active_spec (roster_run r ops) s revocations k (proj1 (run_within ops r Hr))) as A.
  pose proof (active_spec (roster_run r' ops') s revocations k (proj1 (run_within ops' r' Hr'))) as A'.
  assert (forall i x, add_place (view_of (roster_run r ops) s i) = Some x <-> add_place (view_of (roster_run r' ops') s i) = Some x) as P.
  { intros i x. unfold add_place. rewrite !fmap_Some. split; intros (y & Hy & ->); exists y; (split; [by apply W || by apply W'|done]). }
  destruct (fzn_roster_active (roster_run r ops) s revocations k) as [i|], (fzn_roster_active (roster_run r' ops') s revocations k) as [j|]; try done.
  - destruct A as (Hi & x & Hx & Hmax), A' as (Hj & y & Hy & Hmax'). f_equal. rewrite <- Hst in Hj. rewrite <- P in Hy.
    pose proof (Hmax j y Hj Hy) as H1. assert (~ higher x y) as H2 by (apply (Hmax' i); [by rewrite <- Hst|by apply P]).
    unfold add_place in Hx, Hy. rewrite fmap_Some in Hx, Hy. destruct Hx as (xx & Hx & ->), Hy as (yy & Hy & ->).
    destruct (Ht s i) as [Hai _], (Ht s j) as [Haj _].
    apply Hai in Hx as (m & ((o & Ho & Hso) & Hm1 & Hm2 & Hm3) & ->). apply Haj in Hy as (n & ((p & Hp & Hsp) & Hn1 & Hn2 & Hn3) & ->).
    rewrite <- Hm3, <- Hn3. unfold higher in H1, H2. cbn [fst snd] in H1, H2. pose proof (memcmp_opp (rw_key (st_writer m)) (rw_key (st_writer n))).
    apply (Hv o p m n Ho Hp Hso Hsp); [congruence|done|done|lia|]. apply memcmp_zero; [|lia].
    apply said_key in Hso, Hsp. unfold zlen in *. lia.
  - destruct A as [Hi _]. by destruct (A' i); rewrite <- Hst.
  - destruct A' as [Hj _]. by destruct (A j); rewrite Hst.
Qed.

(** ** Witnesses *)

Definition toy_roster_vf (key msg sig : bytes) : bool := memeq sig (replicate 64 (peek key 0)).
Definition demo_authority : fzn_roster_authority :=
  mk_authority (replicate 32 1) (replicate 32 9) (mk_sign (Some toy_roster_vf) None) None None.

(** What the root says of subject 7. *)
Definition demo_rop (object incarnation seq : Z) : roster_op :=
  mk_rop ([1; object] ++ replicate 32 1 ++ replicate 32 7 ++ replicate 16 incarnation ++ be64 seq ++ [0; 0; 0] ++ replicate 64 1) [] demo_authority.

Definition demo_roster : fzn_roster := mk_roster [] 4 [] 4 0.

(** Two adds of one incarnation that differ: the first to arrive is held, and
    another incarnation of the subject is active in the one order and not in
    the other. *)
Lemma contradicting_adds_diverge :
  let a := demo_rop FZN_OBJECT_ROSTER_ADD 5 1 in
  let b := demo_rop FZN_OBJECT_ROSTER_ADD 5 3 in
  let other := demo_rop FZN_OBJECT_ROSTER_ADD 6 2 in
  fzn_roster_active (roster_run demo_roster [a; other; b]) (replicate 32 7) None 2 = Some (replicate 16 6) /\
  fzn_roster_active (roster_run demo_roster [b; other; a]) (replicate 32 7) None 2 = Some (replicate 16 5).
Proof. split; vm_compute; reflexivity. Qed.

Lemma removed_stays_removed_witness :
  let before := [demo_rop FZN_OBJECT_ROSTER_ADD 5 1; demo_rop FZN_OBJECT_ROSTER_REMOVE 5 2] in
  let after := [demo_rop FZN_OBJECT_ROSTER_ADD 5 9; demo_rop FZN_OBJECT_ROSTER_ADD 6 3] in
  let r1 := roster_run demo_roster before in
  fzn_roster_state r1 (replicate 32 7) (replicate 16 5) None 2 = FZN_ROSTER_RETIRED /\
  fzn_roster_state (roster_run r1 after) (replicate 32 7) (replicate 16 5) None 2 = FZN_ROSTER_RETIRED /\
  fzn_roster_active (roster_run r1 after) (replicate 32 7) None 2 = Some (replicate 16 6).
Proof.
  intros before after r1. assert (fzn_roster_state r1 (replicate 32 7) (replicate 16 5) None 2 = FZN_ROSTER_RETIRED) as Hs by (vm_compute; reflexivity).
  split; [done|]. split; [|vm_compute; reflexivity].
  destruct (removed_stays_removed demo_roster 4 4 demo_roster before after (replicate 32 7) (replicate 16 5) None 2 eq_refl ltac:(done)) as [H _].
  fold r1 in H. rewrite Hs in H. cbn [state_rank] in H. destruct (fzn_roster_state (roster_run r1 after) _ _ _ _); cbn in H; [lia|lia|lia|done].
Defined.

Lemma rosters_converge_witness :
  let a := demo_rop FZN_OBJECT_ROSTER_ADD 5 1 in
  let b := demo_rop FZN_OBJECT_ROSTER_REMOVE 5 2 in
  fzn_roster_state (roster_run demo_roster [a; b]) (replicate 32 7) (replicate 16 5) None 2 =
    fzn_roster_state (roster_run demo_roster [b; b; a]) (replicate 32 7) (replicate 16 5) None 2 /\
  fzn_roster_state (roster_run demo_roster [a; b]) (replicate 32 7) (replicate 16 5) None 2 = FZN_ROSTER_RETIRED.
Proof.
  intros a b. split; [|vm_compute; reflexivity].
  assert (exists m, said a = Some m /\ st_add m = true) as (ma & Ea & Ha) by (eexists; split; vm_compute; reflexivity).
  assert (exists m, said b = Some m /\ st_add m = false) as (mb & Eb & Hb) by (eexists; split; vm_compute; reflexivity).
  refine (proj1 (rosters_converge demo_roster 4 4 demo_roster demo_roster 4 4 demo_roster [a; b] [b; b; a] eq_refl eq_refl _ _ _ _ (replicate 32 7) None 2 _) (replicate 16 5)).
  - intros op. rewrite !elem_of_cons, elem_of_nil. tauto.
  - intros x y m n Hx Hy Em En _. rewrite !elem_of_cons, elem_of_nil in Hx, Hy.
    destruct Hx as [-> |[-> |[]]], Hy as [-> |[-> |[]]]; rewrite ?Ea, ?Eb in Em, En; simplify_eq; split_and!; congruence.
  - vm_compute. repeat (constructor; [discriminate|]). constructor.
  - vm_compute. repeat (constructor; [discriminate|]). constructor.
  - done.
Defined.
